(* ===== verification/_CoqProject ===== *)
-Q . S2P
Prelude.v
ArithUint256.v
Compact.v
Block.v
Chain.v
Pow.v
Headers.v
Serialize.v
Transaction.v
Double.v
Rewards.v
Script.v
Interpreter.v
SigHash.v
Coins.v
Undo.v
TxVerify.v
Compressor.v
Merkle.v
VersionBits.v
BlockCheck.v
BlockConnect.v
ChainState.v
BestChain.v
Activate.v
Invalidate.v
Receive.v
BlockFiles.v
NewBlock.v
HashStream.v
HashRounds.v
Sha2.v
Sha256.v
Sha512.v
Sha1.v
Ripemd160.v
Hashers.v
SipHash.v
GhostRider.v
Base58.v
Standard.v
ProTx.v
Smartnodes.v
SmartnodeDiff.v
NetAddress.v
SmartnodePayee.v
Quorum.v
ProTxCheck.v
SmartnodeManager.v
SmartnodeBlock.v
SmartnodeStore.v
QuorumBlocks.v
SpecialTxs.v
Bloom.v
