(* ===== verification/Prelude.v ===== *)
(** * But Core: a verification development of the consensus core

    But Core is a full node of a proof-of-work coin with several mining
    algorithms, a fork of the Bitcoin, Dash and Raptoreum code.  This library
    models the part of it on which nodes have to agree: 256-bit arithmetic and
    targets, the block index, difficulty, header acceptance, transactions and
    their serialization, rewards, scripts and signature hashes, the set of
    unspent coins and its updates, Merkle trees, version bits, the checks of a
    transaction and of a block, the choice of the active chain and the block
    files, the hash functions, addresses and standard scripts, the filters of
    light clients, and the special transactions with the lists of deterministic
    smartnodes and the commitments of quorums that they maintain.  The sources are
    under src/src/.

    ** How the parts fit together

    A header arrives at [AcceptBlockHeader] (Headers).  It asks [pow.cpp] for the
    required target (Pow), which walks the block index (Chain) and computes with
    [arith_uint256] (ArithUint256, Compact); the header joins the index with its
    skip pointer and its work.  When the block arrives it is checked by itself
    (BlockCheck, with the root of Merkle) and noted in the index
    ([ReceivedBlockTransactions], Receive), and [ActivateBestChain] (ChainState,
    BestChain, Activate) moves the tip to the best candidate, one
    [DisconnectBlock] or [ConnectBlock] at a time; the user can forbid a block or
    allow it again (Invalidate).  [ConnectBlock] (BlockConnect) checks the
    transactions (Transaction, on Serialize) against the coins they spend
    (TxVerify), runs the scripts of their inputs (Script, Interpreter) with
    signatures over the message of SigHash, compares the coinbase with what
    Rewards says, and updates the coin set (Undo) through a stack of caches over
    the database (Coins), which stores coins and undo data compressed
    (Compressor).  [ProcessNewBlock] (NewBlock) is the composition: checks,
    header, storage in the block files (BlockFiles), activation.

    Provider transactions (ProTx) register and update smartnodes.  They are
    checked (ProTxCheck) against the list of the block before, and the manager
    (SmartnodeManager) builds the list of the new block (Smartnodes), which is
    stored as a difference to the one before (SmartnodeDiff) and says whom the
    next block pays and who is in a quorum (SmartnodePayee).  The members of a
    quorum sign a commitment (Quorum), which a block of the mining window has to
    carry (QuorumBlocks).  [ProcessSpecialTxsInBlock] (SpecialTxs) is the
    composition: the checks, the commitments, the new list, and the Merkle roots
    of both in the coinbase; [UndoSpecialTxsInBlock] reverses it.

    A light client loads a filter (Bloom) into the node and gets the matching
    transactions of a block with a partial Merkle tree (Merkle).

    ** Files

    - Prelude: fixed-width integers, the [result] monad of errors, tactics, and
      the generic lemmas on bits, lists and integers.
    - ArithUint256 (arith_uint256.h, arith_uint256.cpp): [base_uint] as a list of
      32-bit limbs.  The operators are the integer operations modulo the width,
      division and comparison are exact, [ApproxNthRoot] brackets the root.
    - Compact (arith_uint256.cpp, uint256.h): [SetCompact] and [GetCompact].
    - Block (primitives/block.h, block.cpp): headers, algorithms, header bytes.
    - Chain (chain.h, chain.cpp): the index as a heap of [CBlockIndex] records.
      [GetAncestor] through skip pointers is the walk along [pprev]; [BuildSkip]
      keeps the invariant [index_ok]; [CChain] is the path to its tip.
    - Pow (pow.cpp, chain.cpp, parameters of chainparams.cpp): the three
      retargeting rules return a target within the limit on every consistent
      index; the proof-of-work test; block work.
    - Headers (validation.cpp, checkpoints.cpp): [AcceptBlockHeader] as a state
      transition that keeps the invariant [tree_ok].
    - Serialize (serialize.h, streams.h): the interface [Serial] with the laws
      [SerialLaws], and its instances for integers, sizes and vectors.
    - Transaction (primitives/transaction.h, amount.h): the data of a transaction
      and instances of [Serial] for it.
    - Double: the binary64 arithmetic that the subsidy is computed with.
    - Rewards (validation.cpp, founder_payment.cpp, smartnode/, miner.cpp): the
      coinbase that the miner builds is one that validation accepts.
    - Script (script/script.h, script.cpp): reading scripts, script numbers.
    - Interpreter (script/interpreter.cpp): [EvalScript] and [VerifyScript].
    - SigHash (script/interpreter.cpp): the bytes that a signature commits to,
      and the signature checker of a transaction.
    - Coins (coins.h, coins.cpp, txdb.cpp): the interface [CoinsView] with the
      laws [CoinsViewLaws]; the database and a cache over any view implement it,
      and an interrupted flush leaves a marker of what it was doing.
    - Undo (validation.cpp, undo.h): connecting the coins of a block, and
      disconnecting it, which restores the coin set.
    - TxVerify (consensus/tx_verify.cpp): [CheckTransaction], [CheckTxInputs],
      lock times.  A transaction that passes can be connected and creates no
      value, and lock times in scripts hold the transaction back.
    - Compressor (compressor.cpp, compressor.h, coins.h, undo.h): coins and undo
      data survive being written and read, up to the amount at which the
      compression of amounts wraps.
    - Merkle (consensus/merkle.cpp, merkleblock.cpp): a root fixes the list of
      transactions unless the mutation flag is raised, and a partial tree proves
      exactly the transactions it was built for.
    - VersionBits (versionbits.cpp, ComputeBlockVersion): the state of a
      deployment does not depend on the cache and moves on as voted; the version
      of a new block names its algorithm.
    - BlockCheck (validation.cpp): [CheckBlock] and [ContextualCheckBlock].
    - BlockConnect (validation.cpp): [CheckInputs] and [ConnectBlock].  An
      accepted block creates at most the subsidy, has had its scripts run, and
      can be disconnected again, when the ids of its transactions are new to the
      coins; [ConnectBlock] does not check that, and an example shows that a
      coinbase whose id is not new loses the older coin.
    - ChainState (validation.cpp): the globals of chain selection as a record and
      the functions on them as state transitions, over an interface [ChainOps]
      for connecting, disconnecting and the disk.  The theorems are in the next
      four files.
    - BestChain: [FindMostWorkChain] ends and finds the best usable candidate.
    - Activate: [ActivateBestChain] ends with the best chain that [ConnectBlock]
      accepts as the active one, against the laws [ChainOpsLaws], of which the one
      on disconnecting is only about blocks on top of another one.
    - Invalidate: [InvalidateBlock] and [ResetBlockFailureFlags].
    - Receive: [ReceivedBlockTransactions] links the block and all that wait for
      it, or lets it wait, and keeps the invariant that Activate starts from.
    - BlockFiles (validation.cpp, chain.h): the place of a block in the block
      files, what is noted of each file, and which files pruning removes.
    - NewBlock (validation.cpp): [AcceptBlock] and [ProcessNewBlock], composed of
      everything above, for blocks that were requested and for those that were
      not, on a node that does not prune.
    - HashStream: a Merkle-Damgard hasher with a buffer, for any compression
      function, as the interface [StreamHash]; a message can be written in
      pieces.  HashRounds: the rounds of these functions as a renaming of
      variables.  Sha2: what SHA-256 and SHA-512 share.
    - Sha256, Sha512, Sha1, Ripemd160 (crypto/): the unrolled code computes the
      functions as their standards define them, and the double hash of 64 bytes
      is the double hash.
    - Hashers (crypto/hmac_*, hash.h, hash.cpp): HMAC, the double hashes and
      BIP 32's hash on top of the interface.
    - SipHash (hash.cpp): the specialised routines are SipHash-2-4.
    - GhostRider (hash.h, hash_selection.cpp): the order of the hashes of a
      proof-of-work chain; the hashes are parameters.
    - Base58 (base58.h, base58.cpp): base 58 text, addresses and secrets.
    - Standard (script/standard.h, standard.cpp): standard scripts.
    - ProTx (evo/providertx.h, specialtx.h): payloads and their bytes.
    - Smartnodes (evo/deterministicmns.h, .cpp): the list with its index of
      unique properties, consistent under every operation; penalties.
    - SmartnodeDiff: differences of states and of lists.
    - SmartnodePayee: the order of payment and the choice of quorums.
    - NetAddress (netaddress.h, netaddress.cpp): address classes and subnets.
    - Quorum (llmq/quorums_commitment.*, quorums_utils.cpp, chainparams.cpp): the
      parameters of quorums, commitments and their verification, the connections
      of a member.  The sizes of the bit sets are not enforced, so that one
      signature can pass for many.
    - ProTxCheck (evo/providertx.cpp, messagesigner.cpp): the checks of provider
      transactions, and what one that passes has.
    - SmartnodeManager (evo/deterministicmns.cpp): the manager of the lists as a
      record of its cache and database.  The theorems are in the next two files.
    - SmartnodeBlock: a block changes a smartnode only with the right signature;
      a block that gives two smartnodes one operator key stops the node.
    - SmartnodeStore: the cache does not change what is read; what is stored
      gives the list back, and undoing removes it.
    - QuorumBlocks (llmq/quorums_blockprocessor.cpp): which blocks carry which
      commitments; storing and undoing them; commitments waiting to be mined.
    - SpecialTxs (evo/specialtx.cpp, cbtx.cpp, simplifiedmns.cpp): the special
      transactions of a block, composed of the files above; an accepted coinbase
      commits to the smartnodes and the quorums, and undoing a block leads back
      to the database before it.
    - Bloom (bloom.h, bloom.cpp, hash.cpp, merkleblock.cpp, net_processing.cpp):
      the filter of a light client, which misses nothing that was put into it,
      the blocks filtered with it, and the rolling filter.

    ** Conventions

    A C++ integer is a [Z]; where the source converts or wraps, the functions of
    this file write it out.  Signed overflow is undefined in C++; a sum of
    amounts that the source checks against the money range at each step is
    written without a wrap.  An exception, a failed assertion or the use of a
    null pointer is a value of [error].  A pointer to a block index is the hash
    under which the object is stored.  Functions that the node does not define
    itself or that are cryptographic (hashes, signature verification) and what a
    component asks of an unmodelled one (sporks, clocks, the coin of an outpoint
    at the tip) are parameters; so is the order in which a hash map is traversed,
    of which only that it is a permutation is assumed.

    ** Fuel

    Loops that are not structural take fuel.  Ancestor walks get the difference
    of the heights, since each step lowers the height; the other walks along
    [pprev] get the height of the block plus one; the binary search and the reads
    in blocks get their length plus one.  Running out is [OutOfFuel] there, and
    the theorems about these loops show that they return a result.  Loops over a
    script get its length, since each instruction that is read consumes a byte
    ([Script.GetOp_shorter]); that more fuel does not change the result of
    [EvalScript] is part of [Interpreter.eval_limits].  The steps of the division,
    of the root search and of [AccessByTxid] are counted as in the source.
    [FindMostWorkChain] gets the number of candidates, since a round that does not
    return removes one; the queue of [ReceivedBlockTransactions] gets one more
    than the blocks that wait.  [ActivateBestChain] takes any fuel, and
    [Activate.best_valid_chain_activated] shows that some amount and all above it
    are enough.  The walk of [GetStateFor] gets the height of the block, and so
    does the search for a stored list in [GetListForBlock], which
    [SmartnodeStore.list_read_transparent] shows to be enough.
    [GetQuorumConnections] takes any fuel: some is enough for three members or
    more, none for fewer ([Quorum.quorum_connections]).

    ** Not modelled

    The memory pool and policy, the index on disk and compact blocks are left
    out.  The network, wallet, RPC, graphical interface, mixing, governance, and
    the sessions in which quorums generate keys and sign are outside: they are
    input and output, protocols over BLS signatures driven by timers, or user
    interface.  secp256k1, BLS signatures and the hash functions of GhostRider are
    parameters.  The memory accounting of the coin cache and the address and spent
    indexes are left out of Coins, Undo and BlockConnect, the notifications and
    the upgrades of old databases out of SmartnodeManager and QuorumBlocks, and
    the memory pool, the warnings and the notifications out of ChainState, where
    [ConnectBlock] is an interface.  BlockConnect takes the special transactions
    of a block as a parameter; SpecialTxs models them over its own state. *)

From Stdlib Require Import ZArith Lia.
From stdpp Require Import base tactics numbers option list.

#[global] Open Scope Z_scope.

(** ** Fixed-width integers

    A C++ [uintN_t] is a [Z] in [[0, 2^N)], an [intN_t] a [Z] in
    [[-2^(N-1), 2^(N-1))].  Every place where the source converts or can
    overflow writes the wrap-around out with these functions. *)

Definition u8 (z : Z) : Z := z mod 2 ^ 8.
Definition u16 (z : Z) : Z := z mod 2 ^ 16.
Definition u32 (z : Z) : Z := z mod 2 ^ 32.
Definition u64 (z : Z) : Z := z mod 2 ^ 64.

(** Two's complement reading of the low [w] bits. *)
Definition swrap (w z : Z) : Z := (z + 2 ^ (w - 1)) mod 2 ^ w - 2 ^ (w - 1).
Definition i32 (z : Z) : Z := swrap 32 z.
Definition i64 (z : Z) : Z := swrap 64 z.

Definition is_u32 (z : Z) : Prop := 0 <= z < 2 ^ 32.
Definition is_u64 (z : Z) : Prop := 0 <= z < 2 ^ 64.
Definition is_byte (z : Z) : Prop := 0 <= z < 2 ^ 8.

Definition INT_MAX : Z := 2147483647.
Definition INT64_MAX : Z := 9223372036854775807.

(** ** Errors

    What the source signals by an exception, an [assert] or undefined
    behaviour (a null dereference, an index out of range) is a value of
    [error]; a fallible operation returns [result]. *)

Inductive error :=
  | AssertFail
  | NullDeref
  | UintError
  | IosFailure
  | ValueOutOfRange
  | LogicError
  | OutOfFuel.

Inductive result (A : Type) :=
  | Ok (a : A)
  | Err (e : error).
Arguments Ok {A} a.
Arguments Err {A} e.

#[global] Instance error_eq_dec : EqDecision error.
Proof. solve_decision. Defined.

#[global] Instance result_ret : MRet result := fun A a => Ok a.
#[global] Instance result_bind : MBind result := fun A B f r =>
  match r with Ok a => f a | Err e => Err e end.
#[global] Instance result_fmap : FMap result := fun A B f r =>
  match r with Ok a => Ok (f a) | Err e => Err e end.

(** Dereferencing a pointer: [None] is the null pointer. *)
Definition deref {A} (o : option A) : result A :=
  match o with Some a => Ok a | None => Err NullDeref end.

(** [assert (b)] *)
Definition cassert (b : bool) : result unit :=
  if b then Ok tt else Err AssertFail.

Lemma result_bind_Ok {A B} (r : result A) (f : A -> result B) b :
  (r ≫= f) = Ok b <-> exists a, r = Ok a /\ f a = Ok b.
Proof. destruct r as [a|e]; cbn; split; [eauto|intros (?&[= <-]&?); done|done|intros (?&?&?); done]. Qed.

(** ** Tactics *)

(** Case analysis on a boolean test of the source, with its integer meaning
    put in the context. *)
Ltac case_test :=
  match goal with
  | |- context [Z.eqb ?a ?b] => destruct (Z.eqb_spec a b)
  | |- context [Z.ltb ?a ?b] => destruct (Z.ltb_spec a b)
  | |- context [Z.leb ?a ?b] => destruct (Z.leb_spec a b)
  | |- context [Nat.eqb ?a ?b] => destruct (Nat.eqb_spec a b)
  | |- context [Nat.ltb ?a ?b] => destruct (Nat.ltb_spec a b)
  | |- context [Nat.leb ?a ?b] => destruct (Nat.leb_spec a b)
  end.

(** The same on a test in hypothesis [H]. *)
Ltac case_test_in H :=
  match type of H with
  | context [Z.eqb ?a ?b] => destruct (Z.eqb_spec a b)
  | context [Z.ltb ?a ?b] => destruct (Z.ltb_spec a b)
  | context [Z.leb ?a ?b] => destruct (Z.leb_spec a b)
  | context [Nat.eqb ?a ?b] => destruct (Nat.eqb_spec a b)
  | context [Nat.ltb ?a ?b] => destruct (Nat.ltb_spec a b)
  | context [Nat.leb ?a ?b] => destruct (Nat.leb_spec a b)
  end.

(** Case analysis on the first [if] of the goal. *)
Tactic Notation "case_if" "as" ident(H) :=
  match goal with |- context [if ?b then _ else _] => destruct b eqn:H end.

(** Turn the boolean tests in the context into inequalities. *)
Ltac bool_hyps :=
  repeat match goal with
  | H : _ && _ = true |- _ => apply andb_prop in H as [? ?]
  | H : _ || _ = false |- _ => apply orb_false_elim in H as [? ?]
  | H : negb _ = true |- _ => apply negb_true_iff in H
  | H : negb _ = false |- _ => apply negb_false_iff in H
  | H : Nat.ltb _ _ = true |- _ => apply Nat.ltb_lt in H
  | H : Nat.ltb _ _ = false |- _ => apply Nat.ltb_ge in H
  | H : Nat.leb _ _ = true |- _ => apply Nat.leb_le in H
  | H : Nat.leb _ _ = false |- _ => apply Nat.leb_gt in H
  | H : Nat.eqb _ _ = true |- _ => apply Nat.eqb_eq in H
  | H : Nat.eqb _ _ = false |- _ => apply Nat.eqb_neq in H
  | H : Z.ltb _ _ = true |- _ => apply Z.ltb_lt in H
  | H : Z.ltb _ _ = false |- _ => apply Z.ltb_ge in H
  | H : Z.leb _ _ = true |- _ => apply Z.leb_le in H
  | H : Z.leb _ _ = false |- _ => apply Z.leb_gt in H
  | H : Z.eqb _ _ = true |- _ => apply Z.eqb_eq in H
  | H : Z.eqb _ _ = false |- _ => apply Z.eqb_neq in H
  end.
Ltac blia := intros; bool_hyps; lia.

Create HintDb but.
Create Rewrite HintDb wrap.

(** ** Generic lemmas on integers *)

Lemma u32_range z : 0 <= u32 z < 2 ^ 32.
Proof. apply Z.mod_pos_bound; lia. Qed.

Lemma u64_range z : 0 <= u64 z < 2 ^ 64.
Proof. apply Z.mod_pos_bound; lia. Qed.

Lemma u8_range z : 0 <= u8 z < 2 ^ 8.
Proof. apply Z.mod_pos_bound; lia. Qed.

Lemma u32_small z : 0 <= z < 2 ^ 32 -> u32 z = z.
Proof. apply Z.mod_small. Qed.

Lemma u64_small z : 0 <= z < 2 ^ 64 -> u64 z = z.
Proof. apply Z.mod_small. Qed.

Lemma u8_small z : 0 <= z < 2 ^ 8 -> u8 z = z.
Proof. apply Z.mod_small. Qed.

Lemma swrap_small w z : 0 < w -> - 2 ^ (w - 1) <= z < 2 ^ (w - 1) -> swrap w z = z.
Proof.
  intros Hw Hz. unfold swrap.
  replace (2 ^ w) with (2 * 2 ^ (w - 1))
    by (rewrite <- Z.pow_succ_r by lia; f_equal; lia).
  rewrite Z.mod_small by lia. lia.
Qed.

Lemma i32_small z : - 2 ^ 31 <= z < 2 ^ 31 -> i32 z = z.
Proof. intros. apply swrap_small; lia. Qed.

Lemma i64_small z : - 2 ^ 63 <= z < 2 ^ 63 -> i64 z = z.
Proof. intros. apply swrap_small; lia. Qed.

#[export] Hint Resolve u32_range u64_range u8_range : but.
#[export] Hint Rewrite u32_small u64_small u8_small i32_small i64_small
  using lia : wrap.

Lemma land_u32_mask n : Z.land n 0xffffffff = u32 n.
Proof. change 0xffffffff with (Z.ones 32). apply Z.land_ones; lia. Qed.

Lemma shiftr_32 n : Z.shiftr n 32 = n / 2 ^ 32.
Proof. apply Z.shiftr_div_pow2; lia. Qed.

Lemma testbit_small z n k : 0 <= z < 2 ^ k -> k <= n -> Z.testbit z n = false.
Proof.
  intros Hz Hn. destruct (Z.eq_dec z 0) as [->|Hnz]; [apply Z.bits_0|].
  apply Z.bits_above_log2; [lia|].
  apply Z.lt_le_trans with k; [|lia]. apply Z.log2_lt_pow2; lia.
Qed.

Lemma testbit_u32 z n :
  Z.testbit (u32 z) n = (n <? 32) && Z.testbit z n.
Proof.
  unfold u32. destruct (Z.ltb_spec n 32) as [Hn|Hn]; cbn [andb].
  - destruct (Z.lt_ge_cases n 0).
    + by rewrite !Z.testbit_neg_r.
    + apply Z.mod_pow2_bits_low; lia.
  - apply Z.mod_pow2_bits_high; lia.
Qed.

Lemma land_bit_zero z n : 0 <= n ->
  (Z.land z (Z.shiftl 1 n) =? 0) = negb (Z.testbit z n).
Proof.
  intros Hn. rewrite Z.shiftl_1_l. destruct (Z.testbit z n) eqn:E; cbn.
  - apply Z.eqb_neq. intros H0.
    assert (Z.testbit (Z.land z (2 ^ n)) n = true) as H.
    { by rewrite Z.land_spec, E, Z.pow2_bits_true by lia. }
    rewrite H0, Z.bits_0 in H. done.
  - apply Z.eqb_eq. apply Z.bits_inj'. intros k Hk.
    rewrite Z.land_spec, Z.bits_0, Z.pow2_bits_eqb by lia.
    destruct (Z.eqb_spec n k) as [->|]; [by rewrite E|apply andb_false_r].
Qed.

(** Two naturals bounded by [2 ^ k] are equal when their low [k] bits are. *)
Lemma bits_inj_below a b k :
  0 <= a < 2 ^ k -> 0 <= b < 2 ^ k ->
  (forall n, 0 <= n < k -> Z.testbit a n = Z.testbit b n) -> a = b.
Proof.
  intros Ha Hb H. apply Z.bits_inj'. intros n Hn.
  destruct (Z.lt_ge_cases n k); [apply H; lia|].
  by rewrite !(testbit_small _ n k) by lia.
Qed.

Lemma lor_range a b k : 0 <= k -> 0 <= a < 2 ^ k -> 0 <= b < 2 ^ k -> 0 <= Z.lor a b < 2 ^ k.
Proof.
  intros Hk Ha Hb. split; [apply Z.lor_nonneg; lia|].
  destruct (Z.eq_dec (Z.lor a b) 0) as [->|Hnz]; [lia|].
  assert (0 < Z.lor a b) by (pose proof (proj2 (Z.lor_nonneg a b)); lia).
  apply Z.log2_lt_pow2; [done|]. rewrite Z.log2_lor by lia.
  assert (forall x, 0 <= x < 2 ^ k -> 0 < k \/ x = 0 -> Z.log2 x < k \/ k = 0 /\ x = 0) as H1.
  { intros x Hx _. destruct (Z.eq_dec x 0) as [->|].
    - cbn. destruct (Z.eq_dec k 0); [right; lia|left; cbn; lia].
    - left. apply Z.log2_lt_pow2; lia. }
  destruct (Z.eq_dec k 0) as [->|].
  { exfalso. apply Hnz. assert (a = 0) as -> by (cbn in *; lia). assert (b = 0) as -> by (cbn in *; lia). done. }
  destruct (H1 a Ha ltac:(lia)), (H1 b Hb ltac:(lia)); lia.
Qed.

Lemma land_le_r a b : 0 <= a -> 0 <= b -> Z.land a b <= b.
Proof.
  intros Ha Hb. rewrite <- (Z2N.id a), <- (Z2N.id b) by done.
  rewrite <- N2Z.inj_land. apply N2Z.inj_le, N.land_le_r.
Qed.

(** [(a * 2 ^ j + b)] with [0 <= b < 2 ^ j], quotient and remainder. *)
Lemma div_mod_split d q r : 0 <= r < d -> (d * q + r) / d = q /\ (d * q + r) mod d = r.
Proof.
  intros Hr. split.
  - rewrite Z.add_comm, Z.mul_comm, Z.div_add, Z.div_small by lia. lia.
  - by rewrite Z.add_comm, Z.mul_comm, Z_mod_plus_full, Z.mod_small.
Qed.

(** ** Generic lemmas on lists *)

Lemma Forall_lookup_total {A} `{Inhabited A} (P : A -> Prop) l i :
  Forall P l -> (i < length l)%nat -> P (l !!! i).
Proof.
  intros HF Hi. rewrite Forall_lookup in HF. apply (HF i).
  by apply list_lookup_lookup_total_lt.
Qed.

Lemma list_lookup_total_insert_case {A} `{Inhabited A} (l : list A) i j x :
  (i < length l)%nat ->
  <[i := x]> l !!! j = if decide (i = j) then x else l !!! j.
Proof.
  intros Hi. destruct (decide (i = j)) as [->|Hne].
  - by apply list_lookup_total_insert_eq.
  - by apply list_lookup_total_insert_ne.
Qed.
