(* ===== verification/ArithUint256.v ===== *)
(** * Multi-limb unsigned integers (src/src/arith_uint256.h, arith_uint256.cpp)

    [base_uint<BITS>] is an array [pn] of [WIDTH = BITS/32] 32-bit limbs, least
    significant first.  It is modelled as a [list Z] of length [WIDTH]; [val]
    is the number it denotes.  Each operator is the source's loop; the theorems
    state what it computes on [val], modulo [2 ^ BITS]. *)

From Stdlib Require Import ZArith Lia.
From stdpp Require Import base tactics numbers option list.
From S2P Require Import Prelude.

Abbreviation base_uint := (list Z).

(** The number an array of limbs denotes. *)
Fixpoint val (pn : base_uint) : Z :=
  match pn with
  | [] => 0
  | p :: pn' => p + 2 ^ 32 * val pn'
  end.

(** ** Operators defined limb by limb *)

Definition limb_not (p : Z) : Z := u32 (Z.lnot p).

(** [operator~] *)
Definition op_not (pn : base_uint) : base_uint := limb_not <$> pn.

(** [operator++] (prefix): [while (i < WIDTH && ++pn[i] == 0) i++] *)
Fixpoint op_inc (pn : base_uint) : base_uint :=
  match pn with
  | [] => []
  | p :: pn' =>
      let p' := u32 (p + 1) in
      if p' =? 0 then p' :: op_inc pn' else p' :: pn'
  end.

(** [operator--] (prefix): [while (i < WIDTH && --pn[i] == (uint32_t)-1) i++] *)
Fixpoint op_dec (pn : base_uint) : base_uint :=
  match pn with
  | [] => []
  | p :: pn' =>
      let p' := u32 (p - 1) in
      if p' =? u32 (-1) then p' :: op_dec pn' else p' :: pn'
  end.

(** [operator-] (unary) *)
Definition op_neg (pn : base_uint) : base_uint := op_inc (op_not pn).

(** [operator^=], [operator&=], [operator|=] *)
Definition op_xor (pn b : base_uint) : base_uint := zip_with Z.lxor pn b.
Definition op_and (pn b : base_uint) : base_uint := zip_with Z.land pn b.
Definition op_or (pn b : base_uint) : base_uint := zip_with Z.lor pn b.

(** [operator+=] : the loop body with its running [carry]. *)
Fixpoint add_loop (carry : Z) (pn b : base_uint) : base_uint :=
  match pn, b with
  | p :: pn', q :: b' =>
      let n := u64 (carry + p + q) in
      Z.land n 0xffffffff :: add_loop (Z.shiftr n 32) pn' b'
  | _, _ => pn
  end.
Definition op_add (pn b : base_uint) : base_uint := add_loop 0 pn b.

(** [operator-=] *)
Definition op_sub (pn b : base_uint) : base_uint := op_add pn (op_neg b).

(** [operator*=(uint32_t)] *)
Fixpoint mul32_loop (carry b32 : Z) (pn : base_uint) : base_uint :=
  match pn with
  | [] => []
  | p :: pn' =>
      let n := u64 (carry + b32 * p) in
      Z.land n 0xffffffff :: mul32_loop (Z.shiftr n 32) b32 pn'
  end.
Definition op_mul32 (pn : base_uint) (b32 : Z) : base_uint := mul32_loop 0 b32 pn.

(** [operator*=(const base_uint&)]: the inner loop over [i] runs through
    [pn[j], pn[j+1], ..] in step with [b.pn[0], b.pn[1], ..]. *)
Fixpoint mul_row (carry aj : Z) (pn b : base_uint) : base_uint :=
  match pn, b with
  | p :: pn', q :: b' =>
      let n := u64 (carry + p + u64 (aj * q)) in
      Z.land n 0xffffffff :: mul_row (Z.shiftr n 32) aj pn' b'
  | _, _ => pn
  end.
(** The outer loop over [j]: row [j] leaves [pn[0..j-1]] alone. *)
Fixpoint mul_rows (a pn b : base_uint) : base_uint :=
  match a with
  | [] => pn
  | aj :: a' =>
      match mul_row 0 aj pn b with
      | [] => []
      | p :: pn' => p :: mul_rows a' pn' b
      end
  end.
Definition op_mul (a b : base_uint) : base_uint :=
  mul_rows a (replicate (length a) 0) b.

(** [CompareTo]: from the most significant limb down. *)
Fixpoint compare_loop (ra rb : base_uint) : Z :=
  match ra, rb with
  | p :: ra', q :: rb' =>
      if p <? q then -1 else if q <? p then 1 else compare_loop ra' rb'
  | _, _ => 0
  end.
Definition CompareTo (a b : base_uint) : Z := compare_loop (reverse a) (reverse b).

(** [EqualTo (uint64_t)] *)
Definition EqualTo (pn : base_uint) (b : Z) : bool :=
  if negb (forallb (fun p => p =? 0) (drop 2 pn)) then false
  else if negb (pn !!! 1%nat =? Z.shiftr b 32) then false
  else if negb (pn !!! 0%nat =? Z.land b 0xffffffff) then false
  else true.

(** [operator!] *)
Definition op_is_zero (pn : base_uint) : bool := forallb (fun p => p =? 0) pn.

(** [bits()]: the inner loop looks for the highest set bit of a non-zero limb,
    from bit 31 down to bit 1. *)
Fixpoint bits_limb (p : Z) (nbits : nat) : Z :=
  match nbits with
  | O => 1
  | S nbits' =>
      if negb (Z.land p (u32 (Z.shiftl 1 (Z.of_nat nbits))) =? 0)
      then Z.of_nat nbits + 1
      else bits_limb p nbits'
  end.
Fixpoint bits_loop (pn : base_uint) (pos : nat) : Z :=
  match pos with
  | O => 0
  | S pos' =>
      if negb (pn !!! pos' =? 0)
      then 32 * Z.of_nat pos' + bits_limb (pn !!! pos') 31
      else bits_loop pn pos'
  end.
Definition bits (pn : base_uint) : Z := bits_loop pn (length pn).

(** [GetLow64()] *)
Definition GetLow64 (pn : base_uint) : Z :=
  Z.lor (pn !!! 0%nat) (u64 (Z.shiftl (pn !!! 1%nat) 32)).

(** [base_uint(uint64_t)] and [operator=(uint64_t)] *)
Definition of_u64 (WIDTH : nat) (b : Z) : base_uint :=
  u32 b :: u32 (Z.shiftr b 32) :: replicate (WIDTH - 2) 0.

(** ** Shifts: the array is cleared and every limb of the old value [a] is
    or-ed into the one or two limbs it moves to. *)

(** [if (c) pn[i] |= x;] *)
Definition or_at (c : bool) (i : nat) (x : Z) (pn : base_uint) : base_uint :=
  if c then <[i := Z.lor (pn !!! i) x]> pn else pn.

Definition shl_step (a : base_uint) (k : nat) (s : Z) (pn : base_uint) (i : nat) :
    base_uint :=
  let pn := or_at ((i + k + 1 <? length a)%nat && negb (s =? 0))
              (i + k + 1) (Z.shiftr (a !!! i) (32 - s)) pn in
  or_at (i + k <? length a)%nat (i + k) (u32 (Z.shiftl (a !!! i) s)) pn.

(** [operator<<=] *)
Definition op_shl (a : base_uint) (shift : Z) : base_uint :=
  foldl (shl_step a (Z.to_nat (shift / 32)) (shift mod 32))
    (replicate (length a) 0) (seq 0 (length a)).

Definition shr_step (a : base_uint) (k : nat) (s : Z) (pn : base_uint) (i : nat) :
    base_uint :=
  let pn := or_at ((k + 1 <=? i)%nat && negb (s =? 0))
              (i - k - 1) (u32 (Z.shiftl (a !!! i) (32 - s))) pn in
  or_at (k <=? i)%nat (i - k) (Z.shiftr (a !!! i) s) pn.

(** [operator>>=] *)
Definition op_shr (a : base_uint) (shift : Z) : base_uint :=
  foldl (shr_step a (Z.to_nat (shift / 32)) (shift mod 32))
    (replicate (length a) 0) (seq 0 (length a)).

(** ** Division: shift and subtract, one quotient bit per iteration.  The loop
    [while (shift >= 0)] runs [shift + 1] times. *)

Fixpoint div_loop (n : nat) (q num div : base_uint) : base_uint :=
  match n with
  | O => q
  | S shift =>
      let '(q, num) :=
        if 0 <=? CompareTo num div
        then (<[(shift / 32)%nat :=
                 Z.lor (q !!! (shift / 32)%nat)
                       (u32 (Z.shiftl 1 (Z.land (Z.of_nat shift) 31)))]> q,
              op_sub num div)
        else (q, num) in
      div_loop shift q num (op_shr div 1)
  end.

(** [operator/=]; division by zero throws [uint_error]. *)
Definition op_div (a b : base_uint) : result base_uint :=
  let num_bits := bits a in
  let div_bits := bits b in
  if div_bits =? 0 then Err UintError
  else if num_bits <? div_bits then Ok (replicate (length a) 0)
  else
    let shift := num_bits - div_bits in
    Ok (div_loop (Z.to_nat (shift + 1)) (replicate (length a) 0) a (op_shl b shift)).

(** ** [ApproxNthRoot]: a binary search on the root of the leading bits *)

(** [for (int j = 1; j < n; j++) nPower *= nNext;] *)
Fixpoint root_power (nNext : Z) (nPower : Z) (count : nat) : Z :=
  match count with
  | O => nPower
  | S c => root_power nNext (u64 (nPower * nNext)) c
  end.

(** [for (int i = 64/n - 1; i >= 0; i--)] *)
Fixpoint root_search (n : Z) (nHead nRoot : Z) (i : nat) : Z :=
  match i with
  | O => nRoot
  | S i' =>
      let nNext := Z.lor nRoot (Z.shiftl 1 (Z.of_nat i')) in
      let nPower := root_power nNext nNext (Z.to_nat (n - 1)) in
      root_search n nHead (if nPower <=? nHead then nNext else nRoot) i'
  end.

Definition root_shifts (nLength n : Z) : Z :=
  Z.max 0 (Z.quot (nLength - 1) n + 1 - Z.quot 64 n).

Definition ApproxNthRoot (a : base_uint) (n : Z) : result base_uint :=
  cassert ((1 <? n) && (n <? 64)) ≫= fun _ =>
  let nShifts := root_shifts (bits a) n in
  let shifted := op_shr a (n * nShifts) in
  let nHead := GetLow64 shifted in
  let nRoot := root_search n nHead 0 (Z.to_nat (Z.quot 64 n)) in
  Ok (op_shl (of_u64 (length a) nRoot) nShifts).

(** ** Values *)

Definition wf (n : nat) (a : base_uint) : Prop := length a = n /\ Forall is_u32 a.

Lemma wf_nil : wf 0 [].
Proof. split; [done|constructor]. Qed.

Lemma wf_cons n p a : wf (S n) (p :: a) <-> is_u32 p /\ wf n a.
Proof. unfold wf. rewrite Forall_cons. cbn. intuition lia. Qed.

Lemma pow32_S (n : nat) : 2 ^ (32 * Z.of_nat (S n)) = 2 ^ 32 * 2 ^ (32 * Z.of_nat n).
Proof. rewrite <- Z.pow_add_r by lia. f_equal. lia. Qed.

Lemma pow32_pos (n : nat) : 0 < 2 ^ (32 * Z.of_nat n).
Proof. apply Z.pow_pos_nonneg; lia. Qed.

Lemma val_bound n a : wf n a -> 0 <= val a < 2 ^ (32 * Z.of_nat n).
Proof.
  revert n. induction a as [|p a IH]; intros n [<- HF]; cbn [val length]; [cbn; lia|].
  apply Forall_cons in HF as [Hp HF]. specialize (IH (length a) (conj eq_refl HF)).
  rewrite pow32_S. unfold is_u32 in Hp. nia.
Qed.

(** A bounded result that differs from [x] by a multiple of the modulus. *)
Lemma mod_of_carry r c m x : 0 <= r < m -> r + m * c = x -> r = x mod m.
Proof. intros Hr <-. rewrite Z.mul_comm, Z_mod_plus_full. symmetry. by apply Z.mod_small. Qed.

Lemma val_app a b : val (a ++ b) = val a + 2 ^ (32 * Z.of_nat (length a)) * val b.
Proof.
  induction a as [|p a IH]; cbn [val app length]; [change (2 ^ (32 * Z.of_nat 0)) with 1; lia|].
  rewrite IH, pow32_S. ring.
Qed.

Lemma wf_app n m a b : wf n a -> wf m b -> wf (n + m) (a ++ b).
Proof. intros [<- ?] [<- ?]. split; [by rewrite length_app|by apply Forall_app]. Qed.

Lemma wf_take n k a : wf n a -> (k <= n)%nat -> wf k (take k a).
Proof. intros [<- ?] ?. split; [rewrite length_take; lia|by apply Forall_take]. Qed.

Lemma wf_drop n k a : wf n a -> wf (n - k) (drop k a).
Proof. intros [<- ?]. split; [by rewrite length_drop|by apply Forall_drop]. Qed.

Lemma val_take_drop k a n : wf n a -> (k <= n)%nat ->
  val a = val (take k a) + 2 ^ (32 * Z.of_nat k) * val (drop k a).
Proof.
  intros [Hl _] Hk. rewrite <- (take_drop k a) at 1. rewrite val_app.
  by rewrite length_take, Nat.min_l by lia.
Qed.

Lemma wf_replicate n : wf n (replicate n 0).
Proof. split; [apply length_replicate|]. apply Forall_replicate. unfold is_u32. lia. Qed.

Lemma val_replicate n : val (replicate n 0) = 0.
Proof. induction n as [|n IH]; cbn [val replicate]; [done|]. rewrite IH. lia. Qed.

Lemma val_inj n a b : wf n a -> wf n b -> val a = val b -> a = b.
Proof.
  revert a b. induction n as [|n IH]; intros [|p a] [|q b]; try (intros [? _] [? _]; done).
  rewrite !wf_cons. cbn [val]. unfold is_u32. intros [Hp Ha] [Hq Hb] E.
  assert (p = q) as -> by (pose proof (val_bound _ _ Ha); pose proof (val_bound _ _ Hb); nia).
  f_equal. apply IH; try done. lia.
Qed.

(** ** Addition, negation, subtraction *)

Lemma add_loop_spec n c a b : wf n a -> wf n b -> 0 <= c <= 1 ->
  wf n (add_loop c a b) /\
  exists c', val (add_loop c a b) + 2 ^ (32 * Z.of_nat n) * c' = c + val a + val b.
Proof.
  revert c a b. induction n as [|n IH]; intros c [|p a] [|q b];
    try (intros [? _] [? _]; done).
  - intros _ _ _. split; [apply wf_nil|]. exists c. cbn. lia.
  - rewrite !wf_cons. unfold is_u32. intros [Hp Ha] [Hq Hb] Hc. cbn [add_loop].
    rewrite u64_small by lia. rewrite land_u32_mask, shiftr_32.
    assert (0 <= (c + p + q) / 2 ^ 32 <= 1) as Hc' by (split; [apply Z.div_pos|apply Z.lt_succ_r, Z.div_lt_upper_bound]; lia).
    destruct (IH _ a b Ha Hb Hc') as [Hwf [c' Hv]].
    split; [rewrite wf_cons; split; [apply u32_range|done]|].
    exists c'. cbn [val]. rewrite pow32_S. unfold u32.
    pose proof (Z.div_mod (c + p + q) (2 ^ 32) ltac:(lia)). lia.
Qed.

Lemma op_add_wf n a b : wf n a -> wf n b -> wf n (op_add a b).
Proof. intros. by apply (add_loop_spec n 0 a b). Qed.

Lemma op_add_val n a b : wf n a -> wf n b ->
  val (op_add a b) = (val a + val b) mod 2 ^ (32 * Z.of_nat n).
Proof.
  intros Ha Hb. destruct (add_loop_spec n 0 a b Ha Hb ltac:(lia)) as [Hwf [c Hc]].
  eapply mod_of_carry; [by apply val_bound|exact Hc].
Qed.

Lemma limb_not_val p : is_u32 p -> limb_not p = 2 ^ 32 - 1 - p.
Proof.
  intros Hp. unfold limb_not, u32, is_u32 in *. rewrite <- (Z.mod_small (2 ^ 32 - 1 - p) (2 ^ 32)) by lia.
  unfold Z.lnot. replace (Z.pred (- p)) with (2 ^ 32 - 1 - p + (-1) * 2 ^ 32) by lia.
  apply Z_mod_plus_full.
Qed.

Lemma op_not_spec n a : wf n a ->
  wf n (op_not a) /\ val (op_not a) = 2 ^ (32 * Z.of_nat n) - 1 - val a.
Proof.
  revert a. induction n as [|n IH]; intros [|p a]; try (intros [? _]; done).
  rewrite wf_cons. intros [Hp Ha]. destruct (IH a Ha) as [Hw Hv].
  unfold op_not in *. cbn [fmap list_fmap val]. rewrite limb_not_val, pow32_S, Hv by done.
  rewrite wf_cons. unfold is_u32 in *. split; [split; [lia|done]|lia].
Qed.

Lemma op_inc_spec n a : wf n a ->
  wf n (op_inc a) /\
  exists c, val (op_inc a) + 2 ^ (32 * Z.of_nat n) * c = val a + 1.
Proof.
  revert a. induction n as [|n IH]; intros [|p a]; try (intros [? _]; done).
  - intros _. split; [apply wf_nil|]. exists 1. cbn. lia.
  - rewrite wf_cons. intros [Hp Ha]. cbn [op_inc]. destruct (IH a Ha) as [Hw [c Hc]].
    unfold is_u32 in Hp. case_test.
    + assert (p = 2 ^ 32 - 1) as ->.
      { destruct (Z.eq_dec p (2 ^ 32 - 1)); [done|]. rewrite u32_small in e; lia. }
      rewrite wf_cons. split; [split; [apply u32_range|done]|].
      exists c. cbn [val]. rewrite e, pow32_S. lia.
    + assert (p + 1 < 2 ^ 32).
      { destruct (Z.eq_dec p (2 ^ 32 - 1)) as [->|]; [by vm_compute in n0|lia]. }
      rewrite u32_small, wf_cons by lia. split; [split; [unfold is_u32; lia|done]|].
      exists 0. cbn [val]. lia.
Qed.

Lemma op_neg_wf n a : wf n a -> wf n (op_neg a).
Proof. intros Ha. by apply op_inc_spec, op_not_spec. Qed.

Lemma op_neg_spec n a : wf n a -> exists c, val (op_neg a) + 2 ^ (32 * Z.of_nat n) * c = - val a.
Proof.
  intros Ha. destruct (op_not_spec n a Ha) as [Hw Hv].
  destruct (op_inc_spec n _ Hw) as [_ [c Hc]]. exists (c - 1). unfold op_neg. lia.
Qed.

Lemma op_sub_wf n a b : wf n a -> wf n b -> wf n (op_sub a b).
Proof. intros. by apply op_add_wf, op_neg_wf. Qed.

Lemma op_sub_val n a b : wf n a -> wf n b ->
  val (op_sub a b) = (val a - val b) mod 2 ^ (32 * Z.of_nat n).
Proof.
  intros Ha Hb. unfold op_sub. rewrite (op_add_val n) by eauto using op_neg_wf.
  destruct (op_neg_spec n b Hb) as [c Hc].
  replace (val a - val b) with (val a + val (op_neg b) + c * 2 ^ (32 * Z.of_nat n)) by lia.
  by rewrite Z_mod_plus_full.
Qed.

Lemma op_inc_val n a : wf n a -> val (op_inc a) = (val a + 1) mod 2 ^ (32 * Z.of_nat n).
Proof.
  intros Ha. destruct (op_inc_spec n a Ha) as [Hw [c Hc]].
  eapply mod_of_carry; [by apply val_bound|exact Hc].
Qed.

Lemma op_dec_spec n a : wf n a ->
  wf n (op_dec a) /\
  exists c, val (op_dec a) + 2 ^ (32 * Z.of_nat n) * c = val a - 1.
Proof.
  revert a. induction n as [|n IH]; intros [|p a]; try (intros [? _]; done).
  - intros _. split; [apply wf_nil|]. exists (-1). cbn. lia.
  - rewrite wf_cons. intros [Hp Ha]. cbn [op_dec]. destruct (IH a Ha) as [Hw [c Hc]].
    unfold is_u32 in Hp. change (u32 (-1)) with (2 ^ 32 - 1). case_test.
    + assert (p = 0) as ->.
      { destruct (Z.eq_dec p 0); [done|]. rewrite u32_small in e; lia. }
      rewrite wf_cons. split; [split; [apply u32_range|done]|].
      exists c. cbn [val]. rewrite e, pow32_S. lia.
    + assert (0 < p). { destruct (Z.eq_dec p 0) as [->|]; [by vm_compute in n0|lia]. }
      rewrite u32_small, wf_cons by lia. split; [split; [unfold is_u32; lia|done]|].
      exists 0. cbn [val]. lia.
Qed.

(** ** Multiplication *)

Lemma mul32_loop_spec n c b32 a : wf n a -> is_u32 b32 -> is_u32 c ->
  wf n (mul32_loop c b32 a) /\
  exists c', val (mul32_loop c b32 a) + 2 ^ (32 * Z.of_nat n) * c' = c + b32 * val a.
Proof.
  intros Ha Hb. revert c a Ha. induction n as [|n IH]; intros c [|p a]; try (intros [? _]; done).
  - intros _ _. split; [apply wf_nil|]. exists c. cbn. lia.
  - rewrite !wf_cons. intros [Hp Ha] Hc. cbn [mul32_loop]. unfold is_u32 in *.
    rewrite u64_small by nia. rewrite land_u32_mask, shiftr_32.
    assert (0 <= (c + b32 * p) / 2 ^ 32 < 2 ^ 32) as Hc'
      by (split; [apply Z.div_pos|apply Z.div_lt_upper_bound]; nia).
    destruct (IH _ a Ha Hc') as [Hwf [c' Hv]].
    split; [rewrite wf_cons; split; [apply u32_range|done]|].
    exists c'. cbn [val]. rewrite pow32_S. unfold u32.
    pose proof (Z.div_mod (c + b32 * p) (2 ^ 32) ltac:(lia)). lia.
Qed.

Lemma op_mul32_wf n a b : wf n a -> is_u32 b -> wf n (op_mul32 a b).
Proof. intros. apply (mul32_loop_spec n 0 b a); auto. unfold is_u32. lia. Qed.

Lemma op_mul32_val n a b : wf n a -> is_u32 b ->
  val (op_mul32 a b) = (val a * b) mod 2 ^ (32 * Z.of_nat n).
Proof.
  intros Ha Hb.
  destruct (mul32_loop_spec n 0 b a Ha Hb ltac:(unfold is_u32; lia)) as [Hw [c Hc]].
  eapply mod_of_carry; [by apply val_bound|]. rewrite (Z.mul_comm (val a)). exact Hc.
Qed.

Lemma mul_row_spec n m c aj a b : wf n a -> wf m b -> (n <= m)%nat -> is_u32 aj -> is_u32 c ->
  wf n (mul_row c aj a b) /\
  exists c', val (mul_row c aj a b) + 2 ^ (32 * Z.of_nat n) * c' = c + val a + aj * val b.
Proof.
  intros Ha Hb Hnm Haj. revert c m a b Ha Hb Hnm.
  induction n as [|n IH]; intros c m [|p a] b; try (intros [? _]; done).
  - intros _ _ _ _. cbn. split; [apply wf_nil|]. eexists. rewrite Z.mul_1_l. done.
  - destruct b as [|q b]; [intros _ [<- _]; cbn; lia|]. destruct m as [|m]; [lia|].
    rewrite !wf_cons. intros [Hp Ha] [Hq Hb] Hnm Hc. cbn [mul_row]. unfold is_u32 in *.
    rewrite (u64_small (aj * q)), u64_small by nia. rewrite land_u32_mask, shiftr_32.
    assert (0 <= (c + p + aj * q) / 2 ^ 32 < 2 ^ 32) as Hc'
      by (split; [apply Z.div_pos|apply Z.div_lt_upper_bound]; nia).
    destruct (IH _ m a b Ha Hb ltac:(lia) Hc') as [Hwf [c' Hv]].
    split; [rewrite wf_cons; split; [apply u32_range|done]|].
    exists c'. cbn [val]. rewrite pow32_S. unfold u32.
    pose proof (Z.div_mod (c + p + aj * q) (2 ^ 32) ltac:(lia)). lia.
Qed.

Lemma mul_rows_spec n m a pn b : wf n a -> wf n pn -> wf m b -> (n <= m)%nat ->
  wf n (mul_rows a pn b) /\
  exists c, val (mul_rows a pn b) + 2 ^ (32 * Z.of_nat n) * c = val pn + val a * val b.
Proof.
  intros Ha Hpn Hb. revert n pn Ha Hpn. induction a as [|aj a IH]; intros n pn.
  - intros [<- _] Hpn _. split; [done|]. exists 0. cbn. lia.
  - destruct n as [|n]; [by intros [? _]|]. rewrite wf_cons. intros [Haj Ha] Hpn Hnm.
    cbn [mul_rows].
    destruct (mul_row_spec (S n) m 0 aj pn b Hpn Hb Hnm Haj ltac:(unfold is_u32; lia))
      as [Hrow [c1 Hc1]].
    destruct (mul_row 0 aj pn b) as [|p pn']; [by destruct Hrow|].
    rewrite wf_cons in Hrow. destruct Hrow as [Hp Hpn'].
    destruct (IH n pn' Ha Hpn' ltac:(lia)) as [Hw [c2 Hc2]].
    rewrite wf_cons. split; [done|]. exists (c1 + c2). cbn [val] in *.
    rewrite pow32_S in *. nia.
Qed.

Lemma op_mul_wf n a b : wf n a -> wf n b -> wf n (op_mul a b).
Proof.
  intros Ha Hb. unfold op_mul. pose proof (wf_replicate (length a)) as Hz.
  destruct Ha as [<- Ha]. by apply (mul_rows_spec _ (length a)).
Qed.

Lemma op_mul_val n a b : wf n a -> wf n b ->
  val (op_mul a b) = (val a * val b) mod 2 ^ (32 * Z.of_nat n).
Proof.
  intros Ha Hb. pose proof (op_mul_wf n a b Ha Hb) as Hw. unfold op_mul in *.
  pose proof Ha as [Hl _]. rewrite Hl in *.
  destruct (mul_rows_spec n n a (replicate n 0) b Ha (wf_replicate n) Hb ltac:(lia)) as [_ [c Hc]].
  eapply mod_of_carry; [by apply val_bound|]. rewrite val_replicate in Hc. exact Hc.
Qed.

(** ** Comparison *)

Lemma compare_reverse_snoc a b p q :
  CompareTo (a ++ [p]) (b ++ [q]) = if p <? q then -1 else if q <? p then 1 else CompareTo a b.
Proof. unfold CompareTo. by rewrite !reverse_snoc. Qed.

Lemma wf_snoc_inv n a : wf (S n) a -> exists a' p, a = a' ++ [p] /\ wf n a' /\ is_u32 p.
Proof.
  intros [Hl HF]. destruct a as [|p a] using rev_ind; [done|].
  rewrite length_app in Hl; cbn in Hl. apply Forall_app in HF as [HF Hp].
  exists a, p. split; [done|]. split; [split; [lia|done]|by apply Forall_cons in Hp as [? _]].
Qed.

Lemma CompareTo_spec n a b : wf n a -> wf n b ->
  CompareTo a b = match val a ?= val b with Lt => -1 | Eq => 0 | Gt => 1 end.
Proof.
  revert a b. induction n as [|n IH]; intros a b Ha Hb.
  - destruct a, b; by destruct Ha, Hb.
  - apply wf_snoc_inv in Ha as (a'&p&->&Ha&Hp). apply wf_snoc_inv in Hb as (b'&q&->&Hb&Hq).
    rewrite compare_reverse_snoc, !val_app. cbn [val].
    pose proof (val_bound _ _ Ha). pose proof (val_bound _ _ Hb).
    destruct Ha as [Ha' Ha], Hb as [Hb' Hb]. rewrite Ha', Hb'.
    set (M := 2 ^ _) in *.
    destruct (Z.ltb_spec p q).
    { destruct (Z.compare_spec (val a' + M * (p + 2 ^ 32 * 0)) (val b' + M * (q + 2 ^ 32 * 0))); [nia|done|nia]. }
    destruct (Z.ltb_spec q p).
    { destruct (Z.compare_spec (val a' + M * (p + 2 ^ 32 * 0)) (val b' + M * (q + 2 ^ 32 * 0))); [nia|nia|done]. }
    assert (p = q) as -> by lia. rewrite (IH a' b') by done.
    by rewrite !(Z.add_comm (val _)), Zcompare_plus_compat.
Qed.

(** ** [bits] *)

Lemma log2_add_high lo hi k : 0 <= k -> 0 <= lo < 2 ^ k -> 0 < hi ->
  Z.log2 (lo + 2 ^ k * hi) = k + Z.log2 hi.
Proof.
  intros Hk Hlo Hhi. pose proof (Z.log2_spec hi Hhi) as [H1 H2]. pose proof (Z.log2_nonneg hi).
  apply Z.log2_unique; [lia|]. rewrite <- Z.add_succ_r, !Z.pow_add_r by lia. nia.
Qed.

Lemma bits_limb_spec p n : (n <= 31)%nat -> 0 < p < 2 ^ (Z.of_nat n + 1) ->
  bits_limb p n = Z.log2 p + 1.
Proof.
  induction n as [|n IH]; intros Hn Hp; cbn [bits_limb].
  - assert (p = 1) as -> by (cbn in Hp; lia). done.
  - rewrite u32_small.
    2:{ rewrite Z.shiftl_1_l. split; [lia|]. apply Z.pow_lt_mono_r; lia. }
    rewrite land_bit_zero, negb_involutive by lia.
    destruct (Z.testbit p (Z.of_nat (S n))) eqn:E.
    + f_equal. symmetry. apply Z.log2_unique; [lia|].
      rewrite <- Z.add_1_r. split; [|lia].
      destruct (Z.lt_ge_cases p (2 ^ Z.of_nat (S n))); [|done].
      by rewrite (testbit_small p _ (Z.of_nat (S n))) in E by lia.
    + apply IH; [lia|]. split; [lia|].
      destruct (Z.lt_ge_cases p (2 ^ (Z.of_nat n + 1))); [done|].
      assert (Z.log2 p = Z.of_nat (S n)) as Hlog.
      { apply Z.log2_unique; [lia|]. rewrite <- Z.add_1_r.
        replace (Z.of_nat (S n)) with (Z.of_nat n + 1) in * by lia. lia. }
      rewrite <- Hlog, Z.bit_log2 in E by lia. done.
Qed.

Lemma bits_loop_spec n a pos : wf n a -> (pos <= n)%nat ->
  bits_loop a pos = if val (take pos a) =? 0 then 0 else Z.log2 (val (take pos a)) + 1.
Proof.
  intros Ha. induction pos as [|pos IH]; intros Hpos; cbn [bits_loop]; [done|].
  assert (a !! pos = Some (a !!! pos)) as Hlk.
  { apply list_lookup_lookup_total_lt. destruct Ha; lia. }
  assert (is_u32 (a !!! pos)) as Hp by (apply (Forall_lookup_total is_u32); destruct Ha; [done|lia]).
  pose proof (wf_take n pos a Ha ltac:(lia)) as Htk.
  pose proof (val_bound _ _ Htk) as Hb. unfold is_u32 in Hp.
  assert (val (take (S pos) a) = val (take pos a) + 2 ^ (32 * Z.of_nat pos) * (a !!! pos)) as ->.
  { rewrite (take_S_r _ _ _ Hlk), val_app. destruct Htk as [-> _]. cbn [val]. lia. }
  destruct (Z.eqb_spec (a !!! pos) 0) as [->|Hnz]; cbn [negb].
  - rewrite IH by lia. by rewrite Z.mul_0_r, Z.add_0_r.
  - rewrite bits_limb_spec by lia. destruct (Z.eqb_spec (val (take pos a) + 2 ^ (32 * Z.of_nat pos) * (a !!! pos)) 0).
    + pose proof (pow32_pos pos). nia.
    + rewrite log2_add_high by lia. lia.
Qed.

Lemma bits_spec n a : wf n a ->
  bits a = if val a =? 0 then 0 else Z.log2 (val a) + 1.
Proof.
  intros Ha. unfold bits. rewrite (bits_loop_spec n a) by (try done; destruct Ha; lia).
  by rewrite take_ge by lia.
Qed.

(** ** Bits of a value *)

Lemma val_testbit n a i : wf n a -> 0 <= i < 32 * Z.of_nat n ->
  Z.testbit (val a) i = Z.testbit (a !!! Z.to_nat (i / 32)) (i mod 32).
Proof.
  revert a i. induction n as [|n IH]; intros [|p a] i; try (intros [? _]; done); try lia.
  rewrite wf_cons. unfold is_u32. intros [Hp Ha] Hi. cbn [val].
  destruct (Z.lt_ge_cases i 32).
  - rewrite Z.div_small, Z.mod_small by lia. cbn [lookup_total list_lookup_total Z.to_nat].
    rewrite <- (Z.mod_pow2_bits_low _ 32) by lia.
    by rewrite Z.mul_comm, Z_mod_plus_full, Z.mod_small by lia.
  - assert (i / 32 = (i - 32) / 32 + 1) as -> by (rewrite <- (Z.div_add (i - 32) 1 32) by lia; f_equal; lia).
    assert (i mod 32 = (i - 32) mod 32) as ->.
    { rewrite <- (Z_mod_plus_full (i - 32) 1 32). f_equal. lia. }
    rewrite Z2Nat.inj_add, Nat.add_1_r by (try apply Z.div_pos; lia).
    cbn [lookup_total list_lookup_total]. rewrite <- IH by (done || lia).
    assert (val a = Z.shiftr (p + 2 ^ 32 * val a) 32) as Hsh.
    { rewrite shiftr_32, Z.mul_comm, Z.div_add, Z.div_small by lia. lia. }
    rewrite Hsh at 2. rewrite Z.shiftr_spec by lia. f_equal. lia.
Qed.

(** Two arrays agree as soon as their values agree bit by bit. *)
Lemma val_bits_ext n a x : wf n a -> 0 <= x < 2 ^ (32 * Z.of_nat n) ->
  (forall j b, (j < n)%nat -> 0 <= b < 32 ->
     Z.testbit (a !!! j) b = Z.testbit x (32 * Z.of_nat j + b)) -> val a = x.
Proof.
  intros Ha Hx H. apply (bits_inj_below _ _ (32 * Z.of_nat n)); [by apply val_bound|done|].
  intros i Hi. rewrite (val_testbit n) by done.
  pose proof (Z.mod_pos_bound i 32 ltac:(lia)).
  assert (0 <= i / 32 < Z.of_nat n) by (split; [apply Z.div_pos|apply Z.div_lt_upper_bound]; lia).
  rewrite H by lia. f_equal. rewrite Z2Nat.id by lia. symmetry. apply Z.div_mod. lia.
Qed.

(** ** Shifts *)

(** Limb [j] of the result once the limbs [0 .. m-1] of [a] were moved. *)
Definition shl_cell (a : base_uint) (k : nat) (s : Z) (m j : nat) : Z :=
  Z.lor
    (if (k + 1 <=? j)%nat && (j - k - 1 <? m)%nat && negb (s =? 0)
     then Z.shiftr (a !!! (j - k - 1)%nat) (32 - s) else 0)
    (if (k <=? j)%nat && (j - k <? m)%nat then u32 (Z.shiftl (a !!! (j - k)%nat) s) else 0).

Definition shr_cell (a : base_uint) (k : nat) (s : Z) (m j : nat) : Z :=
  Z.lor
    (if (j + k <? m)%nat then Z.shiftr (a !!! (j + k)%nat) s else 0)
    (if (j + k + 1 <? m)%nat && negb (s =? 0)
     then u32 (Z.shiftl (a !!! (j + k + 1)%nat) (32 - s)) else 0).

Lemma or_at_length c i x pn : length (or_at c i x pn) = length pn.
Proof. unfold or_at. case_match; rewrite ?length_insert; done. Qed.

Lemma or_at_lookup (c : bool) i x pn j : (c = true -> (i < length pn)%nat) ->
  or_at c i x pn !!! j =
  Z.lor (pn !!! j) (if c && (i =? j)%nat then x else 0).
Proof.
  intros Hi. unfold or_at. destruct c; cbn [andb]; [|by rewrite Z.lor_0_r].
  rewrite list_lookup_total_insert_case by auto.
  destruct (Nat.eqb_spec i j) as [->|]; [by rewrite decide_True|].
  by rewrite decide_False, Z.lor_0_r.
Qed.

Lemma foldl_cells (step : base_uint -> nat -> base_uint) (cell : nat -> nat -> Z) n :
  (forall j, (j < n)%nat -> cell O j = 0) ->
  (forall m pn, length pn = n -> (m < n)%nat ->
     (forall j, (j < n)%nat -> pn !!! j = cell m j) ->
     length (step pn m) = n /\ forall j, (j < n)%nat -> step pn m !!! j = cell (S m) j) ->
  length (foldl step (replicate n 0) (seq 0 n)) = n /\
  forall j, (j < n)%nat -> foldl step (replicate n 0) (seq 0 n) !!! j = cell n j.
Proof.
  intros H0 HS.
  assert (forall m, (m <= n)%nat ->
    length (foldl step (replicate n 0) (seq 0 m)) = n /\
    forall j, (j < n)%nat -> foldl step (replicate n 0) (seq 0 m) !!! j = cell m j) as H; [|by apply H].
  induction m as [|m IH]; intros Hm.
  - cbn [seq foldl]. split; [apply length_replicate|]. intros j Hj.
    rewrite H0 by done. by apply lookup_total_replicate_2.
  - rewrite seq_S, foldl_app. cbn [foldl Nat.add]. destruct IH as [Hl Hc]; [lia|]. by apply HS; [|lia|].
Qed.

Ltac solve_cells :=
  repeat (case_test; try lia); subst; cbn [andb negb];
  rewrite ?Z.lor_0_r, ?Z.lor_0_l; try done;
  repeat first [f_equal; lia | f_equal; f_equal; f_equal; lia | rewrite Z.lor_comm].

Lemma shl_cells a k s :
  length (foldl (shl_step a k s) (replicate (length a) 0) (seq 0 (length a))) = length a /\
  forall j, (j < length a)%nat ->
    foldl (shl_step a k s) (replicate (length a) 0) (seq 0 (length a)) !!! j =
    shl_cell a k s (length a) j.
Proof.
  apply (foldl_cells _ (shl_cell a k s)).
  - intros j Hj. unfold shl_cell. repeat (case_test; try lia); done.
  - intros m pn Hl Hm Hpn. unfold shl_step. rewrite !or_at_length. split; [done|].
    intros j Hj. rewrite or_at_lookup by (rewrite or_at_length; blia).
    rewrite or_at_lookup by blia.
    rewrite Hpn by done. unfold shl_cell.
    destruct (decide (m + k = j)%nat) as [<-|]; [|destruct (decide (m + k + 1 = j)%nat) as [<-|]].
    + replace (m + k - k)%nat with m by lia. solve_cells.
    + replace (m + k + 1 - k - 1)%nat with m by lia. solve_cells.
    + solve_cells.
Qed.

Lemma shr_cells a k s :
  length (foldl (shr_step a k s) (replicate (length a) 0) (seq 0 (length a))) = length a /\
  forall j, (j < length a)%nat ->
    foldl (shr_step a k s) (replicate (length a) 0) (seq 0 (length a)) !!! j =
    shr_cell a k s (length a) j.
Proof.
  apply (foldl_cells _ (shr_cell a k s)).
  - intros j Hj. unfold shr_cell. repeat (case_test; try lia); done.
  - intros m pn Hl Hm Hpn. unfold shr_step. rewrite !or_at_length. split; [done|].
    intros j Hj. rewrite or_at_lookup by (rewrite or_at_length; blia).
    rewrite or_at_lookup by blia.
    rewrite Hpn by done. unfold shr_cell.
    destruct (decide (m = j + k)%nat) as [->|]; [|destruct (decide (m = j + k + 1)%nat) as [->|]];
      solve_cells.
Qed.

Lemma limb_u32 n a j : wf n a -> (j < n)%nat -> is_u32 (a !!! j).
Proof. intros [<- HF] Hj. by apply (Forall_lookup_total is_u32). Qed.

Lemma limb_bit n a j b : wf n a -> (j < n)%nat -> 0 <= b < 32 ->
  Z.testbit (a !!! j) b = Z.testbit (val a) (32 * Z.of_nat j + b).
Proof.
  intros Ha Hj Hb. rewrite (val_testbit n) by (done || lia).
  destruct (div_mod_split 32 (Z.of_nat j) b Hb) as [-> ->]. by rewrite Nat2Z.id.
Qed.

Lemma wf_cells n a : length a = n -> (forall j, (j < n)%nat -> is_u32 (a !!! j)) -> wf n a.
Proof.
  intros <- H. split; [done|]. apply Forall_lookup. intros j x Hx.
  rewrite <- (list_lookup_total_correct _ _ _ Hx). apply H. by apply lookup_lt_Some in Hx.
Qed.

Lemma shiftr_u32 x s : is_u32 x -> 0 <= s -> is_u32 (Z.shiftr x s).
Proof.
  unfold is_u32. intros Hx Hs. rewrite Z.shiftr_div_pow2 by done.
  assert (0 < 2 ^ s) by (apply Z.pow_pos_nonneg; lia).
  split; [apply Z.div_pos; lia|]. apply Z.le_lt_trans with x; [|lia]. apply Z.div_le_upper_bound; nia.
Qed.

Lemma op_shl_wf n a shift : wf n a -> 0 <= shift -> wf n (op_shl a shift).
Proof.
  intros Ha Hs. pose proof Ha as [Hl _]. pose proof (Z.mod_pos_bound shift 32 ltac:(lia)).
  destruct (shl_cells a (Z.to_nat (shift / 32)) (shift mod 32)) as [Hlen Hc].
  apply wf_cells; [unfold op_shl; lia|]. intros j Hj. unfold op_shl. rewrite Hc by lia.
  apply lor_range; [lia|..]; (case_match; [|lia]); bool_hyps.
  - apply shiftr_u32; [apply (limb_u32 n); [done|lia]|lia].
  - apply u32_range.
Qed.

Lemma op_shr_wf n a shift : wf n a -> 0 <= shift -> wf n (op_shr a shift).
Proof.
  intros Ha Hs. pose proof Ha as [Hl _]. pose proof (Z.mod_pos_bound shift 32 ltac:(lia)).
  destruct (shr_cells a (Z.to_nat (shift / 32)) (shift mod 32)) as [Hlen Hc].
  apply wf_cells; [unfold op_shr; lia|]. intros j Hj. unfold op_shr. rewrite Hc by lia.
  apply lor_range; [lia|..]; (case_match; [|lia]); bool_hyps.
  - apply shiftr_u32; [apply (limb_u32 n); [done|lia]|lia].
  - apply u32_range.
Qed.

Lemma shl_cell_bit n a k s j b : wf n a -> (j < n)%nat -> 0 <= b < 32 -> 0 <= s < 32 ->
  Z.testbit (shl_cell a k s n j) b =
  Z.testbit (val a) (32 * Z.of_nat j + b - (32 * Z.of_nat k + s)).
Proof.
  intros Ha Hj Hb Hs. unfold shl_cell. rewrite Z.lor_spec.
  destruct (Z.le_gt_cases s b).
  - assert (Z.testbit (if (k + 1 <=? j)%nat && (j - k - 1 <? n)%nat && negb (s =? 0)
        then Z.shiftr (a !!! (j - k - 1)%nat) (32 - s) else 0) b = false) as ->.
    { case_match; [|apply Z.bits_0]. bool_hyps. rewrite Z.shiftr_spec by lia.
      apply (testbit_small _ _ 32); [|lia]. apply (limb_u32 n); [done|lia]. }
    cbn [orb]. destruct (Nat.leb_spec k j); cbn [andb]; [|by rewrite Z.bits_0, Z.testbit_neg_r by lia].
    rewrite (proj2 (Nat.ltb_lt _ _)) by lia.
    rewrite testbit_u32, Z.shiftl_spec, (limb_bit n) by (done || lia).
    destruct (Z.ltb_spec b 32); [|lia]. cbn [andb]. f_equal. lia.
  - assert (Z.testbit (if (k <=? j)%nat && (j - k <? n)%nat
        then u32 (Z.shiftl (a !!! (j - k)%nat) s) else 0) b = false) as ->.
    { case_match; [|apply Z.bits_0]. rewrite testbit_u32, Z.shiftl_spec, (Z.testbit_neg_r _ (b - s)) by lia.
      apply andb_false_r. }
    rewrite orb_false_r. destruct (Z.eqb_spec s 0); [lia|].
    destruct (Nat.leb_spec (k + 1) j); cbn [andb]; [|by rewrite Z.bits_0, Z.testbit_neg_r by lia].
    rewrite (proj2 (Nat.ltb_lt _ _)) by lia. cbn [andb negb].
    rewrite Z.shiftr_spec, (limb_bit n) by (done || lia). f_equal. lia.
Qed.

Lemma shr_cell_bit n a k s j b : wf n a -> (j < n)%nat -> 0 <= b < 32 -> 0 <= s < 32 ->
  Z.testbit (shr_cell a k s n j) b =
  Z.testbit (val a) (32 * Z.of_nat j + b + (32 * Z.of_nat k + s)).
Proof.
  intros Ha Hj Hb Hs. pose proof (val_bound n a Ha). unfold shr_cell. rewrite Z.lor_spec.
  destruct (Z.lt_ge_cases (b + s) 32).
  - assert (Z.testbit (if (j + k + 1 <? n)%nat && negb (s =? 0)
        then u32 (Z.shiftl (a !!! (j + k + 1)%nat) (32 - s)) else 0) b = false) as ->.
    { case_match; [|apply Z.bits_0].
      rewrite testbit_u32, Z.shiftl_spec, (Z.testbit_neg_r _ (b - (32 - s))) by lia. apply andb_false_r. }
    rewrite orb_false_r. case_test.
    + rewrite Z.shiftr_spec, (limb_bit n) by (done || lia). f_equal. lia.
    + by rewrite Z.bits_0, (testbit_small _ _ (32 * Z.of_nat n)) by lia.
  - assert (Z.testbit (if (j + k <? n)%nat then Z.shiftr (a !!! (j + k)%nat) s else 0) b = false) as ->.
    { case_test; [|apply Z.bits_0]. rewrite Z.shiftr_spec by lia.
      apply (testbit_small _ _ 32); [|lia]. by apply (limb_u32 n). }
    cbn [orb]. destruct (Z.eqb_spec s 0); [lia|]. rewrite andb_true_r. case_test.
    + rewrite testbit_u32, Z.shiftl_spec, (limb_bit n) by (done || lia).
      destruct (Z.ltb_spec b 32); [|lia]. cbn [andb]. f_equal. lia.
    + by rewrite Z.bits_0, (testbit_small _ _ (32 * Z.of_nat n)) by lia.
Qed.

Lemma shift_split shift : 0 <= shift ->
  32 * Z.of_nat (Z.to_nat (shift / 32)) + shift mod 32 = shift /\ 0 <= shift mod 32 < 32.
Proof.
  intros Hs. pose proof (Z.div_pos shift 32 Hs ltac:(lia)).
  rewrite Z2Nat.id by lia. pose proof (Z.div_mod shift 32 ltac:(lia)).
  pose proof (Z.mod_pos_bound shift 32 ltac:(lia)). lia.
Qed.

Lemma op_shl_val n a shift : wf n a -> 0 <= shift ->
  val (op_shl a shift) = (val a * 2 ^ shift) mod 2 ^ (32 * Z.of_nat n).
Proof.
  intros Ha Hs. pose proof (shift_split shift Hs) as [Hsh Hm].
  apply (val_bits_ext n); [by apply op_shl_wf|apply Z.mod_pos_bound, pow32_pos|].
  intros j b Hj Hb. pose proof Ha as [Hl _].
  destruct (shl_cells a (Z.to_nat (shift / 32)) (shift mod 32)) as [_ Hc].
  unfold op_shl. rewrite Hc, Hl, shl_cell_bit by (done || lia).
  rewrite Z.mod_pow2_bits_low, Z.mul_pow2_bits by lia. f_equal. lia.
Qed.

Lemma op_shr_val n a shift : wf n a -> 0 <= shift ->
  val (op_shr a shift) = val a / 2 ^ shift.
Proof.
  intros Ha Hs. pose proof (shift_split shift Hs) as [Hsh Hm].
  pose proof (val_bound n a Ha). assert (0 < 2 ^ shift) by (apply Z.pow_pos_nonneg; lia).
  apply (val_bits_ext n); [by apply op_shr_wf|split; [apply Z.div_pos; lia|]|].
  { apply Z.le_lt_trans with (val a); [|lia]. apply Z.div_le_upper_bound; nia. }
  intros j b Hj Hb. pose proof Ha as [Hl _].
  destruct (shr_cells a (Z.to_nat (shift / 32)) (shift mod 32)) as [_ Hc].
  unfold op_shr. rewrite Hc, Hl, shr_cell_bit by (done || lia).
  rewrite Z.div_pow2_bits by lia. f_equal. lia.
Qed.

(** ** Bitwise operators and small conversions *)

Lemma zip_with_bits f g n a b :
  (forall x y i, Z.testbit (f x y) i = g (Z.testbit x i) (Z.testbit y i)) ->
  (forall x y, is_u32 x -> is_u32 y -> is_u32 (f x y)) ->
  wf n a -> wf n b ->
  wf n (zip_with f a b) /\
  (0 <= f (val a) (val b) < 2 ^ (32 * Z.of_nat n) -> val (zip_with f a b) = f (val a) (val b)).
Proof.
  intros Hf Hr Ha Hb. pose proof Ha as [Hla _]. pose proof Hb as [Hlb _].
  assert (forall j, (j < n)%nat -> zip_with f a b !!! j = f (a !!! j) (b !!! j)) as Hlk.
  { intros j Hj. apply list_lookup_total_correct. rewrite lookup_zip_with.
    by rewrite !list_lookup_lookup_total_lt by lia. }
  assert (wf n (zip_with f a b)) as Hw.
  { apply wf_cells; [rewrite length_zip_with; lia|]. intros j Hj. rewrite Hlk by done.
    apply Hr; by apply (limb_u32 n). }
  split; [done|]. intros Hv. apply (val_bits_ext n); [done|done|]. intros j i Hj Hi.
  by rewrite Hlk, !Hf, !(limb_bit n) by done.
Qed.

Lemma op_or_val n a b : wf n a -> wf n b ->
  wf n (op_or a b) /\ val (op_or a b) = Z.lor (val a) (val b).
Proof.
  intros Ha Hb. destruct (zip_with_bits Z.lor orb n a b Z.lor_spec) as [Hw Hv]; try done.
  { intros x y ? ?. by apply lor_range. }
  split; [done|]. apply Hv, lor_range; [lia|by apply val_bound..].
Qed.

Lemma of_u64_wf n b : (2 <= n)%nat -> wf n (of_u64 n b).
Proof.
  intros Hn. unfold of_u64. destruct n as [|[|n]]; [lia..|].
  rewrite !wf_cons. replace (S (S n) - 2)%nat with n by lia.
  repeat split; try apply u32_range; apply wf_replicate.
Qed.

Lemma of_u64_val n b : is_u64 b -> val (of_u64 n b) = b.
Proof.
  intros Hb. unfold of_u64, is_u64 in *. cbn [val]. rewrite val_replicate, shiftr_32.
  rewrite (u32_small (b / 2 ^ 32)) by (split; [apply Z.div_pos|apply Z.div_lt_upper_bound]; lia).
  unfold u32. pose proof (Z.div_mod b (2 ^ 32) ltac:(lia)). lia.
Qed.

Lemma lor_disjoint_add x y k : 0 <= x < 2 ^ k -> 0 <= k -> 0 <= y ->
  Z.lor x (Z.shiftl y k) = x + y * 2 ^ k.
Proof.
  intros Hx Hk Hy. rewrite <- Z.shiftl_mul_pow2 by done. symmetry. rewrite Z.add_nocarry_lxor.
  - symmetry. apply Z.bits_inj'. intros i Hi. rewrite Z.lor_spec, Z.lxor_spec, Z.shiftl_spec by lia.
    destruct (Z.lt_ge_cases i k).
    + rewrite (Z.testbit_neg_r _ (i - k)) by lia. by rewrite orb_false_r, xorb_false_r.
    + rewrite (testbit_small x i k) by lia. done.
  - apply Z.bits_inj'. intros i Hi. rewrite Z.land_spec, Z.shiftl_spec, Z.bits_0 by lia.
    destruct (Z.lt_ge_cases i k).
    + rewrite (Z.testbit_neg_r _ (i - k)) by lia. apply andb_false_r.
    + by rewrite (testbit_small x i k) by lia.
Qed.

Lemma GetLow64_val n a : wf n a -> (2 <= n)%nat -> GetLow64 a = val a mod 2 ^ 64.
Proof.
  intros Ha Hn. destruct n as [|[|n]]; [lia..|]. destruct a as [|p [|q a]]; [by destruct Ha..|].
  rewrite !wf_cons in Ha. unfold is_u32 in Ha. destruct Ha as (Hp & Hq & Ha).
  unfold GetLow64. cbn [lookup_total list_lookup_total val]. rewrite u64_small.
  2:{ rewrite Z.shiftl_mul_pow2 by lia. lia. }
  rewrite lor_disjoint_add by lia.
  apply (mod_of_carry _ (val a)); lia.
Qed.

(** ** Division *)

Lemma set_bit_val n q sh : wf n q -> (sh < 32 * n)%nat -> Z.testbit (val q) (Z.of_nat sh) = false ->
  let q' := <[(sh / 32)%nat := Z.lor (q !!! (sh / 32)%nat)
               (u32 (Z.shiftl 1 (Z.land (Z.of_nat sh) 31)))]> q in
  wf n q' /\ val q' = val q + 2 ^ Z.of_nat sh.
Proof.
  intros Hq Hsh Hb q'. pose proof Hq as [Hl _].
  assert (sh / 32 < n)%nat as Hi by (apply Nat.Div0.div_lt_upper_bound; lia).
  assert (Z.land (Z.of_nat sh) 31 = Z.of_nat (sh mod 32)%nat) as Hm.
  { change 31 with (Z.ones 5). rewrite Z.land_ones by lia. by rewrite Nat2Z.inj_mod. }
  assert (sh mod 32 < 32)%nat by (apply Nat.mod_upper_bound; lia).
  unfold q'. clear q'. rewrite Hm, u32_small.
  2:{ rewrite Z.shiftl_1_l. split; [lia|]. apply Z.pow_lt_mono_r; lia. }
  rewrite Z.shiftl_1_l. set (i := (sh / 32)%nat) in *. set (b := (sh mod 32)%nat) in *.
  assert (Z.of_nat sh = 32 * Z.of_nat i + Z.of_nat b) as Hsplit.
  { unfold i, b. pose proof (Nat.div_mod_eq sh 32). lia. }
  assert (0 <= 2 ^ Z.of_nat b < 2 ^ 32) by (split; [lia|apply Z.pow_lt_mono_r; lia]).
  assert (wf n (<[i := Z.lor (q !!! i) (2 ^ Z.of_nat b)]> q)) as Hw.
  { apply wf_cells; [by rewrite length_insert|]. intros j Hj.
    rewrite list_lookup_total_insert_case by lia.
    destruct (decide (i = j)); [|by apply (limb_u32 n)].
    apply lor_range; [lia|by apply (limb_u32 n); [|lia]|done]. }
  split; [done|].
  assert (0 <= Z.of_nat sh < 32 * Z.of_nat n) by lia.
  assert (0 <= 2 ^ Z.of_nat sh < 2 ^ (32 * Z.of_nat n)) by (split; [lia|apply Z.pow_lt_mono_r; lia]).
  transitivity (Z.lor (val q) (2 ^ Z.of_nat sh)).
  - apply (val_bits_ext n); [done|apply lor_range; [lia|by apply val_bound|done]|].
    intros j c Hj Hc. rewrite list_lookup_total_insert_case by lia.
    rewrite Z.lor_spec, Z.pow2_bits_eqb, <- (limb_bit n) by (done || lia).
    destruct (decide (i = j)) as [<-|].
    + rewrite Z.lor_spec, Z.pow2_bits_eqb by lia. f_equal.
      destruct (Z.eqb_spec (Z.of_nat b) c); destruct (Z.eqb_spec (Z.of_nat sh) (32 * Z.of_nat i + c)); lia.
    + destruct (Z.eqb_spec (Z.of_nat sh) (32 * Z.of_nat j + c)); [lia|]. by rewrite orb_false_r.
  - assert (Z.land (val q) (2 ^ Z.of_nat sh) = 0) as Hland.
    { apply Z.eqb_eq. rewrite <- Z.shiftl_1_l, land_bit_zero by lia. by rewrite Hb. }
    rewrite Z.add_nocarry_lxor by done. symmetry.
    rewrite Z.lxor_lor by done. done.
Qed.

Lemma testbit_multiple x k i : 0 <= i < k -> Z.testbit (x * 2 ^ k) i = false.
Proof. intros Hi. rewrite Z.mul_pow2_bits by lia. apply Z.testbit_neg_r. lia. Qed.

(** Loop invariant: [div] is [D * 2 ^ (m-1)], [num < D * 2 ^ m], the low [m]
    bits of the quotient are still clear. *)
Lemma div_loop_spec n D m q num div k :
  wf n q -> wf n num -> wf n div -> 0 < D -> (m <= 32 * n)%nat ->
  val q = k * 2 ^ Z.of_nat m ->
  val num < D * 2 ^ Z.of_nat m ->
  (forall m', m = S m' -> val div = D * 2 ^ Z.of_nat m') ->
  wf n (div_loop m q num div) /\ val (div_loop m q num div) = val q + val num / D.
Proof.
  revert q num div k. induction m as [|m IH]; intros q num div k Hq Hnum Hdiv HD Hm Hk Hlt Hd.
  - cbn [div_loop]. split; [done|]. pose proof (val_bound _ _ Hnum).
    rewrite Z.div_small by (cbn in Hlt; lia). lia.
  - cbn [div_loop]. specialize (Hd m eq_refl). rewrite (CompareTo_spec n) by done.
    pose proof (val_bound _ _ Hnum) as Hnb. pose proof (val_bound _ _ Hdiv) as Hdb.
    rewrite Nat2Z.inj_succ, Z.pow_succ_r in Hlt, Hk by lia.
    pose proof (op_shr_wf n div 1 Hdiv ltac:(lia)) as Hdw.
    assert (forall m', m = S m' -> val (op_shr div 1) = D * 2 ^ Z.of_nat m') as Hd'.
    { intros m' ->. rewrite (op_shr_val n), Hd by (done || lia).
      rewrite Nat2Z.inj_succ, Z.pow_succ_r, Z.mul_assoc, (Z.mul_comm D 2), <- Z.mul_assoc by lia.
      change (2 ^ 1) with 2. rewrite Z.mul_comm. apply Z.div_mul. lia. }
    destruct (Z.compare_spec (val num) (val div)) as [Heq|Hl|Hg]; cbn [Z.leb Z.compare].
    2:{ apply (IH _ _ _ (k * 2)); try done; try lia. }
    all: assert (Z.testbit (val q) (Z.of_nat m) = false) as Hbit
      by (rewrite Hk, <- Z.pow_succ_r by lia; apply testbit_multiple; lia).
    all: destruct (set_bit_val n q m Hq ltac:(lia) Hbit) as [Hqw Hqv].
    all: destruct (IH _ (op_sub num div) (op_shr div 1) (k * 2 + 1) Hqw (op_sub_wf n num div Hnum Hdiv) Hdw HD)
      as [Hw Hv]; [lia|rewrite Hqv, Hk; ring|
        rewrite (op_sub_val n), Z.mod_small by (done || lia); lia|done|].
    all: split; [done|]; rewrite Hv, Hqv, (op_sub_val n), Z.mod_small by (done || lia).
    all: replace (val num) with (val num - val div + 2 ^ Z.of_nat m * D) at 2 by lia.
    all: rewrite Z.div_add by lia; lia.
Qed.

Lemma op_div_zero n a b : wf n b -> val b = 0 -> op_div a b = Err UintError.
Proof. intros Hb E. unfold op_div. by rewrite (bits_spec n b), E by done. Qed.

Lemma log2_lt_width n a : wf n a -> 0 < val a -> Z.log2 (val a) < 32 * Z.of_nat n.
Proof. intros Ha Hp. apply Z.log2_lt_pow2; [done|]. by apply val_bound. Qed.

Lemma op_div_spec n a b : wf n a -> wf n b -> 0 < val b ->
  exists q, op_div a b = Ok q /\ wf n q /\ val q = val a / val b.
Proof.
  intros Ha Hb Hpos. unfold op_div. rewrite !(bits_spec n) by done.
  pose proof (val_bound n a Ha) as Hab. pose proof (val_bound n b Hb) as Hbb.
  destruct (Z.eqb_spec (val b) 0); [lia|].
  pose proof (Z.log2_spec (val b) Hpos) as Hlb. pose proof (Z.log2_nonneg (val b)).
  destruct (Z.eqb_spec (Z.log2 (val b) + 1) 0); [lia|].
  destruct (Z.eqb_spec (val a) 0) as [E|Hnz].
  { destruct (Z.ltb_spec 0 (Z.log2 (val b) + 1)); [|lia]. eexists; split; [done|].
    destruct Ha as [-> _]. rewrite E, val_replicate, Z.div_0_l by lia. split; [apply wf_replicate|done]. }
  assert (0 < val a) as Hapos by lia.
  pose proof (Z.log2_spec (val a) Hapos) as Hla. pose proof (log2_lt_width n a Ha Hapos).
  destruct (Z.ltb_spec (Z.log2 (val a) + 1) (Z.log2 (val b) + 1)) as [Hlt|Hge].
  { eexists; split; [done|]. destruct Ha as [-> _]. split; [apply wf_replicate|].
    rewrite val_replicate, Z.div_small; [done|]. split; [lia|].
    apply Z.lt_le_trans with (2 ^ Z.succ (Z.log2 (val a))); [lia|].
    apply Z.le_trans with (2 ^ Z.log2 (val b)); [apply Z.pow_le_mono_r; lia|lia]. }
  set (shift := Z.log2 (val a) + 1 - (Z.log2 (val b) + 1)).
  assert (0 <= shift) by lia.
  assert (2 ^ Z.succ (Z.log2 (val a)) = 2 ^ Z.succ (Z.log2 (val b)) * 2 ^ shift) as Hpow.
  { rewrite <- Z.pow_add_r by lia. f_equal. lia. }
  assert (2 ^ Z.succ (Z.log2 (val a)) <= 2 ^ (32 * Z.of_nat n)) by (apply Z.pow_le_mono_r; lia).
  assert (0 < 2 ^ shift) by (apply Z.pow_pos_nonneg; lia).
  rewrite (Z.pow_succ_r 2 (Z.log2 (val b))) in Hlb, Hpow by lia.
  destruct (div_loop_spec n (val b) (Z.to_nat (shift + 1)) (replicate (length a) 0) a (op_shl b shift) 0)
    as [Hw Hv]; try done; try lia.
  - destruct Ha as [-> _]. apply wf_replicate.
  - by apply op_shl_wf.
  - by rewrite val_replicate.
  - rewrite Z2Nat.id, Z.pow_add_r by lia. change (2 ^ 1) with 2.
    nia.
  - intros m' Hm'. rewrite (op_shl_val n) by (done || lia).
    replace (Z.of_nat m') with shift by lia. apply Z.mod_small.
    nia.
  - eexists; split; [done|]. split; [done|]. rewrite Hv, val_replicate. lia.
Qed.

(** ** Integer roots *)

Lemma root_power_spec x p c : 0 <= x -> 0 <= p ->
  p * x ^ Z.of_nat c < 2 ^ 64 -> 1 <= x -> root_power x p c = p * x ^ Z.of_nat c.
Proof.
  revert p. induction c as [|c IH]; intros p Hx Hp Hlt H1; cbn [root_power]; [cbn; lia|].
  rewrite Nat2Z.inj_succ, Z.pow_succ_r in Hlt by lia.
  rewrite Nat2Z.inj_succ, Z.pow_succ_r by lia.
  assert (1 <= x ^ Z.of_nat c) by (pose proof (Z.pow_le_mono_l 1 x (Z.of_nat c)); rewrite Z.pow_1_l in *; lia).
  rewrite u64_small by nia. rewrite IH by nia. ring.
Qed.

Lemma root_search_spec n K head root i :
  2 <= n -> 0 <= K -> n * K <= 64 -> 0 <= root ->
  (exists r, root = r * 2 ^ Z.of_nat i) -> root + 2 ^ Z.of_nat i <= 2 ^ K ->
  root ^ n <= head < (root + 2 ^ Z.of_nat i) ^ n ->
  let r := root_search n head root i in
  r ^ n <= head < (r + 1) ^ n /\ 0 <= r < 2 ^ K.
Proof.
  intros Hn HK HnK. revert root. induction i as [|i IH]; intros root Hr [r Er] Hle Hh; cbn [root_search].
  - change (2 ^ Z.of_nat 0) with 1 in *. split; [done|lia].
  - rewrite Nat2Z.inj_succ, Z.pow_succ_r in * by lia.
    assert (0 < 2 ^ Z.of_nat i) as Hp by (apply Z.pow_pos_nonneg; lia).
    assert (Z.lor root (Z.shiftl 1 (Z.of_nat i)) = root + 2 ^ Z.of_nat i) as ->.
    { rewrite Z.lor_comm, Er, Z.shiftl_1_l.
      replace (r * (2 * 2 ^ Z.of_nat i)) with (Z.shiftl r (Z.of_nat i + 1))
        by (rewrite Z.shiftl_mul_pow2, Z.pow_add_r by lia; ring).
      rewrite lor_disjoint_add.
      - rewrite Z.shiftl_mul_pow2, Z.pow_add_r by lia. ring.
      - rewrite Z.pow_add_r by lia. lia.
      - lia.
      - nia. }
    set (next := root + 2 ^ Z.of_nat i).
    assert (next ^ n < 2 ^ 64) as Hov.
    { apply Z.lt_le_trans with ((2 ^ K) ^ n); [apply Z.pow_lt_mono_l; lia|].
      rewrite <- Z.pow_mul_r by lia. apply Z.pow_le_mono_r; lia. }
    assert (root_power next next (Z.to_nat (n - 1)) = next ^ n) as ->.
    { assert (next * next ^ (n - 1) = next ^ n) as E.
      { rewrite <- Z.pow_succ_r by lia. f_equal. lia. }
      rewrite root_power_spec; rewrite ?Z2Nat.id by lia; lia. }
    destruct (Z.leb_spec (next ^ n) head); apply IH; try lia.
    + exists (2 * r + 1). unfold next. rewrite Er. ring.
    + unfold next in *. split; [done|].
      replace (root + 2 ^ Z.of_nat i + 2 ^ Z.of_nat i) with (root + 2 * 2 ^ Z.of_nat i) by lia. lia.
    + exists (2 * r). rewrite Er. ring.
    + fold next. lia.
Qed.

Lemma root_shifts_bound L n : 0 <= L -> 2 <= n < 64 ->
  0 <= root_shifts L n /\ L - n * root_shifts L n <= n * (64 / n) /\
  (root_shifts L n = 0 \/ root_shifts L n + 64 / n = (L - 1) / n + 1 /\ 1 <= L).
Proof.
  intros HL Hn. unfold root_shifts. rewrite (Z.quot_div_nonneg 64) by lia.
  assert (1 <= 64 / n) by (apply Z.div_le_lower_bound; lia).
  destruct (Z.eq_dec L 0) as [->|].
  { replace (Z.quot (0 - 1) n) with 0 by (symmetry; apply Z.quot_small_iff; lia). lia. }
  rewrite Z.quot_div_nonneg by lia.
  pose proof (Z.div_mod (L - 1) n ltac:(lia)). pose proof (Z.mod_pos_bound (L - 1) n ltac:(lia)).
  destruct (Z.max_spec 0 ((L - 1) / n + 1 - 64 / n)) as [[? ->]|[? ->]]; nia.
Qed.

Lemma bits_pow_bound n a : wf n a -> 0 <= bits a <= 32 * Z.of_nat n /\ val a < 2 ^ bits a.
Proof.
  intros Ha. rewrite (bits_spec n) by done. pose proof (val_bound n a Ha).
  destruct (Z.eqb_spec (val a) 0) as [->|]; [lia|].
  pose proof (log2_lt_width n a Ha ltac:(lia)). pose proof (Z.log2_nonneg (val a)).
  pose proof (Z.log2_spec (val a) ltac:(lia)). unfold Z.succ in *. lia.
Qed.

Lemma ApproxNthRoot_spec W a n : wf W a -> (2 <= W)%nat -> 2 <= n < 64 ->
  exists r, ApproxNthRoot a n = Ok r /\ wf W r /\
    val r ^ n <= val a < (val r + 2 ^ root_shifts (bits a) n) ^ n.
Proof.
  intros Ha HW Hn. unfold ApproxNthRoot.
  destruct (Z.ltb_spec 1 n), (Z.ltb_spec n 64); try lia. cbn [andb cassert mbind result_bind].
  pose proof Ha as [Hla _]. rewrite Hla.
  eexists. split; [done|]. pose proof (val_bound W a Ha) as Hab.
  destruct (bits_pow_bound W a Ha) as [Hbits Hlt].
  destruct (root_shifts_bound (bits a) n ltac:(lia) Hn) as (Hs & HL & Hsum).
  set (s := root_shifts (bits a) n) in *. rewrite (Z.quot_div_nonneg 64) by lia.
  set (K := 64 / n) in *. assert (n * K <= 64) by (apply Z.mul_div_le; lia).
  assert (1 <= K) by (apply Z.div_le_lower_bound; lia).
  assert (0 <= n * s) by nia.
  set (P := 2 ^ (n * s)). assert (0 < P) by (apply Z.pow_pos_nonneg; lia).
  assert (0 <= val a / P < 2 ^ (n * K)) as Hhead.
  { split; [apply Z.div_pos; lia|]. apply Z.div_lt_upper_bound; [lia|].
    unfold P. rewrite <- Z.pow_add_r by lia. eapply Z.lt_le_trans; [exact Hlt|].
    apply Z.pow_le_mono_r; lia. }
  assert (GetLow64 (op_shr a (n * s)) = val a / P) as ->.
  { rewrite (GetLow64_val W), (op_shr_val W) by (try apply op_shr_wf; done).
    apply Z.mod_small. split; [lia|]. eapply Z.lt_le_trans; [apply Hhead|]. apply Z.pow_le_mono_r; lia. }
  destruct (root_search_spec n K (val a / P) 0 (Z.to_nat K)) as [Hroot Hr]; try lia.
  { by exists 0. }
  { rewrite Z2Nat.id by lia. lia. }
  { rewrite Z2Nat.id, Z.pow_0_l, Z.add_0_l, <- Z.pow_mul_r, (Z.mul_comm K) by lia. lia. }
  set (r := root_search _ _ _ _) in *.
  assert (0 < 2 ^ s) by (apply Z.pow_pos_nonneg; lia).
  assert (2 ^ K <= 2 ^ 32) by (apply Z.pow_le_mono_r; [lia|]; apply Z.div_le_upper_bound; lia).
  split; [apply op_shl_wf; [apply of_u64_wf; lia|lia]|].
  rewrite (op_shl_val W), of_u64_val by (try apply of_u64_wf; unfold is_u64; lia || done).
  rewrite Z.mod_small.
  2:{ split; [nia|]. apply Z.lt_le_trans with (2 ^ K * 2 ^ s); [nia|]. rewrite <- Z.pow_add_r by lia.
      apply Z.pow_le_mono_r; [lia|]. destruct Hsum as [->|[Hsum HL1]].
      - assert (K <= 32) by (apply Z.div_le_upper_bound; lia). lia.
      - assert ((bits a - 1) / n <= bits a - 1) by (apply Z.div_le_upper_bound; nia). lia. }
  replace (r * 2 ^ s + 2 ^ s) with ((r + 1) * 2 ^ s) by ring.
  rewrite !Z.pow_mul_l, <- !Z.pow_mul_r, (Z.mul_comm s) by lia. fold P.
  pose proof (Z.div_mod (val a) P ltac:(lia)). pose proof (Z.mod_pos_bound (val a) P ltac:(lia)). nia.
Qed.

(** ** Equality with a 64-bit number *)

Lemma forallb_zero_val n a : wf n a -> forallb (fun p => p =? 0) a = (val a =? 0).
Proof.
  revert a. induction n as [|n IH]; intros [|p a]; try (intros [? _]; done).
  rewrite wf_cons. unfold is_u32. intros [Hp Ha]. cbn [forallb val]. rewrite (IH a) by done.
  pose proof (val_bound n a Ha).
  destruct (Z.eqb_spec p 0), (Z.eqb_spec (val a) 0), (Z.eqb_spec (p + 2 ^ 32 * val a) 0); lia.
Qed.

Lemma EqualTo_spec n a b : wf n a -> (2 <= n)%nat -> is_u64 b -> EqualTo a b = (val a =? b).
Proof.
  intros Ha Hn Hb. destruct n as [|[|n]]; [lia..|]. destruct a as [|p [|q a]]; [by destruct Ha..|].
  rewrite !wf_cons in Ha. unfold is_u32, is_u64 in *. destruct Ha as (Hp & Hq & Ha).
  unfold EqualTo. cbn [lookup_total list_lookup_total val]. change (drop 2 (p :: q :: a)) with a.
  rewrite (forallb_zero_val n) by done.
  rewrite land_u32_mask, shiftr_32. unfold u32. pose proof (val_bound n a Ha).
  pose proof (Z.div_mod b (2 ^ 32) ltac:(lia)). pose proof (Z.mod_pos_bound b (2 ^ 32) ltac:(lia)).
  destruct (Z.eqb_spec (val a) 0), (Z.eqb_spec q (b / 2 ^ 32)), (Z.eqb_spec p (b mod 2 ^ 32)),
    (Z.eqb_spec (p + 2 ^ 32 * (q + 2 ^ 32 * val a)) b); first [done|exfalso; lia].
Qed.

#[export] Hint Resolve op_add_wf op_sub_wf op_neg_wf op_mul_wf op_mul32_wf op_shl_wf op_shr_wf
  of_u64_wf wf_replicate : but.

(** ** Properties *)

(** For arrays of the same width, [+=], [-=], unary [-], [*=] by an array,
    [*=] by a 32-bit number, [++] and [--] keep every limb in range and compute
    the ring operation modulo [2 ^ BITS]. *)
Theorem base_uint_ring n a b m : wf n a -> wf n b -> is_u32 m ->
  let M := 2 ^ (32 * Z.of_nat n) in
  (wf n (op_add a b) /\ val (op_add a b) = (val a + val b) mod M) /\
  (wf n (op_sub a b) /\ val (op_sub a b) = (val a - val b) mod M) /\
  (wf n (op_neg a) /\ val (op_neg a) = (- val a) mod M) /\
  (wf n (op_mul a b) /\ val (op_mul a b) = (val a * val b) mod M) /\
  (wf n (op_mul32 a m) /\ val (op_mul32 a m) = (val a * m) mod M) /\
  (wf n (op_inc a) /\ val (op_inc a) = (val a + 1) mod M) /\
  (wf n (op_dec a) /\ val (op_dec a) = (val a - 1) mod M).
Proof.
  intros Ha Hb Hm M. unfold M.
  destruct (op_neg_spec n a Ha) as [c1 H1]. destruct (op_dec_spec n a Ha) as [Hd [c2 H2]].
  destruct (op_inc_spec n a Ha) as [Hi _].
  rewrite (op_add_val n), (op_sub_val n), (op_mul_val n), (op_mul32_val n), (op_inc_val n) by done.
  assert (val (op_neg a) = (- val a) mod 2 ^ (32 * Z.of_nat n))
    by (eapply mod_of_carry; [apply val_bound; auto with but|exact H1]).
  assert (val (op_dec a) = (val a - 1) mod 2 ^ (32 * Z.of_nat n))
    by (eapply mod_of_carry; [by apply val_bound|exact H2]).
  auto 20 with but.
Qed.

Lemma base_uint_ring_witness :
  val (op_sub (of_u64 8 5) (of_u64 8 7)) = 2 ^ 256 - 2.
Proof.
  pose proof (base_uint_ring 8 (of_u64 8 5) (of_u64 8 7) 9
    ltac:(apply of_u64_wf; lia) ltac:(apply of_u64_wf; lia) ltac:(unfold is_u32; lia)) as (_ & [_ H] & _).
  rewrite H. vm_compute. reflexivity.
Defined.

(** [<<=] multiplies by a power of two modulo [2 ^ BITS] and [>>=] divides
    by one, for any shift count, also one past the width. *)
Theorem base_uint_shift n a shift : wf n a -> 0 <= shift ->
  (wf n (op_shl a shift) /\
   val (op_shl a shift) = (val a * 2 ^ shift) mod 2 ^ (32 * Z.of_nat n)) /\
  (wf n (op_shr a shift) /\ val (op_shr a shift) = val a / 2 ^ shift).
Proof. intros. rewrite (op_shl_val n), (op_shr_val n) by done. auto with but. Qed.

Lemma base_uint_shift_witness : val (op_shr (op_shl (of_u64 8 5) 250) 240) = 5 * 2 ^ 10.
Proof.
  assert (wf 8 (of_u64 8 5)) as H5 by (apply of_u64_wf; lia).
  destruct (base_uint_shift 8 (of_u64 8 5) 250 H5 ltac:(lia)) as [[Hw Hv] _].
  destruct (base_uint_shift 8 (op_shl (of_u64 8 5) 250) 240 Hw ltac:(lia)) as [_ [_ ->]].
  rewrite Hv. vm_compute. reflexivity.
Defined.

(** [/=] throws [uint_error] exactly on a zero divisor and otherwise
    returns the integer quotient: the shift-and-subtract loop is Euclidean
    division. *)
Theorem base_uint_division n a b : wf n a -> wf n b ->
  if val b =? 0 then op_div a b = Err UintError
  else exists q, op_div a b = Ok q /\ wf n q /\ val q = val a / val b.
Proof.
  intros Ha Hb. destruct (Z.eqb_spec (val b) 0); [by apply (op_div_zero n)|].
  apply op_div_spec; [done..|]. pose proof (val_bound n b Hb). lia.
Qed.

Lemma base_uint_division_witness :
  exists q, op_div (of_u64 8 1000003) (of_u64 8 10) = Ok q /\ val q = 100000.
Proof.
  pose proof (base_uint_division 8 (of_u64 8 1000003) (of_u64 8 10)
    ltac:(apply of_u64_wf; lia) ltac:(apply of_u64_wf; lia)) as H.
  vm_compute (val (of_u64 8 10) =? 0) in H. destruct H as (q & H1 & _ & H2).
  exists q. split; [exact H1|]. rewrite H2. vm_compute. reflexivity.
Defined.

(** [CompareTo] is the three-way comparison of the values, [EqualTo] is
    equality with a 64-bit number, and [bits()] is the position of the highest
    set bit plus one, zero for zero. *)
Theorem base_uint_compare n a b x : wf n a -> wf n b -> (2 <= n)%nat -> is_u64 x ->
  CompareTo a b = match val a ?= val b with Lt => -1 | Eq => 0 | Gt => 1 end /\
  EqualTo a x = (val a =? x) /\
  bits a = if val a =? 0 then 0 else Z.log2 (val a) + 1.
Proof.
  intros. rewrite (CompareTo_spec n), (EqualTo_spec n), (bits_spec n) by done. done.
Qed.

Lemma base_uint_compare_witness :
  CompareTo (of_u64 8 5) (of_u64 8 (2 ^ 40)) = -1 /\ bits (of_u64 8 (2 ^ 40)) = 41.
Proof.
  assert (forall b, wf 8 (of_u64 8 b)) as Hw by (intros; apply of_u64_wf; lia).
  destruct (base_uint_compare 8 (of_u64 8 5) (of_u64 8 (2 ^ 40)) 5 (Hw _) (Hw _) ltac:(lia)
    ltac:(unfold is_u64; lia)) as (-> & _ & _).
  destruct (base_uint_compare 8 (of_u64 8 (2 ^ 40)) (of_u64 8 5) 5 (Hw _) (Hw _) ltac:(lia)
    ltac:(unfold is_u64; lia)) as (_ & _ & ->).
  vm_compute. auto.
Defined.

(** [ApproxNthRoot(n)] brackets the root: its [n]-th power does not exceed
    the value, and the next multiple of the precision [2 ^ nShifts] overshoots
    it; no intermediate 64-bit product overflows. *)
Theorem nth_root_bracket W a n : wf W a -> (2 <= W)%nat -> 2 <= n < 64 ->
  exists r, ApproxNthRoot a n = Ok r /\ wf W r /\
    val r ^ n <= val a < (val r + 2 ^ root_shifts (bits a) n) ^ n.
Proof. apply ApproxNthRoot_spec. Qed.

Lemma nth_root_bracket_witness :
  exists r, ApproxNthRoot (of_u64 8 1000) 3 = Ok r /\ val r ^ 3 <= 1000 < (val r + 1) ^ 3.
Proof.
  destruct (nth_root_bracket 8 (of_u64 8 1000) 3 ltac:(apply of_u64_wf; lia) ltac:(lia) ltac:(lia))
    as (r & Hr & _ & Hb).
  exists r. split; [exact Hr|]. vm_compute (val (of_u64 8 1000)) in Hb.
  vm_compute (2 ^ root_shifts (bits (of_u64 8 1000)) 3) in Hb. exact Hb.
Defined.
