(* ===== verification/Compact.v ===== *)
(** * The compact target encoding (src/src/arith_uint256.cpp)

    [SetCompact] and [GetCompact] convert between a 256-bit target and the
    32-bit "nBits" field of a block header; [ArithToUint256] and
    [UintToArith256] between limbs and the 32-byte hash type. *)

From Stdlib Require Import ZArith Lia.
From stdpp Require Import base tactics numbers option list.
From S2P Require Import Prelude ArithUint256.

(** ** The compact ("nBits") encoding of [arith_uint256] *)

Definition W256 : nat := 8.

(** [SetCompact]: the value and the two flags [*pfNegative], [*pfOverflow].
    [nSize] is an [int] between 0 and 255. *)
Definition SetCompact (nCompact : Z) : base_uint * bool * bool :=
  let nSize := Z.shiftr nCompact 24 in
  let nWord := Z.land nCompact 0x007fffff in
  let '(nWord, v) :=
    if nSize <=? 3
    then let nWord := Z.shiftr nWord (8 * (3 - nSize)) in (nWord, of_u64 W256 nWord)
    else (nWord, op_shl (of_u64 W256 nWord) (8 * (nSize - 3))) in
  (v,
   negb (nWord =? 0) && negb (Z.land nCompact 0x00800000 =? 0),
   negb (nWord =? 0) &&
     ((34 <? nSize) || ((0xff <? nWord) && (33 <? nSize))
      || ((0xffff <? nWord) && (32 <? nSize)))).

(** [GetCompact]; the two [assert]s are kept. *)
Definition GetCompact (a : base_uint) (fNegative : bool) : result Z :=
  let nSize := Z.quot (bits a + 7) 8 in
  let nCompact :=
    if nSize <=? 3 then u32 (u64 (Z.shiftl (GetLow64 a) (8 * (3 - nSize))))
    else u32 (GetLow64 (op_shr a (8 * (nSize - 3)))) in
  let '(nCompact, nSize) :=
    if negb (Z.land nCompact 0x00800000 =? 0)
    then (Z.shiftr nCompact 8, nSize + 1)
    else (nCompact, nSize) in
  cassert (Z.land nCompact (u32 (Z.lnot 0x007fffff)) =? 0) ≫= fun _ =>
  cassert (nSize <? 256) ≫= fun _ =>
  let nCompact := Z.lor nCompact (u32 (Z.shiftl nSize 24)) in
  Ok (Z.lor nCompact
        (if fNegative && negb (Z.land nCompact 0x007fffff =? 0) then 0x00800000 else 0)).

(** ** Conversion to and from the 32-byte [uint256] *)

(** [WriteLE32], [ReadLE32] of src/src/crypto/common.h *)
Definition WriteLE32 (x : Z) : list Z :=
  [u8 x; u8 (Z.shiftr x 8); u8 (Z.shiftr x 16); u8 (Z.shiftr x 24)].
Definition ReadLE32 (b0 b1 b2 b3 : Z) : Z :=
  b0 + 2 ^ 8 * b1 + 2 ^ 16 * b2 + 2 ^ 24 * b3.

Definition ArithToUint256 (a : base_uint) : list Z := a ≫= WriteLE32.

Fixpoint UintToArith256 (b : list Z) : base_uint :=
  match b with
  | b0 :: b1 :: b2 :: b3 :: b' => ReadLE32 b0 b1 b2 b3 :: UintToArith256 b'
  | _ => []
  end.

(** ** Compact encoding *)

(** The number the compact encoding [c] stands for, without a size limit. *)
Definition compact_target (c : Z) : Z :=
  let nSize := c / 2 ^ 24 in
  let nWord := c mod 2 ^ 23 in
  if nSize <=? 3 then nWord / 2 ^ (8 * (3 - nSize)) else nWord * 2 ^ (8 * (nSize - 3)).

Lemma compact_word_split c : is_u32 c -> 0 <= c / 2 ^ 24 < 2 ^ 8 /\ 0 <= c mod 2 ^ 23 < 2 ^ 23.
Proof.
  unfold is_u32. intros Hc. split; [|apply Z.mod_pos_bound; lia].
  split; [apply Z.div_pos|apply Z.div_lt_upper_bound]; lia.
Qed.

Lemma div_pow_le x k : 0 <= x -> 0 <= k -> 0 <= x / 2 ^ k <= x.
Proof.
  intros. assert (0 < 2 ^ k) by (apply Z.pow_pos_nonneg; lia).
  split; [apply Z.div_pos; lia|apply Z.div_le_upper_bound; nia].
Qed.

Lemma overflow_threshold w s : 0 <= w < 2 ^ 23 -> 3 < s < 2 ^ 8 ->
  negb (w =? 0) && ((34 <? s) || (0xff <? w) && (33 <? s) || (0xffff <? w) && (32 <? s))
  = (2 ^ 256 <=? w * 2 ^ (8 * (s - 3))).
Proof.
  intros Hw Hs.
  destruct (Z.eqb_spec w 0) as [->|]; cbn [negb andb].
  { symmetry. apply Z.leb_gt. lia. }
  destruct (Z.ltb_spec 34 s); cbn [orb].
  { symmetry. apply Z.leb_le. apply Z.le_trans with (1 * 2 ^ (8 * (s - 3))).
    - rewrite Z.mul_1_l. apply Z.pow_le_mono_r; lia.
    - apply Z.mul_le_mono_nonneg_r; lia. }
  destruct (Z.ltb_spec 33 s).
  { assert (s = 34) as -> by lia. change (8 * (34 - 3)) with 248. change (32 <? 34) with true.
    rewrite !andb_true_r.
    destruct (Z.ltb_spec 0xff w), (Z.ltb_spec 0xffff w), (Z.leb_spec (2 ^ 256) (w * 2 ^ 248)); try done; lia. }
  destruct (Z.ltb_spec 32 s).
  { assert (s = 33) as -> by lia. change (8 * (33 - 3)) with 240.
    rewrite andb_true_r, andb_false_r. cbn [orb].
    destruct (Z.ltb_spec 0xffff w), (Z.leb_spec (2 ^ 256) (w * 2 ^ 240)); try done; lia. }
  rewrite !andb_false_r. cbn [orb]. symmetry. apply Z.leb_gt.
  apply Z.lt_le_trans with (2 ^ 23 * 2 ^ (8 * (s - 3))); [apply Z.mul_lt_mono_pos_r; lia|].
  rewrite <- Z.pow_add_r by lia. apply Z.pow_le_mono_r; lia.
Qed.

Lemma of_u64_wf256 b : wf W256 (of_u64 W256 b).
Proof. apply of_u64_wf. unfold W256. lia. Qed.

Theorem SetCompact_spec c : is_u32 c ->
  let '(v, neg, ovf) := SetCompact c in
  wf W256 v /\ val v = compact_target c mod 2 ^ 256 /\
  neg = negb (compact_target c =? 0) && Z.testbit c 23 /\
  ovf = (2 ^ 256 <=? compact_target c).
Proof.
  intros Hc. destruct (compact_word_split c Hc) as [Hs Hw]. unfold SetCompact, compact_target.
  rewrite Z.shiftr_div_pow2 by lia.
  change 0x007fffff with (Z.ones 23). rewrite Z.land_ones by lia.
  change 0x00800000 with (Z.shiftl 1 23). rewrite land_bit_zero, negb_involutive by lia.
  set (sz := c / 2 ^ 24) in *. set (w := c mod 2 ^ 23) in *.
  destruct (Z.leb_spec sz 3).
  - rewrite Z.shiftr_div_pow2 by lia. set (x := w / 2 ^ (8 * (3 - sz))).
    assert (0 <= x <= w) by (apply div_pow_le; lia).
    split; [apply of_u64_wf256|]. rewrite of_u64_val by (unfold is_u64; lia).
    split; [symmetry; apply Z.mod_small; lia|]. split; [done|].
    destruct (Z.ltb_spec 34 sz), (Z.ltb_spec 33 sz), (Z.ltb_spec 32 sz); lia.
  - split; [apply op_shl_wf; [apply of_u64_wf256|lia]|].
    rewrite (op_shl_val W256), of_u64_val by (try apply of_u64_wf256; unfold is_u64; done || lia).
    split; [done|]. split.
    + f_equal. f_equal. assert (0 < 2 ^ (8 * (sz - 3))) by (apply Z.pow_pos_nonneg; lia).
      destruct (Z.eqb_spec w 0), (Z.eqb_spec (w * 2 ^ (8 * (sz - 3))) 0); try done; nia.
    + apply overflow_threshold; lia.
Qed.

(** The encoding [GetCompact] produces, on numbers. *)
Definition num_bits (v : Z) : Z := if v =? 0 then 0 else Z.log2 v + 1.
Definition num_size (v : Z) : Z := (num_bits v + 7) / 8.
Definition mantissa24 (v : Z) : Z :=
  if num_size v <=? 3 then v * 2 ^ (8 * (3 - num_size v)) else v / 2 ^ (8 * (num_size v - 3)).
Definition compact_exp (v : Z) : Z :=
  if Z.testbit (mantissa24 v) 23 then num_size v + 1 else num_size v.
Definition compact_mant (v : Z) : Z :=
  if Z.testbit (mantissa24 v) 23 then mantissa24 v / 2 ^ 8 else mantissa24 v.

Lemma num_size_bounds v : 0 <= v < 2 ^ 256 ->
  0 <= num_size v <= 32 /\ v < 2 ^ (8 * num_size v) /\
  (0 < v -> 1 <= num_size v /\ 2 ^ (8 * (num_size v - 1)) <= v).
Proof.
  intros Hv. unfold num_size, num_bits. destruct (Z.eqb_spec v 0) as [->|]; [change ((0 + 7) / 8) with 0; lia|].
  pose proof (Z.log2_spec v ltac:(lia)). pose proof (Z.log2_nonneg v).
  assert (Z.log2 v < 256) by (apply Z.log2_lt_pow2; lia).
  set (q := (Z.log2 v + 1 + 7) / 8).
  pose proof (Z.div_mod (Z.log2 v + 1 + 7) 8 ltac:(lia)).
  pose proof (Z.mod_pos_bound (Z.log2 v + 1 + 7) 8 ltac:(lia)). fold q in H2.
  split; [lia|]. split.
  - eapply Z.lt_le_trans; [apply H|]. apply Z.pow_le_mono_r; lia.
  - intros _. split; [lia|]. eapply Z.le_trans; [|apply H]. apply Z.pow_le_mono_r; lia.
Qed.

Lemma pow_split a b : 0 <= a -> 0 <= b -> 2 ^ (a + b) = 2 ^ a * 2 ^ b.
Proof. intros. by apply Z.pow_add_r. Qed.

Lemma mantissa24_bounds v : 0 <= v < 2 ^ 256 ->
  0 <= mantissa24 v < 2 ^ 24 /\ (0 < v -> 2 ^ 16 <= mantissa24 v).
Proof.
  intros Hv. destruct (num_size_bounds v Hv) as (Hs & Hlt & Hge). unfold mantissa24.
  set (sz := num_size v) in *. destruct (Z.leb_spec sz 3).
  - assert (2 ^ 24 = 2 ^ (8 * sz) * 2 ^ (8 * (3 - sz))) by (rewrite <- pow_split by lia; f_equal; lia).
    assert (0 < 2 ^ (8 * (3 - sz))) by (apply Z.pow_pos_nonneg; lia).
    split; [nia|]. intros [? ?]%Hge.
    assert (2 ^ 16 = 2 ^ (8 * (sz - 1)) * 2 ^ (8 * (3 - sz))) by (rewrite <- pow_split by lia; f_equal; lia).
    nia.
  - assert (2 ^ (8 * sz) = 2 ^ 24 * 2 ^ (8 * (sz - 3))) by (rewrite <- pow_split by lia; f_equal; lia).
    assert (0 < 2 ^ (8 * (sz - 3))) by (apply Z.pow_pos_nonneg; lia).
    split; [split; [apply Z.div_pos; lia|apply Z.div_lt_upper_bound; lia]|]. intros [? ?]%Hge.
    assert (2 ^ (8 * (sz - 1)) = 2 ^ 16 * 2 ^ (8 * (sz - 3))) by (rewrite <- pow_split by lia; f_equal; lia).
    apply Z.div_le_lower_bound; lia.
Qed.

Lemma testbit_23 m : 0 <= m < 2 ^ 24 -> Z.testbit m 23 = (2 ^ 23 <=? m).
Proof.
  intros Hm. destruct (Z.leb_spec (2 ^ 23) m).
  - replace 23 with (Z.log2 m) at 1 by (apply Z.log2_unique; lia). apply Z.bit_log2. lia.
  - apply (testbit_small _ _ 23); lia.
Qed.

Lemma compact_mant_bounds v : 0 <= v < 2 ^ 256 ->
  0 <= compact_mant v < 2 ^ 23 /\ (0 < v -> 2 ^ 15 <= compact_mant v) /\ 0 <= compact_exp v <= 33.
Proof.
  intros Hv. destruct (mantissa24_bounds v Hv) as [Hm Hm16].
  destruct (num_size_bounds v Hv) as (Hs & _ & _).
  unfold compact_mant, compact_exp. rewrite testbit_23 by done.
  destruct (Z.leb_spec (2 ^ 23) (mantissa24 v)).
  - split; [split; [apply Z.div_pos; lia|apply Z.div_lt_upper_bound; lia]|].
    split; [|lia]. intros _. apply Z.div_le_lower_bound; lia.
  - split; [lia|]. split; [|lia]. intros ?%Hm16. lia.
Qed.

Lemma land_high_zero x : 0 <= x < 2 ^ 23 -> (Z.land x (u32 (Z.lnot 0x007fffff)) =? 0) = true.
Proof.
  intros Hx. apply Z.eqb_eq. apply Z.bits_inj'. intros i Hi. rewrite Z.land_spec, Z.bits_0.
  destruct (Z.lt_ge_cases i 23); [|by rewrite (testbit_small x i 23)].
  rewrite testbit_u32, Z.lnot_spec by done. change 0x007fffff with (Z.ones 23).
  rewrite Z.ones_spec_low by lia. rewrite !andb_false_r. done.
Qed.

Theorem GetCompact_spec a : wf W256 a ->
  GetCompact a false = Ok (compact_mant (val a) + compact_exp (val a) * 2 ^ 24).
Proof.
  intros Ha. pose proof (val_bound W256 a Ha) as Hv. change (32 * Z.of_nat W256) with 256 in Hv.
  destruct (num_size_bounds _ Hv) as (Hs & Hlt & _). destruct (mantissa24_bounds _ Hv) as [Hm _].
  destruct (compact_mant_bounds _ Hv) as (Hcm & _ & Hce).
  unfold GetCompact. assert (bits a = num_bits (val a)) as -> by by apply (bits_spec W256).
  assert (0 <= num_bits (val a)) by (unfold num_bits; case_test; [lia|pose proof (Z.log2_nonneg (val a)); lia]).
  rewrite Z.quot_div_nonneg by lia. fold (num_size (val a)).
  assert ((if num_size (val a) <=? 3 then u32 (u64 (Z.shiftl (GetLow64 a) (8 * (3 - num_size (val a)))))
     else u32 (GetLow64 (op_shr a (8 * (num_size (val a) - 3))))) = mantissa24 (val a)) as ->.
  { unfold mantissa24 in *. destruct (Z.leb_spec (num_size (val a)) 3).
    - rewrite (GetLow64_val W256), (Z.mod_small _ (2 ^ 64)) by (done || unfold W256; lia).
      rewrite Z.shiftl_mul_pow2 by lia. rewrite u64_small, u32_small by lia. done.
    - rewrite (GetLow64_val W256), (op_shr_val W256) by (try apply op_shr_wf; unfold W256; done || lia).
      rewrite Z.mod_small, u32_small by lia. done. }
  change 0x00800000 with (Z.shiftl 1 23). rewrite land_bit_zero, negb_involutive by lia.
  transitivity (cassert (Z.land (compact_mant (val a)) (u32 (Z.lnot 0x007fffff)) =? 0) ≫= fun _ =>
     cassert (compact_exp (val a) <? 256) ≫= fun _ =>
     Ok (Z.lor (Z.lor (compact_mant (val a)) (u32 (Z.shiftl (compact_exp (val a)) 24))) 0)).
  { unfold compact_mant, compact_exp. destruct (Z.testbit (mantissa24 (val a)) 23); [|done].
    by rewrite Z.shiftr_div_pow2 by lia. }
  rewrite land_high_zero by done. destruct (Z.ltb_spec (compact_exp (val a)) 256); [|lia].
  cbn [cassert mbind result_bind]. rewrite Z.lor_0_r. rewrite u32_small.
  2:{ rewrite Z.shiftl_mul_pow2 by lia. lia. }
  by rewrite lor_disjoint_add by lia.
Qed.

(** ** Round trips *)

Lemma compact_code_split m e : 0 <= m < 2 ^ 23 -> 0 <= e <= 33 ->
  is_u32 (m + e * 2 ^ 24) /\ (m + e * 2 ^ 24) / 2 ^ 24 = e /\ (m + e * 2 ^ 24) mod 2 ^ 23 = m /\
  Z.testbit (m + e * 2 ^ 24) 23 = false.
Proof.
  intros Hm He. unfold is_u32. split; [lia|].
  rewrite Z.div_add, Z.div_small by lia. split; [lia|].
  replace (m + e * 2 ^ 24) with (m + (2 * e) * 2 ^ 23) by lia.
  rewrite Z_mod_plus_full, Z.mod_small by lia. split; [done|].
  rewrite <- lor_disjoint_add, Z.lor_spec by lia.
  rewrite Z.shiftl_spec, (testbit_small m 23 23) by lia. cbn [orb].
  change (23 - 23) with 0. by rewrite Z.testbit_even_0.
Qed.

(** The code [GetCompact] produces for [v], and what it decodes to. *)
Definition compact_code (v : Z) : Z := compact_mant v + compact_exp v * 2 ^ 24.
Definition compact_round (v : Z) : Z := compact_target (compact_code v).

Lemma compact_round_cases v : 0 <= v < 2 ^ 256 ->
  compact_round v = v \/
  exists k, 8 <= k /\ compact_round v = v / 2 ^ k * 2 ^ k /\ compact_mant v = v / 2 ^ k /\
    (k = 8 * (num_size v - 3) /\ mantissa24 v < 2 ^ 23 \/
     k = 8 * (num_size v - 2) /\ 2 ^ 23 <= mantissa24 v).
Proof.
  intros Hv. destruct (compact_mant_bounds v Hv) as (Hm & _ & He).
  destruct (compact_code_split _ _ Hm He) as (_ & Hdiv & Hmod & _).
  unfold compact_round, compact_code, compact_target. rewrite Hdiv, Hmod. clear Hdiv Hmod.
  destruct (mantissa24_bounds v Hv) as [Hb _]. destruct (num_size_bounds v Hv) as (Hs & _ & _).
  unfold compact_mant, compact_exp in *. rewrite testbit_23 in * by done.
  unfold mantissa24 in *. set (sz := num_size v) in *.
  destruct (Z.leb_spec sz 3).
  - destruct (Z.leb_spec (2 ^ 23) (v * 2 ^ (8 * (3 - sz)))).
    + destruct (Z.eq_dec sz 3) as [Hsz|].
      * right. exists 8. rewrite Hsz in *. change (2 ^ (8 * (3 - 3))) with 1 in *. rewrite Z.mul_1_r in *.
        split; [done|]. split; [done|]. split; [done|]. right. done.
      * left. destruct (Z.leb_spec (sz + 1) 3); [|lia].
        replace (8 * (3 - sz)) with (8 * (3 - (sz + 1)) + 8) by lia. rewrite pow_split, Z.mul_assoc by lia.
        rewrite !Z.div_mul; [done| |lia]. apply Z.pow_nonzero; lia.
    + left. destruct (Z.leb_spec sz 3); [|lia]. apply Z.div_mul. apply Z.pow_nonzero; lia.
  - right. destruct (Z.leb_spec (2 ^ 23) (v / 2 ^ (8 * (sz - 3)))).
    + exists (8 * (sz - 2)). destruct (Z.leb_spec (sz + 1) 3); [lia|].
      replace (sz + 1 - 3) with (sz - 2) by lia.
      rewrite Z.div_div by (try apply Z.pow_nonzero; lia).
      replace (2 ^ (8 * (sz - 3)) * 2 ^ 8) with (2 ^ (8 * (sz - 2)))
        by (rewrite <- pow_split by lia; f_equal; lia).
      split; [lia|]. split; [done|]. split; [done|]. right. done.
    + exists (8 * (sz - 3)). destruct (Z.leb_spec sz 3); [lia|].
      split; [lia|]. split; [done|]. split; [done|]. left. done.
Qed.

Lemma compact_round_bounds v : 0 <= v < 2 ^ 256 ->
  0 <= compact_round v <= v /\ 2 ^ 15 * (v - compact_round v) <= compact_round v.
Proof.
  intros Hv. destruct (compact_round_cases v Hv) as [->|(k & Hk & -> & Hm & _)]; [lia|].
  destruct (compact_mant_bounds v Hv) as (_ & Hm15 & _). rewrite Hm in Hm15.
  assert (0 < 2 ^ k) by (apply Z.pow_pos_nonneg; lia).
  pose proof (Z.div_mod v (2 ^ k) ltac:(lia)). pose proof (Z.mod_pos_bound v (2 ^ k) ltac:(lia)).
  destruct (Z.eq_dec v 0) as [->|]; [rewrite Z.div_0_l by lia; lia|]. specialize (Hm15 ltac:(lia)). nia.
Qed.

Lemma num_bits_round v k : 0 <= k -> 0 <= v -> 1 <= v / 2 ^ k -> num_bits (v / 2 ^ k * 2 ^ k) = num_bits v.
Proof.
  intros Hk Hv H1. assert (0 < 2 ^ k) by (apply Z.pow_pos_nonneg; lia).
  pose proof (Z.div_mod v (2 ^ k) ltac:(lia)). pose proof (Z.mod_pos_bound v (2 ^ k) ltac:(lia)).
  unfold num_bits. destruct (Z.eqb_spec v 0) as [->|]; [rewrite Z.div_0_l in H1; lia|].
  destruct (Z.eqb_spec (v / 2 ^ k * 2 ^ k) 0); [nia|]. f_equal.
  replace v with (v mod 2 ^ k + 2 ^ k * (v / 2 ^ k)) at 2 by lia.
  rewrite log2_add_high by lia. rewrite Z.log2_mul_pow2 by lia. lia.
Qed.

Lemma compact_code_round v : 0 <= v < 2 ^ 256 -> compact_code (compact_round v) = compact_code v.
Proof.
  intros Hv. destruct (compact_round_cases v Hv) as [->|(k & Hk & -> & Hm & Hcase)]; [done|].
  destruct (compact_mant_bounds v Hv) as (Hmb & Hm15 & _). destruct (mantissa24_bounds v Hv) as [Hb _].
  destruct (Z.eq_dec v 0) as [->|]; [by rewrite Z.div_0_l by (apply Z.pow_nonzero; lia)|].
  specialize (Hm15 ltac:(lia)). rewrite Hm in Hm15.
  assert (num_size (v / 2 ^ k * 2 ^ k) = num_size v) as Hsz
    by (unfold num_size; by rewrite num_bits_round by lia).
  destruct (compact_round_bounds v Hv) as [Hrb _].
  assert (0 < 2 ^ k) by (apply Z.pow_pos_nonneg; lia).
  assert (0 <= v / 2 ^ k * 2 ^ k < 2 ^ 256) as Hw.
  { pose proof (Z.mul_div_le v (2 ^ k)). nia. }
  destruct (mantissa24_bounds _ Hw) as [Hbw _].
  unfold compact_code, compact_mant, compact_exp. rewrite !testbit_23, Hsz by done. clear Hbw.
  assert (mantissa24 (v / 2 ^ k * 2 ^ k) = if 2 ^ 23 <=? mantissa24 v then mantissa24 v / 2 ^ 8 * 2 ^ 8 else mantissa24 v) as ->.
  2:{ destruct (Z.leb_spec (2 ^ 23) (mantissa24 v)).
      - assert (2 ^ 15 <= mantissa24 v / 2 ^ 8) by (apply Z.div_le_lower_bound; lia).
        destruct (Z.leb_spec (2 ^ 23) (mantissa24 v / 2 ^ 8 * 2 ^ 8)); [|lia]. by rewrite Z.div_mul.
      - by destruct (Z.leb_spec (2 ^ 23) (mantissa24 v)); [lia|]. }
  unfold mantissa24 in *. rewrite Hsz. set (sz := num_size v) in *.
  destruct Hcase as [[-> Hlt]|[-> Hge]]; destruct (Z.leb_spec sz 3); try lia.
  - destruct (Z.leb_spec (2 ^ 23) (v / 2 ^ (8 * (sz - 3)))); [lia|]. by rewrite Z.div_mul by lia.
  - assert (sz = 3) as -> by lia. change (2 ^ (8 * (3 - 3))) with 1 in *. change (8 * (3 - 2)) with 8.
    rewrite !Z.mul_1_r in *. destruct (Z.leb_spec (2 ^ 23) v); [done|lia].
  - destruct (Z.leb_spec (2 ^ 23) (v / 2 ^ (8 * (sz - 3)))); [|lia].
    assert (2 ^ (8 * (sz - 2)) = 2 ^ (8 * (sz - 3)) * 2 ^ 8) as -> by (rewrite <- pow_split by lia; f_equal; lia).
    assert (0 < 2 ^ (8 * (sz - 3))) by (apply Z.pow_pos_nonneg; lia).
    rewrite Z.div_div by lia. rewrite (Z.mul_comm (2 ^ (8 * (sz - 3)))) at 2.
    rewrite Z.mul_assoc, Z.div_mul by lia. done.
Qed.

Lemma SetCompact_code v : 0 <= v < 2 ^ 256 ->
  is_u32 (compact_code v) /\
  exists t, SetCompact (compact_code v) = (t, false, false) /\ wf W256 t /\ val t = compact_round v.
Proof.
  intros Hv. destruct (compact_mant_bounds v Hv) as (Hm & _ & He).
  destruct (compact_code_split _ _ Hm He) as (Hc & _ & _ & Hbit). fold (compact_code v) in *.
  split; [done|]. pose proof (SetCompact_spec _ Hc) as H.
  destruct (SetCompact (compact_code v)) as [[t neg] ovf]. destruct H as (Hw & Ht & -> & ->).
  fold (compact_round v) in *. destruct (compact_round_bounds v Hv) as [Hr _].
  exists t. rewrite Hbit, andb_false_r, (proj2 (Z.leb_gt _ _)) by lia.
  split; [done|]. split; [done|]. rewrite Ht. apply Z.mod_small. lia.
Qed.

(** ** Bytes of a [uint256] *)

Lemma ReadLE32_WriteLE32 x : is_u32 x ->
  ReadLE32 (u8 x) (u8 (Z.shiftr x 8)) (u8 (Z.shiftr x 16)) (u8 (Z.shiftr x 24)) = x.
Proof.
  unfold is_u32, ReadLE32, u8. intros Hx. rewrite !Z.shiftr_div_pow2 by lia.
  change (2 ^ 16) with (2 ^ 8 * 2 ^ 8). change (2 ^ 24) with (2 ^ 8 * (2 ^ 8 * 2 ^ 8)).
  rewrite <- !Z.div_div by lia.
  pose proof (Z.div_mod x (2 ^ 8) ltac:(lia)).
  pose proof (Z.div_mod (x / 2 ^ 8) (2 ^ 8) ltac:(lia)).
  pose proof (Z.div_mod (x / 2 ^ 8 / 2 ^ 8) (2 ^ 8) ltac:(lia)).
  assert (0 <= x / 2 ^ 8 / 2 ^ 8 / 2 ^ 8 < 2 ^ 8).
  { rewrite !Z.div_div by lia. split; [apply Z.div_pos|apply Z.div_lt_upper_bound]; lia. }
  rewrite (Z.mod_small (x / 2 ^ 8 / 2 ^ 8 / 2 ^ 8)) by done. lia.
Qed.

Lemma UintToArith256_ArithToUint256 n a : wf n a -> UintToArith256 (ArithToUint256 a) = a.
Proof.
  revert a. induction n as [|n IH]; intros [|p a]; try (intros [? _]; done).
  rewrite wf_cons. intros [Hp Ha]. unfold ArithToUint256 in *. cbn. f_equal.
  - by apply ReadLE32_WriteLE32.
  - by apply IH.
Qed.

Lemma WriteLE32_ReadLE32 b0 b1 b2 b3 : is_byte b0 -> is_byte b1 -> is_byte b2 -> is_byte b3 ->
  is_u32 (ReadLE32 b0 b1 b2 b3) /\ WriteLE32 (ReadLE32 b0 b1 b2 b3) = [b0; b1; b2; b3].
Proof.
  unfold is_byte, is_u32, ReadLE32, WriteLE32, u8. intros H0 H1 H2 H3. split; [lia|].
  rewrite !Z.shiftr_div_pow2 by lia.
  set (x := b0 + 2 ^ 8 * b1 + 2 ^ 16 * b2 + 2 ^ 24 * b3).
  assert (x / 2 ^ 8 = b1 + 2 ^ 8 * b2 + 2 ^ 16 * b3) as ->
    by (symmetry; apply (Z.div_unique _ _ _ b0); unfold x; lia).
  assert (x / 2 ^ 16 = b2 + 2 ^ 8 * b3) as ->
    by (symmetry; apply (Z.div_unique _ _ _ (b0 + 2 ^ 8 * b1)); unfold x; lia).
  assert (x / 2 ^ 24 = b3) as ->
    by (symmetry; apply (Z.div_unique _ _ _ (b0 + 2 ^ 8 * b1 + 2 ^ 16 * b2)); unfold x; lia).
  repeat f_equal.
  - symmetry. apply (Z.mod_unique _ _ (b1 + 2 ^ 8 * b2 + 2 ^ 16 * b3)); unfold x; lia.
  - symmetry. apply (Z.mod_unique _ _ (b2 + 2 ^ 8 * b3)); lia.
  - symmetry. apply (Z.mod_unique _ _ b3); lia.
  - apply Z.mod_small. lia.
Qed.

Lemma ArithToUint256_UintToArith256 n b : length b = (4 * n)%nat -> Forall is_byte b ->
  wf n (UintToArith256 b) /\ ArithToUint256 (UintToArith256 b) = b.
Proof.
  revert b. induction n as [|n IH]; intros b Hl HF.
  - destruct b; [|done]. split; [apply wf_nil|done].
  - do 4 (destruct b as [|? b]; [cbn in Hl; lia|]). rewrite !Forall_cons in HF.
    destruct HF as (H0 & H1 & H2 & H3 & HF). destruct (IH b) as [Hw Hr]; [cbn in Hl; lia|done|].
    destruct (WriteLE32_ReadLE32 _ _ _ _ H0 H1 H2 H3) as [Hu HW].
    cbn [UintToArith256]. rewrite wf_cons. split; [done|].
    unfold ArithToUint256 in *. cbn [mbind list_bind]. by rewrite HW, Hr.
Qed.

(** ** Properties *)

(** [SetCompact] decodes [mantissa * 256 ^ (exponent - 3)] modulo
    [2 ^ 256]; it reports overflow exactly when that number does not fit in 256
    bits and negative exactly when the sign bit is set on a non-zero number. *)
Theorem SetCompact_exact c : is_u32 c ->
  let '(v, neg, ovf) := SetCompact c in
  wf W256 v /\ val v = compact_target c mod 2 ^ 256 /\
  neg = negb (compact_target c =? 0) && Z.testbit c 23 /\
  ovf = (2 ^ 256 <=? compact_target c).
Proof. apply SetCompact_spec. Qed.

Lemma SetCompact_exact_witness :
  let '(v, neg, ovf) := SetCompact 0x1d00ffff in
  val v = 0xffff * 2 ^ 208 /\ neg = false /\ ovf = false.
Proof.
  pose proof (SetCompact_exact 0x1d00ffff ltac:(unfold is_u32; lia)) as H.
  destruct (SetCompact 0x1d00ffff) as [[v neg] ovf]. destruct H as (_ & H1 & H2 & H3).
  split; [rewrite H1; vm_compute; reflexivity|]. split; [rewrite H2|rewrite H3]; vm_compute; reflexivity.
Defined.

(** For every 256-bit target, [GetCompact] passes its two assertions and
    returns a 32-bit code that [SetCompact] accepts (neither negative nor
    overflowing); decoding it gives the target rounded down with a relative
    error below [2 ^ -15]; encoding the decoded target again gives the same
    code. *)
Theorem compact_roundtrip a : wf W256 a ->
  exists c t, GetCompact a false = Ok c /\ is_u32 c /\
    SetCompact c = (t, false, false) /\ wf W256 t /\
    val t <= val a /\ 2 ^ 15 * (val a - val t) <= val t /\
    GetCompact t false = Ok c.
Proof.
  intros Ha. pose proof (val_bound W256 a Ha) as Hv. change (32 * Z.of_nat W256) with 256 in Hv.
  destruct (SetCompact_code _ Hv) as (Hc & t & Ht & Hw & Hvt).
  destruct (compact_round_bounds _ Hv) as [Hr Hprec].
  exists (compact_code (val a)), t. rewrite (GetCompact_spec a), (GetCompact_spec t), Hvt by done.
  fold (compact_code (val a)). fold (compact_code (compact_round (val a))).
  rewrite compact_code_round by done. split_and!; first [done|lia].
Qed.

Lemma compact_roundtrip_witness :
  exists c t, GetCompact (of_u64 8 0x123456789) false = Ok c /\ SetCompact c = (t, false, false) /\
    val t <= 0x123456789.
Proof.
  destruct (compact_roundtrip (of_u64 8 0x123456789) (of_u64_wf256 _))
    as (c & t & H1 & _ & H2 & _ & H3 & _).
  exists c, t. split; [exact H1|]. split; [exact H2|]. vm_compute (val (of_u64 8 0x123456789)) in H3. exact H3.
Defined.

(** [UintToArith256] and [ArithToUint256] are inverse on 32-byte hashes and
    256-bit numbers. *)
Theorem uint256_arith_roundtrip a b :
  wf W256 a -> length b = 32%nat -> Forall is_byte b ->
  UintToArith256 (ArithToUint256 a) = a /\
  wf W256 (UintToArith256 b) /\ ArithToUint256 (UintToArith256 b) = b.
Proof.
  intros Ha Hl Hb. split; [by apply (UintToArith256_ArithToUint256 W256)|].
  by apply (ArithToUint256_UintToArith256 8).
Qed.

Lemma uint256_arith_roundtrip_witness :
  UintToArith256 (ArithToUint256 (of_u64 8 77)) = of_u64 8 77.
Proof.
  apply (uint256_arith_roundtrip (of_u64 8 77) (replicate 32 0) (of_u64_wf256 _) eq_refl).
  apply Forall_replicate. unfold is_byte. lia.
Defined.
