(* ===== verification/Block.v ===== *)
(** * Block headers and the multi-algorithm version field
    (src/src/primitives/block.h, block.cpp, uint256.h)

    A [uint256] is its array of 32 bytes.  The hash functions a header is fed to
    are the fields of [PowHashes]: everything here holds for any choice of
    them. *)

From Stdlib Require Import ZArith Lia String.
From stdpp Require Import base tactics numbers option list.
From S2P Require Import Prelude ArithUint256 Compact.

Abbreviation uint256 := (list Z).

Definition uint256_null : uint256 := replicate 32 0.

(** [uint256::GetNibble] *)
Definition GetNibble (data : uint256) (index : Z) : Z :=
  let index := 63 - index in
  if Z.rem index 2 =? 1 then Z.shiftr (data !!! Z.to_nat (Z.quot index 2)) 4
  else Z.land (data !!! Z.to_nat (Z.quot index 2)) 0x0F.

(** [base_blob::IsNull] *)
Definition IsNull (data : uint256) : bool := forallb (fun b => b =? 0) data.

(** ** Proof-of-work algorithms *)

Definition ALGO_BUTKSCRYPT : Z := 0.
Definition ALGO_SHA256D : Z := 1.
Definition ALGO_LYRA2 : Z := 2.
Definition ALGO_GHOSTRIDER : Z := 3.
Definition ALGO_YESPOWER : Z := 4.
Definition ALGO_SCRYPT : Z := 5.

Definition NUM_ALGOS : Z := 3.
Definition NUM_ALGOSV2 : Z := 4.
Definition NUM_ALGOSV3 : Z := 5.
Definition NUM_ALGOSV4 : Z := 6.

Definition BLOCK_VERSION_ALGO : Z := Z.shiftl 15 11.
Definition BLOCK_VERSION_BUTKSCRYPT : Z := Z.shiftl 1 11.
Definition BLOCK_VERSION_SHA256D : Z := Z.shiftl 2 11.
Definition BLOCK_VERSION_GHOSTRIDER : Z := Z.shiftl 3 11.
Definition BLOCK_VERSION_YESPOWER : Z := Z.shiftl 4 11.
Definition BLOCK_VERSION_LYRA2 : Z := Z.shiftl 10 11.
Definition BLOCK_VERSION_SCRYPT : Z := Z.shiftl 5 11.

Definition GetAlgoByName (strAlgo : string) : Z :=
  let named s := String.eqb strAlgo s in
  if named "butkscrypt"%string then ALGO_BUTKSCRYPT
  else if named "sha"%string || named "sha256"%string || named "sha256d"%string then ALGO_SHA256D
  else if named "ghostrider"%string then ALGO_GHOSTRIDER
  else if named "lyra"%string || named "lyra2re"%string || named "lyra2v2"%string
          || named "lyra2"%string || named "lyra2rev2"%string then ALGO_LYRA2
  else if named "yespower"%string then ALGO_YESPOWER
  else if named "scrypt"%string then ALGO_SCRYPT
  else ALGO_BUTKSCRYPT.

Definition GetAlgoName (algo : Z) : string :=
  if algo =? ALGO_SCRYPT then "scrypt"%string
  else if algo =? ALGO_BUTKSCRYPT then "butkscrypt"%string
  else if algo =? ALGO_SHA256D then "sha256d"%string
  else if algo =? ALGO_LYRA2 then "lyra2"%string
  else if algo =? ALGO_YESPOWER then "yespower"%string
  else if algo =? ALGO_GHOSTRIDER then "ghostrider"%string
  else "unknown"%string.

(** ** Headers *)

Record CBlockHeader := mkHeader {
  hdr_nVersion : Z;            (* int32_t *)
  hdr_hashPrevBlock : uint256;
  hdr_hashMerkleRoot : uint256;
  hdr_nTime : Z;               (* uint32_t *)
  hdr_nBits : Z;               (* uint32_t *)
  hdr_nNonce : Z;              (* uint32_t *)
  hdr_hash : uint256           (* the scrypt hash kept by the last read; not serialized *)
}.

(** [CBlockHeader::GetAlgo], on the version field. *)
Definition GetAlgo (nVersion : Z) : Z :=
  let v := Z.land nVersion BLOCK_VERSION_ALGO in
  if v =? BLOCK_VERSION_SCRYPT then ALGO_SCRYPT
  else if v =? BLOCK_VERSION_BUTKSCRYPT then ALGO_BUTKSCRYPT
  else if v =? BLOCK_VERSION_SHA256D then ALGO_SHA256D
  else if v =? BLOCK_VERSION_LYRA2 then ALGO_LYRA2
  else if v =? BLOCK_VERSION_GHOSTRIDER then ALGO_GHOSTRIDER
  else if v =? BLOCK_VERSION_YESPOWER then ALGO_YESPOWER
  else ALGO_BUTKSCRYPT.

(** The 80 bytes of [READWRITE(nVersion) .. READWRITE(nNonce)]. *)
Definition SerializeHeader (h : CBlockHeader) : list Z :=
  WriteLE32 (u32 (hdr_nVersion h)) ++ hdr_hashPrevBlock h ++ hdr_hashMerkleRoot h ++
  WriteLE32 (hdr_nTime h) ++ WriteLE32 (hdr_nBits h) ++ WriteLE32 (hdr_nNonce h).

(** ** Proof-of-work hashes *)

Record PowHashes := mkPowHashes {
  SerializeHash : list Z -> uint256;             (* double SHA-256 *)
  HashGR : list Z -> uint256 -> uint256;         (* GhostRider, keyed by hashPrevBlock *)
  yespower_hash : list Z -> uint256;
  LYRA2_330 : list Z -> uint256;
  scrypt_1024_1_1_256 : list Z -> uint256
}.

(** [CBlockHeader::GetHash] *)
Definition GetHash (H : PowHashes) (h : CBlockHeader) : uint256 :=
  SerializeHash H (SerializeHeader h).

(** [CBlockHeader::GetPOWHash]: the [ALGO_BUTKSCRYPT] and [default] cases fill a
    local [thash] with the scrypt hash and leave the switch, so the function
    returns [GetHash()]. *)
Definition GetPOWHash (H : PowHashes) (h : CBlockHeader) (algo : Z) : uint256 :=
  let bytes := SerializeHeader h in
  if algo =? ALGO_SHA256D then GetHash H h
  else if algo =? ALGO_GHOSTRIDER then HashGR H bytes (hdr_hashPrevBlock h)
  else if algo =? ALGO_YESPOWER then yespower_hash H bytes
  else if algo =? ALGO_LYRA2 then LYRA2_330 H bytes
  else if algo =? ALGO_SCRYPT then scrypt_1024_1_1_256 H bytes
  else GetHash H h.

(** ** Reading a header

    The six fields are read from the byte stream; reading ends with
    [hash = GetPOWHash(ALGO_SCRYPT)]. *)
Definition read_le32 (s : list Z) : result (Z * list Z) :=
  match s with
  | b0 :: b1 :: b2 :: b3 :: s' => Ok (ReadLE32 b0 b1 b2 b3, s')
  | _ => Err IosFailure
  end.
Definition read_uint256 (s : list Z) : result (uint256 * list Z) :=
  if (length s <? 32)%nat then Err IosFailure else Ok (take 32 s, drop 32 s).

Definition set_hash (h : CBlockHeader) (x : uint256) : CBlockHeader :=
  mkHeader (hdr_nVersion h) (hdr_hashPrevBlock h) (hdr_hashMerkleRoot h) (hdr_nTime h)
    (hdr_nBits h) (hdr_nNonce h) x.

Definition UnserializeHeader (H : PowHashes) (s : list Z) : result (CBlockHeader * list Z) :=
  '(v, s) ← read_le32 s; '(p, s) ← read_uint256 s; '(m, s) ← read_uint256 s;
  '(t, s) ← read_le32 s; '(b, s) ← read_le32 s; '(n, s) ← read_le32 s;
  let h := mkHeader (i32 v) p m t b n uint256_null in
  Ok (set_hash h (GetPOWHash H h ALGO_SCRYPT), s).

(** ** Well-formed headers *)

Definition uint256_ok (h : uint256) : Prop := length h = 32%nat /\ Forall is_byte h.

Definition header_ok (h : CBlockHeader) : Prop :=
  - 2 ^ 31 <= hdr_nVersion h < 2 ^ 31 /\
  uint256_ok (hdr_hashPrevBlock h) /\ uint256_ok (hdr_hashMerkleRoot h) /\
  is_u32 (hdr_nTime h) /\ is_u32 (hdr_nBits h) /\ is_u32 (hdr_nNonce h).

Lemma read_le32_WriteLE32 x s : is_u32 x -> read_le32 (WriteLE32 x ++ s) = Ok (x, s).
Proof. intros Hx. cbn. by rewrite ReadLE32_WriteLE32. Qed.

Lemma read_uint256_app h s : uint256_ok h -> read_uint256 (h ++ s) = Ok (h, s).
Proof.
  intros [Hl _]. unfold read_uint256. rewrite length_app, (proj2 (Nat.ltb_ge _ _)) by lia.
  by rewrite take_app_length', drop_app_length' by done.
Qed.

Lemma i32_u32 v : - 2 ^ 31 <= v < 2 ^ 31 -> i32 (u32 v) = v.
Proof.
  intros Hv. unfold i32, swrap, u32. change (32 - 1) with 31.
  rewrite Zplus_mod_idemp_l. rewrite Z.mod_small by lia. lia.
Qed.

Lemma WriteLE32_length x : length (WriteLE32 x) = 4%nat.
Proof. done. Qed.

(** ** Properties *)

(** The encoding of a header is 80 bytes long, and reading it back returns
    the six fields, with the cached [hash] set to the scrypt hash of exactly
    those 80 bytes, and leaves the rest of the stream. *)
Theorem header_roundtrip H h s : header_ok h ->
  length (SerializeHeader h) = 80%nat /\
  UnserializeHeader H (SerializeHeader h ++ s) =
  Ok (set_hash h (scrypt_1024_1_1_256 H (SerializeHeader h)), s).
Proof.
  intros (Hv & Hp & Hm & Ht & Hb & Hn). split.
  { unfold SerializeHeader. rewrite !length_app, !WriteLE32_length. destruct Hp, Hm. lia. }
  unfold UnserializeHeader. unfold SerializeHeader at 1. rewrite <- !app_assoc.
  rewrite read_le32_WriteLE32 by apply u32_range. cbn [mbind result_bind].
  rewrite read_uint256_app by done. cbn [mbind result_bind].
  rewrite read_uint256_app by done. cbn [mbind result_bind].
  do 3 (rewrite read_le32_WriteLE32 by done; cbn [mbind result_bind]).
  rewrite i32_u32 by done. done.
Qed.

Definition sample_header : CBlockHeader :=
  mkHeader (2 ^ 29 + 2 ^ 12) (replicate 32 7) (replicate 32 9) 1618800784 0x20001fff 70 uint256_null.

Definition sample_hashes : PowHashes :=
  mkPowHashes (fun b => take 32 b) (fun b _ => take 32 (drop 1 b)) (fun b => take 32 (drop 2 b))
    (fun b => take 32 (drop 3 b)) (fun b => take 32 (drop 4 b)).

Lemma header_roundtrip_witness :
  UnserializeHeader sample_hashes (SerializeHeader sample_header ++ [1; 2]) =
  Ok (set_hash sample_header (replicate 32 7), [1; 2]).
Proof.
  apply (header_roundtrip sample_hashes sample_header [1; 2]).
  unfold header_ok, uint256_ok, is_u32, sample_header; cbn.
  repeat split; try lia; repeat constructor; unfold is_byte; lia.
Defined.
