(* ===== verification/Chain.v ===== *)
(** * The block index: skip list, ancestors and the active chain
    (src/src/chain.h, chain.cpp)

    [mapBlockIndex] owns one [CBlockIndex] object per block hash, so a
    [CBlockIndex*] is modelled by the hash it is stored under and the heap of
    objects by a finite map from hashes to records; the null pointer is [None].
    [pprev] and [pskip] are pointers in that heap. *)

From Stdlib Require Import ZArith Lia Sorting.Sorted.
From stdpp Require Import base tactics numbers option list gmap sorting.
From S2P Require Import Prelude ArithUint256 Compact Block.

Abbreviation ptr := (list Z).

Record CBlockIndex := mkIndex {
  pprev : option ptr;
  pskip : option ptr;
  nHeight : Z;
  nFile : Z;
  nDataPos : Z;
  nUndoPos : Z;
  nChainWork : base_uint;
  nTx : Z;
  nChainTx : Z;
  nStatus : Z;
  nVersion : Z;
  hashMerkleRoot : uint256;
  nTime : Z;
  nBits : Z;
  nNonce : Z;
  nSequenceId : Z;
  nTimeMax : Z
}.

(** Assignments to single fields. *)
Definition set_pskip (x : option ptr) (i : CBlockIndex) : CBlockIndex :=
  mkIndex (pprev i) x (nHeight i) (nFile i) (nDataPos i) (nUndoPos i) (nChainWork i) (nTx i) (nChainTx i)
    (nStatus i) (nVersion i) (hashMerkleRoot i) (nTime i) (nBits i) (nNonce i) (nSequenceId i) (nTimeMax i).
Definition set_nChainWork (x : base_uint) (i : CBlockIndex) : CBlockIndex :=
  mkIndex (pprev i) (pskip i) (nHeight i) (nFile i) (nDataPos i) (nUndoPos i) x (nTx i) (nChainTx i)
    (nStatus i) (nVersion i) (hashMerkleRoot i) (nTime i) (nBits i) (nNonce i) (nSequenceId i) (nTimeMax i).
Definition set_nStatus (x : Z) (i : CBlockIndex) : CBlockIndex :=
  mkIndex (pprev i) (pskip i) (nHeight i) (nFile i) (nDataPos i) (nUndoPos i) (nChainWork i) (nTx i) (nChainTx i)
    x (nVersion i) (hashMerkleRoot i) (nTime i) (nBits i) (nNonce i) (nSequenceId i) (nTimeMax i).

Abbreviation BlockMap := (gmap (list Z) CBlockIndex).

(** ** Block status flags *)

Definition BLOCK_VALID_UNKNOWN : Z := 0.
Definition BLOCK_VALID_HEADER : Z := 1.
Definition BLOCK_VALID_TREE : Z := 2.
Definition BLOCK_VALID_TRANSACTIONS : Z := 3.
Definition BLOCK_VALID_CHAIN : Z := 4.
Definition BLOCK_VALID_SCRIPTS : Z := 5.
Definition BLOCK_VALID_MASK : Z := 7.
Definition BLOCK_HAVE_DATA : Z := 8.
Definition BLOCK_HAVE_UNDO : Z := 16.
Definition BLOCK_FAILED_VALID : Z := 32.
Definition BLOCK_FAILED_CHILD : Z := 64.
Definition BLOCK_FAILED_MASK : Z := Z.lor BLOCK_FAILED_VALID BLOCK_FAILED_CHILD.
Definition BLOCK_CONFLICT_CHAINLOCK : Z := 128.

(** [CBlockIndex::IsValid] *)
Definition IsValid (nStatus nUpTo : Z) : result bool :=
  cassert (Z.land nUpTo (u32 (Z.lnot BLOCK_VALID_MASK)) =? 0) ≫= fun _ =>
  if negb (Z.land nStatus BLOCK_FAILED_MASK =? 0) then Ok false
  else Ok (nUpTo <=? Z.land nStatus BLOCK_VALID_MASK).

(** [CBlockIndex::RaiseValidity]: the new status and whether it changed. *)
Definition RaiseValidity (nStatus nUpTo : Z) : result (Z * bool) :=
  cassert (Z.land nUpTo (u32 (Z.lnot BLOCK_VALID_MASK)) =? 0) ≫= fun _ =>
  if negb (Z.land nStatus BLOCK_FAILED_MASK =? 0) then Ok (nStatus, false)
  else if Z.land nStatus BLOCK_VALID_MASK <? nUpTo
  then Ok (Z.lor (Z.land nStatus (u32 (Z.lnot BLOCK_VALID_MASK))) nUpTo, true)
  else Ok (nStatus, false).

(** ** The skip list *)

Definition InvertLowestOne (n : Z) : Z := Z.land n (n - 1).

Definition GetSkipHeight (height : Z) : Z :=
  if height <? 2 then 0
  else if negb (Z.land height 1 =? 0)
  then InvertLowestOne (InvertLowestOne (height - 1)) + 1
  else InvertLowestOne height.

(** The loop of [CBlockIndex::GetAncestor]; every iteration lowers
    [heightWalk], so [heightWalk - height] iterations are enough. *)
Fixpoint ancestor_walk (fuel : nat) (m : BlockMap) (pindexWalk : ptr)
    (heightWalk height : Z) : result (option ptr) :=
  if heightWalk <=? height then Ok (Some pindexWalk)
  else
    match fuel with
    | O => Err OutOfFuel
    | S fuel =>
        walk ← deref (m !! pindexWalk);
        let heightSkip := GetSkipHeight heightWalk in
        let heightSkipPrev := GetSkipHeight (heightWalk - 1) in
        let follow :=
          (heightSkip =? height) ||
          ((height <? heightSkip) &&
           negb ((heightSkipPrev <? heightSkip - 2) && (height <=? heightSkipPrev))) in
        match pskip walk with
        | Some skip =>
            if follow then ancestor_walk fuel m skip heightSkip height
            else match pprev walk with
                 | Some prev => ancestor_walk fuel m prev (heightWalk - 1) height
                 | None => Err AssertFail
                 end
        | None =>
            match pprev walk with
            | Some prev => ancestor_walk fuel m prev (heightWalk - 1) height
            | None => Err AssertFail
            end
        end
    end.

(** [CBlockIndex::GetAncestor] *)
Definition GetAncestor (m : BlockMap) (p : ptr) (height : Z) : result (option ptr) :=
  idx ← deref (m !! p);
  if (nHeight idx <? height) || (height <? 0) then Ok None
  else ancestor_walk (Z.to_nat (nHeight idx - height)) m p (nHeight idx) height.

(** [CBlockIndex::BuildSkip] *)
Definition BuildSkip (m : BlockMap) (idx : CBlockIndex) : result CBlockIndex :=
  match pprev idx with
  | None => Ok idx
  | Some prev =>
      skip ← GetAncestor m prev (GetSkipHeight (nHeight idx));
      Ok (set_pskip skip idx)
  end.

(** ** Median time past *)

Definition nMedianTimeSpan : nat := 11.

(** The block times of [p] and its predecessors, [n] at most, newest first:
    the loop that fills [pmedian]. *)
Fixpoint past_times (m : BlockMap) (n : nat) (p : option ptr) : result (list Z) :=
  match n, p with
  | S n, Some p =>
      idx ← deref (m !! p);
      rest ← past_times m n (pprev idx);
      Ok (nTime idx :: rest)
  | _, _ => Ok []
  end.

(** The middle element of the sorted times. *)
Definition median (l : list Z) : Z := merge_sort Z.le l !!! (length l / 2)%nat.

(** [CBlockIndex::GetMedianTimePast] *)
Definition GetMedianTimePast (m : BlockMap) (p : ptr) : result Z :=
  median <$> past_times m nMedianTimeSpan (Some p).

(** ** [CChain]: the vector [vChain] of block pointers by height *)

Abbreviation CChain := (list (option (list Z))).

Definition chain_at (v : CChain) (nHeight : Z) : option ptr :=
  if (nHeight <? 0) || (Z.of_nat (length v) <=? nHeight) then None
  else mjoin (v !! Z.to_nat nHeight).

Definition Tip (v : CChain) : option ptr := mjoin (last v).
Definition Genesis (v : CChain) : option ptr := mjoin (v !! O).
Definition Height (v : CChain) : Z := Z.of_nat (length v) - 1.

Definition Contains (m : BlockMap) (v : CChain) (p : ptr) : result bool :=
  idx ← deref (m !! p);
  Ok (bool_decide (chain_at v (nHeight idx) = Some p)).

Definition Next (m : BlockMap) (v : CChain) (p : ptr) : result (option ptr) :=
  c ← Contains m v p;
  idx ← deref (m !! p);
  Ok (if c : bool then chain_at v (nHeight idx + 1) else None).

(** [vChain.resize(n)]: new slots are null pointers. *)
Definition vresize (n : nat) (v : CChain) : CChain :=
  take n v ++ replicate (n - length v) None.

(** [while (pindex && vChain[pindex->nHeight] != pindex)] *)
Fixpoint set_tip_loop (fuel : nat) (m : BlockMap) (v : CChain) (pindex : option ptr) :
    result CChain :=
  match pindex with
  | None => Ok v
  | Some p =>
      idx ← deref (m !! p);
      if bool_decide (v !! Z.to_nat (nHeight idx) = Some (Some p)) then Ok v
      else match fuel with
           | O => Err OutOfFuel
           | S fuel => set_tip_loop fuel m (<[Z.to_nat (nHeight idx) := Some p]> v) (pprev idx)
           end
  end.

Definition SetTip (m : BlockMap) (v : CChain) (pindex : option ptr) : result CChain :=
  match pindex with
  | None => Ok []
  | Some p =>
      idx ← deref (m !! p);
      let n := S (Z.to_nat (nHeight idx)) in
      set_tip_loop n m (vresize n v) (Some p)
  end.

(** [while (pindex && !Contains(pindex)) pindex = pindex->pprev;] *)
Fixpoint find_fork_loop (fuel : nat) (m : BlockMap) (v : CChain) (pindex : option ptr) :
    result (option ptr) :=
  match pindex with
  | None => Ok None
  | Some p =>
      c ← Contains m v p;
      if c : bool then Ok (Some p)
      else match fuel with
           | O => Err OutOfFuel
           | S fuel => idx ← deref (m !! p); find_fork_loop fuel m v (pprev idx)
           end
  end.

Definition FindFork (m : BlockMap) (v : CChain) (pindex : option ptr) : result (option ptr) :=
  match pindex with
  | None => Ok None
  | Some p =>
      idx ← deref (m !! p);
      let fuel := S (Z.to_nat (nHeight idx)) in
      if Height v <? nHeight idx
      then q ← GetAncestor m p (Height v); find_fork_loop fuel m v q
      else find_fork_loop fuel m v (Some p)
  end.

(** [while (pa != pb && pa && pb) { pa = pa->pprev; pb = pb->pprev; }] *)
Fixpoint common_loop (fuel : nat) (m : BlockMap) (pa pb : option ptr) :
    result (option ptr * option ptr) :=
  if bool_decide (pa = pb) then Ok (pa, pb)
  else match pa, pb with
       | Some a, Some b =>
           match fuel with
           | O => Err OutOfFuel
           | S fuel =>
               ai ← deref (m !! a); bi ← deref (m !! b);
               common_loop fuel m (pprev ai) (pprev bi)
           end
       | _, _ => Ok (pa, pb)
       end.

Definition LastCommonAncestor (m : BlockMap) (pa pb : ptr) : result (option ptr) :=
  ai ← deref (m !! pa); bi ← deref (m !! pb);
  pa' ← (if nHeight bi <? nHeight ai then GetAncestor m pa (nHeight bi) else Ok (Some pa));
  pb' ← (if nHeight ai <? nHeight bi then GetAncestor m pb (nHeight ai) else Ok (Some pb));
  '(ra, rb) ← common_loop (S (Z.to_nat (nHeight ai))) m pa' pb';
  cassert (bool_decide (ra = rb)) ≫= fun _ => Ok ra.

(** [CChain::GetLocator]: the hashes, with the doubling step; [size] counts
    [vHave.size()]. *)
Fixpoint locator_loop (fuel : nat) (m : BlockMap) (v : CChain) (pindex : option ptr)
    (nStep : Z) (size : nat) : result (list uint256) :=
  match pindex with
  | None => Ok []
  | Some p =>
      match fuel with
      | O => Err OutOfFuel
      | S fuel =>
          idx ← deref (m !! p);
          if nHeight idx =? 0 then Ok [p]
          else
            let h := Z.max (nHeight idx - nStep) 0 in
            c ← Contains m v p;
            next ← (if c : bool then Ok (chain_at v h) else GetAncestor m p h);
            let nStep := if (10 <? S size)%nat then i32 (nStep * 2) else nStep in
            rest ← locator_loop fuel m v next nStep (S size);
            Ok (p :: rest)
      end
  end.

Definition GetLocator (m : BlockMap) (v : CChain) (pindex : option ptr) : result (list uint256) :=
  let pindex := match pindex with None => Tip v | Some p => Some p end in
  match pindex with
  | None => Ok []
  | Some p => idx ← deref (m !! p);
              locator_loop (S (Z.to_nat (nHeight idx))) m v (Some p) 1 0
  end.

(** [std::lower_bound] over [vChain] for the predicate of
    [FindEarliestAtLeast]: the bisection on [first] and [len]. *)
Fixpoint lower_bound (fuel : nat) (m : BlockMap) (v : CChain) (t : Z) (first len : nat) :
    result nat :=
  match fuel with
  | O => Ok first
  | S fuel =>
      if (len =? 0)%nat then Ok first
      else
        let half := (len / 2)%nat in
        p ← deref (mjoin (v !! (first + half)%nat));
        idx ← deref (m !! p);
        if nTimeMax idx <? t
        then lower_bound fuel m v t (first + half + 1) (len - half - 1)
        else lower_bound fuel m v t first half
  end.

Definition FindEarliestAtLeast (m : BlockMap) (v : CChain) (t : Z) : result (option ptr) :=
  i ← lower_bound (S (length v)) m v t 0 (length v);
  Ok (if (i =? length v)%nat then None else mjoin (v !! i)).

(** ** Reference: following [pprev] *)

Fixpoint nth_ancestor (m : BlockMap) (p : ptr) (k : nat) : option ptr :=
  match k with
  | O => Some p
  | S k => idx ← m !! p; q ← pprev idx; nth_ancestor m q k
  end.

(** Invariant of the block index. *)
Definition link_ok (m : BlockMap) (idx : CBlockIndex) : Prop :=
  match pprev idx with
  | None => nHeight idx = 0
  | Some q => exists qi, m !! q = Some qi /\ nHeight idx = nHeight qi + 1
  end.

Definition skip_ok (m : BlockMap) (p : ptr) (idx : CBlockIndex) : Prop :=
  forall s, pskip idx = Some s ->
    nth_ancestor m p (Z.to_nat (nHeight idx - GetSkipHeight (nHeight idx))) = Some s.

Definition index_ok (m : BlockMap) : Prop :=
  forall p idx, m !! p = Some idx -> 0 <= nHeight idx /\ link_ok m idx /\ skip_ok m p idx.

(** ** Lemmas on heights *)

Lemma InvertLowestOne_bounds n : 0 < n -> 0 <= InvertLowestOne n < n.
Proof.
  intros Hn. unfold InvertLowestOne. split; [apply Z.land_nonneg; lia|].
  pose proof (land_le_r n (n - 1)). lia.
Qed.

Lemma GetSkipHeight_bounds h : 1 <= h -> 0 <= GetSkipHeight h < h.
Proof.
  intros Hh. unfold GetSkipHeight. destruct (Z.ltb_spec h 2); [lia|].
  case_match; [|apply InvertLowestOne_bounds; lia].
  pose proof (InvertLowestOne_bounds (h - 1) ltac:(lia)) as H1.
  destruct (Z.eq_dec (InvertLowestOne (h - 1)) 0) as [->|].
  - change (InvertLowestOne 0) with 0. lia.
  - pose proof (InvertLowestOne_bounds (InvertLowestOne (h - 1)) ltac:(lia)). lia.
Qed.

(** ** Ancestors *)

Lemma nth_ancestor_add m p j k :
  nth_ancestor m p (j + k) = nth_ancestor m p j ≫= fun q => nth_ancestor m q k.
Proof.
  revert p. induction j as [|j IH]; intros p; [done|]. cbn [nth_ancestor Nat.add].
  destruct (m !! p) as [idx|]; cbn; [|done]. destruct (pprev idx); cbn; [apply IH|done].
Qed.

Lemma nth_ancestor_height m p idx k q : index_ok m -> m !! p = Some idx ->
  nth_ancestor m p k = Some q ->
  exists qi, m !! q = Some qi /\ nHeight qi = nHeight idx - Z.of_nat k.
Proof.
  intros Hm. revert p idx. induction k as [|k IH]; intros p idx Hp Hk.
  - cbn in Hk. simplify_eq. exists idx. split; [done|lia].
  - cbn in Hk. rewrite Hp in Hk. cbn in Hk. destruct (pprev idx) as [r|] eqn:Hr; [|done].
    destruct (Hm p idx Hp) as (_ & Hl & _). unfold link_ok in Hl. rewrite Hr in Hl.
    destruct Hl as (ri & Hri & Hh). destruct (IH r ri Hri Hk) as (qi & Hq & Hqh).
    exists qi. split; [done|lia].
Qed.

Lemma nth_ancestor_total m p idx k : index_ok m -> m !! p = Some idx ->
  Z.of_nat k <= nHeight idx -> exists q, nth_ancestor m p k = Some q.
Proof.
  intros Hm. revert p idx. induction k as [|k IH]; intros p idx Hp Hk; [by eexists|].
  cbn. rewrite Hp. cbn. destruct (Hm p idx Hp) as (H0 & Hl & _). unfold link_ok in Hl.
  destruct (pprev idx) as [r|]; [|lia]. destruct Hl as (ri & Hri & Hh).
  apply (IH r ri Hri). lia.
Qed.

Lemma nth_ancestor_root m p idx k : index_ok m -> m !! p = Some idx ->
  nHeight idx < Z.of_nat k -> nth_ancestor m p k = None.
Proof.
  intros Hm Hp Hk. destruct (nth_ancestor m p k) as [q|] eqn:E; [|done].
  destruct (nth_ancestor_height m p idx k q Hm Hp E) as (qi & Hq & Hh).
  destruct (Hm q qi Hq). lia.
Qed.

Lemma ancestor_walk_spec fuel m p idx height : index_ok m -> m !! p = Some idx ->
  0 <= height <= nHeight idx -> (Z.to_nat (nHeight idx - height) <= fuel)%nat ->
  ancestor_walk fuel m p (nHeight idx) height =
  Ok (nth_ancestor m p (Z.to_nat (nHeight idx - height))).
Proof.
  intros Hm. revert p idx. induction fuel as [|fuel IH]; intros p idx Hp Hh Hf; cbn [ancestor_walk].
  - destruct (Z.leb_spec (nHeight idx) height); [|lia].
    replace (Z.to_nat (nHeight idx - height)) with O by lia. done.
  - destruct (Z.leb_spec (nHeight idx) height) as [|Hgt].
    { replace (Z.to_nat (nHeight idx - height)) with O by lia. done. }
    rewrite Hp. cbn [deref mbind result_bind].
    destruct (Hm p idx Hp) as (H0 & Hl & Hs). unfold link_ok in Hl.
    assert (match pprev idx with
            | Some prev => ancestor_walk fuel m prev (nHeight idx - 1) height
            | None => Err AssertFail end = Ok (nth_ancestor m p (Z.to_nat (nHeight idx - height)))) as Hprev.
    { destruct (pprev idx) as [r|] eqn:Hr; [|lia]. destruct Hl as (ri & Hri & Hrh).
      replace (nHeight idx - 1) with (nHeight ri) by lia. rewrite IH by (done || lia).
      replace (Z.to_nat (nHeight idx - height)) with (S (Z.to_nat (nHeight ri - height))) by lia.
      cbn. by rewrite Hp; cbn; rewrite Hr. }
    destruct (pskip idx) as [s|] eqn:Hsk; [|done].
    case_if as Hfollow; [|done].
    pose proof (GetSkipHeight_bounds (nHeight idx) ltac:(lia)) as Hb.
    assert (height <= GetSkipHeight (nHeight idx)) as Hge.
    { apply orb_prop in Hfollow as [?|?]; bool_hyps; lia. }
    specialize (Hs s Hsk). destruct (nth_ancestor_height _ _ _ _ _ Hm Hp Hs) as (si & Hsi & Hsh).
    replace (GetSkipHeight (nHeight idx)) with (nHeight si) by lia.
    rewrite IH by (done || lia).
    replace (Z.to_nat (nHeight idx - height)) with
      (Z.to_nat (nHeight idx - GetSkipHeight (nHeight idx)) + Z.to_nat (nHeight si - height))%nat by lia.
    rewrite nth_ancestor_add, Hs. done.
Qed.

Lemma GetAncestor_spec m p idx height : index_ok m -> m !! p = Some idx ->
  GetAncestor m p height =
  Ok (if (nHeight idx <? height) || (height <? 0) then None
      else nth_ancestor m p (Z.to_nat (nHeight idx - height))).
Proof.
  intros Hm Hp. unfold GetAncestor. rewrite Hp. cbn [deref mbind result_bind].
  case_match eqn:E; [done|]. bool_hyps. rewrite ancestor_walk_spec; done || lia.
Qed.

Lemma GetAncestor_in_range m p idx height : index_ok m -> m !! p = Some idx ->
  0 <= height <= nHeight idx ->
  exists q qi, GetAncestor m p height = Ok (Some q) /\ m !! q = Some qi /\ nHeight qi = height /\
    nth_ancestor m p (Z.to_nat (nHeight idx - height)) = Some q.
Proof.
  intros Hm Hp Hh. rewrite (GetAncestor_spec m p idx) by done.
  rewrite (proj2 (Z.ltb_ge _ _)), (proj2 (Z.ltb_ge _ _)) by lia. cbn [orb].
  destruct (nth_ancestor_total m p idx (Z.to_nat (nHeight idx - height)) Hm Hp) as [q Hq]; [lia|].
  destruct (nth_ancestor_height m p idx _ q Hm Hp Hq) as (qi & Hqi & Hqh).
  exists q, qi. rewrite Hq. split_and!; try done. lia.
Qed.

(** ** Adding a block to the index *)

Lemma nth_ancestor_insert m p idx k q x : index_ok m -> m !! x = None ->
  m !! p <> None -> nth_ancestor (<[x := idx]> m) p k = Some q <-> nth_ancestor m p k = Some q.
Proof.
  intros Hm Hx. revert p. induction k as [|k IH]; intros p Hp; [done|].
  cbn [nth_ancestor]. rewrite lookup_insert_ne by congruence.
  destruct (m !! p) as [pi|] eqn:E; [|done]. cbn.
  destruct (pprev pi) as [r|] eqn:Hr; [|done]. cbn. apply IH.
  destruct (Hm p pi E) as (_ & Hl & _). unfold link_ok in Hl. rewrite Hr in Hl.
  destruct Hl as (? & -> & _). done.
Qed.

(** A fresh entry whose parent, height and skip pointer are right keeps the
    invariant. *)
Lemma index_ok_insert m x idx : index_ok m -> m !! x = None ->
  0 <= nHeight idx -> link_ok m idx ->
  (forall s, pskip idx = Some s -> exists q, pprev idx = Some q /\
     nth_ancestor m q (Z.to_nat (nHeight idx - 1 - GetSkipHeight (nHeight idx))) = Some s) ->
  index_ok (<[x := idx]> m).
Proof.
  intros Hm Hx H0 Hl Hsk p i. rewrite lookup_insert_Some. intros [[<- <-]|[Hne Hp]].
  - split_and!; [done| |].
    + unfold link_ok in *. destruct (pprev idx) as [q|]; [|done].
      destruct Hl as (qi & Hq & Hh). exists qi. rewrite lookup_insert_ne by congruence. done.
    + intros s Hs. destruct (Hsk s Hs) as (q & Hq & Ha). unfold link_ok in Hl. rewrite Hq in Hl.
      destruct Hl as (qi & Hqi & Hh). destruct (Hm q qi Hqi).
      pose proof (GetSkipHeight_bounds (nHeight idx) ltac:(lia)).
      replace (Z.to_nat (nHeight idx - GetSkipHeight (nHeight idx))) with
        (S (Z.to_nat (nHeight idx - 1 - GetSkipHeight (nHeight idx)))) by lia.
      cbn [nth_ancestor]. rewrite lookup_insert_eq. cbn. rewrite Hq. cbn.
      rewrite nth_ancestor_insert by first [assumption | congruence]. done.
  - destruct (Hm p i Hp) as (H1 & H2 & H3). split_and!; [done| |].
    + unfold link_ok in *. destruct (pprev i) as [q|]; [|done].
      destruct H2 as (qi & Hq & Hh). exists qi. rewrite lookup_insert_ne by congruence. done.
    + intros s Hs. rewrite nth_ancestor_insert by first [assumption | congruence]. by apply H3.
Qed.

(** ** The active chain *)

(** Reference: the chain ending in [t], by height. *)
Definition chain_of (m : BlockMap) (t : ptr) : CChain :=
  match m !! t with
  | None => []
  | Some ti =>
      let h := Z.to_nat (nHeight ti) in
      (fun i => nth_ancestor m t (h - i)) <$> seq 0 (S h)
  end.

Lemma chain_of_length m t ti : m !! t = Some ti ->
  length (chain_of m t) = S (Z.to_nat (nHeight ti)).
Proof. intros Ht. unfold chain_of. rewrite Ht. by rewrite length_fmap, length_seq. Qed.

Lemma chain_of_lookup m t ti i : m !! t = Some ti -> (i <= Z.to_nat (nHeight ti))%nat ->
  chain_of m t !! i = Some (nth_ancestor m t (Z.to_nat (nHeight ti) - i)).
Proof.
  intros Ht Hi. unfold chain_of. rewrite Ht. rewrite list_lookup_fmap, lookup_seq_lt by lia. done.
Qed.

Lemma chain_at_of m t ti h : m !! t = Some ti -> 0 <= h <= nHeight ti ->
  chain_at (chain_of m t) h = nth_ancestor m t (Z.to_nat (nHeight ti - h)).
Proof.
  intros Ht Hh. unfold chain_at. rewrite (chain_of_length m t ti Ht).
  destruct (Z.ltb_spec h 0); [lia|].
  destruct (Z.leb_spec (Z.of_nat (S (Z.to_nat (nHeight ti)))) h); [lia|]. cbn [orb].
  rewrite (chain_of_lookup m t ti) by (done || lia). cbn.
  f_equal. lia.
Qed.

(** Two chains that share a block share everything below it. *)
Lemma shared_below m p k t j q : nth_ancestor m p k = Some q -> nth_ancestor m t j = Some q ->
  forall n, nth_ancestor m p (k + n) = nth_ancestor m t (j + n).
Proof. intros Hk Hj n. by rewrite !nth_ancestor_add, Hk, Hj. Qed.

(** A vector that agrees with the chain of [t] at every height is that chain. *)
Lemma chain_of_ext m t ti v : m !! t = Some ti -> length v = S (Z.to_nat (nHeight ti)) ->
  (forall i, (i <= Z.to_nat (nHeight ti))%nat ->
     v !! i = Some (nth_ancestor m t (Z.to_nat (nHeight ti) - i))) -> v = chain_of m t.
Proof.
  intros Ht Hl Hv. apply list_eq. intros i. destruct (decide (i <= Z.to_nat (nHeight ti))%nat).
  - rewrite Hv by done. symmetry. by apply chain_of_lookup.
  - rewrite !lookup_ge_None_2; rewrite ?(chain_of_length m t ti Ht); [done|lia..].
Qed.

Lemma nth_ancestor_S m t k p pi : nth_ancestor m t k = Some p -> m !! p = Some pi ->
  nth_ancestor m t (S k) = pprev pi.
Proof.
  intros Hp Hpi. rewrite <- Nat.add_1_r, nth_ancestor_add, Hp. cbn. rewrite Hpi. cbn.
  by destruct (pprev pi).
Qed.

(** Loop invariant: the [k] highest slots hold the chain of [t], the slots below
    what [v0] had there. *)
Lemma set_tip_loop_spec fuel m v0 v t ti k :
  let H := Z.to_nat (nHeight ti) in
  index_ok m -> m !! t = Some ti ->
  (v0 = [] \/ exists t0, v0 = chain_of m t0 /\ is_Some (m !! t0)) ->
  length v = S H ->
  (forall i, (i <= H)%nat -> (H < i + k)%nat -> v !! i = Some (nth_ancestor m t (H - i))) ->
  (forall i, (i + k <= H)%nat -> v !! i = Some (mjoin (v0 !! i))) ->
  (S H <= fuel + k)%nat ->
  set_tip_loop fuel m v (nth_ancestor m t k) = Ok (chain_of m t).
Proof.
  intros H Hm Ht Hv0. destruct (Hm t ti Ht) as (Hnn & _ & _).
  revert v k. induction fuel as [|fuel IH]; intros v k Hl Hup Hdown Hfuel.
  all: destruct (decide (H < k)%nat) as [Hk|Hk]; [|try lia].
  1,2: rewrite (nth_ancestor_root m t ti) by (done || lia); cbn; f_equal;
       apply (chain_of_ext m t ti); try done; intros i Hi; apply Hup; lia.
  destruct (nth_ancestor_total m t ti k Hm Ht ltac:(lia)) as [p Hp].
  destruct (nth_ancestor_height m t ti k p Hm Ht Hp) as (pi & Hpi & Hph).
  rewrite Hp. cbn [set_tip_loop]. rewrite Hpi. cbn [deref mbind result_bind].
  assert (Z.to_nat (nHeight pi) = H - k)%nat as -> by lia.
  case_bool_decide as Hstop.
  - (* the remaining part is already right *)
    f_equal. apply (chain_of_ext m t ti); [done..|]. fold H. intros i Hi.
    destruct (decide (H < i + k)%nat); [by apply Hup|]. rewrite Hdown in Hstop |- * by lia.
    simplify_eq. destruct Hv0 as [->|(t0 & -> & [t0i Ht0])]; [done|].
    destruct (decide (H - k <= Z.to_nat (nHeight t0i))%nat).
    2:{ rewrite lookup_ge_None_2 in Hstop; [done|]. rewrite (chain_of_length m t0 t0i Ht0). lia. }
    rewrite (chain_of_lookup m t0 t0i) in Hstop |- * by (done || lia). cbn in *. f_equal.
    pose proof (shared_below m t k t0 _ p Hp Hstop (H - k - i)) as Hsh.
    replace (k + (H - k - i))%nat with (H - i)%nat in Hsh by lia.
    rewrite Hsh. f_equal. lia.
  - rewrite <- (nth_ancestor_S m t k p pi) by done.
    apply IH; rewrite ?length_insert; try lia.
    + intros i Hi Hik. destruct (decide (i = H - k)%nat) as [->|].
      * rewrite list_lookup_insert_eq by lia. rewrite <- Hp. do 2 f_equal. lia.
      * rewrite list_lookup_insert_ne by lia. apply Hup; lia.
    + intros i Hi. rewrite list_lookup_insert_ne by lia. apply Hdown; lia.
Qed.

Lemma SetTip_spec m v0 t ti : index_ok m -> m !! t = Some ti ->
  (v0 = [] \/ exists t0, v0 = chain_of m t0 /\ is_Some (m !! t0)) ->
  SetTip m v0 (Some t) = Ok (chain_of m t).
Proof.
  intros Hm Ht Hv0. unfold SetTip. rewrite Ht. cbn [deref mbind result_bind].
  set (H := Z.to_nat (nHeight ti)).
  assert (length (vresize (S H) v0) = S H) as Hl.
  { unfold vresize. rewrite length_app, length_take, length_replicate. lia. }
  apply (set_tip_loop_spec _ m v0 _ t ti 0); try done; fold H; try lia.
  intros i Hi. unfold vresize. destruct (decide (i < length v0)%nat).
  - rewrite lookup_app_l by (rewrite length_take; lia). rewrite lookup_take_lt by lia.
    destruct (lookup_lt_is_Some_2 v0 i) as [o Ho]; [done|]. rewrite Ho. done.
  - rewrite lookup_app_r by (rewrite length_take; lia). rewrite length_take.
    rewrite lookup_replicate_2 by lia. by rewrite (lookup_ge_None_2 v0) by lia.
Qed.

(** ** Forks and common ancestors *)

Definition is_ancestor (m : BlockMap) (a p : ptr) : Prop := exists k, nth_ancestor m p k = Some a.

(** [q] is the last block [a] and [b] have in common. *)
Definition last_common (m : BlockMap) (a b q : ptr) : Prop :=
  is_ancestor m q a /\ is_ancestor m q b /\
  forall c, is_ancestor m c a -> is_ancestor m c b -> is_ancestor m c q.

Lemma ancestor_position m p pi c ci k : index_ok m -> m !! p = Some pi ->
  nth_ancestor m p k = Some c -> m !! c = Some ci ->
  k = Z.to_nat (nHeight pi - nHeight ci) /\ 0 <= nHeight ci <= nHeight pi.
Proof.
  intros Hm Hp Hk Hc. destruct (nth_ancestor_height m p pi k c Hm Hp Hk) as (ci' & Hc' & Hh).
  simplify_eq. destruct (Hm c ci Hc). lia.
Qed.

Lemma Contains_spec m t ti p pi : index_ok m -> m !! t = Some ti -> m !! p = Some pi ->
  exists b, Contains m (chain_of m t) p = Ok b /\ (b = true <-> is_ancestor m p t).
Proof.
  intros Hm Ht Hp. unfold Contains. rewrite Hp. cbn [deref mbind result_bind].
  destruct (Hm p pi Hp) as (Hp0 & _ & _).
  eexists; split; [done|]. rewrite bool_decide_eq_true. destruct (Z.le_gt_cases (nHeight pi) (nHeight ti)).
  - rewrite (chain_at_of m t ti) by (done || lia). split; [by intros ?; eexists|].
    intros [k Hk]. destruct (ancestor_position m t ti p pi k Hm Ht Hk Hp) as [-> _]. done.
  - unfold chain_at. rewrite (chain_of_length m t ti Ht).
    destruct (Z.leb_spec (Z.of_nat (S (Z.to_nat (nHeight ti)))) (nHeight pi)).
    2:{ destruct (Hm t ti Ht). lia. }
    rewrite orb_true_r. split; [done|]. intros [k Hk].
    destruct (ancestor_position m t ti p pi k Hm Ht Hk Hp). lia.
Qed.

Lemma find_fork_loop_spec fuel m t ti p pi k :
  index_ok m -> m !! t = Some ti -> m !! p = Some pi ->
  (Z.to_nat (nHeight pi) < fuel + k)%nat ->
  (forall j q, (j < k)%nat -> nth_ancestor m p j = Some q -> ~ is_ancestor m q t) ->
  exists r, find_fork_loop fuel m (chain_of m t) (nth_ancestor m p k) = Ok r /\
    match r with
    | Some q => last_common m p t q
    | None => forall c, is_ancestor m c p -> ~ is_ancestor m c t
    end.
Proof.
  intros Hm Ht Hp. revert k. induction fuel as [|fuel IH]; intros k Hf Hk.
  all: destruct (nth_ancestor m p k) as [q|] eqn:Hq.
  2,4: exists None; split; [done|]; intros c [j Hj]; apply (Hk j); [|done];
       destruct (decide (j < k)%nat) as [|Hjk]; [done|];
       replace j with (k + (j - k))%nat in Hj by lia; rewrite nth_ancestor_add, Hq in Hj; done.
  all: destruct (nth_ancestor_height m p pi k q Hm Hp Hq) as (qi & Hqi & Hqh).
  all: destruct (Hm q qi Hqi) as (Hq0 & _ & _); cbn [find_fork_loop]; try lia.
  destruct (Contains_spec m t ti q qi Hm Ht Hqi) as (b & -> & Hb). cbn [mbind result_bind].
  destruct b.
  - exists (Some q). split; [done|]. split; [by exists k|]. split; [by apply Hb|].
    intros c [j Hj] Hct. exists (j - k)%nat.
    destruct (decide (j < k)%nat); [by destruct (Hk j c)|].
    replace j with (k + (j - k))%nat in Hj by lia. by rewrite nth_ancestor_add, Hq in Hj.
  - rewrite Hqi. cbn [deref mbind result_bind]. rewrite <- (nth_ancestor_S m p k q qi) by done.
    apply IH; [lia|]. intros j c Hj Hc.
    destruct (decide (j = k)) as [->|]; [|apply (Hk j); [lia|done]].
    simplify_eq. intros Hct. by apply Hb in Hct.
Qed.

Lemma FindFork_spec m t ti p pi : index_ok m -> m !! t = Some ti -> m !! p = Some pi ->
  exists r, FindFork m (chain_of m t) (Some p) = Ok r /\
    match r with
    | Some q => last_common m p t q
    | None => forall c, is_ancestor m c p -> ~ is_ancestor m c t
    end.
Proof.
  intros Hm Ht Hp. unfold FindFork. rewrite Hp. cbn [deref mbind result_bind].
  unfold Height. rewrite (chain_of_length m t ti Ht).
  destruct (Hm t ti Ht) as (Ht0 & _ & _). destruct (Hm p pi Hp) as (Hp0 & _ & _).
  replace (Z.of_nat (S (Z.to_nat (nHeight ti))) - 1) with (nHeight ti) by lia.
  destruct (Z.ltb_spec (nHeight ti) (nHeight pi)).
  - rewrite (GetAncestor_spec m p pi) by done.
    rewrite (proj2 (Z.ltb_ge _ _)), (proj2 (Z.ltb_ge _ _)) by lia. cbn [orb mbind result_bind].
    apply (find_fork_loop_spec _ m t ti p pi); try done; [lia|].
    intros j q Hj Hq [k Hk]. destruct (nth_ancestor_height m p pi j q Hm Hp Hq) as (qi & Hqi & Hqh).
    destruct (ancestor_position m t ti q qi k Hm Ht Hk Hqi). lia.
  - apply (find_fork_loop_spec _ m t ti p pi 0); try done; [lia|]. intros j q Hj. lia.
Qed.

Lemma common_loop_spec fuel m a ai b bi h :
  index_ok m -> m !! a = Some ai -> m !! b = Some bi ->
  0 <= h <= Z.min (nHeight ai) (nHeight bi) -> (Z.to_nat h <= fuel)%nat ->
  nth_ancestor m a (Z.to_nat (nHeight ai)) = nth_ancestor m b (Z.to_nat (nHeight bi)) ->
  (forall c ci, is_ancestor m c a -> is_ancestor m c b -> m !! c = Some ci -> nHeight ci <= h) ->
  exists q, common_loop fuel m (nth_ancestor m a (Z.to_nat (nHeight ai - h)))
                               (nth_ancestor m b (Z.to_nat (nHeight bi - h))) = Ok (Some q, Some q) /\
    last_common m a b q.
Proof.
  intros Hm Ha Hb. revert h. induction fuel as [|fuel IH]; intros h Hh Hf Hroot Hmax.
  all: destruct (nth_ancestor_total m a ai (Z.to_nat (nHeight ai - h)) Hm Ha) as [x Hx]; [lia|].
  all: destruct (nth_ancestor_total m b bi (Z.to_nat (nHeight bi - h)) Hm Hb) as [y Hy]; [lia|].
  all: destruct (nth_ancestor_height m a ai _ x Hm Ha Hx) as (xi & Hxi & Hxh).
  all: destruct (nth_ancestor_height m b bi _ y Hm Hb Hy) as (yi & Hyi & Hyh).
  all: rewrite Hx, Hy; cbn [common_loop]; case_bool_decide as Heq.
  1,3: simplify_eq; exists y; split; [done|]; split; [by eexists|]; split; [by eexists|];
       intros c [k Hk] Hcb; destruct (nth_ancestor_height m a ai k c Hm Ha Hk) as (ci & Hci & Hch);
       specialize (Hmax c ci (ex_intro _ k Hk) Hcb Hci);
       exists (k - Z.to_nat (nHeight ai - h))%nat;
       replace k with (Z.to_nat (nHeight ai - h) + (k - Z.to_nat (nHeight ai - h)))%nat in Hk by lia;
       by rewrite nth_ancestor_add, Hx in Hk.
  - replace h with 0 in * by lia. rewrite Z.sub_0_r in *. congruence.
  - rewrite Hxi, Hyi. cbn [deref mbind result_bind].
    assert (0 < h) as Hpos.
    { destruct (Z.eq_dec h 0) as [->|]; [|lia]. rewrite !Z.sub_0_r in *. congruence. }
    rewrite <- (nth_ancestor_S m a _ x xi Hx Hxi), <- (nth_ancestor_S m b _ y yi Hy Hyi).
    replace (S (Z.to_nat (nHeight ai - h))) with (Z.to_nat (nHeight ai - (h - 1))) by lia.
    replace (S (Z.to_nat (nHeight bi - h))) with (Z.to_nat (nHeight bi - (h - 1))) by lia.
    apply IH; [lia|lia|done|]. intros c ci Hca Hcb Hci. specialize (Hmax c ci Hca Hcb Hci).
    destruct (Z.eq_dec (nHeight ci) h); [|lia]. exfalso. apply Heq.
    destruct Hca as [k Hk], Hcb as [l Hl].
    destruct (ancestor_position m a ai c ci k Hm Ha Hk Hci) as [-> _].
    destruct (ancestor_position m b bi c ci l Hm Hb Hl Hci) as [-> _]. congruence.
Qed.

Lemma LastCommonAncestor_spec m a ai b bi :
  index_ok m -> m !! a = Some ai -> m !! b = Some bi ->
  nth_ancestor m a (Z.to_nat (nHeight ai)) = nth_ancestor m b (Z.to_nat (nHeight bi)) ->
  exists q, LastCommonAncestor m a b = Ok (Some q) /\ last_common m a b q.
Proof.
  intros Hm Ha Hb Hroot. unfold LastCommonAncestor. rewrite Ha, Hb. cbn [deref mbind result_bind].
  destruct (Hm a ai Ha) as (Ha0 & _ & _). destruct (Hm b bi Hb) as (Hb0 & _ & _).
  set (h := Z.min (nHeight ai) (nHeight bi)).
  assert (forall p pi o oi, m !! p = Some pi -> m !! o = Some oi -> h = Z.min (nHeight pi) (nHeight oi) ->
    (if nHeight oi <? nHeight pi then GetAncestor m p (nHeight oi) else Ok (Some p)) =
    Ok (nth_ancestor m p (Z.to_nat (nHeight pi - h)))) as Hlevel.
  { intros p pi o oi Hp Ho Hmin. destruct (Hm p pi Hp), (Hm o oi Ho).
    destruct (Z.ltb_spec (nHeight oi) (nHeight pi)).
    - rewrite (GetAncestor_spec m p pi) by done.
      rewrite (proj2 (Z.ltb_ge _ _)), (proj2 (Z.ltb_ge _ _)) by lia. cbn [orb]. do 3 f_equal. lia.
    - replace (Z.to_nat (nHeight pi - h)) with O by lia. done. }
  rewrite (Hlevel a ai b bi), (Hlevel b bi a ai) by (done || lia). cbn [mbind result_bind].
  destruct (common_loop_spec (S (Z.to_nat (nHeight ai))) m a ai b bi h) as (q & -> & Hq); try done; try lia.
  { intros c ci [k Hk] [l Hl] Hci.
    destruct (ancestor_position m a ai c ci k Hm Ha Hk Hci), (ancestor_position m b bi c ci l Hm Hb Hl Hci). lia. }
  exists q. cbn [mbind result_bind cassert]. rewrite bool_decide_eq_true_2 by done. done.
Qed.

(** ** Block locators *)

Lemma chain_at_contained m t ti p pi h : index_ok m -> m !! t = Some ti -> m !! p = Some pi ->
  is_ancestor m p t -> 0 <= h <= nHeight pi ->
  chain_at (chain_of m t) h = nth_ancestor m p (Z.to_nat (nHeight pi - h)).
Proof.
  intros Hm Ht Hp [k Hk] Hh. destruct (ancestor_position m t ti p pi k Hm Ht Hk Hp) as [-> Hb].
  rewrite (chain_at_of m t ti) by (done || lia).
  replace (Z.to_nat (nHeight ti - h)) with
    (Z.to_nat (nHeight ti - nHeight pi) + Z.to_nat (nHeight pi - h))%nat by lia.
  by rewrite nth_ancestor_add, Hk.
Qed.

Lemma locator_loop_spec fuel m t ti p pi k nStep size :
  index_ok m -> m !! t = Some ti -> m !! p = Some pi -> nHeight pi < 2 ^ 31 - 1 ->
  Z.of_nat k <= nHeight pi -> (Z.to_nat (nHeight pi) < fuel + k)%nat ->
  (Z.of_nat k = nHeight pi \/ 1 <= nStep <= Z.of_nat k + 1) ->
  exists l ks, locator_loop fuel m (chain_of m t) (nth_ancestor m p k) nStep size = Ok l /\
    Forall2 (fun j q => nth_ancestor m p j = Some q) ks l /\
    StronglySorted lt ks /\ head ks = Some k /\ last ks = Some (Z.to_nat (nHeight pi)).
Proof.
  intros Hm Ht Hp Hmax. revert k nStep size.
  induction fuel as [|fuel IH]; intros k nStep size Hk Hf Hstep; [lia|].
  destruct (nth_ancestor_total m p pi k Hm Hp Hk) as [q Hq]. rewrite Hq. cbn [locator_loop].
  destruct (nth_ancestor_height m p pi k q Hm Hp Hq) as (qi & Hqi & Hqh).
  rewrite Hqi. cbn [deref mbind result_bind]. destruct (Z.eqb_spec (nHeight qi) 0) as [Hz|Hnz].
  { exists [q], [k]. split; [done|]. split; [by repeat constructor|].
    split; [by repeat constructor|]. split; [done|]. cbn. f_equal. lia. }
  set (h := Z.max (nHeight qi - nStep) 0).
  assert (0 <= h < nHeight qi) as Hh by lia.
  destruct (Contains_spec m t ti q qi Hm Ht Hqi) as (c & -> & Hc). cbn [mbind result_bind].
  assert ((if c then Ok (chain_at (chain_of m t) h) else GetAncestor m q h) =
          Ok (nth_ancestor m p (Z.to_nat (nHeight pi - h)))) as ->.
  { replace (Z.to_nat (nHeight pi - h)) with (k + Z.to_nat (nHeight qi - h))%nat by lia.
    rewrite nth_ancestor_add, Hq. cbn. destruct c.
    - f_equal. apply (chain_at_contained m t ti q qi); try done; [by apply Hc|lia].
    - rewrite (GetAncestor_spec m q qi) by done.
      by rewrite (proj2 (Z.ltb_ge _ _)), (proj2 (Z.ltb_ge _ _)) by lia. }
  cbn [mbind result_bind].
  destruct (IH (Z.to_nat (nHeight pi - h))
    (if (10 <? S size)%nat then i32 (nStep * 2) else nStep) (S size)) as (l & ks & -> & HF & Hs & Hhd & Hlast);
    [lia|lia| |].
  { destruct (Z.eq_dec h 0) as [->|Hne]; [left; lia|]. right.
    destruct (10 <? S size)%nat; rewrite ?i32_small; lia. }
  exists (q :: l), (k :: ks). cbn [mbind result_bind]. split; [done|]. split; [by constructor|].
  destruct ks as [|k' ks]; [done|]. injection Hhd as ->.
  split; [|split; [done|by rewrite last_cons_cons]]. constructor; [done|].
  apply StronglySorted_inv in Hs as [_ Hs]. constructor; [lia|].
  eapply Forall_impl; [exact Hs|]. cbn. intros; lia.
Qed.

(** ** The bisection of [FindEarliestAtLeast] *)

Lemma lower_bound_spec fuel m v t f first len :
  (forall i, (i < length v)%nat -> exists p idx, v !! i = Some (Some p) /\ m !! p = Some idx /\ nTimeMax idx = f i) ->
  (forall i j, (i <= j < length v)%nat -> f i <= f j) ->
  (len < fuel)%nat -> (first + len <= length v)%nat ->
  (forall i, (i < first)%nat -> f i < t) ->
  (forall i, (first + len <= i < length v)%nat -> t <= f i) ->
  exists r, lower_bound fuel m v t first len = Ok r /\ (r <= length v)%nat /\
    (forall i, (i < r)%nat -> f i < t) /\ (forall i, (r <= i < length v)%nat -> t <= f i).
Proof.
  intros Hv Hmono. revert first len. induction fuel as [|fuel IH]; intros first len Hf Hle Hlo Hhi; [lia|].
  cbn [lower_bound]. destruct (Nat.eqb_spec len 0) as [->|Hne].
  { exists first. split_and!; [done|lia|done|]. intros i Hi. apply Hhi. lia. }
  assert (len / 2 < len)%nat as Hhalf by (apply Nat.div_lt; lia).
  destruct (Hv (first + len / 2)%nat ltac:(lia)) as (p & idx & -> & Hp & Hmid).
  cbn [mjoin option_join deref mbind result_bind]. rewrite Hp. cbn [deref mbind result_bind].
  rewrite Hmid. destruct (Z.ltb_spec (f (first + len / 2)%nat) t).
  - apply IH; [lia|lia| |].
    + intros i Hi. pose proof (Hmono i (first + len / 2)%nat ltac:(lia)). lia.
    + intros i Hi. apply Hhi. lia.
  - apply IH; [lia|lia|done|].
    intros i Hi. pose proof (Hmono (first + len / 2)%nat i ltac:(lia)). lia.
Qed.

(** ** Medians *)

Definition count_lt (x : Z) (l : list Z) : nat := length (filter (fun y => y < x) l).

Lemma count_lt_perm x l1 l2 : Permutation l1 l2 -> count_lt x l1 = count_lt x l2.
Proof. intros H. unfold count_lt. apply Permutation_length. by rewrite H. Qed.

Lemma count_lt_cons x y l : count_lt x (y :: l) = ((if decide (y < x)%Z then 1 else 0) + count_lt x l)%nat.
Proof. unfold count_lt. rewrite filter_cons. by destruct (decide (y < x)). Qed.

Lemma count_lt_app x l1 l2 : count_lt x (l1 ++ l2) = (count_lt x l1 + count_lt x l2)%nat.
Proof. unfold count_lt. by rewrite filter_app, length_app. Qed.

Lemma count_lt_le x l : (count_lt x l <= length l)%nat.
Proof. apply length_filter. Qed.

Lemma count_lt_take x n l : (count_lt x (take n l) <= count_lt x l)%nat.
Proof. rewrite <- (take_drop n l) at 2. rewrite count_lt_app. lia. Qed.

Lemma count_lt_none x l : Forall (fun y => x <= y) l -> count_lt x l = O.
Proof. induction 1 as [|y l Hy Hl IH]; [done|]. rewrite count_lt_cons, IH, decide_False by lia. done. Qed.

Lemma count_lt_all x l : Forall (fun y => y < x) l -> count_lt x l = length l.
Proof. induction 1 as [|y l Hy Hl IH]; [done|]. rewrite count_lt_cons, IH, decide_True by done. done. Qed.

Lemma sorted_split (l : list Z) k : StronglySorted Z.le l -> (k < length l)%nat ->
  Forall (fun y => y <= l !!! k) (take (S k) l) /\ Forall (fun y => l !!! k <= y) (drop k l).
Proof.
  intros Hs. revert k. induction Hs as [|a l Hs IH Ha]; intros k Hk; [cbn in Hk; lia|].
  destruct k as [|k]; cbn [take drop lookup_total list_lookup_total].
  - split; [constructor; [lia|constructor]|]. constructor; [lia|done].
  - destruct (IH k) as [H1 H2]; [cbn in Hk; lia|]. split; [|done]. constructor; [|done].
    rewrite Forall_forall in Ha. apply Ha. apply list_elem_of_lookup_total_2. cbn in Hk; lia.
Qed.

Lemma sorted_rank (l : list Z) k x : StronglySorted Z.le l -> (k < length l)%nat ->
  (count_lt x l <= k)%nat <-> x <= l !!! k.
Proof.
  intros Hs Hk. destruct (sorted_split l k Hs Hk) as [H1 H2]. split; intros H.
  - destruct (Z.le_gt_cases x (l !!! k)); [done|].
    assert (count_lt x (take (S k) l) = length (take (S k) l)) as E.
    { apply count_lt_all. eapply Forall_impl; [exact H1|]. cbn. lia. }
    pose proof (count_lt_take x (S k) l). rewrite E, length_take in *. lia.
  - rewrite <- (take_drop k l), count_lt_app. rewrite (count_lt_none x (drop k l)).
    + pose proof (count_lt_le x (take k l)). rewrite length_take in *. lia.
    + eapply Forall_impl; [exact H2|]. cbn. lia.
Qed.

Lemma median_rank l x : l <> [] -> (count_lt x l <= length l / 2)%nat <-> x <= median l.
Proof.
  intros Hl. unfold median.
  rewrite <- sorted_rank.
  - by rewrite (count_lt_perm x (merge_sort Z.le l) l) by apply merge_sort_Permutation.
  - apply (StronglySorted_merge_sort Z.le).
  - rewrite (Permutation_length (merge_sort_Permutation Z.le l)).
    apply Nat.div_lt; [|lia]. destruct l; [done|cbn; lia].
Qed.

(** Dropping the oldest time (when the window is full) and adding one above the
    median does not lower the median. *)
Lemma median_push n l t : (length l <= S n)%nat -> median l < t -> l <> [] ->
  median l <= median (t :: take n l).
Proof.
  intros Hl Ht Hne. apply median_rank; [done|]. rewrite count_lt_cons, decide_False by lia.
  pose proof (proj2 (median_rank l (median l) Hne) ltac:(lia)).
  pose proof (count_lt_take (median l) n l). cbn [length]. rewrite length_take.
  etransitivity; [apply H0|]. etransitivity; [exact H|]. apply Nat.Div0.div_le_mono. lia.
Qed.

Lemma past_times_total m n p idx : index_ok m -> m !! p = Some idx ->
  exists l, past_times m n (Some p) = Ok l /\ (length l <= n)%nat /\ (0 < n -> l <> [])%nat.
Proof.
  intros Hm. revert p idx. induction n as [|n IH]; intros p idx Hp; [exists []; split_and!; [done|cbn; lia|intros ?; lia]|].
  cbn [past_times]. rewrite Hp. cbn [deref mbind result_bind].
  destruct (Hm p idx Hp) as (_ & Hl & _). unfold link_ok in Hl. destruct (pprev idx) as [q|].
  - destruct Hl as (qi & Hq & _). destruct (IH q qi Hq) as (l & -> & ? & ?).
    eexists; split; [done|]. cbn. split; [lia|done].
  - destruct n; (eexists; split; [done|]; cbn; split; [lia|done]).
Qed.

Lemma past_times_take m n p l : past_times m (S n) p = Ok l -> past_times m n p = Ok (take n l).
Proof.
  revert p l. induction n as [|n IH]; intros p l H; [done|].
  destruct p as [p|]; [|cbn in *; by simplify_eq]. cbn [past_times] in H |- *.
  destruct (m !! p) as [idx|]; [|done]. cbn [deref mbind result_bind] in *.
  apply result_bind_Ok in H as (rest & Hr & H). simplify_eq.
  cbn [past_times] in IH. rewrite (IH (pprev idx) rest Hr). done.
Qed.

(** ** Growing the index *)

Lemma BuildSkip_spec m x idx : index_ok m -> m !! x = None -> 0 <= nHeight idx -> link_ok m idx ->
  pskip idx = None ->
  exists idx', BuildSkip m idx = Ok idx' /\ index_ok (<[x := idx']> m) /\
    pprev idx' = pprev idx /\ nHeight idx' = nHeight idx /\
    (forall q, pprev idx = Some q -> is_Some (pskip idx')).
Proof.
  intros Hm Hx H0 Hl Hs. unfold BuildSkip. pose proof Hl as Hl'. unfold link_ok in Hl'.
  destruct (pprev idx) as [q|] eqn:Hq.
  - destruct Hl' as (qi & Hqi & Hh). destruct (Hm q qi Hqi) as (Hq0 & _ & _).
    pose proof (GetSkipHeight_bounds (nHeight idx) ltac:(lia)).
    destruct (GetAncestor_in_range m q qi (GetSkipHeight (nHeight idx)) Hm Hqi ltac:(lia))
      as (s & si & -> & _ & _ & Hs'). cbn [mbind result_bind].
    eexists; split; [done|]. cbn [pprev nHeight pskip set_pskip]. split; [|by eauto].
    apply index_ok_insert; cbn [pprev nHeight pskip set_pskip]; try done.
    intros s' [= <-]. exists q. split; [by rewrite Hq|]. rewrite <- Hs'. f_equal. lia.
  - exists idx. split; [done|]. split; [|by rewrite Hq; eauto].
    apply index_ok_insert; try done. congruence.
Qed.

Lemma index_ok_empty : index_ok ∅.
Proof. intros p idx. by rewrite lookup_empty. Qed.

(** A small index for concrete checks: a chain of blocks [[0] .. [n]] and a
    branch of two blocks that leaves it at height 4. *)
Definition sample_block (prev : option ptr) (h t : Z) : CBlockIndex :=
  mkIndex prev None h 0 0 0 (of_u64 8 0) 0 0 BLOCK_VALID_TREE 4 uint256_null t 0x207fffff 0 0 t.

Definition push_block (m : BlockMap) (x : ptr) (idx : CBlockIndex) : BlockMap :=
  match BuildSkip m idx with Ok idx' => <[x := idx']> m | Err _ => m end.

(** A chain of [n + 1] blocks [[0] .. [n]], the block of height [h] over [prev]
    being [blk prev h]. *)
Fixpoint grow_chain (blk : option ptr -> Z -> CBlockIndex) (n : nat) : BlockMap :=
  match n with
  | O => push_block ∅ [0] (blk None 0)
  | S k => push_block (grow_chain blk k) [Z.of_nat n] (blk (Some [Z.of_nat k]) (Z.of_nat n))
  end.

Definition sample_chain (n : nat) : BlockMap :=
  grow_chain (fun prev h => sample_block prev h (1000 + 60 * h)) n.

Definition sample_index : BlockMap :=
  push_block (push_block (sample_chain 12) [100] (sample_block (Some [4]) 5 1310))
    [101] (sample_block (Some [100]) 6 1370).

Lemma push_block_ok m x idx : index_ok m -> m !! x = None -> 0 <= nHeight idx -> link_ok m idx ->
  pskip idx = None -> index_ok (push_block m x idx) /\
  (exists idx', push_block m x idx = <[x := idx']> m /\ nHeight idx' = nHeight idx).
Proof.
  intros Hm Hx H0 Hl Hs. destruct (BuildSkip_spec m x idx Hm Hx H0 Hl Hs) as (idx' & E & Hok & _ & Hh & _).
  unfold push_block. rewrite E. eauto.
Qed.

Lemma grow_chain_ok blk n :
  (forall prev h, pprev (blk prev h) = prev /\ nHeight (blk prev h) = h /\ pskip (blk prev h) = None) ->
  index_ok (grow_chain blk n) /\
  (exists idx, grow_chain blk n !! [Z.of_nat n] = Some idx /\ nHeight idx = Z.of_nat n) /\
  (forall k, (n < k)%nat -> grow_chain blk n !! [Z.of_nat k] = None).
Proof.
  intros Hblk. induction n as [|n (Hok & (i & Hi & Hh) & Hfresh)]; cbn [grow_chain].
  - destruct (Hblk None 0) as (Hp & Hb & Hs).
    destruct (push_block_ok ∅ [0] (blk None 0)) as (H1 & i & E & Hh);
      [apply index_ok_empty|done|lia|unfold link_ok; by rewrite Hp|done|].
    split; [done|]. rewrite E. split; [exists i; rewrite lookup_insert_eq; split; [done|lia]|].
    intros k Hk. rewrite lookup_insert_ne; [done|]. intros [=]. lia.
  - destruct (Hblk (Some [Z.of_nat n]) (Z.of_nat (S n))) as (Hp & Hb & Hs).
    destruct (push_block_ok (grow_chain blk n) [Z.of_nat (S n)]
      (blk (Some [Z.of_nat n]) (Z.of_nat (S n)))) as (H1 & j & E & Hhj);
      [done|apply Hfresh; lia|lia| |done|].
    { unfold link_ok. rewrite Hp. exists i. split; [done|]. lia. }
    split; [done|]. rewrite E. split; [exists j; rewrite lookup_insert_eq; split; [done|lia]|].
    intros k Hk. rewrite lookup_insert_ne; [apply Hfresh; lia|]. intros [=]. lia.
Qed.

Lemma sample_index_ok : index_ok sample_index.
Proof.
  unfold sample_index. destruct (grow_chain_ok (fun prev h => sample_block prev h (1000 + 60 * h)) 12) as (Hok & _ & _); [done|].
  destruct (push_block_ok (sample_chain 12) [100] (sample_block (Some [4]) 5 1310)) as [H1 _];
    [done|vm_compute; done|done| |done|].
  { eexists. split; [vm_compute; reflexivity|]. done. }
  apply push_block_ok; [done|vm_compute; done|done| |done].
  eexists. split; [vm_compute; reflexivity|]. done.
Qed.

(** ** Properties *)

(** C29: in a well-formed block index the skip-list walk of [GetAncestor] never
    fails and returns exactly what following [pprev] one block at a time
    returns; outside [[0, nHeight]] it returns null. *)
Theorem GetAncestor_follows_pprev m p idx height : index_ok m -> m !! p = Some idx ->
  GetAncestor m p height =
  Ok (if (nHeight idx <? height) || (height <? 0) then None
      else nth_ancestor m p (Z.to_nat (nHeight idx - height))).
Proof. apply GetAncestor_spec. Qed.

Lemma GetAncestor_follows_pprev_witness : GetAncestor sample_index [11] 3 = Ok (Some [3]).
Proof.
  rewrite (GetAncestor_follows_pprev sample_index [11] _ 3 sample_index_ok ltac:(vm_compute; reflexivity)).
  vm_compute. reflexivity.
Defined.

(** Entering a fresh block whose parent is in the index, with the skip
    pointer [BuildSkip] computes, keeps the index well formed; [BuildSkip]
    always succeeds and sets [pskip] on every block that has a parent. *)
Theorem BuildSkip_keeps_index m x idx : index_ok m -> m !! x = None -> 0 <= nHeight idx ->
  link_ok m idx -> pskip idx = None ->
  exists idx', BuildSkip m idx = Ok idx' /\ index_ok (<[x := idx']> m) /\
    pprev idx' = pprev idx /\ nHeight idx' = nHeight idx /\
    (forall q, pprev idx = Some q -> is_Some (pskip idx')).
Proof. apply BuildSkip_spec. Qed.

Lemma BuildSkip_keeps_index_witness :
  exists idx', BuildSkip sample_index (sample_block (Some [12]) 13 2000) = Ok idx' /\
    index_ok (<[[13] := idx']> sample_index).
Proof.
  destruct (BuildSkip_keeps_index sample_index [13] (sample_block (Some [12]) 13 2000) sample_index_ok
    ltac:(vm_compute; reflexivity) ltac:(vm_compute; discriminate)
    ltac:(vm_compute; eexists; split; reflexivity) eq_refl) as (i & H1 & H2 & _).
  exists i. exact (conj H1 H2).
Defined.

(** Whatever chain the vector held before, [SetTip] leaves the ancestor of
    the new tip at every height, although it stops at the first slot that is
    already right. *)
Theorem SetTip_sets_chain m v0 t ti : index_ok m -> m !! t = Some ti ->
  (v0 = [] \/ exists t0, v0 = chain_of m t0 /\ is_Some (m !! t0)) ->
  SetTip m v0 (Some t) = Ok (chain_of m t).
Proof. apply SetTip_spec. Qed.

Lemma SetTip_sets_chain_witness :
  SetTip sample_index (chain_of sample_index [12]) (Some [101]) =
  Ok [Some [0]; Some [1]; Some [2]; Some [3]; Some [4]; Some [100]; Some [101]].
Proof.
  erewrite (SetTip_sets_chain sample_index (chain_of sample_index [12]) [101] _ sample_index_ok).
  - vm_compute. reflexivity.
  - vm_compute. reflexivity.
  - right. exists [12]. split; [reflexivity|]. eexists. vm_compute. reflexivity.
Defined.

(** [CChain::FindFork] returns the last block the given one has in common
    with the chain (null when there is none), and [LastCommonAncestor] returns
    the last common block of two blocks over the same genesis, its final
    assertion never failing. *)
Theorem fork_points m t ti p pi : index_ok m -> m !! t = Some ti -> m !! p = Some pi ->
  (exists r, FindFork m (chain_of m t) (Some p) = Ok r /\
    match r with
    | Some q => last_common m p t q
    | None => forall c, is_ancestor m c p -> ~ is_ancestor m c t
    end) /\
  (nth_ancestor m p (Z.to_nat (nHeight pi)) = nth_ancestor m t (Z.to_nat (nHeight ti)) ->
   exists q, LastCommonAncestor m p t = Ok (Some q) /\ last_common m p t q).
Proof.
  intros Hm Ht Hp. split; [by apply (FindFork_spec m t ti p pi)|].
  by apply (LastCommonAncestor_spec m p pi t ti).
Qed.

Lemma fork_points_witness :
  FindFork sample_index (chain_of sample_index [12]) (Some [101]) = Ok (Some [4]) /\
  exists q, LastCommonAncestor sample_index [101] [12] = Ok (Some q) /\ last_common sample_index [101] [12] q.
Proof.
  destruct (fork_points sample_index [12] _ [101] _ sample_index_ok
    ltac:(vm_compute; reflexivity) ltac:(vm_compute; reflexivity)) as [_ H2].
  split; [vm_compute; reflexivity|]. apply H2. vm_compute. reflexivity.
Defined.

(** For a block below height [2^31 - 1] the locator lists the block itself
    first, ancestors at strictly decreasing heights, and the genesis block of
    its branch last; the doubling step never overflows before it is used. *)
Theorem GetLocator_shape m t ti p pi : index_ok m -> m !! t = Some ti -> m !! p = Some pi ->
  nHeight pi < 2 ^ 31 - 1 ->
  exists l ks, GetLocator m (chain_of m t) (Some p) = Ok l /\
    Forall2 (fun j q => nth_ancestor m p j = Some q) ks l /\
    StronglySorted lt ks /\ head ks = Some O /\ last ks = Some (Z.to_nat (nHeight pi)).
Proof.
  intros Hm Ht Hp Hh. unfold GetLocator. rewrite Hp. cbn [deref mbind result_bind].
  destruct (Hm p pi Hp). change (Some p) with (nth_ancestor m p 0).
  apply (locator_loop_spec _ m t ti); try done; lia.
Qed.

Lemma GetLocator_shape_witness :
  exists l, GetLocator sample_index (chain_of sample_index [12]) (Some [101]) = Ok l /\ head l = Some [101].
Proof.
  destruct (GetLocator_shape sample_index [12] _ [101] _ sample_index_ok
    ltac:(vm_compute; reflexivity) ltac:(vm_compute; reflexivity) ltac:(vm_compute; reflexivity))
    as (l & ks & H & _).
  exists l. split; [exact H|]. revert H. vm_compute. intros [= <-]. reflexivity.
Defined.

(** The invariant of [nTimeMax]: the running maximum of the block times. *)
Definition timemax_ok (m : BlockMap) : Prop :=
  forall p idx, m !! p = Some idx ->
    match pprev idx with
    | None => True
    | Some q => forall qi, m !! q = Some qi -> nTimeMax qi <= nTimeMax idx
    end.

Lemma timemax_ancestor m p idx k q qi : index_ok m -> timemax_ok m -> m !! p = Some idx ->
  nth_ancestor m p k = Some q -> m !! q = Some qi -> nTimeMax qi <= nTimeMax idx.
Proof.
  intros Hm Ht. revert p idx. induction k as [|k IH]; intros p idx Hp Hq Hqi; cbn [nth_ancestor] in Hq.
  - simplify_eq. lia.
  - rewrite Hp in Hq. cbn in Hq. specialize (Ht p idx Hp). destruct (Hm p idx Hp) as (_ & Hl & _).
    unfold link_ok in Hl. destruct (pprev idx) as [s|]; [|done]. cbn in Hq.
    destruct Hl as (si & Hsi & _). specialize (Ht si Hsi). specialize (IH s si Hsi Hq Hqi). lia.
Qed.

(** Every slot of the active chain holds the ancestor of its height. *)
Lemma chain_slot m t ti i : index_ok m -> m !! t = Some ti -> (i < length (chain_of m t))%nat ->
  exists p pi, chain_of m t !! i = Some (Some p) /\ m !! p = Some pi /\ nHeight pi = Z.of_nat i /\
    nth_ancestor m t (Z.to_nat (nHeight ti) - i) = Some p.
Proof.
  intros Hm Ht Hi. rewrite (chain_of_length m t ti Ht) in Hi. destruct (Hm t ti Ht) as (H0 & _ & _).
  destruct (nth_ancestor_total m t ti (Z.to_nat (nHeight ti) - i) Hm Ht ltac:(lia)) as [p Hp].
  destruct (nth_ancestor_height m t ti _ p Hm Ht Hp) as (pi & Hpi & Hh).
  exists p, pi. split_and!; [|done|lia|done]. rewrite (chain_of_lookup m t ti) by (done || lia). by rewrite Hp.
Qed.

Lemma chain_slot_mono m t ti i j p pi q qi : index_ok m -> timemax_ok m -> m !! t = Some ti ->
  (i <= j)%nat -> chain_of m t !! i = Some (Some p) -> m !! p = Some pi ->
  chain_of m t !! j = Some (Some q) -> m !! q = Some qi -> nTimeMax pi <= nTimeMax qi.
Proof.
  intros Hm Htm Ht Hij Hi Hp Hj Hq. pose proof (lookup_lt_Some _ _ _ Hj) as Hlt.
  rewrite (chain_of_length m t ti Ht) in Hlt.
  rewrite (chain_of_lookup m t ti) in Hi, Hj by (done || lia). simplify_eq.
  apply (timemax_ancestor m q qi (j - i) p); try done.
  replace (Z.to_nat (nHeight ti) - i)%nat with ((Z.to_nat (nHeight ti) - j) + (j - i))%nat in Hi by lia.
  by rewrite nth_ancestor_add, Hj in Hi.
Qed.

(** Ancestors of the tip are the entries of the chain at their height. *)
Lemma ancestor_slot m t ti c ci : index_ok m -> m !! t = Some ti -> is_ancestor m c t ->
  m !! c = Some ci -> chain_of m t !! Z.to_nat (nHeight ci) = Some (Some c) /\ 0 <= nHeight ci.
Proof.
  intros Hm Ht [k Hk] Hc. destruct (ancestor_position m t ti c ci k Hm Ht Hk Hc) as [-> Hb].
  split; [|lia]. rewrite (chain_of_lookup m t ti) by (done || lia). f_equal. rewrite <- Hk. f_equal. lia.
Qed.

(** when [nTimeMax] never decreases from parent to child, the bisection of
    [FindEarliestAtLeast] over the active chain terminates without a failure
    and returns the lowest block whose [nTimeMax] reaches the given time, or
    null when no block of the chain does. *)
Theorem FindEarliestAtLeast_earliest m t ti x : index_ok m -> timemax_ok m -> m !! t = Some ti ->
  exists r, FindEarliestAtLeast m (chain_of m t) x = Ok r /\
    match r with
    | None => forall c ci, is_ancestor m c t -> m !! c = Some ci -> nTimeMax ci < x
    | Some q => is_ancestor m q t /\ exists qi, m !! q = Some qi /\ x <= nTimeMax qi /\
        forall c ci, is_ancestor m c t -> m !! c = Some ci -> nHeight ci < nHeight qi -> nTimeMax ci < x
    end.
Proof.
  intros Hm Htm Ht. unfold FindEarliestAtLeast.
  set (f i := match mjoin (chain_of m t !! i) ≫= (fun p => m !! p) with Some pi => nTimeMax pi | None => 0 end).
  destruct (lower_bound_spec (S (length (chain_of m t))) m (chain_of m t) x f 0 (length (chain_of m t)))
    as (r & -> & Hr & Hlo & Hhi); try lia.
  - intros i Hi. destruct (chain_slot m t ti i Hm Ht Hi) as (p & pi & H1 & H2 & _).
    exists p, pi. unfold f. rewrite H1. cbn. by rewrite H2.
  - intros i j Hij. destruct (chain_slot m t ti i Hm Ht ltac:(lia)) as (p & pi & H1 & H2 & _).
    destruct (chain_slot m t ti j Hm Ht ltac:(lia)) as (q & qi & H3 & H4 & _).
    unfold f. rewrite H1, H3. cbn. rewrite H2, H4.
    apply (chain_slot_mono m t ti i j p pi q qi); done || lia.
  - cbn [mbind result_bind]. eexists. split; [done|].
    assert (forall c ci, is_ancestor m c t -> m !! c = Some ci -> f (Z.to_nat (nHeight ci)) = nTimeMax ci) as Hf.
    { intros c ci Hc Hci. unfold f. destruct (ancestor_slot m t ti c ci Hm Ht Hc Hci) as [-> _]. cbn. by rewrite Hci. }
    destruct (Nat.eqb_spec r (length (chain_of m t))) as [->|Hne].
    + intros c ci Hc Hci. rewrite <- (Hf c ci) by done. apply Hlo.
      eapply lookup_lt_Some, (ancestor_slot m t ti); done.
    + destruct (chain_slot m t ti r Hm Ht ltac:(lia)) as (q & qi & H1 & H2 & H3 & H4).
      rewrite H1. cbn. assert (is_ancestor m q t) as Hq by by eexists.
      split; [done|]. exists qi. split_and!; [done| |].
      * rewrite <- (Hf q qi) by done. apply Hhi. lia.
      * intros c ci Hc Hci Hlt. rewrite <- (Hf c ci) by done. apply Hlo.
        destruct (ancestor_slot m t ti c ci Hm Ht Hc Hci). lia.
Qed.

Lemma timemax_ok_map m : Forall (fun x : ptr * CBlockIndex =>
    match pprev x.2 with
    | Some q => match m !! q with Some qi => nTimeMax qi <=? nTimeMax x.2 | None => true end
    | None => true end = true) (map_to_list m) -> timemax_ok m.
Proof.
  rewrite Forall_forall. intros H p idx Hp. specialize (H (p, idx) (proj2 (elem_of_map_to_list _ _ _) Hp)).
  cbn in H. destruct (pprev idx) as [q|]; [|done]. intros qi Hq. rewrite Hq in H. by apply Z.leb_le.
Qed.

Lemma sample_index_timemax : timemax_ok sample_index.
Proof. apply timemax_ok_map. vm_compute. repeat constructor. Qed.

Lemma FindEarliestAtLeast_earliest_witness :
  exists r, FindEarliestAtLeast sample_index (chain_of sample_index [12]) 1200 = Ok r /\ r = Some [4].
Proof.
  destruct (FindEarliestAtLeast_earliest sample_index [12] _ 1200 sample_index_ok sample_index_timemax
    ltac:(vm_compute; reflexivity)) as (r & H & _).
  exists r. split; [exact H|]. revert H. vm_compute. intros [= <-]. reflexivity.
Defined.
