(* ===== verification/Pow.v ===== *)
(** * Proof of work: difficulty retargeting and block work
    (src/src/pow.cpp, GetBlockProof and GetBlockProofEquivalentTime of chain.cpp,
    the difficulty part of consensus/params.h and chainparams.cpp)

    The three retargeting rules walk the block index backwards from the last
    block, so they return a [result]: a null dereference, a division by zero or
    a failed [assert] would be a value of [error].  Targets are limbs
    ([arith_uint256]); [bnNew *= x] with an [int64_t] picks
    [operator*=(uint32_t)], so the factor is reduced modulo [2^32], while
    [bnNew /= x] converts [x] to [uint64_t] and then to [base_uint]. *)

From Stdlib Require Import ZArith Lia.
From stdpp Require Import base tactics numbers option gmap list.
From S2P Require Import Prelude ArithUint256 Compact Block Chain.

(** The fields of [Consensus::Params] difficulty depends on. *)
Record PowParams := mkPowParams {
  powLimit : uint256;
  fPowAllowMinDifficultyBlocks : bool;
  fPowNoRetargeting : bool;
  nPowTargetSpacing : Z;
  nAveragingInterval : Z;
  nAveragingTargetTimespan : Z;
  nAveragingTargetTimespanV2 : Z;
  nMinActualTimespan : Z;
  nMaxActualTimespan : Z;
  nMinActualTimespanV2 : Z;
  nMaxActualTimespanV2 : Z;
  nMinActualTimespanV3 : Z;
  nMaxActualTimespanV3 : Z;
  nLocalTargetAdjustment : Z;
  v2DiffChangeHeight : Z;
  v3DiffChangeHeight : Z;
  AlgoChangeHeight : Z;
  nSwitchHeight : Z
}.

(** [CMainParams]: [uint256S] reads the hexadecimal digits most significant
    first, so [powLimit] is 31 bytes [0xff] and a zero byte. *)
Definition MainPow : PowParams :=
  let nAveragingInterval := 10 in
  let multiAlgoTargetSpacing := 90 * 3 in
  let multiAlgoTargetSpacingV2 := 90 * 4 in
  let timespan := nAveragingInterval * multiAlgoTargetSpacing in
  let timespanV2 := nAveragingInterval * multiAlgoTargetSpacingV2 in
  let nMaxAdjustDown := 16 in
  let nMaxAdjustUp := 8 in
  let nMaxAdjustDownV2 := 12 in
  let nMaxAdjustUpV2 := 10 in
  {| powLimit := replicate 31 0xff ++ [0];
     fPowAllowMinDifficultyBlocks := false;
     fPowNoRetargeting := false;
     nPowTargetSpacing := 60;
     nAveragingInterval := nAveragingInterval;
     nAveragingTargetTimespan := timespan;
     nAveragingTargetTimespanV2 := timespanV2;
     nMinActualTimespan := Z.quot (timespan * (100 - nMaxAdjustUp)) 100;
     nMaxActualTimespan := Z.quot (timespan * (100 + nMaxAdjustDown)) 100;
     nMinActualTimespanV2 := Z.quot (timespan * (100 - nMaxAdjustUpV2)) 100;
     nMaxActualTimespanV2 := Z.quot (timespan * (100 + nMaxAdjustDownV2)) 100;
     nMinActualTimespanV3 := Z.quot (timespanV2 * (100 - nMaxAdjustUpV2)) 100;
     nMaxActualTimespanV3 := Z.quot (timespanV2 * (100 + nMaxAdjustDownV2)) 100;
     nLocalTargetAdjustment := 4;
     v2DiffChangeHeight := 5;
     v3DiffChangeHeight := 10;
     AlgoChangeHeight := 28;
     nSwitchHeight := 150000 |}.

(** ** Walking back *)

(** [for (i = 0; pindexFirst && i < n; i++) pindexFirst = pindexFirst->pprev] *)
Fixpoint go_back (n : nat) (m : BlockMap) (pindex : option ptr) : result (option ptr) :=
  match n, pindex with
  | S n, Some p => idx ← deref (m !! p); go_back n m (pprev idx)
  | _, _ => Ok pindex
  end.

(** The two tests of the loop body of [GetLastBlockIndexForAlgo]. *)
Definition algo_block (m : BlockMap) (params : PowParams) (algo : Z) (idx : CBlockIndex) : result bool :=
  if negb (GetAlgo (nVersion idx) =? algo) then Ok false
  else match fPowAllowMinDifficultyBlocks params, pprev idx with
       | true, Some q =>
           qi ← deref (m !! q);
           Ok (negb (nTime qi + nPowTargetSpacing params * 6 <? nTime idx))
       | _, _ => Ok true
       end.

Fixpoint last_algo_loop (fuel : nat) (m : BlockMap) (params : PowParams) (algo : Z)
    (pindex : option ptr) : result (option ptr) :=
  match pindex with
  | None => Ok None
  | Some p =>
      match fuel with
      | O => Err OutOfFuel
      | S fuel =>
          idx ← deref (m !! p);
          found ← algo_block m params algo idx;
          if (found : bool) then Ok (Some p) else last_algo_loop fuel m params algo (pprev idx)
      end
  end.

(** [GetLastBlockIndexForAlgo]; a block has at most [nHeight] ancestors. *)
Definition GetLastBlockIndexForAlgo (m : BlockMap) (pindex : option ptr) (params : PowParams)
    (algo : Z) : result (option ptr) :=
  match pindex with
  | None => Ok None
  | Some p => idx ← deref (m !! p);
              last_algo_loop (S (Z.to_nat (nHeight idx))) m params algo pindex
  end.

(** ** Retargeting *)

(** [n] times [bnNew *= mul; bnNew /= div] *)
Fixpoint adjust_loop (n : nat) (mul div : Z) (bnNew : base_uint) : result base_uint :=
  match n with
  | O => Ok bnNew
  | S n => bnNew ← op_div (op_mul32 bnNew (u32 mul)) (of_u64 W256 (u64 div));
           adjust_loop n mul div bnNew
  end.

(** "Per-algo retarget": the loop for positive or negative [nAdjustments]. *)
Definition local_retarget (params : PowParams) (nAdjustments : Z) (bnNew : base_uint) :
    result base_uint :=
  if 0 <? nAdjustments
  then adjust_loop (Z.to_nat nAdjustments) 100 (100 + nLocalTargetAdjustment params) bnNew
  else if nAdjustments <? 0
  then adjust_loop (Z.to_nat (- nAdjustments)) (100 + nLocalTargetAdjustment params) 100 bnNew
  else Ok bnNew.

(** "Limit adjustment step": the damped timespan, clamped. *)
Definition limit_timespan (target lo hi actual : Z) : Z :=
  let t := target + Z.quot (actual - target) 4 in
  let t := if t <? lo then lo else t in
  if hi <? t then hi else t.

(** From "Global retarget" to the end of the function. *)
Definition retarget (params : PowParams) (target nActualTimespan nBits nAdjustments : Z) : result Z :=
  let '(bnNew, _, _) := SetCompact nBits in
  bnNew ← op_div (op_mul32 bnNew (u32 nActualTimespan)) (of_u64 W256 (u64 target));
  bnNew ← local_retarget params nAdjustments bnNew;
  let limit := UintToArith256 (powLimit params) in
  GetCompact (if 0 <? CompareTo bnNew limit then limit else bnNew) false.

(** [pindexLast->GetMedianTimePast() - pindexFirst->GetMedianTimePast()] *)
Definition actual_timespan (m : BlockMap) (last first : ptr) : result Z :=
  a ← GetMedianTimePast m last; b ← GetMedianTimePast m first; Ok (a - b).

Definition GetNextWorkRequiredV1 (m : BlockMap) (pindexLast : option ptr) (params : PowParams)
    (algo : Z) : result Z :=
  npowWorkLimit ← GetCompact (UintToArith256 (powLimit params)) false;
  match pindexLast with
  | None => Ok npowWorkLimit
  | Some last =>
      pindexFirst ← go_back (Z.to_nat (NUM_ALGOS * nAveragingInterval params)) m pindexLast;
      pindexPrevAlgo ← GetLastBlockIndexForAlgo m pindexLast params algo;
      match pindexPrevAlgo, pindexFirst, fPowNoRetargeting params with
      | Some prevAlgo, Some first, false =>
          span ← actual_timespan m last first;
          let nActualTimespan := limit_timespan (nAveragingTargetTimespan params)
            (nMinActualTimespan params) (nMaxActualTimespan params) span in
          pi ← deref (m !! prevAlgo);
          li ← deref (m !! last);
          retarget params (nAveragingTargetTimespan params) nActualTimespan (nBits pi)
            (nHeight pi + NUM_ALGOS - 1 - nHeight li)
      | _, _, _ => Ok npowWorkLimit
      end
  end.

Definition GetNextWorkRequiredV2 (m : BlockMap) (pindexLast : option ptr) (params : PowParams)
    (algo : Z) : result Z :=
  npowWorkLimit ← GetCompact (UintToArith256 (powLimit params)) false;
  match pindexLast with
  | None => Ok npowWorkLimit
  | Some last =>
      pindexFirst ← go_back (Z.to_nat (NUM_ALGOSV2 * nAveragingInterval params)) m pindexLast;
      pindexPrevAlgo ← GetLastBlockIndexForAlgo m pindexLast params algo;
      match pindexPrevAlgo, pindexFirst, fPowNoRetargeting params with
      | Some prevAlgo, Some first, false =>
          span ← actual_timespan m last first;
          let nActualTimespan := limit_timespan (nAveragingTargetTimespanV2 params)
            (nMinActualTimespanV2 params) (nMaxActualTimespanV2 params) span in
          pi ← deref (m !! prevAlgo);
          li ← deref (m !! last);
          retarget params (nAveragingTargetTimespanV2 params) nActualTimespan (nBits pi)
            (nHeight pi + NUM_ALGOSV2 - 1 - nHeight li)
      | _, _, _ => Ok npowWorkLimit
      end
  end.

Definition GetNextWorkRequiredV3 (m : BlockMap) (pindexLast : option ptr) (params : PowParams)
    (algo : Z) : result Z :=
  npowWorkLimit ← GetCompact (UintToArith256 (powLimit params)) false;
  match pindexLast with
  | None => Ok npowWorkLimit
  | Some last =>
      li ← deref (m !! last);
      let n := if nHeight li <? AlgoChangeHeight params then NUM_ALGOSV2 * nAveragingInterval params
               else NUM_ALGOSV3 * nAveragingInterval params in
      pindexFirst ← go_back (Z.to_nat n) m pindexLast;
      pindexPrevAlgo ← GetLastBlockIndexForAlgo m pindexLast params algo;
      match pindexPrevAlgo, pindexFirst, fPowNoRetargeting params with
      | Some prevAlgo, Some first, false =>
          span ← actual_timespan m last first;
          let nActualTimespan := limit_timespan (nAveragingTargetTimespanV2 params)
            (nMinActualTimespanV3 params) (nMaxActualTimespanV3 params) span in
          pi ← deref (m !! prevAlgo);
          let nAdjustments :=
            if nHeight li <? AlgoChangeHeight params then nHeight pi + NUM_ALGOSV2 - 1 - nHeight li
            else if nHeight li <? nSwitchHeight params then nHeight pi + NUM_ALGOSV3 - 1 - nHeight li
            else nHeight pi + NUM_ALGOSV4 - 1 - nHeight li in
          retarget params (nAveragingTargetTimespanV2 params) nActualTimespan (nBits pi) nAdjustments
      | _, _, _ => Ok npowWorkLimit
      end
  end.

Definition GetNextWorkRequired (m : BlockMap) (pindexLast : option ptr) (params : PowParams)
    (algo : Z) : result Z :=
  match pindexLast with
  | None => GetNextWorkRequiredV1 m pindexLast params algo
  | Some last =>
      li ← deref (m !! last);
      if nHeight li <? v2DiffChangeHeight params then GetNextWorkRequiredV1 m pindexLast params algo
      else if nHeight li <? v3DiffChangeHeight params then GetNextWorkRequiredV2 m pindexLast params algo
      else GetNextWorkRequiredV3 m pindexLast params algo
  end.

(** ** Checking a hash against its claimed target *)

Definition CheckProofOfWork (hash : uint256) (nBits : Z) (params : PowParams) : bool :=
  let '(bnTarget, fNegative, fOverflow) := SetCompact nBits in
  if fNegative || EqualTo bnTarget 0 || fOverflow
     || (0 <? CompareTo bnTarget (UintToArith256 (powLimit params))) then false
  else if 0 <? CompareTo (UintToArith256 hash) bnTarget then false
  else true.

(** ** Block work *)

(** The number of algorithms [GetBlockProof] averages over. *)
Definition current_algos (params : PowParams) (nHeight : Z) : Z :=
  if nSwitchHeight params <=? nHeight then NUM_ALGOSV4
  else if AlgoChangeHeight params <=? nHeight then NUM_ALGOSV3
  else if v2DiffChangeHeight params <=? nHeight then NUM_ALGOSV2
  else NUM_ALGOS.

(** The loop over the algorithms: [None] is the early [return 0]. *)
Fixpoint proof_loop (n : nat) (i : Z) (m : BlockMap) (params : PowParams) (prev : option ptr)
    (CURRENT_ALGOS : Z) (bnAvgTarget : base_uint) : result (option base_uint) :=
  match n with
  | O => Ok (Some bnAvgTarget)
  | S n =>
      nBits ← GetNextWorkRequired m prev params i;
      let '(bnTarget, fNegative, fOverflow) := SetCompact nBits in
      if fNegative || fOverflow || EqualTo bnTarget 0 then Ok None
      else root ← ApproxNthRoot bnTarget CURRENT_ALGOS;
           proof_loop n (i + 1) m params prev CURRENT_ALGOS (op_mul bnAvgTarget root)
  end.

Definition GetBlockProof (m : BlockMap) (params : PowParams) (block : CBlockIndex) : result base_uint :=
  let CURRENT_ALGOS := current_algos params (nHeight block) in
  avg ← proof_loop (Z.to_nat CURRENT_ALGOS) 0 m params (pprev block) CURRENT_ALGOS (of_u64 W256 1);
  match avg with
  | None => Ok (of_u64 W256 0)
  | Some bnAvgTarget =>
      q ← op_div (op_not bnAvgTarget) (op_add bnAvgTarget (of_u64 W256 1));
      Ok (op_shl (op_add q (of_u64 W256 1)) 7)
  end.

Definition GetBlockProofEquivalentTime (m : BlockMap) (params : PowParams)
    (to from tip : CBlockIndex) : result Z :=
  let '(r, sign) :=
    if 0 <? CompareTo (nChainWork to) (nChainWork from)
    then (op_sub (nChainWork to) (nChainWork from), 1)
    else (op_sub (nChainWork from) (nChainWork to), -1) in
  proof ← GetBlockProof m params tip;
  r ← op_div (op_mul r (of_u64 W256 (u64 (nPowTargetSpacing params)))) proof;
  Ok (if 63 <? bits r then sign * INT64_MAX else i64 (u64 (sign * GetLow64 r))).

(** ** Well-formed parameters and index *)

Definition limit_val (params : PowParams) : Z := val (UintToArith256 (powLimit params)).

Record pow_params_ok (params : PowParams) : Prop := {
  pok_limit : uint256_ok (powLimit params);
  pok_timespan : 0 < nAveragingTargetTimespan params < 2 ^ 63;
  pok_timespanV2 : 0 < nAveragingTargetTimespanV2 params < 2 ^ 63;
  pok_local : 0 < 100 + nLocalTargetAdjustment params < 2 ^ 32
}.

(** The [nBits] fields of the index are 32-bit words. *)
Definition nbits_ok (m : BlockMap) : Prop := forall p idx, m !! p = Some idx -> is_u32 (nBits idx).

Lemma limit_wf params : pow_params_ok params -> wf W256 (UintToArith256 (powLimit params)).
Proof. intros [[Hl Hb] _ _ _]. by apply (ArithToUint256_UintToArith256 W256). Qed.

(** ** Walks *)

Lemma go_back_spec n m p idx : index_ok m -> m !! p = Some idx ->
  go_back n m (Some p) = Ok (nth_ancestor m p n).
Proof.
  intros Hm. revert p idx. induction n as [|n IH]; intros p idx Hp; cbn [go_back nth_ancestor]; [done|].
  rewrite Hp. cbn [deref mbind result_bind option_bind]. destruct (Hm p idx Hp) as (_ & Hl & _).
  unfold link_ok in Hl. destruct (pprev idx) as [q|]; [|by destruct n].
  destruct Hl as (qi & Hq & _). by apply (IH q qi).
Qed.

Lemma algo_block_total m params algo p idx : index_ok m -> m !! p = Some idx ->
  exists b, algo_block m params algo idx = Ok b.
Proof.
  intros Hm Hp. destruct (Hm p idx Hp) as (_ & Hl & _). unfold algo_block, link_ok in *.
  destruct (negb _); [by eexists|]. destruct (fPowAllowMinDifficultyBlocks params); [|by eexists].
  destruct (pprev idx) as [q|]; [|by eexists]. destruct Hl as (qi & -> & _). by eexists.
Qed.

(** [r] is the first block from [p] backwards that satisfies [algo_block]. *)
Definition nearest_algo_block (m : BlockMap) (params : PowParams) (algo : Z) (p : ptr) (r : option ptr) : Prop :=
  match r with
  | Some q => exists k qi, nth_ancestor m p k = Some q /\ m !! q = Some qi /\
      algo_block m params algo qi = Ok true /\
      forall j c ci, (j < k)%nat -> nth_ancestor m p j = Some c -> m !! c = Some ci ->
        algo_block m params algo ci = Ok false
  | None => forall c ci, is_ancestor m c p -> m !! c = Some ci -> algo_block m params algo ci = Ok false
  end.

Lemma last_algo_loop_spec fuel m params algo p idx : index_ok m -> m !! p = Some idx ->
  (Z.to_nat (nHeight idx) < fuel)%nat ->
  exists r, last_algo_loop fuel m params algo (Some p) = Ok r /\ nearest_algo_block m params algo p r.
Proof.
  intros Hm. revert p idx. induction fuel as [|fuel IH]; intros p idx Hp Hf; [lia|].
  cbn [last_algo_loop]. rewrite Hp. cbn [deref mbind result_bind].
  destruct (algo_block_total m params algo p idx Hm Hp) as [[] E]; rewrite E; cbn [mbind result_bind].
  { eexists. split; [done|]. exists 0%nat, idx. split_and!; [done..|]. intros; lia. }
  assert (forall c ci, nth_ancestor m p 0 = Some c -> m !! c = Some ci ->
    algo_block m params algo ci = Ok false) as H0 by (intros c ci [= <-] ?; congruence).
  destruct (Hm p idx Hp) as (H0' & Hl & _). unfold link_ok in Hl. destruct (pprev idx) as [q|] eqn:Hq.
  - destruct Hl as (qi & Hqi & Hh). destruct (Hm q qi Hqi) as (Hq0 & _ & _).
    destruct (IH q qi Hqi ltac:(lia)) as (r & -> & Hr). eexists. split; [done|].
    assert (forall k, nth_ancestor m p (S k) = nth_ancestor m q k) as Hs
      by (intros k; cbn [nth_ancestor]; by rewrite Hp; cbn; rewrite Hq).
    destruct r as [x|]; cbn [nearest_algo_block] in *.
    + destruct Hr as (k & xi & Hk & Hx & Ha & Hj). exists (S k), xi. rewrite Hs. split_and!; [done..|].
      intros [|j] c ci Hlt Hc Hci; [by apply (H0 c)|]. rewrite Hs in Hc. apply (Hj j c); done || lia.
    + intros c ci [[|k] Hk] Hci; [by apply (H0 c)|]. rewrite Hs in Hk. apply (Hr c); [by exists k|done].
  - destruct fuel; cbn [last_algo_loop]; (eexists; split; [done|]); intros c ci [[|k] Hk] Hci;
      try (by apply (H0 c)); cbn [nth_ancestor] in Hk; rewrite Hp in Hk; cbn in Hk; by rewrite Hq in Hk.
Qed.

Lemma GetLastBlockIndexForAlgo_spec m params algo p idx : index_ok m -> m !! p = Some idx ->
  exists r, GetLastBlockIndexForAlgo m (Some p) params algo = Ok r /\ nearest_algo_block m params algo p r.
Proof.
  intros Hm Hp. unfold GetLastBlockIndexForAlgo. rewrite Hp. cbn [deref mbind result_bind].
  apply (last_algo_loop_spec _ _ _ _ _ idx); done || lia.
Qed.

Lemma nearest_algo_block_in m params algo p idx q : index_ok m -> m !! p = Some idx ->
  nearest_algo_block m params algo p (Some q) -> exists qi, m !! q = Some qi.
Proof. intros Hm Hp (k & qi & _ & Hq & _). by exists qi. Qed.

(** ** The retargeting arithmetic *)

(** The same loops on integers, with the 256-bit wrap-around of [operator*=]. *)
Fixpoint adjust_value (n : nat) (mul div v : Z) : Z :=
  match n with
  | O => v
  | S n => adjust_value n mul div ((v * mul) mod 2 ^ 256 / div)
  end.

Definition local_value (params : PowParams) (nAdjustments v : Z) : Z :=
  adjust_value (Z.to_nat (Z.abs nAdjustments))
    (if 0 <? nAdjustments then 100 else 100 + nLocalTargetAdjustment params)
    (if 0 <? nAdjustments then 100 + nLocalTargetAdjustment params else 100) v.

Definition retarget_value (params : PowParams) (target span nBits nAdjustments : Z) : Z :=
  Z.min (limit_val params)
    (local_value params nAdjustments
       ((compact_target nBits mod 2 ^ 256 * u32 span) mod 2 ^ 256 / target)).

Lemma mul_div_step a mul div : wf W256 a -> is_u32 mul -> 0 < div < 2 ^ 64 ->
  exists q, op_div (op_mul32 a mul) (of_u64 W256 (u64 div)) = Ok q /\ wf W256 q /\
    val q = (val a * mul) mod 2 ^ 256 / div.
Proof.
  intros Ha Hm Hd. rewrite u64_small by lia.
  pose proof (of_u64_val W256 div ltac:(unfold is_u64; lia)) as Hv.
  destruct (op_div_spec W256 (op_mul32 a mul) (of_u64 W256 div)) as (q & E & Hw & Hq);
    [by apply op_mul32_wf|apply of_u64_wf256|lia|].
  exists q. split; [done|]. split; [done|]. rewrite Hq, Hv, (op_mul32_val W256) by done. done.
Qed.

Lemma adjust_loop_spec n mul div a : wf W256 a -> 0 <= mul < 2 ^ 32 -> 0 < div < 2 ^ 64 ->
  exists q, adjust_loop n mul div a = Ok q /\ wf W256 q /\ val q = adjust_value n mul div (val a).
Proof.
  intros Ha Hm Hd. revert a Ha. induction n as [|n IH]; intros a Ha; cbn [adjust_loop adjust_value].
  { by exists a. }
  rewrite u32_small by done. destruct (mul_div_step a mul div Ha Hm Hd) as (q & -> & Hq & Hv).
  cbn [mbind result_bind]. rewrite <- Hv. by apply IH.
Qed.

Lemma local_retarget_spec params k a : pow_params_ok params -> wf W256 a ->
  exists q, local_retarget params k a = Ok q /\ wf W256 q /\ val q = local_value params k (val a).
Proof.
  intros [_ _ _ Hl] Ha. unfold local_retarget, local_value. destruct (Z.ltb_spec 0 k).
  { rewrite Z.abs_eq by lia. apply adjust_loop_spec; done || lia. }
  destruct (Z.ltb_spec k 0).
  { rewrite Z.abs_neq by lia. apply adjust_loop_spec; done || lia. }
  assert (k = 0) as -> by lia. by exists a.
Qed.

Lemma cap_spec a b : wf W256 a -> wf W256 b ->
  wf W256 (if 0 <? CompareTo a b then b else a) /\
  val (if 0 <? CompareTo a b then b else a) = Z.min (val b) (val a).
Proof.
  intros Ha Hb. rewrite (CompareTo_spec W256) by done.
  destruct (Z.compare_spec (val a) (val b)); cbn; split; try done; lia.
Qed.

Lemma SetCompact_wf c : is_u32 c -> wf W256 (SetCompact c).1.1 /\
  val (SetCompact c).1.1 = compact_target c mod 2 ^ 256.
Proof.
  intros Hc. pose proof (SetCompact_spec c Hc) as H. destruct (SetCompact c) as [[v neg] ovf].
  by destruct H as (? & ? & _).
Qed.

Lemma retarget_spec params target span nBits k : pow_params_ok params -> is_u32 nBits ->
  0 < target < 2 ^ 64 ->
  0 <= retarget_value params target span nBits k <= limit_val params /\
  retarget params target span nBits k = Ok (compact_code (retarget_value params target span nBits k)).
Proof.
  intros Hp Hb Ht. unfold retarget, retarget_value. destruct (SetCompact_wf nBits Hb) as [Hw Hv].
  destruct (SetCompact nBits) as [[bn neg] ovf]. cbn [fst] in *. rewrite <- Hv.
  destruct (mul_div_step bn (u32 span) target Hw (u32_range span) Ht) as (q & -> & Hq & <-).
  cbn [mbind result_bind].
  destruct (local_retarget_spec params k q Hp Hq) as (r & -> & Hr & <-). cbn [mbind result_bind].
  destruct (cap_spec r (UintToArith256 (powLimit params)) Hr (limit_wf params Hp)) as [Hc Hcv].
  unfold limit_val. rewrite <- Hcv. split; [|by apply GetCompact_spec].
  pose proof (val_bound _ _ Hc). rewrite Hcv in *. lia.
Qed.

(** ** The next required target *)

(** What every retargeting rule returns: the compact form of a target between
    zero and the limit. *)
Definition bounded_work (params : PowParams) (r : result Z) : Prop :=
  exists v, r = Ok (compact_code v) /\ 0 <= v <= limit_val params.

Lemma limit_bounded params : pow_params_ok params ->
  GetCompact (UintToArith256 (powLimit params)) false = Ok (compact_code (limit_val params)) /\
  0 <= limit_val params < 2 ^ 256.
Proof.
  intros Hp. pose proof (limit_wf params Hp) as Hw. split; [by apply GetCompact_spec|].
  by apply (val_bound W256).
Qed.

Lemma GetMedianTimePast_total m p idx : index_ok m -> m !! p = Some idx ->
  exists t, GetMedianTimePast m p = Ok t.
Proof.
  intros Hm Hp. unfold GetMedianTimePast.
  destruct (past_times_total m nMedianTimeSpan p idx Hm Hp) as (l & -> & _). by eexists.
Qed.

Lemma actual_timespan_total m p pi q qi : index_ok m -> m !! p = Some pi -> m !! q = Some qi ->
  exists t, actual_timespan m p q = Ok t.
Proof.
  intros Hm Hp Hq. unfold actual_timespan.
  destruct (GetMedianTimePast_total m p pi Hm Hp) as [a ->].
  destruct (GetMedianTimePast_total m q qi Hm Hq) as [b ->]. by eexists.
Qed.

Section NextWork.
Context (m : BlockMap) (params : PowParams) (last : ptr) (li : CBlockIndex).
Hypothesis Hm : index_ok m.
Hypothesis Hbits : nbits_ok m.
Hypothesis Hparams : pow_params_ok params.
Hypothesis Hlast : m !! last = Some li.

(** The part the three rules share, with [k] the number of blocks to walk
    back. *)
Lemma averaging_rule_bounded algo k target lo hi adj : 0 < target < 2 ^ 63 ->
  bounded_work params (
    npowWorkLimit ← GetCompact (UintToArith256 (powLimit params)) false;
    pindexFirst ← go_back k m (Some last);
    pindexPrevAlgo ← GetLastBlockIndexForAlgo m (Some last) params algo;
    match pindexPrevAlgo, pindexFirst, fPowNoRetargeting params with
    | Some prevAlgo, Some first, false =>
        span ← actual_timespan m last first;
        pi ← deref (m !! prevAlgo);
        retarget params target (limit_timespan target lo hi span) (nBits pi) (adj pi)
    | _, _, _ => Ok npowWorkLimit
    end).
Proof using Hbits Hlast Hm Hparams.
  intros Ht. destruct (limit_bounded params Hparams) as [-> Hlim]. cbn [mbind result_bind].
  assert (bounded_work params (Ok (compact_code (limit_val params)))) as Hdef
    by (exists (limit_val params); split; [done|lia]).
  rewrite (go_back_spec k m last li) by done. cbn [mbind result_bind].
  destruct (GetLastBlockIndexForAlgo_spec m params algo last li Hm Hlast) as (r & -> & Hr).
  cbn [mbind result_bind]. destruct r as [q|]; [|done].
  destruct (nth_ancestor m last k) as [first|] eqn:Hf; [|done].
  destruct (fPowNoRetargeting params); [done|].
  destruct (nth_ancestor_height m last li k first Hm Hlast Hf) as (fi & Hfi & _).
  destruct (actual_timespan_total m last li first fi Hm Hlast Hfi) as [t ->]. cbn [mbind result_bind].
  destruct (nearest_algo_block_in _ _ _ _ _ _ Hm Hlast Hr) as [qi Hq].
  rewrite Hq. cbn [deref mbind result_bind].
  destruct (retarget_spec params target (limit_timespan target lo hi t) (nBits qi) (adj qi))
    as [H1 H2]; [done|by apply (Hbits q)|lia|]. by eexists.
Qed.

Lemma GetNextWorkRequired_some algo : bounded_work params (GetNextWorkRequired m (Some last) params algo).
Proof using Hbits Hlast Hm Hparams.
  unfold GetNextWorkRequired. rewrite Hlast. cbn [deref mbind result_bind].
  destruct (nHeight li <? v2DiffChangeHeight params);
    [|destruct (nHeight li <? v3DiffChangeHeight params)].
  - unfold GetNextWorkRequiredV1. rewrite Hlast. cbn [deref mbind result_bind].
    apply (averaging_rule_bounded algo _ _ _ _ (fun pi => nHeight pi + NUM_ALGOS - 1 - nHeight li)).
    apply Hparams.
  - unfold GetNextWorkRequiredV2. rewrite Hlast. cbn [deref mbind result_bind].
    apply (averaging_rule_bounded algo _ _ _ _ (fun pi => nHeight pi + NUM_ALGOSV2 - 1 - nHeight li)).
    apply Hparams.
  - unfold GetNextWorkRequiredV3. rewrite Hlast. cbn [deref mbind result_bind].
    apply (averaging_rule_bounded algo _ _ _ _ (fun pi =>
      if nHeight li <? AlgoChangeHeight params then nHeight pi + NUM_ALGOSV2 - 1 - nHeight li
      else if nHeight li <? nSwitchHeight params then nHeight pi + NUM_ALGOSV3 - 1 - nHeight li
      else nHeight pi + NUM_ALGOSV4 - 1 - nHeight li)).
    apply Hparams.
Qed.
End NextWork.

Lemma GetNextWorkRequired_bounded m params prev algo : index_ok m -> nbits_ok m -> pow_params_ok params ->
  (forall p, prev = Some p -> is_Some (m !! p)) ->
  bounded_work params (GetNextWorkRequired m prev params algo).
Proof.
  intros Hm Hb Hp Hprev. destruct prev as [p|].
  - destruct (Hprev p eq_refl) as [li Hli]. by apply (GetNextWorkRequired_some m params p li).
  - unfold GetNextWorkRequired, GetNextWorkRequiredV1.
    destruct (limit_bounded params Hp) as [-> Hlim]. exists (limit_val params). split; [done|lia].
Qed.

(** ** Checking a hash *)

Definition hash_val (h : uint256) : Z := val (UintToArith256 h).

Lemma CheckProofOfWork_spec hash nBits params : uint256_ok hash -> is_u32 nBits ->
  pow_params_ok params ->
  CheckProofOfWork hash nBits params = true <->
  Z.testbit nBits 23 = false /\ 0 < compact_target nBits <= limit_val params /\
  hash_val hash <= compact_target nBits.
Proof.
  intros [Hl Hh] Hb Hp. unfold CheckProofOfWork, hash_val, limit_val.
  pose proof (SetCompact_spec nBits Hb) as Hs. destruct (SetCompact nBits) as [[t neg] ovf].
  destruct Hs as (Hw & Hv & -> & ->). destruct (limit_bounded params Hp) as [_ Hlim].
  pose proof (limit_wf params Hp) as Hlw. unfold limit_val in Hlim.
  destruct (ArithToUint256_UintToArith256 W256 hash Hl Hh) as [Hhw _].
  rewrite !(CompareTo_spec W256), (EqualTo_spec W256) by (done || (unfold W256, is_u64; lia)).
  assert (0 <= compact_target nBits) as H0.
  { unfold compact_target. destruct (compact_word_split nBits Hb).
    case_test; [apply Z.div_pos; [lia|apply Z.pow_pos_nonneg; lia]|apply Z.mul_nonneg_nonneg; [lia|apply Z.pow_nonneg; lia]]. }
  destruct (Z.leb_spec (2 ^ 256) (compact_target nBits)).
  { rewrite !orb_true_r. cbn [orb]. split; [done|lia]. }
  rewrite Z.mod_small in Hv by lia. rewrite Hv, orb_false_r.
  destruct (Z.eqb_spec (compact_target nBits) 0) as [->|]; cbn [negb andb orb]; [split; [done|lia]|].
  destruct (Z.testbit nBits 23); cbn [orb]; [split; [done|intros [? _]; done]|].
  destruct (Z.compare_spec (compact_target nBits) (val (UintToArith256 (powLimit params))));
  destruct (Z.compare_spec (val (UintToArith256 hash)) (compact_target nBits)); cbn;
    (split; [intros; split_and!; first [done|lia]|intros (_ & ? & ?); first [done|exfalso; lia]]).
Qed.

(** ** Block work *)

(** A decoded target that is not rejected: positive and at most the limit. *)
Lemma compact_code_target params v : pow_params_ok params -> 0 <= v <= limit_val params ->
  exists t, SetCompact (compact_code v) = (t, false, false) /\ wf W256 t /\ val t <= limit_val params.
Proof.
  intros Hp Hv. destruct (limit_bounded params Hp) as [_ Hlim].
  destruct (SetCompact_code v ltac:(lia)) as (_ & t & E & Hw & Ht). exists t. split_and!; [done..|].
  pose proof (compact_round_bounds v ltac:(lia)). lia.
Qed.

(** Products of [n]-th roots stay below the limit. *)
Lemma root_product_bound L n j x r : 0 <= L -> 0 <= j -> 0 < n -> 0 <= x -> 0 <= r ->
  x ^ n <= L ^ j -> r ^ n <= L -> (x * r) ^ n <= L ^ (j + 1).
Proof.
  intros. rewrite Z.pow_mul_l, Z.pow_add_r, Z.pow_1_r by lia.
  apply Z.mul_le_mono_nonneg; try done; apply Z.pow_nonneg; lia.
Qed.

Lemma pow_le_base x n L j : 0 < n -> 0 <= j <= n -> 0 <= x -> 1 <= L -> x ^ n <= L ^ j -> x <= L.
Proof.
  intros. destruct (Z.le_gt_cases x L); [done|].
  assert (L ^ n < x ^ n) by (apply Z.pow_lt_mono_l; lia).
  assert (L ^ j <= L ^ n) by (apply Z.pow_le_mono_r; lia). lia.
Qed.

(** The root of a positive number is positive: the shift never drops it all. *)
Lemma root_nonzero t n r : wf W256 t -> 0 < val t -> 2 <= n < 64 ->
  val t < (val r + 2 ^ root_shifts (bits t) n) ^ n -> val r = 0 -> False.
Proof.
  intros Ht Hpos Hn Hhi E. rewrite E, Z.add_0_l in Hhi.
  pose proof (bits_spec W256 t Ht) as Hb. destruct (Z.eqb_spec (val t) 0); [lia|].
  pose proof (Z.log2_nonneg (val t)). pose proof (Z.log2_spec (val t) Hpos).
  destruct (root_shifts_bound (bits t) n ltac:(lia) Hn) as (Hs0 & _ & [Hs|[Hs _]]).
  { rewrite Hs in Hhi. change (2 ^ 0) with 1 in Hhi. rewrite Z.pow_1_l in Hhi; lia. }
  rewrite <- Z.pow_mul_r in Hhi by lia.
  assert (1 <= 64 / n) by (apply Z.div_le_lower_bound; lia).
  assert (n * ((bits t - 1) / n) <= bits t - 1) by (apply Z.mul_div_le; lia).
  assert (2 ^ (root_shifts (bits t) n * n) <= 2 ^ Z.log2 (val t)) by (apply Z.pow_le_mono_r; nia).
  lia.
Qed.

Section Work.
Context (m : BlockMap) (params : PowParams) (prev : option ptr) (n : Z).
Hypothesis Hm : index_ok m.
Hypothesis Hbits : nbits_ok m.
Hypothesis Hparams : pow_params_ok params.
Hypothesis Hprev : forall p, prev = Some p -> is_Some (m !! p).
Hypothesis Hlimit : 1 <= limit_val params.
Hypothesis Hn : 2 <= n < 64.

Lemma proof_loop_spec k i a : wf W256 a -> 0 <= i -> i + Z.of_nat k = n ->
  1 <= val a -> val a ^ n <= limit_val params ^ i ->
  exists r, proof_loop k i m params prev n a = Ok r /\
    forall b, r = Some b -> wf W256 b /\ 1 <= val b <= limit_val params.
Proof using All.
  revert i a. induction k as [|k IH]; intros i a Ha Hi Hk H1 Hpow; cbn [proof_loop].
  { eexists. split; [done|]. intros b [= <-]. split; [done|]. split; [done|].
    apply (pow_le_base _ n _ i); lia. }
  destruct (GetNextWorkRequired_bounded m params prev i Hm Hbits Hparams Hprev) as (v & -> & Hv).
  cbn [mbind result_bind]. destruct (compact_code_target params v Hparams Hv) as (t & -> & Ht & Htl).
  cbn [orb]. rewrite (EqualTo_spec W256) by (done || (unfold W256, is_u64; lia)).
  destruct (Z.eqb_spec (val t) 0) as [|Hnz]; [by eexists|].
  pose proof (val_bound _ _ Ht).
  destruct (ApproxNthRoot_spec W256 t n Ht ltac:(unfold W256; lia) Hn) as (r & -> & Hr & Hlo & Hhi).
  cbn [mbind result_bind]. pose proof (val_bound _ _ Hr). destruct (limit_bounded params Hparams) as [_ Hlim].
  assert (1 <= val r) as Hr1.
  { destruct (Z.eq_dec (val r) 0) as [E|]; [|lia]. exfalso.
    exact (root_nonzero t n r Ht ltac:(lia) Hn Hhi E). }
  assert (val a * val r <= limit_val params) as Hprod.
  { apply (pow_le_base _ n _ (i + 1)); [lia..|nia|lia|]. apply root_product_bound; lia. }
  apply IH; [by apply op_mul_wf|lia|lia|..];
    rewrite (op_mul_val W256) by done; rewrite Z.mod_small by (change (32 * Z.of_nat W256) with 256; nia).
  - nia.
  - apply root_product_bound; lia.
Qed.
End Work.

Lemma current_algos_range params h : 3 <= current_algos params h <= 6.
Proof. unfold current_algos, NUM_ALGOS, NUM_ALGOSV2, NUM_ALGOSV3, NUM_ALGOSV4. repeat case_test; lia. Qed.

(** The work of a block over the (approximate) mean target [p]: the integer part
    of [2^256 / (p + 1)], scaled. *)
Definition work_of (p : Z) : Z := (2 ^ 256 / (p + 1) * 2 ^ 7) mod 2 ^ 256.

Lemma work_of_arith p : 1 <= p < 2 ^ 256 - 1 -> (2 ^ 256 - 1 - p) / (p + 1) + 1 = 2 ^ 256 / (p + 1).
Proof.
  intros Hp. rewrite <- (Z.div_add (2 ^ 256 - 1 - p) 1 (p + 1)) by lia. f_equal. lia.
Qed.

Lemma div_p1_bounds p : 1 <= p < 2 ^ 256 - 1 -> 1 <= 2 ^ 256 / (p + 1) < 2 ^ 256.
Proof.
  intros Hp. split; [apply Z.div_le_lower_bound; lia|apply Z.div_lt_upper_bound; lia].
Qed.

Lemma GetBlockProof_spec m params block : index_ok m -> nbits_ok m -> pow_params_ok params ->
  1 <= limit_val params < 2 ^ 256 - 1 ->
  (forall p, pprev block = Some p -> is_Some (m !! p)) ->
  exists w, GetBlockProof m params block = Ok w /\ wf W256 w /\
    (val w = 0 \/ exists p, 1 <= p <= limit_val params /\ val w = work_of p).
Proof.
  intros Hm Hb Hp Hlim Hprev. unfold GetBlockProof.
  pose proof (current_algos_range params (nHeight block)) as Hn.
  assert (val (of_u64 W256 1) = 1) as H1 by (apply of_u64_val; unfold is_u64; lia).
  destruct (proof_loop_spec m params (pprev block) (current_algos params (nHeight block))
    Hm Hb Hp Hprev ltac:(lia) ltac:(lia) (Z.to_nat (current_algos params (nHeight block))) 0 (of_u64 W256 1))
    as (r & -> & Hr); [apply of_u64_wf256|lia|lia|lia|rewrite H1, Z.pow_1_l, Z.pow_0_r by lia; lia|].
  cbn [mbind result_bind]. destruct r as [a|].
  2:{ eexists. split_and!; [done|apply of_u64_wf256|]. left. apply of_u64_val. unfold is_u64. lia. }
  destruct (Hr a eq_refl) as [Ha Hal]. destruct (op_not_spec W256 a Ha) as [Hnw Hnv].
  assert (val (op_add a (of_u64 W256 1)) = val a + 1) as Hav.
  { rewrite (op_add_val W256) by (done || apply of_u64_wf256). rewrite H1. apply Z.mod_small.
    change (32 * Z.of_nat W256) with 256. lia. }
  destruct (op_div_spec W256 (op_not a) (op_add a (of_u64 W256 1))) as (q & -> & Hq & Hqv);
    [done|apply op_add_wf; [done|apply of_u64_wf256]|lia|].
  cbn [mbind result_bind]. rewrite Hnv, Hav in Hqv. change (32 * Z.of_nat W256) with 256 in Hqv.
  pose proof (work_of_arith (val a) ltac:(lia)) as Hw. pose proof (div_p1_bounds (val a) ltac:(lia)).
  assert (wf W256 (op_add q (of_u64 W256 1))) as Hqw by (apply op_add_wf; [done|apply of_u64_wf256]).
  eexists. split; [done|]. split; [apply op_shl_wf; [done|lia]|]. right. exists (val a). split; [lia|].
  rewrite (op_shl_val W256), (op_add_val W256), H1, Hqv, Hw by (done || lia || apply of_u64_wf256).
  unfold work_of. change (32 * Z.of_nat W256) with 256. rewrite (Z.mod_small (2 ^ 256 / _)) by lia. done.
Qed.

Lemma i64_sign s q : s = 1 \/ s = -1 -> 0 <= q < 2 ^ 63 -> i64 (u64 (s * q)) = s * q.
Proof.
  intros Hs Hq. unfold i64, swrap, u64. change (64 - 1) with 63. rewrite Zplus_mod_idemp_l.
  rewrite Z.mod_small by lia. lia.
Qed.

Lemma saturate q s d : wf W256 q -> s = 1 \/ s = -1 -> s = Z.sgn d \/ d = 0 ->
  (d = 0 -> val q = 0) ->
  (if 63 <? bits q then s * INT64_MAX else i64 (u64 (s * GetLow64 q))) =
  Z.sgn d * Z.min INT64_MAX (val q).
Proof.
  intros Hq Hs Hd Hz. pose proof (val_bound _ _ Hq) as Hb. pose proof (bits_pow_bound _ _ Hq) as [_ Hp].
  pose proof (bits_spec _ _ Hq) as Hbits. unfold INT64_MAX.
  destruct (Z.ltb_spec 63 (bits q)) as [Hlt|Hge].
  - destruct (Z.eqb_spec (val q) 0); [lia|].
    assert (2 ^ 63 <= val q) by (etransitivity; [|apply Z.log2_spec; lia]; apply Z.pow_le_mono_r; lia).
    rewrite Z.min_l by lia. destruct Hd as [->|?]; lia.
  - assert (val q < 2 ^ 63) by (eapply Z.lt_le_trans; [exact Hp|]; apply Z.pow_le_mono_r; lia).
    rewrite (GetLow64_val W256), Z.mod_small by (done || (unfold W256; lia)).
    rewrite i64_sign by (done || lia). rewrite Z.min_r by lia.
    destruct Hd as [->|?]; [done|]. rewrite Hz by done. lia.
Qed.

Lemma op_sub_val_ge a b : wf W256 a -> wf W256 b -> val b <= val a ->
  wf W256 (op_sub a b) /\ val (op_sub a b) = val a - val b.
Proof.
  intros Ha Hb Hle. split; [by apply op_sub_wf|]. rewrite (op_sub_val W256) by done. apply Z.mod_small. pose proof (val_bound _ _ Ha). pose proof (val_bound _ _ Hb). lia.
Qed.

(** ** Concrete indexes *)

(** A chain of [n + 1] blocks at the difficulty limit, one every 72 seconds, so
    that 50 blocks take exactly [nAveragingTargetTimespanV2]. *)
Definition steady_block (prev : option ptr) (h : Z) : CBlockIndex :=
  mkIndex prev None h 0 0 0 (of_u64 8 0) 0 0 BLOCK_VALID_TREE 4 uint256_null (1618800784 + 72 * h)
    0x2000ffff 0 0 (1618800784 + 72 * h).

Definition steady_chain (n : nat) : BlockMap := grow_chain steady_block n.

Lemma steady_chain_ok n : index_ok (steady_chain n).
Proof. by apply grow_chain_ok. Qed.

Lemma nbits_ok_list m : forallb (fun x : ptr * CBlockIndex =>
    (0 <=? nBits x.2) && (nBits x.2 <? 2 ^ 32)) (map_to_list m) = true -> nbits_ok m.
Proof.
  rewrite forallb_forall. intros H p idx Hp.
  specialize (H (p, idx) (proj1 (list_elem_of_In _ _) (proj2 (elem_of_map_to_list _ _ _) Hp))).
  cbn in H. unfold is_u32. blia.
Qed.

Lemma sample_index_nbits : nbits_ok sample_index.
Proof. apply nbits_ok_list. vm_compute. reflexivity. Qed.

Lemma MainPow_ok : pow_params_ok MainPow.
Proof.
  split; [split; [done|]|vm_compute; done..]. 
  cbn. repeat constructor; unfold is_byte; lia.
Qed.

(** ** Properties *)

(** C25: [GetNextWorkRequired] never fails on a well-formed index: it returns a
    compact target that decodes without the negative or overflow flag to a
    value of at most [powLimit], whichever of the three rules applies. *)
Theorem next_work_bounded m params last li algo :
  index_ok m -> nbits_ok m -> pow_params_ok params -> m !! last = Some li ->
  exists c t, GetNextWorkRequired m (Some last) params algo = Ok c /\ is_u32 c /\
    SetCompact c = (t, false, false) /\ wf W256 t /\ val t <= limit_val params.
Proof.
  intros Hm Hb Hp Hl.
  destruct (GetNextWorkRequired_some m params last li Hm Hb Hp Hl algo) as (v & E & Hv).
  destruct (compact_code_target params v Hp Hv) as (t & Et & Hw & Ht).
  destruct (limit_bounded params Hp) as [_ Hlim].
  exists (compact_code v), t. split_and!; try done; apply (SetCompact_code v); lia.
Qed.

Lemma next_work_bounded_witness :
  exists c t, GetNextWorkRequired sample_index (Some [12]) MainPow ALGO_SHA256D = Ok c /\
    SetCompact c = (t, false, false) /\ val t <= limit_val MainPow.
Proof.
  destruct (next_work_bounded sample_index MainPow [12] _ ALGO_SHA256D sample_index_ok sample_index_nbits
    MainPow_ok ltac:(vm_compute; reflexivity)) as (c & t & H1 & _ & H2 & _ & H3).
  exists c, t. exact (conj H1 (conj H2 H3)).
Defined.

(** The limb arithmetic of the retargeting step computes, in 256-bit
    wrap-around arithmetic, the previous target times the timespan over the
    averaging timespan, then the per-algorithm adjustment once per missing or
    surplus block, capped by [powLimit]; when the product stays below [2^256]
    and the algorithm is on schedule, that is exactly the rounded proportion. *)
Theorem retarget_exact params target span nBits k : pow_params_ok params -> is_u32 nBits ->
  0 < target < 2 ^ 64 ->
  retarget params target span nBits k = Ok (compact_code (retarget_value params target span nBits k)) /\
  (0 <= span < 2 ^ 32 -> 0 <= compact_target nBits -> compact_target nBits < 2 ^ 256 ->
   compact_target nBits * span < 2 ^ 256 -> k = 0 ->
   retarget_value params target span nBits k =
   Z.min (limit_val params) (compact_target nBits * span / target)).
Proof.
  intros Hp Hb Ht. split; [by apply retarget_spec|]. intros Hs H0 H1 H2 ->. unfold retarget_value.
  rewrite u32_small, (Z.mod_small (compact_target nBits)), Z.mod_small by nia. done.
Qed.

Lemma retarget_exact_witness :
  retarget MainPow 3600 4032 0x1d00ffff 0 = Ok (compact_code (0xffff * 2 ^ 208 * 4032 / 3600)).
Proof.
  destruct (retarget_exact MainPow 3600 4032 0x1d00ffff 0 MainPow_ok ltac:(unfold is_u32; lia) ltac:(lia))
    as [-> H].
  rewrite H by (vm_compute; repeat split; congruence). vm_compute. reflexivity.
Defined.

(** [CheckProofOfWork] accepts exactly when the claimed target, read as an
    integer without a size limit, is positive in sign and value, does not
    exceed [powLimit], and the hash does not exceed it. *)
Theorem CheckProofOfWork_iff hash nBits params : uint256_ok hash -> is_u32 nBits ->
  pow_params_ok params ->
  CheckProofOfWork hash nBits params = true <->
  Z.testbit nBits 23 = false /\ 0 < compact_target nBits <= limit_val params /\
  hash_val hash <= compact_target nBits.
Proof. apply CheckProofOfWork_spec. Qed.

Lemma CheckProofOfWork_iff_witness :
  CheckProofOfWork (replicate 30 1 ++ [0; 0]) 0x1f00ffff MainPow = true.
Proof.
  apply CheckProofOfWork_iff.
  - split; [reflexivity|]. repeat constructor; unfold is_byte; lia.
  - unfold is_u32. lia.
  - exact MainPow_ok.
  - vm_compute. repeat split; congruence.
Defined.

(** [GetLastBlockIndexForAlgo] returns the nearest block at or below the
    given one that was mined with the algorithm and is not one of the
    minimum-difficulty blocks a test network skips, and null exactly when the
    branch has none. *)
Theorem last_block_for_algo m params algo p idx : index_ok m -> m !! p = Some idx ->
  exists r, GetLastBlockIndexForAlgo m (Some p) params algo = Ok r /\ nearest_algo_block m params algo p r.
Proof. apply GetLastBlockIndexForAlgo_spec. Qed.

Lemma last_block_for_algo_witness :
  exists r, GetLastBlockIndexForAlgo sample_index (Some [12]) MainPow ALGO_BUTKSCRYPT = Ok r /\ r = Some [12].
Proof.
  destruct (last_block_for_algo sample_index MainPow ALGO_BUTKSCRYPT [12] _ sample_index_ok
    ltac:(vm_compute; reflexivity)) as (r & H & _).
  exists r. split; [exact H|]. revert H. vm_compute. intros [= <-]. reflexivity.
Defined.

(** [GetBlockProof] never divides by zero and its product of roots never
    leaves 256 bits: the work is zero (some algorithm's target is zero) or the
    scaled quotient of [2^256] by one plus a mean target between 1 and
    [powLimit]. *)
Theorem block_proof_work m params block : index_ok m -> nbits_ok m -> pow_params_ok params ->
  1 <= limit_val params < 2 ^ 256 - 1 ->
  (forall p, pprev block = Some p -> is_Some (m !! p)) ->
  exists w, GetBlockProof m params block = Ok w /\ wf W256 w /\
    (val w = 0 \/ exists p, 1 <= p <= limit_val params /\ val w = work_of p).
Proof. apply GetBlockProof_spec. Qed.

Lemma block_proof_work_witness :
  exists w, GetBlockProof sample_index MainPow (sample_block (Some [12]) 13 2000) = Ok w /\ wf W256 w.
Proof.
  destruct (block_proof_work sample_index MainPow (sample_block (Some [12]) 13 2000) sample_index_ok
    sample_index_nbits MainPow_ok ltac:(vm_compute; split; congruence)
    ltac:(intros p [= <-]; eexists; vm_compute; reflexivity)) as (w & H1 & H2 & _).
  exists w. exact (conj H1 H2).
Defined.

(** [GetBlockProofEquivalentTime] is the difference in chain work times the
    block spacing over the work of the tip, with its sign, and saturates at
    [INT64_MAX]; this holds whenever the product fits 256 bits and the tip has
    work. *)
Theorem proof_equivalent_time m params to from tip w :
  wf W256 (nChainWork to) -> wf W256 (nChainWork from) ->
  GetBlockProof m params tip = Ok w -> wf W256 w -> 0 < val w ->
  0 <= nPowTargetSpacing params < 2 ^ 63 ->
  Z.abs (val (nChainWork to) - val (nChainWork from)) * nPowTargetSpacing params < 2 ^ 256 ->
  let d := val (nChainWork to) - val (nChainWork from) in
  GetBlockProofEquivalentTime m params to from tip =
  Ok (Z.sgn d * Z.min INT64_MAX (Z.abs d * nPowTargetSpacing params / val w)).
Proof.
  intros Ht Hf Hw Hww Hpos Hsp Hfit d. unfold GetBlockProofEquivalentTime. fold d in Hfit.
  rewrite (CompareTo_spec W256), Hw by done. cbn [mbind result_bind].
  match goal with |- context [if ?c then (?a, 1) else ?b] => set (rs := if c then (a, 1) else b) end.
  assert (exists r s, rs = (r, s) /\ wf W256 r /\ val r = Z.abs d /\ (s = 1 \/ s = -1) /\
    (s = Z.sgn d \/ d = 0)) as (r & s & -> & Hr & Hrv & Hs & Hsd).
  { unfold rs, d. destruct (Z.compare_spec (val (nChainWork to)) (val (nChainWork from))); cbn;
      (eexists _, _; split; [done|]).
    - destruct (op_sub_val_ge (nChainWork from) (nChainWork to)) as [? ->]; [done..|lia|]. split_and!; [done|lia..].
    - destruct (op_sub_val_ge (nChainWork from) (nChainWork to)) as [? ->]; [done..|lia|]. split_and!; [done|lia..].
    - destruct (op_sub_val_ge (nChainWork to) (nChainWork from)) as [? ->]; [done..|lia|]. split_and!; [done|lia..]. }
  rewrite u64_small by lia.
  assert (val (of_u64 W256 (nPowTargetSpacing params)) = nPowTargetSpacing params) as Hsv
    by (apply of_u64_val; unfold is_u64; lia).
  destruct (op_div_spec W256 (op_mul r (of_u64 W256 (nPowTargetSpacing params))) w) as (q & -> & Hq & Hqv);
    [apply op_mul_wf; [done|apply of_u64_wf256]|done|lia|].
  rewrite (op_mul_val W256), Hsv, Hrv, Z.mod_small in Hqv
    by (done || apply of_u64_wf256 || (change (32 * Z.of_nat W256) with 256; nia)).
  cbn [mbind result_bind]. rewrite <- Hqv. f_equal. apply (saturate q s d); try done.
  intros Hd. rewrite Hqv, Hd. done.
Qed.

Lemma proof_equivalent_time_witness :
  let tip := sample_block (Some [12]) 13 2000 in
  GetBlockProofEquivalentTime sample_index MainPow (set_nChainWork (of_u64 8 1000) tip) (set_nChainWork (of_u64 8 1000000) tip) tip =
  Ok (- (999000 * 60 / 32768)).
Proof.
  intros tip.
  rewrite (proof_equivalent_time sample_index MainPow (set_nChainWork (of_u64 8 1000) tip) (set_nChainWork (of_u64 8 1000000) tip) tip
    (of_u64 W256 32768) (of_u64_wf256 1000) (of_u64_wf256 1000000)
    ltac:(vm_compute; reflexivity) (of_u64_wf256 32768)
    ltac:(vm_compute; reflexivity) ltac:(vm_compute; split; congruence) ltac:(vm_compute; reflexivity)).
  vm_compute. reflexivity.
Defined.

(** on the main network the first two retargeting rules never retarget:
    below [v3DiffChangeHeight] a branch is shorter than their averaging window,
    so the limit [0x2000ffff] is required of every block up to height 10. *)
Theorem mainnet_early_limit m last li algo : index_ok m -> nbits_ok m -> m !! last = Some li ->
  nHeight li < 10 -> GetNextWorkRequired m (Some last) MainPow algo = Ok 0x2000ffff.
Proof.
  intros Hm Hb Hl Hh. unfold GetNextWorkRequired. rewrite Hl. cbn [deref mbind result_bind].
  assert (forall n, 10 <= n -> go_back (Z.to_nat n) m (Some last) = Ok None) as Hn.
  { intros n ?. rewrite (go_back_spec _ m last li) by done. f_equal.
    apply (nth_ancestor_root m last li); [done..|lia]. }
  destruct (GetLastBlockIndexForAlgo_spec m MainPow algo last li Hm Hl) as (r & Hr & _).
  assert (GetCompact (UintToArith256 (powLimit MainPow)) false = Ok 0x2000ffff) as Hlim
    by (vm_compute; reflexivity).
  destruct (nHeight li <? v2DiffChangeHeight MainPow).
  { unfold GetNextWorkRequiredV1. rewrite Hlim, (Hn (_ * _)), Hr by (vm_compute; congruence).
    cbn [mbind result_bind]. by destruct r. }
  rewrite (proj2 (Z.ltb_lt _ _)) by (cbn; lia).
  unfold GetNextWorkRequiredV2. rewrite Hlim, (Hn (_ * _)), Hr by (vm_compute; congruence).
  cbn [mbind result_bind]. by destruct r.
Qed.

Lemma mainnet_early_limit_witness :
  GetNextWorkRequired sample_index (Some [9]) MainPow ALGO_LYRA2 = Ok 0x2000ffff.
Proof.
  apply (mainnet_early_limit sample_index [9] _ ALGO_LYRA2 sample_index_ok sample_index_nbits
    ltac:(vm_compute; reflexivity)).
  vm_compute. reflexivity.
Defined.

(** with the main network's limit the product "target times timespan"
    leaves 256 bits.  On a well-formed chain at the limit whose 50-block timespan
    is exactly on schedule, the next target is less than a 250th of the current
    one, where the proportion and the four per-algorithm steps ask for at least
    four fifths of it. *)
Theorem mainnet_limit_wraps :
  let old := compact_target 0x2000ffff in
  index_ok (steady_chain 60) /\
  actual_timespan (steady_chain 60) [60] [10] = Ok (nAveragingTargetTimespanV2 MainPow) /\
  GetNextWorkRequired (steady_chain 60) (Some [60]) MainPow ALGO_BUTKSCRYPT = Ok 0x1f00f81f /\
  250 * compact_target 0x1f00f81f < old /\
  4 * old < 5 * (old * 3600 / 3600 * 100 ^ 4 / 104 ^ 4) /\
  2 ^ 256 <= old * 3600.
Proof. intros old. split; [apply steady_chain_ok|]. vm_compute. repeat split; congruence. Qed.
