(* ===== verification/Headers.v ===== *)
(** * Accepting block headers
    (CheckBlockHeader, ContextualCheckBlockHeader, AddToBlockIndex and
    AcceptBlockHeader of src/src/validation.cpp, GetLastCheckpoint of
    checkpoints.cpp, HasConflictingChainLock of llmq/quorums_chainlocks.cpp)

    The globals a header changes are a record, [HeaderState].  A function that
    returns [bool] and fills a [CValidationState] returns the rejection it
    leaves there, or none.  The network-adjusted time is an argument; the
    notifications at the end of [AcceptBlockHeader] and the debug-only
    [CheckBlockIndex] change nothing here. *)

From Stdlib Require Import ZArith Lia String.
From stdpp Require Import base tactics numbers option list gmap.
From S2P Require Import Prelude ArithUint256 Compact Block Chain Pow.

(** What a failed check leaves in [CValidationState]. *)
Record reject := mkReject {
  nDoS : Z;
  strRejectReason : string;
  corruptionPossible : bool
}.

Definition DoS (level : Z) (reason : string) : reject := mkReject level reason false.

Record ChainParams := mkChainParams {
  consensus : PowParams;
  hashGenesisBlock : uint256;
  hashDevnetGenesisBlock : uint256;
  mapCheckpoints : list (Z * uint256);    (* std::map, in increasing height *)
  fCheckpointsEnabled : bool
}.

(** The chain-lock state [HasConflictingChainLock] reads. *)
Record ChainLocks := mkChainLocks {
  isEnforced : bool;
  bestChainLockBlockIndex : option ptr
}.

Record HeaderState := mkHeaderState {
  mapBlockIndex : BlockMap;
  pindexBestHeader : option ptr;
  setDirtyBlockIndex : list ptr;
  mapPrevBlockIndex : list (ptr * ptr);
  g_failed_blocks : list ptr
}.

Definition MAX_FUTURE_BLOCK_TIME : Z := 15 * 60.

(** ** Checks *)

(** [nVersion & BLOCK_VERSION_ALGO] is one of the six algorithm codes. *)
Definition known_algo (nVersion : Z) : bool :=
  let v := Z.land nVersion BLOCK_VERSION_ALGO in
  (v =? BLOCK_VERSION_BUTKSCRYPT) || (v =? BLOCK_VERSION_SHA256D) || (v =? BLOCK_VERSION_LYRA2)
  || (v =? BLOCK_VERSION_GHOSTRIDER) || (v =? BLOCK_VERSION_YESPOWER) || (v =? BLOCK_VERSION_SCRYPT).

Definition CheckBlockHeader (H : PowHashes) (params : ChainParams) (block : CBlockHeader)
    (fCheckPOW : bool) : option reject :=
  if (4 <? hdr_nVersion block) && negb (known_algo (hdr_nVersion block))
  then Some (DoS 50 "unknown-algo")
  else if fCheckPOW && negb (CheckProofOfWork (GetPOWHash H block (GetAlgo (hdr_nVersion block)))
                               (hdr_nBits block) (consensus params))
  then Some (DoS 50 "high-hash")
  else if negb (IsNull (hashDevnetGenesisBlock params))
          && bool_decide (hdr_hashPrevBlock block = hashGenesisBlock params)
          && negb (bool_decide (GetHash H block = hashDevnetGenesisBlock params))
  then Some (DoS 100 "devnet-genesis")
  else None.

(** [Checkpoints::GetLastCheckpoint]: the highest checkpoint that is in the
    index. *)
Definition GetLastCheckpoint (m : BlockMap) (checkpoints : list (Z * uint256)) : option ptr :=
  snd <$> list_find (fun h => is_Some (m !! h)) (reverse (snd <$> checkpoints)).

Definition ContextualCheckBlockHeader (m : BlockMap) (params : ChainParams) (block : CBlockHeader)
    (pindexPrev : option ptr) (nAdjustedTime : Z) : result (option reject) :=
  match pindexPrev with
  | None => Err AssertFail
  | Some prev =>
      pi ← deref (m !! prev);
      let nHeight' := nHeight pi + 1 in
      work ← GetNextWorkRequired m pindexPrev (consensus params) (GetAlgo (hdr_nVersion block));
      if negb (hdr_nBits block =? work) then Ok (Some (DoS 100 "bad-diffbits"))
      else
        prior ← (if fCheckpointsEnabled params
                 then match GetLastCheckpoint m (mapCheckpoints params) with
                      | Some c => ci ← deref (m !! c); Ok (nHeight' <? nHeight ci)
                      | None => Ok false
                      end
                 else Ok false);
        if (prior : bool) then Ok (Some (DoS 100 "bad-fork-prior-to-checkpoint"))
        else
          mtp ← GetMedianTimePast m prev;
          if hdr_nTime block <=? mtp then Ok (Some (DoS 0 "time-too-old"))
          else if nAdjustedTime + MAX_FUTURE_BLOCK_TIME <? hdr_nTime block
          then Ok (Some (DoS 0 "time-too-new"))
          else Ok None
  end.

(** [CChainLocksHandler::InternalHasConflictingChainLock] *)
Definition HasConflictingChainLock (m : BlockMap) (cl : ChainLocks) (height : Z) (blockHash : uint256) :
    result bool :=
  if negb (isEnforced cl) then Ok false
  else match bestChainLockBlockIndex cl with
       | None => Ok false
       | Some b =>
           bi ← deref (m !! b);
           if nHeight bi <? height then Ok false
           else if height =? nHeight bi then Ok (negb (bool_decide (blockHash = b)))
           else a ← GetAncestor m b height;
                match a with
                | None => Err AssertFail
                | Some a => Ok (negb (bool_decide (a = blockHash)))
                end
       end.

(** ** Entering a block in the index *)

(** [CBlockIndex::CBlockIndex(const CBlockHeader&)] *)
Definition new_index (block : CBlockHeader) : CBlockIndex :=
  mkIndex None None 0 0 0 0 (of_u64 W256 0) 0 0 0 (hdr_nVersion block) (hdr_hashMerkleRoot block)
    (hdr_nTime block) (hdr_nBits block) (hdr_nNonce block) 0 0.

(** [pindexNew->pprev = ...; pindexNew->nHeight = ...] *)
Definition set_parent (prev : ptr) (h : Z) (i : CBlockIndex) : CBlockIndex :=
  mkIndex (Some prev) (pskip i) h (nFile i) (nDataPos i) (nUndoPos i) (nChainWork i) (nTx i) (nChainTx i)
    (nStatus i) (nVersion i) (hashMerkleRoot i) (nTime i) (nBits i) (nNonce i) (nSequenceId i) (nTimeMax i).
Definition set_nTimeMax (t : Z) (i : CBlockIndex) : CBlockIndex :=
  mkIndex (pprev i) (pskip i) (nHeight i) (nFile i) (nDataPos i) (nUndoPos i) (nChainWork i) (nTx i) (nChainTx i)
    (nStatus i) (nVersion i) (hashMerkleRoot i) (nTime i) (nBits i) (nNonce i) (nSequenceId i) t.

(** The part of [AddToBlockIndex] that fills the new object: it is already in
    the map when its parent is looked up and its work computed. *)
Definition fill_index (params : ChainParams) (m : BlockMap) (hash : ptr) (block : CBlockHeader) :
    result CBlockIndex :=
  let m := <[hash := new_index block]> m in
  '(idx, prevTimeMax, prevWork) ←
    match m !! hdr_hashPrevBlock block with
    | Some pi =>
        idx ← BuildSkip m (set_parent (hdr_hashPrevBlock block) (nHeight pi + 1) (new_index block));
        Ok (idx, Z.max (nTimeMax pi) (nTime idx), nChainWork pi)
    | None => Ok (new_index block, nTime (new_index block), of_u64 W256 0)
    end;
  let idx := set_nTimeMax prevTimeMax idx in
  proof ← GetBlockProof (<[hash := idx]> m) (consensus params) idx;
  Ok (set_nChainWork (op_add prevWork proof) idx).

Definition AddToBlockIndex (H : PowHashes) (params : ChainParams) (st : HeaderState)
    (block : CBlockHeader) (nStatusIn : Z) : result (HeaderState * ptr) :=
  let hash := GetHash H block in
  match mapBlockIndex st !! hash with
  | Some _ => Ok (st, hash)
  | None =>
      idx ← fill_index params (mapBlockIndex st) hash block;
      '(idx, best) ←
        (if negb (Z.land nStatusIn BLOCK_VALID_MASK =? 0)
         then
           '(s, _) ← RaiseValidity (nStatus idx) nStatusIn;
           better ← match pindexBestHeader st with
                    | None => Ok true
                    | Some b => bi ← deref (mapBlockIndex st !! b);
                                Ok (CompareTo (nChainWork bi) (nChainWork idx) <? 0)
                    end;
           Ok (set_nStatus s idx, if (better : bool) then Some hash else pindexBestHeader st)
         else
           '(s, _) ← RaiseValidity (nStatus idx) BLOCK_VALID_TREE;
           Ok (set_nStatus (Z.lor s nStatusIn) idx, pindexBestHeader st));
      Ok (mkHeaderState (<[hash := idx]> (mapBlockIndex st)) best (hash :: setDirtyBlockIndex st)
            (match pprev idx with
             | Some p => (p, hash) :: mapPrevBlockIndex st
             | None => mapPrevBlockIndex st
             end) (g_failed_blocks st), hash)
  end.

(** ** [AcceptBlockHeader] *)

Definition set_map (m : BlockMap) (dirty : list ptr) (st : HeaderState) : HeaderState :=
  mkHeaderState m (pindexBestHeader st) dirty (mapPrevBlockIndex st) (g_failed_blocks st).

(** [while (invalid_walk != failedit)]: flag the blocks on the way. *)
Fixpoint mark_failed_child (fuel : nat) (m : BlockMap) (dirty : list ptr) (walk : option ptr)
    (failedit : ptr) : result (BlockMap * list ptr) :=
  if bool_decide (walk = Some failedit) then Ok (m, dirty)
  else match fuel, walk with
       | S fuel, Some p =>
           idx ← deref (m !! p);
           mark_failed_child fuel (<[p := set_nStatus (Z.lor (nStatus idx) BLOCK_FAILED_CHILD) idx]> m)
             (p :: dirty) (pprev idx) failedit
       | S _, None => Err NullDeref
       | O, _ => Err OutOfFuel
       end.

(** The loop over [g_failed_blocks]: [Some] is the state to reject with. *)
Fixpoint failed_ancestor (st : HeaderState) (prev : ptr) (prevHeight : Z) (failed : list ptr) :
    result (option HeaderState) :=
  match failed with
  | [] => Ok None
  | f :: failed =>
      fi ← deref (mapBlockIndex st !! f);
      a ← GetAncestor (mapBlockIndex st) prev (nHeight fi);
      if bool_decide (a = Some f)
      then _ ← cassert (negb (Z.land (nStatus fi) BLOCK_FAILED_VALID =? 0));
           '(m, dirty) ← mark_failed_child (S (Z.to_nat prevHeight)) (mapBlockIndex st)
                           (setDirtyBlockIndex st) (Some prev) f;
           Ok (Some (set_map m dirty st))
      else failed_ancestor st prev prevHeight failed
  end.

(** The checks of a header that is neither known nor the genesis block, in the
    order of the source. *)
Definition check_new_header (H : PowHashes) (params : ChainParams) (cl : ChainLocks) (now : Z)
    (st : HeaderState) (hash : uint256) (block : CBlockHeader) : result (HeaderState * option reject) :=
  match CheckBlockHeader H params block true with
  | Some r => Ok (st, Some r)
  | None =>
      match mapBlockIndex st !! hdr_hashPrevBlock block with
      | None => Ok (st, Some (DoS 10 "prev-blk-not-found"))
      | Some pi =>
          let prev := hdr_hashPrevBlock block in
          if negb (Z.land (nStatus pi) BLOCK_FAILED_MASK =? 0) then Ok (st, Some (DoS 100 "bad-prevblk"))
          else if negb (Z.land (nStatus pi) BLOCK_CONFLICT_CHAINLOCK =? 0)
          then Ok (st, Some (DoS 10 "bad-prevblk-chainlock"))
          else
            ctx ← ContextualCheckBlockHeader (mapBlockIndex st) params block (Some prev) now;
            match ctx with
            | Some r => Ok (st, Some r)
            | None =>
                valid ← IsValid (nStatus pi) BLOCK_VALID_SCRIPTS;
                bad ← (if (valid : bool) then Ok None
                       else failed_ancestor st prev (nHeight pi) (g_failed_blocks st));
                match bad with
                | Some st' => Ok (st', Some (DoS 100 "bad-prevblk"))
                | None =>
                    conflict ← HasConflictingChainLock (mapBlockIndex st) cl (nHeight pi + 1) hash;
                    if (conflict : bool)
                    then '(st, _) ← AddToBlockIndex H params st block BLOCK_CONFLICT_CHAINLOCK;
                         Ok (st, Some (DoS 10 "bad-chainlock"))
                    else Ok (st, None)
                end
            end
      end
  end.

(** The outcome is the entry [*ppindex] points to, or the rejection. *)
Definition AcceptBlockHeader (H : PowHashes) (params : ChainParams) (cl : ChainLocks) (now : Z)
    (st : HeaderState) (block : CBlockHeader) : result (HeaderState * (ptr + reject)) :=
  let hash := GetPOWHash H block (GetAlgo (hdr_nVersion block)) in
  if negb (bool_decide (hash = hashGenesisBlock params))
  then match mapBlockIndex st !! hash with
       | Some idx =>
           if negb (Z.land (nStatus idx) BLOCK_FAILED_MASK =? 0)
           then Ok (st, inr (DoS 0 "duplicate"))
           else Ok (st, inl hash)
       | None =>
           '(st, r) ← check_new_header H params cl now st hash block;
           match r with
           | Some r => Ok (st, inr r)
           | None => '(st, p) ← AddToBlockIndex H params st block BLOCK_VALID_TREE; Ok (st, inl p)
           end
       end
  else '(st, p) ← AddToBlockIndex H params st block BLOCK_VALID_TREE; Ok (st, inl p).

(** [ProcessNewBlockHeaders]: stop at the first header that is refused and
    report it; otherwise return the last entry. *)
Fixpoint ProcessNewBlockHeaders (H : PowHashes) (params : ChainParams) (cl : ChainLocks) (now : Z)
    (st : HeaderState) (last : option ptr) (headers : list CBlockHeader) :
    result (HeaderState * (option ptr + CBlockHeader * reject)) :=
  match headers with
  | [] => Ok (st, inl last)
  | h :: headers =>
      '(st, r) ← AcceptBlockHeader H params cl now st h;
      match r with
      | inl p => ProcessNewBlockHeaders H params cl now st (Some p) headers
      | inr e => Ok (st, inr (h, e))
      end
  end.

(** [hasUsedValidMiningAlgorithm]; no caller in the repository. *)
Definition SAME_ALGO_MAX_COUNT : nat := 5.
Fixpoint count_same_algo (n : nat) (m : BlockMap) (algo : Z) (p : option ptr) : result nat :=
  match n, p with
  | S n, Some p =>
      idx ← deref (m !! p);
      rest ← count_same_algo n m algo (pprev idx);
      Ok ((if (GetAlgo (nVersion idx) =? algo)%Z then 1 else 0) + rest)%nat
  | _, _ => Ok O
  end.
Definition hasUsedValidMiningAlgorithm (m : BlockMap) (block : CBlockHeader) (prev : option ptr) : result bool :=
  n ← count_same_algo (2 * SAME_ALGO_MAX_COUNT) m (GetAlgo (hdr_nVersion block)) prev;
  Ok (n <=? SAME_ALGO_MAX_COUNT)%nat.

(** ** Changes that keep the links of the index *)

(** Two heaps with the same blocks, parents, skip pointers and heights. *)
Definition links (i : CBlockIndex) : option ptr * option ptr * Z := (pprev i, pskip i, nHeight i).
Definition same_links (m m' : BlockMap) : Prop := forall p, links <$> m !! p = links <$> m' !! p.

#[global] Instance same_links_equiv : Equivalence same_links.
Proof. split; [by intros m p|by intros m m' H p|intros a b c H1 H2 p; by rewrite H1]. Qed.

Lemma same_links_lookup m m' p i : same_links m m' -> m !! p = Some i ->
  exists i', m' !! p = Some i' /\ pprev i' = pprev i /\ pskip i' = pskip i /\ nHeight i' = nHeight i.
Proof.
  intros H Hp. specialize (H p). rewrite Hp in H. cbn in H. destruct (m' !! p) as [i'|]; [|done].
  exists i'. unfold links in H. cbn in H. by simplify_eq.
Qed.

#[global] Instance nth_ancestor_proper : Proper (same_links ==> eq ==> eq ==> eq) nth_ancestor.
Proof.
  intros m m' H p ? <- k ? <-. revert p. induction k as [|k IH]; intros p; cbn [nth_ancestor]; [done|].
  destruct (m !! p) as [i|] eqn:E.
  - destruct (same_links_lookup m m' p i H E) as (i' & -> & Hp & _). cbn. rewrite Hp.
    destruct (pprev i); [apply IH|done].
  - pose proof (H p) as Hp. rewrite E in Hp. cbn in Hp. destruct (m' !! p); [done|]. done.
Qed.

Lemma index_ok_same_links m m' : same_links m m' -> index_ok m -> index_ok m'.
Proof.
  intros H Hm p i' Hp. symmetry in H.
  destruct (same_links_lookup m' m p i' H Hp) as (i & Hi & E1 & E2 & E3).
  destruct (Hm p i Hi) as (H0 & Hl & Hs). unfold link_ok, skip_ok in *. rewrite E1, E2, E3 in *.
  split_and!; [done| |].
  - destruct (pprev i') as [q|]; [|done]. destruct Hl as (qi & Hq & Hh). symmetry in H.
    destruct (same_links_lookup m m' q qi H Hq) as (qi' & Hq' & _ & _ & E). exists qi'. split; [done|]. lia.
  - intros s Hs'. rewrite (nth_ancestor_proper m' m H p p eq_refl _ _ eq_refl). by apply Hs.
Qed.

#[global] Instance index_ok_proper : Proper (same_links ==> iff) index_ok.
Proof. intros m m' H. split; apply index_ok_same_links; by symmetry in H || done. Qed.

(** Setting [BLOCK_FAILED_CHILD] is the only change of [mark_failed_child]. *)
Definition flag_grows (i i' : CBlockIndex) : Prop :=
  i' = i \/ i' = set_nStatus (Z.lor (nStatus i) BLOCK_FAILED_CHILD) i.
Definition flags_grow (m m' : BlockMap) : Prop := forall p,
  match m !! p, m' !! p with
  | Some i, Some i' => flag_grows i i'
  | None, None => True
  | _, _ => False
  end.

Lemma flag_grows_trans a b c : flag_grows a b -> flag_grows b c -> flag_grows a c.
Proof.
  intros [->| ->] [->| ->]; unfold flag_grows; auto. right. cbn [nStatus set_nStatus].
  by rewrite <- Z.lor_assoc, Z.lor_diag.
Qed.

#[global] Instance flags_grow_pre : PreOrder flags_grow.
Proof.
  split.
  - intros m p. destruct (m !! p); [by left|done].
  - intros a b c H1 H2 p. specialize (H1 p). specialize (H2 p).
    destruct (a !! p), (b !! p), (c !! p); try done. by eapply flag_grows_trans.
Qed.

Lemma flags_grow_lookup m m' p i : flags_grow m m' -> m !! p = Some i ->
  exists i', m' !! p = Some i' /\ flag_grows i i'.
Proof. intros H Hp. specialize (H p). rewrite Hp in H. destruct (m' !! p) as [i'|]; [eauto|done]. Qed.

Lemma flags_grow_lookup_inv m m' p i' : flags_grow m m' -> m' !! p = Some i' ->
  exists i, m !! p = Some i /\ flag_grows i i'.
Proof. intros H Hp. specialize (H p). rewrite Hp in H. destruct (m !! p) as [i|]; [eauto|done]. Qed.

Lemma flags_grow_links m m' : flags_grow m m' -> same_links m m'.
Proof. intros H p. specialize (H p). destruct (m !! p), (m' !! p); try done. by destruct H as [->| ->]. Qed.

Lemma flags_grow_insert m p i : m !! p = Some i ->
  flags_grow m (<[p := set_nStatus (Z.lor (nStatus i) BLOCK_FAILED_CHILD) i]> m).
Proof.
  intros Hp q. destruct (decide (q = p)) as [->|Hne].
  - rewrite Hp, lookup_insert_eq. by right.
  - rewrite lookup_insert_ne by done. destruct (m !! q); [by left|done].
Qed.

Lemma mark_failed_child_spec fuel m dirty p k f : index_ok m -> is_Some (m !! p) ->
  nth_ancestor m p k = Some f -> (k < fuel)%nat ->
  exists m' d', mark_failed_child fuel m dirty (Some p) f = Ok (m', d') /\ flags_grow m m'.
Proof.
  revert fuel m dirty p. induction k as [|k IH]; intros fuel m dirty p Hm [i Hi] Hk Hf.
  { injection Hk as <-. exists m, dirty. split; [|done]. destruct fuel; cbn [mark_failed_child];
      by rewrite bool_decide_eq_true_2. }
  destruct fuel as [|fuel]; [lia|]. cbn [mark_failed_child]. case_bool_decide; [by exists m, dirty|].
  rewrite Hi. cbn [deref mbind result_bind]. pose proof (flags_grow_insert m p i Hi) as Hg.
  pose proof (flags_grow_links _ _ Hg) as Hl. cbn [nth_ancestor] in Hk. rewrite Hi in Hk. cbn in Hk.
  destruct (Hm p i Hi) as (_ & Hlk & _). unfold link_ok in Hlk. destruct (pprev i) as [q|] eqn:Hq; [|done].
  destruct Hlk as (qi & Hqi & _). cbn in Hk.
  destruct (IH fuel (<[p := set_nStatus (Z.lor (nStatus i) BLOCK_FAILED_CHILD) i]> m) (p :: dirty) q)
    as (m' & d' & E & Hg').
  - by apply (index_ok_same_links m).
  - destruct (flags_grow_lookup _ _ q qi Hg Hqi) as (? & ? & _). by eexists.
  - rewrite <- Hk. symmetry. by apply nth_ancestor_proper.
  - lia.
  - exists m', d'. split; [done|]. by etransitivity.
Qed.

(** ** Invariant of the header state *)

Definition work_ok (m : BlockMap) : Prop := forall p i, m !! p = Some i -> wf W256 (nChainWork i).

Definition failed_flag (i : CBlockIndex) : Prop := Z.testbit (nStatus i) 5 = true.

Record tree_ok (st : HeaderState) : Prop := {
  t_index : index_ok (mapBlockIndex st);
  t_nbits : nbits_ok (mapBlockIndex st);
  t_timemax : timemax_ok (mapBlockIndex st);
  t_work : work_ok (mapBlockIndex st);
  t_best : forall b, pindexBestHeader st = Some b -> is_Some (mapBlockIndex st !! b);
  t_failed : forall f, f ∈ g_failed_blocks st ->
    exists i, mapBlockIndex st !! f = Some i /\ failed_flag i
}.

Definition chain_params_ok (params : ChainParams) : Prop :=
  pow_params_ok (consensus params) /\ 1 <= limit_val (consensus params) < 2 ^ 256 - 1.

Lemma tree_ok_flags st m dirty : tree_ok st -> flags_grow (mapBlockIndex st) m -> tree_ok (set_map m dirty st).
Proof.
  intros [Hi Hn Ht Hw Hb Hf] Hg. split; cbn [mapBlockIndex set_map pindexBestHeader g_failed_blocks].
  - by apply (index_ok_same_links (mapBlockIndex st)), Hi; apply flags_grow_links.
  - intros p i' Hp. destruct (flags_grow_lookup_inv _ _ p i' Hg Hp) as (i & H & [->| ->]); by apply (Hn p i).
  - intros p i' Hp. destruct (flags_grow_lookup_inv _ _ p i' Hg Hp) as (i & H & Hfg).
    specialize (Ht p i H). destruct Hfg as [->| ->]; cbn [pprev nTimeMax set_nStatus];
      (destruct (pprev i) as [q|]; [|done]); intros qi' Hq;
      destruct (flags_grow_lookup_inv _ _ q qi' Hg Hq) as (qi & Hqi & [->| ->]); exact (Ht qi Hqi).
  - intros p i' Hp. destruct (flags_grow_lookup_inv _ _ p i' Hg Hp) as (i & H & [->| ->]); by apply (Hw p i).
  - intros b E. destruct (Hb b E) as [i H]. destruct (flags_grow_lookup _ _ b i Hg H) as (i' & ? & _). by eexists.
  - intros f Hin. destruct (Hf f Hin) as (i & H & Hfl).
    destruct (flags_grow_lookup _ _ f i Hg H) as (i' & ? & [->| ->]); (eexists; split; [done|]); [done|].
    unfold failed_flag in *. cbn [nStatus set_nStatus]. by rewrite Z.lor_spec, Hfl.
Qed.

(** ** [AddToBlockIndex] *)

Lemma nbits_ok_insert m x i : nbits_ok m -> is_u32 (nBits i) -> nbits_ok (<[x := i]> m).
Proof. intros Hm Hi p j. rewrite lookup_insert_Some. intros [[_ <-]|[_ H]]; [done|by apply (Hm p)]. Qed.

Lemma work_ok_insert m x i : work_ok m -> wf W256 (nChainWork i) -> work_ok (<[x := i]> m).
Proof. intros Hm Hi p j. rewrite lookup_insert_Some. intros [[_ <-]|[_ H]]; [done|by apply (Hm p)]. Qed.

Lemma timemax_ok_insert m x i : index_ok m -> timemax_ok m -> m !! x = None ->
  (forall q qi, pprev i = Some q -> m !! q = Some qi -> nTimeMax qi <= nTimeMax i) ->
  (forall q, pprev i = Some q -> q <> x) -> timemax_ok (<[x := i]> m).
Proof.
  intros Hi Hm Hx Ht Hself p j. rewrite lookup_insert_Some. intros [[<- <-]|[Hne Hp]].
  - destruct (pprev i) as [q|] eqn:Hq; [|done]. intros qi.
    rewrite lookup_insert_ne by (intros ->; by apply (Hself q)). by apply Ht.
  - specialize (Hm p j Hp). destruct (Hi p j Hp) as (_ & Hl & _). unfold link_ok in Hl.
    destruct (pprev j) as [q|]; [|done]. destruct Hl as (qi' & Hq & _).
    intros qi. rewrite lookup_insert_ne by congruence. by apply Hm.
Qed.

Section AddToBlockIndex.
Context (params : ChainParams) (m : BlockMap) (x : ptr) (block : CBlockHeader).
Hypothesis Hm : index_ok m.
Hypothesis Hbits : nbits_ok m.
Hypothesis Htm : timemax_ok m.
Hypothesis Hwork : work_ok m.
Hypothesis Hparams : chain_params_ok params.
Hypothesis Hx : m !! x = None.
Hypothesis Hblock : header_ok block.
Hypothesis Hself : hdr_hashPrevBlock block <> x.

Let m1 := <[x := new_index block]> m.

Lemma bare_index_ok : index_ok m1 /\ nbits_ok m1.
Proof using All.
  split; [by apply index_ok_insert|]. apply nbits_ok_insert; [done|]. apply Hblock.
Qed.

(** The new entry before its work is known. *)
Lemma linked_index i : pprev i = Some (hdr_hashPrevBlock block) ->
  (exists pi, m !! hdr_hashPrevBlock block = Some pi /\ nHeight i = nHeight pi + 1 /\
     GetAncestor m1 (hdr_hashPrevBlock block) (GetSkipHeight (nHeight i)) = Ok (pskip i)) ->
  index_ok (<[x := i]> m).
Proof using All.
  intros Hprev (pi & Hpi & Hh & Hskip). destruct (Hm _ pi Hpi) as (H0 & _ & _).
  destruct bare_index_ok as [Hm1 _]. pose proof (GetSkipHeight_bounds (nHeight i) ltac:(lia)).
  assert (m1 !! hdr_hashPrevBlock block = Some pi) as Hpi1 by (unfold m1; by rewrite lookup_insert_ne).
  destruct (GetAncestor_in_range m1 _ pi (GetSkipHeight (nHeight i)) Hm1 Hpi1 ltac:(lia))
    as (s & si & Hs & _ & _ & Hn). rewrite Hs in Hskip. injection Hskip as Hskip.
  apply index_ok_insert; [done..|lia| |].
  - unfold link_ok. rewrite Hprev. by exists pi.
  - intros s' Hs'. exists (hdr_hashPrevBlock block). split; [done|].
    assert (s = s') as -> by congruence.
    apply (nth_ancestor_insert m _ (new_index block) _ _ x) in Hn; [|done..|by rewrite Hpi].
    rewrite <- Hn. f_equal. lia.
Qed.

Definition entry_of (i : CBlockIndex) : Prop :=
  pprev i = (if decide (is_Some (m !! hdr_hashPrevBlock block)) then Some (hdr_hashPrevBlock block) else None) /\
  nBits i = hdr_nBits block /\ nTime i = hdr_nTime block /\ nVersion i = hdr_nVersion block /\
  (forall q qi, pprev i = Some q -> m !! q = Some qi -> nTimeMax qi <= nTimeMax i).

Lemma fill_index_finish i w : index_ok (<[x := i]> m) -> entry_of i -> nStatus i = 0 -> wf W256 w ->
  exists j, (proof ← GetBlockProof (<[x := i]> m1) (consensus params) i;
             Ok (set_nChainWork (op_add w proof) i)) = Ok j /\
    index_ok (<[x := j]> m) /\ entry_of j /\ wf W256 (nChainWork j) /\ nStatus j = 0.
Proof using All.
  intros Hi Hent Hst Hw. unfold m1. rewrite insert_insert_eq.
  destruct Hparams as [Hpp Hlim].
  destruct (GetBlockProof_spec (<[x := i]> m) (consensus params) i) as (pr & -> & Hpr & _); try done.
  { apply nbits_ok_insert; [done|]. destruct Hent as (_ & -> & _). apply Hblock. }
  { intros p Hp. destruct Hent as (E & _). rewrite Hp in E. case_decide as Hd; [|done]. injection E as ->.
    by rewrite lookup_insert_ne. }
  cbn [mbind result_bind]. eexists. split; [done|]. split_and!; [|done|by apply op_add_wf|done].
  apply (index_ok_same_links (<[x := i]> m)); [|done]. intros p. rewrite !lookup_insert.
  by case_decide.
Qed.

Lemma fill_index_spec : exists j, fill_index params m x block = Ok j /\
  index_ok (<[x := j]> m) /\ entry_of j /\ wf W256 (nChainWork j) /\ nStatus j = 0.
Proof using All.
  unfold fill_index. fold m1. destruct bare_index_ok as [Hm1 _].
  assert (m1 !! hdr_hashPrevBlock block = m !! hdr_hashPrevBlock block) as ->
    by (unfold m1; by rewrite lookup_insert_ne).
  destruct (m !! hdr_hashPrevBlock block) as [pi|] eqn:Hpi.
  - assert (m1 !! hdr_hashPrevBlock block = Some pi) as Hpi1 by (unfold m1; by rewrite lookup_insert_ne).
    destruct (Hm _ pi Hpi) as (H0 & _ & _).
    pose proof (GetSkipHeight_bounds (nHeight pi + 1) ltac:(lia)).
    destruct (GetAncestor_in_range m1 _ pi (GetSkipHeight (nHeight pi + 1)) Hm1 Hpi1 ltac:(lia))
      as (s & si & Hs & _). unfold BuildSkip. cbn [pprev nHeight set_parent]. rewrite Hs.
    cbn [mbind result_bind]. apply fill_index_finish; try done.
    + apply linked_index; [done|]. exists pi. cbn. by rewrite Hs.
    + unfold entry_of. rewrite Hpi, decide_True by by eexists. cbn. split_and!; try done.
      intros q qi [= <-] Hq. simplify_eq. lia.
    + exact (Hwork _ pi Hpi).
  - cbn [mbind result_bind]. apply fill_index_finish; try done; [|unfold entry_of|apply of_u64_wf256].
    + by apply index_ok_insert.
    + rewrite Hpi, decide_False by (by intros [? ?]). done.
Qed.
End AddToBlockIndex.

(** The state after a new entry [i] for hash [x]: everything else is kept. *)
Record added (H : PowHashes) (st st' : HeaderState) (block : CBlockHeader) (status : Z) : Prop := {
  a_keep : forall p i, mapBlockIndex st !! p = Some i -> mapBlockIndex st' !! p = Some i;
  a_failed : g_failed_blocks st' = g_failed_blocks st;
  a_new : mapBlockIndex st !! GetHash H block = None ->
    exists i, mapBlockIndex st' = <[GetHash H block := i]> (mapBlockIndex st) /\
      entry_of (mapBlockIndex st) block i /\ nStatus i = status;
  a_known : is_Some (mapBlockIndex st !! GetHash H block) -> st' = st
}.

Lemma tree_ok_add st x i best dirty prevs block : tree_ok st -> mapBlockIndex st !! x = None ->
  index_ok (<[x := i]> (mapBlockIndex st)) -> header_ok block -> entry_of (mapBlockIndex st) block i ->
  hdr_hashPrevBlock block <> x -> wf W256 (nChainWork i) ->
  (best = pindexBestHeader st \/ best = Some x) ->
  tree_ok (mkHeaderState (<[x := i]> (mapBlockIndex st)) best dirty prevs (g_failed_blocks st)).
Proof.
  intros [Hi Hn Ht Hw Hb Hf] Hx Hix Hblock (Hpp & Hbits & _ & _ & Htm) Hself Hwf Hbest.
  split; cbn [mapBlockIndex pindexBestHeader g_failed_blocks].
  - done.
  - apply nbits_ok_insert; [done|]. rewrite Hbits. apply Hblock.
  - apply timemax_ok_insert; try done. intros q Hq. rewrite Hq in Hpp. case_decide; [|done]. congruence.
  - by apply work_ok_insert.
  - intros b Eb. rewrite lookup_insert. destruct (decide (x = b)); [by eexists|].
    destruct Hbest as [->| ->]; [by apply Hb|]. simplify_eq.
  - intros f Hin. destruct (Hf f Hin) as (j & Hj & Hfl). exists j. split; [|done].
    rewrite lookup_insert_ne by congruence. done.
Qed.

Lemma AddToBlockIndex_spec H params st block s : tree_ok st -> chain_params_ok params ->
  header_ok block -> (mapBlockIndex st !! GetHash H block = None -> hdr_hashPrevBlock block <> GetHash H block) ->
  s = BLOCK_VALID_TREE \/ s = BLOCK_CONFLICT_CHAINLOCK ->
  exists st', AddToBlockIndex H params st block s = Ok (st', GetHash H block) /\ tree_ok st' /\
    added H st st' block (Z.lor BLOCK_VALID_TREE s).
Proof.
  intros Hst Hp Hblock Hself Hs. unfold AddToBlockIndex.
  destruct (mapBlockIndex st !! GetHash H block) as [known|] eqn:Hx.
  { exists st. split_and!; [done..|]. split; [done|done|congruence|done]. }
  destruct (fill_index_spec params (mapBlockIndex st) (GetHash H block) block) as (i & -> & Hix & Hent & Hwf & H0);
    try done; try apply Hst; [by apply Hself|]. cbn [mbind result_bind]. rewrite H0.
  assert (forall s' best, best = pindexBestHeader st \/ best = Some (GetHash H block) ->
    let st' := mkHeaderState (<[GetHash H block := set_nStatus s' i]> (mapBlockIndex st)) best
      (GetHash H block :: setDirtyBlockIndex st)
      (match pprev i with
       | Some p => (p, GetHash H block) :: mapPrevBlockIndex st
       | None => mapPrevBlockIndex st
       end) (g_failed_blocks st) in tree_ok st' /\ added H st st' block s') as Hfin.
  { intros s' best Hbest st'. subst st'. split.
    - apply (tree_ok_add st _ _ _ _ _ block); try done; [|by apply Hself].
      apply (index_ok_same_links (<[GetHash H block := i]> (mapBlockIndex st))); [|done].
      intros p. rewrite !lookup_insert. by case_decide.
    - split; cbn [mapBlockIndex g_failed_blocks]; [|done| |rewrite Hx; by intros [? ?]].
      + intros p j Hp'. by rewrite lookup_insert_ne by congruence.
      + intros _. exists (set_nStatus s' i). done. }
  destruct Hs as [->| ->].
  - change (RaiseValidity 0 BLOCK_VALID_TREE) with (@Ok (Z * bool) (BLOCK_VALID_TREE, true)).
    change (negb (Z.land BLOCK_VALID_TREE BLOCK_VALID_MASK =? 0)) with true. cbn [mbind result_bind].
    destruct (pindexBestHeader st) as [b|] eqn:Hb.
    + destruct (t_best st Hst b Hb) as [bi Hbi]. rewrite Hbi. cbn [deref mbind result_bind].
      eexists. split; [done|]. apply Hfin. destruct (_ <? 0); auto.
    + cbn [mbind result_bind]. eexists. split; [done|]. apply Hfin. auto.
  - change (negb (Z.land BLOCK_CONFLICT_CHAINLOCK BLOCK_VALID_MASK =? 0)) with false.
    change (RaiseValidity 0 BLOCK_VALID_TREE) with (@Ok (Z * bool) (BLOCK_VALID_TREE, true)).
    cbn [mbind result_bind]. eexists. split; [done|]. apply Hfin. auto.
Qed.

(** ** The checks *)

Lemma ContextualCheckBlockHeader_spec m params block prev pi now :
  index_ok m -> nbits_ok m -> chain_params_ok params -> m !! prev = Some pi ->
  exists r, ContextualCheckBlockHeader m params block (Some prev) now = Ok r /\
    (r = None -> exists t, GetMedianTimePast m prev = Ok t /\
       t < hdr_nTime block <= now + MAX_FUTURE_BLOCK_TIME /\
       GetNextWorkRequired m (Some prev) (consensus params) (GetAlgo (hdr_nVersion block)) = Ok (hdr_nBits block)).
Proof.
  intros Hm Hb [Hp _] Hprev. unfold ContextualCheckBlockHeader. rewrite Hprev. cbn [deref mbind result_bind].
  destruct (GetNextWorkRequired_some m (consensus params) prev pi Hm Hb Hp Hprev
    (GetAlgo (hdr_nVersion block))) as (v & E & _). rewrite E. cbn [mbind result_bind].
  destruct (Z.eqb_spec (hdr_nBits block) (compact_code v)) as [->|]; cbn [negb]; [|by eexists].
  match goal with |- context [if fCheckpointsEnabled params then ?a else ?c] =>
    assert (exists b, (if fCheckpointsEnabled params then a else c) = Ok b) as [b ->] end.
  { destruct (fCheckpointsEnabled params); [|by eexists].
    destruct (GetLastCheckpoint m (mapCheckpoints params)) as [c|] eqn:Hc; [|by eexists].
    unfold GetLastCheckpoint in Hc. apply fmap_Some in Hc as ([j c'] & Hc & ->).
    apply list_find_Some in Hc as (_ & [ci Hci] & _). cbn [snd]. rewrite Hci. by eexists. }
  cbn [mbind result_bind]. destruct b; [by eexists|].
  destruct (GetMedianTimePast_total m prev pi Hm Hprev) as [t ->]. cbn [mbind result_bind].
  destruct (Z.leb_spec (hdr_nTime block) t); [by eexists|].
  destruct (Z.ltb_spec (now + MAX_FUTURE_BLOCK_TIME) (hdr_nTime block)); [by eexists|].
  eexists. split; [done|]. intros _. exists t. split_and!; [done|lia|lia|done].
Qed.

Lemma HasConflictingChainLock_total m cl h x : index_ok m -> 0 <= h ->
  (forall b, bestChainLockBlockIndex cl = Some b -> is_Some (m !! b)) ->
  exists b, HasConflictingChainLock m cl h x = Ok b.
Proof.
  intros Hm Hh Hcl. unfold HasConflictingChainLock. destruct (negb (isEnforced cl)); [by eexists|].
  destruct (bestChainLockBlockIndex cl) as [b|]; [|by eexists]. destruct (Hcl b eq_refl) as [bi Hb].
  rewrite Hb. cbn [deref mbind result_bind]. destruct (Z.ltb_spec (nHeight bi) h); [by eexists|].
  destruct (Z.eqb_spec h (nHeight bi)); [by eexists|].
  destruct (GetAncestor_in_range m b bi h Hm Hb ltac:(lia)) as (a & ai & -> & _). by eexists.
Qed.

Lemma failed_ancestor_spec st prev pi failed : tree_ok st -> mapBlockIndex st !! prev = Some pi ->
  (forall f, f ∈ failed -> f ∈ g_failed_blocks st) ->
  exists r, failed_ancestor st prev (nHeight pi) failed = Ok r /\
    match r with Some st' => tree_ok st' /\ flags_grow (mapBlockIndex st) (mapBlockIndex st')
    | None => forall f, f ∈ failed -> ~ is_ancestor (mapBlockIndex st) f prev end.
Proof.
  intros Hst Hprev. pose proof (t_index st Hst) as Hm. induction failed as [|f failed IH]; intros Hin; cbn [failed_ancestor].
  { eexists. split; [done|]. intros f Hf. by apply not_elem_of_nil in Hf. }
  destruct (t_failed st Hst f) as (fi & Hfi & Hflag); [apply Hin; by left|].
  rewrite Hfi. cbn [deref mbind result_bind]. rewrite (GetAncestor_spec _ prev pi) by done. cbn [mbind result_bind].
  destruct (Hm f fi Hfi) as (Hf0 & _ & _). case_bool_decide as Ha.
  - assert (negb (Z.land (nStatus fi) BLOCK_FAILED_VALID =? 0) = true) as ->.
    { change BLOCK_FAILED_VALID with (Z.shiftl 1 5). rewrite land_bit_zero by lia.
      unfold failed_flag in Hflag. by rewrite Hflag. }
    cbn [cassert mbind result_bind].
    destruct (_ || _) eqn:Hrange; [done|]. apply orb_false_elim in Hrange as [H1 _]. apply Z.ltb_ge in H1.
    destruct (mark_failed_child_spec (S (Z.to_nat (nHeight pi))) (mapBlockIndex st) (setDirtyBlockIndex st)
      prev _ f Hm ltac:(by eexists) Ha ltac:(lia)) as (m' & d' & -> & Hg).
    cbn [mbind result_bind]. eexists. split; [done|]. split; [by apply tree_ok_flags|done].
  - destruct IH as (r & -> & Hr); [intros g Hg; apply Hin; by right|]. eexists. split; [done|].
    destruct r as [st'|]; [done|]. intros g Hg. apply elem_of_cons in Hg as [->|Hg]; [|by apply Hr].
    intros [k Hk]. apply Ha. destruct (ancestor_position _ prev pi f fi k Hm Hprev Hk Hfi) as [-> Hb].
    rewrite (proj2 (Z.ltb_ge _ _)), (proj2 (Z.ltb_ge _ _)) by lia. cbn [orb]. done.
Qed.

(** What a header that passes every check satisfies. *)
Record header_checked (H : PowHashes) (params : ChainParams) (now : Z) (m : BlockMap) (block : CBlockHeader) : Prop := {
  hc_header : CheckBlockHeader H params block true = None;
  hc_prev : exists pi, m !! hdr_hashPrevBlock block = Some pi /\
    Z.land (nStatus pi) BLOCK_FAILED_MASK = 0 /\ Z.land (nStatus pi) BLOCK_CONFLICT_CHAINLOCK = 0;
  hc_context : ContextualCheckBlockHeader m params block (Some (hdr_hashPrevBlock block)) now = Ok None
}.

(** No operation forgets a block. *)
Definition keeps (st st' : HeaderState) : Prop :=
  forall p, is_Some (mapBlockIndex st !! p) -> is_Some (mapBlockIndex st' !! p).

#[global] Instance keeps_pre : PreOrder keeps.
Proof. split; [by intros st p|]. intros a b c H1 H2 p Hp. auto. Qed.

Lemma keeps_flags st st' : flags_grow (mapBlockIndex st) (mapBlockIndex st') -> keeps st st'.
Proof. intros Hg p [i Hi]. destruct (flags_grow_lookup _ _ p i Hg Hi) as (i' & ? & _). by eexists. Qed.

Lemma keeps_added H st st' block s : added H st st' block s -> keeps st st'.
Proof. intros Ha p [i Hi]. exists i. by apply (a_keep _ _ _ _ _ Ha). Qed.

#[export] Hint Resolve keeps_flags keeps_added : but.

Lemma check_new_header_spec H params cl now st hash block : tree_ok st -> chain_params_ok params ->
  header_ok block -> (forall b, bestChainLockBlockIndex cl = Some b -> is_Some (mapBlockIndex st !! b)) ->
  exists st' r, check_new_header H params cl now st hash block = Ok (st', r) /\ tree_ok st' /\ keeps st st' /\
    (r = None -> st' = st /\ header_checked H params now (mapBlockIndex st) block).
Proof.
  intros Hst Hp Hblock Hcl. unfold check_new_header.
  destruct (CheckBlockHeader H params block true) eqn:Hcb; [by eexists _, _|].
  destruct (mapBlockIndex st !! hdr_hashPrevBlock block) as [pi|] eqn:Hpi; [|by eexists _, _].
  destruct (Z.eqb_spec (Z.land (nStatus pi) BLOCK_FAILED_MASK) 0); cbn [negb]; [|by eexists _, _].
  destruct (Z.eqb_spec (Z.land (nStatus pi) BLOCK_CONFLICT_CHAINLOCK) 0); cbn [negb]; [|by eexists _, _].
  destruct (ContextualCheckBlockHeader_spec (mapBlockIndex st) params block _ pi now
    (t_index st Hst) (t_nbits st Hst) Hp Hpi) as (r & Hctx & _). rewrite Hctx. cbn [mbind result_bind].
  destruct r as [r|]; [by eexists _, _|].
  assert (header_checked H params now (mapBlockIndex st) block) as Hok by (split; [done|by exists pi|done]).
  change (IsValid (nStatus pi) BLOCK_VALID_SCRIPTS) with
    (if negb (Z.land (nStatus pi) BLOCK_FAILED_MASK =? 0) then Ok false
     else Ok (BLOCK_VALID_SCRIPTS <=? Z.land (nStatus pi) BLOCK_VALID_MASK)).
  rewrite (proj2 (Z.eqb_eq _ _)) by done. cbn [negb mbind result_bind].
  destruct (failed_ancestor_spec st _ pi (g_failed_blocks st) Hst Hpi ltac:(done)) as (bad & Hbad & Hbad').
  destruct (_ <=? _); [|rewrite Hbad]; cbn [mbind result_bind];
    [clear bad Hbad Hbad'|destruct bad as [st'|]; [|]].
  2:{ destruct Hbad' as [? ?]. exists st', (Some (DoS 100 "bad-prevblk")). split_and!; eauto with but; done. }
  all: destruct (t_index st Hst _ pi Hpi) as (H0 & _ & _).
  all: destruct (HasConflictingChainLock_total (mapBlockIndex st) cl (nHeight pi + 1) hash
         (t_index st Hst) ltac:(lia) Hcl) as [b ->]; cbn [mbind result_bind]; destruct b; [|by eexists _, _].
  all: destruct (AddToBlockIndex_spec H params st block BLOCK_CONFLICT_CHAINLOCK) as (st' & -> & Hst' & Ha);
         [done..|congruence|by right|]; eexists _, _; split_and!; eauto with but; done.
Qed.

Lemma AcceptBlockHeader_total H params cl now st block : tree_ok st -> chain_params_ok params ->
  header_ok block -> hdr_hashPrevBlock block <> GetHash H block ->
  (forall b, bestChainLockBlockIndex cl = Some b -> is_Some (mapBlockIndex st !! b)) ->
  exists st' r, AcceptBlockHeader H params cl now st block = Ok (st', r) /\ tree_ok st' /\ keeps st st' /\
    (forall p, r = inl p -> is_Some (mapBlockIndex st' !! p)).
Proof.
  intros Hst Hp Hblock Hself Hcl. unfold AcceptBlockHeader.
  set (hash := GetPOWHash H block (GetAlgo (hdr_nVersion block))).
  assert (exists st' r, ('(st, p) ← AddToBlockIndex H params st block BLOCK_VALID_TREE; Ok (st, inl p))
    = Ok (st', r) /\ tree_ok st' /\ keeps st st' /\
      (forall p, r = @inl ptr reject p -> is_Some (mapBlockIndex st' !! p))) as Hadd.
  { destruct (AddToBlockIndex_spec H params st block BLOCK_VALID_TREE) as (st' & -> & Hst' & Ha); [done..|by left|].
    eexists _, _. cbn [mbind result_bind]. split_and!; [done..|by eapply keeps_added|].
    intros p [= <-]. destruct (mapBlockIndex st !! GetHash H block) as [i|] eqn:E.
    - rewrite (a_known _ _ _ _ _ Ha) by by eexists. by eexists.
    - destruct (a_new _ _ _ _ _ Ha E) as (i & -> & _). rewrite lookup_insert_eq. by eexists. }
  destruct (negb _); [|done]. destruct (mapBlockIndex st !! hash) as [i|] eqn:Hi.
  { destruct (negb _); eexists _, _; (split; [done|]); split_and!; try done. intros p [= <-]. by eexists. }
  destruct (check_new_header_spec H params cl now st hash block) as (st' & r & -> & Hst' & Hk & Hr); [done..|].
  cbn [mbind result_bind]. destruct r as [r|]; [by eexists _, _|]. by destruct (Hr eq_refl) as [-> _].
Qed.

(** ** Time *)

Lemma past_times_ext m m' n p l : (forall q i, m !! q = Some i -> m' !! q = Some i) ->
  past_times m n p = Ok l -> past_times m' n p = Ok l.
Proof.
  intros Hk. revert p l. induction n as [|n IH]; intros p l H; [done|].
  destruct p as [p|]; [|done]. cbn [past_times] in *. destruct (m !! p) as [i|] eqn:E; [|done].
  rewrite (Hk p i E). cbn [deref mbind result_bind] in *.
  apply result_bind_Ok in H as (rest & Hr & H). by rewrite (IH _ _ Hr).
Qed.

(** A block later than the median time past of its parent does not lower it. *)
Lemma median_time_push m m' prev pi x i t : index_ok m -> m !! prev = Some pi ->
  (forall q j, m !! q = Some j -> m' !! q = Some j) -> m' !! x = Some i -> pprev i = Some prev ->
  GetMedianTimePast m prev = Ok t -> t < nTime i ->
  exists t', GetMedianTimePast m' x = Ok t' /\ t <= t'.
Proof.
  intros Hm Hprev Hk Hx Hpp Ht Hlt. unfold GetMedianTimePast in *.
  destruct (past_times_total m nMedianTimeSpan prev pi Hm Hprev) as (l & El & Hlen & Hne).
  rewrite El in Ht. injection Ht as <-. unfold nMedianTimeSpan in *.
  pose proof (past_times_ext m m' 10 (Some prev) (take 10 l) Hk (past_times_take m 10 (Some prev) l El)) as E.
  change (past_times m' 11 (Some x)) with
    (idx ← deref (m' !! x); rest ← past_times m' 10 (pprev idx); Ok (nTime idx :: rest)).
  rewrite Hx. cbn [deref mbind result_bind]. rewrite Hpp, E. cbn [mbind result_bind fmap result_fmap].
  eexists. split; [done|]. apply median_push; [lia|done|apply Hne; lia].
Qed.

(** ** A concrete network for the witnesses: two hash functions that read the
    nonce, a genesis block and a block mined over it with yespower. *)

Definition toy_hashes : PowHashes :=
  mkPowHashes (fun b => take 4 (drop 76 b) ++ replicate 28 0) (fun b _ => take 32 b)
    (fun b => 1 :: take 4 (drop 76 b) ++ replicate 27 0) (fun b => take 32 b) (fun b => take 32 b).

Definition toy_genesis : CBlockHeader :=
  mkHeader 4 uint256_null (replicate 32 9) 1618800784 0x20001fff 70 uint256_null.
Definition toy_params : ChainParams :=
  mkChainParams MainPow (GetHash toy_hashes toy_genesis) uint256_null [(0, GetHash toy_hashes toy_genesis)] true.
Definition toy_block : CBlockHeader :=
  mkHeader (2 ^ 29 + BLOCK_VERSION_YESPOWER) (GetHash toy_hashes toy_genesis) (replicate 32 8)
    1618800900 0x2000ffff 71 uint256_null.

Definition no_locks : ChainLocks := mkChainLocks false None.
Definition empty_state : HeaderState := mkHeaderState ∅ None [] [] [].
Definition toy_accept (st : HeaderState) (b : CBlockHeader) : HeaderState :=
  match AcceptBlockHeader toy_hashes toy_params no_locks 1618800900 st b with
  | Ok (st', _) => st'
  | Err _ => st
  end.
Definition toy_state : HeaderState := toy_accept empty_state toy_genesis.

Lemma empty_state_ok : tree_ok empty_state.
Proof.
  split; unfold empty_state; cbn; try (intros ? ?; by rewrite lookup_empty); try done.
  intros f Hf. by apply not_elem_of_nil in Hf.
Qed.

Lemma toy_params_ok : chain_params_ok toy_params.
Proof. split; [apply MainPow_ok|]. vm_compute. split; congruence. Qed.

Lemma toy_genesis_ok : header_ok toy_genesis.
Proof.
  unfold header_ok, uint256_ok, is_u32, toy_genesis; cbn.
  repeat split; try lia; repeat constructor; unfold is_byte; lia.
Qed.

Lemma toy_block_ok : header_ok toy_block.
Proof.
  unfold header_ok, uint256_ok, is_u32, toy_block; cbn.
  repeat split; try lia; try reflexivity; vm_compute; repeat constructor; congruence.
Qed.

Lemma toy_state_ok : tree_ok toy_state.
Proof.
  unfold toy_state, toy_accept.
  destruct (AcceptBlockHeader_total toy_hashes toy_params no_locks 1618800900 empty_state toy_genesis)
    as (st' & r & -> & H & _); [apply empty_state_ok|apply toy_params_ok|apply toy_genesis_ok|vm_compute; congruence|done|].
  done.
Qed.

(** ** Properties *)

(** C9: on a consistent header state [AcceptBlockHeader] never dereferences a
    null pointer, divides by zero or fails an assertion, whatever the header;
    the state it leaves is consistent again (links, skip pointers, heights,
    running maxima, failed set), no block is forgotten, and an accepted header
    is in the index. *)
Theorem accept_header_invariant H params cl now st block : tree_ok st -> chain_params_ok params ->
  header_ok block -> hdr_hashPrevBlock block <> GetHash H block ->
  (forall b, bestChainLockBlockIndex cl = Some b -> is_Some (mapBlockIndex st !! b)) ->
  exists st' r, AcceptBlockHeader H params cl now st block = Ok (st', r) /\ tree_ok st' /\ keeps st st' /\
    (forall p, r = inl p -> is_Some (mapBlockIndex st' !! p)).
Proof. apply AcceptBlockHeader_total. Qed.

Lemma accept_header_invariant_witness :
  exists st' r, AcceptBlockHeader toy_hashes toy_params no_locks 1618800900 toy_state toy_block = Ok (st', r) /\
    tree_ok st' /\ r = inl (GetHash toy_hashes toy_block).
Proof.
  destruct (accept_header_invariant toy_hashes toy_params no_locks 1618800900 toy_state toy_block toy_state_ok
    toy_params_ok toy_block_ok ltac:(vm_compute; congruence) ltac:(discriminate)) as (st' & r & H1 & H2 & _).
  exists st', r. split; [exact H1|]. split; [exact H2|]. revert H1. vm_compute. intros [= _ <-]. reflexivity.
Defined.

(** a header that enters the index was checked in full: its hash meets the
    target it claims, the target is the one the retargeting rule requires after
    its parent, its time is later than the median of the eleven blocks before
    it and at most 15 minutes ahead; it is stored one above its parent, and the
    median time past never decreases from parent to child. *)
Theorem accepted_header_checked H params cl now st st' p block : tree_ok st -> chain_params_ok params ->
  header_ok block ->
  (forall b, bestChainLockBlockIndex cl = Some b -> is_Some (mapBlockIndex st !! b)) ->
  let hash := GetPOWHash H block (GetAlgo (hdr_nVersion block)) in
  hash <> hashGenesisBlock params -> mapBlockIndex st !! hash = None ->
  mapBlockIndex st !! GetHash H block = None ->
  AcceptBlockHeader H params cl now st block = Ok (st', inl p) ->
  p = GetHash H block /\
  CheckProofOfWork hash (hdr_nBits block) (consensus params) = true /\
  exists pi i t t',
    mapBlockIndex st !! hdr_hashPrevBlock block = Some pi /\ mapBlockIndex st' !! p = Some i /\
    pprev i = Some (hdr_hashPrevBlock block) /\ nHeight i = nHeight pi + 1 /\
    GetNextWorkRequired (mapBlockIndex st) (Some (hdr_hashPrevBlock block)) (consensus params)
      (GetAlgo (hdr_nVersion block)) = Ok (nBits i) /\
    GetMedianTimePast (mapBlockIndex st) (hdr_hashPrevBlock block) = Ok t /\
    t < nTime i <= now + MAX_FUTURE_BLOCK_TIME /\
    GetMedianTimePast (mapBlockIndex st') p = Ok t' /\ t <= t'.
Proof.
  intros Hst Hp Hblock Hcl hash Hgen Hnew Hx E. unfold AcceptBlockHeader in E. fold hash in E.
  rewrite bool_decide_eq_false_2, Hnew in E by done. cbn [negb] in E.
  destruct (check_new_header_spec H params cl now st hash block) as (st1 & r & E1 & _ & _ & Hr); [done..|].
  rewrite E1 in E. cbn [mbind result_bind] in E. destruct r; [done|].
  destruct (Hr eq_refl) as [-> [Hcb (pi & Hpi & _) Hctx]].
  assert (hdr_hashPrevBlock block <> GetHash H block) as Hself by congruence.
  destruct (AddToBlockIndex_spec H params st block BLOCK_VALID_TREE) as (st2 & E2 & Hst2 & Ha); [done..|by left|].
  rewrite E2 in E. cbn [mbind result_bind] in E. injection E as <- <-. split; [done|]. split.
  { unfold CheckBlockHeader in Hcb. fold hash in Hcb.
    destruct (CheckProofOfWork hash (hdr_nBits block) (consensus params)); [done|]. by destruct (_ && _). }
  destruct (a_new _ _ _ _ _ Ha Hx) as (i & Hm2 & (Hpp & Hb & Ht & Hv & _) & _).
  rewrite decide_True in Hpp by by eexists.
  assert (mapBlockIndex st2 !! GetHash H block = Some i) as Hi by (by rewrite Hm2, lookup_insert_eq).
  destruct (ContextualCheckBlockHeader_spec (mapBlockIndex st) params block (hdr_hashPrevBlock block) pi now
    (t_index _ Hst) (t_nbits _ Hst) Hp Hpi) as (r & Er & Hc). rewrite Hctx in Er. injection Er as <-.
  destruct (Hc eq_refl) as (t & Hmtp & Hrange & Hwork).
  destruct (median_time_push (mapBlockIndex st) (mapBlockIndex st2) _ pi (GetHash H block) i t
    (t_index _ Hst) Hpi (a_keep _ _ _ _ _ Ha) Hi Hpp Hmtp ltac:(lia)) as (t' & Ht' & Hle).
  destruct (t_index _ Hst2 _ i Hi) as (_ & Hl & _). unfold link_ok in Hl. rewrite Hpp in Hl.
  destruct Hl as (pi' & Hpi' & Hh). rewrite (a_keep _ _ _ _ _ Ha _ pi Hpi) in Hpi'. simplify_eq.
  exists pi', i, t, t'. rewrite Hb, Ht. done.
Qed.

Lemma accepted_header_checked_witness :
  CheckProofOfWork (GetPOWHash toy_hashes toy_block ALGO_YESPOWER) 0x2000ffff MainPow = true.
Proof.
  apply (accepted_header_checked toy_hashes toy_params no_locks 1618800900 toy_state
    (toy_accept toy_state toy_block) (GetHash toy_hashes toy_block) toy_block toy_state_ok toy_params_ok
    toy_block_ok).
  - discriminate.
  - vm_compute. congruence.
  - vm_compute. reflexivity.
  - vm_compute. reflexivity.
  - vm_compute. reflexivity.
Defined.

(** the duplicate test looks a header up by its proof-of-work hash while
    the index is keyed by [GetHash].  So a known block whose two hashes differ
    is not recognised: it is checked again and accepted whatever its failure
    flags say, and when it is itself the block the enforced chain lock points
    to it is refused as conflicting with that lock. *)
Theorem known_header_not_recognised H params cl now st block pi i :
  let hash := GetPOWHash H block (GetAlgo (hdr_nVersion block)) in
  hash <> hashGenesisBlock params -> mapBlockIndex st !! hash = None ->
  mapBlockIndex st !! GetHash H block = Some i ->
  header_checked H params now (mapBlockIndex st) block -> g_failed_blocks st = [] ->
  mapBlockIndex st !! hdr_hashPrevBlock block = Some pi -> nHeight i = nHeight pi + 1 ->
  (isEnforced cl = false ->
   AcceptBlockHeader H params cl now st block = Ok (st, inl (GetHash H block))) /\
  (isEnforced cl = true -> bestChainLockBlockIndex cl = Some (GetHash H block) ->
   AcceptBlockHeader H params cl now st block = Ok (st, inr (DoS 10 "bad-chainlock"))).
Proof.
  intros hash Hgen Hnew Hi [Hcb (pi' & Hpi & Hf1 & Hf2) Hctx] Hnil Hpi2 Hh.
  rewrite Hpi in Hpi2. simplify_eq. unfold AcceptBlockHeader. fold hash.
  rewrite bool_decide_eq_false_2, Hnew by done. cbn [negb]. unfold check_new_header.
  rewrite Hcb, Hpi, Hf1, Hf2, Hctx, Hnil. cbn [mbind result_bind failed_ancestor].
  change (IsValid (nStatus pi) BLOCK_VALID_SCRIPTS) with
    (if negb (Z.land (nStatus pi) BLOCK_FAILED_MASK =? 0) then Ok false
     else Ok (BLOCK_VALID_SCRIPTS <=? Z.land (nStatus pi) BLOCK_VALID_MASK)).
  rewrite Hf1. change (0 =? 0) with true. cbn [negb mbind result_bind].
  assert (forall b s, AddToBlockIndex H params st block s = Ok (st, GetHash H block) /\
    (if (b : bool) then Ok None else Ok (@None HeaderState)) = Ok None) as Hadd
    by (intros [] s; split; try done; unfold AddToBlockIndex; by rewrite Hi).
  rewrite (proj2 (Hadd _ 0)). cbn [mbind result_bind].
  assert (hash <> GetHash H block) as Hne by congruence.
  unfold HasConflictingChainLock. split.
  - intros ->. cbn [negb mbind result_bind]. by rewrite (proj1 (Hadd true _)).
  - intros -> ->. cbn [negb]. rewrite Hi. cbn [deref mbind result_bind]. rewrite <- Hh.
    rewrite Z.ltb_irrefl, Z.eqb_refl, bool_decide_eq_false_2 by done. cbn [negb mbind result_bind].
    by rewrite (proj1 (Hadd true _)).
Qed.

(** The state in which [toy_block] is known and marked invalid. *)
Definition toy_failed_state : HeaderState :=
  let st := toy_accept toy_state toy_block in
  match mapBlockIndex st !! GetHash toy_hashes toy_block with
  | Some i => set_map (<[GetHash toy_hashes toy_block := set_nStatus 34 i]> (mapBlockIndex st)) [] st
  | None => st
  end.

Lemma known_header_not_recognised_witness :
  AcceptBlockHeader toy_hashes toy_params no_locks 1618800900 toy_failed_state toy_block =
    Ok (toy_failed_state, inl (GetHash toy_hashes toy_block)) /\
  (nStatus <$> mapBlockIndex toy_failed_state !! GetHash toy_hashes toy_block) =
    Some (Z.lor BLOCK_VALID_TREE BLOCK_FAILED_VALID).
Proof.
  split; [|vm_compute; reflexivity].
  eapply (known_header_not_recognised toy_hashes toy_params no_locks 1618800900 toy_failed_state toy_block).
  - vm_compute. congruence.
  - vm_compute. reflexivity.
  - vm_compute. reflexivity.
  - split; [vm_compute; reflexivity|eexists; vm_compute; repeat split|vm_compute; reflexivity].
  - vm_compute. reflexivity.
  - vm_compute. reflexivity.
  - vm_compute. reflexivity.
  - reflexivity.
Defined.
