(* ===== verification/Serialize.v ===== *)
(** * Serialization (src/src/serialize.h, crypto/common.h)

    A byte stream is a list of bytes; a reader returns the value and the rest of
    the stream, or [Err IosFailure] where the source throws
    [std::ios_base::failure].  The interface the components build on is the class
    [Serial] with its law class [SerialLaws]: what was written is read back, and
    the rest of the stream is left untouched. *)

From Stdlib Require Import ZArith Lia.
From stdpp Require Import base tactics numbers option list.
From S2P Require Import Prelude ArithUint256 Compact Block.

(** ** Raw integers *)

(** [n] bytes of [x], least significant first: [htole..] and [write]. *)
Fixpoint le_bytes (n : nat) (x : Z) : list Z :=
  match n with
  | O => []
  | S n => u8 x :: le_bytes n (Z.shiftr x 8)
  end.

Fixpoint le_value (b : list Z) : Z :=
  match b with
  | [] => 0
  | c :: b => c + 2 ^ 8 * le_value b
  end.

(** [s.read(buf, n)]: throws at the end of the stream. *)
Definition read_bytes (n : nat) (s : list Z) : result (list Z * list Z) :=
  if (length s <? n)%nat then Err IosFailure else Ok (take n s, drop n s).

Definition ser_writedata8 (x : Z) : list Z := le_bytes 1 x.
Definition ser_writedata16 (x : Z) : list Z := le_bytes 2 x.
Definition ser_writedata32 (x : Z) : list Z := le_bytes 4 x.
Definition ser_writedata64 (x : Z) : list Z := le_bytes 8 x.

Definition read_le (n : nat) (s : list Z) : result (Z * list Z) :=
  '(b, s) ← read_bytes n s; Ok (le_value b, s).

Definition ser_readdata8 : list Z -> result (Z * list Z) := read_le 1.
Definition ser_readdata16 : list Z -> result (Z * list Z) := read_le 2.
Definition ser_readdata32 : list Z -> result (Z * list Z) := read_le 4.
Definition ser_readdata64 : list Z -> result (Z * list Z) := read_le 8.

(** ** Compact size *)

Definition MAX_SIZE : Z := 0x02000000.

Definition GetSizeOfCompactSize (nSize : Z) : Z :=
  if nSize <? 253 then 1
  else if nSize <=? 0xffff then 3
  else if nSize <=? 0xffffffff then 5
  else 9.

Definition WriteCompactSize (nSize : Z) : list Z :=
  if nSize <? 253 then ser_writedata8 nSize
  else if nSize <=? 0xffff then ser_writedata8 253 ++ ser_writedata16 nSize
  else if nSize <=? 0xffffffff then ser_writedata8 254 ++ ser_writedata32 nSize
  else ser_writedata8 255 ++ ser_writedata64 nSize.

Definition ReadCompactSize (s : list Z) : result (Z * list Z) :=
  '(chSize, s) ← ser_readdata8 s;
  '(nSizeRet, s) ←
    (if chSize <? 253 then Ok (chSize, s)
     else if chSize =? 253 then
       '(n, s) ← ser_readdata16 s; if n <? 253 then Err IosFailure else Ok (n, s)
     else if chSize =? 254 then
       '(n, s) ← ser_readdata32 s; if n <? 0x10000 then Err IosFailure else Ok (n, s)
     else
       '(n, s) ← ser_readdata64 s; if n <? 0x100000000 then Err IosFailure else Ok (n, s));
  if MAX_SIZE <? nSizeRet then Err IosFailure else Ok (nSizeRet, s).

(** ** Variable-length integers

    [I] is a type of [w] bits with largest value [max]; [tmp] has
    [(w + 6) / 7] cells, which is the fuel: writing past it is an error. *)

Fixpoint varint_cells (cells : nat) (n : Z) (cont : Z) (tmp : list Z) : result (list Z) :=
  match cells with
  | O => Err OutOfFuel
  | S cells =>
      let tmp := Z.lor (Z.land n 0x7F) cont :: tmp in
      if n <=? 0x7F then Ok tmp else varint_cells cells (Z.shiftr n 7 - 1) 0x80 tmp
  end.

Definition WriteVarInt (w : Z) (n : Z) : result (list Z) :=
  varint_cells (Z.to_nat ((w + 6) / 7)) n 0x00 [].

Fixpoint ReadVarInt (max : Z) (n : Z) (s : list Z) : result (Z * list Z) :=
  match s with
  | [] => Err IosFailure
  | chData :: s =>
      if Z.shiftr max 7 <? n then Err IosFailure
      else
        let n := Z.lor (Z.shiftl n 7) (Z.land chData 0x7F) in
        if negb (Z.land chData 0x80 =? 0)
        then if n =? max then Err IosFailure else ReadVarInt max (n + 1) s
        else Ok (n, s)
  end.

Fixpoint size_of_varint (fuel : nat) (n : Z) : Z :=
  match fuel with
  | O => 0
  | S fuel => if n <=? 0x7F then 1 else 1 + size_of_varint fuel (Z.shiftr n 7 - 1)
  end.
Definition GetSizeOfVarInt (w n : Z) : Z := size_of_varint (Z.to_nat ((w + 6) / 7)) n.

(** ** The interface of serializable types *)

Class Serial (A : Type) := {
  ser : A -> list Z;
  unser : list Z -> result (A * list Z)
}.

(** The values of [A] that survive a round trip. *)
Class SerialLaws (A : Type) `{Serial A} := {
  ser_ok : A -> Prop;
  unser_ser : forall a s, ser_ok a -> unser (ser a ++ s) = Ok (a, s);
  ser_bytes : forall a, ser_ok a -> Forall is_byte (ser a)
}.

(** ** Vectors *)

Section Vector.
Context {A : Type} `{Serial A}.

(** The inner loop [for (; i < nMid; i++) Unserialize(is, v[i])]. *)
Fixpoint read_n (n : nat) (s : list Z) : result (list A * list Z) :=
  match n with
  | O => Ok ([], s)
  | S n => '(a, s) ← unser s; '(l, s) ← read_n n s; Ok (a :: l, s)
  end.

(** [Unserialize_impl] for a vector of objects: at most [chunk] objects are
    allocated at a time. *)
Fixpoint read_chunks (fuel : nat) (chunk nSize : Z) (v : list A) (s : list Z) : result (list A * list Z) :=
  if nSize <=? Z.of_nat (length v) then Ok (v, s)
  else match fuel with
       | O => Err OutOfFuel
       | S fuel =>
           '(l, s) ← read_n (Z.to_nat (Z.min (Z.of_nat (length v) + chunk) nSize) - length v) s;
           read_chunks fuel chunk nSize (v ++ l) s
       end.

Definition ser_vector (v : list A) : list Z :=
  WriteCompactSize (Z.of_nat (length v)) ++ mjoin (ser <$> v).

(** [chunk] is [5000000 / sizeof(T)]. *)
Definition unser_vector (chunk : Z) (s : list Z) : result (list A * list Z) :=
  '(n, s) ← ReadCompactSize s;
  read_chunks (S (Z.to_nat n)) chunk n [] s.
End Vector.

(** A vector of bytes is read in blocks of 5,000,000. *)
Fixpoint read_blocks (fuel : nat) (blk nSize : Z) (v s : list Z) : result (list Z * list Z) :=
  if nSize <=? Z.of_nat (length v) then Ok (v, s)
  else match fuel with
       | O => Err OutOfFuel
       | S fuel =>
           '(l, s) ← read_bytes (Z.to_nat (Z.min (nSize - Z.of_nat (length v)) blk)) s;
           read_blocks fuel blk nSize (v ++ l) s
       end.

Definition ser_byte_vector (v : list Z) : list Z := WriteCompactSize (Z.of_nat (length v)) ++ v.

Definition unser_byte_vector (s : list Z) : result (list Z * list Z) :=
  '(n, s) ← ReadCompactSize s;
  read_blocks (S (Z.to_nat n)) 5000000 n [] s.

(** ** Lemmas on raw integers *)

Lemma le_bytes_length n x : length (le_bytes n x) = n.
Proof. revert x. induction n as [|n IH]; intros x; cbn; [done|]. by rewrite IH. Qed.

Lemma le_bytes_byte n x : Forall is_byte (le_bytes n x).
Proof. revert x. induction n as [|n IH]; intros x; cbn; constructor; [apply u8_range|apply IH]. Qed.

Lemma le_value_bytes n x : 0 <= x < 2 ^ (8 * Z.of_nat n) -> le_value (le_bytes n x) = x.
Proof.
  revert x. induction n as [|n IH]; intros x Hx; cbn [le_bytes le_value]; [change (2 ^ (8 * Z.of_nat 0)) with 1 in Hx; lia|].
  rewrite Z.shiftr_div_pow2 by lia. rewrite IH.
  - unfold u8. pose proof (Z.div_mod x (2 ^ 8) ltac:(lia)). lia.
  - split; [apply Z.div_pos; lia|]. apply Z.div_lt_upper_bound; [lia|].
    replace (8 * Z.of_nat (S n)) with (8 + 8 * Z.of_nat n) in Hx by lia. rewrite Z.pow_add_r in Hx by lia. lia.
Qed.

Lemma le_value_range b : Forall is_byte b -> 0 <= le_value b < 2 ^ (8 * Z.of_nat (length b)).
Proof.
  induction 1 as [|c b Hc Hb IH]; cbn [le_value length]; [cbn; lia|].
  replace (8 * Z.of_nat (S (length b))) with (8 + 8 * Z.of_nat (length b)) by lia.
  rewrite Z.pow_add_r by lia. unfold is_byte in Hc. nia.
Qed.

Lemma le_bytes_value b : Forall is_byte b -> le_bytes (length b) (le_value b) = b.
Proof.
  induction 1 as [|c b Hc Hb IH]; cbn [le_value length le_bytes]; [done|]. unfold is_byte in Hc.
  assert (u8 (c + 2 ^ 8 * le_value b) = c) as ->.
  { unfold u8. rewrite Z.mul_comm, Z.mod_add by lia. by apply Z.mod_small. }
  rewrite Z.shiftr_div_pow2, Z.mul_comm, Z.div_add by lia. rewrite Z.div_small, Z.add_0_l by lia. by rewrite IH.
Qed.

Lemma read_bytes_app n b s : length b = n -> read_bytes n (b ++ s) = Ok (b, s).
Proof.
  intros <-. unfold read_bytes. rewrite length_app, (proj2 (Nat.ltb_ge _ _)) by lia.
  by rewrite take_app_length, drop_app_length.
Qed.

Lemma read_bytes_inv n s b r : read_bytes n s = Ok (b, r) -> s = b ++ r /\ length b = n.
Proof.
  unfold read_bytes. destruct (Nat.ltb_spec (length s) n); [done|]. intros [= <- <-].
  rewrite take_drop, length_take. split; [done|lia].
Qed.

Lemma read_le_bytes n x s : 0 <= x < 2 ^ (8 * Z.of_nat n) -> read_le n (le_bytes n x ++ s) = Ok (x, s).
Proof.
  intros Hx. unfold read_le. rewrite read_bytes_app by apply le_bytes_length. cbn.
  by rewrite le_value_bytes.
Qed.

Lemma read_le_inv n s x r : Forall is_byte s -> read_le n s = Ok (x, r) ->
  s = le_bytes n x ++ r /\ 0 <= x < 2 ^ (8 * Z.of_nat n) /\ Forall is_byte r.
Proof.
  intros Hs H. unfold read_le in H. apply result_bind_Ok in H as ([b r'] & Hb & H). injection H as <- <-.
  apply read_bytes_inv in Hb as [-> <-]. apply Forall_app in Hs as [Hb Hr].
  rewrite le_bytes_value by done. split_and!; [done| |apply le_value_range; done..|done].
  by apply le_value_range.
Qed.

(** ** Compact size *)

Lemma ReadCompactSize_Write n s : 0 <= n <= MAX_SIZE -> ReadCompactSize (WriteCompactSize n ++ s) = Ok (n, s).
Proof.
  unfold MAX_SIZE. intros Hn. unfold WriteCompactSize, ReadCompactSize, ser_readdata8, ser_writedata8.
  destruct (Z.ltb_spec n 253); [|destruct (Z.leb_spec n 0xffff); [|destruct (Z.leb_spec n 0xffffffff); [|lia]]];
    rewrite <- ?app_assoc, read_le_bytes by (cbn; lia); cbn [mbind result_bind].
  - rewrite (proj2 (Z.ltb_lt n 253)) by lia. cbn [mbind result_bind].
    by rewrite (proj2 (Z.ltb_ge _ _)) by (unfold MAX_SIZE; lia).
  - cbn [Z.ltb Z.compare Pos.compare Pos.compare_cont Z.eqb Pos.eqb]. unfold ser_readdata16, ser_writedata16.
    rewrite read_le_bytes by (cbn; lia). cbn [mbind result_bind].
    rewrite (proj2 (Z.ltb_ge n 253)) by lia. cbn [mbind result_bind].
    by rewrite (proj2 (Z.ltb_ge _ _)) by (unfold MAX_SIZE; lia).
  - cbn [Z.ltb Z.compare Pos.compare Pos.compare_cont Z.eqb Pos.eqb]. unfold ser_readdata32, ser_writedata32.
    rewrite read_le_bytes by (cbn; lia). cbn [mbind result_bind].
    rewrite (proj2 (Z.ltb_ge n 0x10000)) by lia. cbn [mbind result_bind].
    by rewrite (proj2 (Z.ltb_ge _ _)) by (unfold MAX_SIZE; lia).
Qed.

Lemma ReadCompactSize_inv s n r : Forall is_byte s -> ReadCompactSize s = Ok (n, r) ->
  s = WriteCompactSize n ++ r /\ 0 <= n <= MAX_SIZE.
Proof.
  intros Hs H. unfold ReadCompactSize in H. apply result_bind_Ok in H as ([ch s1] & H1 & H).
  apply read_le_inv in H1 as (-> & Hch & Hs1); [|done]. change (8 * Z.of_nat 1) with 8 in Hch.
  apply result_bind_Ok in H as ([n' s2] & H2 & H). destruct (Z.ltb_spec MAX_SIZE n'); [done|]. injection H as <- <-.
  unfold WriteCompactSize, ser_writedata8, ser_writedata16, ser_writedata32, ser_writedata64.
  unfold MAX_SIZE in *. destruct (Z.ltb_spec ch 253).
  { injection H2 as <- <-. rewrite (proj2 (Z.ltb_lt ch 253)) by lia. split; [done|lia]. }
  destruct (Z.eqb_spec ch 253) as [->|]; [|destruct (Z.eqb_spec ch 254) as [->|]].
  - apply result_bind_Ok in H2 as ([x s3] & H2 & H3). apply read_le_inv in H2 as (-> & Hx & _); [|done].
    change (8 * Z.of_nat 2) with 16 in Hx. destruct (Z.ltb_spec x 253); [done|]. injection H3 as <- <-.
    rewrite (proj2 (Z.ltb_ge x 253)), (proj2 (Z.leb_le x 0xffff)) by lia. split; [by rewrite <- app_assoc|lia].
  - apply result_bind_Ok in H2 as ([x s3] & H2 & H3). apply read_le_inv in H2 as (-> & Hx & _); [|done].
    change (8 * Z.of_nat 4) with 32 in Hx. destruct (Z.ltb_spec x 0x10000); [done|]. injection H3 as <- <-.
    rewrite (proj2 (Z.ltb_ge x 253)), (proj2 (Z.leb_gt x 0xffff)), (proj2 (Z.leb_le x 0xffffffff)) by lia.
    split; [by rewrite <- app_assoc|lia].
  - apply result_bind_Ok in H2 as ([x s3] & H2 & H3). apply read_le_inv in H2 as (-> & Hx & _); [|done].
    destruct (Z.ltb_spec x 0x100000000); [done|]. injection H3 as <- <-. lia.
Qed.

(** ** Variable-length integers *)

(** The encoding as a list, most significant group first; [cont] is the
    continuation bit of the last byte. *)
Fixpoint varint_enc (cells : nat) (n cont : Z) : list Z :=
  match cells with
  | O => []
  | S cells =>
      if n <=? 127 then [n + cont]
      else varint_enc cells (n / 128 - 1) 128 ++ [n mod 128 + cont]
  end.

Lemma cont_byte n cont : cont = 0 \/ cont = 128 -> Z.lor (Z.land n 0x7F) cont = n mod 128 + cont.
Proof.
  intros Hc. change 0x7F with (Z.ones 7). rewrite Z.land_ones by lia. change (2 ^ 7) with 128.
  pose proof (Z.mod_pos_bound n 128 ltac:(lia)).
  destruct Hc as [->| ->]; [by rewrite Z.lor_0_r, Z.add_0_r|].
  change 128 with (Z.shiftl 1 7) at 2. rewrite lor_disjoint_add by lia. lia.
Qed.

Lemma varint_fits n k : 0 <= n < 2 ^ (7 * Z.of_nat (S k)) -> 127 < n ->
  0 <= n / 128 - 1 < 2 ^ (7 * Z.of_nat k).
Proof.
  intros Hn H. replace (7 * Z.of_nat (S k)) with (7 + 7 * Z.of_nat k) in Hn by lia.
  rewrite Z.pow_add_r in Hn by lia. change (2 ^ 7) with 128 in Hn.
  assert (1 <= n / 128) by (apply Z.div_le_lower_bound; lia).
  assert (n / 128 < 2 ^ (7 * Z.of_nat k)) by (apply Z.div_lt_upper_bound; lia). lia.
Qed.

Lemma varint_enc_S k n cont : varint_enc (S k) n cont =
  if n <=? 127 then [n + cont] else varint_enc k (n / 128 - 1) 128 ++ [n mod 128 + cont].
Proof. done. Qed.

Lemma varint_cells_S k n cont tmp : cont = 0 \/ cont = 128 -> varint_cells (S k) n cont tmp =
  if n <=? 127 then Ok (n mod 128 + cont :: tmp)
  else varint_cells k (n / 128 - 1) 128 (n mod 128 + cont :: tmp).
Proof.
  intros Hc. cbn [varint_cells]. rewrite cont_byte, Z.shiftr_div_pow2 by (done || lia). done.
Qed.

Lemma varint_cells_enc k n cont tmp : 0 <= n < 2 ^ (7 * Z.of_nat (S k)) -> cont = 0 \/ cont = 128 ->
  varint_cells (S k) n cont tmp = Ok (varint_enc (S k) n cont ++ tmp).
Proof.
  revert n cont tmp. induction k as [|k IH]; intros n cont tmp Hn Hc;
    rewrite varint_cells_S, varint_enc_S by done; destruct (Z.leb_spec n 127).
  - by rewrite Z.mod_small by lia.
  - change (2 ^ (7 * Z.of_nat 1)) with 128 in Hn. lia.
  - by rewrite Z.mod_small by lia.
  - rewrite IH; [|by apply varint_fits|auto]. by rewrite <- app_assoc.
Qed.

Lemma varint_enc_fuel j k n cont : 0 <= n < 2 ^ (7 * Z.of_nat (S j)) -> (j <= k)%nat ->
  varint_enc (S k) n cont = varint_enc (S j) n cont.
Proof.
  revert k n cont. induction j as [|j IH]; intros k n cont Hn Hk; rewrite !varint_enc_S; (destruct (Z.leb_spec n 127); [done|]).
  - change (2 ^ (7 * Z.of_nat 1)) with 128 in Hn. lia.
  - destruct k as [|k]; [lia|]. f_equal. apply IH; [by apply varint_fits|lia].
Qed.

Lemma varint_enc_length k n cont : (length (varint_enc k n cont) <= k)%nat.
Proof.
  revert n cont. induction k as [|k IH]; intros n cont; cbn [varint_enc]; [done|].
  destruct (n <=? 127); cbn [length]; [lia|]. rewrite length_app. cbn [length].
  specialize (IH (n / 128 - 1) 128). lia.
Qed.

(** One step of the reader. *)
Lemma ReadVarInt_cons max n ch s : 0 <= n -> is_byte ch ->
  ReadVarInt max n (ch :: s) =
  if max / 128 <? n then Err IosFailure
  else if 128 <=? ch
  then if n * 128 + ch mod 128 =? max then Err IosFailure else ReadVarInt max (n * 128 + ch mod 128 + 1) s
  else Ok (n * 128 + ch mod 128, s).
Proof.
  intros Hn Hch. unfold is_byte in Hch. cbn [ReadVarInt]. rewrite Z.shiftr_div_pow2 by lia. change (2 ^ 7) with 128.
  assert (Z.lor (Z.shiftl n 7) (Z.land ch 0x7F) = n * 128 + ch mod 128) as ->.
  { change 0x7F with (Z.ones 7). rewrite Z.land_ones by lia. rewrite Z.lor_comm.
    change (2 ^ 7) with 128. pose proof (Z.mod_pos_bound ch 128 ltac:(lia)).
    rewrite lor_disjoint_add by lia. change (2 ^ 7) with 128. lia. }
  change 0x80 with (Z.shiftl 1 7). rewrite land_bit_zero, negb_involutive by lia.
  assert (Z.testbit ch 7 = (128 <=? ch)) as ->; [|done].
  rewrite Z.testbit_odd, Z.shiftr_div_pow2 by lia. change (2 ^ 7) with 128.
  destruct (Z.leb_spec 128 ch).
  - replace (ch / 128) with 1; [done|]. apply (Z.div_unique ch 128 1 (ch - 128)); lia.
  - by rewrite Z.div_small by lia.
Qed.

(** Reading the last byte of the group that completes [n]. *)
Lemma ReadVarInt_last max n m c s : 0 <= m -> 0 <= c < 128 -> m * 128 + c = n -> n <= max ->
  ReadVarInt max m (c + 0 :: s) = Ok (n, s) /\
  (n < max -> ReadVarInt max m (c + 128 :: s) = ReadVarInt max (n + 1) s).
Proof.
  intros Hm Hc E Hmax. assert (m <= max / 128) by (apply Z.div_le_lower_bound; lia).
  split; [|intros Hlt]; rewrite ReadVarInt_cons by (done || unfold is_byte; lia);
    rewrite (proj2 (Z.ltb_ge _ _)) by lia.
  - rewrite Z.add_0_r, Z.mod_small, (proj2 (Z.leb_gt _ _)) by lia. by rewrite E.
  - rewrite (proj2 (Z.leb_le _ _)) by lia.
    replace ((c + 128) mod 128) with c by (apply (Z.mod_unique_pos _ _ 1); lia).
    rewrite E, (proj2 (Z.eqb_neq _ _)) by lia. done.
Qed.

Lemma ReadVarInt_enc max k n s : 0 <= n < 2 ^ (7 * Z.of_nat (S k)) -> n <= max ->
  ReadVarInt max 0 (varint_enc (S k) n 0 ++ s) = Ok (n, s) /\
  (n < max -> ReadVarInt max 0 (varint_enc (S k) n 128 ++ s) = ReadVarInt max (n + 1) s).
Proof.
  revert n s. induction k as [|k IH]; intros n s Hn Hmax; rewrite !varint_enc_S;
    (destruct (Z.leb_spec n 127); [apply (ReadVarInt_last max n 0 n s); lia|]).
  - change (2 ^ (7 * Z.of_nat 1)) with 128 in Hn. lia.
  - pose proof (varint_fits n (S k) Hn ltac:(lia)) as Hm.
    assert (n / 128 < n) by (apply Z.div_lt; lia). pose proof (Z.div_mod n 128 ltac:(lia)).
    pose proof (Z.mod_pos_bound n 128 ltac:(lia)).
    destruct (ReadVarInt_last max n (n / 128) (n mod 128) s ltac:(lia) ltac:(lia) ltac:(lia) Hmax) as [L0 L1].
    rewrite <- !app_assoc. cbn [app].
    split; [|intros Hlt]; rewrite (proj2 (IH (n / 128 - 1) _ Hm ltac:(lia))) by lia;
      (replace (n / 128 - 1 + 1) with (n / 128) by lia); auto.
Qed.

(** Appending one more group to the prefix [m - 1]. *)
Lemma varint_enc_snoc k n m c cont : 0 <= n < 2 ^ (7 * Z.of_nat (S k)) -> 0 < m -> 0 <= c < 128 ->
  n = m * 128 + c -> varint_enc (S k) n cont = varint_enc (S k) (m - 1) 128 ++ [c + cont].
Proof.
  intros Hn Hm Hc ->. rewrite (varint_enc_S k (m * 128 + c)). rewrite (proj2 (Z.leb_gt _ _)) by lia.
  assert ((m * 128 + c) / 128 = m) as Hd by (symmetry; apply (Z.div_unique _ _ m c); lia).
  assert ((m * 128 + c) mod 128 = c) as -> by (symmetry; apply (Z.mod_unique _ _ m c); lia).
  pose proof (varint_fits (m * 128 + c) k Hn ltac:(lia)) as Hf. rewrite Hd in *.
  destruct k as [|k]; [change (2 ^ (7 * Z.of_nat 0)) with 1 in Hf; change (2 ^ (7 * Z.of_nat 1)) with 128 in Hn; lia|].
  by rewrite (varint_enc_fuel k (S k)) by (done || lia).
Qed.

(** Whatever is read is the encoding of the value: no redundancy. *)
Lemma ReadVarInt_inv w k m s n r : Forall is_byte s -> 7 <= w <= 7 * Z.of_nat (S k) -> 0 <= m < 2 ^ w ->
  ReadVarInt (2 ^ w - 1) m s = Ok (n, r) ->
  exists t, s = t ++ r /\ 0 <= n < 2 ^ w /\
    (if m =? 0 then t else varint_enc (S k) (m - 1) 128 ++ t) = varint_enc (S k) n 0.
Proof.
  intros Hs Hw. revert m. induction Hs as [|ch s Hch Hs IH]; intros m Hm H; [done|].
  rewrite ReadVarInt_cons in H by (done || lia). unfold is_byte in Hch.
  destruct (Z.ltb_spec ((2 ^ w - 1) / 128) m); [done|]. pose proof (Z.mod_pos_bound ch 128 ltac:(lia)).
  assert (2 ^ w = 2 ^ (w - 7) * 128) as Hp by (change 128 with (2 ^ 7); rewrite <- Z.pow_add_r by lia; f_equal; lia).
  assert (m < 2 ^ (w - 7)) as Hm7.
  { assert ((2 ^ w - 1) / 128 < 2 ^ (w - 7)) by (apply Z.div_lt_upper_bound; lia). lia. }
  set (x := m * 128 + ch mod 128) in *. assert (0 <= x < 2 ^ w) as Hx by nia.
  assert (2 ^ w <= 2 ^ (7 * Z.of_nat (S k))) by (apply Z.pow_le_mono_r; lia).
  assert (forall cont, cont = 0 /\ ch < 128 \/ cont = 128 /\ 128 <= ch ->
    (if m =? 0 then [ch] else varint_enc (S k) (m - 1) 128 ++ [ch]) = varint_enc (S k) x cont) as Henc.
  { intros cont Hc. assert (ch = ch mod 128 + cont) as Ech.
    { destruct Hc as [[-> ?]|[-> ?]]; [rewrite Z.mod_small; lia|].
      replace (ch mod 128) with (ch - 128) by (apply (Z.mod_unique_pos _ _ 1); lia). lia. }
    destruct (Z.eqb_spec m 0) as [->|].
    - rewrite varint_enc_S. subst x. rewrite Z.mul_0_l, Z.add_0_l, (proj2 (Z.leb_le _ _)) by lia. by rewrite <- Ech.
    - rewrite (varint_enc_snoc k x m (ch mod 128) cont) by (done || lia). by rewrite <- Ech. }
  destruct (Z.leb_spec 128 ch).
  - destruct (Z.eqb_spec x (2 ^ w - 1)); [done|]. destruct (IH (x + 1) ltac:(lia) H) as (t & -> & Hn & E).
    exists (ch :: t). split_and!; [done|lia|lia|]. rewrite (proj2 (Z.eqb_neq _ _)) in E by lia.
    replace (x + 1 - 1) with x in E by lia. rewrite <- E, <- (Henc 128) by lia.
    destruct (m =? 0); [done|]. by rewrite <- app_assoc.
  - injection H as <- <-. exists [ch]. split_and!; [done|lia|lia|]. apply Henc. lia.
Qed.

(** ** Vectors *)

Section VectorLemmas.
Context {A : Type} `{Serial A}.

Lemma read_n_add i j s : @read_n A _ (i + j) s =
  ('(a, s) ← read_n i s; '(b, s) ← read_n j s; Ok (a ++ b, s)).
Proof.
  revert s. induction i as [|i IH]; intros s; cbn [Nat.add read_n mbind result_bind].
  - destruct (read_n j s) as [[b r]|e]; done.
  - destruct (unser s) as [[a r]|e]; cbn [mbind result_bind]; [|done]. rewrite IH.
    destruct (read_n i r) as [[l r']|e]; cbn [mbind result_bind]; [|done].
    destruct (read_n j r') as [[l' r'']|e]; done.
Qed.

Lemma read_n_length n s l r : @read_n A _ n s = Ok (l, r) -> length l = n.
Proof.
  revert s l r. induction n as [|n IH]; intros s l r E; cbn [read_n] in E; [by simplify_eq|].
  apply result_bind_Ok in E as ([a s1] & _ & E). apply result_bind_Ok in E as ([l' s2] & E2 & E).
  simplify_eq. cbn [length]. by rewrite (IH _ _ _ E2).
Qed.

(** Reading in chunks is reading [nSize] objects. *)
Lemma read_chunks_eq fuel chunk nSize v s : 0 < chunk -> 0 <= nSize ->
  (Z.to_nat nSize - length v < fuel)%nat -> Z.of_nat (length v) <= nSize ->
  @read_chunks A _ fuel chunk nSize v s =
  ('(l, s) ← read_n (Z.to_nat nSize - length v) s; Ok (v ++ l, s)).
Proof.
  intros Hc Hn. revert v s. induction fuel as [|fuel IH]; intros v s Hf Hv; [lia|].
  cbn [read_chunks]. destruct (Z.leb_spec nSize (Z.of_nat (length v))).
  { replace (Z.to_nat nSize - length v)%nat with O by lia. cbn. by rewrite app_nil_r. }
  set (k := (Z.to_nat (Z.min (Z.of_nat (length v) + chunk) nSize) - length v)%nat).
  replace (Z.to_nat nSize - length v)%nat with (k + (Z.to_nat nSize - length v - k))%nat by lia.
  rewrite read_n_add. destruct (read_n k s) as [[l r]|e] eqn:E; cbn [mbind result_bind]; [|done].
  apply read_n_length in E. rewrite IH by (rewrite length_app; lia). rewrite length_app, E.
  replace (Z.to_nat nSize - (length v + k))%nat with (Z.to_nat nSize - length v - k)%nat by lia.
  destruct (read_n _ r) as [[l' r']|e']; cbn [mbind result_bind]; [|done]. by rewrite <- app_assoc.
Qed.

Context `{!SerialLaws A}.

Lemma read_n_ser l s : Forall ser_ok l -> read_n (length l) (mjoin (ser <$> l) ++ s) = Ok (l, s).
Proof.
  induction 1 as [|a l Ha Hl IH]; [done|]. cbn [length read_n].
  change (mjoin (ser <$> a :: l)) with (ser a ++ mjoin (ser <$> l)).
  rewrite <- app_assoc, unser_ser by done. cbn [mbind result_bind]. by rewrite IH.
Qed.

Definition vector_ok (l : list A) : Prop := Forall ser_ok l /\ Z.of_nat (length l) <= MAX_SIZE.

Lemma unser_vector_ser chunk l s : 0 < chunk -> vector_ok l ->
  unser_vector chunk (ser_vector l ++ s) = Ok (l, s).
Proof.
  intros Hc [Hl Hn]. unfold unser_vector, ser_vector. rewrite <- app_assoc, ReadCompactSize_Write by lia.
  cbn [mbind result_bind]. rewrite read_chunks_eq by (done || cbn; lia). cbn [length].
  rewrite Nat.sub_0_r, Nat2Z.id, read_n_ser by done. done.
Qed.
End VectorLemmas.

Lemma WriteCompactSize_bytes n : Forall is_byte (WriteCompactSize n).
Proof.
  unfold WriteCompactSize. repeat case_test; rewrite ?Forall_app; try split; apply le_bytes_byte.
Qed.

Lemma ser_vector_bytes {A} `{SerialLaws A} (l : list A) : Forall ser_ok l -> Forall is_byte (ser_vector l).
Proof.
  intros Hl. unfold ser_vector. apply Forall_app. split; [apply WriteCompactSize_bytes|].
  induction Hl as [|a l Ha Hl IH]; cbn; [done|]. apply Forall_app. by split; [apply ser_bytes|].
Qed.

(** Reading a byte vector in blocks is reading it at once. *)
Lemma read_blocks_eq fuel blk nSize v s : 0 < blk -> 0 <= nSize ->
  (Z.to_nat nSize - length v < fuel)%nat -> Z.of_nat (length v) <= nSize ->
  (Z.to_nat nSize - length v <= length s)%nat ->
  read_blocks fuel blk nSize v s =
  Ok (v ++ take (Z.to_nat nSize - length v) s, drop (Z.to_nat nSize - length v) s).
Proof.
  intros Hb Hn. revert v s. induction fuel as [|fuel IH]; intros v s Hf Hv Hs; [lia|]. cbn [read_blocks].
  destruct (Z.leb_spec nSize (Z.of_nat (length v))).
  { replace (Z.to_nat nSize - length v)%nat with O by lia. by rewrite take_0, app_nil_r. }
  set (k := Z.to_nat (Z.min (nSize - Z.of_nat (length v)) blk)). unfold read_bytes.
  rewrite (proj2 (Nat.ltb_ge _ _)) by lia. cbn [mbind result_bind].
  rewrite IH; rewrite ?length_app, ?length_take, ?length_drop; try lia.
  rewrite Nat.min_l, drop_drop by lia. rewrite <- app_assoc. f_equal. f_equal.
  - f_equal. rewrite <- (take_drop k (take (Z.to_nat nSize - length v) s)). f_equal.
    + rewrite take_take. f_equal. lia.
    + rewrite skipn_firstn_comm. f_equal. lia.
  - f_equal. lia.
Qed.

Definition byte_vector_ok (v : list Z) : Prop := Forall is_byte v /\ Z.of_nat (length v) <= MAX_SIZE.

Lemma unser_byte_vector_ser v s : byte_vector_ok v -> unser_byte_vector (ser_byte_vector v ++ s) = Ok (v, s).
Proof.
  intros [_ Hn]. unfold unser_byte_vector, ser_byte_vector. rewrite <- app_assoc, ReadCompactSize_Write by lia.
  cbn [mbind result_bind]. rewrite read_blocks_eq by (rewrite ?length_app; cbn; lia).
  cbn [length app]. rewrite Nat.sub_0_r, Nat2Z.id. by rewrite take_app_length, drop_app_length.
Qed.

Lemma ser_byte_vector_bytes v : Forall is_byte v -> Forall is_byte (ser_byte_vector v).
Proof. intros Hv. apply Forall_app. split; [apply WriteCompactSize_bytes|done]. Qed.

#[export] Hint Resolve le_bytes_byte WriteCompactSize_bytes ser_byte_vector_bytes : but.

Lemma size_of_varint_enc k n cont : size_of_varint k n = Z.of_nat (length (varint_enc k n cont)).
Proof.
  revert n cont. induction k as [|k IH]; intros n cont; cbn [size_of_varint varint_enc]; [done|].
  change 0x7F with 127. destruct (n <=? 127); [done|]. rewrite Z.shiftr_div_pow2, (IH _ 128) by lia.
  change (2 ^ 7) with 128. rewrite length_app. cbn [length]. lia.
Qed.

Lemma varint_cells_enough w : 7 <= w -> exists k, Z.to_nat ((w + 6) / 7) = S k /\ w <= 7 * Z.of_nat (S k).
Proof.
  intros Hw. pose proof (Z.div_mod (w + 6) 7 ltac:(lia)). pose proof (Z.mod_pos_bound (w + 6) 7 ltac:(lia)).
  exists (Z.to_nat ((w + 6) / 7) - 1)%nat. lia.
Qed.

(** ** Properties *)

(** [ReadCompactSize] inverts [WriteCompactSize] up to [MAX_SIZE] and accepts
    nothing else: every stream it reads a size from starts with the one encoding
    [WriteCompactSize] produces for that size, and [GetSizeOfCompactSize] is the
    length of that encoding. *)
Theorem compact_size_canonical n s r : 0 <= n ->
  Z.of_nat (length (WriteCompactSize n)) = GetSizeOfCompactSize n /\
  (n <= MAX_SIZE -> ReadCompactSize (WriteCompactSize n ++ s) = Ok (n, s)) /\
  (Forall is_byte s -> ReadCompactSize s = Ok (n, r) -> s = WriteCompactSize n ++ r /\ n <= MAX_SIZE).
Proof.
  intros Hn. split; [|split].
  - unfold WriteCompactSize, GetSizeOfCompactSize, ser_writedata8, ser_writedata16, ser_writedata32, ser_writedata64.
    repeat case_test; rewrite ?length_app, ?le_bytes_length; lia.
  - intros Hm. by apply ReadCompactSize_Write.
  - intros Hs H. destruct (ReadCompactSize_inv s n r Hs H) as [? ?]. split; [done|lia].
Qed.

Lemma compact_size_canonical_witness :
  ReadCompactSize [254; 0; 0; 1; 0; 7] = Ok (65536, [7]) /\ [254; 0; 0; 1; 0; 7] = WriteCompactSize 65536 ++ [7].
Proof.
  assert (ReadCompactSize [254; 0; 0; 1; 0; 7] = Ok (65536, [7])) as H by (vm_compute; reflexivity).
  split; [exact H|].
  apply (compact_size_canonical 65536 [254; 0; 0; 1; 0; 7] [7] ltac:(lia)); [|exact H].
  repeat constructor; unfold is_byte; lia.
Defined.

(** For an unsigned type of [w] bits (or a non-negative value of a signed
    one with [w] value bits) [WriteVarInt] never writes past its buffer of
    [(w + 6) / 7] bytes, [ReadVarInt] reads the value back, [GetSizeOfVarInt] is
    the length, and a byte sequence that [ReadVarInt] accepts is the encoding of
    the value it returns: every integer has exactly one encoding. *)
Theorem varint_canonical w n s r : 7 <= w -> 0 <= n < 2 ^ w ->
  (exists b, WriteVarInt w n = Ok b /\ Z.of_nat (length b) = GetSizeOfVarInt w n /\
     Z.of_nat (length b) <= (w + 6) / 7 /\ ReadVarInt (2 ^ w - 1) 0 (b ++ s) = Ok (n, s)) /\
  (Forall is_byte s -> ReadVarInt (2 ^ w - 1) 0 s = Ok (n, r) ->
   exists b, WriteVarInt w n = Ok b /\ s = b ++ r).
Proof.
  intros Hw Hn. destruct (varint_cells_enough w Hw) as (k & Hk & Hwk).
  assert (2 ^ w <= 2 ^ (7 * Z.of_nat (S k))) by (apply Z.pow_le_mono_r; lia).
  unfold WriteVarInt, GetSizeOfVarInt. rewrite Hk, varint_cells_enc by (lia || auto). rewrite app_nil_r. split.
  - exists (varint_enc (S k) n 0). split_and!; [done|by rewrite (size_of_varint_enc _ _ 0)| |].
    + pose proof (varint_enc_length (S k) n 0). lia.
    + apply ReadVarInt_enc; lia.
  - intros Hs H'. destruct (ReadVarInt_inv w k 0 s n r Hs ltac:(lia) ltac:(lia) H') as (t & -> & _ & E).
    eexists. split; [done|]. by rewrite <- E.
Qed.

Lemma varint_canonical_witness :
  exists b, WriteVarInt 64 (2 ^ 32) = Ok b /\ b = [0x8E; 0xFE; 0xFE; 0xFF; 0x00] /\
    ReadVarInt (2 ^ 64 - 1) 0 (b ++ [9]) = Ok (2 ^ 32, [9]).
Proof.
  destruct (varint_canonical 64 (2 ^ 32) [9] [] ltac:(lia) ltac:(lia)) as [(b & H1 & _ & _ & H2) _].
  exists b. split; [exact H1|]. split; [|exact H2]. revert H1. vm_compute. intros [= <-]. reflexivity.
Defined.

(** a vector of objects is read back whatever the allocation chunk, and
    reading in chunks is the same as reading the announced number of objects one
    after the other, errors included; a byte vector read in blocks is read back
    too. *)
Theorem vector_roundtrip {A} `{SerialLaws A} (chunk nSize : Z) (l : list A) (v s : list Z) :
  0 < chunk -> 0 <= nSize -> vector_ok l -> byte_vector_ok v ->
  unser_vector chunk (ser_vector l ++ s) = Ok (l, s) /\
  @read_chunks A _ (S (Z.to_nat nSize)) chunk nSize [] s = read_n (Z.to_nat nSize) s /\
  unser_byte_vector (ser_byte_vector v ++ s) = Ok (v, s).
Proof.
  intros Hc Hn Hl Hv. split_and!; [by apply unser_vector_ser| |by apply unser_byte_vector_ser].
  rewrite read_chunks_eq by (done || cbn; lia). cbn [length]. rewrite Nat.sub_0_r.
  destruct (read_n _ s) as [[l' r]|e]; done.
Qed.

#[local] Instance byte_serial : Serial Z := {| ser := ser_writedata8; unser := ser_readdata8 |}.
#[local] Instance byte_laws : SerialLaws Z.
Proof.
  refine {| ser_ok := is_byte |}; [intros a s Ha; by apply read_le_bytes|intros a _; apply le_bytes_byte].
Defined.

Lemma vector_roundtrip_witness : unser_vector 2 (ser_vector [5; 6; 7] ++ [1]) = Ok ([5; 6; 7], [1]).
Proof.
  apply (vector_roundtrip 2 3 [5; 6; 7] [] [1]); [lia|lia| |].
  - split; [repeat constructor; unfold is_byte; lia|unfold MAX_SIZE; cbn; lia].
  - split; [constructor|unfold MAX_SIZE; cbn; lia].
Defined.
