(* ===== verification/Transaction.v ===== *)
(** * Transactions (src/src/primitives/transaction.h, transaction.cpp, amount.h)

    The data types of a transaction, their serialization as instances of
    [Serial], amounts and the money range. *)

From Stdlib Require Import ZArith Lia.
From stdpp Require Import base tactics numbers option countable list.
From S2P Require Import Prelude ArithUint256 Compact Block Serialize.

(** ** Amounts *)

Definition COIN : Z := 100000000.
Definition CENT : Z := 1000000.
Definition MAX_MONEY : Z := 21000000000 * COIN.
Definition OLD_MAX_MONEY : Z := 21000000 * COIN.

Definition MoneyRange (nValue : Z) (nMaxcash : bool) : bool :=
  if nMaxcash then (0 <=? nValue) && (nValue <=? MAX_MONEY)
  else (0 <=? nValue) && (nValue <=? OLD_MAX_MONEY).

(** ** Data *)

Definition TRANSACTION_NORMAL : Z := 0.
Definition TRANSACTION_PROVIDER_REGISTER : Z := 1.
Definition TRANSACTION_PROVIDER_UPDATE_SERVICE : Z := 2.
Definition TRANSACTION_PROVIDER_UPDATE_REGISTRAR : Z := 3.
Definition TRANSACTION_PROVIDER_UPDATE_REVOKE : Z := 4.
Definition TRANSACTION_COINBASE : Z := 5.
Definition TRANSACTION_QUORUM_COMMITMENT : Z := 6.
Definition TRANSACTION_FUTURE : Z := 7.

Record COutPoint := mkOutPoint { op_hash : uint256; op_n : Z }.

(** A [CScript] is its bytes. *)
Abbreviation CScript := (list Z).

Record CTxIn := mkTxIn { prevout : COutPoint; scriptSig : CScript; nSequence : Z }.

Record CTxOut := mkTxOut { nValue : Z; scriptPubKey : CScript; nRounds : Z }.

(** [CTxOut(nValueIn, scriptPubKeyIn)] with the default third argument. *)
Definition txout (v : Z) (script : CScript) : CTxOut := mkTxOut v script (-10).

Record CTransaction := mkTx {
  tx_nVersion : Z;            (* int16_t *)
  tx_nType : Z;               (* int16_t *)
  vin : list CTxIn;
  vout : list CTxOut;
  nLockTime : Z;              (* uint32_t *)
  vExtraPayload : list Z
}.

#[global] Instance COutPoint_eq_dec : EqDecision COutPoint.
Proof. solve_decision. Defined.
#[global] Instance COutPoint_countable : Countable COutPoint.
Proof.
  refine (inj_countable' (fun o => (op_hash o, op_n o)) (fun x => mkOutPoint x.1 x.2) _). by intros [].
Defined.
#[global] Instance CTxIn_eq_dec : EqDecision CTxIn.
Proof. solve_decision. Defined.
#[global] Instance CTxOut_eq_dec : EqDecision CTxOut.
Proof. solve_decision. Defined.
#[global] Instance CTransaction_eq_dec : EqDecision CTransaction.
Proof. solve_decision. Defined.

Definition SEQUENCE_FINAL : Z := 0xffffffff.
Definition SEQUENCE_LOCKTIME_DISABLE_FLAG : Z := Z.shiftl 1 31.
Definition SEQUENCE_LOCKTIME_TYPE_FLAG : Z := Z.shiftl 1 22.
Definition SEQUENCE_LOCKTIME_MASK : Z := 0x0000ffff.
Definition SEQUENCE_LOCKTIME_GRANULARITY : Z := 9.

(** ** Operations *)

(** [COutPoint::IsNull] *)
Definition outpoint_IsNull (o : COutPoint) : bool := IsNull (op_hash o) && (op_n o =? u32 (-1)).

Definition IsCoinBase (tx : CTransaction) : bool :=
  match vin tx with
  | [i] => outpoint_IsNull (prevout i)
  | _ => false
  end.

(** [CTransaction::IsNull] *)
Definition tx_IsNull (tx : CTransaction) : bool :=
  match vin tx, vout tx with [], [] => true | _, _ => false end.

(** The loop of [GetValueOut]; a value out of range throws. *)
Fixpoint value_out_loop (nValueOut : Z) (outs : list CTxOut) : result Z :=
  match outs with
  | [] => Ok nValueOut
  | o :: outs =>
      let nValueOut := nValueOut + nValue o in
      if negb (MoneyRange (nValue o) true) || negb (MoneyRange nValueOut true) then Err ValueOutOfRange
      else value_out_loop nValueOut outs
  end.
Definition GetValueOut (tx : CTransaction) : result Z := value_out_loop 0 (vout tx).

(** ** Serialization *)

Definition i16 (z : Z) : Z := swrap 16 z.

#[global] Instance COutPoint_serial : Serial COutPoint := {|
  ser o := op_hash o ++ ser_writedata32 (op_n o);
  unser s := '(h, s) ← read_uint256 s; '(n, s) ← ser_readdata32 s; Ok (mkOutPoint h n, s)
|}.

#[global] Instance CTxIn_serial : Serial CTxIn := {|
  ser i := ser (prevout i) ++ ser_byte_vector (scriptSig i) ++ ser_writedata32 (nSequence i);
  unser s := '(p, s) ← unser s; '(sc, s) ← unser_byte_vector s; '(q, s) ← ser_readdata32 s;
             Ok (mkTxIn p sc q, s)
|}.

(** [nRounds] is not written; an object that is read keeps its initial value. *)
#[global] Instance CTxOut_serial : Serial CTxOut := {|
  ser o := ser_writedata64 (u64 (nValue o)) ++ ser_byte_vector (scriptPubKey o);
  unser s := '(v, s) ← ser_readdata64 s; '(sc, s) ← unser_byte_vector s; Ok (txout (i64 v) sc, s)
|}.

(** The sizes of the two classes, which only set how many objects are allocated
    at a time. *)
Definition sizeof_CTxIn : Z := 72.
Definition sizeof_CTxOut : Z := 48.

Definition n32bitVersion (nVersion nType : Z) : Z := i32 (Z.lor nVersion (Z.shiftl nType 16)).

#[global] Instance CTransaction_serial : Serial CTransaction := {|
  ser tx := ser_writedata32 (u32 (n32bitVersion (tx_nVersion tx) (tx_nType tx))) ++
            ser_vector (vin tx) ++ ser_vector (vout tx) ++ ser_writedata32 (nLockTime tx) ++
            (if (tx_nVersion tx =? 3) && negb (tx_nType tx =? TRANSACTION_NORMAL)
             then ser_byte_vector (vExtraPayload tx) else []);
  unser s :=
    '(v, s) ← ser_readdata32 s;
    let n32 := i32 v in
    let nVersion := i16 (Z.land n32 0xffff) in
    let nType := i16 (Z.land (Z.shiftr n32 16) 0xffff) in
    '(i, s) ← unser_vector (Z.quot 5000000 sizeof_CTxIn) s;
    '(o, s) ← unser_vector (Z.quot 5000000 sizeof_CTxOut) s;
    '(l, s) ← ser_readdata32 s;
    '(p, s) ← (if (nVersion =? 3) && negb (nType =? TRANSACTION_NORMAL)
               then unser_byte_vector s else Ok ([], s));
    Ok (mkTx nVersion nType i o l p, s)
|}.

(** ** Round trips *)

Definition outpoint_ok (o : COutPoint) : Prop := uint256_ok (op_hash o) /\ is_u32 (op_n o).
Definition txin_ok (i : CTxIn) : Prop :=
  outpoint_ok (prevout i) /\ byte_vector_ok (scriptSig i) /\ is_u32 (nSequence i).
Definition txout_ok (o : CTxOut) : Prop :=
  - 2 ^ 63 <= nValue o < 2 ^ 63 /\ byte_vector_ok (scriptPubKey o) /\ nRounds o = -10.

#[global] Instance COutPoint_laws : SerialLaws COutPoint.
Proof.
  refine {| ser_ok := outpoint_ok |}.
  - intros [h n] s [Hh Hn]. unfold ser, unser, COutPoint_serial. cbn [op_hash op_n] in *. rewrite <- app_assoc, read_uint256_app by done.
    cbn [mbind result_bind]. unfold ser_readdata32, ser_writedata32. rewrite read_le_bytes by done. done.
  - intros [h n] [[_ Hh] Hn]. unfold ser, COutPoint_serial. cbn [op_hash op_n] in *. apply Forall_app. by split; [|apply le_bytes_byte].
Defined.

#[global] Instance CTxIn_laws : SerialLaws CTxIn.
Proof.
  refine {| ser_ok := txin_ok |}.
  - intros [p sc q] s (Hp & Hs & Hq). unfold ser, unser, CTxIn_serial. cbn [prevout scriptSig nSequence] in *.
    rewrite <- !app_assoc, unser_ser by done. cbn [mbind result_bind].
    rewrite unser_byte_vector_ser by done. cbn [mbind result_bind].
    unfold ser_readdata32, ser_writedata32. rewrite read_le_bytes by done. done.
  - intros [p sc q] (Hp & [Hs _] & Hq). unfold ser, CTxIn_serial. cbn [prevout scriptSig nSequence] in *.
    rewrite !Forall_app. split_and!; [by apply ser_bytes|by apply ser_byte_vector_bytes|apply le_bytes_byte].
Defined.

Lemma i64_u64 v : - 2 ^ 63 <= v < 2 ^ 63 -> i64 (u64 v) = v.
Proof.
  intros Hv. unfold i64, swrap, u64. change (64 - 1) with 63.
  rewrite Zplus_mod_idemp_l, Z.mod_small by lia. lia.
Qed.

#[global] Instance CTxOut_laws : SerialLaws CTxOut.
Proof.
  refine {| ser_ok := txout_ok |}.
  - intros [v sc r] s (Hv & Hs & Hr). unfold ser, unser, CTxOut_serial. cbn [nValue scriptPubKey nRounds] in *.
    rewrite <- !app_assoc. unfold ser_readdata64, ser_writedata64.
    rewrite read_le_bytes by apply u64_range. cbn [mbind result_bind].
    rewrite unser_byte_vector_ser by done. cbn [mbind result_bind]. by rewrite i64_u64, Hr by done.
  - intros [v sc r] (Hv & [Hs _] & Hr). unfold ser, CTxOut_serial. cbn [nValue scriptPubKey] in *.
    rewrite Forall_app. split; [apply le_bytes_byte|by apply ser_byte_vector_bytes].
Defined.

(** The combined version word is faithful for a non-negative version. *)
Lemma version_word v t : 0 <= v < 2 ^ 15 -> - 2 ^ 15 <= t < 2 ^ 15 ->
  n32bitVersion v t = v + t * 2 ^ 16.
Proof.
  intros Hv Ht. unfold n32bitVersion.
  assert (Z.lor v (Z.shiftl t 16) = v + t * 2 ^ 16) as ->.
  { rewrite <- Z.shiftl_mul_pow2 by lia. symmetry. rewrite Z.add_nocarry_lxor.
    - apply Z.bits_inj'. intros i Hi. rewrite Z.lor_spec, Z.lxor_spec, Z.shiftl_spec by lia.
      destruct (Z.lt_ge_cases i 16).
      + rewrite (Z.testbit_neg_r t) by lia. by rewrite orb_false_r, xorb_false_r.
      + rewrite (testbit_small v i 15) by lia. done.
    - apply Z.bits_inj'. intros i Hi. rewrite Z.land_spec, Z.shiftl_spec, Z.bits_0 by lia.
      destruct (Z.lt_ge_cases i 16); [rewrite (Z.testbit_neg_r t) by lia; by rewrite andb_false_r|].
      by rewrite (testbit_small v i 15) by lia. }
  apply i32_small. lia.
Qed.

Lemma i16_small v : - 2 ^ 15 <= v < 2 ^ 15 -> i16 (v mod 2 ^ 16) = v.
Proof.
  intros Hv. unfold i16, swrap. change (16 - 1) with 15. rewrite Zplus_mod_idemp_l, Z.mod_small by lia. lia.
Qed.

Lemma version_split v t : 0 <= v < 2 ^ 15 -> - 2 ^ 15 <= t < 2 ^ 15 ->
  i16 (Z.land (n32bitVersion v t) 0xffff) = v /\ i16 (Z.land (Z.shiftr (n32bitVersion v t) 16) 0xffff) = t.
Proof.
  intros Hv Ht. rewrite version_word by done. change 0xffff with (Z.ones 16). rewrite !Z.land_ones by lia.
  rewrite Z.shiftr_div_pow2 by lia. replace (v + t * 2 ^ 16) with (2 ^ 16 * t + v) by lia.
  destruct (div_mod_split (2 ^ 16) t v ltac:(lia)) as [-> ->].
  rewrite i16_small by done. split; [|done]. rewrite <- (Z.mod_small v (2 ^ 16)) at 1 by lia. apply i16_small. lia.
Qed.

(** What a transaction has to satisfy to survive a round trip. *)
Record tx_ok (tx : CTransaction) : Prop := {
  txok_version : 0 <= tx_nVersion tx < 2 ^ 15;
  txok_type : - 2 ^ 15 <= tx_nType tx < 2 ^ 15;
  txok_vin : vector_ok (vin tx);
  txok_vout : vector_ok (vout tx);
  txok_lock : is_u32 (nLockTime tx);
  txok_payload : byte_vector_ok (vExtraPayload tx);
  txok_plain : tx_nVersion tx <> 3 \/ tx_nType tx = TRANSACTION_NORMAL -> vExtraPayload tx = []
}.

Lemma tx_unser_ser tx s : tx_ok tx -> unser (ser tx ++ s) = Ok (tx, s).
Proof.
  intros [Hv Ht Hin Hout Hl Hp Hplain]. destruct tx as [v t i o l p].
  cbn [tx_nVersion tx_nType vin vout nLockTime vExtraPayload] in *.
  unfold ser, unser, CTransaction_serial. cbn [tx_nVersion tx_nType vin vout nLockTime vExtraPayload].
  rewrite <- !app_assoc. unfold ser_readdata32, ser_writedata32.
  rewrite read_le_bytes by apply u32_range. cbn [mbind result_bind].
  rewrite i32_u32 by (rewrite version_word by done; lia).
  destruct (version_split v t Hv Ht) as [-> ->].
  rewrite unser_vector_ser by (done || lia). cbn [mbind result_bind].
  rewrite unser_vector_ser by (done || lia). cbn [mbind result_bind].
  rewrite read_le_bytes by done. cbn [mbind result_bind].
  destruct ((v =? 3) && negb (t =? TRANSACTION_NORMAL)) eqn:E.
  - rewrite unser_byte_vector_ser by done. done.
  - cbn [mbind result_bind app]. rewrite Hplain; [done|]. apply andb_false_iff in E as [E|E]; bool_hyps; auto.
Qed.

(** ** Properties *)

(** a transaction with a non-negative version is read back from its
    serialization unchanged, special payload included. *)
Theorem transaction_roundtrip tx s : tx_ok tx -> unser (ser tx ++ s) = Ok (tx, s).
Proof. apply tx_unser_ser. Qed.

Definition sample_tx : CTransaction :=
  mkTx 3 TRANSACTION_COINBASE [mkTxIn (mkOutPoint uint256_null (u32 (-1))) [0x6a] SEQUENCE_FINAL]
    [txout (5000 * COIN) [0x76; 0xa9]; txout 7 []] 0 [1; 2; 3].

Lemma byte_vector_ok_list v : forallb (fun b => (0 <=? b) && (b <? 256)) v = true ->
  Z.of_nat (length v) <= MAX_SIZE -> byte_vector_ok v.
Proof.
  intros Hv Hl. split; [|done]. apply Forall_forall. intros b Hb. rewrite forallb_forall in Hv.
  specialize (Hv b (proj1 (list_elem_of_In _ _) Hb)). unfold is_byte. blia.
Qed.

Lemma sample_tx_ok : tx_ok sample_tx.
Proof.
  assert (byte_vector_ok uint256_null) as [Hnull _] by (apply byte_vector_ok_list; vm_compute; congruence).
  split; cbn [sample_tx tx_nVersion tx_nType vin vout nLockTime vExtraPayload].
  - lia.
  - unfold TRANSACTION_COINBASE. lia.
  - split; [|vm_compute; congruence]. constructor; [|constructor]. split_and!; [split; [split; [done|done]|]|..].
    + apply u32_range.
    + apply byte_vector_ok_list; vm_compute; congruence.
    + unfold is_u32, SEQUENCE_FINAL. cbn [nSequence]. lia.
  - split; [|vm_compute; congruence].
    constructor; [|constructor; [|constructor]]; (split_and!; [cbn; unfold COIN; lia..| |done]);
      apply byte_vector_ok_list; vm_compute; congruence.
  - unfold is_u32. lia.
  - apply byte_vector_ok_list; vm_compute; congruence.
  - intros [?|?]; done.
Qed.

Lemma transaction_roundtrip_witness : unser (ser sample_tx ++ [9; 9]) = Ok (sample_tx, [9; 9]).
Proof. apply (transaction_roundtrip sample_tx [9; 9]). exact sample_tx_ok. Defined.

(** the version word is [nVersion | (nType << 16)] with a signed [nVersion],
    so the sign bits of a negative version overwrite the type: transactions that
    differ in their type alone have the same serialization, hence the same
    transaction hash. *)
Theorem negative_version_hides_type v t t' i o l p : - 2 ^ 15 <= v < 0 ->
  n32bitVersion v t = v /\ ser (mkTx v t i o l p) = ser (mkTx v t' i o l p).
Proof.
  intros Hv. assert (forall t, n32bitVersion v t = v) as E.
  { intros x. unfold n32bitVersion. rewrite <- (i32_small v) at 2 by lia. f_equal.
    apply Z.bits_inj'. intros j Hj. rewrite Z.lor_spec, Z.shiftl_spec by lia.
    destruct (Z.lt_ge_cases j 16); [rewrite (Z.testbit_neg_r x) by lia; apply orb_false_r|].
    rewrite <- (Z.lnot_involutive v), Z.lnot_spec by lia.
    rewrite (testbit_small (Z.lnot v) j 15) by (unfold Z.lnot; lia). done. }
  split; [apply E|]. unfold ser, CTransaction_serial. cbn [tx_nVersion tx_nType vin vout nLockTime vExtraPayload].
  rewrite (proj2 (Z.eqb_neq v 3)) by lia. cbn [andb]. by rewrite !E.
Qed.

Lemma negative_version_hides_type_witness :
  ser (mkTx (-1) TRANSACTION_NORMAL [] [] 0 []) = ser (mkTx (-1) TRANSACTION_QUORUM_COMMITMENT [] [] 0 []).
Proof. apply (negative_version_hides_type (-1) TRANSACTION_NORMAL TRANSACTION_QUORUM_COMMITMENT). lia. Defined.
