(* ===== verification/Double.v ===== *)
(** * IEEE-754 double arithmetic as the source uses it

    A C++ [double] is a [spec_float] of the Standard Library with the binary64
    precision and exponent range; a decimal literal is the quotient of two
    integers that are exact in binary64, rounded once, which is its nearest
    double. *)

From Stdlib Require Import ZArith Lia SpecFloat.
From stdpp Require Import base tactics numbers list.
From S2P Require Import Prelude.

Definition prec : Z := 53.
Definition emax : Z := 1024.

(** Conversion of an integer; [n / d] as a decimal literal. *)
Definition f64_of_Z (z : Z) : spec_float := binary_normalize prec emax z 0 false.
Definition f64_lit (n d : Z) : spec_float := SFdiv prec emax (f64_of_Z n) (f64_of_Z d).

Definition f64_sub : spec_float -> spec_float -> spec_float := SFsub prec emax.
Definition f64_mul : spec_float -> spec_float -> spec_float := SFmul prec emax.

(** Conversion to an integer type truncates. *)
Definition f64_to_Z (f : spec_float) : Z :=
  match f with
  | S754_finite s m e =>
      let v := if 0 <=? e then Zpos m * 2 ^ e else Zpos m / 2 ^ (- e) in
      if s then - v else v
  | _ => 0
  end.

(** A statement on a small range of integers, decided by evaluation. *)
Lemma range_check (P : Z -> bool) (n : Z) :
  forallb P (seqZ 0 n) = true -> forall k, 0 <= k < n -> P k = true.
Proof.
  rewrite forallb_forall. intros H k Hk. apply H, list_elem_of_In, elem_of_seqZ. lia.
Qed.
