(* ===== verification/Rewards.v ===== *)
(** * Block rewards and who they are paid to
    (GetBlockSubsidy and GetSmartnodePayment of src/src/validation.cpp,
    founder_payment.cpp, smartnode/smartnode-collaterals.cpp,
    smartnode/smartnode-payments.cpp, CSuperblock of
    governance/governance-classes.cpp, the coinbase part of miner.cpp)

    What these functions ask of the rest of the node (the number of smartnodes,
    the payee the deterministic list selects, sporks, the triggered superblock,
    the sync state) is the record [PaymentEnv].  [int64_t] products are wrapped
    with [i64]. *)

From Stdlib Require Import ZArith Lia SpecFloat Sorted.
From stdpp Require Import base tactics numbers option list.
From S2P Require Import Prelude ArithUint256 Compact Block Serialize Transaction Double.

(** ** Subsidy *)

Definition owlings : Z := 21262.

(** [GetBlockSubsidy]: the argument is the height of the previous block. *)
Definition GetBlockSubsidy (nPrevHeight : Z) : Z :=
  let nSubsidy := f64_of_Z 5000 in
  let nSubsidy :=
    if nPrevHeight <? 329 then f64_of_Z 5000000
    else if nPrevHeight <? 721 then f64_of_Z 4
    else if (553531 <? nPrevHeight) && (nPrevHeight <? 2105657) then
      let tempHeight := nPrevHeight - 553532 in
      let multiplier := Z.quot tempHeight owlings in
      f64_sub nSubsidy (f64_of_Z (multiplier * 10 + 10))
    else if (2105657 <? nPrevHeight) && (nPrevHeight <? 5273695) then
      let tempHeight := nPrevHeight - 2105658 in
      let multiplier := Z.quot tempHeight owlings in
      f64_sub nSubsidy (f64_of_Z (multiplier * 20 + 750))
    else if (5273695 <? nPrevHeight) && (nPrevHeight <? 7378633) then
      let tempHeight := nPrevHeight - 5273696 in
      let multiplier := Z.quot tempHeight owlings in
      f64_sub nSubsidy (f64_of_Z (multiplier * 10 + 3720))
    else if (7378633 <? nPrevHeight) && (nPrevHeight <? 8399209) then
      let tempHeight := nPrevHeight - 7378634 in
      let multiplier := Z.quot tempHeight owlings in
      f64_sub nSubsidy (f64_of_Z (multiplier * 5 + 4705))
    else if (8399209 <? nPrevHeight) && (nPrevHeight <? 14735285) then f64_of_Z 55
    else if (14735285 <? nPrevHeight) && (nPrevHeight <? 15798385) then
      let tempHeight := nPrevHeight - 14735286 in
      let multiplier := Z.quot tempHeight owlings in
      f64_sub nSubsidy (f64_of_Z (multiplier + 4946))
    else if (15798385 <? nPrevHeight) && (nPrevHeight <? 25844304) then f64_of_Z 5
    else if 125844304 <? nPrevHeight then f64_lit 1 1000
    else nSubsidy in
  f64_to_Z (f64_mul nSubsidy (f64_of_Z COIN)).

(** ** Founder payment *)

Record FounderPayment := mkFounder {
  founderScript : CScript;                 (* GetScriptForDestination of founderAddress *)
  startBlock : Z;
  rewardStructures : list (Z * Z)          (* (blockHeight, rewardPercentage) *)
}.

(** The first entry of a height table that covers [height]; [INT_MAX] covers
    every height. *)
Fixpoint table_lookup (height : Z) (table : list (Z * Z)) : option Z :=
  match table with
  | [] => None
  | (h, x) :: table => if (h =? INT_MAX) || (height <=? h) then Some x else table_lookup height table
  end.

Definition getFounderPaymentAmount (f : FounderPayment) (blockHeight blockReward : Z) : Z :=
  if blockHeight <=? startBlock f then 0
  else match table_lookup blockHeight (rewardStructures f) with
       | Some pct => Z.quot (i64 (blockReward * pct)) 100
       | None => 0
       end.

(** [txNew.vout[0].nValue -= x] *)
Definition charge_first (x : Z) (outs : list CTxOut) : result (list CTxOut) :=
  match outs with
  | [] => Err NullDeref
  | o :: outs => Ok (mkTxOut (nValue o - x) (scriptPubKey o) (nRounds o) :: outs)
  end.

Definition FillFounderPayment (f : FounderPayment) (outs : list CTxOut) (nBlockHeight blockReward : Z) :
    result (list CTxOut) :=
  let founderPayment := getFounderPaymentAmount f nBlockHeight blockReward in
  outs ← charge_first founderPayment outs;
  Ok (outs ++ [txout founderPayment (founderScript f)]).

(** [FounderPayment::IsBlockPayeeValid] *)
Definition FounderPayeeValid (f : FounderPayment) (outs : list CTxOut) (height blockReward : Z) : bool :=
  let founderReward := getFounderPaymentAmount f height blockReward in
  existsb (fun o => bool_decide (scriptPubKey o = founderScript f) && (founderReward <=? nValue o)) outs.

(** ** Smartnode collaterals *)

Record SmartnodeCollaterals := mkCollaterals {
  collaterals : list (Z * Z);              (* (height, amount) *)
  rewardPercentages : list (Z * Z)         (* (height, percentage) *)
}.

(** The constructor's [collateralsHeightMap]: [insert] keeps the first height of
    an amount. *)
Definition collateralsHeightMap (c : SmartnodeCollaterals) (amount : Z) : option Z :=
  fst <$> (snd <$> list_find (fun x => x.2 = amount) (collaterals c)).

Definition getCollateral (c : SmartnodeCollaterals) (height : Z) : Z :=
  default 0 (table_lookup height (collaterals c)).
Definition getRewardPercentage (c : SmartnodeCollaterals) (height : Z) : Z :=
  default 0 (table_lookup height (rewardPercentages c)).
Definition isValidCollateral (c : SmartnodeCollaterals) (amount : Z) : bool :=
  match collateralsHeightMap c amount with Some _ => true | None => false end.
Definition isPayableCollateral (c : SmartnodeCollaterals) (height amount : Z) : bool :=
  match collateralsHeightMap c amount with
  | None => false
  | Some h => (h =? INT_MAX) || (height <=? h)
  end.

(** ** Smartnode payments *)

(** The payee [CDeterministicMNList::GetMNPayee] selects. *)
Record DMNPayee := mkPayee {
  nOperatorReward : Z;                     (* uint16_t, hundredths of a percent *)
  scriptPayout : CScript;
  scriptOperatorPayout : CScript
}.

Record PaymentEnv := mkEnv {
  mnCount : Z;                             (* GetAllMNsCount at the tip *)
  dmnPayee : option DMNPayee;
  spork9 : bool;                           (* SPORK_9_SUPERBLOCKS_ENABLED *)
  superblockTriggered : bool;
  superblockPayments : list CTxOut;
  superblockValid : list CTxOut -> bool;   (* CSuperblockManager::IsValid *)
  synced : bool;
  fLiteMode : bool;
  DIP0003Enabled : bool
}.

Record PaymentParams := mkPayParams {
  nFounderPayment : FounderPayment;
  nCollaterals : SmartnodeCollaterals;
  smartnodePaymentFixedBlock : Z;
  nBudgetPaymentsStartBlock : Z;
  nBudgetPaymentsCycleBlocks : Z;
  nBudgetPaymentsWindowBlocks : Z;
  nSuperblockStartBlock : Z;
  nSuperblockCycle : Z
}.

Definition GetSmartnodePayment (p : PaymentParams) (e : PaymentEnv) (nHeight blockValue : Z) : Z :=
  if 10 <=? mnCount e
  then Z.quot (i64 (blockValue * getRewardPercentage (nCollaterals p) nHeight)) 100
  else 0.

(** [GetBlockTxOuts]: [None] is the result [false]. *)
Definition GetBlockTxOuts (p : PaymentParams) (e : PaymentEnv) (nBlockHeight blockReward : Z) :
    option (list CTxOut) :=
  let smartnodeReward := GetSmartnodePayment p e nBlockHeight blockReward in
  if smartnodeReward =? 0 then None
  else match dmnPayee e with
       | None => None
       | Some d =>
           let operatorReward :=
             if negb (nOperatorReward d =? 0) && negb (bool_decide (scriptOperatorPayout d = []))
             then Z.quot (i64 (smartnodeReward * nOperatorReward d)) 10000 else 0 in
           let smartnodeReward := smartnodeReward - operatorReward in
           Some ((if 0 <? smartnodeReward then [txout smartnodeReward (scriptPayout d)] else []) ++
                 (if 0 <? operatorReward then [txout operatorReward (scriptOperatorPayout d)] else []))
       end.

(** [CSmartnodePayments::IsTransactionValid] *)
Definition IsTransactionValid (p : PaymentParams) (e : PaymentEnv) (outs : list CTxOut)
    (nBlockHeight blockReward : Z) : bool :=
  if negb (DIP0003Enabled e) then true
  else match GetBlockTxOuts p e nBlockHeight blockReward with
       | None => true
       | Some l => forallb (fun o => existsb (fun o2 => bool_decide (o = o2)) outs) l
       end.

(** The loop of [FillBlockPayments] that charges the miner. *)
Fixpoint charge_all (pay outs : list CTxOut) : result (list CTxOut) :=
  match pay with
  | [] => Ok outs
  | o :: pay => outs ← charge_first (nValue o) outs; charge_all pay outs
  end.

Definition FillBlockPayments (p : PaymentParams) (e : PaymentEnv) (outs : list CTxOut)
    (nBlockHeight blockReward : Z) : result (list CTxOut) :=
  let super := if spork9 e && superblockTriggered e then superblockPayments e else [] in
  let mn := default [] (GetBlockTxOuts p e nBlockHeight blockReward) in
  charge_all mn (outs ++ mn ++ super).

(** The outputs of the coinbase [CreateNewBlock] builds. *)
Definition coinbase_outputs (p : PaymentParams) (e : PaymentEnv) (scriptPubKeyIn : CScript)
    (nHeight blockReward : Z) : result (list CTxOut) :=
  outs ← FillBlockPayments p e [txout blockReward scriptPubKeyIn] nHeight blockReward;
  FillFounderPayment (nFounderPayment p) outs nHeight blockReward.

(** ** What validation accepts *)

(** [CSuperblock::IsValidBlockHeight], [CSuperblock::GetPaymentsLimit] *)
Definition IsValidBlockHeight (p : PaymentParams) (nBlockHeight : Z) : bool :=
  (nSuperblockStartBlock p <=? nBlockHeight) && (Z.rem nBlockHeight (nSuperblockCycle p) =? 0).
Definition GetPaymentsLimit (p : PaymentParams) (nBlockHeight : Z) : Z :=
  if negb (IsValidBlockHeight p nBlockHeight) then 0
  else i64 (GetBlockSubsidy (nBlockHeight - 1) * nSuperblockCycle p).

Definition IsOldBudgetBlockValueValid (p : PaymentParams) (e : PaymentEnv) (valueOut nBlockHeight blockReward : Z) :
    bool :=
  let isBlockRewardValueMet := valueOut <=? blockReward in
  if nBlockHeight <? nBudgetPaymentsStartBlock p then false
  else if nSuperblockStartBlock p <=? nBlockHeight then false
  else
    let nOffset := Z.rem nBlockHeight (nBudgetPaymentsCycleBlocks p) in
    if (nBudgetPaymentsStartBlock p <=? nBlockHeight) && (nOffset <? nBudgetPaymentsWindowBlocks p)
    then if synced e then isBlockRewardValueMet else true
    else isBlockRewardValueMet.

(** [IsBlockValueValid] on the value [GetValueOut] of the coinbase. *)
Definition IsBlockValueValid (p : PaymentParams) (e : PaymentEnv) (outs : list CTxOut)
    (nBlockHeight blockReward : Z) : result bool :=
  valueOut ← value_out_loop 0 outs;
  let isBlockRewardValueMet := valueOut <=? blockReward in
  if nBlockHeight <? nBudgetPaymentsStartBlock p then Ok isBlockRewardValueMet
  else if nBlockHeight <? nSuperblockStartBlock p
  then Ok (IsOldBudgetBlockValueValid p e valueOut nBlockHeight blockReward)
  else
    let nSuperblockMaxValue := i64 (blockReward + GetPaymentsLimit p nBlockHeight) in
    if negb (IsValidBlockHeight p nBlockHeight) then Ok isBlockRewardValueMet
    else if negb (valueOut <=? nSuperblockMaxValue) then Ok false
    else if negb (synced e) || fLiteMode e then Ok true
    else if negb (spork9 e) then Ok isBlockRewardValueMet
    else if negb (superblockTriggered e) then Ok isBlockRewardValueMet
    else Ok (superblockValid e outs).

Definition IsBlockPayeeValid (p : PaymentParams) (e : PaymentEnv) (outs : list CTxOut)
    (nBlockHeight blockReward : Z) : bool :=
  if fLiteMode e then true
  else if (nBlockHeight <? smartnodePaymentFixedBlock p) && (nBlockHeight <? nSuperblockStartBlock p) then true
  else if spork9 e && superblockTriggered e && negb (superblockValid e outs) then false
  else IsTransactionValid p e outs nBlockHeight blockReward.

(** The main network's payment parameters (CMainParams). *)
Definition MainPayments (script : CScript) : PaymentParams := {|
  nFounderPayment := mkFounder script 250 [(INT_MAX, 5)];
  nCollaterals := mkCollaterals
    [(150000, 6000000 * COIN); (150001, 8000000 * COIN); (500000, 15000000 * COIN);
     (700000, 20000000 * COIN); (INT_MAX, 25000000 * COIN)]
    [(5761, 0); (INT_MAX, 20)];
  smartnodePaymentFixedBlock := 1800;
  nBudgetPaymentsStartBlock := INT_MAX;
  nBudgetPaymentsCycleBlocks := 16616;
  nBudgetPaymentsWindowBlocks := 100;
  nSuperblockStartBlock := INT_MAX;
  nSuperblockCycle := 16616
|}.

(** ** The subsidy schedule on integers *)

Definition subsidy_schedule (h : Z) : Z :=
  let steps a := (h - a) / owlings in
  if h <? 329 then 5000000 * COIN
  else if h <? 721 then 4 * COIN
  else if (553531 <? h) && (h <? 2105657) then (4990 - 10 * steps 553532) * COIN
  else if (2105657 <? h) && (h <? 5273695) then (4250 - 20 * steps 2105658) * COIN
  else if (5273695 <? h) && (h <? 7378633) then (1280 - 10 * steps 5273696) * COIN
  else if (7378633 <? h) && (h <? 8399209) then (295 - 5 * steps 7378634) * COIN
  else if (8399209 <? h) && (h <? 14735285) then 55 * COIN
  else if (14735285 <? h) && (h <? 15798385) then (54 - steps 14735286) * COIN
  else if (15798385 <? h) && (h <? 25844304) then 5 * COIN
  else if 125844304 <? h then COIN / 1000
  else 5000 * COIN.

(** The floating-point formula of a decreasing segment is exact. *)
Lemma segment_exact a b k : In (a, b) [(10, 10); (20, 750); (10, 3720); (5, 4705); (1, 4946)] ->
  0 <= k < 160 ->
  f64_to_Z (f64_mul (f64_sub (f64_of_Z 5000) (f64_of_Z (k * a + b))) (f64_of_Z COIN)) =
  (5000 - b - a * k) * COIN.
Proof.
  intros Hab Hk. apply Z.eqb_eq. revert k Hk.
  cbn in Hab. destruct Hab as [[= <- <-]|[[= <- <-]|[[= <- <-]|[[= <- <-]|[[= <- <-]|[]]]]]];
    apply range_check; vm_compute; reflexivity.
Qed.

Lemma steps_range h a n : a <= h -> h - a < n * owlings -> 0 <= (h - a) / owlings < n.
Proof.
  unfold owlings. intros. split; [apply Z.div_pos; lia|apply Z.div_lt_upper_bound; lia].
Qed.

Ltac segment a b :=
  match goal with |- context [if ?c then _ else _] => destruct c eqn:? end;
  [cbn zeta; rewrite Z.quot_div_nonneg, (segment_exact a b);
   [f_equal; lia|cbn; tauto|apply steps_range; unfold owlings; lia|unfold owlings; lia..]|].
Ltac constant :=
  match goal with |- context [if ?c then _ else _] => destruct c; [vm_compute; reflexivity|] end.

Lemma subsidy_agrees h : 0 <= h -> GetBlockSubsidy h = subsidy_schedule h.
Proof.
  intros Hh. unfold GetBlockSubsidy, subsidy_schedule.
  constant. constant. segment 10 10. segment 20 750. segment 10 3720. segment 5 4705. constant.
  match goal with |- context [if ?c then _ else _] => destruct c eqn:? end.
  { cbn zeta. rewrite Z.quot_div_nonneg by (unfold owlings; lia).
    rewrite <- (Z.mul_1_r ((h - 14735286) / owlings)) at 1. rewrite (segment_exact 1 4946);
      [f_equal; lia|cbn; tauto|apply steps_range; unfold owlings; lia]. }
  constant. constant. vm_compute. reflexivity.
Qed.

(** ** Sums of outputs *)

Definition total (outs : list CTxOut) : Z := foldr (fun o s => nValue o + s) 0 outs.

Lemma total_app a b : total (a ++ b) = total a + total b.
Proof. unfold total. induction a as [|o a IH]; cbn; [done|]. rewrite IH. lia. Qed.

Lemma value_out_loop_total acc outs : 0 <= acc -> Forall (fun o => 0 <= nValue o) outs ->
  acc + total outs <= MAX_MONEY -> value_out_loop acc outs = Ok (acc + total outs).
Proof.
  intros Hacc Hpos. revert acc Hacc. induction Hpos as [|o outs Ho Hpos IH]; intros acc Hacc Hmax; cbn [value_out_loop].
  { unfold total. cbn. f_equal. lia. }
  assert (0 <= total outs) by (clear -Hpos; induction Hpos; cbn; [done|unfold total in *; cbn; lia]).
  change (total (o :: outs)) with (nValue o + total outs) in *. unfold MoneyRange.
  rewrite !(proj2 (Z.leb_le _ _)) by lia. cbn [andb negb orb]. rewrite IH by lia. f_equal. lia.
Qed.

Lemma charge_all_spec pay o outs : charge_all pay (o :: outs) =
  Ok (mkTxOut (nValue o - total pay) (scriptPubKey o) (nRounds o) :: outs).
Proof.
  revert o. induction pay as [|q pay IH]; intros o; cbn [charge_all charge_first mbind result_bind].
  - unfold total. cbn. rewrite Z.sub_0_r. by destruct o.
  - rewrite IH. cbn [nValue scriptPubKey nRounds]. do 3 f_equal. unfold total. cbn. lia.
Qed.

(** ** Payments *)

Definition operator_ok (e : PaymentEnv) : Prop :=
  forall d, dmnPayee e = Some d -> 0 <= nOperatorReward d <= 10000.

Lemma pct_amount R pct : 0 <= R -> 0 <= pct <= 100 -> R * 100 < 2 ^ 63 ->
  Z.quot (i64 (R * pct)) 100 = R * pct / 100 /\ 0 <= R * pct / 100 <= R.
Proof.
  intros HR Hp Hb. rewrite i64_small by nia. rewrite Z.quot_div_nonneg by nia. split; [done|].
  split; [apply Z.div_pos; nia|apply Z.div_le_upper_bound; nia].
Qed.

Lemma GetBlockTxOuts_spec p e h R : 0 <= R <= 9 * 10 ^ 14 -> operator_ok e ->
  0 <= getRewardPercentage (nCollaterals p) h <= 100 ->
  let mn := default [] (GetBlockTxOuts p e h R) in
  Forall (fun o => 0 <= nValue o) mn /\
  0 <= total mn <= R * getRewardPercentage (nCollaterals p) h / 100.
Proof.
  intros HR Hop Hpct. unfold GetBlockTxOuts, GetSmartnodePayment. cbn zeta.
  destruct (pct_amount R (getRewardPercentage (nCollaterals p) h)) as [E Hb]; [lia..|].
  destruct (10 <=? mnCount e); [rewrite E|cbn; split; [constructor|lia]].
  set (r := R * getRewardPercentage (nCollaterals p) h / 100) in *.
  destruct (r =? 0); [cbn; split; [constructor|lia]|].
  destruct (dmnPayee e) as [d|] eqn:Hd; [|cbn; split; [constructor|lia]].
  specialize (Hop d Hd). cbn [default].
  assert (forall x, (if negb (nOperatorReward d =? 0) && negb (bool_decide (scriptOperatorPayout d = []))
    then Z.quot (i64 (r * nOperatorReward d)) 10000 else 0) = x -> 0 <= x <= r) as Hx.
  { intros x <-. destruct (_ && _); [|lia]. rewrite i64_small by nia. rewrite Z.quot_div_nonneg by nia.
    split; [apply Z.div_pos; nia|apply Z.div_le_upper_bound; nia]. }
  set (x := if _ && _ then _ else _) in *. specialize (Hx x eq_refl).
  destruct (Z.ltb_spec 0 (r - x)), (Z.ltb_spec 0 x); cbn; (split; [repeat constructor; cbn; lia|unfold total; cbn; lia]).
Qed.

Lemma main_percentage s h : 0 <= getRewardPercentage (nCollaterals (MainPayments s)) h <= 20.
Proof.
  unfold getRewardPercentage. cbn. destruct (h <=? 5761); cbn; lia.
Qed.

Lemma main_founder s h R : 0 <= R <= 9 * 10 ^ 14 ->
  getFounderPaymentAmount (nFounderPayment (MainPayments s)) h R = (if h <=? 250 then 0 else R * 5 / 100).
Proof.
  intros HR. unfold getFounderPaymentAmount. cbn. destruct (h <=? 250); [done|]. apply pct_amount; lia.
Qed.

(** The coinbase of a block that triggers no superblock, in one equation. *)
Lemma coinbase_outputs_spec p e script h R : spork9 e && superblockTriggered e = false ->
  coinbase_outputs p e script h R =
  (let mn := default [] (GetBlockTxOuts p e h R) in
   let fp := getFounderPaymentAmount (nFounderPayment p) h R in
   Ok ((txout (R - total mn - fp) script :: mn) ++ [txout fp (founderScript (nFounderPayment p))])).
Proof.
  intros Hs. unfold coinbase_outputs, FillBlockPayments. rewrite Hs, app_nil_r. cbn [app].
  rewrite charge_all_spec. reflexivity.
Qed.

Lemma existsb_here {A} `{EqDecision A} (x : A) l : x ∈ l -> existsb (fun y => bool_decide (x = y)) l = true.
Proof. intros Hx. apply existsb_exists. exists x. rewrite <- list_elem_of_In, bool_decide_true; done. Qed.

Lemma IsTransactionValid_incl p e outs h R :
  default [] (GetBlockTxOuts p e h R) ⊆ outs -> IsTransactionValid p e outs h R = true.
Proof.
  intros Hin. unfold IsTransactionValid. destruct (DIP0003Enabled e); [|done]. cbn [negb].
  destruct (GetBlockTxOuts p e h R) as [l|]; [|done]. cbn [default] in Hin.
  apply forallb_forall. intros o Ho%list_elem_of_In. by apply existsb_here, Hin.
Qed.

(** Below the superblock and budget heights the value rule is the reward. *)
Lemma value_rule s e outs h R : h < INT_MAX ->
  IsBlockValueValid (MainPayments s) e outs h R = (v ← value_out_loop 0 outs; Ok (v <=? R)).
Proof.
  intros Hh. unfold IsBlockValueValid. cbn [MainPayments nBudgetPaymentsStartBlock].
  rewrite (proj2 (Z.ltb_lt _ _) Hh). done.
Qed.

(** ** Collateral tables *)

(** Heights and amounts both increase. *)
Definition rising : list (Z * Z) -> Prop := StronglySorted (fun x y => x.1 < y.1 /\ x.2 < y.2).

Lemma heightMap_in c a h : rising (collaterals c) ->
  collateralsHeightMap c a = Some h <-> (h, a) ∈ collaterals c.
Proof.
  unfold collateralsHeightMap. induction 1 as [|[h0 a0] l Hl IH H0]; [cbn; rewrite elem_of_nil; by split|].
  cbn [list_find snd]. rewrite elem_of_cons. rewrite Forall_forall in H0.
  destruct (decide (a0 = a)) as [->|Hne]; cbn.
  - split; [intros [= ->]; by left|]. intros [[= ->]|Hin]; [done|]. specialize (H0 _ Hin). cbn in H0. lia.
  - rewrite <- IH. destruct (list_find _ l) as [[n x]|]; cbn; split; intros Hx; try (by right);
      destruct Hx as [[= -> ->]|Hx]; done.
Qed.

Lemma table_lookup_least l h a : rising l -> h <= INT_MAX -> table_lookup h l = Some a ->
  forall h' a', (h', a') ∈ l -> h <= h' <-> a <= a'.
Proof.
  intros Hl Hh. induction Hl as [|[h0 a0] l Hl IH H0]; [done|]. rewrite Forall_forall in H0.
  cbn [table_lookup]. destruct (_ || _) eqn:Hc; intros Ha h' a'; rewrite elem_of_cons.
  - injection Ha as <-. assert (h <= h0) by (apply orb_true_iff in Hc; lia).
    intros [[= -> ->]|Hin]; [lia|]. specialize (H0 _ Hin). cbn in H0. lia.
  - specialize (IH Ha). intros [[= -> ->]|Hin]; [|by apply IH]. apply orb_false_iff in Hc.
    assert (exists h1, (h1, a) ∈ l) as [h1 H1%H0]; [|cbn in H1; lia].
    clear -Ha. induction l as [|[h1 a1] l IHl]; [done|]. cbn in Ha. destruct (_ || _).
    + injection Ha as <-. exists h1. by apply elem_of_cons; left.
    + destruct (IHl Ha) as [h2 H2]. exists h2. by apply elem_of_cons; right.
Qed.

(** ** Properties *)

(** The block subsidy that the node computes in floating point is exactly
    the stepwise integer schedule: 5,000,000 coins up to height 328, 4 coins up
    to 720, then segments that fall by 10, 20, 10, 5 and 1 coin every 21262
    blocks, and never rounds; it is positive and at most 5,000,000 coins. *)
Theorem subsidy_exact h : 0 <= h ->
  GetBlockSubsidy h = subsidy_schedule h /\ 0 < GetBlockSubsidy h <= 5000000 * COIN.
Proof.
  intros Hh. pose proof (subsidy_agrees h Hh) as E.
  split; [done|]. rewrite E. unfold subsidy_schedule. cbn beta zeta. change (COIN / 1000) with 100000. unfold COIN.
  repeat case_match; try lia;
    match goal with |- context [(h - ?a) / owlings] =>
      pose proof (Z.div_mod (h - a) owlings ltac:(done));
      pose proof (Z.mod_pos_bound (h - a) owlings ltac:(done)) end; unfold owlings in *; lia.
Qed.

Lemma subsidy_exact_witness :
  GetBlockSubsidy 600000 = 4970 * COIN /\ 0 < GetBlockSubsidy 600000 <= 5000000 * COIN.
Proof. exact (subsidy_exact 600000 ltac:(discriminate)). Defined.

(** The schedule has holes where the subsidy falls back to 5000 coins: one
    block between each two segments and the hundred million blocks from
    25844304 to 125844304, whose subsidies alone exceed [MAX_MONEY]. *)
Theorem subsidy_holes h :
  h ∈ [2105657; 5273695; 7378633; 8399209; 14735285; 15798385] \/ 25844304 <= h <= 125844304 ->
  GetBlockSubsidy h = 5000 * COIN /\ MAX_MONEY < (125844304 - 25844304 + 1) * GetBlockSubsidy h.
Proof.
  intros Hh. assert (GetBlockSubsidy h = 5000 * COIN) as ->; [|split; [done|vm_compute; reflexivity]].
  destruct Hh as [Hh|Hh].
  - rewrite !elem_of_cons, elem_of_nil in Hh. destruct Hh as [->|[->|[->|[->|[->|[->|[]]]]]]]; vm_compute; reflexivity.
  - rewrite subsidy_agrees by lia. unfold subsidy_schedule. repeat case_match; lia.
Qed.

Lemma subsidy_holes_witness : GetBlockSubsidy 30000000 = 5000 * COIN /\
  MAX_MONEY < (125844304 - 25844304 + 1) * GetBlockSubsidy 30000000.
Proof. apply (subsidy_holes 30000000). right. split; discriminate. Defined.

(** C33: A coinbase built by the miner on the main network is accepted by the
    payment rules: its outputs are non-negative and add up to the block reward,
    the value rule, the smartnode payee rule and the founder rule (which
    validation applies with the height and subsidy of the previous block) hold.
    No coinbase that pays out more than the reward passes the value rule. *)
Theorem coinbase_accepted script fscript e h R subsidy :
  h < INT_MAX -> 0 <= R <= 9 * 10 ^ 14 -> 0 <= subsidy <= R -> operator_ok e ->
  spork9 e && superblockTriggered e = false ->
  let p := MainPayments fscript in
  (exists outs, coinbase_outputs p e script h R = Ok outs /\
     Forall (fun o => 0 <= nValue o) outs /\
     value_out_loop 0 outs = Ok R /\
     IsBlockValueValid p e outs h R = Ok true /\
     IsBlockPayeeValid p e outs h R = true /\
     FounderPayeeValid (nFounderPayment p) outs (h - 1) subsidy = true) /\
  (forall outs v, IsBlockValueValid p e outs h R = Ok true -> value_out_loop 0 outs = Ok v -> v <= R).
Proof.
  intros Hh HR Hsub Hop Hs p.
  destruct (GetBlockTxOuts_spec p e h R HR Hop) as [Hpos Hle]; [pose proof (main_percentage fscript h); unfold p; lia|].
  assert (R * getRewardPercentage (nCollaterals p) h / 100 <= R * 20 / 100) as Hmn.
  { apply Z.div_le_mono; [lia|]. pose proof (main_percentage fscript h). unfold p. nia. }
  assert (R * 20 / 100 + R * 5 / 100 <= R /\ 0 <= R * 5 / 100) as Hsum.
  { pose proof (Z.div_mod (R * 20) 100). pose proof (Z.div_mod (R * 5) 100).
    pose proof (Z.mod_pos_bound (R * 20) 100). pose proof (Z.mod_pos_bound (R * 5) 100). lia. }
  split.
  - rewrite coinbase_outputs_spec by done. cbn zeta. set (mn := default [] (GetBlockTxOuts p e h R)) in *.
    set (fp := getFounderPaymentAmount (nFounderPayment p) h R).
    assert (0 <= fp <= R * 5 / 100) as Hfp by (unfold fp, p; rewrite main_founder by done; destruct (h <=? 250); lia).
    eexists. split; [reflexivity|]. set (outs := (_ :: mn) ++ _).
    assert (Forall (fun o => 0 <= nValue o) outs) as Hall.
    { apply Forall_app_2; [constructor; [cbn; lia|done]|constructor; [cbn; lia|constructor]]. }
    assert (value_out_loop 0 outs = Ok R) as Hv.
    { assert (total outs = R) as Ht; [|rewrite value_out_loop_total; rewrite ?Ht; try done; unfold MAX_MONEY, COIN; lia].
      unfold outs. rewrite total_app. change (total (txout (R - total mn - fp) script :: mn))
        with (R - total mn - fp + total mn). unfold total at 3. cbn. lia. }
    repeat split; [done|done|unfold p; rewrite value_rule, Hv by done; cbn; by rewrite Z.leb_refl| |].
    + unfold IsBlockPayeeValid. rewrite Hs. cbn [andb]. repeat (case_match; [done|]).
      apply IsTransactionValid_incl. intros o Ho. apply elem_of_app. left. by apply elem_of_cons; right.
    + apply existsb_exists. exists (txout fp fscript). split; [apply list_elem_of_In, elem_of_app; right; by apply elem_of_cons; left|].
      cbn [txout scriptPubKey nValue]. rewrite bool_decide_true by done. apply Z.leb_le. unfold fp, p.
      rewrite !main_founder by lia. pose proof (Z.div_le_mono (subsidy * 5) (R * 5) 100). pose proof (Z.div_pos (R * 5) 100).
      destruct (Z.leb_spec h 250), (Z.leb_spec (h - 1) 250); lia.
  - intros outs v Hok Hv. unfold p in Hok. rewrite value_rule, Hv in Hok by done. cbn in Hok.
    injection Hok. lia.
Qed.

Definition sample_env : PaymentEnv :=
  mkEnv 12 (Some (mkPayee 2500 [1] [2])) true false [] (fun _ => false) true false true.

Lemma coinbase_accepted_witness :
  coinbase_outputs (MainPayments [3]) sample_env [4] 6000 (4970 * COIN) =
    Ok [txout (7455 * COIN / 2) [4]; txout (1491 * COIN / 2) [1]; txout (497 * COIN / 2) [2]; txout (497 * COIN / 2) [3]] /\
  exists outs, coinbase_outputs (MainPayments [3]) sample_env [4] 6000 (4970 * COIN) = Ok outs /\
    value_out_loop 0 outs = Ok (4970 * COIN).
Proof.
  split; [vm_compute; reflexivity|].
  destruct (coinbase_accepted [4] [3] sample_env 6000 (4970 * COIN) (4970 * COIN)) as [(outs & H & _ & Hv & _) _].
  - reflexivity.
  - unfold COIN. lia.
  - unfold COIN. lia.
  - intros d [= <-]. split; discriminate.
  - reflexivity.
  - exists outs. split; assumption.
Defined.

(** With a collateral table in which heights and amounts rise, as the main
    network's, an amount is payable at a height exactly when it is one of the
    table's and not less than the collateral that height requires; the required
    collateral itself is always payable. *)
Theorem payable_collateral c h req : rising (collaterals c) -> h <= INT_MAX ->
  table_lookup h (collaterals c) = Some req ->
  getCollateral c h = req /\
  forall a, isPayableCollateral c h a = true <-> isValidCollateral c a = true /\ req <= a.
Proof.
  intros Hc Hh Hreq. unfold getCollateral. rewrite Hreq. split; [done|]. intros a.
  unfold isPayableCollateral, isValidCollateral.
  destruct (collateralsHeightMap c a) as [h'|] eqn:E; [|by split; [|intros []]].
  apply heightMap_in in E; [|done]. pose proof (table_lookup_least _ h req Hc Hh Hreq _ _ E).
  rewrite orb_true_iff, Z.eqb_eq, Z.leb_le. split; [intros; split; [done|]|]; lia.
Qed.

Lemma payable_collateral_witness :
  isPayableCollateral (nCollaterals (MainPayments [])) 200000 (15000000 * COIN) = true /\
  isPayableCollateral (nCollaterals (MainPayments [])) 200000 (8000000 * COIN) = false /\
  (getCollateral (nCollaterals (MainPayments [])) 200000 = 15000000 * COIN /\
   forall a, isPayableCollateral (nCollaterals (MainPayments [])) 200000 a = true <->
     isValidCollateral (nCollaterals (MainPayments [])) a = true /\ 15000000 * COIN <= a).
Proof.
  split; [reflexivity|]. split; [reflexivity|].
  apply (payable_collateral (nCollaterals (MainPayments [])) 200000 (15000000 * COIN)).
  - repeat constructor.
  - discriminate.
  - reflexivity.
Defined.
