(* ===== verification/Script.v ===== *)
(** * Scripts and script numbers (src/src/script/script.h, script/script.cpp)

    A script is its bytes.  An iterator into a script is the suffix it points at,
    so that [end() - pc] is the length of the suffix.  [GetOp] also returns the
    iterator when it fails, since callers go on using it. *)

From Stdlib Require Import ZArith Lia.
From stdpp Require Import base tactics numbers option list.
From S2P Require Import Prelude ArithUint256 Compact Block Serialize Transaction.

Abbreviation valtype := (list Z).

Definition MAX_SCRIPT_ELEMENT_SIZE : Z := 520.
Definition MAX_OPS_PER_SCRIPT : Z := 201.
Definition MAX_PUBKEYS_PER_MULTISIG : Z := 20.
Definition MAX_SCRIPT_SIZE : Z := 10000.
Definition MAX_STACK_SIZE : Z := 1000.
Definition LOCKTIME_THRESHOLD : Z := 500000000.

(** ** Opcodes (the enumeration [opcodetype]) *)

Abbreviation OP_0 := 0x00.
Abbreviation OP_PUSHDATA1 := 0x4c.
Abbreviation OP_PUSHDATA2 := 0x4d.
Abbreviation OP_PUSHDATA4 := 0x4e.
Abbreviation OP_1NEGATE := 0x4f.
Abbreviation OP_1 := 0x51.
Abbreviation OP_16 := 0x60.
Abbreviation OP_NOP := 0x61.
Abbreviation OP_IF := 0x63.
Abbreviation OP_NOTIF := 0x64.
Abbreviation OP_ELSE := 0x67.
Abbreviation OP_ENDIF := 0x68.
Abbreviation OP_VERIFY := 0x69.
Abbreviation OP_RETURN := 0x6a.
Abbreviation OP_TOALTSTACK := 0x6b.
Abbreviation OP_FROMALTSTACK := 0x6c.
Abbreviation OP_2DROP := 0x6d.
Abbreviation OP_2DUP := 0x6e.
Abbreviation OP_3DUP := 0x6f.
Abbreviation OP_2OVER := 0x70.
Abbreviation OP_2ROT := 0x71.
Abbreviation OP_2SWAP := 0x72.
Abbreviation OP_IFDUP := 0x73.
Abbreviation OP_DEPTH := 0x74.
Abbreviation OP_DROP := 0x75.
Abbreviation OP_DUP := 0x76.
Abbreviation OP_NIP := 0x77.
Abbreviation OP_OVER := 0x78.
Abbreviation OP_PICK := 0x79.
Abbreviation OP_ROLL := 0x7a.
Abbreviation OP_ROT := 0x7b.
Abbreviation OP_SWAP := 0x7c.
Abbreviation OP_TUCK := 0x7d.
Abbreviation OP_CAT := 0x7e.
Abbreviation OP_SUBSTR := 0x7f.
Abbreviation OP_LEFT := 0x80.
Abbreviation OP_RIGHT := 0x81.
Abbreviation OP_SIZE := 0x82.
Abbreviation OP_INVERT := 0x83.
Abbreviation OP_AND := 0x84.
Abbreviation OP_OR := 0x85.
Abbreviation OP_XOR := 0x86.
Abbreviation OP_EQUAL := 0x87.
Abbreviation OP_EQUALVERIFY := 0x88.
Abbreviation OP_1ADD := 0x8b.
Abbreviation OP_1SUB := 0x8c.
Abbreviation OP_2MUL := 0x8d.
Abbreviation OP_2DIV := 0x8e.
Abbreviation OP_NEGATE := 0x8f.
Abbreviation OP_ABS := 0x90.
Abbreviation OP_NOT := 0x91.
Abbreviation OP_0NOTEQUAL := 0x92.
Abbreviation OP_ADD := 0x93.
Abbreviation OP_SUB := 0x94.
Abbreviation OP_MUL := 0x95.
Abbreviation OP_DIV := 0x96.
Abbreviation OP_MOD := 0x97.
Abbreviation OP_LSHIFT := 0x98.
Abbreviation OP_RSHIFT := 0x99.
Abbreviation OP_BOOLAND := 0x9a.
Abbreviation OP_BOOLOR := 0x9b.
Abbreviation OP_NUMEQUAL := 0x9c.
Abbreviation OP_NUMEQUALVERIFY := 0x9d.
Abbreviation OP_NUMNOTEQUAL := 0x9e.
Abbreviation OP_LESSTHAN := 0x9f.
Abbreviation OP_GREATERTHAN := 0xa0.
Abbreviation OP_LESSTHANOREQUAL := 0xa1.
Abbreviation OP_GREATERTHANOREQUAL := 0xa2.
Abbreviation OP_MIN := 0xa3.
Abbreviation OP_MAX := 0xa4.
Abbreviation OP_WITHIN := 0xa5.
Abbreviation OP_RIPEMD160 := 0xa6.
Abbreviation OP_SHA1 := 0xa7.
Abbreviation OP_SHA256 := 0xa8.
Abbreviation OP_HASH160 := 0xa9.
Abbreviation OP_HASH256 := 0xaa.
Abbreviation OP_CODESEPARATOR := 0xab.
Abbreviation OP_CHECKSIG := 0xac.
Abbreviation OP_CHECKSIGVERIFY := 0xad.
Abbreviation OP_CHECKMULTISIG := 0xae.
Abbreviation OP_CHECKMULTISIGVERIFY := 0xaf.
Abbreviation OP_NOP1 := 0xb0.
Abbreviation OP_CHECKLOCKTIMEVERIFY := 0xb1.
Abbreviation OP_CHECKSEQUENCEVERIFY := 0xb2.
Abbreviation OP_NOP4 := 0xb3.
Abbreviation OP_NOP10 := 0xb9.
Abbreviation OP_INVALIDOPCODE := 0xff.

(** ** Script numbers *)

Module CScriptNum.

(** The bytes of the absolute value; eight iterations exhaust a [uint64_t]. *)
Fixpoint abs_bytes (fuel : nat) (absvalue : Z) : list Z :=
  match fuel with
  | O => []
  | S fuel => if absvalue =? 0 then [] else Z.land absvalue 0xff :: abs_bytes fuel (Z.shiftr absvalue 8)
  end.

(** The sign goes into the last byte, or into a byte of its own. *)
Fixpoint set_sign (neg : bool) (result : list Z) : list Z :=
  match result with
  | [] => []
  | [b] => if negb (Z.land b 0x80 =? 0) then [b; if neg then 0x80 else 0]
           else if neg then [Z.lor b 0x80] else [b]
  | b :: result => b :: set_sign neg result
  end.

Definition serialize (value : Z) : list Z :=
  if value =? 0 then []
  else
    let neg := value <? 0 in
    let absvalue := u64 (if neg then - value else value) in
    set_sign neg (abs_bytes 8 absvalue).

Fixpoint set_loop (i : Z) (result : Z) (vch : list Z) : Z :=
  match vch with
  | [] => result
  | c :: vch => set_loop (i + 1) (Z.lor result (i64 (Z.shiftl c (8 * i)))) vch
  end.

Definition set_vch (vch : list Z) : Z :=
  match last vch with
  | None => 0
  | Some back =>
      let result := set_loop 0 0 vch in
      if negb (Z.land back 0x80 =? 0)
      then - i64 (Z.land (u64 result)
                    (u64 (Z.lnot (Z.shiftl 0x80 (8 * (Z.of_nat (length vch) - 1))))))
      else result
  end.

Definition nDefaultMaxNumSize : Z := 4.

(** The check of [fRequireMinimal]. *)
Definition minimal (vch : list Z) : bool :=
  match last vch with
  | None => true
  | Some back =>
      negb ((Z.land back 0x7f =? 0) &&
            ((Z.of_nat (length vch) <=? 1) || (Z.land (vch !!! (length vch - 2)%nat) 0x80 =? 0)))
  end.

(** The constructor from bytes; [None] where it throws [scriptnum_error]. *)
Definition of_vch (vch : list Z) (fRequireMinimal : bool) (nMaxNumSize : Z) : option Z :=
  if nMaxNumSize <? Z.of_nat (length vch) then None
  else if fRequireMinimal && negb (minimal vch) then None
  else Some (set_vch vch).

Definition getint (m_value : Z) : Z :=
  if INT_MAX <? m_value then INT_MAX else if m_value <? - 2 ^ 31 then - 2 ^ 31 else m_value.

End CScriptNum.

(** ** Building and reading scripts *)

(** [operator<<(const std::vector<unsigned char>&)]: the bytes it appends. *)
Definition push_data (b : valtype) : CScript :=
  let n := Z.of_nat (length b) in
  (if n <? OP_PUSHDATA1 then [n]
   else if n <=? 0xff then [OP_PUSHDATA1; n]
   else if n <=? 0xffff then OP_PUSHDATA2 :: le_bytes 2 n
   else OP_PUSHDATA4 :: le_bytes 4 n) ++ b.

Definition push_int64 (n : Z) : CScript :=
  if (n =? -1) || ((1 <=? n) && (n <=? 16)) then [n + (OP_1 - 1)]
  else if n =? 0 then [OP_0]
  else push_data (CScriptNum.serialize n).

(** The length of the data of a push: the iterator past the length bytes, and the
    length unless the script ends first. *)
Definition push_size (opcode : Z) (pc : list Z) : list Z * option Z :=
  if opcode <? OP_PUSHDATA1 then (pc, Some opcode)
  else
    let k := if opcode =? OP_PUSHDATA1 then 1%nat else if opcode =? OP_PUSHDATA2 then 2%nat else 4%nat in
    if (length pc <? k)%nat then (pc, None) else (drop k pc, Some (le_value (take k pc))).

(** [GetOp2] *)
Definition GetOp (pc : list Z) : list Z * option (Z * valtype) :=
  match pc with
  | [] => ([], None)
  | opcode :: pc =>
      if opcode <=? OP_PUSHDATA4 then
        match push_size opcode pc with
        | (pc, None) => (pc, None)
        | (pc, Some nSize) =>
            if Z.of_nat (length pc) <? nSize then (pc, None)
            else (drop (Z.to_nat nSize) pc, Some (opcode, take (Z.to_nat nSize) pc))
        end
      else (pc, Some (opcode, []))
  end.

Definition DecodeOP_N (opcode : Z) : Z := if opcode =? OP_0 then 0 else opcode - (OP_1 - 1).
Definition EncodeOP_N (n : Z) : Z := if n =? 0 then OP_0 else OP_1 + n - 1.

(** The inner loop of [FindAndDelete]: skip copies of [b] at [pc]. *)
Fixpoint skip_copies (fuel : nat) (b pc : list Z) (nFound : Z) : list Z * Z :=
  match fuel with
  | O => (pc, nFound)
  | S fuel =>
      if (length b <=? length pc)%nat && bool_decide (take (length b) pc = b)
      then skip_copies fuel b (drop (length b) pc) (nFound + 1)
      else (pc, nFound)
  end.

(** The outer loop: [pc2] is where the part still to be copied starts. *)
Fixpoint find_loop (fuel : nat) (b result pc2 pc : list Z) (nFound : Z) : list Z * list Z * Z :=
  match fuel with
  | O => (result, pc2, nFound)
  | S fuel =>
      let result := result ++ take (length pc2 - length pc) pc2 in
      let '(pc, nFound) := skip_copies (length pc) b pc nFound in
      let pc2 := pc in
      match GetOp pc with
      | (pc, Some _) => find_loop fuel b result pc2 pc nFound
      | (_, None) => (result, pc2, nFound)
      end
  end.

(** Returns the script after the deletions and their number. *)
Definition FindAndDelete (script b : CScript) : CScript * Z :=
  match b with
  | [] => (script, 0)
  | _ =>
      let '(result, pc2, nFound) := find_loop (S (length script)) b [] script script 0 in
      if 0 <? nFound then (result ++ pc2, nFound) else (script, nFound)
  end.

(** ** Counting signature operations *)

Fixpoint sigop_loop (fuel : nat) (fAccurate : bool) (n lastOpcode : Z) (pc : list Z) : Z :=
  match fuel with
  | O => n
  | S fuel =>
      match GetOp pc with
      | (_, None) => n
      | (pc, Some (opcode, _)) =>
          let n :=
            if (opcode =? OP_CHECKSIG) || (opcode =? OP_CHECKSIGVERIFY) then n + 1
            else if (opcode =? OP_CHECKMULTISIG) || (opcode =? OP_CHECKMULTISIGVERIFY)
            then if fAccurate && (OP_1 <=? lastOpcode) && (lastOpcode <=? OP_16)
                 then n + DecodeOP_N lastOpcode else n + MAX_PUBKEYS_PER_MULTISIG
            else n in
          sigop_loop fuel fAccurate n opcode pc
      end
  end.

(** [GetSigOpCount(bool)] *)
Definition GetSigOpCount (fAccurate : bool) (script : CScript) : Z :=
  sigop_loop (length script) fAccurate 0 OP_INVALIDOPCODE script.

(** ** Shapes *)

Definition IsPayToPublicKeyHash (s : CScript) : bool :=
  (Z.of_nat (length s) =? 25) && (s !!! 0%nat =? OP_DUP) && (s !!! 1%nat =? OP_HASH160) &&
  (s !!! 2%nat =? 0x14) && (s !!! 23%nat =? OP_EQUALVERIFY) && (s !!! 24%nat =? OP_CHECKSIG).

Definition IsPayToScriptHash (s : CScript) : bool :=
  (Z.of_nat (length s) =? 23) && (s !!! 0%nat =? OP_HASH160) && (s !!! 1%nat =? 0x14) &&
  (s !!! 22%nat =? OP_EQUAL).

Definition IsPayToPublicKey (s : CScript) : bool :=
  if Z.of_nat (length s) =? 35
  then ((s !!! 1%nat =? 0x02) || (s !!! 1%nat =? 0x03)) && (s !!! 34%nat =? OP_CHECKSIG)
  else if Z.of_nat (length s) =? 67
  then (s !!! 1%nat =? 0x04) && (s !!! 66%nat =? OP_CHECKSIG)
  else false.

Fixpoint push_only_loop (fuel : nat) (pc : list Z) : bool :=
  match fuel with
  | O => true
  | S fuel =>
      match pc with
      | [] => true
      | _ => match GetOp pc with
             | (_, None) => false
             | (pc, Some (opcode, _)) => if OP_16 <? opcode then false else push_only_loop fuel pc
             end
      end
  end.
Definition IsPushOnly (s : CScript) : bool := push_only_loop (length s) s.

Definition IsUnspendable (s : CScript) : bool :=
  match s with
  | c :: _ => (c =? OP_RETURN) || (MAX_SCRIPT_SIZE <? Z.of_nat (length s))
  | [] => MAX_SCRIPT_SIZE <? Z.of_nat (length s)
  end.

(** The last push of a P2SH [scriptSig]; [None] where the source returns 0. *)
Fixpoint last_push (fuel : nat) (vData : valtype) (pc : list Z) : option valtype :=
  match fuel with
  | O => Some vData
  | S fuel =>
      match pc with
      | [] => Some vData
      | _ => match GetOp pc with
             | (_, None) => None
             | (pc, Some (opcode, vData)) => if OP_16 <? opcode then None else last_push fuel vData pc
             end
      end
  end.

(** [GetSigOpCount(const CScript& scriptSig)] *)
Definition GetSigOpCountP2SH (scriptPubKey scriptSig : CScript) : Z :=
  if negb (IsPayToScriptHash scriptPubKey) then GetSigOpCount true scriptPubKey
  else match last_push (length scriptSig) [] scriptSig with
       | None => 0
       | Some vData => GetSigOpCount true vData
       end.

(** ** Lemmas: reading scripts *)

Lemma push_size_shorter op pc pc' r : push_size op pc = (pc', r) -> (length pc' <= length pc)%nat.
Proof.
  unfold push_size. cbn zeta. intros E. repeat case_match; simplify_eq; rewrite ?length_drop; lia.
Qed.

(** Every instruction read consumes at least one byte. *)
Lemma GetOp_shorter pc pc' r : GetOp pc = (pc', Some r) -> (length pc' < length pc)%nat.
Proof.
  destruct pc as [|op pc]; cbn [GetOp length]; [done|]. intros E.
  destruct (op <=? OP_PUSHDATA4); [|simplify_eq; lia].
  destruct (push_size op pc) as [pc1 [n|]] eqn:E1; [|done]. apply push_size_shorter in E1.
  case_match; simplify_eq. rewrite length_drop. lia.
Qed.

(** The data of an instruction is a part of the script. *)
Lemma GetOp_data pc pc' op d : Forall is_byte pc -> GetOp pc = (pc', Some (op, d)) ->
  Forall is_byte d /\ Forall is_byte pc' /\ is_byte op.
Proof.
  destruct pc as [|o pc]; cbn [GetOp]; [done|]. intros [Ho Hpc]%Forall_cons E.
  destruct (o <=? OP_PUSHDATA4); [|by simplify_eq].
  destruct (push_size o pc) as [pc1 [n|]] eqn:E1; [|done].
  assert (Forall is_byte pc1).
  { unfold push_size in E1. cbn zeta in E1. repeat case_match; simplify_eq; auto using Forall_drop. }
  case_match; simplify_eq. auto using Forall_drop, Forall_take.
Qed.

(** The opcode [push_data] uses. *)
Definition push_opcode (b : valtype) : Z :=
  let n := Z.of_nat (length b) in
  if n <? OP_PUSHDATA1 then n else if n <=? 0xff then OP_PUSHDATA1 else if n <=? 0xffff then OP_PUSHDATA2
  else OP_PUSHDATA4.

Lemma push_size_le op k n rest : OP_PUSHDATA1 <= op ->
  k = (if op =? OP_PUSHDATA1 then 1%nat else if op =? OP_PUSHDATA2 then 2%nat else 4%nat) ->
  0 <= n < 2 ^ (8 * Z.of_nat k) -> push_size op (le_bytes k n ++ rest) = (rest, Some n).
Proof.
  intros Hop Hk Hn. unfold push_size. rewrite (proj2 (Z.ltb_ge _ _) Hop). cbn zeta. rewrite <- Hk.
  rewrite length_app, le_bytes_length, (proj2 (Nat.ltb_ge _ _)) by lia.
  rewrite take_app_length', drop_app_length', le_value_bytes by (rewrite ?le_bytes_length; lia). done.
Qed.

Lemma GetOp_push b rest : Z.of_nat (length b) < 2 ^ 32 ->
  GetOp (push_data b ++ rest) = (rest, Some (push_opcode b, b)).
Proof.
  intros Hb. unfold push_data, push_opcode. cbn zeta. rewrite <- app_assoc.
  set (n := Z.of_nat (length b)) in *.
  assert (forall op pc, (op <=? OP_PUSHDATA4) = true -> push_size op pc = (b ++ rest, Some n) ->
    GetOp (op :: pc) = (rest, Some (op, b))) as H.
  { intros op pc Hop E. cbn [GetOp]. rewrite Hop, E, length_app, (proj2 (Z.ltb_ge _ _)) by lia.
    unfold n. rewrite Nat2Z.id, take_app_length', drop_app_length' by done. done. }
  destruct (Z.ltb_spec n OP_PUSHDATA1) as [Hn|Hn].
  { apply H; [lia|]. unfold push_size. rewrite (proj2 (Z.ltb_lt _ _) Hn). done. }
  destruct (Z.leb_spec n 0xff); [|destruct (Z.leb_spec n 0xffff)].
  - apply H; [lia|]. assert ([n] = le_bytes 1 n) as E by (cbn; rewrite u8_small by lia; done).
    change (n :: b ++ rest) with ([n] ++ b ++ rest). rewrite E. apply (push_size_le OP_PUSHDATA1 1); [lia|done|lia].
  - apply H; [lia|]. apply (push_size_le OP_PUSHDATA2 2); [lia|done|lia].
  - apply H; [lia|]. apply (push_size_le OP_PUSHDATA4 4); [lia|done|lia].
Qed.

(** ** Lemmas: script numbers *)

Lemma lor_disjoint a y k : 0 <= k -> 0 <= a < 2 ^ k -> Z.lor a (y * 2 ^ k) = a + y * 2 ^ k.
Proof.
  intros Hk Ha. rewrite <- Z.add_lor_land. enough (Z.land a (y * 2 ^ k) = 0) as -> by lia.
  apply Z.bits_inj'. intros n Hn. rewrite Z.land_spec, Z.bits_0.
  destruct (Z.ltb_spec n k).
  - rewrite Z.mul_pow2_bits_low by lia. apply andb_false_r.
  - rewrite (testbit_small a n k) by lia. done.
Qed.

Lemma lor_128 x : 0 <= x < 128 -> Z.lor x 0x80 = x + 128.
Proof. intros. apply (lor_disjoint x 1 7); lia. Qed.

Lemma le_value_app a b : le_value (a ++ b) = le_value a + 2 ^ (8 * Z.of_nat (length a)) * le_value b.
Proof.
  induction a as [|c a IH]; cbn [app le_value length]; [lia|]. rewrite IH.
  replace (8 * Z.of_nat (S (length a))) with (8 + 8 * Z.of_nat (length a)) by lia.
  rewrite Z.pow_add_r by lia. lia.
Qed.

Lemma i64_high z : 2 ^ 63 <= z < 2 ^ 64 -> i64 z = z - 2 ^ 64.
Proof.
  intros Hz. unfold i64. rewrite <- (swrap_small 64 (z - 2 ^ 64)) by lia. unfold swrap.
  replace (z - 2 ^ 64 + 2 ^ (64 - 1)) with (z + 2 ^ (64 - 1) + (-1) * 2 ^ 64) by lia.
  by rewrite Z_mod_plus_full.
Qed.

Lemma u64_i64 z : 0 <= z < 2 ^ 64 -> u64 (i64 z) = z.
Proof.
  intros Hz. destruct (Z.lt_ge_cases z (2 ^ 63)).
  - rewrite i64_small, u64_small by lia. done.
  - rewrite i64_high by lia. unfold u64. replace (z - 2 ^ 64) with (z + (-1) * 2 ^ 64) by lia.
    rewrite Z_mod_plus_full. apply Z.mod_small. lia.
Qed.

Module NumLemmas.
Import CScriptNum.

Lemma set_loop_step i A c : 0 <= i < 8 -> 0 <= A < 2 ^ (8 * i) -> is_byte c ->
  Z.lor (i64 A) (i64 (Z.shiftl c (8 * i))) = i64 (A + 2 ^ (8 * i) * c).
Proof.
  intros Hi HA Hc. unfold is_byte in Hc. rewrite Z.shiftl_mul_pow2 by lia.
  assert (0 < 2 ^ (8 * i) <= 2 ^ 56) by (split; [lia|apply Z.pow_le_mono_r; lia]).
  rewrite (i64_small A) by lia.
  assert (c * 2 ^ (8 * i) < 2 ^ 63 \/ i = 7 /\ 128 <= c) as [Hs|[-> Hc']].
  { assert (i = 7 \/ 2 ^ (8 * i) <= 2 ^ 48) as [->|?] by
      (destruct (Z.eq_dec i 7); [by left|right; apply Z.pow_le_mono_r; lia]); [lia|left; nia]. }
  - rewrite i64_small by nia. rewrite lor_disjoint by lia. rewrite i64_small; [lia|].
    split; [nia|]. assert (2 ^ 63 = 2 ^ (8 * i) * 2 ^ (63 - 8 * i)) as E by (rewrite <- Z.pow_add_r by lia; f_equal; lia).
    assert (c < 2 ^ (63 - 8 * i)) by nia. nia.
  - rewrite !i64_high by lia. replace (c * 2 ^ (8 * 7) - 2 ^ 64) with ((c - 256) * 2 ^ (8 * 7)) by lia.
    rewrite lor_disjoint by lia. lia.
Qed.

Lemma set_loop_value i A vch : 0 <= i -> i + Z.of_nat (length vch) <= 8 ->
  0 <= A < 2 ^ (8 * i) -> Forall is_byte vch ->
  set_loop i (i64 A) vch = i64 (A + 2 ^ (8 * i) * le_value vch).
Proof.
  revert i A. induction vch as [|c vch IH]; intros i A Hi Hlen HA Hb; cbn [set_loop le_value length] in *.
  { f_equal. lia. }
  apply Forall_cons in Hb as [Hc Hb]. rewrite set_loop_step by (auto with lia).
  unfold is_byte in Hc. assert (2 ^ (8 * (i + 1)) = 2 ^ (8 * i) * 2 ^ 8) as E by (rewrite <- Z.pow_add_r by lia; f_equal; lia).
  rewrite IH; [|lia|lia|rewrite E; nia|done]. f_equal. rewrite E. lia.
Qed.

(** The value of a byte string: the last byte carries the sign. *)
Definition signed_value (r : list Z) (b : Z) : Z :=
  let a := le_value r + 2 ^ (8 * Z.of_nat (length r)) * (b mod 128) in
  if 128 <=? b then - a else a.

Lemma high_bit b : is_byte b -> (Z.land b 0x80 =? 0) = (b <? 128) /\ Z.land b 0x7f = b mod 128.
Proof.
  unfold is_byte. intros Hb. split.
  - change (Z.land b 0x80) with (Z.land b (Z.shiftl 1 7)). rewrite land_bit_zero by lia.
    destruct (Z.ltb_spec b 128).
    + rewrite (testbit_small b 7 7) by lia. reflexivity.
    + assert (Z.testbit b 7 = true) as ->; [|done]. apply Z.testbit_true; [lia|].
      assert (b / 2 ^ 7 = 1) as -> by (symmetry; apply (Z.div_unique b (2 ^ 7) 1 (b - 128)); lia). done.
  - change 0x7f with (Z.ones 7). by rewrite Z.land_ones by lia.
Qed.

Lemma clear_bit z m : 0 <= m < 64 -> 0 <= z < 2 ^ 64 -> Z.testbit z m = true ->
  Z.land z (u64 (Z.lnot (Z.shiftl 1 m))) = z - 2 ^ m.
Proof.
  intros Hm Hz Ht. rewrite Z.shiftl_1_l. transitivity (Z.ldiff z (2 ^ m)).
  - apply Z.bits_inj'. intros n Hn. rewrite Z.land_spec, Z.ldiff_spec. unfold u64.
    destruct (Z.ltb_spec n 64).
    + rewrite Z.mod_pow2_bits_low, Z.lnot_spec by lia. done.
    + rewrite (testbit_small z n 64) by lia. done.
  - rewrite <- Z.sub_nocarry_ldiff; [done|]. apply Z.bits_inj'. intros n Hn.
    rewrite Z.ldiff_spec, Z.bits_0, Z.pow2_bits_eqb by lia. destruct (Z.eqb_spec m n) as [->|]; [by rewrite Ht|done].
Qed.

Lemma set_vch_value r b : Z.of_nat (length r) < 8 -> Forall is_byte r -> is_byte b ->
  set_vch (r ++ [b]) = signed_value r b.
Proof.
  intros Hlen Hr Hb. unfold set_vch, signed_value. rewrite last_snoc.
  change (set_loop 0 0 (r ++ [b])) with (set_loop 0 (i64 0) (r ++ [b])).
  rewrite set_loop_value; [|lia|rewrite length_app; cbn; lia|lia|by apply Forall_app_2; [|constructor]].
  rewrite le_value_app. cbn [le_value]. rewrite length_app. cbn [length].
  replace (8 * (Z.of_nat (length r + 1) - 1)) with (8 * Z.of_nat (length r)) by lia.
  destruct (high_bit b Hb) as [-> _]. unfold is_byte in Hb.
  pose proof (le_value_range r Hr) as HA. set (L := Z.of_nat (length r)) in *. set (A := le_value r) in *.
  set (P := 2 ^ (8 * L)) in *. assert (0 < P) by (unfold P; lia).
  assert (P <= 2 ^ 56) by (unfold P; apply Z.pow_le_mono_r; lia).
  replace (0 + 2 ^ (8 * 0) * (A + P * (b + 2 ^ 8 * 0))) with (A + P * b) by lia.
  destruct (Z.ltb_spec b 128); cbn [negb].
  - rewrite (proj2 (Z.leb_gt _ _)) by lia. rewrite (Z.mod_small b 128), i64_small by nia. done.
  - rewrite (proj2 (Z.leb_le _ _)) by lia. replace (b mod 128) with (b - 128) by
      (rewrite (Z.mod_eq b 128) by lia; rewrite <- (Z.div_unique b 128 1 (b - 128)) by lia; lia).
    f_equal. change 0x80 with (Z.shiftl 1 7). rewrite Z.shiftl_shiftl by lia.
    assert (0 <= A + P * b < 2 ^ 64) as Hz by nia.
    assert (2 ^ (7 + 8 * L) = 128 * P) as EP by (unfold P; rewrite Z.pow_add_r by lia; lia).
    assert (0 <= A + P * (b - 128) < 128 * P) as Hq by nia.
    assert (Z.testbit (A + P * b) (7 + 8 * L) = true).
    { apply Z.testbit_true; [lia|]. rewrite EP.
      rewrite <- (Z.div_unique (A + P * b) (128 * P) 1 (A + P * (b - 128))) by lia. done. }
    rewrite u64_i64, clear_bit, EP by (done || lia). change (Z.shiftl 1 7) with 128. rewrite i64_small; lia.
Qed.

Lemma abs_bytes_eq fuel a : abs_bytes (S fuel) a = if a =? 0 then [] else a mod 2 ^ 8 :: abs_bytes fuel (a / 2 ^ 8).
Proof.
  cbn [abs_bytes]. change 0xff with (Z.ones 8). by rewrite Z.land_ones, Z.shiftr_div_pow2 by lia.
Qed.

(** Bytes without a leading zero are recovered from their value. *)
Lemma abs_bytes_value fuel r b : (length r < fuel)%nat -> Forall is_byte r -> is_byte b -> b <> 0 ->
  abs_bytes fuel (le_value (r ++ [b])) = r ++ [b].
Proof.
  revert fuel. induction r as [|c r IH]; intros fuel Hlen Hr Hb Hnz; cbn [length] in Hlen;
    (destruct fuel as [|fuel]; [lia|]); rewrite abs_bytes_eq; cbn [app le_value]; unfold is_byte in *.
  - rewrite Z.mul_0_r, Z.add_0_r, (proj2 (Z.eqb_neq _ _) Hnz), Z.mod_small, Z.div_small by lia.
    by destruct fuel.
  - apply Forall_cons in Hr as [Hc Hr].
    assert (0 < le_value (r ++ [b])).
    { rewrite le_value_app. cbn [le_value]. pose proof (le_value_range r Hr).
      assert (0 < 2 ^ (8 * Z.of_nat (length r))) by lia. nia. }
    rewrite (proj2 (Z.eqb_neq _ _)) by lia.
    destruct (div_mod_split (2 ^ 8) (le_value (r ++ [b])) c Hc) as [E1 E2].
    rewrite Z.add_comm, E1, E2, IH; [done|lia|done..].
Qed.

Lemma abs_bytes_positive fuel a : 0 < a < 2 ^ (8 * Z.of_nat fuel) -> exists r b,
  abs_bytes fuel a = r ++ [b] /\ le_value (r ++ [b]) = a /\ Forall is_byte r /\ is_byte b /\ b <> 0 /\
  (length r < fuel)%nat.
Proof.
  revert a. induction fuel as [|fuel IH]; intros a Ha; [cbn in Ha; lia|].
  rewrite abs_bytes_eq, (proj2 (Z.eqb_neq _ _)) by lia.
  pose proof (Z.div_mod a (2 ^ 8)). pose proof (Z.mod_pos_bound a (2 ^ 8)).
  destruct (Z.eq_dec (a / 2 ^ 8) 0) as [E|E].
  - exists [], (a mod 2 ^ 8). rewrite E. destruct fuel; cbn; repeat split; try lia; constructor.
  - destruct (IH (a / 2 ^ 8)) as (r & b & -> & Hv & Hr & Hb & Hnz & Hlen).
    { split; [lia|]. apply Z.div_lt_upper_bound; [lia|]. rewrite <- Z.pow_add_r by lia.
      replace (8 + 8 * Z.of_nat fuel) with (8 * Z.of_nat (S fuel)) by lia. lia. }
    exists (a mod 2 ^ 8 :: r), b. cbn [app le_value length]. rewrite Hv.
    repeat split; try done; [lia|constructor; [unfold is_byte; lia|done]|apply Hb..|lia].
Qed.

Lemma set_sign_snoc neg r b : set_sign neg (r ++ [b]) =
  r ++ (if negb (Z.land b 0x80 =? 0) then [b; if neg then 0x80 else 0]
        else if neg then [Z.lor b 0x80] else [b]).
Proof.
  induction r as [|c r IH]; [done|]. cbn [app]. destruct r; [done|]. cbn [set_sign app] in *. by rewrite IH.
Qed.

Lemma serialize_value r b n : (length r < 8)%nat -> Forall is_byte r -> is_byte b ->
  signed_value r b = n -> minimal (r ++ [b]) = true -> serialize n = r ++ [b].
Proof.
  intros Hlen Hr Hb <- Hmin. unfold minimal in Hmin. rewrite last_snoc in Hmin.
  destruct (high_bit b Hb) as [_ E7]. rewrite E7 in Hmin. unfold is_byte in Hb.
  pose proof (le_value_range r Hr) as HA. set (P := 2 ^ (8 * Z.of_nat (length r))) in *.
  assert (0 < P <= 2 ^ 56) by (unfold P; split; [lia|apply Z.pow_le_mono_r; lia]).
  set (a := le_value r + P * (b mod 128)). assert (0 <= b mod 128 < 128) by (apply Z.mod_pos_bound; lia).
  assert (0 < a -> serialize (signed_value r b) = set_sign (128 <=? b) (abs_bytes 8 a)) as Hser.
  { intros Ha. unfold serialize, signed_value. fold P. fold a. assert (a < 2 ^ 63) by nia.
    destruct (128 <=? b).
    - rewrite (proj2 (Z.eqb_neq _ _)), (proj2 (Z.ltb_lt _ _)) by lia. rewrite Z.opp_involutive, u64_small by lia. done.
    - rewrite (proj2 (Z.eqb_neq _ _)), (proj2 (Z.ltb_ge _ _)) by lia. rewrite u64_small by lia. done. }
  destruct (Z.eqb_spec (b mod 128) 0) as [E0|E0]; cbn [andb negb] in Hmin.
  - apply negb_true_iff, orb_false_iff in Hmin as [Hl Hc]. rewrite length_app in *. cbn [length] in *.
    destruct (exists_last (l := r)) as (r' & c & Er); [by intros ->|]. subst r.
    apply Forall_app in Hr as [Hr' [Hcb _]%Forall_cons]. rewrite length_app in *. cbn [length] in *.
    rewrite lookup_total_app_l in Hc by (rewrite length_app; cbn; lia).
    replace (length r' + 1 + 1 - 2)%nat with (length r') in Hc by lia.
    rewrite lookup_total_app_r, Nat.sub_diag in Hc by lia. cbn [lookup_total list_lookup_total] in Hc.
    destruct (high_bit c Hcb) as [E8 _]. rewrite E8 in Hc. unfold is_byte in Hcb.
    assert (a = le_value (r' ++ [c])) as Ea by (unfold a; rewrite E0; lia).
    rewrite Hser, Ea, abs_bytes_value, set_sign_snoc, E8, Hc by
      (done || lia || (rewrite Ea, le_value_app; cbn [le_value]; pose proof (le_value_range r' Hr');
        assert (0 < 2 ^ (8 * Z.of_nat (length r'))) by lia; nia)).
    cbn [negb]. rewrite <- app_assoc. do 3 f_equal.
    pose proof (Z.div_mod b 128). destruct (Z.leb_spec 128 b); [|lia].
    assert (b / 128 = 1) by (symmetry; apply (Z.div_unique b 128 1 (b - 128)); lia). lia.
  - assert (a = le_value (r ++ [b mod 128])) as Ea by (unfold a; rewrite le_value_app; cbn [le_value]; fold P; lia).
    assert (is_byte (b mod 128)) as Hb' by (unfold is_byte; lia).
    rewrite Hser, Ea, abs_bytes_value, set_sign_snoc, (proj1 (high_bit _ Hb')) by (done || lia || nia).
    rewrite (proj2 (Z.ltb_lt _ _)) by lia. cbn [negb]. f_equal. pose proof (Z.div_mod b 128).
    destruct (Z.leb_spec 128 b).
    + f_equal. rewrite lor_128 by lia.
      assert (b / 128 = 1) by (symmetry; apply (Z.div_unique b 128 1 (b - 128)); lia). lia.
    + by rewrite Z.mod_small by lia.
Qed.

Lemma serialize_spec n : - 2 ^ 63 < n < 2 ^ 63 -> n <> 0 -> exists r b,
  serialize n = r ++ [b] /\ (length r < 8)%nat /\ Forall is_byte r /\ is_byte b /\
  signed_value r b = n /\ minimal (r ++ [b]) = true.
Proof.
  intros Hn Hnz. unfold serialize. rewrite (proj2 (Z.eqb_neq _ _) Hnz).
  replace (if n <? 0 then - n else n) with (Z.abs n) by (destruct (Z.ltb_spec n 0); lia).
  rewrite u64_small by lia.
  destruct (abs_bytes_positive 8 (Z.abs n)) as (r & b & -> & Hv & Hr & Hb & Hb0 & Hlen); [lia|].
  rewrite set_sign_snoc. destruct (high_bit b Hb) as [E8 E7]. rewrite E8. unfold is_byte in Hb.
  rewrite le_value_app in Hv. cbn [le_value] in Hv. set (P := 2 ^ (8 * Z.of_nat (length r))) in *.
  pose proof (le_value_range r Hr) as HA. fold P in HA.
  destruct (Z.ltb_spec b 128) as [Hlow|Hhigh]; cbn [negb].
  - exists r, (if n <? 0 then b + 128 else b).
    assert (is_byte (if n <? 0 then b + 128 else b)) as Hs by (unfold is_byte; destruct (n <? 0); lia).
    assert ((if n <? 0 then b + 128 else b) mod 128 = b) as Em.
    { destruct (n <? 0); [|apply Z.mod_small; lia]. rewrite <- (Z.mod_unique (b + 128) 128 1 b); lia. }
    repeat split; try done; try apply Hs.
    + destruct (n <? 0); [|done]. by rewrite lor_128 by lia.
    + unfold signed_value. rewrite Em. fold P. destruct (Z.ltb_spec n 0); destruct (Z.leb_spec 128 (b + 128)), (Z.leb_spec 128 b); lia.
    + unfold minimal. rewrite last_snoc, (proj2 (high_bit _ Hs)), Em, (proj2 (Z.eqb_neq _ _) Hb0). done.
  - assert (length r < 7)%nat.
    { destruct (decide (length r < 7)%nat); [done|]. assert (2 ^ 56 <= P) by (unfold P; apply Z.pow_le_mono_r; lia). nia. }
    exists (r ++ [b]), (if n <? 0 then 0x80 else 0). rewrite <- app_assoc. cbn [app].
    repeat split; try (destruct (n <? 0); done); [rewrite length_app; cbn; lia|by apply Forall_app_2; [|constructor]| |].
    + unfold signed_value. rewrite le_value_app, length_app. cbn [le_value length]. fold P.
      assert ((if n <? 0 then 0x80 else 0) mod 128 = 0) as -> by (by destruct (n <? 0)).
      destruct (Z.ltb_spec n 0); [change (128 <=? 0x80) with true|change (128 <=? 0) with false]; cbn iota; lia.
    + unfold minimal. replace (r ++ [b; _]) with ((r ++ [b]) ++ [if n <? 0 then 0x80 else 0]) by by rewrite <- app_assoc.
      rewrite last_snoc, !length_app. cbn [length].
      replace (length r + 1 + 1 - 2)%nat with (length r) by lia.
      rewrite <- app_assoc, lookup_total_app_r, Nat.sub_diag by lia. cbn [app lookup_total list_lookup_total].
      rewrite E8. rewrite (proj2 (Z.leb_gt _ 1)) by lia. by rewrite andb_false_r.
Qed.

End NumLemmas.
Import NumLemmas.

(** ** Lemmas: signature operations *)

Lemma sigop_loop_bounds fuel acc lastOp pc n n' : 0 <= n <= n' ->
  n <= sigop_loop fuel acc n lastOp pc /\
  sigop_loop fuel true n lastOp pc <= sigop_loop fuel false n' lastOp pc /\
  sigop_loop fuel false n lastOp pc <= n + 20 * Z.of_nat (length pc).
Proof.
  revert lastOp pc n n'. induction fuel as [|fuel IH]; intros lastOp pc n n' Hn; cbn [sigop_loop]; [lia|].
  destruct (GetOp pc) as [pc' [[op d]|]] eqn:E; [|lia]. apply GetOp_shorter in E.
  unfold MAX_PUBKEYS_PER_MULTISIG, DecodeOP_N. cbn [andb].
  destruct (_ || _); [|destruct (_ || _)].
  - destruct (IH op pc' (n + 1) (n' + 1)) as (? & ? & ?); lia.
  - destruct (OP_1 <=? lastOp) eqn:E1, (lastOp <=? OP_16) eqn:E2, (lastOp =? OP_0) eqn:E3; cbn [andb]; try lia;
      destruct (IH op pc' (n + 20) (n' + 20)) as (? & ? & ?); try lia;
      try (destruct (IH op pc' (n + (lastOp - (OP_1 - 1))) (n' + 20)) as (? & ? & ?); [lia|]);
      destruct acc; cbn [andb]; lia.
  - destruct (IH op pc' n n') as (? & ? & ?); lia.
Qed.

(** ** Properties *)

(** Script numbers have exactly one minimal encoding: a byte string of at
    most [max] bytes decodes to [n] with the minimality check on exactly when it is
    [serialize n]; in particular decoding inverts encoding for every number
    that fits. *)
Theorem scriptnum_canonical vch n max : Forall is_byte vch -> 0 <= max <= 8 ->
  CScriptNum.of_vch vch true max = Some n <->
  vch = CScriptNum.serialize n /\ Z.of_nat (length vch) <= max /\ - 2 ^ 63 < n < 2 ^ 63.
Proof.
  intros Hb Hmax. unfold CScriptNum.of_vch. cbn [andb].
  destruct (Z.ltb_spec max (Z.of_nat (length vch))); [by split; [|lia]|].
  destruct (decide (vch = [])) as [->|Hne].
  { split; [intros [= <-]; done|]. intros (E & _ & Hn). destruct (Z.eq_dec n 0) as [->|Hnz]; [done|].
    destruct (serialize_spec n Hn Hnz) as (r & b & Es & _). rewrite Es in E. by destruct r. }
  destruct (exists_last Hne) as (r & b & ->). apply Forall_app in Hb as [Hr [Hb _]%Forall_cons].
  rewrite length_app in *. cbn [length] in *. split.
  - intros E. destruct (CScriptNum.minimal (r ++ [b])) eqn:Hmin; [|done]. cbn [negb] in E.
    injection E as E. rewrite set_vch_value in E by (done || lia). split; [symmetry; by apply serialize_value; [lia|..]|].
    split; [lia|]. subst n. unfold signed_value. pose proof (le_value_range r Hr).
    assert (2 ^ (8 * Z.of_nat (length r)) <= 2 ^ 56) by (apply Z.pow_le_mono_r; lia).
    pose proof (Z.mod_pos_bound b 128). destruct (128 <=? b); nia.
  - intros (E & _ & Hn). assert (n <> 0) as Hnz by (intros ->; by destruct r).
    destruct (serialize_spec n Hn Hnz) as (r' & b' & Es & Hlen & Hr' & Hb' & Hv & Hmin).
    rewrite Es in E. rewrite E, Hmin. cbn [negb]. by rewrite set_vch_value, Hv by (done || lia).
Qed.

Lemma scriptnum_canonical_witness :
  CScriptNum.serialize (-255) = [0xff; 0x80] /\
  (CScriptNum.of_vch [0xff; 0x80] true 4 = Some (-255) <->
   [0xff; 0x80] = CScriptNum.serialize (-255) /\ Z.of_nat (length [0xff; 0x80]) <= 4 /\ - 2 ^ 63 < -255 < 2 ^ 63).
Proof.
  split; [reflexivity|].
  apply (scriptnum_canonical [0xff; 0x80] (-255) 4); [repeat constructor; discriminate|split; discriminate].
Defined.

(** What [operator<<] appends for a byte vector is one instruction: reading
    it back returns the data, with an opcode that is a push, and stops exactly
    behind it; the signature operations of any script are between zero and twenty
    per byte, and counting accurately never counts more. *)
Theorem push_and_count b rest script : Z.of_nat (length b) < 2 ^ 32 ->
  (exists opcode, opcode <= OP_PUSHDATA4 /\ GetOp (push_data b ++ rest) = (rest, Some (opcode, b))) /\
  0 <= GetSigOpCount true script <= GetSigOpCount false script /\
  GetSigOpCount false script <= 20 * Z.of_nat (length script).
Proof.
  intros Hb. split.
  - exists (push_opcode b). split; [|by apply GetOp_push]. unfold push_opcode. repeat case_match; lia.
  - unfold GetSigOpCount.
    destruct (sigop_loop_bounds (length script) true OP_INVALIDOPCODE script 0 0) as (? & ? & ?); lia.
Qed.

Lemma push_and_count_witness :
  (exists opcode, opcode <= OP_PUSHDATA4 /\ GetOp (push_data [1; 2; 3] ++ [OP_CHECKSIG]) = ([OP_CHECKSIG], Some (opcode, [1; 2; 3]))) /\
  0 <= GetSigOpCount true [OP_1 + 1; OP_CHECKMULTISIG] <= GetSigOpCount false [OP_1 + 1; OP_CHECKMULTISIG] /\
  GetSigOpCount false [OP_1 + 1; OP_CHECKMULTISIG] <= 40.
Proof. apply (push_and_count [1; 2; 3] [OP_CHECKSIG] [OP_1 + 1; OP_CHECKMULTISIG]). reflexivity. Defined.
