(* ===== verification/Interpreter.v ===== *)
(** * The script interpreter (src/src/script/interpreter.cpp, script_error.h)

    The stack and the alternative stack are lists with their top first, so
    [stacktop(-i)] is the element at position [i - 1].  Hash functions and
    signature checks are the fields of the records [ScriptCrypto] and
    [BaseSignatureChecker].  The exceptions thrown inside [EvalScript] are caught
    there and end in [SCRIPT_ERR_UNKNOWN_ERROR]. *)

From Stdlib Require Import ZArith Lia.
From stdpp Require Import base tactics numbers option list.
From S2P Require Import Prelude ArithUint256 Compact Block Serialize Transaction Script.

(** ** Errors *)

Inductive ScriptError :=
| SCRIPT_ERR_UNKNOWN_ERROR
| SCRIPT_ERR_EVAL_FALSE
| SCRIPT_ERR_OP_RETURN
| SCRIPT_ERR_SCRIPT_SIZE
| SCRIPT_ERR_PUSH_SIZE
| SCRIPT_ERR_OP_COUNT
| SCRIPT_ERR_STACK_SIZE
| SCRIPT_ERR_SIG_COUNT
| SCRIPT_ERR_PUBKEY_COUNT
| SCRIPT_ERR_VERIFY
| SCRIPT_ERR_EQUALVERIFY
| SCRIPT_ERR_CHECKMULTISIGVERIFY
| SCRIPT_ERR_CHECKSIGVERIFY
| SCRIPT_ERR_NUMEQUALVERIFY
| SCRIPT_ERR_BAD_OPCODE
| SCRIPT_ERR_DISABLED_OPCODE
| SCRIPT_ERR_INVALID_STACK_OPERATION
| SCRIPT_ERR_INVALID_ALTSTACK_OPERATION
| SCRIPT_ERR_UNBALANCED_CONDITIONAL
| SCRIPT_ERR_NEGATIVE_LOCKTIME
| SCRIPT_ERR_UNSATISFIED_LOCKTIME
| SCRIPT_ERR_SIG_HASHTYPE
| SCRIPT_ERR_SIG_DER
| SCRIPT_ERR_MINIMALDATA
| SCRIPT_ERR_SIG_PUSHONLY
| SCRIPT_ERR_SIG_HIGH_S
| SCRIPT_ERR_SIG_NULLDUMMY
| SCRIPT_ERR_PUBKEYTYPE
| SCRIPT_ERR_CLEANSTACK
| SCRIPT_ERR_SIG_NULLFAIL
| SCRIPT_ERR_DISCOURAGE_UPGRADABLE_NOPS.

(** [set_success] and [set_error]. *)
Inductive outcome (A : Type) :=
| Success (a : A)
| Failure (e : ScriptError).
Arguments Success {A} a.
Arguments Failure {A} e.

#[global] Instance outcome_ret : MRet outcome := fun A a => Success a.
#[global] Instance outcome_bind : MBind outcome := fun A B f r =>
  match r with Success a => f a | Failure e => Failure e end.

Lemma outcome_bind_inv {A B} (f : A -> outcome B) r b : r ≫= f = Success b ->
  exists a, r = Success a /\ f a = Success b.
Proof. destruct r; [by eexists|done]. Qed.

(** ** Flags *)

Abbreviation SIGHASH_ALL := 1.
Abbreviation SIGHASH_NONE := 2.
Abbreviation SIGHASH_SINGLE := 3.
Abbreviation SIGHASH_ANYONECANPAY := 0x80.

Abbreviation SCRIPT_VERIFY_P2SH := (Z.shiftl 1 0).
Abbreviation SCRIPT_VERIFY_STRICTENC := (Z.shiftl 1 1).
Abbreviation SCRIPT_VERIFY_DERSIG := (Z.shiftl 1 2).
Abbreviation SCRIPT_VERIFY_LOW_S := (Z.shiftl 1 3).
Abbreviation SCRIPT_VERIFY_NULLDUMMY := (Z.shiftl 1 4).
Abbreviation SCRIPT_VERIFY_SIGPUSHONLY := (Z.shiftl 1 5).
Abbreviation SCRIPT_VERIFY_MINIMALDATA := (Z.shiftl 1 6).
Abbreviation SCRIPT_VERIFY_DISCOURAGE_UPGRADABLE_NOPS := (Z.shiftl 1 7).
Abbreviation SCRIPT_VERIFY_CLEANSTACK := (Z.shiftl 1 8).
Abbreviation SCRIPT_VERIFY_CHECKLOCKTIMEVERIFY := (Z.shiftl 1 9).
Abbreviation SCRIPT_VERIFY_CHECKSEQUENCEVERIFY := (Z.shiftl 1 10).
Abbreviation SCRIPT_VERIFY_NULLFAIL := (Z.shiftl 1 14).

(** [flags & f] as a condition. *)
Definition has (flags f : Z) : bool := negb (Z.land flags f =? 0).

(** ** What the interpreter calls *)

Record ScriptCrypto := mkCrypto {
  RIPEMD160 : valtype -> valtype;
  SHA1 : valtype -> valtype;
  SHA256 : valtype -> valtype;
  HASH160 : valtype -> valtype;
  HASH256 : valtype -> valtype;
  CheckLowS : valtype -> bool               (* CPubKey::CheckLowS *)
}.

Record BaseSignatureChecker := mkChecker {
  CheckSig : valtype -> valtype -> CScript -> bool;
  CheckLockTime : Z -> bool;
  CheckSequence : Z -> bool
}.

(** ** Values, keys and signatures *)

Fixpoint CastToBool (vch : valtype) : bool :=
  match vch with
  | [] => false
  | [c] => if c =? 0 then false else negb (c =? 0x80)
  | c :: vch => if c =? 0 then CastToBool vch else true
  end.

Definition IsCompressedOrUncompressedPubKey (vchPubKey : valtype) : bool :=
  let size := Z.of_nat (length vchPubKey) in
  if size <? 33 then false
  else if vchPubKey !!! 0%nat =? 0x04 then size =? 65
  else if (vchPubKey !!! 0%nat =? 0x02) || (vchPubKey !!! 0%nat =? 0x03) then size =? 33
  else false.

Definition IsValidSignatureEncoding (sig : valtype) : bool :=
  let size := Z.of_nat (length sig) in
  let at_ (i : Z) := sig !!! Z.to_nat i in
  if size <? 9 then false
  else if 73 <? size then false
  else if negb (at_ 0 =? 0x30) then false
  else if negb (at_ 1 =? size - 3) then false
  else
    let lenR := at_ 3 in
    if size <=? 5 + lenR then false
    else
      let lenS := at_ (5 + lenR) in
      if negb (lenR + lenS + 7 =? size) then false
      else if negb (at_ 2 =? 0x02) then false
      else if lenR =? 0 then false
      else if negb (Z.land (at_ 4) 0x80 =? 0) then false
      else if (1 <? lenR) && (at_ 4 =? 0x00) && (Z.land (at_ 5) 0x80 =? 0) then false
      else if negb (at_ (lenR + 4) =? 0x02) then false
      else if lenS =? 0 then false
      else if negb (Z.land (at_ (lenR + 6)) 0x80 =? 0) then false
      else if (1 <? lenS) && (at_ (lenR + 6) =? 0x00) && (Z.land (at_ (lenR + 7)) 0x80 =? 0) then false
      else true.

Definition IsLowDERSignature (C : ScriptCrypto) (vchSig : valtype) : outcome unit :=
  if negb (IsValidSignatureEncoding vchSig) then Failure SCRIPT_ERR_SIG_DER
  else if negb (CheckLowS C (take (length vchSig - 1) vchSig)) then Failure SCRIPT_ERR_SIG_HIGH_S
  else Success tt.

Definition IsDefinedHashtypeSignature (vchSig : valtype) : bool :=
  match last vchSig with
  | None => false
  | Some back =>
      let nHashType := u8 (Z.land back (Z.lnot SIGHASH_ANYONECANPAY)) in
      negb ((nHashType <? SIGHASH_ALL) || (SIGHASH_SINGLE <? nHashType))
  end.

Definition CheckSignatureEncoding (C : ScriptCrypto) (vchSig : valtype) (flags : Z) : outcome unit :=
  match vchSig with
  | [] => Success tt
  | _ =>
      if has flags (Z.lor (Z.lor SCRIPT_VERIFY_DERSIG SCRIPT_VERIFY_LOW_S) SCRIPT_VERIFY_STRICTENC) &&
         negb (IsValidSignatureEncoding vchSig)
      then Failure SCRIPT_ERR_SIG_DER
      else
        (if has flags SCRIPT_VERIFY_LOW_S then IsLowDERSignature C vchSig else Success tt) ;;
        if has flags SCRIPT_VERIFY_STRICTENC && negb (IsDefinedHashtypeSignature vchSig)
        then Failure SCRIPT_ERR_SIG_HASHTYPE else Success tt
  end.

Definition CheckPubKeyEncoding (vchPubKey : valtype) (flags : Z) : outcome unit :=
  if has flags SCRIPT_VERIFY_STRICTENC && negb (IsCompressedOrUncompressedPubKey vchPubKey)
  then Failure SCRIPT_ERR_PUBKEYTYPE else Success tt.

Definition CheckMinimalPush (data : valtype) (opcode : Z) : bool :=
  let size := Z.of_nat (length data) in
  let d0 := data !!! 0%nat in
  if size =? 0 then opcode =? OP_0
  else if (size =? 1) && (1 <=? d0) && (d0 <=? 16) then opcode =? OP_1 + (d0 - 1)
  else if (size =? 1) && (d0 =? 0x81) then opcode =? OP_1NEGATE
  else if size <=? 75 then opcode =? size
  else if size <=? 255 then opcode =? OP_PUSHDATA1
  else if size <=? 65535 then opcode =? OP_PUSHDATA2
  else true.

(** ** The machine *)

Record EvalState := mkEval {
  stack : list valtype;
  altstack : list valtype;
  vfExec : list bool;                       (* innermost conditional first *)
  nOpCount : Z;
  pbegincodehash : list Z                   (* the script from the last OP_CODESEPARATOR on *)
}.

Definition set_stack (s : list valtype) (st : EvalState) : EvalState :=
  mkEval s (altstack st) (vfExec st) (nOpCount st) (pbegincodehash st).
Definition set_stacks (s a : list valtype) (st : EvalState) : EvalState :=
  mkEval s a (vfExec st) (nOpCount st) (pbegincodehash st).
Definition set_vfExec (v : list bool) (st : EvalState) : EvalState :=
  mkEval (stack st) (altstack st) v (nOpCount st) (pbegincodehash st).
Definition set_nOpCount (n : Z) (st : EvalState) : EvalState :=
  mkEval (stack st) (altstack st) (vfExec st) n (pbegincodehash st).
Definition set_codehash (pc : list Z) (st : EvalState) : EvalState :=
  mkEval (stack st) (altstack st) (vfExec st) (nOpCount st) pc.

Definition vchFalse : valtype := [].
Definition vchTrue : valtype := [1].
Definition vch_of_bool (b : bool) : valtype := if b then vchTrue else vchFalse.

(** [CScriptNum(stacktop(-i), fRequireMinimal, max)]; the exception is caught. *)
Definition num (fRequireMinimal : bool) (max : Z) (vch : valtype) : outcome Z :=
  match CScriptNum.of_vch vch fRequireMinimal max with
  | Some n => Success n
  | None => Failure SCRIPT_ERR_UNKNOWN_ERROR
  end.

Definition invalid_stack {A} : outcome A := Failure SCRIPT_ERR_INVALID_STACK_OPERATION.

(** The [..VERIFY] forms: pop the result when it is true, fail otherwise. *)
Definition verify_form (verify fSuccess : bool) (e : ScriptError) (s : list valtype) :
    outcome (list valtype) :=
  if verify then if fSuccess then Success s else Failure e
  else Success (vch_of_bool fSuccess :: s).

(** OP_CHECKLOCKTIMEVERIFY *)
Definition op_checklocktime (chk : BaseSignatureChecker) (flags : Z) (fRequireMinimal : bool)
    (s : list valtype) : outcome unit :=
  if negb (has flags SCRIPT_VERIFY_CHECKLOCKTIMEVERIFY)
  then if has flags SCRIPT_VERIFY_DISCOURAGE_UPGRADABLE_NOPS
       then Failure SCRIPT_ERR_DISCOURAGE_UPGRADABLE_NOPS else Success tt
  else match s with
       | [] => invalid_stack
       | top :: _ =>
           nLockTime ← num fRequireMinimal 5 top;
           if nLockTime <? 0 then Failure SCRIPT_ERR_NEGATIVE_LOCKTIME
           else if negb (CheckLockTime chk nLockTime) then Failure SCRIPT_ERR_UNSATISFIED_LOCKTIME
           else Success tt
       end.

(** OP_CHECKSEQUENCEVERIFY *)
Definition op_checksequence (chk : BaseSignatureChecker) (flags : Z) (fRequireMinimal : bool)
    (s : list valtype) : outcome unit :=
  if negb (has flags SCRIPT_VERIFY_CHECKSEQUENCEVERIFY)
  then if has flags SCRIPT_VERIFY_DISCOURAGE_UPGRADABLE_NOPS
       then Failure SCRIPT_ERR_DISCOURAGE_UPGRADABLE_NOPS else Success tt
  else match s with
       | [] => invalid_stack
       | top :: _ =>
           nSequence ← num fRequireMinimal 5 top;
           if nSequence <? 0 then Failure SCRIPT_ERR_NEGATIVE_LOCKTIME
           else if negb (Z.land nSequence SEQUENCE_LOCKTIME_DISABLE_FLAG =? 0) then Success tt
           else if negb (CheckSequence chk nSequence) then Failure SCRIPT_ERR_UNSATISFIED_LOCKTIME
           else Success tt
       end.

(** OP_IF, OP_NOTIF, OP_ELSE, OP_ENDIF, OP_VERIFY, OP_RETURN *)
Definition op_control (opcode : Z) (fExec : bool) (st : EvalState) : outcome EvalState :=
  if (opcode =? OP_IF) || (opcode =? OP_NOTIF) then
    if fExec then
      match stack st with
      | [] => Failure SCRIPT_ERR_UNBALANCED_CONDITIONAL
      | vch :: s =>
          let fValue := CastToBool vch in
          let fValue := if opcode =? OP_NOTIF then negb fValue else fValue in
          Success (set_vfExec (fValue :: vfExec st) (set_stack s st))
      end
    else Success (set_vfExec (false :: vfExec st) st)
  else if opcode =? OP_ELSE then
    match vfExec st with
    | [] => Failure SCRIPT_ERR_UNBALANCED_CONDITIONAL
    | b :: v => Success (set_vfExec (negb b :: v) st)
    end
  else if opcode =? OP_ENDIF then
    match vfExec st with
    | [] => Failure SCRIPT_ERR_UNBALANCED_CONDITIONAL
    | _ :: v => Success (set_vfExec v st)
    end
  else if opcode =? OP_VERIFY then
    match stack st with
    | [] => invalid_stack
    | vch :: s => if CastToBool vch then Success (set_stack s st) else Failure SCRIPT_ERR_VERIFY
    end
  else if opcode =? OP_RETURN then Failure SCRIPT_ERR_OP_RETURN
  else Failure SCRIPT_ERR_BAD_OPCODE.

(** OP_TOALTSTACK .. OP_2SWAP *)
Definition op_stack1 (opcode : Z) (st : EvalState) : outcome EvalState :=
  if opcode =? OP_TOALTSTACK then
    match stack st with x :: s => Success (set_stacks s (x :: altstack st) st) | _ => invalid_stack end
  else if opcode =? OP_FROMALTSTACK then
    match altstack st with
    | x :: a => Success (set_stacks (x :: stack st) a st)
    | _ => Failure SCRIPT_ERR_INVALID_ALTSTACK_OPERATION
    end
  else
    s ← (if opcode =? OP_2DROP then
           match stack st with _ :: _ :: s => Success s | _ => invalid_stack end
         else if opcode =? OP_2DUP then
           match stack st with x2 :: x1 :: s => Success (x2 :: x1 :: x2 :: x1 :: s) | _ => invalid_stack end
         else if opcode =? OP_3DUP then
           match stack st with
           | x3 :: x2 :: x1 :: s => Success (x3 :: x2 :: x1 :: x3 :: x2 :: x1 :: s)
           | _ => invalid_stack
           end
         else if opcode =? OP_2OVER then
           match stack st with
           | x4 :: x3 :: x2 :: x1 :: s => Success (x2 :: x1 :: x4 :: x3 :: x2 :: x1 :: s)
           | _ => invalid_stack
           end
         else if opcode =? OP_2ROT then
           match stack st with
           | x6 :: x5 :: x4 :: x3 :: x2 :: x1 :: s => Success (x2 :: x1 :: x6 :: x5 :: x4 :: x3 :: s)
           | _ => invalid_stack
           end
         else if opcode =? OP_2SWAP then
           match stack st with
           | x4 :: x3 :: x2 :: x1 :: s => Success (x2 :: x1 :: x4 :: x3 :: s)
           | _ => invalid_stack
           end
         else Failure SCRIPT_ERR_BAD_OPCODE);
    Success (set_stack s st).

(** OP_PICK and OP_ROLL *)
Definition op_pick (opcode : Z) (fRequireMinimal : bool) (s : list valtype) : outcome (list valtype) :=
  match s with
  | top :: (_ :: _) as s =>
      n ← num fRequireMinimal CScriptNum.nDefaultMaxNumSize top;
      let n := CScriptNum.getint n in
      if (n <? 0) || (Z.of_nat (length s) <=? n) then invalid_stack
      else match s !! Z.to_nat n with
           | Some vch => Success (vch :: (if opcode =? OP_ROLL then delete (Z.to_nat n) s else s))
           | None => Failure SCRIPT_ERR_UNKNOWN_ERROR
           end
  | _ => invalid_stack
  end.

(** OP_IFDUP .. OP_TUCK and OP_SIZE *)
Definition op_stack2 (opcode : Z) (fRequireMinimal : bool) (s : list valtype) : outcome (list valtype) :=
  if opcode =? OP_IFDUP then
    match s with x :: s' => Success (if CastToBool x then x :: s else s) | _ => invalid_stack end
  else if opcode =? OP_DEPTH then Success (CScriptNum.serialize (Z.of_nat (length s)) :: s)
  else if opcode =? OP_DROP then
    match s with _ :: s => Success s | _ => invalid_stack end
  else if opcode =? OP_DUP then
    match s with x :: s => Success (x :: x :: s) | _ => invalid_stack end
  else if opcode =? OP_NIP then
    match s with x2 :: _ :: s => Success (x2 :: s) | _ => invalid_stack end
  else if opcode =? OP_OVER then
    match s with x2 :: x1 :: s => Success (x1 :: x2 :: x1 :: s) | _ => invalid_stack end
  else if (opcode =? OP_PICK) || (opcode =? OP_ROLL) then op_pick opcode fRequireMinimal s
  else if opcode =? OP_ROT then
    match s with x3 :: x2 :: x1 :: s => Success (x1 :: x3 :: x2 :: s) | _ => invalid_stack end
  else if opcode =? OP_SWAP then
    match s with x2 :: x1 :: s => Success (x1 :: x2 :: s) | _ => invalid_stack end
  else if opcode =? OP_TUCK then
    match s with x2 :: x1 :: s => Success (x2 :: x1 :: x2 :: s) | _ => invalid_stack end
  else if opcode =? OP_SIZE then
    match s with
    | x :: _ => Success (CScriptNum.serialize (Z.of_nat (length x)) :: s)
    | _ => invalid_stack
    end
  else Failure SCRIPT_ERR_BAD_OPCODE.

(** OP_EQUAL, OP_EQUALVERIFY *)
Definition op_equal (opcode : Z) (s : list valtype) : outcome (list valtype) :=
  match s with
  | vch2 :: vch1 :: s =>
      verify_form (opcode =? OP_EQUALVERIFY) (bool_decide (vch1 = vch2)) SCRIPT_ERR_EQUALVERIFY s
  | _ => invalid_stack
  end.

Definition num_of_bool (b : bool) : Z := if b then 1 else 0.

(** OP_1ADD .. OP_0NOTEQUAL; four-byte operands cannot overflow an [int64_t]. *)
Definition op_unary (opcode : Z) (fRequireMinimal : bool) (s : list valtype) : outcome (list valtype) :=
  match s with
  | top :: s =>
      bn ← num fRequireMinimal CScriptNum.nDefaultMaxNumSize top;
      let bn :=
        if opcode =? OP_1ADD then bn + 1
        else if opcode =? OP_1SUB then bn - 1
        else if opcode =? OP_NEGATE then - bn
        else if opcode =? OP_ABS then (if bn <? 0 then - bn else bn)
        else if opcode =? OP_NOT then num_of_bool (bn =? 0)
        else num_of_bool (negb (bn =? 0)) in
      Success (CScriptNum.serialize bn :: s)
  | _ => invalid_stack
  end.

(** OP_ADD .. OP_MAX *)
Definition op_binary (opcode : Z) (fRequireMinimal : bool) (s : list valtype) : outcome (list valtype) :=
  match s with
  | top :: second :: s =>
      bn1 ← num fRequireMinimal CScriptNum.nDefaultMaxNumSize second;
      bn2 ← num fRequireMinimal CScriptNum.nDefaultMaxNumSize top;
      let bn :=
        if opcode =? OP_ADD then bn1 + bn2
        else if opcode =? OP_SUB then bn1 - bn2
        else if opcode =? OP_BOOLAND then num_of_bool (negb (bn1 =? 0) && negb (bn2 =? 0))
        else if opcode =? OP_BOOLOR then num_of_bool (negb (bn1 =? 0) || negb (bn2 =? 0))
        else if opcode =? OP_NUMEQUAL then num_of_bool (bn1 =? bn2)
        else if opcode =? OP_NUMEQUALVERIFY then num_of_bool (bn1 =? bn2)
        else if opcode =? OP_NUMNOTEQUAL then num_of_bool (negb (bn1 =? bn2))
        else if opcode =? OP_LESSTHAN then num_of_bool (bn1 <? bn2)
        else if opcode =? OP_GREATERTHAN then num_of_bool (bn2 <? bn1)
        else if opcode =? OP_LESSTHANOREQUAL then num_of_bool (bn1 <=? bn2)
        else if opcode =? OP_GREATERTHANOREQUAL then num_of_bool (bn2 <=? bn1)
        else if opcode =? OP_MIN then (if bn1 <? bn2 then bn1 else bn2)
        else (if bn2 <? bn1 then bn1 else bn2) in
      let vch := CScriptNum.serialize bn in
      if opcode =? OP_NUMEQUALVERIFY
      then if CastToBool vch then Success s else Failure SCRIPT_ERR_NUMEQUALVERIFY
      else Success (vch :: s)
  | _ => invalid_stack
  end.

(** OP_WITHIN *)
Definition op_within (fRequireMinimal : bool) (s : list valtype) : outcome (list valtype) :=
  match s with
  | x3 :: x2 :: x1 :: s =>
      bn1 ← num fRequireMinimal CScriptNum.nDefaultMaxNumSize x1;
      bn2 ← num fRequireMinimal CScriptNum.nDefaultMaxNumSize x2;
      bn3 ← num fRequireMinimal CScriptNum.nDefaultMaxNumSize x3;
      Success (vch_of_bool ((bn2 <=? bn1) && (bn1 <? bn3)) :: s)
  | _ => invalid_stack
  end.

(** OP_RIPEMD160 .. OP_HASH256 *)
Definition op_hash (C : ScriptCrypto) (opcode : Z) (s : list valtype) : outcome (list valtype) :=
  match s with
  | vch :: s =>
      Success ((if opcode =? OP_RIPEMD160 then RIPEMD160 C vch
                else if opcode =? OP_SHA1 then SHA1 C vch
                else if opcode =? OP_SHA256 then SHA256 C vch
                else if opcode =? OP_HASH160 then HASH160 C vch
                else HASH256 C vch) :: s)
  | _ => invalid_stack
  end.

(** OP_CHECKSIG, OP_CHECKSIGVERIFY *)
Definition op_checksig (C : ScriptCrypto) (chk : BaseSignatureChecker) (flags opcode : Z)
    (codehash : list Z) (s : list valtype) : outcome (list valtype) :=
  match s with
  | vchPubKey :: vchSig :: s =>
      let scriptCode := (FindAndDelete codehash (push_data vchSig)).1 in
      CheckSignatureEncoding C vchSig flags ;;
      CheckPubKeyEncoding vchPubKey flags ;;
      let fSuccess := CheckSig chk vchSig vchPubKey scriptCode in
      if negb fSuccess && has flags SCRIPT_VERIFY_NULLFAIL && negb (bool_decide (vchSig = []))
      then Failure SCRIPT_ERR_SIG_NULLFAIL
      else verify_form (opcode =? OP_CHECKSIGVERIFY) fSuccess SCRIPT_ERR_CHECKSIGVERIFY s
  | _ => invalid_stack
  end.

(** The loop of OP_CHECKMULTISIG over the keys and signatures that are left. *)
Fixpoint multisig_loop (C : ScriptCrypto) (chk : BaseSignatureChecker) (flags : Z) (scriptCode : CScript)
    (keys sigs : list valtype) : outcome bool :=
  match sigs, keys with
  | [], _ => Success true
  | _ :: _, [] => Success false
  | vchSig :: sigs', vchPubKey :: keys =>
      CheckSignatureEncoding C vchSig flags ;;
      CheckPubKeyEncoding vchPubKey flags ;;
      let sigs := if CheckSig chk vchSig vchPubKey scriptCode then sigs' else sigs in
      if (length keys <? length sigs)%nat then Success false
      else multisig_loop C chk flags scriptCode keys sigs
  end.

(** The loop that clears the arguments from the stack, [i - 1] times. *)
Fixpoint multisig_cleanup (n : nat) (flags : Z) (fSuccess : bool) (ikey2 : Z) (s : list valtype) :
    outcome (list valtype) :=
  match n with
  | O => Success s
  | S n =>
      match s with
      | [] => Failure SCRIPT_ERR_UNKNOWN_ERROR
      | top :: s =>
          if negb fSuccess && has flags SCRIPT_VERIFY_NULLFAIL && (ikey2 =? 0) && negb (bool_decide (top = []))
          then Failure SCRIPT_ERR_SIG_NULLFAIL
          else multisig_cleanup n flags fSuccess (if 0 <? ikey2 then ikey2 - 1 else ikey2) s
      end
  end.

(** OP_CHECKMULTISIG, OP_CHECKMULTISIGVERIFY *)
Definition op_checkmultisig (C : ScriptCrypto) (chk : BaseSignatureChecker) (flags opcode : Z)
    (fRequireMinimal : bool) (st : EvalState) : outcome EvalState :=
  let s := stack st in
  match s with
  | [] => invalid_stack
  | top :: _ =>
      nKeys ← num fRequireMinimal CScriptNum.nDefaultMaxNumSize top;
      let nKeysCount := CScriptNum.getint nKeys in
      if (nKeysCount <? 0) || (MAX_PUBKEYS_PER_MULTISIG <? nKeysCount) then Failure SCRIPT_ERR_PUBKEY_COUNT
      else
        let nOps := nOpCount st + nKeysCount in
        if MAX_OPS_PER_SCRIPT <? nOps then Failure SCRIPT_ERR_OP_COUNT
        else
          let i := 2 + nKeysCount in
          if Z.of_nat (length s) <? i then invalid_stack
          else
            nSigs ← num fRequireMinimal CScriptNum.nDefaultMaxNumSize (s !!! Z.to_nat (i - 1));
            let nSigsCount := CScriptNum.getint nSigs in
            if (nSigsCount <? 0) || (nKeysCount <? nSigsCount) then Failure SCRIPT_ERR_SIG_COUNT
            else
              let isig := i + 1 in
              let i := i + 1 + nSigsCount in
              if Z.of_nat (length s) <? i then invalid_stack
              else
                let keys := take (Z.to_nat nKeysCount) (drop 1 s) in
                let sigs := take (Z.to_nat nSigsCount) (drop (Z.to_nat (isig - 1)) s) in
                let scriptCode :=
                  foldl (fun code vchSig => (FindAndDelete code (push_data vchSig)).1) (pbegincodehash st) sigs in
                fSuccess ← multisig_loop C chk flags scriptCode keys sigs;
                s ← multisig_cleanup (Z.to_nat (i - 1)) flags fSuccess (nKeysCount + 2) s;
                match s with
                | [] => invalid_stack
                | dummy :: s =>
                    if has flags SCRIPT_VERIFY_NULLDUMMY && negb (bool_decide (dummy = []))
                    then Failure SCRIPT_ERR_SIG_NULLDUMMY
                    else
                      s ← verify_form (opcode =? OP_CHECKMULTISIGVERIFY) fSuccess SCRIPT_ERR_CHECKMULTISIGVERIFY s;
                      Success (set_nOpCount nOps (set_stack s st))
                end
  end.

Definition disabled_opcode (opcode : Z) : bool :=
  bool_decide (opcode ∈ [OP_CAT; OP_SUBSTR; OP_LEFT; OP_RIGHT; OP_INVERT; OP_AND; OP_OR; OP_XOR;
                         OP_2MUL; OP_2DIV; OP_MUL; OP_DIV; OP_MOD; OP_LSHIFT; OP_RSHIFT]).

(** The [switch] of [EvalScript]; [pc] is behind the instruction. *)
Definition exec_op (C : ScriptCrypto) (chk : BaseSignatureChecker) (flags opcode : Z)
    (fRequireMinimal fExec : bool) (pc : list Z) (st : EvalState) : outcome EvalState :=
  let on_stack (f : list valtype -> outcome (list valtype)) :=
    s ← f (stack st); Success (set_stack s st) in
  if (opcode =? OP_1NEGATE) || ((OP_1 <=? opcode) && (opcode <=? OP_16)) then
    Success (set_stack (CScriptNum.serialize (opcode - (OP_1 - 1)) :: stack st) st)
  else if opcode =? OP_NOP then Success st
  else if opcode =? OP_CHECKLOCKTIMEVERIFY then
    op_checklocktime chk flags fRequireMinimal (stack st) ;; Success st
  else if opcode =? OP_CHECKSEQUENCEVERIFY then
    op_checksequence chk flags fRequireMinimal (stack st) ;; Success st
  else if (opcode =? OP_NOP1) || ((OP_NOP4 <=? opcode) && (opcode <=? OP_NOP10)) then
    if has flags SCRIPT_VERIFY_DISCOURAGE_UPGRADABLE_NOPS
    then Failure SCRIPT_ERR_DISCOURAGE_UPGRADABLE_NOPS else Success st
  else if (OP_IF <=? opcode) && (opcode <=? OP_RETURN) then op_control opcode fExec st
  else if (OP_TOALTSTACK <=? opcode) && (opcode <=? OP_2SWAP) then op_stack1 opcode st
  else if ((OP_IFDUP <=? opcode) && (opcode <=? OP_TUCK)) || (opcode =? OP_SIZE) then
    on_stack (op_stack2 opcode fRequireMinimal)
  else if (opcode =? OP_EQUAL) || (opcode =? OP_EQUALVERIFY) then on_stack (op_equal opcode)
  else if bool_decide (opcode ∈ [OP_1ADD; OP_1SUB; OP_NEGATE; OP_ABS; OP_NOT; OP_0NOTEQUAL]) then
    on_stack (op_unary opcode fRequireMinimal)
  else if (opcode =? OP_ADD) || (opcode =? OP_SUB) || ((OP_BOOLAND <=? opcode) && (opcode <=? OP_MAX)) then
    on_stack (op_binary opcode fRequireMinimal)
  else if opcode =? OP_WITHIN then on_stack (op_within fRequireMinimal)
  else if (OP_RIPEMD160 <=? opcode) && (opcode <=? OP_HASH256) then on_stack (op_hash C opcode)
  else if opcode =? OP_CODESEPARATOR then Success (set_codehash pc st)
  else if (opcode =? OP_CHECKSIG) || (opcode =? OP_CHECKSIGVERIFY) then
    on_stack (op_checksig C chk flags opcode (pbegincodehash st))
  else if (opcode =? OP_CHECKMULTISIG) || (opcode =? OP_CHECKMULTISIGVERIFY) then
    op_checkmultisig C chk flags opcode fRequireMinimal st
  else Failure SCRIPT_ERR_BAD_OPCODE.

(** One turn of the loop, after the instruction has been read. *)
Definition eval_step (C : ScriptCrypto) (chk : BaseSignatureChecker) (flags : Z) (opcode : Z)
    (vchPushValue : valtype) (pc : list Z) (st : EvalState) : outcome EvalState :=
  let fRequireMinimal := has flags SCRIPT_VERIFY_MINIMALDATA in
  let fExec := forallb id (vfExec st) in
  if MAX_SCRIPT_ELEMENT_SIZE <? Z.of_nat (length vchPushValue) then Failure SCRIPT_ERR_PUSH_SIZE
  else
    let st := if OP_16 <? opcode then set_nOpCount (nOpCount st + 1) st else st in
    if (OP_16 <? opcode) && (MAX_OPS_PER_SCRIPT <? nOpCount st) then Failure SCRIPT_ERR_OP_COUNT
    else if disabled_opcode opcode then Failure SCRIPT_ERR_DISABLED_OPCODE
    else
      st ← (if fExec && (0 <=? opcode) && (opcode <=? OP_PUSHDATA4) then
              if fRequireMinimal && negb (CheckMinimalPush vchPushValue opcode)
              then Failure SCRIPT_ERR_MINIMALDATA
              else Success (set_stack (vchPushValue :: stack st) st)
            else if fExec || ((OP_IF <=? opcode) && (opcode <=? OP_ENDIF)) then
              exec_op C chk flags opcode fRequireMinimal fExec pc st
            else Success st);
      if MAX_STACK_SIZE <? Z.of_nat (length (stack st)) + Z.of_nat (length (altstack st))
      then Failure SCRIPT_ERR_STACK_SIZE else Success st.

(** The loop; every instruction consumes a byte, so the length of the script is
    enough fuel. *)
Fixpoint eval_loop (fuel : nat) (C : ScriptCrypto) (chk : BaseSignatureChecker) (flags : Z)
    (pc : list Z) (st : EvalState) : outcome EvalState :=
  match pc, fuel with
  | [], _ => Success st
  | _ :: _, O => Failure SCRIPT_ERR_UNKNOWN_ERROR
  | _ :: _, S fuel =>
      match GetOp pc with
      | (_, None) => Failure SCRIPT_ERR_BAD_OPCODE
      | (pc, Some (opcode, vchPushValue)) =>
          st ← eval_step C chk flags opcode vchPushValue pc st;
          eval_loop fuel C chk flags pc st
      end
  end.

Definition EvalScript (C : ScriptCrypto) (stack0 : list valtype) (script : CScript) (flags : Z)
    (chk : BaseSignatureChecker) : outcome (list valtype) :=
  if MAX_SCRIPT_SIZE <? Z.of_nat (length script) then Failure SCRIPT_ERR_SCRIPT_SIZE
  else
    st ← eval_loop (length script) C chk flags script (mkEval stack0 [] [] 0 script);
    match vfExec st with
    | [] => Success (stack st)
    | _ => Failure SCRIPT_ERR_UNBALANCED_CONDITIONAL
    end.

(** The stack must end in a true value. *)
Definition require_true (s : list valtype) : outcome unit :=
  match s with
  | [] => Failure SCRIPT_ERR_EVAL_FALSE
  | top :: _ => if CastToBool top then Success tt else Failure SCRIPT_ERR_EVAL_FALSE
  end.

(** [VerifyScript]; the assertion that CLEANSTACK comes with P2SH and the one
    that the copied stack is not empty end in [SCRIPT_ERR_UNKNOWN_ERROR]. *)
Definition VerifyScript (C : ScriptCrypto) (scriptSig scriptPubKey : CScript) (flags : Z)
    (chk : BaseSignatureChecker) : outcome unit :=
  if has flags SCRIPT_VERIFY_SIGPUSHONLY && negb (IsPushOnly scriptSig) then Failure SCRIPT_ERR_SIG_PUSHONLY
  else
    stackCopy ← EvalScript C [] scriptSig flags chk;
    s ← EvalScript C stackCopy scriptPubKey flags chk;
    require_true s ;;
    s ← (if has flags SCRIPT_VERIFY_P2SH && IsPayToScriptHash scriptPubKey then
           if negb (IsPushOnly scriptSig) then Failure SCRIPT_ERR_SIG_PUSHONLY
           else match stackCopy with
                | [] => Failure SCRIPT_ERR_UNKNOWN_ERROR
                | pubKeySerialized :: s =>
                    s ← EvalScript C s pubKeySerialized flags chk;
                    require_true s ;; Success s
                end
         else Success s);
    if has flags SCRIPT_VERIFY_CLEANSTACK then
      if negb (has flags SCRIPT_VERIFY_P2SH) then Failure SCRIPT_ERR_UNKNOWN_ERROR
      else if negb (Z.of_nat (length s) =? 1) then Failure SCRIPT_ERR_CLEANSTACK
      else Success tt
    else Success tt.

(** ** Lemmas: the loop *)

Section loop.
Context (C : ScriptCrypto) (chk : BaseSignatureChecker) (flags : Z).

(** The result of the loop does not depend on the fuel. *)
Lemma eval_loop_fuel f f' pc st : (length pc <= f)%nat -> (length pc <= f')%nat ->
  eval_loop f C chk flags pc st = eval_loop f' C chk flags pc st.
Proof.
  revert f' pc st. induction f as [|f IH]; intros f' pc st Hf Hf'.
  - by destruct pc; [destruct f'|cbn in Hf; lia].
  - destruct pc as [|c pc]; [by destruct f'|]. destruct f' as [|f']; [cbn in Hf'; lia|].
    cbn [eval_loop]. destruct (GetOp (c :: pc)) as [pc' [[op d]|]] eqn:E; [|done].
    apply GetOp_shorter in E. cbn [length] in *. destruct (eval_step _ _ _ _ _ _ _); [|done]. cbn. apply IH; lia.
Qed.

Definition eval_pc (pc : list Z) (st : EvalState) : outcome EvalState :=
  eval_loop (length pc) C chk flags pc st.

Lemma eval_pc_step pc pc' op d st : GetOp pc = (pc', Some (op, d)) ->
  eval_pc pc st = (st ← eval_step C chk flags op d pc' st; eval_pc pc' st).
Proof.
  intros E. pose proof (GetOp_shorter _ _ _ E) as Hlen. unfold eval_pc.
  destruct pc as [|c pc]; [done|]. cbn [eval_loop length]. rewrite E.
  destruct (eval_step _ _ _ _ _ _ _); [|done]. cbn [length] in Hlen. cbn. apply eval_loop_fuel; lia.
Qed.

(** Rule induction over the states of the loop. *)
Lemma eval_loop_ind (P : EvalState -> Prop) f pc st st' :
  (forall op d pc st st', P st -> eval_step C chk flags op d pc st = Success st' -> P st') ->
  P st -> eval_loop f C chk flags pc st = Success st' -> P st'.
Proof.
  intros Hstep. revert pc st. induction f as [|f IH]; intros pc st HP.
  - destruct pc; cbn; [by intros [= <-]|done].
  - destruct pc as [|c pc]; cbn [eval_loop]; [by intros [= <-]|].
    destruct (GetOp (c :: pc)) as [pc' [[op d]|]]; [|done].
    intros (st1 & H1 & H2)%outcome_bind_inv. eauto.
Qed.

(** A push that is executed. *)
Lemma eval_step_push b pc s a n ch : 2 <= Z.of_nat (length b) <= 75 ->
  Z.of_nat (length s) + Z.of_nat (length a) < 1000 ->
  eval_step C chk flags (push_opcode b) b pc (mkEval s a [] n ch) = Success (mkEval (b :: s) a [] n ch).
Proof.
  intros Hb Hs. set (k := push_opcode b). assert (k = Z.of_nat (length b)) as Ek.
  { unfold k, push_opcode. cbn zeta. rewrite (proj2 (Z.ltb_lt _ _)) by lia. done. }
  unfold eval_step. cbn [vfExec forallb]. unfold MAX_SCRIPT_ELEMENT_SIZE.
  rewrite (proj2 (Z.ltb_ge _ _)) by lia. rewrite (proj2 (Z.ltb_ge OP_16 k)) by lia. cbn [andb].
  assert (disabled_opcode k = false) as ->.
  { apply bool_decide_false. rewrite !elem_of_cons, elem_of_nil. lia. }
  rewrite (proj2 (Z.leb_le 0 k)), (proj2 (Z.leb_le k OP_PUSHDATA4)) by lia. cbn [andb].
  assert (CheckMinimalPush b k = true) as ->.
  { unfold CheckMinimalPush. cbn zeta. rewrite (proj2 (Z.eqb_neq _ 0)), (proj2 (Z.eqb_neq _ 1)) by lia.
    cbn [andb]. rewrite (proj2 (Z.leb_le _ 75)) by lia. apply Z.eqb_eq. done. }
  rewrite andb_false_r. cbn [mbind outcome_bind set_stack stack altstack length].
  unfold MAX_STACK_SIZE. rewrite (proj2 (Z.ltb_ge _ _)) by lia. done.
Qed.

Lemma eval_pc_push b rest s a n ch : 2 <= Z.of_nat (length b) <= 75 ->
  Z.of_nat (length s) + Z.of_nat (length a) < 1000 ->
  eval_pc (push_data b ++ rest) (mkEval s a [] n ch) = eval_pc rest (mkEval (b :: s) a [] n ch).
Proof.
  intros Hb Hs. rewrite (eval_pc_step _ rest (push_opcode b) b) by (apply GetOp_push; lia).
  by rewrite eval_step_push.
Qed.

(** An instruction without data. *)
Lemma eval_pc_op op pc st : OP_PUSHDATA4 < op ->
  eval_pc (op :: pc) st = (st ← eval_step C chk flags op [] pc st; eval_pc pc st).
Proof.
  intros Hop. apply eval_pc_step. cbn [GetOp]. by rewrite (proj2 (Z.leb_gt _ _)).
Qed.

(** An executed instruction that is not a push. *)
Lemma eval_pc_exec op s s' rest n code : OP_16 < op -> n < 200 -> disabled_opcode op = false ->
  Z.of_nat (length s') < 1000 ->
  (forall m, exec_op C chk flags op m true rest (mkEval s [] [] (n + 1) code) = Success (mkEval s' [] [] (n + 1) code)) ->
  eval_pc (op :: rest) (mkEval s [] [] n code) = eval_pc rest (mkEval s' [] [] (n + 1) code).
Proof.
  intros Ho Hn Hd Hs Hx. rewrite eval_pc_op by lia. unfold eval_step. cbv zeta. cbn [length].
  rewrite (proj2 (Z.ltb_ge MAX_SCRIPT_ELEMENT_SIZE _)) by (unfold MAX_SCRIPT_ELEMENT_SIZE; lia).
  rewrite (proj2 (Z.ltb_lt OP_16 op)) by lia.
  cbn [andb nOpCount set_nOpCount stack altstack vfExec pbegincodehash forallb].
  rewrite (proj2 (Z.ltb_ge MAX_OPS_PER_SCRIPT _)) by (unfold MAX_OPS_PER_SCRIPT; lia). rewrite Hd.
  rewrite (proj2 (Z.leb_gt op OP_PUSHDATA4)) by lia. rewrite andb_false_r. cbn [orb]. rewrite Hx.
  cbn [mbind outcome_bind stack altstack length].
  rewrite (proj2 (Z.ltb_ge MAX_STACK_SIZE _)) by (unfold MAX_STACK_SIZE; lia). done.
Qed.

End loop.

(** ** Lemmas: limits *)

Definition small (v : valtype) : Prop := Z.of_nat (length v) <= MAX_SCRIPT_ELEMENT_SIZE.

(** The digests have at most 32 bytes. *)
Definition crypto_ok (C : ScriptCrypto) : Prop := forall v,
  Z.of_nat (length (RIPEMD160 C v)) <= 32 /\ Z.of_nat (length (SHA1 C v)) <= 32 /\
  Z.of_nat (length (SHA256 C v)) <= 32 /\ Z.of_nat (length (HASH160 C v)) <= 32 /\
  Z.of_nat (length (HASH256 C v)) <= 32.

Lemma serialize_small n : small (CScriptNum.serialize n).
Proof.
  assert (forall f a, (length (CScriptNum.abs_bytes f a) <= f)%nat) as Ha.
  { induction f as [|f IH]; intros a; cbn; [lia|]. destruct (a =? 0); cbn; [lia|]. specialize (IH (a ≫ 8)). lia. }
  assert (forall neg r, (length (CScriptNum.set_sign neg r) <= length r + 1)%nat) as Hs.
  { intros neg. induction r as [|b r IH]; cbn; [lia|]. destruct r; [repeat case_match; cbn; lia|].
    cbn [length] in *. lia. }
  unfold small, CScriptNum.serialize, MAX_SCRIPT_ELEMENT_SIZE. destruct (n =? 0); [cbn; lia|]. cbn zeta.
  match goal with |- context [CScriptNum.set_sign ?a ?b] => specialize (Hs a b) end.
  match goal with |- context [CScriptNum.abs_bytes 8 ?b] => specialize (Ha 8%nat b) end. lia.
Qed.

Lemma bool_small b : small (vch_of_bool b).
Proof. by destruct b. Qed.

#[local] Hint Resolve serialize_small bool_small : core.

Definition stacks_small (st : EvalState) : Prop := Forall small (stack st) /\ Forall small (altstack st).

(** Case analysis on the definition of an operation that succeeded, with what is
    known of the elements of the stack it took apart. *)
Ltac op_cases H :=
  repeat match type of H with
  | _ ≫= _ = Success _ => apply outcome_bind_inv in H as (? & ? & H)
  | (if ?b then _ else _) = Success _ => destruct b
  | match ?l with [] => _ | _ :: _ => _ end = Success _ => destruct l eqn:?
  | invalid_stack = Success _ => done
  | Failure _ = Success _ => done
  | Success _ = Success _ => injection H as <-
  end.
Ltac small_stack := repeat match goal with
  | H : Forall small (_ :: _) |- _ => apply Forall_cons in H as [? H]
  | |- Forall small (_ :: _) => apply Forall_cons; split
  | |- Forall small (if ?b then _ else _) => destruct b
  end; auto.

Lemma verify_form_small v b e s s' : Forall small s -> verify_form v b e s = Success s' -> Forall small s'.
Proof. unfold verify_form. intros Hs H. op_cases H; small_stack. Qed.

Lemma op_pick_small op m s s' : Forall small s -> op_pick op m s = Success s' -> Forall small s'.
Proof.
  unfold op_pick. intros Hs H. op_cases H.
  destruct (_ !! _) as [vch|] eqn:E in H; [|done]. injection H as <-. apply Forall_cons in Hs as [_ Hs].
  constructor; [by eapply Forall_lookup_1|]. case_match; [by apply Forall_delete|done].
Qed.

Lemma op_stack2_small op m s s' : Forall small s -> op_stack2 op m s = Success s' -> Forall small s'.
Proof.
  unfold op_stack2. intros Hs H. op_cases H; small_stack; by eapply op_pick_small.
Qed.

Lemma cleanup_small n flags b k s s' : Forall small s -> multisig_cleanup n flags b k s = Success s' -> Forall small s'.
Proof.
  revert k s. induction n as [|n IH]; intros k s Hs H; cbn in H; op_cases H; [done|].
  apply Forall_cons in Hs as [_ Hs]. eauto.
Qed.

Lemma op_binary_small op m s s' : Forall small s -> op_binary op m s = Success s' -> Forall small s'.
Proof.
  unfold op_binary. intros Hs H. destruct s as [|x [|y s]]; [done..|]. small_stack.
  apply outcome_bind_inv in H as (? & _ & H). apply outcome_bind_inv in H as (? & _ & H). cbv zeta in H.
  set (v := CScriptNum.serialize _) in H. assert (small v) by apply serialize_small. clearbody v.
  op_cases H; small_stack.
Qed.

Lemma op_unary_small op m s s' : Forall small s -> op_unary op m s = Success s' -> Forall small s'.
Proof. unfold op_unary. intros Hs H. destruct s; [done|]. apply outcome_bind_inv in H as (? & _ & [= <-]). small_stack. Qed.

Lemma op_hash_small C op s s' : crypto_ok C -> Forall small s -> op_hash C op s = Success s' -> Forall small s'.
Proof.
  unfold op_hash. intros HC Hs H. destruct s as [|v s]; [done|]. injection H as <-. small_stack.
  destruct (HC v) as (? & ? & ? & ? & ?). unfold small, MAX_SCRIPT_ELEMENT_SIZE. repeat case_match; lia.
Qed.

Lemma op_checksig_small C chk flags op ch s s' : Forall small s ->
  op_checksig C chk flags op ch s = Success s' -> Forall small s'.
Proof.
  unfold op_checksig. intros Hs H. destruct s as [|x [|y s]]; [done..|]. small_stack.
  apply outcome_bind_inv in H as (? & _ & H). apply outcome_bind_inv in H as (? & _ & H). cbv zeta in H.
  op_cases H. by eapply verify_form_small.
Qed.

Lemma op_checkmultisig_small C chk flags op m st st' : stacks_small st ->
  op_checkmultisig C chk flags op m st = Success st' -> stacks_small st'.
Proof.
  unfold op_checkmultisig. intros [Hs Ha] H. cbv zeta in H. destruct (stack st) as [|top s] eqn:Es; [done|].
  apply outcome_bind_inv in H as (n & _ & H). repeat (case_match; [done|]).
  apply outcome_bind_inv in H as (k & _ & H). repeat (case_match; [done|]).
  apply outcome_bind_inv in H as (b & _ & H). apply outcome_bind_inv in H as (s1 & Hc & H).
  apply cleanup_small in Hc; [|done]. destruct s1 as [|d s1]; [done|]. apply Forall_cons in Hc as [_ Hc].
  case_match; [done|]. apply outcome_bind_inv in H as (s2 & Hv & [= <-]).
  split; [by eapply verify_form_small|done].
Qed.

Lemma op_control_small op b st st' : stacks_small st -> op_control op b st = Success st' -> stacks_small st'.
Proof.
  unfold op_control, stacks_small. intros [Hs Ha] H. op_cases H; cbn [stack altstack set_vfExec set_stack]; small_stack;
    split; small_stack; by rewrite ?Heql in *; small_stack.
Qed.

Lemma op_stack1_small op st st' : stacks_small st -> op_stack1 op st = Success st' -> stacks_small st'.
Proof.
  unfold op_stack1, stacks_small. intros [Hs Ha] H. destruct (op =? OP_TOALTSTACK).
  { destruct (stack st); [done|]. injection H as <-. small_stack. split; cbn; small_stack. }
  destruct (op =? OP_FROMALTSTACK).
  { destruct (altstack st); [done|]. injection H as <-. small_stack. split; cbn; small_stack. }
  apply outcome_bind_inv in H as (s1 & H & [= <-]). split; [|done]. cbn [stack set_stack].
  op_cases H; small_stack.
Qed.

Lemma exec_op_small C chk flags op m b pc st st' : crypto_ok C -> stacks_small st ->
  exec_op C chk flags op m b pc st = Success st' -> stacks_small st'.
Proof.
  intros HC Hst H. unfold exec_op in H. cbv zeta in H.
  assert (forall s, Forall small s -> stacks_small (set_stack s st)) as Hset by (intros s Hs; split; [done|apply Hst]).
  repeat match type of H with (if ?b then _ else _) = _ => destruct b end;
    try discriminate; try (injection H as <-; done);
    try (apply outcome_bind_inv in H as (s1 & H1 & [= <-]); try done; apply Hset; destruct Hst as [Hst _]).
  - injection H as <-. apply Hset. constructor; [apply serialize_small|apply Hst].
  - by eapply op_control_small.
  - by eapply op_stack1_small.
  - by eapply op_stack2_small.
  - unfold op_equal in H1. destruct (stack st) as [|x [|y s]]; [done..|]. small_stack. by eapply verify_form_small.
  - by eapply op_unary_small.
  - by eapply op_binary_small.
  - unfold op_within in H1. op_cases H1; small_stack.
  - by eapply op_hash_small.
  - by eapply op_checksig_small.
  - by eapply op_checkmultisig_small.
Qed.

Lemma eval_step_small C chk flags op d pc st st' : crypto_ok C -> stacks_small st ->
  eval_step C chk flags op d pc st = Success st' ->
  stacks_small st' /\ Z.of_nat (length (stack st')) + Z.of_nat (length (altstack st')) <= MAX_STACK_SIZE.
Proof.
  intros HC Hst H. unfold eval_step in H. cbv zeta in H.
  destruct (Z.ltb_spec MAX_SCRIPT_ELEMENT_SIZE (Z.of_nat (length d))) as [|Hd]; [done|].
  set (st0 := if OP_16 <? op then _ else _) in H. assert (stacks_small st0) as Hst0 by (unfold st0; destruct (OP_16 <? op); exact Hst).
  clearbody st0. destruct (_ && _); [done|]. destruct (disabled_opcode op); [done|].
  apply outcome_bind_inv in H as (st1 & H1 & H).
  destruct (Z.ltb_spec MAX_STACK_SIZE (Z.of_nat (length (stack st1)) + Z.of_nat (length (altstack st1)))); [done|].
  injection H as <-. split; [|done]. destruct (_ && _); [destruct (_ && _); [done|]|destruct (_ || _)].
  - injection H1 as <-. split; [|apply Hst0]. constructor; [done|apply Hst0].
  - by eapply exec_op_small.
  - by injection H1 as <-.
Qed.

(** ** Lemmas: pay to public key hash *)

Lemma unspendable_fails C s0 script flags chk : IsUnspendable script = true ->
  exists e, EvalScript C s0 script flags chk = Failure e.
Proof.
  intros H. unfold EvalScript. destruct (MAX_SCRIPT_SIZE <? Z.of_nat (length script)) eqn:Hsize; [by eexists|].
  destruct script as [|c script]; [done|]. unfold IsUnspendable in H. rewrite Hsize, orb_false_r in H.
  apply Z.eqb_eq in H as ->. eexists. change (eval_loop (length (OP_RETURN :: script)) C chk flags (OP_RETURN :: script))
    with (eval_pc C chk flags (OP_RETURN :: script)). rewrite eval_pc_op by lia. reflexivity.
Qed.

Lemma push_short b : Z.of_nat (length b) < OP_PUSHDATA1 -> push_data b = Z.of_nat (length b) :: b.
Proof. intros Hb. unfold push_data. cbn zeta. by rewrite (proj2 (Z.ltb_lt _ _) Hb). Qed.

Lemma skip_copies_head fuel b bs c pc n : b <> c -> skip_copies fuel (b :: bs) (c :: pc) n = (c :: pc, n).
Proof.
  intros Hne. destruct fuel; [done|]. cbn [skip_copies]. rewrite (bool_decide_false (take _ _ = _)); [by rewrite andb_false_r|].
  cbn. intros [= E _]. congruence.
Qed.

Section p2pkh.
Context (C : ScriptCrypto) (chk : BaseSignatureChecker) (flags : Z) (sig pubkey : valtype).
Context (Hsig : 2 <= Z.of_nat (length sig) <= 75) (Hkey : 2 <= Z.of_nat (length pubkey) <= 75).

Lemma eval_scriptSig : EvalScript C [] (push_data sig ++ push_data pubkey) flags chk = Success [pubkey; sig].
Proof.
  unfold EvalScript. rewrite (proj2 (Z.ltb_ge _ _)).
  2: { rewrite !push_short by lia. cbn [app length]. rewrite length_app. cbn [length]. unfold MAX_SCRIPT_SIZE. lia. }
  match goal with |- context [eval_loop _ _ _ _ ?pc ?st] =>
    change (eval_loop (length pc) C chk flags pc st) with (eval_pc C chk flags pc st) end.
  rewrite eval_pc_push by (cbn; lia). rewrite <- (app_nil_r (push_data pubkey)).
  rewrite eval_pc_push by (cbn; lia). reflexivity.
Qed.

Lemma scriptSig_push_only : IsPushOnly (push_data sig ++ push_data pubkey) = true.
Proof.
  unfold IsPushOnly. rewrite !push_short by lia. cbn [app length]. rewrite length_app. cbn [length].
  rewrite Nat.add_succ_r.
  pose proof (GetOp_push sig (push_data pubkey)) as E1. pose proof (GetOp_push pubkey []) as E2.
  unfold push_opcode in E1, E2. cbn zeta in E1, E2.
  rewrite !push_short in E1 by lia. rewrite app_nil_r, push_short in E2 by lia.
  rewrite (proj2 (Z.ltb_lt _ _)) in E1 by lia. rewrite (proj2 (Z.ltb_lt _ _)) in E2 by lia. cbn [app] in E1.
  cbn [push_only_loop]. rewrite E1 by lia. rewrite (proj2 (Z.ltb_ge OP_16 _)) by lia.
  cbn [push_only_loop]. rewrite E2 by lia. rewrite (proj2 (Z.ltb_ge OP_16 _)) by lia. by destruct (_ + _)%nat.
Qed.

Context (h : valtype) (Hh : length h = 20%nat) (Hsig20 : length sig <> 20%nat).

Definition p2pkh : CScript := [OP_DUP; OP_HASH160] ++ push_data h ++ [OP_EQUALVERIFY; OP_CHECKSIG].

(** The signature is not found in the script. *)
Lemma p2pkh_no_delete : FindAndDelete p2pkh (push_data sig) = (p2pkh, 0).
Proof.
  rewrite push_short by lia. unfold FindAndDelete. set (k := Z.of_nat (length sig)). assert (k <> 20) by lia.
  assert (length p2pkh = 25%nat) as ->.
  { unfold p2pkh. rewrite push_short by lia. cbn [app length]. rewrite length_app, Hh. done. }
  assert (GetOp (20 :: h ++ [OP_EQUALVERIFY; OP_CHECKSIG]) = ([OP_EQUALVERIFY; OP_CHECKSIG], Some (20, h))) as Eh.
  { pose proof (GetOp_push h [OP_EQUALVERIFY; OP_CHECKSIG]) as E. rewrite push_short in E by lia.
    unfold push_opcode in E. cbn zeta in E. rewrite Hh in E. apply E. done. }
  assert (forall op x, OP_PUSHDATA4 < op -> GetOp (op :: x) = (x, Some (op, []))) as Eop.
  { intros op x Hop. cbn [GetOp]. by rewrite (proj2 (Z.leb_gt _ _)). }
  assert (p2pkh = OP_DUP :: OP_HASH160 :: 20 :: h ++ [OP_EQUALVERIFY; OP_CHECKSIG]) as Ep.
  { unfold p2pkh. rewrite push_short by lia. rewrite Hh. done. }
  rewrite Ep at 1 2.
  do 2 (cbn [find_loop]; rewrite skip_copies_head, Eop by lia; cbn iota beta).
  cbn [find_loop]. rewrite skip_copies_head, Eh by lia. cbn iota beta.
  do 2 (cbn [find_loop]; rewrite skip_copies_head, Eop by lia; cbn iota beta).
  reflexivity.
Qed.

Lemma eval_p2pkh : CheckSignatureEncoding C sig flags = Success tt -> CheckPubKeyEncoding pubkey flags = Success tt ->
  EvalScript C [pubkey; sig] p2pkh flags chk =
  if negb (bool_decide (HASH160 C pubkey = h)) then Failure SCRIPT_ERR_EQUALVERIFY
  else if negb (CheckSig chk sig pubkey p2pkh) && has flags SCRIPT_VERIFY_NULLFAIL && negb (bool_decide (sig = []))
  then Failure SCRIPT_ERR_SIG_NULLFAIL
  else Success [vch_of_bool (CheckSig chk sig pubkey p2pkh)].
Proof.
  intros He Hk. unfold EvalScript. rewrite (proj2 (Z.ltb_ge _ _)).
  2: { unfold p2pkh. rewrite push_short by lia. cbn [app length]. rewrite length_app, Hh. done. }
  match goal with |- context [eval_loop _ _ _ _ ?pc ?st] =>
    change (eval_loop (length pc) C chk flags pc st) with (eval_pc C chk flags pc st) end.
  pose proof p2pkh_no_delete as Hdel. set (code := p2pkh) in *. unfold code at 1, p2pkh. cbn [app].
  rewrite (eval_pc_exec C chk flags OP_DUP _ [pubkey; pubkey; sig]); [|lia|lia|done|cbn; lia|done].
  rewrite (eval_pc_exec C chk flags OP_HASH160 _ [HASH160 C pubkey; pubkey; sig]); [|lia|lia|done|cbn; lia|done].
  rewrite eval_pc_push by (rewrite ?Hh; cbn; lia).
  destruct (bool_decide (HASH160 C pubkey = h)) eqn:Eq; cbn [negb].
  - rewrite (eval_pc_exec C chk flags OP_EQUALVERIFY _ [pubkey; sig]);
      [|lia|lia|done|cbn; lia|intros m; cbn -[bool_decide]; rewrite Eq; done].
    destruct (negb (CheckSig chk sig pubkey code) && _ && _) eqn:En.
    + rewrite eval_pc_op by lia. unfold eval_step. cbn -[FindAndDelete code]. rewrite Hdel, He, Hk. cbn -[code]. rewrite En. done.
    + rewrite (eval_pc_exec C chk flags OP_CHECKSIG _ [vch_of_bool (CheckSig chk sig pubkey code)]); [done|lia|lia|done|cbn; lia|].
      intros m. cbn -[FindAndDelete code]. rewrite Hdel, He, Hk. cbn -[code]. rewrite En. done.
  - rewrite eval_pc_op by lia. unfold eval_step. cbn -[bool_decide]. rewrite Eq. done.
Qed.

End p2pkh.

(** ** Properties *)

(** Whatever script is evaluated, with whatever flags and signature checker,
    the interpreter returns (its loop never runs out of fuel: more fuel changes
    nothing), and a successful evaluation leaves a stack whose elements respect the
    520-byte limit and, unless the script was empty, the limit of 1000 elements. *)
Theorem eval_limits C chk flags s0 script s more : crypto_ok C -> Forall small s0 ->
  EvalScript C s0 script flags chk = Success s ->
  Forall small s /\ (script = [] \/ Z.of_nat (length s) <= MAX_STACK_SIZE) /\
  eval_loop (length script + more) C chk flags script (mkEval s0 [] [] 0 script) =
  eval_loop (length script) C chk flags script (mkEval s0 [] [] 0 script).
Proof.
  intros HC Hs0 H. unfold EvalScript in H. destruct (_ <? _); [done|].
  apply outcome_bind_inv in H as (st & Hl & H). destruct (vfExec st); [|done]. injection H as <-.
  assert (stacks_small (mkEval s0 [] [] 0 script)) as Hinit by (split; [done|constructor]).
  split; [|split; [|apply eval_loop_fuel; lia]].
  - apply (eval_loop_ind C chk flags stacks_small) in Hl; [apply Hl| |done].
    intros op d pc st1 st2 H1 H2. by eapply eval_step_small in H2 as [? _].
  - destruct script as [|c script]; [by left|right]. cbn [eval_loop length] in Hl.
    destruct (GetOp (c :: script)) as [pc' [[op d]|]]; [|done]. apply outcome_bind_inv in Hl as (st1 & H1 & Hl).
    apply (eval_loop_ind C chk flags (fun st => stacks_small st /\
      Z.of_nat (length (stack st)) + Z.of_nat (length (altstack st)) <= MAX_STACK_SIZE)) in Hl; [lia| |].
    + intros op' d' pc st2 st3 [H2 _] H3. by eapply eval_step_small.
    + by eapply eval_step_small.
Qed.

Definition toy_crypto : ScriptCrypto :=
  mkCrypto (fun v => take 20 v) (fun v => take 20 v) (fun v => take 32 v)
           (fun v => take 20 (rev v ++ repeat 7 20)) (fun v => take 32 v) (fun _ => true).
Definition toy_checker : BaseSignatureChecker :=
  mkChecker (fun sig key _ => bool_decide (head sig = head key)) (fun _ => true) (fun _ => true).

Lemma toy_crypto_ok : crypto_ok toy_crypto.
Proof. intros v. cbn [toy_crypto RIPEMD160 SHA1 SHA256 HASH160 HASH256]. rewrite !length_take. lia. Qed.

Lemma eval_limits_witness :
  EvalScript toy_crypto [[3]] [OP_DUP; OP_ADD; OP_DEPTH] 0 toy_checker = Success [[1]; [6]] /\
  Forall small [[1]; [6]] /\ ([OP_DUP; OP_ADD; OP_DEPTH] = [] \/ Z.of_nat (length [[1]; [6]]) <= MAX_STACK_SIZE) /\
  eval_loop (3 + 4) toy_crypto toy_checker 0 [OP_DUP; OP_ADD; OP_DEPTH] (mkEval [[3]] [] [] 0 [OP_DUP; OP_ADD; OP_DEPTH]) =
  eval_loop 3 toy_crypto toy_checker 0 [OP_DUP; OP_ADD; OP_DEPTH] (mkEval [[3]] [] [] 0 [OP_DUP; OP_ADD; OP_DEPTH]).
Proof.
  split; [vm_compute; reflexivity|].
  apply (eval_limits toy_crypto toy_checker 0 [[3]] [OP_DUP; OP_ADD; OP_DEPTH] [[1]; [6]] 4).
  - exact toy_crypto_ok.
  - repeat constructor; discriminate.
  - vm_compute; reflexivity.
Defined.

(** An output whose script [IsUnspendable] accepts can be dropped from the
    coin database: no input script, flags or signature make [VerifyScript]
    succeed on it. *)
Theorem unspendable_never_verifies C scriptSig scriptPubKey flags chk : IsUnspendable scriptPubKey = true ->
  exists e, VerifyScript C scriptSig scriptPubKey flags chk = Failure e.
Proof.
  intros H. unfold VerifyScript. case_match; [by eexists|].
  destruct (EvalScript C [] scriptSig flags chk) as [s|e]; [|by exists e]. cbn [mbind outcome_bind].
  destruct (unspendable_fails C s scriptPubKey flags chk H) as [e ->]. by exists e.
Qed.

Lemma unspendable_never_verifies_witness :
  exists e, VerifyScript toy_crypto (push_data [1; 2]) (OP_RETURN :: push_data [9; 9; 9]) 0 toy_checker = Failure e.
Proof. apply (unspendable_never_verifies toy_crypto (push_data [1; 2]) (OP_RETURN :: push_data [9; 9; 9]) 0 toy_checker). reflexivity. Defined.

(** C30: Who can spend a pay-to-public-key-hash output: with a signature and a key
    of plausible length whose encodings pass the flags' checks, the input script
    "signature, key" verifies exactly when the key hashes to the script's hash and
    the signature checks for the key over the unmodified output script. *)
Theorem p2pkh_spend C chk flags sig pubkey h :
  2 <= Z.of_nat (length sig) <= 75 -> length sig <> 20%nat -> 2 <= Z.of_nat (length pubkey) <= 75 ->
  length h = 20%nat ->
  CheckSignatureEncoding C sig flags = Success tt -> CheckPubKeyEncoding pubkey flags = Success tt ->
  (has flags SCRIPT_VERIFY_CLEANSTACK = true -> has flags SCRIPT_VERIFY_P2SH = true) ->
  VerifyScript C (push_data sig ++ push_data pubkey) (p2pkh h) flags chk = Success tt <->
  HASH160 C pubkey = h /\ CheckSig chk sig pubkey (p2pkh h) = true.
Proof.
  intros Hsig H20 Hkey Hh He Hk Hclean. unfold VerifyScript.
  rewrite scriptSig_push_only, andb_false_r, eval_scriptSig by done. cbn [mbind outcome_bind].
  rewrite eval_p2pkh by done.
  assert (IsPayToScriptHash (p2pkh h) = false) as ->.
  { unfold IsPayToScriptHash, p2pkh. rewrite push_short by lia. cbn [app length]. by rewrite length_app, Hh. }
  rewrite andb_false_r. destruct (bool_decide (HASH160 C pubkey = h)) eqn:Eq; cbn [negb].
  2: { apply bool_decide_eq_false in Eq. cbn. split; [done|by intros [? _]]. }
  apply bool_decide_eq_true in Eq. destruct (CheckSig chk sig pubkey (p2pkh h)); cbn [negb andb].
  - cbn [mbind outcome_bind vch_of_bool require_true CastToBool vchTrue length].
    destruct (has flags SCRIPT_VERIFY_CLEANSTACK); [rewrite Hclean by done|]; cbn; done.
  - destruct (_ && _); cbn; by split; [|intros [_ ?]].
Qed.

Definition toy_key : valtype := [5; 6; 7].
Lemma p2pkh_spend_witness :
  VerifyScript toy_crypto (push_data [5; 9] ++ push_data toy_key) (p2pkh (HASH160 toy_crypto toy_key)) 0 toy_checker = Success tt <->
  HASH160 toy_crypto toy_key = HASH160 toy_crypto toy_key /\
  CheckSig toy_checker [5; 9] toy_key (p2pkh (HASH160 toy_crypto toy_key)) = true.
Proof.
  apply (p2pkh_spend toy_crypto toy_checker 0 [5; 9] toy_key (HASH160 toy_crypto toy_key)).
  - cbn. lia.
  - discriminate.
  - cbn. lia.
  - reflexivity.
  - reflexivity.
  - reflexivity.
  - discriminate.
Defined.
