(* ===== verification/SigHash.v ===== *)
(** * Signature hashes and transaction checks of the interpreter
    (CTransactionSignatureSerializer, SignatureHash and
    TransactionSignatureChecker of src/src/script/interpreter.cpp)

    The double-SHA256 of [CHashWriter] and the operations of [CPubKey] are
    parameters. *)

From Stdlib Require Import ZArith Lia.
From stdpp Require Import base tactics numbers option list.
From S2P Require Import Prelude ArithUint256 Compact Block Serialize Transaction Script Interpreter.

#[global] Instance CTxIn_inhabited : Inhabited CTxIn := populate (mkTxIn (mkOutPoint uint256_null 0) [] 0).
#[global] Instance CTxOut_inhabited : Inhabited CTxOut := populate (txout (-1) []).

(** ** The serializer *)

(** The first loop of [SerializeScriptCode]: the number of code separators. *)
Fixpoint count_separators (fuel : nat) (it : list Z) (n : Z) : Z :=
  match fuel with
  | O => n
  | S fuel =>
      match GetOp it with
      | (it, Some (opcode, _)) => count_separators fuel it (if opcode =? OP_CODESEPARATOR then n + 1 else n)
      | (_, None) => n
      end
  end.

(** The second loop writes the parts between separators; it ends with the
    iterators [itBegin] and [it], the latter as the failed [GetOp] left it. *)
Fixpoint write_parts (fuel : nat) (itBegin it out : list Z) : list Z * list Z * list Z :=
  match fuel with
  | O => (itBegin, it, out)
  | S fuel =>
      match GetOp it with
      | (it, Some (opcode, _)) =>
          if opcode =? OP_CODESEPARATOR
          then write_parts fuel it it (out ++ take (length itBegin - length it - 1) itBegin)
          else write_parts fuel itBegin it out
      | (it, None) => (itBegin, it, out)
      end
  end.

Definition SerializeScriptCode (scriptCode : CScript) : list Z :=
  let nCodeSeparators := count_separators (S (length scriptCode)) scriptCode 0 in
  let '(itBegin, it, out) := write_parts (S (length scriptCode)) scriptCode scriptCode [] in
  WriteCompactSize (Z.of_nat (length scriptCode) - nCodeSeparators) ++ out ++
  (match itBegin with [] => [] | _ => take (length itBegin - length it) itBegin end).

Section serializer.
Context (txTo : CTransaction) (scriptCode : CScript) (nIn : nat) (nHashType : Z).

Definition fAnyoneCanPay : bool := negb (Z.land nHashType SIGHASH_ANYONECANPAY =? 0).
Definition fHashSingle : bool := Z.land nHashType 0x1f =? SIGHASH_SINGLE.
Definition fHashNone : bool := Z.land nHashType 0x1f =? SIGHASH_NONE.

Definition SerializeInput (nInput : nat) : list Z :=
  let nInput := if fAnyoneCanPay then nIn else nInput in
  let txin := vin txTo !!! nInput in
  ser (prevout txin) ++
  (if negb (nInput =? nIn)%nat then ser_byte_vector [] else SerializeScriptCode scriptCode) ++
  (if negb (nInput =? nIn)%nat && (fHashSingle || fHashNone)
   then ser_writedata32 0 else ser_writedata32 (nSequence txin)).

Definition SerializeOutput (nOutput : nat) : list Z :=
  if fHashSingle && negb (nOutput =? nIn)%nat then ser (txout (-1) [])
  else ser (vout txTo !!! nOutput).

(** [CTransactionSignatureSerializer::Serialize] *)
Definition SerializeTx : list Z :=
  let nInputs := if fAnyoneCanPay then 1%nat else length (vin txTo) in
  let nOutputs := if fHashNone then 0%nat else if fHashSingle then S nIn else length (vout txTo) in
  ser_writedata32 (u32 (n32bitVersion (tx_nVersion txTo) (tx_nType txTo))) ++
  WriteCompactSize (Z.of_nat nInputs) ++ mjoin (SerializeInput <$> seq 0 nInputs) ++
  WriteCompactSize (Z.of_nat nOutputs) ++ mjoin (SerializeOutput <$> seq 0 nOutputs) ++
  ser_writedata32 (nLockTime txTo) ++
  (if (tx_nVersion txTo =? 3) && negb (tx_nType txTo =? TRANSACTION_NORMAL)
   then ser_byte_vector (vExtraPayload txTo) else []).

(** The message whose hash is signed. *)
Definition sighash_message : list Z := SerializeTx ++ ser_writedata32 (u32 nHashType).

Definition SignatureHash (Hash : list Z -> uint256) : uint256 :=
  let one := 1 :: repeat 0 31 in
  if (length (vin txTo) <=? nIn)%nat then one
  else if (Z.land nHashType 0x1f =? SIGHASH_SINGLE) && (length (vout txTo) <=? nIn)%nat then one
  else Hash sighash_message.

End serializer.

(** ** The checker of a transaction input *)

Record PubKeyCrypto := mkPubKeys {
  pk_IsValid : valtype -> bool;
  pk_Verify : valtype -> uint256 -> valtype -> bool
}.

(** [TransactionSignatureChecker::CheckSig] *)
Definition tx_CheckSig (Hash : list Z -> uint256) (K : PubKeyCrypto) (txTo : CTransaction) (nIn : nat)
    (vchSigIn vchPubKey : valtype) (scriptCode : CScript) : bool :=
  if negb (pk_IsValid K vchPubKey) then false
  else match last vchSigIn with
       | None => false
       | Some nHashType =>
           let vchSig := take (length vchSigIn - 1) vchSigIn in
           pk_Verify K vchPubKey (SignatureHash txTo scriptCode nIn nHashType Hash) vchSig
       end.

(** [TransactionSignatureChecker::CheckLockTime] *)
Definition tx_CheckLockTime (txTo : CTransaction) (nIn : nat) (n : Z) : bool :=
  if negb (((nLockTime txTo <? LOCKTIME_THRESHOLD) && (n <? LOCKTIME_THRESHOLD)) ||
           ((LOCKTIME_THRESHOLD <=? nLockTime txTo) && (LOCKTIME_THRESHOLD <=? n))) then false
  else if nLockTime txTo <? n then false
  else if SEQUENCE_FINAL =? nSequence (vin txTo !!! nIn) then false
  else true.

(** [TransactionSignatureChecker::CheckSequence] *)
Definition tx_CheckSequence (txTo : CTransaction) (nIn : nat) (n : Z) : bool :=
  let txToSequence := nSequence (vin txTo !!! nIn) in
  if u32 (tx_nVersion txTo) <? 2 then false
  else if negb (Z.land txToSequence SEQUENCE_LOCKTIME_DISABLE_FLAG =? 0) then false
  else
    let nLockTimeMask := Z.lor SEQUENCE_LOCKTIME_TYPE_FLAG SEQUENCE_LOCKTIME_MASK in
    let txToSequenceMasked := Z.land txToSequence nLockTimeMask in
    let nSequenceMasked := Z.land n nLockTimeMask in
    if negb (((txToSequenceMasked <? SEQUENCE_LOCKTIME_TYPE_FLAG) && (nSequenceMasked <? SEQUENCE_LOCKTIME_TYPE_FLAG)) ||
             ((SEQUENCE_LOCKTIME_TYPE_FLAG <=? txToSequenceMasked) && (SEQUENCE_LOCKTIME_TYPE_FLAG <=? nSequenceMasked)))
    then false
    else if txToSequenceMasked <? nSequenceMasked then false
    else true.

Definition TransactionSignatureChecker (Hash : list Z -> uint256) (K : PubKeyCrypto) (txTo : CTransaction)
    (nIn : nat) : BaseSignatureChecker :=
  mkChecker (tx_CheckSig Hash K txTo nIn) (tx_CheckLockTime txTo nIn) (tx_CheckSequence txTo nIn).

(** ** Reference: the transaction that is signed *)

(** The instructions of a script, each with its bytes, when it can be read to its end. *)
Fixpoint read_script (fuel : nat) (it : list Z) : option (list (Z * list Z)) :=
  match it, fuel with
  | [], _ => Some []
  | _, O => None
  | _, S fuel =>
      match GetOp it with
      | (it', Some (opcode, _)) => l ← read_script fuel it'; Some ((opcode, take (length it - length it') it) :: l)
      | (_, None) => None
      end
  end.
Definition instructions (s : CScript) : option (list (Z * list Z)) := read_script (length s) s.
Definition readable (s : CScript) : Prop := is_Some (instructions s).

(** A script without its code separators. *)
Definition without_separators (l : list (Z * list Z)) : list Z := mjoin (snd <$> filter (fun x => x.1 <> OP_CODESEPARATOR) l).
Definition strip (s : CScript) : CScript := from_option without_separators [] (instructions s).

Lemma without_separators_cons op bs l : without_separators ((op, bs) :: l) = (if op =? OP_CODESEPARATOR then [] else bs) ++ without_separators l.
Proof. unfold without_separators. rewrite filter_cons. cbn [fst]. destruct (Z.eqb_spec op OP_CODESEPARATOR); [by rewrite decide_False by auto|by rewrite decide_True]. Qed.

Lemma GetOp_bytes pc pc' op d : GetOp pc = (pc', Some (op, d)) ->
  pc = take (length pc - length pc') pc ++ pc' /\ (op = OP_CODESEPARATOR -> (length pc = S (length pc'))%nat).
Proof.
  intros E. assert (exists bs, pc = bs ++ pc' /\ (op = OP_CODESEPARATOR -> bs = [op])) as (bs & -> & Hbs).
  { destruct pc as [|o pc]; cbn [GetOp] in E; [done|]. destruct (Z.leb_spec o OP_PUSHDATA4) as [Ho|Ho]; [|injection E as <- <- <-; by exists [o]].
    destruct (push_size o pc) as [pc1 [n|]] eqn:Ep; [|done]. destruct (Z.of_nat (length pc1) <? n); [done|]. injection E as <- <- <-.
    assert (exists l, pc = l ++ pc1) as [l ->].
    { unfold push_size in Ep. destruct (o <? OP_PUSHDATA1); [injection Ep as <- _; by exists []|]. cbv zeta in Ep.
      set (k := if o =? OP_PUSHDATA1 then _ else _) in Ep. destruct (_ <? k)%nat; [done|]. injection Ep as <- _. exists (take k pc). by rewrite take_drop. }
    exists (o :: l ++ take (Z.to_nat n) pc1). split; [by rewrite <- app_comm_cons, <- app_assoc, take_drop|]. intros ->. by vm_compute in Ho. }
  rewrite length_app. replace (length bs + length pc' - length pc')%nat with (length bs) by lia. rewrite take_app_length. split; [done|]. intros Ho. by rewrite (Hbs Ho).
Qed.

(** The two loops: the number of separators, and the bytes between them with what is left
    to be written. *)
Lemma separator_loops fuel f it l pre out n : (length it <= fuel)%nat -> read_script f it = Some l ->
  exists b out', write_parts (S fuel) (pre ++ it) it out = (b, [], out') /\ out' ++ b = out ++ pre ++ without_separators l /\
    Z.of_nat (length it) - (count_separators (S fuel) it n - n) = Z.of_nat (length (without_separators l)).
Proof.
  revert fuel it l pre out n. induction f as [|f IH]; intros fuel it l pre out n Hf Hl; destruct it as [|c it]; cbn [read_script] in Hl; try done;
    try (injection Hl as <-; exists pre, out; cbn; rewrite !app_nil_r; split; [done|]; split; [done|]; lia).
  destruct (GetOp (c :: it)) as [it' [[op d]|]] eqn:E; [|done]. apply bind_Some in Hl as (l' & Hl' & [= <-]).
  destruct (GetOp_bytes _ _ _ _ E) as [Eb Hsep]. pose proof (GetOp_shorter _ _ _ E) as Hs. set (bs := take (length (c :: it) - length it') (c :: it)) in *.
  destruct fuel as [|fuel]; [cbn in Hf; lia|]. assert (length it' <= fuel)%nat as Hf' by (cbn [length] in *; lia).
  assert (length (c :: it) = (length bs + length it')%nat) as Elen by (rewrite Eb at 1; apply length_app).
  remember (S fuel) as fu. cbn [count_separators write_parts]. rewrite E, without_separators_cons.
  destruct (Z.eqb_spec op OP_CODESEPARATOR) as [Ho|Ho]; subst fu.
  - specialize (Hsep Ho). rewrite (app_nil_l (without_separators l')).
    destruct (IH fuel it' l' [] (out ++ pre) (n + 1) Hf' Hl') as (b & out' & E1 & E2 & E3). exists b, out'. cbn [app] in E1, E2.
    replace (take (length (pre ++ c :: it) - length it' - 1) (pre ++ c :: it)) with pre; [|rewrite length_app, Hsep; replace (length pre + S (length it') - length it' - 1)%nat with (length pre) by lia; by rewrite take_app_length].
    split; [exact E1|]. split; [by rewrite E2, <- app_assoc|]. lia.
  - destruct (IH fuel it' l' (pre ++ bs) out n Hf' Hl') as (b & out' & E1 & E2 & E3). rewrite <- app_assoc in E1, E2. rewrite <- Eb in E1.
    exists b, out'. split; [exact E1|]. split; [exact E2|]. rewrite (length_app bs). lia.
Qed.

Lemma SerializeScriptCode_strip code : readable code -> SerializeScriptCode code = ser_byte_vector (strip code).
Proof.
  intros [l Hl]. unfold SerializeScriptCode, strip. rewrite Hl. cbn [from_option].
  destruct (separator_loops (length code) (length code) code l [] [] 0) as (b & out & E1 & E2 & E3); [done|done|]. cbn [app] in *.
  rewrite E1, Z.sub_0_r in *. rewrite E3. unfold ser_byte_vector. rewrite <- E2. do 2 f_equal. destruct b; [done|]. rewrite firstn_all2 by (cbn; lia). done.
Qed.

Lemma strip_ok code : byte_vector_ok code -> byte_vector_ok (strip code).
Proof.
  intros [Hb Hlen]. unfold strip. destruct (instructions code) as [l|] eqn:El; cbn [from_option]; [|by split; [constructor|]].
  assert (forall f it l, read_script f it = Some l -> Forall is_byte it -> Forall is_byte (without_separators l)) as Hbytes.
  { clear. induction f as [|f IH]; intros it l Hl Hb; destruct it as [|c it]; cbn [read_script] in Hl; try done; try (injection Hl as <-; constructor).
    destruct (GetOp (c :: it)) as [it' [[op d]|]] eqn:E; [|done]. apply bind_Some in Hl as (l' & Hl' & [= <-]).
    destruct (GetOp_bytes _ _ _ _ E) as [Eb _]. assert (Forall is_byte it') as Hb' by (rewrite Eb in Hb; by apply Forall_app in Hb as [_ ?]).
    rewrite without_separators_cons. apply Forall_app. split; [destruct (_ =? _); [constructor|by apply Forall_take]|by apply (IH it')]. }
  split; [by apply (Hbytes (length code) code)|].
  destruct (separator_loops (length code) (length code) code l [] [] 0) as (_ & _ & _ & _ & E3); [done|done|].
  assert (forall fuel it n, n <= count_separators fuel it n) as Hc by (clear; induction fuel as [|fuel IH]; intros it n; cbn [count_separators]; [lia|]; destruct (GetOp it) as [it' [[op d]|]]; [|lia]; pose proof (IH it' n); pose proof (IH it' (n + 1)); destruct (_ =? _); lia).
  specialize (Hc (S (length code)) code 0). lia.
Qed.

(** The copy of the transaction in which what is not signed is blanked out. *)
Definition signed_tx (tx : CTransaction) (code : CScript) (nIn : nat) (ht : Z) : CTransaction :=
  let keep (txin : CTxIn) := mkTxIn (prevout txin) code (nSequence txin) in
  let blank (txin : CTxIn) :=
    mkTxIn (prevout txin) [] (if fHashSingle ht || fHashNone ht then 0 else nSequence txin) in
  mkTx (tx_nVersion tx) (tx_nType tx)
    (if fAnyoneCanPay ht then [keep (vin tx !!! nIn)]
     else imap (fun i txin => if (i =? nIn)%nat then keep txin else blank txin) (vin tx))
    (if fHashNone ht then []
     else if fHashSingle ht
     then imap (fun i o => if (i =? nIn)%nat then o else txout (-1) []) (take (S nIn) (vout tx))
     else vout tx)
    (nLockTime tx) (vExtraPayload tx).

Lemma fmap_seq_imap {A B} `{Inhabited A} (f : nat -> B) (g : nat -> A -> B) (l : list A) :
  (forall i x, l !! i = Some x -> f i = g i x) -> f <$> seq 0 (length l) = imap g l.
Proof.
  intros Hfg. apply list_eq. intros i. rewrite list_lookup_fmap, list_lookup_imap.
  destruct (l !! i) as [x|] eqn:E; cbn.
  - rewrite lookup_seq_lt by by eapply lookup_lt_Some. cbn. f_equal. by apply Hfg.
  - rewrite lookup_seq_ge; [done|]. by apply lookup_ge_None_1.
Qed.

Lemma lookup_total_of {A} `{Inhabited A} (l : list A) i x : l !! i = Some x -> l !!! i = x.
Proof. intros E. by rewrite list_lookup_total_alt, E. Qed.

Section signed.
Context (tx : CTransaction) (code : CScript) (nIn : nat) (ht : Z).
Context (Hcode : readable code) (Hin : (nIn < length (vin tx))%nat).

Lemma signed_inputs :
  (if fAnyoneCanPay ht then 1%nat else length (vin tx)) = length (vin (signed_tx tx (strip code) nIn ht)) /\
  SerializeInput tx code nIn ht <$> seq 0 (if fAnyoneCanPay ht then 1%nat else length (vin tx)) =
  ser <$> vin (signed_tx tx (strip code) nIn ht).
Proof.
  unfold signed_tx. cbn [vin]. unfold SerializeInput. rewrite SerializeScriptCode_strip by done.
  destruct (fAnyoneCanPay ht).
  - split; [done|]. cbn [seq fmap list_fmap]. rewrite Nat.eqb_refl. done.
  - rewrite length_imap. split; [done|]. rewrite fmap_imap. apply fmap_seq_imap. intros i x Hx. cbn.
    rewrite (lookup_total_of _ _ _ Hx). destruct (Nat.eqb_spec i nIn); cbn [negb andb]; [done|].
    destruct (_ || _); done.
Qed.

Lemma signed_outputs : (fHashSingle ht = true -> (nIn < length (vout tx))%nat) ->
  (if fHashNone ht then 0%nat else if fHashSingle ht then S nIn else length (vout tx)) =
    length (vout (signed_tx tx (strip code) nIn ht)) /\
  SerializeOutput tx nIn ht <$>
    seq 0 (if fHashNone ht then 0%nat else if fHashSingle ht then S nIn else length (vout tx)) =
  ser <$> vout (signed_tx tx (strip code) nIn ht).
Proof.
  intros Hout. unfold signed_tx. cbn [vout]. unfold SerializeOutput. destruct (fHashNone ht); [done|].
  destruct (fHashSingle ht); cbn [andb].
  - assert (S nIn = length (take (S nIn) (vout tx))) as E by (rewrite length_take; specialize (Hout eq_refl); lia).
    rewrite length_imap. split; [done|]. rewrite fmap_imap, E at 1. apply fmap_seq_imap. intros i x Hx. cbn.
    apply lookup_take_Some in Hx as [Hx _]. rewrite (lookup_total_of _ _ _ Hx). by destruct (i =? nIn)%nat.
  - split; [done|]. rewrite <- (imap_const ser (vout tx)). apply fmap_seq_imap. intros i x Hx.
    by rewrite (lookup_total_of _ _ _ Hx).
Qed.

Lemma serialize_signed : (fHashSingle ht = true -> (nIn < length (vout tx))%nat) ->
  SerializeTx tx code nIn ht = ser (signed_tx tx (strip code) nIn ht).
Proof.
  intros Hout. destruct signed_inputs as [Ei1 Ei2], (signed_outputs Hout) as [Eo1 Eo2].
  unfold SerializeTx. cbn zeta. rewrite Ei2, Ei1, Eo2, Eo1.
  change (ser (signed_tx tx (strip code) nIn ht)) with (CTransaction_serial.(ser) (signed_tx tx (strip code) nIn ht)).
  cbn [ser CTransaction_serial]. unfold ser_vector. by rewrite <- !app_assoc.
Qed.

End signed.

(** ** What a signature commits to *)

Lemma signed_tx_ok tx code nIn ht : tx_ok tx -> byte_vector_ok code -> (nIn < length (vin tx))%nat ->
  tx_ok (signed_tx tx code nIn ht).
Proof.
  intros [Hv Ht [Hi Hil] [Ho Hol] Hl Hp Hplain] Hc Hn. unfold signed_tx.
  split; cbn [tx_nVersion tx_nType vin vout nLockTime vExtraPayload]; try done.
  - assert (forall x y z, txin_ok x -> byte_vector_ok y -> is_u32 z -> txin_ok (mkTxIn (prevout x) y z)) as Hmk
      by (intros x y z (? & _ & _) ? ?; done).
    assert (byte_vector_ok []) as Hnil by (split; [constructor|done]).
    rewrite Forall_lookup in Hi. destruct (fAnyoneCanPay ht); (split; [|by rewrite ?length_imap]).
    + constructor; [|constructor]. destruct (lookup_lt_is_Some_2 _ _ Hn) as [x Hx].
      rewrite (lookup_total_of _ _ _ Hx). specialize (Hi _ _ Hx). apply Hmk; [done..|apply Hi].
    + apply Forall_lookup. intros i x. rewrite list_lookup_imap. intros (y & Hy & ->)%fmap_Some. specialize (Hi _ _ Hy).
      destruct (_ =? _)%nat; apply Hmk; try done; [apply Hi|]. destruct (_ || _); [unfold is_u32; lia|apply Hi].
  - destruct (fHashNone ht); [by split; [constructor|]|]. destruct (fHashSingle ht); [|done]. split.
    + apply Forall_lookup. intros i x. rewrite list_lookup_imap. intros (y & Hy & ->)%fmap_Some.
      apply lookup_take_Some in Hy as [Hy _]. rewrite Forall_lookup in Ho.
      destruct (_ =? _)%nat; [by eapply Ho|]. split_and!; [cbn; lia..|split; [constructor|done]|done].
    + rewrite length_imap, length_take. lia.
Qed.

Lemma message_injective a b x y : tx_ok a -> tx_ok b -> 0 <= x < 2 ^ 32 -> 0 <= y < 2 ^ 32 ->
  ser a ++ ser_writedata32 x = ser b ++ ser_writedata32 y -> a = b /\ x = y.
Proof.
  intros Ha Hb Hx Hy E. pose proof (tx_unser_ser a (ser_writedata32 x) Ha) as E1.
  rewrite E, tx_unser_ser in E1 by done. assert (forall (t t' : CTransaction) (r r' : list Z), @Ok (CTransaction * list Z) (t, r) = Ok (t', r') -> t = t' /\ r = r')
    as Hinj by (intros ? ? ? ? [= -> ->]; done).
  destruct (Hinj _ _ _ _ E1) as [-> Er]. split; [done|].
  rewrite <- (le_value_bytes 4 x), <- (le_value_bytes 4 y) by done. unfold ser_writedata32 in Er. by rewrite Er.
Qed.

(** A transaction without its input scripts. *)
Definition erase_scripts (tx : CTransaction) : CTransaction :=
  mkTx (tx_nVersion tx) (tx_nType tx) ((fun i => mkTxIn (prevout i) [] (nSequence i)) <$> vin tx) (vout tx)
    (nLockTime tx) (vExtraPayload tx).

Lemma signed_all tx code nIn ht : fAnyoneCanPay ht = false -> fHashNone ht = false -> fHashSingle ht = false ->
  erase_scripts (signed_tx tx code nIn ht) = erase_scripts tx /\ vout (signed_tx tx code nIn ht) = vout tx /\
  forall i, scriptSig <$> vin (signed_tx tx code nIn ht) !! i =
    (fun _ => if (i =? nIn)%nat then code else []) <$> vin tx !! i.
Proof.
  intros Ha Hn Hs. unfold signed_tx, erase_scripts. rewrite Ha, Hn, Hs. cbn [vin vout orb tx_nVersion tx_nType nLockTime vExtraPayload].
  split_and!; [|done|].
  - f_equal. rewrite fmap_imap, <- (imap_const (fun i => mkTxIn (prevout i) [] (nSequence i))). apply imap_ext.
    intros i x _. cbn. by destruct (_ =? _)%nat.
  - intros i. rewrite list_lookup_imap. destruct (vin tx !! i); cbn; [|done]. by destruct (_ =? _)%nat.
Qed.

(** The script of one input, read off the signed copies of two transactions. *)
Lemma signed_index (ins ins' sin : list CTxIn) (c c' : CScript) n n' : (n < length ins)%nat ->
  (forall i, scriptSig <$> sin !! i = (fun _ => if (i =? n)%nat then c else []) <$> ins !! i) ->
  (forall i, scriptSig <$> sin !! i = (fun _ => if (i =? n')%nat then c' else []) <$> ins' !! i) ->
  c = if (n =? n')%nat then c' else [].
Proof.
  intros Hn F1 F2. specialize (F1 n). specialize (F2 n). rewrite F1, Nat.eqb_refl in F2. destruct (lookup_lt_is_Some_2 _ _ Hn) as [x Hx]. rewrite Hx in F2.
  destruct (ins' !! n); [|done]. by injection F2.
Qed.

(** ** Properties *)

(** C31: The signature-hash serializer writes, for every hash type, exactly the
    serialization of the copy of the transaction with the unsigned parts blanked out
    and the script code without its code separators in the signed input, followed by
    the hash type.  With SIGHASH_ALL two inputs have the same message only if the
    hash types are the same, the transactions agree on everything but the input
    scripts, and the script codes are the same up to code separators; and unless no
    other instruction is in them the inputs have the same index.  This is for script
    codes that can be read to their end, for transactions within the limits of
    serialization, for an input that exists, and with SIGHASH_SINGLE for an input
    that has an output: for the others nothing is serialized. *)
Theorem sighash_commits tx tx' code code' nIn nIn' ht ht' :
  tx_ok tx -> tx_ok tx' -> byte_vector_ok code -> byte_vector_ok code' -> readable code -> readable code' ->
  (nIn < length (vin tx))%nat -> (nIn' < length (vin tx'))%nat ->
  (fHashSingle ht = true -> (nIn < length (vout tx))%nat) ->
  (fHashSingle ht' = true -> (nIn' < length (vout tx'))%nat) ->
  is_byte ht -> is_byte ht' ->
  sighash_message tx code nIn ht = ser (signed_tx tx (strip code) nIn ht) ++ ser_writedata32 ht /\
  (fAnyoneCanPay ht = false -> fHashNone ht = false -> fHashSingle ht = false ->
   sighash_message tx code nIn ht = sighash_message tx' code' nIn' ht' ->
   ht = ht' /\ erase_scripts tx = erase_scripts tx' /\ strip code = strip code' /\ (strip code <> [] -> nIn = nIn')).
Proof.
  intros Hok Hok' Hc Hc' Hcl Hcl' Hn Hn' Ho Ho' Hb Hb'. unfold is_byte in *. unfold sighash_message.
  rewrite !serialize_signed, !u32_small by (done || lia). split; [done|]. intros Ha Hnone Hsingle E.
  apply message_injective in E as [E <-]; [|by apply signed_tx_ok; [|apply strip_ok|]..|lia|lia].
  destruct (signed_all tx (strip code) nIn ht) as (E1 & _ & F1); [done..|].
  destruct (signed_all tx' (strip code') nIn' ht) as (E2 & _ & F2); [done..|].
  split; [done|]. split; [by rewrite <- E1, <- E2, E|]. rewrite <- E in F2.
  pose proof (signed_index _ _ _ _ _ _ _ Hn F1 F2) as G1. pose proof (signed_index _ _ _ _ _ _ _ Hn' F2 F1) as G2.
  destruct (Nat.eqb_spec nIn nIn') as [->|Hne]; [split; [done|done]|]. rewrite (proj2 (Nat.eqb_neq nIn' nIn)) in G2 by done. split; [congruence|done].
Qed.

(** A script code with a separator, which is not signed. *)
Lemma sighash_commits_witness :
  sighash_message sample_tx [OP_DUP; OP_CODESEPARATOR; OP_CHECKSIG] 0 SIGHASH_ALL =
    ser (signed_tx sample_tx [OP_DUP; OP_CHECKSIG] 0 SIGHASH_ALL) ++ ser_writedata32 SIGHASH_ALL.
Proof.
  assert (byte_vector_ok [OP_DUP; OP_CODESEPARATOR; OP_CHECKSIG]) by (apply byte_vector_ok_list; vm_compute; congruence).
  apply (sighash_commits sample_tx sample_tx [OP_DUP; OP_CODESEPARATOR; OP_CHECKSIG] [OP_DUP; OP_CODESEPARATOR; OP_CHECKSIG] 0 0 SIGHASH_ALL SIGHASH_ALL);
    first [exact sample_tx_ok | assumption | reflexivity | (apply Nat.lt_0_succ) | discriminate | (split; [discriminate|reflexivity]) | (eexists; reflexivity)].
Defined.
