(* ===== verification/Coins.v ===== *)
(** * The coin database and its caches (src/src/coins.h, coins.cpp, txdb.cpp)

    A [CCoinsView] is a type with the operations of the class [CoinsView]; what a
    view promises its users is the class [CoinsViewLaws]: the state it represents
    is a function [utxo] from outpoints to coins, reading does not change it and
    [BatchWrite] applies the dirty entries of a well-formed batch.  The database
    and a cache on top of any view are instances of both classes, so a cache can
    be put on a cache.  The iteration over a hash map is the iteration over
    [map_to_list]; the memory accounting ([cachedCoinsUsage]) is left out. *)

From Stdlib Require Import ZArith Lia.
From stdpp Require Import base tactics numbers option gmap list.
From S2P Require Import Prelude ArithUint256 Compact Block Serialize Transaction Script.

(** ** Coins *)

Record Coin := mkCoin { out : CTxOut; fCoinBase : bool; coin_nHeight : Z }.

Definition txout_IsNull (o : CTxOut) : bool := nValue o =? -1.
Definition IsSpent (c : Coin) : bool := txout_IsNull (out c).

(** [Coin::Clear], also the value of the empty constructor. *)
Definition coinEmpty : Coin := mkCoin (txout (-1) []) false 0.

Record CCoinsCacheEntry := mkEntry { coin : Coin; flags : Z }.
Definition DIRTY : Z := Z.shiftl 1 0.
Definition FRESH : Z := Z.shiftl 1 1.
Definition is_dirty (e : CCoinsCacheEntry) : bool := negb (Z.land (flags e) DIRTY =? 0).
Definition is_fresh (e : CCoinsCacheEntry) : bool := negb (Z.land (flags e) FRESH =? 0).

Abbreviation CCoinsMap := (gmap COutPoint CCoinsCacheEntry).

(** ** Views *)

(** Reading takes the state too: a cache fills itself when it is read. *)
Class CoinsView (B : Type) := {
  view_GetCoin : B -> COutPoint -> option Coin * B;
  view_GetBestBlock : B -> uint256 * B;
  view_BatchWrite : B -> CCoinsMap -> uint256 -> result (bool * B)
}.

(** The coin an entry stands for. *)
Definition live (c : Coin) : option Coin := if IsSpent c then None else Some c.

(** What a batch does to the coins, and when it is well-formed: an entry marked
    FRESH is for a coin the view does not have. *)
Definition batch_apply (m : CCoinsMap) (u : COutPoint -> option Coin) (o : COutPoint) : option Coin :=
  match m !! o with
  | Some e => if is_dirty e then live (coin e) else u o
  | None => u o
  end.
Definition batch_ok (m : CCoinsMap) (u : COutPoint -> option Coin) : Prop :=
  forall o e, m !! o = Some e -> is_dirty e = true -> is_fresh e = true -> u o = None.

Class CoinsViewLaws (B : Type) `{CoinsView B} := {
  view_ok : B -> Prop;
  utxo : B -> COutPoint -> option Coin;
  best_block : B -> uint256;
  utxo_unspent : forall b o c, view_ok b -> utxo b o = Some c -> IsSpent c = false;
  GetCoin_law : forall b o, view_ok b ->
    (view_GetCoin b o).1 = utxo b o /\ view_ok (view_GetCoin b o).2 /\
    (forall o', utxo (view_GetCoin b o).2 o' = utxo b o') /\
    best_block (view_GetCoin b o).2 = best_block b;
  GetBestBlock_law : forall b, view_ok b ->
    (view_GetBestBlock b).1 = best_block b /\ view_ok (view_GetBestBlock b).2 /\
    (forall o, utxo (view_GetBestBlock b).2 o = utxo b o) /\
    best_block (view_GetBestBlock b).2 = best_block b;
  BatchWrite_law : forall b m h, view_ok b -> batch_ok m (utxo b) -> IsNull h = false ->
    exists b', view_BatchWrite b m h = Ok (true, b') /\ view_ok b' /\
      (forall o, utxo b' o = batch_apply m (utxo b) o) /\ best_block b' = h
}.

(** ** The cache *)

Record CCoinsViewCache (B : Type) := mkCache {
  base : B;
  hashBlock : uint256;
  cacheCoins : CCoinsMap
}.
Arguments mkCache {B}.
Arguments base {B}.
Arguments hashBlock {B}.
Arguments cacheCoins {B}.

Section cache.
Context {B : Type} `{CoinsView B}.

Definition set_base (b : B) (c : CCoinsViewCache B) : CCoinsViewCache B := mkCache b (hashBlock c) (cacheCoins c).
Definition set_cacheCoins (m : CCoinsMap) (c : CCoinsViewCache B) : CCoinsViewCache B :=
  mkCache (base c) (hashBlock c) m.

Definition FetchCoin (c : CCoinsViewCache B) (o : COutPoint) : option CCoinsCacheEntry * CCoinsViewCache B :=
  match cacheCoins c !! o with
  | Some e => (Some e, c)
  | None =>
      let '(r, b) := view_GetCoin (base c) o in
      let c := set_base b c in
      match r with
      | None => (None, c)
      | Some tmp =>
          let e := mkEntry tmp (if IsSpent tmp then FRESH else 0) in
          (Some e, set_cacheCoins (<[o := e]> (cacheCoins c)) c)
      end
  end.

(** [GetCoin]: [None] is the result [false]. *)
Definition GetCoin (c : CCoinsViewCache B) (o : COutPoint) : option Coin * CCoinsViewCache B :=
  let '(r, c) := FetchCoin c o in (r ≫= fun e => live (coin e), c).

Definition AccessCoin (c : CCoinsViewCache B) (o : COutPoint) : Coin * CCoinsViewCache B :=
  let '(r, c) := FetchCoin c o in (match r with Some e => coin e | None => coinEmpty end, c).

Definition HaveCoin (c : CCoinsViewCache B) (o : COutPoint) : bool * CCoinsViewCache B :=
  let '(r, c) := FetchCoin c o in (match r with Some e => negb (IsSpent (coin e)) | None => false end, c).

Definition HaveCoinInCache (c : CCoinsViewCache B) (o : COutPoint) : bool :=
  match cacheCoins c !! o with Some e => negb (IsSpent (coin e)) | None => false end.

Definition AddCoin (c : CCoinsViewCache B) (o : COutPoint) (coin0 : Coin) (possible_overwrite : bool) :
    result (CCoinsViewCache B) :=
  _ ← cassert (negb (IsSpent coin0));
  if IsUnspendable (scriptPubKey (out coin0)) then Ok c
  else
    let it := default (mkEntry coinEmpty 0) (cacheCoins c !! o) in
    if negb possible_overwrite && negb (IsSpent (coin it)) then Err LogicError
    else
      let fresh := negb possible_overwrite && negb (is_dirty it) in
      let e := mkEntry coin0 (Z.lor (flags it) (Z.lor DIRTY (if fresh then FRESH else 0))) in
      Ok (set_cacheCoins (<[o := e]> (cacheCoins c)) c).

(** [SpendCoin]: the coin moved out, [None] where the result is [false]. *)
Definition SpendCoin (c : CCoinsViewCache B) (o : COutPoint) : option Coin * CCoinsViewCache B :=
  match FetchCoin c o with
  | (None, c) => (None, c)
  | (Some e, c) =>
      (Some (coin e),
       set_cacheCoins (if is_fresh e then delete o (cacheCoins c)
                       else <[o := mkEntry coinEmpty (Z.lor (flags e) DIRTY)]> (cacheCoins c)) c)
  end.

Definition GetBestBlock (c : CCoinsViewCache B) : uint256 * CCoinsViewCache B :=
  if IsNull (hashBlock c)
  then let '(h, b) := view_GetBestBlock (base c) in (h, mkCache b h (cacheCoins c))
  else (hashBlock c, c).

Definition SetBestBlock (c : CCoinsViewCache B) (h : uint256) : CCoinsViewCache B :=
  mkCache (base c) h (cacheCoins c).

(** One dirty entry of [BatchWrite]. *)
Definition write_entry (cacheCoins : CCoinsMap) (o : COutPoint) (e : CCoinsCacheEntry) : result CCoinsMap :=
  match cacheCoins !! o with
  | None =>
      if is_fresh e && IsSpent (coin e) then Ok cacheCoins
      else Ok (<[o := mkEntry (coin e) (if is_fresh e then Z.lor DIRTY FRESH else DIRTY)]> cacheCoins)
  | Some us =>
      if is_fresh e && negb (IsSpent (coin us)) then Err LogicError
      else if is_fresh us && IsSpent (coin e) then Ok (delete o cacheCoins)
      else Ok (<[o := mkEntry (coin e) (Z.lor (flags us) DIRTY)]> cacheCoins)
  end.

Fixpoint batch_loop (l : list (COutPoint * CCoinsCacheEntry)) (cacheCoins : CCoinsMap) : result CCoinsMap :=
  match l with
  | [] => Ok cacheCoins
  | (o, e) :: l =>
      cacheCoins ← (if is_dirty e then write_entry cacheCoins o e else Ok cacheCoins);
      batch_loop l cacheCoins
  end.

Definition BatchWrite (c : CCoinsViewCache B) (mapCoins : CCoinsMap) (hashBlockIn : uint256) :
    result (bool * CCoinsViewCache B) :=
  m ← batch_loop (map_to_list mapCoins) (cacheCoins c);
  Ok (true, mkCache (base c) hashBlockIn m).

Definition Flush (c : CCoinsViewCache B) : result (bool * CCoinsViewCache B) :=
  '(fOk, b) ← view_BatchWrite (base c) (cacheCoins c) (hashBlock c);
  Ok (fOk, mkCache b (hashBlock c) ∅).

Definition Uncache (c : CCoinsViewCache B) (o : COutPoint) : CCoinsViewCache B :=
  match cacheCoins c !! o with
  | Some e => if flags e =? 0 then set_cacheCoins (delete o (cacheCoins c)) c else c
  | None => c
  end.

(** The loops over the inputs of a transaction. *)
Fixpoint value_in_loop (c : CCoinsViewCache B) (nResult : Z) (ins : list CTxIn) : Z * CCoinsViewCache B :=
  match ins with
  | [] => (nResult, c)
  | i :: ins => let '(a, c) := AccessCoin c (prevout i) in value_in_loop c (nResult + nValue (out a)) ins
  end.
Definition GetValueIn (c : CCoinsViewCache B) (tx : CTransaction) : Z * CCoinsViewCache B :=
  if IsCoinBase tx then (0, c) else value_in_loop c 0 (vin tx).

Fixpoint have_inputs_loop (c : CCoinsViewCache B) (ins : list CTxIn) : bool * CCoinsViewCache B :=
  match ins with
  | [] => (true, c)
  | i :: ins => let '(b, c) := HaveCoin c (prevout i) in if b then have_inputs_loop c ins else (false, c)
  end.
Definition HaveInputs (c : CCoinsViewCache B) (tx : CTransaction) : bool * CCoinsViewCache B :=
  if IsCoinBase tx then (true, c) else have_inputs_loop c (vin tx).

(** [AddCoins]: [txid] is the hash of the transaction. *)
Fixpoint add_coins_loop (c : CCoinsViewCache B) (txid : uint256) (nHeight : Z) (fCoinbase check : bool)
    (i : Z) (outs : list CTxOut) : result (CCoinsViewCache B) :=
  match outs with
  | [] => Ok c
  | o :: outs =>
      let p := mkOutPoint txid i in
      let '(overwrite, c) := if check then HaveCoin c p else (fCoinbase, c) in
      c ← AddCoin c p (mkCoin o fCoinbase nHeight) overwrite;
      add_coins_loop c txid nHeight fCoinbase check (i + 1) outs
  end.
Definition AddCoins (c : CCoinsViewCache B) (txid : uint256) (tx : CTransaction) (nHeight : Z) (check : bool) :
    result (CCoinsViewCache B) :=
  add_coins_loop c txid nHeight (IsCoinBase tx) check 0 (vout tx).

End cache.

#[global] Instance cache_view {B} `{CoinsView B} : CoinsView (CCoinsViewCache B) := {|
  view_GetCoin := GetCoin;
  view_GetBestBlock := GetBestBlock;
  view_BatchWrite := BatchWrite
|}.

(** ** The database *)

(** The records of the chain state database, and the operations of a batch. *)
Record CCoinsViewDB := mkDB {
  db_coins : gmap COutPoint Coin;
  db_best : option uint256;                 (* DB_BEST_BLOCK *)
  db_heads : option (list uint256)          (* DB_HEAD_BLOCKS *)
}.

Inductive DbOp :=
| EraseBest
| WriteBest (h : uint256)
| EraseHeads
| WriteHeads (l : list uint256)
| EraseCoin (o : COutPoint)
| WriteCoin (o : COutPoint) (c : Coin).

Definition db_op (db : CCoinsViewDB) (x : DbOp) : CCoinsViewDB :=
  match x with
  | EraseBest => mkDB (db_coins db) None (db_heads db)
  | WriteBest h => mkDB (db_coins db) (Some h) (db_heads db)
  | EraseHeads => mkDB (db_coins db) (db_best db) None
  | WriteHeads l => mkDB (db_coins db) (db_best db) (Some l)
  | EraseCoin o => mkDB (delete o (db_coins db)) (db_best db) (db_heads db)
  | WriteCoin o c => mkDB (<[o := c]> (db_coins db)) (db_best db) (db_heads db)
  end.

(** [WriteBatch] applies a batch at once. *)
Definition WriteBatch (db : CCoinsViewDB) (batch : list DbOp) : CCoinsViewDB := foldl db_op db batch.

Definition db_GetBestBlock (db : CCoinsViewDB) : uint256 := default uint256_null (db_best db).
Definition db_GetHeadBlocks (db : CCoinsViewDB) : list uint256 := default [] (db_heads db).

(** The tip a transition starts from; in the middle of a replay it is the old
    tip of the interrupted transition. *)
Definition db_old_tip (db : CCoinsViewDB) (h : uint256) : result uint256 :=
  let old_tip := db_GetBestBlock db in
  if IsNull old_tip then
    match db_GetHeadBlocks db with
    | [h0; h1] => _ ← cassert (bool_decide (h0 = h)); Ok h1
    | _ => Ok old_tip
    end
  else Ok old_tip.

(** The loop over the entries: the batches that are written, the last one being
    the one left when the loop ends.  [full] is [SizeEstimate() > batch_size]. *)
Fixpoint db_batches (full : list DbOp -> bool) (l : list (COutPoint * CCoinsCacheEntry)) (batch : list DbOp) :
    list (list DbOp) * list DbOp :=
  match l with
  | [] => ([], batch)
  | (o, e) :: l =>
      let batch :=
        if is_dirty e then batch ++ [if IsSpent (coin e) then EraseCoin o else WriteCoin o (coin e)] else batch in
      if full batch
      then let '(bs, last) := db_batches full l [] in (batch :: bs, last)
      else db_batches full l batch
  end.

(** All batches of [CCoinsViewDB::BatchWrite], in the order they are written. *)
Definition db_transition (full : list DbOp -> bool) (db : CCoinsViewDB) (m : CCoinsMap) (h : uint256) :
    result (list (list DbOp)) :=
  _ ← cassert (negb (IsNull h));
  old_tip ← db_old_tip db h;
  let '(bs, last) := db_batches full (map_to_list m) [EraseBest; WriteHeads [h; old_tip]] in
  Ok (bs ++ [last ++ [EraseHeads; WriteBest h]]).

Definition db_BatchWrite (full : list DbOp -> bool) (db : CCoinsViewDB) (m : CCoinsMap) (h : uint256) :
    result (bool * CCoinsViewDB) :=
  batches ← db_transition full db m h;
  Ok (true, foldl WriteBatch db batches).

(** ** Lemmas: flags *)

Lemma is_dirty_bit e : is_dirty e = Z.testbit (flags e) 0.
Proof. unfold is_dirty, DIRTY. by rewrite land_bit_zero, negb_involutive by lia. Qed.
Lemma is_fresh_bit e : is_fresh e = Z.testbit (flags e) 1.
Proof. unfold is_fresh, FRESH. by rewrite land_bit_zero, negb_involutive by lia. Qed.

(** The flags of an entry that is marked dirty. *)
Lemma mark_dirty c f : is_dirty (mkEntry c (Z.lor f DIRTY)) = true /\
  is_fresh (mkEntry c (Z.lor f DIRTY)) = is_fresh (mkEntry c f).
Proof.
  rewrite !is_dirty_bit, !is_fresh_bit. cbn [flags]. rewrite !Z.lor_spec. unfold DIRTY.
  split; [apply orb_true_r|apply orb_false_r].
Qed.

Lemma mark_added c f (fresh : bool) :
  is_dirty (mkEntry c (Z.lor f (Z.lor DIRTY (if fresh then FRESH else 0)))) = true /\
  is_fresh (mkEntry c (Z.lor f (Z.lor DIRTY (if fresh then FRESH else 0)))) = is_fresh (mkEntry c f) || fresh.
Proof.
  rewrite !is_dirty_bit, !is_fresh_bit. cbn [flags]. rewrite !Z.lor_spec.
  by destruct fresh, (Z.testbit f 0), (Z.testbit f 1).
Qed.

Lemma live_unspent c c' : live c = Some c' -> c' = c /\ IsSpent c = false.
Proof. unfold live. destruct (IsSpent c) eqn:E; [done|by intros [= <-]]. Qed.

(** ** The cache is a view *)

Section cache_laws.
Context {B : Type} `{CoinsViewLaws B}.
Implicit Types c : CCoinsViewCache B.

(** The coins a cache stands for. *)
Definition cache_utxo c (o : COutPoint) : option Coin :=
  match cacheCoins c !! o with Some e => live (coin e) | None => utxo (base c) o end.
Definition cache_best c : uint256 := if IsNull (hashBlock c) then best_block (base c) else hashBlock c.

(** The invariant of an entry: FRESH only where the base has no coin, and an entry
    that is not DIRTY agrees with the base. *)
Definition entry_ok (u : COutPoint -> option Coin) (o : COutPoint) (e : CCoinsCacheEntry) : Prop :=
  (is_fresh e = true -> u o = None) /\ (is_dirty e = false -> live (coin e) = u o).
Record cache_ok c : Prop := {
  cok_base : view_ok (base c);
  cok_entries : forall o e, cacheCoins c !! o = Some e -> entry_ok (utxo (base c)) o e
}.

Lemma entry_ok_ext u u' o e : (forall o, u' o = u o) -> entry_ok u o e -> entry_ok u' o e.
Proof. unfold entry_ok. intros E. by rewrite E. Qed.

Lemma cache_ok_insert c o e : cache_ok c -> entry_ok (utxo (base c)) o e ->
  cache_ok (set_cacheCoins (<[o := e]> (cacheCoins c)) c).
Proof.
  intros [Hb He] Hoe. split; [done|]. intros o' e'. cbn [set_cacheCoins cacheCoins base].
  rewrite lookup_insert. destruct (decide (o = o')) as [<-|]; [by intros [= <-]|apply He].
Qed.

Lemma cache_ok_delete c o : cache_ok c -> cache_ok (set_cacheCoins (delete o (cacheCoins c)) c).
Proof.
  intros [Hb He]. split; [done|]. intros o' e'. cbn [set_cacheCoins cacheCoins base].
  intros [_ Hl]%lookup_delete_Some. by apply He.
Qed.

Lemma cache_utxo_unspent c o x : cache_ok c -> cache_utxo c o = Some x -> IsSpent x = false.
Proof.
  intros [Hb He]. unfold cache_utxo. destruct (_ !! _); [|by apply utxo_unspent].
  intros E. by apply live_unspent in E as [-> ?].
Qed.

Record fetched c (o : COutPoint) (r : option CCoinsCacheEntry) c' : Prop := {
  fetched_ok : cache_ok c';
  fetched_utxo : forall o', cache_utxo c' o' = cache_utxo c o';
  fetched_best : cache_best c' = cache_best c;
  fetched_hash : hashBlock c' = hashBlock c;
  fetched_entry : cacheCoins c' !! o = r;
  fetched_coin : (r ≫= fun e => live (coin e)) = cache_utxo c o
}.

Lemma FetchCoin_spec c o : cache_ok c -> fetched c o (FetchCoin c o).1 (FetchCoin c o).2.
Proof.
  intros Hc. pose proof Hc as [Hb He]. unfold FetchCoin.
  destruct (cacheCoins c !! o) as [e|] eqn:Eo.
  { split; try done. unfold cache_utxo. by rewrite Eo. }
  destruct (GetCoin_law (base c) o Hb) as (Hr & Hb' & Hu & Hbest).
  destruct (view_GetCoin (base c) o) as [r b]. cbn [fst snd] in *. subst r.
  assert (cache_ok (set_base b c)) as Hc'.
  { split; [done|]. intros o' e' Ho'. eapply entry_ok_ext; [done|]. by apply He. }
  assert (cache_utxo c o = utxo (base c) o) as Eu by (unfold cache_utxo; by rewrite Eo).
  destruct (utxo (base c) o) as [tmp|] eqn:Et; cbn [fst snd].
  - assert (IsSpent tmp = false) as Hs by exact (utxo_unspent (base c) o tmp Hb Et). rewrite Hs.
    assert (live tmp = Some tmp) as Hl by (unfold live; by rewrite Hs).
    split; try done.
    + apply cache_ok_insert; [done|]. split; [done|]. intros _. cbn [base set_base coin]. by rewrite Hu, Et.
    + intros o'. unfold cache_utxo. cbn [set_cacheCoins set_base cacheCoins base].
      rewrite lookup_insert. destruct (decide (o = o')) as [<-|]; [by rewrite Eo, Et|].
      destruct (cacheCoins c !! o'); [done|apply Hu].
    + unfold cache_best. cbn. by rewrite Hbest.
    + cbn. by rewrite lookup_insert_eq.
    + cbn. by rewrite Hl, Eu.
  - split; try done.
    + intros o'. unfold cache_utxo. cbn. destruct (cacheCoins c !! o'); [done|apply Hu].
    + unfold cache_best. cbn. by rewrite Hbest.
Qed.

(** Replacing one entry changes the coin of that outpoint only. *)
Lemma cache_utxo_insert c o e o' :
  cache_utxo (set_cacheCoins (<[o := e]> (cacheCoins c)) c) o' =
  if decide (o = o') then live (coin e) else cache_utxo c o'.
Proof.
  unfold cache_utxo. cbn. rewrite lookup_insert. by destruct (decide (o = o')).
Qed.

Lemma cache_utxo_delete c o o' : cache_utxo (set_cacheCoins (delete o (cacheCoins c)) c) o' =
  if decide (o = o') then utxo (base c) o else cache_utxo c o'.
Proof.
  unfold cache_utxo. cbn. rewrite lookup_delete. destruct (decide (o = o')) as [<-|]; done.
Qed.

(** ** Operations against the set of coins *)

Lemma GetCoin_spec c o : cache_ok c ->
  (GetCoin c o).1 = cache_utxo c o /\ cache_ok (GetCoin c o).2 /\
  (forall o', cache_utxo (GetCoin c o).2 o' = cache_utxo c o') /\ cache_best (GetCoin c o).2 = cache_best c.
Proof.
  intros Hc. pose proof (FetchCoin_spec c o Hc) as Hf. unfold GetCoin.
  destruct (FetchCoin c o) as [r c']. destruct Hf. done.
Qed.

Lemma AccessCoin_spec c o : cache_ok c ->
  live (AccessCoin c o).1 = cache_utxo c o /\ cache_ok (AccessCoin c o).2 /\
  (forall o', cache_utxo (AccessCoin c o).2 o' = cache_utxo c o').
Proof.
  intros Hc. pose proof (FetchCoin_spec c o Hc) as Hf. unfold AccessCoin.
  destruct (FetchCoin c o) as [r c']. destruct Hf as [? ? _ _ _ E]. cbn [fst snd]. split; [|done].
  by destruct r; cbn in *.
Qed.

Lemma HaveCoin_spec c o : cache_ok c ->
  (HaveCoin c o).1 = bool_decide (is_Some (cache_utxo c o)) /\ cache_ok (HaveCoin c o).2 /\
  (forall o', cache_utxo (HaveCoin c o).2 o' = cache_utxo c o').
Proof.
  intros Hc. pose proof (FetchCoin_spec c o Hc) as Hf. unfold HaveCoin.
  destruct (FetchCoin c o) as [r c']. destruct Hf as [? ? _ _ _ E]. cbn [fst snd]. split; [|done].
  rewrite <- E. destruct r as [e|]; [|done]. cbn. unfold live. by destruct (IsSpent (coin e)).
Qed.

(** Adding: without the overwrite flag the coin must not exist yet. *)
Lemma AddCoin_spec c o x ow : cache_ok c -> IsSpent x = false ->
  (ow = false -> cache_utxo c o = None) ->
  exists c', AddCoin c o x ow = Ok c' /\ cache_ok c' /\ hashBlock c' = hashBlock c /\ base c' = base c /\
    forall o', cache_utxo c' o' =
      if decide (o = o' /\ IsUnspendable (scriptPubKey (out x)) = false) then Some x else cache_utxo c o'.
Proof.
  intros Hc Hx How. unfold AddCoin. rewrite Hx. cbn [negb cassert mbind result_bind].
  destruct (IsUnspendable (scriptPubKey (out x))).
  { exists c. split_and!; try done. intros o'. destruct (decide _) as [[]|]; done. }
  set (it := default (mkEntry coinEmpty 0) (cacheCoins c !! o)).
  assert (entry_ok (utxo (base c)) o it \/ cacheCoins c !! o = None) as Hit.
  { unfold it. destruct (cacheCoins c !! o) eqn:E; [left; by apply (cok_entries c Hc)|by right]. }
  assert (ow = false -> live (coin it) = None /\ (cacheCoins c !! o = None -> utxo (base c) o = None)) as Hnone.
  { intros Hf. specialize (How Hf). unfold cache_utxo, it in *. by destruct (cacheCoins c !! o). }
  assert (negb ow && negb (IsSpent (coin it)) = false) as ->.
  { destruct ow; [done|]. destruct (Hnone eq_refl) as [Hl _]. unfold live in Hl. by destruct (IsSpent (coin it)). }
  eexists. split; [done|]. split_and!; try done.
  - apply cache_ok_insert; [done|]. destruct (mark_added x (flags it) (negb ow && negb (is_dirty it))) as [Hd Hf].
    split; [|by rewrite Hd]. rewrite Hf. intros [Hfr|Hfr]%orb_true_iff.
    + destruct Hit as [Hit|E]; [by apply Hit|]. exfalso. unfold it in Hfr. by rewrite E in Hfr.
    + apply andb_true_iff in Hfr as [How' Hd']. apply negb_true_iff in How', Hd'. destruct (Hnone How') as [Hl Hn].
      destruct Hit as [Hit|E]; [|by apply Hn]. rewrite <- (proj2 Hit Hd'). done.
  - intros o'. rewrite cache_utxo_insert. destruct (decide (o = o')), (decide (o = o' /\ _)); try tauto.
    cbn. unfold live. by rewrite Hx.
Qed.

Lemma SpendCoin_spec c o : cache_ok c ->
  ((SpendCoin c o).1 ≫= live) = cache_utxo c o /\ cache_ok (SpendCoin c o).2 /\
  hashBlock (SpendCoin c o).2 = hashBlock c /\
  forall o', cache_utxo (SpendCoin c o).2 o' = if decide (o = o') then None else cache_utxo c o'.
Proof.
  intros Hc. pose proof (FetchCoin_spec c o Hc) as Hf. unfold SpendCoin.
  destruct (FetchCoin c o) as [[e|] c']; cbn [fst snd] in *; destruct Hf as [Hok Hu _ Hh He Hl]; cbn in Hl.
  - pose proof (cok_entries c' Hok o e He) as [Hfresh _]. split_and!; [done| |by destruct (is_fresh e)|].
    + destruct (is_fresh e) eqn:Ef; [by apply cache_ok_delete|]. apply cache_ok_insert; [done|].
      destruct (mark_dirty coinEmpty (flags e)) as [Hd Hf]. split; [|by rewrite Hd].
      rewrite Hf. change (is_fresh (mkEntry coinEmpty (flags e))) with (is_fresh e). by rewrite Ef.
    + intros o'. destruct (is_fresh e).
      * rewrite cache_utxo_delete. destruct (decide (o = o')); [by apply Hfresh|apply Hu].
      * rewrite cache_utxo_insert. destruct (decide (o = o')); [done|apply Hu].
  - split_and!; try done. intros o'. destruct (decide (o = o')) as [<-|]; [|apply Hu]. by rewrite Hu.
Qed.

Lemma Uncache_spec c o : cache_ok c -> cache_ok (Uncache c o) /\ forall o', cache_utxo (Uncache c o) o' = cache_utxo c o'.
Proof.
  intros Hc. unfold Uncache. destruct (cacheCoins c !! o) as [e|] eqn:E; [|done].
  destruct (Z.eqb_spec (flags e) 0) as [E0|]; [|done]. split; [by apply cache_ok_delete|].
  intros o'. rewrite cache_utxo_delete. destruct (decide (o = o')) as [<-|]; [|done].
  unfold cache_utxo. rewrite E. symmetry. apply (cok_entries c Hc o e E). by rewrite is_dirty_bit, E0.
Qed.

(** ** Writing a batch into a cache *)

Lemma write_entry_spec c o e : cache_ok c -> is_dirty e = true -> (is_fresh e = true -> cache_utxo c o = None) ->
  exists m, write_entry (cacheCoins c) o e = Ok m /\ cache_ok (set_cacheCoins m c) /\
    forall o', cache_utxo (set_cacheCoins m c) o' = if decide (o = o') then live (coin e) else cache_utxo c o'.
Proof.
  intros Hc Hd Hf. unfold write_entry. unfold cache_utxo in Hf at 1.
  destruct (cacheCoins c !! o) as [us|] eqn:Eo.
  - pose proof (cok_entries c Hc o us Eo) as [Hus _].
    assert (is_fresh e && negb (IsSpent (coin us)) = false) as ->.
    { destruct (is_fresh e); [|done]. specialize (Hf eq_refl). unfold live in Hf. by destruct (IsSpent (coin us)). }
    destruct (is_fresh us && IsSpent (coin e)) eqn:E.
    + apply andb_true_iff in E as [E1 E2]. eexists. split; [done|]. split; [by apply cache_ok_delete|].
      intros o'. rewrite cache_utxo_delete. destruct (decide (o = o')); [|done]. rewrite Hus by done. unfold live. by rewrite E2.
    + eexists. split; [done|]. destruct (mark_dirty (coin e) (flags us)) as [Hd' Hf']. split.
      * apply cache_ok_insert; [done|]. split; [|by rewrite Hd']. rewrite Hf'. exact Hus.
      * intros o'. by rewrite cache_utxo_insert.
  - destruct (is_fresh e && IsSpent (coin e)) eqn:E.
    + apply andb_true_iff in E as [E1 E2]. eexists. split; [done|]. destruct c. split; [done|].
      intros o'. destruct (decide (o = o')) as [<-|]; [|done]. unfold live. rewrite E2.
      unfold cache_utxo. cbn in *. rewrite Eo. by apply Hf.
    + eexists. split; [done|]. split; [|intros o'; by rewrite cache_utxo_insert].
      apply cache_ok_insert; [done|]. split; [|by destruct (is_fresh e)]. destruct (is_fresh e); [|done]. by intros _; apply Hf.
Qed.

(** Entries with different keys can be written in any order: the result is told
    by the entries alone. *)
Lemma batch_loop_spec l c : cache_ok c -> NoDup l.*1 ->
  (forall o e, (o, e) ∈ l -> is_dirty e = true -> is_fresh e = true -> cache_utxo c o = None) ->
  exists m, batch_loop l (cacheCoins c) = Ok m /\ cache_ok (set_cacheCoins m c) /\
    forall o, cache_utxo (set_cacheCoins m c) o = batch_apply (list_to_map l) (cache_utxo c) o.
Proof.
  revert c. induction l as [|[o e] l IH]; intros c Hc Hnd Hf; cbn [batch_loop].
  { exists (cacheCoins c). split_and!; [done|by destruct c|]. intros o. destruct c. done. }
  apply NoDup_cons in Hnd as [Hnin Hnd].
  assert (exists m1, (if is_dirty e then write_entry (cacheCoins c) o e else Ok (cacheCoins c)) = Ok m1 /\
    cache_ok (set_cacheCoins m1 c) /\ forall o', cache_utxo (set_cacheCoins m1 c) o' =
      if decide (o = o') then (if is_dirty e then live (coin e) else cache_utxo c o) else cache_utxo c o')
    as (m1 & -> & Hc1 & Hu1).
  { destruct (is_dirty e) eqn:Ed.
    - apply write_entry_spec; [done..|]. intros Hfr. apply (Hf o e); [by left|done..].
    - exists (cacheCoins c). split_and!; [done|by destruct c|]. intros o'. destruct c. by destruct (decide (o = o')) as [<-|]. }
  cbn [mbind result_bind]. destruct (IH (set_cacheCoins m1 c)) as (m & Em & Hcm & Hum); [done..| |].
  { intros o' e' Hin Hd' Hf'. rewrite Hu1. destruct (decide (o = o')) as [<-|]; [|apply (Hf o' e'); [by right|done..]].
    exfalso. apply Hnin. apply list_elem_of_fmap. by exists (o, e'). }
  exists m. split; [done|]. split; [done|]. intros o'. change (set_cacheCoins m c) with (set_cacheCoins m (set_cacheCoins m1 c)).
  rewrite Hum. unfold batch_apply. rewrite list_to_map_cons, lookup_insert.
  destruct (decide (o = o')) as [<-|Hne].
  - rewrite not_elem_of_list_to_map_1 by done. rewrite Hu1, decide_True by done. done.
  - destruct (list_to_map l !! o') as [e'|]; [destruct (is_dirty e'); [done|]|]; rewrite Hu1, decide_False by done; done.
Qed.

Lemma cache_BatchWrite c m h : cache_ok c -> batch_ok m (cache_utxo c) -> IsNull h = false ->
  exists c', BatchWrite c m h = Ok (true, c') /\ cache_ok c' /\
    (forall o, cache_utxo c' o = batch_apply m (cache_utxo c) o) /\ cache_best c' = h.
Proof.
  intros Hc Hm Hh. unfold BatchWrite.
  destruct (batch_loop_spec (map_to_list m) c) as (m' & -> & Hc' & Hu); [done|apply NoDup_fst_map_to_list| |].
  { intros o e Hin%elem_of_map_to_list. by apply Hm. }
  rewrite list_to_map_to_list in Hu. eexists. split; [done|]. destruct c as [b hb cc]. split_and!.
  - by destruct Hc'.
  - exact Hu.
  - unfold cache_best. cbn [hashBlock base]. by rewrite Hh.
Qed.

Lemma cache_GetBestBlock c : cache_ok c ->
  (GetBestBlock c).1 = cache_best c /\ cache_ok (GetBestBlock c).2 /\
  (forall o, cache_utxo (GetBestBlock c).2 o = cache_utxo c o) /\
  cache_best (GetBestBlock c).2 = cache_best c.
Proof.
  intros [Hb He]. unfold GetBestBlock, cache_best. destruct (IsNull (hashBlock c)) eqn:En; [|cbn [fst snd]; by rewrite En].
  destruct (GetBestBlock_law (base c) Hb) as (Hr & Hb' & Hu & Hbest).
  destruct (view_GetBestBlock (base c)) as [h b]. cbn [fst snd hashBlock base] in *. subst h. split_and!; [done| | |].
  - split; [done|]. intros o e Ho. eapply entry_ok_ext; [exact Hu|]. by apply He.
  - intros o. unfold cache_utxo. cbn. destruct (cacheCoins c !! o); [done|apply Hu].
  - rewrite Hbest. by destruct (IsNull (best_block (base c))).
Qed.

(** Flushing makes the base stand for the coins the cache stood for. *)
Lemma Flush_spec c : cache_ok c -> IsNull (hashBlock c) = false ->
  exists c', Flush c = Ok (true, c') /\ cache_ok c' /\ cacheCoins c' = ∅ /\
    (forall o, utxo (base c') o = cache_utxo c o) /\ best_block (base c') = hashBlock c.
Proof.
  intros [Hb He] Hh. unfold Flush.
  destruct (BatchWrite_law (base c) (cacheCoins c) (hashBlock c)) as (b & -> & Hb' & Hu & Hbest); [done| |done|].
  { intros o e Ho _ Hf. by apply (He o e Ho). }
  eexists. split; [done|]. split_and!; try done. intros o. cbn [base]. rewrite Hu. unfold batch_apply, cache_utxo.
  destruct (cacheCoins c !! o) as [e|] eqn:Eo; [|done]. destruct (is_dirty e) eqn:Ed; [done|].
  symmetry. by apply (He o e Eo).
Qed.

End cache_laws.

#[global] Instance cache_view_laws {B} `{CoinsViewLaws B} : CoinsViewLaws (CCoinsViewCache B) := {|
  view_ok := cache_ok;
  utxo := cache_utxo;
  best_block := cache_best;
  utxo_unspent := cache_utxo_unspent;
  GetCoin_law := GetCoin_spec;
  GetBestBlock_law := cache_GetBestBlock;
  BatchWrite_law := cache_BatchWrite
|}.

(** ** The database is a view *)

(** What the entries of a batch write. *)
Definition coin_op (x : COutPoint * CCoinsCacheEntry) : list DbOp :=
  if is_dirty x.2 then [if IsSpent (coin x.2) then EraseCoin x.1 else WriteCoin x.1 (coin x.2)] else [].
Definition coin_ops (l : list (COutPoint * CCoinsCacheEntry)) : list DbOp := l ≫= coin_op.

Lemma mjoin_cons {A} (x : list A) (l : list (list A)) : mjoin (x :: l) = x ++ mjoin l.
Proof. done. Qed.

(** However the batches are cut, in sequence they are the same operations; and a
    prefix of the batches writes a prefix of the entries. *)
Lemma db_batches_ops full l batch :
  mjoin (db_batches full l batch).1 ++ (db_batches full l batch).2 = batch ++ coin_ops l /\
  forall k, (0 < k)%nat -> (0 < length (db_batches full l batch).1)%nat ->
    exists j, mjoin (take k (db_batches full l batch).1) = batch ++ coin_ops (take j l).
Proof.
  revert batch. induction l as [|[o e] l IH]; intros batch; cbn [db_batches].
  { split; [by rewrite app_nil_r|]. cbn. lia. }
  set (b1 := if is_dirty e then _ else batch).
  assert (b1 = batch ++ coin_op (o, e)) as Eb by (unfold b1, coin_op; cbn; destruct (is_dirty e); by rewrite ?app_nil_r).
  assert (forall l', coin_ops ((o, e) :: l') = coin_op (o, e) ++ coin_ops l') as Ec by done.
  destruct (full b1).
  - destruct (IH []) as [IH1 IH2]. destruct (db_batches full l []) as [bs last]. cbn [fst snd] in *. split.
    + rewrite mjoin_cons, <- app_assoc, IH1, Eb, Ec, <- app_assoc. done.
    + intros k Hk _. destruct k as [|k]; [lia|]. cbn [take]. rewrite mjoin_cons, Eb.
      destruct k as [|k]; [exists 1%nat; cbn [take]; rewrite Ec; cbn; by rewrite !app_nil_r|].
      destruct bs as [|b bs]; [exists 1%nat; cbn [take]; rewrite Ec; cbn; by rewrite !app_nil_r|].
      destruct (IH2 (S k)) as [j Hj]; [lia|cbn; lia|]. exists (S j). rewrite Hj. cbn [take]. by rewrite Ec, <- app_assoc.
  - destruct (IH b1) as [IH1 IH2]. split; [by rewrite IH1, Eb, Ec, app_assoc|].
    intros k Hk Hl. destruct (IH2 k Hk Hl) as [j Hj]. exists (S j). rewrite Hj, Eb. cbn [take]. by rewrite Ec, app_assoc.
Qed.

Lemma write_batches db bs : foldl WriteBatch db bs = foldl db_op db (mjoin bs).
Proof.
  revert db. induction bs as [|b bs IH]; intros db; [done|].
  cbn [foldl]. by rewrite mjoin_cons, foldl_app, IH.
Qed.

Lemma coin_ops_frame db l :
  db_best (foldl db_op db (coin_ops l)) = db_best db /\ db_heads (foldl db_op db (coin_ops l)) = db_heads db.
Proof.
  revert db. induction l as [|[o e] l IH]; intros db; [done|]. change (coin_ops ((o, e) :: l)) with (coin_op (o, e) ++ coin_ops l).
  rewrite foldl_app. destruct (IH (foldl db_op db (coin_op (o, e)))) as [-> ->].
  unfold coin_op. cbn [fst snd]. by destruct (is_dirty e), (IsSpent (coin e)).
Qed.

Lemma coin_ops_coins db l o : NoDup l.*1 ->
  db_coins (foldl db_op db (coin_ops l)) !! o = batch_apply (list_to_map l) (fun o => db_coins db !! o) o.
Proof.
  revert db. induction l as [|[o1 e] l IH]; intros db Hnd; [done|]. apply NoDup_cons in Hnd as [Hnin Hnd].
  change (coin_ops ((o1, e) :: l)) with (coin_op (o1, e) ++ coin_ops l). rewrite foldl_app, IH by done.
  assert (forall o', db_coins (foldl db_op db (coin_op (o1, e))) !! o' =
    if decide (o1 = o') then (if is_dirty e then live (coin e) else db_coins db !! o1) else db_coins db !! o') as E1.
  { intros o'. unfold coin_op, live. cbn [fst snd]. destruct (is_dirty e); [|by cbn; destruct (decide _) as [<-|]].
    destruct (IsSpent (coin e)); cbn [foldl db_op db_coins]; [rewrite lookup_delete|rewrite lookup_insert]; by destruct (decide _). }
  unfold batch_apply. rewrite list_to_map_cons, lookup_insert. destruct (decide (o1 = o)) as [<-|].
  - rewrite not_elem_of_list_to_map_1 by done. rewrite E1, decide_True by done. done.
  - destruct (list_to_map l !! o) as [e'|]; [destruct (is_dirty e'); [done|]|]; by rewrite E1, decide_False.
Qed.

Section db_laws.
Context (full : list DbOp -> bool).

(** A database between transitions: no transition is under way, and no record is
    of a spent coin. *)
Record db_ok (db : CCoinsViewDB) : Prop := {
  dbok_heads : db_heads db = None;
  dbok_coins : forall o c, db_coins db !! o = Some c -> IsSpent c = false
}.

Lemma db_old_tip_ok db h : db_ok db -> db_old_tip db h = Ok (db_GetBestBlock db).
Proof. intros [Hh _]. unfold db_old_tip, db_GetHeadBlocks. rewrite Hh. by destruct (IsNull _). Qed.

Lemma db_transition_ops db m h : db_ok db -> IsNull h = false -> exists bs last,
  db_transition full db m h = Ok (bs ++ [last ++ [EraseHeads; WriteBest h]]) /\
  (bs, last) = db_batches full (map_to_list m) [EraseBest; WriteHeads [h; db_GetBestBlock db]].
Proof.
  intros Hdb Hh. unfold db_transition. rewrite Hh, db_old_tip_ok by done. cbn [negb cassert mbind result_bind].
  destruct (db_batches _ _ _) as [bs last]. by eexists _, _.
Qed.

Lemma db_BatchWrite_spec db m h : db_ok db -> IsNull h = false ->
  exists db', db_BatchWrite full db m h = Ok (true, db') /\ db_ok db' /\
    (forall o, db_coins db' !! o = batch_apply m (fun o => db_coins db !! o) o) /\ db_GetBestBlock db' = h.
Proof.
  intros Hdb Hh. unfold db_BatchWrite. destruct (db_transition_ops db m h Hdb Hh) as (bs & last & -> & E).
  cbn [mbind result_bind]. eexists. split; [done|]. rewrite write_batches.
  destruct (db_batches_ops full (map_to_list m) [EraseBest; WriteHeads [h; db_GetBestBlock db]]) as [Eops _].
  rewrite <- E in Eops. cbn [fst snd] in Eops.
  assert (mjoin (bs ++ [last ++ [EraseHeads; WriteBest h]]) = (mjoin bs ++ last) ++ [EraseHeads; WriteBest h]) as ->
    by (rewrite join_app; cbn; by rewrite app_nil_r, app_assoc).
  rewrite Eops, !foldl_app. set (db1 := foldl db_op db _).
  assert (forall o, db_coins (foldl db_op db1 (coin_ops (map_to_list m))) !! o =
    batch_apply m (fun o => db_coins db !! o) o) as Ec.
  { intros o. rewrite coin_ops_coins by apply NoDup_fst_map_to_list. by rewrite list_to_map_to_list. }
  split_and!; [|exact Ec|done]. split; [done|]. intros o c. cbn [foldl db_op db_coins]. rewrite Ec. unfold batch_apply.
  destruct (m !! o) as [e|]; [destruct (is_dirty e)|]; [|by apply (dbok_coins db Hdb)..].
  intros El. by apply live_unspent in El as [-> ?].
Qed.

#[local] Instance db_view : CoinsView CCoinsViewDB := {|
  view_GetCoin db o := (db_coins db !! o, db);
  view_GetBestBlock db := (db_GetBestBlock db, db);
  view_BatchWrite := db_BatchWrite full
|}.

#[local] Instance db_view_laws : CoinsViewLaws CCoinsViewDB.
Proof.
  refine {| view_ok := db_ok; utxo db o := db_coins db !! o; best_block := db_GetBestBlock |}.
  - intros b o c Hb. by apply (dbok_coins b Hb).
  - done.
  - done.
  - intros b m h Hb _ Hh. by apply db_BatchWrite_spec.
Defined.

End db_laws.

(** ** Sequences of operations *)

Inductive cache_op :=
| OpGet (o : COutPoint)
| OpAdd (o : COutPoint) (c : Coin) (possible_overwrite : bool)
| OpSpend (o : COutPoint)
| OpUncache (o : COutPoint).

Definition run_op {B} `{CoinsView B} (c : CCoinsViewCache B) (x : cache_op) : result (CCoinsViewCache B) :=
  match x with
  | OpGet o => Ok (GetCoin c o).2
  | OpAdd o y ow => AddCoin c o y ow
  | OpSpend o => Ok (SpendCoin c o).2
  | OpUncache o => Ok (Uncache c o)
  end.
Fixpoint run_ops {B} `{CoinsView B} (c : CCoinsViewCache B) (l : list cache_op) : result (CCoinsViewCache B) :=
  match l with
  | [] => Ok c
  | x :: l => c ← run_op c x; run_ops c l
  end.

(** The specification: a set of coins. *)
Definition spec_op (u : COutPoint -> option Coin) (x : cache_op) : COutPoint -> option Coin :=
  match x with
  | OpAdd o y _ => fun o' => if decide (o = o' /\ IsUnspendable (scriptPubKey (out y)) = false) then Some y else u o'
  | OpSpend o => fun o' => if decide (o = o') then None else u o'
  | _ => u
  end.
Definition spec_ops (u : COutPoint -> option Coin) (l : list cache_op) : COutPoint -> option Coin := foldl spec_op u l.

(** What callers of [AddCoin] guarantee: the coin is unspent, and if an overwrite
    is excluded there is none. *)
Definition op_pre (u : COutPoint -> option Coin) (x : cache_op) : Prop :=
  match x with
  | OpAdd o y ow => IsSpent y = false /\ (ow = false -> u o = None)
  | _ => True
  end.
Fixpoint ops_pre (u : COutPoint -> option Coin) (l : list cache_op) : Prop :=
  match l with
  | [] => True
  | x :: l => op_pre u x /\ ops_pre (spec_op u x) l
  end.

Section traces.
Context {B : Type} `{CoinsViewLaws B}.
Implicit Types c : CCoinsViewCache B.

#[local] Instance spec_op_proper : Proper (pointwise_relation _ eq ==> eq ==> pointwise_relation _ eq) spec_op.
Proof. intros u u' E x ? <- o. destruct x; cbn; rewrite ?E; done. Qed.
Lemma spec_ops_ext u u' l : (forall o, u o = u' o) -> forall o, spec_ops u l o = spec_ops u' l o.
Proof. revert u u'. induction l as [|x l IH]; intros u u' E; [done|]. apply IH. by apply spec_op_proper. Qed.
Lemma ops_pre_ext u u' l : (forall o, u o = u' o) -> ops_pre u l -> ops_pre u' l.
Proof.
  revert u u'. induction l as [|x l IH]; intros u u' E; [done|]. intros [Hx Hl]. split; [|eapply IH, Hl; by apply spec_op_proper].
  destruct x; cbn in *; rewrite <- ?E; done.
Qed.

Lemma run_op_spec c x : cache_ok c -> op_pre (cache_utxo c) x ->
  exists c', run_op c x = Ok c' /\ cache_ok c' /\ forall o, cache_utxo c' o = spec_op (cache_utxo c) x o.
Proof.
  intros Hc Hx. destruct x as [o|o y ow|o|o]; cbn [run_op spec_op].
  - destruct (GetCoin_spec c o Hc) as (_ & ? & ? & _). eauto.
  - destruct Hx as [Hs Hn]. destruct (AddCoin_spec c o y ow Hc Hs Hn) as (c' & E & ? & _ & _ & ?). eauto.
  - destruct (SpendCoin_spec c o Hc) as (_ & ? & _ & ?). eauto.
  - destruct (Uncache_spec c o Hc) as (? & ?). eauto.
Qed.

Lemma run_ops_spec c l : cache_ok c -> ops_pre (cache_utxo c) l ->
  exists c', run_ops c l = Ok c' /\ cache_ok c' /\ forall o, cache_utxo c' o = spec_ops (cache_utxo c) l o.
Proof.
  revert c. induction l as [|x l IH]; intros c Hc Hl; [by exists c|]. destruct Hl as [Hx Hl]. cbn [run_ops].
  destruct (run_op_spec c x Hc Hx) as (c1 & -> & Hc1 & Hu1). cbn [mbind result_bind].
  destruct (IH c1 Hc1) as (c' & E & Hc' & Hu'); [by eapply ops_pre_ext, Hl|].
  exists c'. split_and!; [done..|]. intros o. rewrite Hu'. by apply (spec_ops_ext _ (spec_op (cache_utxo c) x)).
Qed.

End traces.

(** ** Properties *)

(** C8: A cache on any coin view refines a plain set of coins: every sequence of
    reads, additions, spends and evictions that respects what [AddCoin] asks for
    succeeds (no FRESH flag is ever misapplied), leaves the cache standing for
    exactly the coins the sequence leaves in the set, and after a flush the view
    underneath stands for them too, with the new best block.  The view underneath
    can itself be a cache or the database. *)
Theorem cache_refines_coin_set {B : Type} `{CoinsViewLaws B} (b : B) (l : list cache_op) (h : uint256) :
  view_ok b -> ops_pre (utxo b) l -> IsNull h = false ->
  exists c c', run_ops (mkCache b uint256_null ∅) l = Ok c /\
    (forall o, (GetCoin c o).1 = spec_ops (utxo b) l o) /\
    Flush (SetBestBlock c h) = Ok (true, c') /\ view_ok (base c') /\
    (forall o, utxo (base c') o = spec_ops (utxo b) l o) /\ best_block (base c') = h.
Proof.
  intros Hb Hl Hh. set (c0 := mkCache b uint256_null ∅).
  assert (cache_ok c0) as Hc0 by (split; [done|]; intros o e; cbn; by rewrite lookup_empty).
  assert (forall o, utxo b o = cache_utxo c0 o) as Hu0 by (intros o; unfold cache_utxo; cbn; by rewrite lookup_empty).
  destruct (run_ops_spec c0 l Hc0) as (c & Ec & Hc & Hu); [by eapply ops_pre_ext, Hl|].
  assert (forall o, cache_utxo c o = spec_ops (utxo b) l o) as Hu' by (intros o; rewrite Hu; symmetry; by apply spec_ops_ext).
  destruct (Flush_spec (SetBestBlock c h)) as (c' & Ef & Hc' & _ & Hu1 & Hbest); [by destruct Hc|done|].
  exists c, c'. split_and!; [done| |done|apply Hc'| |done].
  - intros o. by rewrite (proj1 (GetCoin_spec c o Hc)).
  - intros o. rewrite Hu1. apply Hu'.
Qed.

Definition sample_point (n : Z) : COutPoint := mkOutPoint (repeat 1 32) n.
Definition sample_coin (v : Z) : Coin := mkCoin (txout v [OP_DUP]) false 7.
Definition sample_db : CCoinsViewDB := mkDB {[ sample_point 0 := sample_coin 5 ]} (Some (repeat 2 32)) None.

Lemma sample_db_ok : db_ok sample_db.
Proof.
  split; [done|]. intros o c. cbn [sample_db db_coins]. intros [_ <-]%lookup_singleton_Some. done.
Qed.

Lemma cache_refines_coin_set_witness :
  let full := fun ops : list DbOp => (1 <? length ops)%nat in
  let _ := db_view full in
  exists c c', run_ops (mkCache sample_db uint256_null ∅)
      [OpSpend (sample_point 0); OpAdd (sample_point 1) (sample_coin 3) false; OpSpend (sample_point 1);
       OpAdd (sample_point 2) (sample_coin 4) false; OpUncache (sample_point 2)] = Ok c /\
    Flush (SetBestBlock c (repeat 3 32)) = Ok (true, c') /\
    db_coins (base c') !! sample_point 2 = Some (sample_coin 4) /\ db_coins (base c') !! sample_point 0 = None.
Proof.
  intros full V.
  destruct (@cache_refines_coin_set CCoinsViewDB (db_view full) (db_view_laws full) sample_db
    [OpSpend (sample_point 0); OpAdd (sample_point 1) (sample_coin 3) false; OpSpend (sample_point 1);
     OpAdd (sample_point 2) (sample_coin 4) false; OpUncache (sample_point 2)] (repeat 3 32))
    as (c & c' & E1 & _ & E2 & _ & E3 & _).
  - exact sample_db_ok.
  - repeat split; discriminate.
  - reflexivity.
  - exists c, c'. split; [exact E1|]. split; [exact E2|]. split.
    + pose proof (E3 (sample_point 2)) as E. cbn [utxo db_view_laws] in E. rewrite E. vm_compute. reflexivity.
    + pose proof (E3 (sample_point 0)) as E. cbn [utxo db_view_laws] in E. rewrite E. vm_compute. reflexivity.
Defined.

(** C32: A crash between two partial batches of a flush can be repaired: the
    database then has no best block, its head blocks are the new and the old tip,
    every coin is as before or as after the whole transition, and a new
    transition to the same block starts from the old tip.  After the last batch
    the database is consistent at the new block. *)
Theorem db_crash_consistent full db m h k : db_ok db -> IsNull h = false -> IsNull (db_GetBestBlock db) = false ->
  exists batches, db_transition full db m h = Ok batches /\
  let db' := foldl WriteBatch db (take k batches) in
  ((0 < k < length batches)%nat ->
    db_best db' = None /\ db_heads db' = Some [h; db_GetBestBlock db] /\
    db_old_tip db' h = Ok (db_GetBestBlock db) /\
    forall o, db_coins db' !! o = db_coins db !! o \/
              db_coins db' !! o = batch_apply m (fun o => db_coins db !! o) o) /\
  ((length batches <= k)%nat -> db_BatchWrite full db m h = Ok (true, db') /\ db_ok db' /\
    db_GetBestBlock db' = h /\ forall o, db_coins db' !! o = batch_apply m (fun o => db_coins db !! o) o).
Proof.
  intros Hdb Hh Hbest. destruct (db_transition_ops full db m h Hdb Hh) as (bs & last & Et & E).
  eexists. split; [exact Et|]. cbn zeta. rewrite length_app. cbn [length]. split.
  - intros Hk. rewrite take_app_le by lia. rewrite write_batches.
    destruct (db_batches_ops full (map_to_list m) [EraseBest; WriteHeads [h; db_GetBestBlock db]]) as [_ Hops].
    rewrite <- E in Hops. cbn [fst] in Hops. destruct (Hops k) as [j ->]; [lia..|]. rewrite foldl_app.
    set (db1 := foldl db_op db _). destruct (coin_ops_frame db1 (take j (map_to_list m))) as [E1 E2].
    split_and!; [by rewrite E1|by rewrite E2| |].
    + unfold db_old_tip, db_GetBestBlock, db_GetHeadBlocks. rewrite E1, E2.
      change (default uint256_null (db_best db1)) with uint256_null.
      change (default [] (db_heads db1)) with [h; db_GetBestBlock db].
      change (IsNull uint256_null) with true. cbn iota. rewrite bool_decide_true by done. done.
    + intros o. rewrite coin_ops_coins by (rewrite fmap_take; apply (sublist_NoDup _ _ (NoDup_fst_map_to_list m)), sublist_take).
      unfold batch_apply. destruct (list_to_map _ !! o) as [e|] eqn:Ee; [|by left].
      apply elem_of_list_to_map_2 in Ee. apply elem_of_take in Ee as (i & Ei & _). apply list_elem_of_lookup_2, elem_of_map_to_list in Ei.
      rewrite Ei. destruct (is_dirty e); [by right|by left].
  - intros Hk. rewrite firstn_all2 by (rewrite length_app; cbn; lia).
    destruct (db_BatchWrite_spec full db m h Hdb Hh) as (db' & Ew & Hok & Hc & Hb).
    unfold db_BatchWrite in *. rewrite Et in *. cbn [mbind result_bind] in *. injection Ew as <-. done.
Qed.

Lemma db_crash_consistent_witness :
  exists batches, db_transition (fun _ => true) sample_db
      {[ sample_point 0 := mkEntry coinEmpty DIRTY; sample_point 1 := mkEntry (sample_coin 9) DIRTY ]} (repeat 3 32) = Ok batches /\
    db_best (foldl WriteBatch sample_db (take 1 batches)) = None.
Proof.
  destruct (db_crash_consistent (fun _ => true) sample_db
    {[ sample_point 0 := mkEntry coinEmpty DIRTY; sample_point 1 := mkEntry (sample_coin 9) DIRTY ]} (repeat 3 32) 1)
    as (bs & Et & Hcrash & _).
  - exact sample_db_ok.
  - reflexivity.
  - reflexivity.
  - exists bs. split; [exact Et|]. apply Hcrash. vm_compute in Et. injection Et as <-. vm_compute. lia.
Defined.
