(* ===== verification/Undo.v ===== *)
(** * Connecting and disconnecting a block's coins
    (UpdateCoins, ApplyTxInUndo, the coin updates of ConnectBlock and
    DisconnectBlock in src/src/validation.cpp, CTxUndo of undo.h)

    A block is the list of its transactions with their hashes.  The optional
    address and spent indexes and the special-transaction database are not part
    of the model. *)

From Stdlib Require Import ZArith Lia.
From stdpp Require Import base tactics numbers option gmap list.
From S2P Require Import Prelude ArithUint256 Compact Block Serialize Transaction Script Coins.

Section undo.
Context {B : Type} `{CoinsView B}.
Implicit Types c view : CCoinsViewCache B.

(** ** Connecting *)

(** The loop of [UpdateCoins] that spends the inputs and fills [txundo]. *)
Fixpoint spend_inputs c (ins : list CTxIn) : result (list Coin * CCoinsViewCache B) :=
  match ins with
  | [] => Ok ([], c)
  | i :: ins =>
      match SpendCoin c (prevout i) with
      | (None, _) => Err AssertFail
      | (Some x, c) => '(l, c) ← spend_inputs c ins; Ok (x :: l, c)
      end
  end.

Definition UpdateCoins (txid : uint256) (tx : CTransaction) c (nHeight : Z) : result (list Coin * CCoinsViewCache B) :=
  '(undo, c) ← (if negb (IsCoinBase tx) then spend_inputs c (vin tx) else Ok ([], c));
  c ← AddCoins c txid tx nHeight false;
  Ok (undo, c).

(** The loop of [ConnectBlock] over the transactions after the first. *)
Fixpoint connect_txs c (nHeight : Z) (vtx : list (uint256 * CTransaction)) :
    result (list (list Coin) * CCoinsViewCache B) :=
  match vtx with
  | [] => Ok ([], c)
  | (txid, tx) :: vtx =>
      '(undo, c) ← UpdateCoins txid tx c nHeight;
      '(l, c) ← connect_txs c nHeight vtx;
      Ok (undo :: l, c)
  end.

(** The coin updates of [ConnectBlock]: the undo record of the first transaction
    is a dummy. *)
Definition ConnectCoins c (nHeight : Z) (vtx : list (uint256 * CTransaction)) :
    result (list (list Coin) * CCoinsViewCache B) :=
  '(l, c) ← connect_txs c nHeight vtx; Ok (drop 1 l, c).

(** ** Disconnecting *)

Definition MAX_OUTPUTS_PER_BLOCK : Z := 2000000 / 9.

Fixpoint by_txid_loop (fuel : nat) view (txid : uint256) (n : Z) : Coin * CCoinsViewCache B :=
  match fuel with
  | O => (coinEmpty, view)
  | S fuel =>
      let '(alternate, view) := AccessCoin view (mkOutPoint txid n) in
      if negb (IsSpent alternate) then (alternate, view) else by_txid_loop fuel view txid (n + 1)
  end.
Definition AccessByTxid view (txid : uint256) : Coin * CCoinsViewCache B :=
  by_txid_loop (Z.to_nat MAX_OUTPUTS_PER_BLOCK) view txid 0.

Inductive DisconnectResult := DISCONNECT_OK | DISCONNECT_UNCLEAN | DISCONNECT_FAILED.

Definition ApplyTxInUndo (undo : Coin) view (o : COutPoint) : result (DisconnectResult * CCoinsViewCache B) :=
  let '(have, view) := HaveCoin view o in
  let fClean := negb have in
  let '(undo, view) :=
    if coin_nHeight undo =? 0 then
      let '(alternate, view) := AccessByTxid view (op_hash o) in
      (if negb (IsSpent alternate) then Some (mkCoin (out undo) (fCoinBase alternate) (coin_nHeight alternate)) else None, view)
    else (Some undo, view) in
  match undo with
  | None => Ok (DISCONNECT_FAILED, view)
  | Some undo =>
      view ← AddCoin view o undo (negb fClean);
      Ok (if fClean then DISCONNECT_OK else DISCONNECT_UNCLEAN, view)
  end.

(** The loop that spends the outputs of a transaction and compares them. *)
Fixpoint unspend_outputs view (hash : uint256) (is_coinbase : bool) (nHeight o : Z) (outs : list CTxOut) (fClean : bool) :
    bool * CCoinsViewCache B :=
  match outs with
  | [] => (fClean, view)
  | vo :: outs =>
      if negb (IsUnspendable (scriptPubKey vo)) then
        let '(spent, view) := SpendCoin view (mkOutPoint hash o) in
        let same := match spent with
                    | None => false
                    | Some x => bool_decide (vo = out x) && (nHeight =? coin_nHeight x) && eqb is_coinbase (fCoinBase x)
                    end in
        unspend_outputs view hash is_coinbase nHeight (o + 1) outs (if same then fClean else false)
      else unspend_outputs view hash is_coinbase nHeight (o + 1) outs fClean
  end.

(** The loop that restores the inputs, from the last one; [None] is
    DISCONNECT_FAILED, otherwise the flag [fClean]. *)
Fixpoint restore_inputs view (l : list (CTxIn * Coin)) (fClean : bool) : result (option bool * CCoinsViewCache B) :=
  match l with
  | [] => Ok (Some fClean, view)
  | (i, x) :: l =>
      '(res, view) ← ApplyTxInUndo x view (prevout i);
      match res with
      | DISCONNECT_FAILED => Ok (None, view)
      | DISCONNECT_UNCLEAN => restore_inputs view l false
      | DISCONNECT_OK => restore_inputs view l fClean
      end
  end.

(** One transaction; [txundo] is [None] for the first transaction of the block. *)
Definition disconnect_tx view (nHeight : Z) (hash : uint256) (tx : CTransaction) (txundo : option (list Coin))
    (fClean : bool) : result (option bool * CCoinsViewCache B) :=
  let '(fClean, view) := unspend_outputs view hash (IsCoinBase tx) nHeight 0 (vout tx) fClean in
  match txundo with
  | None => Ok (Some fClean, view)
  | Some vprevout =>
      if negb (length vprevout =? length (vin tx))%nat then Ok (None, view)
      else restore_inputs view (reverse (zip (vin tx) vprevout)) fClean
  end.

Fixpoint disconnect_loop view (nHeight : Z) (l : list (uint256 * CTransaction * option (list Coin))) (fClean : bool) :
    result (option bool * CCoinsViewCache B) :=
  match l with
  | [] => Ok (Some fClean, view)
  | (hash, tx, txundo) :: l =>
      '(r, view) ← disconnect_tx view nHeight hash tx txundo fClean;
      match r with
      | None => Ok (None, view)
      | Some fClean => disconnect_loop view nHeight l fClean
      end
  end.

(** The coin updates of [DisconnectBlock]. *)
Definition DisconnectCoins view (hashPrev : uint256) (nHeight : Z) (vtx : list (uint256 * CTransaction))
    (vtxundo : list (list Coin)) : result (DisconnectResult * CCoinsViewCache B) :=
  if negb (length vtxundo + 1 =? length vtx)%nat then Ok (DISCONNECT_FAILED, view)
  else
    '(r, view) ← disconnect_loop view nHeight (reverse (zip vtx (None :: (Some <$> vtxundo)))) true;
    match r with
    | None => Ok (DISCONNECT_FAILED, view)
    | Some true => Ok (DISCONNECT_OK, SetBestBlock view hashPrev)
    | Some false => Ok (DISCONNECT_UNCLEAN, SetBestBlock view hashPrev)
    end.

End undo.

(** ** The effect on the set of coins *)

Definition coinset : Type := COutPoint -> option Coin.

(** The coin that outputs numbered from [i] on create at an outpoint. *)
Definition new_at (txid : uint256) (cb : bool) (h i : Z) (outs : list CTxOut) (o : COutPoint) : option Coin :=
  if decide (op_hash o = txid /\ i <= op_n o) then
    match outs !! Z.to_nat (op_n o - i) with
    | Some vo => if IsUnspendable (scriptPubKey vo) then None else Some (mkCoin vo cb h)
    | None => None
    end
  else None.
Definition new_coin (txid : uint256) (tx : CTransaction) (h : Z) : coinset :=
  new_at txid (IsCoinBase tx) h 0 (vout tx).

Definition spends (tx : CTransaction) (o : COutPoint) : Prop := IsCoinBase tx = false /\ o ∈ (prevout <$> vin tx).

#[global] Instance spends_dec tx o : Decision (spends tx o).
Proof. unfold spends. apply _. Defined.

Definition connect_spec (txid : uint256) (tx : CTransaction) (h : Z) (u : coinset) : coinset := fun o =>
  match new_coin txid tx h o with
  | Some x => Some x
  | None => if decide (spends tx o) then None else u o
  end.

(** What validation has checked before the coins are updated: no output is the
    null output, no existing coin is overwritten, and the inputs of a transaction
    that is not a coinbase are different unspent coins. *)
Record connectable (txid : uint256) (tx : CTransaction) (u : coinset) : Prop := {
  conn_values : Forall (fun o => nValue o <> -1) (vout tx);
  conn_new : forall o, op_hash o = txid -> u o = None;
  conn_distinct : IsCoinBase tx = false -> NoDup (prevout <$> vin tx);
  conn_inputs : IsCoinBase tx = false -> forall o, o ∈ (prevout <$> vin tx) -> is_Some (u o)
}.

Fixpoint block_connectable (h : Z) (vtx : list (uint256 * CTransaction)) (u : coinset) : Prop :=
  match vtx with
  | [] => True
  | (txid, tx) :: vtx => connectable txid tx u /\ block_connectable h vtx (connect_spec txid tx h u)
  end.

(** A coin that can be in the set: its height is not that of the genesis block,
    and it is not unspendable. *)
Definition coins_sane (u : coinset) : Prop := forall o x, u o = Some x ->
  coin_nHeight x <> 0 /\ IsUnspendable (scriptPubKey (out x)) = false.

(** ** Lemmas *)

Lemma new_at_cons txid cb h i vo outs o : new_at txid cb h i (vo :: outs) o =
  if decide (o = mkOutPoint txid i)
  then if IsUnspendable (scriptPubKey vo) then None else Some (mkCoin vo cb h)
  else new_at txid cb h (i + 1) outs o.
Proof.
  unfold new_at. destruct o as [oh on]. cbn [op_hash op_n].
  destruct (decide (mkOutPoint oh on = mkOutPoint txid i)) as [[= -> ->]|Hne].
  - rewrite decide_True by (split; [done|lia]). by rewrite Z.sub_diag.
  - destruct (decide (oh = txid /\ i <= on)) as [[-> Hi]|Hn].
    + assert (i <> on) by (intros ->; done). rewrite decide_True by (split; [done|lia]).
      replace (Z.to_nat (on - i)) with (S (Z.to_nat (on - (i + 1)))) by lia. done.
    + rewrite decide_False; [done|]. intros [-> ?]. apply Hn. split; [done|lia].
Qed.

Section laws.
Context {B : Type} `{CoinsViewLaws B}.
Implicit Types c view : CCoinsViewCache B.

Lemma SpendCoin_present c o x : cache_ok c -> cache_utxo c o = Some x ->
  exists c', SpendCoin c o = (Some x, c') /\ cache_ok c' /\ hashBlock c' = hashBlock c /\
    forall o', cache_utxo c' o' = if decide (o = o') then None else cache_utxo c o'.
Proof.
  intros Hc Hx. destruct (SpendCoin_spec c o Hc) as (E & Hc' & Hh & Hu). rewrite Hx in E.
  destruct (SpendCoin c o) as [[y|] c'] eqn:Es; [|done]. cbn in E. apply live_unspent in E as [-> _].
  by exists c'.
Qed.

Lemma spend_inputs_spec c ins : cache_ok c -> NoDup (prevout <$> ins) ->
  (forall o, o ∈ (prevout <$> ins) -> is_Some (cache_utxo c o)) ->
  exists l c', spend_inputs c ins = Ok (l, c') /\ cache_ok c' /\
    Forall2 (fun i x => cache_utxo c (prevout i) = Some x) ins l /\
    forall o, cache_utxo c' o = if decide (o ∈ (prevout <$> ins)) then None else cache_utxo c o.
Proof.
  revert c. induction ins as [|i ins IH]; intros c Hc Hnd Hin; cbn [spend_inputs].
  { exists [], c. by split_and!. }
  cbn [fmap list_fmap] in *. apply NoDup_cons in Hnd as [Hni Hnd].
  destruct (Hin (prevout i)) as [x Hx]; [by left|].
  destruct (SpendCoin_present c (prevout i) x Hc Hx) as (c1 & -> & Hc1 & _ & Hu1).
  assert (forall o, o ∈ (prevout <$> ins) -> cache_utxo c1 o = cache_utxo c o) as Hsame.
  { intros o Ho. rewrite Hu1, decide_False; [done|]. by intros <-. }
  destruct (IH c1 Hc1 Hnd) as (l & c' & -> & Hc' & Hl & Hu').
  { intros o Ho. rewrite Hsame by done. apply Hin. by right. }
  cbn [mbind result_bind]. exists (x :: l), c'. split_and!; [done|done| |].
  - constructor; [done|]. apply Forall2_same_length_lookup in Hl as [Hlen Hl]. apply Forall2_same_length_lookup.
    split; [done|]. intros k j y Hj Hy. rewrite <- Hsame; [by eapply Hl|].
    apply list_elem_of_fmap. exists j. split; [done|]. by eapply list_elem_of_lookup_2.
  - intros o. rewrite Hu'. destruct (decide (o ∈ (prevout <$> ins))) as [Ho|Ho].
    + rewrite decide_True; [done|by right].
    + rewrite Hu1. destruct (decide (prevout i = o)) as [<-|].
      * by rewrite decide_True by left.
      * rewrite decide_False; [done|]. rewrite elem_of_cons. intros [->|?]; done.
Qed.

Lemma add_coins_spec c txid h cb i outs : cache_ok c -> Forall (fun o => nValue o <> -1) outs ->
  (forall o, op_hash o = txid -> i <= op_n o -> cache_utxo c o = None) ->
  exists c', add_coins_loop c txid h cb false i outs = Ok c' /\ cache_ok c' /\
    forall o, cache_utxo c' o = match new_at txid cb h i outs o with Some x => Some x | None => cache_utxo c o end.
Proof.
  intros Hc Hv. revert c i Hc. induction Hv as [|vo outs Hvo Hv IH]; intros c i Hc Hnone; cbn [add_coins_loop].
  { exists c. split_and!; try done. intros o. unfold new_at. by destruct (decide _). }
  destruct (AddCoin_spec c (mkOutPoint txid i) (mkCoin vo cb h) cb Hc) as (c1 & -> & Hc1 & _ & _ & Hu1).
  { unfold IsSpent, txout_IsNull. cbn. by apply Z.eqb_neq. }
  { intros _. apply Hnone; cbn; [done|lia]. }
  cbn [mbind result_bind out] in *. destruct (IH c1 (i + 1) Hc1) as (c' & -> & Hc' & Hu').
  { intros o Ho Hn. rewrite Hu1, decide_False; [apply Hnone; [done|lia]|]. intros [<- _]. cbn in Hn. lia. }
  exists c'. split_and!; [done..|]. intros o. rewrite Hu', new_at_cons. destruct (decide (o = mkOutPoint txid i)) as [->|Hne].
  - assert (new_at txid cb h (i + 1) outs (mkOutPoint txid i) = None) as ->
      by (unfold new_at; rewrite decide_False; [done|]; cbn; lia).
    rewrite Hu1. destruct (IsUnspendable (scriptPubKey vo)).
    + rewrite decide_False; [done|]. by intros [_ ?].
    + by rewrite decide_True.
  - rewrite Hu1, decide_False; [done|]. by intros [<- _].
Qed.

Lemma unspend_outputs_spec view txid cb h i outs b : cache_ok view ->
  (forall o x, new_at txid cb h i outs o = Some x -> cache_utxo view o = Some x) ->
  exists view', unspend_outputs view txid cb h i outs b = (b, view') /\ cache_ok view' /\ hashBlock view' = hashBlock view /\
    forall o, cache_utxo view' o = match new_at txid cb h i outs o with Some _ => None | None => cache_utxo view o end.
Proof.
  revert view i. induction outs as [|vo outs IH]; intros view i Hc Hnew; cbn [unspend_outputs].
  { exists view. split_and!; try done. intros o. unfold new_at. by destruct (decide _). }
  assert (forall o, new_at txid cb h (i + 1) outs o <> None -> o <> mkOutPoint txid i) as Hother.
  { intros o Ho ->. apply Ho. unfold new_at. rewrite decide_False; [done|]. cbn. lia. }
  destruct (IsUnspendable (scriptPubKey vo)) eqn:Eun; cbn [negb].
  - destruct (IH view (i + 1) Hc) as (view' & -> & Hc' & Hh & Hu').
    { intros o x Ho. apply Hnew. rewrite new_at_cons, decide_False; [done|]. apply Hother. by rewrite Ho. }
    exists view'. split_and!; [done..|]. intros o. rewrite Hu', new_at_cons, Eun.
    destruct (decide (o = mkOutPoint txid i)) as [->|]; [|done].
    unfold new_at. rewrite decide_False; [done|]. cbn. lia.
  - pose proof (Hnew (mkOutPoint txid i) (mkCoin vo cb h)) as Hx. rewrite new_at_cons, decide_True, Eun in Hx by done.
    destruct (SpendCoin_present view _ _ Hc (Hx eq_refl)) as (v1 & -> & Hc1 & Hh1 & Hu1). cbn [out coin_nHeight fCoinBase].
    rewrite bool_decide_true, Z.eqb_refl, eqb_reflx by done. cbn [andb].
    destruct (IH v1 (i + 1) Hc1) as (view' & -> & Hc' & Hh & Hu').
    { intros o x Ho. assert (o <> mkOutPoint txid i) as Hne by (apply Hother; by rewrite Ho).
      rewrite Hu1, decide_False by done. apply Hnew. by rewrite new_at_cons, decide_False. }
    exists view'. split_and!; [done|done|by rewrite Hh|]. intros o. rewrite Hu', new_at_cons, Eun.
    destruct (decide (o = mkOutPoint txid i)) as [->|Hne].
    + unfold new_at. rewrite decide_False by (cbn; lia). by rewrite Hu1, decide_True.
    + by rewrite Hu1, decide_False.
Qed.

Lemma ApplyTxInUndo_spec view o x : cache_ok view -> cache_utxo view o = None ->
  IsSpent x = false -> coin_nHeight x <> 0 -> IsUnspendable (scriptPubKey (out x)) = false ->
  exists view', ApplyTxInUndo x view o = Ok (DISCONNECT_OK, view') /\ cache_ok view' /\
    forall o', cache_utxo view' o' = if decide (o = o') then Some x else cache_utxo view o'.
Proof.
  intros Hc Hn Hs Hh Hun. unfold ApplyTxInUndo. destruct (HaveCoin_spec view o Hc) as (Hr & Hc1 & Hu1).
  destruct (HaveCoin view o) as [have v1]. cbn [fst snd] in *. rewrite Hn in Hr. subst have. cbn [negb bool_decide].
  rewrite (proj2 (Z.eqb_neq _ _) Hh).
  destruct (AddCoin_spec v1 o x false Hc1 Hs) as (v2 & E & Hc2 & _ & _ & Hu2); [by rewrite Hu1|].
  change (negb (negb (bool_decide (is_Some None)))) with false. rewrite E. cbn [mbind result_bind].
  exists v2. split_and!; [done..|]. intros o'. rewrite Hu2, Hu1.
  destruct (decide (o = o')), (decide (o = o' /\ _)); tauto.
Qed.

Lemma restore_inputs_spec view l b : cache_ok view -> NoDup ((fun p => prevout p.1) <$> l) ->
  (forall i x, (i, x) ∈ l -> cache_utxo view (prevout i) = None /\ IsSpent x = false /\ coin_nHeight x <> 0 /\
     IsUnspendable (scriptPubKey (out x)) = false) ->
  exists view', restore_inputs view l b = Ok (Some b, view') /\ cache_ok view' /\
    (forall i x, (i, x) ∈ l -> cache_utxo view' (prevout i) = Some x) /\
    (forall o, o ∉ ((fun p => prevout p.1) <$> l) -> cache_utxo view' o = cache_utxo view o).
Proof.
  revert view. induction l as [|[i x] l IH]; intros view Hc Hnd Hin; cbn [restore_inputs].
  { exists view. split_and!; try done. intros i x Hx. by apply elem_of_nil in Hx. }
  cbn [fmap list_fmap fst] in *. apply NoDup_cons in Hnd as [Hni Hnd].
  destruct (Hin i x) as (Hn & Hs & Hh & Hun); [by left|].
  destruct (ApplyTxInUndo_spec view (prevout i) x Hc Hn Hs Hh Hun) as (v1 & -> & Hc1 & Hu1). cbn [mbind result_bind].
  assert (forall j y, (j, y) ∈ l -> prevout i <> prevout j) as Hne.
  { intros j y Hj E. apply Hni. rewrite E. apply list_elem_of_fmap. by exists (j, y). }
  destruct (IH v1 Hc1 Hnd) as (v2 & -> & Hc2 & Hu2 & Hf2).
  { intros j y Hj. rewrite Hu1, decide_False by by eapply Hne. apply Hin. by right. }
  exists v2. split_and!; [done|done| |].
  - intros j y [[= -> ->]|Hj]%elem_of_cons; [|by apply Hu2]. rewrite Hf2 by done. by rewrite Hu1, decide_True.
  - intros o [Ho1 Ho2]%not_elem_of_cons. rewrite Hf2 by done. rewrite Hu1, decide_False; [done|]. by intros <-.
Qed.

(** Connecting a transaction. *)
Lemma UpdateCoins_spec c txid tx h : cache_ok c -> connectable txid tx (cache_utxo c) ->
  exists l c', UpdateCoins txid tx c h = Ok (l, c') /\ cache_ok c' /\
    (IsCoinBase tx = false -> Forall2 (fun i x => cache_utxo c (prevout i) = Some x) (vin tx) l) /\
    forall o, cache_utxo c' o = connect_spec txid tx h (cache_utxo c) o.
Proof.
  intros Hc [Hv Hnew Hd Hi]. unfold UpdateCoins.
  assert (exists l c1, (if negb (IsCoinBase tx) then spend_inputs c (vin tx) else Ok ([], c)) = Ok (l, c1) /\
    cache_ok c1 /\ (IsCoinBase tx = false -> Forall2 (fun i x => cache_utxo c (prevout i) = Some x) (vin tx) l) /\
    forall o, cache_utxo c1 o = if decide (spends tx o) then None else cache_utxo c o) as (l & c1 & -> & Hc1 & Hl & Hu1).
  { destruct (IsCoinBase tx) eqn:Ecb; cbn [negb].
    - exists [], c. split_and!; try done. intros o. rewrite decide_False; [done|]. intros [? _]. congruence.
    - destruct (spend_inputs_spec c (vin tx) Hc) as (l & c1 & E & Hc1 & Hl & Hu1); [by auto..|].
      exists l, c1. split_and!; [done..|]. intros o. rewrite Hu1. apply decide_ext. unfold spends. tauto. }
  cbn [mbind result_bind]. unfold AddCoins.
  destruct (add_coins_spec c1 txid h (IsCoinBase tx) 0 (vout tx) Hc1 Hv) as (c' & -> & Hc' & Hu').
  { intros o Ho _. rewrite Hu1. destruct (decide _); [done|]. by apply Hnew. }
  cbn [mbind result_bind]. exists l, c'. split_and!; [done..|]. intros o. rewrite Hu'. unfold connect_spec, new_coin.
  by destruct (new_at _ _ _ _ _ _).
Qed.

(** The outpoints a transaction creates are not in the set before. *)
Lemma new_coin_txid txid tx h o x : new_coin txid tx h o = Some x -> op_hash o = txid.
Proof. unfold new_coin, new_at. destruct (decide _) as [[? _]|]; done. Qed.

(** Disconnecting it again. *)
Lemma disconnect_tx_spec view txid tx h u txundo : cache_ok view -> coins_sane u ->
  (forall o x, u o = Some x -> IsSpent x = false) ->
  connectable txid tx u -> (forall o, cache_utxo view o = connect_spec txid tx h u o) ->
  (if IsCoinBase tx then txundo = None
   else exists l, txundo = Some l /\ Forall2 (fun i x => u (prevout i) = Some x) (vin tx) l) ->
  exists view', disconnect_tx view h txid tx txundo true = Ok (Some true, view') /\ cache_ok view' /\
    forall o, cache_utxo view' o = u o.
Proof.
  intros Hc Hsane Hlive [Hv Hnew Hd Hi] Hu Hundo. unfold disconnect_tx.
  destruct (unspend_outputs_spec view txid (IsCoinBase tx) h 0 (vout tx) true Hc) as (v1 & -> & Hc1 & _ & Hu1).
  { intros o x Hx. rewrite Hu. unfold connect_spec, new_coin. by rewrite Hx. }
  assert (forall o, cache_utxo v1 o = if decide (spends tx o) then None else u o) as Hv1.
  { intros o. rewrite Hu1, Hu. unfold connect_spec. fold (new_coin txid tx h o).
    destruct (new_coin txid tx h o) eqn:En; [|done]. rewrite (Hnew o) by by eapply new_coin_txid. by destruct (decide _). }
  destruct (IsCoinBase tx) eqn:Ecb.
  { subst txundo. exists v1. split_and!; [done..|]. intros o. rewrite Hv1, decide_False; [done|]. by intros [? _]; congruence. }
  destruct Hundo as (l & -> & Hl). pose proof (Forall2_length _ _ _ Hl) as Hlen. rewrite Hlen, Nat.eqb_refl. cbn [negb].
  assert ((fun p : CTxIn * Coin => prevout p.1) <$> zip (vin tx) l = prevout <$> vin tx) as Ez.
  { change (fun p : CTxIn * Coin => prevout p.1) with (prevout ∘ fst (A := CTxIn) (B := Coin)).
    by rewrite list_fmap_compose, fst_zip by lia. }
  assert (forall i x, (i, x) ∈ zip (vin tx) l -> i ∈ vin tx /\ u (prevout i) = Some x) as Hzip.
  { intros i x (k & Hk)%list_elem_of_lookup_1. apply lookup_zip_Some in Hk as [H1 H2].
    split; [by eapply list_elem_of_lookup_2|]. exact (Forall2_lookup_lr _ _ _ _ _ _ Hl H1 H2). }
  destruct (restore_inputs_spec v1 (reverse (zip (vin tx) l)) true Hc1) as (v2 & -> & Hc2 & Hu2 & Hf2).
  { rewrite fmap_reverse, Ez. rewrite reverse_Permutation. by apply Hd. }
  { intros i x Hx. rewrite elem_of_reverse in Hx. apply Hzip in Hx as [H1 H2].
    split; [|split; [by eapply Hlive|by eapply Hsane]]. rewrite Hv1, decide_True; [done|]. split; [done|].
    apply list_elem_of_fmap. by exists i. }
  exists v2. split_and!; [done..|]. intros o. destruct (decide (o ∈ (prevout <$> vin tx))) as [Ho|Ho].
  - rewrite <- Ez in Ho. apply list_elem_of_fmap in Ho as ([i x] & -> & Hx). cbn [fst].
    rewrite (Hu2 i x) by (by apply elem_of_reverse). symmetry. by apply Hzip.
  - rewrite Hf2 by (rewrite fmap_reverse, Ez, elem_of_reverse; done).
    rewrite Hv1, decide_False; [done|]. by intros [_ ?].
Qed.

(** ** Blocks *)

Definition connect_all (h : Z) (vtx : list (uint256 * CTransaction)) (u : coinset) : coinset :=
  foldl (fun u t => connect_spec t.1 t.2 h u) u vtx.

(** The undo records that belong to a block. *)
Fixpoint undos_ok (h : Z) (vtx : list (uint256 * CTransaction)) (u : coinset) (l : list (list Coin)) : Prop :=
  match vtx, l with
  | [], [] => True
  | (txid, tx) :: vtx, x :: l =>
      (IsCoinBase tx = false -> Forall2 (fun i y => u (prevout i) = Some y) (vin tx) x) /\
      undos_ok h vtx (connect_spec txid tx h u) l
  | _, _ => False
  end.

Lemma connect_spec_ext txid tx h (u u' : coinset) : (forall o, u o = u' o) ->
  forall o, connect_spec txid tx h u o = connect_spec txid tx h u' o.
Proof. intros E o. unfold connect_spec. by rewrite E. Qed.

Lemma connectable_ext txid tx (u u' : coinset) : (forall o, u o = u' o) -> connectable txid tx u' -> connectable txid tx u.
Proof. intros E [Hv Hn Hd Hi]. split; [done|intros o Ho; rewrite E; auto|done|]. intros Hcb o Ho. rewrite E. auto. Qed.

Lemma connect_txs_spec c h vtx (u : coinset) : cache_ok c -> (forall o, cache_utxo c o = u o) -> block_connectable h vtx u ->
  exists l c', connect_txs c h vtx = Ok (l, c') /\ cache_ok c' /\ undos_ok h vtx u l /\
    forall o, cache_utxo c' o = connect_all h vtx u o.
Proof.
  revert c u. induction vtx as [|[txid tx] vtx IH]; intros c u Hc Hu Hb; cbn [connect_txs].
  { exists [], c. by split_and!. }
  destruct Hb as [Htx Hb].
  destruct (UpdateCoins_spec c txid tx h Hc) as (x & c1 & -> & Hc1 & Hx & Hu1); [by eapply connectable_ext|].
  cbn [mbind result_bind]. destruct (IH c1 (connect_spec txid tx h u) Hc1) as (l & c' & -> & Hc' & Hl & Hu'); [|done|].
  { intros o. rewrite Hu1. by apply connect_spec_ext. }
  cbn [mbind result_bind]. exists (x :: l), c'. split_and!; [done|done| |done]. split; [|done].
  intros Hcb. eapply Forall2_impl; [by apply Hx|]. cbn. intros i y. by rewrite Hu.
Qed.

Lemma disconnect_loop_app view h l1 l2 b : disconnect_loop view h (l1 ++ l2) b =
  ('(r, view) ← disconnect_loop view h l1 b;
   match r with None => Ok (None, view) | Some b => disconnect_loop view h l2 b end).
Proof.
  revert view b. induction l1 as [|[[txid tx] x] l1 IH]; intros view b; cbn [disconnect_loop app]; [done|].
  destruct (disconnect_tx view h txid tx x b) as [[[b'|] v]|]; cbn [mbind result_bind]; [apply IH|done..].
Qed.

Lemma connect_spec_sane txid tx h (u : coinset) : h <> 0 -> connectable txid tx u ->
  coins_sane u -> (forall o x, u o = Some x -> IsSpent x = false) ->
  coins_sane (connect_spec txid tx h u) /\ forall o x, connect_spec txid tx h u o = Some x -> IsSpent x = false.
Proof.
  intros Hh Hcon Hs Hl.
  assert (forall o x, connect_spec txid tx h u o = Some x -> u o = Some x \/
    exists vo, vo ∈ vout tx /\ IsUnspendable (scriptPubKey vo) = false /\ x = mkCoin vo (IsCoinBase tx) h) as Hcase.
  { intros o x. unfold connect_spec. destruct (new_coin txid tx h o) as [y|] eqn:En; [|destruct (decide _); [done|by left]].
    intros [= ->]. right. unfold new_coin, new_at in En. destruct (decide _); [|done].
    destruct (vout tx !! _) as [vo|] eqn:Ev; [|done]. destruct (IsUnspendable _) eqn:Eu; [done|]. injection En as <-.
    exists vo. split; [by eapply list_elem_of_lookup_2|done]. }
  split; intros o x [Hx|(vo & Hvo & Hun & ->)]%Hcase; [by eapply Hs|done|by eapply Hl|].
  pose proof (conn_values _ _ _ Hcon) as Hv. rewrite Forall_forall in Hv.
  unfold IsSpent, txout_IsNull. cbn. by apply Z.eqb_neq, Hv.
Qed.

(** An undo list for [DisconnectBlock]: none for a coinbase. *)
Definition undo_opts (vtx : list (uint256 * CTransaction)) (l : list (list Coin)) (os : list (option (list Coin))) : Prop :=
  Forall2 (fun t p => p.2 = if IsCoinBase t.2 then None else Some p.1) vtx (zip l os) /\ length l = length os.

Lemma disconnect_loop_spec view h vtx (u : coinset) l os : h <> 0 -> cache_ok view -> coins_sane u ->
  (forall o x, u o = Some x -> IsSpent x = false) -> block_connectable h vtx u -> undos_ok h vtx u l ->
  undo_opts vtx l os -> (forall o, cache_utxo view o = connect_all h vtx u o) ->
  exists view', disconnect_loop view h (reverse (zip vtx os)) true = Ok (Some true, view') /\ cache_ok view' /\
    forall o, cache_utxo view' o = u o.
Proof.
  intros Hh. revert view u l os.
  induction vtx as [|[txid tx] vtx IH]; intros view u l os Hc Hs Hl Hb Hundo [Hos Hlen] Hu.
  { by exists view. }
  destruct l as [|x l]; [done|]. destruct os as [|y os]; [done|]. cbn [zip zip_with] in *.
  apply Forall2_cons_1 in Hos as [Hy Hos]. cbn [fst snd] in Hy. destruct Hb as [Htx Hb], Hundo as [Hx Hundo].
  destruct (connect_spec_sane txid tx h u Hh Htx Hs Hl) as [Hs1 Hl1].
  destruct (IH view (connect_spec txid tx h u) l os Hc Hs1 Hl1 Hb Hundo) as (v1 & E1 & Hc1 & Hu1); [split; [done|cbn in *; lia]|done|].
  rewrite reverse_cons, disconnect_loop_app, E1. cbn [mbind result_bind disconnect_loop].
  destruct (disconnect_tx_spec v1 txid tx h u y) as (v2 & -> & Hc2 & Hu2); try done.
  { destruct (IsCoinBase tx); [done|]. exists x. split; [done|]. by apply Hx. }
  cbn [mbind result_bind]. by exists v2.
Qed.

Lemma DisconnectCoins_spec c1 (hashPrev : uint256) h cb vtx (u : coinset) x l : h <> 0 -> cache_ok c1 -> coins_sane u ->
  (forall o x, u o = Some x -> IsSpent x = false) -> IsCoinBase cb.2 = true -> Forall (fun t => IsCoinBase t.2 = false) vtx ->
  block_connectable h (cb :: vtx) u -> undos_ok h (cb :: vtx) u (x :: l) ->
  (forall o, cache_utxo c1 o = connect_all h (cb :: vtx) u o) ->
  exists c2, DisconnectCoins c1 hashPrev h (cb :: vtx) l = Ok (DISCONNECT_OK, c2) /\
    (forall o, cache_utxo c2 o = u o) /\ hashBlock c2 = hashPrev.
Proof.
  intros Hh Hc1 Hs Hl Hcb Hvtx Hb Hundo Hu1.
  assert (undo_opts (cb :: vtx) (x :: l) (None :: (Some <$> l)) /\ length vtx = length l) as [Hopts Hlen].
  { destruct cb as [cid ctx]. destruct Hundo as [_ Hundo]. clear Hb Hu1. revert Hundo. generalize (connect_spec cid ctx h u).
    intros u1 Hundo. assert (Forall2 (fun t p => p.2 = if IsCoinBase t.2 then None else Some p.1) vtx (zip l (Some <$> l))
      /\ length vtx = length l) as [Hf Hlen].
    { revert u1 l Hundo. induction Hvtx as [|[tid t] vtx Ht Hvtx IH]; intros u1 l Hundo; destruct l as [|y l]; [done..|].
      destruct Hundo as [_ Hundo]. destruct (IH _ _ Hundo) as [? ?]. cbn in Ht. split; [|cbn; lia].
      constructor; [cbn; by rewrite Ht|done]. }
    split; [|done]. split; [constructor; [cbn in *; by rewrite Hcb|done]|]. cbn. by rewrite length_fmap. }
  unfold DisconnectCoins. cbn [length]. rewrite (proj2 (Nat.eqb_eq _ _)) by lia. cbn [negb].
  destruct (disconnect_loop_spec c1 h (cb :: vtx) u (x :: l) (None :: (Some <$> l))) as (v & -> & Hv & Huv); try done.
  cbn [mbind result_bind]. eexists. by split_and!.
Qed.

End laws.

(** ** Properties *)

(** C4: Disconnecting a block undoes connecting it: after [ConnectBlock] has
    spent the inputs and added the outputs of a valid block at a height above the
    genesis block, [DisconnectBlock] with the undo records that were kept
    succeeds, reports a clean disconnect, and leaves exactly the coins there were
    before, whatever view the cache is put on. *)
Theorem disconnect_undoes_connect {B : Type} `{CoinsViewLaws B} (c : CCoinsViewCache B) (hashPrev : uint256) (h : Z)
    (cb : uint256 * CTransaction) (vtx : list (uint256 * CTransaction)) :
  cache_ok c -> h <> 0 -> coins_sane (cache_utxo c) ->
  IsCoinBase cb.2 = true -> Forall (fun t => IsCoinBase t.2 = false) vtx ->
  block_connectable h (cb :: vtx) (cache_utxo c) ->
  exists undo c1 c2, ConnectCoins c h (cb :: vtx) = Ok (undo, c1) /\
    (forall o, cache_utxo c1 o = connect_all h (cb :: vtx) (cache_utxo c) o) /\
    DisconnectCoins c1 hashPrev h (cb :: vtx) undo = Ok (DISCONNECT_OK, c2) /\
    (forall o, cache_utxo c2 o = cache_utxo c o) /\ hashBlock c2 = hashPrev.
Proof.
  intros Hc Hh Hs Hcb Hvtx Hb. unfold ConnectCoins.
  destruct (connect_txs_spec c h (cb :: vtx) (cache_utxo c) Hc) as (l & c1 & -> & Hc1 & Hundo & Hu1); [done..|].
  cbn [mbind result_bind]. destruct l as [|x l]; [by destruct cb|].
  destruct (DisconnectCoins_spec c1 hashPrev h cb vtx (cache_utxo c) x l) as (c2 & E & Hu2 & Hb2); try done.
  { intros o y. by apply cache_utxo_unspent. }
  exists l, c1, c2. split_and!; [done|exact Hu1|done..].
Qed.

Definition sample_vtx : list (uint256 * CTransaction) :=
  [(repeat 8 32, mkTx 1 0 [mkTxIn (mkOutPoint uint256_null (u32 (-1))) [1; 2] SEQUENCE_FINAL] [txout 50 [OP_DUP]] 0 []);
   (repeat 9 32, mkTx 1 0 [mkTxIn (sample_point 0) [] 0] [txout 4 [OP_DUP]; txout 1 [OP_RETURN]] 0 []);
   (repeat 10 32, mkTx 1 0 [mkTxIn (mkOutPoint (repeat 9 32) 0) [] 0] [txout 3 [OP_DUP]] 0 [])].

Lemma connect_spec_other txid tx h (u : coinset) o : op_hash o <> txid -> u o = None -> connect_spec txid tx h u o = None.
Proof.
  intros Hh Hu. unfold connect_spec, new_coin, new_at. rewrite decide_False by (by intros [? _]). rewrite Hu. by destruct (decide _).
Qed.

Lemma connect_spec_keep txid tx h (u : coinset) o : op_hash o <> txid -> ~ spends tx o -> connect_spec txid tx h u o = u o.
Proof.
  intros Hh Hs. unfold connect_spec, new_coin, new_at. rewrite decide_False by (by intros [? _]). by rewrite decide_False.
Qed.

Lemma sample_vtx_connectable (u : coinset) :
  u (sample_point 0) = Some (sample_coin 5) -> (forall o, op_hash o <> repeat 1 32 -> u o = None) ->
  block_connectable 9 sample_vtx u.
Proof.
  intros Hp Hn. unfold sample_vtx. cbn [block_connectable]. split_and!; [split|split|split|done];
    try (repeat constructor; discriminate); try (intros _; apply NoDup_singleton).
  - intros o Ho. apply Hn. rewrite Ho. discriminate.
  - intros o Ho. apply connect_spec_other; [rewrite Ho; discriminate|]. apply Hn. rewrite Ho. discriminate.
  - intros _ o ->%list_elem_of_singleton. rewrite connect_spec_keep; [by eexists|discriminate|by intros [? _]].
  - intros o Ho. do 2 (apply connect_spec_other; [rewrite Ho; discriminate|]). apply Hn. rewrite Ho. discriminate.
  - intros _ o ->%list_elem_of_singleton. eexists. reflexivity.
Qed.

Lemma disconnect_undoes_connect_witness :
  let full := fun ops : list DbOp => (1 <? length ops)%nat in
  let _ := db_view full in let _ := db_view_laws full in
  let c := mkCache sample_db (repeat 2 32) ∅ in
  exists undo c1 c2, ConnectCoins c 9 sample_vtx = Ok (undo, c1) /\
    cache_utxo c1 (mkOutPoint (repeat 10 32) 0) = Some (mkCoin (txout 3 [OP_DUP]) false 9) /\
    DisconnectCoins c1 (repeat 2 32) 9 sample_vtx undo = Ok (DISCONNECT_OK, c2) /\
    cache_utxo c2 (sample_point 0) = Some (sample_coin 5).
Proof.
  intros full V L c.
  assert (forall o, cache_utxo c o = db_coins sample_db !! o) as Hu by (intros o; reflexivity).
  destruct (@disconnect_undoes_connect CCoinsViewDB (db_view full) (db_view_laws full) c (repeat 2 32) 9
    (repeat 8 32, mkTx 1 0 [mkTxIn (mkOutPoint uint256_null (u32 (-1))) [1; 2] SEQUENCE_FINAL] [txout 50 [OP_DUP]] 0 [])
    (drop 1 sample_vtx)) as (undo & c1 & c2 & E1 & Hu1 & E2 & Hu2 & _).
  - split; [exact sample_db_ok|]. intros o e He. cbn [c cacheCoins] in He. rewrite lookup_empty in He. discriminate.
  - discriminate.
  - intros o x. rewrite Hu. cbn [sample_db db_coins]. intros [_ <-]%lookup_singleton_Some. split; [discriminate|reflexivity].
  - reflexivity.
  - repeat constructor.
  - apply sample_vtx_connectable.
    + reflexivity.
    + intros o Ho. rewrite Hu. cbn [sample_db db_coins]. apply lookup_singleton_None. intros <-. by apply Ho.
  - exists undo, c1, c2. split; [exact E1|]. split; [|split; [exact E2|]].
    + rewrite Hu1. reflexivity.
    + rewrite Hu2. reflexivity.
Defined.
