(* ===== verification/TxVerify.v ===== *)
(** * Transaction checks (src/src/consensus/tx_verify.cpp)

    Finality, relative lock times, the checks of a transaction on its own and
    against its inputs, and the signature-operation counts.  The interface to the
    rest of the node is what the C++ takes: the block index for median times, a
    coin cache for the inputs, and the tip for the money limit in force. *)

From Stdlib Require Import ZArith Lia String.
From stdpp Require Import base tactics numbers option gmap list.
From S2P Require Import Prelude ArithUint256 Compact Block Chain Pow Headers Serialize Double Rewards.
From S2P Require Import Script Interpreter SigHash Transaction Coins Undo.

Definition MAX_LEGACY_BLOCK_SIZE : Z := 1000000.
Definition MAX_TX_EXTRA_PAYLOAD : Z := 10000.
Definition COINBASE_MATURITY : Z := 100.
Definition LOCKTIME_VERIFY_SEQUENCE : Z := Z.shiftl 1 0.

(** ** Lock times *)

Definition IsFinalTx (tx : CTransaction) (nBlockHeight nBlockTime : Z) : bool :=
  if nLockTime tx =? 0 then true
  else if nLockTime tx <? (if nLockTime tx <? LOCKTIME_THRESHOLD then nBlockHeight else nBlockTime) then true
  else forallb (fun txin => nSequence txin =? SEQUENCE_FINAL) (vin tx).

(** The loop of [CalculateSequenceLocks]; it also clears the heights of inputs
    whose sequence number is not a lock time. *)
Fixpoint sequence_loop (m : BlockMap) (block : ptr) (ins : list CTxIn) (prevHeights : list Z)
    (nMinHeight nMinTime : Z) : result (list Z * (Z * Z)) :=
  match ins, prevHeights with
  | txin :: ins, nCoinHeight :: prevHeights =>
      if negb (Z.land (nSequence txin) SEQUENCE_LOCKTIME_DISABLE_FLAG =? 0) then
        '(hs, r) ← sequence_loop m block ins prevHeights nMinHeight nMinTime; Ok (0 :: hs, r)
      else
        let lock := Z.land (nSequence txin) SEQUENCE_LOCKTIME_MASK in
        if negb (Z.land (nSequence txin) SEQUENCE_LOCKTIME_TYPE_FLAG =? 0) then
          anc ← GetAncestor m block (Z.max (nCoinHeight - 1) 0);
          p ← deref anc;
          nCoinTime ← GetMedianTimePast m p;
          let nMinTime := Z.max nMinTime (nCoinTime + Z.shiftl lock SEQUENCE_LOCKTIME_GRANULARITY - 1) in
          '(hs, r) ← sequence_loop m block ins prevHeights nMinHeight nMinTime; Ok (nCoinHeight :: hs, r)
        else
          let nMinHeight := Z.max nMinHeight (nCoinHeight + lock - 1) in
          '(hs, r) ← sequence_loop m block ins prevHeights nMinHeight nMinTime; Ok (nCoinHeight :: hs, r)
  | _, _ => Ok (prevHeights, (nMinHeight, nMinTime))
  end.

Definition CalculateSequenceLocks (m : BlockMap) (tx : CTransaction) (flags : Z) (prevHeights : list Z) (block : ptr) :
    result (list Z * (Z * Z)) :=
  _ ← cassert (length prevHeights =? length (vin tx))%nat;
  let fEnforceBIP68 := (2 <=? u32 (tx_nVersion tx)) && negb (Z.land flags LOCKTIME_VERIFY_SEQUENCE =? 0) in
  if negb fEnforceBIP68 then Ok (prevHeights, (-1, -1))
  else sequence_loop m block (vin tx) prevHeights (-1) (-1).

Definition EvaluateSequenceLocks (m : BlockMap) (block : ptr) (lockPair : Z * Z) : result bool :=
  idx ← deref (m !! block);
  match pprev idx with
  | None => Err AssertFail
  | Some prev =>
      nBlockTime ← GetMedianTimePast m prev;
      Ok (negb ((nHeight idx <=? lockPair.1) || (nBlockTime <=? lockPair.2)))
  end.

Definition SequenceLocks (m : BlockMap) (tx : CTransaction) (flags : Z) (prevHeights : list Z) (block : ptr) : result bool :=
  '(_, locks) ← CalculateSequenceLocks m tx flags prevHeights block;
  EvaluateSequenceLocks m block locks.

(** ** Signature operations *)

Definition GetLegacySigOpCount (tx : CTransaction) : Z :=
  foldl (fun n o => u32 (n + GetSigOpCount false (scriptPubKey o)))
    (foldl (fun n i => u32 (n + GetSigOpCount false (scriptSig i))) 0 (vin tx)) (vout tx).

Section inputs.
Context {B : Type} `{CoinsView B}.
Implicit Types c inputs : CCoinsViewCache B.

Fixpoint p2sh_loop inputs (ins : list CTxIn) (nSigOps : Z) : result (Z * CCoinsViewCache B) :=
  match ins with
  | [] => Ok (nSigOps, inputs)
  | i :: ins =>
      let '(x, inputs) := AccessCoin inputs (prevout i) in
      _ ← cassert (negb (IsSpent x));
      let pk := scriptPubKey (out x) in
      p2sh_loop inputs ins (if IsPayToScriptHash pk then u32 (nSigOps + GetSigOpCountP2SH pk (scriptSig i)) else nSigOps)
  end.
Definition GetP2SHSigOpCount inputs (tx : CTransaction) : result (Z * CCoinsViewCache B) :=
  if IsCoinBase tx then Ok (0, inputs) else p2sh_loop inputs (vin tx) 0.

Definition GetTransactionSigOpCount inputs (tx : CTransaction) (flags : Z) : result (Z * CCoinsViewCache B) :=
  let nSigOps := GetLegacySigOpCount tx in
  if IsCoinBase tx then Ok (nSigOps, inputs)
  else if has flags SCRIPT_VERIFY_P2SH
  then '(n, inputs) ← GetP2SHSigOpCount inputs tx; Ok (u32 (nSigOps + n), inputs)
  else Ok (nSigOps, inputs).

(** ** Inputs *)

(** The loop of [CheckTxInputs]: the value of the inputs, or the rejection.  The
    running sum is checked at every input, so it stays within [int64_t] as long as
    the values of the coins do. *)
Fixpoint inputs_loop inputs (ins : list CTxIn) (nSpendHeight : Z) (ismaxcash : bool) (nValueIn : Z) :
    result ((reject + Z) * CCoinsViewCache B) :=
  match ins with
  | [] => Ok (inr nValueIn, inputs)
  | i :: ins =>
      let '(x, inputs) := AccessCoin inputs (prevout i) in
      _ ← cassert (negb (IsSpent x));
      if fCoinBase x && (nSpendHeight - coin_nHeight x <? COINBASE_MATURITY)
      then Ok (inl (DoS 0 "bad-txns-premature-spend-of-coinbase"), inputs)
      else
        let nValueIn := nValueIn + nValue (out x) in
        if negb (MoneyRange (nValue (out x)) ismaxcash) || negb (MoneyRange nValueIn ismaxcash)
        then Ok (inl (DoS 100 "bad-txns-inputvalues-outofrange"), inputs)
        else inputs_loop inputs ins nSpendHeight ismaxcash nValueIn
  end.

(** [Consensus::CheckTxInputs]: the fee, or the rejection. *)
Definition CheckTxInputs inputs (tx : CTransaction) (nSpendHeight : Z) (ismaxcash : bool) :
    result ((reject + Z) * CCoinsViewCache B) :=
  let '(have, inputs) := HaveInputs inputs tx in
  if negb have then Ok (inl (DoS 100 "bad-txns-inputs-missingorspent"), inputs)
  else
    '(r, inputs) ← inputs_loop inputs (vin tx) nSpendHeight ismaxcash 0;
    match r with
    | inl e => Ok (inl e, inputs)
    | inr nValueIn =>
        value_out ← GetValueOut tx;
        if nValueIn <? value_out then Ok (inl (DoS 100 "bad-txns-in-belowout"), inputs)
        else
          let txfee := nValueIn - value_out in
          if negb (MoneyRange txfee ismaxcash) then Ok (inl (DoS 100 "bad-txns-fee-outofrange"), inputs)
          else Ok (inr txfee, inputs)
    end.

End inputs.

(** ** The transaction on its own *)

(** [CChainParams::IsMaxCash] *)
Definition IsMaxCash (nMaxCash : Z) (index : option CBlockIndex) : bool :=
  let height := match index with None => 0 | Some idx => nHeight idx end in
  nMaxCash <=? height.

(** The loop over the outputs. *)
Fixpoint outputs_loop (ismaxcash : bool) (nValueOut : Z) (outs : list CTxOut) : option reject :=
  match outs with
  | [] => None
  | o :: outs =>
      if nValue o <? 0 then Some (DoS 100 "bad-txns-vout-negative")
      else if (if ismaxcash then MAX_MONEY else OLD_MAX_MONEY) <? nValue o then Some (DoS 100 "bad-txns-vout-toolarge")
      else
        let nValueOut := nValueOut + nValue o in
        if negb (MoneyRange nValueOut ismaxcash) then Some (DoS 100 "bad-txns-txouttotal-toolarge")
        else outputs_loop ismaxcash nValueOut outs
  end.

(** The loop that looks for duplicate inputs. *)
Fixpoint duplicate_input (seen : list COutPoint) (ins : list CTxIn) : bool :=
  match ins with
  | [] => false
  | i :: ins => if bool_decide (prevout i ∈ seen) then true else duplicate_input (prevout i :: seen) ins
  end.

Definition CheckTransaction (founder : FounderPayment) (nMaxCash : Z) (tip : option CBlockIndex) (tx : CTransaction)
    (nHeight blockReward : Z) : option reject :=
  let allowEmptyTxInOut := tx_nType tx =? TRANSACTION_QUORUM_COMMITMENT in
  if negb allowEmptyTxInOut && bool_decide (vin tx = []) then Some (DoS 10 "bad-txns-vin-empty")
  else if negb allowEmptyTxInOut && bool_decide (vout tx = []) then Some (DoS 10 "bad-txns-vout-empty")
  else if MAX_LEGACY_BLOCK_SIZE <? Z.of_nat (length (ser tx)) then Some (DoS 100 "bad-txns-oversize")
  else if MAX_TX_EXTRA_PAYLOAD <? Z.of_nat (length (vExtraPayload tx)) then Some (DoS 100 "bad-txns-payload-oversize")
  else match outputs_loop (IsMaxCash nMaxCash tip) 0 (vout tx) with
  | Some e => Some e
  | None =>
      if duplicate_input [] (vin tx) then Some (DoS 100 "bad-txns-inputs-duplicate")
      else if IsCoinBase tx then
        let minCbSize := if tx_nType tx =? TRANSACTION_COINBASE then 1 else 2 in
        let size := Z.of_nat (length (scriptSig (vin tx !!! 0%nat))) in
        if (size <? minCbSize) || (100 <? size) then Some (DoS 100 "bad-cb-length")
        else
          let founderReward := getFounderPaymentAmount founder nHeight blockReward in
          if (startBlock founder <? nHeight) && negb (founderReward =? 0) &&
             negb (FounderPayeeValid founder (vout tx) nHeight blockReward)
          then Some (DoS 100 "bad-cb-founder-payment-not-found") else None
      else if existsb (fun i => outpoint_IsNull (prevout i)) (vin tx) then Some (DoS 10 "bad-txns-prevout-null")
      else None
  end.

(** ** Lemmas *)

(** The lock type and the lock value of a sequence number. *)
Lemma sequence_parts n :
  let v := Z.land n SEQUENCE_LOCKTIME_MASK in
  0 <= v < SEQUENCE_LOCKTIME_TYPE_FLAG /\
  Z.land n (Z.lor SEQUENCE_LOCKTIME_TYPE_FLAG SEQUENCE_LOCKTIME_MASK) =
    if Z.land n SEQUENCE_LOCKTIME_TYPE_FLAG =? 0 then v else SEQUENCE_LOCKTIME_TYPE_FLAG + v.
Proof.
  cbn zeta. set (T := SEQUENCE_LOCKTIME_TYPE_FLAG). set (M := SEQUENCE_LOCKTIME_MASK). split.
  { change M with (Z.ones 16). rewrite Z.land_ones by lia. pose proof (Z.mod_pos_bound n (2 ^ 16)). change T with 4194304. lia. }
  assert (Z.land n T = 0 \/ Z.land n T = T) as HT.
  { change T with (2 ^ 22). destruct (Z.testbit n 22) eqn:E; [right|left]; apply Z.bits_inj'; intros i Hi;
      rewrite Z.land_spec, ?Z.bits_0, Z.pow2_bits_eqb by lia; destruct (Z.eqb_spec 22 i) as [<-|];
      rewrite ?E, ?andb_false_r; done. }
  assert (Z.land n (Z.lor T M) = Z.land n T + Z.land n M) as ->.
  { rewrite Z.land_lor_distr_r, <- Z.add_lor_land. enough (Z.land (Z.land n T) (Z.land n M) = 0) by lia.
    destruct HT as [->| ->]; [done|]. rewrite Z.land_assoc, (Z.land_comm T n), <- Z.land_assoc.
    by change (Z.land T M) with 0; rewrite Z.land_0_r. }
  destruct HT as [->| ->]; [by rewrite Z.add_0_l|done].
Qed.

Lemma outputs_loop_None mc acc outs : 0 <= acc -> outputs_loop mc acc outs = None ->
  Forall (fun o => 0 <= nValue o) outs /\ value_out_loop acc outs = Ok (acc + total outs).
Proof.
  revert acc. induction outs as [|o outs IH]; intros acc Ha; cbn [outputs_loop value_out_loop].
  { intros _. split; [done|]. cbn. f_equal. lia. }
  assert (OLD_MAX_MONEY <= MAX_MONEY) as Hle by done.
  intros E. case_test_in E; [done|]. destruct (_ <? nValue o); [done|].
  destruct (MoneyRange (acc + nValue o) mc) eqn:Em; [|done]. cbn [negb] in E.
  assert (0 <= acc + nValue o <= MAX_MONEY) as Hr by (unfold MoneyRange in Em; destruct mc; bool_hyps; lia).
  destruct (IH (acc + nValue o)) as [Hf ->]; [lia|done|].
  split; [by constructor|]. change (total (o :: outs)) with (nValue o + total outs). unfold MoneyRange.
  rewrite !(proj2 (Z.leb_le _ _)) by lia. cbn. f_equal. lia.
Qed.

Lemma duplicate_input_false seen ins : duplicate_input seen ins = false ->
  NoDup (prevout <$> ins) /\ forall o, o ∈ (prevout <$> ins) -> o ∉ seen.
Proof.
  revert seen. induction ins as [|i ins IH]; intros seen; cbn [duplicate_input fmap list_fmap].
  { intros _. split; [constructor|]. intros o []%not_elem_of_nil. }
  case_bool_decide as Hi; [done|]. intros [Hn Hs]%IH. split.
  - constructor; [|done]. intros Hin. by apply (Hs _ Hin), list_elem_of_here.
  - intros o [->|Ho]%elem_of_cons; [done|]. intros Hseen. apply (Hs o Ho). by apply list_elem_of_further.
Qed.

Section inputs_laws.
Context {B : Type} `{CoinsViewLaws B}.
Implicit Types c : CCoinsViewCache B.

Definition coin_total (l : list Coin) : Z := foldr (fun x s => nValue (out x) + s) 0 l.
Definition mature (h : Z) (x : Coin) : Prop := fCoinBase x = true -> COINBASE_MATURITY <= h - coin_nHeight x.

Lemma have_inputs_loop_spec c ins : cache_ok c ->
  cache_ok (have_inputs_loop c ins).2 /\ forall o, cache_utxo (have_inputs_loop c ins).2 o = cache_utxo c o.
Proof.
  revert c. induction ins as [|i ins IH]; intros c Hc; cbn [have_inputs_loop]; [done|].
  destruct (HaveCoin_spec c (prevout i) Hc) as (_ & Hc1 & Hu1).
  destruct (HaveCoin c (prevout i)) as [[] c1]; cbn [fst snd] in *; [|done].
  destruct (IH c1 Hc1) as [? Hu]. split; [done|]. intros o. by rewrite Hu.
Qed.

Lemma HaveInputs_spec c tx : cache_ok c ->
  cache_ok (HaveInputs c tx).2 /\ forall o, cache_utxo (HaveInputs c tx).2 o = cache_utxo c o.
Proof. intros Hc. unfold HaveInputs. destruct (IsCoinBase tx); [done|by apply have_inputs_loop_spec]. Qed.

Lemma inputs_loop_spec c ins h mc acc r c' : cache_ok c -> inputs_loop c ins h mc acc = Ok (inr r, c') ->
  cache_ok c' /\ (forall o, cache_utxo c' o = cache_utxo c o) /\
  exists l, Forall2 (fun i x => cache_utxo c (prevout i) = Some x) ins l /\ Forall (mature h) l /\ r = acc + coin_total l.
Proof.
  revert c acc. induction ins as [|i ins IH]; intros c acc Hc; cbn [inputs_loop].
  { intros [= <- <-]. split_and!; [done..|]. exists []. split_and!; [constructor..|]. cbn. lia. }
  destruct (AccessCoin_spec c (prevout i) Hc) as (Hl & Hc1 & Hu1).
  destruct (AccessCoin c (prevout i)) as [x c1]. cbn [fst snd] in *. unfold live in Hl.
  destruct (IsSpent x); [done|]. cbn [negb cassert mbind result_bind].
  destruct (fCoinBase x && (h - coin_nHeight x <? COINBASE_MATURITY)) eqn:Em; [done|].
  destruct (_ || _); [done|]. intros E. apply IH in E as (Hc' & Hu' & l & Hf & Hm & ->); [|done].
  split; [done|]. split; [intros o; by rewrite Hu'|]. exists (x :: l). split_and!.
  - constructor; [done|]. eapply Forall2_impl; [done|]. cbn. intros j y. by rewrite Hu1.
  - constructor; [|done]. intros Hcb. rewrite Hcb in Em. cbn in Em. blia.
  - change (coin_total (x :: l)) with (nValue (out x) + coin_total l). lia.
Qed.

Lemma CheckTxInputs_spec c tx h mc fee c' : cache_ok c -> CheckTxInputs c tx h mc = Ok (inr fee, c') ->
  cache_ok c' /\ (forall o, cache_utxo c' o = cache_utxo c o) /\ 0 <= fee /\
  exists l v, Forall2 (fun i x => cache_utxo c (prevout i) = Some x) (vin tx) l /\ Forall (mature h) l /\
    GetValueOut tx = Ok v /\ coin_total l = v + fee.
Proof.
  intros Hc. unfold CheckTxInputs. destruct (HaveInputs_spec c tx Hc) as [Hc1 Hu1].
  destruct (HaveInputs c tx) as [[] c1]; cbn [fst snd negb] in *; [|done].
  intros ([r c2] & El & E)%result_bind_Ok. destruct r as [e|vi]; [done|].
  apply inputs_loop_spec in El as (Hc2 & Hu2 & l & Hf & Hm & ->); [|done].
  apply result_bind_Ok in E as (v & Hv & E). case_test_in E; [done|]. destruct (MoneyRange _ _); [|done].
  injection E as <- <-. split; [done|]. split; [intros o; by rewrite Hu2|]. split; [lia|]. exists l, v. split_and!; try done; [|lia].
  eapply Forall2_impl; [done|]. cbn. intros j y. by rewrite Hu1.
Qed.

End inputs_laws.

Lemma CheckTransaction_None f mx tip tx h R : CheckTransaction f mx tip tx h R = None ->
  NoDup (prevout <$> vin tx) /\ Forall (fun o => 0 <= nValue o) (vout tx) /\ GetValueOut tx = Ok (total (vout tx)).
Proof.
  unfold CheckTransaction. cbn zeta. do 4 (case_match; [done|]).
  destruct (outputs_loop _ _ _) eqn:Eo; [done|]. destruct (duplicate_input _ _) eqn:Ed; [done|]. intros _.
  apply outputs_loop_None in Eo as [Hp Hv]; [|done]. by apply duplicate_input_false in Ed as [? _].
Qed.

(** C10: The value rules of a spend.  A transaction that is not a coinbase, passes
    [CheckTransaction] and [CheckTxInputs], and whose id is new, can be connected:
    [UpdateCoins] succeeds and does to the set of coins what connecting the
    transaction means.  The coins that it spends are the unspent coins of its
    inputs, every coinbase among them is at least 100 blocks deep, and their values
    add up to the values of the outputs and the fee that was reported, which is not
    negative. *)
Theorem checked_tx_connects {B : Type} `{CoinsViewLaws B} (c c1 : CCoinsViewCache B) (founder : FounderPayment)
    (nMaxCash : Z) (tip : option CBlockIndex) (txid : uint256) (tx : CTransaction) (h h0 R : Z) (mc : bool) (fee : Z) :
  cache_ok c -> IsCoinBase tx = false -> (forall o, op_hash o = txid -> cache_utxo c o = None) ->
  CheckTransaction founder nMaxCash tip tx h0 R = None -> CheckTxInputs c tx h mc = Ok (inr fee, c1) ->
  exists coins c2, UpdateCoins txid tx c1 h = Ok (coins, c2) /\
    (forall o, cache_utxo c2 o = connect_spec txid tx h (cache_utxo c) o) /\
    Forall2 (fun i x => cache_utxo c (prevout i) = Some x) (vin tx) coins /\
    Forall (mature h) coins /\ coin_total coins = total (vout tx) + fee /\ 0 <= fee.
Proof.
  intros Hc Hcb Hnew (Hd & Hp & Hv)%CheckTransaction_None (Hc1 & Hu1 & Hfee & l & v & Hf & Hm & Ev & Hsum)%CheckTxInputs_spec; [|done].
  assert (connectable txid tx (cache_utxo c1)) as Hconn.
  { split.
    - eapply Forall_impl; [done|]. cbn. lia.
    - intros o Ho. rewrite Hu1. by apply Hnew.
    - done.
    - intros _ o (i & -> & Hi)%list_elem_of_fmap. rewrite Hu1.
      apply list_elem_of_lookup in Hi as [n Hi]. destruct (Forall2_lookup_l _ _ _ _ _ Hf Hi) as (x & _ & ->). done. }
  destruct (UpdateCoins_spec c1 txid tx h Hc1 Hconn) as (coins & c2 & E & Hc2 & Hcoins & Hu2).
  assert (coins = l) as ->.
  { specialize (Hcoins Hcb). clear -Hcoins Hf Hu1. revert l Hf. induction Hcoins as [|i x ins coins Hx _ IH];
      intros l Hf; inversion Hf as [|? y ? ? Hy Hf']; subst; [done|]. rewrite Hu1 in Hx. f_equal; [congruence|by apply IH]. }
  exists l, c2. split_and!; [done| |done..| |done].
  - intros o. rewrite Hu2. by apply connect_spec_ext.
  - rewrite Hsum. congruence.
Qed.

(** ** Lock times in scripts *)

(** An absolute lock time in a script holds the transaction back.  If
    OP_CHECKLOCKTIMEVERIFY succeeds on the lock time [n] at an input of the
    transaction, and [IsFinalTx] lets the transaction into a block, then [n] is 0 or
    lies before the height of the block (below the threshold) or its time. *)
Theorem cltv_enforced (Hash : list Z -> uint256) (K : PubKeyCrypto) (tx : CTransaction) (nIn : nat) (flags : Z)
    (minimal : bool) (top : valtype) (s : list valtype) (n nBlockHeight nBlockTime : Z) :
  (nIn < length (vin tx))%nat -> has flags SCRIPT_VERIFY_CHECKLOCKTIMEVERIFY = true ->
  num minimal 5 top = Success n ->
  op_checklocktime (TransactionSignatureChecker Hash K tx nIn) flags minimal (top :: s) = Success tt ->
  IsFinalTx tx nBlockHeight nBlockTime = true ->
  n = 0 \/ n < (if n <? LOCKTIME_THRESHOLD then nBlockHeight else nBlockTime).
Proof.
  intros Hi Hf Hn. unfold op_checklocktime. rewrite Hf, Hn. cbn [negb mbind outcome_bind].
  case_test; [done|]. cbn [TransactionSignatureChecker CheckLockTime]. unfold tx_CheckLockTime.
  destruct (_ || _) eqn:Et; [|done]. cbn [negb]. destruct (Z.ltb_spec (nLockTime tx) n); [done|].
  destruct (Z.eqb_spec SEQUENCE_FINAL (nSequence (vin tx !!! nIn))) as [|Hseq]; [done|]. intros _.
  unfold IsFinalTx. destruct (Z.eqb_spec (nLockTime tx) 0); [left; lia|].
  destruct (Z.ltb_spec (nLockTime tx) (if nLockTime tx <? LOCKTIME_THRESHOLD then nBlockHeight else nBlockTime)) as [Hlt|].
  - intros _. right. apply orb_prop in Et as [Et|Et]; bool_hyps;
      repeat (case_test_in Hlt || case_test); lia.
  - intros Hall. rewrite forallb_forall in Hall. destruct (lookup_lt_is_Some_2 _ _ Hi) as [i Hl].
    rewrite (list_lookup_total_correct _ _ _ Hl) in Hseq. apply list_elem_of_lookup_2, list_elem_of_In in Hl.
    specialize (Hall _ Hl). blia.
Qed.

(** The last block or time at which one input is still locked. *)
Definition input_locked (m : BlockMap) (block : ptr) (txin : CTxIn) (nCoinHeight minHeight minTime : Z) : Prop :=
  let lock := Z.land (nSequence txin) SEQUENCE_LOCKTIME_MASK in
  if Z.land (nSequence txin) SEQUENCE_LOCKTIME_TYPE_FLAG =? 0
  then nCoinHeight + lock - 1 <= minHeight
  else exists a t, GetAncestor m block (Z.max (nCoinHeight - 1) 0) = Ok (Some a) /\ GetMedianTimePast m a = Ok t /\
       t + Z.shiftl lock SEQUENCE_LOCKTIME_GRANULARITY - 1 <= minTime.

Lemma sequence_loop_bound m block ins hs mh mt hs' mh' mt' :
  sequence_loop m block ins hs mh mt = Ok (hs', (mh', mt')) ->
  mh <= mh' /\ mt <= mt' /\ forall k txin ch, ins !! k = Some txin -> hs !! k = Some ch ->
    Z.land (nSequence txin) SEQUENCE_LOCKTIME_DISABLE_FLAG = 0 -> input_locked m block txin ch mh' mt'.
Proof.
  revert hs hs' mh mt mh' mt'. induction ins as [|i ins IH]; intros hs hs' mh mt mh' mt'; cbn [sequence_loop].
  { intros [= <- <- <-]. done. }
  destruct hs as [|h hs]; [by intros [= <- <- <-]|].
  destruct (Z.eqb_spec (Z.land (nSequence i) SEQUENCE_LOCKTIME_DISABLE_FLAG) 0) as [Hd|Hd]; cbn [negb].
  2: { intros ([hs1 [? ?]] & (? & ? & Hr)%IH & [= <- <- <-])%result_bind_Ok. split_and!; [done..|].
       intros [|k] txin ch; cbn; [by intros [= <-]|apply Hr]. }
  destruct (Z.eqb_spec (Z.land (nSequence i) SEQUENCE_LOCKTIME_TYPE_FLAG) 0) as [Ht|Ht]; cbn [negb].
  - intros ([hs1 [? ?]] & (? & ? & Hr)%IH & [= <- <- <-])%result_bind_Ok. split_and!; [lia..|].
    intros [|k] txin ch; cbn [lookup list_lookup]; [|apply Hr]. intros [= <-] [= <-] _. unfold input_locked. rewrite Ht. cbn. lia.
  - intros (anc & Ea & (a & Hanc & (t & Emt & ([hs1 [? ?]] & (? & ? & Hr)%IH & [= <- <- <-])%result_bind_Ok)%result_bind_Ok)%result_bind_Ok)%result_bind_Ok.
    split_and!; [lia..|]. intros [|k] txin ch; cbn [lookup list_lookup]; [|apply Hr]. intros [= <-] [= <-] _.
    unfold input_locked. rewrite (proj2 (Z.eqb_neq _ _)) by done. destruct anc as [a'|]; [|done]. injection Hanc as ->.
    exists a, t. split_and!; [done..|]. lia.
Qed.

(** A relative lock time in a script holds the transaction back.  If
    OP_CHECKSEQUENCEVERIFY succeeds on a lock [n] at an input of the transaction and
    [SequenceLocks] lets the transaction into a block, then that block is as far
    above the coin that the input spends as [n] says: in blocks, or in the median
    time past of the block before each of the two, in units of 512 seconds. *)
Theorem csv_enforced (Hash : list Z -> uint256) (K : PubKeyCrypto) (tx : CTransaction) (nIn : nat) (flags : Z)
    (minimal : bool) (top : valtype) (s : list valtype) (n : Z) (m : BlockMap) (block : ptr) (idx : CBlockIndex)
    (prevHeights : list Z) (nCoinHeight : Z) :
  has flags SCRIPT_VERIFY_CHECKSEQUENCEVERIFY = true -> num minimal 5 top = Success n ->
  Z.land n SEQUENCE_LOCKTIME_DISABLE_FLAG = 0 ->
  op_checksequence (TransactionSignatureChecker Hash K tx nIn) flags minimal (top :: s) = Success tt ->
  prevHeights !! nIn = Some nCoinHeight -> m !! block = Some idx ->
  SequenceLocks m tx LOCKTIME_VERIFY_SEQUENCE prevHeights block = Ok true ->
  let lock := Z.land n SEQUENCE_LOCKTIME_MASK in
  if Z.land n SEQUENCE_LOCKTIME_TYPE_FLAG =? 0 then nCoinHeight + lock <= nHeight idx
  else exists prev a t tc, pprev idx = Some prev /\ GetMedianTimePast m prev = Ok t /\
    GetAncestor m block (Z.max (nCoinHeight - 1) 0) = Ok (Some a) /\ GetMedianTimePast m a = Ok tc /\
    tc + 512 * lock <= t.
Proof.
  intros Hf Hn Hdis Hop Hp Hm Hlocks. cbn zeta.
  apply result_bind_Ok in Hlocks as ([hs [mh mt]] & Hcalc & Hev).
  apply result_bind_Ok in Hcalc as ([] & Hlen & Hcalc).
  destruct (Nat.eqb_spec (length prevHeights) (length (vin tx))) as [El|]; [|done]. clear Hlen.
  destruct (lookup_lt_is_Some_2 (vin tx) nIn) as [i Hi]; [rewrite <- El; by apply lookup_lt_is_Some_1|].
  unfold op_checksequence in Hop. rewrite Hf, Hn in Hop. cbn [negb mbind outcome_bind] in Hop.
  destruct (n <? 0); [done|]. rewrite Hdis in Hop. cbn [Z.eqb negb TransactionSignatureChecker CheckSequence] in Hop. unfold tx_CheckSequence in Hop.
  rewrite (list_lookup_total_correct _ _ _ Hi) in Hop.
  destruct (Z.ltb_spec (u32 (tx_nVersion tx)) 2) as [|Hver]; [done|].
  destruct (Z.eqb_spec (Z.land (nSequence i) SEQUENCE_LOCKTIME_DISABLE_FLAG) 0) as [Hd|]; [|done]. cbn [negb] in Hop.
  destruct (sequence_parts n) as [Hv1 Hp1]. destruct (sequence_parts (nSequence i)) as [Hv2 Hp2]. rewrite Hp1, Hp2 in Hop.
  rewrite (proj2 (Z.leb_le _ _) Hver) in Hcalc. cbn [andb negb LOCKTIME_VERIFY_SEQUENCE Z.shiftl Z.land Z.eqb] in Hcalc.
  apply sequence_loop_bound in Hcalc as (_ & _ & Hr). specialize (Hr nIn i nCoinHeight Hi Hp Hd). unfold input_locked in Hr.
  unfold EvaluateSequenceLocks in Hev. rewrite Hm in Hev. cbn [deref mbind result_bind] in Hev.
  destruct (pprev idx) as [prev|]; [|done]. apply result_bind_Ok in Hev as (t & Et & [= Hev]). cbn [fst snd] in Hev.
  bool_hyps.
  destruct (Z.land n SEQUENCE_LOCKTIME_TYPE_FLAG =? 0), (Z.land (nSequence i) SEQUENCE_LOCKTIME_TYPE_FLAG =? 0);
    repeat case_test_in Hop; cbn in Hop; try done; try lia.
  destruct Hr as (a & tc & Ea & Etc & Hle). exists prev, a, t, tc. split_and!; [done..|].
  unfold SEQUENCE_LOCKTIME_GRANULARITY in Hle. rewrite Z.shiftl_mul_pow2 in Hle by lia. lia.
Qed.

(** ** Instances *)

Definition spend_tx (seq lock : Z) : CTransaction := mkTx 2 0 [mkTxIn (sample_point 0) [] seq] [txout 4 [OP_DUP]] lock [].
Definition no_keys : PubKeyCrypto := mkPubKeys (fun _ => false) (fun _ _ _ => false).

Lemma checked_tx_connects_witness :
  let full := fun ops : list DbOp => (1 <? length ops)%nat in
  let _ := db_view full in let _ := db_view_laws full in
  let c := mkCache sample_db (repeat 2 32) ∅ in
  exists c1 coins c2, CheckTxInputs c (spend_tx 0 0) 9 true = Ok (inr 1, c1) /\
    UpdateCoins (repeat 9 32) (spend_tx 0 0) c1 9 = Ok (coins, c2) /\ coin_total coins = 4 + 1.
Proof.
  intros full V L c.
  destruct (CheckTxInputs c (spend_tx 0 0) 9 true) as [[r c1]|] eqn:E; [|vm_compute in E; discriminate].
  assert (r = inr 1) as -> by (vm_compute in E; congruence).
  destruct (@checked_tx_connects CCoinsViewDB (db_view full) (db_view_laws full) c c1 (nFounderPayment (MainPayments [])) 0 None
    (repeat 9 32) (spend_tx 0 0) 9 0 0 true 1) as (coins & c2 & Hu & _ & _ & _ & Hsum & _).
  - split; [exact sample_db_ok|]. intros o e He. cbn [c cacheCoins] in He. rewrite lookup_empty in He. discriminate.
  - reflexivity.
  - intros o Ho. change (cache_utxo c o) with (db_coins sample_db !! o). cbn [sample_db db_coins].
    apply lookup_singleton_None. intros <-. discriminate.
  - vm_compute. reflexivity.
  - exact E.
  - exists c1, coins, c2. split; [reflexivity|]. split; [exact Hu|]. exact Hsum.
Defined.

Lemma cltv_enforced_witness : IsFinalTx (spend_tx 0 50) 60 0 = true /\ (40 = 0 \/ 40 < 60).
Proof.
  split; [reflexivity|].
  apply (cltv_enforced (fun _ => []) no_keys (spend_tx 0 50) 0 SCRIPT_VERIFY_CHECKLOCKTIMEVERIFY true [40] [] 40 60 0);
    [apply Nat.lt_0_succ|reflexivity..].
Defined.

(** A coin of block 3 with a lock of 5 blocks, spent in block 8. *)
Lemma csv_enforced_witness : SequenceLocks sample_index (spend_tx 5 0) LOCKTIME_VERIFY_SEQUENCE [3] [8] = Ok true /\ 3 + 5 <= 8.
Proof.
  assert (SequenceLocks sample_index (spend_tx 5 0) LOCKTIME_VERIFY_SEQUENCE [3] [8] = Ok true) as E by (vm_compute; reflexivity).
  split; [exact E|].
  destruct (sample_index !! [8]) as [idx|] eqn:Ei; [|vm_compute in Ei; discriminate].
  assert (nHeight idx = 8) as <- by (vm_compute in Ei; injection Ei as <-; reflexivity).
  apply (csv_enforced (fun _ => []) no_keys (spend_tx 5 0) 0 SCRIPT_VERIFY_CHECKSEQUENCEVERIFY true [5] [] 5 sample_index [8]
    idx [3] 3); first [reflexivity | exact E | exact Ei].
Defined.
