(* ===== verification/Compressor.v ===== *)
(** * Compressed coins and undo records
    (src/src/compressor.h, compressor.cpp, undo.h, Coin of coins.h)

    How outputs are stored in the coin database and in the undo files.  Writers
    return a [result] because [WriteVarInt] works in a buffer of fixed size.  The
    curve operations on public keys are the fields of [PubKeyOps]. *)

From Stdlib Require Import ZArith Lia.
From stdpp Require Import base tactics numbers option list.
From S2P Require Import Prelude ArithUint256 Compact Block Serialize Transaction Script Coins.

(** ** Amounts *)

(** [while (((n % 10) == 0) && e < 9) { n /= 10; e++; }]; [k] is [9 - e]. *)
Fixpoint strip_zeros (k : nat) (n e : Z) : Z * Z :=
  match k with
  | O => (n, e)
  | S k => if n mod 10 =? 0 then strip_zeros k (n / 10) (e + 1) else (n, e)
  end.

Definition CompressAmount (n : Z) : result Z :=
  if n =? 0 then Ok 0
  else
    let '(n, e) := strip_zeros 9 n 0 in
    if e <? 9 then
      let d := n mod 10 in
      _ ← cassert ((1 <=? d) && (d <=? 9));
      let n := n / 10 in
      Ok (u64 (1 + (n * 9 + d - 1) * 10 + e))
    else Ok (u64 (1 + (n - 1) * 10 + 9)).

(** [while (e) { n *= 10; e--; }] *)
Fixpoint scale (e : nat) (n : Z) : Z :=
  match e with O => n | S e => scale e (u64 (n * 10)) end.

Definition DecompressAmount (x : Z) : Z :=
  if x =? 0 then 0
  else
    let x := x - 1 in
    let e := x mod 10 in
    let x := x / 10 in
    let n := if e <? 9 then u64 (x / 9 * 10 + (x mod 9 + 1)) else u64 (x + 1) in
    scale (Z.to_nat e) n.

(** ** Scripts *)

Record PubKeyOps := mkPubKeyOps {
  pk_IsFullyValid : list Z -> bool;
  pk_Decompress : list Z -> option (list Z)
}.

Definition nSpecialScripts : Z := 6.

Definition at_byte (s : CScript) (i : nat) (c : Z) : bool := s !!! i =? c.
Definition sub (s : list Z) (first last : nat) : list Z := take (last - first) (drop first s).

Definition IsToKeyID (s : CScript) : option (list Z) :=
  if (length s =? 25)%nat && at_byte s 0 OP_DUP && at_byte s 1 OP_HASH160 && at_byte s 2 20 &&
     at_byte s 23 OP_EQUALVERIFY && at_byte s 24 OP_CHECKSIG
  then Some (sub s 3 23) else None.

Definition IsToScriptID (s : CScript) : option (list Z) :=
  if (length s =? 23)%nat && at_byte s 0 OP_HASH160 && at_byte s 1 20 && at_byte s 22 OP_EQUAL
  then Some (sub s 2 22) else None.

Definition IsToPubKey (K : PubKeyOps) (s : CScript) : option (list Z) :=
  if (length s =? 35)%nat && at_byte s 0 33 && at_byte s 34 OP_CHECKSIG && (at_byte s 1 0x02 || at_byte s 1 0x03)
  then Some (sub s 1 34)
  else if (length s =? 67)%nat && at_byte s 0 65 && at_byte s 66 OP_CHECKSIG && at_byte s 1 0x04
  then let pubkey := sub s 1 66 in if pk_IsFullyValid K pubkey then Some pubkey else None
  else None.

Definition Compress (K : PubKeyOps) (s : CScript) : option (list Z) :=
  match IsToKeyID s with
  | Some keyID => Some (0x00 :: keyID)
  | None =>
      match IsToScriptID s with
      | Some scriptID => Some (0x01 :: scriptID)
      | None =>
          match IsToPubKey K s with
          | Some pubkey =>
              if (pubkey !!! 0%nat =? 0x02) || (pubkey !!! 0%nat =? 0x03) then Some (pubkey !!! 0%nat :: sub pubkey 1 33)
              else if pubkey !!! 0%nat =? 0x04
              then Some (Z.lor 0x04 (Z.land (pubkey !!! 64%nat) 0x01) :: sub pubkey 1 33)
              else None
          | None => None
          end
      end
  end.

Definition GetSpecialSize (nSize : Z) : Z :=
  if (nSize =? 0) || (nSize =? 1) then 20
  else if (nSize =? 2) || (nSize =? 3) || (nSize =? 4) || (nSize =? 5) then 32
  else 0.

(** [Decompress]: the new script where the result is [true]. *)
Definition Decompress (K : PubKeyOps) (nSize : Z) (input : list Z) : result (option CScript) :=
  if nSize =? 0x00 then Ok (Some ([OP_DUP; OP_HASH160; 20] ++ input ++ [OP_EQUALVERIFY; OP_CHECKSIG]))
  else if nSize =? 0x01 then Ok (Some ([OP_HASH160; 20] ++ input ++ [OP_EQUAL]))
  else if (nSize =? 0x02) || (nSize =? 0x03) then Ok (Some ([33; nSize] ++ input ++ [OP_CHECKSIG]))
  else if (nSize =? 0x04) || (nSize =? 0x05) then
    match pk_Decompress K ((nSize - 2) :: input) with
    | None => Ok None
    | Some pubkey =>
        _ ← cassert (length pubkey =? 65)%nat;
        Ok (Some ([65] ++ pubkey ++ [OP_CHECKSIG]))
    end
  else Ok None.

(** [CScriptCompressor::Serialize] *)
Definition SerializeScript (K : PubKeyOps) (s : CScript) : result (list Z) :=
  match Compress K s with
  | Some compr => Ok compr
  | None =>
      b ← WriteVarInt 32 (u32 (Z.of_nat (length s) + nSpecialScripts));
      Ok (b ++ s)
  end.

(** [CScriptCompressor::Unserialize] into [script]. *)
Definition UnserializeScript (K : PubKeyOps) (script : CScript) (s : list Z) : result (CScript * list Z) :=
  '(nSize, s) ← ReadVarInt (2 ^ 32 - 1) 0 s;
  if nSize <? nSpecialScripts then
    '(vch, s) ← read_bytes (Z.to_nat (GetSpecialSize nSize)) s;
    r ← Decompress K nSize vch;
    Ok (default script r, s)
  else
    let nSize := nSize - nSpecialScripts in
    if MAX_SCRIPT_SIZE <? nSize then
      '(_, s) ← read_bytes (Z.to_nat nSize) s;
      Ok (script ++ [OP_RETURN], s)
    else read_bytes (Z.to_nat nSize) s.

(** ** Outputs, coins and undo records *)

(** [CTxOutCompressor::SerializationOp], writing. *)
Definition SerializeTxOut (K : PubKeyOps) (o : CTxOut) : result (list Z) :=
  nVal ← CompressAmount (u64 (nValue o));
  a ← WriteVarInt 64 nVal;
  b ← SerializeScript K (scriptPubKey o);
  Ok (a ++ b).

(** The same, reading into a fresh [CTxOut]. *)
Definition UnserializeTxOut (K : PubKeyOps) (s : list Z) : result (CTxOut * list Z) :=
  '(nVal, s) ← ReadVarInt (2 ^ 64 - 1) 0 s;
  '(script, s) ← UnserializeScript K [] s;
  Ok (txout (i64 (DecompressAmount nVal)) script, s).

Definition bool_bit (b : bool) : Z := if b then 1 else 0.

(** [Coin::Serialize] and [Coin::Unserialize] *)
Definition SerializeCoin (K : PubKeyOps) (c : Coin) : result (list Z) :=
  _ ← cassert (negb (IsSpent c));
  a ← WriteVarInt 32 (u32 (coin_nHeight c * 2 + bool_bit (fCoinBase c)));
  b ← SerializeTxOut K (out c);
  Ok (a ++ b).

Definition UnserializeCoin (K : PubKeyOps) (s : list Z) : result (Coin * list Z) :=
  '(code, s) ← ReadVarInt (2 ^ 32 - 1) 0 s;
  '(o, s) ← UnserializeTxOut K s;
  Ok (mkCoin o (negb (Z.land code 1 =? 0)) (Z.shiftr code 1), s).

(** [TxInUndoSerializer] and [TxInUndoDeserializer] *)
Definition SerializeTxInUndo (K : PubKeyOps) (c : Coin) : result (list Z) :=
  a ← WriteVarInt 32 (coin_nHeight c * 2 + bool_bit (fCoinBase c));
  let dummy := if 0 <? coin_nHeight c then ser_writedata8 0 else [] in
  b ← SerializeTxOut K (out c);
  Ok (a ++ dummy ++ b).

Definition UnserializeTxInUndo (K : PubKeyOps) (s : list Z) : result (Coin * list Z) :=
  '(nCode, s) ← ReadVarInt (2 ^ 32 - 1) 0 s;
  let h := nCode / 2 in
  '(_, s) ← (if 0 <? h then ReadVarInt (2 ^ 31 - 1) 0 s else Ok (0, s));
  '(o, s) ← UnserializeTxOut K s;
  Ok (mkCoin o (negb (Z.land nCode 1 =? 0)) h, s).

(** [MaxBlockSize(true) / GetSerializeSize(CTxIn())]: an empty input has 41 bytes. *)
Definition MAX_INPUTS_PER_BLOCK : Z := 2000000 / 41.

(** The loops over the inputs of a transaction. *)
Fixpoint ser_all {A} (f : A -> result (list Z)) (l : list A) : result (list Z) :=
  match l with
  | [] => Ok []
  | a :: l => b ← f a; bs ← ser_all f l; Ok (b ++ bs)
  end.
Fixpoint unser_all {A} (f : list Z -> result (A * list Z)) (n : nat) (s : list Z) : result (list A * list Z) :=
  match n with
  | O => Ok ([], s)
  | S n => '(a, s) ← f s; '(l, s) ← unser_all f n s; Ok (a :: l, s)
  end.

(** [CTxUndo] *)
Definition SerializeTxUndo (K : PubKeyOps) (vprevout : list Coin) : result (list Z) :=
  b ← ser_all (SerializeTxInUndo K) vprevout;
  Ok (WriteCompactSize (Z.of_nat (length vprevout)) ++ b).

Definition UnserializeTxUndo (K : PubKeyOps) (s : list Z) : result (list Coin * list Z) :=
  '(count, s) ← ReadCompactSize s;
  if MAX_INPUTS_PER_BLOCK <? count then Err IosFailure
  else unser_all (UnserializeTxInUndo K) (Z.to_nat count) s.

(** [CBlockUndo]; a vector is read in chunks, which is the same as reading its
    elements one after the other ([Serialize.read_chunks_eq]). *)
Definition SerializeBlockUndo (K : PubKeyOps) (vtxundo : list (list Coin)) : result (list Z) :=
  b ← ser_all (SerializeTxUndo K) vtxundo;
  Ok (WriteCompactSize (Z.of_nat (length vtxundo)) ++ b).

Definition UnserializeBlockUndo (K : PubKeyOps) (s : list Z) : result (list (list Coin) * list Z) :=
  '(n, s) ← ReadCompactSize s;
  unser_all (UnserializeTxUndo K) (Z.to_nat n) s.

(** ** Lemmas: amounts *)

Lemma strip_zeros_spec k n e n' e' : 0 < n -> strip_zeros k n e = (n', e') ->
  0 < n' /\ e <= e' <= e + Z.of_nat k /\ n = n' * 10 ^ (e' - e) /\ (e' < e + Z.of_nat k -> n' mod 10 <> 0).
Proof.
  revert n e. induction k as [|k IH]; intros n e Hn; cbn [strip_zeros].
  { intros [= <- <-]. rewrite Z.sub_diag. lia. }
  destruct (Z.eqb_spec (n mod 10) 0) as [Hm|Hm].
  - pose proof (Z.div_mod n 10 ltac:(lia)). intros E. apply IH in E as (H1 & H2 & H3 & H4); [|lia].
    replace (e' - e) with (1 + (e' - (e + 1))) by lia. rewrite Z.pow_add_r by lia. split_and!; [lia..| |lia].
    rewrite Z.mul_assoc, (Z.mul_comm n' (10 ^ 1)), <- Z.mul_assoc, <- H3. lia.
  - intros [= <- <-]. rewrite Z.sub_diag. lia.
Qed.

(** The compressed amount before the wrap-around to 64 bits. *)
Definition compressed_value (n : Z) : Z :=
  if n =? 0 then 0
  else let '(n, e) := strip_zeros 9 n 0 in
       if e <? 9 then 1 + (n / 10 * 9 + n mod 10 - 1) * 10 + e else 1 + (n - 1) * 10 + 9.

Lemma CompressAmount_value n : 0 <= n -> CompressAmount n = Ok (u64 (compressed_value n)) /\ 0 <= compressed_value n <= 9 * n.
Proof.
  intros Hn. unfold CompressAmount, compressed_value. destruct (Z.eqb_spec n 0) as [->|Hz]; [done|].
  destruct (strip_zeros 9 n 0) as [n' e] eqn:E. apply strip_zeros_spec in E as (H1 & H2 & H3 & H4); [|lia].
  rewrite Z.sub_0_r in H3. pose proof (Z.div_mod n' 10 ltac:(lia)). pose proof (Z.mod_pos_bound n' 10 ltac:(lia)).
  assert (n' * (9 * e + 1) <= n) as Hle.
  { rewrite H3. apply Z.mul_le_mono_nonneg_l; [lia|]. clear -H2. assert (e = 0 \/ e = 1 \/ e = 2 \/ e = 3 \/ e = 4 \/ e = 5 \/ e = 6 \/ e = 7 \/ e = 8 \/ e = 9) as Hc by lia.
    repeat destruct Hc as [->|Hc]; [..|subst e]; cbn; lia. }
  destruct (Z.ltb_spec e 9).
  - rewrite !(proj2 (Z.leb_le _ _)) by lia. cbn [andb cassert mbind result_bind]. split; [done|]. nia.
  - split; [done|]. nia.
Qed.

Lemma scale_exact e n : 0 <= n -> n * 10 ^ Z.of_nat e < 2 ^ 64 -> scale e n = n * 10 ^ Z.of_nat e.
Proof.
  revert n. induction e as [|e IH]; intros n Hn Hb; cbn [scale]; [rewrite Z.pow_0_r; lia|].
  rewrite Nat2Z.inj_succ, Z.pow_succ_r in Hb |- * by lia.
  assert (1 <= 10 ^ Z.of_nat e) by (pose proof (Z.pow_pos_nonneg 10 (Z.of_nat e)); lia).
  rewrite u64_small by (unfold is_u64; nia). rewrite IH by nia. lia.
Qed.

Lemma DecompressAmount_value n : 0 <= n < 2 ^ 64 -> DecompressAmount (compressed_value n) = n.
Proof.
  intros Hn. unfold compressed_value. destruct (Z.eqb_spec n 0) as [->|Hz]; [done|].
  destruct (strip_zeros 9 n 0) as [n' e] eqn:E. apply strip_zeros_spec in E as (H1 & H2 & H3 & H4); [|lia].
  rewrite Z.sub_0_r in H3. pose proof (Z.div_mod n' 10 ltac:(lia)). pose proof (Z.mod_pos_bound n' 10 ltac:(lia)).
  assert (1 <= 10 ^ e) by (pose proof (Z.pow_pos_nonneg 10 e); lia). assert (n' <= n) by nia.
  unfold DecompressAmount. destruct (Z.ltb_spec e 9) as [He|He].
  - assert (n' mod 10 <> 0) as Hd by (apply H4; lia).
    rewrite (proj2 (Z.eqb_neq _ _)) by lia.
    set (y := n' / 10 * 9 + n' mod 10 - 1). replace (1 + y * 10 + e - 1) with (e + y * 10) by lia.
    rewrite Z.mod_add, Z.div_add by lia. rewrite (Z.mod_small e), (Z.div_small e), Z.add_0_l by lia.
    rewrite (proj2 (Z.ltb_lt _ _)) by done. unfold y. replace (n' / 10 * 9 + n' mod 10 - 1) with (n' mod 10 - 1 + n' / 10 * 9) by lia.
    rewrite Z.mod_add, Z.div_add by lia. rewrite (Z.mod_small (n' mod 10 - 1)), (Z.div_small (n' mod 10 - 1)) by lia.
    replace ((0 + n' / 10) * 10 + (n' mod 10 - 1 + 1)) with n' by lia. rewrite u64_small by (unfold is_u64; lia).
    rewrite scale_exact; rewrite ?Z2Nat.id by lia; lia.
  - assert (e = 9) as -> by lia. rewrite (proj2 (Z.eqb_neq _ _)) by lia.
    replace (1 + (n' - 1) * 10 + 9 - 1) with (9 + (n' - 1) * 10) by lia. rewrite Z.mod_add, Z.div_add by lia.
    change (9 mod 10) with 9. change (9 / 10) with 0. change (9 <? 9) with false. cbn iota.
    replace (0 + (n' - 1) + 1) with n' by lia. rewrite u64_small by (unfold is_u64; lia).
    rewrite scale_exact; rewrite ?Z2Nat.id by lia; lia.
Qed.

(** A trailing zero makes room enough for every amount in range. *)
Lemma compressed_value_tens n : 0 <= n <= MAX_MONEY -> n mod 10 = 0 -> 0 <= compressed_value n < 2 ^ 64.
Proof.
  intros Hn Hm. change MAX_MONEY with 2100000000000000000 in Hn. unfold compressed_value.
  destruct (Z.eqb_spec n 0) as [->|Hz]; [lia|]. change (strip_zeros 9 n 0) with (if n mod 10 =? 0 then strip_zeros 8 (n / 10) 1 else (n, 0)).
  pose proof (Z.div_mod n 10 ltac:(lia)). rewrite Hm. cbn [Z.eqb]. destruct (strip_zeros 8 (n / 10) 1) as [n' e] eqn:E.
  apply strip_zeros_spec in E as (H1 & H2 & H3 & _); [|lia].
  assert (1 <= 10 ^ (e - 1)) by (pose proof (Z.pow_pos_nonneg 10 (e - 1)); lia). assert (n' <= n / 10) by nia.
  pose proof (Z.div_mod n' 10 ltac:(lia)). pose proof (Z.mod_pos_bound n' 10 ltac:(lia)). case_test; lia.
Qed.

(** The largest amount whose compression always fits in 64 bits. *)
Definition MAX_COMPRESSIBLE : Z := (2 ^ 64 - 1) / 9.

Lemma amount_roundtrip n : 0 <= n <= MAX_COMPRESSIBLE ->
  exists x, CompressAmount n = Ok x /\ 0 <= x < 2 ^ 64 /\ DecompressAmount x = n.
Proof.
  intros Hn. change MAX_COMPRESSIBLE with 2049638230412172401 in Hn.
  destruct (CompressAmount_value n ltac:(lia)) as [E Hv]. exists (compressed_value n).
  rewrite E, u64_small by (unfold is_u64; lia). split_and!; [done|lia|lia|]. apply DecompressAmount_value. lia.
Qed.

(** ** Lemmas: codecs *)

(** [unser] reads back what [ser] writes for the values that satisfy [ok], up to
    the image [img] of what is stored, and leaves the rest of the stream. *)
Definition codec {A B} (ok : A -> Prop) (img : A -> B) (ser : A -> result (list Z))
    (unser : list Z -> result (B * list Z)) : Prop :=
  forall a, ok a -> exists b, ser a = Ok b /\ forall s, unser (b ++ s) = Ok (img a, s).

Lemma varint_codec w max n : 7 <= w -> 0 <= n < 2 ^ w -> n <= max ->
  exists b, WriteVarInt w n = Ok b /\ forall s, ReadVarInt max 0 (b ++ s) = Ok (n, s).
Proof.
  intros Hw Hn Hm. destruct (varint_cells_enough w Hw) as (k & Hk & Hwk).
  assert (2 ^ w <= 2 ^ (7 * Z.of_nat (S k))) by (apply Z.pow_le_mono_r; lia).
  unfold WriteVarInt. rewrite Hk, varint_cells_enc by (lia || auto). rewrite app_nil_r.
  eexists. split; [done|]. intros s. apply ReadVarInt_enc; [lia|done].
Qed.

Lemma codec_all {A B} ok (img : A -> B) ser unser : codec ok img ser unser ->
  forall l, Forall ok l -> exists b, ser_all ser l = Ok b /\ forall s, unser_all unser (length l) (b ++ s) = Ok (map img l, s).
Proof.
  intros Hc l Hl. induction Hl as [|a l Ha Hl (bs & Es & Er)]; [by exists []|].
  destruct (Hc a Ha) as (b & Ea & Eb). exists (b ++ bs). cbn [ser_all unser_all length map].
  rewrite Ea. cbn [mbind result_bind]. rewrite Es. split; [done|]. intros s.
  rewrite <- app_assoc, Eb. cbn [mbind result_bind]. by rewrite Er.
Qed.

(** A vector: its size, then its elements. *)
Lemma codec_vector {A B} ok (img : A -> B) ser unser (bound : Z) : codec ok img ser unser ->
  forall l, Forall ok l -> Z.of_nat (length l) <= bound -> bound <= MAX_SIZE ->
  exists b, ser_all ser l = Ok b /\ forall s,
    ReadCompactSize ((WriteCompactSize (Z.of_nat (length l)) ++ b) ++ s) = Ok (Z.of_nat (length l), b ++ s) /\
    unser_all unser (Z.to_nat (Z.of_nat (length l))) (b ++ s) = Ok (map img l, s).
Proof.
  intros Hc l Hl Hb Hm. destruct (codec_all ok img ser unser Hc l Hl) as (b & E & R). exists b. split; [done|]. intros s.
  rewrite <- app_assoc, ReadCompactSize_Write, Nat2Z.id by lia. done.
Qed.

(** ** Lemmas: scripts *)

(** What the code relies on from the curve library: decompressing the compressed
    form of a fully valid uncompressed key gives the key back. *)
Class PubKeyLaws (K : PubKeyOps) : Prop :=
  pk_Decompress_law : forall pk, length pk = 65%nat -> pk !!! 0%nat = 0x04 -> pk_IsFullyValid K pk = true ->
    pk_Decompress K ((2 + Z.land (pk !!! 64%nat) 1) :: sub pk 1 33) = Some pk.

(** What is stored of a script: a script that is too long to be spendable is
    replaced when it is read. *)
Definition stored_script (s : CScript) : CScript :=
  if MAX_SCRIPT_SIZE <? Z.of_nat (length s) then [OP_RETURN] else s.

Lemma drop_total (s : list Z) k : (k < length s)%nat -> drop k s = s !!! k :: drop (S k) s.
Proof. intros Hk. apply drop_S. by apply list_lookup_lookup_total_lt. Qed.

Lemma at_byte_true s i c : at_byte s i c = true -> s !!! i = c.
Proof. apply Z.eqb_eq. Qed.

Lemma split_sub (s : list Z) a b : (a <= b)%nat -> s = take a s ++ sub s a b ++ drop b s.
Proof.
  intros Hab. unfold sub. rewrite <- (take_drop a s) at 1. f_equal.
  rewrite <- (take_drop (b - a) (drop a s)) at 1. f_equal. rewrite drop_drop. f_equal. lia.
Qed.

Lemma sub_length (s : list Z) a b : (b <= length s)%nat -> length (sub s a b) = (b - a)%nat.
Proof. intros. unfold sub. rewrite length_take, length_drop. lia. Qed.

Ltac pattern_bytes :=
  repeat match goal with
         | H : _ && _ = true |- _ => apply andb_prop in H as [? ?]
         | H : at_byte _ _ _ = true |- _ => apply at_byte_true in H
         | H : (_ =? _)%nat = true |- _ => apply Nat.eqb_eq in H
         end.

(** The first bytes of a pattern, from the bytes at their positions. *)
Ltac first_bytes :=
  match goal with
  | |- context [take ?k ?s] =>
      let rec go n := lazymatch n with O => rewrite take_0; cbn [app] | S ?m => erewrite (take_S_r s m) by (apply list_lookup_lookup_total_lt; lia); go m end in go k
  end.

Lemma IsToKeyID_inv s k : IsToKeyID s = Some k -> length k = 20%nat /\
  s = [OP_DUP; OP_HASH160; 20] ++ k ++ [OP_EQUALVERIFY; OP_CHECKSIG].
Proof.
  unfold IsToKeyID. case_match eqn:E; [|done]. intros [= <-]. pattern_bytes. split; [by rewrite sub_length by lia|].
  rewrite (split_sub s 3 23) at 1 by lia. rewrite (drop_total s 23), (drop_total s 24), (drop_ge s) by lia.
  first_bytes. congruence.
Qed.

Lemma IsToScriptID_inv s k : IsToScriptID s = Some k -> length k = 20%nat /\
  s = [OP_HASH160; 20] ++ k ++ [OP_EQUAL].
Proof.
  unfold IsToScriptID. case_match eqn:E; [|done]. intros [= <-]. pattern_bytes. split; [by rewrite sub_length by lia|].
  rewrite (split_sub s 2 22) at 1 by lia. rewrite (drop_total s 22), (drop_ge s) by lia.
  first_bytes. congruence.
Qed.

Lemma sub_total (s : list Z) a b i : (i < b - a)%nat -> (b <= length s)%nat -> sub s a b !!! i = s !!! (a + i)%nat.
Proof. intros Hi Hb. unfold sub. rewrite lookup_total_take_lt by lia. apply lookup_total_drop. Qed.

Lemma IsToPubKey_inv K s pk : IsToPubKey K s = Some pk ->
  (length pk = 33%nat /\ (pk !!! 0%nat = 2 \/ pk !!! 0%nat = 3) /\ s = [33] ++ pk ++ [OP_CHECKSIG]) \/
  (length pk = 65%nat /\ pk !!! 0%nat = 4 /\ pk_IsFullyValid K pk = true /\ s = [65] ++ pk ++ [OP_CHECKSIG]).
Proof.
  unfold IsToPubKey. case_match eqn:E.
  - intros [= <-]. left. pattern_bytes. rewrite sub_length, sub_total by lia. split_and!; [done| |].
    + match goal with H : _ || _ = true |- _ => apply orb_prop in H as [H|H]; apply at_byte_true in H; auto end.
    + rewrite (split_sub s 1 34) at 1 by lia. rewrite (drop_total s 34), (drop_ge s) by lia. first_bytes. congruence.
  - clear E. case_match eqn:E; [|done]. case_match eqn:V; [|done]. intros [= <-]. right. pattern_bytes.
    rewrite sub_length, sub_total by lia. split_and!; [done..|].
    rewrite (split_sub s 1 66) at 1 by lia. rewrite (drop_total s 66), (drop_ge s) by lia. first_bytes. congruence.
Qed.

Lemma land_1 x : Z.land x 1 = x mod 2.
Proof. by apply (Z.land_ones x 1). Qed.

Section Stored.
Context (K : PubKeyOps) `{!PubKeyLaws K}.

(** A special script is written as its tag and the payload of the tag's size. *)
Lemma Compress_special s c : Compress K s = Some c ->
  exists tag d, c = tag :: d /\ 0 <= tag < nSpecialScripts /\ Z.of_nat (length d) = GetSpecialSize tag /\
    Decompress K tag d = Ok (Some s) /\ (length s <= 67)%nat.
Proof.
  unfold Compress. destruct (IsToKeyID s) as [k|] eqn:E1.
  { apply IsToKeyID_inv in E1 as [Hl ->]. intros [= <-]. exists 0, k. rewrite !length_app, Hl. split_and!; done || (cbn; lia). }
  destruct (IsToScriptID s) as [k|] eqn:E2.
  { apply IsToScriptID_inv in E2 as [Hl ->]. intros [= <-]. exists 1, k. rewrite !length_app, Hl. split_and!; done || (cbn; lia). }
  destruct (IsToPubKey K s) as [pk|] eqn:E3; [|done].
  apply IsToPubKey_inv in E3 as [(Hl & Hp & ->)|(Hl & Hp & Hv & ->)].
  - destruct pk as [|p d]; [done|]. cbn in Hl, Hp. injection Hl as Hl.
    assert (sub (p :: d) 1 33 = d) as Hd by (unfold sub; cbn [drop]; apply take_ge; cbn; lia).
    destruct Hp as [->| ->]; cbn [lookup_total list_lookup_total]; rewrite Hd; intros [= <-];
      (eexists _, d; split; [done|]; rewrite !length_app; cbn [length]; rewrite Hl; split_and!; done || (cbn; lia)).
  - rewrite Hp. cbn [Z.eqb orb Pos.eqb]. intros [= <-]. eexists _, _. split; [done|].
    pose proof (pk_Decompress_law pk Hl Hp Hv) as HD. pose proof (Z.mod_pos_bound (pk !!! 64%nat) 2 ltac:(lia)).
    rewrite !length_app, Hl, sub_length by lia. rewrite land_1 in HD |- *.
    assert (pk !!! 64%nat mod 2 = 0 \/ pk !!! 64%nat mod 2 = 1) as [E|E] by lia; rewrite E in HD |- *;
      [change (Z.lor 4 0) with 4; change (2 + 0) with (4 - 2) in HD|change (Z.lor 4 1) with 5; change (2 + 1) with (5 - 2) in HD];
      (split; [done|]; split; [done|]; split; [|cbn; lia]); unfold Decompress; cbn [Z.eqb Pos.eqb orb]; rewrite HD; by rewrite Hl.
Qed.

Definition script_ok (s : CScript) : Prop := Z.of_nat (length s) < 2 ^ 31.

Lemma read_small_varint tag s : 0 <= tag < nSpecialScripts -> ReadVarInt (2 ^ 32 - 1) 0 (tag :: s) = Ok (tag, s).
Proof.
  unfold nSpecialScripts. intros Ht. assert (tag = 0 \/ tag = 1 \/ tag = 2 \/ tag = 3 \/ tag = 4 \/ tag = 5) as Hc by lia.
  repeat destruct Hc as [->|Hc]; [..|subst tag]; done.
Qed.

Lemma codec_script : codec script_ok stored_script (SerializeScript K) (UnserializeScript K []).
Proof.
  intros s Hs. unfold script_ok in Hs. unfold SerializeScript, UnserializeScript, stored_script.
  destruct (Compress K s) as [c|] eqn:E.
  - apply Compress_special in E as (tag & d & -> & Ht & Hd & HD & Hl). eexists. split; [done|]. intros r.
    cbn [app]. rewrite read_small_varint by done. cbn [mbind result_bind]. rewrite (proj2 (Z.ltb_lt tag _)) by lia.
    rewrite read_bytes_app by lia. cbn [mbind result_bind]. rewrite HD. cbn [mbind result_bind default].
    rewrite (proj2 (Z.ltb_ge _ _)) by (change MAX_SCRIPT_SIZE with 10000; lia). done.
  - unfold nSpecialScripts. rewrite u32_small by (unfold is_u32; lia).
    destruct (varint_codec 32 (2 ^ 32 - 1) (Z.of_nat (length s) + 6) ltac:(lia) ltac:(lia) ltac:(lia)) as (b & Eb & Er).
    rewrite Eb. eexists. split; [done|]. intros r. rewrite <- app_assoc, Er. cbn [mbind result_bind].
    rewrite (proj2 (Z.ltb_ge _ 6)) by lia. rewrite Z.add_simpl_r, Nat2Z.id, read_bytes_app by done. by case_test.
Qed.

Definition stored_txout (o : CTxOut) : CTxOut := txout (nValue o) (stored_script (scriptPubKey o)).
Definition storable (o : CTxOut) : Prop := 0 <= nValue o <= MAX_COMPRESSIBLE /\ script_ok (scriptPubKey o).

Lemma codec_txout : codec storable stored_txout (SerializeTxOut K) (UnserializeTxOut K).
Proof.
  intros o [Hv Hs]. unfold SerializeTxOut, UnserializeTxOut, stored_txout.
  destruct (amount_roundtrip (nValue o) Hv) as (x & E & Hx & ED). change MAX_COMPRESSIBLE with 2049638230412172401 in Hv.
  rewrite u64_small by (unfold is_u64; lia). rewrite E. cbn [mbind result_bind].
  destruct (varint_codec 64 (2 ^ 64 - 1) x ltac:(lia) ltac:(lia) ltac:(lia)) as (a & Ea & Ra). rewrite Ea. cbn [mbind result_bind].
  destruct (codec_script (scriptPubKey o) Hs) as (b & Eb & Rb). rewrite Eb. eexists. split; [done|]. intros s.
  rewrite <- app_assoc, Ra. cbn [mbind result_bind]. rewrite Rb, ED. cbn [mbind result_bind].
  rewrite i64_small by lia. done.
Qed.

Definition stored_coin (c : Coin) : Coin := mkCoin (stored_txout (out c)) (fCoinBase c) (coin_nHeight c).
Definition coin_storable (c : Coin) : Prop := storable (out c) /\ 0 <= coin_nHeight c < 2 ^ 30.

(** The code of a coin: its height and its coinbase flag. *)
Lemma coin_code h b : 0 <= h ->
  negb (Z.land (h * 2 + bool_bit b) 1 =? 0) = b /\ Z.shiftr (h * 2 + bool_bit b) 1 = h /\ (h * 2 + bool_bit b) / 2 = h.
Proof.
  intros Hh. rewrite land_1, Z.shiftr_div_pow2 by lia. change (2 ^ 1) with 2.
  rewrite (Z.add_comm (h * 2)), Z.mod_add, Z.div_add by lia. by destruct b.
Qed.

Lemma codec_coin : codec coin_storable stored_coin (SerializeCoin K) (UnserializeCoin K).
Proof.
  intros c [Ho Hh]. unfold SerializeCoin, UnserializeCoin, stored_coin.
  assert (0 <= bool_bit (fCoinBase c) <= 1) by (destruct (fCoinBase c); cbn; lia).
  unfold IsSpent, txout_IsNull. rewrite (proj2 (Z.eqb_neq _ _)) by (destruct Ho; lia). cbn [negb cassert mbind result_bind].
  rewrite u32_small by (unfold is_u32; lia).
  destruct (varint_codec 32 (2 ^ 32 - 1) (coin_nHeight c * 2 + bool_bit (fCoinBase c)) ltac:(lia) ltac:(lia) ltac:(lia)) as (a & Ea & Ra).
  destruct (codec_txout (out c) Ho) as (b & Eb & Rb). rewrite Ea. cbn [mbind result_bind]. rewrite Eb.
  eexists. split; [done|]. intros s. rewrite <- app_assoc, Ra. cbn [mbind result_bind]. rewrite Rb. cbn [mbind result_bind].
  destruct (coin_code (coin_nHeight c) (fCoinBase c)) as (-> & -> & _); [lia|done].
Qed.

Lemma codec_txinundo : codec coin_storable stored_coin (SerializeTxInUndo K) (UnserializeTxInUndo K).
Proof.
  intros c [Ho Hh]. unfold SerializeTxInUndo, UnserializeTxInUndo, stored_coin.
  assert (0 <= bool_bit (fCoinBase c) <= 1) by (destruct (fCoinBase c); cbn; lia).
  destruct (varint_codec 32 (2 ^ 32 - 1) (coin_nHeight c * 2 + bool_bit (fCoinBase c)) ltac:(lia) ltac:(lia) ltac:(lia)) as (a & Ea & Ra).
  destruct (codec_txout (out c) Ho) as (b & Eb & Rb). rewrite Ea. cbn [mbind result_bind]. rewrite Eb.
  eexists. split; [done|]. intros s. rewrite <- !app_assoc, Ra. cbn [mbind result_bind].
  destruct (coin_code (coin_nHeight c) (fCoinBase c)) as (-> & _ & ->); [lia|].
  change (ser_writedata8 0) with [0]. destruct (0 <? coin_nHeight c); cbn [app].
  - change (ReadVarInt (2 ^ 31 - 1) 0 (0 :: b ++ s)) with (Ok (0, b ++ s)). cbn [mbind result_bind]. by rewrite Rb.
  - cbn [mbind result_bind]. by rewrite Rb.
Qed.

Definition undo_ok (u : list Coin) : Prop := Forall coin_storable u /\ Z.of_nat (length u) <= MAX_INPUTS_PER_BLOCK.

Lemma codec_txundo : codec undo_ok (map stored_coin) (SerializeTxUndo K) (UnserializeTxUndo K).
Proof.
  intros u [Hu Hl]. unfold SerializeTxUndo, UnserializeTxUndo.
  destruct (codec_vector _ _ _ _ MAX_INPUTS_PER_BLOCK codec_txinundo u Hu Hl) as (b & E & R); [done|].
  rewrite E. eexists. split; [done|]. intros s. destruct (R s) as [-> R']. cbn [mbind result_bind].
  rewrite (proj2 (Z.ltb_ge _ _)) by lia. done.
Qed.
End Stored.

(** ** Properties *)

(** C34: what [CBlockUndo] and [Coin] write they read back, leaving the rest of the
    stream: for coins whose amount fits the amount compression, with a height
    below 2^30 and scripts shorter than 2^31 bytes, writing never fails, and
    reading gives the same coins, in the same transactions and order, with the
    special scripts (pay to key, key hash or script hash) expanded again; only a
    script longer than [MAX_SCRIPT_SIZE] comes back as [OP_RETURN]. *)
Theorem undo_data_roundtrip (K : PubKeyOps) `{!PubKeyLaws K} (vtxundo : list (list Coin)) (c : Coin) (rest : list Z) :
  Forall undo_ok vtxundo -> Z.of_nat (length vtxundo) <= MAX_SIZE -> coin_storable c ->
  (exists b, SerializeBlockUndo K vtxundo = Ok b /\
     UnserializeBlockUndo K (b ++ rest) = Ok (map (map stored_coin) vtxundo, rest)) /\
  (exists b, SerializeCoin K c = Ok b /\ UnserializeCoin K (b ++ rest) = Ok (stored_coin c, rest)).
Proof.
  intros Hu Hl Hc. split.
  - unfold SerializeBlockUndo, UnserializeBlockUndo.
    destruct (codec_vector _ _ _ _ MAX_SIZE (codec_txundo K) vtxundo Hu Hl) as (b & E & R); [done|].
    rewrite E. eexists. split; [done|]. destruct (R rest) as [-> R']. exact R'.
  - destruct (codec_coin K c Hc) as (b & E & R). exists b. auto.
Qed.

(** amounts up to [MAX_COMPRESSIBLE] and all multiples of ten up to
    [MAX_MONEY] survive compression, but [MAX_COMPRESSIBLE] is below [MAX_MONEY]:
    there is an amount that [MoneyRange] accepts and that is read back as a
    different amount, because the compressed amount wraps around at 64 bits. *)
Theorem amount_compression_wraps :
  (forall n, 0 <= n <= MAX_COMPRESSIBLE \/ (0 <= n <= MAX_MONEY /\ n mod 10 = 0) ->
     exists x, CompressAmount n = Ok x /\ DecompressAmount x = n) /\
  (exists n x, MoneyRange n true = true /\ CompressAmount n = Ok x /\ DecompressAmount x <> n).
Proof.
  split.
  - intros n [Hn|[Hn Hm]]; [destruct (amount_roundtrip n Hn) as (x & ? & _ & ?); eauto|].
    exists (compressed_value n). change MAX_MONEY with 2100000000000000000 in Hn.
    destruct (CompressAmount_value n ltac:(lia)) as [E _]. pose proof (compressed_value_tens n Hn Hm).
    rewrite E, u64_small by done. split; [done|]. apply DecompressAmount_value. lia.
  - exists (MAX_MONEY - 1). eexists. split; [reflexivity|]. split; [vm_compute; reflexivity|]. vm_compute. discriminate.
Qed.

(** A curve whose uncompressed keys end in zeros and the parity byte. *)
Definition toy_keys : PubKeyOps :=
  mkPubKeyOps (fun pk => bool_decide (pk = 4 :: sub pk 1 33 ++ replicate 31 0 ++ [Z.land (pk !!! 64%nat) 1]))
              (fun c => match c with [] => None | t :: x => Some (4 :: x ++ replicate 31 0 ++ [t - 2]) end).

Lemma toy_keys_laws : PubKeyLaws toy_keys.
Proof.
  intros pk _ _ Hv. cbn [pk_IsFullyValid pk_Decompress toy_keys] in *. apply bool_decide_eq_true in Hv.
  f_equal. rewrite Hv at 3. do 4 f_equal. lia.
Qed.

Definition toy_keyhash_coin : Coin :=
  mkCoin (txout (50 * COIN) ([OP_DUP; OP_HASH160; 20] ++ replicate 20 7 ++ [OP_EQUALVERIFY; OP_CHECKSIG])) true 0.
Definition toy_key_coin : Coin :=
  mkCoin (txout 12345 ([65; 4] ++ replicate 32 9 ++ replicate 31 0 ++ [1; OP_CHECKSIG])) false 1000.

Lemma undo_data_roundtrip_witness :
  (exists b, SerializeBlockUndo toy_keys [[toy_keyhash_coin; toy_key_coin]; []] = Ok b /\ length b = 65%nat /\
     UnserializeBlockUndo toy_keys (b ++ [5]) = Ok ([[toy_keyhash_coin; toy_key_coin]; []], [5])) /\
  (exists b, SerializeCoin toy_keys toy_key_coin = Ok b /\
     UnserializeCoin toy_keys (b ++ [5]) = Ok (toy_key_coin, [5])).
Proof.
  destruct (@undo_data_roundtrip toy_keys toy_keys_laws [[toy_keyhash_coin; toy_key_coin]; []] toy_key_coin [5]) as [(b & E & R) H2].
  - repeat constructor; vm_compute; congruence.
  - vm_compute. congruence.
  - repeat constructor; vm_compute; congruence.
  - split; [|exact H2]. exists b. split; [exact E|]. split; [|exact R].
    revert E. vm_compute. intros [= <-]. reflexivity.
Defined.
