(* ===== verification/Merkle.v ===== *)
(** * Merkle trees (src/src/consensus/merkle.cpp, merkleblock.h, merkleblock.cpp)

    The Merkle root of a block, and the partial trees that prove to a light client
    that transactions are in a block.  The double SHA-256 of a message is the
    parameter [Hash]; [SHA256D64] applies it to blocks of two hashes.  The vectors
    [vBits] and [vHash] are read by position as in the source; an index out of range
    is [Err NullDeref]. *)

From Stdlib Require Import ZArith Lia.
From stdpp Require Import base tactics numbers option list.
From S2P Require Import Prelude ArithUint256 Compact Block Serialize.

(** [MaxBlockSize(true)] *)
Definition MAX_DIP0001_BLOCK_SIZE : Z := 2000000.

Definition vector_at {A} (v : list A) (i : Z) : result A :=
  if i <? 0 then Err NullDeref else deref (v !! Z.to_nat i).

Section merkle.
Context (Hash : list Z -> uint256).

(** ** The root *)

(** [SHA256D64]: one hash for every two. *)
Fixpoint SHA256D64 (hashes : list uint256) : list uint256 :=
  match hashes with
  | a :: b :: hashes => Hash (a ++ b) :: SHA256D64 hashes
  | _ => []
  end.

(** The test for two equal hashes at an even position. *)
Fixpoint equal_pair (hashes : list uint256) : bool :=
  match hashes with
  | a :: b :: hashes => bool_decide (a = b) || equal_pair hashes
  | _ => false
  end.

(** The body of the loop: the hashes of the next level. *)
Definition next_level (hashes : list uint256) : list uint256 :=
  SHA256D64 (if Nat.odd (length hashes) then hashes ++ option_list (last hashes) else hashes).

Fixpoint root_loop (fuel : nat) (check : bool) (mutation : bool) (hashes : list uint256) : result (list uint256 * bool) :=
  if (length hashes <=? 1)%nat then Ok (hashes, mutation)
  else match fuel with
       | O => Err OutOfFuel
       | S fuel => root_loop fuel check (mutation || (check && equal_pair hashes)) (next_level hashes)
       end.

(** [check] is [mutated != nullptr]; the flag is meaningful only then. *)
Definition ComputeMerkleRoot (hashes : list uint256) (check : bool) : result (uint256 * bool) :=
  '(hashes, mutation) ← root_loop (length hashes) check false hashes;
  Ok (match hashes with [] => uint256_null | h :: _ => h end, mutation).

(** [BlockMerkleRoot], on the hashes of the transactions of the block. *)
Definition BlockMerkleRoot (vtx : list uint256) (check : bool) : result (uint256 * bool) := ComputeMerkleRoot vtx check.

(** ** Partial trees *)

Record CPartialMerkleTree := mkPMT {
  nTransactions : Z;
  vBits : list bool;
  vHash : list uint256;
  fBad : bool
}.

Definition CalcTreeWidth (nTransactions : Z) (height : nat) : Z :=
  Z.shiftr (u32 (nTransactions + Z.shiftl 1 (Z.of_nat height) - 1)) (Z.of_nat height).

(** [while (CalcTreeWidth(nHeight) > 1) nHeight++] *)
Fixpoint height_loop (fuel : nat) (nTransactions : Z) (nHeight : nat) : result nat :=
  if CalcTreeWidth nTransactions nHeight <=? 1 then Ok nHeight
  else match fuel with
       | O => Err OutOfFuel
       | S fuel => height_loop fuel nTransactions (S nHeight)
       end.
Definition TreeHeight (nTransactions : Z) : result nat := height_loop 32 nTransactions 0.

Fixpoint CalcHash (nTransactions : Z) (height : nat) (pos : Z) (vTxid : list uint256) : result uint256 :=
  _ ← cassert (negb (bool_decide (vTxid = [])));
  match height with
  | O => vector_at vTxid pos
  | S height =>
      lhash ← CalcHash nTransactions height (u32 (pos * 2)) vTxid;
      rhash ← (if u32 (pos * 2 + 1) <? CalcTreeWidth nTransactions height
               then CalcHash nTransactions height (u32 (pos * 2 + 1)) vTxid else Ok lhash);
      Ok (Hash (lhash ++ rhash))
  end.

(** The loop that looks for a match below a node. *)
Fixpoint match_loop (n : nat) (p : Z) (vMatch : list bool) (fParentOfMatch : bool) : result bool :=
  match n with
  | O => Ok fParentOfMatch
  | S n => b ← vector_at vMatch p; match_loop n (p + 1) vMatch (fParentOfMatch || b)
  end.

Fixpoint TraverseAndBuild (t : CPartialMerkleTree) (height : nat) (pos : Z) (vTxid : list uint256) (vMatch : list bool) :
    result CPartialMerkleTree :=
  let first := u32 (Z.shiftl pos (Z.of_nat height)) in
  let last := Z.min (u32 (Z.shiftl (pos + 1) (Z.of_nat height))) (nTransactions t) in
  fParentOfMatch ← match_loop (Z.to_nat (last - first)) first vMatch false;
  let t := mkPMT (nTransactions t) (vBits t ++ [fParentOfMatch]) (vHash t) (fBad t) in
  let store :=
    h ← CalcHash (nTransactions t) height pos vTxid;
    Ok (mkPMT (nTransactions t) (vBits t) (vHash t ++ [h]) (fBad t)) in
  match height with
  | O => store
  | S height =>
      if negb fParentOfMatch then store
      else
        t ← TraverseAndBuild t height (u32 (pos * 2)) vTxid vMatch;
        if u32 (pos * 2 + 1) <? CalcTreeWidth (nTransactions t) height
        then TraverseAndBuild t height (u32 (pos * 2 + 1)) vTxid vMatch else Ok t
  end.

(** The constructor from a list of transaction ids and a mask. *)
Definition PartialMerkleTree (vTxid : list uint256) (vMatch : list bool) : result CPartialMerkleTree :=
  let n := u32 (Z.of_nat (length vTxid)) in
  nHeight ← TreeHeight n;
  TraverseAndBuild (mkPMT n [] [] false) nHeight 0 vTxid vMatch.

(** What [TraverseAndExtract] updates: its reference arguments and [fBad]. *)
Record Extraction := mkExtraction {
  nBitsUsed : nat;
  nHashUsed : nat;
  x_vMatch : list uint256;
  x_vnIndex : list Z;
  x_fBad : bool
}.
Definition bad (x : Extraction) : Extraction := mkExtraction (nBitsUsed x) (nHashUsed x) (x_vMatch x) (x_vnIndex x) true.

Fixpoint TraverseAndExtract (t : CPartialMerkleTree) (height : nat) (pos : Z) (x : Extraction) : uint256 * Extraction :=
  match vBits t !! nBitsUsed x with
  | None => (uint256_null, bad x)
  | Some fParentOfMatch =>
      let x := mkExtraction (S (nBitsUsed x)) (nHashUsed x) (x_vMatch x) (x_vnIndex x) (x_fBad x) in
      let stored :=
        match vHash t !! nHashUsed x with
        | None => (uint256_null, bad x)
        | Some hash =>
            let x := mkExtraction (nBitsUsed x) (S (nHashUsed x)) (x_vMatch x) (x_vnIndex x) (x_fBad x) in
            (hash, if (height =? 0)%nat && fParentOfMatch
                   then mkExtraction (nBitsUsed x) (nHashUsed x) (x_vMatch x ++ [hash]) (x_vnIndex x ++ [pos]) (x_fBad x)
                   else x)
        end in
      match height with
      | O => stored
      | S height =>
          if negb fParentOfMatch then stored
          else
            let '(lhash, x) := TraverseAndExtract t height (u32 (pos * 2)) x in
            let '(rhash, x) :=
              if u32 (pos * 2 + 1) <? CalcTreeWidth (nTransactions t) height
              then let '(rhash, x) := TraverseAndExtract t height (u32 (pos * 2 + 1)) x in
                   (rhash, if bool_decide (rhash = lhash) then bad x else x)
              else (lhash, x) in
            (Hash (lhash ++ rhash), x)
      end
  end.

(** [ExtractMatches]: the root, the two vectors and the new [fBad].  The vector of
    positions is not cleared. *)
Definition ExtractMatches (t : CPartialMerkleTree) (vnIndex : list Z) : result (uint256 * (list uint256 * list Z * bool)) :=
  let fail := (uint256_null, ([], vnIndex, fBad t)) in
  if nTransactions t =? 0 then Ok fail
  else if MAX_DIP0001_BLOCK_SIZE / 60 <? nTransactions t then Ok fail
  else if nTransactions t <? Z.of_nat (length (vHash t)) then Ok fail
  else if (length (vBits t) <? length (vHash t))%nat then Ok fail
  else
    nHeight ← TreeHeight (nTransactions t);
    let '(hashMerkleRoot, x) := TraverseAndExtract t nHeight 0 (mkExtraction 0 0 [] vnIndex (fBad t)) in
    let out := (x_vMatch x, x_vnIndex x, x_fBad x) in
    if x_fBad x then Ok (uint256_null, out)
    else if negb ((nBitsUsed x + 7) / 8 =? (length (vBits t) + 7) / 8)%nat then Ok (uint256_null, out)
    else if negb (nHashUsed x =? length (vHash t))%nat then Ok (uint256_null, out)
    else Ok (hashMerkleRoot, out).

End merkle.

(** ** Serialization of a partial tree *)

#[local] Instance uint256_serial : Serial uint256 := {| ser h := h; unser := read_uint256 |}.

(** [vBytes[p / 8] |= vBits[p] << (p % 8)] for the bits from [p] on. *)
Fixpoint pack_loop (bits : list bool) (p : nat) (vBytes : list Z) : list Z :=
  match bits with
  | [] => vBytes
  | b :: bits =>
      pack_loop bits (S p)
        (<[(p / 8)%nat := u8 (Z.lor (vBytes !!! (p / 8)%nat) (Z.shiftl (if b then 1 else 0) (Z.of_nat (p mod 8))))]> vBytes)
  end.
Definition pack_bits (bits : list bool) : list Z := pack_loop bits 0 (replicate ((length bits + 7) / 8) 0).

Definition unpack_bits (vBytes : list Z) : list bool :=
  (fun p => negb (Z.land (vBytes !!! (p / 8)%nat) (Z.shiftl 1 (Z.of_nat (p mod 8))) =? 0)) <$> seq 0 (length vBytes * 8).

(** [CPartialMerkleTree::SerializationOp]; a vector of hashes is read in chunks of
    [5000000 / sizeof(uint256)]. *)
#[global] Instance PartialMerkleTree_serial : Serial CPartialMerkleTree := {|
  ser t := ser_writedata32 (nTransactions t) ++ ser_vector (vHash t) ++ ser_byte_vector (pack_bits (vBits t));
  unser s :=
    '(n, s) ← ser_readdata32 s; '(hs, s) ← unser_vector (5000000 / 32) s; '(vBytes, s) ← unser_byte_vector s;
    Ok (mkPMT n (unpack_bits vBytes) hs false, s)
|}.

(** ** Levels of the tree *)

Section levels.
Context (Hash : list Z -> uint256).
#[local] Abbreviation next_level := (next_level Hash).

Lemma SHA256D64_length l : length (SHA256D64 Hash l) = (length l / 2)%nat.
Proof.
  enough (forall n l, (length l <= n)%nat -> length (SHA256D64 Hash l) = (length l / 2)%nat) as H by by apply (H (length l)).
  clear l. intros n. induction n as [|n IH]; intros [|a [|b l]]; cbn [SHA256D64 length]; intros Hn; try done; try lia.
  rewrite IH by lia. replace (S (S (length l))) with (1 * 2 + length l)%nat by lia. by rewrite Nat.div_add_l.
Qed.

Lemma SHA256D64_lookup l i : (2 * i + 1 < length l)%nat ->
  SHA256D64 Hash l !! i = Some (Hash (l !!! (2 * i)%nat ++ l !!! (2 * i + 1)%nat)).
Proof.
  revert l. induction i as [|i IH]; intros [|a [|b l]] Hl; cbn [length] in Hl; try lia; [done|].
  cbn [SHA256D64]. change ((Hash (a ++ b) :: SHA256D64 Hash l) !! S i) with (SHA256D64 Hash l !! i).
  rewrite IH by lia. by replace (2 * S i)%nat with (S (S (2 * i))) by lia.
Qed.

(** The right neighbour of an even position, or the position itself at the end. *)
Definition sibling (l : list uint256) (i : nat) : uint256 :=
  if decide (2 * i + 1 < length l)%nat then l !!! (2 * i + 1)%nat else l !!! (2 * i)%nat.

Lemma next_level_length l : length (next_level l) = ((length l + 1) / 2)%nat.
Proof.
  unfold Merkle.next_level. rewrite SHA256D64_length.
  destruct (Nat.odd (length l)) eqn:Ho.
  - rewrite length_app. destruct (last l) eqn:El; [cbn; done|]. apply last_None in El as ->. done.
  - rewrite <- Nat.negb_even in Ho. apply negb_false_iff, Nat.even_spec in Ho as [k Hk]. rewrite Hk.
    rewrite Nat.mul_comm, Nat.div_mul, Nat.div_add_l by lia. cbn. lia.
Qed.

Lemma next_level_lookup l i : (2 * i < length l)%nat ->
  next_level l !! i = Some (Hash (l !!! (2 * i)%nat ++ sibling l i)).
Proof.
  intros Hi. unfold Merkle.next_level, sibling. destruct (decide _) as [Hs|Hs].
  - destruct (Nat.odd _); [|by rewrite SHA256D64_lookup].
    rewrite SHA256D64_lookup by (rewrite length_app; lia). by rewrite !lookup_total_app_l by lia.
  - assert (length l = 2 * i + 1)%nat as Hl by lia.
    assert (Nat.odd (length l) = true) as -> by (rewrite Hl; apply Nat.odd_spec; by exists i).
    rewrite (last_lookup l). replace (pred (length l)) with (2 * i)%nat by lia.
    destruct (lookup_lt_is_Some_2 l (2 * i)) as [x Hx]; [lia|]. rewrite Hx. cbn [option_list].
    rewrite SHA256D64_lookup by (rewrite length_app; cbn; lia). f_equal. f_equal. f_equal.
    + by rewrite lookup_total_app_l by lia.
    + rewrite lookup_total_app_r by lia. replace (2 * i + 1 - length l)%nat with 0%nat by lia. cbn.
      symmetry. by apply list_lookup_total_correct.
Qed.

(** Level [h] of the tree over the leaves [l]. *)
Fixpoint level (h : nat) (l : list uint256) : list uint256 :=
  match h with O => l | S h => next_level (level h l) end.

Lemma level_next h l : level h (next_level l) = next_level (level h l).
Proof. induction h as [|h IH]; cbn; [done|]. by rewrite IH. Qed.

(** The number of nodes of a level. *)
Definition width (n h : nat) : nat := ((n + (2 ^ h - 1)) / 2 ^ h)%nat.

Lemma pow2_pos h : (0 < 2 ^ h)%nat.
Proof. apply Nat.neq_0_lt_0, Nat.pow_nonzero. lia. Qed.

Lemma width_S n h : width n (S h) = ((width n h + 1) / 2)%nat.
Proof.
  unfold width. pose proof (pow2_pos h). rewrite Nat.pow_succ_r', Nat.mul_comm, <- Nat.Div0.div_div. f_equal.
  replace (n + (2 ^ h * 2 - 1))%nat with (n + (2 ^ h - 1) + 1 * 2 ^ h)%nat by lia. by rewrite Nat.div_add by lia.
Qed.

Lemma level_length h l : length (level h l) = width (length l) h.
Proof.
  induction h as [|h IH]; cbn [level].
  - unfold width. cbn [Nat.pow]. by rewrite Nat.sub_diag, Nat.add_0_r, Nat.div_1_r.
  - by rewrite next_level_length, width_S, IH.
Qed.

Lemma width_pos n h : (0 < n)%nat -> (0 < width n h)%nat.
Proof. intros Hn. unfold width. pose proof (pow2_pos h). apply Nat.div_str_pos. lia. Qed.

Lemma width_lt n h i : (i < width n h)%nat <-> (i * 2 ^ h < n)%nat.
Proof.
  unfold width. pose proof (pow2_pos h). split; intros Hi.
  - pose proof (Nat.Div0.mul_div_le (n + (2 ^ h - 1)) (2 ^ h)). nia.
  - apply Nat.lt_le_trans with (S i); [lia|]. apply Nat.div_le_lower_bound; [lia|]. nia.
Qed.

Lemma level_lookup h l i : (i < width (length l) (S h))%nat ->
  level (S h) l !! i = Some (Hash (level h l !!! (2 * i)%nat ++ sibling (level h l) i)).
Proof.
  intros Hi. cbn [level]. apply next_level_lookup. rewrite level_length.
  apply width_lt in Hi. apply width_lt. rewrite Nat.pow_succ_r' in Hi. lia.
Qed.

(** ** The root is the top of the tree *)

(** [k] is the height of the tree over [n] leaves. *)
Definition is_height (n k : nat) : Prop := (width n k <= 1)%nat /\ forall j, (j < k)%nat -> (1 < width n j)%nat.

Lemma is_height_unique n k k' : is_height n k -> is_height n k' -> k = k'.
Proof.
  intros [H1 H2] [H1' H2']. destruct (Nat.lt_trichotomy k k') as [H|[H|H]]; [|done|].
  - specialize (H2' _ H). lia.
  - specialize (H2 _ H). lia.
Qed.

Lemma width_small n h : (n <= 2 ^ h)%nat -> (width n h <= 1)%nat.
Proof. intros Hn. apply Nat.nlt_ge. intros H%width_lt. lia. Qed.

Lemma is_height_exists n m : (n <= 2 ^ m)%nat -> exists k, (k <= m)%nat /\ is_height n k.
Proof.
  induction m as [|m IH]; intros Hn.
  - exists 0%nat. split; [done|]. split; [by apply width_small|lia].
  - destruct (decide (n <= 2 ^ m)%nat) as [Hm|Hm].
    + destruct (IH Hm) as (k & Hk & ?). exists k. split; [lia|done].
    + exists (S m). split; [done|]. split; [by apply width_small|]. intros j Hj. apply width_lt.
      assert (2 ^ j <= 2 ^ m)%nat by (apply Nat.pow_le_mono_r; lia). lia.
Qed.

Lemma width_next l j : width (length (next_level l)) j = width (length l) (S j).
Proof. by rewrite <- !level_length, level_next. Qed.

(** Some level below [k] has two equal hashes at an even position. *)
Definition mutated_below (k : nat) (l : list uint256) : bool := existsb (fun j => equal_pair (level j l)) (seq 0 k).

Lemma mutated_below_S k l : mutated_below (S k) l = equal_pair l || mutated_below k (next_level l).
Proof.
  unfold mutated_below. cbn [seq existsb level]. f_equal. rewrite <- fmap_S_seq.
  induction (seq 0 k) as [|j js IH]; cbn [fmap list_fmap existsb]; [done|]. by rewrite IH, level_next.
Qed.

Lemma root_loop_spec k fuel c mu l : is_height (length l) k -> (k <= fuel)%nat ->
  root_loop Hash fuel c mu l = Ok (level k l, mu || (c && mutated_below k l)).
Proof.
  revert fuel mu l. induction k as [|k IH]; intros fuel mu l [H1 H2] Hf.
  - rewrite <- level_length in H1. cbn [level] in H1.
    assert ((length l <=? 1)%nat = true) as E by by apply Nat.leb_le. cbn [level mutated_below seq existsb].
    rewrite andb_false_r, orb_false_r. destruct fuel; cbn [root_loop]; by rewrite E.
  - pose proof (H2 0%nat ltac:(lia)) as H0. rewrite <- level_length in H0. cbn [level] in H0.
    destruct fuel as [|fuel]; [lia|]. cbn [root_loop]. rewrite (proj2 (Nat.leb_gt _ _)) by done.
    rewrite IH; [|split|lia].
    + rewrite mutated_below_S. cbn [level]. rewrite level_next. f_equal. f_equal.
      by destruct mu, c, (equal_pair l), (mutated_below k (next_level l)).
    + by rewrite width_next.
    + intros j Hj. rewrite width_next. apply H2. lia.
Qed.

Lemma ComputeMerkleRoot_spec k c l : is_height (length l) k ->
  ComputeMerkleRoot Hash l c = Ok (default uint256_null (head (level k l)), c && mutated_below k l).
Proof.
  intros Hk. unfold ComputeMerkleRoot. rewrite (root_loop_spec k); [cbn; by destruct (level k l)|done|].
  destruct Hk as [_ Hk]. destruct k as [|k]; [lia|]. specialize (Hk k ltac:(lia)). apply width_lt in Hk.
  assert (k < 2 ^ k)%nat by (apply Nat.pow_gt_lin_r; lia). lia.
Qed.

(** ** The recursion of merkleblock.cpp *)

Lemma CalcTreeWidth_width n h : (h <= 31)%nat -> Z.of_nat n < 2 ^ 31 -> CalcTreeWidth (Z.of_nat n) h = Z.of_nat (width n h).
Proof.
  intros Hh Hn. unfold CalcTreeWidth, width. rewrite Z.shiftl_1_l, Z.shiftr_div_pow2 by lia.
  assert (2 ^ Z.of_nat h = Z.of_nat (2 ^ h)) as E by by rewrite Nat2Z.inj_pow. rewrite E.
  assert (1 <= 2 ^ Z.of_nat h <= 2 ^ 31) as Hb by (split; [apply Z.pow_le_mono_r with (b := 0)|apply Z.pow_le_mono_r]; lia).
  rewrite u32_small by (unfold is_u32; lia). rewrite Nat2Z.inj_div. f_equal. pose proof (pow2_pos h). lia.
Qed.

Lemma height_loop_spec n k fuel h : Z.of_nat n < 2 ^ 31 -> is_height n k -> (k <= 31)%nat -> (h <= k)%nat -> (k - h <= fuel)%nat ->
  height_loop fuel (Z.of_nat n) h = Ok k.
Proof.
  intros Hn [Hw Hlt] Hk. revert h. induction fuel as [|fuel IH]; intros h Hh Hf; cbn [height_loop];
    rewrite CalcTreeWidth_width by lia.
  - assert (h = k) as -> by lia. by rewrite (proj2 (Z.leb_le _ _)) by lia.
  - destruct (decide (h = k)) as [->|Hne]; [by rewrite (proj2 (Z.leb_le _ _)) by lia|].
    specialize (Hlt h ltac:(lia)). rewrite (proj2 (Z.leb_gt _ _)) by lia. apply IH; lia.
Qed.

Lemma TreeHeight_spec n : Z.of_nat n < 2 ^ 31 -> exists k, TreeHeight (Z.of_nat n) = Ok k /\ is_height n k /\ (k <= 31)%nat.
Proof.
  intros Hn. destruct (is_height_exists n 31) as (k & Hk & Hh); [apply Nat2Z.inj_le; rewrite Nat2Z.inj_pow; lia|].
  exists k. split; [|done]. apply height_loop_spec; [done..|lia|lia].
Qed.

(** The positions of the children of a node do not wrap. *)
Lemma child_pos n h i : Z.of_nat n < 2 ^ 31 -> (i < width n (S h))%nat ->
  u32 (Z.of_nat i * 2) = Z.of_nat (2 * i) /\ u32 (Z.of_nat i * 2 + 1) = Z.of_nat (2 * i + 1) /\ (2 * i < width n h)%nat.
Proof.
  intros Hn Hi%width_lt. rewrite Nat.pow_succ_r' in Hi. pose proof (pow2_pos h).
  assert (2 * i < n)%nat by nia. rewrite !u32_small by (unfold is_u32; lia). split_and!; [lia..|].
  apply width_lt. lia.
Qed.

Lemma vector_at_nat {A} `{Inhabited A} (v : list A) i : (i < length v)%nat -> vector_at v (Z.of_nat i) = Ok (v !!! i).
Proof.
  intros Hi. unfold vector_at. rewrite (proj2 (Z.ltb_ge _ _)), Nat2Z.id by lia.
  destruct (lookup_lt_is_Some_2 v i Hi) as [x Hx]. by rewrite Hx, (list_lookup_total_correct _ _ _ Hx).
Qed.

Lemma CalcHash_spec l h i : Z.of_nat (length l) < 2 ^ 31 -> (h <= 32)%nat -> (i < width (length l) h)%nat ->
  CalcHash Hash (Z.of_nat (length l)) h (Z.of_nat i) l = Ok (level h l !!! i).
Proof.
  intros Hn. revert i. induction h as [|h IH]; intros i Hh Hi; cbn [CalcHash].
  - assert (i < length l)%nat as Hl by (apply width_lt in Hi; cbn in Hi; lia).
    rewrite bool_decide_eq_false_2 by (intros ->; cbn in Hl; lia). cbn [negb cassert mbind result_bind]. by apply vector_at_nat.
  - assert (i < length l)%nat as Hl by (apply width_lt in Hi; pose proof (pow2_pos (S h)); nia).
    rewrite bool_decide_eq_false_2 by (intros ->; cbn in Hl; lia). cbn [negb cassert mbind result_bind].
    destruct (child_pos (length l) h i Hn Hi) as (-> & -> & Hc).
    rewrite (IH (2 * i)%nat) by lia. cbn [mbind result_bind]. rewrite CalcTreeWidth_width by lia.
    rewrite (list_lookup_total_correct _ _ _ (level_lookup h l i Hi)). unfold sibling. rewrite level_length.
    destruct (Z.ltb_spec (Z.of_nat (2 * i + 1)) (Z.of_nat (width (length l) h))).
    + rewrite IH by lia. cbn. by rewrite decide_True by lia.
    + cbn. by rewrite decide_False by lia.
Qed.

(** ** Roots bind the leaves *)

(** Two different messages with the same hash. *)
Definition collision : Prop := exists x y, x <> y /\ Hash x = Hash y.

Definition hashes_ok (l : list uint256) : Prop := Forall (fun h => length h = 32%nat) l.

Lemma hash_pair_inj a b c d : length a = 32%nat -> length c = 32%nat -> Hash (a ++ b) = Hash (c ++ d) ->
  (a = c /\ b = d) \/ collision.
Proof.
  intros Ha Hc E. destruct (decide (a ++ b = c ++ d)) as [Eq|Ne].
  - left. by apply app_inj_1 in Eq; [|congruence].
  - right. by exists (a ++ b), (c ++ d).
Qed.

Lemma next_level_cons2 a b l : next_level (a :: b :: l) = Hash (a ++ b) :: next_level l.
Proof.
  unfold Merkle.next_level. cbn [length]. rewrite Nat.odd_succ_succ.
  destruct (Nat.odd (length l)) eqn:Ho; [|done]. destruct l as [|c l]; [done|]. cbn [app SHA256D64].
  by replace (last (a :: b :: c :: l)) with (last (c :: l)).
Qed.

Lemma next_level_ok l : (forall x, length (Hash x) = 32%nat) -> hashes_ok (next_level l).
Proof.
  intros Hl. unfold Merkle.next_level. generalize (if Nat.odd (length l) then l ++ option_list (last l) else l). clear l.
  intros l. enough (forall n l, (length l <= n)%nat -> hashes_ok (SHA256D64 Hash l)) as H by by apply (H (length l)).
  clear l. intros n. induction n as [|n IH]; intros [|a [|b l]] Hn; cbn in Hn; try (constructor; fail); [lia|].
  constructor; [apply Hl|]. apply IH. lia.
Qed.

Lemma level_ok h l : (forall x, length (Hash x) = 32%nat) -> hashes_ok l -> hashes_ok (level h l).
Proof. intros Hl Hok. destruct h as [|h]; [done|]. by apply next_level_ok. Qed.

Lemma next_level_inj l l' : hashes_ok l -> hashes_ok l' -> equal_pair l = false -> equal_pair l' = false ->
  next_level l = next_level l' -> l = l' \/ collision.
Proof.
  enough (forall n l l', (length l <= n)%nat -> hashes_ok l -> hashes_ok l' -> equal_pair l = false -> equal_pair l' = false ->
    next_level l = next_level l' -> l = l' \/ collision) as H by by apply (H (length l)).
  clear l l'. intros n. induction n as [|n IH]; intros l l' Hn Hok Hok' Hp Hp' E.
  { destruct l; [|cbn in Hn; lia]. left. destruct l' as [|a' [|b' l']]; [done..|]. by rewrite next_level_cons2 in E. }
  destruct l as [|a [|b l]], l' as [|a' [|b' l']]; rewrite ?next_level_cons2 in E; try discriminate; [by left| | | |].
  - injection E as E. apply Forall_cons in Hok as [Ha _], Hok' as [Ha' _].
    destruct (hash_pair_inj a a a' a' Ha Ha' E) as [[-> _]|]; by auto.
  - injection E as E _. apply Forall_cons in Hok as [Ha _], Hok' as [Ha' _].
    destruct (hash_pair_inj a a a' b' Ha Ha' E) as [[-> ->]|]; [|by auto]. cbn in Hp'. by rewrite bool_decide_eq_true_2 in Hp'.
  - injection E as E _. apply Forall_cons in Hok as [Ha _], Hok' as [Ha' _].
    destruct (hash_pair_inj a b a' a' Ha Ha' E) as [[-> ->]|]; [|by auto]. cbn in Hp. by rewrite bool_decide_eq_true_2 in Hp.
  - injection E as E El. apply Forall_cons in Hok as [Ha Hok], Hok' as [Ha' Hok']. apply Forall_cons in Hok as [_ Hok], Hok' as [_ Hok'].
    cbn [equal_pair] in Hp, Hp'. apply orb_false_iff in Hp as [_ Hp], Hp' as [_ Hp']. cbn in Hn.
    destruct (hash_pair_inj a b a' b' Ha Ha' E) as [[-> ->]|]; [|by auto].
    destruct (IH l l') as [->|]; [lia|done..| |]; by auto.
Qed.

Lemma levels_inj k l l' : (forall x, length (Hash x) = 32%nat) -> hashes_ok l -> hashes_ok l' ->
  mutated_below k l = false -> mutated_below k l' = false -> level k l = level k l' -> l = l' \/ collision.
Proof.
  intros Hl Hok Hok' Hm Hm'. induction k as [|k IH]; cbn [level]; [by left|].
  assert (forall m, mutated_below (S k) m = false -> equal_pair (level k m) = false /\ mutated_below k m = false) as Hsplit.
  { intros m. unfold mutated_below. rewrite seq_S, existsb_app. cbn. intros [? ?]%orb_false_iff. split; [|done].
    by apply orb_false_iff in H0 as [? _]. }
  destruct (Hsplit l Hm) as [Hp Hk], (Hsplit l' Hm') as [Hp' Hk']. intros E.
  apply next_level_inj in E as [E|]; [by apply IH|by right|by apply level_ok..|done|done].
Qed.

Lemma is_height_log2_up n : is_height n (Nat.log2_up n).
Proof.
  split; [apply width_small|].
  - destruct (decide (n = 0)%nat) as [->|]; [cbn; lia|]. apply Nat.log2_up_le_pow2; lia.
  - intros j Hj. apply width_lt. destruct (decide (n <= 1)%nat) as [Hn|Hn].
    + rewrite Nat.log2_up_eqn0 in Hj by done. lia.
    + rewrite Nat.mul_1_l. apply Nat.log2_up_lt_pow2 in Hj; lia.
Qed.

(** ** Building a partial tree *)

(** Whether a node has a matched leaf below it. *)
Definition parent_of_match (vm : list bool) (h i : nat) : bool := existsb id (take (2 ^ h) (drop (i * 2 ^ h) vm)).

(** The bits and the hashes that are stored for a node. *)
Fixpoint built (l : list uint256) (vm : list bool) (h i : nat) : list bool * list uint256 :=
  let b := parent_of_match vm h i in
  match h with
  | O => ([b], [l !!! i])
  | S h' =>
      if negb b then ([b], [level h l !!! i])
      else
        let '(bs, hs) := built l vm h' (2 * i) in
        let '(bs', hs') := if decide (2 * i + 1 < width (length l) h')%nat then built l vm h' (2 * i + 1) else ([], []) in
        (b :: bs ++ bs', hs ++ hs')
  end.

Lemma match_loop_spec n p vm b : (p + n <= length vm)%nat ->
  match_loop n (Z.of_nat p) vm b = Ok (b || existsb id (take n (drop p vm))).
Proof.
  revert p b. induction n as [|n IH]; intros p b Hp; cbn [match_loop]; [cbn; by rewrite orb_false_r|].
  rewrite vector_at_nat by lia. cbn [mbind result_bind]. replace (Z.of_nat p + 1) with (Z.of_nat (S p)) by lia.
  rewrite IH by lia. destruct (lookup_lt_is_Some_2 vm p) as [x Hx]; [lia|].
  rewrite (list_lookup_total_correct _ _ _ Hx), (drop_S _ _ _ Hx). cbn. by rewrite orb_assoc.
Qed.

Lemma first_last n h i : Z.of_nat n < 2 ^ 31 -> (h <= 31)%nat -> (i < width n h)%nat ->
  u32 (Z.shiftl (Z.of_nat i) (Z.of_nat h)) = Z.of_nat (i * 2 ^ h) /\
  u32 (Z.shiftl (Z.of_nat i + 1) (Z.of_nat h)) = Z.of_nat (i * 2 ^ h + 2 ^ h).
Proof.
  intros Hn Hh Hi%width_lt. rewrite !Z.shiftl_mul_pow2 by lia.
  assert (2 ^ Z.of_nat h = Z.of_nat (2 ^ h)) as E by by rewrite Nat2Z.inj_pow.
  assert (2 ^ Z.of_nat h <= 2 ^ 31) by (apply Z.pow_le_mono_r; lia).
  rewrite E. rewrite !u32_small by (unfold is_u32; lia). lia.
Qed.

Lemma take_clip {A} (m n : nat) (l : list A) : (length l <= n)%nat -> take (m `min` n) l = take m l.
Proof. intros Hl. destruct (Nat.min_spec m n) as [[_ ->]|[H ->]]; [done|]. rewrite !take_ge by lia. done. Qed.

Lemma node_matches n vm h i : length vm = n -> Z.of_nat n < 2 ^ 31 -> (h <= 31)%nat -> (i < width n h)%nat ->
  let first := u32 (Z.shiftl (Z.of_nat i) (Z.of_nat h)) in
  match_loop (Z.to_nat (Z.min (u32 (Z.shiftl (Z.of_nat i + 1) (Z.of_nat h))) (Z.of_nat n) - first)) first vm false =
  Ok (parent_of_match vm h i).
Proof.
  intros Hvm Hn Hh Hi. cbn zeta. destruct (first_last n h i Hn Hh Hi) as [-> ->]. apply width_lt in Hi.
  rewrite match_loop_spec by lia. cbn [orb]. unfold parent_of_match. f_equal. f_equal.
  rewrite <- (take_clip (2 ^ h) (n - i * 2 ^ h)) by (rewrite length_drop; lia). f_equal. lia.
Qed.

Lemma TraverseAndBuild_spec l vm t h i : length vm = length l -> Z.of_nat (length l) < 2 ^ 31 -> (h <= 31)%nat ->
  (i < width (length l) h)%nat -> nTransactions t = Z.of_nat (length l) ->
  TraverseAndBuild Hash t h (Z.of_nat i) l vm =
    Ok (mkPMT (nTransactions t) (vBits t ++ (built l vm h i).1) (vHash t ++ (built l vm h i).2) (fBad t)).
Proof.
  intros Hvm Hn. revert t i. induction h as [|h IH]; intros t i Hh Hi Ht; cbn [TraverseAndBuild];
    rewrite Ht, node_matches by done; cbn [mbind result_bind].
  - cbn [nTransactions vBits vHash fBad]. rewrite (CalcHash_spec l 0 i) by (done || lia). cbn. done.
  - cbn [nTransactions vBits vHash fBad built].
    destruct (parent_of_match vm (S h) i); cbn [negb].
    + destruct (child_pos (length l) h i Hn Hi) as (-> & -> & Hc).
      rewrite IH by (done || lia). cbn [mbind result_bind nTransactions vBits vHash fBad].
      rewrite CalcTreeWidth_width by lia. destruct (built l vm h (2 * i)) as [bs hs]. cbn [fst snd].
      destruct (Z.ltb_spec (Z.of_nat (2 * i + 1)) (Z.of_nat (width (length l) h))).
      * rewrite decide_True by lia. rewrite IH by (done || lia). cbn [nTransactions vBits vHash fBad].
        destruct (built l vm h (2 * i + 1)) as [bs' hs']. cbn [fst snd]. by rewrite <- !app_assoc.
      * rewrite decide_False by lia. cbn [fst snd]. by rewrite !app_nil_r, <- app_assoc.
    + rewrite (CalcHash_spec l (S h) i) by (done || lia). cbn [mbind result_bind fst snd]. done.
Qed.

(** ** Extracting from a partial tree that was built *)

(** The matched positions below a node. *)
Definition matched (vm : list bool) (h i : nat) : list nat :=
  filter (fun p => vm !! p = Some true) (seq (i * 2 ^ h) (2 ^ h)).

Lemma equal_pair_false l i : equal_pair l = false -> (2 * i + 1 < length l)%nat -> l !!! (2 * i + 1)%nat <> l !!! (2 * i)%nat.
Proof.
  revert l. induction i as [|i IH]; intros [|a [|b l]] Hp Hl; cbn [length] in Hl; try lia;
    cbn [equal_pair] in Hp; apply orb_false_iff in Hp as [Hab Hp]; apply bool_decide_eq_false in Hab.
  - cbn. by intros ->.
  - replace (2 * S i + 1)%nat with (S (S (2 * i + 1))) by lia. replace (2 * S i)%nat with (S (S (2 * i))) by lia.
    apply (IH l Hp). lia.
Qed.

Lemma matched_none vm h i : parent_of_match vm h i = false -> matched vm h i = [].
Proof.
  unfold parent_of_match, matched. intros Hp. apply elem_of_nil_inv. intros p [Hp1 Hp2]%list_elem_of_filter.
  apply elem_of_seq in Hp2. apply not_true_iff_false in Hp. apply Hp, existsb_exists. exists true. split; [|done].
  apply list_elem_of_In, list_elem_of_lookup. exists (p - i * 2 ^ h)%nat. rewrite lookup_take_lt, lookup_drop by lia.
  rewrite <- Hp1. f_equal. lia.
Qed.

Lemma matched_leaf vm i : parent_of_match vm 0 i = true -> matched vm 0 i = [i].
Proof.
  unfold parent_of_match, matched. cbn [Nat.pow seq]. rewrite Nat.mul_1_r. intros Hp.
  apply existsb_exists in Hp as ([] & Hin & He); [|done]. apply list_elem_of_In, list_elem_of_lookup in Hin as [j Hj].
  apply lookup_take_Some in Hj as [Hj Hlt]. rewrite lookup_drop in Hj. assert (j = 0)%nat as -> by lia. rewrite Nat.add_0_r in Hj.
  cbn. unfold filter. cbn. by rewrite decide_True.
Qed.

Lemma matched_node vm h i : matched vm (S h) i = matched vm h (2 * i) ++ matched vm h (2 * i + 1).
Proof.
  unfold matched. rewrite <- filter_app. f_equal. rewrite Nat.pow_succ_r'.
  replace (2 * 2 ^ h)%nat with (2 ^ h + 2 ^ h)%nat by lia. rewrite seq_app. f_equal; f_equal; lia.
Qed.

Lemma matched_beyond vm h i : (length vm <= i * 2 ^ h)%nat -> matched vm h i = [].
Proof.
  intros Hl. apply elem_of_nil_inv. intros p [Hp1 Hp2]%list_elem_of_filter. apply elem_of_seq in Hp2.
  apply lookup_lt_Some in Hp1. lia.
Qed.

Lemma drop_cons_inv {A} k (v : list A) a r : drop k v = a :: r -> v !! k = Some a /\ drop (S k) v = r.
Proof.
  intros E. split.
  - replace (v !! k) with (drop k v !! 0%nat) by (rewrite lookup_drop; f_equal; lia). by rewrite E.
  - replace (S k) with (k + 1)%nat by lia. by rewrite <- drop_drop, E.
Qed.

Lemma TraverseAndExtract_built l vm t x h i rb rh : length vm = length l -> Z.of_nat (length l) < 2 ^ 31 -> (h <= 31)%nat ->
  (i < width (length l) h)%nat -> nTransactions t = Z.of_nat (length l) ->
  (forall j, (j < h)%nat -> equal_pair (level j l) = false) ->
  drop (nBitsUsed x) (vBits t) = (built l vm h i).1 ++ rb -> drop (nHashUsed x) (vHash t) = (built l vm h i).2 ++ rh ->
  TraverseAndExtract Hash t h (Z.of_nat i) x =
    (level h l !!! i,
     mkExtraction (nBitsUsed x + length (built l vm h i).1) (nHashUsed x + length (built l vm h i).2)
       (x_vMatch x ++ ((fun p => l !!! p) <$> matched vm h i)) (x_vnIndex x ++ (Z.of_nat <$> matched vm h i)) (x_fBad x)).
Proof.
  intros Hvm Hn. revert x i rb rh. induction h as [|h IH]; intros x i rb rh Hh Hi Ht Hpairs Eb Eh; cbn [built] in *.
  - cbn [fst snd app] in *. apply drop_cons_inv in Eb as [Eb _], Eh as [Eh _]. cbn [TraverseAndExtract]. rewrite Eb. cbn [nHashUsed].
    rewrite Eh. cbn [length fst snd Nat.eqb andb]. destruct (parent_of_match vm 0 i) eqn:Ep.
    + rewrite (matched_leaf _ _ Ep). cbn. rewrite !Nat.add_1_r. done.
    + rewrite (matched_none _ _ _ Ep). cbn. by rewrite !Nat.add_1_r, !app_nil_r.
  - destruct (parent_of_match vm (S h) i) eqn:Ep; cbn [negb] in *.
    + destruct (built l vm h (2 * i)) as [bs hs] eqn:E1.
      destruct (if decide (2 * i + 1 < width (length l) h)%nat then built l vm h (2 * i + 1) else ([], [])) as [bs' hs'] eqn:E2.
      cbn [fst snd app] in *. apply drop_cons_inv in Eb as [Eb0 Eb]. rewrite <- app_assoc in Eb, Eh.
      cbn [TraverseAndExtract]. rewrite Eb0. cbn [negb].
      destruct (child_pos (length l) h i Hn Hi) as (-> & -> & Hc).
      rewrite (IH _ (2 * i)%nat (bs' ++ rb) (hs' ++ rh)); [|lia|done|done|intros; apply Hpairs; lia|by rewrite E1|by rewrite E1].
      rewrite E1. cbn [fst snd nBitsUsed nHashUsed x_vMatch x_vnIndex x_fBad].
      rewrite Ht, CalcTreeWidth_width by lia. rewrite (list_lookup_total_correct _ _ _ (level_lookup h l i Hi)).
      unfold sibling. rewrite level_length, matched_node.
      destruct (Z.ltb_spec (Z.of_nat (2 * i + 1)) (Z.of_nat (width (length l) h))).
      * rewrite decide_True in E2 by lia. rewrite decide_True by lia.
        rewrite (IH _ (2 * i + 1)%nat rb rh); [|lia|lia|done|intros; apply Hpairs; lia| |].
        -- rewrite E2. cbn [fst snd nBitsUsed nHashUsed x_vMatch x_vnIndex x_fBad].
           rewrite bool_decide_eq_false_2 by (apply equal_pair_false; [apply Hpairs; lia|rewrite level_length; lia]).
           rewrite !fmap_app, !length_app, !app_assoc. cbn [length]. f_equal. f_equal; rewrite ?length_app; lia.
        -- cbn [nBitsUsed]. rewrite E2. cbn [fst]. rewrite <- drop_drop, Eb. by rewrite drop_app_length.
        -- cbn [nHashUsed]. rewrite E2. cbn [snd]. rewrite <- drop_drop, Eh. by rewrite drop_app_length.
      * rewrite decide_False in E2 by lia. injection E2 as <- <-. rewrite decide_False by lia.
        rewrite (matched_beyond vm h (2 * i + 1)) by (rewrite Hvm; apply Nat.nlt_ge; intros Hlt; apply width_lt in Hlt; lia).
        rewrite !app_nil_r. cbn [length]. f_equal. f_equal; lia.
    + cbn [fst snd app] in *. apply drop_cons_inv in Eb as [Eb _], Eh as [Eh _]. cbn [TraverseAndExtract]. rewrite Eb. cbn [nHashUsed negb].
      rewrite Eh. cbn [length fst snd Nat.eqb andb]. rewrite (matched_none _ _ _ Ep). cbn. by rewrite !Nat.add_1_r, !app_nil_r.
Qed.

End levels.

(** ** Bits and bytes *)

Lemma pack_loop_spec bits p v : (p + length bits <= length v * 8)%nat -> Forall is_byte v ->
  let w := pack_loop bits p v in
  length w = length v /\ Forall is_byte w /\
  forall q r, (q < length v)%nat -> (r < 8)%nat ->
    Z.testbit (w !!! q) (Z.of_nat r) =
    Z.testbit (v !!! q) (Z.of_nat r) || default false (if decide (p <= q * 8 + r)%nat then bits !! (q * 8 + r - p)%nat else None).
Proof.
  revert p v. induction bits as [|b bits IH]; intros p v Hp Hv; cbn [pack_loop length] in *.
  { split_and!; [done..|]. intros q r _ _. by destruct (decide _); rewrite orb_false_r. }
  assert (p / 8 < length v)%nat as Hq by (apply Nat.Div0.div_lt_upper_bound; lia).
  assert (p mod 8 < 8)%nat as Hr by (apply Nat.mod_upper_bound; lia).
  assert (p = p / 8 * 8 + p mod 8)%nat as Ep by (rewrite Nat.mul_comm; apply Nat.div_mod; lia).
  set (c := u8 _). destruct (IH (S p) (<[(p / 8)%nat := c]> v)) as (Hl & Hb & Ht).
  { rewrite length_insert. lia. }
  { apply Forall_insert; [done|]. apply u8_range. }
  rewrite length_insert in Hl, Ht. split_and!; [done..|]. intros q r Hqv Hr8. rewrite Ht by done.
  destruct (decide (q = p / 8)%nat) as [->|Hne].
  - rewrite list_lookup_total_insert_eq by done. unfold c, u8. rewrite Z.mod_pow2_bits_low by lia.
    rewrite Z.lor_spec, Z.shiftl_spec by lia.
    destruct (decide (r = p mod 8)%nat) as [->|Hrne].
    + rewrite Z.sub_diag, <- Ep, decide_False, decide_True by lia. rewrite Nat.sub_diag. cbn. rewrite orb_false_r. by destruct b.
    + assert (Z.testbit (if b then 1 else 0) (Z.of_nat r - Z.of_nat (p mod 8)) = false) as ->.
      { destruct b; [|apply Z.bits_0]. destruct (Z.lt_ge_cases (Z.of_nat r) (Z.of_nat (p mod 8))).
        - by rewrite Z.testbit_neg_r by lia.
        - change 1 with (2 ^ 0). rewrite Z.pow2_bits_false by lia. done. }
      rewrite orb_false_r. f_equal. destruct (decide (S p <= _)%nat).
      * rewrite decide_True by lia. by replace (p / 8 * 8 + r - p)%nat with (S (p / 8 * 8 + r - S p)) by lia.
      * rewrite decide_False by lia. done.
  - rewrite list_lookup_total_insert_ne by done. f_equal. destruct (decide (S p <= _)%nat).
    + rewrite decide_True by lia. by replace (q * 8 + r - p)%nat with (S (q * 8 + r - S p)) by lia.
    + rewrite decide_False; [done|]. lia.
Qed.

Lemma pack_bits_length bits : length (pack_bits bits) = ((length bits + 7) / 8)%nat /\ Forall is_byte (pack_bits bits).
Proof.
  unfold pack_bits. destruct (pack_loop_spec bits 0 (replicate ((length bits + 7) / 8) 0)) as (Hl & Hb & _).
  - rewrite length_replicate. pose proof (Nat.div_mod (length bits + 7) 8 ltac:(lia)).
    pose proof (Nat.mod_upper_bound (length bits + 7) 8 ltac:(lia)). lia.
  - apply Forall_replicate. unfold is_byte. lia.
  - by rewrite length_replicate in Hl.
Qed.

(** Unpacking pads the bits to a whole number of bytes. *)
Lemma unpack_pack bits : exists pad, unpack_bits (pack_bits bits) = bits ++ replicate pad false /\ (pad < 8)%nat.
Proof.
  destruct (pack_bits_length bits) as [Hl _].
  assert (length bits <= (length bits + 7) / 8 * 8 < length bits + 8)%nat as Hpad.
  { pose proof (Nat.div_mod (length bits + 7) 8 ltac:(lia)). pose proof (Nat.mod_upper_bound (length bits + 7) 8 ltac:(lia)). lia. }
  exists ((length bits + 7) / 8 * 8 - length bits)%nat. split; [|lia].
  apply list_eq. intros p. unfold unpack_bits. rewrite Hl, list_lookup_fmap.
  destruct (decide (p < (length bits + 7) / 8 * 8)%nat) as [Hp|Hp].
  2:{ rewrite lookup_seq_ge by lia. symmetry. apply lookup_ge_None. rewrite length_app, length_replicate. lia. }
  rewrite lookup_seq_lt by done. cbn [fmap option_fmap option_map]. cbn [Nat.add].
  rewrite land_bit_zero, negb_involutive by lia. unfold pack_bits.
  destruct (pack_loop_spec bits 0 (replicate ((length bits + 7) / 8) 0)) as (_ & _ & Ht).
  { rewrite length_replicate. lia. }
  { apply Forall_replicate. unfold is_byte. lia. }
  rewrite Ht; [|rewrite length_replicate; apply Nat.Div0.div_lt_upper_bound; lia|apply Nat.mod_upper_bound; lia].
  rewrite lookup_total_replicate_2 by (apply Nat.Div0.div_lt_upper_bound; lia). rewrite Z.bits_0. cbn [orb].
  rewrite decide_True by lia. rewrite Nat.sub_0_r, (Nat.mul_comm _ 8), <- Nat.div_mod by lia.
  destruct (bits !! p) as [b|] eqn:Eb; cbn [from_option].
  - symmetry. by apply lookup_app_l_Some.
  - apply lookup_ge_None in Eb. rewrite lookup_app_r, lookup_replicate_2 by lia. done.
Qed.

(** ** Extraction *)

Section extraction.
Context (Hash : list Z -> uint256).

Lemma built_counts l vm h i : (i < width (length l) h)%nat ->
  let '(bs, hs) := built Hash l vm h i in
  (length hs <= length bs)%nat /\ (length hs <= 2 ^ h)%nat /\ (length hs <= length l - i * 2 ^ h)%nat.
Proof.
  revert i. induction h as [|h IH]; intros i Hi; cbn [built].
  { apply width_lt in Hi. cbn in *. lia. }
  pose proof (pow2_pos h). pose proof (proj1 (width_lt _ _ _) Hi) as Hi'. rewrite Nat.pow_succ_r' in *.
  destruct (parent_of_match vm (S h) i); cbn [negb]; [|cbn; lia].
  assert (2 * i < width (length l) h)%nat as Hc by (apply width_lt; lia).
  specialize (IH (2 * i)%nat Hc) as H1. destruct (built Hash l vm h (2 * i)) as [bs hs].
  destruct (decide _) as [Hd|Hd].
  - specialize (IH (2 * i + 1)%nat Hd). destruct (built Hash l vm h (2 * i + 1)) as [bs' hs']. apply width_lt in Hd.
    cbn [length]. rewrite !length_app. lia.
  - cbn [length]. rewrite !length_app. cbn [length]. lia.
Qed.

Lemma built_hashes_ok l vm h i : (forall x, uint256_ok (Hash x)) -> Forall uint256_ok l -> (i < width (length l) h)%nat ->
  Forall uint256_ok (built Hash l vm h i).2.
Proof.
  intros Hh Hl. assert (forall h i, (i < width (length l) h)%nat -> uint256_ok (level Hash h l !!! i)) as Hlev.
  { intros [|h'] j Hj.
    - cbn [level]. apply Forall_lookup_total; [done|]. apply width_lt in Hj. cbn in Hj. lia.
    - rewrite (list_lookup_total_correct _ _ _ (level_lookup Hash h' l j Hj)). apply Hh. }
  revert i. induction h as [|h IH]; intros i Hi; cbn [built].
  { cbn [snd]. apply Forall_singleton. exact (Hlev 0%nat i Hi). }
  destruct (parent_of_match vm (S h) i); cbn [negb]; [|cbn [snd]; apply Forall_singleton; exact (Hlev (S h) i Hi)].
  assert (2 * i < width (length l) h)%nat as Hc by (apply width_lt in Hi; apply width_lt; rewrite Nat.pow_succ_r' in Hi; lia).
  specialize (IH (2 * i)%nat Hc) as H1. destruct (built Hash l vm h (2 * i)) as [bs hs].
  destruct (decide _) as [Hd|Hd].
  - specialize (IH (2 * i + 1)%nat Hd). destruct (built Hash l vm h (2 * i + 1)) as [bs' hs']. by apply Forall_app.
  - cbn in *. by rewrite app_nil_r.
Qed.

(** All matched positions. *)
Definition matches (vm : list bool) : list nat := filter (fun p => vm !! p = Some true) (seq 0 (length vm)).

Lemma matched_all vm k : (length vm <= 2 ^ k)%nat -> matched vm k 0 = matches vm.
Proof.
  intros Hk. unfold matched, matches. replace (2 ^ k)%nat with (length vm + (2 ^ k - length vm))%nat by lia.
  rewrite Nat.mul_0_l, seq_app, filter_app. rewrite <- (app_nil_r (filter _ (seq 0 (length vm)))) at 2. f_equal.
  apply elem_of_nil_inv. intros p [Hp1 Hp2]%list_elem_of_filter. apply elem_of_seq in Hp2. apply lookup_lt_Some in Hp1. lia.
Qed.

(** A built tree, its bits padded to bytes or not, gives back the root and the matches. *)
Lemma ExtractMatches_built l vm k pad idx root : length vm = length l -> (0 < length l)%nat ->
  Z.of_nat (length l) <= MAX_DIP0001_BLOCK_SIZE / 60 -> is_height (length l) k -> (pad < 8)%nat ->
  (exists m, length (built Hash l vm k 0).1 + pad = m * 8)%nat \/ pad = 0%nat ->
  ComputeMerkleRoot Hash l true = Ok (root, false) ->
  ExtractMatches Hash (mkPMT (Z.of_nat (length l)) ((built Hash l vm k 0).1 ++ replicate pad false) (built Hash l vm k 0).2 false) idx =
    Ok (root, ((fun p => l !!! p) <$> matches vm, idx ++ (Z.of_nat <$> matches vm), false)).
Proof.
  intros Hvm Hpos Hmax Hk Hpad Hpadm Hroot. change (MAX_DIP0001_BLOCK_SIZE / 60) with 33333 in Hmax.
  rewrite (ComputeMerkleRoot_spec Hash k) in Hroot by done. injection Hroot as Hroot Hmut. cbn [andb] in Hmut.
  assert (width (length l) k = 1)%nat as Hw by (pose proof (width_pos (length l) k Hpos); destruct Hk; lia).
  assert (0 < width (length l) k)%nat as Hw0 by lia.
  pose proof (built_counts l vm k 0 Hw0) as Hcount.
  destruct (built Hash l vm k 0) as [bs hs] eqn:Eb. destruct Hcount as (Hc1 & _ & Hc2). cbn [fst snd] in Hpadm.
  unfold ExtractMatches. cbn [nTransactions vBits vHash fBad fst snd]. change (MAX_DIP0001_BLOCK_SIZE / 60) with 33333.
  rewrite (proj2 (Z.eqb_neq _ _)) by lia. rewrite !(proj2 (Z.ltb_ge _ _)) by lia.
  rewrite length_app, length_replicate, (proj2 (Nat.ltb_ge _ _)) by lia.
  destruct (TreeHeight_spec (length l)) as (k' & -> & Hk' & Hk31); [lia|].
  assert (k' = k) as -> by by apply (is_height_unique (length l)). cbn [mbind result_bind].
  change 0 with (Z.of_nat 0). rewrite (TraverseAndExtract_built Hash l vm _ _ k 0 (replicate pad false) []); try done.
  - rewrite Eb. cbn [fst snd nBitsUsed nHashUsed x_vMatch x_vnIndex x_fBad]. rewrite !Nat.add_0_l, Nat.eqb_refl. cbn [negb app].
    assert ((length bs + 7) / 8 = (length bs + pad + 7) / 8)%nat as ->.
    { destruct Hpadm as [[m Hm]| ->]; [|by rewrite Nat.add_0_r]. rewrite Hm. replace (length bs + 7)%nat with (m * 8 + (7 - pad))%nat by lia.
      rewrite !Nat.div_add_l by lia. rewrite !Nat.div_small by lia. done. }
    rewrite Nat.eqb_refl. cbn [negb]. rewrite matched_all.
    + destruct (level Hash k l) as [|top lev] eqn:El; [|cbn in Hroot; by rewrite Hroot].
      apply (f_equal length) in El. rewrite level_length in El. cbn in El. lia.
    + rewrite Hvm. apply Nat.nlt_ge. intros Hlt. assert (1 < width (length l) k)%nat; [apply width_lt; lia|lia].
  - lia.
  - intros j Hj. unfold mutated_below in Hmut. apply not_true_iff_false. intros Hj'.
    apply not_true_iff_false in Hmut. apply Hmut, existsb_exists. exists j. split; [|done]. apply in_seq. lia.
  - by rewrite Eb.
  - rewrite Eb. cbn. by rewrite app_nil_r.
Qed.

End extraction.

(** ** Soundness of extraction *)

Section soundness.
Context (Hash : list Z -> uint256) (Hash_length : forall x, length (Hash x) = 32%nat).

(** The matches that extraction has appended are leaves at the positions given. *)
Definition appended (l : list uint256) (x x' : Extraction) : Prop :=
  exists ms ps, x_vMatch x' = x_vMatch x ++ ms /\ x_vnIndex x' = x_vnIndex x ++ ps /\
    Forall2 (fun h p => 0 <= p /\ l !! Z.to_nat p = Some h) ms ps.

Lemma appended_none l x x' : x_vMatch x' = x_vMatch x -> x_vnIndex x' = x_vnIndex x -> appended l x x'.
Proof. intros E1 E2. exists [], []. by rewrite !app_nil_r. Qed.

Lemma appended_trans l x y z : appended l x y -> appended l y z -> appended l x z.
Proof.
  intros (ms & ps & E1 & E2 & Hf) (ms' & ps' & E1' & E2' & Hf'). exists (ms ++ ms'), (ps ++ ps').
  rewrite E1', E1, E2', E2, !app_assoc. split_and!; [done..|]. by apply Forall2_app.
Qed.

Lemma TraverseAndExtract_sound l t h i x r x' : hashes_ok l -> hashes_ok (vHash t) ->
  Z.of_nat (length l) < 2 ^ 31 -> (h <= 31)%nat -> (i < width (length l) h)%nat -> nTransactions t = Z.of_nat (length l) ->
  TraverseAndExtract Hash t h (Z.of_nat i) x = (r, x') -> x_fBad x' = false ->
  x_fBad x = false /\ length r = 32%nat /\ (r = level Hash h l !!! i -> appended l x x' \/ collision Hash).
Proof.
  intros Hl Ht Hn. revert i x r x'. induction h as [|h IH]; intros i x r x' Hh Hi Hnt E Hbad; cbn [TraverseAndExtract] in E;
    (destruct (vBits t !! nBitsUsed x) as [b|]; [|by injection E as <- <-]).
  - cbn [nHashUsed] in E. destruct (vHash t !! nHashUsed x) as [hash|] eqn:Eh; [|by injection E as <- <-].
    assert (length hash = 32%nat) as Hlen by (by apply (proj1 (Forall_lookup _ _) Ht _ _ Eh)).
    destruct b; injection E as <- <-; cbn [level x_fBad Nat.eqb andb] in *; (split_and!; [done..|]); intros ->; left.
    + exists [l !!! i], [Z.of_nat i]. split_and!; [done..|]. apply Forall2_cons. split; [|done]. split; [lia|]. rewrite Nat2Z.id.
      apply list_lookup_lookup_total_lt. apply width_lt in Hi. cbn in Hi. lia.
    + by apply appended_none.
  - destruct b; cbn [negb] in E.
    2:{ cbn [nHashUsed] in E. destruct (vHash t !! nHashUsed x) as [hash|] eqn:Eh; [|by injection E as <- <-].
        injection E as <- <-. cbn in *. split_and!; [done|by apply (proj1 (Forall_lookup _ _) Ht _ _ Eh)|]. intros _. left. by apply appended_none. }
    destruct (child_pos (length l) h i Hn Hi) as (E0 & E1 & Hc). rewrite E0, E1 in E.
    destruct (TraverseAndExtract Hash t h (Z.of_nat (2 * i)) _) as [lh x1] eqn:EL.
    rewrite Hnt, CalcTreeWidth_width in E by lia.
    rewrite (list_lookup_total_correct _ _ _ (level_lookup Hash h l i Hi)). unfold sibling. rewrite level_length.
    assert (length (level Hash h l !!! (2 * i)%nat) = 32%nat) as Hlev.
    { apply Forall_lookup_total; [by apply level_ok|rewrite level_length; lia]. }
    destruct (Z.ltb_spec (Z.of_nat (2 * i + 1)) (Z.of_nat (width (length l) h))) as [Hw|Hw].
    + destruct (TraverseAndExtract Hash t h (Z.of_nat (2 * i + 1)) x1) as [rh x2] eqn:ER.
      case_bool_decide as Hne; injection E as <- <-; [done|].
      destruct (IH (2 * i + 1)%nat x1 rh x2) as (Hb1 & Hr & Hs2); [lia|lia|done..|].
      destruct (IH _ _ _ _ (le_S_n _ _ (le_S _ _ Hh)) Hc Hnt EL Hb1) as (Hb0 & Hlh & Hs1). cbn [x_fBad] in Hb0.
      split_and!; [done|apply Hash_length|]. rewrite decide_True by lia.
      intros [[-> ->]|]%hash_pair_inj; [|by right|done|done].
      destruct (Hs1 eq_refl) as [A1|]; [|by right]. destruct (Hs2 eq_refl) as [A2|]; [|by right]. left.
      by apply (appended_trans _ _ x1).
    + injection E as <- <-. destruct (IH _ _ _ _ (le_S_n _ _ (le_S _ _ Hh)) Hc Hnt EL Hbad) as (Hb0 & Hlh & Hs1). cbn [x_fBad] in Hb0.
      split_and!; [done|apply Hash_length|]. rewrite decide_False by lia.
      intros [[-> _]|]%hash_pair_inj; [|by right|done|done]. by apply Hs1.
Qed.

End soundness.

(** ** The wire format *)

#[local] Instance uint256_laws : SerialLaws uint256.
Proof.
  refine {| ser_ok := uint256_ok |}.
  - intros h s Hh. by apply read_uint256_app.
  - by intros h [_ Hh].
Defined.

Lemma unser_partial_tree n bits hs s : is_u32 n -> Forall uint256_ok hs -> Z.of_nat (length hs) <= MAX_SIZE ->
  Z.of_nat (length bits) <= MAX_SIZE ->
  unser (ser (mkPMT n bits hs false) ++ s) = Ok (mkPMT n (unpack_bits (pack_bits bits)) hs false, s).
Proof.
  intros Hn Hhs Hlen Hbits. unfold ser, unser, PartialMerkleTree_serial. cbn [nTransactions vHash vBits].
  rewrite <- !app_assoc. unfold ser_readdata32, ser_writedata32. rewrite read_le_bytes by exact Hn. cbn [mbind result_bind].
  rewrite unser_vector_ser by (done || by split). cbn [mbind result_bind].
  destruct (pack_bits_length bits) as [Hl Hb]. rewrite unser_byte_vector_ser; [done|]. split; [done|]. rewrite Hl.
  assert ((length bits + 7) / 8 <= length bits)%nat; [|lia].
  destruct (decide (length bits = 0)%nat) as [->|]; [cbn; lia|]. apply Nat.Div0.div_le_upper_bound. lia.
Qed.

Lemma built_bits_bound Hash l vm h i : (length (built Hash l vm h i).1 < 2 * 2 ^ h)%nat.
Proof.
  revert i. induction h as [|h IH]; intros i; cbn [built]; [cbn; lia|]. rewrite Nat.pow_succ_r'. pose proof (pow2_pos h).
  destruct (parent_of_match vm (S h) i); cbn [negb]; [|cbn [fst length]; lia].
  specialize (IH (2 * i)%nat) as H1. destruct (built Hash l vm h (2 * i)) as [bs hs].
  destruct (decide _); [|cbn [fst length] in *; rewrite app_nil_r; lia].
  specialize (IH (2 * i + 1)%nat) as H2. destruct (built Hash l vm h (2 * i + 1)) as [bs' hs']. cbn [fst length] in *.
  rewrite length_app. lia.
Qed.

(** ** Properties *)

(** A Merkle root binds the transactions.  If two non-empty lists of hashes
    that need the same number of levels have the same root and neither is reported
    as mutated, then they are the same list, or two different messages with the same
    hash are known. *)
Theorem merkle_root_binding (Hash : list Z -> uint256) (l l' : list uint256) (root : uint256) :
  (forall x, length (Hash x) = 32%nat) -> hashes_ok l -> hashes_ok l' -> l <> [] -> l' <> [] ->
  Nat.log2_up (length l) = Nat.log2_up (length l') ->
  ComputeMerkleRoot Hash l true = Ok (root, false) -> ComputeMerkleRoot Hash l' true = Ok (root, false) ->
  l = l' \/ collision Hash.
Proof.
  intros Hlen Hok Hok' Hne Hne' Hh. pose proof (is_height_log2_up (length l)) as Hk. pose proof (is_height_log2_up (length l')) as Hk'.
  rewrite (ComputeMerkleRoot_spec Hash _ true l Hk), (ComputeMerkleRoot_spec Hash _ true l' Hk'). rewrite <- Hh in *.
  set (k := Nat.log2_up (length l)) in *. intros [= E1 Hm] [= E2 Hm']. apply (levels_inj Hash k); [done..|].
  assert (forall m, m <> [] -> (width (length m) k <= 1)%nat -> exists x, level Hash k m = [x]) as Hone.
  { intros m Hm0 Hw. rewrite <- (level_length Hash) in Hw. pose proof (width_pos (length m) k) as Hp. rewrite <- (level_length Hash) in Hp.
    destruct (level Hash k m) as [|x [|y m']]; [|by exists x|cbn in Hw; lia]. destruct m; [done|]. cbn in Hp. lia. }
  destruct (Hone l Hne (proj1 Hk)) as [x Ex], (Hone l' Hne' (proj1 Hk')) as [y Ey]. rewrite Ex, Ey in *. cbn in E1, E2. congruence.
Qed.

(** Partial Merkle trees are complete.  For a block whose Merkle root is not
    reported as mutated, the tree built for any selection of its transactions
    survives being sent (its bits come back padded to whole bytes), and extraction
    from the tree or from what was received returns the block's Merkle root, the
    selected transaction ids and their positions. *)
Theorem partial_tree_complete (Hash : list Z -> uint256) (l : list uint256) (vm : list bool) (root : uint256) (s : list Z) :
  (forall x, uint256_ok (Hash x)) -> Forall uint256_ok l -> length vm = length l -> (0 < length l)%nat ->
  Z.of_nat (length l) <= MAX_DIP0001_BLOCK_SIZE / 60 -> ComputeMerkleRoot Hash l true = Ok (root, false) ->
  exists t t', PartialMerkleTree Hash l vm = Ok t /\ unser (ser t ++ s) = Ok (t', s) /\
    forall u, u = t \/ u = t' ->
      ExtractMatches Hash u [] = Ok (root, ((fun p => l !!! p) <$> matches vm, Z.of_nat <$> matches vm, false)).
Proof.
  intros Hh Hl Hvm Hpos Hmax Hroot. pose proof Hmax as Hmax'. change (MAX_DIP0001_BLOCK_SIZE / 60) with 33333 in Hmax'.
  destruct (TreeHeight_spec (length l)) as (k & Ek & Hk & Hk31); [lia|].
  pose proof (width_pos (length l) k Hpos) as Hw. pose proof (built_counts Hash l vm k 0 Hw) as Hcount.
  pose proof (built_hashes_ok Hash l vm k 0 Hh Hl Hw) as Hhs.
  destruct (unpack_pack (built Hash l vm k 0).1) as (pad & Epad & Hpad).
  exists (mkPMT (Z.of_nat (length l)) (built Hash l vm k 0).1 (built Hash l vm k 0).2 false),
    (mkPMT (Z.of_nat (length l)) ((built Hash l vm k 0).1 ++ replicate pad false) (built Hash l vm k 0).2 false).
  split_and!.
  - unfold PartialMerkleTree. rewrite u32_small by (unfold is_u32; lia). rewrite Ek. cbn [mbind result_bind].
    change 0 with (Z.of_nat 0) at 1. by rewrite TraverseAndBuild_spec by (done || lia).
  - rewrite <- Epad. apply unser_partial_tree; [unfold is_u32; lia|done|..].
    + destruct (built Hash l vm k 0) as [bs hs]. cbn [snd]. unfold MAX_SIZE. lia.
    + pose proof (built_bits_bound Hash l vm k 0) as Hb. assert (2 ^ k <= 2 ^ 16)%nat as H16.
      { apply Nat.pow_le_mono_r; [lia|]. apply Nat.nlt_ge. intros Hlt. destruct Hk as [_ Hk]. specialize (Hk 16%nat Hlt).
        apply width_lt in Hk. change (2 ^ 16)%nat with (Z.to_nat 65536) in Hk. lia. }
      apply inj_le in H16. rewrite (Nat2Z.inj_pow 2 16) in H16. change (Z.of_nat 2 ^ Z.of_nat 16) with 65536 in H16. unfold MAX_SIZE. lia.
  - intros u [->| ->].
    + rewrite <- (app_nil_r (built Hash l vm k 0).1). change [] with (replicate 0 false) at 1.
      rewrite (ExtractMatches_built Hash l vm k 0 [] root); try done; [lia|by right].
    + rewrite (ExtractMatches_built Hash l vm k pad [] root); try done. left.
      destruct (pack_bits_length (built Hash l vm k 0).1) as [El _]. exists (length (pack_bits (built Hash l vm k 0).1)).
      apply (f_equal length) in Epad. unfold unpack_bits in Epad. rewrite length_fmap, length_seq, length_app, length_replicate in Epad. lia.
Qed.

(** C26: Partial Merkle trees are sound.  Whatever tree a peer sends, if extraction
    succeeds with the Merkle root of a block that has the stated number of
    transactions, then every extracted id is the id of the block's transaction at
    the position reported with it, or two different messages with the same hash are
    known. *)
Theorem partial_tree_sound (Hash : list Z -> uint256) (t : CPartialMerkleTree) (l ms : list uint256) (ps : list Z) (root : uint256)
    (mutated bad : bool) :
  (forall x, length (Hash x) = 32%nat) -> hashes_ok l -> hashes_ok (vHash t) -> nTransactions t = Z.of_nat (length l) ->
  ComputeMerkleRoot Hash l true = Ok (root, mutated) -> root <> uint256_null ->
  ExtractMatches Hash t [] = Ok (root, (ms, ps, bad)) ->
  Forall2 (fun h p => 0 <= p /\ l !! Z.to_nat p = Some h) ms ps \/ collision Hash.
Proof.
  intros Hlen Hl Ht Hn Hroot Hnull. unfold ExtractMatches. change (MAX_DIP0001_BLOCK_SIZE / 60) with 33333.
  destruct (Z.eqb_spec (nTransactions t) 0); [by intros [= ? ?]|].
  destruct (Z.ltb_spec 33333 (nTransactions t)); [by intros [= ? ?]|].
  destruct (nTransactions t <? _); [by intros [= ? ?]|]. destruct (_ <? _)%nat; [by intros [= ? ?]|].
  destruct (TreeHeight_spec (length l)) as (k & Ek & Hk & Hk31); [lia|]. rewrite Hn, Ek. cbn [mbind result_bind].
  destruct (TraverseAndExtract _ _ _ _ _) as [r x] eqn:Ex. destruct (x_fBad x) eqn:Hbad; [by intros [= ? ?]|].
  destruct (negb _); [by intros [= ? ?]|]. destruct (negb _); [by intros [= ? ?]|]. intros [= -> <- <- _].
  assert (0 < length l)%nat as Hpos by lia. pose proof (width_pos (length l) k Hpos) as Hw.
  rewrite (ComputeMerkleRoot_spec Hash k) in Hroot by done. injection Hroot as Hroot _.
  assert (root = level Hash k l !!! 0%nat) as Htop.
  { destruct (level Hash k l) eqn:El; [|by rewrite <- Hroot]. apply (f_equal length) in El. rewrite level_length in El. cbn in El. lia. }
  change 0 with (Z.of_nat 0) in Ex.
  destruct (TraverseAndExtract_sound Hash Hlen l t k 0 _ root x Hl Ht ltac:(lia) Hk31 Hw Hn Ex Hbad) as (_ & _ & [A|]); [done| |by right].
  left. destruct A as (ms & ps & -> & -> & Hf). done.
Qed.

(** A hash for the instances below. *)
Definition toy_hash (x : list Z) : uint256 := le_bytes 32 (foldl (fun a b => (a * 31 + b + 7) mod 65521) 1 x).

Lemma toy_hash_ok x : uint256_ok (toy_hash x).
Proof. split; [apply le_bytes_length|apply le_bytes_byte]. Qed.

Definition toy_ids (n : nat) : list uint256 := (fun i => le_bytes 32 (Z.of_nat i + 1)) <$> seq 0 n.

Lemma toy_ids_ok n : Forall uint256_ok (toy_ids n).
Proof. apply Forall_fmap, Forall_true. intros i. split; [apply le_bytes_length|apply le_bytes_byte]. Qed.

Lemma toy_ids_lengths n : hashes_ok (toy_ids n).
Proof. eapply Forall_impl; [apply toy_ids_ok|]. by intros h [? _]. Qed.

(** The ambiguity that [mutated] reports: the last two of six ids repeated. *)
Lemma merkle_root_binding_witness :
  let root := default uint256_null (head (level toy_hash 3 (toy_ids 6))) in
  ComputeMerkleRoot toy_hash (toy_ids 6) true = Ok (root, false) /\
  ComputeMerkleRoot toy_hash (toy_ids 6 ++ drop 4 (toy_ids 6)) true = Ok (root, true) /\
  (toy_ids 6 = toy_ids 6 \/ collision toy_hash).
Proof.
  intros root.
  assert (ComputeMerkleRoot toy_hash (toy_ids 6) true = Ok (root, false)) as E by (vm_compute; reflexivity).
  split; [exact E|]. split; [vm_compute; reflexivity|].
  refine (merkle_root_binding toy_hash (toy_ids 6) (toy_ids 6) root (fun x => proj1 (toy_hash_ok x)) (toy_ids_lengths 6) (toy_ids_lengths 6)
    _ _ eq_refl E E); discriminate.
Defined.

Lemma partial_tree_complete_witness :
  exists t t', PartialMerkleTree toy_hash (toy_ids 7) [false; true; false; false; false; false; true] = Ok t /\
    unser (ser t ++ [9]) = Ok (t', [9]) /\ length (vBits t) <> length (vBits t') /\
    exists root, ExtractMatches toy_hash t' [] = Ok (root, ([toy_ids 7 !!! 1%nat; toy_ids 7 !!! 6%nat], [1; 6], false)).
Proof.
  destruct (ComputeMerkleRoot toy_hash (toy_ids 7) true) as [[root m]|] eqn:E; [|vm_compute in E; discriminate].
  assert (m = false) as -> by (vm_compute in E; congruence).
  destruct (partial_tree_complete toy_hash (toy_ids 7) [false; true; false; false; false; false; true] root [9] toy_hash_ok (toy_ids_ok 7)
    eq_refl) as (t & t' & Hb & Hs & He); [apply Nat.lt_0_succ|discriminate|exact E|].
  exists t, t'. split; [exact Hb|]. split; [exact Hs|]. split.
  - vm_compute in Hb. injection Hb as <-. vm_compute in Hs. injection Hs as <-. discriminate.
  - exists root. rewrite (He t' (or_intror eq_refl)). vm_compute. reflexivity.
Defined.

Lemma partial_tree_sound_witness :
  exists t root ms ps, ExtractMatches toy_hash t [] = Ok (root, (ms, ps, false)) /\ length ms = 2%nat /\
    (Forall2 (fun h p => 0 <= p /\ toy_ids 7 !! Z.to_nat p = Some h) ms ps \/ collision toy_hash).
Proof.
  destruct (PartialMerkleTree toy_hash (toy_ids 7) [false; true; false; false; false; false; true]) as [t|] eqn:Et; [|vm_compute in Et; discriminate].
  destruct (ExtractMatches toy_hash t []) as [[root [[ms ps] bad]]|] eqn:Ex; [|vm_compute in Et; injection Et as <-; vm_compute in Ex; discriminate].
  exists t, root, ms, ps.
  assert (hashes_ok (vHash t)) as Hok by (vm_compute in Et; injection Et as <-; repeat constructor).
  assert (nTransactions t = 7) as Hn by (vm_compute in Et; injection Et as <-; reflexivity).
  assert (bad = false /\ length ms = 2%nat /\ ComputeMerkleRoot toy_hash (toy_ids 7) true = Ok (root, false) /\ root <> uint256_null) as (-> & Hm & Hr & Hnz).
  { vm_compute in Et. injection Et as <-. vm_compute in Ex. injection Ex as <- <- <- <-. vm_compute. repeat split. discriminate. }
  split; [exact Ex|]. split; [exact Hm|].
  exact (partial_tree_sound toy_hash t (toy_ids 7) ms ps root false false (fun x => proj1 (toy_hash_ok x)) (toy_ids_lengths 7) Hok Hn Hr Hnz Ex).
Defined.
