(* ===== verification/VersionBits.v ===== *)
(** * Version bits (src/src/versionbits.h, versionbits.cpp, ComputeBlockVersion of
    validation.cpp)

    The state of a deployment moves once per period of blocks.  The C++ computes it
    for the last block of a period, walks back to a block whose state is in the
    cache and then forward again.  A deployment checker is a record of what the
    virtual functions of [AbstractThresholdConditionChecker] return.  The null
    pointer, which stands for the parent of the genesis block, is [None]. *)

From Stdlib Require Import ZArith Lia.
From stdpp Require Import base tactics numbers option gmap list.
From S2P Require Import Prelude ArithUint256 Compact Block Chain Pow Headers.

Definition VERSIONBITS_TOP_BITS : Z := 0x20000000.
Definition VERSIONBITS_TOP_MASK : Z := i32 0xE0000000.

Inductive ThresholdState :=
  | THRESHOLD_DEFINED
  | THRESHOLD_STARTED
  | THRESHOLD_LOCKED_IN
  | THRESHOLD_ACTIVE
  | THRESHOLD_FAILED.

#[global] Instance ThresholdState_eq_dec : EqDecision ThresholdState.
Proof. solve_decision. Defined.

Abbreviation ThresholdConditionCache := (gmap (option (list Z)) ThresholdState).

Record ThresholdConditionChecker := mkThreshold {
  Condition : CBlockIndex -> bool;
  BeginTime : Z;
  EndTime : Z;
  Period : Z;
  Threshold : Z
}.

(** ** The deployments of [Consensus::Params] *)

Record BIP9Deployment := mkDeployment {
  dep_bit : Z;
  dep_nStartTime : Z;
  dep_nTimeout : Z;
  dep_nWindowSize : Z;
  dep_nThreshold : Z
}.

Record VBParams := mkVBParams {
  nRuleChangeActivationThreshold : Z;
  nMinerConfirmationWindow : Z;
  vDeployments : list BIP9Deployment
}.

(** [VersionBitsConditionChecker::Mask] *)
Definition Mask (d : BIP9Deployment) : Z := u32 (Z.shiftl 1 (dep_bit d)).

Definition VersionBitsConditionChecker (params : VBParams) (d : BIP9Deployment) : ThresholdConditionChecker := {|
  Condition pindex :=
    (Z.land (nVersion pindex) VERSIONBITS_TOP_MASK =? VERSIONBITS_TOP_BITS) &&
    negb (Z.land (u32 (nVersion pindex)) (Mask d) =? 0);
  BeginTime := dep_nStartTime d;
  EndTime := dep_nTimeout d;
  Period := i32 (if negb (dep_nWindowSize d =? 0) then dep_nWindowSize d else nMinerConfirmationWindow params);
  Threshold := i32 (if negb (dep_nThreshold d =? 0) then dep_nThreshold d else nRuleChangeActivationThreshold params)
|}.

(** ** The state *)

(** [pindex->GetAncestor(pindex->nHeight - ((pindex->nHeight + 1) % nPeriod))] *)
Definition EndOfPrevPeriod (m : BlockMap) (chk : ThresholdConditionChecker) (p : ptr) : result (option ptr) :=
  idx ← deref (m !! p);
  GetAncestor m p (nHeight idx - Z.rem (nHeight idx + 1) (Period chk)).

(** The walk back; [vToCompute] has its back first. *)
Fixpoint back_loop (fuel : nat) (m : BlockMap) (chk : ThresholdConditionChecker) (pindexPrev : option ptr)
    (cache : ThresholdConditionCache) (vToCompute : list ptr) :
    result (option ptr * ThresholdConditionCache * list ptr) :=
  match cache !! pindexPrev with
  | Some _ => Ok (pindexPrev, cache, vToCompute)
  | None =>
      match pindexPrev with
      | None => Ok (pindexPrev, <[pindexPrev := THRESHOLD_DEFINED]> cache, vToCompute)
      | Some p =>
          t ← GetMedianTimePast m p;
          if t <? BeginTime chk then Ok (pindexPrev, <[pindexPrev := THRESHOLD_DEFINED]> cache, vToCompute)
          else match fuel with
               | O => Err OutOfFuel
               | S fuel =>
                   idx ← deref (m !! p);
                   q ← GetAncestor m p (nHeight idx - Period chk);
                   back_loop fuel m chk q cache (p :: vToCompute)
               end
      end
  end.

(** The loop that counts the signalling blocks of a period. *)
Fixpoint count_loop (n : nat) (m : BlockMap) (chk : ThresholdConditionChecker) (pindexCount : option ptr) (count : Z) :
    result Z :=
  match n with
  | O => Ok count
  | S n =>
      p ← deref pindexCount; idx ← deref (m !! p);
      count_loop n m chk (pprev idx) (if Condition chk idx then count + 1 else count)
  end.

(** The switch: the state after the period that ends with [p]. *)
Definition next_state (m : BlockMap) (chk : ThresholdConditionChecker) (state : ThresholdState) (p : ptr) :
    result ThresholdState :=
  match state with
  | THRESHOLD_DEFINED =>
      t ← GetMedianTimePast m p;
      Ok (if EndTime chk <=? t then THRESHOLD_FAILED
          else if BeginTime chk <=? t then THRESHOLD_STARTED else state)
  | THRESHOLD_STARTED =>
      t ← GetMedianTimePast m p;
      if EndTime chk <=? t then Ok THRESHOLD_FAILED
      else
        count ← count_loop (Z.to_nat (Period chk)) m chk (Some p) 0;
        Ok (if Threshold chk <=? count then THRESHOLD_LOCKED_IN else state)
  | THRESHOLD_LOCKED_IN => Ok THRESHOLD_ACTIVE
  | THRESHOLD_FAILED | THRESHOLD_ACTIVE => Ok state
  end.

Fixpoint forward_loop (m : BlockMap) (chk : ThresholdConditionChecker) (state : ThresholdState)
    (cache : ThresholdConditionCache) (vToCompute : list ptr) : result (ThresholdState * ThresholdConditionCache) :=
  match vToCompute with
  | [] => Ok (state, cache)
  | p :: vToCompute =>
      stateNext ← next_state m chk state p;
      forward_loop m chk stateNext (<[Some p := stateNext]> cache) vToCompute
  end.

Definition GetStateFor (m : BlockMap) (chk : ThresholdConditionChecker) (pindexPrev : option ptr)
    (cache : ThresholdConditionCache) : result (ThresholdState * ThresholdConditionCache) :=
  '(pindexPrev, fuel) ←
    match pindexPrev with
    | None => Ok (None, O)
    | Some p => idx ← deref (m !! p); q ← EndOfPrevPeriod m chk p; Ok (q, S (Z.to_nat (nHeight idx)))
    end;
  '(pindexPrev, cache, vToCompute) ← back_loop fuel m chk pindexPrev cache [];
  match cache !! pindexPrev with
  | None => Err AssertFail
  | Some state => forward_loop m chk state cache vToCompute
  end.

(** ** Statistics *)

Record BIP9Stats := mkStats {
  st_period : Z;
  st_threshold : Z;
  st_elapsed : Z;
  st_count : Z;
  st_possible : bool
}.

(** The loop that counts back to the end of the previous period, at height [h]. *)
Fixpoint stats_loop (fuel : nat) (m : BlockMap) (chk : ThresholdConditionChecker) (h : Z) (currentIndex : option ptr)
    (count : Z) : result Z :=
  p ← deref currentIndex; idx ← deref (m !! p);
  if h =? nHeight idx then Ok count
  else match fuel with
       | O => Err OutOfFuel
       | S fuel => stats_loop fuel m chk h (pprev idx) (if Condition chk idx then count + 1 else count)
       end.

Definition GetStateStatisticsFor (m : BlockMap) (chk : ThresholdConditionChecker) (pindex : option ptr) : result BIP9Stats :=
  match pindex with
  | None => Ok (mkStats (Period chk) (Threshold chk) 0 0 false)
  | Some p =>
      idx ← deref (m !! p);
      e ← EndOfPrevPeriod m chk p; e ← deref e; eidx ← deref (m !! e);
      let elapsed := nHeight idx - nHeight eidx in
      count ← stats_loop (S (Z.to_nat (nHeight idx))) m chk (nHeight eidx) (Some p) 0;
      Ok (mkStats (Period chk) (Threshold chk) elapsed count (elapsed - count <=? Period chk - Threshold chk))
  end.

(** ** The height since which a state holds *)

Fixpoint since_loop (fuel : nat) (m : BlockMap) (chk : ThresholdConditionChecker) (initialState : ThresholdState)
    (pindexPrev : ptr) (cache : ThresholdConditionCache) : result (ptr * ThresholdConditionCache) :=
  idx ← deref (m !! pindexPrev);
  parent ← GetAncestor m pindexPrev (nHeight idx - Period chk);
  match parent with
  | None => Ok (pindexPrev, cache)
  | Some q =>
      '(s, cache) ← GetStateFor m chk (Some q) cache;
      if bool_decide (s = initialState)
      then match fuel with
           | O => Err OutOfFuel
           | S fuel => since_loop fuel m chk initialState q cache
           end
      else Ok (pindexPrev, cache)
  end.

Definition GetStateSinceHeightFor (m : BlockMap) (chk : ThresholdConditionChecker) (pindexPrev : option ptr)
    (cache : ThresholdConditionCache) : result (Z * ThresholdConditionCache) :=
  '(initialState, cache) ← GetStateFor m chk pindexPrev cache;
  if bool_decide (initialState = THRESHOLD_DEFINED) then Ok (0, cache)
  else
    p ← deref pindexPrev; idx ← deref (m !! p);
    e ← EndOfPrevPeriod m chk p; e ← deref e;
    '(q, cache) ← since_loop (S (Z.to_nat (nHeight idx))) m chk initialState e cache;
    qi ← deref (m !! q);
    Ok (nHeight qi + 1, cache).

(** ** The version of a new block *)

(** The loop over the deployments, each with its cache. *)
Fixpoint version_loop (m : BlockMap) (params : VBParams) (pindexPrev : option ptr)
    (l : list (BIP9Deployment * ThresholdConditionCache)) (nVersion : Z) :
    result (Z * list ThresholdConditionCache) :=
  match l with
  | [] => Ok (nVersion, [])
  | (d, cache) :: l =>
      '(state, cache) ← GetStateFor m (VersionBitsConditionChecker params d) pindexPrev cache;
      let nVersion :=
        if bool_decide (state = THRESHOLD_LOCKED_IN) || bool_decide (state = THRESHOLD_STARTED)
        then i32 (Z.lor nVersion (Mask d)) else nVersion in
      '(v, caches) ← version_loop m params pindexPrev l nVersion;
      Ok (v, cache :: caches)
  end.

(** The bits of the algorithm; [pindexPrev->nHeight] is read only where the choice
    depends on it. *)
Definition algo_bits (m : BlockMap) (pow : PowParams) (pindexPrev : option ptr) (algo : Z) : result Z :=
  let from (height new : Z) :=
    p ← deref pindexPrev; idx ← deref (m !! p);
    Ok (if nHeight idx <? height then BLOCK_VERSION_BUTKSCRYPT else new) in
  if algo =? ALGO_BUTKSCRYPT then Ok BLOCK_VERSION_BUTKSCRYPT
  else if algo =? ALGO_SHA256D then Ok BLOCK_VERSION_SHA256D
  else if algo =? ALGO_GHOSTRIDER then Ok BLOCK_VERSION_GHOSTRIDER
  else if algo =? ALGO_YESPOWER then from (v2DiffChangeHeight pow) BLOCK_VERSION_YESPOWER
  else if algo =? ALGO_LYRA2 then from (AlgoChangeHeight pow) BLOCK_VERSION_LYRA2
  else if algo =? ALGO_SCRYPT then from (nSwitchHeight pow) BLOCK_VERSION_SCRYPT
  else Ok 0.

Definition ComputeBlockVersion (m : BlockMap) (params : VBParams) (pow : PowParams) (pindexPrev : option ptr) (algo : Z)
    (versionbitscache : list ThresholdConditionCache) : result (Z * list ThresholdConditionCache) :=
  '(nVersion, caches) ← version_loop m params pindexPrev (zip (vDeployments params) versionbitscache) VERSIONBITS_TOP_BITS;
  bits ← algo_bits m pow pindexPrev algo;
  Ok (Z.lor nVersion bits, caches).

(** ** Reference: one step per period *)

Section reference.
Context (m : BlockMap) (chk : ThresholdConditionChecker).

Definition mtp (p : ptr) : Z := match GetMedianTimePast m p with Ok t => t | Err _ => 0 end.

(** The blocks of a period that signal, counted back from [p]. *)
Definition signals (p : ptr) (k : nat) : Z :=
  match nth_ancestor m p k ≫= fun q => m !! q with
  | Some idx => if Condition chk idx then 1 else 0
  | None => 0
  end.
Definition signalling (p : ptr) : Z := foldr (fun k n => signals p k + n) 0 (seq 0 (Z.to_nat (Period chk))).

Definition step (s : ThresholdState) (p : ptr) : ThresholdState :=
  match s with
  | THRESHOLD_DEFINED =>
      if EndTime chk <=? mtp p then THRESHOLD_FAILED
      else if BeginTime chk <=? mtp p then THRESHOLD_STARTED else s
  | THRESHOLD_STARTED =>
      if EndTime chk <=? mtp p then THRESHOLD_FAILED
      else if Threshold chk <=? signalling p then THRESHOLD_LOCKED_IN else s
  | THRESHOLD_LOCKED_IN => THRESHOLD_ACTIVE
  | THRESHOLD_FAILED | THRESHOLD_ACTIVE => s
  end.

(** [p] is the last block of a period. *)
Definition period_end (p : ptr) : Prop := exists idx, m !! p = Some idx /\ (nHeight idx + 1) mod Period chk = 0.

(** The last block of the period before. *)
Definition prev_end (p : ptr) : option ptr := nth_ancestor m p (Z.to_nat (Period chk)).

(** The state for the blocks of the period that follows. *)
Inductive state_at : option ptr -> ThresholdState -> Prop :=
  | at_genesis : state_at None THRESHOLD_DEFINED
  | at_period p s : period_end p -> state_at (prev_end p) s -> state_at (Some p) (step s p).

(** The last block of the last complete period up to [p]. *)
Definition last_end (p : ptr) (idx : CBlockIndex) : option ptr :=
  nth_ancestor m p (Z.to_nat ((nHeight idx + 1) mod Period chk)).

(** A later end of a period on the same chain. *)
Inductive follows : option ptr -> ptr -> Prop :=
  | follows_next q p : period_end p -> prev_end p = q -> follows q p
  | follows_later q p r : follows q p -> period_end r -> prev_end r = Some p -> follows q r.

Definition cache_sound (cache : ThresholdConditionCache) : Prop := forall q s, cache !! q = Some s -> state_at q s.

(** What the theorems assume of an index and a deployment. *)
Record vb_ok : Prop := {
  vb_index : index_ok m;
  vb_period : 0 < Period chk;
  vb_times : forall p idx q, m !! p = Some idx -> pprev idx = Some q -> mtp q <= mtp p;
  vb_window : BeginTime chk <= EndTime chk
}.

Lemma state_at_det q s s' : state_at q s -> state_at q s' -> s = s'.
Proof.
  intros Hs. revert s'. induction Hs as [|p s Hp Hs IH]; intros s' Hs'; inversion Hs'; subst; [done|]. by rewrite (IH s0).
Qed.

Context (Hok : vb_ok).

Lemma GetMedianTimePast_mtp p idx : m !! p = Some idx -> GetMedianTimePast m p = Ok (mtp p).
Proof.
  intros Hp. unfold mtp. by destruct (GetMedianTimePast_total m p idx (vb_index Hok) Hp) as [t ->].
Qed.

Lemma mtp_ancestor p idx k q : m !! p = Some idx -> nth_ancestor m p k = Some q -> mtp q <= mtp p.
Proof.
  revert p idx. induction k as [|k IH]; intros p idx Hp Hk; cbn in Hk; [simplify_eq; lia|].
  rewrite Hp in Hk. cbn in Hk. destruct (pprev idx) as [r|] eqn:Hr; [|done]. cbn in Hk.
  destruct (vb_index Hok p idx Hp) as (_ & Hl & _). unfold link_ok in Hl. rewrite Hr in Hl. destruct Hl as (ri & Hri & _).
  etransitivity; [by eapply IH|]. by eapply vb_times.
Qed.

Lemma prev_end_spec p q : period_end p -> prev_end p = Some q ->
  period_end q /\ exists pi qi, m !! p = Some pi /\ m !! q = Some qi /\ nHeight qi = nHeight pi - Period chk.
Proof.
  intros (idx & Hp & Hmod) Hq. pose proof (vb_period Hok).
  destruct (nth_ancestor_height m p idx _ q (vb_index Hok) Hp Hq) as (qi & Hqi & Hh).
  rewrite Z2Nat.id in Hh by lia. split; [|by exists idx, qi]. exists qi. split; [done|]. rewrite Hh.
  replace (nHeight idx - Period chk + 1) with (nHeight idx + 1 + (-1) * Period chk) by lia. by rewrite Z.mod_add by lia.
Qed.

Lemma GetAncestor_prev p idx : m !! p = Some idx -> GetAncestor m p (nHeight idx - Period chk) = Ok (prev_end p).
Proof.
  intros Hp. pose proof (vb_period Hok). rewrite (GetAncestor_spec m p idx) by (done || apply Hok). unfold prev_end.
  rewrite (proj2 (Z.ltb_ge _ _)) by lia. cbn [orb]. destruct (Z.ltb_spec (nHeight idx - Period chk) 0).
  - rewrite (nth_ancestor_root m p idx); [done|apply Hok|done|lia].
  - by replace (nHeight idx - (nHeight idx - Period chk)) with (Period chk) by lia.
Qed.

Lemma EndOfPrevPeriod_spec p idx : m !! p = Some idx -> EndOfPrevPeriod m chk p = Ok (last_end p idx).
Proof.
  intros Hp. pose proof (vb_period Hok). destruct (vb_index Hok p idx Hp) as (H0 & _). unfold EndOfPrevPeriod, last_end.
  rewrite Hp. cbn [deref mbind result_bind]. rewrite (GetAncestor_spec m p idx) by (done || apply Hok).
  rewrite Z.rem_mod_nonneg by lia. pose proof (Z.mod_pos_bound (nHeight idx + 1) (Period chk) ltac:(lia)).
  rewrite (proj2 (Z.ltb_ge _ _)) by lia. cbn [orb]. destruct (Z.ltb_spec (nHeight idx - (nHeight idx + 1) mod Period chk) 0).
  - rewrite (nth_ancestor_root m p idx); [done|apply Hok|done|lia].
  - do 3 f_equal. lia.
Qed.

Lemma last_end_spec p idx q : m !! p = Some idx -> last_end p idx = Some q -> period_end q /\
  exists qi, m !! q = Some qi /\ nHeight qi <= nHeight idx.
Proof.
  intros Hp Hq. pose proof (vb_period Hok). pose proof (Z.mod_pos_bound (nHeight idx + 1) (Period chk) ltac:(lia)).
  destruct (nth_ancestor_height m p idx _ q (vb_index Hok) Hp Hq) as (qi & Hqi & Hh).
  rewrite Z2Nat.id in Hh by lia. split; [|exists qi; split; [done|lia]]. exists qi. split; [done|]. rewrite Hh.
  rewrite (Z.mod_eq (nHeight idx + 1)) by lia. replace (nHeight idx - (nHeight idx + 1 - Period chk * ((nHeight idx + 1) / Period chk)) + 1)
    with (0 + (nHeight idx + 1) / Period chk * Period chk) by lia. by rewrite Z.mod_add by lia.
Qed.

(** Every end of a period has a state. *)
Lemma state_at_total p : period_end p -> exists s, state_at (Some p) s.
Proof.
  intros (idx & Hi & Hmod).
  assert (0 <= nHeight idx) as H0 by apply (vb_index Hok p idx Hi).
  remember (Z.to_nat (nHeight idx)) as n eqn:En. revert p idx Hi Hmod H0 En.
  induction n as [n IH] using lt_wf_ind. intros p idx Hi Hmod H0 En. pose proof (vb_period Hok).
  assert (period_end p) as Hp by by exists idx.
  destruct (prev_end p) as [q|] eqn:Hq.
  - destruct (prev_end_spec p q Hp Hq) as ((qi & Hqi & Hqm) & pi & qi' & Hpi & Hqi' & Hh). simplify_eq.
    assert (0 <= nHeight qi) by apply (vb_index Hok q qi Hqi).
    destruct (IH (Z.to_nat (nHeight qi)) ltac:(lia) q qi Hqi Hqm ltac:(lia) eq_refl) as [s Hs].
    exists (step s p). constructor; [done|]. by rewrite Hq.
  - exists (step THRESHOLD_DEFINED p). constructor; [done|]. rewrite Hq. constructor.
Qed.

(** Before the start time nothing has happened. *)
Lemma state_at_early q s : state_at q s -> (forall p, q = Some p -> mtp p < BeginTime chk) -> s = THRESHOLD_DEFINED.
Proof.
  induction 1 as [|p s Hp Hs IH]; intros Ht; [done|]. specialize (Ht p eq_refl). pose proof (vb_window Hok).
  assert (s = THRESHOLD_DEFINED) as ->.
  { apply IH. intros r Hr. destruct Hp as (idx & Hi & _). pose proof (mtp_ancestor p idx _ r Hi Hr). lia. }
  cbn. rewrite (proj2 (Z.leb_gt _ _)), (proj2 (Z.leb_gt _ _)) by lia. done.
Qed.

Lemma count_loop_spec n p idx c : m !! p = Some idx -> Z.of_nat n <= nHeight idx + 1 ->
  count_loop n m chk (Some p) c = Ok (c + foldr (fun k n => signals p k + n) 0 (seq 0 n)).
Proof.
  revert p idx c. induction n as [|n IH]; intros p idx c Hp Hn; cbn [count_loop]; [cbn; f_equal; lia|].
  cbn [deref mbind result_bind]. rewrite Hp. cbn [deref mbind result_bind seq foldr].
  assert (signals p 0 = if Condition chk idx then 1 else 0) as -> by (unfold signals; cbn; by rewrite Hp).
  assert (forall k, signals p (S k) = match pprev idx with Some q => signals q k | None => 0 end) as Hs.
  { intros k. unfold signals. cbn. rewrite Hp. cbn. by destruct (pprev idx). }
  rewrite <- fmap_S_seq. rewrite foldr_fmap.
  destruct (vb_index Hok p idx Hp) as (_ & Hl & _). unfold link_ok in Hl. destruct (pprev idx) as [q|].
  - destruct Hl as (qi & Hq & Hh). rewrite (IH q qi) by (done || lia). f_equal.
    replace (foldr (fun k n0 => signals p (S k) + n0) 0 (seq 0 n)) with (foldr (fun k n0 => signals q k + n0) 0 (seq 0 n)); [by destruct (Condition chk idx); lia|].
    clear IH Hn. induction (seq 0 n) as [|k ks IHk]; cbn [foldr]; [done|]. by rewrite IHk, Hs.
  - destruct n; [|lia]. cbn. f_equal. by destruct (Condition chk idx); lia.
Qed.

Lemma next_state_spec s p : period_end p -> next_state m chk s p = Ok (step s p).
Proof.
  intros (idx & Hp & Hmod). pose proof (vb_period Hok). unfold next_state, step.
  destruct s; rewrite ?(GetMedianTimePast_mtp p idx Hp); cbn [mbind result_bind]; try done.
  destruct (EndTime chk <=? mtp p); [done|]. destruct (vb_index Hok p idx Hp) as (H0 & _).
  rewrite (count_loop_spec _ p idx); [cbn; done|done|]. rewrite Z2Nat.id by lia.
  apply Z.mod_divide in Hmod as [k Hk]; [|lia]. destruct (Z.le_gt_cases k 0); nia.
Qed.

(** ** The loops compute the reference *)

(** The ends of periods from the one after [a] up to [b]. *)
Fixpoint path (a : option ptr) (l : list ptr) (b : option ptr) : Prop :=
  match l with
  | [] => a = b
  | p :: l => period_end p /\ prev_end p = a /\ path (Some p) l b
  end.

Lemma cache_sound_insert cache q s : cache_sound cache -> state_at q s -> cache_sound (<[q := s]> cache).
Proof.
  intros Hc Hs q' s'. rewrite lookup_insert. destruct (decide (q = q')) as [->|]; [by intros [= <-]|apply Hc].
Qed.

Lemma forward_loop_spec s cache a v b : cache_sound cache -> state_at a s -> path a v b ->
  exists s' cache', forward_loop m chk s cache v = Ok (s', cache') /\ state_at b s' /\ cache_sound cache'.
Proof.
  revert s cache a. induction v as [|p v IH]; intros s cache a Hc Hs Hp; cbn [forward_loop path] in *.
  { subst b. by exists s, cache. }
  destruct Hp as (Hpe & Hprev & Hp). rewrite next_state_spec by done. cbn [mbind result_bind].
  assert (state_at (Some p) (step s p)) as Hs' by (constructor; [done|by rewrite Hprev]).
  apply (IH _ _ (Some p)); [by apply cache_sound_insert|done..].
Qed.

Lemma back_loop_spec fuel q cache v b : cache_sound cache ->
  (forall p, q = Some p -> period_end p /\ exists idx, m !! p = Some idx /\ nHeight idx < Z.of_nat fuel) -> path q v b ->
  exists q' cache' v' s', back_loop fuel m chk q cache v = Ok (q', cache', v') /\ cache' !! q' = Some s' /\
    cache_sound cache' /\ path q' v' b.
Proof.
  revert q v. induction fuel as [|fuel IH]; intros q v Hc Hq Hp; cbn [back_loop];
    (destruct (cache !! q) as [s|] eqn:Eq; [by exists q, cache, v, s|]);
    (destruct q as [p|]; [|eexists _, _, _, _; rewrite lookup_insert_eq; split_and!;
       [done..| |done]; apply cache_sound_insert; [done|constructor]]);
    destruct (Hq p eq_refl) as (Hpe & idx & Hi & Hh); rewrite (GetMedianTimePast_mtp p idx Hi); cbn [mbind result_bind];
    (destruct (Z.ltb_spec (mtp p) (BeginTime chk)) as [Ht|Ht];
      [eexists _, _, _, _; rewrite lookup_insert_eq; split_and!; [done..| |done]; apply cache_sound_insert; [done|];
       destruct (state_at_total p Hpe) as [s Hs];
       by rewrite <- (state_at_early _ _ Hs) by (intros ? [= <-]; done)|]).
  - pose proof (vb_index Hok p idx Hi). lia.
  - rewrite Hi. cbn [deref mbind result_bind]. rewrite (GetAncestor_prev) by done. cbn [mbind result_bind].
    apply IH; [done| |by split_and!]. intros r Hr. pose proof (vb_period Hok).
    destruct (prev_end_spec p r Hpe Hr) as (Hre & pi & ri & Hpi & Hri & Hrh). simplify_eq. split; [done|].
    exists ri. split; [done|lia].
Qed.

(** [GetStateFor] finds the reference state, with any sound cache. *)
Lemma GetStateFor_spec q cache : cache_sound cache -> (forall p, q = Some p -> is_Some (m !! p)) ->
  exists s cache', GetStateFor m chk q cache = Ok (s, cache') /\ cache_sound cache' /\
    state_at (q ≫= fun p => idx ← m !! p; last_end p idx) s.
Proof.
  intros Hc Hq. unfold GetStateFor.
  set (e := q ≫= fun p => idx ← m !! p; last_end p idx).
  assert (exists fuel, match q with
    | None => Ok (None, O)
    | Some p => idx ← deref (m !! p); q0 ← EndOfPrevPeriod m chk p; Ok (q0, S (Z.to_nat (nHeight idx)))
    end = Ok (e, fuel) /\ forall p, e = Some p -> period_end p /\ exists idx, m !! p = Some idx /\ nHeight idx < Z.of_nat fuel) as (fuel & -> & He).
  { destruct q as [p|]; [|by exists O]. destruct (Hq p eq_refl) as [idx Hi]. unfold e. cbn. rewrite Hi. cbn [deref mbind result_bind option_bind].
    rewrite (EndOfPrevPeriod_spec p idx Hi). cbn [mbind result_bind]. eexists. split; [done|]. intros r Hr.
    destruct (last_end_spec p idx r Hi Hr) as (Hre & ri & Hri & Hh). split; [done|]. exists ri. split; [done|].
    pose proof (vb_index Hok r ri Hri). lia. }
  cbn [mbind result_bind].
  destruct (back_loop_spec fuel e cache [] e Hc He eq_refl) as (q' & cache' & v' & s' & -> & Es & Hc' & Hp). cbn [mbind result_bind].
  rewrite Es. destruct (forward_loop_spec s' cache' q' v' e Hc' (Hc' _ _ Es) Hp) as (s & c & -> & Hs & Hcs).
  by exists s, c.
Qed.

(** ** The life of a deployment *)

Lemma follows_state q p s : follows q p -> state_at q s -> exists s', state_at (Some p) s'.
Proof.
  intros Hf Hs. apply (state_at_total). by inversion Hf.
Qed.

(** A state that no step leaves stays. *)
Lemma terminal_stays q p s s' : follows q p -> (forall r, step s r = s) ->
  state_at q s -> state_at (Some p) s' -> s' = s.
Proof.
  intros Hf Hstep. revert s'. induction Hf as [q p Hpe Hprev|q p r Hf IH Hre Hprev]; intros s' Hq Hs'; inversion Hs' as [|? t _ Ht]; subst.
  - by rewrite (state_at_det _ _ _ Ht Hq), Hstep.
  - rewrite Hprev in Ht. rewrite (IH _ Hq Ht). apply Hstep.
Qed.

(** Where a deployment is active, an earlier period had enough signals in time. *)
Lemma active_reason q s : state_at q s -> s = THRESHOLD_ACTIVE \/ s = THRESHOLD_LOCKED_IN ->
  exists p, (q = Some p \/ exists q', q = Some q' /\ follows (Some p) q') /\ period_end p /\
    mtp p < EndTime chk /\ Threshold chk <= signalling p /\ state_at (Some p) THRESHOLD_LOCKED_IN.
Proof.
  induction 1 as [|p s Hp Hs IH]; [by intros [?|?]|]. intros Hst.
  assert (step s p = THRESHOLD_LOCKED_IN -> s = THRESHOLD_STARTED /\ mtp p < EndTime chk /\ Threshold chk <= signalling p) as Hl.
  { unfold step. destruct s; repeat case_test; try done. }
  assert (step s p = THRESHOLD_ACTIVE -> s = THRESHOLD_ACTIVE \/ s = THRESHOLD_LOCKED_IN) as Ha.
  { unfold step. destruct s; repeat case_test; try done; auto. }
  destruct Hst as [E|E].
  - destruct (IH (Ha E)) as (r & Hr & Hre & Ht & Hc & Hlk). exists r. split_and!; try done. right. exists p. split; [done|].
    destruct Hr as [Hr|(q' & Hr & Hf)]; [by apply follows_next|by apply (follows_later _ q')].
  - destruct (Hl E) as (-> & Ht & Hc). exists p. split_and!; try done; [by left|]. rewrite <- E. by constructor.
Qed.

Lemma last_end_end p : period_end p -> exists idx, m !! p = Some idx /\ last_end p idx = Some p.
Proof. intros (idx & Hi & Hmod). exists idx. split; [done|]. unfold last_end. by rewrite Hmod. Qed.

(** The walk back over the periods that have the state [s]. *)
Lemma since_loop_spec fuel s e l b cache : cache_sound cache -> period_end e -> path (Some e) l (Some b) ->
  Forall (fun r => state_at (Some r) s) (e :: l) -> (forall ei, m !! e = Some ei -> nHeight ei < Z.of_nat fuel) ->
  exists e' l' cache', since_loop fuel m chk s e cache = Ok (e', cache') /\ cache_sound cache' /\ period_end e' /\
    path (Some e') l' (Some b) /\ Forall (fun r => state_at (Some r) s) (e' :: l') /\
    forall q, prev_end e' = Some q -> ~ state_at (Some q) s.
Proof.
  revert e l cache. induction fuel as [|fuel IH]; intros e l cache Hc He Hp Hall Hf.
  { destruct He as (ei & Hei & _). specialize (Hf ei Hei). pose proof (vb_index Hok e ei Hei). lia. }
  pose proof He as (ei & Hei & _). cbn [since_loop]. rewrite Hei. cbn [deref mbind result_bind].
  rewrite (GetAncestor_prev e ei Hei). cbn [mbind result_bind].
  destruct (prev_end e) as [q|] eqn:Hq.
  2:{ exists e, l, cache. split_and!; try done. intros r. by rewrite Hq. }
  destruct (prev_end_spec e q He Hq) as (Hqe & ei' & qi & Hei' & Hqi & Hqh). simplify_eq.
  destruct (GetStateFor_spec (Some q) cache Hc) as (sq & cache1 & -> & Hc1 & Hsq); [intros ? [= <-]; by eexists|].
  cbn [mbind result_bind option_bind] in *. destruct (last_end_end q Hqe) as (qi' & Hqi' & Hlast). simplify_eq.
  rewrite Hqi in Hsq. cbn in Hsq. rewrite Hlast in Hsq. pose proof (vb_period Hok).
  case_bool_decide as Es.
  - subst sq. apply (IH q (e :: l)); [done..|by split_and!|by constructor|]. intros r Hr. simplify_eq. specialize (Hf _ Hei). lia.
  - exists e, l, cache1. split_and!; try done. intros r. rewrite Hq. intros [= <-] Hs. by apply Es, (state_at_det (Some q)).
Qed.

End reference.

(** ** The algorithm in the version *)

Lemma land_i32_algo x : Z.land (i32 x) BLOCK_VERSION_ALGO = Z.land x BLOCK_VERSION_ALGO.
Proof.
  apply Z.bits_inj'. intros i Hi. rewrite !Z.land_spec. destruct (Z.lt_ge_cases i 31).
  - f_equal. unfold i32, swrap.
    rewrite <- (Z.mod_pow2_bits_low _ 31) by lia. rewrite <- (Z.mod_pow2_bits_low x 31) by lia. f_equal.
    change (2 ^ 32) with (2 ^ 31 * 2). rewrite Zminus_mod, Z.rem_mul_r by lia.
    rewrite Z.mul_comm, Z.mod_add by lia. rewrite Z.mod_mod by lia. rewrite <- Zminus_mod. f_equal. lia.
  - replace (Z.testbit BLOCK_VERSION_ALGO i) with false; [by rewrite !andb_false_r|]. symmetry. by apply (testbit_small _ _ 31).
Qed.

Definition masks_clear (params : VBParams) : Prop :=
  Forall (fun d => Z.land (Mask d) BLOCK_VERSION_ALGO = 0) (vDeployments params).

Lemma version_loop_algo m params q l v v' caches : Forall (fun x => Z.land (Mask x.1) BLOCK_VERSION_ALGO = 0) l ->
  version_loop m params q l v = Ok (v', caches) -> Z.land v' BLOCK_VERSION_ALGO = Z.land v BLOCK_VERSION_ALGO.
Proof.
  revert v v' caches. induction l as [|[d c] l IH]; intros v v' caches Hl; cbn [version_loop]; [by intros [= <- <-]|].
  apply Forall_cons in Hl as [Hd Hl]. intros ([s c'] & _ & ([v1 cs] & H1 & [= <- <-])%result_bind_Ok)%result_bind_Ok.
  cbn [fst] in Hd. rewrite (IH _ _ _ Hl H1). destruct (_ || _); [|done]. by rewrite land_i32_algo, Z.land_lor_distr_l, Hd, Z.lor_0_r.
Qed.

(** ** Properties *)

(** C28: The cache of a deployment does not matter.  With any cache whose entries are
    states of the reference machine (one step per period, from the genesis block on),
    [GetStateFor] returns, its answer is the state of the reference machine at the end
    of the last complete period, and the cache it leaves has reference states only.
    [GetStateSinceHeightFor] returns the height after the end of the earliest of the
    periods in a row that have the state of now. *)
Theorem versionbits_cache_transparent (m : BlockMap) (chk : ThresholdConditionChecker) (p : ptr) (idx : CBlockIndex)
    (cache : ThresholdConditionCache) : vb_ok m chk -> cache_sound m chk cache -> m !! p = Some idx ->
  (exists s cache', GetStateFor m chk (Some p) cache = Ok (s, cache') /\ cache_sound m chk cache' /\
    state_at m chk (last_end m chk p idx) s) /\
  (exists h cache', GetStateSinceHeightFor m chk (Some p) cache = Ok (h, cache') /\ cache_sound m chk cache' /\
    ((h = 0 /\ state_at m chk (last_end m chk p idx) THRESHOLD_DEFINED) \/
     exists s e ei l b, m !! e = Some ei /\ h = nHeight ei + 1 /\ last_end m chk p idx = Some b /\
       path m chk (Some e) l (Some b) /\ Forall (fun r => state_at m chk (Some r) s) (e :: l) /\
       forall q, prev_end m chk e = Some q -> ~ state_at m chk (Some q) s)).
Proof.
  intros Hok Hc Hp. destruct (GetStateFor_spec m chk Hok (Some p) cache Hc) as (s & cache1 & E & Hc1 & Hs); [intros ? [= <-]; by eexists|].
  cbn in Hs. rewrite Hp in Hs. cbn in Hs. split; [by exists s, cache1|].
  unfold GetStateSinceHeightFor. rewrite E. cbn [mbind result_bind]. case_bool_decide as Es.
  { subst s. exists 0, cache1. split_and!; [done..|by left]. }
  cbn [deref mbind result_bind]. rewrite Hp. cbn [deref mbind result_bind]. rewrite (EndOfPrevPeriod_spec m chk Hok p idx Hp).
  cbn [mbind result_bind]. destruct (last_end m chk p idx) as [b|] eqn:Hb; [|by inversion Hs; subst].
  cbn [deref mbind result_bind]. destruct (last_end_spec m chk Hok p idx b Hp Hb) as (Hbe & bi & Hbi & Hbh).
  destruct (since_loop_spec m chk Hok (S (Z.to_nat (nHeight idx))) s b [] b cache1 Hc1 Hbe eq_refl) as
    (e & l & cache2 & -> & Hc2 & (ei & Hei & _) & Hpath & Hall & Hq).
  { by constructor. }
  { intros bi' Hbi'. simplify_eq. pose proof (vb_index _ _ Hok p idx Hp). lia. }
  cbn [mbind result_bind]. rewrite Hei. cbn [deref mbind result_bind]. eexists _, cache2. split_and!; [done..|]. right.
  by exists s, e, ei, l, b.
Qed.

(** A deployment that is started and gets its signals becomes active, and stays
    so.  If a period ends before the timeout with at least the threshold of signalling
    blocks while the deployment is started, the state at its end is locked-in, it is
    active from the end of the next period on, for ever on that chain; a deployment
    that timed out stays failed; and wherever a deployment is active, some period
    before had its signals in time. *)
Theorem deployment_activates (m : BlockMap) (chk : ThresholdConditionChecker) (p0 p1 p2 p3 : ptr) (q : option ptr) :
  vb_ok m chk -> period_end m chk p1 -> prev_end m chk p1 = Some p0 -> period_end m chk p2 -> prev_end m chk p2 = Some p1 ->
  follows m chk (Some p2) p3 -> state_at m chk (Some p0) THRESHOLD_STARTED ->
  mtp m p1 < EndTime chk -> Threshold chk <= signalling m chk p1 ->
  (state_at m chk (Some p1) THRESHOLD_LOCKED_IN /\ state_at m chk (Some p2) THRESHOLD_ACTIVE /\
   state_at m chk (Some p3) THRESHOLD_ACTIVE) /\
  (forall p, state_at m chk q THRESHOLD_FAILED -> follows m chk q p -> state_at m chk (Some p) THRESHOLD_FAILED) /\
  (state_at m chk q THRESHOLD_ACTIVE -> exists p q', q = Some q' /\ (p = q' \/ follows m chk (Some p) q') /\
     mtp m p < EndTime chk /\ Threshold chk <= signalling m chk p).
Proof.
  intros Hok H1 E1 H2 E2 H3 Hs Ht Hsig.
  assert (state_at m chk (Some p1) THRESHOLD_LOCKED_IN) as S1.
  { replace THRESHOLD_LOCKED_IN with (step m chk THRESHOLD_STARTED p1); [constructor; [done|by rewrite E1]|].
    cbn. by rewrite (proj2 (Z.leb_gt _ _)), (proj2 (Z.leb_le _ _)) by lia. }
  assert (state_at m chk (Some p2) THRESHOLD_ACTIVE) as S2.
  { replace THRESHOLD_ACTIVE with (step m chk THRESHOLD_LOCKED_IN p2) by done. constructor; [done|by rewrite E2]. }
  assert (forall a b s, follows m chk a b -> (forall r, step m chk s r = s) -> state_at m chk a s -> state_at m chk (Some b) s) as Hstay.
  { intros a b s Hf Hst Ha. destruct (follows_state m chk Hok a b s Hf Ha) as [s' Hs']. by rewrite <- (terminal_stays m chk a b s s'). }
  split_and!; [done..|by apply (Hstay (Some p2))|intros p Hq Hf; by apply (Hstay q)|].
  intros Hq. destruct (active_reason m chk q _ Hq) as (p & Hp & _ & Hpt & Hps & _); [by left|].
  destruct Hp as [->|(q' & -> & Hf)]; [exists p, p|exists p, q']; split_and!; auto.
Qed.

(** The version that a miner gives a block names the algorithm it mines with:
    unless a deployment uses the bits of the algorithm, [GetAlgo] of the computed
    version is the algorithm that was asked for, except that an algorithm that is not
    yet enabled at the height of the parent gives the version of the first one. *)
Theorem block_version_names_algo (m : BlockMap) (params : VBParams) (pow : PowParams) (p : ptr) (idx : CBlockIndex) (algo v : Z)
    (caches caches' : list ThresholdConditionCache) :
  masks_clear params -> m !! p = Some idx -> 0 <= algo < NUM_ALGOSV4 ->
  ComputeBlockVersion m params pow (Some p) algo caches = Ok (v, caches') ->
  GetAlgo v =
    if ((algo =? ALGO_YESPOWER) && (nHeight idx <? v2DiffChangeHeight pow)) ||
       ((algo =? ALGO_LYRA2) && (nHeight idx <? AlgoChangeHeight pow)) ||
       ((algo =? ALGO_SCRYPT) && (nHeight idx <? nSwitchHeight pow)) then ALGO_BUTKSCRYPT else algo.
Proof.
  intros Hd Hp Ha. unfold ComputeBlockVersion. intros ([v1 cs] & Hv & (bits & Hb & [= <- <-])%result_bind_Ok)%result_bind_Ok.
  apply version_loop_algo in Hv.
  2:{ apply Forall_forall. intros [d c] Hin%elem_of_zip_l. by apply (proj1 (Forall_forall _ _) Hd). }
  assert (forall x, Z.land bits BLOCK_VERSION_ALGO = x -> Z.land (Z.lor v1 bits) BLOCK_VERSION_ALGO = x) as Hbits.
  { intros x <-. by rewrite Z.land_lor_distr_l, Hv. }
  unfold GetAlgo. unfold algo_bits in Hb. cbn [deref mbind result_bind] in Hb. rewrite Hp in Hb. cbn [deref mbind result_bind] in Hb.
  unfold NUM_ALGOSV4 in Ha.
  assert (algo = 0 \/ algo = 1 \/ algo = 2 \/ algo = 3 \/ algo = 4 \/ algo = 5) as Hcases by lia.
  destruct Hcases as [->|[->|[->|[->|[->| ->]]]]]; cbn in Hb |- *;
    repeat match type of Hb with context [if ?b then _ else _] => destruct b end; injection Hb as <-; by rewrite (Hbits _ eq_refl).
Qed.

(** ** Instances *)

Definition times_grow (m : BlockMap) : bool :=
  forallb (fun x => match pprev x.2 with Some q => mtp m q <=? mtp m x.1 | None => true end) (map_to_list m).

Lemma times_grow_spec m p idx q : times_grow m = true -> m !! p = Some idx -> pprev idx = Some q -> mtp m q <= mtp m p.
Proof.
  unfold times_grow. rewrite forallb_forall. intros H Hp Hq. specialize (H (p, idx)).
  cbn in H. rewrite Hq in H. apply Z.leb_le, H, list_elem_of_In, elem_of_map_to_list, Hp.
Qed.

(** Periods of three blocks, two of which have to signal. *)
Definition sample_deployment : ThresholdConditionChecker := mkThreshold (fun idx => 0 <=? nVersion idx) 1000 100000 3 2.

Lemma sample_deployment_ok : vb_ok sample_index sample_deployment.
Proof.
  split; [apply sample_index_ok|reflexivity| |discriminate].
  intros p idx q. apply times_grow_spec. vm_compute. reflexivity.
Qed.

Lemma versionbits_cache_transparent_witness :
  exists s cache', GetStateFor sample_index sample_deployment (Some [9]) ∅ = Ok (s, cache') /\
    cache_sound sample_index sample_deployment cache' /\ s = THRESHOLD_ACTIVE.
Proof.
  destruct (sample_index !! [9]) as [idx|] eqn:Ei; [|vm_compute in Ei; discriminate].
  assert (cache_sound sample_index sample_deployment ∅) as Hc by (intros q s H; rewrite lookup_empty in H; discriminate).
  destruct (versionbits_cache_transparent sample_index sample_deployment [9] idx ∅ sample_deployment_ok Hc Ei)
    as [(s & cache' & E & Hs & _) _].
  exists s, cache'. split; [exact E|]. split; [exact Hs|]. vm_compute in E. congruence.
Defined.

Lemma sample_period_end (h : Z) : h ∈ [2; 5; 8; 11] -> period_end sample_index sample_deployment [h].
Proof.
  intros Hh. rewrite !elem_of_cons, elem_of_nil in Hh.
  destruct Hh as [->|[->|[->|[->|[]]]]]; eexists; (split; [vm_compute; reflexivity|reflexivity]).
Qed.

Lemma deployment_activates_witness :
  state_at sample_index sample_deployment (Some [5]) THRESHOLD_LOCKED_IN /\
  state_at sample_index sample_deployment (Some [11]) THRESHOLD_ACTIVE.
Proof.
  assert (forall h, h ∈ [2; 5; 8; 11] -> period_end sample_index sample_deployment [h]) as He by exact sample_period_end.
  destruct (deployment_activates sample_index sample_deployment [2] [5] [8] [11] None sample_deployment_ok) as [(H1 & _ & H3) _].
  - apply He. apply list_elem_of_further, list_elem_of_here.
  - vm_compute. reflexivity.
  - apply He. apply list_elem_of_further, list_elem_of_further, list_elem_of_here.
  - vm_compute. reflexivity.
  - apply follows_next; [apply He; do 3 apply list_elem_of_further; apply list_elem_of_here|vm_compute; reflexivity].
  - assert (step sample_index sample_deployment THRESHOLD_DEFINED [2] = THRESHOLD_STARTED) as <- by (vm_compute; reflexivity).
    constructor; [apply He; apply list_elem_of_here|]. assert (prev_end sample_index sample_deployment [2] = None) as -> by (vm_compute; reflexivity).
    constructor.
  - vm_compute. reflexivity.
  - vm_compute. discriminate.
  - split; [exact H1|exact H3].
Defined.

(** The deployment of the main network, which signals with bit 28. *)
Definition MainDeployments : VBParams := mkVBParams 1916 2016 [mkDeployment 28 1199145601 1230767999 0 0].

Lemma block_version_names_algo_witness :
  exists v cs, ComputeBlockVersion sample_index MainDeployments MainPow (Some [12]) ALGO_YESPOWER [∅] = Ok (v, cs) /\
    GetAlgo v = ALGO_YESPOWER.
Proof.
  destruct (ComputeBlockVersion sample_index MainDeployments MainPow (Some [12]) ALGO_YESPOWER [∅]) as [[v cs]|] eqn:E; [|vm_compute in E; discriminate].
  destruct (sample_index !! [12]) as [idx|] eqn:Ei; [|vm_compute in Ei; discriminate].
  exists v, cs. split; [reflexivity|].
  rewrite (block_version_names_algo sample_index MainDeployments MainPow [12] idx ALGO_YESPOWER v [∅] cs); [| |exact Ei| |exact E].
  - vm_compute in Ei. injection Ei as <-. reflexivity.
  - repeat constructor.
  - split; [discriminate|reflexivity].
Defined.
