(* ===== verification/BlockCheck.v ===== *)
(** * Checking a block
    (CBlock of src/src/primitives/block.h; CheckBlock, ContextualCheckTransaction,
    ContextualCheckBlock and GetBlockScriptFlags of validation.cpp)

    The checks of a block that need no coins.  [fChecked] is a mutable member, so
    [CheckBlock] also returns the block.  A transaction id is the hash of the
    serialized transaction; the hash is a parameter. *)

From Stdlib Require Import ZArith Lia String.
From stdpp Require Import base tactics numbers option gmap list.
From S2P Require Import Prelude ArithUint256 Compact Block Chain Pow Headers Serialize Double Rewards.
From S2P Require Import Script Interpreter SigHash Transaction Coins Undo TxVerify Merkle.

Record CBlock := mkBlock {
  block_header : CBlockHeader;
  block_vtx : list CTransaction;
  fChecked : bool                          (* memory only *)
}.

Definition set_fChecked (b : CBlock) : CBlock := mkBlock (block_header b) (block_vtx b) true.

(** [::GetSerializeSize] of a block, from [CBlock::SerializationOp]. *)
Definition block_size (b : CBlock) : Z :=
  Z.of_nat (length (SerializeHeader (block_header b) ++ ser_vector (block_vtx b))).

(** The rule changes a network has switched on (fields of [Consensus::Params]). *)
Record Upgrades := mkUpgrades {
  BIP34Enabled : bool;
  BIP65Enabled : bool;
  BIP66Enabled : bool;
  BIP147Enabled : bool;
  BIPCSVEnabled : bool;
  DIP0001Enabled : bool;
  DIP3Enabled : bool                       (* DIP0003Enabled *)
}.

Definition MaxBlockSize (fDIP0001Active : bool) : Z :=
  if fDIP0001Active then MAX_DIP0001_BLOCK_SIZE else MAX_LEGACY_BLOCK_SIZE.
Definition MaxBlockSigOps (fDIP0001Active : bool) : Z := MaxBlockSize fDIP0001Active / 50.
Definition MAX_STANDARD_TX_SIZE : Z := 100000.

(** [CTransaction::GetHash] *)
Definition GetTxHash (Hash : list Z -> uint256) (tx : CTransaction) : uint256 := Hash (ser tx).

(** ** CheckBlock *)

Section check_block.
Context (Hash : list Z -> uint256) (H : PowHashes) (params : ChainParams) (founder : FounderPayment) (nMaxCash : Z).

(** The Merkle root: a mismatch and a repeated transaction may be corruption on
    the way. *)
Definition check_merkle (block : CBlock) : result (option reject) :=
  '(hashMerkleRoot2, mutated) ← BlockMerkleRoot Hash (GetTxHash Hash <$> block_vtx block) true;
  if negb (bool_decide (hdr_hashMerkleRoot (block_header block) = hashMerkleRoot2))
  then Ok (Some (mkReject 100 "bad-txnmrklroot" true))
  else if mutated : bool then Ok (Some (mkReject 100 "bad-txns-duplicate" true))
  else Ok None.

(** The loop over [CheckTransaction]; [tip] is what [IsMaxCash] looks at. *)
Fixpoint check_txs (tip : option CBlockIndex) (nHeight blockReward : Z) (vtx : list CTransaction) : option reject :=
  match vtx with
  | [] => None
  | tx :: vtx =>
      match CheckTransaction founder nMaxCash tip tx nHeight blockReward with
      | Some e => Some e
      | None => check_txs tip nHeight blockReward vtx
      end
  end.

Definition legacy_sigops (vtx : list CTransaction) : Z := foldl (fun n tx => u32 (n + GetLegacySigOpCount tx)) 0 vtx.

(** The checks after the Merkle root. *)
Definition check_body (tip : option CBlockIndex) (block : CBlock) (nHeight : Z) : option reject :=
  match block_vtx block with
  | [] => Some (DoS 100 "bad-blk-length")
  | tx0 :: rest =>
      if (MaxBlockSize true <? Z.of_nat (length (block_vtx block))) || (MaxBlockSize true <? block_size block)
      then Some (DoS 100 "bad-blk-length")
      else if negb (IsCoinBase tx0) then Some (DoS 100 "bad-cb-missing")
      else if existsb IsCoinBase rest then Some (DoS 100 "bad-cb-multiple")
      else match check_txs tip (nHeight - 1) (GetBlockSubsidy (nHeight - 1)) (block_vtx block) with
      | Some e => Some e
      | None =>
          if MaxBlockSigOps true <? legacy_sigops (block_vtx block) then Some (DoS 100 "bad-blk-sigops") else None
      end
  end.

Definition CheckBlock (tip : option CBlockIndex) (block : CBlock) (nHeight : Z) (fCheckPOW fCheckMerkleRoot : bool) :
    result (option reject * CBlock) :=
  if fChecked block then Ok (None, block)
  else match CheckBlockHeader H params (block_header block) fCheckPOW with
  | Some e => Ok (Some e, block)
  | None =>
      merkle ← (if fCheckMerkleRoot then check_merkle block else Ok None);
      match merkle with
      | Some e => Ok (Some e, block)
      | None =>
          match check_body tip block nHeight with
          | Some e => Ok (Some e, block)
          | None => Ok (None, if fCheckPOW && fCheckMerkleRoot then set_fChecked block else block)
          end
      end
  end.

End check_block.

(** ** Checks that depend on the chain *)

Definition ContextualCheckTransaction (up : Upgrades) (tx : CTransaction) : option reject :=
  let known := existsb (fun t => tx_nType tx =? t)
    [TRANSACTION_NORMAL; TRANSACTION_PROVIDER_REGISTER; TRANSACTION_PROVIDER_UPDATE_SERVICE;
     TRANSACTION_PROVIDER_UPDATE_REGISTRAR; TRANSACTION_PROVIDER_UPDATE_REVOKE; TRANSACTION_COINBASE;
     TRANSACTION_QUORUM_COMMITMENT] in
  let type_error :=
    if DIP3Enabled up then
      if 3 <=? tx_nVersion tx then
        if negb known then Some (DoS 100 "bad-txns-type")
        else if IsCoinBase tx && negb (tx_nType tx =? TRANSACTION_COINBASE) then Some (DoS 100 "bad-txns-cb-type")
        else None
      else if negb (tx_nType tx =? TRANSACTION_NORMAL) then Some (DoS 100 "bad-txns-type") else None
    else None in
  match type_error with
  | Some e => Some e
  | None =>
      if DIP0001Enabled up && (MAX_STANDARD_TX_SIZE <? Z.of_nat (length (ser tx)))
      then Some (DoS 100 "bad-txns-oversize") else None
  end.

(** The loop over the transactions: the rejection, or the signature operations. *)
Fixpoint contextual_loop (up : Upgrades) (nHeight nLockTimeCutoff nSigOps : Z) (vtx : list CTransaction) : reject + Z :=
  match vtx with
  | [] => inr nSigOps
  | tx :: vtx =>
      if negb (IsFinalTx tx nHeight nLockTimeCutoff) then inl (DoS 10 "bad-txns-nonfinal")
      else match ContextualCheckTransaction up tx with
      | Some e => inl e
      | None => contextual_loop up nHeight nLockTimeCutoff (u32 (nSigOps + GetLegacySigOpCount tx)) vtx
      end
  end.

Definition ContextualCheckBlock (m : BlockMap) (up : Upgrades) (block : CBlock) (pindexPrev : option ptr) :
    result (option reject) :=
  prev ← match pindexPrev with None => Ok None | Some p => i ← deref (m !! p); Ok (Some i) end;
  let nHeight := match prev with None => 0 | Some i => nHeight i + 1 end in
  nLockTimeCutoff ← (if BIPCSVEnabled up then p ← deref pindexPrev; GetMedianTimePast m p
                     else Ok (hdr_nTime (block_header block)));
  let nMaxBlockSize := MaxBlockSize (DIP0001Enabled up) in
  match block_vtx block with
  | [] => Ok (Some (DoS 10 "bad-blk-length"))
  | tx0 :: _ =>
      if (nMaxBlockSize <? Z.of_nat (length (block_vtx block))) || (nMaxBlockSize <? block_size block)
      then Ok (Some (DoS 10 "bad-blk-length"))
      else match contextual_loop up nHeight nLockTimeCutoff 0 (block_vtx block) with
      | inl e => Ok (Some e)
      | inr nSigOps =>
          if MaxBlockSigOps (DIP0001Enabled up) <? nSigOps then Ok (Some (DoS 10 "bad-blk-sigops"))
          else
            height_ok ← (if BIP34Enabled up && negb (DIP3Enabled up) then
                           in0 ← deref (vin tx0 !! 0%nat);
                           let expect := push_int64 nHeight in
                           Ok (bool_decide (take (length expect) (scriptSig in0) = expect))
                         else Ok true);
            if negb height_ok then Ok (Some (DoS 100 "bad-cb-height"))
            else if DIP3Enabled up && negb (tx_nType tx0 =? TRANSACTION_COINBASE)
            then Ok (Some (DoS 100 "bad-cb-type"))
            else Ok None
      end
  end.

Definition GetBlockScriptFlags (up : Upgrades) (pindex : CBlockIndex) : Z :=
  let nBIP16SwitchTime := 1333238400 in
  let flags := if nBIP16SwitchTime <=? nTime pindex then SCRIPT_VERIFY_P2SH else 0 in
  let flags := if BIP66Enabled up then Z.lor flags SCRIPT_VERIFY_DERSIG else flags in
  let flags := if BIP65Enabled up then Z.lor flags SCRIPT_VERIFY_CHECKLOCKTIMEVERIFY else flags in
  let flags := if BIPCSVEnabled up then Z.lor flags SCRIPT_VERIFY_CHECKSEQUENCEVERIFY else flags in
  if BIP147Enabled up then Z.lor flags SCRIPT_VERIFY_NULLDUMMY else flags.

(** ** Properties *)

Section memo.
Context (Hash : list Z -> uint256) (H : PowHashes) (params : ChainParams) (founder : FounderPayment) (nMaxCash : Z).

(** A coinbase that passes at one height and pays the founder too little for
    another one. *)
Lemma CheckTransaction_founder tip tx h R h' R' : CheckTransaction founder nMaxCash tip tx h R = None -> IsCoinBase tx = true ->
  startBlock founder < h' -> 0 < getFounderPaymentAmount founder h' R' ->
  Forall (fun o => scriptPubKey o = founderScript founder -> nValue o < getFounderPaymentAmount founder h' R') (vout tx) ->
  CheckTransaction founder nMaxCash tip tx h' R' = Some (DoS 100 "bad-cb-founder-payment-not-found").
Proof.
  unfold CheckTransaction. cbn zeta. intros E Hcb Hs Hp Ho. rewrite Hcb in *. do 4 (case_match; [done|]).
  destruct (outputs_loop _ _ _); [done|]. destruct (duplicate_input _ _); [done|]. case_match; [done|].
  rewrite (proj2 (Z.ltb_lt _ _) Hs), (proj2 (Z.eqb_neq (getFounderPaymentAmount founder h' R') 0)) by lia. cbn [negb andb].
  enough (FounderPayeeValid founder (vout tx) h' R' = false) as -> by done.
  unfold FounderPayeeValid. cbn zeta. clear -Ho. induction Ho as [|o outs Ho _ IH]; [done|]. cbn [existsb].
  rewrite IH, orb_false_r. case_bool_decide as Hk; [|done]. cbn [andb]. apply Z.leb_gt. by apply Ho.
Qed.

(** The height [CheckBlock] is called with decides, and only the first time.
    [ProcessNewBlock] passes the height after the tip, not the height of the block.
    A block that is valid at its own height [h] is refused with the score that bans
    the peer when the tip is at [h' - 1], if the founder payment for [h'] is
    larger, as it is when the block lies beyond a reduction of the subsidy that the
    tip has not reached.  Once a block has passed, the flag [fChecked] makes every
    later call accept it, at any height. *)
Theorem block_checked_at_wrong_height tip tip' block b cb rest h h' pow mr :
  CheckBlock Hash H params founder nMaxCash tip block h true true = Ok (None, b) -> fChecked block = false ->
  block_vtx block = cb :: rest -> startBlock founder < h' - 1 ->
  0 < getFounderPaymentAmount founder (h' - 1) (GetBlockSubsidy (h' - 1)) ->
  Forall (fun o => scriptPubKey o = founderScript founder ->
    nValue o < getFounderPaymentAmount founder (h' - 1) (GetBlockSubsidy (h' - 1))) (vout cb) ->
  CheckBlock Hash H params founder nMaxCash tip block h' true true =
    Ok (Some (DoS 100 "bad-cb-founder-payment-not-found"), block) /\
  CheckBlock Hash H params founder nMaxCash tip' b h' pow mr = Ok (None, b).
Proof.
  intros E Hc Hv Hs Hp Ho. unfold CheckBlock in E |- * at 1. rewrite Hc in *. destruct (CheckBlockHeader _ _ _ _); [done|].
  apply result_bind_Ok in E as ([e|] & Em & E); [done|]. rewrite Em. cbn [mbind result_bind].
  destruct (check_body founder nMaxCash tip block h) eqn:Eb; [done|]. cbn [andb] in E. injection E as <-. split; [|done].
  enough (check_body founder nMaxCash tip block h' = Some (DoS 100 "bad-cb-founder-payment-not-found")) as -> by done.
  unfold check_body in Eb |- *. rewrite Hv in *. case_match; [done|]. destruct (IsCoinBase cb) eqn:Ecb; [|done]. cbn [negb] in *.
  destruct (existsb _ _); [done|]. cbn [check_txs] in *.
  destruct (CheckTransaction founder nMaxCash tip cb (h - 1) (GetBlockSubsidy (h - 1))) eqn:Et; [done|].
  by rewrite (CheckTransaction_founder tip cb _ _ _ _ Et).
Qed.

End memo.

(** The main network's founder payment: a block at height 330, whose subsidy is 4
    coins, checked while the tip is at height 328, where it would be 5000000. *)
Definition early_founder : FounderPayment := nFounderPayment (MainPayments [OP_1]).
Definition early_hash (l : list Z) : uint256 := repeat (foldl (fun a b => (a * 31 + b) mod 251) 7 l) 32.
Definition early_coinbase : CTransaction :=
  mkTx 1 0 [mkTxIn (mkOutPoint uint256_null (u32 (-1))) [1; 2] SEQUENCE_FINAL]
    [txout (4 * COIN - 4 * COIN * 5 / 100) [OP_DUP]; txout (4 * COIN * 5 / 100) [OP_1]] 0 [].
Definition early_block : CBlock :=
  mkBlock (mkHeader (hdr_nVersion toy_block) (hdr_hashPrevBlock toy_block) (GetTxHash early_hash early_coinbase)
    (hdr_nTime toy_block) (hdr_nBits toy_block) (hdr_nNonce toy_block) (hdr_hash toy_block)) [early_coinbase] false.

Lemma block_checked_at_wrong_height_witness :
  CheckBlock early_hash toy_hashes toy_params early_founder 0 None early_block 330 true true = Ok (None, set_fChecked early_block) /\
  CheckBlock early_hash toy_hashes toy_params early_founder 0 None early_block 329 true true =
    Ok (Some (DoS 100 "bad-cb-founder-payment-not-found"), early_block).
Proof.
  assert (CheckBlock early_hash toy_hashes toy_params early_founder 0 None early_block 330 true true =
    Ok (None, set_fChecked early_block)) as E by (vm_compute; reflexivity).
  split; [exact E|].
  apply (block_checked_at_wrong_height early_hash toy_hashes toy_params early_founder 0 None None early_block
    (set_fChecked early_block) early_coinbase [] 330 329 true true E).
  - reflexivity.
  - reflexivity.
  - reflexivity.
  - vm_compute. reflexivity.
  - repeat constructor; intros _; vm_compute; reflexivity.
Defined.
