(* ===== verification/BlockConnect.v ===== *)
(** * Connecting a block
    (CheckInputs, CScriptCheck and ConnectBlock of src/src/validation.cpp)

    [ConnectBlock] checks a block against the coins it spends and applies it to the
    view.  What other parts of the node decide is a record of parameters,
    [BlockEnv]: chain locks and instant-send locks, the special transactions, the
    payees.  The signature cache only remembers what [pk_Verify] said and is not
    modelled; the cache of script executions is a set of keys.  The address, spent,
    transaction and timestamp indexes are left out, and the undo record goes to the
    caller, where [ChainState.record_undo] marks the block.  [error(...)] and
    [AbortNode] without a rejection are [BlockError]. *)

From Stdlib Require Import ZArith Lia String.
From stdpp Require Import base tactics numbers option gmap list.
From S2P Require Import Prelude ArithUint256 Compact Block Chain Pow Headers Serialize Double Rewards.
From S2P Require Import Script Interpreter SigHash Transaction Coins Undo TxVerify Merkle BlockCheck.

(** ** Script checks *)

(** [CScriptCheck] *)
Record CScriptCheck := mkScriptCheck {
  sc_scriptPubKey : CScript;
  sc_txTo : CTransaction;
  sc_nIn : nat;
  sc_nFlags : Z
}.

Section scripts.
Context (Hash : list Z -> uint256) (C : ScriptCrypto) (K : PubKeyCrypto).

Definition run_check (c : CScriptCheck) : bool :=
  let tx := sc_txTo c in
  match VerifyScript C (scriptSig (vin tx !!! sc_nIn c)) (sc_scriptPubKey c) (sc_nFlags c)
          (TransactionSignatureChecker Hash K tx (sc_nIn c)) with
  | Success _ => true
  | Failure _ => false
  end.

Definition MANDATORY_SCRIPT_VERIFY_FLAGS : Z := SCRIPT_VERIFY_P2SH.
Definition STANDARD_SCRIPT_VERIFY_FLAGS : Z :=
  foldr Z.lor 0 [MANDATORY_SCRIPT_VERIFY_FLAGS; SCRIPT_VERIFY_DERSIG; SCRIPT_VERIFY_STRICTENC; SCRIPT_VERIFY_MINIMALDATA;
    SCRIPT_VERIFY_NULLDUMMY; SCRIPT_VERIFY_DISCOURAGE_UPGRADABLE_NOPS; SCRIPT_VERIFY_CLEANSTACK; SCRIPT_VERIFY_NULLFAIL;
    SCRIPT_VERIFY_CHECKLOCKTIMEVERIFY; SCRIPT_VERIFY_CHECKSEQUENCEVERIFY; SCRIPT_VERIFY_LOW_S].
Definition STANDARD_NOT_MANDATORY_VERIFY_FLAGS : Z :=
  Z.ldiff STANDARD_SCRIPT_VERIFY_FLAGS MANDATORY_SCRIPT_VERIFY_FLAGS.

(** The key of the script execution cache: 19 bytes of a nonce, the transaction id
    and the flags, hashed once. *)
Definition hashCacheEntry (nonce : list Z) (txid : uint256) (flags : Z) : uint256 :=
  SHA256 C (take 19 nonce ++ txid ++ WriteLE32 flags).

Context {B : Type} `{CoinsView B}.
Implicit Types inputs view : CCoinsViewCache B.

(** The loop of [CheckInputs] from input [nIn] on.  With [queue] ([pvChecks]) the
    checks are collected, otherwise they are run. *)
Fixpoint script_loop inputs (tx : CTransaction) (nIn : nat) (ins : list CTxIn) (flags : Z) (queue : bool)
    (checks : list CScriptCheck) : result ((reject + list CScriptCheck) * CCoinsViewCache B) :=
  match ins with
  | [] => Ok (inr checks, inputs)
  | i :: ins =>
      let '(x, inputs) := AccessCoin inputs (prevout i) in
      _ ← cassert (negb (IsSpent x));
      let check := mkScriptCheck (scriptPubKey (out x)) tx nIn flags in
      if queue then script_loop inputs tx (S nIn) ins flags queue (checks ++ [check])
      else if run_check check then script_loop inputs tx (S nIn) ins flags queue checks
      else if negb (Z.land flags STANDARD_NOT_MANDATORY_VERIFY_FLAGS =? 0) &&
              run_check (mkScriptCheck (scriptPubKey (out x)) tx nIn (Z.ldiff flags STANDARD_NOT_MANDATORY_VERIFY_FLAGS))
      then Ok (inl (DoS 0 "non-mandatory-script-verify-flag"), inputs)
      else Ok (inl (DoS 100 "mandatory-script-verify-flag-failed"), inputs)
  end.

(** [CheckInputs]: the rejection or the collected checks, the view, and the script
    execution cache, of which the model keeps every entry. *)
Definition CheckInputs (nonce : list Z) (tx : CTransaction) inputs (fScriptChecks : bool) (flags : Z)
    (cacheFullScriptStore : bool) (cache : gset uint256) (queue : bool) :
    result ((reject + list CScriptCheck) * CCoinsViewCache B * gset uint256) :=
  let key := hashCacheEntry nonce (GetTxHash Hash tx) flags in
  if IsCoinBase tx || negb fScriptChecks || bool_decide (key ∈ cache) then Ok (inr [], inputs, cache)
  else
    '(r, inputs) ← script_loop inputs tx 0 (vin tx) flags queue [];
    Ok (r, inputs, match r with
                   | inl _ => cache
                   | inr _ => if cacheFullScriptStore && negb queue then {[key]} ∪ cache else cache
                   end).

End scripts.

(** ** The block *)

(** What [ConnectBlock] reads of the rest of the node. *)
Record BlockEnv := mkBlockEnv {
  be_tip : option CBlockIndex;             (* chainActive.Tip() *)
  be_bestHeader : option ptr;              (* pindexBestHeader *)
  be_locks : ChainLocks;
  be_evoDb : ptr -> bool;                  (* evoDb->VerifyBestBlock *)
  hashAssumeValid : uint256;
  nMinimumChainWork : base_uint;
  nScriptCheckThreads : bool;              (* nScriptCheckThreads != 0 *)
  nSuperblockStartHash : uint256;
  spork3 : bool;                           (* SPORK_3_INSTANTSEND_BLOCK_FILTERING *)
  conflictLock : CTransaction -> bool;     (* GetConflictingLock(tx) != nullptr *)
  hasChainLock : bool;                     (* HasChainLock of this block *)
  specialTxs : option reject;              (* ProcessSpecialTxsInBlock *)
  be_payments : PaymentParams;
  be_payees : PaymentEnv;
  be_nonce : list Z                        (* scriptExecutionCacheNonce *)
}.

Inductive BlockResult :=
  | BlockOk (undo : list (list Coin))
  | BlockInvalid (r : reject)
  | BlockError.

Section connect.
Context (Hash : list Z -> uint256) (C : ScriptCrypto) (K : PubKeyCrypto) (H : PowHashes) (params : ChainParams)
  (up : Upgrades) (nMaxCash : Z) (env : BlockEnv).

(** Scripts are not run below the assumed-valid block, when it is buried deep
    enough under the best header. *)
Definition script_checks (m : BlockMap) (pindex : ptr) (idx : CBlockIndex) : result bool :=
  if IsNull (hashAssumeValid env) then Ok true
  else match m !! hashAssumeValid env with
  | None => Ok true
  | Some _ =>
      anc ← GetAncestor m (hashAssumeValid env) (nHeight idx);
      if negb (bool_decide (anc = Some pindex)) then Ok true
      else
        best ← deref (be_bestHeader env);
        anc ← GetAncestor m best (nHeight idx);
        bi ← deref (m !! best);
        if negb (bool_decide (anc = Some pindex)) || (CompareTo (nChainWork bi) (nMinimumChainWork env) <? 0) then Ok true
        else
          t ← GetBlockProofEquivalentTime m (consensus params) bi idx bi;
          Ok (t <=? 60 * 60 * 24 * 7 * 2)
  end.

Context {B : Type} `{CoinsView B}.
Implicit Types view : CCoinsViewCache B.

(** The heights of the coins a transaction spends. *)
Fixpoint prev_heights view (ins : list CTxIn) : list Z * CCoinsViewCache B :=
  match ins with
  | [] => ([], view)
  | i :: ins =>
      let '(x, view) := AccessCoin view (prevout i) in
      let '(hs, view) := prev_heights view ins in
      (coin_nHeight x :: hs, view)
  end.

(** The loop variables of [ConnectBlock]; [s_undo] has the dummy record of the
    first transaction too, [s_checks] is what has been added to the queue. *)
Record LoopState := mkLoop {
  s_view : CCoinsViewCache B;
  s_nFees : Z;
  s_nSigOps : Z;
  s_checks : list CScriptCheck;
  s_cache : gset uint256;
  s_undo : list (list Coin)
}.

(** The inputs of a transaction that is not a coinbase: the new fees. *)
Definition connect_inputs (m : BlockMap) (pindex : ptr) (h : Z) (nLockTimeFlags : Z) view (nFees : Z) (tx : CTransaction) :
    result ((reject + Z) * CCoinsViewCache B) :=
  let ismaxcash := IsMaxCash nMaxCash (be_tip env) in
  '(r, view) ← CheckTxInputs view tx h ismaxcash;
  match r with
  | inl e => Ok (inl e, view)
  | inr txfee =>
      let nFees := nFees + txfee in
      if negb (MoneyRange nFees ismaxcash) then Ok (inl (DoS 100 "bad-txns-accumulated-fee-outofrange"), view)
      else
        let '(prevheights, view) := prev_heights view (vin tx) in
        locks ← SequenceLocks m tx nLockTimeFlags prevheights pindex;
        if negb locks then Ok (inl (DoS 100 "bad-txns-nonfinal"), view) else Ok (inr nFees, view)
  end.

Definition set_view (s : LoopState) view : LoopState :=
  mkLoop view (s_nFees s) (s_nSigOps s) (s_checks s) (s_cache s) (s_undo s).

(** One round of the loop. *)
Definition connect_tx (m : BlockMap) (pindex : ptr) (h : Z) (nLockTimeFlags flags : Z) (fScriptChecks fJustCheck : bool)
    (s : LoopState) (tx : CTransaction) : result (option reject * LoopState) :=
  '(r, view) ← (if IsCoinBase tx then Ok (inr (s_nFees s), s_view s)
                else connect_inputs m pindex h nLockTimeFlags (s_view s) (s_nFees s) tx);
  match r with
  | inl e => Ok (Some e, set_view s view)
  | inr nFees =>
      '(n, view) ← GetTransactionSigOpCount view tx flags;
      let nSigOps := u32 (s_nSigOps s + n) in
      if MaxBlockSigOps (DIP0001Enabled up) <? nSigOps then Ok (Some (DoS 100 "bad-blk-sigops"), set_view s view)
      else
        '(r, view, cache) ← CheckInputs Hash C K (be_nonce env) tx view fScriptChecks flags fJustCheck (s_cache s)
                              (nScriptCheckThreads env);
        match r with
        | inl e => Ok (Some e, set_view s view)
        | inr vChecks =>
            '(undo, view) ← UpdateCoins (GetTxHash Hash tx) tx view h;
            Ok (None, mkLoop view nFees nSigOps (s_checks s ++ vChecks) cache (s_undo s ++ [undo]))
        end
  end.

Fixpoint connect_block_loop (m : BlockMap) (pindex : ptr) (h : Z) (nLockTimeFlags flags : Z)
    (fScriptChecks fJustCheck : bool) (s : LoopState) (vtx : list CTransaction) : result (option reject * LoopState) :=
  match vtx with
  | [] => Ok (None, s)
  | tx :: vtx =>
      '(r, s) ← connect_tx m pindex h nLockTimeFlags flags fScriptChecks fJustCheck s tx;
      match r with
      | Some e => Ok (Some e, s)
      | None => connect_block_loop m pindex h nLockTimeFlags flags fScriptChecks fJustCheck s vtx
      end
  end.

(** The locks of instant send: a block with a chain lock overrides them. *)
Definition instantsend_conflict (vtx : list CTransaction) : bool :=
  spork3 env && existsb (fun tx => negb (bool_decide (vin tx = [])) && conflictLock env tx && negb (hasChainLock env)) vtx.

(** The value and the payees of the coinbase. *)
Definition check_coinbase (m : BlockMap) (idx : CBlockIndex) (nFees : Z) (outs : list CTxOut) : result (option reject) :=
  prev ← deref (pprev idx);
  pi ← deref (m !! prev);
  let blockReward := nFees + GetBlockSubsidy (nHeight pi) in
  value ← IsBlockValueValid (be_payments env) (be_payees env) outs (nHeight idx) blockReward;
  if negb value then Ok (Some (DoS 0 "bad-cb-amount"))
  else if negb (IsBlockPayeeValid (be_payments env) (be_payees env) outs (nHeight idx) blockReward)
  then Ok (Some (DoS 0 "bad-cb-payee"))
  else Ok (specialTxs env).

(** After the loop: the queued script checks, the locks, the coinbase. *)
Definition connect_tail (m : BlockMap) (idx : CBlockIndex) (vtx : list CTransaction) (s : LoopState) :
    result (option reject) :=
  if negb (forallb (run_check Hash C K) (s_checks s)) then Ok (Some (DoS 100 "block-validation-failed"))
  else if instantsend_conflict vtx then Ok (Some (DoS 10 "conflict-tx-lock"))
  else tx0 ← deref (vtx !! 0%nat); check_coinbase m idx (s_nFees s) (vout tx0).

(** The checks after [CheckBlock]: a result ends [ConnectBlock]. *)
Definition connect_head (m : BlockMap) (pindex : ptr) (idx : CBlockIndex) view :
    result (option BlockResult * CCoinsViewCache B) :=
  conflict ← (match pprev idx with
              | None => Ok false
              | Some _ => HasConflictingChainLock m (be_locks env) (nHeight idx) pindex
              end);
  if conflict : bool then Ok (Some (BlockInvalid (DoS 10 "bad-chainlock")), view)
  else
    let '(best, view) := GetBestBlock view in
    _ ← cassert (bool_decide (default uint256_null (pprev idx) = best));
    if DIP3Enabled up && match pprev idx with Some p => negb (be_evoDb env p) | None => false end
    then Ok (Some BlockError, view) else Ok (None, view).

(** [ConnectBlock] for a block of the index. *)
Definition ConnectBlock (founder : FounderPayment) (m : BlockMap) (block : CBlock) (pindex : ptr) view (cache : gset uint256)
    (fJustCheck : bool) : result (BlockResult * CBlock * CCoinsViewCache B * gset uint256) :=
  idx ← deref (m !! pindex);
  let hash := GetHash H (block_header block) in
  _ ← cassert (bool_decide (pindex = hash));
  '(r, block) ← CheckBlock Hash H params founder nMaxCash (be_tip env) block (nHeight idx) (negb fJustCheck) (negb fJustCheck);
  match r with
  | Some e => Ok (BlockInvalid e, block, view, cache)
  | None =>
      '(r, view) ← connect_head m pindex idx view;
      match r with
      | Some e => Ok (e, block, view, cache)
      | None =>
          if bool_decide (hash = hashGenesisBlock params)
          then Ok (BlockOk [], block, if fJustCheck then view else SetBestBlock view pindex, cache)
          else
            fScriptChecks ← script_checks m pindex idx;
            if (nHeight idx =? nSuperblockStartBlock (be_payments env)) && negb (IsNull (nSuperblockStartHash env)) &&
               negb (bool_decide (hash = nSuperblockStartHash env))
            then Ok (BlockInvalid (DoS 100 "bad-sb-start"), block, view, cache)
            else
              let nLockTimeFlags := if BIPCSVEnabled up then LOCKTIME_VERIFY_SEQUENCE else 0 in
              '(r, s) ← connect_block_loop m pindex (nHeight idx) nLockTimeFlags (GetBlockScriptFlags up idx) fScriptChecks
                    fJustCheck (mkLoop view 0 0 [] cache []) (block_vtx block);
              match r with
              | Some e => Ok (BlockInvalid e, block, s_view s, s_cache s)
              | None =>
                  r ← connect_tail m idx (block_vtx block) s;
                  match r with
                  | Some e => Ok (BlockInvalid e, block, s_view s, s_cache s)
                  | None =>
                      Ok (BlockOk (drop 1 (s_undo s)), block,
                          if fJustCheck then s_view s else SetBestBlock (s_view s) pindex, s_cache s)
                  end
              end
      end
  end.

End connect.

(** ** Lemmas: the parts of a round *)

Section lemmas.
Context (Hash : list Z -> uint256) (C : ScriptCrypto) (K : PubKeyCrypto) (H : PowHashes) (params : ChainParams)
  (up : Upgrades) (nMaxCash : Z) (env : BlockEnv).
Context {B : Type} `{CoinsViewLaws B}.
Implicit Types view : CCoinsViewCache B.

(** Reading coins changes the cache, not the set of coins. *)
Definition same_coins view view' : Prop := cache_ok view' /\ forall o, cache_utxo view' o = cache_utxo view o.

Lemma same_coins_refl view : cache_ok view -> same_coins view view.
Proof. by split. Qed.
Lemma same_coins_trans v1 v2 v3 : same_coins v1 v2 -> same_coins v2 v3 -> same_coins v1 v3.
Proof. intros [_ E1] [? E2]. split; [done|]. intros o. by rewrite E2. Qed.
Lemma AccessCoin_same view o : cache_ok view -> same_coins view (AccessCoin view o).2.
Proof. intros Hc. destruct (AccessCoin_spec view o Hc) as (_ & ? & ?). done. Qed.

Lemma prev_heights_same view ins : cache_ok view -> same_coins view (prev_heights view ins).2.
Proof.
  revert view. induction ins as [|i ins IH]; intros view Hc; cbn [prev_heights]; [by apply same_coins_refl|].
  pose proof (AccessCoin_same view (prevout i) Hc) as Hs. destruct (AccessCoin view (prevout i)) as [x v1]. cbn [snd] in Hs.
  destruct (prev_heights v1 ins) as [hs v2] eqn:E. specialize (IH v1 (proj1 Hs)). rewrite E in IH.
  by eapply same_coins_trans.
Qed.

Lemma p2sh_loop_same view ins n r view' : cache_ok view -> p2sh_loop view ins n = Ok (r, view') -> same_coins view view'.
Proof.
  revert view n. induction ins as [|i ins IH]; intros view n Hc; cbn [p2sh_loop].
  { intros [= <- <-]. by apply same_coins_refl. }
  pose proof (AccessCoin_same view (prevout i) Hc) as Hs. destruct (AccessCoin view (prevout i)) as [x v1]. cbn [snd] in Hs.
  destruct (IsSpent x); [done|]. cbn [negb cassert mbind result_bind]. intros E%IH; [|apply Hs]. by eapply same_coins_trans.
Qed.

Lemma GetTransactionSigOpCount_same view tx flags r view' : cache_ok view ->
  GetTransactionSigOpCount view tx flags = Ok (r, view') -> same_coins view view'.
Proof.
  intros Hc. unfold GetTransactionSigOpCount, GetP2SHSigOpCount.
  destruct (IsCoinBase tx); [intros [= <- <-]; by apply same_coins_refl|].
  destruct (has flags _); [|intros [= <- <-]; by apply same_coins_refl].
  intros ([n v] & E & [= <- <-])%result_bind_Ok. by apply p2sh_loop_same in E.
Qed.

(** The check of an input of [tx] that spends the coin [x]. *)
Abbreviation input_check tx flags j x := (mkScriptCheck (scriptPubKey (out x)) tx j flags).

(** Every input from [nIn] on has an unspent coin whose check is in [checks] or
    succeeds. *)
Definition inputs_checked (u : coinset) (tx : CTransaction) (flags : Z) (nIn : nat) (ins : list CTxIn)
    (checks : list CScriptCheck) : Prop :=
  forall j i, ins !! j = Some i -> exists x, u (prevout i) = Some x /\
    (input_check tx flags (nIn + j)%nat x ∈ checks \/ run_check Hash C K (input_check tx flags (nIn + j)%nat x) = true).

Lemma script_loop_spec view tx nIn ins flags queue checks checks' view' : cache_ok view ->
  script_loop Hash C K view tx nIn ins flags queue checks = Ok (inr checks', view') ->
  same_coins view view' /\ checks ⊆ checks' /\ inputs_checked (cache_utxo view) tx flags nIn ins checks'.
Proof.
  revert view nIn checks. induction ins as [|i ins IH]; intros view nIn checks Hc; cbn [script_loop].
  { intros [= <- <-]. split_and!; [by apply same_coins_refl|done|]. intros j i. by rewrite lookup_nil. }
  destruct (AccessCoin_spec view (prevout i) Hc) as (Hl & Hc1 & Hu1).
  destruct (AccessCoin view (prevout i)) as [x v1]. cbn [fst snd] in *. unfold live in Hl.
  destruct (IsSpent x); [done|]. cbn [negb cassert mbind result_bind].
  assert (forall chk, script_loop Hash C K v1 tx (S nIn) ins flags queue chk = Ok (inr checks', view') -> checks ⊆ chk ->
    (input_check tx flags nIn x ∈ chk \/ run_check Hash C K (input_check tx flags nIn x) = true) ->
    same_coins view view' /\ checks ⊆ checks' /\ inputs_checked (cache_utxo view) tx flags nIn (i :: ins) checks') as Hstep.
  { intros chk E Hsub Hx. apply IH in E as (Hs & Hsub' & Hin); [|done].
    split_and!; [by eapply same_coins_trans|by etrans|]. intros [|j] i' Hj.
    - injection Hj as <-. exists x. rewrite Nat.add_0_r. split; [done|]. destruct Hx; [left; by apply Hsub'|by right].
    - destruct (Hin j i' Hj) as (y & Hy & Hd). exists y. rewrite <- Nat.add_succ_comm. rewrite Hu1 in Hy. done. }
  destruct queue.
  { intros E. apply (Hstep _ E); [intros c Hin|left]; apply elem_of_app; [by left|right; by apply list_elem_of_singleton]. }
  destruct (run_check Hash C K _) eqn:Er; [|by case_match]. intros E. apply (Hstep _ E); [done|by right].
Qed.

Lemma CheckInputs_spec nonce tx view fScriptChecks flags cache queue checks view' cache' : cache_ok view ->
  CheckInputs Hash C K nonce tx view fScriptChecks flags false cache queue = Ok (inr checks, view', cache') ->
  same_coins view view' /\ cache' = cache /\
  (fScriptChecks = true -> IsCoinBase tx = false -> hashCacheEntry C nonce (GetTxHash Hash tx) flags ∉ cache ->
   inputs_checked (cache_utxo view) tx flags 0 (vin tx) checks).
Proof.
  intros Hc. unfold CheckInputs. cbn zeta. destruct (IsCoinBase tx || _ || _) eqn:E0.
  { intros [= <- <- <-]. split_and!; [by apply same_coins_refl|done|]. intros Hf Hcb Hk. rewrite Hf, Hcb in E0.
    cbn in E0. by apply bool_decide_eq_true in E0. }
  intros ([r v] & E & [= -> <- <-])%result_bind_Ok.
  apply script_loop_spec in E as (Hs & _ & Hin); [|done]. cbn [andb]. done.
Qed.

Lemma connect_inputs_spec m pindex h lf view nFees tx nFees' view' : cache_ok view ->
  connect_inputs nMaxCash env m pindex h lf view nFees tx = Ok (inr nFees', view') ->
  same_coins view view' /\ MoneyRange nFees' (IsMaxCash nMaxCash (be_tip env)) = true /\
  exists l v, Forall2 (fun i x => cache_utxo view (prevout i) = Some x) (vin tx) l /\ Forall (mature h) l /\
    GetValueOut tx = Ok v /\ coin_total l + nFees = v + nFees'.
Proof.
  intros Hc. unfold connect_inputs. cbn zeta. intros ([r v1] & E1 & E)%result_bind_Ok. destruct r as [e|fee]; [done|].
  apply CheckTxInputs_spec in E1 as (Hc1 & Hu1 & Hfee & l & v & Hf & Hm & Ev & Hsum); [|done].
  destruct (MoneyRange (nFees + fee) _) eqn:Er; [|done]. cbn [negb] in E.
  pose proof (prev_heights_same v1 (vin tx) Hc1) as Hs. destruct (prev_heights v1 (vin tx)) as [hs v2]. cbn [snd] in Hs.
  apply result_bind_Ok in E as ([] & _ & E); [|done]. injection E as <- <-.
  split; [by eapply same_coins_trans|]. split; [done|]. exists l, v. split_and!; [done..|lia].
Qed.

(** ** Lemmas: the loop *)

Definition with_ids (vtx : list CTransaction) : list (uint256 * CTransaction) := (fun tx => (GetTxHash Hash tx, tx)) <$> vtx.

(** The ids of the transactions are new. *)
Definition fresh_ids (vtx : list CTransaction) (u : coinset) : Prop :=
  NoDup (GetTxHash Hash <$> vtx) /\ forall tx o, tx ∈ vtx -> op_hash o = GetTxHash Hash tx -> u o = None.

Lemma fresh_ids_cons tx vtx h (u : coinset) : fresh_ids (tx :: vtx) u ->
  (forall o, op_hash o = GetTxHash Hash tx -> u o = None) /\ fresh_ids vtx (connect_spec (GetTxHash Hash tx) tx h u).
Proof.
  intros [[Hn Hd]%NoDup_cons Hu]. split; [intros o; apply Hu, list_elem_of_here|]. split; [done|].
  intros t o Ht Ho. unfold connect_spec. destruct (new_coin _ tx h o) as [y|] eqn:En.
  - apply new_coin_txid in En. destruct Hn. rewrite <- En, Ho. by apply list_elem_of_fmap_2.
  - case_decide; [done|]. apply (Hu t); [by apply list_elem_of_further|done].
Qed.

(** The scripts of a transaction were run, or are in the queue, or the cache of
    script executions has it. *)
Definition tx_checked (flags : Z) (fScriptChecks : bool) (cache : gset uint256) (checks : list CScriptCheck)
    (u : coinset) (tx : CTransaction) : Prop :=
  fScriptChecks = true -> IsCoinBase tx = false -> hashCacheEntry C (be_nonce env) (GetTxHash Hash tx) flags ∉ cache ->
  inputs_checked u tx flags 0 (vin tx) checks.

Lemma inputs_checked_mono u u' tx flags n ins checks checks' : checks ⊆ checks' -> (forall o, u o = u' o) ->
  inputs_checked u tx flags n ins checks -> inputs_checked u' tx flags n ins checks'.
Proof. intros Hs Hu Hi j i Hj. destruct (Hi j i Hj) as (x & Hx & Hd). exists x. rewrite <- Hu. split; [done|]. destruct Hd; [left; by apply Hs|by right]. Qed.

(** What is known of a transaction that [CheckBlock] has seen. *)
Definition tx_sane (tx : CTransaction) : Prop :=
  NoDup (prevout <$> vin tx) /\ Forall (fun o => 0 <= nValue o) (vout tx) /\ GetValueOut tx = Ok (total (vout tx)).

(** One round: the transaction can be connected and is, its undo record has the
    coins it spends, and the fees are what it leaves. *)
Record tx_round (h flags : Z) (fScriptChecks : bool) (u : coinset) (s s' : @LoopState B) (tx : CTransaction) (x : list Coin) :
    Prop := {
  r_ok : cache_ok (s_view s');
  r_connectable : connectable (GetTxHash Hash tx) tx u;
  r_utxo : forall o, cache_utxo (s_view s') o = connect_spec (GetTxHash Hash tx) tx h u o;
  r_undo : s_undo s' = s_undo s ++ [x];
  r_spent : IsCoinBase tx = false -> Forall2 (fun i y => u (prevout i) = Some y) (vin tx) x /\ Forall (mature h) x;
  r_fees : if IsCoinBase tx then s_nFees s' = s_nFees s else coin_total x + s_nFees s = total (vout tx) + s_nFees s';
  r_sigops : s_nSigOps s' <= MaxBlockSigOps (DIP0001Enabled up);
  r_cache : s_cache s' = s_cache s;
  r_checks : s_checks s ⊆ s_checks s';
  r_scripts : tx_checked flags fScriptChecks (s_cache s) (s_checks s') u tx
}.

Lemma coins_unique (u : coinset) ins l l' : Forall2 (fun i x => u (prevout i) = Some x) ins l ->
  Forall2 (fun i x => u (prevout i) = Some x) ins l' -> l = l'.
Proof.
  intros Hf. revert l'. induction Hf as [|i x ins l Hx _ IH]; intros l' Hf'; inversion Hf' as [|? y ? ? Hy Hf'']; subst; [done|].
  f_equal; [congruence|by apply IH].
Qed.

Lemma connect_tx_spec m pindex h lf flags fsc (u : coinset) s tx s' : cache_ok (s_view s) ->
  (forall o, cache_utxo (s_view s) o = u o) -> tx_sane tx -> (forall o, op_hash o = GetTxHash Hash tx -> u o = None) ->
  connect_tx Hash C K up nMaxCash env m pindex h lf flags fsc false s tx = Ok (None, s') ->
  exists x, tx_round h flags fsc u s s' tx x.
Proof.
  intros Hc Hu (Hd & Hp & Hv) Hnew. unfold connect_tx. intros ([r v1] & E1 & E)%result_bind_Ok. destruct r as [e|fees]; [done|].
  assert (same_coins (s_view s) v1 /\ (if IsCoinBase tx then fees = s_nFees s else exists l,
    Forall2 (fun i x => u (prevout i) = Some x) (vin tx) l /\ Forall (mature h) l /\
    coin_total l + s_nFees s = total (vout tx) + fees)) as [Hs1 Hl].
  { destruct (IsCoinBase tx); [injection E1 as <- <-; by split; [apply same_coins_refl|]|].
    apply connect_inputs_spec in E1 as (Hs & _ & l & v & Hf & Hm & Ev & Hsum); [|done]. split; [done|]. exists l.
    split_and!; [|done|congruence]. eapply Forall2_impl; [done|]. cbn. intros i x. by rewrite Hu. }
  apply result_bind_Ok in E as ([n v2] & E2 & E). apply GetTransactionSigOpCount_same in E2 as Hs2; [|apply Hs1].
  case_test_in E; [done|]. apply result_bind_Ok in E as ([[r v3] cache] & E3 & E). destruct r as [e|vChecks]; [done|].
  apply CheckInputs_spec in E3 as (Hs3 & -> & Hin); [|apply Hs2].
  pose proof (same_coins_trans _ _ _ Hs1 Hs2) as Hs. pose proof (same_coins_trans _ _ _ Hs Hs3) as [Hc3 Hu3].
  assert (connectable (GetTxHash Hash tx) tx u) as Hconn.
  { split; [eapply Forall_impl; [exact Hp|cbn; lia]|done|done|]. intros Hcb o (i & -> & Hi)%list_elem_of_fmap. rewrite Hcb in Hl.
    destruct Hl as (l & Hf & _). apply list_elem_of_lookup in Hi as [k Hi]. by destruct (Forall2_lookup_l _ _ _ _ _ Hf Hi) as (x & _ & ->). }
  assert (forall o, cache_utxo v3 o = u o) as Hu' by (intros o; by rewrite Hu3, Hu).
  destruct (UpdateCoins_spec v3 (GetTxHash Hash tx) tx h Hc3) as (x & v4 & E4 & Hc4 & Hx & Hu4); [by eapply connectable_ext|].
  rewrite E4 in E. injection E as <-. exists x.
  assert (IsCoinBase tx = false -> Forall2 (fun i y => u (prevout i) = Some y) (vin tx) x) as Hx'.
  { intros Hcb. eapply Forall2_impl; [by apply Hx|]. cbn. intros i y. by rewrite Hu'. }
  split; cbn [s_view s_nFees s_nSigOps s_checks s_cache s_undo]; try done.
  - intros o. rewrite Hu4. by apply connect_spec_ext.
  - intros Hcb. split; [by apply Hx'|]. rewrite Hcb in Hl. destruct Hl as (l & Hf & Hm & _).
    by rewrite (coins_unique u (vin tx) x l (Hx' Hcb) Hf).
  - destruct (IsCoinBase tx); [done|]. destruct Hl as (l & Hf & _ & Hsum).
    by rewrite (coins_unique u (vin tx) x l (Hx' eq_refl) Hf).
  - intros c Hin'. apply elem_of_app. by left.
  - intros Hf Hcb Hk. eapply inputs_checked_mono; [|intros o; etrans; [apply Hs|apply Hu]|by apply Hin].
    intros c Hin'. apply elem_of_app. by right.
Qed.

Definition block_in (undo : list (list Coin)) : Z := foldr (fun l n => coin_total l + n) 0 undo.
Definition block_out (vtx : list CTransaction) : Z := foldr (fun tx n => total (vout tx) + n) 0 vtx.

(** All rounds. *)
Record block_round (h flags : Z) (fScriptChecks : bool) (u : coinset) (s s' : @LoopState B) (vtx : list CTransaction)
    (l : list (list Coin)) : Prop := {
  b_ok : cache_ok (s_view s');
  b_connectable : block_connectable h (with_ids vtx) u;
  b_utxo : forall o, cache_utxo (s_view s') o = connect_all h (with_ids vtx) u o;
  b_undo : s_undo s' = s_undo s ++ l;
  b_undos : undos_ok h (with_ids vtx) u l;
  b_mature : Forall2 (fun tx x => IsCoinBase tx = false -> Forall (mature h) x) vtx l;
  b_fees : Forall (fun tx => IsCoinBase tx = false) vtx -> block_in l + s_nFees s = block_out vtx + s_nFees s';
  b_cache : s_cache s' = s_cache s;
  b_checks : s_checks s ⊆ s_checks s';
  b_scripts : forall k tx, vtx !! k = Some tx ->
    tx_checked flags fScriptChecks (s_cache s) (s_checks s') (connect_all h (with_ids (take k vtx)) u) tx
}.

Lemma block_round_cons h flags fsc u s s1 s' tx vtx x l : tx_round h flags fsc u s s1 tx x ->
  block_round h flags fsc (connect_spec (GetTxHash Hash tx) tx h u) s1 s' vtx l ->
  block_round h flags fsc u s s' (tx :: vtx) (x :: l).
Proof.
  intros Ht Hb. split; cbn [with_ids fmap list_fmap block_connectable undos_ok connect_all].
  - apply Hb.
  - split; [apply Ht|apply Hb].
  - apply Hb.
  - by rewrite (b_undo _ _ _ _ _ _ _ _ Hb), (r_undo _ _ _ _ _ _ _ _ Ht), <- app_assoc.
  - split; [intros Hcb; by apply Ht|apply Hb].
  - constructor; [intros Hcb; by apply Ht|apply Hb].
  - intros [Hcb Hr]%Forall_cons. pose proof (b_fees _ _ _ _ _ _ _ _ Hb Hr) as E. pose proof (r_fees _ _ _ _ _ _ _ _ Ht) as E'.
    rewrite Hcb in E'. cbn [block_in block_out foldr]. fold (block_in l) (block_out vtx). lia.
  - by rewrite (b_cache _ _ _ _ _ _ _ _ Hb), (r_cache _ _ _ _ _ _ _ _ Ht).
  - etrans; [apply Ht|apply Hb].
  - intros [|k] t Hk; cbn [lookup list_lookup take] in Hk |- *.
    + injection Hk as <-. intros Hf Hcb Hn. eapply inputs_checked_mono; [apply Hb|done|]. by apply (r_scripts _ _ _ _ _ _ _ _ Ht).
    + rewrite <- (r_cache _ _ _ _ _ _ _ _ Ht). by apply (b_scripts _ _ _ _ _ _ _ _ Hb).
Qed.

Lemma connect_block_loop_spec m pindex h lf flags fsc (u : coinset) s vtx s' : cache_ok (s_view s) ->
  (forall o, cache_utxo (s_view s) o = u o) -> Forall tx_sane vtx -> fresh_ids vtx u ->
  connect_block_loop Hash C K up nMaxCash env m pindex h lf flags fsc false s vtx = Ok (None, s') ->
  exists l, block_round h flags fsc u s s' vtx l.
Proof.
  revert u s. induction vtx as [|tx vtx IH]; intros u s Hc Hu Hsane Hfresh; cbn [connect_block_loop].
  { intros [= <-]. exists []. split; try done. by rewrite app_nil_r. }
  apply Forall_cons in Hsane as [Ht Hsane]. destruct (fresh_ids_cons tx vtx h u Hfresh) as [Hnew Hfresh'].
  intros ([[e|] s1] & E1 & E)%result_bind_Ok; [done|].
  apply connect_tx_spec with (u := u) in E1 as [x Hx]; [|done..].
  destruct (IH _ s1 (r_ok _ _ _ _ _ _ _ _ Hx) (r_utxo _ _ _ _ _ _ _ _ Hx) Hsane Hfresh' E) as [l Hl].
  exists (x :: l). by eapply block_round_cons.
Qed.

(** ** Lemmas: the block *)

Lemma check_body_None founder tip block h : check_body founder nMaxCash tip block h = None ->
  exists cb rest, block_vtx block = cb :: rest /\ IsCoinBase cb = true /\ Forall (fun tx => IsCoinBase tx = false) rest /\
    Forall tx_sane (block_vtx block).
Proof.
  unfold check_body. destruct (block_vtx block) as [|cb rest]; [done|]. case_match; [done|].
  destruct (IsCoinBase cb) eqn:Ecb; [|done]. cbn [negb]. destruct (existsb IsCoinBase rest) eqn:Ex; [done|].
  destruct (check_txs _ _ _ _ _ _) eqn:Et; [done|]. intros _. exists cb, rest. split_and!; [done..| |].
  - apply Forall_forall. intros tx Hin. destruct (IsCoinBase tx) eqn:E; [|done]. rewrite <- Ex. symmetry. apply existsb_exists.
    exists tx. split; [by apply list_elem_of_In|done].
  - revert Et. generalize (cb :: rest). intros vtx. induction vtx as [|tx vtx IH]; cbn [check_txs]; [constructor|].
    destruct (CheckTransaction _ _ _ tx _ _) eqn:E; [done|]. intros Et. constructor; [by apply CheckTransaction_None in E|by apply IH].
Qed.

End lemmas.

(** ** Properties *)

Section accepted.
Context (Hash : list Z -> uint256) (C : ScriptCrypto) (K : PubKeyCrypto) (H : PowHashes) (params : ChainParams)
  (up : Upgrades) (nMaxCash : Z) (env : BlockEnv) (founder : FounderPayment).
Context {B : Type} `{CoinsViewLaws B}.
Context (m : BlockMap) (block block' : CBlock) (pindex : ptr) (view view' : CCoinsViewCache B) (cache cache' : gset uint256)
  (undo : list (list Coin)).

(** [ConnectBlock] has accepted a block that is not the genesis block.  The coins
    of the view are a valid set, and the flag [fChecked] was not set by anything but
    [CheckBlock]. *)
Record accepted : Prop := {
  acc_view : cache_ok view;
  acc_checked : fChecked block = true -> exists tip h, check_body founder nMaxCash tip block h = None;
  acc_genesis : GetHash H (block_header block) <> hashGenesisBlock params;
  acc_run : ConnectBlock Hash C K H params up nMaxCash env founder m block pindex view cache false =
    Ok (BlockOk undo, block', view', cache')
}.

(** The run of an accepted block: the index entries it uses, the checks it passed
    and the rounds of the loop. *)
Record accepted_run (idx pi : CBlockIndex) (prev : ptr) (cb : CTransaction) (rest : list CTransaction) (x : list Coin)
    (s0 s : @LoopState B) (fsc : bool) : Prop := {
  run_idx : m !! pindex = Some idx;
  run_prev : pprev idx = Some prev /\ m !! prev = Some pi;
  run_vtx : block_vtx block = cb :: rest;
  run_cb : IsCoinBase cb = true /\ GetValueOut cb = Ok (total (vout cb));
  run_rest : Forall (fun tx => IsCoinBase tx = false) rest;
  run_fsc : script_checks params env m pindex idx = Ok fsc;
  run_rounds : block_round Hash C K env (nHeight idx) (GetBlockScriptFlags up idx) fsc (cache_utxo view) s0 s (cb :: rest)
    (x :: undo);
  run_cache : s_cache s0 = cache;
  run_fees : block_in undo = block_out rest + s_nFees s;
  run_queue : forallb (run_check Hash C K) (s_checks s) = true;
  run_value : IsBlockValueValid (be_payments env) (be_payees env) (vout cb) (nHeight idx)
    (s_nFees s + GetBlockSubsidy (nHeight pi)) = Ok true;
  run_view : view' = SetBestBlock (s_view s) pindex
}.

Lemma connect_head_None idx v : cache_ok view -> connect_head up env m pindex idx view = Ok (None, v) -> same_coins view v.
Proof.
  intros Hc. unfold connect_head. intros ([] & _ & E)%result_bind_Ok; [done|].
  destruct (cache_GetBestBlock view Hc) as (_ & Hc1 & Hu1 & _). destruct (GetBestBlock view) as [best v1]. cbn [fst snd] in *.
  apply result_bind_Ok in E as (_ & _ & E). destruct (_ && _); [done|]. by injection E as <-.
Qed.

Lemma connect_tail_None idx cb rest s : connect_tail Hash C K env m idx (cb :: rest) s = Ok None ->
  forallb (run_check Hash C K) (s_checks (B:=B) s) = true /\ exists prev pi, pprev idx = Some prev /\ m !! prev = Some pi /\
    IsBlockValueValid (be_payments env) (be_payees env) (vout cb) (nHeight idx) (s_nFees s + GetBlockSubsidy (nHeight pi)) = Ok true.
Proof.
  unfold connect_tail. destruct (forallb _ _); [|done]. cbn [negb]. destruct (instantsend_conflict _ _); [done|].
  cbn [lookup list_lookup deref mbind result_bind]. unfold check_coinbase.
  intros (prev & Hp & (pi & Hpi & ([] & Hv & E)%result_bind_Ok)%result_bind_Ok)%result_bind_Ok; [|done].
  split; [done|]. exists prev, pi. split_and!; [by destruct (pprev idx); simplify_eq/=|by destruct (m !! prev); simplify_eq/=|done].
Qed.

Lemma CheckBlock_None tip h pow mr b1 : CheckBlock Hash H params founder nMaxCash tip block h pow mr = Ok (None, b1) ->
  block_vtx b1 = block_vtx block /\ block_header b1 = block_header block /\
  (fChecked block = true \/ check_body founder nMaxCash tip block h = None).
Proof.
  unfold CheckBlock. destruct (fChecked block); [intros [= <-]; auto|]. destruct (CheckBlockHeader _ _ _ _); [done|].
  intros ([e|] & _ & E)%result_bind_Ok; [done|]. destruct (check_body _ _ _ _ _); [done|]. injection E as <-.
  split_and!; [by destruct (_ && _)..|by right].
Qed.

Lemma accepted_rounds : accepted -> fresh_ids Hash (block_vtx block) (cache_utxo view) -> exists idx pi prev cb rest x s0 s fsc, accepted_run idx pi prev cb rest x s0 s fsc.
Proof.
  intros [Hc Hchk Hgen E] Hnew. unfold ConnectBlock in E. apply result_bind_Ok in E as (idx & Hidx & E).
  apply result_bind_Ok in E as (_ & _ & E). apply result_bind_Ok in E as ([[e|] b1] & Eb & E); [done|].
  apply result_bind_Ok in E as ([[e|] v1] & Eh & E); [injection E as -> <- <- <-|].
  { exfalso. revert Eh. unfold connect_head. intros ([] & _ & E)%result_bind_Ok; [done|]. destruct (GetBestBlock view).
    apply result_bind_Ok in E as (_ & _ & E). by destruct (_ && _). }
  apply connect_head_None in Eh as [Hc1 Hu1]; [|done].
  rewrite bool_decide_eq_false_2 in E by done. apply result_bind_Ok in E as (fsc & Ef & E). case_match; [done|].
  apply result_bind_Ok in E as ([[e|] s] & El & E); [done|]. apply result_bind_Ok in E as ([e|] & Et & E); [done|].
  injection E as Eundo <- <- <-. apply CheckBlock_None in Eb as (Hvtx & Hhdr & Hb). rewrite Hvtx in *.
  assert (exists tip h, check_body founder nMaxCash tip block h = None) as (tip & h & Hbody).
  { destruct Hb as [Hb|Hb]; [by apply Hchk|by eauto]. }
  apply check_body_None in Hbody as (cb & rest & Ev & Hcb & Hrest & Hsane). rewrite Ev in *.
  eapply connect_tail_None in Et as (Hq & prev & pi & Hp & Hpi & Hval).
  apply Forall_cons in Hsane as [Hcs Hsane]. destruct (fresh_ids_cons Hash cb rest (nHeight idx) _ Hnew) as [Hn0 Hn1].
  cbn [connect_block_loop] in El. apply result_bind_Ok in El as ([[e|] s1] & E1 & El); [done|].
  assert (exists x, tx_round Hash C K up env (nHeight idx) (GetBlockScriptFlags up idx) fsc (cache_utxo view)
    (mkLoop v1 0 0 [] cache []) s1 cb x) as [x Hx] by (by eapply connect_tx_spec).
  assert (exists l, block_round Hash C K env (nHeight idx) (GetBlockScriptFlags up idx) fsc
    (connect_spec (GetTxHash Hash cb) cb (nHeight idx) (cache_utxo view)) s1 s rest l) as [l Hl]
    by (eapply connect_block_loop_spec; [apply Hx|apply Hx|done..]).
  assert (l = undo) as ->.
  { rewrite <- Eundo, (b_undo _ _ _ _ _ _ _ _ _ _ _ _ Hl), (r_undo _ _ _ _ _ _ _ _ _ _ _ _ _ Hx). done. }
  eexists idx, pi, prev, cb, rest, x, _, s, fsc. split; try done.
  - by destruct (m !! pindex); simplify_eq/=.
  - by destruct Hcs as (_ & _ & ?).
  - by eapply block_round_cons.
  - done.
  - pose proof (b_fees _ _ _ _ _ _ _ _ _ _ _ _ Hl Hrest) as E. pose proof (r_fees _ _ _ _ _ _ _ _ _ _ _ _ _ Hx) as E0.
    rewrite Hcb in E0. cbn [s_nFees] in E0. lia.
Qed.

(** C3: An accepted block creates no more than the subsidy.  Suppose [ConnectBlock]
    accepts a block above the genesis block and below the heights of budgets and
    superblocks.  The ids of its transactions must be distinct and no coin may have one
    of them, which [ConnectBlock] itself does not check; and if the block is marked as
    checked, [CheckBlock] must have passed it.  Then the coins become those that
    connecting its transactions means; the undo records hold the coins that the
    transactions after the coinbase spend, each unspent at its turn, and coinbases among
    them are at least 100 blocks deep; and the outputs of the whole block, the coinbase
    included, are worth at most the coins it spends and the subsidy for its height. *)
Theorem block_creates_subsidy idx prev pi : accepted -> fresh_ids Hash (block_vtx block) (cache_utxo view) -> m !! pindex = Some idx -> pprev idx = Some prev ->
  m !! prev = Some pi -> nHeight idx < nBudgetPaymentsStartBlock (be_payments env) ->
  (forall o, cache_utxo view' o = connect_all (nHeight idx) (with_ids Hash (block_vtx block)) (cache_utxo view) o) /\
  Forall (Forall (mature (nHeight idx))) undo /\
  (exists x, undos_ok (nHeight idx) (with_ids Hash (block_vtx block)) (cache_utxo view) (x :: undo)) /\
  block_out (block_vtx block) <= block_in undo + GetBlockSubsidy (nHeight pi).
Proof.
  intros Ha Hnew Hidx Hprev Hpi Hh. destruct (accepted_rounds Ha Hnew) as (idx' & pi' & prev' & cb & rest & x & s0 & s & fsc & [Hi [Hp Hi2] Hv
    [Hcb Hval] Hrest _ Hr _ Hfees _ Hvalue ->]). rewrite Hi in Hidx. simplify_eq. rewrite Hv.
  split_and!; [apply Hr| |exists x; apply Hr|].
  - pose proof (b_mature _ _ _ _ _ _ _ _ _ _ _ _ Hr) as [_ Hm]%Forall2_cons_1. clear -Hm Hrest. revert Hm. induction 1; inversion Hrest; eauto.
  - unfold IsBlockValueValid in Hvalue. unfold GetValueOut in Hval. rewrite Hval in Hvalue. cbn [mbind result_bind] in Hvalue.
    rewrite (proj2 (Z.ltb_lt _ _) Hh) in Hvalue. injection Hvalue as Hle%Z.leb_le.
    change (block_out (cb :: rest)) with (total (vout cb) + block_out rest). lia.
Qed.

(** C6: An accepted block can be disconnected.  Suppose [ConnectBlock] accepts a block
    above the genesis block.  The ids of its transactions must be distinct and no coin
    may have one of them, which [ConnectBlock] itself does not check; if the block is
    marked as checked, [CheckBlock] must have passed it; and the coins before must have
    been created above height 0 and be spendable, as every coin that was ever added is.
    Then disconnecting the block with the undo data that [ConnectBlock] returned
    succeeds, is clean, and gives back the coins there were before and the parent as
    best block. *)
Theorem accepted_block_disconnects idx prev : accepted -> fresh_ids Hash (block_vtx block) (cache_utxo view) -> m !! pindex = Some idx -> pprev idx = Some prev ->
  nHeight idx <> 0 -> coins_sane (cache_utxo view) ->
  exists c, DisconnectCoins view' prev (nHeight idx) (with_ids Hash (block_vtx block)) undo = Ok (DISCONNECT_OK, c) /\
    (forall o, cache_utxo c o = cache_utxo view o) /\ hashBlock c = prev.
Proof.
  intros Ha Hnew Hidx Hprev Hh Hsane. destruct (accepted_rounds Ha Hnew) as (idx' & pi' & prev' & cb & rest & x & s0 & s & fsc & [Hi _ Hv
    [Hcb _] Hrest _ Hr _ _ _ _ ->]). rewrite Hi in Hidx. simplify_eq. rewrite Hv.
  apply (DisconnectCoins_spec _ prev (nHeight idx) (GetTxHash Hash cb, cb) (with_ids Hash rest) (cache_utxo view) x undo); try done.
  - destruct (b_ok _ _ _ _ _ _ _ _ _ _ _ _ Hr). by split.
  - intros o y. apply cache_utxo_unspent, Ha.
  - unfold with_ids. apply Forall_fmap. exact Hrest.
  - apply Hr.
  - apply Hr.
  - apply Hr.
Qed.

(** C7: The scripts of an accepted block have been run.  Suppose [ConnectBlock] accepts
    a block above the genesis block that is not below the assumed-valid block.  The ids
    of its transactions must be distinct and no coin may have one of them, which
    [ConnectBlock] itself does not check; and if the block is marked as checked,
    [CheckBlock] must have passed it.  Then every input of every transaction of the
    block but the coinbase spends a coin that is unspent at its turn and whose script
    the input satisfies, under the script flags of the block, with the signature checker
    of that input; only transactions in the cache of script executions are exempt. *)
Theorem accepted_block_scripts idx k tx j i : accepted -> fresh_ids Hash (block_vtx block) (cache_utxo view) -> m !! pindex = Some idx ->
  script_checks params env m pindex idx = Ok true -> block_vtx block !! k = Some tx -> IsCoinBase tx = false ->
  hashCacheEntry C (be_nonce env) (GetTxHash Hash tx) (GetBlockScriptFlags up idx) ∉ cache -> vin tx !! j = Some i ->
  exists x, connect_all (nHeight idx) (with_ids Hash (take k (block_vtx block))) (cache_utxo view) (prevout i) = Some x /\
    VerifyScript C (scriptSig i) (scriptPubKey (out x)) (GetBlockScriptFlags up idx)
      (TransactionSignatureChecker Hash K tx j) = Success tt.
Proof.
  intros Ha Hnew Hidx Hf Hk Hcb Hn Hj. destruct (accepted_rounds Ha Hnew) as (idx' & pi' & prev' & cb & rest & x & s0 & s & fsc & [Hi _ Hv
    _ _ Hfsc Hr Hcache _ Hq _ _]). rewrite Hi in Hidx. simplify_eq. rewrite Hf in Hfsc. simplify_eq. rewrite Hv in *.
  destruct (b_scripts _ _ _ _ _ _ _ _ _ _ _ _ Hr k tx Hk eq_refl Hcb) with j i as (y & Hy & Hd); [by rewrite Hcache|done|].
  exists y. split; [done|]. assert (run_check Hash C K (mkScriptCheck (scriptPubKey (out y)) tx j (GetBlockScriptFlags up idx)) = true) as E.
  { destruct Hd as [Hd|Hd]; [|done]. apply list_elem_of_In in Hd. by apply (proj1 (forallb_forall _ _) Hq). }
  unfold run_check in E. cbn in E. rewrite (list_lookup_total_correct _ _ _ Hj) in E. by destruct (VerifyScript _ _ _ _ _) as [[]|].
Qed.

End accepted.

(** ** A concrete block for the witnesses: a coinbase and a spend, on the toy
    network of header acceptance. *)

Definition toy_hash (l : list Z) : uint256 := repeat (foldl (fun a b => (a * 31 + b) mod 251) 7 l) 32.
Definition toy_point : COutPoint := mkOutPoint (repeat 1 32) 0.
Definition toy_db : CCoinsViewDB :=
  mkDB {[ toy_point := mkCoin (txout 5 [OP_1]) false 1 ]} (Some (GetHash toy_hashes toy_genesis)) None.
Definition toy_spend : CTransaction := mkTx 1 0 [mkTxIn toy_point [] SEQUENCE_FINAL] [txout 4 [OP_1]] 0 [].
Definition toy_vtx : list CTransaction :=
  [mkTx 1 0 [mkTxIn (mkOutPoint uint256_null (u32 (-1))) [1; 2] SEQUENCE_FINAL] [txout 100 [OP_1]] 0 []; toy_spend].
Definition toy_root : uint256 :=
  match BlockMerkleRoot toy_hash (GetTxHash toy_hash <$> toy_vtx) true with Ok (r, _) => r | Err _ => [] end.
Definition toy_cblock : CBlock :=
  mkBlock (mkHeader (hdr_nVersion toy_block) (hdr_hashPrevBlock toy_block) toy_root (hdr_nTime toy_block) (hdr_nBits toy_block)
    (hdr_nNonce toy_block) (hdr_hash toy_block)) toy_vtx false.
Definition toy_hdr_hash : uint256 := GetHash toy_hashes (block_header toy_cblock).
Definition toy_index : BlockMap := mapBlockIndex (toy_accept toy_state (block_header toy_cblock)).
Definition toy_up : Upgrades := mkUpgrades true true true true true true true.
Definition toy_env : BlockEnv :=
  mkBlockEnv (toy_index !! GetHash toy_hashes toy_genesis) (Some toy_hdr_hash) no_locks (fun _ => true) uint256_null
    (of_u64 W256 0) true uint256_null false (fun _ => false) false None (MainPayments [OP_1])
    (mkEnv 0 None false false [] (fun _ => true) true false true) (repeat 3 32).

Definition toy_full (ops : list DbOp) : bool := (1 <? length ops)%nat.
#[local] Instance toy_db_view : CoinsView CCoinsViewDB := db_view toy_full.
#[local] Instance toy_db_laws : CoinsViewLaws CCoinsViewDB := db_view_laws toy_full.
Definition toy_view : CCoinsViewCache CCoinsViewDB := mkCache toy_db (GetHash toy_hashes toy_genesis) ∅.

Definition toy_connect : result (BlockResult * CBlock * CCoinsViewCache CCoinsViewDB * gset uint256) :=
  ConnectBlock toy_hash toy_crypto (mkPubKeys (fun _ => true) (fun _ _ _ => true)) toy_hashes toy_params toy_up 0 toy_env
    (nFounderPayment (MainPayments [OP_1])) toy_index toy_cblock toy_hdr_hash toy_view ∅ false.
Definition toy_view' : CCoinsViewCache CCoinsViewDB := match toy_connect with Ok (_, _, v, _) => v | Err _ => toy_view end.
Definition toy_idx (p : ptr) : CBlockIndex := default (new_index (block_header toy_cblock)) (toy_index !! p).

Lemma toy_view_utxo o : cache_utxo toy_view o = db_coins toy_db !! o.
Proof. reflexivity. Qed.

Lemma toy_accepted : accepted toy_hash toy_crypto (mkPubKeys (fun _ => true) (fun _ _ _ => true)) toy_hashes toy_params toy_up 0 toy_env
  (nFounderPayment (MainPayments [OP_1])) toy_index toy_cblock (set_fChecked toy_cblock) toy_hdr_hash toy_view toy_view' ∅ ∅
  [[mkCoin (txout 5 [OP_1]) false 1]].
Proof.
  split.
  - split; [|intros o e; cbn [toy_view cacheCoins]; by rewrite lookup_empty].
    split; [done|]. intros o c. cbn [toy_view base toy_db db_coins]. intros [_ <-]%lookup_singleton_Some. done.
  - discriminate.
  - by vm_compute.
  - vm_compute. reflexivity.
Qed.

Lemma toy_fresh : fresh_ids toy_hash (block_vtx toy_cblock) (cache_utxo toy_view).
Proof.
  split; [apply (bool_decide_eq_true_1 _); vm_compute; reflexivity|]. intros tx o Htx Ho. rewrite toy_view_utxo.
  apply lookup_singleton_None. intros <-. cbn [op_hash toy_point] in Ho.
  apply elem_of_cons in Htx as [->|Htx]; [by vm_compute in Ho|]. apply list_elem_of_singleton in Htx as ->. by vm_compute in Ho.
Qed.

Lemma block_creates_subsidy_witness : block_out toy_vtx <= 5 + GetBlockSubsidy 0.
Proof.
  apply (block_creates_subsidy _ _ _ _ _ _ _ _ _ _ _ _ _ _ _ _ _ _ (toy_idx toy_hdr_hash) (GetHash toy_hashes toy_genesis)
    (toy_idx (GetHash toy_hashes toy_genesis)) toy_accepted toy_fresh); vm_compute; reflexivity.
Defined.

Lemma accepted_block_disconnects_witness :
  exists c, DisconnectCoins toy_view' (GetHash toy_hashes toy_genesis) 1 (with_ids toy_hash toy_vtx)
      [[mkCoin (txout 5 [OP_1]) false 1]] = Ok (DISCONNECT_OK, c) /\
    cache_utxo c toy_point = Some (mkCoin (txout 5 [OP_1]) false 1).
Proof.
  destruct (accepted_block_disconnects _ _ _ _ _ _ _ _ _ _ _ _ _ _ _ _ _ _ (toy_idx toy_hdr_hash) (GetHash toy_hashes toy_genesis)
    toy_accepted toy_fresh) as (c & E & Hu & _).
  - vm_compute. reflexivity.
  - vm_compute. reflexivity.
  - vm_compute. discriminate.
  - intros o x. rewrite toy_view_utxo. cbn [toy_db db_coins]. intros [_ <-]%lookup_singleton_Some. split; [discriminate|reflexivity].
  - exists c. split; [exact E|]. rewrite Hu. reflexivity.
Defined.

Lemma accepted_block_scripts_witness :
  exists x, connect_all 1 (with_ids toy_hash (take 1 toy_vtx)) (cache_utxo toy_view) toy_point = Some x /\
    VerifyScript toy_crypto [] (scriptPubKey (out x)) (GetBlockScriptFlags toy_up (toy_idx toy_hdr_hash))
      (TransactionSignatureChecker toy_hash (mkPubKeys (fun _ => true) (fun _ _ _ => true)) toy_spend 0) = Success tt.
Proof.
  apply (accepted_block_scripts _ _ _ _ _ _ _ _ _ _ _ _ _ _ _ _ _ _ (toy_idx toy_hdr_hash) 1 toy_spend 0
    (mkTxIn toy_point [] SEQUENCE_FINAL) toy_accepted toy_fresh).
  - vm_compute. reflexivity.
  - vm_compute. reflexivity.
  - reflexivity.
  - reflexivity.
  - set_solver.
  - reflexivity.
Defined.

(** The ids have to be new: a coinbase whose id a coin already has is connected, and
    when the block is disconnected the older coin is gone. *)
Definition dup_point : COutPoint := mkOutPoint (default uint256_null (GetTxHash toy_hash <$> head toy_vtx)) 0.
Definition dup_view : CCoinsViewCache CCoinsViewDB :=
  mkCache (mkDB (<[ dup_point := mkCoin (txout 100 [OP_1]) true 1 ]> (db_coins toy_db)) (Some (GetHash toy_hashes toy_genesis)) None)
    (GetHash toy_hashes toy_genesis) ∅.

Definition dup_disconnected : result (option Coin) :=
  '(r, _, view, _) ← ConnectBlock toy_hash toy_crypto (mkPubKeys (fun _ => true) (fun _ _ _ => true)) toy_hashes toy_params toy_up 0 toy_env
    (nFounderPayment (MainPayments [OP_1])) toy_index toy_cblock toy_hdr_hash dup_view ∅ false;
  match r with
  | BlockOk undo =>
      '(_, view) ← DisconnectCoins view (GetHash toy_hashes toy_genesis) 1 (with_ids toy_hash toy_vtx) undo;
      Ok (cache_utxo view dup_point)
  | _ => Err LogicError
  end.

Example duplicate_coinbase_lost :
  cache_utxo dup_view dup_point = Some (mkCoin (txout 100 [OP_1]) true 1) /\ dup_disconnected = Ok None.
Proof. split; vm_compute; reflexivity. Qed.
