(* ===== verification/ChainState.v ===== *)
(** * Choosing and activating the best chain
    (CBlockIndexWorkComparator, FindMostWorkChain, PruneBlockIndexCandidates,
    ConnectTip, DisconnectTip, ActivateBestChainStep, ActivateBestChain,
    InvalidateBlock, ResetBlockFailureFlags, PreciousBlock and
    ReceivedBlockTransactions of src/src/validation.cpp)

    The globals these functions change are a record, [ChainState], over the
    header state of [Headers].  [pcoinsTip] is any type of views: the functions
    that read blocks and apply them to the view are the fields of [ChainOps].  A
    [CBlockIndex*] is the hash the block is stored under, as in [Chain], and
    [addr] is its address, which the comparator falls back to.  The memory pool,
    the fork warnings and the notifications are not part of the state. *)

From Stdlib Require Import ZArith Lia.
From stdpp Require Import base tactics numbers option list gmap.
From S2P Require Import Prelude ArithUint256 Compact Block Chain Pow Headers.

(** ** Candidates and their order *)

Definition work_gt (a b : base_uint) : bool := 0 <? CompareTo a b.

(** [CBlockIndexWorkComparator] on two blocks and their addresses. *)
Definition WorkComparator (aa : Z) (pa : CBlockIndex) (ab : Z) (pb : CBlockIndex) : bool :=
  if work_gt (nChainWork pa) (nChainWork pb) then false
  else if work_gt (nChainWork pb) (nChainWork pa) then true
  else if nSequenceId pa <? nSequenceId pb then false
  else if nSequenceId pb <? nSequenceId pa then true
  else if aa <? ab then false
  else if ab <? aa then true
  else false.

(** The same on pointers into the heap, which never dangle. *)
Definition value_comp (addr : ptr -> Z) (m : BlockMap) (a b : ptr) : bool :=
  match m !! a, m !! b with
  | Some pa, Some pb => WorkComparator (addr a) pa (addr b) pb
  | _, _ => false
  end.

(** [setBlockIndexCandidates.rbegin()]: the greatest element of the ordered set. *)
Definition rbegin (addr : ptr -> Z) (m : BlockMap) (c : gset ptr) : option ptr :=
  foldr (fun p best => match best with
                       | None => Some p
                       | Some q => Some (if value_comp addr m q p then p else q)
                       end) None (elements c).

(** ** State *)

Record ChainState (View : Type) := mkChainState {
  hdrs : HeaderState;
  chainActive : CChain;
  pcoinsTip : View;
  setBlockIndexCandidates : gset ptr;
  mapBlocksUnlinked : list (ptr * ptr);
  pindexBestInvalid : option ptr;
  nBlockSequenceId : Z;
  nBlockReverseSequenceId : Z;
  nLastPreciousChainwork : base_uint;
  fRequestShutdown : bool
}.
Arguments mkChainState {View}.
Arguments hdrs {View}. Arguments chainActive {View}. Arguments pcoinsTip {View}.
Arguments setBlockIndexCandidates {View}. Arguments mapBlocksUnlinked {View}.
Arguments pindexBestInvalid {View}. Arguments nBlockSequenceId {View}.
Arguments nBlockReverseSequenceId {View}. Arguments nLastPreciousChainwork {View}.
Arguments fRequestShutdown {View}.

Abbreviation index s := (mapBlockIndex (hdrs s)).

(** What [ConnectBlock] can return: the new view; a rejection, with
    [CorruptionPossible()]; or a system error. *)
Inductive Connected (View : Type) :=
  | ConnOk (v : View)
  | ConnInvalid (corruptionPossible : bool)
  | ConnError.
Arguments ConnOk {View} v. Arguments ConnInvalid {View} corruptionPossible. Arguments ConnError {View}.

Record ChainOps (View : Type) := mkChainOps {
  ReadBlockFromDisk : ptr -> bool;
  ConnectBlock : View -> ptr -> Connected View;
  DisconnectBlock : View -> ptr -> option View;   (* [Some] is DISCONNECT_OK *)
  GetBestBlock : View -> ptr;
  FlushStateToDisk : View -> bool;
  UndoPos : ptr -> Z                              (* the position [FindUndoPos] gives *)
}.
Arguments ReadBlockFromDisk {View}. Arguments ConnectBlock {View}. Arguments DisconnectBlock {View}.
Arguments GetBestBlock {View}. Arguments FlushStateToDisk {View}. Arguments UndoPos {View}.

(** ** Assignments to single fields *)

Section Setters.
Context {View : Type}.
Implicit Types s : ChainState View.

Definition set_hdrs (h : HeaderState) s : ChainState View :=
  mkChainState h (chainActive s) (pcoinsTip s) (setBlockIndexCandidates s) (mapBlocksUnlinked s)
    (pindexBestInvalid s) (nBlockSequenceId s) (nBlockReverseSequenceId s) (nLastPreciousChainwork s) (fRequestShutdown s).
Definition set_active (v : CChain) s : ChainState View :=
  mkChainState (hdrs s) v (pcoinsTip s) (setBlockIndexCandidates s) (mapBlocksUnlinked s)
    (pindexBestInvalid s) (nBlockSequenceId s) (nBlockReverseSequenceId s) (nLastPreciousChainwork s) (fRequestShutdown s).
Definition set_coins (v : View) s : ChainState View :=
  mkChainState (hdrs s) (chainActive s) v (setBlockIndexCandidates s) (mapBlocksUnlinked s)
    (pindexBestInvalid s) (nBlockSequenceId s) (nBlockReverseSequenceId s) (nLastPreciousChainwork s) (fRequestShutdown s).
Definition set_candidates (c : gset ptr) s : ChainState View :=
  mkChainState (hdrs s) (chainActive s) (pcoinsTip s) c (mapBlocksUnlinked s)
    (pindexBestInvalid s) (nBlockSequenceId s) (nBlockReverseSequenceId s) (nLastPreciousChainwork s) (fRequestShutdown s).
Definition set_unlinked (u : list (ptr * ptr)) s : ChainState View :=
  mkChainState (hdrs s) (chainActive s) (pcoinsTip s) (setBlockIndexCandidates s) u
    (pindexBestInvalid s) (nBlockSequenceId s) (nBlockReverseSequenceId s) (nLastPreciousChainwork s) (fRequestShutdown s).
Definition set_best_invalid (p : option ptr) s : ChainState View :=
  mkChainState (hdrs s) (chainActive s) (pcoinsTip s) (setBlockIndexCandidates s) (mapBlocksUnlinked s)
    p (nBlockSequenceId s) (nBlockReverseSequenceId s) (nLastPreciousChainwork s) (fRequestShutdown s).
Definition set_sequence (n : Z) s : ChainState View :=
  mkChainState (hdrs s) (chainActive s) (pcoinsTip s) (setBlockIndexCandidates s) (mapBlocksUnlinked s)
    (pindexBestInvalid s) n (nBlockReverseSequenceId s) (nLastPreciousChainwork s) (fRequestShutdown s).
Definition set_precious (n : Z) (w : base_uint) s : ChainState View :=
  mkChainState (hdrs s) (chainActive s) (pcoinsTip s) (setBlockIndexCandidates s) (mapBlocksUnlinked s)
    (pindexBestInvalid s) (nBlockSequenceId s) n w (fRequestShutdown s).
Definition set_shutdown s : ChainState View :=
  mkChainState (hdrs s) (chainActive s) (pcoinsTip s) (setBlockIndexCandidates s) (mapBlocksUnlinked s)
    (pindexBestInvalid s) (nBlockSequenceId s) (nBlockReverseSequenceId s) (nLastPreciousChainwork s) true.

(** Changing one object of the heap. *)
Definition upd_index (f : CBlockIndex -> CBlockIndex) (p : ptr) s : ChainState View :=
  set_hdrs (set_map (alter f p (index s)) (setDirtyBlockIndex (hdrs s)) (hdrs s)) s.
(** [setDirtyBlockIndex.insert(p)] *)
Definition set_dirty (p : ptr) s : ChainState View :=
  set_hdrs (set_map (index s) (p :: setDirtyBlockIndex (hdrs s)) (hdrs s)) s.
Definition set_best_header (p : option ptr) s : ChainState View :=
  let h := hdrs s in
  set_hdrs (mkHeaderState (mapBlockIndex h) p (setDirtyBlockIndex h) (mapPrevBlockIndex h) (g_failed_blocks h)) s.
Definition set_failed_blocks (l : list ptr) s : ChainState View :=
  let h := hdrs s in
  set_hdrs (mkHeaderState (mapBlockIndex h) (pindexBestHeader h) (setDirtyBlockIndex h) (mapPrevBlockIndex h) l) s.

(** [setBlockIndexCandidates.erase(p)] and [.insert(p)] *)
Definition erase_candidate (p : ptr) s : ChainState View :=
  set_candidates (setBlockIndexCandidates s ∖ {[ p ]}) s.
Definition insert_candidate (p : ptr) s : ChainState View :=
  set_candidates ({[ p ]} ∪ setBlockIndexCandidates s) s.
End Setters.

Definition set_nUndoPos (x : Z) (i : CBlockIndex) : CBlockIndex :=
  mkIndex (pprev i) (pskip i) (nHeight i) (nFile i) (nDataPos i) x (nChainWork i) (nTx i) (nChainTx i)
    (nStatus i) (nVersion i) (hashMerkleRoot i) (nTime i) (nBits i) (nNonce i) (nSequenceId i) (nTimeMax i).
Definition set_nSequenceId (x : Z) (i : CBlockIndex) : CBlockIndex :=
  mkIndex (pprev i) (pskip i) (nHeight i) (nFile i) (nDataPos i) (nUndoPos i) (nChainWork i) (nTx i) (nChainTx i)
    (nStatus i) (nVersion i) (hashMerkleRoot i) (nTime i) (nBits i) (nNonce i) x (nTimeMax i).
Definition set_nChainTx (x : Z) (i : CBlockIndex) : CBlockIndex :=
  mkIndex (pprev i) (pskip i) (nHeight i) (nFile i) (nDataPos i) (nUndoPos i) (nChainWork i) (nTx i) x
    (nStatus i) (nVersion i) (hashMerkleRoot i) (nTime i) (nBits i) (nNonce i) (nSequenceId i) (nTimeMax i).

(** [pindex->nStatus |= flag] *)
Definition or_status (flag : Z) (i : CBlockIndex) : CBlockIndex := set_nStatus (Z.lor (nStatus i) flag) i.
(** [pindex->nStatus &= ~BLOCK_FAILED_MASK] *)
Definition clear_failed (i : CBlockIndex) : CBlockIndex :=
  set_nStatus (Z.land (nStatus i) (u32 (Z.lnot BLOCK_FAILED_MASK))) i.

Definition failed (i : CBlockIndex) : bool := negb (Z.land (nStatus i) BLOCK_FAILED_MASK =? 0).
Definition have_data (i : CBlockIndex) : bool := negb (Z.land (nStatus i) BLOCK_HAVE_DATA =? 0).

(** What [ConnectTip] returns: [true]; [false] with an invalid state, which may
    be a corruption; [false] after a system error. *)
Inductive tip_result := TipOk | TipInvalid (corruptionPossible : bool) | TipError.

(** How the loop over [vpindexToConnect] ends: after the last block, with
    [fContinue] false at a better tip, at an invalid block, or with an error. *)
Inductive connect_result := AllConnected | BetterTip | InvalidFound | SystemError.

(** ** The chain with the most work *)

Section Operations.
Context {View : Type} (ops : ChainOps View) (addr : ptr -> Z).
Implicit Types s : ChainState View.

(** [if (!pindexBestInvalid || p->nChainWork > pindexBestInvalid->nChainWork)
    pindexBestInvalid = p;] *)
Definition note_invalid s (p : ptr) : result (ChainState View) :=
  match pindexBestInvalid s with
  | None => Ok (set_best_invalid (Some p) s)
  | Some b =>
      pi ← deref (index s !! p); bi ← deref (index s !! b);
      Ok (if work_gt (nChainWork pi) (nChainWork bi) then set_best_invalid (Some p) s else s)
  end.

(** [while (pindexTest != pindexFailed)]: remove the chain above the unusable
    block from the candidates. *)
Fixpoint remove_loop (fuel : nat) s (fFailedChain : bool) (pindexTest pindexFailed : ptr) : result (ChainState View) :=
  if bool_decide (pindexTest = pindexFailed) then Ok s
  else match fuel with
       | O => Err OutOfFuel
       | S fuel =>
           idx ← deref (index s !! pindexFailed);
           prev ← deref (pprev idx);
           let s := if fFailedChain then upd_index (or_status BLOCK_FAILED_CHILD) pindexFailed s
                    else set_unlinked (mapBlocksUnlinked s ++ [(prev, pindexFailed)]) s in
           remove_loop fuel (erase_candidate pindexFailed s) fFailedChain pindexTest prev
       end.

(** [while (pindexTest && !chainActive.Contains(pindexTest))]: [true] is
    [fInvalidAncestor]. *)
Fixpoint test_loop (fuel : nat) s (pindexNew : ptr) (pindexTest : option ptr) : result (bool * ChainState View) :=
  match pindexTest with
  | None => Ok (false, s)
  | Some t =>
      c ← Contains (index s) (chainActive s) t;
      if c : bool then Ok (false, s)
      else match fuel with
           | O => Err OutOfFuel
           | S fuel =>
               idx ← deref (index s !! t);
               _ ← cassert (negb (nChainTx idx =? 0) || (nHeight idx =? 0));
               let fFailedChain := failed idx in
               let fMissingData := negb (have_data idx) in
               if fFailedChain || fMissingData then
                 s ← (if fFailedChain then note_invalid s pindexNew else Ok s);
                 new ← deref (index s !! pindexNew);
                 s ← remove_loop (S (Z.to_nat (nHeight new))) s fFailedChain t pindexNew;
                 Ok (true, erase_candidate t s)
               else test_loop fuel s pindexNew (pprev idx)
           end
  end.

(** [do { ... } while(true)]: every iteration that does not return removes the
    best candidate. *)
Fixpoint most_work_loop (fuel : nat) s : result (option ptr * ChainState View) :=
  match rbegin addr (index s) (setBlockIndexCandidates s) with
  | None => Ok (None, s)
  | Some pindexNew =>
      match fuel with
      | O => Err OutOfFuel
      | S fuel =>
          new ← deref (index s !! pindexNew);
          '(fInvalidAncestor, s) ← test_loop (S (Z.to_nat (nHeight new))) s pindexNew (Some pindexNew);
          if fInvalidAncestor : bool then most_work_loop fuel s else Ok (Some pindexNew, s)
      end
  end.

Definition FindMostWorkChain s : result (option ptr * ChainState View) :=
  most_work_loop (size (setBlockIndexCandidates s)) s.

(** The loop erases from the front of the ordered set what compares less than
    the tip, which is every element that does. *)
Definition PruneBlockIndexCandidates s : result (ChainState View) :=
  tip ← deref (Tip (chainActive s));
  let c := filter (fun p => value_comp addr (index s) p tip = false) (setBlockIndexCandidates s) in
  _ ← cassert (negb (bool_decide (c = ∅)));
  Ok (set_candidates c s).

(** ** Moving the tip *)

(** [InvalidChainFound], apart from its log and the fork warnings. *)
Definition InvalidChainFound s (pindexNew : ptr) : result (ChainState View) :=
  s ← note_invalid s pindexNew;
  _ ← cassert (bool_decide (is_Some (Tip (chainActive s))));
  Ok s.

Definition InvalidBlockFound s (pindex : ptr) (corruptionPossible : bool) : result (ChainState View) :=
  if corruptionPossible then Ok s
  else
    let s := upd_index (or_status BLOCK_FAILED_VALID) pindex s in
    let s := set_failed_blocks (pindex :: g_failed_blocks (hdrs s)) s in
    InvalidChainFound (erase_candidate pindex (set_dirty pindex s)) pindex.

(** [UpdateTip]: its log message dereferences the new tip. *)
Definition UpdateTip s (pindexNew : option ptr) : result (ChainState View) :=
  v ← SetTip (index s) (chainActive s) pindexNew;
  _ ← deref (Tip v);
  Ok (set_active v s).

(** The end of [ConnectBlock]: record the undo data of a block that has none.  The
    genesis block does not get there. *)
Definition record_undo s (pindex : ptr) : result (ChainState View) :=
  idx ← deref (index s !! pindex);
  let null_undo := Z.land (nStatus idx) BLOCK_HAVE_UNDO =? 0 in
  valid ← IsValid (nStatus idx) BLOCK_VALID_SCRIPTS;
  if null_undo || negb valid then
    let idx := if null_undo then or_status BLOCK_HAVE_UNDO (set_nUndoPos (UndoPos ops pindex) idx) else idx in
    '(st, _) ← RaiseValidity (nStatus idx) BLOCK_VALID_SCRIPTS;
    Ok (set_dirty pindex (upd_index (fun _ => set_nStatus st idx) pindex s))
  else Ok s.

Definition ConnectTip s (pindexNew : ptr) (loaded : bool) : result (tip_result * ChainState View) :=
  idx ← deref (index s !! pindexNew);
  _ ← cassert (bool_decide (pprev idx = Tip (chainActive s)));
  if negb (loaded || ReadBlockFromDisk ops pindexNew) then Ok (TipError, s)
  else
    match ConnectBlock ops (pcoinsTip s) pindexNew with
    | ConnInvalid corruption =>
        s ← InvalidBlockFound s pindexNew corruption;
        Ok (TipInvalid corruption, s)
    | ConnError => Ok (TipError, s)
    | ConnOk view =>
        s ← match pprev idx with None => Ok s | Some _ => record_undo s pindexNew end;
        let s := set_coins view s in
        if negb (FlushStateToDisk ops view) then Ok (TipError, s)
        else
          s ← UpdateTip s (Some pindexNew);
          Ok (TipOk, s)
    end.

Definition DisconnectTip s : result (bool * ChainState View) :=
  match Tip (chainActive s) with
  | None => Err AssertFail
  | Some pindexDelete =>
      idx ← deref (index s !! pindexDelete);
      if negb (ReadBlockFromDisk ops pindexDelete) then Ok (false, s)
      else
        _ ← cassert (bool_decide (GetBestBlock ops (pcoinsTip s) = pindexDelete));
        match DisconnectBlock ops (pcoinsTip s) pindexDelete with
        | None => Ok (false, s)
        | Some view =>
            let s := set_coins view s in
            if negb (FlushStateToDisk ops view) then Ok (false, s)
            else s ← UpdateTip s (pprev idx); Ok (true, s)
        end
  end.

(** [while (chainActive.Tip() && chainActive.Tip() != pindexFork)] *)
Fixpoint disconnect_loop (fuel : nat) s (pindexFork : option ptr) : result (bool * ChainState View) :=
  if bool_decide (Tip (chainActive s) = None) || bool_decide (Tip (chainActive s) = pindexFork) then Ok (true, s)
  else match fuel with
       | O => Err OutOfFuel
       | S fuel =>
           '(ok, s) ← DisconnectTip s;
           if ok : bool then disconnect_loop fuel s pindexFork else Ok (false, s)
       end.

(** [while (pindexIter && pindexIter->nHeight != nHeight)]: the blocks above
    [nHeight] on the way to [pindexIter], lowest first, which is the order they
    are connected in; [vpindexToConnect] holds them in the other order. *)
Fixpoint collect_loop (fuel : nat) (m : BlockMap) (pindexIter : option ptr) (nHeight0 : Z) (acc : list ptr) :
    result (list ptr) :=
  match pindexIter with
  | None => Ok acc
  | Some p =>
      idx ← deref (m !! p);
      if nHeight idx =? nHeight0 then Ok acc
      else match fuel with
           | O => Err OutOfFuel
           | S fuel => collect_loop fuel m (pprev idx) nHeight0 (p :: acc)
           end
  end.

Fixpoint connect_loop s (pindexMostWork : ptr) (loaded : bool) (pindexOldTip : option ptr) (back : ptr)
    (l : list ptr) : result (connect_result * ChainState View) :=
  match l with
  | [] => Ok (AllConnected, s)
  | p :: l =>
      '(r, s) ← ConnectTip s p (bool_decide (p = pindexMostWork) && loaded);
      match r with
      | TipInvalid corruption =>
          s ← (if corruption then Ok s else InvalidChainFound s back);
          Ok (InvalidFound, s)
      | TipError => Ok (SystemError, s)
      | TipOk =>
          s ← PruneBlockIndexCandidates s;
          better ← match pindexOldTip with
                   | None => Ok true
                   | Some o =>
                       tip ← deref (Tip (chainActive s));
                       ti ← deref (index s !! tip); oi ← deref (index s !! o);
                       Ok (work_gt (nChainWork ti) (nChainWork oi))
                   end;
          if better : bool then Ok (BetterTip, s) else connect_loop s pindexMostWork loaded pindexOldTip back l
      end
  end.

(** [while (fContinue && nHeight != pindexMostWork->nHeight)], in batches of 32. *)
Fixpoint batch_loop (fuel : nat) s (pindexMostWork : ptr) (loaded : bool) (pindexOldTip : option ptr) (nHeight0 : Z) :
    result (connect_result * ChainState View) :=
  mw ← deref (index s !! pindexMostWork);
  if nHeight0 =? nHeight mw then Ok (AllConnected, s)
  else match fuel with
       | O => Err OutOfFuel
       | S fuel =>
           let nTargetHeight := Z.min (nHeight0 + 32) (nHeight mw) in
           iter ← GetAncestor (index s) pindexMostWork nTargetHeight;
           l ← collect_loop 32 (index s) iter nHeight0 [];
           '(r, s) ← connect_loop s pindexMostWork loaded pindexOldTip (hd [] l) l;
           match r with
           | AllConnected => batch_loop fuel s pindexMostWork loaded pindexOldTip nTargetHeight
           | _ => Ok (r, s)
           end
       end.

(** The results are the return value, [fInvalidFound] and the state. *)
Definition ActivateBestChainStep s (pindexMostWork : ptr) (loaded : bool) : result (bool * bool * ChainState View) :=
  let pindexOldTip := Tip (chainActive s) in
  pindexFork ← FindFork (index s) (chainActive s) (Some pindexMostWork);
  '(ok, s) ← disconnect_loop (length (chainActive s)) s pindexFork;
  if negb ok then Ok (false, false, s)
  else
    nHeight0 ← match pindexFork with None => Ok (-1) | Some f => fi ← deref (index s !! f); Ok (nHeight fi) end;
    mw ← deref (index s !! pindexMostWork);
    '(r, s) ← batch_loop (S (Z.to_nat (nHeight mw))) s pindexMostWork loaded pindexOldTip nHeight0;
    match r with
    | SystemError => Ok (false, false, s)
    | InvalidFound => Ok (true, true, s)
    | _ => Ok (true, false, s)
    end.

(** [do { ... } while (pindexNewTip != pindexMostWork)]; [pblock] is the hash of
    the block that is already loaded. *)
Fixpoint activate_loop (fuel : nat) s (nStopAtHeight : Z) (pblock pindexMostWork : option ptr) :
    result (bool * ChainState View) :=
  match fuel with
  | O => Err OutOfFuel
  | S fuel =>
      if fRequestShutdown s then Ok (FlushStateToDisk ops (pcoinsTip s), s)
      else
        '(pindexMostWork, s) ← (if bool_decide (pindexMostWork = None) then FindMostWorkChain s else Ok (pindexMostWork, s));
        match pindexMostWork with
        | None => Ok (true, s)
        | Some mw =>
            if bool_decide (Some mw = Tip (chainActive s)) then Ok (true, s)
            else
              '(ok, fInvalidFound, s) ← ActivateBestChainStep s mw (bool_decide (pblock = Some mw));
              if negb ok then Ok (false, s)
              else
                let pindexMostWork := if fInvalidFound : bool then None else Some mw in
                let pindexNewTip := Tip (chainActive s) in
                stop ← match pindexNewTip with
                       | Some t => ti ← deref (index s !! t); Ok (negb (nStopAtHeight =? 0) && (nStopAtHeight <=? nHeight ti))
                       | None => Ok false
                       end;
                let s := if stop : bool then set_shutdown s else s in
                if bool_decide (pindexNewTip = pindexMostWork)
                then Ok (FlushStateToDisk ops (pcoinsTip s), s)
                else activate_loop fuel s nStopAtHeight pblock pindexMostWork
        end
  end.

Definition ActivateBestChain (fuel : nat) s (nStopAtHeight : Z) (pblock : option ptr) : result (bool * ChainState View) :=
  activate_loop fuel s nStopAtHeight pblock None.

(** ** Requests of the user *)

Definition PreciousBlock (fuel : nat) s (nStopAtHeight : Z) (pindex : ptr) : result (bool * ChainState View) :=
  idx ← deref (index s !! pindex);
  tip ← deref (Tip (chainActive s)); ti ← deref (index s !! tip);
  if work_gt (nChainWork ti) (nChainWork idx) then Ok (true, s)
  else
    let rev := if work_gt (nChainWork ti) (nLastPreciousChainwork s) then -1 else nBlockReverseSequenceId s in
    let s := erase_candidate pindex s in
    let s := upd_index (set_nSequenceId rev) pindex s in
    let s := set_precious (if - 2 ^ 31 <? rev then rev - 1 else rev) (nChainWork ti) s in
    valid ← IsValid (nStatus idx) BLOCK_VALID_TRANSACTIONS;
    s ← (if valid && negb (nChainTx idx =? 0)
         then PruneBlockIndexCandidates (insert_candidate pindex s) else Ok s);
    ActivateBestChain fuel s nStopAtHeight None.

(** [if (... == pindexBestHeader) { pindexBestInvalid = pindexBestHeader;
    pindexBestHeader = pindexBestHeader->pprev; }] *)
Definition drop_best_header s (p : option ptr) : result (ChainState View) :=
  match pindexBestHeader (hdrs s), p with
  | Some b, Some p =>
      if bool_decide (p = b) then
        bi ← deref (index s !! b);
        Ok (set_best_header (pprev bi) (set_best_invalid (Some b) s))
      else Ok s
  | _, _ => Ok s
  end.

(** [while (chainActive.Contains(pindex))]; the first result is [false] where
    [DisconnectTip] failed. *)
Fixpoint invalidate_disconnect (fuel : nat) s (pindex : ptr) : result (bool * ChainState View) :=
  c ← Contains (index s) (chainActive s) pindex;
  if negb c then Ok (true, s)
  else match fuel with
       | O => Err OutOfFuel
       | S fuel =>
           let pindexOldTip := Tip (chainActive s) in
           '(ok, s) ← DisconnectTip s;
           if negb ok then Ok (false, s)
           else s ← drop_best_header s pindexOldTip; invalidate_disconnect fuel s pindex
       end.

(** [while (pindex_was_in_chain && invalid_walk_tip != pindex)] *)
Fixpoint invalidate_mark (fuel : nat) s (walk : option ptr) (pindex : ptr) : result (ChainState View) :=
  if bool_decide (walk = Some pindex) then Ok s
  else match fuel, walk with
       | S fuel, Some w =>
           idx ← deref (index s !! w);
           invalidate_mark fuel (erase_candidate w (set_dirty w (upd_index (or_status BLOCK_FAILED_CHILD) w s))) (pprev idx) pindex
       | S _, None => Err NullDeref
       | O, _ => Err OutOfFuel
       end.

(** The test of the loops over [mapBlockIndex]: [IsValid(BLOCK_VALID_TRANSACTIONS)
    && nChainTx], which never fails its assertion. *)
Definition connectable (i : CBlockIndex) : bool :=
  negb (failed i) && (BLOCK_VALID_TRANSACTIONS <=? Z.land (nStatus i) BLOCK_VALID_MASK) && negb (nChainTx i =? 0).

(** The loop of [InvalidateBlock] over [mapBlockIndex]. *)
Definition readd_candidates s (tip : ptr) : ChainState View :=
  set_candidates (setBlockIndexCandidates s ∪
    dom (filter (fun x : ptr * CBlockIndex => connectable x.2 && negb (value_comp addr (index s) x.1 tip) = true) (index s))) s.

Definition InvalidateBlock s (pindex : ptr) : result (bool * ChainState View) :=
  let invalid_walk_tip := Tip (chainActive s) in
  s ← drop_best_header s (Some pindex);
  pindex_was_in_chain ← Contains (index s) (chainActive s) pindex;
  '(ok, s) ← invalidate_disconnect (length (chainActive s)) s pindex;
  if negb ok then Ok (false, s)
  else
    s ← (if pindex_was_in_chain : bool
         then walk ← deref invalid_walk_tip; wi ← deref (index s !! walk);
              invalidate_mark (S (Z.to_nat (nHeight wi))) s (Some walk) pindex
         else Ok s);
    let s := erase_candidate pindex (set_dirty pindex (upd_index (or_status BLOCK_FAILED_VALID) pindex s)) in
    let s := set_failed_blocks (pindex :: g_failed_blocks (hdrs s)) s in
    tip ← deref (Tip (chainActive s));
    s ← InvalidChainFound (readd_candidates s tip) pindex;
    Ok (true, s).

(** The loop of [ResetBlockFailureFlags] over [mapBlockIndex]: what it does to
    one block. *)
Definition reset_one (h : Z) (pindex : ptr) (tip : option ptr) (rs : result (ChainState View)) (p : ptr) : result (ChainState View) :=
  s ← rs;
  idx ← deref (index s !! p);
  valid ← IsValid (nStatus idx) BLOCK_VALID_TRANSACTIONS;
  if valid : bool then Ok s
  else
    a ← GetAncestor (index s) p h;
    if bool_decide (a = Some pindex) then
      let s := set_dirty p (upd_index clear_failed p s) in
      s ← (if connectable (clear_failed idx)
           then t ← deref tip; Ok (if value_comp addr (index s) t p then insert_candidate p s else s)
           else Ok s);
      let s := if bool_decide (pindexBestInvalid s = Some p) then set_best_invalid None s else s in
      Ok (set_failed_blocks (filter (fun q => q <> p) (g_failed_blocks (hdrs s))) s)
    else Ok s.

(** [while (pindex != nullptr)]: clear the flags of the ancestors. *)
Fixpoint reset_ancestors (fuel : nat) s (pindex : option ptr) : result (ChainState View) :=
  match pindex with
  | None => Ok s
  | Some p =>
      match fuel with
      | O => Err OutOfFuel
      | S fuel =>
          idx ← deref (index s !! p);
          let s := if failed idx then set_dirty p (upd_index clear_failed p s) else s in
          reset_ancestors fuel s (pprev idx)
      end
  end.

Definition ResetBlockFailureFlags s (pindex : ptr) : result (ChainState View) :=
  idx ← deref (index s !! pindex);
  s ← foldl (reset_one (nHeight idx) pindex (Tip (chainActive s))) (Ok s) (elements (dom (index s)));
  reset_ancestors (S (Z.to_nat (nHeight idx))) s (Some pindex).

(** ** Receiving a block *)

(** [mapBlocksUnlinked.equal_range(pindex)]: the blocks that wait for [pindex]. *)
Definition waiting (u : list (ptr * ptr)) (pindex : ptr) : list ptr := snd <$> filter (fun x => x.1 = pindex) u.

(** One block of the queue is linked: it gets its [nChainTx] and a sequence number,
    and enters the candidates unless the tip is better. *)
Definition link_block s (pindex : ptr) (idx : CBlockIndex) (prevTx : Z) : ChainState View :=
  let s := upd_index (fun i => set_nSequenceId (nBlockSequenceId s) (set_nChainTx (u32 (prevTx + nTx idx)) i)) pindex s in
  let s := set_sequence (i32 (nBlockSequenceId s + 1)) s in
  match Tip (chainActive s) with
  | None => insert_candidate pindex s
  | Some tip => if value_comp addr (index s) pindex tip then s else insert_candidate pindex s
  end.

(** [while (!queue.empty())]; every round takes a block from the queue and moves
    the blocks that wait for it from [mapBlocksUnlinked] to the queue. *)
Fixpoint receive_loop (fuel : nat) s (queue : list ptr) : result (ChainState View) :=
  match queue with
  | [] => Ok s
  | pindex :: queue =>
      match fuel with
      | O => Err OutOfFuel
      | S fuel =>
          idx ← deref (index s !! pindex);
          prevTx ← match pprev idx with None => Ok 0 | Some q => qi ← deref (index s !! q); Ok (nChainTx qi) end;
          let s := link_block s pindex idx prevTx in
          let queue := queue ++ waiting (mapBlocksUnlinked s) pindex in
          receive_loop fuel (set_unlinked (filter (fun x => x.1 <> pindex) (mapBlocksUnlinked s)) s) queue
      end
  end.

(** The assignments to [*pindexNew] at the start. *)
Definition received (nTx0 nFile0 nDataPos0 : Z) (i : CBlockIndex) : result CBlockIndex :=
  '(st, _) ← RaiseValidity (Z.lor (nStatus i) BLOCK_HAVE_DATA) BLOCK_VALID_TRANSACTIONS;
  Ok (mkIndex (pprev i) (pskip i) (nHeight i) nFile0 nDataPos0 0 (nChainWork i) nTx0 0
        st (nVersion i) (hashMerkleRoot i) (nTime i) (nBits i) (nNonce i) (nSequenceId i) (nTimeMax i)).

Definition ReceivedBlockTransactions s (nTx0 : Z) (pindexNew : ptr) (nFile0 nPos0 : Z) : result (ChainState View) :=
  idx ← deref (index s !! pindexNew);
  idx ← received nTx0 nFile0 nPos0 idx;
  let s := set_dirty pindexNew (upd_index (fun _ => idx) pindexNew s) in
  match pprev idx with
  | None => receive_loop (S (length (mapBlocksUnlinked s))) s [pindexNew]
  | Some q =>
      qi ← deref (index s !! q);
      if negb (nChainTx qi =? 0) then receive_loop (S (length (mapBlocksUnlinked s))) s [pindexNew]
      else
        valid ← IsValid (nStatus qi) BLOCK_VALID_TREE;
        Ok (if valid : bool then set_unlinked (mapBlocksUnlinked s ++ [(q, pindexNew)]) s else s)
  end.
End Operations.

(** ** Lemmas: the order of the candidates *)

Section Order.
Context (addr : ptr -> Z) `{!Inj eq eq addr}.

(** The comparator orders by work, then by earlier sequence number, then by
    lower address. *)
Definition key (p : ptr) (i : CBlockIndex) : Z * Z * Z := (val (nChainWork i), - nSequenceId i, - addr p).
Definition key_lt (a b : Z * Z * Z) : Prop :=
  let '(a1, a2, a3) := a in let '(b1, b2, b3) := b in
  a1 < b1 \/ (a1 = b1 /\ (a2 < b2 \/ (a2 = b2 /\ a3 < b3))).

Lemma work_gt_spec a b : wf W256 a -> wf W256 b -> work_gt a b = true <-> val b < val a.
Proof.
  intros Ha Hb. unfold work_gt. rewrite (CompareTo_spec W256) by done. rewrite Z.ltb_lt.
  destruct (Z.compare_spec (val a) (val b)); lia.
Qed.

Lemma value_comp_key m p q pi qi : work_ok m -> m !! p = Some pi -> m !! q = Some qi ->
  value_comp addr m p q = true <-> key_lt (key p pi) (key q qi).
Proof.
  intros Hw Hp Hq. unfold value_comp, WorkComparator. rewrite Hp, Hq. cbn [key key_lt].
  pose proof (work_gt_spec _ _ (Hw p pi Hp) (Hw q qi Hq)) as H1.
  pose proof (work_gt_spec _ _ (Hw q qi Hq) (Hw p pi Hp)) as H2.
  destruct (work_gt (nChainWork pi) (nChainWork qi)); [split; [done|]; pose proof (proj1 H1 eq_refl); lia|].
  destruct (work_gt (nChainWork qi) (nChainWork pi)); [split; [|done]; pose proof (proj1 H2 eq_refl); lia|].
  assert (val (nChainWork pi) = val (nChainWork qi)) as E.
  { destruct (Z.lt_trichotomy (val (nChainWork pi)) (val (nChainWork qi))) as [H|[H|H]]; [apply H2 in H| |apply H1 in H]; done. }
  repeat (case_test; try (split; [done||lia|lia||done])); lia.
Qed.

Lemma value_comp_dom m p q : value_comp addr m p q = true -> is_Some (m !! p) /\ is_Some (m !! q).
Proof. unfold value_comp. destruct (m !! p), (m !! q); try done. Qed.

Lemma value_comp_irrefl m p : work_ok m -> value_comp addr m p p = false.
Proof.
  intros Hw. destruct (value_comp addr m p p) eqn:E; [|done]. destruct (value_comp_dom m p p E) as [[i Hi] _].
  apply (value_comp_key m p p i i Hw Hi Hi) in E. cbn in E. lia.
Qed.

Lemma value_comp_trans m p q r : work_ok m -> value_comp addr m p q = true -> value_comp addr m q r = true ->
  value_comp addr m p r = true.
Proof.
  intros Hw H1 H2. destruct (value_comp_dom m p q H1) as [[pi Hp] [qi Hq]]. destruct (value_comp_dom m q r H2) as [_ [ri Hr]].
  apply (value_comp_key m p q pi qi) in H1; try done. apply (value_comp_key m q r qi ri) in H2; try done.
  apply (value_comp_key m p r pi ri); try done. cbn in *. lia.
Qed.

Lemma value_comp_total m p q : work_ok m -> is_Some (m !! p) -> is_Some (m !! q) -> p <> q ->
  value_comp addr m p q = true \/ value_comp addr m q p = true.
Proof.
  intros Hw [pi Hp] [qi Hq] Hne. rewrite (value_comp_key m p q pi qi), (value_comp_key m q p qi pi) by done. cbn.
  assert (addr p <> addr q) by (intros E; by apply Hne, (inj addr)). lia.
Qed.

(** Not better than the tip means worse or the tip itself. *)
Lemma value_comp_asym m p q : work_ok m -> value_comp addr m p q = true -> value_comp addr m q p = false.
Proof.
  intros Hw H. destruct (value_comp addr m q p) eqn:E; [|done].
  pose proof (value_comp_irrefl m p Hw). by rewrite (value_comp_trans m p q p Hw H E) in *.
Qed.

Definition upper (m : BlockMap) (c : gset ptr) (p : ptr) : Prop :=
  p ∈ c /\ forall q, q ∈ c -> q = p \/ value_comp addr m q p = true.

Lemma rbegin_spec m c : work_ok m -> (forall p, p ∈ c -> is_Some (m !! p)) ->
  match rbegin addr m c with None => c = ∅ | Some p => upper m c p end.
Proof.
  intros Hw Hc. unfold rbegin.
  assert (forall l, (forall p, p ∈ l -> is_Some (m !! p)) ->
    match foldr (fun p best => match best with None => Some p
                               | Some q => Some (if value_comp addr m q p then p else q) end) None l with
    | None => l = [] | Some p => p ∈ l /\ forall q, q ∈ l -> q = p \/ value_comp addr m q p = true end) as Hl.
  { induction l as [|x l IH]; intros Hin; [done|]. cbn [foldr].
    assert (forall p, p ∈ l -> is_Some (m !! p)) as Hin' by (intros; apply Hin; by right). specialize (IH Hin').
    destruct (foldr _ None l) as [b|].
    - destruct IH as [Hb Hmax]. destruct (value_comp addr m b x) eqn:E.
      + split; [by left|]. intros q [->|Hq]%elem_of_cons; [by left|]. right.
        destruct (Hmax q Hq) as [->|Hqb]; [done|]. by apply (value_comp_trans m q b x).
      + split; [by right|]. intros q [->|Hq]%elem_of_cons; [|by apply Hmax].
        destruct (decide (x = b)) as [->|Hne]; [by left|]. right.
        destruct (value_comp_total m x b Hw) as [?|?]; [apply Hin; by left|by apply Hin'|done|done|congruence].
    - subst l. split; [by left|]. intros q [->|Hq]%elem_of_cons; [by left|by apply elem_of_nil in Hq]. }
  specialize (Hl (elements c)). destruct (foldr _ None _) as [p|].
  - destruct Hl as [Hp Hm]; [intros p' ?; apply Hc; by apply elem_of_elements|].
    split; [by apply elem_of_elements|]. intros q Hq. apply Hm. by apply elem_of_elements.
  - apply leibniz_equiv, elements_empty_iff. apply Hl. intros p' ?. apply Hc. by apply elem_of_elements.
Qed.
End Order.
