(* ===== verification/BestChain.v ===== *)
(** * The best candidate is found
    (the theorems on [FindMostWorkChain] of [ChainState])

    [FindMostWorkChain] terminates and returns the best candidate whose blocks are
    usable; the candidates it removes and the blocks it flags are not. *)

From Stdlib Require Import ZArith Lia.
From stdpp Require Import base tactics numbers option list gmap.
From S2P Require Import Prelude ArithUint256 Compact Block Chain Pow Headers ChainState.

(** ** Heaps that differ only in flags and undo positions *)

Definition core (i : CBlockIndex) : (option ptr * option ptr * Z) * (base_uint * Z * Z * Z) :=
  (links i, (nChainWork i, nTx i, nChainTx i, nSequenceId i)).
Definition same_core (m m' : BlockMap) : Prop := forall p, core <$> m !! p = core <$> m' !! p.

#[global] Instance same_core_equiv : Equivalence same_core.
Proof. split; [by intros m p|by intros m m' H p|intros a b c H1 H2 p; by rewrite H1]. Qed.

Lemma same_core_lookup m m' p i : same_core m m' -> m !! p = Some i -> exists i', m' !! p = Some i' /\ core i' = core i.
Proof.
  intros H Hp. specialize (H p). rewrite Hp in H. destruct (m' !! p) as [i'|]; [|done]. exists i'. split; [done|].
  cbn in H. congruence.
Qed.

Lemma core_fields i i' : core i' = core i ->
  pprev i' = pprev i /\ pskip i' = pskip i /\ nHeight i' = nHeight i /\ nChainWork i' = nChainWork i /\
  nTx i' = nTx i /\ nChainTx i' = nChainTx i /\ nSequenceId i' = nSequenceId i.
Proof. unfold core, links. intros [= -> -> -> -> -> -> ->]. done. Qed.

Lemma same_core_links m m' : same_core m m' -> same_links m m'.
Proof.
  intros H p. specialize (H p). unfold core in H. destruct (m !! p), (m' !! p); cbn in *; try done. congruence.
Qed.

Lemma same_core_alter m p f : (forall i, m !! p = Some i -> core (f i) = core i) -> same_core m (alter f p m).
Proof.
  intros Hf q. destruct (decide (q = p)) as [->|Hne]; [|by rewrite lookup_alter_ne].
  rewrite lookup_alter_eq. destruct (m !! p) as [i|]; [|done]. cbn. by rewrite Hf.
Qed.

Lemma work_ok_core m m' : same_core m m' -> work_ok m -> work_ok m'.
Proof.
  intros H Hw p i' Hp. symmetry in H. destruct (same_core_lookup m' m p i' H Hp) as (i & Hi & E).
  apply core_fields in E as (_ & _ & _ & <- & _). by apply (Hw p).
Qed.

Lemma value_comp_core addr m m' p q : same_core m m' -> value_comp addr m p q = value_comp addr m' p q.
Proof.
  intros H. unfold value_comp, WorkComparator. pose proof (H p) as Hp. pose proof (H q) as Hq.
  destruct (m !! p) as [pi|], (m' !! p) as [pi'|]; try done. destruct (m !! q) as [qi|], (m' !! q) as [qi'|]; try done.
  apply (inj Some), core_fields in Hp as (_ & _ & _ & -> & _ & _ & ->).
  by apply (inj Some), core_fields in Hq as (_ & _ & _ & -> & _ & _ & ->).
Qed.

Lemma chain_of_links m m' t : same_links m m' -> chain_of m t = chain_of m' t.
Proof.
  intros H. unfold chain_of. pose proof (H t) as Ht. destruct (m !! t) as [i|], (m' !! t) as [i'|]; try done.
  apply (inj Some) in Ht. unfold links in Ht. injection Ht as _ _ ->. apply list_fmap_ext. intros k h _.
  by apply nth_ancestor_proper.
Qed.

Lemma Contains_links m m' v p : same_links m m' -> Contains m v p = Contains m' v p.
Proof.
  intros H. unfold Contains. pose proof (H p) as Hp. destruct (m !! p) as [i|], (m' !! p) as [i'|]; try done.
  apply (inj Some) in Hp. unfold links in Hp. injection Hp as _ _ E. cbn. by rewrite E.
Qed.

(** ** Flags *)

Lemma failed_bits i : failed i = Z.testbit (nStatus i) 5 || Z.testbit (nStatus i) 6.
Proof.
  unfold failed, BLOCK_FAILED_MASK. rewrite Z.land_lor_distr_r.
  pose proof (land_bit_zero (nStatus i) 5 ltac:(lia)) as H5. pose proof (land_bit_zero (nStatus i) 6 ltac:(lia)) as H6.
  change (Z.shiftl 1 5) with BLOCK_FAILED_VALID in H5. change (Z.shiftl 1 6) with BLOCK_FAILED_CHILD in H6.
  case_test; destruct (Z.testbit (nStatus i) 5), (Z.testbit (nStatus i) 6); try done; rewrite Z.lor_eq_0_iff in *;
    cbn in H5, H6; rewrite ?Z.eqb_eq, ?Z.eqb_neq in *; tauto.
Qed.

Lemma have_data_bit i : have_data i = Z.testbit (nStatus i) 3.
Proof.
  unfold have_data. pose proof (land_bit_zero (nStatus i) 3 ltac:(lia)) as H.
  change (Z.shiftl 1 3) with BLOCK_HAVE_DATA in H. rewrite H. apply negb_involutive.
Qed.

Lemma or_status_bit flag i n : Z.testbit (nStatus (or_status flag i)) n = Z.testbit (nStatus i) n || Z.testbit flag n.
Proof. apply Z.lor_spec. Qed.

Lemma or_status_data flag i : Z.testbit flag 3 = false -> have_data (or_status flag i) = have_data i.
Proof. intros H. by rewrite !have_data_bit, or_status_bit, H, orb_false_r. Qed.

Lemma failed_or_status flag i : flag = BLOCK_FAILED_VALID \/ flag = BLOCK_FAILED_CHILD -> failed (or_status flag i) = true.
Proof. intros H. rewrite failed_bits, !or_status_bit. destruct H as [-> | ->]; by rewrite ?orb_true_r. Qed.

(** ** The active chain *)

Definition active_ok (m : BlockMap) (v : CChain) : Prop := v = [] \/ exists t, v = chain_of m t /\ is_Some (m !! t).

Definition on_chain (m : BlockMap) (v : CChain) (p : ptr) : Prop :=
  exists i, m !! p = Some i /\ chain_at v (nHeight i) = Some p.

Lemma Contains_on_chain m v p i : m !! p = Some i ->
  exists b, Contains m v p = Ok b /\ (b = true <-> on_chain m v p).
Proof.
  intros Hp. unfold Contains, on_chain. rewrite Hp. cbn. eexists. split; [done|]. rewrite bool_decide_eq_true.
  split; [by exists i|]. intros (i' & [= <-] & H). done.
Qed.

Lemma on_chain_empty m p : ~ on_chain m [] p.
Proof. intros (i & _ & H). unfold chain_at in H. case_match eqn:E; [done|]. bool_hyps. cbn in *. lia. Qed.

Lemma on_chain_of m t p : index_ok m -> is_Some (m !! t) -> on_chain m (chain_of m t) p <-> is_ancestor m p t.
Proof.
  intros Hm [ti Ht]. split.
  - intros (i & Hp & H). destruct (Contains_spec m t ti p i Hm Ht Hp) as (b & E & Hb).
    unfold Contains in E. rewrite Hp in E. cbn in E. injection E as <-. apply Hb. by apply bool_decide_eq_true.
  - intros Hanc. destruct Hanc as [k Hk]. destruct (nth_ancestor_height m t ti k p Hm Ht Hk) as (i & Hp & Hh).
    destruct (Contains_spec m t ti p i Hm Ht Hp) as (b & E & Hb). exists i. split; [done|].
    unfold Contains in E. rewrite Hp in E. cbn in E. injection E as <-. eapply bool_decide_eq_true, Hb. by exists k.
Qed.

Lemma is_ancestor_trans m a b c k : is_ancestor m b c -> nth_ancestor m b k = Some a -> is_ancestor m a c.
Proof. intros [j Hj] Hk. exists (j + k)%nat. by rewrite nth_ancestor_add, Hj. Qed.

Lemma on_chain_closed m v p k a : index_ok m -> active_ok m v -> on_chain m v p -> nth_ancestor m p k = Some a -> on_chain m v a.
Proof.
  intros Hm [->|(t & -> & Ht)] Hp Hk; [by apply on_chain_empty in Hp|].
  apply on_chain_of in Hp; [|done..]. apply on_chain_of; [done..|]. by eapply is_ancestor_trans.
Qed.

Lemma active_ok_links m m' v : same_links m m' -> active_ok m v -> active_ok m' v.
Proof.
  intros H [->|(t & -> & [i Hi])]; [by left|right]. exists t. rewrite (chain_of_links m m' t H). split; [done|].
  destruct (same_links_lookup m m' t i H Hi) as (i' & -> & _). by eexists.
Qed.

Lemma on_chain_links m m' v p : same_links m m' -> on_chain m v p -> on_chain m' v p.
Proof.
  intros H (i & Hi & E). destruct (same_links_lookup m m' p i H Hi) as (i' & Hi' & _ & _ & Eh).
  exists i'. by rewrite Eh.
Qed.

(** ** Usable blocks *)

(** Every ancestor off the active chain has its data and is not failed. *)
Definition usable (m : BlockMap) (v : CChain) (p : ptr) : Prop :=
  forall k a ai, nth_ancestor m p k = Some a -> m !! a = Some ai ->
    on_chain m v a \/ (failed ai = false /\ have_data ai = true).

Lemma usable_ancestor m v p k a : usable m v p -> nth_ancestor m p k = Some a -> usable m v a.
Proof. intros Hu Hk j b bi Hj. apply (Hu (k + j)%nat). by rewrite nth_ancestor_add, Hk. Qed.

Section Prune.
Context {View : Type}.
Implicit Types s : ChainState View.

Definition s_usable s p := usable (index s) (chainActive s) p.

(** What [FindMostWorkChain] may change: candidates that are not usable go, and
    blocks that are not usable may be flagged as failed. *)
Record pruned s0 s : Prop := {
  pr_core : same_core (index s0) (index s);
  pr_flags : forall p i0 i, index s0 !! p = Some i0 -> index s !! p = Some i ->
    have_data i = have_data i0 /\ (failed i0 = true -> failed i = true) /\
    (failed i = true -> failed i0 = true \/ ~ s_usable s0 p);
  pr_chain : chainActive s = chainActive s0;
  pr_coins : pcoinsTip s = pcoinsTip s0;
  pr_shutdown : fRequestShutdown s = fRequestShutdown s0;
  pr_sub : setBlockIndexCandidates s ⊆ setBlockIndexCandidates s0;
  pr_gone : forall q, q ∈ setBlockIndexCandidates s0 -> q ∉ setBlockIndexCandidates s -> ~ s_usable s0 q
}.

Lemma pruned_refl s : pruned s s.
Proof. split; try done. intros p i0 i H1 H2. simplify_eq. auto. Qed.

Lemma pruned_usable s0 s q : pruned s0 s -> s_usable s q <-> s_usable s0 q.
Proof.
  intros [Hc Hf Ha _ _ _ _]. pose proof (same_core_links _ _ Hc) as Hl. unfold s_usable. rewrite Ha. split; intros Hu k a ai Hk Hai.
  - destruct (same_core_lookup _ _ a ai Hc Hai) as (ai' & Hai' & _).
    rewrite (nth_ancestor_proper _ _ Hl q q eq_refl k k eq_refl) in Hk.
    destruct (Hu k a ai' Hk Hai') as [Ho|[H1 H2]].
    + left. symmetry in Hl. by apply (on_chain_links _ _ _ _ Hl).
    + right. destruct (Hf a ai ai' Hai Hai') as (E & Hm & _). rewrite <- E. split; [|done].
      destruct (failed ai); [|done]. by rewrite Hm in H1.
  - symmetry in Hc. destruct (same_core_lookup _ _ a ai Hc Hai) as (ai0 & Hai0 & _).
    rewrite <- (nth_ancestor_proper _ _ Hl q q eq_refl k k eq_refl) in Hk.
    destruct (Hu k a ai0 Hk Hai0) as [Ho|[H1 H2]]; [left; by apply (on_chain_links _ _ _ _ Hl)|right].
    destruct (Hf a ai0 ai Hai0 Hai) as (E & _ & Hm). rewrite E. split; [|done].
    destruct (failed ai); [|done]. destruct (Hm eq_refl) as [?|Hn]; [congruence|].
    exfalso. apply Hn. by apply (usable_ancestor _ _ q k).
Qed.

Lemma pruned_trans s0 s1 s2 : pruned s0 s1 -> pruned s1 s2 -> pruned s0 s2.
Proof.
  intros H1 H2. pose proof (fun q => pruned_usable s0 s1 q H1) as Hu.
  destruct H1 as [A1 B1 C1 D1 E1 F1 G1], H2 as [A2 B2 C2 D2 E2 F2 G2]. split; try congruence.
  - intros p i0 i Hi0 Hi. destruct (same_core_lookup _ _ p i0 A1 Hi0) as (i1 & Hi1 & _).
    destruct (B1 p i0 i1 Hi0 Hi1) as (X1 & X2 & X3), (B2 p i1 i Hi1 Hi) as (Y1 & Y2 & Y3). rewrite <- Hu in *.
    split_and!; [congruence|tauto|tauto].
  - clear -F1 F2. set_solver.
  - intros q H0 Hn. destruct (decide (q ∈ setBlockIndexCandidates s1)) as [Hq|Hq]; [|by apply G1].
    rewrite <- Hu. by apply G2.
Qed.

Lemma pruned_erase s0 s p : pruned s0 s -> ~ s_usable s0 p -> pruned s0 (erase_candidate p s).
Proof.
  intros [A B C D E F G] Hp. split; cbn; try done; [clear -F; set_solver|].
  intros q H0 Hn. destruct (decide (q = p)) as [->|]; [done|]. apply G; [done|]. clear -Hn n. set_solver.
Qed.

Lemma pruned_mark s0 s p : pruned s0 s -> ~ s_usable s0 p -> pruned s0 (upd_index (or_status BLOCK_FAILED_CHILD) p s).
Proof.
  intros [A B C D E F G] Hp. split; cbn; try done.
  - etransitivity; [done|]. apply same_core_alter. done.
  - intros q i0 i H0. rewrite lookup_alter_Some. intros [(-> & i1 & H1 & ->)|[_ H1]]; [|by apply (B q)].
    destruct (B q i0 i1 H0 H1) as (X1 & X2 & X3). rewrite or_status_data, failed_or_status by (done || auto). auto.
Qed.

Lemma pruned_unlinked s0 s u : pruned s0 s -> pruned s0 (set_unlinked u s).
Proof. by intros [A B C D E F G]. Qed.

Lemma pruned_invalid s0 s b : pruned s0 s -> pruned s0 (set_best_invalid b s).
Proof. by intros [A B C D E F G]. Qed.

(** ** [FindMostWorkChain] *)

Context (addr : ptr -> Z) `{!Inj eq eq addr}.

(** A block whose transactions are linked to the genesis block has a parent with
    the same property. *)
Definition linked_ok (m : BlockMap) : Prop := forall p i q qi,
  m !! p = Some i -> nChainTx i <> 0 -> pprev i = Some q -> m !! q = Some qi -> nChainTx qi <> 0.

Record index_inv s : Prop := {
  ii_index : index_ok (index s);
  ii_work : work_ok (index s);
  ii_linked : linked_ok (index s);
  ii_active : active_ok (index s) (chainActive s);
  ii_cands : forall c, c ∈ setBlockIndexCandidates s -> exists i, index s !! c = Some i /\ nChainTx i <> 0;
  ii_invalid : forall b, pindexBestInvalid s = Some b -> is_Some (index s !! b)
}.

Lemma linked_ancestor m p i k a ai : linked_ok m -> index_ok m -> m !! p = Some i -> nChainTx i <> 0 ->
  nth_ancestor m p k = Some a -> m !! a = Some ai -> nChainTx ai <> 0.
Proof.
  intros Hl Hm. revert p i. induction k as [|k IH]; intros p i Hp Hi Hk Ha; cbn [nth_ancestor] in Hk; [by simplify_eq|].
  rewrite Hp in Hk. cbn in Hk. destruct (pprev i) as [q|] eqn:Eq; [|done].
  destruct (Hm p i Hp) as (_ & Hlk & _). unfold link_ok in Hlk. rewrite Eq in Hlk. destruct Hlk as (qi & Hq & _).
  apply (IH q qi); [done|by apply (Hl p i q qi)|done..].
Qed.

Lemma linked_ok_core m m' : same_core m m' -> linked_ok m -> linked_ok m'.
Proof.
  intros H Hl p i q qi Hp Hi Hq Hqi. symmetry in H.
  destruct (same_core_lookup _ _ p i H Hp) as (i0 & Hp0 & E0%core_fields).
  destruct (same_core_lookup _ _ q qi H Hqi) as (qi0 & Hq0 & E1%core_fields).
  destruct E0 as (E0 & _ & _ & _ & _ & E0' & _), E1 as (_ & _ & _ & _ & _ & E1' & _).
  rewrite <- E1'. apply (Hl p i0 q qi0); congruence.
Qed.

Lemma note_invalid_spec s p : is_Some (index s !! p) -> (forall b, pindexBestInvalid s = Some b -> is_Some (index s !! b)) ->
  exists b, note_invalid s p = Ok (set_best_invalid b s) /\ forall x, b = Some x -> is_Some (index s !! x).
Proof.
  intros Hp Hb. unfold note_invalid. destruct (pindexBestInvalid s) as [b|] eqn:E.
  - destruct Hp as [pi Hp]. destruct (Hb b eq_refl) as [bi Hbi]. rewrite Hp, Hbi. cbn.
    case_match; [by exists (Some p); split; [|intros x [= <-]; eexists]|].
    exists (Some b). split; [by destruct s; cbn in *; subst|]. intros x [= <-]. by eexists.
  - exists (Some p). split; [done|]. by intros x [= <-].
Qed.

Lemma pruned_inv s0 s : index_inv s0 -> pruned s0 s -> (forall b, pindexBestInvalid s = Some b -> is_Some (index s !! b)) -> index_inv s.
Proof.
  intros [A B C D E F] [Hc Hf Ha _ _ Hs _] Hb. pose proof (same_core_links _ _ Hc) as Hl. split.
  - by apply (index_ok_same_links (index s0)).
  - by apply (work_ok_core (index s0)).
  - by apply (linked_ok_core (index s0)).
  - rewrite Ha. by apply (active_ok_links (index s0)).
  - intros c Hin. destruct (E c) as (i & Hi & Hn); [by apply Hs|].
    destruct (same_core_lookup _ _ c i Hc Hi) as (i' & Hi' & Ef%core_fields). exists i'.
    destruct Ef as (_ & _ & _ & _ & _ & -> & _). done.
  - done.
Qed.

Lemma remove_loop_spec s0 ff t k : index_ok (index s0) -> ~ s_usable s0 t ->
  forall fuel s f, pruned s0 s -> is_Some (index s0 !! f) -> nth_ancestor (index s0) f k = Some t -> (k <= fuel)%nat ->
  exists s', remove_loop fuel s ff t f = Ok s' /\ pruned s0 s' /\ pindexBestInvalid s' = pindexBestInvalid s /\
    (k <> O -> f ∉ setBlockIndexCandidates s') /\ setBlockIndexCandidates s' ⊆ setBlockIndexCandidates s.
Proof.
  intros Hm Ht. induction k as [|k IH]; intros fuel s f Hs [fi Hf] Hk Hfuel.
  { cbn in Hk. injection Hk as ->. exists s. destruct fuel; cbn; by rewrite bool_decide_eq_true_2. }
  destruct fuel as [|fuel]; [lia|]. cbn [remove_loop].
  destruct (nth_ancestor_height _ _ _ _ _ Hm Hf Hk) as (ti & Hti & Hh).
  rewrite bool_decide_eq_false_2 by (intros ->; simplify_eq; lia).
  destruct (same_core_lookup _ _ f fi (pr_core _ _ Hs) Hf) as (fi' & Hf' & Ef%core_fields). destruct Ef as (Ep & _).
  rewrite Hf'. cbn [deref mbind result_bind]. rewrite Ep. pose proof Hk as Hk'. cbn [nth_ancestor] in Hk'. rewrite Hf in Hk'. cbn in Hk'.
  destruct (Hm f fi Hf) as (_ & Hlk & _). unfold link_ok in Hlk. destruct (pprev fi) as [q|]; [|done].
  destruct Hlk as (qi & Hq & _). cbn [deref mbind result_bind] in *.
  assert (~ s_usable s0 f) as Hfu by (intros Hu; by apply Ht, (usable_ancestor _ _ f (S k))).
  set (s1 := erase_candidate f _). assert (pruned s0 s1) as Hs1.
  { apply pruned_erase; [|done]. destruct ff; [by apply pruned_mark|by apply pruned_unlinked]. }
  destruct (IH fuel s1 q Hs1) as (s' & E & Hs' & Hb & _ & Hsub); [by eexists|done|lia|].
  exists s'. rewrite E, Hb. split_and!; [done|done|by unfold s1; destruct ff| |].
  - intros _ Hin. apply Hsub in Hin. unfold s1 in Hin. destruct ff; cbn in Hin; clear -Hin; set_solver.
  - etransitivity; [done|]. unfold s1. destruct ff; cbn; clear; set_solver.
Qed.

Lemma deeper_on_chain s p j k a b : index_ok (index s) -> active_ok (index s) (chainActive s) ->
  nth_ancestor (index s) p j = Some a -> on_chain (index s) (chainActive s) a -> (j <= k)%nat ->
  nth_ancestor (index s) p k = Some b -> on_chain (index s) (chainActive s) b.
Proof.
  intros Hm Ha Hj Hon Hjk Hk. replace k with (j + (k - j))%nat in Hk by lia. rewrite nth_ancestor_add, Hj in Hk.
  by apply (on_chain_closed _ _ a (k - j)).
Qed.

(** An unusable block on the way: the chain above it is removed. *)
Lemma drop_chain_spec s new ni t ti j : index_inv s -> index s !! new = Some ni ->
  nth_ancestor (index s) new j = Some t -> index s !! t = Some ti -> ~ s_usable s t ->
  exists s', (s1 ← (if failed ti then note_invalid s new else Ok s);
              n ← deref (index s1 !! new);
              s2 ← remove_loop (S (Z.to_nat (nHeight n))) s1 (failed ti) t new;
              Ok (true, erase_candidate t s2)) = Ok (true, s') /\
    pruned s s' /\ index_inv s' /\ new ∉ setBlockIndexCandidates s' /\ ~ s_usable s new.
Proof.
  intros Hinv Hn Ej Ht Htu. pose proof Hinv as [Hm Hw Hlk Ha Hc Hb].
  destruct (nth_ancestor_height _ _ _ _ _ Hm Hn Ej) as (ti' & Ht' & Hh). simplify_eq.
  assert (exists s1 b', (if failed ti then note_invalid s new else Ok s) = Ok s1 /\ s1 = set_best_invalid b' s /\
            forall x, b' = Some x -> is_Some (index s !! x)) as (s1 & b' & E1 & -> & Hb').
  { destruct (failed ti); [destruct (note_invalid_spec s new) as (b' & E & ?); eauto|].
    exists s, (pindexBestInvalid s). split_and!; [done|by destruct s|done]. }
  rewrite E1. cbn [mbind result_bind]. change (index (set_best_invalid b' s)) with (index s). rewrite Hn.
  cbn [deref mbind result_bind].
  destruct (remove_loop_spec s (failed ti) t j Hm Htu (S (Z.to_nat (nHeight ni))) (set_best_invalid b' s) new)
    as (s2 & E2 & P2 & B2 & N2 & _); [apply pruned_invalid, pruned_refl|by eexists|done| |].
  { destruct (Hm t ti Ht) as (H0 & _). lia. }
  rewrite E2. exists (erase_candidate t s2). cbn [mbind result_bind].
  assert (pruned s (erase_candidate t s2)) as P3 by (by apply pruned_erase). split_and!; [done|done| | |].
  - apply (pruned_inv s); [done..|]. cbn [pindexBestInvalid erase_candidate set_candidates]. rewrite B2. cbn.
    intros x Hx. destruct (Hb' x Hx) as [xi Hxi]. destruct (same_core_lookup _ _ x xi (pr_core _ _ P2) Hxi) as (? & ? & _). by eexists.
  - destruct (decide (new = t)) as [<-|]; [cbn; clear; set_solver|]. assert (j <> O) as Hj by (intros ->; by injection Ej as ->).
    specialize (N2 Hj). cbn. clear -N2. set_solver.
  - intros Hu. by apply Htu, (usable_ancestor _ _ new j).
Qed.

(** The blocks below [pindexNew] that the walk has already passed are in order. *)
Lemma test_loop_spec s new ni fuel j : index_inv s -> index s !! new = Some ni -> nChainTx ni <> 0 ->
  (forall i a ai, (i < j)%nat -> nth_ancestor (index s) new i = Some a -> index s !! a = Some ai ->
     failed ai = false /\ have_data ai = true) ->
  (Z.to_nat (nHeight ni) < fuel + j)%nat ->
  (exists s', test_loop fuel s new (nth_ancestor (index s) new j) = Ok (true, s') /\ pruned s s' /\ index_inv s' /\
     new ∉ setBlockIndexCandidates s' /\ ~ s_usable s new) \/
  (test_loop fuel s new (nth_ancestor (index s) new j) = Ok (false, s) /\ s_usable s new).
Proof.
  intros Hinv Hn Hl. pose proof Hinv as [Hm Hw Hlk Ha Hc Hb]. revert j. induction fuel as [|fuel IH]; intros j Hok Hfuel.
  { right. rewrite (nth_ancestor_root _ _ _ _ Hm Hn) by lia. split; [done|]. intros k a ai Hk Hai. right. apply (Hok k a ai); try done.
    destruct (nth_ancestor_height _ _ _ _ _ Hm Hn Hk) as (ai' & Hai' & Hh). destruct (Hm a ai' Hai') as (H0 & _). lia. }
  destruct (nth_ancestor (index s) new j) as [t|] eqn:Ej; cbn [test_loop].
  2: { right. split; [done|]. intros k a ai Hk Hai. right. apply (Hok k a ai); try done.
       destruct (Nat.lt_ge_cases k j) as [|Hge]; [done|]. replace k with (j + (k - j))%nat in Hk by lia.
       by rewrite nth_ancestor_add, Ej in Hk. }
  destruct (nth_ancestor_height _ _ _ _ _ Hm Hn Ej) as (ti & Ht & Hh).
  destruct (Contains_on_chain (index s) (chainActive s) t ti Ht) as (b & Eb & Hbt). rewrite Eb. cbn [mbind result_bind].
  destruct b.
  { right. split; [done|]. intros k a ai Hk Hai. destruct (Nat.lt_ge_cases k j) as [|Hge]; [right; by apply (Hok k a ai)|left].
    apply (deeper_on_chain s new j k t); try done. by apply Hbt. }
  rewrite Ht. cbn [deref mbind result_bind].
  assert (nChainTx ti <> 0) as Htl by (by apply (linked_ancestor (index s) new ni j t)).
  rewrite (proj2 (Z.eqb_neq _ _)) by done. cbn [negb orb cassert mbind result_bind].
  destruct (failed ti || negb (have_data ti)) eqn:Ebad.
  - left. assert (~ s_usable s t) as Htu.
    { intros Hu. destruct (Hu O t ti eq_refl Ht) as [Hon|[F D]]; [by apply Hbt in Hon|]. rewrite F, D in Ebad. done. }
    by apply (drop_chain_spec s new ni t ti j).
  - rewrite <- (nth_ancestor_S (index s) new j t ti Ej Ht). apply IH; [|lia].
    intros i a ai Hi Hk Hai. destruct (decide (i = j)) as [->|]; [|apply (Hok i a ai); try done; lia].
    simplify_eq. apply orb_false_elim in Ebad as [-> Hd]. by apply negb_false_iff in Hd.
Qed.

Lemma most_work_loop_spec fuel s : index_inv s -> (size (setBlockIndexCandidates s) <= fuel)%nat ->
  exists r s', most_work_loop addr fuel s = Ok (r, s') /\ pruned s s' /\ index_inv s' /\
    match r with
    | Some p => upper addr (index s) (setBlockIndexCandidates s') p /\ s_usable s p
    | None => setBlockIndexCandidates s' = ∅
    end.
Proof.
  revert s. induction fuel as [|fuel IH]; intros s Hinv Hsize; pose proof Hinv as [Hm Hw Hlk Ha Hc Hb];
    pose proof (rbegin_spec addr (index s) (setBlockIndexCandidates s) Hw) as Hr; cbn [most_work_loop];
    destruct (rbegin addr _ _) as [p|].
  2, 4: (exists None, s; split_and!; [done|apply pruned_refl|done|apply Hr; intros c (? & ? & _)%Hc; by eexists]).
  { exfalso. destruct Hr as [Hp _]; [intros c (? & ? & _)%Hc; by eexists|].
    assert (setBlockIndexCandidates s ≡ ∅) as E by (apply size_empty_inv; lia). rewrite E in Hp. by apply elem_of_empty in Hp. }
  assert (upper addr (index s) (setBlockIndexCandidates s) p) as Hup by (apply Hr; intros c (? & ? & _)%Hc; by eexists).
  destruct (Hc p) as (pi & Hp & Hl); [by apply Hup|]. rewrite Hp. cbn [deref mbind result_bind].
  destruct (test_loop_spec s p pi (S (Z.to_nat (nHeight pi))) O Hinv Hp Hl) as [(s1 & E & P1 & I1 & N1 & U1)|[E U]]; [lia|lia| |].
  - cbn [nth_ancestor] in E. rewrite E. cbn [mbind result_bind].
    destruct (IH s1 I1) as (r & s' & E' & P' & I' & R').
    { assert (setBlockIndexCandidates s1 ⊂ setBlockIndexCandidates s) as Hss%subset_size; [|lia].
      split; [apply P1|]. intros H. apply N1, H, Hup. }
    exists r, s'. split_and!; [done|by apply (pruned_trans s s1)|done|].
    destruct r as [q|]; [|done]. rewrite <- (pruned_usable s s1) by done. destruct R' as [[R1 R2] R3]. split; [|done].
    split; [done|]. intros x Hx. rewrite (value_comp_core addr _ _ x q (pr_core _ _ P1)). by apply R2.
  - cbn [nth_ancestor] in E. rewrite E. exists (Some p), s. split_and!; [done|apply pruned_refl|done..].
Qed.
End Prune.

(** ** Property *)

(** C5: [FindMostWorkChain] always returns.  It returns the best candidate, in
    the order of [CBlockIndexWorkComparator], among those all of whose blocks off
    the active chain have their data and are not failed, or no block when there is
    no such candidate.  It removes from the candidates only blocks that are not
    usable, makes no usable block unusable by the flags it sets, and leaves the
    active chain and the coins alone. *)
Theorem most_work_chain_found {View} (addr : ptr -> Z) `{!Inj eq eq addr} (s : ChainState View) : index_inv s ->
  exists r s', FindMostWorkChain addr s = Ok (r, s') /\
    chainActive s' = chainActive s /\ pcoinsTip s' = pcoinsTip s /\
    setBlockIndexCandidates s' ⊆ setBlockIndexCandidates s /\
    (forall q, s_usable s' q <-> s_usable s q) /\
    (forall q, q ∈ setBlockIndexCandidates s -> s_usable s q -> q ∈ setBlockIndexCandidates s') /\
    match r with
    | Some p => p ∈ setBlockIndexCandidates s /\ s_usable s p /\
        forall q, q ∈ setBlockIndexCandidates s -> s_usable s q -> q = p \/ value_comp addr (index s) q p = true
    | None => forall q, q ∈ setBlockIndexCandidates s -> ~ s_usable s q
    end.
Proof.
  intros Hinv. destruct (most_work_loop_spec addr (size (setBlockIndexCandidates s)) s Hinv ltac:(done)) as (r & s' & E & Hp & _ & Hr).
  assert (forall q, q ∈ setBlockIndexCandidates s -> s_usable s q -> q ∈ setBlockIndexCandidates s') as Hkeep.
  { intros q Hq Hu. destruct (decide (q ∈ setBlockIndexCandidates s')) as [|Hn]; [done|]. by destruct (pr_gone _ _ Hp q Hq Hn). }
  exists r, s'. split_and!; [done|apply Hp..|intros q; by apply pruned_usable|done|].
  destruct r as [p|].
  - destruct Hr as [[Hin Hmax] Hu]. split_and!; [by apply (pr_sub _ _ Hp)|done|auto].
  - intros q Hq Hu. specialize (Hkeep q Hq Hu). rewrite Hr in Hkeep. by apply elem_of_empty in Hkeep.
Qed.

(** ** A small block tree *)

(** Addresses that follow the encoding of the hashes. *)
Definition toy_addr (p : ptr) : Z := Z.pos (encode p).
#[global] Instance toy_addr_inj : Inj eq eq toy_addr.
Proof. intros p q H. unfold toy_addr in H. injection H as H. by apply (inj encode). Qed.

Definition toy_entry (prev : option ptr) (h work seq status : Z) : CBlockIndex :=
  mkIndex prev None h 0 0 0 (of_u64 W256 work) 1 (h + 1) (Z.lor status BLOCK_VALID_TRANSACTIONS) 4 uint256_null h 0 0 seq h.

(** The active chain [0], [1], [2] and a branch [3], [4], [5] on [1]. *)
Definition toy_tree (status5 : Z) : BlockMap :=
  push_block (push_block (push_block (push_block (push_block (push_block ∅
    [0] (toy_entry None 0 1 1 BLOCK_HAVE_DATA)) [1] (toy_entry (Some [0]) 1 2 2 BLOCK_HAVE_DATA))
    [2] (toy_entry (Some [1]) 2 3 3 BLOCK_HAVE_DATA)) [3] (toy_entry (Some [1]) 2 3 4 BLOCK_HAVE_DATA))
    [4] (toy_entry (Some [3]) 3 4 5 BLOCK_HAVE_DATA)) [5] (toy_entry (Some [4]) 4 5 6 status5).

Definition toy_state (status5 : Z) : ChainState (list ptr) :=
  mkChainState (mkHeaderState (toy_tree status5) (Some [5]) [] [] []) (chain_of (toy_tree status5) [2]) [[2]; [1]; [0]]
    {[ [2]; [4]; [5] ]} [] None 7 (-1) (of_u64 W256 0) false.

Lemma toy_tree_ok status5 : index_ok (toy_tree status5).
Proof.
  unfold toy_tree. repeat (apply push_block_ok; [|by vm_compute|by vm_compute| |done]);
    [apply index_ok_empty|done|..]; (eexists; split; [vm_compute; reflexivity|reflexivity]).
Qed.

(** A test on all objects of a heap. *)
Lemma heap_forallb (f : CBlockIndex -> bool) (m : BlockMap) : forallb (fun x => f x.2) (map_to_list m) = true ->
  forall p i, m !! p = Some i -> f i = true.
Proof.
  intros H p i Hp. rewrite forallb_forall in H. apply (H (p, i)). by apply list_elem_of_In, elem_of_map_to_list.
Qed.

Definition wf_test (a : base_uint) : bool := (length a =? 8)%nat && forallb (fun x => (0 <=? x) && (x <? 2 ^ 32)) a.

Lemma wf_test_ok a : wf_test a = true -> wf W256 a.
Proof.
  unfold wf_test. intros [Hl Ha]%andb_prop. split; [by apply Nat.eqb_eq|]. rewrite forallb_forall in Ha.
  apply Forall_forall. intros x Hx%list_elem_of_In. specialize (Ha x Hx). unfold is_u32. bool_hyps. lia.
Qed.

Lemma toy_state_inv status5 : index_inv (toy_state status5).
Proof.
  pose proof (heap_forallb (fun i => wf_test (nChainWork i) && negb (nChainTx i =? 0)) (toy_tree status5)
                ltac:(vm_compute; reflexivity)) as Hall.
  split.
  - apply toy_tree_ok.
  - intros p i Hp. apply wf_test_ok. by apply (Hall p i), andb_prop in Hp as [? _].
  - intros p i q qi _ _ _ Hq. apply (Hall q qi), andb_prop in Hq as [_ Hq]. by apply negb_true_iff, Z.eqb_neq in Hq.
  - right. exists [2]. split; [done|]. eexists. vm_compute. reflexivity.
  - intros c Hc. assert (c = [2] \/ c = [4] \/ c = [5]) as Hc' by (cbn in Hc; clear -Hc; set_solver).
    destruct Hc' as [->|[->| ->]]; (eexists; split; [vm_compute; reflexivity|done]).
  - done.
Qed.

Lemma most_work_chain_found_witness :
  exists r s', FindMostWorkChain toy_addr (toy_state (Z.lor BLOCK_HAVE_DATA BLOCK_FAILED_VALID)) = Ok (r, s') /\
    r = Some [4] /\ s_usable (toy_state (Z.lor BLOCK_HAVE_DATA BLOCK_FAILED_VALID)) [4].
Proof.
  destruct (most_work_chain_found toy_addr (toy_state (Z.lor BLOCK_HAVE_DATA BLOCK_FAILED_VALID)) (toy_state_inv _))
    as (r & s' & E & _ & _ & _ & _ & _ & Hr).
  exists r, s'. split; [exact E|]. assert (r = Some [4]) as ->.
  { revert E. vm_compute. intros [= <- _]. reflexivity. }
  split; [reflexivity|apply Hr].
Defined.
