(* ===== verification/Activate.v ===== *)
(** * The best valid chain is activated
    (the theorems on [ActivateBestChain] of [ChainState])

    [ActivateBestChain] makes the valid chain with the most work active and keeps
    the view equal to the replay of the active chain. *)

From Stdlib Require Import ZArith Lia.
From stdpp Require Import base tactics numbers option list gmap.
From S2P Require Import Prelude ArithUint256 Compact Block Chain Pow Headers ChainState BestChain.

(** ** Replaying a chain *)

(** What a healthy node can rely on: disconnecting a block that was connected on top
    of another one undoes it, and the view knows the block it is at. *)
Class ChainOpsLaws {View} (ops : ChainOps View) : Prop := {
  Disconnect_law : forall u q v p v', ConnectBlock ops u q = ConnOk v -> ConnectBlock ops v p = ConnOk v' -> DisconnectBlock ops v' p = Some v;
  BestBlock_law : forall v p v', ConnectBlock ops v p = ConnOk v' -> GetBestBlock ops v' = p
}.

(** No system errors: the disk works, and a block that is rejected was not
    corrupted on the way. *)
Class Healthy {View} (ops : ChainOps View) : Prop := {
  healthy_read : forall p, ReadBlockFromDisk ops p = true;
  healthy_flush : forall v, FlushStateToDisk ops v = true;
  healthy_connect : forall v p, ConnectBlock ops v p <> ConnError /\ ConnectBlock ops v p <> ConnInvalid true
}.

Section Replay.
Context {View : Type} (ops : ChainOps View) (v0 : View).

(** [v] is the view after connecting the chain up to [p], from the empty view. *)
Inductive replays (m : BlockMap) : option ptr -> View -> Prop :=
  | replays_none : replays m None v0
  | replays_block p i v v' : m !! p = Some i -> replays m (pprev i) v -> ConnectBlock ops v p = ConnOk v' ->
      replays m (Some p) v'.

(** All blocks of the chain up to [p] are valid. *)
Definition sound (m : BlockMap) (p : ptr) : Prop := exists v, replays m (Some p) v.

Lemma replays_fun m p v v' : replays m p v -> replays m p v' -> v = v'.
Proof.
  intros H. revert v'. induction H as [|p i v w Hp Hr IH Hc]; intros v' H'; inversion H' as [|p' i' u u' Hp' Hr' Hc']; subst; [done|].
  rewrite Hp in Hp'. injection Hp' as <-. rewrite (IH u Hr') in Hc. congruence.
Qed.

Lemma replays_links m m' p v : same_links m m' -> replays m p v -> replays m' p v.
Proof.
  intros H Hr. induction Hr as [|p i v w Hp Hr IH Hc]; [constructor|].
  destruct (same_links_lookup m m' p i H Hp) as (i' & Hp' & E & _). econstructor; [done| |done]. by rewrite E.
Qed.

Lemma sound_ancestor m p k a : sound m p -> nth_ancestor m p k = Some a -> sound m a.
Proof.
  revert p. induction k as [|k IH]; intros p [v Hv] Hk; cbn in Hk; [injection Hk as <-; by exists v|].
  inversion Hv as [|p' i u u' Hp Hr Hc]; subst. rewrite Hp in Hk. cbn in Hk.
  destruct (pprev i) as [q|]; [|done]. apply (IH q); [by exists u|done].
Qed.

Lemma sound_links m m' p : same_links m m' -> sound m p -> sound m' p.
Proof. intros H [v Hv]. exists v. by apply (replays_links m). Qed.
End Replay.

(** ** Eligible blocks *)

(** No block of the chain up to [p] is flagged as failed. *)
Definition clean (m : BlockMap) (p : ptr) : Prop :=
  forall k a ai, nth_ancestor m p k = Some a -> m !! a = Some ai -> failed ai = false.

(** The block can become the tip: all its transactions are there and nothing is
    known against it. *)
Definition eligible (m : BlockMap) (p : ptr) : Prop := (exists i, m !! p = Some i /\ nChainTx i <> 0) /\ clean m p.

Lemma clean_ancestor m p k a : clean m p -> nth_ancestor m p k = Some a -> clean m a.
Proof. intros Hc Hk j b bi Hj. apply (Hc (k + j)%nat). by rewrite nth_ancestor_add, Hk. Qed.

Lemma eligible_ancestor m p k a : index_ok m -> linked_ok m -> eligible m p -> nth_ancestor m p k = Some a -> eligible m a.
Proof.
  intros Hm Hl [(i & Hp & Hi) Hc] Hk. split; [|by apply (clean_ancestor m p k)].
  destruct (nth_ancestor_height m p i k a Hm Hp Hk) as (ai & Ha & _). exists ai. split; [done|].
  by apply (linked_ancestor m p i k a).
Qed.

(** Heaps whose blocks are clean in the same cases. *)
Definition same_clean (m m' : BlockMap) : Prop :=
  same_core m m' /\ forall p i i', m !! p = Some i -> m' !! p = Some i' -> failed i' = failed i /\ have_data i' = have_data i.

Lemma clean_mono m m' p : same_core m m' ->
  (forall q i i', m !! q = Some i -> m' !! q = Some i' -> failed i = true -> failed i' = true) -> clean m' p -> clean m p.
Proof.
  intros Hc Hf H k a ai Hk Ha. destruct (same_core_lookup _ _ a ai Hc Ha) as (ai' & Ha' & _).
  rewrite (nth_ancestor_proper _ _ (same_core_links _ _ Hc) p p eq_refl k k eq_refl) in Hk.
  specialize (H k a ai' Hk Ha'). destruct (failed ai) eqn:E; [|done]. by rewrite (Hf a ai ai' Ha Ha' E) in H.
Qed.

Lemma same_clean_sym m m' : same_clean m m' -> same_clean m' m.
Proof. intros [Hc Hf]. split; [by symmetry|]. intros p i i' Hi Hi'. destruct (Hf p i' i Hi' Hi). auto. Qed.

Lemma same_clean_trans a b c : same_clean a b -> same_clean b c -> same_clean a c.
Proof.
  intros [H1 F1] [H2 F2]. split; [by etransitivity|]. intros p i i' Hi Hi'.
  destruct (same_core_lookup _ _ p i H1 Hi) as (j & Hj & _). destruct (F1 p i j Hi Hj), (F2 p j i' Hj Hi'). split; congruence.
Qed.

Lemma same_clean_clean m m' p : same_clean m m' -> clean m p <-> clean m' p.
Proof.
  intros [Hc Hf]. split; apply clean_mono; [by symmetry| |done|]; intros q i i' Hi Hi' E.
  - by destruct (Hf q i' i Hi' Hi) as [<- _].
  - by destruct (Hf q i i' Hi Hi') as [-> _].
Qed.

Lemma core_linked m m' p : same_core m m' -> (exists i, m !! p = Some i /\ nChainTx i <> 0) -> exists i, m' !! p = Some i /\ nChainTx i <> 0.
Proof.
  intros H (i & Hi & Hn). destruct (same_core_lookup _ _ p i H Hi) as (i' & Hi' & E%core_fields). exists i'.
  destruct E as (_ & _ & _ & _ & _ & -> & _). done.
Qed.

Lemma same_clean_eligible m m' p : same_clean m m' -> eligible m p <-> eligible m' p.
Proof.
  intros H. pose proof (same_clean_clean m m' p H) as Hc. destruct H as [H _]. unfold eligible. rewrite Hc.
  split; intros [H1 H2]; (split; [|done]); [by apply (core_linked m)|by apply (core_linked m'); [symmetry|]].
Qed.

(** ** The state between two steps *)

Definition one_root (m : BlockMap) : Prop := forall p i q j,
  m !! p = Some i -> m !! q = Some j -> pprev i = None -> pprev j = None -> p = q.

Section Activate.
Context {View : Type} (ops : ChainOps View) (v0 : View) (addr : ptr -> Z).
Context `{!Inj eq eq addr} `{!ChainOpsLaws ops} `{!Healthy ops}.
Implicit Types s : ChainState View.

(** The tip is [t], the view [v] is its replay, and [T] is a valid candidate such
    that every eligible block that is not worse is a candidate. *)
Record Act (m : BlockMap) (c : gset ptr) (v : View) (t T : ptr) : Prop := {
  a_index : index_ok m;
  a_work : work_ok m;
  a_linked : linked_ok m;
  a_root : one_root m;
  a_data : forall p i, m !! p = Some i -> nChainTx i <> 0 -> have_data i = true;
  a_view : replays ops v0 m (Some t) v;
  a_tip : eligible m t;
  a_cands : forall p, p ∈ c -> exists i, m !! p = Some i /\ nChainTx i <> 0;
  a_floor_in : T ∈ c;
  a_floor : eligible m T;
  a_floor_sound : sound ops v0 m T;
  a_cover : forall p, eligible m p -> value_comp addr m p T = false -> p ∈ c
}.

Definition Acts s (t T : ptr) : Prop :=
  chainActive s = chain_of (index s) t /\ Act (index s) (setBlockIndexCandidates s) (pcoinsTip s) t T /\
  (forall b, pindexBestInvalid s = Some b -> is_Some (index s !! b)).

Lemma one_root_links m m' : same_links m m' -> one_root m -> one_root m'.
Proof.
  intros H Hr p i q j Hp Hq Ep Eq. symmetry in H.
  destruct (same_links_lookup _ _ p i H Hp) as (i' & Hp' & E1 & _). destruct (same_links_lookup _ _ q j H Hq) as (j' & Hq' & E2 & _).
  apply (Hr p i' q j'); congruence.
Qed.

Lemma Act_same_clean m m' c v t T : same_clean m m' -> Act m c v t T -> Act m' c v t T.
Proof.
  intros Hs [A B C D E F G H I J K L]. pose proof Hs as [Hc Hf]. pose proof (same_core_links _ _ Hc) as Hl. split.
  - by apply (index_ok_same_links m).
  - by apply (work_ok_core m).
  - by apply (linked_ok_core m).
  - by apply (one_root_links m).
  - intros p i' Hp' Hn. symmetry in Hc. destruct (same_core_lookup _ _ p i' Hc Hp') as (i & Hp & Ef%core_fields).
    destruct (Hf p i i' Hp Hp') as [_ ->]. apply (E p i Hp). by destruct Ef as (_ & _ & _ & _ & _ & -> & _).
  - by apply (replays_links _ _ m).
  - by apply (same_clean_eligible m).
  - intros p Hp. apply (core_linked m); auto.
  - done.
  - by apply (same_clean_eligible m).
  - by apply (sound_links _ _ m).
  - intros p Hp Hv. apply L; [by apply (same_clean_eligible m m')|]. by rewrite (value_comp_core addr m m').
Qed.

Lemma Acts_same_clean s s' t T : Acts s t T -> same_clean (index s) (index s') ->
  chainActive s' = chainActive s -> setBlockIndexCandidates s' = setBlockIndexCandidates s -> pcoinsTip s' = pcoinsTip s ->
  pindexBestInvalid s' = pindexBestInvalid s -> Acts s' t T.
Proof.
  intros (Hc & HA & Hb) Hs E1 E2 E3 E4. pose proof (proj1 Hs) as Hcore. split_and!.
  - rewrite E1, Hc. apply chain_of_links. by apply same_core_links.
  - rewrite E2, E3. by apply (Act_same_clean (index s)).
  - rewrite E4. intros b H. destruct (Hb b H) as [i Hi]. destruct (same_core_lookup _ _ b i Hcore Hi) as (i' & ? & _). by eexists.
Qed.

(** Between a parent and its child only the view and the active chain change. *)
Definition at_tip s (t : ptr) (v : View) : ChainState View := set_active (chain_of (index s) t) (set_coins v s).

Lemma Tip_chain_of m t ti : m !! t = Some ti -> Tip (chain_of m t) = Some t.
Proof.
  intros Ht. unfold Tip. rewrite last_lookup, (chain_of_length m t ti Ht). cbn [Nat.pred].
  rewrite (chain_of_lookup m t ti) by (done || lia). by rewrite Nat.sub_diag.
Qed.

Lemma Acts_tip s t T : Acts s t T -> exists ti, index s !! t = Some ti /\ Tip (chainActive s) = Some t.
Proof.
  intros (Hc & HA & _). destruct (a_tip _ _ _ _ _ HA) as [(ti & Ht & _) _]. exists ti. split; [done|].
  rewrite Hc. by apply (Tip_chain_of _ _ ti).
Qed.

Lemma at_tip_id s t T : Acts s t T -> at_tip s t (pcoinsTip s) = s.
Proof. intros (Hc & _). unfold at_tip. rewrite <- Hc. by destruct s. Qed.

Lemma UpdateTip_spec s t0 t ti : index_ok (index s) -> index s !! t = Some ti ->
  chainActive s = chain_of (index s) t0 -> is_Some (index s !! t0) ->
  UpdateTip s (Some t) = Ok (set_active (chain_of (index s) t) s).
Proof.
  intros Hm Ht Hc H0. unfold UpdateTip. rewrite (SetTip_spec _ _ t ti Hm Ht) by (right; eauto). cbn [mbind result_bind].
  by rewrite (Tip_chain_of _ _ ti Ht).
Qed.

Lemma DisconnectTip_spec s t T ti q : Acts s t T -> index s !! t = Some ti -> pprev ti = Some q ->
  exists v, DisconnectTip ops s = Ok (true, at_tip s q v) /\ Acts (at_tip s q v) q T.
Proof.
  intros HA Ht Hq. pose proof HA as (Hc & [A B C D E F G H I J K L] & Hb).
  destruct (Acts_tip s t T HA) as (ti' & Ht' & Htip). simplify_eq.
  inversion F as [|t' i v v' Hi Hr Hv]; subst. simplify_eq. rewrite Hq in Hr.
  destruct (A t ti Ht) as (_ & Hlk & _). unfold link_ok in Hlk. rewrite Hq in Hlk. destruct Hlk as (qi & Hqi & _).
  exists v. split.
  - unfold DisconnectTip. rewrite Htip, Ht. cbn [deref mbind result_bind]. rewrite healthy_read. cbn [negb].
    rewrite (bool_decide_eq_true_2 _ (BestBlock_law _ _ _ Hv)). cbn [cassert mbind result_bind].
    assert (exists u, ConnectBlock ops u q = ConnOk v) as [u Hu] by (inversion Hr; by eexists). rewrite (Disconnect_law _ _ _ _ _ Hu Hv), healthy_flush. cbn [negb]. rewrite Hq.
    rewrite (UpdateTip_spec (set_coins v s) t q qi); [done|done|done|done|by eexists].
  - split; [done|]. split; [|done]. assert (nth_ancestor (index s) t 1 = Some q) as H1.
    { cbn. rewrite Ht. cbn. by rewrite Hq. }
    split; try done. by apply (eligible_ancestor (index s) t 1).
Qed.

Lemma disconnect_to_spec T f k : forall fuel s t, Acts s t T -> nth_ancestor (index s) t k = Some f -> (k <= fuel)%nat ->
  exists v, disconnect_loop ops fuel s (Some f) = Ok (true, at_tip s f v) /\ Acts (at_tip s f v) f T.
Proof.
  induction k as [|k IH]; intros fuel s t HA Hk Hfuel; destruct (Acts_tip s t T HA) as (ti & Ht & Htip).
  { injection Hk as ->. exists (pcoinsTip s). rewrite (at_tip_id s f T HA). split; [|done].
    destruct fuel; cbn [disconnect_loop]; rewrite Htip, (bool_decide_eq_true_2 (Some f = Some f)) by done; by rewrite orb_true_r. }
  pose proof HA as (_ & [A _ _ _ _ _ _ _ _ _ _ _] & _). destruct (nth_ancestor_height _ _ _ _ _ A Ht Hk) as (fi & Hf & Hh).
  pose proof Hk as Hk'. cbn [nth_ancestor] in Hk'. rewrite Ht in Hk'. cbn in Hk'. destruct (pprev ti) as [q|] eqn:Hq; [|done].
  destruct (DisconnectTip_spec s t T ti q HA Ht Hq) as (v & E & HA'). destruct fuel as [|fuel]; [lia|].
  cbn [disconnect_loop]. rewrite Htip, !bool_decide_eq_false_2 by (done || intros [= ->]; simplify_eq; lia). cbn [orb].
  rewrite E. cbn [mbind result_bind]. destruct (IH fuel (at_tip s q v) q HA') as (v' & E' & HA''); [done|lia|].
  by exists v'.
Qed.


(** ** Connecting one block *)

Lemma raise_scripts st : exists st' b, RaiseValidity st BLOCK_VALID_SCRIPTS = Ok (st', b) /\
  forall n, 3 <= n < 32 -> Z.testbit st' n = Z.testbit st n.
Proof.
  unfold RaiseValidity. change (cassert _) with (Ok tt). cbn [mbind result_bind].
  case_match; [by eexists _, _|]. case_match; [|by eexists _, _]. eexists _, _. split; [done|].
  intros n Hn. rewrite Z.lor_spec, Z.land_spec. change (u32 (Z.lnot BLOCK_VALID_MASK)) with (Z.ldiff (Z.ones 32) (Z.ones 3)).
  rewrite Z.ldiff_spec, Z.ones_spec_low, (Z.ones_spec_high 3) by lia. change BLOCK_VALID_SCRIPTS with (Z.land 5 (Z.ones 3)).
  rewrite Z.land_spec, (Z.ones_spec_high 3) by lia. by rewrite !andb_false_r, orb_false_r, !andb_true_r.
Qed.

Lemma same_clean_alter m p i i' f : m !! p = Some i -> f i = i' -> core i' = core i ->
  (forall n, n = 3 \/ n = 5 \/ n = 6 -> Z.testbit (nStatus i') n = Z.testbit (nStatus i) n) -> same_clean m (alter f p m).
Proof.
  intros Hp Hf Hc Hb. split.
  - apply same_core_alter. intros j Hj. rewrite Hp in Hj. injection Hj as <-. by rewrite Hf.
  - intros q j j' Hj. rewrite lookup_alter_Some. intros [(-> & j0 & Hj0 & ->)|[_ Hj']]; [|by simplify_eq].
    rewrite Hp in Hj0. injection Hj0 as <-. simplify_eq. rewrite !failed_bits, !have_data_bit, !Hb by auto. done.
Qed.

Lemma record_undo_spec s p i : index s !! p = Some i ->
  exists s', record_undo ops s p = Ok s' /\ same_clean (index s) (index s') /\ chainActive s' = chainActive s /\
    setBlockIndexCandidates s' = setBlockIndexCandidates s /\ pindexBestInvalid s' = pindexBestInvalid s /\
    fRequestShutdown s' = fRequestShutdown s /\ pcoinsTip s' = pcoinsTip s.
Proof.
  intros Hp. unfold record_undo. rewrite Hp. cbn [deref mbind result_bind]. unfold IsValid. change (cassert _) with (Ok tt).
  cbn [mbind result_bind]. set (nu := Z.land (nStatus i) BLOCK_HAVE_UNDO =? 0).
  assert (exists b : bool, (if negb (Z.land (nStatus i) BLOCK_FAILED_MASK =? 0) then Ok false
            else Ok (BLOCK_VALID_SCRIPTS <=? Z.land (nStatus i) BLOCK_VALID_MASK)) = Ok b) as [b ->] by (case_match; eauto).
  cbn [mbind result_bind]. destruct (nu || negb b).
  2: { exists s. split_and!; try done. split; [done|]. intros; by simplify_eq. }
  set (j := if nu then _ else i). destruct (raise_scripts (nStatus j)) as (st & r & E & Hb). rewrite E. cbn [mbind result_bind].
  eexists. split; [done|]. split_and!; try done. eapply same_clean_alter; [done|done| |].
  - unfold j. by destruct nu.
  - intros n Hn. cbn [nStatus set_nStatus]. rewrite Hb by lia. unfold j. destruct nu; [|done]. rewrite or_status_bit.
    cbn [nStatus set_nUndoPos]. destruct Hn as [->|[->| ->]]; by rewrite orb_false_r.
Qed.

(** What a run may change: only blocks that are not valid lose their place. *)
Record evolves s s' : Prop := {
  ev_core : same_core (index s) (index s');
  ev_mono : forall p, eligible (index s') p -> eligible (index s) p;
  ev_keep : forall p, eligible (index s) p -> sound ops v0 (index s) p -> eligible (index s') p;
  ev_shutdown : fRequestShutdown s' = fRequestShutdown s
}.

Lemma evolves_same_clean s s' : same_clean (index s) (index s') -> fRequestShutdown s' = fRequestShutdown s -> evolves s s'.
Proof.
  intros H Hs. split; [apply H| |  |done]; intros p; rewrite (same_clean_eligible _ _ p H); done.
Qed.

Lemma evolves_trans a b c : evolves a b -> evolves b c -> evolves a c.
Proof.
  intros [A1 B1 C1 D1] [A2 B2 C2 D2]. split; [by etransitivity|auto| |congruence].
  intros p Hc Hs. apply C2; [by apply C1|]. apply (sound_links _ _ (index a)); [by apply same_core_links|done].
Qed.

(** The blocks that are not flagged. *)
Definition unfailed_blocks (m : BlockMap) : gset ptr := dom (filter (fun x : ptr * CBlockIndex => failed x.2 = false) m).
Definition unfailed (m : BlockMap) : nat := size (unfailed_blocks m).

Definition flags_kept (m m' : BlockMap) : Prop :=
  same_core m m' /\ forall p i i', m !! p = Some i -> m' !! p = Some i' -> failed i = true -> failed i' = true.

Lemma elem_of_unfailed m p : p ∈ unfailed_blocks m <-> exists i, m !! p = Some i /\ failed i = false.
Proof.
  unfold unfailed_blocks. rewrite elem_of_dom. split.
  - intros [i H]. apply map_lookup_filter_Some in H. eauto.
  - intros (i & Hi & Hf). exists i. by apply map_lookup_filter_Some.
Qed.

Lemma unfailed_sub m m' : flags_kept m m' -> unfailed_blocks m' ⊆ unfailed_blocks m.
Proof.
  intros [Hc Hf] p. rewrite !elem_of_unfailed. intros (i' & Hi' & Hn). symmetry in Hc.
  destruct (same_core_lookup _ _ p i' Hc Hi') as (i & Hi & _). exists i. split; [done|].
  destruct (failed i) eqn:E; [|done]. by rewrite (Hf p i i' Hi Hi' E) in Hn.
Qed.

Lemma unfailed_le m m' : flags_kept m m' -> (unfailed m' <= unfailed m)%nat.
Proof. intros H. unfold unfailed. by apply subseteq_size, unfailed_sub. Qed.

Lemma unfailed_lt m m' p i i' : flags_kept m m' -> m !! p = Some i -> m' !! p = Some i' ->
  failed i = false -> failed i' = true -> (unfailed m' < unfailed m)%nat.
Proof.
  intros H Hi Hi' E E'. unfold unfailed. apply subset_size. split; [by apply unfailed_sub|]. intros Hs.
  assert (p ∈ unfailed_blocks m') as Hp by (apply Hs, elem_of_unfailed; eauto).
  apply elem_of_unfailed in Hp as (j & Hj & Ej). congruence.
Qed.

Lemma same_clean_flags m m' : same_clean m m' -> flags_kept m m'.
Proof. intros [Hc Hf]. split; [done|]. intros p i i' Hi Hi' E. destruct (Hf p i i' Hi Hi') as [-> _]. done. Qed.

Lemma ConnectTip_ok s t T p i l v : Acts s t T -> index s !! p = Some i -> pprev i = Some t -> eligible (index s) p ->
  ConnectBlock ops (pcoinsTip s) p = ConnOk v ->
  exists s', ConnectTip ops s p l = Ok (TipOk, s') /\ Acts s' p T /\ same_clean (index s) (index s') /\
    fRequestShutdown s' = fRequestShutdown s.
Proof.
  intros HA Hp Hpp He Hv. destruct (Acts_tip s t T HA) as (ti & Ht & Htip).
  unfold ConnectTip. rewrite Hp. cbn [deref mbind result_bind]. rewrite Htip, Hpp, bool_decide_eq_true_2 by done.
  cbn [cassert mbind result_bind]. rewrite healthy_read, orb_true_r. cbn [negb]. rewrite Hv.
  destruct (record_undo_spec s p i Hp) as (s1 & E & Hs & E1 & E2 & E3 & E4 & E5). rewrite E. cbn [mbind result_bind].
  rewrite healthy_flush. cbn [negb]. pose proof (Acts_same_clean s s1 t T HA Hs E1 E2 E5 E3) as (Hc1 & HA1 & Hb1).
  pose proof (proj1 Hs) as Hcore. destruct (same_core_lookup _ _ p i Hcore Hp) as (i1 & Hp1 & Ef%core_fields).
  destruct (same_core_lookup _ _ t ti Hcore Ht) as (ti1 & Ht1 & _).
  rewrite (UpdateTip_spec (set_coins v s1) t p i1); [|apply HA1|done|done|by eexists]. cbn [mbind result_bind].
  eexists. split; [done|]. split; [|split; [exact Hs|exact E4]]. split; [done|]. split; [|done].
  destruct HA1 as [A B C D E' F G H I J K L]. split; try done.
  - econstructor; [exact Hp1| |].
    + destruct Ef as (-> & _). rewrite Hpp. exact F.
    + by rewrite E5.
  - by apply (same_clean_eligible (index s)).
Qed.

(** A block that does not connect is not part of the chain to [T], so flagging it
    leaves [T] where it is. *)
Lemma unsound_block s t T p i : Acts s t T -> index s !! p = Some i -> pprev i = Some t ->
  ConnectBlock ops (pcoinsTip s) p = ConnInvalid false -> ~ sound ops v0 (index s) p.
Proof.
  intros (_ & [_ _ _ _ _ F _ _ _ _ _ _] & _) Hp Hpp Hv [v Hs]. inversion Hs as [|p' i' u u' Hp' Hr Hc]; subst. simplify_eq.
  rewrite Hpp in Hr. rewrite (replays_fun _ _ _ _ _ _ F Hr) in Hv. congruence.
Qed.

Definition flagged s (p : ptr) : BlockMap := alter (or_status BLOCK_FAILED_VALID) p (index s).

Lemma flagged_kept s p : flags_kept (index s) (flagged s p).
Proof.
  split; [by apply same_core_alter|]. intros q j j' Hj. unfold flagged. rewrite lookup_alter_Some.
  intros [(-> & j0 & Hj0 & ->)|[_ Hj']] E; [by apply failed_or_status; left|by simplify_eq].
Qed.

Lemma flagged_clean s p q : clean (index s) q -> ~ is_ancestor (index s) p q -> clean (flagged s p) q.
Proof.
  intros Hc Hn k a ai Hk Ha. pose proof (same_core_links _ _ (proj1 (flagged_kept s p))) as Hl.
  rewrite <- (nth_ancestor_proper _ _ Hl q q eq_refl k k eq_refl) in Hk.
  unfold flagged in Ha. rewrite lookup_alter_ne in Ha by (intros ->; apply Hn; by exists k). by apply (Hc k a).
Qed.

Lemma sound_not_below m p q : ~ sound ops v0 m p -> sound ops v0 m q -> ~ is_ancestor m p q.
Proof. intros Hn Hs [k Hk]. by apply Hn, (sound_ancestor _ _ m q k). Qed.

Lemma Act_flagged s c v t T p i : Act (index s) c v t T -> index s !! p = Some i -> ~ sound ops v0 (index s) p ->
  Act (flagged s p) (c ∖ {[ p ]}) v t T.
Proof.
  intros [A B C D E F G H I J K L] Hp Hn. pose proof (flagged_kept s p) as Hk. pose proof (proj1 Hk) as Hc.
  pose proof (same_core_links _ _ Hc) as Hl. assert (sound ops v0 (index s) t) as Hst by (by eexists). split.
  - by apply (index_ok_same_links (index s)).
  - by apply (work_ok_core (index s)).
  - by apply (linked_ok_core (index s)).
  - by apply (one_root_links (index s)).
  - intros q j. unfold flagged. rewrite lookup_alter_Some. intros [(-> & j0 & Hj0 & ->)|[_ Hj]] Hn'; [|by apply (E q)].
    rewrite or_status_data by done. by apply (E q).
  - by apply (replays_links _ _ (index s)).
  - split; [by apply (core_linked (index s)), G|]. apply flagged_clean; [apply G|by apply sound_not_below].
  - intros q Hq. apply (core_linked (index s)); [done|]. apply H. clear -Hq. set_solver.
  - apply elem_of_difference. split; [done|]. intros ->%elem_of_singleton. done.
  - split; [by apply (core_linked (index s)), J|]. apply flagged_clean; [apply J|by apply sound_not_below].
  - by apply (sound_links _ _ (index s)).
  - intros q [Hq Hcl] Hv. apply elem_of_difference. split.
    + apply L; [|by rewrite (value_comp_core addr _ _ q T Hc)]. split; [apply (core_linked (flagged s p)); [by symmetry|done]|].
      by apply (clean_mono _ (flagged s p)); [..|apply Hcl]; apply Hk.
    + intros ->%elem_of_singleton. assert (flagged s p !! p = Some (or_status BLOCK_FAILED_VALID i)) as Hpf.
      { unfold flagged. by rewrite lookup_alter_eq, Hp. }
      pose proof (Hcl O p _ eq_refl Hpf) as Hf. by rewrite failed_or_status in Hf by auto.
Qed.

Lemma InvalidChainFound_spec s t T p : Acts s t T -> is_Some (index s !! p) ->
  exists b, InvalidChainFound s p = Ok (set_best_invalid b s) /\ Acts (set_best_invalid b s) t T.
Proof.
  intros HA Hp. destruct (Acts_tip s t T HA) as (ti & _ & Htip). destruct HA as (Hc & HA & Hb).
  destruct (note_invalid_spec s p Hp Hb) as (b & E & Hb'). exists b. unfold InvalidChainFound. rewrite E. cbn [mbind result_bind].
  change (chainActive (set_best_invalid b s)) with (chainActive s). rewrite Htip, bool_decide_eq_true_2 by done. done.
Qed.

Lemma ConnectTip_invalid s t T p i l : Acts s t T -> index s !! p = Some i -> pprev i = Some t ->
  ConnectBlock ops (pcoinsTip s) p = ConnInvalid false ->
  exists s', ConnectTip ops s p l = Ok (TipInvalid false, s') /\ Acts s' t T /\ index s' = flagged s p /\
    fRequestShutdown s' = fRequestShutdown s.
Proof.
  intros HA Hp Hpp Hv. pose proof (unsound_block s t T p i HA Hp Hpp Hv) as Hn.
  destruct (Acts_tip s t T HA) as (ti & Ht & Htip).
  unfold ConnectTip. rewrite Hp. cbn [deref mbind result_bind]. rewrite Htip, Hpp, bool_decide_eq_true_2 by done.
  cbn [cassert mbind result_bind]. rewrite healthy_read, orb_true_r. cbn [negb]. rewrite Hv. unfold InvalidBlockFound.
  set (s1 := erase_candidate p _). destruct HA as (Hc & HA & Hb). pose proof (flagged_kept s p) as [Hcore _].
  assert (Acts s1 t T) as HA1.
  { split_and!; [cbn; rewrite Hc; apply chain_of_links, same_core_links; exact Hcore|by apply (Act_flagged s _ _ _ _ p i)|].
    cbn. intros b E. destruct (Hb b E) as [j Hj]. destruct (same_core_lookup _ _ b j Hcore Hj) as (? & ? & _). by eexists. }
  destruct (InvalidChainFound_spec s1 t T p HA1) as (b & E & HA2).
  { cbn. destruct (same_core_lookup _ _ p i Hcore Hp) as (? & ? & _). by eexists. }
  rewrite E. by exists (set_best_invalid b s1).
Qed.

(** ** Pruning the candidates *)

Lemma Prune_spec s t T : Acts s t T ->
  exists s' T', PruneBlockIndexCandidates addr s = Ok s' /\ Acts s' t T' /\ index s' = index s /\
    fRequestShutdown s' = fRequestShutdown s.
Proof.
  intros HA. destruct (Acts_tip s t T HA) as (ti & Ht & Htip). destruct HA as (Hc & HA & Hb).
  pose proof HA as [A B C D E F G H I J K L]. unfold PruneBlockIndexCandidates. rewrite Htip. cbn [deref mbind result_bind].
  set (c := filter _ _).
  assert (exists T', Act (index s) c (pcoinsTip s) t T') as [T' HA'].
  { assert (forall x, x ∈ c <-> value_comp addr (index s) x t = false /\ x ∈ setBlockIndexCandidates s) as Hx
      by (intros x; unfold c; by rewrite elem_of_filter).
    assert (forall p, p ∈ c -> exists i, index s !! p = Some i /\ nChainTx i <> 0) as H'
      by (intros p Hp; apply H; by apply Hx in Hp as [_ ?]).
    destruct (value_comp addr (index s) T t) eqn:ET.
    - exists t. split; try done; [|by eexists|].
      + apply Hx. split; [by apply value_comp_irrefl|]. apply L; [done|]. by apply value_comp_asym.
      + intros p Hp Hv. apply Hx. split; [done|]. apply L; [done|]. destruct (value_comp addr (index s) p T) eqn:EpT; [|done].
        by rewrite (value_comp_trans addr _ p T t B EpT ET) in Hv.
    - exists T. split; try done; [by apply Hx|].
      intros p Hp Hv. apply Hx. split; [|by apply L]. destruct (value_comp addr (index s) p t) eqn:Ept; [|done].
      destruct (decide (T = t)) as [->|Hne]; [congruence|].
      destruct (value_comp_total addr (index s) T t B) as [?|HtT]; [destruct J as [(?&?&_) _]; by eexists|by eexists|done|congruence|].
      by rewrite (value_comp_trans addr _ p t T B Ept HtT) in Hv. }
  rewrite bool_decide_eq_false_2 by (intros E0; pose proof (a_floor_in _ _ _ _ _ HA') as Hin; rewrite E0 in Hin; by apply elem_of_empty in Hin).
  cbn [negb cassert mbind result_bind]. exists (set_candidates c s), T'. by split_and!.
Qed.


(** ** Connecting a list of blocks *)

(** [l] leads from the block [t] upwards. *)
Fixpoint path (m : BlockMap) (t : ptr) (l : list ptr) : Prop :=
  match l with
  | [] => True
  | p :: l => (exists i, m !! p = Some i /\ pprev i = Some t) /\ path m p l
  end.
Definition end_of (t : ptr) (l : list ptr) : ptr := default t (last l).

Lemma end_of_cons t p l : end_of t (p :: l) = end_of p l.
Proof. unfold end_of. rewrite last_cons. by destruct (last l). Qed.

Lemma path_links m m' t l : same_links m m' -> path m t l -> path m' t l.
Proof.
  intros H. revert t. induction l as [|p l IH]; intros t; [done|]. intros [(i & Hi & E) Hl]. split; [|by apply IH].
  destruct (same_links_lookup m m' p i H Hi) as (i' & Hi' & E' & _). exists i'. by rewrite E'.
Qed.

(** How far a run of connecting blocks got. *)
Definition connected s s' (t' : ptr) (r : connect_result) (all : ptr) (some : ptr -> Prop) : Prop :=
  match r with
  | AllConnected => same_clean (index s) (index s') /\ t' = all
  | BetterTip => same_clean (index s) (index s') /\ some t'
  | InvalidFound => flags_kept (index s) (index s') /\ (unfailed (index s') < unfailed (index s))%nat
  | SystemError => False
  end.

Lemma evolves_flagged s s' p : ~ sound ops v0 (index s) p -> index s' = flagged s p ->
  fRequestShutdown s' = fRequestShutdown s -> evolves s s'.
Proof.
  intros Hn E Hs. pose proof (flagged_kept s p) as [Hc Hf]. rewrite <- E in *. split; try done.
  - intros q [Hq Hcl]. split; [by apply (core_linked (index s')); [symmetry|]|]. by apply (clean_mono _ (index s')).
  - intros q [Hq Hcl] Hsq. split; [by apply (core_linked (index s))|]. rewrite E. apply flagged_clean; [done|].
    by apply sound_not_below.
Qed.

Lemma flags_kept_trans a b c : flags_kept a b -> flags_kept b c -> flags_kept a c.
Proof.
  intros [H1 F1] [H2 F2]. split; [by etransitivity|]. intros p i i' Hi Hi' E.
  destruct (same_core_lookup _ _ p i H1 Hi) as (j & Hj & _). by apply (F2 p j i'), (F1 p i j).
Qed.

Lemma connected_after s s1 s' t' r all some some' : same_clean (index s) (index s1) ->
  connected s1 s' t' r all some -> (forall x, some x -> some' x) -> connected s s' t' r all some'.
Proof.
  intros H Hr Hsome. pose proof (same_clean_flags _ _ H) as Hk. pose proof (unfailed_le _ _ Hk).
  destruct r; cbn in *; [..|done]; destruct Hr as [H1 H2]; (split; [|auto; lia]).
  - by apply (same_clean_trans _ (index s1)).
  - by apply (same_clean_trans _ (index s1)).
  - by apply (flags_kept_trans _ (index s1)).
Qed.

Lemma connect_ok s t T p i l v : Acts s t T -> index s !! p = Some i -> pprev i = Some t -> eligible (index s) p ->
  ConnectBlock ops (pcoinsTip s) p = ConnOk v ->
  exists s1 s2 T2, ConnectTip ops s p l = Ok (TipOk, s1) /\ PruneBlockIndexCandidates addr s1 = Ok s2 /\ Acts s2 p T2 /\
    same_clean (index s) (index s2) /\ evolves s s2.
Proof.
  intros HA Hi Hpp He Hv. destruct (ConnectTip_ok s t T p i l v) as (s1 & E & HA1 & Hs1 & Hd1); try done.
  destruct (Prune_spec s1 p T HA1) as (s2 & T2 & E2 & HA2 & Ei2 & Hd2). exists s1, s2, T2. rewrite Ei2.
  split_and!; [done..|]. apply evolves_same_clean; [by rewrite Ei2|congruence].
Qed.

Lemma connect_bad s t T p i l back : Acts s t T -> index s !! p = Some i -> pprev i = Some t -> eligible (index s) p ->
  ConnectBlock ops (pcoinsTip s) p = ConnInvalid false -> is_Some (index s !! back) ->
  exists s1 s2, ConnectTip ops s p l = Ok (TipInvalid false, s1) /\ InvalidChainFound s1 back = Ok s2 /\ Acts s2 t T /\
    evolves s s2 /\ flags_kept (index s) (index s2) /\ (unfailed (index s2) < unfailed (index s))%nat.
Proof.
  intros HA Hi Hpp He Hv Hback. destruct (ConnectTip_invalid s t T p i l) as (s1 & E & HA1 & Ei1 & Hd1); try done.
  pose proof (flagged_kept s p) as Hk. rewrite <- Ei1 in Hk.
  destruct (InvalidChainFound_spec s1 t T back HA1) as (b & E2 & HA2).
  { destruct Hback as [bi Hb]. destruct (same_core_lookup _ _ back bi (proj1 Hk) Hb) as (? & ? & _). by eexists. }
  exists s1, (set_best_invalid b s1). split_and!; [done..| |done|].
  - apply (evolves_flagged s _ p); [by apply (unsound_block s t T p i)|done|done].
  - eapply (unfailed_lt _ _ p i (or_status BLOCK_FAILED_VALID i)); [done|done| | |].
    + cbn. rewrite Ei1. unfold flagged. by rewrite lookup_alter_eq, Hi.
    + by apply (proj2 He O p i).
    + apply failed_or_status. auto.
Qed.

Lemma same_core_is_Some m m' p : same_core m m' -> is_Some (m !! p) -> is_Some (m' !! p).
Proof. intros H [i Hi]. destruct (same_core_lookup _ _ p i H Hi) as (? & ? & _). by eexists. Qed.

Lemma connect_loop_spec mw l old back : forall l0 s t T, Acts s t T -> path (index s) t l0 ->
  Forall (eligible (index s)) l0 -> is_Some (index s !! back) -> is_Some (index s !! old) ->
  exists r s' t' T', connect_loop ops addr s mw l (Some old) back l0 = Ok (r, s') /\ Acts s' t' T' /\ evolves s s' /\
    connected s s' t' r (end_of t l0) (fun x => x ∈ l0).
Proof.
  induction l0 as [|p l0 IH]; intros s t T HA Hp He Hback Hold.
  { exists AllConnected, s, t, T. assert (same_clean (index s) (index s)) by (split; [done|]; intros; by simplify_eq).
    split_and!; [done|done|by apply evolves_same_clean|done]. }
  destruct Hp as [(i & Hi & Hpp) Hp]. inversion He as [|? ? Hep Hel]; subst. cbn [connect_loop].
  pose proof (healthy_connect (pcoinsTip s) p) as [Hne Hnc].
  destruct (ConnectBlock ops (pcoinsTip s) p) as [v|[]|] eqn:Hv; try done.
  - destruct (connect_ok s t T p i (bool_decide (p = mw) && l) v) as (s1 & s2 & T2 & E & E2 & HA2 & Hs & Hev); try done.
    rewrite E. cbn [mbind result_bind]. rewrite E2. cbn [mbind result_bind]. pose proof (proj1 Hs) as Hc.
    destruct (Acts_tip s2 p T2 HA2) as (i2 & Hi2 & Htip2). rewrite Htip2. cbn [deref mbind result_bind]. rewrite Hi2.
    apply (same_core_is_Some _ _ _ Hc) in Hold, Hback. destruct Hold as [oi Ho]. rewrite Ho.
    cbn [deref mbind result_bind]. rewrite end_of_cons. case_match.
    + exists BetterTip, s2, p, T2. split_and!; [done..|]. split; [done|]. apply elem_of_cons. by left.
    + destruct (IH s2 p T2) as (r & s' & t' & T' & E' & HA' & Hev' & Hr'); try done.
      * by apply (path_links (index s)); [apply same_core_links|].
      * eapply Forall_impl; [done|]. intros x. by apply (same_clean_eligible (index s)).
      * exists r, s', t', T'. split_and!; [done|done|by apply (evolves_trans _ s2)|].
        apply (connected_after s s2 s' t' r _ (fun x => x ∈ l0)); [done..|]. intros x Hx. apply elem_of_cons. by right.
  - destruct (connect_bad s t T p i (bool_decide (p = mw) && l) back) as (s1 & s2 & E & E2 & HA2 & Hev & Hk & Hu); try done.
    rewrite E. cbn [mbind result_bind]. rewrite E2. cbn [mbind result_bind]. by exists InvalidFound, s2, t, T.
Qed.

(** ** Connecting the way to the best block *)

(** [x] is on the way to [p], above the height [h]. *)
Definition above (m : BlockMap) (p : ptr) (h : Z) (x : ptr) : Prop :=
  is_ancestor m x p /\ exists xi, m !! x = Some xi /\ h < nHeight xi.

Lemma above_core m m' p h x : same_core m m' -> above m p h x -> above m' p h x.
Proof.
  intros Hc ([k Hk] & xi & Hx & Hh). pose proof (same_core_links _ _ Hc) as Hl.
  destruct (same_links_lookup _ _ x xi Hl Hx) as (xi' & Hx' & _ & _ & E). split.
  - exists k. by rewrite <- (nth_ancestor_proper _ _ Hl p p eq_refl k k eq_refl).
  - exists xi'. by rewrite E.
Qed.

Lemma collect_loop_spec m h0 k : index_ok m -> forall fuel p pi acc t, m !! p = Some pi -> path m p acc ->
  nHeight pi = h0 + Z.of_nat k -> (k <= fuel)%nat -> nth_ancestor m p k = Some t ->
  exists l, collect_loop fuel m (Some p) h0 acc = Ok l /\ path m t l /\ end_of t l = end_of p acc /\
    (forall x, x ∈ l -> x ∈ acc \/ above m p h0 x).
Proof.
  intros Hm. induction k as [|k IH]; intros fuel p pi acc t Hp Hacc Hh Hf Hk.
  { injection Hk as <-. exists acc. split_and!; auto. destruct fuel; cbn [collect_loop]; rewrite Hp; cbn [deref mbind result_bind];
      by rewrite (proj2 (Z.eqb_eq _ _)) by lia. }
  destruct fuel as [|fuel]; [lia|]. cbn [collect_loop]. rewrite Hp. cbn [deref mbind result_bind].
  rewrite (proj2 (Z.eqb_neq _ _)) by lia. pose proof Hk as Hk'. cbn [nth_ancestor] in Hk'. rewrite Hp in Hk'. cbn in Hk'.
  destruct (Hm p pi Hp) as (_ & Hlk & _). unfold link_ok in Hlk. destruct (pprev pi) as [q|] eqn:Eq; [|done].
  destruct Hlk as (qi & Hq & Hhq). destruct (IH fuel q qi (p :: acc) t Hq) as (l & E & Hpl & Hel & Hal); [by split; [exists pi|]|lia|lia|done|].
  exists l. split_and!; [done|done|by rewrite Hel, end_of_cons|].
  intros x Hx. destruct (Hal x Hx) as [[->|?]%elem_of_cons|[[j Hj] Hxh]]; [right|by left|right].
  - split; [by exists O|]. exists pi. split; [done|lia].
  - split; [|done]. exists (S j). cbn. rewrite Hp. cbn. by rewrite Eq.
Qed.

(** The blocks one round of the loop connects. *)
Lemma next_batch m t ti mw mi h : index_ok m -> m !! t = Some ti -> m !! mw = Some mi -> is_ancestor m t mw ->
  nHeight ti < h <= Z.min (nHeight ti + 32) (nHeight mi) ->
  exists q qi l, GetAncestor m mw h = Ok (Some q) /\ m !! q = Some qi /\ nHeight qi = h /\ is_ancestor m q mw /\
    collect_loop 32 m (Some q) (nHeight ti) [] = Ok l /\ path m t l /\ end_of t l = q /\
    (forall x, x ∈ l -> above m mw (nHeight ti) x) /\ is_Some (m !! hd [] l).
Proof.
  intros Hm Ht Hmw [k Hk] Hh. destruct (ancestor_position _ _ _ _ _ _ Hm Hmw Hk Ht) as [Ek Hb].
  destruct (GetAncestor_in_range _ _ _ h Hm Hmw ltac:(lia)) as (q & qi & EG & Hq & Hqh & Hqa).
  assert (nth_ancestor m q (Z.to_nat (h - nHeight ti)) = Some t) as Hqt.
  { rewrite <- Hk, Ek. replace (Z.to_nat (nHeight mi - nHeight ti)) with (Z.to_nat (nHeight mi - h) + Z.to_nat (h - nHeight ti))%nat by lia.
    by rewrite nth_ancestor_add, Hqa. }
  destruct (collect_loop_spec m (nHeight ti) (Z.to_nat (h - nHeight ti)) Hm 32 q qi [] t Hq I) as (l & EC & Hpl & Hel & Hal);
    [lia|lia|done|].
  assert (forall x, x ∈ l -> above m mw (nHeight ti) x) as Hab.
  { intros x Hx. destruct (Hal x Hx) as [H|[[j Hj] H]]; [by apply elem_of_nil in H|]. split; [|done].
    exists (Z.to_nat (nHeight mi - h) + j)%nat. by rewrite nth_ancestor_add, Hqa. }
  exists q, qi, l. split_and!; try done; [by eexists|]. destruct l as [|x l].
  - unfold end_of in Hel. cbn in Hel. subst. simplify_eq. lia.
  - destruct (Hab x) as [_ (xi & Hx & _)]; [by left|]. by eexists.
Qed.

Lemma same_clean_refl m : same_clean m m.
Proof. split; [done|]. intros. by simplify_eq. Qed.

Lemma connect_batches_spec mw l old : forall fuel s t T ti mi, Acts s t T -> index s !! t = Some ti ->
  index s !! mw = Some mi -> eligible (index s) mw -> is_ancestor (index s) t mw -> is_Some (index s !! old) ->
  (Z.to_nat (nHeight mi - nHeight ti) <= fuel)%nat ->
  exists r s' t' T', batch_loop ops addr fuel s mw l (Some old) (nHeight ti) = Ok (r, s') /\ Acts s' t' T' /\ evolves s s' /\
    connected s s' t' r mw (above (index s) mw (nHeight ti)).
Proof.
  induction fuel as [|fuel IH]; intros s t T ti mi HA Ht Hmw He Ha Hold Hf; pose proof HA as (_ & [Hm _ Hlk _ _ _ _ _ _ _ _ _] & _);
    pose proof Ha as [k Hk]; destruct (ancestor_position _ _ _ _ _ _ Hm Hmw Hk Ht) as [Ek Hb]; cbn [batch_loop]; rewrite Hmw;
    cbn [deref mbind result_bind]; (destruct (Z.eqb_spec (nHeight ti) (nHeight mi)) as [Eh|Eh];
      [assert (k = O) as -> by lia; injection Hk as <-; exists AllConnected, s, mw, T; pose proof (same_clean_refl (index s));
       split_and!; [done|done|by apply evolves_same_clean|done]|]); [lia|].
  set (h := Z.min (nHeight ti + 32) (nHeight mi)).
  destruct (next_batch _ t ti mw mi h Hm Ht Hmw Ha ltac:(lia)) as (q & qi & l0 & EG & Hq & Hqh & Hqa & EC & Hpl & Hel & Hab & Hback).
  rewrite EG. cbn [mbind result_bind]. rewrite EC. cbn [mbind result_bind].
  destruct (connect_loop_spec mw l old (hd [] l0) l0 s t T HA Hpl) as (r & s1 & t1 & T1 & E1 & HA1 & Hev1 & Hr1); [|done|done|].
  { apply Forall_forall. intros x Hx. destruct (Hab x Hx) as [[j Hj] _]. by apply (eligible_ancestor _ mw j). }
  rewrite E1. cbn [mbind result_bind]. destruct r; [|exists BetterTip|exists InvalidFound|done];
    try (exists s1, t1, T1; split_and!; [done..|]; destruct Hr1 as [? ?]; by split; auto).
  rewrite Hel in Hr1. destruct Hr1 as [Hs1 ->]. pose proof (proj1 Hs1) as Hc. pose proof (same_core_links _ _ Hc) as Hl.
  destruct (same_links_lookup _ _ q qi Hl Hq) as (qi1 & Hq1 & _ & _ & Ehq). destruct (same_links_lookup _ _ mw mi Hl Hmw) as (mi1 & Hm1 & _ & _ & Ehm).
  destruct (IH s1 q T1 qi1 mi1) as (r & s' & t' & T' & E' & HA' & Hev' & Hr'); try done.
  - by apply (same_clean_eligible (index s)).
  - destruct Hqa as [j Hj]. exists j. by rewrite <- (nth_ancestor_proper _ _ Hl mw mw eq_refl _ _ eq_refl).
  - by apply (same_core_is_Some _ _ _ Hc).
  - lia.
  - exists r, s', t', T'. rewrite <- Hqh, <- Ehq, E'. split_and!; [done|done|by apply (evolves_trans _ s1)|].
    apply (connected_after s s1 s' t' r _ _ _ Hs1 Hr'). intros x Hx. symmetry in Hc. apply (above_core _ _ _ _ _ Hc) in Hx as [Hx1 (xi & Hx2 & Hx3)].
    split; [done|]. exists xi. split; [done|lia].
Qed.

(** ** One step *)

Lemma fork_exists m t ti p pi : index_ok m -> one_root m -> m !! t = Some ti -> m !! p = Some pi ->
  exists f, FindFork m (chain_of m t) (Some p) = Ok (Some f) /\ last_common m p t f.
Proof.
  intros Hm Hr Ht Hp. destruct (FindFork_spec m t ti p pi Hm Ht Hp) as (r & E & Hr'). destruct r as [f|]; [by exists f|exfalso].
  assert (forall q qi, m !! q = Some qi -> exists r ri, is_ancestor m r q /\ m !! r = Some ri /\ pprev ri = None) as Hroot.
  { intros q qi Hq. destruct (Hm q qi Hq) as (H0 & _). destruct (nth_ancestor_total m q qi (Z.to_nat (nHeight qi)) Hm Hq) as [r Hk]; [lia|].
    destruct (nth_ancestor_height _ _ _ _ _ Hm Hq Hk) as (ri & Hri & Hh). exists r, ri. split_and!; [by eexists|done|].
    destruct (Hm r ri Hri) as (_ & Hl & _). unfold link_ok in Hl. destruct (pprev ri) as [x|]; [|done].
    destruct Hl as (xi & Hx & Hxh). destruct (Hm x xi Hx). lia. }
  destruct (Hroot t ti Ht) as (r1 & i1 & A1 & L1 & P1), (Hroot p pi Hp) as (r2 & i2 & A2 & L2 & P2).
  rewrite (Hr r1 i1 r2 i2 L1 L2 P1 P2) in A1. by apply (Hr' r2).
Qed.

Lemma Step_spec s t T mw l : Acts s t T -> eligible (index s) mw ->
  exists inv s' t' T' f fi, ActivateBestChainStep ops addr s mw l = Ok (true, inv, s') /\ Acts s' t' T' /\ evolves s s' /\
    last_common (index s) mw t f /\ index s !! f = Some fi /\
    if inv : bool then flags_kept (index s) (index s') /\ (unfailed (index s') < unfailed (index s))%nat
    else same_clean (index s) (index s') /\ (t' = mw \/ above (index s) mw (nHeight fi) t').
Proof.
  intros HA He. destruct (Acts_tip s t T HA) as (ti & Ht & Htip). pose proof HA as (Hc & [Hm _ _ Hroot _ _ _ _ _ _ _ _] & _).
  pose proof He as [(mi & Hmw & _) _]. destruct (fork_exists _ t ti mw mi Hm Hroot Ht Hmw) as (f & EF & Hlc).
  pose proof Hlc as (Hfm & [k Hk] & _). destruct (nth_ancestor_height _ _ _ _ _ Hm Ht Hk) as (fi & Hf & Hfh).
  unfold ActivateBestChainStep. rewrite Htip, Hc, EF. cbn [mbind result_bind].
  destruct (disconnect_to_spec T f k (length (chain_of (index s) t)) s t HA Hk) as (v & ED & HA1).
  { rewrite (chain_of_length _ t ti Ht). destruct (Hm f fi Hf) as (H0 & _). lia. }
  rewrite ED. cbn [mbind result_bind negb]. change (index (at_tip s f v)) with (index s). rewrite Hf. cbn [deref mbind result_bind].
  rewrite Hmw. cbn [deref mbind result_bind].
  destruct (connect_batches_spec mw l t (S (Z.to_nat (nHeight mi))) (at_tip s f v) f T fi mi) as (r & s' & t' & T' & EB & HA' & Hev & Hr); try done.
  { destruct (Hm f fi Hf). lia. }
  rewrite EB. cbn [mbind result_bind].
  assert (evolves s s') as Hev' by (by destruct Hev as [e1 e2 e3 e4]).
  destruct r; [exists false|exists false|exists true|done]; exists s', t', T', f, fi; split_and!; try done;
    destruct Hr as [H1 H2]; auto.
Qed.


(** ** Finding the next block to work towards *)

(** [p] is the best eligible block. *)
Definition best (m : BlockMap) (p : ptr) : Prop :=
  eligible m p /\ forall q, eligible m q -> q = p \/ value_comp addr m q p = true.

Lemma Acts_inv s t T : Acts s t T -> index_inv s.
Proof.
  intros (Hc & [A B C D E F G H I J K L] & Hb). split; try done. right. exists t. split; [done|].
  destruct G as [(ti & Ht & _) _]. by eexists.
Qed.

Lemma usable_clean s t T p : Acts s t T -> (exists i, index s !! p = Some i /\ nChainTx i <> 0) ->
  s_usable s p <-> clean (index s) p.
Proof.
  intros (Hc & [A _ C _ E _ [(ti & Ht & _) Hct] _ _ _ _ _] & _) (i & Hp & Hn). unfold s_usable, usable. rewrite Hc.
  split; intros Hu k a ai Hk Ha.
  - destruct (Hu k a ai Hk Ha) as [Hon|[? _]]; [|done].
    apply on_chain_of in Hon as [j Hj]; [|done|by eexists]. by apply (Hct j a).
  - right. split; [by apply (Hu k a)|]. apply (E a); [done|]. by apply (linked_ancestor (index s) p i k a).
Qed.

Lemma pruned_eligible s s1 t T p : Acts s t T -> pruned s s1 -> eligible (index s1) p <-> eligible (index s) p.
Proof.
  intros HA Hp. pose proof (pr_core _ _ Hp) as Hc. split; intros [Hl Hcl].
  - split; [by apply (core_linked (index s1)); [symmetry|]|]. apply (clean_mono _ (index s1)); [done| |done].
    intros q i i' Hi Hi'. by apply (pr_flags _ _ Hp q).
  - split; [by apply (core_linked (index s))|]. intros k a ai Hk Ha. symmetry in Hc.
    destruct (same_core_lookup _ _ a ai Hc Ha) as (ai0 & Ha0 & _). destruct (failed ai) eqn:Ef; [|done]. exfalso.
    rewrite (nth_ancestor_proper _ _ (same_core_links _ _ Hc) p p eq_refl k k eq_refl) in Hk.
    destruct (pr_flags _ _ Hp a ai0 ai Ha0 Ha) as (_ & _ & Hf). destruct (Hf Ef) as [Hf0|Hn].
    + specialize (Hcl k a ai0 Hk Ha0). congruence.
    + apply Hn. destruct HA as (? & HAct & ?). assert (eligible (index s) a) as [Hla Hca].
      { apply (eligible_ancestor _ p k); [apply HAct|apply HAct|done|done]. }
      by apply (usable_clean s t T a).
Qed.

Lemma Acts_pruned s s1 t T : Acts s t T -> pruned s s1 -> index_inv s1 -> Acts s1 t T.
Proof.
  intros HA Hp Hi. pose proof HA as (Hc & [A B C D E F G H I J K L] & Hb). pose proof (pr_core _ _ Hp) as Hcore.
  pose proof (same_core_links _ _ Hcore) as Hl. assert (forall p, eligible (index s) p -> s_usable s p) as Hus.
  { intros p [Hlp Hcp]. by apply (usable_clean s t T p). }
  split_and!; [rewrite (pr_chain _ _ Hp), Hc; by apply chain_of_links| |apply Hi]. split; try apply Hi.
  - by apply (one_root_links (index s)).
  - intros p i Hpi Hn. symmetry in Hcore. destruct (same_core_lookup _ _ p i Hcore Hpi) as (i0 & Hp0 & Ef%core_fields).
    destruct (pr_flags _ _ Hp p i0 i Hp0 Hpi) as (-> & _). apply (E p i0 Hp0). by destruct Ef as (_ & _ & _ & _ & _ & -> & _).
  - rewrite (pr_coins _ _ Hp). by apply (replays_links _ _ (index s)).
  - by apply (pruned_eligible s s1 t T).
  - destruct (decide (T ∈ setBlockIndexCandidates s1)) as [|Hn]; [done|]. exfalso. by apply (pr_gone _ _ Hp T), Hus.
  - by apply (pruned_eligible s s1 t T).
  - by apply (sound_links _ _ (index s)).
  - intros p He Hv. apply (pruned_eligible s s1 t T) in He; [|done..]. rewrite <- (value_comp_core addr _ _ p T Hcore) in Hv.
    destruct (decide (p ∈ setBlockIndexCandidates s1)) as [|Hn]; [done|]. exfalso. apply (pr_gone _ _ Hp p); auto.
Qed.

Lemma find_spec s t T : Acts s t T ->
  exists mw s1, FindMostWorkChain addr s = Ok (Some mw, s1) /\ Acts s1 t T /\ evolves s s1 /\
    flags_kept (index s) (index s1) /\ best (index s1) mw.
Proof.
  intros HA. pose proof (Acts_inv s t T HA) as Hinv.
  destruct (most_work_loop_spec addr (size (setBlockIndexCandidates s)) s Hinv ltac:(done)) as (r & s1 & E & Hp & Hi1 & Hr).
  pose proof (Acts_pruned s s1 t T HA Hp Hi1) as HA1. pose proof (pr_core _ _ Hp) as Hcore.
  pose proof HA1 as (_ & [_ B _ _ _ _ _ H I J _ L] & _).
  destruct r as [mw|]; [|rewrite Hr in I; by apply elem_of_empty in I]. exists mw, s1. destruct Hr as [[Hin Hmax] Hu].
  assert (forall q, q ∈ setBlockIndexCandidates s1 -> q = mw \/ value_comp addr (index s1) q mw = true) as Hmax1.
  { intros q Hq. rewrite <- (value_comp_core addr _ _ q mw Hcore). by apply Hmax. }
  split_and!; [done|done| | |].
  - split; [done| | |apply (pr_shutdown _ _ Hp)]; intros p; [|intros He _; revert He]; by apply (pruned_eligible s s1 t T).
  - split; [done|]. intros p i i' Hpi Hpi'. by apply (pr_flags _ _ Hp p).
  - split.
    + split; [by apply H|]. apply (usable_clean s1 t T mw HA1 (H mw Hin)). by apply (pruned_usable s s1).
    + intros q Hq. destruct (value_comp addr (index s1) q T) eqn:EqT; [|apply Hmax1; by apply L].
      right. destruct (Hmax1 T I) as [->|HT]; [done|]. by apply (value_comp_trans addr _ q T mw).
Qed.

(** ** The whole run *)

Section Run.
Context (pblock : option ptr).

(** With enough fuel the loop returns [true] at the best eligible block. *)
Definition converges s (pindexMostWork : option ptr) : Prop :=
  exists N, forall fuel, (N <= fuel)%nat -> exists s' t' T', activate_loop ops addr fuel s 0 pblock pindexMostWork = Ok (true, s') /\
    Acts s' t' T' /\ evolves s s' /\ best (index s') t'.

Lemma find_then_loop s s1 mw fuel : FindMostWorkChain addr s = Ok (Some mw, s1) -> fRequestShutdown s = false ->
  fRequestShutdown s1 = false ->
  activate_loop ops addr (S fuel) s 0 pblock None = activate_loop ops addr (S fuel) s1 0 pblock (Some mw).
Proof. intros E H H1. cbn [activate_loop]. rewrite H, H1, bool_decide_eq_true_2, E, bool_decide_eq_false_2 by done. done. Qed.

(** How far the tip is from the block the loop works towards. *)
Definition near (m : BlockMap) (t mw : ptr) (d : nat) : Prop := forall f fi mi,
  last_common m mw t f -> m !! f = Some fi -> m !! mw = Some mi -> nHeight mi - nHeight fi <= Z.of_nat d.

Lemma best_same_clean m m' p : same_clean m m' -> best m p -> best m' p.
Proof.
  intros H [H1 H2]. split; [by apply (same_clean_eligible m)|]. intros q Hq. rewrite <- (value_comp_core addr m m' q p (proj1 H)).
  by apply H2, (same_clean_eligible m m').
Qed.

Lemma above_near m t mw d f fi t' : index_ok m -> near m t mw d -> last_common m mw t f -> m !! f = Some fi ->
  is_Some (m !! mw) -> above m mw (nHeight fi) t' -> exists d', (d' < d)%nat /\ near m t' mw d'.
Proof.
  intros Hm Hn Hlc Hf [mi Hmw] [Hanc (ti & Ht & Hh)]. specialize (Hn f fi mi Hlc Hf Hmw). pose proof Hanc as [k Hk].
  destruct (ancestor_position _ _ _ _ _ _ Hm Hmw Hk Ht). exists (d - 1)%nat. split; [lia|].
  intros f' fi' mi' (_ & _ & Hmax) Hf' Hmw'. rewrite Hmw in Hmw'. injection Hmw' as <-.
  destruct (Hmax t') as [j Hj]; [done|by exists O|]. destruct (ancestor_position _ _ _ _ _ _ Hm Hf' Hj Ht). lia.
Qed.

Lemma near_core m m' t mw d : same_links m m' -> near m t mw d -> near m' t mw d.
Proof.
  intros H Hn f fi mi (A1 & A2 & A3) Hf Hmw. assert (forall a b, is_ancestor m a b <-> is_ancestor m' a b) as Ha.
  { intros a b. split; intros [k Hk]; exists k; [rewrite <- Hk; symmetry|rewrite <- Hk]; by apply nth_ancestor_proper. }
  symmetry in H. destruct (same_links_lookup _ _ f fi H Hf) as (fi0 & Hf0 & _ & _ & <-).
  destruct (same_links_lookup _ _ mw mi H Hmw) as (mi0 & Hm0 & _ & _ & <-). apply (Hn f); try done.
  split_and!; [by apply Ha..|]. intros c. rewrite !Ha. apply A3.
Qed.

(** One round of the loop. *)
Lemma loop_round s t T mw inv s' t' T' fuel : Acts s t T -> fRequestShutdown s = false -> mw <> t ->
  ActivateBestChainStep ops addr s mw (bool_decide (pblock = Some mw)) = Ok (true, inv, s') -> Acts s' t' T' ->
  activate_loop ops addr (S fuel) s 0 pblock (Some mw) =
  (let pm := if inv then None else Some mw in
   if bool_decide (Some t' = pm) then Ok (true, s') else activate_loop ops addr fuel s' 0 pblock pm).
Proof.
  intros HA Hs Hne E HA'. destruct (Acts_tip s t T HA) as (ti & Ht & Htip), (Acts_tip s' t' T' HA') as (ti' & Ht' & Htip').
  cbn [activate_loop]. rewrite Hs, bool_decide_eq_false_2 by done. cbn [mbind result_bind].
  rewrite Htip, bool_decide_eq_false_2 by congruence. rewrite E. cbn [mbind result_bind negb].
  rewrite Htip', Ht'. cbn [deref mbind result_bind Z.eqb negb andb]. by rewrite healthy_flush.
Qed.

Lemma converges_round s t T mw inv s' t' T' : Acts s t T -> fRequestShutdown s = false -> mw <> t ->
  ActivateBestChainStep ops addr s mw (bool_decide (pblock = Some mw)) = Ok (true, inv, s') -> Acts s' t' T' -> evolves s s' ->
  (inv = false -> t' = mw -> best (index s') t') ->
  (inv = true \/ t' <> mw -> converges s' (if inv then None else Some mw)) -> converges s (Some mw).
Proof.
  intros HA Hs Hne E HA' Hev Hend Hgo.
  destruct (decide (inv = false /\ t' = mw)) as [[-> ->]|Hn].
  - exists 1%nat. intros [|fuel] Hf; [lia|]. rewrite (loop_round s t T mw false s' mw T') by done. cbn zeta.
    rewrite bool_decide_eq_true_2 by done. exists s', mw, T'. auto.
  - destruct Hgo as [N HN]; [destruct inv; [by left|right; intros ->; by apply Hn]|].
    exists (S N). intros [|fuel] Hf; [lia|]. rewrite (loop_round s t T mw inv s' t' T') by done. cbn zeta.
    rewrite bool_decide_eq_false_2 by (destruct inv; [done|intros [= ->]; by apply Hn]).
    destruct (HN fuel ltac:(lia)) as (s2 & t2 & T2 & E2 & HA2 & Hev2 & Hb2). exists s2, t2, T2. split_and!; try done.
    by apply (evolves_trans _ s').
Qed.

Lemma step_converges d : forall s t T mw, Acts s t T -> fRequestShutdown s = false -> best (index s) mw -> near (index s) t mw d ->
  (forall s1 t1 T1, Acts s1 t1 T1 -> fRequestShutdown s1 = false -> (unfailed (index s1) < unfailed (index s))%nat -> converges s1 None) ->
  converges s (Some mw).
Proof.
  induction d as [d IH] using lt_wf_ind; intros s t T mw HA Hs Hb Hnear Hrest.
  destruct (decide (mw = t)) as [->|Hne].
  { exists 1%nat. intros [|fuel] Hfuel; [lia|]. destruct (Acts_tip s t T HA) as (ti & _ & Htip). exists s, t, T. cbn [activate_loop].
    rewrite Hs, bool_decide_eq_false_2 by done. cbn [mbind result_bind]. rewrite Htip, bool_decide_eq_true_2 by done.
    by split_and!. }
  destruct (Step_spec s t T mw (bool_decide (pblock = Some mw)) HA (proj1 Hb)) as (inv & s' & t' & T' & f & fi & E & HA' & Hev & Hlc & Hf & Hr).
  pose proof (ev_shutdown _ _ Hev) as Hs'. rewrite Hs in Hs'.
  apply (converges_round s t T mw inv s' t' T'); try done; destruct inv; try done.
  - intros _ ->. apply (best_same_clean (index s)); [apply Hr|done].
  - intros _. apply (Hrest s' t' T'); [done..|apply Hr].
  - intros [?|Hne']; [done|]. destruct Hr as [Hsc [?|Hab]]; [done|].
    destruct HA as (Hc & HAct & Hbi). destruct (above_near (index s) t mw d f fi t') as (d' & Hd & Hn'); try done.
    { apply HAct. } { destruct Hb as [[(mi & Hmw & _) _] _]. by eexists. }
    apply (IH d' Hd s' t' T'); [done..|by apply (best_same_clean (index s))| |].
    + apply (near_core (index s)); [apply same_core_links, Hsc|done].
    + intros s1 t1 T1 H1 H2 H3. apply (Hrest s1 t1 T1); try done. pose proof (unfailed_le _ _ (same_clean_flags _ _ Hsc)). lia.
Qed.

Lemma run_converges s t T : Acts s t T -> fRequestShutdown s = false -> converges s None.
Proof.
  remember (unfailed (index s)) as n eqn:En. revert s t T En. induction n as [n IH] using lt_wf_ind; intros s t T -> HA Hs.
  destruct (find_spec s t T HA) as (mw & s1 & E & HA1 & Hev & Hk & Hb). pose proof (ev_shutdown _ _ Hev) as Hs1. rewrite Hs in Hs1.
  pose proof Hb as [[(mi & Hmw & _) _] _].
  destruct (step_converges (Z.to_nat (nHeight mi)) s1 t T mw HA1 Hs1 Hb) as [N HN].
  - intros f fi mi' _ Hf Hmw'. simplify_eq. destruct HA1 as (_ & [Hm _ _ _ _ _ _ _ _ _ _ _] & _). destruct (Hm f fi Hf). lia.
  - intros s2 t2 T2 HA2 Hs2 Hlt. apply (IH (unfailed (index s2))) with t2 T2; try done. pose proof (unfailed_le _ _ Hk). lia.
  - exists (S N). intros [|fuel] Hf; [lia|]. rewrite (find_then_loop s s1 mw fuel E Hs Hs1).
    destruct (HN (S fuel) ltac:(lia)) as (s' & t' & T' & E' & HA' & Hev' & Hb'). exists s', t', T'. split_and!; try done.
    by apply (evolves_trans _ s1).
Qed.
End Run.


(** ** A block that may be corrupted *)

Lemma not_own_parent s t T i : Acts s t T -> index s !! t = Some i -> pprev i = Some t -> False.
Proof.
  intros (_ & [Hm _ _ _ _ _ _ _ _ _ _ _] & _) Ht Hpp. destruct (Hm t i Ht) as (_ & Hl & _). unfold link_ok in Hl.
  rewrite Hpp in Hl. destruct Hl as (j & Hj & Hh). simplify_eq. lia.
Qed.

(** The best candidate is found at once if it is eligible. *)
Lemma find_best s t T p : Acts s t T -> rbegin addr (index s) (setBlockIndexCandidates s) = Some p -> eligible (index s) p ->
  FindMostWorkChain addr s = Ok (Some p, s).
Proof.
  intros HA Hr He. pose proof HA as (_ & [_ B _ _ _ _ _ H I _ _ _] & _). pose proof He as [(i & Hp & Hn) Hc].
  unfold FindMostWorkChain. destruct (size (setBlockIndexCandidates s)) as [|n] eqn:En.
  { apply size_empty_inv in En. rewrite En in I. by apply elem_of_empty in I. }
  cbn [most_work_loop]. rewrite Hr, Hp. cbn [deref mbind result_bind].
  destruct (test_loop_spec s p i (S (Z.to_nat (nHeight i))) O (Acts_inv s t T HA) Hp Hn) as [(s' & _ & _ & _ & _ & Hu)|[E _]]; [lia|lia| |].
  - exfalso. apply Hu. by apply (usable_clean s t T p HA); [exists i|].
  - cbn [nth_ancestor] in E. rewrite E. done.
Qed.

Lemma last_common_parent m p t f : is_ancestor m t p -> last_common m p t f -> index_ok m -> is_Some (m !! t) -> f = t.
Proof.
  intros Htp (_ & [k Hk] & Hmax) Hm [ti Ht]. destruct (Hmax t) as [j Hj]; [done|by exists O|].
  destruct (nth_ancestor_height _ _ _ _ _ Hm Ht Hk) as (fi & Hf & Hh). destruct (nth_ancestor_height _ _ _ _ _ Hm Hf Hj) as (ti' & Ht' & Hh').
  simplify_eq. assert (k = O) as -> by lia. by injection Hk.
Qed.

Lemma corrupted_step s t T p i l : Acts s t T -> index s !! p = Some i -> pprev i = Some t -> ReadBlockFromDisk ops p = true ->
  ConnectBlock ops (pcoinsTip s) p = ConnInvalid true -> ActivateBestChainStep ops addr s p l = Ok (true, true, s).
Proof.
  intros HA Hp Hpp Hread Hconn. destruct (Acts_tip s t T HA) as (ti & Ht & Htip). pose proof HA as (Hc & [Hm _ _ Hroot _ _ _ _ _ _ _ _] & _).
  assert (nth_ancestor (index s) p 1 = Some t) as H1 by (cbn; rewrite Hp; cbn; by rewrite Hpp).
  destruct (nth_ancestor_height _ _ _ _ _ Hm Hp H1) as (ti' & Ht' & Hh). rewrite Ht in Ht'. injection Ht' as <-.
  destruct (fork_exists _ t ti p i Hm Hroot Ht Hp) as (f & EF & Hlc).
  rewrite (last_common_parent (index s) p t f) in EF; [|by exists 1%nat|done|done|by eexists].
  unfold ActivateBestChainStep. rewrite Htip, Hc, EF. cbn [mbind result_bind].
  assert (disconnect_loop ops (length (chain_of (index s) t)) s (Some t) = Ok (true, s)) as ->.
  { destruct (length _); cbn [disconnect_loop]; rewrite Htip, (bool_decide_eq_true_2 (Some t = Some t)) by done; by rewrite orb_true_r. }
  cbn [mbind result_bind negb]. rewrite Ht. cbn [deref mbind result_bind]. rewrite Hp. cbn [deref mbind result_bind].
  cbn [batch_loop]. rewrite Hp. cbn [deref mbind result_bind]. rewrite (proj2 (Z.eqb_neq _ _)) by lia.
  destruct (Hm t ti Ht) as (H0 & _). replace (Z.min (nHeight ti + 32) (nHeight i)) with (nHeight i) by lia.
  rewrite (GetAncestor_spec _ p i) by done. rewrite !(proj2 (Z.ltb_ge _ _)), Z.sub_diag by lia. cbn [orb mbind result_bind].
  change (nth_ancestor (index s) p (Z.to_nat 0)) with (Some p).
  cbn [collect_loop]. rewrite Hp. cbn [deref mbind result_bind]. rewrite (proj2 (Z.eqb_neq _ _)) by lia. rewrite Hpp, Ht.
  cbn [deref mbind result_bind]. rewrite Z.eqb_refl. cbn [mbind result_bind connect_loop hd].
  unfold ConnectTip. rewrite Hp. cbn [deref mbind result_bind]. rewrite Htip, Hpp, (bool_decide_eq_true_2 (Some t = Some t)) by done.
  cbn [cassert mbind result_bind]. rewrite Hread, orb_true_r. cbn [negb]. by rewrite Hconn.
Qed.

End Activate.

(** ** Properties *)

Lemma ActivateBestChain_spec {View} (ops : ChainOps View) (v0 : View) (addr : ptr -> Z) `{!Inj eq eq addr}
    `{!ChainOpsLaws ops} `{!Healthy ops} (s : ChainState View) (t T : ptr) (pblock : option ptr) :
  Acts ops v0 addr s t T -> fRequestShutdown s = false ->
  exists N, forall fuel, (N <= fuel)%nat -> exists s' t' T',
    ActivateBestChain ops addr fuel s 0 pblock = Ok (true, s') /\ Acts ops v0 addr s' t' T' /\
    Tip (chainActive s') = Some t' /\ eligible (index s) t' /\ replays ops v0 (index s) (Some t') (pcoinsTip s') /\
    forall p, eligible (index s) p -> sound ops v0 (index s) p -> p = t' \/ value_comp addr (index s) p t' = true.
Proof.
  intros HA Hs. destruct (run_converges ops v0 addr pblock s t T HA Hs) as [N HN]. exists N. intros fuel Hf.
  destruct (HN fuel Hf) as (s' & t' & T' & E & HA' & Hev & Hb). exists s', t', T'. pose proof (ev_core _ _ _ _ Hev) as Hc.
  split_and!; [done|done| | | |].
  - by destruct (Acts_tip ops v0 addr s' t' T' HA') as (? & _ & ?).
  - apply (ev_mono _ _ _ _ Hev), HA'.
  - symmetry in Hc. apply (replays_links _ _ (index s')); [by apply same_core_links|]. apply HA'.
  - intros p Hp Hsp. rewrite (value_comp_core addr _ _ p t' Hc). by apply Hb, (ev_keep _ _ _ _ Hev).
Qed.

(** C1: on a healthy node, from a state in which every eligible block that is
    not worse than some valid candidate is a candidate, [ActivateBestChain]
    terminates and returns [true].  The tip is then the best block, in the order
    of [CBlockIndexWorkComparator], among the eligible blocks whose whole chain
    [ConnectBlock] accepts, whatever invalid branches had to be tried and left on
    the way; the coins are the replay of the active chain, and the state is again
    one of those the theorem starts from. *)
Theorem best_valid_chain_activated {View} (ops : ChainOps View) (v0 : View) (addr : ptr -> Z) `{!Inj eq eq addr}
    `{!ChainOpsLaws ops} `{!Healthy ops} (s : ChainState View) (t T : ptr) (pblock : option ptr) :
  Acts ops v0 addr s t T -> fRequestShutdown s = false ->
  exists N, forall fuel, (N <= fuel)%nat -> exists s' t' T',
    ActivateBestChain ops addr fuel s 0 pblock = Ok (true, s') /\ Acts ops v0 addr s' t' T' /\
    Tip (chainActive s') = Some t' /\ eligible (index s) t' /\ replays ops v0 (index s) (Some t') (pcoinsTip s') /\
    forall p, eligible (index s) p -> sound ops v0 (index s) p -> p = t' \/ value_comp addr (index s) p t' = true.
Proof. by apply ActivateBestChain_spec. Qed.

(** a block that [ConnectBlock] rejects as possibly corrupted is neither
    flagged nor removed from the candidates.  When it is the best candidate, on
    top of the tip, every round of [ActivateBestChain] finds it again, so the loop
    never ends. *)
Theorem corrupted_block_livelock {View} (ops : ChainOps View) (v0 : View) (addr : ptr -> Z) `{!Inj eq eq addr}
    (s : ChainState View) (t T p : ptr) (i : CBlockIndex) (fuel : nat) :
  Acts ops v0 addr s t T -> fRequestShutdown s = false -> rbegin addr (index s) (setBlockIndexCandidates s) = Some p ->
  eligible (index s) p -> index s !! p = Some i -> pprev i = Some t -> ReadBlockFromDisk ops p = true ->
  ConnectBlock ops (pcoinsTip s) p = ConnInvalid true ->
  ActivateBestChain ops addr fuel s 0 None = Err OutOfFuel.
Proof.
  intros HA Hs Hbest He Hp Hpp Hread Hconn. unfold ActivateBestChain. induction fuel as [|fuel IH]; [done|]. cbn [activate_loop].
  rewrite Hs, bool_decide_eq_true_2 by done. rewrite (find_best ops v0 addr s t T p HA Hbest He). cbn [mbind result_bind].
  destruct (Acts_tip ops v0 addr s t T HA) as (ti & Ht & Htip). rewrite Htip.
  rewrite bool_decide_eq_false_2 by (intros [= ->]; by apply (not_own_parent ops v0 addr s t T i HA)).
  rewrite (corrupted_step ops v0 addr s t T p i _ HA) by done. cbn [mbind result_bind negb]. rewrite Htip, Ht.
  cbn [deref mbind result_bind Z.eqb negb andb]. rewrite bool_decide_eq_false_2 by done. exact IH.
Qed.

(** ** A small run *)

(** A view that is the stack of connected blocks; block [bad] is rejected with the
    given verdict. *)
Definition toy_ops (bad : ptr) (corrupted : bool) : ChainOps (list ptr) :=
  mkChainOps _ (fun _ => true) (fun v p => if bool_decide (p = bad) then ConnInvalid corrupted else ConnOk (p :: v))
    (fun v _ => match v with [] => None | _ :: v => Some v end) (fun v => hd [] v) (fun _ => true) (fun _ => 0).

Lemma toy_ops_laws bad c : ChainOpsLaws (toy_ops bad c).
Proof. split; [intros u q v p v' _|intros v p v']; cbn; (case_bool_decide; [done|]); by intros [= <-]. Qed.

Lemma toy_ops_healthy bad : Healthy (toy_ops bad false).
Proof. split; [done|done|]. intros v p. cbn. by case_bool_decide. Qed.

Lemma all_clean m p : forallb (fun x : ptr * CBlockIndex => negb (failed x.2)) (map_to_list m) = true -> clean m p.
Proof. intros H k a ai _ Ha. apply negb_true_iff. by apply (heap_forallb (fun i => negb (failed i)) m H a). Qed.

Lemma toy_tree_cases p i : toy_tree BLOCK_HAVE_DATA !! p = Some i ->
  p = [0] \/ p = [1] \/ p = [2] \/ p = [3] \/ p = [4] \/ p = [5].
Proof.
  intros H. assert (p ∈ dom (toy_tree BLOCK_HAVE_DATA)) as Hd by (apply elem_of_dom; by eexists).
  assert (dom (toy_tree BLOCK_HAVE_DATA) = {[ [0]; [1]; [2]; [3]; [4]; [5] ]} :> gset ptr) as E
    by (apply (bool_decide_eq_true_1 _); vm_compute; reflexivity).
  rewrite E in Hd. clear -Hd. set_solver.
Qed.

Lemma toy_eligible p : is_Some (toy_tree BLOCK_HAVE_DATA !! p) -> eligible (toy_tree BLOCK_HAVE_DATA) p.
Proof.
  intros [i Hp]. split; [|apply all_clean; vm_compute; reflexivity]. exists i. split; [done|].
  destruct (toy_tree_cases p i Hp) as [->|[->|[->|[->|[->| ->]]]]]; vm_compute in Hp; injection Hp as <-; done.
Qed.

(** Any sound tip of the tree, with candidates that cover it. *)
Lemma toy_act (ops : ChainOps (list ptr)) t c v : replays ops [] (toy_tree BLOCK_HAVE_DATA) (Some t) v -> t ∈ c ->
  (forall p, p ∈ c -> is_Some (toy_tree BLOCK_HAVE_DATA !! p)) ->
  (forall p, is_Some (toy_tree BLOCK_HAVE_DATA !! p) -> value_comp toy_addr (toy_tree BLOCK_HAVE_DATA) p t = false -> p ∈ c) ->
  Act ops [] toy_addr (toy_tree BLOCK_HAVE_DATA) c v t t.
Proof.
  intros Hr Ht Hc Hcov. pose proof (toy_state_inv BLOCK_HAVE_DATA) as [A B C D E F]. split; try done.
  - intros p i q j Hp Hq Ep Eq. destruct (toy_tree_cases p i Hp) as [->|[->|[->|[->|[->| ->]]]]];
      vm_compute in Hp; injection Hp as <-; try discriminate Ep.
    destruct (toy_tree_cases q j Hq) as [->|[->|[->|[->|[->| ->]]]]]; vm_compute in Hq; injection Hq as <-; done.
  - intros p i Hp _. apply (heap_forallb have_data (toy_tree BLOCK_HAVE_DATA)) with p; [vm_compute; reflexivity|done].
  - by apply toy_eligible, Hc.
  - intros p Hp. by apply toy_eligible, Hc.
  - by apply toy_eligible, Hc.
  - by eexists.
  - intros p [(i & Hp & _) _] Hv. apply Hcov; [by eexists|done].
Qed.

Ltac toy_replay := repeat (eapply replays_block; [vm_compute; reflexivity| |reflexivity]); constructor.
Ltac toy_cover := intros p [i Hp] Hv; destruct (toy_tree_cases p i Hp) as [->|[->|[->|[->|[->| ->]]]]];
  vm_compute in Hv; first [discriminate Hv|clear; set_solver].
Ltac toy_dom := let p := fresh in let H := fresh in intros p H; rewrite ?elem_of_union, ?elem_of_singleton in H;
  repeat destruct H as [H|H]; subst p; eexists; vm_compute; reflexivity.

Lemma toy_acts : Acts (toy_ops [5] false) [] toy_addr (toy_state BLOCK_HAVE_DATA) [2] [2].
Proof.
  split; [done|]. split; [|done]. apply toy_act; [toy_replay|clear; cbn; set_solver| |toy_cover]. cbn. toy_dom.
Qed.

(** The same tree with the tip at [4]. *)
Definition toy_top : ChainState (list ptr) :=
  set_candidates {[ [4]; [5] ]} (at_tip (toy_state BLOCK_HAVE_DATA) [4] [[4]; [3]; [1]; [0]]).

Lemma toy_top_acts : Acts (toy_ops [5] true) [] toy_addr toy_top [4] [4].
Proof.
  split; [done|]. split; [|done]. apply toy_act; [toy_replay|clear; cbn; set_solver| |toy_cover]. cbn. toy_dom.
Qed.

(** Block [5] is invalid: the run ends at [4]. *)
Lemma best_valid_chain_activated_witness :
  exists N, forall fuel, (N <= fuel)%nat -> exists s' t' T',
    ActivateBestChain (toy_ops [5] false) toy_addr fuel (toy_state BLOCK_HAVE_DATA) 0 None = Ok (true, s') /\
    Acts (toy_ops [5] false) [] toy_addr s' t' T' /\ Tip (chainActive s') = Some t' /\ t' <> [2].
Proof.
  destruct (@best_valid_chain_activated _ (toy_ops [5] false) [] toy_addr toy_addr_inj (toy_ops_laws [5] false) (toy_ops_healthy [5])
    (toy_state BLOCK_HAVE_DATA) [2] [2] None) as [N HN]; [exact toy_acts|reflexivity|].
  exists N. intros fuel Hf. destruct (HN fuel Hf) as (s' & t' & T' & E & HA & Htip & _ & _ & Hbest).
  exists s', t', T'. split_and!; [exact E|exact HA|exact Htip|]. intros ->.
  destruct (Hbest [4]) as [H|H].
  - apply toy_eligible. eexists. vm_compute. reflexivity.
  - eexists. toy_replay.
  - discriminate H.
  - vm_compute in H. discriminate H.
Defined.

Lemma corrupted_block_livelock_witness :
  ActivateBestChain (toy_ops [5] true) toy_addr 1000 toy_top 0 None = Err OutOfFuel.
Proof.
  eapply (@corrupted_block_livelock _ (toy_ops [5] true) [] toy_addr toy_addr_inj toy_top [4] [4] [5]).
  - exact toy_top_acts.
  - reflexivity.
  - vm_compute. reflexivity.
  - apply toy_eligible. eexists. vm_compute. reflexivity.
  - vm_compute. reflexivity.
  - reflexivity.
  - reflexivity.
  - reflexivity.
Defined.
