(* ===== verification/Invalidate.v ===== *)
(** * Declaring blocks invalid and valid again
    (the theorems on [InvalidateBlock] and [ResetBlockFailureFlags] of
    [ChainState])

    [InvalidateBlock] leaves the block and what is built on it, and hands
    [ActivateBestChain] a state it can start from. *)

From Stdlib Require Import ZArith Lia.
From stdpp Require Import base tactics numbers option list gmap.
From S2P Require Import Prelude ArithUint256 Compact Block Chain Pow Headers ChainState BestChain Activate.

(** ** Flagging a branch *)

(** [m'] is [m] with some of the blocks on top of [p], or [p], flagged. *)
Definition branch_flagged (m m' : BlockMap) (p : ptr) : Prop :=
  same_core m m' /\ forall q i i', m !! q = Some i -> m' !! q = Some i' ->
    have_data i' = have_data i /\ (failed i = true -> failed i' = true) /\
    Z.land (nStatus i') BLOCK_VALID_MASK = Z.land (nStatus i) BLOCK_VALID_MASK /\
    (~ is_ancestor m p q -> failed i' = failed i).

Lemma branch_flagged_refl m p : branch_flagged m m p.
Proof. split; [done|]. intros q i i' H1 H2. simplify_eq. auto. Qed.

Lemma is_ancestor_links m m' a b : same_links m m' -> is_ancestor m a b <-> is_ancestor m' a b.
Proof. intros H. split; intros [k Hk]; exists k; rewrite <- Hk; [symmetry|]; by apply nth_ancestor_proper. Qed.

Lemma branch_flagged_trans a b c p : branch_flagged a b p -> branch_flagged b c p -> branch_flagged a c p.
Proof.
  intros [H1 F1] [H2 F2]. split; [by etransitivity|]. intros q i i' Hi Hi'.
  destruct (same_core_lookup _ _ q i H1 Hi) as (j & Hj & _). destruct (F1 q i j Hi Hj) as (A1 & A2 & A3 & A4).
  destruct (F2 q j i' Hj Hi') as (B1 & B2 & B3 & B4). rewrite <- (is_ancestor_links _ _ _ _ (same_core_links _ _ H1)) in B4.
  split_and!; [congruence|auto|congruence|]. intros Hn. rewrite B4, A4; done.
Qed.

Lemma branch_flagged_alter m p q flag : flag = BLOCK_FAILED_VALID \/ flag = BLOCK_FAILED_CHILD -> is_ancestor m p q ->
  branch_flagged m (alter (or_status flag) q m) p.
Proof.
  intros Hflag Hq. split; [by apply same_core_alter|]. intros x i i' Hi. rewrite lookup_alter_Some.
  intros [(-> & j & Hj & ->)|[_ Hi']]; [|simplify_eq; auto]. simplify_eq. split_and!.
  - apply or_status_data. by destruct Hflag as [-> | ->].
  - intros _. by apply failed_or_status.
  - cbn [nStatus or_status set_nStatus]. rewrite Z.land_lor_distr_l.
    replace (Z.land flag BLOCK_VALID_MASK) with 0 by (by destruct Hflag as [-> | ->]). apply Z.lor_0_r.
  - done.
Qed.

Section Invalidate.
Context {View : Type} (ops : ChainOps View) (v0 : View) (addr : ptr -> Z).
Context `{!Inj eq eq addr} `{!ChainOpsLaws ops} `{!Healthy ops}.
Implicit Types s : ChainState View.

Lemma invalidate_mark_spec p k : forall fuel s w, index_ok (index s) -> is_Some (index s !! w) ->
  nth_ancestor (index s) w k = Some p -> (k <= fuel)%nat ->
  exists s', invalidate_mark fuel s (Some w) p = Ok s' /\ branch_flagged (index s) (index s') p /\
    setBlockIndexCandidates s' ⊆ setBlockIndexCandidates s /\ chainActive s' = chainActive s /\ pcoinsTip s' = pcoinsTip s /\
    pindexBestInvalid s' = pindexBestInvalid s /\ fRequestShutdown s' = fRequestShutdown s.
Proof.
  induction k as [|k IH]; intros fuel s w Hm [wi Hw] Hk Hf.
  { injection Hk as ->. exists s. pose proof (branch_flagged_refl (index s) p).
    destruct fuel; cbn [invalidate_mark]; by rewrite bool_decide_eq_true_2. }
  destruct (nth_ancestor_height _ _ _ _ _ Hm Hw Hk) as (pi & Hp & Hh). destruct fuel as [|fuel]; [lia|]. cbn [invalidate_mark].
  rewrite bool_decide_eq_false_2 by (intros [= ->]; simplify_eq; lia). rewrite Hw. cbn [deref mbind result_bind].
  assert (is_ancestor (index s) p w) as Hanc by (by exists (S k)). cbn [nth_ancestor] in Hk. rewrite Hw in Hk. cbn in Hk.
  destruct (Hm w wi Hw) as (_ & Hlk & _). unfold link_ok in Hlk. destruct (pprev wi) as [q|] eqn:Eq; [|done].
  destruct Hlk as (qi & Hq & _). set (s1 := erase_candidate w _).
  pose proof (branch_flagged_alter (index s) p w BLOCK_FAILED_CHILD ltac:(auto) Hanc) as Hb. pose proof (same_core_links _ _ (proj1 Hb)) as Hl.
  destruct (IH fuel s1 q) as (s' & E & Hb' & Hc & E1 & E2 & E3 & E4).
  - by apply (index_ok_same_links (index s)).
  - destruct (same_links_lookup _ _ q qi Hl Hq) as (? & ? & _). by eexists.
  - rewrite <- Hk. symmetry. by apply nth_ancestor_proper.
  - lia.
  - exists s'. split_and!; [done|by apply (branch_flagged_trans _ (index s1))| |done..].
    etransitivity; [exact Hc|]. cbn. clear. set_solver.
Qed.

(** The pointers outside the chain stay in the heap. *)
Definition pointers_ok s : Prop :=
  (forall b, pindexBestHeader (hdrs s) = Some b -> is_Some (index s !! b)) /\
  (forall b, pindexBestInvalid s = Some b -> is_Some (index s !! b)).

Lemma drop_best_header_spec s p : index_ok (index s) -> pointers_ok s -> is_Some (index s !! p) ->
  exists s', drop_best_header s (Some p) = Ok s' /\ index s' = index s /\ chainActive s' = chainActive s /\
    pcoinsTip s' = pcoinsTip s /\ setBlockIndexCandidates s' = setBlockIndexCandidates s /\ fRequestShutdown s' = fRequestShutdown s /\
    pointers_ok s'.
Proof.
  intros Hm [Hh Hb] [pi Hp]. unfold drop_best_header. destruct (pindexBestHeader (hdrs s)) as [b|] eqn:E; [|exists s; unfold pointers_ok; rewrite E; by split_and!].
  case_bool_decide as Epb; [|exists s; unfold pointers_ok; rewrite E; by split_and!]. subst b. rewrite Hp. cbn [deref mbind result_bind].
  eexists. split; [done|]. split_and!; try done. split; cbn; [|intros x [= <-]; by eexists].
  intros x Hx. destruct (Hm p pi Hp) as (_ & Hl & _). unfold link_ok in Hl. rewrite Hx in Hl. destruct Hl as (xi & Hxi & _). by eexists.
Qed.

Lemma Acts_index s s' t T : Acts ops v0 addr s t T -> index s' = index s -> chainActive s' = chainActive s -> pcoinsTip s' = pcoinsTip s ->
  setBlockIndexCandidates s' = setBlockIndexCandidates s -> pointers_ok s' -> Acts ops v0 addr s' t T.
Proof.
  intros (Hc & HA & Hb) E1 E2 E3 E4 [_ Hp]. split; [|split]; [by rewrite E2, E1|by rewrite E1, E3, E4|done].
Qed.

Lemma child_not_contained m p pi q : index_ok m -> m !! p = Some pi -> pprev pi = Some q -> Contains m (chain_of m q) p = Ok false.
Proof.
  intros Hm Hp Hpp. destruct (Hm p pi Hp) as (_ & Hl & _). unfold link_ok in Hl. rewrite Hpp in Hl. destruct Hl as (qi & Hq & Hh).
  destruct (Contains_spec m q qi p pi Hm Hq Hp) as (b & Eb & Hb). rewrite Eb. destruct b; [|done].
  destruct (proj1 Hb eq_refl) as [k Hk]. destruct (ancestor_position _ _ _ _ _ _ Hm Hq Hk Hp). lia.
Qed.

(** One block is disconnected. *)
Lemma disconnect_one s t T ti q : Acts ops v0 addr s t T -> pointers_ok s -> index s !! t = Some ti -> pprev ti = Some q ->
  exists s1 s', DisconnectTip ops s = Ok (true, s1) /\ drop_best_header s1 (Tip (chainActive s)) = Ok s' /\
    Acts ops v0 addr s' q T /\ pointers_ok s' /\ index s' = index s /\ fRequestShutdown s' = fRequestShutdown s.
Proof.
  intros HA Hpo Ht Hpp. destruct (DisconnectTip_spec ops v0 addr s t T ti q HA Ht Hpp) as (v & E & HA').
  destruct (Acts_tip _ _ _ s t T HA) as (ti' & _ & Htip). pose proof HA as (_ & [Hm _ _ _ _ _ _ _ _ _ _ _] & _).
  destruct (drop_best_header_spec (at_tip s q v) t Hm Hpo) as (s' & E' & I1 & I2 & I3 & I4 & I5 & I6); [by eexists|].
  exists (at_tip s q v), s'. rewrite Htip. split_and!; try done. by apply (Acts_index (at_tip s q v)).
Qed.

(** The blocks from the tip down to [p] are disconnected. *)
Lemma invalidate_disconnect_spec T p pi q k : forall fuel s t, Acts ops v0 addr s t T -> pointers_ok s -> index s !! p = Some pi ->
  pprev pi = Some q -> nth_ancestor (index s) t k = Some p -> (k < fuel)%nat ->
  exists s', invalidate_disconnect ops fuel s p = Ok (true, s') /\ Acts ops v0 addr s' q T /\ pointers_ok s' /\
    index s' = index s /\ fRequestShutdown s' = fRequestShutdown s.
Proof.
  induction k as [|k IH]; intros fuel s t HA Hpo Hp Hpp Hk Hf; destruct (Acts_tip _ _ _ s t T HA) as (ti & Ht & Htip);
    pose proof HA as (Hc & [Hm _ _ _ _ _ _ _ _ _ _ _] & _); (destruct fuel as [|fuel]; [lia|]);
    destruct (Contains_spec _ t ti p pi Hm Ht Hp) as (b & Eb & Hb); cbn [invalidate_disconnect]; rewrite Hc, Eb; cbn [mbind result_bind];
    (assert (b = true) as -> by (apply Hb; by eexists)); cbn [negb]; rewrite <- Hc.
  - injection Hk as ->. destruct (disconnect_one s p T pi q HA Hpo Hp Hpp) as (s1 & s' & E1 & E2 & HA' & Hpo' & Ei & Es).
    rewrite E1. cbn [mbind result_bind negb]. rewrite E2. exists s'. split_and!; try done. cbn [mbind result_bind].
    assert (Contains (index s') (chainActive s') p = Ok false) as Ec
      by (destruct HA' as (-> & _ & _); rewrite Ei; by apply (child_not_contained _ p pi)).
    destruct fuel; cbn [invalidate_disconnect]; by rewrite Ec.
  - cbn [nth_ancestor] in Hk. rewrite Ht in Hk. cbn in Hk. destruct (pprev ti) as [r|] eqn:Er; [|done].
    destruct (disconnect_one s t T ti r HA Hpo Ht Er) as (s1 & s2 & E1 & E2 & HA' & Hpo' & Ei & Es).
    rewrite E1. cbn [mbind result_bind negb]. rewrite E2. cbn [mbind result_bind].
    destruct (IH fuel s2 r) as (s' & E' & HA'' & Hpo'' & Ei' & Es'); try done; [by rewrite Ei..|lia|].
    exists s'. split_and!; try done; congruence.
Qed.

(** ** The whole request *)

(** Blocks whose transactions are all there have been checked that far, unless
    they failed. *)
Definition levels_ok (m : BlockMap) : Prop := forall p i, m !! p = Some i -> nChainTx i <> 0 -> failed i = false ->
  BLOCK_VALID_TRANSACTIONS <= Z.land (nStatus i) BLOCK_VALID_MASK.

Lemma eligible_connectable m p i : levels_ok m -> eligible m p -> m !! p = Some i -> connectable i = true.
Proof.
  intros Hl [(i' & Hp & Hn) Hc] Hi. rewrite Hi in Hp. injection Hp as <-. unfold connectable.
  pose proof (Hc O p i eq_refl Hi) as Hf. rewrite Hf, (proj2 (Z.leb_le _ _)), (proj2 (Z.eqb_neq _ _)); auto. by apply (Hl p).
Qed.

(** Once the branch is flagged and the candidates are filled up again, the tip
    itself is the floor. *)
Lemma Act_readd m m' c c' v t T p : Act ops v0 addr m c v t T -> levels_ok m -> branch_flagged m m' p -> ~ is_ancestor m p t ->
  c' ⊆ c -> forall d, (forall q, q ∈ d <-> exists i, m' !! q = Some i /\ connectable i = true /\ value_comp addr m' q t = false) ->
  Act ops v0 addr m' (c' ∪ d) v t t.
Proof.
  intros [A B C D E F G H I J K L] Hlv [Hc Hf] Hnt Hsub d Hd. pose proof (same_core_links _ _ Hc) as Hl.
  assert (levels_ok m') as Hlv'.
  { intros q i' Hq Hn Hnf. symmetry in Hc. destruct (same_core_lookup _ _ q i' Hc Hq) as (i & Hi & Ef%core_fields).
    destruct (Hf q i i' Hi Hq) as (_ & Hmono & -> & _). destruct Ef as (_ & _ & _ & _ & _ & Ef & _).
    apply (Hlv q i Hi); [congruence|]. destruct (failed i); [by rewrite Hmono in Hnf|done]. }
  assert (eligible m' t) as Ht.
  { split; [by apply (core_linked m), G|]. intros k a ai' Hk Ha'. symmetry in Hc. destruct (same_core_lookup _ _ a ai' Hc Ha') as (ai & Ha & _).
    rewrite <- (nth_ancestor_proper _ _ Hl t t eq_refl k k eq_refl) in Hk. destruct (Hf a ai ai' Ha Ha') as (_ & _ & _ & Hfa). rewrite Hfa; [by apply (proj2 G k a ai)|].
    intros [j Hj]. apply Hnt. exists (k + j)%nat. by rewrite nth_ancestor_add, Hk. }
  assert (forall q, eligible m' q -> value_comp addr m' q t = false -> q ∈ c' ∪ d) as Hcov.
  { intros q Hq Hv. apply elem_of_union_r, Hd. pose proof Hq as [(i & Hi & _) _]. exists i. split_and!; try done.
    by apply (eligible_connectable m' q i). }
  split; try done.
  - by apply (index_ok_same_links m).
  - by apply (work_ok_core m).
  - by apply (linked_ok_core m).
  - by apply (one_root_links m).
  - intros q i' Hq Hn. symmetry in Hc. destruct (same_core_lookup _ _ q i' Hc Hq) as (i & Hi & Ef%core_fields).
    destruct (Hf q i i' Hi Hq) as (-> & _). apply (E q i Hi). by destruct Ef as (_ & _ & _ & _ & _ & -> & _).
  - by apply (replays_links _ _ m).
  - intros q [Hq|Hq]%elem_of_union; [apply (core_linked m); auto|]. apply Hd in Hq as (i & Hi & Hcn & _). exists i. split; [done|].
    unfold connectable in Hcn. apply andb_prop in Hcn as [_ Hcn]. by apply negb_true_iff, Z.eqb_neq in Hcn.
  - apply Hcov; [done|]. apply value_comp_irrefl. by apply (work_ok_core m).
  - eexists. by apply (replays_links _ _ m).
Qed.

Lemma branch_eligible m m' p pi' x : index_ok m -> branch_flagged m m' p -> m' !! p = Some pi' -> failed pi' = true ->
  eligible m' x <-> eligible m x /\ ~ is_ancestor m p x.
Proof.
  intros Hm [Hc Hf] Hp Hfp. pose proof (same_core_links _ _ Hc) as Hl. split.
  - intros [Hx Hcl]. split; [split; [apply (core_linked m'); [by symmetry|done]|]|].
    + apply (clean_mono m m'); [done| |done]. intros q i i' Hi Hi'. by apply (Hf q).
    + intros Hanc. apply (is_ancestor_links _ _ _ _ Hl) in Hanc as [k Hk]. specialize (Hcl k p pi' Hk Hp). congruence.
  - intros [[Hx Hcl] Hn]. split; [by apply (core_linked m)|]. intros k a ai' Hk Ha'. symmetry in Hc.
    destruct (same_core_lookup _ _ a ai' Hc Ha') as (ai & Ha & _). rewrite <- (nth_ancestor_proper _ _ Hl x x eq_refl k k eq_refl) in Hk.
    destruct (Hf a ai ai' Ha Ha') as (_ & _ & _ & Hfa). rewrite Hfa; [by apply (Hcl k a ai)|]. intros [j Hj]. apply Hn.
    exists (k + j)%nat. by rewrite nth_ancestor_add, Hk.
Qed.

(** The branch is left: what is true before the block itself is flagged. *)
Definition left_branch s s1 t1 T p : Prop :=
  Acts ops v0 addr s1 t1 T /\ pointers_ok s1 /\ index s1 = index s /\ fRequestShutdown s1 = fRequestShutdown s /\ ~ is_ancestor (index s) p t1.

Lemma leave_branch s t T p pi q : Acts ops v0 addr s t T -> pointers_ok s -> index s !! p = Some pi -> pprev pi = Some q ->
  exists b s1 t1, Contains (index s) (chainActive s) p = Ok b /\
    invalidate_disconnect ops (length (chainActive s)) s p = Ok (true, s1) /\ left_branch s s1 t1 T p /\
    (if b then is_ancestor (index s) p t /\ t1 = q else ~ is_ancestor (index s) p t /\ t1 = t).
Proof.
  intros HA Hpo Hp Hpp. pose proof HA as (Hc & [Hm _ _ _ _ _ _ _ _ _ _ _] & _). destruct (Acts_tip _ _ _ s t T HA) as (ti & Ht & Htip).
  destruct (Contains_spec _ t ti p pi Hm Ht Hp) as (b & Eb & Hb). rewrite Hc, Eb. exists b.
  rewrite (chain_of_length _ t ti Ht). destruct b.
  - destruct (proj1 Hb eq_refl) as [k Hk]. destruct (nth_ancestor_height _ _ _ _ _ Hm Ht Hk) as (pi' & Hp' & Hh).
    destruct (Hm p pi' Hp') as (H0 & _).
    destruct (invalidate_disconnect_spec T p pi q k (S (Z.to_nat (nHeight ti))) s t HA Hpo Hp Hpp Hk) as (s1 & E & HA1 & Hpo1 & Ei & Es); [lia|].
    exists s1, q. split_and!; try done; [|by exists k]. split_and!; try done.
    pose proof (child_not_contained _ p pi q Hm Hp Hpp) as Hcn. destruct (Acts_tip _ _ _ s1 q T HA1) as (qi & Hq & _). rewrite Ei in Hq.
    destruct (Contains_spec _ q qi p pi Hm Hq Hp) as (b & Eb' & Hb'). rewrite Hcn in Eb'. injection Eb' as <-. intros Ha. by apply Hb' in Ha.
  - assert (~ is_ancestor (index s) p t) as Hn by (intros Ha; by apply Hb in Ha). exists s, t. cbn [invalidate_disconnect].
    rewrite Hc, Eb. split_and!; try done.
Qed.

Lemma readd_spec s tip q : q ∈ dom (filter (fun x : ptr * CBlockIndex => connectable x.2 && negb (value_comp addr (index s) x.1 tip) = true) (index s)) <->
  exists i, index s !! q = Some i /\ connectable i = true /\ value_comp addr (index s) q tip = false.
Proof.
  rewrite elem_of_dom. split.
  - intros [i Hi]. apply map_lookup_filter_Some in Hi as [Hi Hb]. cbn in Hb. apply andb_prop in Hb as [H1 H2]. apply negb_true_iff in H2. eauto.
  - intros (i & Hi & H1 & H2). exists i. apply map_lookup_filter_Some. cbn. by rewrite H1, H2.
Qed.


Lemma mark_branch s1 (b : bool) t ti p : index_ok (index s1) -> index s1 !! t = Some ti -> (b = true -> is_ancestor (index s1) p t) ->
  exists s2, (if b then walk ← deref (Some t); wi ← deref (index s1 !! walk);
                invalidate_mark (S (Z.to_nat (nHeight wi))) s1 (Some walk) p else Ok s1) = Ok s2 /\
    branch_flagged (index s1) (index s2) p /\ setBlockIndexCandidates s2 ⊆ setBlockIndexCandidates s1 /\
    chainActive s2 = chainActive s1 /\ pcoinsTip s2 = pcoinsTip s1 /\ pindexBestInvalid s2 = pindexBestInvalid s1 /\
    fRequestShutdown s2 = fRequestShutdown s1.
Proof.
  intros Hm Ht Hb. destruct b; [|exists s1; split_and!; try done; apply branch_flagged_refl]. cbn [deref mbind result_bind].
  rewrite Ht. cbn [deref mbind result_bind]. destruct (Hb eq_refl) as [k Hk].
  destruct (nth_ancestor_height _ _ _ _ _ Hm Ht Hk) as (pi' & Hp' & Hh). destruct (Hm p pi' Hp') as (H0 & _).
  apply (invalidate_mark_spec p k (S (Z.to_nat (nHeight ti))) s1 t); [done|by eexists|done|lia].
Qed.

Lemma invalidate_run s t T p pi q : Acts ops v0 addr s t T -> pointers_ok s -> levels_ok (index s) -> index s !! p = Some pi -> pprev pi = Some q ->
  exists (b : bool) s' t', InvalidateBlock ops addr s p = Ok (true, s') /\ Acts ops v0 addr s' t' t' /\
    fRequestShutdown s' = fRequestShutdown s /\
    (if b then is_ancestor (index s) p t /\ t' = q else ~ is_ancestor (index s) p t /\ t' = t) /\
    branch_flagged (index s) (index s') p /\ (exists pi', index s' !! p = Some pi' /\ failed pi' = true).
Proof.
  intros HA Hpo Hlv Hp Hpp. pose proof HA as (Hc & [Hm _ _ _ _ _ _ _ _ _ _ _] & _). destruct (Acts_tip _ _ _ s t T HA) as (ti & Ht & Htip).
  destruct (drop_best_header_spec s p Hm Hpo) as (s0 & E0 & I1 & I2 & I3 & I4 & I5 & I6); [by eexists|].
  pose proof (Acts_index s s0 t T HA I1 I2 I3 I4 I6) as HA0. rewrite <- I1 in Hp, Ht, Hlv, Hm |- *.
  destruct (leave_branch s0 t T p pi q HA0 I6 Hp Hpp) as (b & s1 & t1 & Eb & Ed & (HA1 & Hpo1 & Ei1 & Es1 & Hn1) & Hb). exists b.
  unfold InvalidateBlock. rewrite E0. cbn [mbind result_bind]. rewrite Eb. cbn [mbind result_bind]. rewrite Ed. cbn [mbind result_bind negb].
  destruct (mark_branch s1 b t ti p) as (s2 & E2 & Hf2 & Hsub & C2 & V2 & B2 & S2); [by rewrite Ei1|by rewrite Ei1| |].
  { rewrite Ei1. intros ->. apply Hb. }
  rewrite Htip. rewrite E2. cbn [mbind result_bind]. set (s3 := set_failed_blocks _ _).
  assert (branch_flagged (index s0) (index s3) p) as Hf3.
  { apply (branch_flagged_trans _ (index s2)); [by rewrite <- Ei1|]. apply branch_flagged_alter; [auto|by exists O]. }
  destruct (Acts_tip _ _ _ s1 t1 T HA1) as (ti1 & Ht1 & Htip1). change (chainActive s3) with (chainActive s2). rewrite C2, Htip1.
  cbn [deref mbind result_bind]. assert (Acts ops v0 addr (readd_candidates addr s3 t1) t1 t1) as HA3.
  { destruct HA1 as (Hc1 & HAct1 & Hb1). rewrite Ei1 in *. pose proof (same_core_links _ _ (proj1 Hf3)) as Hl3. split_and!.
    - change (chainActive s2 = chain_of (index s3) t1). rewrite C2, Hc1. by apply chain_of_links.
    - change (pcoinsTip (readd_candidates addr s3 t1)) with (pcoinsTip s2). rewrite V2.
      apply (Act_readd (index s0) (index s3) (setBlockIndexCandidates s1) _ _ _ T p); try done; [|intros x; apply readd_spec].
      cbn. clear -Hsub. set_solver.
    - change (pindexBestInvalid (readd_candidates addr s3 t1)) with (pindexBestInvalid s2). rewrite B2. intros x Hx.
      apply (same_core_is_Some _ _ _ (proj1 Hf3)). auto. }
  destruct (InvalidChainFound_spec ops v0 addr _ t1 t1 p HA3) as (bi & E3 & HA4).
  { apply (same_core_is_Some _ _ _ (proj1 Hf3)). by eexists. }
  rewrite E3. cbn [mbind result_bind]. eexists _, t1. split; [done|]. split_and!; try done.
  - cbn. congruence.
  - destruct (same_core_lookup _ _ p pi (proj1 Hf2)) as (pi2 & Hp2 & _); [by rewrite Ei1|].
    exists (or_status BLOCK_FAILED_VALID pi2). split; [|apply failed_or_status; auto]. cbn. by rewrite lookup_alter_eq, Hp2.
Qed.

End Invalidate.

(** ** Properties *)

(** C14: [InvalidateBlock] on a block that is not the genesis block always
    succeeds on a healthy node.  If the block is in the active chain, its parent
    becomes the tip, else the tip stays.  Afterwards exactly the eligible blocks
    that are not the block or built on it remain eligible, and the candidates
    cover the new tip, so that [ActivateBestChain] can start from there. *)
Theorem block_invalidated {View} (ops : ChainOps View) (v0 : View) (addr : ptr -> Z) `{!Inj eq eq addr}
    `{!ChainOpsLaws ops} `{!Healthy ops} (s : ChainState View) (t T p : ptr) (pi : CBlockIndex) (q : ptr) :
  Acts ops v0 addr s t T -> pointers_ok s -> levels_ok (index s) -> index s !! p = Some pi -> pprev pi = Some q ->
  exists s' t', InvalidateBlock ops addr s p = Ok (true, s') /\ Acts ops v0 addr s' t' t' /\
    fRequestShutdown s' = fRequestShutdown s /\
    (is_ancestor (index s) p t -> t' = q) /\ (~ is_ancestor (index s) p t -> t' = t) /\
    forall x, eligible (index s') x <-> eligible (index s) x /\ ~ is_ancestor (index s) p x.
Proof.
  intros HA Hpo Hlv Hp Hpp. destruct (invalidate_run ops v0 addr s t T p pi q HA Hpo Hlv Hp Hpp)
    as (b & s' & t' & E & HA' & Hs & Ht & Hb & Hpf). exists s', t'. split_and!; try done.
  - intros Ha. destruct b; [apply Ht|by destruct Ht].
  - intros Ha. destruct b; [by destruct Ht|apply Ht].
  - intros x. destruct Hpf as (pi' & Hp' & Hf). apply (branch_eligible _ _ p pi'); try done. apply HA.
Qed.

Lemma toy_pointers : pointers_ok (toy_state BLOCK_HAVE_DATA).
Proof. split; intros b; [intros [= <-]; eexists; vm_compute; reflexivity|done]. Qed.

Lemma toy_levels : levels_ok (toy_tree BLOCK_HAVE_DATA).
Proof.
  intros p i Hp _ _. apply Z.leb_le. revert p i Hp.
  apply (heap_forallb (fun i => BLOCK_VALID_TRANSACTIONS <=? Z.land (nStatus i) BLOCK_VALID_MASK)). vm_compute. reflexivity.
Qed.

Lemma block_invalidated_witness :
  exists s' t', InvalidateBlock (toy_ops [5] false) toy_addr (toy_state BLOCK_HAVE_DATA) [2] = Ok (true, s') /\ t' = [1] /\
    Acts (toy_ops [5] false) [] toy_addr s' t' t'.
Proof.
  edestruct (@block_invalidated _ (toy_ops [5] false) [] toy_addr toy_addr_inj (toy_ops_laws [5] false) (toy_ops_healthy [5])
    (toy_state BLOCK_HAVE_DATA) [2] [2] [2]) as (s' & t' & E & HA & _ & Hin & _).
  - exact toy_acts.
  - exact toy_pointers.
  - exact toy_levels.
  - vm_compute. reflexivity.
  - reflexivity.
  - exists s', t'. split; [exact E|]. split; [apply Hin; exists O; reflexivity|exact HA].
Defined.

(** ** Clearing the flags again *)

Lemma clear_failed_spec i : failed (clear_failed i) = false /\ core (clear_failed i) = core i.
Proof.
  split; [|done]. rewrite failed_bits. cbn [nStatus clear_failed set_nStatus]. rewrite !Z.land_spec.
  change (u32 (Z.lnot BLOCK_FAILED_MASK)) with 4294967199. by rewrite !andb_false_r.
Qed.

Section Reset.
Context {View : Type} (addr : ptr -> Z).
Implicit Types s : ChainState View.

(** The flags of the blocks in [P] are cleared, those of the others untouched. *)
Record cleared s s' (P : ptr -> Prop) : Prop := {
  cl_core : same_core (index s) (index s');
  cl_in : forall q i', P q -> index s' !! q = Some i' -> failed i' = false;
  cl_out : forall q i i', ~ P q -> index s !! q = Some i -> index s' !! q = Some i' -> nStatus i' = nStatus i;
  cl_mono : forall q i i', index s !! q = Some i -> index s' !! q = Some i' -> failed i' = true -> failed i = true;
  cl_chain : chainActive s' = chainActive s;
  cl_coins : pcoinsTip s' = pcoinsTip s
}.

Lemma cleared_ext s s' (P Q : ptr -> Prop) : (forall q, P q <-> Q q) -> cleared s s' P -> cleared s s' Q.
Proof. intros H [A B C D E F]. split; try done; intros q; specialize (H q); naive_solver. Qed.

Lemma cleared_same_index s s' s'' P : cleared s s' P -> index s'' = index s' -> chainActive s'' = chainActive s' -> pcoinsTip s'' = pcoinsTip s' ->
  cleared s s'' P.
Proof. intros [A B C D E F] E1 E2 E3. split; rewrite ?E1, ?E2, ?E3; done. Qed.

Lemma cleared_clear s s' P p : cleared s s' P -> cleared s (upd_index clear_failed p s') (fun q => P q \/ q = p).
Proof.
  intros [A B C D E F]. split; cbn; try done.
  - etransitivity; [done|]. apply same_core_alter. intros i _. apply clear_failed_spec.
  - intros q i'. rewrite lookup_alter_Some. intros HP [(-> & j & Hj & ->)|[Hne Hi']]; [apply clear_failed_spec|].
    destruct HP as [HP|HP]; [by apply (B q)|congruence].
  - intros q i i' Hn Hi. rewrite lookup_alter_Some. intros [(-> & j & Hj & ->)|[Hne Hi']]; [naive_solver|]. apply (C q); naive_solver.
  - intros q i i' Hi. rewrite lookup_alter_Some. intros [(-> & j & Hj & ->)|[Hne Hi']] Hf; [|by apply (D q i i')].
    by rewrite (proj1 (clear_failed_spec j)) in Hf.
Qed.

(** Where the block needs no change, its flags are clear already. *)
Lemma cleared_skip s s' P p i : cleared s s' P -> index s' !! p = Some i -> failed i = false -> cleared s s' (fun q => P q \/ q = p).
Proof.
  intros [A B C D E F] Hp Hf. split; try done.
  - intros q i' [HP| ->] Hi'; [by apply (B q)|congruence].
  - intros q j j' Hn. apply C. naive_solver.
Qed.

Lemma reset_one_spec s s' P p pi q tip : index_ok (index s) -> index s !! p = Some pi -> is_Some (index s !! q) -> is_Some tip -> cleared s s' P ->
  exists s'', reset_one addr (nHeight pi) p tip (Ok s') q = Ok s'' /\
    cleared s s'' (fun x => P x \/ (x = q /\ is_ancestor (index s) p q)).
Proof.
  intros Hm Hp [qi0 Hq0] [t ->] Hcl. pose proof (cl_core _ _ _ Hcl) as Hc. destruct (same_core_lookup _ _ q qi0 Hc Hq0) as (qi & Hq & _).
  destruct (same_core_lookup _ _ p pi Hc Hp) as (pi' & Hp' & (_ & _ & Ehp & _)%core_fields).
  pose proof (same_core_links _ _ Hc) as Hl. pose proof (index_ok_same_links _ _ Hl Hm) as Hm'.
  unfold reset_one. cbn [mbind result_bind]. rewrite Hq. cbn [deref mbind result_bind]. unfold IsValid. change (cassert _) with (Ok tt).
  cbn [mbind result_bind]. change (negb (Z.land (nStatus qi) BLOCK_FAILED_MASK =? 0)) with (failed qi).
  assert (exists v : bool, (if failed qi then Ok false else Ok (BLOCK_VALID_TRANSACTIONS <=? Z.land (nStatus qi) BLOCK_VALID_MASK)) = Ok v /\
            (v = true -> failed qi = false)) as (v & Ev & Hv) by (destruct (failed qi); eauto).
  rewrite Ev. cbn [mbind result_bind]. destruct v.
  { exists s'. split; [done|]. apply (cleared_ext _ _ (fun x => P x \/ (x = q /\ is_ancestor (index s) p q))); [done|].
    pose proof (cleared_skip s s' P q qi Hcl Hq (Hv eq_refl)) as [A B C D E F]. split; try done; [intros x i' HP; apply (B x i'); naive_solver|].
    intros x i i' Hn. apply (cl_out _ _ _ Hcl). naive_solver. }
  rewrite (GetAncestor_spec _ q qi) by done. cbn [mbind result_bind].
  assert ((if (nHeight qi <? nHeight pi) || (nHeight pi <? 0) then None
           else nth_ancestor (index s') q (Z.to_nat (nHeight qi - nHeight pi))) = Some p <-> is_ancestor (index s) p q) as Hanc.
  { rewrite (is_ancestor_links _ _ _ _ Hl). destruct (Hm p pi Hp) as (H0 & _). split.
    - destruct ((nHeight qi <? nHeight pi) || (nHeight pi <? 0)); [done|]. intros H. by eexists.
    - intros [k Hk]. destruct (ancestor_position _ _ _ _ _ _ Hm' Hq Hk Hp') as [-> Hb]. rewrite Ehp in *.
      rewrite !(proj2 (Z.ltb_ge _ _)) by lia. done. }
  case_bool_decide as Ea; [|exists s'; split; [done|]; apply (cleared_ext _ _ P); [naive_solver|done]]. apply Hanc in Ea.
  destruct (connectable (clear_failed qi)); (eexists; split; [reflexivity|]);
    (apply (cleared_ext _ _ (fun x => P x \/ x = q)); [naive_solver|]);
    (apply (cleared_same_index _ (upd_index clear_failed q s')); [by apply cleared_clear|..]); cbn; repeat case_match; done.
Qed.

Lemma reset_all_spec s p pi tip l : index_ok (index s) -> index s !! p = Some pi -> is_Some tip -> (forall q, q ∈ l -> is_Some (index s !! q)) ->
  exists s', foldl (reset_one addr (nHeight pi) p tip) (Ok s) l = Ok s' /\ cleared s s' (fun x => x ∈ l /\ is_ancestor (index s) p x).
Proof.
  intros Hm Hp Ht. induction l as [|q l IH] using rev_ind; intros Hl.
  { exists s. split; [done|]. split; try done; intros; [set_solver|by simplify_eq..]. }
  destruct IH as (s1 & E1 & Hc1); [intros x Hx; apply Hl, elem_of_app; by left|].
  destruct (reset_one_spec s s1 (fun x => x ∈ l /\ is_ancestor (index s) p x) p pi q tip Hm Hp) as (s' & E' & Hc'); [apply Hl, elem_of_app; right; by left|done|exact Hc1|].
  exists s'. rewrite foldl_app, E1. split; [done|]. eapply cleared_ext; [|exact Hc']. intros x. cbn.
  rewrite elem_of_app, list_elem_of_singleton. naive_solver.
Qed.

Lemma reset_ancestors_spec s k : index_ok (index s) -> forall fuel s' P p pi, cleared s s' P -> index s !! p = Some pi ->
  nHeight pi = Z.of_nat k -> (k < fuel)%nat ->
  exists s'', reset_ancestors fuel s' (Some p) = Ok s'' /\ cleared s s'' (fun x => P x \/ is_ancestor (index s) x p).
Proof.
  intros Hm. induction k as [|k IH]; intros fuel s' P p pi Hcl Hp Hh Hf; (destruct fuel as [|fuel]; [lia|]); cbn [reset_ancestors];
    destruct (same_core_lookup _ _ p pi (cl_core _ _ _ Hcl) Hp) as (pi' & Hp' & (Ep & _)%core_fields); rewrite Hp'; cbn [deref mbind result_bind]; rewrite Ep;
    (set (s1 := if failed pi' then _ else s');
     assert (cleared s s1 (fun x => P x \/ x = p)) as Hc1
       by (unfold s1; destruct (failed pi') eqn:Ef; [apply (cleared_same_index _ (upd_index clear_failed p s')); [by apply cleared_clear|done..]|by apply (cleared_skip s s' P p pi')]));
    destruct (Hm p pi Hp) as (_ & Hl & _); unfold link_ok in Hl; destruct (pprev pi) as [q|] eqn:Eq; try lia.
  - destruct Hl as (qi & Hq & Hhq). destruct (Hm q qi Hq). lia.
  - exists s1. split; [by destruct fuel|]. eapply cleared_ext; [|exact Hc1]. intros x. split; [intros [?| ->]; [by left|right; by exists O]|].
    intros [?|[j Hj]]; [by left|right]. destruct j; [by injection Hj|]. cbn in Hj. rewrite Hp in Hj. cbn in Hj. by rewrite Eq in Hj.
  - destruct Hl as (qi & Hq & Hhq). destruct (IH fuel s1 (fun x => P x \/ x = p) q qi Hc1 Hq) as (s2 & E2 & Hc2); [lia..|].
    exists s2. split; [done|]. eapply cleared_ext; [|exact Hc2]. intros x. split.
    + intros [[?| ->]|[j Hj]]; [by left|right; by exists O|right; exists (S j)]. cbn. rewrite Hp. cbn. by rewrite Eq.
    + intros [?|[[|j] Hj]]; [by left; left|left; right; by injection Hj|]. right. exists j. cbn in Hj. rewrite Hp in Hj. cbn in Hj. by rewrite Eq in Hj.
Qed.
End Reset.

(** Two blocks are on one branch: one is an ancestor of the other, or they are the
    same. *)
Definition same_branch (m : BlockMap) (p q : ptr) : Prop := is_ancestor m p q \/ is_ancestor m q p.

(** [ResetBlockFailureFlags] clears the failure flags of exactly the block,
    its ancestors and its descendants, and changes no other flag, nor the active
    chain or the coins. *)
Theorem failure_flags_reset {View} (addr : ptr -> Z) (s : ChainState View) (p : ptr) (pi : CBlockIndex) :
  index_ok (index s) -> index s !! p = Some pi -> is_Some (Tip (chainActive s)) ->
  exists s', ResetBlockFailureFlags addr s p = Ok s' /\ chainActive s' = chainActive s /\ pcoinsTip s' = pcoinsTip s /\
    same_core (index s) (index s') /\
    forall q i i', index s !! q = Some i -> index s' !! q = Some i' ->
      (same_branch (index s) p q -> failed i' = false) /\ (~ same_branch (index s) p q -> nStatus i' = nStatus i).
Proof.
  intros Hm Hp Ht. destruct (reset_all_spec addr s p pi _ (elements (dom (index s))) Hm Hp Ht) as (s1 & E1 & Hc1).
  { intros q Hq. by apply elem_of_elements, elem_of_dom in Hq. }
  destruct (Hm p pi Hp) as (H0 & _).
  destruct (reset_ancestors_spec addr s (Z.to_nat (nHeight pi)) Hm (S (Z.to_nat (nHeight pi))) s1 _ p pi Hc1 Hp) as (s' & E' & [A B C _ E F]); [lia..|].
  exists s'. unfold ResetBlockFailureFlags. rewrite Hp. cbn [deref mbind result_bind]. rewrite E1. split_and!; try done.
  intros q i i' Hi Hi'. split; [intros H; apply (B q i'); [|done]|unfold same_branch; intros H; apply (C q i i'); tauto].
  destruct H; [left; split; [apply elem_of_elements, elem_of_dom; by eexists|done]|by right].
Qed.

Lemma failure_flags_reset_witness :
  exists s' i', ResetBlockFailureFlags toy_addr (toy_state (Z.lor BLOCK_HAVE_DATA BLOCK_FAILED_VALID)) [3] = Ok s' /\
    index s' !! [5] = Some i' /\ failed i' = false.
Proof.
  edestruct (failure_flags_reset toy_addr (toy_state (Z.lor BLOCK_HAVE_DATA BLOCK_FAILED_VALID)) [3]) as (s' & E & _ & _ & Hc & Hf).
  - apply toy_tree_ok.
  - vm_compute. reflexivity.
  - eexists. vm_compute. reflexivity.
  - destruct (same_core_lookup _ _ [5] _ Hc ltac:(vm_compute; reflexivity)) as (i' & Hi' & _).
    exists s', i'. split; [exact E|]. split; [exact Hi'|]. refine (proj1 (Hf [5] _ i' _ Hi') _); [vm_compute; reflexivity|].
    left. exists 2%nat. vm_compute. reflexivity.
Defined.
