(* ===== verification/Receive.v ===== *)
(** * A block arrives
    (the theorem on [ReceivedBlockTransactions] of [ChainState])

    The blocks that become complete with the new one are linked in and enter the
    candidates, so that [ActivateBestChain] can start from the new state. *)

From Stdlib Require Import ZArith Lia.
From stdpp Require Import base tactics numbers option list gmap.
From S2P Require Import Prelude ArithUint256 Compact Block Chain Pow Headers ChainState BestChain Activate Invalidate.

(** ** Changing one block that is not linked yet *)

Lemma alter_is_insert (m : BlockMap) f p i : m !! p = Some i -> alter f p m = <[p := f i]> m.
Proof.
  intros Hp. apply map_eq. intros q. destruct (decide (q = p)) as [->|Hne].
  - by rewrite lookup_alter_eq, lookup_insert_eq, Hp.
  - by rewrite lookup_alter_ne, lookup_insert_ne.
Qed.

Section Receive.
Context {View : Type} (ops : ChainOps View) (v0 : View) (addr : ptr -> Z) `{!Inj eq eq addr}.
Implicit Types s : ChainState View.

(** [i'] is [i] with more data; [c'] holds the block where it must. *)
Record completes (m : BlockMap) (c c' : gset ptr) (t p : ptr) (i i' : CBlockIndex) : Prop := {
  co_old : m !! p = Some i /\ nChainTx i = 0;
  co_links : links i' = links i;
  co_work : nChainWork i' = nChainWork i;
  co_failed : failed i' = failed i;
  co_linked : nChainTx i' <> 0 -> have_data i' = true /\ forall q qi, pprev i = Some q -> m !! q = Some qi -> nChainTx qi <> 0;
  co_cands : c ⊆ c' /\ forall q, q ∈ c' -> q ∈ c \/ (q = p /\ nChainTx i' <> 0);
  co_cover : nChainTx i' <> 0 -> value_comp addr (<[p := i']> m) p t = false -> p ∈ c'
}.

Lemma completes_links m c c' t p i i' : completes m c c' t p i i' -> same_links m (<[p := i']> m).
Proof.
  intros [[Hp _] Hl _ _ _ _ _] q. destruct (decide (q = p)) as [->|Hne]; [|by rewrite lookup_insert_ne].
  rewrite lookup_insert_eq, Hp. cbn. by rewrite Hl.
Qed.

Lemma completes_clean m c c' t p i i' x : completes m c c' t p i i' -> clean (<[p := i']> m) x <-> clean m x.
Proof.
  intros Hco. pose proof (completes_links _ _ _ _ _ _ _ Hco) as Hl. destruct Hco as [[Hp _] _ _ Hf _ _ _].
  split; intros Hc k a ai Hk Ha; [rewrite (nth_ancestor_proper _ _ Hl x x eq_refl k k eq_refl) in Hk|rewrite <- (nth_ancestor_proper _ _ Hl x x eq_refl k k eq_refl) in Hk].
  - destruct (decide (a = p)) as [->|Hne].
    + rewrite Hp in Ha. injection Ha as <-. rewrite <- Hf. apply (Hc k p i' Hk). apply lookup_insert_eq.
    + apply (Hc k a ai Hk). by rewrite lookup_insert_ne.
  - rewrite lookup_insert_Some in Ha. destruct Ha as [[<- <-]|[Hne Ha]]; [rewrite Hf; by apply (Hc k p)|by apply (Hc k a)].
Qed.

Lemma value_comp_other m p i' x y : x <> p -> y <> p -> value_comp addr (<[p := i']> m) x y = value_comp addr m x y.
Proof. intros Hx Hy. unfold value_comp. by rewrite !lookup_insert_ne by done. Qed.

Lemma Act_completes m c c' v t p i i' : Act ops v0 addr m c v t t -> completes m c c' t p i i' ->
  Act ops v0 addr (<[p := i']> m) c' v t t.
Proof.
  intros [A B C D E F G H I J K L] Hco. pose proof (completes_links _ _ _ _ _ _ _ Hco) as Hl.
  pose proof (fun x => completes_clean _ _ _ _ _ _ _ x Hco) as Hcl. destruct Hco as [[Hp H0] Hlk Hw Hf Hd [Hc1 Hc2] Hcov].
  assert (pprev i' = pprev i) as Epp by (unfold links in Hlk; by injection Hlk).
  assert (forall q qi, m !! q = Some qi -> nChainTx qi <> 0 -> q <> p) as Hne by (intros q qi Hq Hn ->; congruence).
  assert (forall x, (exists j, m !! x = Some j /\ nChainTx j <> 0) -> exists j, <[p := i']> m !! x = Some j /\ nChainTx j <> 0) as Hkeep.
  { intros x (j & Hj & Hn). exists j. split; [|done]. rewrite lookup_insert_ne; [done|]. intros ->. by apply (Hne x j). }
  assert (t <> p) as Htp by (destruct G as [(j & Hj & Hn) _]; by apply (Hne t j)).
  split.
  - by apply (index_ok_same_links m).
  - intros q j. rewrite lookup_insert_Some. intros [[<- <-]|[_ Hj]]; [rewrite Hw; by apply (B p)|by apply (B q)].
  - intros q j r rj. rewrite !lookup_insert_Some. intros [[<- <-]|[Hq Hj]] Hn Hpp [[<- <-]|[Hr Hrj]].
    + done.
    + rewrite Epp in Hpp. by apply (proj2 (Hd Hn) r rj).
    + exfalso. apply (C q j p i Hj Hn Hpp Hp). done.
    + by apply (C q j r rj).
  - by apply (one_root_links m).
  - intros q j. rewrite lookup_insert_Some. intros [[<- <-]|[_ Hj]] Hn; [by apply Hd|by apply (E q)].
  - by apply (replays_links _ _ m).
  - split; [apply Hkeep, G|apply Hcl, G].
  - intros q Hq. destruct (Hc2 q Hq) as [Hq'|[-> Hn]]; [by apply Hkeep, H|]. exists i'. split; [apply lookup_insert_eq|done].
  - by apply Hc1.
  - split; [apply Hkeep, J|apply Hcl, J].
  - by apply (sound_links _ _ m).
  - intros q [(j & Hj & Hn) Hcq] Hv. rewrite lookup_insert_Some in Hj. destruct Hj as [[<- <-]|[Hqp Hj]]; [by apply Hcov|].
    apply Hc1, L; [split; [by exists j|by apply Hcl]|]. by rewrite <- (value_comp_other m p i').
Qed.

(** ** The queue *)

(** The data of the block is there, but it is not linked yet. *)
Definition stored (i : CBlockIndex) : Prop :=
  nChainTx i = 0 /\ 1 <= nTx i /\ have_data i = true /\
  (failed i = false -> BLOCK_VALID_TRANSACTIONS <= Z.land (nStatus i) BLOCK_VALID_MASK).

(** No block has more than [B] transactions, so the counters do not wrap. *)
Definition tx_bounds (B : Z) (m : BlockMap) : Prop := forall p i, m !! p = Some i ->
  0 <= nTx i <= B /\ 0 <= nChainTx i <= (nHeight i + 1) * B /\ (nHeight i + 1) * B < 2 ^ 32.

(** What waits is stored, and waits for a parent that is not linked.  Conversely a block
    that is stored waits for its parent or is in the queue [Q], unless the parent has
    failed; so does every header that has not failed count as a part of the tree. *)
Record waiting_ok (m : BlockMap) (u : list (ptr * ptr)) (Q : list ptr) : Prop := {
  w_sound a b : (a, b) ∈ u -> (exists bi, m !! b = Some bi /\ pprev bi = Some a /\ stored bi) /\ (exists ai, m !! a = Some ai /\ nChainTx ai = 0);
  w_tree x xi : m !! x = Some xi -> failed xi = false -> BLOCK_VALID_TREE <= Z.land (nStatus xi) BLOCK_VALID_MASK;
  w_complete b bi a ai : m !! b = Some bi -> stored bi -> pprev bi = Some a -> m !! a = Some ai -> failed ai = false ->
    b ∈ Q \/ (nChainTx ai = 0 /\ (a, b) ∈ u)
}.

(** The blocks that wait for one of [Q], directly or not. *)
Definition waits (u : list (ptr * ptr)) (a b : ptr) : Prop := (a, b) ∈ u.
Definition reached (u : list (ptr * ptr)) (Q : list ptr) (x : ptr) : Prop := exists q, q ∈ Q /\ rtc (waits u) q x.

(** The number of transactions of the chain that ends with [i]. *)
Definition chain_count (m : BlockMap) (i : CBlockIndex) : Z :=
  nTx i + match pprev i with None => 0 | Some r => from_option nChainTx 0 (m !! r) end.

Definition ready (m : BlockMap) (q : ptr) : Prop :=
  exists qi, m !! q = Some qi /\ stored qi /\ forall r ri, pprev qi = Some r -> m !! r = Some ri -> nChainTx ri <> 0.

Record Queue (B : Z) s (t : ptr) (Q : list ptr) : Prop := {
  q_acts : Acts ops v0 addr s t t;
  q_levels : levels_ok (index s);
  q_bounds : tx_bounds B (index s);
  q_waiting : waiting_ok (index s) (mapBlocksUnlinked s) Q;
  q_ready : forall q, q ∈ Q -> ready (index s) q;
  q_nodup : NoDup (Q ++ (mapBlocksUnlinked s).*2)
}.

Definition linked_entry s (q : ptr) (qi : CBlockIndex) (prevTx : Z) : CBlockIndex :=
  set_nSequenceId (nBlockSequenceId s) (set_nChainTx (u32 (prevTx + nTx qi)) qi).

Lemma link_block_index s q qi prevTx : index s !! q = Some qi -> index (link_block addr s q qi prevTx) = <[q := linked_entry s q qi prevTx]> (index s).
Proof.
  intros Hq. unfold link_block, linked_entry. cbn [chainActive set_sequence upd_index set_hdrs].
  rewrite <- (alter_is_insert (index s) (fun i => set_nSequenceId (nBlockSequenceId s) (set_nChainTx (u32 (prevTx + nTx qi)) i)) q qi Hq).
  repeat case_match; done.
Qed.

Lemma link_block_rest s q qi prevTx : chainActive (link_block addr s q qi prevTx) = chainActive s /\ pcoinsTip (link_block addr s q qi prevTx) = pcoinsTip s /\
  mapBlocksUnlinked (link_block addr s q qi prevTx) = mapBlocksUnlinked s /\ pindexBestInvalid (link_block addr s q qi prevTx) = pindexBestInvalid s /\
  fRequestShutdown (link_block addr s q qi prevTx) = fRequestShutdown s.
Proof. unfold link_block. cbn [chainActive set_sequence upd_index set_hdrs]. repeat case_match; done. Qed.

Lemma link_block_cands s q qi prevTx t : index s !! q = Some qi -> Tip (chainActive s) = Some t ->
  setBlockIndexCandidates (link_block addr s q qi prevTx) =
  if value_comp addr (<[q := linked_entry s q qi prevTx]> (index s)) q t then setBlockIndexCandidates s else {[ q ]} ∪ setBlockIndexCandidates s.
Proof.
  intros Hq Ht. unfold link_block. cbn [chainActive set_sequence upd_index set_hdrs]. rewrite Ht.
  unfold linked_entry. rewrite <- (alter_is_insert (index s) (fun i => set_nSequenceId (nBlockSequenceId s) (set_nChainTx (u32 (prevTx + nTx qi)) i)) q qi Hq).
  change (index (upd_index ?f q s)) with (alter f q (index s)). by destruct (value_comp _ _ _ _).
Qed.


Lemma linked_entry_completes B s t q Q qi prevTx : Queue B s t (q :: Q) -> index s !! q = Some qi ->
  match pprev qi with None => Ok 0 | Some r => ri ← deref (index s !! r); Ok (nChainTx ri) end = Ok prevTx ->
  nChainTx (linked_entry s q qi prevTx) = prevTx + nTx qi /\ 1 <= prevTx + nTx qi <= (nHeight qi + 1) * B /\
  completes (index s) (setBlockIndexCandidates s) (setBlockIndexCandidates (link_block addr s q qi prevTx)) t q qi (linked_entry s q qi prevTx).
Proof.
  intros [HA Hlv Hb Hw Hr Hn] Hq Hprev. destruct (Hr q) as (qi' & Hq' & (H0 & Htx & Hd & Hlev) & Hpar); [by left|].
  rewrite Hq in Hq'. injection Hq' as <-. destruct (Hb q qi Hq) as (Hb1 & _ & Hb3). pose proof HA as (_ & [Hm _ _ _ _ _ _ _ _ _ _ _] & _).
  destruct (Acts_tip _ _ _ s t t HA) as (ti & Ht & Htip).
  assert (0 <= prevTx <= nHeight qi * B) as Hpb.
  { destruct (Hm q qi Hq) as (Hh & Hl & _). unfold link_ok in Hl. destruct (pprev qi) as [r|]; [|injection Hprev as <-; nia].
    destruct Hl as (ri & Hri & Hhr). rewrite Hri in Hprev. cbn in Hprev. injection Hprev as <-. destruct (Hb r ri Hri) as (_ & Hb2 & _).
    rewrite Hhr. exact Hb2. }
  assert (nChainTx (linked_entry s q qi prevTx) = prevTx + nTx qi) as Etx.
  { cbn. apply u32_small. unfold is_u32. lia. }
  split; [done|]. split; [lia|]. split; try done.
  - rewrite (link_block_cands s q qi prevTx t Hq Htip). destruct (value_comp _ _ _ _); [split; [done|by left]|]. split; [clear; set_solver|].
    intros x [->%elem_of_singleton|Hx]%elem_of_union; [right; split; [done|lia]|by left].
  - intros _ Hv. rewrite (link_block_cands s q qi prevTx t Hq Htip), Hv. clear. set_solver.
Qed.

Lemma waiting_split (u : list (ptr * ptr)) q : (q :: waiting u q) ++ (filter (fun x => x.1 <> q) u).*2 ≡ₚ q :: u.*2 /\
  (length (waiting u q) + length (filter (fun x : ptr * ptr => x.1 <> q) u) = length u)%nat.
Proof.
  unfold waiting. induction u as [|[a b] u [IH1 IH2]]; [done|]. rewrite !filter_cons. cbn [fst].
  destruct (decide (a = q)) as [->|Hne]; repeat case_decide; try congruence; cbn [fmap list_fmap snd app length Nat.add] in *.
  - split; [|lia]. apply Permutation_cons_inv in IH1. by rewrite <- IH1.
  - split; [|rewrite Nat.add_succ_r; lia]. apply Permutation_cons_inv in IH1. rewrite <- IH1. f_equiv. by rewrite <- Permutation_middle.
Qed.


Lemma elem_of_waiting u q b : b ∈ waiting u q <-> (q, b) ∈ u.
Proof.
  unfold waiting. rewrite list_elem_of_fmap. split; [intros ([a x] & -> & [Ha Hx]%list_elem_of_filter); cbn in *; by subst a|].
  intros Hb. exists (q, b). split; [done|]. by apply list_elem_of_filter.
Qed.

(** One step of the loop: nothing leads to [q] itself. *)
Lemma reached_step (u : list (ptr * ptr)) q Q x : q ∉ u.*2 -> q ∉ Q ->
  reached u (q :: Q) x <-> x = q \/ reached (filter (fun y => y.1 <> q) u) (Q ++ waiting u q) x.
Proof.
  intros Hu HQ. assert (forall a, a <> q -> rtc (waits u) a x -> rtc (waits (filter (fun y => y.1 <> q) u)) a x) as Hin.
  { intros a Ha Hr. induction Hr as [|a b c Hab _ IH]; [done|]. apply (rtc_l _ _ b); [by apply list_elem_of_filter|]. apply IH. intros ->.
    apply Hu, list_elem_of_fmap. by exists (a, q). }
  assert (forall a, rtc (waits (filter (fun y => y.1 <> q) u)) a x -> rtc (waits u) a x) as Hout.
  { clear Hin. intros a Hr. induction Hr as [|a b c Hab _ IH]; [done|]. apply (rtc_l _ _ b); [|done]. by apply list_elem_of_filter in Hab as [_ ?]. }
  split.
  - intros (y & [->|Hy]%elem_of_cons & Hr); [|right; exists y; split; [apply elem_of_app; by left|apply Hin; [by intros ->|done]]].
    inversion Hr as [|? b ? Hqb Hbx]; subst; [by left|]. right. exists b. split; [apply elem_of_app; right; by apply elem_of_waiting|].
    apply Hin; [|done]. intros ->. apply Hu, list_elem_of_fmap. by exists (q, q).
  - intros [->|(y & [Hy|Hy]%elem_of_app & Hr)]; [by exists q; split; [apply list_elem_of_here|]|exists y; split; [by right|by apply Hout]|].
    exists q. split; [apply list_elem_of_here|]. apply (rtc_l _ _ y); [by apply elem_of_waiting|by apply Hout].
Qed.

(** A linked block is not reached. *)
Lemma linked_unreached B s t Q x i : Queue B s t Q -> index s !! x = Some i -> nChainTx i <> 0 -> ~ reached (mapBlocksUnlinked s) Q x.
Proof.
  intros HQ Hx Hn (q & Hq & Hr). apply rtc_inv_r in Hr as [<-|(a & _ & Ha)].
  - destruct (q_ready _ _ _ _ HQ q Hq) as (qi & Hqi & (H0 & _) & _). congruence.
  - destruct (w_sound _ _ _ (q_waiting _ _ _ _ HQ) a x Ha) as [(bi & Hb & _ & (H0 & _)) _]. congruence.
Qed.

(** Linking [q] keeps what is known of the other blocks. *)
Lemma ready_other m q i' x : x <> q -> nChainTx i' <> 0 -> ready m x -> ready (<[q := i']> m) x.
Proof.
  intros Hne Hn (xi & Hx & Hs & Hp). exists xi. rewrite lookup_insert_ne by done. split_and!; [done|done|].
  intros r ri Hr. rewrite lookup_insert_Some. intros [[<- <-]|[_ Hri]]; [done|by apply (Hp r)].
Qed.

Lemma Queue_step B s t q Q qi prevTx : Queue B s t (q :: Q) -> index s !! q = Some qi ->
  match pprev qi with None => Ok 0 | Some r => ri ← deref (index s !! r); Ok (nChainTx ri) end = Ok prevTx ->
  let s1 := link_block addr s q qi prevTx in
  Queue B (set_unlinked (filter (fun x => x.1 <> q) (mapBlocksUnlinked s1)) s1) t (Q ++ waiting (mapBlocksUnlinked s1) q).
Proof.
  intros HQ Hq Hprev s1. destruct (linked_entry_completes B s t q Q qi prevTx HQ Hq Hprev) as (Etx & Hbnd & Hco).
  pose proof (link_block_index s q qi prevTx Hq) as Ei. destruct (link_block_rest s q qi prevTx) as (Ec & Ev & Eu & Eb & _). fold s1 in Ei, Ec, Ev, Eu, Eb, Hco.
  pose proof (completes_links _ _ _ _ _ _ _ Hco) as Hl. destruct HQ as [(Hc & HA & Hbi) Hlv Hb Hw Hr Hn].
  destruct (Hr q) as (qi' & Hq' & (H0 & Htx & Hd & Hlev) & Hpar); [apply list_elem_of_here|]. rewrite Hq in Hq'. injection Hq' as <-.
  assert (nChainTx (linked_entry s q qi prevTx) <> 0) as Hn0 by lia. rewrite Eu.
  assert (NoDup (Q ++ waiting (mapBlocksUnlinked s) q ++ (filter (fun x : ptr * ptr => x.1 <> q) (mapBlocksUnlinked s)).*2) /\ q ∉ Q /\ q ∉ (mapBlocksUnlinked s).*2) as (Hn' & HqQ & Hqu).
  { cbn in Hn. apply NoDup_cons in Hn as [Hq1 Hn]. rewrite elem_of_app in Hq1. split; [|naive_solver].
    destruct (waiting_split (mapBlocksUnlinked s) q) as [Hperm _]. cbn in Hperm. apply Permutation_cons_inv in Hperm. by rewrite Hperm. }
  assert (forall a b, (a, b) ∈ mapBlocksUnlinked s -> b <> q) as Hub.
  { intros a b Hab ->. apply Hqu. apply list_elem_of_fmap. by exists (a, q). }
  split; cbn [mapBlocksUnlinked set_unlinked]; rewrite ?Ei.
  - split_and!; cbn.
    + rewrite Ec, Hc, Ei. by apply chain_of_links.
    + rewrite Ei, Ev. by apply (Act_completes (index s) (setBlockIndexCandidates s) _ _ _ q qi).
    + rewrite Eb. intros x Hx. rewrite Ei. destruct (Hbi x Hx) as [xi Hxi]. destruct (same_links_lookup _ _ x xi Hl Hxi) as (? & ? & _). by eexists.
  - intros x i. cbn. rewrite Ei, lookup_insert_Some. intros [[<- <-]|[_ Hi]]; [intros _; exact Hlev|by apply (Hlv x)].
  - intros x i. cbn. rewrite Ei, lookup_insert_Some. intros [[<- <-]|[_ Hi]]; [|by apply (Hb x)].
    destruct (Hb q qi Hq) as (B1 & _ & B3). rewrite Etx. cbn. split_and!; lia.
  - destruct Hw as [Hw Htr Hcp]. split; cbn; rewrite Ei.
    + intros a b [Ha Hab]%list_elem_of_filter. cbn in Ha. rewrite !lookup_insert_ne by (done || by apply not_eq_sym, (Hub a)). by apply Hw.
    + intros x xi. rewrite lookup_insert_Some. intros [[<- <-]|[_ Hx]]; [by apply (Htr q qi)|by apply (Htr x)].
    + intros b bi a ai. rewrite !lookup_insert_Some. intros [[<- <-]|[Hbq Hb']]; [intros (? & _); lia|]. intros Hst Hpb [[<- <-]|[Haq Ha]] Hfa.
      * left. apply elem_of_app. destruct (Hcp b bi q qi Hb' Hst Hpb Hq Hfa) as [[->|Hb2]%elem_of_cons|[_ Hb2]]; [done|by left|]. right. by apply elem_of_waiting.
      * destruct (Hcp b bi a ai Hb' Hst Hpb Ha Hfa) as [[->|Hb2]%elem_of_cons|[Hz Hb2]]; [done|left; apply elem_of_app; by left|]. right. split; [done|]. apply list_elem_of_filter. split; [by apply not_eq_sym|done].
  - intros x Hx. cbn. rewrite Ei. apply elem_of_app in Hx as [Hx|Hx].
    + apply ready_other; [by intros ->|done|]. apply Hr. by apply list_elem_of_further.
    + rename x into b. apply elem_of_waiting in Hx as Hab. destruct (w_sound _ _ _ Hw q b Hab) as [(bi & Hbb & Hpb & Hst) _]. exists bi. rewrite lookup_insert_ne by (by apply not_eq_sym, (Hub q)). split_and!; [done|done|].
      intros r ri Hr' Hri. rewrite Hpb in Hr'. injection Hr' as <-. rewrite lookup_insert_eq in Hri. by injection Hri as <-.
  - by rewrite <- app_assoc.
Qed.


(** Where a block is on disk. *)
Definition place (i : CBlockIndex) : Z * Z * Z * Z := (nStatus i, nFile i, nDataPos i, nHeight i).
Definition same_place (m m' : BlockMap) : Prop := forall p, place <$> m !! p = place <$> m' !! p.

#[global] Instance same_place_equiv : Equivalence same_place.
Proof. split; [by intros m p|by intros m m' H p|intros a b c H1 H2 p; by rewrite H1]. Qed.

(** What a run of the loop leaves of the other data. *)
Record grown s s' : Prop := {
  gr_links : same_links (index s) (index s');
  gr_place : same_place (index s) (index s');
  gr_entry : forall x i i', index s !! x = Some i -> index s' !! x = Some i' ->
    nStatus i' = nStatus i /\ nChainWork i' = nChainWork i /\ (nChainTx i <> 0 -> nChainTx i' <> 0);
  gr_chain : chainActive s' = chainActive s;
  gr_shutdown : fRequestShutdown s' = fRequestShutdown s
}.

Lemma grown_trans a b c : grown a b -> grown b c -> grown a c.
Proof.
  intros [A1 P1 B1 C1 D1] [A2 P2 B2 C2 D2]. split; [by etransitivity|by etransitivity| |congruence|congruence].
  intros x i i' Hi Hi'. destruct (same_links_lookup _ _ x i A1 Hi) as (j & Hj & _).
  destruct (B1 x i j Hi Hj) as (? & ? & ?), (B2 x j i' Hj Hi') as (? & ? & ?). split_and!; [congruence|congruence|auto].
Qed.

Lemma receive_loop_spec B t : forall fuel s Q, Queue B s t Q -> (length Q + length (mapBlocksUnlinked s) <= fuel)%nat ->
  exists s', receive_loop addr fuel s Q = Ok s' /\ Queue B s' t [] /\ grown s s' /\
    (forall x, reached (mapBlocksUnlinked s) Q x -> exists i, index s' !! x = Some i /\ nChainTx i <> 0 /\ nChainTx i = chain_count (index s') i) /\
    (forall x, ~ reached (mapBlocksUnlinked s) Q x -> index s' !! x = index s !! x) /\
    (forall a b, (a, b) ∈ mapBlocksUnlinked s' <-> (a, b) ∈ mapBlocksUnlinked s /\ ~ reached (mapBlocksUnlinked s) Q a).
Proof.
  induction fuel as [|fuel IH]; intros s [|q Q] HQ Hf; try (cbn in Hf; lia).
  1, 2: assert (forall x, ~ reached (mapBlocksUnlinked s) [] x) as Hno by (by intros x (q & Hq%elem_of_nil & _)); exists s;
    split_and!; [done|done|split; try done; intros; by simplify_eq|by intros x ?%Hno|done|by naive_solver].
  cbn [receive_loop]. destruct (q_ready _ _ _ _ HQ q) as (qi & Hq & _ & Hpar); [apply list_elem_of_here|].
  rewrite Hq. cbn [deref mbind result_bind].
  assert (exists prevTx, match pprev qi with None => Ok 0 | Some r => ri ← deref (index s !! r); Ok (nChainTx ri) end = Ok prevTx) as [prevTx Hprev].
  { destruct (q_acts _ _ _ _ HQ) as (_ & [Hm _ _ _ _ _ _ _ _ _ _ _] & _). destruct (Hm q qi Hq) as (_ & Hl & _). unfold link_ok in Hl.
    destruct (pprev qi) as [r|]; [|by eexists]. destruct Hl as (ri & -> & _). by eexists. }
  rewrite Hprev. cbn [mbind result_bind]. pose proof (Queue_step B s t q Q qi prevTx HQ Hq Hprev) as HQ1. cbn zeta in HQ1.
  destruct (linked_entry_completes B s t q Q qi prevTx HQ Hq Hprev) as (Etx & Hbnd & Hco). pose proof (completes_links _ _ _ _ _ _ _ Hco) as Hl.
  pose proof (link_block_index s q qi prevTx Hq) as Ei. destruct (link_block_rest s q qi prevTx) as (Ec & _ & Eu & _ & Es).
  set (s1 := set_unlinked _ _) in *. assert (index s1 = <[q := linked_entry s q qi prevTx]> (index s)) as Ei1 by exact Ei.
  destruct (IH s1 _ HQ1) as (s' & E & HQ' & Hg & Hlk & Hsame & Hrest).
  { rewrite length_app. cbn [mapBlocksUnlinked set_unlinked s1]. rewrite Eu. destruct (waiting_split (mapBlocksUnlinked s) q) as [_ El].
    cbn in Hf. lia. }
  assert (q ∉ Q /\ q ∉ (mapBlocksUnlinked s).*2) as [HqQ Hqu].
  { pose proof (q_nodup _ _ _ _ HQ) as Hn. cbn in Hn. apply NoDup_cons in Hn as [Hn _]. rewrite elem_of_app in Hn. naive_solver. }
  pose proof (fun x => reached_step (mapBlocksUnlinked s) q Q x Hqu HqQ) as Hstep.
  assert (mapBlocksUnlinked s1 = filter (fun y => y.1 <> q) (mapBlocksUnlinked s)) as Eu1 by (cbn; by rewrite Eu). rewrite Eu1, ?Eu in *.
  assert (index s1 !! q = Some (linked_entry s q qi prevTx)) as Hq1 by (rewrite Ei1; apply lookup_insert_eq).
  assert (forall x i, index s1 !! x = Some i -> nChainTx i <> 0 -> index s' !! x = Some i) as Hfix.
  { intros x i Hx Hn. rewrite Hsame; [done|]. pose proof (linked_unreached _ _ _ _ x i HQ1 Hx Hn) as Hu. by rewrite Eu1 in Hu. }
  exists s'. split_and!; [done|done| | | |].
  - apply (grown_trans _ s1); [|done]. split; [by rewrite Ei1| | |done|done].
    { rewrite Ei1. intros x. destruct (decide (x = q)) as [->|]; [by rewrite lookup_insert_eq, Hq|by rewrite lookup_insert_ne]. }
    intros x i i' Hi. rewrite Ei1, lookup_insert_Some.
    intros [[<- <-]|[_ Hi']]; [|by simplify_eq]. rewrite Hq in Hi. injection Hi as <-. split_and!; [done|done|lia].
  - intros x [->|Hx]%Hstep; [|by apply Hlk]. exists (linked_entry s q qi prevTx). split; [apply Hfix; [done|lia]|]. split; [lia|]. rewrite Etx. unfold chain_count.
    cbn [nTx pprev linked_entry set_nSequenceId set_nChainTx]. rewrite Z.add_comm. f_equal. destruct (pprev qi) as [y|] eqn:Ey; [|by injection Hprev].
    destruct (index s !! y) as [yi|] eqn:Hy; [|done]. injection Hprev as <-. rewrite (Hfix y yi); [done| |by apply (Hpar y)].
    rewrite Ei1, lookup_insert_ne; [done|]. intros <-. rewrite Hq in Hy. injection Hy as <-. destruct (q_ready _ _ _ _ HQ q) as (qi' & Hq' & (H0 & _) & _); [apply list_elem_of_here|].
    rewrite Hq in Hq'. injection Hq' as <-. by apply (Hpar q qi).
  - intros x Hx. rewrite Hsame by (intros Hr; apply Hx, Hstep; by right). rewrite Ei1, lookup_insert_ne; [done|]. intros <-. apply Hx, Hstep. by left.
  - intros a b. rewrite Hrest, list_elem_of_filter, Hstep. cbn. naive_solver.
Qed.


(** ** The new block *)

Lemma received_spec n f pos i : 1 <= n -> exists i', received n f pos i = Ok i' /\ links i' = links i /\ nChainWork i' = nChainWork i /\
  failed i' = failed i /\ nTx i' = n /\ nHeight i' = nHeight i /\ pprev i' = pprev i /\ stored i'.
Proof.
  intros Hn. unfold received, RaiseValidity. change (cassert _) with (Ok tt). cbn [mbind result_bind].
  set (st := Z.lor (nStatus i) BLOCK_HAVE_DATA).
  assert (forall k, Z.testbit st k = Z.testbit (nStatus i) k || Z.testbit BLOCK_HAVE_DATA k) as Hst by (intros k; apply Z.lor_spec).
  assert (exists st' b, (if negb (Z.land st BLOCK_FAILED_MASK =? 0) then Ok (st, false)
            else if Z.land st BLOCK_VALID_MASK <? BLOCK_VALID_TRANSACTIONS
                 then Ok (Z.lor (Z.land st (u32 (Z.lnot BLOCK_VALID_MASK))) BLOCK_VALID_TRANSACTIONS, true) else Ok (st, false)) = Ok (st', b) /\
            (forall k, k = 3 \/ k = 5 \/ k = 6 -> Z.testbit st' k = Z.testbit st k) /\
            (Z.land st BLOCK_FAILED_MASK = 0 -> BLOCK_VALID_TRANSACTIONS <= Z.land st' BLOCK_VALID_MASK)) as (st' & b & E & Hb & Hlv).
  { destruct (Z.eqb_spec (Z.land st BLOCK_FAILED_MASK) 0); cbn [negb]; [|eexists _, _; split; [done|]; by split].
    case_test; [|eexists _, _; split; [done|]; split; [done|lia]]. eexists _, _. split; [done|]. split.
    - intros k Hk. rewrite Z.lor_spec, Z.land_spec. destruct Hk as [->|[->| ->]]; cbn; by rewrite andb_true_r, orb_false_r.
    - intros _. rewrite Z.land_lor_distr_l. change (Z.land BLOCK_VALID_TRANSACTIONS BLOCK_VALID_MASK) with 3.
      rewrite <- Z.land_assoc. change (Z.land (u32 (Z.lnot BLOCK_VALID_MASK)) BLOCK_VALID_MASK) with 0. by rewrite Z.land_0_r. }
  rewrite E. cbn [mbind result_bind]. eexists. split; [done|]. cbn [links pprev pskip nHeight nChainWork nTx].
  assert (forall x : CBlockIndex, nStatus x = st' -> failed x = failed i) as Hfl.
  { intros x Hx. rewrite !failed_bits, Hx, !Hb, !Hst by auto. cbn. by rewrite !orb_false_r. }
  split_and!; try done; [by apply Hfl|]. split_and!; try done.
  - rewrite have_data_bit. cbn [nStatus]. rewrite Hb, Hst by auto. cbn. by rewrite orb_true_r.
  - cbn [nStatus]. intros Hf. apply Hlv. rewrite (Hfl (mkIndex _ _ _ _ _ _ _ _ _ st' _ _ _ _ _ _ _) eq_refl) in Hf.
    assert (failed (set_nStatus st i) = false) as Hf' by (rewrite failed_bits in *; cbn [nStatus set_nStatus]; rewrite !Hst; cbn; by rewrite !orb_false_r).
    unfold failed in Hf'. cbn in Hf'. by apply negb_false_iff, Z.eqb_eq in Hf'.
Qed.

Lemma Queue_received B s t p i i' : Queue B s t [] -> index s !! p = Some i -> nTx i = 0 -> nChainTx i = 0 ->
  links i' = links i -> nChainWork i' = nChainWork i -> failed i' = failed i -> pprev i' = pprev i -> 1 <= nTx i' <= B -> stored i' ->
  let s1 := set_dirty p (upd_index (fun _ => i') p s) in
  Acts ops v0 addr s1 t t /\ levels_ok (index s1) /\ tx_bounds B (index s1) /\ waiting_ok (index s1) (mapBlocksUnlinked s) [p] /\
  NoDup (p :: (mapBlocksUnlinked s).*2).
Proof.
  intros [(Hc & HA & Hbi) Hlv Hb Hw _ Hn] Hp Htx H0 Hlk Hwk Hf Hpp Hn' Hst s1. pose proof Hst as (Hct & _ & _ & Hlev).
  assert (index s1 = <[p := i']> (index s)) as Ei by (cbn; by apply (alter_is_insert (index s) (fun _ => i') p i)).
  assert (completes (index s) (setBlockIndexCandidates s) (setBlockIndexCandidates s) t p i i') as Hco.
  { split; try done. split; [done|]. by left. }
  pose proof (completes_links _ _ _ _ _ _ _ Hco) as Hl. assert (nHeight i' = nHeight i) as Eh by (unfold links in Hlk; by injection Hlk).
  assert (p ∉ (mapBlocksUnlinked s).*2) as Hpu.
  { intros Hin. apply list_elem_of_fmap in Hin as ([a b] & -> & Hab). destruct (w_sound _ _ _ Hw a b Hab) as [(bi & Hbb & _ & _ & Hbt & _) _].
    cbn in *. simplify_eq. lia. }
  split; [|split; [|split; [|split]]]; rewrite ?Ei.
  - split_and!; rewrite ?Ei; unfold s1; cbn [chainActive set_dirty upd_index set_hdrs pcoinsTip setBlockIndexCandidates pindexBestInvalid].
    + rewrite Hc. by apply chain_of_links.
    + by apply (Act_completes _ (setBlockIndexCandidates s) _ _ _ p i).
    + intros x Hx. destruct (Hbi x Hx) as [xi Hxi]. destruct (same_links_lookup _ _ x xi Hl Hxi) as (? & ? & _). by eexists.
  - intros x j. rewrite lookup_insert_Some. intros [[<- <-]|[_ Hj]]; [done|by apply (Hlv x)].
  - intros x j. rewrite lookup_insert_Some. intros [[<- <-]|[_ Hj]]; [|by apply (Hb x)].
    destruct (Hb p i Hp) as (B1 & B2 & B3). rewrite Eh, Hct. split_and!; lia.
  - destruct Hw as [Hw Htr Hcp]. split.
    + intros a b Hab. destruct (Hw a b Hab) as [Hbb (ai & Ha & Ha0)].
      assert (b <> p) as Hbp by (intros ->; apply Hpu, list_elem_of_fmap; by exists (a, p)). rewrite (lookup_insert_ne _ p b) by done. split; [done|].
      destruct (decide (a = p)) as [->|Hap]; [exists i'; by rewrite lookup_insert_eq|exists ai; by rewrite lookup_insert_ne].
    + intros x xi. rewrite lookup_insert_Some. intros [[<- <-]|[_ Hx]] Hfx; [specialize (Hlev Hfx); unfold BLOCK_VALID_TREE, BLOCK_VALID_TRANSACTIONS in *; lia|by apply (Htr x)].
    + intros b bi a ai. rewrite !lookup_insert_Some. intros [[<- <-]|[Hbp Hb']]; [left; apply list_elem_of_here|]. intros Hsb Hpb Ha Hfa. right.
      destruct Ha as [[<- <-]|[_ Ha]]; [rewrite Hf in Hfa; by destruct (Hcp b bi p i Hb' Hsb Hpb Hp Hfa) as [?%elem_of_nil|[_ ?]]|].
      by destruct (Hcp b bi a ai Hb' Hsb Hpb Ha Hfa) as [?%elem_of_nil|?].
  - by apply NoDup_cons.
Qed.

(** The block just stored can be linked, waits, or stays behind a parent that has failed. *)
Lemma receive_later B s t p i r ri : Acts ops v0 addr s t t -> levels_ok (index s) -> tx_bounds B (index s) ->
  waiting_ok (index s) (mapBlocksUnlinked s) [p] -> NoDup (p :: (mapBlocksUnlinked s).*2) ->
  index s !! p = Some i -> stored i -> pprev i = Some r -> index s !! r = Some ri -> nChainTx ri = 0 ->
  Queue B (if failed ri then s else set_unlinked (mapBlocksUnlinked s ++ [(r, p)]) s) t [].
Proof.
  intros A1 A2 A3 [W1 W2 W3] [Hpu Hnd]%NoDup_cons Hp Hst Hpp Hr H0. destruct (failed ri) eqn:Ef; split; try done; cbn [mapBlocksUnlinked set_unlinked].
  - split; [done|done|]. intros b bi a ai Hb Hsb Hpb Ha Hfa. destruct (W3 b bi a ai Hb Hsb Hpb Ha Hfa) as [->%list_elem_of_singleton|?]; [congruence|by right].
  - by intros q Hq%elem_of_nil.
  - split; [|done|].
    + intros a b [Hab|Hab]%elem_of_app; [by apply W1|]. apply list_elem_of_singleton in Hab. injection Hab as -> ->. split; [by exists i|by exists ri].
    + intros b bi a ai Hb Hsb Hpb Ha Hfa. right. change (index s !! b = Some bi) in Hb. change (index s !! a = Some ai) in Ha. rewrite elem_of_app, list_elem_of_singleton.
      destruct (W3 b bi a ai Hb Hsb Hpb Ha Hfa) as [->%list_elem_of_singleton|[? ?]]; [simplify_eq; by split; [|right]|by split; [|left]].
  - by intros q Hq%elem_of_nil.
  - cbn. rewrite fmap_app. apply NoDup_app. split_and!; [done| |by apply NoDup_singleton]. intros x Hx ->%list_elem_of_singleton. done.
Qed.
End Receive.

(** What the arrival of a block leaves as it was: the shape of the tree, the
    failures, the active chain; a linked block stays linked. *)
Record kept {View} (s s' : ChainState View) : Prop := {
  k_links : same_links (index s) (index s');
  k_entry : forall x i i', index s !! x = Some i -> index s' !! x = Some i' ->
    failed i' = failed i /\ (nChainTx i <> 0 -> nChainTx i' <> 0);
  k_chain : chainActive s' = chainActive s;
  k_shutdown : fRequestShutdown s' = fRequestShutdown s
}.

Lemma grown_kept {View} (s s1 s' : ChainState View) p i i1 : index s !! p = Some i -> index s1 = <[p := i1]> (index s) ->
  failed i1 = failed i -> nChainTx i = 0 -> same_links (index s) (index s1) -> chainActive s1 = chainActive s ->
  fRequestShutdown s1 = fRequestShutdown s -> grown s1 s' -> kept s s'.
Proof.
  intros Hp Ei Hf H0 Hl Hc Hs Hg. split; [by rewrite Hl, (gr_links _ _ Hg)| |by rewrite (gr_chain _ _ Hg)|by rewrite (gr_shutdown _ _ Hg)].
  intros x j j' Hj Hj'. destruct (same_links_lookup _ _ x j Hl Hj) as (k & Hk & _).
  destruct (gr_entry _ _ Hg x k j' Hk Hj') as (Es & _ & Ht). unfold failed in *. rewrite Es. rewrite Ei, lookup_insert_Some in Hk.
  destruct Hk as [[<- <-]|[_ Hk]]; simplify_eq; [split; [done|lia]|done].
Qed.

Lemma kept_clean {View} (s s' : ChainState View) q : kept s s' -> clean (index s) q -> clean (index s') q.
Proof.
  intros Hk Hc k a ai Ha Hai. pose proof (k_links _ _ Hk) as Hl. rewrite <- Hl in Ha.
  destruct (index s !! a) as [j|] eqn:Hj; [|specialize (Hl a); rewrite Hj, Hai in Hl; done].
  rewrite (proj1 (k_entry _ _ Hk a j ai Hj Hai)). by apply (Hc k a).
Qed.

Lemma kept_eligible {View} (s s' : ChainState View) q : kept s s' -> eligible (index s) q -> eligible (index s') q.
Proof.
  intros Hk [(j & Hj & Hn) Hc]. split; [|by apply (kept_clean s)].
  destruct (same_links_lookup _ _ q j (k_links _ _ Hk) Hj) as (j' & Hj' & _). exists j'. split; [done|]. by apply (k_entry _ _ Hk q j j').
Qed.

Lemma ReceivedBlockTransactions_spec {View} (ops : ChainOps View) (v0 : View) (addr : ptr -> Z) `{!Inj eq eq addr}
    (B : Z) (s : ChainState View) (t p : ptr) (i : CBlockIndex) (n f pos : Z) :
  Queue ops v0 addr B s t [] -> index s !! p = Some i -> nTx i = 0 -> nChainTx i = 0 -> 1 <= n <= B ->
  exists s', ReceivedBlockTransactions addr s n p f pos = Ok s' /\ Queue ops v0 addr B s' t [] /\
    kept s s' /\ (exists i1, received n f pos i = Ok i1 /\ same_place (<[p := i1]> (index s)) (index s')) /\
    ((forall q qi, pprev i = Some q -> index s !! q = Some qi -> nChainTx qi <> 0) ->
      (forall x, reached (mapBlocksUnlinked s) [p] x -> exists i', index s' !! x = Some i' /\ nChainTx i' <> 0 /\ nChainTx i' = chain_count (index s') i') /\
      (forall x, ~ reached (mapBlocksUnlinked s) [p] x -> index s' !! x = index s !! x) /\
      (forall a b, (a, b) ∈ mapBlocksUnlinked s' <-> (a, b) ∈ mapBlocksUnlinked s /\ ~ reached (mapBlocksUnlinked s) [p] a)) /\
    (forall q qi, pprev i = Some q -> index s !! q = Some qi -> nChainTx qi = 0 ->
      (exists i', index s' !! p = Some i' /\ stored i') /\ (forall x, x <> p -> index s' !! x = index s !! x) /\
      mapBlocksUnlinked s' = mapBlocksUnlinked s ++ if failed qi then [] else [(q, p)]).
Proof.
  intros HQ Hp Htx H0 Hn. destruct (received_spec n f pos i ltac:(lia)) as (i1 & E1 & Hlk & Hwk & Hf & Htx1 & Hh & Hpp & Hst).
  destruct (Queue_received ops v0 addr B s t p i i1 HQ Hp Htx H0 Hlk Hwk Hf Hpp ltac:(lia) Hst) as (A1 & A2 & A3 & A4 & A5).
  unfold ReceivedBlockTransactions. rewrite Hp. cbn [deref mbind result_bind]. rewrite E1. cbn [mbind result_bind].
  set (s1 := set_dirty p (upd_index (fun _ => i1) p s)) in *. pose proof A1 as (_ & [Hm _ _ _ _ _ _ _ _ _ _ _] & _).
  assert (index s1 = <[p := i1]> (index s)) as Ei by (cbn; by apply (alter_is_insert (index s) (fun _ => i1) p i)).
  assert (index s1 !! p = Some i1) as Hp1 by (rewrite Ei; apply lookup_insert_eq).
  assert (forall x, x <> p -> index s1 !! x = index s !! x) as Hother by (intros x Hx; by rewrite Ei, lookup_insert_ne).
  assert (same_links (index s) (index s1)) as Hl1.
  { intros x. destruct (decide (x = p)) as [->|]; [rewrite Hp1, Hp; cbn; by rewrite Hlk|by rewrite Hother]. }
  assert (forall s', grown s1 s' -> kept s s' /\ exists i2, Ok i1 = Ok i2 /\ same_place (<[p := i2]> (index s)) (index s')) as Hgrown
    by (intros s' Hg; split; [by apply (grown_kept s s1 s' p i i1)|exists i1; split; [done|]; rewrite <- Ei; apply Hg]).
  assert ((forall q qi, pprev i = Some q -> index s1 !! q = Some qi -> nChainTx qi <> 0) ->
    exists s', receive_loop addr (S (length (mapBlocksUnlinked s1))) s1 [p] = Ok s' /\ Queue ops v0 addr B s' t [] /\ grown s1 s' /\
    (forall x, reached (mapBlocksUnlinked s) [p] x -> exists i', index s' !! x = Some i' /\ nChainTx i' <> 0 /\ nChainTx i' = chain_count (index s') i') /\
    (forall x, ~ reached (mapBlocksUnlinked s) [p] x -> index s' !! x = index s !! x) /\
    (forall a b, (a, b) ∈ mapBlocksUnlinked s' <-> (a, b) ∈ mapBlocksUnlinked s /\ ~ reached (mapBlocksUnlinked s) [p] a)) as Hnow.
  { intros Hpar. destruct (receive_loop_spec ops v0 addr B t (S (length (mapBlocksUnlinked s1))) s1 [p]) as (s' & ? & ? & ? & ? & Hs' & ?); [|cbn; lia|].
    - split; try done. intros x ->%list_elem_of_singleton. exists i1. by rewrite Hpp.
    - exists s'. split_and!; try done. intros x Hx. rewrite Hs' by done. apply Hother. intros ->. apply Hx. exists p. split; [apply list_elem_of_here|done]. }
  rewrite Hpp. destruct (pprev i) as [r|] eqn:Er; [|destruct (Hnow ltac:(done)) as (s' & ? & ? & Hg & ?); exists s'; by destruct (Hgrown s' Hg); split_and!].
  destruct (Hm p i1 Hp1) as (_ & Hl & _). unfold link_ok in Hl. rewrite Hpp in Hl. destruct Hl as (ri & Hri & Hhr).
  rewrite Hri. cbn [deref mbind result_bind]. pose proof Hri as Hri0. rewrite Hother in Hri0 by (intros ->; simplify_eq; lia).
  destruct (Z.eqb_spec (nChainTx ri) 0) as [Hz|Hz]; cbn [negb].
  - assert (IsValid (nStatus ri) BLOCK_VALID_TREE = Ok (negb (failed ri))) as ->.
    { unfold IsValid. change (cassert _) with (Ok tt). cbn [mbind result_bind]. pose proof (w_tree _ _ _ A4 r ri Hri) as Ht. unfold failed in *.
      destruct (negb (Z.land (nStatus ri) BLOCK_FAILED_MASK =? 0)); [done|]. by rewrite (proj2 (Z.leb_le _ _) (Ht eq_refl)). }
    cbn [mbind result_bind]. eexists. split; [done|]. pose proof (receive_later ops v0 addr B s1 t p i1 r ri A1 A2 A3 A4 A5 Hp1 Hst Hpp Hri Hz) as HQ'.
    destruct (failed ri) eqn:Ef; cbn [negb] in *.
    + destruct (Hgrown s1) as [? ?]; [split; try done; intros; by simplify_eq|]. split_and!; try done; [intros Hpar; by destruct (Hpar r ri eq_refl Hri0)|].
      intros q qi [= <-] Hq _. assert (qi = ri) as -> by congruence. rewrite Ef, app_nil_r. by split_and!; [exists i1|..].
    + destruct (Hgrown (set_unlinked (mapBlocksUnlinked s1 ++ [(r, p)]) s1)) as [? ?]; [split; try done; intros x j j' Hj Hj'; change (index s1 !! x = Some j') in Hj'; by simplify_eq|].
      split_and!; try done; [intros Hpar; by destruct (Hpar r ri eq_refl Hri0)|]. intros q qi [= <-] Hq _. assert (qi = ri) as -> by congruence. rewrite Ef. by split_and!; [exists i1|..].
  - destruct Hnow as (s' & ? & ? & Hg & ?); [intros q qi [= <-]; congruence|]. exists s'. destruct (Hgrown s' Hg). split_and!; try done; try naive_solver.
Qed.

(** ** Property *)

(** C13: When the transactions of a known block without data arrive (one or more, and
    too few for the counts to overflow), [ReceivedBlockTransactions] never fails.  If the
    block has no parent or its parent is linked, then the block and every block that was
    waiting for it, directly or through others, is linked, with the number of
    transactions of its chain; the entries of all other blocks are as before, and
    exactly what waited for another block still waits.  Otherwise the block is
    stored and joins the blocks that wait for their parent, unless the parent has
    failed, and nothing else changes.  In both cases no failure appears or disappears,
    no linked block is unlinked and the active chain stays.  Afterwards every block
    that is stored but not linked waits for its parent unless that has failed, what
    waits has a parent that is not linked, every eligible block that is not worse than
    the tip is a candidate, and the state is again one [ActivateBestChain] can start
    from. *)
Theorem block_received {View} (ops : ChainOps View) (v0 : View) (addr : ptr -> Z) `{!Inj eq eq addr}
    (B : Z) (s : ChainState View) (t p : ptr) (i : CBlockIndex) (n f pos : Z) :
  Queue ops v0 addr B s t [] -> index s !! p = Some i -> nTx i = 0 -> nChainTx i = 0 -> 1 <= n <= B ->
  exists s', ReceivedBlockTransactions addr s n p f pos = Ok s' /\ Queue ops v0 addr B s' t [] /\
    kept s s' /\ (exists i1, received n f pos i = Ok i1 /\ same_place (<[p := i1]> (index s)) (index s')) /\
    ((forall q qi, pprev i = Some q -> index s !! q = Some qi -> nChainTx qi <> 0) ->
      (forall x, reached (mapBlocksUnlinked s) [p] x -> exists i', index s' !! x = Some i' /\ nChainTx i' <> 0 /\ nChainTx i' = chain_count (index s') i') /\
      (forall x, ~ reached (mapBlocksUnlinked s) [p] x -> index s' !! x = index s !! x) /\
      (forall a b, (a, b) ∈ mapBlocksUnlinked s' <-> (a, b) ∈ mapBlocksUnlinked s /\ ~ reached (mapBlocksUnlinked s) [p] a)) /\
    (forall q qi, pprev i = Some q -> index s !! q = Some qi -> nChainTx qi = 0 ->
      (exists i', index s' !! p = Some i' /\ stored i') /\ (forall x, x <> p -> index s' !! x = index s !! x) /\
      mapBlocksUnlinked s' = mapBlocksUnlinked s ++ if failed qi then [] else [(q, p)]).
Proof. by apply ReceivedBlockTransactions_spec. Qed.

(** ** A block on the genesis block, for which another one waits *)

Definition pair_tree : BlockMap :=
  push_block (push_block (push_block ∅ [0] (toy_entry None 0 1 1 BLOCK_HAVE_DATA))
    [1] (mkIndex (Some [0]) None 1 0 0 0 (of_u64 W256 2) 0 0 BLOCK_VALID_TREE 4 uint256_null 1 0 0 0 1))
    [2] (mkIndex (Some [1]) None 2 0 0 0 (of_u64 W256 3) 2 0 (Z.lor BLOCK_HAVE_DATA BLOCK_VALID_TRANSACTIONS) 4 uint256_null 2 0 0 0 2).

Definition pair_state : ChainState (list ptr) :=
  mkChainState (mkHeaderState pair_tree (Some [2]) [] [] []) (chain_of pair_tree [0]) [[0]] {[ [0] ]} [([1], [2])] None 2 (-1) (of_u64 W256 0) false.

Lemma pair_tree_cases p i : pair_tree !! p = Some i -> p = [0] \/ p = [1] \/ p = [2].
Proof.
  intros H. assert (p ∈ dom pair_tree) as Hd by (apply elem_of_dom; by eexists).
  assert (dom pair_tree = {[ [0]; [1]; [2] ]} :> gset ptr) as E by (apply (bool_decide_eq_true_1 _); vm_compute; reflexivity).
  rewrite E in Hd. clear -Hd. set_solver.
Qed.

Lemma pair_act : Act (toy_ops [5] false) [] toy_addr pair_tree {[ [0] ]} [[0]] [0] [0].
Proof.
  assert (index_ok pair_tree) as Hm.
  { unfold pair_tree. repeat (apply push_block_ok; [|by vm_compute|by vm_compute| |done]);
      [apply index_ok_empty|done|..]; (eexists; split; [vm_compute; reflexivity|reflexivity]). }
  assert (forall p, clean pair_tree p) as Hcl by (intros p; apply all_clean; vm_compute; reflexivity).
  assert (eligible pair_tree [0]) as He by (split; [eexists; split; [vm_compute; reflexivity|done]|done]).
  assert (replays (toy_ops [5] false) [] pair_tree (Some [0]) [[0]]) as Hr by toy_replay.
  split; try done.
  - intros p i Hp. apply wf_test_ok. revert p i Hp. apply (heap_forallb (fun i => wf_test (nChainWork i))). vm_compute. reflexivity.
  - intros p i q qi Hp Hn Hpp. destruct (pair_tree_cases p i Hp) as [->|[->| ->]]; vm_compute in Hp; injection Hp as <-; done.
  - intros p i q j Hp Hq Ep Eq. destruct (pair_tree_cases p i Hp) as [->|[->| ->]], (pair_tree_cases q j Hq) as [->|[->| ->]];
      vm_compute in Hp, Hq; injection Hp as <-; injection Hq as <-; done.
  - intros p i Hp Hn. destruct (pair_tree_cases p i Hp) as [->|[->| ->]]; vm_compute in Hp; injection Hp as <-; done.
  - intros p ->%elem_of_singleton. apply He.
  - by eexists.
  - intros p [(i & Hp & Hn) _] _. apply elem_of_singleton. destruct (pair_tree_cases p i Hp) as [->|[->| ->]]; [done|..]; vm_compute in Hp; injection Hp as <-; done.
Qed.

Lemma pair_queue : Queue (toy_ops [5] false) [] toy_addr 10 pair_state [0] [].
Proof.
  split; try done.
  - split; [done|]. split; [exact pair_act|done].
  - intros p i Hp Hn _. destruct (pair_tree_cases p i Hp) as [->|[->| ->]]; vm_compute in Hp; injection Hp as <-; done.
  - intros p i Hp. destruct (pair_tree_cases p i Hp) as [->|[->| ->]]; vm_compute in Hp; injection Hp as <-; cbn; lia.
  - split.
    + intros a b [= -> ->]%list_elem_of_singleton. split; (eexists; split; [vm_compute; reflexivity|]); [split; [done|split; [done|split; [cbn; lia|split; done]]]|done].
    + intros p i Hp _. destruct (pair_tree_cases p i Hp) as [->|[->| ->]]; vm_compute in Hp; injection Hp as <-; by vm_compute.
    + intros b bi a ai Hb (H0 & H1 & _) Hpp Ha _. right.
      destruct (pair_tree_cases b bi Hb) as [->|[->| ->]]; vm_compute in Hb; injection Hb as <-; cbn in H0, H1, Hpp; [done|lia|].
      injection Hpp as <-. vm_compute in Ha. injection Ha as <-. split; [done|apply list_elem_of_here].
  - by intros q H%elem_of_nil.
  - apply NoDup_singleton.
Qed.

Lemma block_received_witness :
  exists s' i1 i2, ReceivedBlockTransactions toy_addr pair_state 3 [1] 0 0 = Ok s' /\ index s' !! [1] = Some i1 /\ nChainTx i1 <> 0 /\
    index s' !! [2] = Some i2 /\ nChainTx i2 <> 0 /\ Queue (toy_ops [5] false) [] toy_addr 10 s' [0] [].
Proof.
  destruct (block_received (toy_ops [5] false) [] toy_addr 10 pair_state [0] [1] _ 3 0 0 pair_queue
    ltac:(vm_compute; reflexivity) eq_refl eq_refl ltac:(lia)) as (s' & E & HQ & _ & _ & Hl & _).
  destruct Hl as (Hl & _).
  { intros q qi Hq Hqi. vm_compute in Hq. injection Hq as <-. vm_compute in Hqi. injection Hqi as <-. discriminate. }
  destruct (Hl [1]) as (i1 & Hi1 & Hn1 & _); [exists [1]; split; [apply list_elem_of_here|reflexivity]|].
  destruct (Hl [2]) as (i2 & Hi2 & Hn2 & _); [exists [1]; split; [apply list_elem_of_here|]; apply rtc_once, list_elem_of_here|].
  exists s', i1, i2. split; [exact E|]. split; [exact Hi1|]. split; [exact Hn1|]. split; [exact Hi2|]. split; [exact Hn2|exact HQ].
Defined.
