(* ===== verification/BlockFiles.v ===== *)
(** * Block files and pruning
    (CBlockFileInfo and CDiskBlockPos of src/src/chain.h; FindBlockPos,
    FindUndoPos, CalculateCurrentUsage, PruneOneBlockFile, FindFilesToPruneManual
    and FindFilesToPrune of validation.cpp)

    Blocks are appended to numbered files, and old files can be deleted.  The
    bookkeeping is a record, [FileState]; positions and sizes are 32-bit.  Whether
    there is space on the disk is an argument; reading and writing the files,
    pre-allocating and flushing them is left out. *)

From Stdlib Require Import ZArith Lia.
From stdpp Require Import base tactics numbers option list gmap.
From S2P Require Import Prelude ArithUint256 Compact Block Chain Pow Headers ChainState.

Record CBlockFileInfo := mkFileInfo {
  nBlocks : Z;
  nSize : Z;
  nUndoSize : Z;
  nHeightFirst : Z;
  nHeightLast : Z;
  nTimeFirst : Z;
  nTimeLast : Z
}.

(** [SetNull] *)
Definition null_info : CBlockFileInfo := mkFileInfo 0 0 0 0 0 0 0.

Definition AddBlock (nHeightIn nTimeIn : Z) (i : CBlockFileInfo) : CBlockFileInfo :=
  mkFileInfo (u32 (nBlocks i + 1)) (nSize i) (nUndoSize i)
    (if (nBlocks i =? 0) || (nHeightIn <? nHeightFirst i) then nHeightIn else nHeightFirst i)
    (if nHeightLast i <? nHeightIn then nHeightIn else nHeightLast i)
    (if (nBlocks i =? 0) || (nTimeIn <? nTimeFirst i) then nTimeIn else nTimeFirst i)
    (if nTimeLast i <? nTimeIn then nTimeIn else nTimeLast i).

Definition set_nSize (x : Z) (i : CBlockFileInfo) : CBlockFileInfo :=
  mkFileInfo (nBlocks i) x (nUndoSize i) (nHeightFirst i) (nHeightLast i) (nTimeFirst i) (nTimeLast i).
Definition set_nUndoSize (x : Z) (i : CBlockFileInfo) : CBlockFileInfo :=
  mkFileInfo (nBlocks i) (nSize i) x (nHeightFirst i) (nHeightLast i) (nTimeFirst i) (nTimeLast i).

Record CDiskBlockPos := mkPos { pos_nFile : Z; pos_nPos : Z }.

Definition MAX_BLOCKFILE_SIZE : Z := 0x8000000.
Definition BLOCKFILE_CHUNK_SIZE : Z := 0x1000000.
Definition UNDOFILE_CHUNK_SIZE : Z := 0x100000.
Definition MIN_BLOCKS_TO_KEEP : Z := 288.

(** The globals of the block files. *)
Record FileState := mkFiles {
  vinfoBlockFile : list CBlockFileInfo;
  nLastBlockFile : nat;
  setDirtyFileInfo : gset nat;
  fCheckForPruning : bool
}.

Definition set_vinfo (v : list CBlockFileInfo) (fs : FileState) : FileState :=
  mkFiles v (nLastBlockFile fs) (setDirtyFileInfo fs) (fCheckForPruning fs).
Definition dirty_file (n : nat) (fs : FileState) : FileState :=
  mkFiles (vinfoBlockFile fs) (nLastBlockFile fs) ({[n]} ∪ setDirtyFileInfo fs) (fCheckForPruning fs).
Definition set_check (fs : FileState) : FileState :=
  mkFiles (vinfoBlockFile fs) (nLastBlockFile fs) (setDirtyFileInfo fs) true.

(** [if (vinfoBlockFile.size() <= nFile) vinfoBlockFile.resize(nFile + 1)] *)
Definition grow (v : list CBlockFileInfo) (nFile : nat) : list CBlockFileInfo :=
  v ++ replicate (S nFile - length v) null_info.

(** [while (vinfoBlockFile[nFile].nSize + nAddSize >= MAX_BLOCKFILE_SIZE)] *)
Fixpoint next_file (fuel : nat) (v : list CBlockFileInfo) (nFile : nat) (nAddSize : Z) : result (nat * list CBlockFileInfo) :=
  info ← deref (v !! nFile);
  if u32 (nSize info + nAddSize) <? MAX_BLOCKFILE_SIZE then Ok (nFile, v)
  else match fuel with
       | O => Err OutOfFuel
       | S fuel => next_file fuel (grow v (S nFile)) (S nFile) nAddSize
       end.

(** The pre-allocation: [None] is the end of the disk space. *)
Definition allocate (chunk : Z) (fPruneMode : bool) (space : Z -> bool) (nPos nNewSize : Z) (fs : FileState) :
    option FileState * FileState :=
  let nOldChunks := u32 (nPos + chunk - 1) / chunk in
  let nNewChunks := u32 (nNewSize + chunk - 1) / chunk in
  if nOldChunks <? nNewChunks then
    let fs := if fPruneMode then set_check fs else fs in
    if space (u32 (nNewChunks * chunk - nPos)) then (Some fs, fs) else (None, fs)
  else (Some fs, fs).

(** [FindBlockPos]: [None] is [state.Error("out of disk space")]. *)
Definition FindBlockPos (fPruneMode : bool) (space : Z -> bool) (fs : FileState) (pos : CDiskBlockPos)
    (nAddSize nHeight nTime : Z) (fKnown : bool) : result (option CDiskBlockPos * FileState) :=
  let nFile := if fKnown then Z.to_nat (pos_nFile pos) else nLastBlockFile fs in
  let v := grow (vinfoBlockFile fs) nFile in
  '(nFile, v) ← (if fKnown then Ok (nFile, v) else next_file (length v) v nFile nAddSize);
  info ← deref (v !! nFile);
  let pos := if fKnown then pos else mkPos (Z.of_nat nFile) (nSize info) in
  let info := AddBlock nHeight nTime info in
  let size := if fKnown then Z.max (u32 (pos_nPos pos + nAddSize)) (nSize info) else u32 (nSize info + nAddSize) in
  let fs := mkFiles (<[nFile := set_nSize size info]> v) nFile (setDirtyFileInfo fs) (fCheckForPruning fs) in
  if fKnown then Ok (Some pos, dirty_file nFile fs)
  else match allocate BLOCKFILE_CHUNK_SIZE fPruneMode space (pos_nPos pos) size fs with
       | (Some fs, _) => Ok (Some pos, dirty_file nFile fs)
       | (None, fs) => Ok (None, fs)
       end.

Definition FindUndoPos (fPruneMode : bool) (space : Z -> bool) (fs : FileState) (nFile : nat) (nAddSize : Z) :
    result (option CDiskBlockPos * FileState) :=
  info ← deref (vinfoBlockFile fs !! nFile);
  let pos := mkPos (Z.of_nat nFile) (nUndoSize info) in
  let nNewSize := u32 (nUndoSize info + nAddSize) in
  let fs := dirty_file nFile (set_vinfo (<[nFile := set_nUndoSize nNewSize info]> (vinfoBlockFile fs)) fs) in
  match allocate UNDOFILE_CHUNK_SIZE fPruneMode space (pos_nPos pos) nNewSize fs with
  | (Some fs, _) => Ok (Some pos, fs)
  | (None, fs) => Ok (None, fs)
  end.

(** ** Pruning *)

Definition CalculateCurrentUsage (fs : FileState) : Z :=
  foldl (fun n info => u64 (n + u32 (nSize info + nUndoSize info))) 0 (vinfoBlockFile fs).

(** What [PruneOneBlockFile] does to an entry of the file. *)
Definition prune_entry (i : CBlockIndex) : CBlockIndex :=
  mkIndex (pprev i) (pskip i) (nHeight i) 0 0 0 (nChainWork i) (nTx i) (nChainTx i)
    (Z.land (Z.land (nStatus i) (u32 (Z.lnot BLOCK_HAVE_DATA))) (u32 (Z.lnot BLOCK_HAVE_UNDO))) (nVersion i) (hashMerkleRoot i)
    (nTime i) (nBits i) (nNonce i) (nSequenceId i) (nTimeMax i).

Section Prune.
Context {View : Type}.
Implicit Types s : ChainState View.

Definition in_file (n : nat) (i : CBlockIndex) : bool := nFile i =? Z.of_nat n.

(** Is [(a, b)] the pair of a block of the file in [mapBlocksUnlinked]? *)
Definition pruned_pair (m : BlockMap) (n : nat) (x : ptr * ptr) : bool :=
  match m !! x.2 with Some i => in_file n i && bool_decide (pprev i = Some x.1) | None => false end.

Definition PruneOneBlockFile s (fs : FileState) (fileNumber : nat) : result (ChainState View * FileState) :=
  let m := index s in
  let files := filter (fun x : ptr * CBlockIndex => in_file fileNumber x.2 = true) (map_to_list m) in
  let h := mkHeaderState ((fun i => if in_file fileNumber i then prune_entry i else i) <$> m) (pindexBestHeader (hdrs s))
             (files.*1 ++ setDirtyBlockIndex (hdrs s)) (mapPrevBlockIndex (hdrs s)) (g_failed_blocks (hdrs s)) in
  let s := set_unlinked (filter (fun x => pruned_pair m fileNumber x = false) (mapBlocksUnlinked s)) (set_hdrs h s) in
  _ ← deref (vinfoBlockFile fs !! fileNumber);
  Ok (s, dirty_file fileNumber (set_vinfo (<[fileNumber := null_info]> (vinfoBlockFile fs)) fs)).

(** The loop of [FindFilesToPruneManual] over the files below the last one. *)
Fixpoint manual_loop (files : list nat) s (fs : FileState) (nLastBlockWeCanPrune : Z) (setFilesToPrune : gset nat) :
    result (gset nat * ChainState View * FileState) :=
  match files with
  | [] => Ok (setFilesToPrune, s, fs)
  | n :: files =>
      info ← deref (vinfoBlockFile fs !! n);
      if (nSize info =? 0) || (nLastBlockWeCanPrune <? nHeightLast info)
      then manual_loop files s fs nLastBlockWeCanPrune setFilesToPrune
      else
        '(s, fs) ← PruneOneBlockFile s fs n;
        manual_loop files s fs nLastBlockWeCanPrune ({[n]} ∪ setFilesToPrune)
  end.

Definition FindFilesToPruneManual s (fs : FileState) (fPruneMode : bool) (nManualPruneHeight : Z) :
    result (gset nat * ChainState View * FileState) :=
  _ ← cassert (fPruneMode && (0 <? nManualPruneHeight));
  match Tip (chainActive s) with
  | None => Ok (∅, s, fs)
  | Some tip =>
      ti ← deref (index s !! tip);
      manual_loop (seq 0 (nLastBlockFile fs)) s fs (Z.min (u32 nManualPruneHeight) (u32 (nHeight ti - MIN_BLOCKS_TO_KEEP))) ∅
  end.

(** The loop of [FindFilesToPrune]. *)
Fixpoint prune_loop (files : list nat) s (fs : FileState) (nLastBlockWeCanPrune nCurrentUsage nBuffer nPruneTarget : Z)
    (setFilesToPrune : gset nat) : result (gset nat * ChainState View * FileState) :=
  match files with
  | [] => Ok (setFilesToPrune, s, fs)
  | n :: files =>
      info ← deref (vinfoBlockFile fs !! n);
      let nBytesToPrune := u32 (nSize info + nUndoSize info) in
      if nSize info =? 0 then prune_loop files s fs nLastBlockWeCanPrune nCurrentUsage nBuffer nPruneTarget setFilesToPrune
      else if u64 (nCurrentUsage + nBuffer) <? nPruneTarget then Ok (setFilesToPrune, s, fs)
      else if nLastBlockWeCanPrune <? nHeightLast info
      then prune_loop files s fs nLastBlockWeCanPrune nCurrentUsage nBuffer nPruneTarget setFilesToPrune
      else
        '(s, fs) ← PruneOneBlockFile s fs n;
        prune_loop files s fs nLastBlockWeCanPrune (u64 (nCurrentUsage - nBytesToPrune)) nBuffer nPruneTarget
          ({[n]} ∪ setFilesToPrune)
  end.

Definition FindFilesToPrune s (fs : FileState) (nPruneTarget nPruneAfterHeight : Z) :
    result (gset nat * ChainState View * FileState) :=
  match Tip (chainActive s) with
  | None => Ok (∅, s, fs)
  | Some tip =>
      ti ← deref (index s !! tip);
      if (nPruneTarget =? 0) || (u64 (nHeight ti) <=? nPruneAfterHeight) then Ok (∅, s, fs)
      else
        let nBuffer := BLOCKFILE_CHUNK_SIZE + UNDOFILE_CHUNK_SIZE in
        let nCurrentUsage := CalculateCurrentUsage fs in
        if u64 (nCurrentUsage + nBuffer) <? nPruneTarget then Ok (∅, s, fs)
        else prune_loop (seq 0 (nLastBlockFile fs)) s fs (u32 (nHeight ti - MIN_BLOCKS_TO_KEEP)) nCurrentUsage nBuffer
               nPruneTarget ∅
  end.
End Prune.

(** ** What the files hold *)

(** [size p] is the length of the block [p]; eight bytes precede it in the file. *)
Definition info_ok (info : CBlockFileInfo) : Prop :=
  0 <= nSize info < MAX_BLOCKFILE_SIZE /\ 0 <= nHeightLast info /\ 0 <= nUndoSize info < 2 ^ 31.

(** A block whose data is there lies within its file, whose greatest height is at
    least the height of the block. *)
Definition placed (size : ptr -> Z) (fs : FileState) (p : ptr) (i : CBlockIndex) : Prop :=
  exists info, 0 <= nFile i <= Z.of_nat (nLastBlockFile fs) /\ vinfoBlockFile fs !! Z.to_nat (nFile i) = Some info /\
    8 <= nDataPos i /\ nDataPos i + size p <= nSize info /\ nHeight i <= nHeightLast info.

Definition apart (size : ptr -> Z) (p q : ptr) (i j : CBlockIndex) : Prop :=
  nFile i = nFile j -> nDataPos i + size p <= nDataPos j - 8 \/ nDataPos j + size q <= nDataPos i - 8.

Record files_ok (size : ptr -> Z) (m : BlockMap) (fs : FileState) : Prop := {
  f_infos : Forall info_ok (vinfoBlockFile fs);
  f_last : (nLastBlockFile fs < length (vinfoBlockFile fs))%nat;
  f_placed : forall p i, m !! p = Some i -> have_data i = true -> placed size fs p i;
  f_apart : forall p q i j, m !! p = Some i -> m !! q = Some j -> p <> q -> have_data i = true -> have_data j = true ->
    apart size p q i j
}.

(** The blocks of a file. *)
Definition blocks_in (k : nat) (m : BlockMap) : BlockMap :=
  filter (fun x : ptr * CBlockIndex => have_data x.2 = true /\ nFile x.2 = Z.of_nat k) m.

(** [lo] and [hi] are the least and the greatest value of [f] in [m]. *)
Definition range_of (f : CBlockIndex -> Z) (m : BlockMap) (lo hi : Z) : Prop :=
  (forall p i, m !! p = Some i -> lo <= f i <= hi) /\
  (m <> ∅ -> (exists p i, m !! p = Some i /\ f i = lo) /\ exists p i, m !! p = Some i /\ f i = hi).

(** What is known of a file is what its blocks are: their number, and the least and
    greatest of their heights and times. *)
Definition info_exact (m : BlockMap) (info : CBlockFileInfo) : Prop :=
  nBlocks info = Z.of_nat (size m) /\ 8 * nBlocks info <= nSize info /\ range_of nHeight m (nHeightFirst info) (nHeightLast info) /\
  range_of nTime m (nTimeFirst info) (nTimeLast info) /\ (m = ∅ -> nHeightLast info = 0 /\ nTimeLast info = 0).

Definition files_exact (m : BlockMap) (fs : FileState) : Prop :=
  forall k info, vinfoBlockFile fs !! k = Some info -> info_exact (blocks_in k m) info.

(** ** Lemmas: finding a place *)

Lemma null_info_ok : info_ok null_info.
Proof. done. Qed.

Lemma grow_lookup v n k : grow v n !! k = (if decide (k < length v)%nat then v !! k else if decide (k <= n)%nat then Some null_info else None).
Proof.
  unfold grow. case_decide as Hk; [by rewrite lookup_app_l|]. rewrite lookup_app_r by lia.
  case_decide; [rewrite lookup_replicate_2 by lia; done|apply lookup_replicate_None; lia].
Qed.

Lemma grow_infos v n : Forall info_ok v -> Forall info_ok (grow v n) /\ (n < length (grow v n))%nat /\
  forall k info, v !! k = Some info -> grow v n !! k = Some info.
Proof.
  intros Hv. split_and!.
  - apply Forall_app. split; [done|]. apply Forall_replicate. apply null_info_ok.
  - unfold grow. rewrite length_app, length_replicate. lia.
  - intros k info Hk. rewrite grow_lookup, decide_True; [done|]. by eapply lookup_lt_Some.
Qed.

(** The search ends: at the latest in a file that does not exist yet. *)
Lemma next_file_spec fuel v n a : Forall info_ok v -> (n < length v)%nat -> (length v - n <= fuel)%nat ->
  0 < a -> a < MAX_BLOCKFILE_SIZE ->
  exists n' v' info, next_file fuel v n a = Ok (n', v') /\ (n <= n')%nat /\ Forall info_ok v' /\ v' !! n' = Some info /\
    nSize info + a < MAX_BLOCKFILE_SIZE /\ (forall k x, v !! k = Some x -> v' !! k = Some x) /\
    (forall k x, v' !! k = Some x -> v !! k = Some x \/ (v !! k = None /\ x = null_info)).
Proof.
  intros Hv Hn Hf Ha Hm.
  assert (forall v n, Forall info_ok v -> (n < length v)%nat -> exists info, v !! n = Some info /\ info_ok info /\
    u32 (nSize info + a) = nSize info + a) as Hinfo.
  { intros v1 n1 Hv1 Hn1. destruct (lookup_lt_is_Some_2 v1 n1 Hn1) as [info Hi]. exists info.
    assert (info_ok info) as Hok by (rewrite Forall_lookup in Hv1; by eapply Hv1). split_and!; [done..|].
    apply u32_small. destruct Hok as (? & _). unfold MAX_BLOCKFILE_SIZE in *. lia. }
  revert v n Hv Hn Hf. induction fuel as [|fuel IH]; intros v n Hv Hn Hf; [lia|]. cbn [next_file].
  destruct (Hinfo v n Hv Hn) as (info & Hi & Hok & Hu). rewrite Hi. cbn [deref mbind result_bind]. rewrite Hu.
  destruct (Z.ltb_spec (nSize info + a) MAX_BLOCKFILE_SIZE) as [Hlt|Hge].
  { exists n, v, info. split_and!; try done; auto. }
  destruct (grow_infos v (S n) Hv) as (Hg & Hgl & Hgk).
  assert (forall k x, grow v (S n) !! k = Some x -> v !! k = Some x \/ (v !! k = None /\ x = null_info)) as Hback.
  { intros k x. rewrite grow_lookup. case_decide; [by left|]. case_decide; [|done]. intros [= <-]. right. split; [|done].
    apply lookup_ge_None. lia. }
  destruct (decide (S n < length v)%nat) as [Hs|Hs].
  - destruct (IH (grow v (S n)) (S n)) as (n' & v' & info' & E & Hle & Hv' & Hi' & Hsz & Hk1 & Hk2); [done|done|..].
    { unfold grow. rewrite length_app, length_replicate. lia. }
    exists n', v', info'. split_and!; try done; [lia|intros k x Hk; by apply Hk1, Hgk|].
    intros k x [Hk|[Hk ->]]%Hk2; [by apply Hback|]. right. split; [|done]. rewrite grow_lookup in Hk.
    apply lookup_ge_None. case_decide; [|lia]. by apply lookup_ge_None in Hk.
  - destruct (Hinfo (grow v (S n)) (S n) Hg Hgl) as (i2 & Hi2 & Hok2 & Hu2).
    destruct (Hback _ _ Hi2) as [Hx|[_ ->]]; [apply lookup_lt_Some in Hx; lia|].
    assert (next_file fuel (grow v (S n)) (S n) a = Ok (S n, grow v (S n))) as ->.
    { destruct fuel; cbn [next_file]; rewrite Hi2; cbn [deref mbind result_bind]; rewrite Hu2; cbn [nSize null_info];
        by rewrite (proj2 (Z.ltb_lt _ _)) by lia. }
    exists (S n), (grow v (S n)), null_info. split_and!; try done; lia.
Qed.

Lemma allocate_spec chunk pm space nPos nNew fs r fs' : allocate chunk pm space nPos nNew fs = (r, fs') ->
  vinfoBlockFile fs' = vinfoBlockFile fs /\ nLastBlockFile fs' = nLastBlockFile fs /\ (r = Some fs' \/ r = None) /\
  ((forall n, space n = true) -> r <> None).
Proof.
  unfold allocate. cbn zeta. destruct (_ <? _); [|intros [= <- <-]; auto].
  destruct (space _) eqn:Es; intros [= <- <-]; (split_and!; [by destruct pm..|auto|]); [done|].
  intros Hs. by rewrite Hs in Es.
Qed.

(** The file that got the block: [old] is what was known of it before. *)
Lemma FindBlockPos_spec pm space fs pos a h t : Forall info_ok (vinfoBlockFile fs) -> 0 < a < MAX_BLOCKFILE_SIZE -> 0 <= h ->
  exists r fs' old new, FindBlockPos pm space fs pos a h t false = Ok (r, fs') /\
    Forall info_ok (vinfoBlockFile fs') /\ (nLastBlockFile fs <= nLastBlockFile fs')%nat /\
    (vinfoBlockFile fs !! nLastBlockFile fs' = Some old \/ vinfoBlockFile fs !! nLastBlockFile fs' = None /\ old = null_info) /\
    vinfoBlockFile fs' !! nLastBlockFile fs' = Some new /\ new = set_nSize (nSize old + a) (AddBlock h t old) /\
    nHeightLast new = Z.max (nHeightLast old) h /\ 0 <= nSize old /\ nSize new < MAX_BLOCKFILE_SIZE /\
    (forall k x, k <> nLastBlockFile fs' -> vinfoBlockFile fs !! k = Some x -> vinfoBlockFile fs' !! k = Some x) /\
    (forall k x, k <> nLastBlockFile fs' -> vinfoBlockFile fs' !! k = Some x ->
      vinfoBlockFile fs !! k = Some x \/ vinfoBlockFile fs !! k = None /\ x = null_info) /\
    (r = Some (mkPos (Z.of_nat (nLastBlockFile fs')) (nSize old)) \/ r = None) /\ ((forall n, space n = true) -> r <> None).
Proof.
  intros Hv Ha Hh. unfold FindBlockPos. cbn zeta.
  destruct (grow_infos (vinfoBlockFile fs) (nLastBlockFile fs) Hv) as (Hg & Hgl & Hgk).
  destruct (next_file_spec (length (grow (vinfoBlockFile fs) (nLastBlockFile fs))) _ (nLastBlockFile fs) a Hg Hgl)
    as (n & v & old & E & Hle & Hv' & Hi & Hsz & Hk1 & Hk2); [lia..|]. rewrite E. cbn [mbind result_bind]. rewrite Hi.
  cbn [deref mbind result_bind]. pose proof (proj1 (Forall_lookup _ _) Hv' n old Hi) as Hok. pose proof Hok as ((H0 & _) & _).
  assert (u32 (nSize old + a) = nSize old + a) as Eu by (apply u32_small; unfold MAX_BLOCKFILE_SIZE in *; lia).
  change (nSize (AddBlock h t old)) with (nSize old). rewrite Eu.
  assert (forall k x, v !! k = Some x -> vinfoBlockFile fs !! k = Some x \/ vinfoBlockFile fs !! k = None /\ x = null_info) as Hback.
  { intros k x Hx. destruct (vinfoBlockFile fs !! k) as [y|] eqn:Ey; [left; apply Hgk, Hk1 in Ey; congruence|right; split; [done|]].
    destruct (Hk2 k x Hx) as [Hk|[_ ->]]; [|done]. rewrite grow_lookup in Hk. apply lookup_ge_None in Ey. repeat case_decide; [lia|congruence|done]. }
  set (new := set_nSize (nSize old + a) (AddBlock h t old)).
  assert (nHeightLast new = Z.max (nHeightLast old) h) as Ehl by (cbn; destruct (Z.ltb_spec (nHeightLast old) h); lia).
  assert (info_ok new) as Hnew.
  { destruct Hok as (_ & Hok1 & Hok2). split_and!; try (rewrite Ehl); cbn [new nSize set_nSize nUndoSize AddBlock]; lia. }
  destruct (allocate _ _ _ _ _ _) as [r fs'] eqn:Eal. apply allocate_spec in Eal as (Ev & El & Hr & Hsp). cbn [vinfoBlockFile nLastBlockFile] in *.
  assert (exists r' fs1, (match r with Some fs => Ok (Some (mkPos (Z.of_nat n) (nSize old)), dirty_file n fs) | None => Ok (None, fs') end)
    = Ok (r', fs1) /\ vinfoBlockFile fs1 = <[n := new]> v /\ nLastBlockFile fs1 = n /\
    (r' = Some (mkPos (Z.of_nat n) (nSize old)) \/ r' = None) /\ ((forall n, space n = true) -> r' <> None)) as (r' & fs1 & E1 & Ev1 & El1 & Hr1 & Hs1).
  { destruct Hr as [->| ->]; eexists _, _; (split; [done|]); split_and!; try done; auto. intros Hs. by destruct (Hsp Hs). }
  exists r', fs1, old, new. cbn [pos_nPos]. rewrite Ev1, El1. split_and!; try done.
  - by apply Forall_insert.
  - by apply Hback.
  - apply list_lookup_insert_eq. by eapply lookup_lt_Some.
  - intros k x Hne Hx. rewrite list_lookup_insert_ne by done. by apply Hk1, Hgk.
  - intros k x Hne Hx. rewrite list_lookup_insert_ne in Hx by done. by apply Hback.
Qed.

(** Files only get longer. *)
Definition files_grow (fs fs' : FileState) : Prop :=
  (nLastBlockFile fs <= nLastBlockFile fs')%nat /\ forall k x, vinfoBlockFile fs !! k = Some x ->
    exists y, vinfoBlockFile fs' !! k = Some y /\ nSize x <= nSize y /\ nHeightLast x <= nHeightLast y.

Lemma files_ok_grow size m fs fs' : files_ok size m fs -> files_grow fs fs' -> Forall info_ok (vinfoBlockFile fs') ->
  (nLastBlockFile fs' < length (vinfoBlockFile fs'))%nat -> files_ok size m fs'.
Proof.
  intros [_ _ Hp Ha] [Hl Hg] Hi Hl'. split; [done..| |done]. intros p i Hpi Hd. destruct (Hp p i Hpi Hd) as (info & Hf & Hx & H8 & Hs & Hh).
  destruct (Hg _ _ Hx) as (y & Hy & ? & ?). exists y. split_and!; try done; lia.
Qed.

(** Every file is known exactly, also those that do not exist yet. *)
Lemma files_exact_all size m fs : files_ok size m fs -> files_exact m fs ->
  forall k x, vinfoBlockFile fs !! k = Some x \/ vinfoBlockFile fs !! k = None /\ x = null_info -> info_exact (blocks_in k m) x.
Proof.
  intros Hok Hex k x [Hx|[Hx ->]]; [by apply Hex|]. assert (blocks_in k m = ∅) as ->.
  { apply map_empty. intros p. apply map_lookup_filter_None. right. intros i Hi [Hd Hf]. cbn in *.
    destruct (f_placed _ _ _ Hok p i Hi Hd) as (info & Hr & _). apply lookup_ge_None in Hx. pose proof (f_last _ _ _ Hok). lia. }
  split_and!; [done..|by split|by split|done].
Qed.

(** The last file is about to get one more block. *)
Definition adds_block (m : BlockMap) (fs : FileState) (h t : Z) : Prop :=
  (exists old sz, vinfoBlockFile fs !! nLastBlockFile fs = Some (set_nSize sz (AddBlock h t old)) /\
     info_exact (blocks_in (nLastBlockFile fs) m) old /\ 8 * nBlocks old + 8 <= sz /\ sz < MAX_BLOCKFILE_SIZE) /\
  forall k x, k <> nLastBlockFile fs -> vinfoBlockFile fs !! k = Some x -> info_exact (blocks_in k m) x.

Lemma FindBlockPos_grow size m pm space fs pos a h t : files_ok size m fs -> 0 < a < MAX_BLOCKFILE_SIZE -> 0 <= h ->
  exists r fs' new, FindBlockPos pm space fs pos a h t false = Ok (r, fs') /\ files_ok size m fs' /\
    vinfoBlockFile fs' !! nLastBlockFile fs' = Some new /\ h <= nHeightLast new /\ a <= nSize new /\
    (forall p i, m !! p = Some i -> have_data i = true -> nFile i = Z.of_nat (nLastBlockFile fs') ->
      nDataPos i + size p <= nSize new - a) /\
    (r = Some (mkPos (Z.of_nat (nLastBlockFile fs')) (nSize new - a)) \/ r = None) /\ ((forall n, space n = true) -> r <> None) /\
    (8 <= a -> files_exact m fs -> adds_block m fs' h t).
Proof.
  intros Hok Ha Hh. destruct (FindBlockPos_spec pm space fs pos a h t (f_infos _ _ _ Hok) Ha Hh)
    as (r & fs' & old & new & E & Hv & Hl & Hold & Hnew & Enew & Hhl & H0 & Hmax & Hk & Hk' & Hr & Hsp).
  assert (nSize new = nSize old + a) as Hs by by rewrite Enew.
  exists r, fs', new. split; [done|]. split; [|split_and!; try done; try lia].
  - apply (files_ok_grow size m fs); [done| |done|by eapply lookup_lt_Some]. split; [done|]. intros k x Hx.
    destruct (decide (k = nLastBlockFile fs')) as [->|Hne]; [|exists x; split_and!; [by apply Hk|lia..]].
    destruct Hold as [Ho|[Ho _]]; [|congruence]. rewrite Ho in Hx. injection Hx as ->. exists new. split_and!; [done|lia..].
  - intros p i Hp Hd Hf. destruct (f_placed _ _ _ Hok p i Hp Hd) as (info & Hfi & Hx & H8 & Hsz & _). rewrite Hf, Nat2Z.id in Hx.
    destruct Hold as [Ho|[Ho _]]; [|congruence]. rewrite Ho in Hx. injection Hx as ->. lia.
  - rewrite Hs. replace (nSize old + a - a) with (nSize old) by lia. done.
  - intros Ha8 Hex. pose proof (files_exact_all size m fs Hok Hex) as Hall. split; [|intros k x Hne Hx; by apply Hall, Hk'].
    exists old, (nSize old + a). rewrite Hnew, Enew. split_and!; [done|by apply Hall| |].
    + pose proof (Hall (nLastBlockFile fs') old Hold) as (? & ? & _). cbn. lia.
    + rewrite Hs in Hmax. lia.
Qed.

Lemma received_fields n f pos i i' : received n f pos i = Ok i' ->
  nFile i' = f /\ nDataPos i' = pos /\ nHeight i' = nHeight i /\ nTime i' = nTime i /\ have_data i' = true.
Proof.
  unfold received. intros ([st b] & E & [= <-])%result_bind_Ok. split_and!; try done. unfold have_data. cbn [nStatus].
  assert (st = Z.lor (nStatus i) BLOCK_HAVE_DATA \/
    st = Z.lor (Z.land (Z.lor (nStatus i) BLOCK_HAVE_DATA) (u32 (Z.lnot BLOCK_VALID_MASK))) BLOCK_VALID_TRANSACTIONS) as Hst.
  { unfold RaiseValidity in E. apply result_bind_Ok in E as (_ & _ & E). repeat case_match; injection E as <- <-; auto. }
  apply negb_true_iff, Z.eqb_neq. intros Hz. apply (f_equal (fun z => Z.testbit z 3)) in Hz. revert Hz.
  destruct Hst as [->| ->]; rewrite ?Z.land_spec, ?Z.lor_spec, ?Z.land_spec, ?Z.lor_spec; cbn; by rewrite ?orb_true_r.
Qed.

(** A value joins the range of the others. *)
Lemma range_insert f m lo hi p i (n : bool) : range_of f m lo hi -> m !! p = None -> (n = true <-> m = ∅) -> (m = ∅ -> hi <= f i) ->
  range_of f (<[p := i]> m) (if n || (f i <? lo) then f i else lo) (if hi <? f i then f i else hi).
Proof.
  intros [Hr Ha] Hp Hn Hhi. split.
  - intros q j. rewrite lookup_insert_Some. intros [[_ <-]|[_ Hq]]; [destruct n; cbn; repeat case_match; lia|].
    destruct n; [by rewrite (proj1 Hn eq_refl), lookup_empty in Hq|]. specialize (Hr q j Hq). cbn. repeat case_match; lia.
  - intros _. assert (exists q j, <[p := i]> m !! q = Some j /\ f j = f i) as Hnew by (exists p, i; by rewrite lookup_insert_eq).
    assert (m <> ∅ -> forall z, (exists q j, m !! q = Some j /\ f j = z) -> exists q j, <[p := i]> m !! q = Some j /\ f j = z) as Hold.
    { intros _ z (q & j & Hq & Hj). exists q, j. rewrite lookup_insert_ne by congruence. done. }
    destruct n; cbn.
    + split; [done|]. specialize (Hhi (proj1 Hn eq_refl)). destruct (Z.ltb_spec hi (f i)); [done|]. by replace hi with (f i) by lia.
    + assert (m <> ∅) as Hne by (intros E%Hn; done). destruct (Ha Hne). split; case_match; auto.
Qed.

Lemma info_exact_add m old sz p i h t : info_exact m old -> m !! p = None -> nHeight i = h -> nTime i = t -> 0 <= h -> 0 <= t ->
  8 * nBlocks old + 8 <= sz -> sz < MAX_BLOCKFILE_SIZE -> info_exact (<[p := i]> m) (set_nSize sz (AddBlock h t old)).
Proof.
  intros (Hn & H8 & Hh & Ht & H0) Hp <- <- Hh0 Ht0 Hsz Hmax. unfold MAX_BLOCKFILE_SIZE in *.
  assert ((nBlocks old =? 0) = true <-> m = ∅) as He by (rewrite Z.eqb_eq, Hn, <- map_size_empty_iff; lia).
  unfold info_exact. cbn [nBlocks nSize nHeightFirst nHeightLast nTimeFirst nTimeLast set_nSize AddBlock].
  rewrite u32_small, map_size_insert_None by (done || lia). split_and!; [lia|lia|..].
  - apply range_insert; try done. intros E. destruct (H0 E). lia.
  - apply range_insert; try done. intros E. destruct (H0 E). lia.
  - intros E. by apply insert_non_empty in E.
Qed.

Lemma files_exact_store m fs p i i' : adds_block m fs (nHeight i) (nTime i) -> m !! p = Some i -> have_data i = false ->
  have_data i' = true -> nFile i' = Z.of_nat (nLastBlockFile fs) -> nHeight i' = nHeight i -> nTime i' = nTime i ->
  0 <= nHeight i -> 0 <= nTime i -> files_exact (<[p := i']> m) fs.
Proof.
  intros [(old & sz & Hl & Hex & Hsz & Hmax) Hrest] Hp Hd Hd' Hf Eh Et Hh0 Ht0 k info Hk.
  assert (forall j, blocks_in j m !! p = None) as Hout.
  { intros j. apply map_lookup_filter_None. right. intros x Hx [Hdx _]. cbn in Hdx. congruence. }
  destruct (decide (k = nLastBlockFile fs)) as [->|Hne].
  - rewrite Hl in Hk. injection Hk as <-. unfold blocks_in. rewrite map_filter_insert_True by done. apply info_exact_add; try done. apply Hout.
  - unfold blocks_in. rewrite map_filter_insert_False by (cbn; intros [_ Hx]; lia). rewrite map_filter_delete_not.
    + by apply Hrest.
    + intros x Hx. cbn. intros [Hdx _]. congruence.
Qed.

Lemma files_ok_store size m fs p i i' new : files_ok size m fs -> m !! p = Some i -> have_data i = false ->
  vinfoBlockFile fs !! nLastBlockFile fs = Some new -> nHeight i <= nHeightLast new -> 0 < size p -> size p + 8 <= nSize new ->
  (forall q j, m !! q = Some j -> have_data j = true -> nFile j = Z.of_nat (nLastBlockFile fs) ->
    nDataPos j + size q <= nSize new - (size p + 8)) ->
  nFile i' = Z.of_nat (nLastBlockFile fs) -> nDataPos i' = nSize new - (size p + 8) + 8 -> nHeight i' = nHeight i ->
  files_ok size (<[p := i']> m) fs.
Proof.
  intros Hok Hp Hd Hnew Hh Hs Hs8 Hbelow Ef Ed Eh. destruct Hok as [Hi Hl Hpl Hap]. split; [done..| |].
  - intros q j. rewrite lookup_insert_Some. intros [[<- <-]|[_ Hq]] Hdj; [|by apply Hpl].
    exists new. rewrite Ef, Ed, Eh, Nat2Z.id. split_and!; try done; lia.
  - intros q r j k. rewrite !lookup_insert_Some. intros [[<- <-]|[Hq Hj]] [[<- <-]|[Hr Hk]] Hne Hdj Hdk Hfile; [done| | |by apply (Hap q r)].
    + right. rewrite Ed. specialize (Hbelow r k Hk Hdk). rewrite <- Hfile, Ef in Hbelow. specialize (Hbelow eq_refl). lia.
    + left. rewrite Ed. specialize (Hbelow q j Hj Hdj). rewrite Hfile, Ef in Hbelow. specialize (Hbelow eq_refl). lia.
Qed.

(** ** Lemmas: pruning *)

(** The bytes of all files. *)
Definition usage (v : list CBlockFileInfo) : Z := foldr (fun info n => nSize info + nUndoSize info + n) 0 v.

Lemma usage_cons x v : usage (x :: v) = nSize x + nUndoSize x + usage v.
Proof. done. Qed.

Lemma usage_insert v n x y : v !! n = Some x -> usage (<[n := y]> v) = usage v - (nSize x + nUndoSize x) + (nSize y + nUndoSize y).
Proof.
  revert n. induction v as [|z v IH]; intros [|n] Hn; try done.
  - injection Hn as ->. change (<[0%nat := y]> (x :: v)) with (y :: v). rewrite !usage_cons. lia.
  - change (<[S n := y]> (z :: v)) with (z :: <[n := y]> v). rewrite !usage_cons, (IH n Hn). lia.
Qed.

Lemma usage_pos v : Forall info_ok v -> 0 <= usage v.
Proof. induction 1 as [|z l (? & ? & ?) _ IH]; [done|]. rewrite usage_cons. lia. Qed.

Lemma usage_bound v n x : Forall info_ok v -> v !! n = Some x -> 0 <= nSize x + nUndoSize x <= usage v.
Proof.
  intros Hv. revert n. induction Hv as [|z v Hz Hv IH]; intros n Hn; [done|]. pose proof (usage_pos v Hv). destruct Hz as (? & ? & ?).
  rewrite usage_cons. destruct n as [|n]; cbn in Hn; [injection Hn as ->; lia|]. specialize (IH n Hn). lia.
Qed.

Lemma CalculateCurrentUsage_spec fs : Forall info_ok (vinfoBlockFile fs) -> usage (vinfoBlockFile fs) < 2 ^ 64 ->
  CalculateCurrentUsage fs = usage (vinfoBlockFile fs).
Proof.
  unfold CalculateCurrentUsage. intros Hv Hb. enough (forall n, 0 <= n -> n + usage (vinfoBlockFile fs) < 2 ^ 64 ->
    foldl (fun n info => u64 (n + u32 (nSize info + nUndoSize info))) n (vinfoBlockFile fs) = n + usage (vinfoBlockFile fs)) as E
    by (rewrite E; lia).
  clear Hb. induction Hv as [|z v Hz Hv IH]; intros n Hn Hb; cbn [foldl]; [cbn; lia|]. rewrite usage_cons in *.
  pose proof (usage_pos v Hv). destruct Hz as (? & _ & ?). unfold MAX_BLOCKFILE_SIZE in *. rewrite u32_small by lia.
  rewrite u64_small, IH by lia. lia.
Qed.

(** The index after the files of [S] are gone. *)
Definition prune_files (S : gset nat) (i : CBlockIndex) : CBlockIndex :=
  if decide (Z.to_nat (nFile i) ∈ S) then prune_entry i else i.

Lemma have_data_pruned i : have_data (prune_entry i) = false.
Proof.
  unfold have_data, prune_entry. cbn [nStatus]. apply negb_false_iff, Z.eqb_eq. rewrite <- !Z.land_assoc.
  change (Z.land (u32 (Z.lnot BLOCK_HAVE_DATA)) (Z.land (u32 (Z.lnot BLOCK_HAVE_UNDO)) BLOCK_HAVE_DATA)) with 0. apply Z.land_0_r.
Qed.

Lemma prune_files_data S i : have_data (prune_files S i) = true -> prune_files S i = i /\ Z.to_nat (nFile i) ∉ S.
Proof. unfold prune_files. case_decide; [by rewrite have_data_pruned|done]. Qed.

Lemma files_ok_pruned size m fs S v : files_ok size m fs -> Forall info_ok v -> length v = length (vinfoBlockFile fs) ->
  (forall n, n ∉ S -> v !! n = vinfoBlockFile fs !! n) ->
  files_ok size (prune_files S <$> m) (set_vinfo v fs).
Proof.
  intros [Hi Hl Hp Ha] Hv Hlen Hk. split; cbn [vinfoBlockFile nLastBlockFile set_vinfo]; [done|by rewrite Hlen| |].
  - intros p i. rewrite lookup_fmap. destruct (m !! p) as [j|] eqn:Ej; [|done]. intros [= <-] Hd.
    destruct (prune_files_data S j Hd) as [E Hn]. rewrite E in *. destruct (Hp p j Ej Hd) as (info & Hf & Hx & Hr).
    exists info. cbn [nLastBlockFile vinfoBlockFile set_vinfo]. rewrite Hk by done. done.
  - intros p q i j. rewrite !lookup_fmap. destruct (m !! p) as [i0|] eqn:Ei, (m !! q) as [j0|] eqn:Ej; try done.
    intros [= <-] [= <-] Hne Hd1 Hd2. destruct (prune_files_data _ _ Hd1) as [E1 _], (prune_files_data _ _ Hd2) as [E2 _].
    rewrite E1, E2 in *. by apply (Ha p q).
Qed.

Section PruneLemmas.
Context {View : Type}.
Implicit Types s : ChainState View.

(** Where the loop stands: it has looked at the files below [k] and pruned those
    of [S]. *)
Record prune_at (s0 : ChainState View) (fs0 : FileState) (lim : Z) (k : nat) (S : gset nat) s (fs : FileState) : Prop := {
  pa_index : index s = prune_files S <$> index s0;
  pa_active : chainActive s = chainActive s0;
  pa_infos : Forall info_ok (vinfoBlockFile fs);
  pa_length : length (vinfoBlockFile fs) = length (vinfoBlockFile fs0);
  pa_last : nLastBlockFile fs = nLastBlockFile fs0;
  pa_kept : forall n, n ∉ S -> vinfoBlockFile fs !! n = vinfoBlockFile fs0 !! n;
  pa_gone : forall n, n ∈ S -> (n < k)%nat /\ exists x, vinfoBlockFile fs0 !! n = Some x /\ nHeightLast x <= lim
}.

Lemma prune_at_mono s0 fs0 lim k k' S s fs : (k <= k')%nat -> prune_at s0 fs0 lim k S s fs -> prune_at s0 fs0 lim k' S s fs.
Proof. intros Hk [A B C D E F G]. split; try done. intros n Hn. destruct (G n Hn). split; [lia|done]. Qed.

Lemma prune_one s0 fs0 lim k S s fs info : (forall p i, index s0 !! p = Some i -> 0 <= nFile i) ->
  prune_at s0 fs0 lim k S s fs -> vinfoBlockFile fs !! k = Some info -> nHeightLast info <= lim ->
  exists s' fs', PruneOneBlockFile s fs k = Ok (s', fs') /\ prune_at s0 fs0 lim (Datatypes.S k) ({[k]} ∪ S) s' fs' /\
    vinfoBlockFile fs' = <[k := null_info]> (vinfoBlockFile fs).
Proof.
  intros Hn [A B C D E F G] Hk Hlim. unfold PruneOneBlockFile. rewrite Hk. cbn [deref mbind result_bind]. eexists _, _. split; [done|].
  assert (k ∉ S) as HkS by (intros Hin; destruct (G k Hin); lia).
  split; [|done]. split; cbn [vinfoBlockFile nLastBlockFile dirty_file set_vinfo]; try done.
  - cbn [set_unlinked set_hdrs hdrs mapBlockIndex]. rewrite A. apply map_eq. intros p. rewrite !lookup_fmap.
    destruct (index s0 !! p) as [i|] eqn:Ei; [|done]. cbn. f_equal. specialize (Hn p i Ei). unfold prune_files, in_file.
    destruct (decide (Z.to_nat (nFile i) ∈ S)) as [Hin|Hin].
    + rewrite decide_True by (apply elem_of_union; by right). destruct (Z.eqb_spec (nFile (prune_entry i)) (Z.of_nat k)) as [Hz|]; [|done].
      cbn in Hz. destruct (G _ Hin). lia.
    + destruct (Z.eqb_spec (nFile i) (Z.of_nat k)) as [Hz|Hz].
      * rewrite decide_True; [done|]. apply elem_of_union. left. apply elem_of_singleton. lia.
      * rewrite decide_False; [done|]. intros [Hs%elem_of_singleton|]%elem_of_union; [lia|done].
  - by apply Forall_insert.
  - by rewrite length_insert.
  - intros n Hnn. rewrite list_lookup_insert_ne; [apply F; clear -Hnn; set_solver|]. intros ->. clear -Hnn. set_solver.
  - intros n [->%elem_of_singleton|Hin]%elem_of_union; [|destruct (G n Hin); split; [lia|done]]. split; [lia|].
    exists info. rewrite <- F by done. done.
Qed.

(** No file below [k] can be pruned. *)
Definition all_recent (lim : Z) (k : nat) (fs : FileState) : Prop := forall n info, (n < k)%nat ->
  vinfoBlockFile fs !! n = Some info -> nSize info <> 0 -> lim < nHeightLast info.

Lemma all_recent_S lim k fs info : all_recent lim k fs -> vinfoBlockFile fs !! k = Some info ->
  (nSize info <> 0 -> lim < nHeightLast info) -> all_recent lim (S k) fs.
Proof.
  intros Ha Hk Hi n x Hn Hx. destruct (decide (n = k)) as [->|]; [by rewrite Hk in Hx; injection Hx as <-|]. apply (Ha n); [lia|done].
Qed.

Lemma prune_loop_spec s0 fs0 lim buf target len k S s fs : (forall p i, index s0 !! p = Some i -> 0 <= nFile i) ->
  prune_at s0 fs0 lim k S s fs -> (k + len = nLastBlockFile fs0)%nat -> (nLastBlockFile fs0 < length (vinfoBlockFile fs0))%nat ->
  usage (vinfoBlockFile fs) + buf < 2 ^ 64 -> 0 <= buf -> all_recent lim k fs ->
  exists S' s' fs', prune_loop (seq k len) s fs lim (usage (vinfoBlockFile fs)) buf target S = Ok (S', s', fs') /\
    prune_at s0 fs0 lim (nLastBlockFile fs0) S' s' fs' /\
    (usage (vinfoBlockFile fs') + buf < target \/ all_recent lim (nLastBlockFile fs0) fs').
Proof.
  intros Hn. revert k S s fs. induction len as [|len IH]; intros k S s fs Hp Hk Hl Hu Hb Hr; cbn [seq prune_loop].
  { rewrite Nat.add_0_r in Hk. subst k. exists S, s, fs. auto. }
  destruct (lookup_lt_is_Some_2 (vinfoBlockFile fs) k) as [info Hi]; [rewrite (pa_length _ _ _ _ _ _ _ Hp); lia|].
  rewrite Hi. cbn [deref mbind result_bind]. pose proof (usage_bound _ _ _ (pa_infos _ _ _ _ _ _ _ Hp) Hi) as Hub.
  pose proof (proj1 (Forall_lookup _ _) (pa_infos _ _ _ _ _ _ _ Hp) k info Hi) as ((? & ?) & ? & ?). unfold MAX_BLOCKFILE_SIZE in *.
  destruct (Z.eqb_spec (nSize info) 0) as [Hz|Hz].
  { apply IH; try done; [by eapply prune_at_mono; [|exact Hp]; lia|lia|]. by eapply all_recent_S. }
  rewrite (u64_small (usage (vinfoBlockFile fs) + buf)) by lia. destruct (Z.ltb_spec (usage (vinfoBlockFile fs) + buf) target) as [Ht|Ht].
  { exists S, s, fs. split_and!; [done| |by left]. eapply prune_at_mono; [|exact Hp]. lia. }
  destruct (Z.ltb_spec lim (nHeightLast info)) as [Hlt|Hge].
  { apply IH; try done; [by eapply prune_at_mono; [|exact Hp]; lia|lia|]. by eapply all_recent_S. }
  destruct (prune_one s0 fs0 lim k S s fs info Hn Hp Hi Hge) as (s1 & fs1 & E & Hp1 & Ev). rewrite E. cbn [mbind result_bind].
  pose proof (usage_insert _ k info null_info Hi) as Eu. rewrite <- Ev in Eu. cbn [nSize nUndoSize null_info] in Eu.
  rewrite u32_small, u64_small by lia. replace (usage (vinfoBlockFile fs) - (nSize info + nUndoSize info)) with (usage (vinfoBlockFile fs1)) by lia.
  apply IH; try done; [lia..|]. intros n x Hnk Hx Hx0. rewrite Ev in Hx. destruct (decide (n = k)) as [->|Hne].
  - rewrite list_lookup_insert_eq in Hx by (by eapply lookup_lt_Some). injection Hx as <-. done.
  - rewrite list_lookup_insert_ne in Hx by done. apply (Hr n); [lia|done..].
Qed.

Lemma prune_at_start s fs lim : Forall info_ok (vinfoBlockFile fs) -> prune_at s fs lim 0 ∅ s fs.
Proof.
  intros Hi. split; try done. apply map_eq. intros p. rewrite lookup_fmap. destruct (index s !! p); [|done]. cbn. unfold prune_files.
  by rewrite decide_False by apply not_elem_of_empty.
Qed.

(** What pruning leaves: the entries of the deleted files are stripped, the others
    and the recent blocks are as they were. *)
Lemma prune_at_result size s0 fs0 lim k S s fs : files_ok size (index s0) fs0 -> prune_at s0 fs0 lim k S s fs ->
  files_ok size (index s) fs /\
  forall p i, index s0 !! p = Some i -> have_data i = true -> lim < nHeight i -> index s !! p = Some i.
Proof.
  intros Hok [A B C D E F G]. split.
  - rewrite A. destruct (files_ok_pruned size (index s0) fs0 S (vinfoBlockFile fs) Hok C D F) as [X1 X2 X3 X4].
    split; [done|by rewrite D, E; apply Hok| |done]. intros p i Hp Hd. destruct (X3 p i Hp Hd) as (info & Hx). exists info. by rewrite E.
  - intros p i Hp Hd Hh. rewrite A, lookup_fmap, Hp. cbn. f_equal. unfold prune_files. case_decide as Hin; [|done].
    destruct (G _ Hin) as (_ & x & Hx & Hlx). destruct (f_placed _ _ _ Hok p i Hp Hd) as (info & _ & Hx' & _ & _ & Hhl).
    rewrite Hx in Hx'. injection Hx' as <-. lia.
Qed.
End PruneLemmas.

Lemma FindBlockPos_stores (size : ptr -> Z) (m : BlockMap) (fs : FileState) (fPruneMode : bool) (space : Z -> bool) (pos : CDiskBlockPos)
    (p : ptr) (i : CBlockIndex) (nTx0 nTime0 : Z) :
  files_ok size m fs -> m !! p = Some i -> have_data i = false -> 0 <= nHeight i -> 0 < size p ->
  size p + 8 < MAX_BLOCKFILE_SIZE ->
  exists r fs', FindBlockPos fPruneMode space fs pos (size p + 8) (nHeight i) nTime0 false = Ok (r, fs') /\
    files_ok size m fs' /\ ((forall n, space n = true) -> r <> None) /\
    forall q i', r = Some q -> received nTx0 (pos_nFile q) (pos_nPos q + 8) i = Ok i' -> files_ok size (<[p := i']> m) fs' /\
      (files_exact m fs -> nTime0 = nTime i -> 0 <= nTime0 -> files_exact (<[p := i']> m) fs').
Proof.
  intros Hok Hp Hd Hh Hs Hm. destruct (FindBlockPos_grow size m fPruneMode space fs pos (size p + 8) (nHeight i) nTime0)
    as (r & fs' & new & E & Hok' & Hnew & Hhl & Hsn & Hbelow & Hr & Hsp & Hadd); [done|lia|done|].
  exists r, fs'. split_and!; [done..|]. intros q i' -> (Ef & Ed & Eh & Et & Hd')%received_fields. destruct Hr as [[= ->]|]; [|done].
  split; [by apply (files_ok_store size m fs' p i i' new)|]. intros Hex -> Ht0. apply (files_exact_store m fs' p i i'); try done. apply Hadd; [lia|done].
Qed.

(** ** Properties *)

(** C15: A block gets room of its own.  In consistent files, however full,
    [FindBlockPos] finds a place for a block without data that is shorter than a block
    file; when the disk has space, the block is stored there, and with the entry that
    [ReceivedBlockTransactions] fills in, again every block with data lies within
    its file, no two blocks overlap, no file reaches the maximal size and no block is
    higher than the greatest height of its file.  When moreover the number of blocks
    of each file and their least and greatest heights and times were right before,
    and the time passed is that of the entry, they are right again. *)
Theorem block_stored (size : ptr -> Z) (m : BlockMap) (fs : FileState) (fPruneMode : bool) (space : Z -> bool) (pos : CDiskBlockPos)
    (p : ptr) (i : CBlockIndex) (nTx0 nTime0 : Z) :
  files_ok size m fs -> m !! p = Some i -> have_data i = false -> 0 <= nHeight i -> 0 < size p ->
  size p + 8 < MAX_BLOCKFILE_SIZE ->
  exists r fs', FindBlockPos fPruneMode space fs pos (size p + 8) (nHeight i) nTime0 false = Ok (r, fs') /\
    files_ok size m fs' /\ ((forall n, space n = true) -> r <> None) /\
    forall q i', r = Some q -> received nTx0 (pos_nFile q) (pos_nPos q + 8) i = Ok i' -> files_ok size (<[p := i']> m) fs' /\
      (files_exact m fs -> nTime0 = nTime i -> 0 <= nTime0 -> files_exact (<[p := i']> m) fs').
Proof. by apply FindBlockPos_stores. Qed.

(** C16: Pruning keeps what a reorganisation may need.  [FindFilesToPrune] deletes
    whole files before the last one; the blocks in them lose their data and their
    position, no other entry of the index changes, and no block within 288 blocks
    of the tip is touched.  Nothing changes when there is no target, up to the height
    from which pruning is allowed, and when the files, with a buffer for the next
    allocation, use less than the target.  Otherwise they use less than the target
    afterwards or no further file is old enough.  The height from which pruning is
    allowed must be at least 288, as it is in all chain parameters: below, the last
    height that can be pruned would wrap around.  The sizes must fit into 64 bits. *)
Theorem pruning_keeps_recent {View} (size : ptr -> Z) (s : ChainState View) (fs : FileState) (nPruneTarget nPruneAfterHeight : Z)
    (tip : ptr) (ti : CBlockIndex) :
  let nBuffer := BLOCKFILE_CHUNK_SIZE + UNDOFILE_CHUNK_SIZE in
  files_ok size (index s) fs -> (forall p i, index s !! p = Some i -> 0 <= nFile i) ->
  Tip (chainActive s) = Some tip -> index s !! tip = Some ti -> 0 <= nHeight ti < 2 ^ 31 -> MIN_BLOCKS_TO_KEEP <= nPruneAfterHeight ->
  usage (vinfoBlockFile fs) + nBuffer < 2 ^ 64 ->
  exists S s' fs', FindFilesToPrune s fs nPruneTarget nPruneAfterHeight = Ok (S, s', fs') /\
    index s' = prune_files S <$> index s /\ chainActive s' = chainActive s /\ files_ok size (index s') fs' /\
    (forall n, n ∈ S -> (n < nLastBlockFile fs)%nat) /\
    (forall p i, index s !! p = Some i -> have_data i = true -> nHeight ti - MIN_BLOCKS_TO_KEEP < nHeight i ->
      index s' !! p = Some i) /\
    (nPruneTarget = 0 \/ nHeight ti <= nPruneAfterHeight \/ usage (vinfoBlockFile fs) + nBuffer < nPruneTarget -> S = ∅ /\ s' = s /\ fs' = fs) /\
    (nPruneTarget <> 0 -> nPruneAfterHeight < nHeight ti ->
     usage (vinfoBlockFile fs') + nBuffer < nPruneTarget \/ all_recent (nHeight ti - MIN_BLOCKS_TO_KEEP) (nLastBlockFile fs) fs').
Proof.
  intros nBuffer Hok Hn Ht Hti Hh Ha Hu. unfold FindFilesToPrune. rewrite Ht, Hti. cbn [deref mbind result_bind].
  unfold MIN_BLOCKS_TO_KEEP in *. pose proof (usage_pos _ (f_infos _ _ _ Hok)) as Hpos. change nBuffer with 17825792 in *.
  change (BLOCKFILE_CHUNK_SIZE + UNDOFILE_CHUNK_SIZE) with 17825792. rewrite (u64_small (nHeight ti)) by lia.
  rewrite CalculateCurrentUsage_spec, u64_small by (try apply Hok; lia).
  pose proof (prune_at_start s fs (nHeight ti - 288) (f_infos _ _ _ Hok)) as Hstart.
  destruct (prune_at_result size s fs _ _ _ s fs Hok Hstart) as [_ Hsame].
  assert (forall n, n ∈ (∅ : gset nat) -> (n < nLastBlockFile fs)%nat) as Hemp by (intros n Hin; by apply not_elem_of_empty in Hin).
  destruct (Z.eqb_spec nPruneTarget 0); [|destruct (Z.leb_spec (nHeight ti) nPruneAfterHeight)]; cbn [orb].
  1,2: exists ∅, s, fs; split_and!; try done; try lia; apply Hstart.
  rewrite (u32_small (nHeight ti - 288)) by lia. destruct (Z.ltb_spec (usage (vinfoBlockFile fs) + 17825792) nPruneTarget).
  { exists ∅, s, fs. split_and!; try done; [apply Hstart|auto]. }
  destruct (prune_loop_spec s fs (nHeight ti - 288) 17825792 nPruneTarget (nLastBlockFile fs) 0 ∅ s fs) as (S & s' & fs' & E & Hp & Hend);
    try done; [apply Hok|intros ? ? ?; lia|].
  destruct (prune_at_result size s fs _ _ _ s' fs' Hok Hp) as [Hok' Hkeep]. exists S, s', fs'. split_and!; [done|apply Hp|apply Hp|done| |done|lia|done].
  intros k Hk. by apply (pa_gone _ _ _ _ _ _ _ Hp).
Qed.

(** ** Two files with a block each, for the witnesses *)

Definition filed (h f pos : Z) : CBlockIndex :=
  mkIndex None None h f pos 0 (of_u64 W256 1) 1 1 (Z.lor BLOCK_VALID_SCRIPTS BLOCK_HAVE_DATA) 4 [] 0 0 0 0 0.
Definition toy_blocks : BlockMap := {[ [1] := filed 5 0 8; [2] := filed 400 1 8; [3] := new_index toy_genesis ]}.
Definition toy_files : FileState := mkFiles [mkFileInfo 1 100 20 5 5 0 0; mkFileInfo 1 100 20 400 400 0 0] 1 ∅ false.
Definition toy_size (p : ptr) : Z := 92.
Definition toy_chain : ChainState unit :=
  mkChainState (mkHeaderState toy_blocks None [] [] []) [Some [2]] tt ∅ [] None 1 (-1) (of_u64 W256 0) false.

Lemma toy_blocks_cases p i : toy_blocks !! p = Some i ->
  (p = [1] /\ i = filed 5 0 8) \/ (p = [2] /\ i = filed 400 1 8) \/ (p = [3] /\ i = new_index toy_genesis).
Proof.
  unfold toy_blocks. rewrite !lookup_insert_Some, lookup_singleton_Some. naive_solver.
Qed.

Lemma toy_files_ok : files_ok toy_size toy_blocks toy_files.
Proof.
  split.
  - repeat constructor; cbn; lia.
  - cbn. lia.
  - intros p i [[-> ->]|[[-> ->]|[-> ->]]]%toy_blocks_cases Hd; [| |done]; eexists; cbn; (split; [lia|]); (split; [reflexivity|]); cbn; unfold toy_size; lia.
  - intros p q i j [[-> ->]|[[-> ->]|[-> ->]]]%toy_blocks_cases [[-> ->]|[[-> ->]|[-> ->]]]%toy_blocks_cases Hne Hdi Hdj Hf; done.
Qed.

Lemma toy_files_exact : files_exact toy_blocks toy_files.
Proof.
  assert (forall p i, range_of nHeight {[ p := i ]} (nHeight i) (nHeight i) /\ range_of nTime {[ p := i ]} (nTime i) (nTime i)) as Hr.
  { intros p i. split; (split; [intros q j [_ <-]%lookup_singleton_Some; lia|]); intros _; split; exists p, i; by rewrite lookup_singleton_eq. }
  intros [|[|k]] info Hk; [| |done]; injection Hk as <-.
  - assert (blocks_in 0 toy_blocks = {[ [1] := filed 5 0 8 ]}) as -> by (vm_compute; reflexivity).
    split_and!; try done; apply (Hr [1] (filed 5 0 8)).
  - assert (blocks_in 1 toy_blocks = {[ [2] := filed 400 1 8 ]}) as -> by (vm_compute; reflexivity).
    split_and!; try done; apply (Hr [2] (filed 400 1 8)).
Qed.

Lemma block_stored_witness :
  exists r fs' i', FindBlockPos true (fun _ => true) toy_files (mkPos (-1) 0) 100 0 (nTime (new_index toy_genesis)) false = Ok (r, fs') /\
    files_ok toy_size (<[ [3] := i' ]> toy_blocks) fs' /\ files_exact (<[ [3] := i' ]> toy_blocks) fs' /\ r <> None.
Proof.
  destruct (block_stored toy_size toy_blocks toy_files true (fun _ => true) (mkPos (-1) 0) [3] (new_index toy_genesis) 2 (nTime (new_index toy_genesis)))
    as (r & fs' & E & _ & Hr & Hst).
  - exact toy_files_ok.
  - vm_compute. reflexivity.
  - reflexivity.
  - cbn. lia.
  - reflexivity.
  - reflexivity.
  - specialize (Hr (fun _ => eq_refl)). destruct r as [q|]; [|contradiction]. destruct (received 2 (pos_nFile q) (pos_nPos q + 8) (new_index toy_genesis)) as [i'|] eqn:Ei; [|vm_compute in Ei; discriminate].
    destruct (Hst q i' eq_refl Ei) as [Hok Hex]. exists (Some q), fs', i'. split; [exact E|]. split; [exact Hok|]. split; [|discriminate].
    apply Hex; [exact toy_files_exact|reflexivity|vm_compute; discriminate].
Defined.

Lemma pruning_keeps_recent_witness :
  exists S s' fs', FindFilesToPrune toy_chain toy_files 1000 300 = Ok (S, s', fs') /\
    S = {[0%nat]} /\ index s' !! [2] = Some (filed 400 1 8) /\ files_ok toy_size (index s') fs'.
Proof.
  destruct (pruning_keeps_recent toy_size toy_chain toy_files 1000 300 [2] (filed 400 1 8)) as (S & s' & fs' & E & _ & _ & Hok & _ & Hk & _).
  - exact toy_files_ok.
  - intros p i [[-> ->]|[[-> ->]|[-> ->]]]%toy_blocks_cases; cbn; lia.
  - reflexivity.
  - vm_compute. reflexivity.
  - cbn. lia.
  - unfold MIN_BLOCKS_TO_KEEP. lia.
  - vm_compute. reflexivity.
  - exists S, s', fs'. split; [exact E|]. split; [|split; [|exact Hok]].
    + vm_compute in E. injection E as <- _ _. reflexivity.
    + apply Hk; [vm_compute; reflexivity|reflexivity|cbn; unfold MIN_BLOCKS_TO_KEEP; lia].
Defined.
