(* ===== verification/NewBlock.v ===== *)
(** * A new block
    (AcceptBlock and ProcessNewBlock of src/src/validation.cpp)

    The way of a block from the network to the active chain: [CheckBlock], the
    header, a place in the block files, the index, and [ActivateBestChain].  The
    memory pool, the relay of the block and the notifications are left out; of the
    [FlushStateToDisk] at the end of [AcceptBlock], which writes what is in memory
    to the databases, the pruning is modelled. *)

From Stdlib Require Import ZArith Lia String.
From stdpp Require Import base tactics numbers option gmap list.
From S2P Require Import Prelude ArithUint256 Compact Block Chain Pow Headers Serialize Rewards Transaction TxVerify BlockCheck.
From S2P Require Import ChainState BestChain Activate Invalidate Receive BlockFiles.

(** What [AcceptBlock] returns: [*ppindex] and [*fNewBlock], the rejection, or a
    system error. *)
Inductive AcceptResult :=
  | Accepted (pindex : ptr) (fNewBlock : bool)
  | Rejected (r : reject)
  | AcceptError.

(** What the disk does, and the settings for pruning. *)
Record Disk := mkDisk {
  CheckDiskSpace : Z -> bool;
  WriteBlockToDisk : bool;
  fPruneMode : bool;
  fReindex : bool;
  nPruneTarget : Z;
  nPruneAfterHeight : Z
}.

Section NewBlock.
Context (H : PowHashes) (params : ChainParams) (cl : ChainLocks) (now : Z) (addr : ptr -> Z) (minimumChainWork : base_uint) (d : Disk).
Context {View : Type}.
Implicit Types s : ChainState View.

(** The pruning of [FlushStateToDisk(FLUSH_STATE_NONE)]. *)
Definition flush_prune s (fs : FileState) : result (ChainState View * FileState) :=
  if fPruneMode d && fCheckForPruning fs && negb (fReindex d) then
    '(_, s, fs) ← FindFilesToPrune s fs (nPruneTarget d) (nPruneAfterHeight d);
    Ok (s, mkFiles (vinfoBlockFile fs) (nLastBlockFile fs) (setDirtyFileInfo fs) false)
  else Ok (s, fs).

(** Whether an unrequested block is of no interest: pruned before, with less work,
    too far ahead, or on a chain with too little work. *)
Definition uninteresting s (idx : CBlockIndex) : result bool :=
  more ← match Tip (chainActive s) with
         | None => Ok true
         | Some tip => ti ← deref (index s !! tip); Ok (0 <=? CompareTo (nChainWork idx) (nChainWork ti))
         end;
  let fTooFarAhead := i32 (u32 (Height (chainActive s) + MIN_BLOCKS_TO_KEEP)) <? nHeight idx in
  Ok (negb (nTx idx =? 0) || negb more || fTooFarAhead || (CompareTo (nChainWork idx) minimumChainWork <? 0)).

(** The block goes to its file and its transactions are noted; a failed write
    starts the shutdown and goes on. *)
Definition store_block s (fs : FileState) (block : CBlock) (pindex : ptr) (idx : CBlockIndex) (dbp : option CDiskBlockPos) :
    result (option (ChainState View) * FileState) :=
  '(r, fs) ← FindBlockPos (fPruneMode d) (CheckDiskSpace d) fs (default (mkPos (-1) 0) dbp) (u32 (block_size block + 8))
               (nHeight idx) (hdr_nTime (block_header block)) (bool_decide (is_Some dbp));
  match r with
  | None => Ok (None, fs)
  | Some pos =>
      let '(s, pos) :=
        match dbp with
        | Some _ => (s, pos)
        | None => if WriteBlockToDisk d then (s, mkPos (pos_nFile pos) (pos_nPos pos + 8)) else (set_shutdown s, pos)
        end in
      s ← ReceivedBlockTransactions addr s (Z.of_nat (length (block_vtx block))) pindex (pos_nFile pos) (pos_nPos pos);
      Ok (Some s, fs)
  end.

Definition AcceptBlock s (fs : FileState) (block : CBlock) (fRequested : bool) (dbp : option CDiskBlockPos) :
    result (AcceptResult * ChainState View * FileState) :=
  '(st, r) ← AcceptBlockHeader H params cl now (hdrs s) (block_header block);
  let s := set_hdrs st s in
  match r with
  | inr e => Ok (Rejected e, s, fs)
  | inl pindex =>
      idx ← deref (index s !! pindex);
      skip ← uninteresting s idx;
      if have_data idx || (negb fRequested && skip) then Ok (Accepted pindex false, s, fs)
      else
        '(r, fs) ← store_block s fs block pindex idx dbp;
        match r with
        | None => Ok (AcceptError, s, fs)
        | Some s => '(s, fs) ← flush_prune s fs; Ok (Accepted pindex true, s, fs)
        end
  end.

(** [ProcessNewBlock] checks the block at the height after the tip. *)
Definition ProcessNewBlock (Hash : list Z -> uint256) (founder : FounderPayment) (nMaxCash : Z) (ops : ChainOps View)
    (fuel : nat) s (fs : FileState) (nStopAtHeight : Z) (block : CBlock) (fForceProcessing : bool) :
    result (bool * CBlock * ChainState View * FileState) :=
  tip ← deref (Tip (chainActive s));
  ti ← deref (index s !! tip);
  '(r, block) ← CheckBlock Hash H params founder nMaxCash (Some ti) block (nHeight ti + 1) true true;
  match r with
  | Some _ => Ok (false, block, s, fs)
  | None =>
      '(a, s, fs) ← AcceptBlock s fs block fForceProcessing None;
      match a with
      | Accepted _ _ =>
          '(b, s) ← ActivateBestChain ops addr fuel s nStopAtHeight (Some (GetHash H (block_header block)));
          Ok (b, block, s, fs)
      | _ => Ok (false, block, s, fs)
      end
  end.
End NewBlock.

(** ** Lemmas: the header joins the index *)

Lemma fill_index_fields params m x block i : fill_index params m x block = Ok i ->
  nTx i = 0 /\ nChainTx i = 0 /\ nFile i = 0 /\ nStatus i = 0.
Proof.
  unfold fill_index. cbn zeta. intros ([[j tm] w] & E & (pr & _ & [= <-])%result_bind_Ok)%result_bind_Ok.
  cbn [nTx nChainTx nFile nStatus set_nChainWork set_nTimeMax].
  destruct (_ !! hdr_hashPrevBlock block) as [pi|]; [|by injection E as <- _ _].
  apply result_bind_Ok in E as (k & Ek & [= <- _ _]). unfold BuildSkip in Ek. cbn [pprev set_parent] in Ek.
  apply result_bind_Ok in Ek as (a & _ & [= <-]). done.
Qed.

(** A header that [AcceptBlockHeader] adds: its parent is known, and only the new
    entry is new. *)
Lemma AcceptBlockHeader_new H params cl now st block st' p : tree_ok st -> chain_params_ok params -> header_ok block ->
  hdr_hashPrevBlock block <> GetHash H block ->
  (forall b, bestChainLockBlockIndex cl = Some b -> is_Some (mapBlockIndex st !! b)) ->
  GetPOWHash H block (GetAlgo (hdr_nVersion block)) <> hashGenesisBlock params ->
  AcceptBlockHeader H params cl now st block = Ok (st', inl p) -> mapBlockIndex st !! p = None ->
  p = GetHash H block /\ tree_ok st' /\ is_Some (mapBlockIndex st !! hdr_hashPrevBlock block) /\
  exists i, mapBlockIndex st' = <[p := i]> (mapBlockIndex st) /\ pprev i = Some (hdr_hashPrevBlock block) /\
    nTx i = 0 /\ nChainTx i = 0 /\ nFile i = 0 /\ nStatus i = BLOCK_VALID_TREE.
Proof.
  intros Hst Hp Hblock Hself Hcl Hgen. unfold AcceptBlockHeader. rewrite bool_decide_eq_false_2 by done. cbn [negb].
  destruct (mapBlockIndex st !! _) as [i|] eqn:Ei; [destruct (negb _); [done|]; intros [= <- <-]; congruence|].
  destruct (check_new_header_spec H params cl now st (GetPOWHash H block (GetAlgo (hdr_nVersion block))) block)
    as (st1 & r & -> & _ & _ & Hr); [done..|]. cbn [mbind result_bind]. destruct r as [r|]; [done|].
  destruct (Hr eq_refl) as [-> [_ (pi & Hpi & _) _]].
  destruct (AddToBlockIndex_spec H params st block BLOCK_VALID_TREE Hst Hp Hblock (fun _ => Hself) (or_introl eq_refl)) as (st2 & E & Hst2 & Ha).
  rewrite E. cbn [mbind result_bind]. intros [= <- <-] Hnone. split_and!; [done..|by eexists|].
  destruct (a_new _ _ _ _ _ Ha Hnone) as (i & Em & (Hpp & _) & Hs). exists i. rewrite decide_True in Hpp by by eexists.
  assert (nTx i = 0 /\ nChainTx i = 0 /\ nFile i = 0) as (? & ? & ?); [|by split_and!].
  revert E. unfold AddToBlockIndex. rewrite Hnone. intros (j & Ej & E)%result_bind_Ok.
  destruct (fill_index_fields _ _ _ _ _ Ej) as (J1 & J2 & J3 & J4).
  change (negb (Z.land BLOCK_VALID_TREE BLOCK_VALID_MASK =? 0)) with true in E. cbn [negb] in E.
  apply result_bind_Ok in E as ([k best] & Ek & [= E]). subst st2. cbn [mapBlockIndex] in Em.
  assert (k = i) as <-. { assert ((<[GetHash H block := k]> (mapBlockIndex st)) !! GetHash H block = Some i) as Hl by (rewrite Em; apply lookup_insert_eq).
    rewrite lookup_insert_eq in Hl. congruence. }
  apply result_bind_Ok in Ek as ([s0 b] & _ & Ek). apply result_bind_Ok in Ek as (bt & _ & [= <- _]). done.
Qed.

(** ** Lemmas: an entry without data changes nothing for chain selection *)

Section Fresh.
Context {View : Type} (ops : ChainOps View) (v0 : View) (addr : ptr -> Z) `{!Inj eq eq addr}.
Implicit Types s : ChainState View.
Context (m : BlockMap) (p : ptr) (i : CBlockIndex).
Context (Hm : index_ok m) (Hp : m !! p = None).

Abbreviation m' := (<[p := i]> m).

Lemma fresh_old q j : m !! q = Some j -> m' !! q = Some j.
Proof using Hp. intros Hq. by rewrite lookup_insert_ne by congruence. Qed.

Lemma fresh_ancestor q k : is_Some (m !! q) -> nth_ancestor m' q k = nth_ancestor m q k.
Proof using Hm Hp.
  intros [j Hq]. assert (m !! q <> None) as Hn by congruence.
  destruct (nth_ancestor m q k) as [a|] eqn:E; [by apply nth_ancestor_insert|].
  destruct (nth_ancestor m' q k) as [a|] eqn:E'; [|done]. apply nth_ancestor_insert in E'; [congruence|done..].
Qed.

Lemma fresh_ancestor_in q k a : is_Some (m !! q) -> nth_ancestor m q k = Some a -> is_Some (m !! a).
Proof using Hm. intros [j Hq] Hk. destruct (nth_ancestor_height m q j k a Hm Hq Hk) as (x & Hx & _). by eexists. Qed.

Lemma fresh_clean q : is_Some (m !! q) -> clean m' q <-> clean m q.
Proof using Hm Hp.
  intros Hq. split; intros Hc k a ai Hk Ha.
  - apply (Hc k a ai); [by rewrite fresh_ancestor|by apply fresh_old].
  - rewrite fresh_ancestor in Hk by done. apply (Hc k a ai Hk). destruct (fresh_ancestor_in q k a Hq Hk) as [x Hx].
    rewrite (fresh_old a x Hx) in Ha. congruence.
Qed.

Lemma fresh_eligible q : nChainTx i = 0 -> eligible m' q <-> eligible m q.
Proof using Hm Hp.
  intros H0. split; intros [(j & Hj & Hn) Hc].
  - rewrite lookup_insert_Some in Hj. destruct Hj as [[<- <-]|[_ Hj]]; [done|]. split; [by exists j|]. apply fresh_clean; [by eexists|done].
  - split; [exists j; split; [by apply fresh_old|done]|]. apply fresh_clean; [by eexists|done].
Qed.

Lemma fresh_child_clean q : pprev i = Some q -> is_Some (m !! q) -> failed i = false -> clean m q -> clean m' p.
Proof using Hm Hp.
  intros Hpp Hq Hf Hc [|k] a ai Ha Hai; cbn [nth_ancestor] in Ha.
  - injection Ha as <-. rewrite lookup_insert_eq in Hai. by injection Hai as <-.
  - rewrite lookup_insert_eq in Ha. cbn in Ha. rewrite Hpp in Ha. apply (proj2 (fresh_clean q Hq) Hc k a ai Ha Hai).
Qed.

Lemma fresh_replays q v : replays ops v0 m q v -> replays ops v0 m' q v.
Proof using Hp. induction 1 as [|q j v v' Hq _ IH Hc]; [constructor|]. econstructor; [by apply fresh_old|exact IH|exact Hc]. Qed.

Lemma fresh_sound q : sound ops v0 m q -> sound ops v0 m' q.
Proof using Hp. intros [v Hv]. exists v. by apply fresh_replays. Qed.

Lemma fresh_chain t : is_Some (m !! t) -> chain_of m' t = chain_of m t.
Proof using Hm Hp.
  intros [ti Ht]. unfold chain_of. rewrite Ht, (fresh_old t ti Ht). apply list_fmap_ext. intros k h _. apply fresh_ancestor. by eexists.
Qed.

Lemma fresh_Act c v t : index_ok m' -> work_ok m' -> nChainTx i = 0 -> is_Some (pprev i) ->
  Act ops v0 addr m c v t t -> Act ops v0 addr m' c v t t.
Proof using Hm Hp.
  intros Hm' Hw' H0 [q Hpp] [A B C D E F G I J K L M].
  assert (forall q j, m !! q = Some j -> q <> p) as Hne by (intros x j Hx ->; congruence).
  pose proof G as [(ti & Ht & _) _].
  split; try done.
  - intros x j y yj Hx Hn Hxy Hy. rewrite lookup_insert_Some in Hx. destruct Hx as [[<- <-]|[_ Hx]]; [done|].
    destruct (A x j Hx) as (_ & Hl & _). unfold link_ok in Hl. rewrite Hxy in Hl. destruct Hl as (yj' & Hy' & _).
    rewrite (fresh_old y yj' Hy') in Hy. injection Hy as <-. by apply (C x j y).
  - intros x j y k Hx Hy Hxr Hyr. rewrite !lookup_insert_Some in *. destruct Hx as [[_ <-]|[_ Hx]]; [congruence|].
    destruct Hy as [[_ <-]|[_ Hy]]; [congruence|]. by apply (D x j y k).
  - intros x j Hx Hn. rewrite lookup_insert_Some in Hx. destruct Hx as [[_ <-]|[_ Hx]]; [done|]. by apply (E x).
  - by apply fresh_replays.
  - by apply fresh_eligible.
  - intros x Hx. destruct (I x Hx) as (j & Hj & Hn). exists j. split; [by apply fresh_old|done].
  - by apply fresh_eligible.
  - by apply fresh_sound.
  - intros x Hx Hv. apply fresh_eligible in Hx; [|done]. apply M; [done|].
    rewrite <- (value_comp_other addr m p i x t); [done| |by eapply Hne]. destruct Hx as [(j & Hj & _) _]. by eapply Hne.
Qed.
End Fresh.

(** The state after the header: it can again receive the block and choose a tip. *)
Lemma Queue_header {View} (ops : ChainOps View) (v0 : View) (addr : ptr -> Z) B (s : ChainState View) t st p i :
  Queue ops v0 addr B s t [] -> index s !! p = None -> mapBlockIndex st = <[p := i]> (index s) -> tree_ok st ->
  nTx i = 0 -> nChainTx i = 0 -> nStatus i = BLOCK_VALID_TREE -> is_Some (pprev i) -> 0 <= B -> (nHeight i + 1) * B < 2 ^ 32 ->
  Queue ops v0 addr B (set_hdrs st s) t [].
Proof.
  intros [(Hc & HA & Hbi) Hlv Hb Hw Hr Hn] Hp Em Htree Htx H0 Hst Hpp HB Hbound. pose proof (a_index _ _ _ _ _ _ _ _ HA) as Hm.
  assert (0 <= nHeight i) as Hhi. { destruct (t_index _ Htree p i) as (? & _); [rewrite Em; apply lookup_insert_eq|done]. }
  split; cbn [hdrs set_hdrs mapBlocksUnlinked]; rewrite ?Em; try done.
  - pose proof (a_tip _ _ _ _ _ _ _ _ HA) as [(ti & Ht & _) _]. split_and!; cbn [hdrs set_hdrs chainActive pindexBestInvalid]; rewrite ?Em.
    + rewrite Hc. symmetry. apply fresh_chain; [done..|by eexists].
    + apply fresh_Act; try done; [by rewrite <- Em; apply Htree..].
    + intros b Hb'. destruct (Hbi b Hb') as [j Hj]. exists j. by apply fresh_old.
  - intros x j Hx Hnn. rewrite lookup_insert_Some in Hx. destruct Hx as [[_ <-]|[_ Hx]]; [done|by apply (Hlv x)].
  - intros x j Hx. rewrite lookup_insert_Some in Hx. destruct Hx as [[_ <-]|[_ Hx]]; [|by apply (Hb x)]. rewrite Htx, H0. split_and!; nia.
  - destruct Hw as [Hw Htr Hcp]. split.
    + intros a b Hab. destruct (Hw a b Hab) as [(bi & Hbb & Hr1) (ai & Ha & Hr2)]. split; [exists bi|exists ai]; (split; [by apply fresh_old|done]).
    + intros x xi Hx Hf. rewrite lookup_insert_Some in Hx. destruct Hx as [[_ <-]|[_ Hx]]; [rewrite Hst; by vm_compute|by apply (Htr x)].
    + intros b bi a ai. rewrite !lookup_insert_Some. intros [[_ <-]|[_ Hb']] Hsb Hpb Ha Hfa; [destruct Hsb; lia|].
      assert (index s !! a = Some ai) as Ha'; [|by apply (Hcp b bi a ai)]. destruct Ha as [[<- _]|[_ Ha]]; [|done].
      destruct (Hm b bi Hb') as (_ & Hl & _). unfold link_ok in Hl. rewrite Hpb in Hl. destruct Hl as (x & Hx & _). congruence.
  - by intros q Hq%not_elem_of_nil.
Qed.

(** ** Lemmas: the block files *)

Lemma files_ok_place size m m' fs : same_place m m' -> files_ok size m fs -> files_ok size m' fs.
Proof.
  intros Hs [Hi Hl Hp Ha]. assert (forall p j, m' !! p = Some j -> exists i, m !! p = Some i /\ place i = place j) as Hb.
  { intros p j Hj. specialize (Hs p). rewrite Hj in Hs. destruct (m !! p) as [i|]; [|done]. exists i. split; [done|]. by apply (inj Some). }
  assert (forall i j, place i = place j -> have_data i = have_data j /\ nFile i = nFile j /\ nDataPos i = nDataPos j /\ nHeight i = nHeight j) as Hf.
  { unfold place, have_data. intros i j [= -> -> -> ->]. done. }
  split; [done..| |].
  - intros p j (i & Hpi & Hij)%Hb Hd. destruct (Hf i j Hij) as (E1 & E2 & E3 & E4). unfold placed. rewrite <- E2, <- E3, <- E4.
    apply (Hp p i Hpi). congruence.
  - intros p q i' j' (i & Hpi & Hi')%Hb (j & Hqj & Hj')%Hb Hne Hd1 Hd2. destruct (Hf i i' Hi') as (E1 & E2 & E3 & _), (Hf j j' Hj') as (F1 & F2 & F3 & _).
    unfold apart. rewrite <- E2, <- E3, <- F2, <- F3. apply (Ha p q i j Hpi Hqj Hne); congruence.
Qed.

Lemma files_ok_header size m fs p i : have_data i = false -> files_ok size m fs -> files_ok size (<[p := i]> m) fs.
Proof.
  intros Hd [Hi Hl Hp Ha]. split; [done..| |].
  - intros q j. rewrite lookup_insert_Some. intros [[_ <-]|[_ Hq]] Hdj; [congruence|by apply (Hp q)].
  - intros q r j k. rewrite !lookup_insert_Some. intros [[_ <-]|[_ Hq]] [[_ <-]|[_ Hr]] Hne Hdj Hdk; [congruence..|by apply (Ha q r)].
Qed.

Lemma block_size_pos block : 0 < block_size block.
Proof. unfold block_size, SerializeHeader. rewrite !length_app. cbn. lia. Qed.

Lemma CheckBlock_block Hash H params founder nMaxCash tip block h pow mr r b :
  CheckBlock Hash H params founder nMaxCash tip block h pow mr = Ok (r, b) -> block_header b = block_header block /\ block_vtx b = block_vtx block.
Proof.
  unfold CheckBlock. destruct (fChecked block); [by intros [= _ <-]|]. destruct (CheckBlockHeader _ _ _ _); [by intros [= _ <-]|].
  intros ([e|] & _ & E)%result_bind_Ok; [by injection E as _ <-|]. destruct (check_body _ _ _ _ _); injection E as _ <-; [done|]. by destruct (_ && _).
Qed.

(** ** Properties *)

(** The node before a block arrives: nothing waits to be linked, the tree of
    headers is sound, and every block with data is in its file. *)
Record node_ok {View} (ops : ChainOps View) (v0 : View) (addr : ptr -> Z) (B : Z) (size : ptr -> Z) (cl : ChainLocks)
    (s : ChainState View) (fs : FileState) (t : ptr) : Prop := {
  n_queue : Queue ops v0 addr B s t [];
  n_tree : tree_ok (hdrs s);
  n_files : files_ok size (index s) fs;
  n_locked : forall b, bestChainLockBlockIndex cl = Some b -> is_Some (index s !! b)
}.

(** A block of a sane size whose header is not known yet. *)
Record block_ok (H : PowHashes) (params : ChainParams) (B : Z) (size : ptr -> Z) (m : BlockMap) (block : CBlock) (p : ptr) (pi : CBlockIndex) : Prop := {
  b_header : header_ok (block_header block);
  b_self : hdr_hashPrevBlock (block_header block) <> GetHash H (block_header block);
  b_genesis : GetPOWHash H (block_header block) (GetAlgo (hdr_nVersion (block_header block))) <> hashGenesisBlock params;
  b_new : m !! p = None;
  b_parent : m !! hdr_hashPrevBlock (block_header block) = Some pi;
  b_txs : 1 <= Z.of_nat (length (block_vtx block)) <= B;
  b_count : (nHeight pi + 2) * B < 2 ^ 32;
  b_size : size p = block_size block;
  b_fits : block_size block + 8 < MAX_BLOCKFILE_SIZE
}.

Definition disk_ok (d : Disk) : Prop := (forall n, CheckDiskSpace d n = true) /\ WriteBlockToDisk d = true /\ fPruneMode d = false.

Section Accept.
Context (H : PowHashes) (params : ChainParams) (cl : ChainLocks) (now : Z) (addr : ptr -> Z) `{!Inj eq eq addr} (minimumChainWork : base_uint) (d : Disk).
Context {View : Type} (ops : ChainOps View) (v0 : View) (B : Z) (size : ptr -> Z).
Context (Hparams : chain_params_ok params) (Hdisk : disk_ok d).
Implicit Types s : ChainState View.

Lemma uninteresting_total s t idx : Queue ops v0 addr B s t [] -> exists b, uninteresting minimumChainWork s idx = Ok b.
Proof.
  intros [HA _ _ _ _ _]. unfold uninteresting. destruct (Acts_tip ops v0 addr s t t HA) as (ti & Ht & ->). rewrite Ht. cbn. by eexists.
Qed.

Lemma store_block_spec s fs t block p i : Queue ops v0 addr B s t [] -> files_ok size (index s) fs -> index s !! p = Some i ->
  nTx i = 0 -> nChainTx i = 0 -> have_data i = false -> 1 <= Z.of_nat (length (block_vtx block)) <= B ->
  size p = block_size block -> block_size block + 8 < MAX_BLOCKFILE_SIZE ->
  exists s' fs', store_block addr d s fs block p i None = Ok (Some s', fs') /\ Queue ops v0 addr B s' t [] /\ kept s s' /\
    files_ok size (index s') fs' /\ (exists i', index s' !! p = Some i' /\ have_data i' = true) /\
    ((forall q qi, pprev i = Some q -> index s !! q = Some qi -> nChainTx qi <> 0) -> exists i', index s' !! p = Some i' /\ nChainTx i' <> 0).
Proof using Inj0 Hdisk.
  intros HQ Hfs Hi Htx H0 Hd Hn Hs Hm. destruct Hdisk as (Hsp & Hw & _). pose proof (block_size_pos block).
  destruct (a_index _ _ _ _ _ _ _ _ (proj1 (proj2 (q_acts _ _ _ _ _ _ _ HQ))) p i Hi) as (Hh & _ & _).
  destruct (FindBlockPos_stores size (index s) fs (fPruneMode d) (CheckDiskSpace d) (mkPos (-1) 0) p i
    (Z.of_nat (length (block_vtx block))) (hdr_nTime (block_header block))) as (r & fs' & E & _ & Hr & Hst); [done..|lia|lia|].
  destruct r as [q|]; [|by destruct (Hr Hsp)]. unfold store_block. cbn [default bool_decide].
  rewrite u32_small by (unfold MAX_BLOCKFILE_SIZE in *; lia). rewrite <- Hs, bool_decide_eq_false_2 by (by intros [? ?]).
  rewrite E. cbn [mbind result_bind]. rewrite Hw.
  destruct (ReceivedBlockTransactions_spec ops v0 addr B s t p i (Z.of_nat (length (block_vtx block))) (pos_nFile q) (pos_nPos q + 8) HQ Hi Htx H0 Hn)
    as (s' & E' & HQ' & Hk & (i1 & Ei1 & Hpl) & Hlink & _).
  cbn [pos_nFile pos_nPos]. rewrite E'. cbn [mbind result_bind]. exists s', fs'. split_and!; try done.
  - apply (files_ok_place size (<[p := i1]> (index s))); [done|]. by apply (Hst q).
  - specialize (Hpl p). rewrite lookup_insert_eq in Hpl. destruct (index s' !! p) as [i'|]; [|done]. exists i'. split; [done|].
    apply (inj Some) in Hpl. unfold place in Hpl. unfold have_data. replace (nStatus i') with (nStatus i1) by congruence. by apply received_fields in Ei1 as (_ & _ & _ & _ & ?).
  - intros Hpar. destruct (Hlink Hpar) as [Hl _]. destruct (Hl p) as (i' & ? & ? & _); [exists p; split; [apply list_elem_of_here|done]|by exists i'].
Qed.

(** The state after the header of the block. *)
Lemma header_joined s fs t block st p pi : node_ok ops v0 addr B size cl s fs t -> block_ok H params B size (index s) block p pi ->
  AcceptBlockHeader H params cl now (hdrs s) (block_header block) = Ok (st, inl p) ->
  exists i, mapBlockIndex st = <[p := i]> (index s) /\ pprev i = Some (hdr_hashPrevBlock (block_header block)) /\ nTx i = 0 /\ nChainTx i = 0 /\
    nStatus i = BLOCK_VALID_TREE /\ Queue ops v0 addr B (set_hdrs st s) t [] /\ files_ok size (mapBlockIndex st) fs.
Proof using Inj0 Hparams.
  intros [HQ Ht Hfs Hcl] [Hh Hself Hgen Hnew Hpar Htxs Hcount _ _] E.
  destruct (AcceptBlockHeader_new H params cl now (hdrs s) (block_header block) st p) as (-> & Hst & _ & i & Em & Hpp & Htx & H0 & _ & Hs); [done..|].
  exists i. split_and!; try done.
  - apply (Queue_header ops v0 addr B s t st (GetHash H (block_header block)) i); [done..|by eexists|lia|].
    destruct (t_index _ Hst (GetHash H (block_header block)) i) as (_ & Hl & _); [rewrite Em; apply lookup_insert_eq|]. unfold link_ok in Hl.
    rewrite Hpp, Em in Hl. destruct Hl as (qi & Hq & Hhq). rewrite lookup_insert_ne in Hq by done. rewrite Hpar in Hq. injection Hq as <-.
    replace (nHeight i + 1) with (nHeight pi + 2) by lia. done.
  - rewrite Em. apply files_ok_header; [|done]. unfold have_data. by rewrite Hs.
Qed.

(** With [fNew], whether the block is stored. *)
Lemma AcceptBlock_new s fs t block st p pi fRequested : node_ok ops v0 addr B size cl s fs t -> block_ok H params B size (index s) block p pi ->
  AcceptBlockHeader H params cl now (hdrs s) (block_header block) = Ok (st, inl p) ->
  exists i skip s1 fs1, let fNew := fRequested || negb skip in
    index (set_hdrs st s) !! p = Some i /\ uninteresting minimumChainWork (set_hdrs st s) i = Ok skip /\
    AcceptBlock H params cl now addr minimumChainWork d s fs block fRequested None = Ok (Accepted p fNew, s1, fs1) /\
    Queue ops v0 addr B s1 t [] /\ files_ok size (index s1) fs1 /\ fRequestShutdown s1 = fRequestShutdown s /\
    (forall q, eligible (index s) q -> eligible (index s1) q) /\
    (fNew = true -> (exists i', index s1 !! p = Some i' /\ have_data i' = true) /\
      (eligible (index s) (hdr_hashPrevBlock (block_header block)) -> eligible (index s1) p)) /\
    (fNew = false -> s1 = set_hdrs st s /\ fs1 = fs).
Proof using Inj0 Hparams Hdisk.
  intros Hn Hb E. destruct (header_joined s fs t block st p pi Hn Hb E) as (i & Em & Hpp & Htx & H0 & Hs & HQ & Hfs).
  destruct Hn as [HQ0 _ _ _], Hb as [_ _ _ Hnew Hpar Htxs _ Hsz Hfit]. set (s0 := set_hdrs st s) in *.
  pose proof (a_index _ _ _ _ _ _ _ _ (proj1 (proj2 (q_acts _ _ _ _ _ _ _ HQ0)))) as Hm.
  assert (index s0 = <[p := i]> (index s)) as Ei by exact Em. assert (index s0 !! p = Some i) as Hi by (rewrite Ei; apply lookup_insert_eq).
  assert (have_data i = false) as Hd by (unfold have_data; by rewrite Hs).
  destruct (uninteresting_total s0 t i HQ) as [skip Eb]. exists i, skip.
  unfold AcceptBlock. rewrite E. cbn [mbind result_bind]. fold s0. rewrite Hi. cbn [deref mbind result_bind]. rewrite Eb. cbn [mbind result_bind].
  rewrite Hd. cbn [orb]. replace (negb fRequested && skip) with (negb (fRequested || negb skip)) by (by destruct fRequested, skip).
  assert (forall q, eligible (index s) q -> eligible (index s0) q) as Hmono by (intros q Hq; rewrite Ei; by apply fresh_eligible).
  destruct (fRequested || negb skip); cbn [negb]; [|exists s0, fs; by split_and!].
  destruct (store_block_spec s0 fs t block p i) as (s1 & fs1 & E1 & HQ1 & Hk & Hfs1 & Hdata & Hlink); [done..|]. exists s1, fs1.
  rewrite E1. cbn [mbind result_bind]. unfold flush_prune. rewrite (proj2 (proj2 Hdisk)). cbn [andb mbind result_bind].
  split_and!; try done.
  - by rewrite (k_shutdown _ _ Hk).
  - intros q Hq. apply (kept_eligible s0); [done|by apply Hmono].
  - intros _. split; [done|]. intros [(j & Hj & Hjn) Hc]. split.
    + apply Hlink. intros q qi Hq Hqi. rewrite Hpp in Hq. injection Hq as <-. rewrite Ei, lookup_insert_ne in Hqi by congruence. congruence.
    + apply (kept_clean s0); [done|]. rewrite Ei. apply (fresh_child_clean _ _ _ Hm Hnew _ Hpp); [by eexists| |done]. unfold failed. by rewrite Hs.
Qed.
End Accept.

(** C2: From the network to the tip.  A block arrives whose header is new, has a known
    parent and is accepted by [AcceptBlockHeader], and that passes [CheckBlock] and
    fits into a block file; the node does not prune, its disk works and it is not told
    to stop at a height.  If the block was requested, or has enough work and is not too
    far ahead ([uninteresting] is [false]), [AcceptBlock] stores it: it gets a place of
    its own in the block files and joins the blocks that may become the tip when its
    parent is one of them.  Otherwise only its header is kept.  In both cases no block
    that could become the tip is lost, and then, on a healthy node, [ProcessNewBlock]
    terminates and returns [true]: the tip is the best of all blocks whose whole chain
    [ConnectBlock] accepts, and the coins are the replay of the chain that ends there. *)
Theorem new_block_processed (H : PowHashes) (params : ChainParams) (cl : ChainLocks) (now : Z) (addr : ptr -> Z) `{!Inj eq eq addr}
    (minimumChainWork : base_uint) (d : Disk) {View} (ops : ChainOps View) `{!ChainOpsLaws ops} `{!Healthy ops} (v0 : View) (B : Z) (size : ptr -> Z)
    (Hash : list Z -> uint256) (founder : FounderPayment) (nMaxCash : Z) (s : ChainState View) (fs : FileState) (t : ptr) (ti : CBlockIndex)
    (block block' : CBlock) (st : HeaderState) (p : ptr) (pi : CBlockIndex) (fForceProcessing : bool) :
  chain_params_ok params -> disk_ok d -> node_ok ops v0 addr B size cl s fs t -> block_ok H params B size (index s) block p pi ->
  index s !! t = Some ti -> fRequestShutdown s = false ->
  CheckBlock Hash H params founder nMaxCash (Some ti) block (nHeight ti + 1) true true = Ok (None, block') ->
  AcceptBlockHeader H params cl now (hdrs s) (block_header block) = Ok (st, inl p) ->
  exists i skip s1 fs1, let fNew := fForceProcessing || negb skip in
    index (set_hdrs st s) !! p = Some i /\ uninteresting minimumChainWork (set_hdrs st s) i = Ok skip /\
    AcceptBlock H params cl now addr minimumChainWork d s fs block' fForceProcessing None = Ok (Accepted p fNew, s1, fs1) /\
    files_ok size (index s1) fs1 /\
    (forall q, eligible (index s) q -> eligible (index s1) q) /\
    (fNew = true -> (exists i', index s1 !! p = Some i' /\ have_data i' = true) /\
      (eligible (index s) (hdr_hashPrevBlock (block_header block)) -> eligible (index s1) p)) /\
    (fNew = false -> s1 = set_hdrs st s /\ fs1 = fs) /\
    exists N, forall fuel, (N <= fuel)%nat -> exists s' t',
      ProcessNewBlock H params cl now addr minimumChainWork d Hash founder nMaxCash ops fuel s fs 0 block fForceProcessing = Ok (true, block', s', fs1) /\
      Tip (chainActive s') = Some t' /\ eligible (index s1) t' /\ replays ops v0 (index s1) (Some t') (pcoinsTip s') /\
      forall q, eligible (index s1) q -> sound ops v0 (index s1) q -> q = t' \/ value_comp addr (index s1) q t' = true.
Proof.
  intros Hparams Hdisk Hn Hb Hti Hs EC EH. destruct (CheckBlock_block _ _ _ _ _ _ _ _ _ _ _ _ EC) as [Eh Ev].
  assert (block_ok H params B size (index s) block' p pi) as Hb' by (destruct Hb; split; unfold block_size in *; by rewrite ?Eh, ?Ev).
  rewrite <- Eh in EH.
  destruct (AcceptBlock_new H params cl now addr minimumChainWork d ops v0 B size Hparams Hdisk s fs t block' st p pi fForceProcessing Hn Hb' EH)
    as (i & skip & s1 & fs1 & Hi & Hskip & E1 & HQ1 & Hfs1 & Hsd & Hkeep & Hjoin & Hold). rewrite Eh in Hjoin. exists i, skip, s1, fs1. split_and!; [done..|].
  destruct (ActivateBestChain_spec ops v0 addr s1 t t (Some (GetHash H (block_header block')))) as [N HN]; [apply HQ1|congruence|].
  exists N. intros fuel Hf. destruct (HN fuel Hf) as (s' & t' & T' & E' & _ & Htip & He & Hr & Hbest). exists s', t'. split; [|done].
  destruct (Acts_tip ops v0 addr s t t) as (ti' & Ht' & Etip); [apply Hn|]. unfold ProcessNewBlock. rewrite Etip. cbn [deref mbind result_bind].
  rewrite Hti. cbn [deref mbind result_bind]. rewrite EC. cbn [mbind result_bind]. rewrite E1. cbn [mbind result_bind]. rewrite E'. done.
Qed.

(** ** The first block after the genesis block *)

(** The hash and the entry of the genesis block. *)
Definition first_hash : ptr := 70 :: replicate 31 0.
Definition first_entry : CBlockIndex :=
  mkIndex None None 0 0 8 0 (of_u64 W256 32768) 1 1 (Z.lor BLOCK_HAVE_DATA BLOCK_VALID_TRANSACTIONS) 4 (replicate 32 9) 1618800784 0x20001fff 70 1 1618800784.
Definition first_index : BlockMap := {[ first_hash := first_entry ]}.
Definition first_chain : ChainState (list ptr) :=
  mkChainState (mkHeaderState first_index (Some first_hash) [] [] []) (chain_of first_index first_hash) [first_hash] {[ first_hash ]} [] None 2 (-1)
    (of_u64 W256 0) false.
Definition first_files : FileState := mkFiles [set_nSize 300 null_info] 0 ∅ false.
Definition first_disk : Disk := mkDisk (fun _ => true) true false false 0 0.
Definition first_size (p : ptr) : Z := 154.

Lemma first_cases p i : first_index !! p = Some i -> p = first_hash /\ i = first_entry.
Proof. unfold first_index. intros [<- <-]%lookup_singleton_Some. done. Qed.

Lemma first_index_ok : index_ok first_index.
Proof. intros p i [-> ->]%first_cases. split; [vm_compute; discriminate|]. split; [vm_compute; reflexivity|]. by intros s E. Qed.

Lemma first_tree : tree_ok (hdrs first_chain).
Proof.
  split; cbn [hdrs first_chain mapBlockIndex pindexBestHeader g_failed_blocks].
  - exact first_index_ok.
  - intros p i [-> ->]%first_cases. vm_compute. intuition congruence.
  - intros p i [-> ->]%first_cases. vm_compute. intuition congruence.
  - intros p i [-> ->]%first_cases. apply wf_test_ok. vm_compute. reflexivity.
  - intros b [= <-]. by eexists.
  - by intros f Hf%elem_of_nil.
Qed.

Lemma first_node : node_ok (toy_ops [5] false) [] toy_addr 10 first_size no_locks first_chain first_files first_hash.
Proof.
  assert (first_index !! first_hash = Some first_entry) as Hf by apply lookup_singleton_eq.
  assert (forall p, clean first_index p) as Hcl by (intros p; apply all_clean; vm_compute; reflexivity).
  assert (eligible first_index first_hash) as He by (split; [by exists first_entry|done]).
  assert (replays (toy_ops [5] false) [] first_index (Some first_hash) [first_hash]) as Hr by toy_replay.
  split; [|exact first_tree| |done].
  - split; try done.
    + split; [done|]. split; [|done]. split; try done; try (by apply first_tree).
      * intros p i q qi [-> ->]%first_cases. done.
      * intros p i q j [-> ->]%first_cases [-> ->]%first_cases. done.
      * intros p i [-> ->]%first_cases. done.
      * intros p Hp. change (p ∈ ({[ first_hash ]} : gset ptr)) in Hp. apply elem_of_singleton in Hp as ->. apply He.
      * by eexists.
      * intros p [(i & [-> _]%first_cases & _) _] _. change (first_hash ∈ ({[ first_hash ]} : gset ptr)). by apply elem_of_singleton.
    + intros p i [-> ->]%first_cases _ _. vm_compute. discriminate.
    + intros p i [-> ->]%first_cases. vm_compute. intuition congruence.
    + split; [by intros a b H%elem_of_nil|intros p i [-> ->]%first_cases _; vm_compute; discriminate|]. by intros p i a ai [-> ->]%first_cases _ Hpp.
    + by intros q H%elem_of_nil.
    + constructor.
  - split.
    + repeat constructor; cbn; lia.
    + cbn. lia.
    + intros p i [-> ->]%first_cases _. exists (set_nSize 300 null_info). vm_compute. intuition congruence.
    + intros p q i j [-> ->]%first_cases [-> ->]%first_cases. done.
Qed.

Lemma early_block_ok : block_ok toy_hashes toy_params 10 first_size first_index early_block (GetHash toy_hashes (block_header early_block)) first_entry.
Proof.
  split; try (vm_compute; congruence); try (vm_compute; intuition congruence).
  - unfold header_ok, uint256_ok, is_u32. vm_compute. repeat split; try congruence; repeat constructor; congruence.
Qed.

(** The new block was not requested, and becomes the tip. *)
Lemma new_block_processed_witness :
  exists fuel s' fs', ProcessNewBlock toy_hashes toy_params no_locks 1618800900 toy_addr (of_u64 W256 0) first_disk early_hash early_founder 0
      (toy_ops [5] false) fuel first_chain first_files 0 early_block false = Ok (true, set_fChecked early_block, s', fs') /\
    Tip (chainActive s') = Some (GetHash toy_hashes (block_header early_block)).
Proof.
  destruct (@new_block_processed toy_hashes toy_params no_locks 1618800900 toy_addr toy_addr_inj (of_u64 W256 0) first_disk _
    (toy_ops [5] false) (toy_ops_laws [5] false) (toy_ops_healthy [5]) [] 10 first_size early_hash early_founder 0 first_chain first_files first_hash
    first_entry early_block (set_fChecked early_block)
    (toy_accept (hdrs first_chain) (block_header early_block)) (GetHash toy_hashes (block_header early_block)) first_entry false)
    as (i0 & skip & s1 & fs1 & _ & _ & E1 & _ & _ & _ & _ & N & HN).
  - exact toy_params_ok.
  - split; [reflexivity|]. split; reflexivity.
  - exact first_node.
  - exact early_block_ok.
  - vm_compute. reflexivity.
  - reflexivity.
  - vm_compute. reflexivity.
  - vm_compute. reflexivity.
  - destruct (HN N (le_n N)) as (s' & t' & E & Ht & He & _ & Hbest). exists N, s', fs1. split; [exact E|]. rewrite Ht. f_equal.
    vm_compute in E1. injection E1 as _ <- _. symmetry.
    destruct (Hbest (GetHash toy_hashes (block_header early_block))) as [Hq|Hq]; [| |exact Hq|].
    + split; [eexists; split; [vm_compute; reflexivity|discriminate]|]. apply all_clean. vm_compute. reflexivity.
    + eexists. toy_replay.
    + destruct He as [(i & Hi & _) _]. apply elem_of_dom_2 in Hi.
      assert (t' ∈ ({[ first_hash; GetHash toy_hashes (block_header early_block) ]} : gset ptr)) as Hin
        by (eapply eq_ind; [exact Hi|]; apply (bool_decide_eq_true_1 _); vm_compute; reflexivity).
      apply elem_of_union in Hin as [->%elem_of_singleton| ->%elem_of_singleton]; vm_compute in Hq; discriminate.
Defined.
