(* ===== verification/HashStream.v ===== *)
(** * Buffered hashing
    (the Write and Finalize methods of the hashers of src/src/crypto)

    SHA-1, SHA-256, SHA-512 and RIPEMD-160 share one scheme: a hasher keeps the
    chaining state, a buffer of one block and the number of bytes written; [Write]
    hands whole blocks to the compression function and keeps the rest, [Finalize]
    writes the padding and the length.  The scheme is modelled once, over the
    compression function and the block size; the buffer is an array whose bytes
    beyond the used part are whatever they were. *)

From Stdlib Require Import ZArith Lia.
From stdpp Require Import base tactics numbers option list.
From S2P Require Import Prelude.

Open Scope Z_scope.

(** [memcpy(buf + off, data, len)] *)
Definition memcpy (buf : list Z) (off : nat) (data : list Z) : list Z :=
  take off buf ++ data ++ drop (off + length data) buf.

Section Stream.
Context {S : Type} (B : nat) (transform : S -> list Z -> S).

Record Hasher := mkHasher { h_s : S; h_buf : list Z; h_bytes : Z }.

(** The compression of [n] blocks in a row. *)
Fixpoint transform_n (n : nat) (s : S) (chunk : list Z) : S :=
  match n with
  | O => s
  | Datatypes.S n => transform_n n (transform s (take B chunk)) (drop B chunk)
  end.

(** Whole blocks straight from the source: all at once, or one after the other. *)
Definition blocks_run (s : S) (data : list Z) : S * list Z :=
  if (B <=? length data)%nat
  then let blocks := (length data / B)%nat in (transform_n blocks s data, drop (B * blocks) data)
  else (s, data).

Fixpoint chunks_run (fuel : nat) (s : S) (data : list Z) : S * list Z :=
  match fuel with
  | O => (s, data)
  | Datatypes.S fuel => if (B <=? length data)%nat then chunks_run fuel (transform s (take B data)) (drop B data) else (s, data)
  end.

(** The second half of [Write], with the buffer filled up to [bufsize]; [run] is
    one of the two ways above. *)
Definition write_rest (run : S -> list Z -> S * list Z) (h : Hasher) (data : list Z) (bufsize : nat) : Hasher :=
  let '(s, rest) := run (h_s h) data in
  let h := mkHasher s (h_buf h) (u64 (h_bytes h + Z.of_nat (length data - length rest))) in
  if (0 <? length rest)%nat
  then mkHasher (h_s h) (memcpy (h_buf h) bufsize rest) (u64 (h_bytes h + Z.of_nat (length rest)))
  else h.

(** The first half fills the buffer and processes it. *)
Definition fill (h : Hasher) (data : list Z) (bufsize : nat) : Hasher :=
  let buf := memcpy (h_buf h) bufsize (take (B - bufsize) data) in
  mkHasher (transform (h_s h) buf) buf (u64 (h_bytes h + Z.of_nat (B - bufsize))).

Definition Write (run : S -> list Z -> S * list Z) (h : Hasher) (data : list Z) : Hasher :=
  let bufsize := Z.to_nat (h_bytes h mod Z.of_nat B) in
  if negb (bufsize =? 0)%nat && (B <=? bufsize + length data)%nat
  then write_rest run (fill h data bufsize) (drop (B - bufsize) data) 0
  else write_rest run h data bufsize.

(** The two writes of [Finalize]: the constant [P] is 119 or 239, and [desc] lays
    out the number of bits. *)
Definition Finish (run : S -> list Z -> S * list Z) (P : Z) (desc : Z -> list Z) (h : Hasher) : Hasher :=
  let pad := 0x80 :: replicate (B - 1) 0 in
  let sizedesc := desc (u64 (Z.shiftl (h_bytes h) 3)) in
  Write run (Write run h (take (Z.to_nat (1 + (P - h_bytes h mod Z.of_nat B) mod Z.of_nat B)) pad)) sizedesc.

(** ** What the buffer stands for *)

Definition run_ok (run : S -> list Z -> S * list Z) : Prop := forall s data,
  run s data = (transform_n (length data / B) s data, drop (B * (length data / B)) data).

(** After the bytes [msg]: the whole blocks are compressed, the rest is in the
    buffer. *)
Record holds (s0 : S) (h : Hasher) (msg : list Z) : Prop := {
  ho_state : h_s h = transform_n (length msg / B) s0 msg;
  ho_buf : take (length msg mod B) (h_buf h) = drop (B * (length msg / B)) msg;
  ho_length : length (h_buf h) = B;
  ho_bytes : h_bytes h = u64 (Z.of_nat (length msg))
}.

Context (HB : (0 < B)%nat) (Hdiv : (Z.of_nat B | 2 ^ 64)).

Lemma blocks_run_ok : run_ok blocks_run.
Proof using HB Hdiv.
  intros s data. unfold blocks_run. destruct (Nat.leb_spec B (length data)); [done|].
  by rewrite Nat.div_small, Nat.mul_0_r by done.
Qed.

Lemma div_step n : (B <= n)%nat -> (n / B = Datatypes.S ((n - B) / B))%nat.
Proof using HB Hdiv. intros H. replace n with (n - B + 1 * B)%nat at 1 by lia. rewrite Nat.div_add by lia. lia. Qed.

Lemma chunks_run_spec fuel s data : (length data <= fuel)%nat ->
  chunks_run fuel s data = (transform_n (length data / B) s data, drop (B * (length data / B)) data).
Proof using HB Hdiv.
  revert s data. induction fuel as [|fuel IH]; intros s data Hf; cbn [chunks_run].
  { destruct data; [|cbn in Hf; lia]. cbn [length]. by rewrite Nat.Div0.div_0_l, Nat.mul_0_r. }
  destruct (Nat.leb_spec B (length data)) as [Hl|Hl]; [|by rewrite Nat.div_small, Nat.mul_0_r].
  rewrite IH, length_drop, (div_step _ Hl) by (rewrite length_drop; lia). cbn [transform_n]. rewrite drop_drop. f_equal. f_equal. lia.
Qed.

Lemma chunks_run_ok : run_ok (fun s data => chunks_run (length data) s data).
Proof using HB Hdiv. intros s data. by apply chunks_run_spec. Qed.

Lemma transform_n_app n s a b : (B * n <= length a)%nat -> transform_n n s (a ++ b) = transform_n n s a.
Proof using HB Hdiv.
  revert s a. induction n as [|n IH]; intros s a Hl; [done|]. cbn [transform_n].
  rewrite take_app_le, drop_app_le, IH by (rewrite ?length_drop; lia). done.
Qed.

Lemma transform_n_add n m s a : transform_n (n + m) s a = transform_n m (transform_n n s a) (drop (B * n) a).
Proof using HB Hdiv.
  revert s a. induction n as [|n IH]; intros s a; cbn [transform_n Nat.add]; [by rewrite Nat.mul_0_r|].
  rewrite IH, drop_drop. f_equal. f_equal. lia.
Qed.

Lemma memcpy_take buf off data : (off <= length buf)%nat -> take (off + length data) (memcpy buf off data) = take off buf ++ data.
Proof using HB Hdiv.
  intros Hl. unfold memcpy. rewrite app_assoc. apply take_app_length'. rewrite length_app, length_take. lia.
Qed.

Lemma memcpy_length buf off data : (off + length data <= length buf)%nat -> length (memcpy buf off data) = length buf.
Proof using HB Hdiv. intros Hl. unfold memcpy. rewrite !length_app, length_take, length_drop. lia. Qed.

Lemma bytes_mod n : Z.to_nat (u64 (Z.of_nat n) mod Z.of_nat B) = (n mod B)%nat.
Proof using HB Hdiv.
  unfold u64. rewrite Z.mod_mod_divide by done. rewrite <- Nat2Z.inj_mod. lia.
Qed.

Lemma u64_add a b : u64 (u64 a + b) = u64 (a + b).
Proof using HB Hdiv. unfold u64. by rewrite Zplus_mod_idemp_l. Qed.

(** The bytes that are not compressed yet. *)
Lemma tail_length (msg : list Z) : length (drop (B * (length msg / B)) msg) = (length msg mod B)%nat.
Proof using HB Hdiv. rewrite length_drop. pose proof (Nat.div_mod (length msg) B). lia. Qed.

Lemma fill_holds s0 h msg data : let r := (length msg mod B)%nat in holds s0 h msg -> (B - r <= length data)%nat ->
  holds s0 (fill h data r) (msg ++ take (B - r) data) /\ (length (msg ++ take (B - r) data) mod B = 0)%nat.
Proof using HB Hdiv.
  intros r [Hs Hb Hl Hn] Hle. set (n := length msg) in *. assert (r < B)%nat as Hr by (apply Nat.mod_upper_bound; lia).
  pose proof (Nat.div_mod n B ltac:(lia)) as Hdm. pose proof (tail_length msg) as Ht. fold n r in Ht, Hdm, Hb.
  set (x := take (B - r) data). assert (length x = (B - r)%nat) as Hx by (unfold x; rewrite length_take; lia).
  assert (length (msg ++ x) = Datatypes.S (n / B) * B)%nat as El by (rewrite length_app, Hx; fold n; nia).
  assert (memcpy (h_buf h) r x = drop (B * (n / B)) msg ++ x) as Ebuf.
  { rewrite <- Hb, <- memcpy_take, Hx, firstn_all2 by (rewrite ?memcpy_length; lia). done. }
  unfold fill. fold x. rewrite Ebuf. split; [split; cbn [h_s h_buf h_bytes]|]; rewrite ?El, ?Nat.div_mul, ?Nat.Div0.mod_mul by lia.
  - replace (Datatypes.S (n / B)) with (n / B + 1)%nat by lia. rewrite transform_n_add, transform_n_app, <- Hs, drop_app_le by lia.
    cbn [transform_n]. rewrite firstn_all2; [done|]. rewrite length_app, Ht. lia.
  - by rewrite (drop_ge (msg ++ x)) by lia.
  - rewrite length_app, Ht. lia.
  - rewrite Hn, u64_add. f_equal. nia.
  - done.
Qed.

Lemma write_rest_holds run s0 h msg data : let r := (length msg mod B)%nat in run_ok run -> holds s0 h msg ->
  r = 0%nat \/ (r + length data < B)%nat -> holds s0 (write_rest run h data r) (msg ++ data).
Proof using HB Hdiv.
  intros r Hrun [Hs Hb Hl Hn] Hc. set (n := length msg) in *. assert (r < B)%nat as Hr by (apply Nat.mod_upper_bound; lia).
  pose proof (Nat.div_mod n B ltac:(lia)) as Hdm. pose proof (tail_length msg) as Ht. fold n r in Ht, Hdm, Hb.
  unfold write_rest. rewrite Hrun. cbn [h_s h_buf h_bytes]. set (q := (length data / B)%nat). pose proof (Nat.div_mod (length data) B ltac:(lia)) as Hdd. fold q in Hdd.
  assert (q = 0%nat \/ r = 0%nat) as Hq by (destruct Hc; [by right|left; apply Nat.div_small; lia]).
  pose proof (tail_length data) as Htd. fold q in Htd. pose proof (Nat.mod_upper_bound (length data) B ltac:(lia)) as Hub.
  assert (r + length data mod B < B)%nat as Hsum by (destruct Hc; [lia|rewrite Nat.mod_small; lia]).
  assert (length (msg ++ data) = (n / B + q) * B + (r + length data mod B))%nat as El by (rewrite length_app; fold n; nia).
  assert (length (msg ++ data) / B = n / B + q)%nat as Eq by (rewrite El, Nat.div_add_l, (Nat.div_small (r + _)) by lia; lia).
  assert (length (msg ++ data) mod B = r + length data mod B)%nat as Em by (rewrite El, Nat.add_comm, Nat.Div0.mod_add; by apply Nat.mod_small).
  assert (transform_n (length (msg ++ data) / B) s0 (msg ++ data) = transform_n q (h_s h) data) as Es.
  { rewrite Eq, transform_n_add, transform_n_app, <- Hs by lia. destruct Hq as [->|Hr0]; [done|]. f_equal.
    rewrite drop_app_ge by lia. fold n. by replace (B * (n / B) - n)%nat with 0%nat by lia. }
  assert (drop (B * (length (msg ++ data) / B)) (msg ++ data) = drop (B * (n / B)) msg ++ drop (B * q) data) as Edr.
  { rewrite Eq. destruct Hq as [->|Hr0]; [by rewrite Nat.mul_0_r, Nat.add_0_r, drop_app_le by lia|].
    rewrite drop_app_ge, (drop_ge msg) by lia. fold n. cbn. f_equal. nia. }
  destruct (Nat.ltb_spec 0 (length (drop (B * q) data))); split; cbn [h_s h_buf h_bytes]; rewrite ?Es, ?Edr, ?Em; try done.
  - rewrite <- Htd, memcpy_take by lia. by rewrite Hb.
  - rewrite memcpy_length; lia.
  - rewrite Hn, u64_add, <- Z.add_assoc, u64_add, length_app. fold n. f_equal. rewrite Htd. lia.
  - replace (length data mod B)%nat with 0%nat by lia. rewrite Nat.add_0_r, Hb, (nil_length_inv (drop (B * q) data)), app_nil_r by lia. done.
  - rewrite Hn, u64_add, length_app. fold n. f_equal. lia.
Qed.

(** [Write] continues from any state of the buffer. *)
Lemma Write_holds run s0 h msg data : run_ok run -> holds s0 h msg -> holds s0 (Write run h data) (msg ++ data).
Proof using HB Hdiv.
  intros Hrun Hh. unfold Write. rewrite (ho_bytes _ _ _ Hh), bytes_mod. set (r := (length msg mod B)%nat).
  destruct (negb (r =? 0)%nat && (B <=? r + length data)%nat) eqn:Ec.
  - apply andb_true_iff in Ec as [_ Hle%Nat.leb_le]. destruct (fill_holds s0 h msg data Hh) as [Hf H0]; [fold r; lia|].
    fold r in Hf, H0. replace (msg ++ data) with ((msg ++ take (B - r) data) ++ drop (B - r) data) by (by rewrite <- app_assoc, take_drop).
    rewrite <- H0 at 1. apply write_rest_holds; [done..|]. by left.
  - apply write_rest_holds; [done..|]. fold r. apply andb_false_iff in Ec as [E%negb_false_iff%Nat.eqb_eq|E%Nat.leb_gt]; [by left|by right].
Qed.

(** ** Padding *)

(** The padded message: one bit, zeros up to [P + 1] modulo the block size, the
    length. *)
Definition padded (P : Z) (desc : Z -> list Z) (msg : list Z) : list Z :=
  msg ++ 0x80 :: replicate (Z.to_nat ((P - Z.of_nat (length msg)) mod Z.of_nat B)) 0 ++ desc (u64 (8 * Z.of_nat (length msg))).

(** The reference: the compression folded over the blocks of the padded message. *)
Definition digest (s0 : S) (P : Z) (desc : Z -> list Z) (msg : list Z) : S :=
  let p := padded P desc msg in transform_n (length p / B) s0 p.

Lemma Finish_digest run s0 P desc h msg : run_ok run -> holds s0 h msg -> h_s (Finish run P desc h) = digest s0 P desc msg.
Proof using HB Hdiv.
  intros Hrun Hh. unfold Finish, digest, padded. set (zs := Z.to_nat ((P - Z.of_nat (length msg)) mod Z.of_nat B)).
  pose proof (Z.mod_pos_bound (P - Z.of_nat (length msg)) (Z.of_nat B) ltac:(lia)) as Hz.
  assert (take (Z.to_nat (1 + (P - h_bytes h mod Z.of_nat B) mod Z.of_nat B)) (0x80 :: replicate (B - 1) 0) = 0x80 :: replicate zs 0) as ->.
  { assert ((P - h_bytes h mod Z.of_nat B) mod Z.of_nat B = (P - Z.of_nat (length msg)) mod Z.of_nat B) as ->.
    { rewrite Zminus_mod_idemp_r, (ho_bytes _ _ _ Hh). unfold u64. rewrite Zminus_mod, (Zminus_mod P (Z.of_nat _)).
      by rewrite Z.mod_mod_divide by done. }
    replace (Z.to_nat (1 + _)) with (Datatypes.S zs) by (unfold zs; lia). cbn [take]. f_equal. rewrite take_replicate. f_equal. unfold zs. lia. }
  assert (u64 (Z.shiftl (h_bytes h) 3) = u64 (8 * Z.of_nat (length msg))) as ->.
  { rewrite Z.shiftl_mul_pow2, (ho_bytes _ _ _ Hh), Z.mul_comm by lia. unfold u64. change (2 ^ 3) with 8. by rewrite Zmult_mod_idemp_r. }
  rewrite app_comm_cons, app_assoc. apply ho_state. by apply Write_holds, Write_holds.
Qed.

(** A new hasher, and any sequence of writes. *)
Lemma holds_new s0 buf : length buf = B -> holds s0 (mkHasher s0 buf 0) [].
Proof using HB Hdiv. intros Hl. split; cbn; rewrite ?Nat.Div0.div_0_l, ?Nat.Div0.mod_0_l by lia; try done. by rewrite Nat.mul_0_r. Qed.

Lemma writes_hold run s0 h msg parts : run_ok run -> holds s0 h msg -> holds s0 (foldl (Write run) h parts) (msg ++ mjoin parts).
Proof using HB Hdiv.
  intros Hrun. revert h msg. induction parts as [|d parts IH]; intros h msg Hh; cbn [foldl]; [by rewrite app_nil_r|].
  change (mjoin (d :: parts)) with (d ++ mjoin parts). rewrite app_assoc. by apply IH, Write_holds.
Qed.

End Stream.

(** Two compression functions that agree on the states that occur. *)
Lemma transform_n_ext {S} (P : S -> Prop) B (f g : S -> list Z -> S) n s data : (forall s c, P s -> f s c = g s c) ->
  (forall s c, P s -> P (g s c)) -> P s -> transform_n B f n s data = transform_n B g n s data.
Proof.
  intros Hfg HP. revert s data. induction n as [|n IH]; intros s data Hs; [done|]. cbn [transform_n]. rewrite Hfg by done. by apply IH, HP.
Qed.

Lemma transform_n_inv {S} (P : S -> Prop) B (f : S -> list Z -> S) n s data : (forall s c, P s -> P (f s c)) -> P s -> P (transform_n B f n s data).
Proof. intros HP. revert s data. induction n as [|n IH]; intros s data Hs; [done|]. by apply IH, HP. Qed.
