(* ===== verification/HashRounds.v ===== *)
(** * Straight-line rounds
    (shared by the transforms of src/src/crypto)

    The transforms of the hash functions are straight-line code: a few variables
    whose roles rotate from round to round, and sixteen words w0..w15 of which each
    line may overwrite one.  Here are the words, what an argument of a round may do
    to them, and the proof that the message schedule kept in place is the sequence
    the standards define. *)

From Stdlib Require Import ZArith Lia.
From stdpp Require Import base tactics numbers option list.
From S2P Require Import Prelude.

Open Scope Z_scope.

(** Words in memory (src/src/crypto/common.h). *)
Definition ReadBE32 (p : list Z) (off : nat) : Z :=
  p !!! off * 2 ^ 24 + p !!! (off + 1)%nat * 2 ^ 16 + p !!! (off + 2)%nat * 2 ^ 8 + p !!! (off + 3)%nat.
Definition WriteBE32 (x : Z) : list Z := [u8 (Z.shiftr x 24); u8 (Z.shiftr x 16); u8 (Z.shiftr x 8); u8 x].
Definition ReadBE64 (p : list Z) (off : nat) : Z := ReadBE32 p off * 2 ^ 32 + ReadBE32 p (off + 4).
Definition WriteBE64 (x : Z) : list Z := WriteBE32 (Z.shiftr x 32) ++ WriteBE32 x.

(** The last argument of a round: its value, and the words it leaves. *)
Abbreviation arg := (list Z -> Z * list Z).

(** [w_i = x] *)
Definition set (i : nat) (x : list Z -> Z) : arg := fun w => (x w, <[i := x w]> w).
(** an expression that assigns nothing *)
Definition val (x : list Z -> Z) : arg := fun w => (x w, w).
(** [k + x] for an expression [x] on the words *)
Definition key (wrap : Z -> Z) (k : Z) (x : arg) : arg := fun w => let '(y, w) := x w in (wrap (k + y), w).

(** The arguments of consecutive rounds, and the words they leave. *)
Fixpoint run_keys (kws : list arg) (w : list Z) : list Z * list Z :=
  match kws with
  | [] => ([], w)
  | kw :: kws => let '(k, w) := kw w in let '(ks, w) := run_keys kws w in (k :: ks, w)
  end.
Definition keys (kws : list arg) (w : list Z) : list Z := (run_keys kws w).1.

Lemma keys_cons (kw : arg) kws w k w' : kw w = (k, w') -> keys (kw :: kws) w = k :: keys kws w'.
Proof. intros E. unfold keys. cbn [run_keys]. rewrite E. by destruct (run_keys kws w'). Qed.

Lemma run_keys_cons (kw : arg) kws w k w' ks y : kw w = (k, w') -> run_keys kws w' = (ks, y) -> run_keys (kw :: kws) w = (k :: ks, y).
Proof. intros E E'. cbn [run_keys]. by rewrite E, E'. Qed.

Lemma keys_app kws kws' w : keys (kws ++ kws') w = keys kws w ++ keys kws' (run_keys kws w).2.
Proof.
  revert w. induction kws as [|kw kws IH]; intros w; [done|]. destruct (kw w) as [k w'] eqn:E. cbn [app].
  rewrite !(keys_cons _ _ _ k w'), IH by done. cbn [run_keys]. rewrite E. by destruct (run_keys kws w').
Qed.

(** ** Rotating variables *)

(** The variable that plays the role [j] in round [t], of [n] variables. *)
Definition rot (n t j : nat) : nat := ((j + (n - 1) * t) mod n)%nat.

Lemma rot_mod n t j : (0 < n)%nat -> rot n t j = rot n (t mod n) j.
Proof.
  intros Hn. unfold rot. pose proof (Nat.div_mod t n ltac:(lia)) as Ht. set (q := (t / n)%nat) in Ht. set (r := (t mod n)%nat) in *.
  replace (j + (n - 1) * t)%nat with (j + (n - 1) * r + ((n - 1) * q) * n)%nat by nia. apply Nat.Div0.mod_add.
Qed.

Lemma rotate_mod {A} (s : list A) n t : length s = n -> (0 < n)%nat -> rotate t s = rotate (t mod n) s /\ rotate (S t) s = rotate (S (t mod n)) s.
Proof.
  intros Hs Hn. unfold rotate. rewrite Hs, Nat.Div0.mod_mod. split; [done|]. pose proof (Nat.div_mod t n ltac:(lia)) as Ht.
  replace (S t) with (S (t mod n) + (t / n) * n)%nat by lia. by rewrite Nat.Div0.mod_add.
Qed.

Lemma rotate_full {A} (s : list A) n m : length s = n -> rotate (n * m) s = s.
Proof. intros Hs. unfold rotate. rewrite Hs, Nat.mul_comm, Nat.Div0.mod_mul. by rewrite take_0, app_nil_r. Qed.

(** ** The schedule in place *)

Lemma mod16_ne u t : (u < t)%nat -> (t < u + 16)%nat -> (u mod 16 <> t mod 16)%nat.
Proof. intros H1 H2 E. pose proof (Nat.div_mod u 16 ltac:(lia)). pose proof (Nat.div_mod t 16 ltac:(lia)). nia. Qed.

Section Schedule.
(** [next] computes a word from those before it, [next back] with [back k] the word
    [k] steps back; the last [q] words are not stored. *)
Context (wrap : Z -> Z) (next : (nat -> Z) -> Z) (q : nat).

Definition extend (W : list Z) : list Z := W ++ [next (fun k => W !!! (length W - k)%nat)].
Definition schedule (R : nat) (M : list Z) : list Z := Nat.iter (R - 16) extend M.

Context (Hq : (q <= 16)%nat) (Hnext : forall f g, (forall k, (q <= k <= 16)%nat -> f k = g k) -> next f = next g).
Context (Hq1 : (1 <= q)%nat).

Lemma extend_spec W n : (16 <= length W)%nat ->
  length (Nat.iter n extend W) = (length W + n)%nat /\
  (forall t, (t < length W)%nat -> Nat.iter n extend W !!! t = W !!! t) /\
  forall t, (length W <= t < length W + n)%nat -> Nat.iter n extend W !!! t = next (fun k => Nat.iter n extend W !!! (t - k)%nat).
Proof using Hq Hnext Hq1.
  intros Hl. induction n as [|n (IH1 & IH2 & IH3)]; [cbn; split_and!; try done; lia|]. cbn [Nat.iter nat_rect]. fold (Nat.iter n extend W).
  set (X := Nat.iter n extend W) in *. unfold extend at 1. split_and!.
  - rewrite length_app, IH1. cbn. lia.
  - intros t Ht. unfold extend. rewrite lookup_total_app_l by lia. auto.
  - intros t Ht. unfold extend. destruct (decide (t = length W + n)%nat) as [->|Hne].
    + rewrite (lookup_total_app_r X _ (length W + n)) by lia. rewrite IH1, Nat.sub_diag. apply Hnext. intros k Hk.
      by rewrite lookup_total_app_l by lia.
    + rewrite lookup_total_app_l by lia. rewrite IH3 by lia. apply Hnext. intros k Hk. by rewrite lookup_total_app_l by lia.
Qed.

Lemma schedule_spec R M : length M = 16%nat -> (16 <= R)%nat -> length (schedule R M) = R /\
  (forall t, (t < 16)%nat -> schedule R M !!! t = M !!! t) /\
  forall t, (16 <= t < R)%nat -> schedule R M !!! t = next (fun k => schedule R M !!! (t - k)%nat).
Proof using Hq Hnext Hq1.
  intros HM HR. destruct (extend_spec M (R - 16)) as (Hl & H1 & H2); [lia|]. rewrite HM in *. split_and!; [unfold schedule; lia|done|].
  intros t Ht. apply H2. lia.
Qed.

Definition gen_kw (R : nat) (K M : list Z) (t : nat) : arg :=
  key wrap (K !!! t)
    (if decide (t < 16)%nat then set t (fun _ => M !!! t)
     else if decide (t < R - q)%nat then set (t mod 16) (fun w => next (fun k => w !!! ((t + 16 - k) mod 16)%nat))
     else val (fun w => next (fun k => w !!! ((t + 16 - k) mod 16)%nat))).

(** The word [W_u] is in place [u mod 16] until it is overwritten. *)
Definition in_place (R : nat) (W w : list Z) (t : nat) : Prop := length w = 16%nat /\
  forall u, (u < t)%nat -> (t <= u + 16)%nat -> (u < R - q)%nat -> w !!! (u mod 16)%nat = W !!! u.

Lemma in_place_set R W w t : in_place R W w t -> in_place R W (<[(t mod 16)%nat := W !!! t]> w) (S t).
Proof using Hq Hq1.
  intros [Hl Hw]. split; [by rewrite length_insert|]. intros u H1 H2 H3. pose proof (Nat.mod_upper_bound t 16 ltac:(lia)).
  destruct (decide (u = t)) as [->|Hne]; [by rewrite list_lookup_total_insert_eq by lia|].
  rewrite list_lookup_total_insert_ne by (apply not_eq_sym, mod16_ne; lia). apply Hw; lia.
Qed.

Lemma gen_keys_from R K M W n t w : length K = R -> length W = R -> (forall t, (t < 16)%nat -> W !!! t = M !!! t) ->
  (forall t, (16 <= t < R)%nat -> W !!! t = next (fun k => W !!! (t - k)%nat)) -> (16 + q <= R)%nat -> (t + n = R)%nat -> in_place R W w t ->
  keys (map (gen_kw R K M) (seq t n)) w = (fun p => wrap (p.1 + p.2)) <$> zip (drop t K) (drop t W).
Proof using Hq Hnext Hq1.
  intros HK Hl H1 H2 HR. revert t w. induction n as [|n IH]; intros t x Ht Hx; [rewrite !drop_ge by lia; done|].
  assert (exists y, gen_kw R K M t x = (wrap (K !!! t + W !!! t), y) /\ in_place R W y (S t)) as (y & Ey & Hy).
  { unfold gen_kw, key. pose proof (in_place_set R W x t Hx) as Hset. destruct Hx as [Hxl Hx]. case_decide as Hlt.
    { unfold set. rewrite <- H1, Nat.mod_small in * by lia. by eexists. }
    assert (next (fun k => x !!! ((t + 16 - k) mod 16)%nat) = W !!! t) as E.
    { rewrite H2 by lia. apply Hnext. intros k Hk. rewrite <- Hx by lia. f_equal.
      replace (t + 16 - k)%nat with (t - k + 1 * 16)%nat by lia. apply Nat.Div0.mod_add. }
    case_decide; unfold set, val; rewrite E; [by eexists|]. eexists. split; [done|]. split; [done|]. intros u Hu1 Hu2 Hu3. apply Hx; lia. }
  cbn [seq map]. rewrite (keys_cons _ _ _ _ _ Ey), (IH (S t) y) by (done || lia).
  rewrite (drop_S K (K !!! t) t), (drop_S W (W !!! t) t) by (apply list_lookup_lookup_total_lt; lia). done.
Qed.

Lemma gen_keys R K M w : length K = R -> length M = 16%nat -> length w = 16%nat -> (16 + q <= R)%nat ->
  keys (map (gen_kw R K M) (seq 0 R)) w = (fun p => wrap (p.1 + p.2)) <$> zip K (schedule R M).
Proof using Hq Hnext Hq1.
  intros HK HM Hw HR. destruct (schedule_spec R M) as (Hl & H1 & H2); [lia..|].
  apply (gen_keys_from R K M (schedule R M) R 0%nat w); try done. split; [done|]. intros u Hu. lia.
Qed.
End Schedule.
