(* ===== verification/Sha2.v ===== *)
(** * The rounds of SHA-2
    (shared by src/src/crypto/sha256.cpp and src/src/crypto/sha512.cpp)

    Both transforms are straight-line code over eight variables a..h, whose roles
    rotate from round to round, and sixteen words w0..w15 that are overwritten in
    place.  A line of the source is one [Round]; the lines are compared with the
    algorithm of FIPS 180-4, which shifts the eight values and computes the
    message schedule as a sequence. *)

From Stdlib Require Import ZArith Lia.
From stdpp Require Import base tactics numbers option list.
From S2P Require Import Prelude HashRounds.

Open Scope Z_scope.

(** ** The constants of FIPS 180-4 *)

(** The standard takes the bits after the point of the cube roots of the first
    primes. *)
Definition is_prime (p : Z) : bool := forallb (fun d => negb (p mod d =? 0)) (seqZ 2 (p - 2)).
Definition primes (n : nat) : list Z := take n (List.filter is_prime (seqZ 2 500)).
Fixpoint cube_root (bits : nat) (x r : Z) : Z :=
  match bits with
  | O => r
  | S bits => let r' := r + 2 ^ Z.of_nat bits in cube_root bits x (if r' * r' * r' <=? x then r' else r)
  end.
Definition cube_root_fraction (w p : Z) : Z := cube_root (Z.to_nat (w + 4)) (p * 2 ^ (3 * w)) 0 mod 2 ^ w.

Definition Ch (x y z : Z) : Z := Z.lxor z (Z.land x (Z.lxor y z)).
Definition Maj (x y z : Z) : Z := Z.lor (Z.land x y) (Z.land z (Z.lor x y)).

(** One line of a transform: the variables that play a..h, and the last argument,
    which may assign to one of the words. *)
Inductive line := Round (a b c d e f g h : nat) (kw : arg).

Definition kw_of (l : line) : arg := match l with Round _ _ _ _ _ _ _ _ kw => kw end.

Section Sha2.
Context (wrap : Z -> Z) (Sigma0 Sigma1 sigma0 sigma1 : Z -> Z).

(** [w_i + sigma1(w_j) + w_k + sigma0(w_l)] *)
Definition mix (i j k l : nat) (w : list Z) : Z := wrap (w !!! i + (sigma1 (w !!! j) + w !!! k + sigma0 (w !!! l))).

Definition round_vars (a b c d e f g h : nat) (k : Z) (v : list Z) : list Z :=
  let t1 := wrap (v !!! h + Sigma1 (v !!! e) + Ch (v !!! e) (v !!! f) (v !!! g) + k) in
  let t2 := wrap (Sigma0 (v !!! a) + Maj (v !!! a) (v !!! b) (v !!! c)) in
  <[h := wrap (t1 + t2)]> (<[d := wrap (v !!! d + t1)]> v).

Definition exec_line (st : list Z * list Z) (l : line) : list Z * list Z :=
  let '(v, w) := st in
  match l with Round a b c d e f g h kw => let '(k, w) := kw w in (round_vars a b c d e f g h k v, w) end.

Definition exec (ls : list line) (st : list Z * list Z) : list Z * list Z := foldl exec_line st ls.

(** ** FIPS 180-4 *)

Definition ref_Ch (x y z : Z) : Z := Z.lxor (Z.land x y) (Z.land (Z.lnot x) z).
Definition ref_Maj (x y z : Z) : Z := Z.lxor (Z.lxor (Z.land x y) (Z.land x z)) (Z.land y z).

Definition ref_round (s : list Z) (kw : Z * Z) : list Z :=
  match s with
  | [a; b; c; d; e; f; g; h] =>
      let T1 := wrap (h + Sigma1 e + ref_Ch e f g + kw.1 + kw.2) in
      let T2 := wrap (Sigma0 a + ref_Maj a b c) in
      [wrap (T1 + T2); a; b; c; wrap (d + T1); e; f; g]
  | _ => s
  end.

(** A word of the message schedule from those before it (the sum in the order of
    the source). *)
Definition next_word (back : nat -> Z) : Z := wrap (back 16%nat + (sigma1 (back 2%nat) + back 7%nat + sigma0 (back 15%nat))).

Definition ref_rounds (K M s : list Z) : list Z := foldl ref_round s (zip K (schedule next_word (length K) M)).
Definition ref_compress (K M H : list Z) : list Z := zip_with (fun x y => wrap (x + y)) H (ref_rounds K M H).

(** ** The variables: the roles rotate *)

Definition gen_round (t : nat) (kw : arg) : line :=
  Round (rot 8 t 0) (rot 8 t 1) (rot 8 t 2) (rot 8 t 3) (rot 8 t 4) (rot 8 t 5) (rot 8 t 6) (rot 8 t 7) kw.

Lemma Ch_ref x y z : Ch x y z = ref_Ch x y z.
Proof. apply Z.bits_inj'. intros n Hn. unfold Ch, ref_Ch. rewrite !Z.lxor_spec, !Z.land_spec, Z.lxor_spec, Z.lnot_spec by done. by destruct (Z.testbit x n), (Z.testbit y n), (Z.testbit z n). Qed.

Lemma Maj_ref x y z : Maj x y z = ref_Maj x y z.
Proof. apply Z.bits_inj'. intros n Hn. unfold Maj, ref_Maj. rewrite !Z.lxor_spec, Z.lor_spec, !Z.land_spec, Z.lor_spec. by destruct (Z.testbit x n), (Z.testbit y n), (Z.testbit z n). Qed.

Context (Hwrap : forall x y, wrap (x + wrap y) = wrap (x + y)).

Lemma round_rotates t k x s : length s = 8%nat -> 
  round_vars (rot 8 t 0) (rot 8 t 1) (rot 8 t 2) (rot 8 t 3) (rot 8 t 4) (rot 8 t 5) (rot 8 t 6) (rot 8 t 7) (wrap (k + x)) (rotate t s) =
  rotate (S t) (ref_round s (k, x)).
Proof.
  intros Hs. destruct s as [|a [|b [|c [|d [|e [|f [|g [|h [|]]]]]]]]]; try done. clear Hs.
  rewrite !(rot_mod 8 t) by lia. rewrite (proj1 (rotate_mod [a; b; c; d; e; f; g; h] 8 t eq_refl ltac:(lia))).
  assert (length (ref_round [a; b; c; d; e; f; g; h] (k, x)) = 8%nat) as Hl by done. rewrite (proj2 (rotate_mod _ 8 t Hl ltac:(lia))).
  pose proof (Nat.mod_upper_bound t 8 ltac:(lia)) as Hb. destruct (t mod 8)%nat as [|[|[|[|[|[|[|[|]]]]]]]]; [..|lia];
    unfold round_vars, ref_round; cbn [fst snd]; rewrite <- !Ch_ref, <- !Maj_ref; cbn -[Ch Maj Z.add]; repeat (rewrite Hwrap || rewrite Z.add_assoc); reflexivity.
Qed.

Lemma ref_round_length s p : length s = 8%nat -> length (ref_round s p) = 8%nat.
Proof using Type. intros Hs. by destruct s as [|a [|b [|c [|d [|e [|f [|g [|h [|]]]]]]]]]. Qed.

Lemma ref_rounds_length ps s : length s = 8%nat -> length (foldl ref_round s ps) = 8%nat.
Proof using Type. revert s. induction ps as [|p ps IH]; intros s Hs; [done|]. by apply IH, ref_round_length. Qed.

Lemma exec_rounds kws ps t s w : length s = 8%nat -> keys kws w = (fun p => wrap (p.1 + p.2)) <$> ps ->
  (exec (zip_with gen_round (seq t (length kws)) kws) (rotate t s, w)).1 = rotate (t + length kws) (foldl ref_round s ps).
Proof using Hwrap.
  revert ps t s w. induction kws as [|kw kws IH]; intros ps t s w Hs Hk; [destruct ps; [|done]; by rewrite Nat.add_0_r|].
  destruct (kw w) as [k' w'] eqn:E. rewrite (keys_cons _ _ _ _ _ E) in Hk. destruct ps as [|[k x] ps]; [done|]. injection Hk as -> Hk. cbn [length seq zip_with]. unfold exec. cbn [foldl exec_line gen_round].
  rewrite E. cbn [fst snd]. rewrite round_rotates by done.
  specialize (IH ps (S t) (ref_round s (k, x)) w' (ref_round_length _ _ Hs) Hk). unfold exec in IH. rewrite IH. f_equal. lia.
Qed.

Lemma exec_is_ref ls n K M v w : length ls = (8 * n)%nat -> ls = zip_with gen_round (seq 0 (length ls)) (kw_of <$> ls) ->
  keys (kw_of <$> ls) w = (fun p => wrap (p.1 + p.2)) <$> zip K (schedule next_word (length K) M) -> length v = 8%nat ->
  (exec ls (v, w)).1 = ref_rounds K M v.
Proof using Hwrap.
  intros Hl Hls Hk Hv. apply (exec_rounds _ _ 0 v) in Hk; [|done]. rewrite length_fmap, <- Hls, Hl, (rotate_full _ 8 n) in Hk by (by apply ref_rounds_length).
  unfold ref_rounds. rewrite <- Hk. f_equal. f_equal. rewrite <- (rotate_full v 8 0 Hv) at 1. done.
Qed.

Lemma next_word_ext f g : (forall k, (2 <= k <= 16)%nat -> f k = g k) -> next_word f = next_word g.
Proof using Type. intros H. unfold next_word. by rewrite !H by lia. Qed.

(** The straight-line code computes the rounds of the standard. *)
Lemma transform_is_ref n ls K M v w : let R := (8 * n)%nat in length K = R -> length M = 16%nat -> length v = 8%nat -> length w = 16%nat -> (18 <= R)%nat ->
  length ls = R -> ls = zip_with gen_round (seq 0 (length ls)) (kw_of <$> ls) -> kw_of <$> ls = map (gen_kw wrap next_word 2 R K M) (seq 0 R) ->
  (exec ls (v, w)).1 = ref_rounds K M v.
Proof using Hwrap.
  intros R HK HM Hv Hw HR Hl Hls Hkw. apply (exec_is_ref ls n); try done. rewrite Hkw, HK. apply gen_keys; try done; [lia|exact next_word_ext|lia].
Qed.
End Sha2.
