(* ===== verification/Sha256.v ===== *)
(** * SHA-256
    (src/src/crypto/sha256.cpp, the generic implementation)

    The transform and the specialised double hash of 64-byte inputs line by line,
    and the hasher [CSHA256].  The alternatives in assembler and with vector
    instructions are not modelled; they stand for the same functions. *)

From Stdlib Require Import ZArith Lia String Ascii.
From stdpp Require Import base tactics numbers option list.
From S2P Require Import Prelude HashStream HashRounds Sha2.

Open Scope Z_scope.

Definition Sigma0 (x : Z) : Z := Z.lxor (Z.lxor (Z.lor (Z.shiftr x 2) (u32 (Z.shiftl x 30))) (Z.lor (Z.shiftr x 13) (u32 (Z.shiftl x 19)))) (Z.lor (Z.shiftr x 22) (u32 (Z.shiftl x 10))).
Definition Sigma1 (x : Z) : Z := Z.lxor (Z.lxor (Z.lor (Z.shiftr x 6) (u32 (Z.shiftl x 26))) (Z.lor (Z.shiftr x 11) (u32 (Z.shiftl x 21)))) (Z.lor (Z.shiftr x 25) (u32 (Z.shiftl x 7))).
Definition sigma0 (x : Z) : Z := Z.lxor (Z.lxor (Z.lor (Z.shiftr x 7) (u32 (Z.shiftl x 25))) (Z.lor (Z.shiftr x 18) (u32 (Z.shiftl x 14)))) (Z.shiftr x 3).
Definition sigma1 (x : Z) : Z := Z.lxor (Z.lxor (Z.lor (Z.shiftr x 17) (u32 (Z.shiftl x 15))) (Z.lor (Z.shiftr x 19) (u32 (Z.shiftl x 13)))) (Z.shiftr x 10).

Definition Initialize : list Z :=
  [0x6a09e667; 0xbb67ae85; 0x3c6ef372; 0xa54ff53a; 0x510e527f; 0x9b05688c; 0x1f83d9ab; 0x5be0cd19].

Section Lines.
#[local] Abbreviation a := 0%nat (only parsing).
#[local] Abbreviation b := 1%nat (only parsing).
#[local] Abbreviation c := 2%nat (only parsing).
#[local] Abbreviation d := 3%nat (only parsing).
#[local] Abbreviation e := 4%nat (only parsing).
#[local] Abbreviation f := 5%nat (only parsing).
#[local] Abbreviation g := 6%nat (only parsing).
#[local] Abbreviation h := 7%nat (only parsing).

Definition transform_lines (chunk : list Z) : list line := [
  Round a b c d e f g h (key u32 0x428a2f98 (set 0 (fun _ => ReadBE32 chunk 0)));
  Round h a b c d e f g (key u32 0x71374491 (set 1 (fun _ => ReadBE32 chunk 4)));
  Round g h a b c d e f (key u32 0xb5c0fbcf (set 2 (fun _ => ReadBE32 chunk 8)));
  Round f g h a b c d e (key u32 0xe9b5dba5 (set 3 (fun _ => ReadBE32 chunk 12)));
  Round e f g h a b c d (key u32 0x3956c25b (set 4 (fun _ => ReadBE32 chunk 16)));
  Round d e f g h a b c (key u32 0x59f111f1 (set 5 (fun _ => ReadBE32 chunk 20)));
  Round c d e f g h a b (key u32 0x923f82a4 (set 6 (fun _ => ReadBE32 chunk 24)));
  Round b c d e f g h a (key u32 0xab1c5ed5 (set 7 (fun _ => ReadBE32 chunk 28)));
  Round a b c d e f g h (key u32 0xd807aa98 (set 8 (fun _ => ReadBE32 chunk 32)));
  Round h a b c d e f g (key u32 0x12835b01 (set 9 (fun _ => ReadBE32 chunk 36)));
  Round g h a b c d e f (key u32 0x243185be (set 10 (fun _ => ReadBE32 chunk 40)));
  Round f g h a b c d e (key u32 0x550c7dc3 (set 11 (fun _ => ReadBE32 chunk 44)));
  Round e f g h a b c d (key u32 0x72be5d74 (set 12 (fun _ => ReadBE32 chunk 48)));
  Round d e f g h a b c (key u32 0x80deb1fe (set 13 (fun _ => ReadBE32 chunk 52)));
  Round c d e f g h a b (key u32 0x9bdc06a7 (set 14 (fun _ => ReadBE32 chunk 56)));
  Round b c d e f g h a (key u32 0xc19bf174 (set 15 (fun _ => ReadBE32 chunk 60)));
  Round a b c d e f g h (key u32 0xe49b69c1 (set 0 (mix u32 sigma0 sigma1 0 14 9 1)));
  Round h a b c d e f g (key u32 0xefbe4786 (set 1 (mix u32 sigma0 sigma1 1 15 10 2)));
  Round g h a b c d e f (key u32 0x0fc19dc6 (set 2 (mix u32 sigma0 sigma1 2 0 11 3)));
  Round f g h a b c d e (key u32 0x240ca1cc (set 3 (mix u32 sigma0 sigma1 3 1 12 4)));
  Round e f g h a b c d (key u32 0x2de92c6f (set 4 (mix u32 sigma0 sigma1 4 2 13 5)));
  Round d e f g h a b c (key u32 0x4a7484aa (set 5 (mix u32 sigma0 sigma1 5 3 14 6)));
  Round c d e f g h a b (key u32 0x5cb0a9dc (set 6 (mix u32 sigma0 sigma1 6 4 15 7)));
  Round b c d e f g h a (key u32 0x76f988da (set 7 (mix u32 sigma0 sigma1 7 5 0 8)));
  Round a b c d e f g h (key u32 0x983e5152 (set 8 (mix u32 sigma0 sigma1 8 6 1 9)));
  Round h a b c d e f g (key u32 0xa831c66d (set 9 (mix u32 sigma0 sigma1 9 7 2 10)));
  Round g h a b c d e f (key u32 0xb00327c8 (set 10 (mix u32 sigma0 sigma1 10 8 3 11)));
  Round f g h a b c d e (key u32 0xbf597fc7 (set 11 (mix u32 sigma0 sigma1 11 9 4 12)));
  Round e f g h a b c d (key u32 0xc6e00bf3 (set 12 (mix u32 sigma0 sigma1 12 10 5 13)));
  Round d e f g h a b c (key u32 0xd5a79147 (set 13 (mix u32 sigma0 sigma1 13 11 6 14)));
  Round c d e f g h a b (key u32 0x06ca6351 (set 14 (mix u32 sigma0 sigma1 14 12 7 15)));
  Round b c d e f g h a (key u32 0x14292967 (set 15 (mix u32 sigma0 sigma1 15 13 8 0)));
  Round a b c d e f g h (key u32 0x27b70a85 (set 0 (mix u32 sigma0 sigma1 0 14 9 1)));
  Round h a b c d e f g (key u32 0x2e1b2138 (set 1 (mix u32 sigma0 sigma1 1 15 10 2)));
  Round g h a b c d e f (key u32 0x4d2c6dfc (set 2 (mix u32 sigma0 sigma1 2 0 11 3)));
  Round f g h a b c d e (key u32 0x53380d13 (set 3 (mix u32 sigma0 sigma1 3 1 12 4)));
  Round e f g h a b c d (key u32 0x650a7354 (set 4 (mix u32 sigma0 sigma1 4 2 13 5)));
  Round d e f g h a b c (key u32 0x766a0abb (set 5 (mix u32 sigma0 sigma1 5 3 14 6)));
  Round c d e f g h a b (key u32 0x81c2c92e (set 6 (mix u32 sigma0 sigma1 6 4 15 7)));
  Round b c d e f g h a (key u32 0x92722c85 (set 7 (mix u32 sigma0 sigma1 7 5 0 8)));
  Round a b c d e f g h (key u32 0xa2bfe8a1 (set 8 (mix u32 sigma0 sigma1 8 6 1 9)));
  Round h a b c d e f g (key u32 0xa81a664b (set 9 (mix u32 sigma0 sigma1 9 7 2 10)));
  Round g h a b c d e f (key u32 0xc24b8b70 (set 10 (mix u32 sigma0 sigma1 10 8 3 11)));
  Round f g h a b c d e (key u32 0xc76c51a3 (set 11 (mix u32 sigma0 sigma1 11 9 4 12)));
  Round e f g h a b c d (key u32 0xd192e819 (set 12 (mix u32 sigma0 sigma1 12 10 5 13)));
  Round d e f g h a b c (key u32 0xd6990624 (set 13 (mix u32 sigma0 sigma1 13 11 6 14)));
  Round c d e f g h a b (key u32 0xf40e3585 (set 14 (mix u32 sigma0 sigma1 14 12 7 15)));
  Round b c d e f g h a (key u32 0x106aa070 (set 15 (mix u32 sigma0 sigma1 15 13 8 0)));
  Round a b c d e f g h (key u32 0x19a4c116 (set 0 (mix u32 sigma0 sigma1 0 14 9 1)));
  Round h a b c d e f g (key u32 0x1e376c08 (set 1 (mix u32 sigma0 sigma1 1 15 10 2)));
  Round g h a b c d e f (key u32 0x2748774c (set 2 (mix u32 sigma0 sigma1 2 0 11 3)));
  Round f g h a b c d e (key u32 0x34b0bcb5 (set 3 (mix u32 sigma0 sigma1 3 1 12 4)));
  Round e f g h a b c d (key u32 0x391c0cb3 (set 4 (mix u32 sigma0 sigma1 4 2 13 5)));
  Round d e f g h a b c (key u32 0x4ed8aa4a (set 5 (mix u32 sigma0 sigma1 5 3 14 6)));
  Round c d e f g h a b (key u32 0x5b9cca4f (set 6 (mix u32 sigma0 sigma1 6 4 15 7)));
  Round b c d e f g h a (key u32 0x682e6ff3 (set 7 (mix u32 sigma0 sigma1 7 5 0 8)));
  Round a b c d e f g h (key u32 0x748f82ee (set 8 (mix u32 sigma0 sigma1 8 6 1 9)));
  Round h a b c d e f g (key u32 0x78a5636f (set 9 (mix u32 sigma0 sigma1 9 7 2 10)));
  Round g h a b c d e f (key u32 0x84c87814 (set 10 (mix u32 sigma0 sigma1 10 8 3 11)));
  Round f g h a b c d e (key u32 0x8cc70208 (set 11 (mix u32 sigma0 sigma1 11 9 4 12)));
  Round e f g h a b c d (key u32 0x90befffa (set 12 (mix u32 sigma0 sigma1 12 10 5 13)));
  Round d e f g h a b c (key u32 0xa4506ceb (set 13 (mix u32 sigma0 sigma1 13 11 6 14)));
  Round c d e f g h a b (key u32 0xbef9a3f7 (val (mix u32 sigma0 sigma1 14 12 7 15)));
  Round b c d e f g h a (key u32 0xc67178f2 (val (mix u32 sigma0 sigma1 15 13 8 0)))].

End Lines.

(** [s[i] += x] for all eight variables. *)
Definition add_vars (s v : list Z) : list Z := zip_with (fun x y => u32 (x + y)) s v.

(** The words have no initial value; each is assigned before it is read. *)
Definition no_words : list Z := replicate 16 0.

(** [Transform] for one block. *)
Definition Transform (s chunk : list Z) : list Z :=
  add_vars s (exec u32 Sigma0 Sigma1 (transform_lines chunk) (s, no_words)).1.

Section D64Lines.
#[local] Abbreviation a := 0%nat (only parsing).
#[local] Abbreviation b := 1%nat (only parsing).
#[local] Abbreviation c := 2%nat (only parsing).
#[local] Abbreviation d := 3%nat (only parsing).
#[local] Abbreviation e := 4%nat (only parsing).
#[local] Abbreviation f := 5%nat (only parsing).
#[local] Abbreviation g := 6%nat (only parsing).
#[local] Abbreviation h := 7%nat (only parsing).

(** The second transform of [TransformD64]: the block is the padding of a 64-byte
    message, so the words are constants. *)
Definition d64_padding_lines : list line := [
  Round a b c d e f g h (val (fun _ => 0xc28a2f98));
  Round h a b c d e f g (val (fun _ => 0x71374491));
  Round g h a b c d e f (val (fun _ => 0xb5c0fbcf));
  Round f g h a b c d e (val (fun _ => 0xe9b5dba5));
  Round e f g h a b c d (val (fun _ => 0x3956c25b));
  Round d e f g h a b c (val (fun _ => 0x59f111f1));
  Round c d e f g h a b (val (fun _ => 0x923f82a4));
  Round b c d e f g h a (val (fun _ => 0xab1c5ed5));
  Round a b c d e f g h (val (fun _ => 0xd807aa98));
  Round h a b c d e f g (val (fun _ => 0x12835b01));
  Round g h a b c d e f (val (fun _ => 0x243185be));
  Round f g h a b c d e (val (fun _ => 0x550c7dc3));
  Round e f g h a b c d (val (fun _ => 0x72be5d74));
  Round d e f g h a b c (val (fun _ => 0x80deb1fe));
  Round c d e f g h a b (val (fun _ => 0x9bdc06a7));
  Round b c d e f g h a (val (fun _ => 0xc19bf374));
  Round a b c d e f g h (val (fun _ => 0x649b69c1));
  Round h a b c d e f g (val (fun _ => 0xf0fe4786));
  Round g h a b c d e f (val (fun _ => 0x0fe1edc6));
  Round f g h a b c d e (val (fun _ => 0x240cf254));
  Round e f g h a b c d (val (fun _ => 0x4fe9346f));
  Round d e f g h a b c (val (fun _ => 0x6cc984be));
  Round c d e f g h a b (val (fun _ => 0x61b9411e));
  Round b c d e f g h a (val (fun _ => 0x16f988fa));
  Round a b c d e f g h (val (fun _ => 0xf2c65152));
  Round h a b c d e f g (val (fun _ => 0xa88e5a6d));
  Round g h a b c d e f (val (fun _ => 0xb019fc65));
  Round f g h a b c d e (val (fun _ => 0xb9d99ec7));
  Round e f g h a b c d (val (fun _ => 0x9a1231c3));
  Round d e f g h a b c (val (fun _ => 0xe70eeaa0));
  Round c d e f g h a b (val (fun _ => 0xfdb1232b));
  Round b c d e f g h a (val (fun _ => 0xc7353eb0));
  Round a b c d e f g h (val (fun _ => 0x3069bad5));
  Round h a b c d e f g (val (fun _ => 0xcb976d5f));
  Round g h a b c d e f (val (fun _ => 0x5a0f118f));
  Round f g h a b c d e (val (fun _ => 0xdc1eeefd));
  Round e f g h a b c d (val (fun _ => 0x0a35b689));
  Round d e f g h a b c (val (fun _ => 0xde0b7a04));
  Round c d e f g h a b (val (fun _ => 0x58f4ca9d));
  Round b c d e f g h a (val (fun _ => 0xe15d5b16));
  Round a b c d e f g h (val (fun _ => 0x007f3e86));
  Round h a b c d e f g (val (fun _ => 0x37088980));
  Round g h a b c d e f (val (fun _ => 0xa507ea32));
  Round f g h a b c d e (val (fun _ => 0x6fab9537));
  Round e f g h a b c d (val (fun _ => 0x17406110));
  Round d e f g h a b c (val (fun _ => 0x0d8cd6f1));
  Round c d e f g h a b (val (fun _ => 0xcdaa3b6d));
  Round b c d e f g h a (val (fun _ => 0xc0bbbe37));
  Round a b c d e f g h (val (fun _ => 0x83613bda));
  Round h a b c d e f g (val (fun _ => 0xdb48a363));
  Round g h a b c d e f (val (fun _ => 0x0b02e931));
  Round f g h a b c d e (val (fun _ => 0x6fd15ca7));
  Round e f g h a b c d (val (fun _ => 0x521afaca));
  Round d e f g h a b c (val (fun _ => 0x31338431));
  Round c d e f g h a b (val (fun _ => 0x6ed41a95));
  Round b c d e f g h a (val (fun _ => 0x6d437890));
  Round a b c d e f g h (val (fun _ => 0xc39c91f2));
  Round h a b c d e f g (val (fun _ => 0x9eccabbd));
  Round g h a b c d e f (val (fun _ => 0xb5c9a0e6));
  Round f g h a b c d e (val (fun _ => 0x532fb63c));
  Round e f g h a b c d (val (fun _ => 0xd2c741c6));
  Round d e f g h a b c (val (fun _ => 0x07237ea3));
  Round c d e f g h a b (val (fun _ => 0xa4954b68));
  Round b c d e f g h a (val (fun _ => 0x4c191d76))].

(** The third: eight words of the inner hash and the padding of a 32-byte message. *)
Definition d64_outer_lines : list line := [
  Round a b c d e f g h (key u32 0x428a2f98 (val (fun w => w !!! 0%nat)));
  Round h a b c d e f g (key u32 0x71374491 (val (fun w => w !!! 1%nat)));
  Round g h a b c d e f (key u32 0xb5c0fbcf (val (fun w => w !!! 2%nat)));
  Round f g h a b c d e (key u32 0xe9b5dba5 (val (fun w => w !!! 3%nat)));
  Round e f g h a b c d (key u32 0x3956c25b (val (fun w => w !!! 4%nat)));
  Round d e f g h a b c (key u32 0x59f111f1 (val (fun w => w !!! 5%nat)));
  Round c d e f g h a b (key u32 0x923f82a4 (val (fun w => w !!! 6%nat)));
  Round b c d e f g h a (key u32 0xab1c5ed5 (val (fun w => w !!! 7%nat)));
  Round a b c d e f g h (val (fun _ => 0x5807aa98));
  Round h a b c d e f g (val (fun _ => 0x12835b01));
  Round g h a b c d e f (val (fun _ => 0x243185be));
  Round f g h a b c d e (val (fun _ => 0x550c7dc3));
  Round e f g h a b c d (val (fun _ => 0x72be5d74));
  Round d e f g h a b c (val (fun _ => 0x80deb1fe));
  Round c d e f g h a b (val (fun _ => 0x9bdc06a7));
  Round b c d e f g h a (val (fun _ => 0xc19bf274));
  Round a b c d e f g h (key u32 0xe49b69c1 (set 0 (fun w => u32 (w !!! 0%nat + (sigma0 (w !!! 1%nat))))));
  Round h a b c d e f g (key u32 0xefbe4786 (set 1 (fun w => u32 (w !!! 1%nat + (0xa00000 + sigma0 (w !!! 2%nat))))));
  Round g h a b c d e f (key u32 0x0fc19dc6 (set 2 (fun w => u32 (w !!! 2%nat + (sigma1 (w !!! 0%nat) + sigma0 (w !!! 3%nat))))));
  Round f g h a b c d e (key u32 0x240ca1cc (set 3 (fun w => u32 (w !!! 3%nat + (sigma1 (w !!! 1%nat) + sigma0 (w !!! 4%nat))))));
  Round e f g h a b c d (key u32 0x2de92c6f (set 4 (fun w => u32 (w !!! 4%nat + (sigma1 (w !!! 2%nat) + sigma0 (w !!! 5%nat))))));
  Round d e f g h a b c (key u32 0x4a7484aa (set 5 (fun w => u32 (w !!! 5%nat + (sigma1 (w !!! 3%nat) + sigma0 (w !!! 6%nat))))));
  Round c d e f g h a b (key u32 0x5cb0a9dc (set 6 (fun w => u32 (w !!! 6%nat + (sigma1 (w !!! 4%nat) + 0x100 + sigma0 (w !!! 7%nat))))));
  Round b c d e f g h a (key u32 0x76f988da (set 7 (fun w => u32 (w !!! 7%nat + (sigma1 (w !!! 5%nat) + w !!! 0%nat + 0x11002000)))));
  Round a b c d e f g h (key u32 0x983e5152 (set 8 (fun w => u32 (0x80000000 + sigma1 (w !!! 6%nat) + w !!! 1%nat))));
  Round h a b c d e f g (key u32 0xa831c66d (set 9 (fun w => u32 (sigma1 (w !!! 7%nat) + w !!! 2%nat))));
  Round g h a b c d e f (key u32 0xb00327c8 (set 10 (fun w => u32 (sigma1 (w !!! 8%nat) + w !!! 3%nat))));
  Round f g h a b c d e (key u32 0xbf597fc7 (set 11 (fun w => u32 (sigma1 (w !!! 9%nat) + w !!! 4%nat))));
  Round e f g h a b c d (key u32 0xc6e00bf3 (set 12 (fun w => u32 (sigma1 (w !!! 10%nat) + w !!! 5%nat))));
  Round d e f g h a b c (key u32 0xd5a79147 (set 13 (fun w => u32 (sigma1 (w !!! 11%nat) + w !!! 6%nat))));
  Round c d e f g h a b (key u32 0x06ca6351 (set 14 (fun w => u32 (sigma1 (w !!! 12%nat) + w !!! 7%nat + 0x400022))));
  Round b c d e f g h a (key u32 0x14292967 (set 15 (fun w => u32 (0x100 + sigma1 (w !!! 13%nat) + w !!! 8%nat + sigma0 (w !!! 0%nat)))));
  Round a b c d e f g h (key u32 0x27b70a85 (set 0 (mix u32 sigma0 sigma1 0 14 9 1)));
  Round h a b c d e f g (key u32 0x2e1b2138 (set 1 (mix u32 sigma0 sigma1 1 15 10 2)));
  Round g h a b c d e f (key u32 0x4d2c6dfc (set 2 (mix u32 sigma0 sigma1 2 0 11 3)));
  Round f g h a b c d e (key u32 0x53380d13 (set 3 (mix u32 sigma0 sigma1 3 1 12 4)));
  Round e f g h a b c d (key u32 0x650a7354 (set 4 (mix u32 sigma0 sigma1 4 2 13 5)));
  Round d e f g h a b c (key u32 0x766a0abb (set 5 (mix u32 sigma0 sigma1 5 3 14 6)));
  Round c d e f g h a b (key u32 0x81c2c92e (set 6 (mix u32 sigma0 sigma1 6 4 15 7)));
  Round b c d e f g h a (key u32 0x92722c85 (set 7 (mix u32 sigma0 sigma1 7 5 0 8)));
  Round a b c d e f g h (key u32 0xa2bfe8a1 (set 8 (mix u32 sigma0 sigma1 8 6 1 9)));
  Round h a b c d e f g (key u32 0xa81a664b (set 9 (mix u32 sigma0 sigma1 9 7 2 10)));
  Round g h a b c d e f (key u32 0xc24b8b70 (set 10 (mix u32 sigma0 sigma1 10 8 3 11)));
  Round f g h a b c d e (key u32 0xc76c51a3 (set 11 (mix u32 sigma0 sigma1 11 9 4 12)));
  Round e f g h a b c d (key u32 0xd192e819 (set 12 (mix u32 sigma0 sigma1 12 10 5 13)));
  Round d e f g h a b c (key u32 0xd6990624 (set 13 (mix u32 sigma0 sigma1 13 11 6 14)));
  Round c d e f g h a b (key u32 0xf40e3585 (set 14 (mix u32 sigma0 sigma1 14 12 7 15)));
  Round b c d e f g h a (key u32 0x106aa070 (set 15 (mix u32 sigma0 sigma1 15 13 8 0)));
  Round a b c d e f g h (key u32 0x19a4c116 (set 0 (mix u32 sigma0 sigma1 0 14 9 1)));
  Round h a b c d e f g (key u32 0x1e376c08 (set 1 (mix u32 sigma0 sigma1 1 15 10 2)));
  Round g h a b c d e f (key u32 0x2748774c (set 2 (mix u32 sigma0 sigma1 2 0 11 3)));
  Round f g h a b c d e (key u32 0x34b0bcb5 (set 3 (mix u32 sigma0 sigma1 3 1 12 4)));
  Round e f g h a b c d (key u32 0x391c0cb3 (set 4 (mix u32 sigma0 sigma1 4 2 13 5)));
  Round d e f g h a b c (key u32 0x4ed8aa4a (set 5 (mix u32 sigma0 sigma1 5 3 14 6)));
  Round c d e f g h a b (key u32 0x5b9cca4f (set 6 (mix u32 sigma0 sigma1 6 4 15 7)));
  Round b c d e f g h a (key u32 0x682e6ff3 (set 7 (mix u32 sigma0 sigma1 7 5 0 8)));
  Round a b c d e f g h (key u32 0x748f82ee (set 8 (mix u32 sigma0 sigma1 8 6 1 9)));
  Round h a b c d e f g (key u32 0x78a5636f (set 9 (mix u32 sigma0 sigma1 9 7 2 10)));
  Round g h a b c d e f (key u32 0x84c87814 (set 10 (mix u32 sigma0 sigma1 10 8 3 11)));
  Round f g h a b c d e (key u32 0x8cc70208 (set 11 (mix u32 sigma0 sigma1 11 9 4 12)));
  Round e f g h a b c d (key u32 0x90befffa (set 12 (mix u32 sigma0 sigma1 12 10 5 13)));
  Round d e f g h a b c (key u32 0xa4506ceb (set 13 (mix u32 sigma0 sigma1 13 11 6 14)));
  Round c d e f g h a b (key u32 0xbef9a3f7 (val (mix u32 sigma0 sigma1 14 12 7 15)));
  Round b c d e f g h a (key u32 0xc67178f2 (val (mix u32 sigma0 sigma1 15 13 8 0)))].

End D64Lines.

Definition TransformD64 (chunk : list Z) : list Z :=
  let t := add_vars Initialize (exec u32 Sigma0 Sigma1 (transform_lines chunk) (Initialize, no_words)).1 in
  let v := (exec u32 Sigma0 Sigma1 d64_padding_lines (t, no_words)).1 in
  let w := add_vars t v ++ replicate 8 0 in
  let v := (exec u32 Sigma0 Sigma1 d64_outer_lines (Initialize, w)).1 in
  add_vars v Initialize ≫= WriteBE32.

(** ** The hasher *)

Abbreviation CSHA256 := (@Hasher (list Z)).

(** A new hasher; the buffer is not initialised. *)
Definition CSHA256_new (buf : list Z) : CSHA256 := mkHasher Initialize buf 0.
Definition CSHA256_Write : CSHA256 -> list Z -> CSHA256 := Write 64 Transform (blocks_run 64 Transform).
Definition CSHA256_Finalize (x : CSHA256) : list Z :=
  h_s (Finish 64 Transform (blocks_run 64 Transform) 119 WriteBE64 x) ≫= WriteBE32.
Definition CSHA256_Reset (x : CSHA256) : CSHA256 := mkHasher Initialize (h_buf x) 0.

(** [SHA256D64] without the vector variants. *)
Fixpoint SHA256D64 (blocks : nat) (chunk : list Z) : list Z :=
  match blocks with
  | O => []
  | S blocks => TransformD64 (take 64 chunk) ++ SHA256D64 blocks (drop 64 chunk)
  end.

(** ** FIPS 180-4 *)

Definition K256 : list Z := Eval vm_compute in map (cube_root_fraction 32) (primes 64).

Definition words (chunk : list Z) : list Z := map (fun i => ReadBE32 chunk (4 * i)) (seq 0 16).
Definition compress (H chunk : list Z) : list Z := ref_compress u32 Sigma0 Sigma1 sigma0 sigma1 K256 (words chunk) H.
Definition sha256 (msg : list Z) : list Z := digest 64 compress Initialize 119 WriteBE64 msg ≫= WriteBE32.

Lemma u32_add_r x y : u32 (x + u32 y) = u32 (x + y).
Proof. unfold u32. by rewrite Zplus_mod_idemp_r. Qed.

Lemma sha256_transform_lines_gen chunk : transform_lines chunk = zip_with gen_round (seq 0 64) (kw_of <$> transform_lines chunk) /\
  kw_of <$> transform_lines chunk = map (gen_kw u32 (next_word u32 sigma0 sigma1) 2 64 K256 (words chunk)) (seq 0 64).
Proof. split; reflexivity. Qed.

Lemma exec_transform_lines s chunk : length s = 8%nat ->
  (exec u32 Sigma0 Sigma1 (transform_lines chunk) (s, no_words)).1 = ref_rounds u32 Sigma0 Sigma1 sigma0 sigma1 K256 (words chunk) s.
Proof.
  intros Hs. destruct (sha256_transform_lines_gen chunk) as [Hg Hk].
  by apply (transform_is_ref u32 Sigma0 Sigma1 sigma0 sigma1 u32_add_r 8); try done; cbn; lia.
Qed.

Lemma sha256_Transform_ref s chunk : length s = 8%nat -> Transform s chunk = compress s chunk.
Proof. intros Hs. unfold Transform. by rewrite exec_transform_lines. Qed.

Lemma sha256_compress_length s chunk : length s = 8%nat -> length (compress s chunk) = 8%nat.
Proof. intros Hs. unfold compress, ref_compress. rewrite length_zip_with, Hs. unfold ref_rounds. by rewrite ref_rounds_length. Qed.

Lemma zip_with_u32 s v : Forall is_u32 (zip_with (fun x y => u32 (x + y)) s v).
Proof. revert v. induction s as [|x s IH]; intros [|y v]; constructor; [apply u32_range|apply IH]. Qed.

Lemma compress_u32 s chunk : Forall is_u32 (compress s chunk).
Proof. apply zip_with_u32. Qed.

(** ** Lemmas: the specialised double hash *)

Definition pad64 : list Z := 0x80 :: replicate 61 0 ++ [2; 0].

Lemma d64_padding_keys :
  keys (kw_of <$> d64_padding_lines) no_words = (fun p => u32 (p.1 + p.2)) <$> zip K256 (schedule (next_word u32 sigma0 sigma1) 64 (words pad64)).
Proof. vm_compute. reflexivity. Qed.

(** The words of the outer message. *)
Definition outer_words (w : list Z) : list Z := w ++ [0x80000000; 0; 0; 0; 0; 0; 0; 0x100].

Section Outer.
Context (w0 w1 w2 w3 w4 w5 w6 w7 : Z).
Definition M3 : list Z := outer_words [w0; w1; w2; w3; w4; w5; w6; w7].
Context (W : list Z) (HW : length W = 64%nat) (H1 : forall t, (t < 16)%nat -> W !!! t = M3 !!! t).
Context (H2 : forall t, (16 <= t < 64)%nat -> W !!! t = next_word u32 sigma0 sigma1 (fun k => W !!! (t - k)%nat)).

Ltac word := match goal with |- _ = W !!! ?t => rewrite (H2 t) by lia end; unfold next_word; cbn [Nat.sub];
  repeat match goal with |- context [W !!! ?t] => rewrite (H1 t) by lia end; cbn [M3 outer_words app lookup_total list_lookup_total];
  change (sigma1 0) with 0; change (sigma0 0) with 0; change (sigma1 0x100) with 0xa00000; change (sigma0 0x100) with 0x400022;
  change (sigma0 0x80000000) with 0x11002000; f_equal; lia.

(** What the constants of the third transform stand for. *)
Lemma outer_sums :
  u32 (w0 + (sigma0 w1)) = W !!! 16%nat /\
  u32 (w1 + (0xa00000 + sigma0 w2)) = W !!! 17%nat /\
  u32 (w2 + (sigma1 (W !!! 16%nat) + sigma0 w3)) = W !!! 18%nat /\
  u32 (w3 + (sigma1 (W !!! 17%nat) + sigma0 w4)) = W !!! 19%nat /\
  u32 (w4 + (sigma1 (W !!! 18%nat) + sigma0 w5)) = W !!! 20%nat /\
  u32 (w5 + (sigma1 (W !!! 19%nat) + sigma0 w6)) = W !!! 21%nat /\
  u32 (w6 + (sigma1 (W !!! 20%nat) + 0x100 + sigma0 w7)) = W !!! 22%nat /\
  u32 (w7 + (sigma1 (W !!! 21%nat) + W !!! 16%nat + 0x11002000)) = W !!! 23%nat /\
  u32 (0x80000000 + sigma1 (W !!! 22%nat) + W !!! 17%nat) = W !!! 24%nat /\
  u32 (sigma1 (W !!! 23%nat) + W !!! 18%nat) = W !!! 25%nat /\
  u32 (sigma1 (W !!! 24%nat) + W !!! 19%nat) = W !!! 26%nat /\
  u32 (sigma1 (W !!! 25%nat) + W !!! 20%nat) = W !!! 27%nat /\
  u32 (sigma1 (W !!! 26%nat) + W !!! 21%nat) = W !!! 28%nat /\
  u32 (sigma1 (W !!! 27%nat) + W !!! 22%nat) = W !!! 29%nat /\
  u32 (sigma1 (W !!! 28%nat) + W !!! 23%nat + 0x400022) = W !!! 30%nat /\
  u32 (0x100 + sigma1 (W !!! 29%nat) + W !!! 24%nat + sigma0 (W !!! 16%nat)) = W !!! 31%nat.
Proof using HW H1 H2. split_and!; word. Qed.

#[local] Opaque u32 sigma0 sigma1.

Ltac line E := eapply run_keys_cons;
  [cbn [key set val lookup_total list_lookup_total insert list_insert]; rewrite ?E; first [reflexivity|by vm_compute]|].

Lemma outer_first : run_keys (kw_of <$> take 32 d64_outer_lines) ([w0; w1; w2; w3; w4; w5; w6; w7] ++ replicate 8 0) =
  ((fun t => u32 (K256 !!! t + W !!! t)) <$> seq 0 32, (fun t => W !!! t) <$> seq 16 16).
Proof using HW H1 H2.
  destruct outer_sums as (E16 & E17 & E18 & E19 & E20 & E21 & E22 & E23 & E24 & E25 & E26 & E27 & E28 & E29 & E30 & E31).
  cbn [take fmap list_fmap kw_of d64_outer_lines app replicate seq].
  repeat match goal with |- context [W !!! ?t] => rewrite (H1 t) by lia end. cbn [K256 M3 outer_words app lookup_total list_lookup_total].
  do 16 (line E16).
  line E16; line E17; line E18; line E19; line E20; line E21; line E22; line E23; line E24; line E25; line E26; line E27; line E28; line E29; line E30; line E31.
  reflexivity.
Qed.

#[local] Transparent u32 sigma0 sigma1.
End Outer.

Lemma lookup_total_seq (W : list Z) n m : (n + m <= length W)%nat -> (fun t => W !!! t) <$> seq n m = take m (drop n W).
Proof.
  revert n. induction m as [|m IH]; intros n Hl; [done|]. cbn [seq fmap list_fmap]. rewrite IH by lia.
  by rewrite (drop_S W (W !!! n) n) by (apply list_lookup_lookup_total_lt; lia).
Qed.

Lemma outer_lines_gen M : kw_of <$> drop 32 d64_outer_lines = map (gen_kw u32 (next_word u32 sigma0 sigma1) 2 64 K256 M) (seq 32 32).
Proof. reflexivity. Qed.

Lemma zip_split (K W : list Z) n : (n <= length K)%nat -> (n <= length W)%nat ->
  (fun p => u32 (p.1 + p.2)) <$> zip K W = ((fun t => u32 (K !!! t + W !!! t)) <$> seq 0 n) ++ ((fun p => u32 (p.1 + p.2)) <$> zip (drop n K) (drop n W)).
Proof.
  intros HK HW. assert (zip K W = zip (take n K) (take n W) ++ zip (drop n K) (drop n W)) as ->
    by (rewrite <- zip_with_app by (rewrite !length_take; lia); by rewrite !take_drop).
  rewrite fmap_app. f_equal. pose proof (lookup_total_seq K 0 n ltac:(lia)) as EK. pose proof (lookup_total_seq W 0 n ltac:(lia)) as EW.
  rewrite drop_0 in EK, EW. rewrite <- EK, <- EW. clear. generalize 0%nat. induction n as [|n IH]; intros m; [done|]. cbn. f_equal. apply IH.
Qed.

(** The keys of the third transform are those of the standard. *)
Lemma d64_outer_keys w : length w = 8%nat ->
  keys (kw_of <$> d64_outer_lines) (w ++ replicate 8 0) = (fun p => u32 (p.1 + p.2)) <$> zip K256 (schedule (next_word u32 sigma0 sigma1) 64 (outer_words w)).
Proof.
  intros Hw. destruct w as [|w0 [|w1 [|w2 [|w3 [|w4 [|w5 [|w6 [|w7 [|]]]]]]]]]; try done.
  pose proof (next_word_ext u32 sigma0 sigma1) as Hext.
  destruct (schedule_spec (next_word u32 sigma0 sigma1) 2 ltac:(lia) Hext ltac:(lia) 64 (outer_words [w0; w1; w2; w3; w4; w5; w6; w7])) as (Hl & H1 & H2); [done|lia|].
  set (W := schedule _ _ _) in *. clearbody W. pose proof (outer_first w0 w1 w2 w3 w4 w5 w6 w7 W Hl H1 H2) as E.
  rewrite <- (take_drop 32 d64_outer_lines) at 1. rewrite fmap_app, keys_app. unfold keys at 1. rewrite E. cbn [fst snd].
  rewrite (outer_lines_gen (outer_words [w0; w1; w2; w3; w4; w5; w6; w7])).
  rewrite (gen_keys_from u32 (next_word u32 sigma0 sigma1) 2 ltac:(lia) Hext ltac:(lia) 64 K256 _ W 32 32); [|reflexivity|exact Hl|exact H1|exact H2|lia|reflexivity|].
  - rewrite (zip_split K256 W 32) by (rewrite ?Hl; cbn; lia). reflexivity.
  - split; [by rewrite length_fmap, length_seq|]. intros u Hu1 Hu2 _. rewrite (list_lookup_total_fmap (fun t => W !!! t)) by (rewrite length_seq; apply Nat.mod_upper_bound; lia).
    f_equal. rewrite lookup_total_seq_lt by (apply Nat.mod_upper_bound; lia). pose proof (Nat.div_mod u 16 ltac:(lia)). 
    pose proof (Nat.mod_upper_bound u 16 ltac:(lia)). lia.
Qed.

Lemma ReadBE32_WriteBE32 x l : is_u32 x -> ReadBE32 (WriteBE32 x ++ l) 0 = x.
Proof.
  unfold is_u32. intros Hx. unfold ReadBE32, WriteBE32, u8. cbn [Nat.add app lookup_total list_lookup_total].
  rewrite !Z.shiftr_div_pow2 by lia.
  replace (x / 2 ^ 16) with (x / 256 / 256) by (rewrite Z.div_div by lia; reflexivity). replace (x / 2 ^ 24) with (x / 256 / 256 / 256) by (rewrite !Z.div_div by lia; reflexivity).
  change (2 ^ 8) with 256 in *. pose proof (Z.div_mod x 256 ltac:(lia)). pose proof (Z.div_mod (x / 256) 256 ltac:(lia)).
  pose proof (Z.div_mod (x / 256 / 256) 256 ltac:(lia)).
  assert (0 <= x / 256 / 256 / 256 < 256) as Hb by (split; [repeat apply Z.div_pos; lia|repeat apply Z.div_lt_upper_bound; lia]).
  rewrite (Z.mod_small _ _ Hb). lia.
Qed.

Lemma ReadBE32_skip a l n : ReadBE32 (a ++ l) (length a + n) = ReadBE32 l n.
Proof. unfold ReadBE32. rewrite <- !Nat.add_assoc, !lookup_total_app_r by lia. by rewrite !(Nat.add_comm (length a)), !Nat.add_sub. Qed.

Lemma ReadBE32_words w l i : Forall is_u32 w -> (i < length w)%nat -> ReadBE32 ((w ≫= WriteBE32) ++ l) (4 * i) = w !!! i.
Proof.
  intros Hw. revert i. induction Hw as [|x w Hx Hw IH]; intros i Hi; cbn in Hi; [lia|]. cbn [mbind list_bind]. rewrite <- app_assoc.
  destruct i as [|i]; [by apply ReadBE32_WriteBE32|]. replace (4 * S i)%nat with (length (WriteBE32 x) + 4 * i)%nat by (cbn [WriteBE32 length]; lia).
  rewrite ReadBE32_skip. apply IH. lia.
Qed.

Lemma WriteBE32_words_length w : length (w ≫= WriteBE32) = (4 * length w)%nat.
Proof. induction w as [|x w IH]; [done|]. cbn [mbind list_bind]. rewrite length_app, IH. cbn [WriteBE32 length]. lia. Qed.

Lemma outer_message w : length w = 8%nat -> Forall is_u32 w ->
  words ((w ≫= WriteBE32) ++ 0x80 :: replicate 29 0 ++ [1; 0]) = outer_words w.
Proof.
  intros Hl Hw. unfold words, outer_words. change (seq 0 16) with (seq 0 8 ++ seq 8 8). rewrite map_app. f_equal.
  - transitivity (map (fun i => w !!! i) (seq 0 8)); [|by destruct w as [|w0 [|w1 [|w2 [|w3 [|w4 [|w5 [|w6 [|w7 [|]]]]]]]]]].
    apply map_ext_in. intros i Hi%in_seq. apply ReadBE32_words; [done|lia].
  - transitivity (map (fun i => ReadBE32 (0x80 :: replicate 29 0 ++ [1; 0]) (4 * (i - 8))) (seq 8 8)); [|reflexivity].
    apply map_ext_in. intros i Hi%in_seq. replace (4 * i)%nat with (length (w ≫= WriteBE32) + 4 * (i - 8))%nat
      by (rewrite WriteBE32_words_length, Hl; lia). apply ReadBE32_skip.
Qed.

(** ** The digests *)

Lemma sha256_digest_ref msg : digest 64 Transform Initialize 119 WriteBE64 msg = digest 64 compress Initialize 119 WriteBE64 msg.
Proof. apply (transform_n_ext (fun s => length s = 8%nat)); [apply sha256_Transform_ref|apply sha256_compress_length|done]. Qed.

Lemma hasher_holds buf parts : length buf = 64%nat ->
  holds 64 Transform Initialize (foldl CSHA256_Write (CSHA256_new buf) parts) (mjoin parts).
Proof.
  intros Hb. assert ((Z.of_nat 64 | 2 ^ 64)) as Hd by (by exists (2 ^ 58)). assert (0 < 64)%nat as H0 by lia.
  apply (writes_hold 64 Transform H0 Hd _ _ _ []); [by apply blocks_run_ok|by apply holds_new].
Qed.

Lemma sha256_64 c : length c = 64%nat -> sha256 c = compress (compress Initialize c) pad64 ≫= WriteBE32.
Proof.
  intros Hc. unfold sha256, digest, padded. rewrite Hc. change (0x80 :: replicate _ 0 ++ WriteBE64 _) with pad64.
  rewrite length_app, Hc. change ((64 + length pad64) / 64)%nat with 2%nat. cbn [transform_n].
  by rewrite take_app_length', drop_app_length' by done.
Qed.

Lemma sha256_32 c : length c = 32%nat -> sha256 c = compress Initialize (c ++ 0x80 :: replicate 29 0 ++ [1; 0]) ≫= WriteBE32.
Proof.
  intros Hc. unfold sha256, digest, padded. rewrite Hc. change (0x80 :: replicate _ 0 ++ WriteBE64 _) with (0x80 :: replicate 29 0 ++ [1; 0]).
  rewrite length_app, Hc. change ((32 + length _) / 64)%nat with 1%nat. cbn [transform_n]. rewrite firstn_all2; [done|]. rewrite length_app, Hc. cbn. lia.
Qed.

Lemma add_vars_compress s c : add_vars s (ref_rounds u32 Sigma0 Sigma1 sigma0 sigma1 K256 (words c) s) = compress s c.
Proof. done. Qed.

Lemma add_vars_comm s v : add_vars s v = add_vars v s.
Proof. unfold add_vars. revert v. induction s as [|x s IH]; intros [|y v]; cbn; [done..|]. by rewrite IH, Z.add_comm. Qed.

Lemma TransformD64_double c : length c = 64%nat -> TransformD64 c = sha256 (sha256 c).
Proof.
  intros Hc. unfold TransformD64. rewrite exec_transform_lines by done. rewrite add_vars_compress.
  set (t := compress Initialize c). assert (length t = 8%nat) as Ht by (by apply sha256_compress_length).
  rewrite (exec_is_ref u32 Sigma0 Sigma1 sigma0 sigma1 u32_add_r d64_padding_lines 8 K256 (words pad64));
    [|reflexivity|reflexivity|exact d64_padding_keys|exact Ht].
  rewrite add_vars_compress. set (w := compress t pad64). assert (length w = 8%nat) as Hw by (by apply sha256_compress_length).
  rewrite (exec_is_ref u32 Sigma0 Sigma1 sigma0 sigma1 u32_add_r d64_outer_lines 8 K256 (outer_words w));
    [|reflexivity|reflexivity|by apply d64_outer_keys|done].
  rewrite (sha256_64 c) by done. fold t w. rewrite sha256_32 by (by rewrite WriteBE32_words_length, Hw).
  rewrite <- add_vars_compress, outer_message; [|exact Hw|apply compress_u32]. by rewrite add_vars_comm.
Qed.

Lemma WriteBE32_bytes w : Forall is_byte (w ≫= WriteBE32).
Proof. induction w as [|x w IH]; [constructor|]. apply Forall_app. split; [|exact IH]. repeat constructor; apply u8_range. Qed.

Lemma sha256_length msg : length (sha256 msg) = 32%nat.
Proof.
  unfold sha256. rewrite WriteBE32_words_length. unfold digest.
  by rewrite (transform_n_inv (fun s => length s = 8%nat)) by (apply sha256_compress_length || done).
Qed.

(** ** Properties *)

(** C36: The hasher computes SHA-256.  However a message is cut into calls of
    [Write], and whatever the buffer held, [Finalize] returns the digest that FIPS
    180-4 defines for the whole message: 32 bytes, from the compression function of
    the standard folded over the padded blocks.  [Transform] keeps the message
    schedule in sixteen words and rotates the names of the variables instead of
    their values. *)
Theorem sha256_hasher (buf : list Z) (parts : list (list Z)) : length buf = 64%nat ->
  let hash := CSHA256_Finalize (foldl CSHA256_Write (CSHA256_new buf) parts) in
  hash = sha256 (mjoin parts) /\ length hash = 32%nat /\ Forall is_byte hash.
Proof.
  intros Hb hash. assert (hash = sha256 (mjoin parts)) as E; [|rewrite E; split_and!; [done|apply sha256_length|apply WriteBE32_bytes]].
  unfold hash, CSHA256_Finalize. assert ((Z.of_nat 64 | 2 ^ 64)) as Hd by (by exists (2 ^ 58)). assert (0 < 64)%nat as H0 by lia.
  rewrite (Finish_digest 64 Transform H0 Hd _ Initialize _ _ _ (mjoin parts)); [|by apply blocks_run_ok|by apply hasher_holds].
  unfold sha256. by rewrite sha256_digest_ref.
Qed.

(** The specialised double hash agrees with the general one.  [SHA256D64]
    writes, for every 64-byte piece of its input, SHA-256 of SHA-256 of that piece;
    its constants are the round constants with the words of the padding added and
    the schedule of the known words worked out. *)
Theorem sha256d64_is_double (blocks : nat) (chunk : list Z) : length chunk = (64 * blocks)%nat ->
  SHA256D64 blocks chunk = mjoin (map (fun i => sha256 (sha256 (take 64 (drop (64 * i) chunk)))) (seq 0 blocks)).
Proof.
  revert chunk. induction blocks as [|blocks IH]; intros chunk Hl; [done|]. cbn [SHA256D64 seq map].
  rewrite TransformD64_double, IH by (rewrite ?length_take, ?length_drop; lia). rewrite <- seq_shift, map_map. cbn [mjoin list_join].
  f_equal. f_equal. apply map_ext. intros i. rewrite drop_drop. do 4 f_equal. lia.
Qed.

(** ** Test vectors *)

(** The digest of "abc" from FIPS 180-4, written in two parts. *)
Lemma sha256_hasher_witness :
  CSHA256_Finalize (foldl CSHA256_Write (CSHA256_new (replicate 64 7)) [[97]; [98; 99]]) =
  [0xba; 0x78; 0x16; 0xbf; 0x8f; 0x01; 0xcf; 0xea; 0x41; 0x41; 0x40; 0xde; 0x5d; 0xae; 0x22; 0x23;
   0xb0; 0x03; 0x61; 0xa3; 0x96; 0x17; 0x7a; 0x9c; 0xb4; 0x10; 0xff; 0x61; 0xf2; 0x00; 0x15; 0xad].
Proof.
  destruct (sha256_hasher (replicate 64 7) [[97]; [98; 99]] eq_refl) as [E _]. rewrite E. vm_compute. reflexivity.
Defined.

Lemma sha256d64_is_double_witness : SHA256D64 2 (replicate 128 1) = sha256 (sha256 (replicate 64 1)) ++ sha256 (sha256 (replicate 64 1)).
Proof. rewrite (sha256d64_is_double 2 (replicate 128 1) eq_refl). vm_compute. reflexivity. Defined.
