(* ===== verification/Sha512.v ===== *)
(** * SHA-512
    (src/src/crypto/sha512.cpp)

    The transform line by line and the hasher [CSHA512]. *)

From Stdlib Require Import ZArith Lia.
From stdpp Require Import base tactics numbers option list.
From S2P Require Import Prelude HashStream HashRounds Sha2.

Open Scope Z_scope.

Definition Sigma0 (x : Z) : Z := Z.lxor (Z.lxor (Z.lor (Z.shiftr x 28) (u64 (Z.shiftl x 36))) (Z.lor (Z.shiftr x 34) (u64 (Z.shiftl x 30)))) (Z.lor (Z.shiftr x 39) (u64 (Z.shiftl x 25))).
Definition Sigma1 (x : Z) : Z := Z.lxor (Z.lxor (Z.lor (Z.shiftr x 14) (u64 (Z.shiftl x 50))) (Z.lor (Z.shiftr x 18) (u64 (Z.shiftl x 46)))) (Z.lor (Z.shiftr x 41) (u64 (Z.shiftl x 23))).
Definition sigma0 (x : Z) : Z := Z.lxor (Z.lxor (Z.lor (Z.shiftr x 1) (u64 (Z.shiftl x 63))) (Z.lor (Z.shiftr x 8) (u64 (Z.shiftl x 56)))) (Z.shiftr x 7).
Definition sigma1 (x : Z) : Z := Z.lxor (Z.lxor (Z.lor (Z.shiftr x 19) (u64 (Z.shiftl x 45))) (Z.lor (Z.shiftr x 61) (u64 (Z.shiftl x 3)))) (Z.shiftr x 6).

Definition Initialize : list Z :=
  [0x6a09e667f3bcc908; 0xbb67ae8584caa73b; 0x3c6ef372fe94f82b; 0xa54ff53a5f1d36f1;
   0x510e527fade682d1; 0x9b05688c2b3e6c1f; 0x1f83d9abfb41bd6b; 0x5be0cd19137e2179].

Section Lines.
#[local] Abbreviation a := 0%nat (only parsing).
#[local] Abbreviation b := 1%nat (only parsing).
#[local] Abbreviation c := 2%nat (only parsing).
#[local] Abbreviation d := 3%nat (only parsing).
#[local] Abbreviation e := 4%nat (only parsing).
#[local] Abbreviation f := 5%nat (only parsing).
#[local] Abbreviation g := 6%nat (only parsing).
#[local] Abbreviation h := 7%nat (only parsing).

Definition transform_lines (chunk : list Z) : list line := [
  Round a b c d e f g h (key u64 0x428a2f98d728ae22 (set 0 (fun _ => ReadBE64 chunk 0)));
  Round h a b c d e f g (key u64 0x7137449123ef65cd (set 1 (fun _ => ReadBE64 chunk 8)));
  Round g h a b c d e f (key u64 0xb5c0fbcfec4d3b2f (set 2 (fun _ => ReadBE64 chunk 16)));
  Round f g h a b c d e (key u64 0xe9b5dba58189dbbc (set 3 (fun _ => ReadBE64 chunk 24)));
  Round e f g h a b c d (key u64 0x3956c25bf348b538 (set 4 (fun _ => ReadBE64 chunk 32)));
  Round d e f g h a b c (key u64 0x59f111f1b605d019 (set 5 (fun _ => ReadBE64 chunk 40)));
  Round c d e f g h a b (key u64 0x923f82a4af194f9b (set 6 (fun _ => ReadBE64 chunk 48)));
  Round b c d e f g h a (key u64 0xab1c5ed5da6d8118 (set 7 (fun _ => ReadBE64 chunk 56)));
  Round a b c d e f g h (key u64 0xd807aa98a3030242 (set 8 (fun _ => ReadBE64 chunk 64)));
  Round h a b c d e f g (key u64 0x12835b0145706fbe (set 9 (fun _ => ReadBE64 chunk 72)));
  Round g h a b c d e f (key u64 0x243185be4ee4b28c (set 10 (fun _ => ReadBE64 chunk 80)));
  Round f g h a b c d e (key u64 0x550c7dc3d5ffb4e2 (set 11 (fun _ => ReadBE64 chunk 88)));
  Round e f g h a b c d (key u64 0x72be5d74f27b896f (set 12 (fun _ => ReadBE64 chunk 96)));
  Round d e f g h a b c (key u64 0x80deb1fe3b1696b1 (set 13 (fun _ => ReadBE64 chunk 104)));
  Round c d e f g h a b (key u64 0x9bdc06a725c71235 (set 14 (fun _ => ReadBE64 chunk 112)));
  Round b c d e f g h a (key u64 0xc19bf174cf692694 (set 15 (fun _ => ReadBE64 chunk 120)));
  Round a b c d e f g h (key u64 0xe49b69c19ef14ad2 (set 0 (mix u64 sigma0 sigma1 0 14 9 1)));
  Round h a b c d e f g (key u64 0xefbe4786384f25e3 (set 1 (mix u64 sigma0 sigma1 1 15 10 2)));
  Round g h a b c d e f (key u64 0x0fc19dc68b8cd5b5 (set 2 (mix u64 sigma0 sigma1 2 0 11 3)));
  Round f g h a b c d e (key u64 0x240ca1cc77ac9c65 (set 3 (mix u64 sigma0 sigma1 3 1 12 4)));
  Round e f g h a b c d (key u64 0x2de92c6f592b0275 (set 4 (mix u64 sigma0 sigma1 4 2 13 5)));
  Round d e f g h a b c (key u64 0x4a7484aa6ea6e483 (set 5 (mix u64 sigma0 sigma1 5 3 14 6)));
  Round c d e f g h a b (key u64 0x5cb0a9dcbd41fbd4 (set 6 (mix u64 sigma0 sigma1 6 4 15 7)));
  Round b c d e f g h a (key u64 0x76f988da831153b5 (set 7 (mix u64 sigma0 sigma1 7 5 0 8)));
  Round a b c d e f g h (key u64 0x983e5152ee66dfab (set 8 (mix u64 sigma0 sigma1 8 6 1 9)));
  Round h a b c d e f g (key u64 0xa831c66d2db43210 (set 9 (mix u64 sigma0 sigma1 9 7 2 10)));
  Round g h a b c d e f (key u64 0xb00327c898fb213f (set 10 (mix u64 sigma0 sigma1 10 8 3 11)));
  Round f g h a b c d e (key u64 0xbf597fc7beef0ee4 (set 11 (mix u64 sigma0 sigma1 11 9 4 12)));
  Round e f g h a b c d (key u64 0xc6e00bf33da88fc2 (set 12 (mix u64 sigma0 sigma1 12 10 5 13)));
  Round d e f g h a b c (key u64 0xd5a79147930aa725 (set 13 (mix u64 sigma0 sigma1 13 11 6 14)));
  Round c d e f g h a b (key u64 0x06ca6351e003826f (set 14 (mix u64 sigma0 sigma1 14 12 7 15)));
  Round b c d e f g h a (key u64 0x142929670a0e6e70 (set 15 (mix u64 sigma0 sigma1 15 13 8 0)));
  Round a b c d e f g h (key u64 0x27b70a8546d22ffc (set 0 (mix u64 sigma0 sigma1 0 14 9 1)));
  Round h a b c d e f g (key u64 0x2e1b21385c26c926 (set 1 (mix u64 sigma0 sigma1 1 15 10 2)));
  Round g h a b c d e f (key u64 0x4d2c6dfc5ac42aed (set 2 (mix u64 sigma0 sigma1 2 0 11 3)));
  Round f g h a b c d e (key u64 0x53380d139d95b3df (set 3 (mix u64 sigma0 sigma1 3 1 12 4)));
  Round e f g h a b c d (key u64 0x650a73548baf63de (set 4 (mix u64 sigma0 sigma1 4 2 13 5)));
  Round d e f g h a b c (key u64 0x766a0abb3c77b2a8 (set 5 (mix u64 sigma0 sigma1 5 3 14 6)));
  Round c d e f g h a b (key u64 0x81c2c92e47edaee6 (set 6 (mix u64 sigma0 sigma1 6 4 15 7)));
  Round b c d e f g h a (key u64 0x92722c851482353b (set 7 (mix u64 sigma0 sigma1 7 5 0 8)));
  Round a b c d e f g h (key u64 0xa2bfe8a14cf10364 (set 8 (mix u64 sigma0 sigma1 8 6 1 9)));
  Round h a b c d e f g (key u64 0xa81a664bbc423001 (set 9 (mix u64 sigma0 sigma1 9 7 2 10)));
  Round g h a b c d e f (key u64 0xc24b8b70d0f89791 (set 10 (mix u64 sigma0 sigma1 10 8 3 11)));
  Round f g h a b c d e (key u64 0xc76c51a30654be30 (set 11 (mix u64 sigma0 sigma1 11 9 4 12)));
  Round e f g h a b c d (key u64 0xd192e819d6ef5218 (set 12 (mix u64 sigma0 sigma1 12 10 5 13)));
  Round d e f g h a b c (key u64 0xd69906245565a910 (set 13 (mix u64 sigma0 sigma1 13 11 6 14)));
  Round c d e f g h a b (key u64 0xf40e35855771202a (set 14 (mix u64 sigma0 sigma1 14 12 7 15)));
  Round b c d e f g h a (key u64 0x106aa07032bbd1b8 (set 15 (mix u64 sigma0 sigma1 15 13 8 0)));
  Round a b c d e f g h (key u64 0x19a4c116b8d2d0c8 (set 0 (mix u64 sigma0 sigma1 0 14 9 1)));
  Round h a b c d e f g (key u64 0x1e376c085141ab53 (set 1 (mix u64 sigma0 sigma1 1 15 10 2)));
  Round g h a b c d e f (key u64 0x2748774cdf8eeb99 (set 2 (mix u64 sigma0 sigma1 2 0 11 3)));
  Round f g h a b c d e (key u64 0x34b0bcb5e19b48a8 (set 3 (mix u64 sigma0 sigma1 3 1 12 4)));
  Round e f g h a b c d (key u64 0x391c0cb3c5c95a63 (set 4 (mix u64 sigma0 sigma1 4 2 13 5)));
  Round d e f g h a b c (key u64 0x4ed8aa4ae3418acb (set 5 (mix u64 sigma0 sigma1 5 3 14 6)));
  Round c d e f g h a b (key u64 0x5b9cca4f7763e373 (set 6 (mix u64 sigma0 sigma1 6 4 15 7)));
  Round b c d e f g h a (key u64 0x682e6ff3d6b2b8a3 (set 7 (mix u64 sigma0 sigma1 7 5 0 8)));
  Round a b c d e f g h (key u64 0x748f82ee5defb2fc (set 8 (mix u64 sigma0 sigma1 8 6 1 9)));
  Round h a b c d e f g (key u64 0x78a5636f43172f60 (set 9 (mix u64 sigma0 sigma1 9 7 2 10)));
  Round g h a b c d e f (key u64 0x84c87814a1f0ab72 (set 10 (mix u64 sigma0 sigma1 10 8 3 11)));
  Round f g h a b c d e (key u64 0x8cc702081a6439ec (set 11 (mix u64 sigma0 sigma1 11 9 4 12)));
  Round e f g h a b c d (key u64 0x90befffa23631e28 (set 12 (mix u64 sigma0 sigma1 12 10 5 13)));
  Round d e f g h a b c (key u64 0xa4506cebde82bde9 (set 13 (mix u64 sigma0 sigma1 13 11 6 14)));
  Round c d e f g h a b (key u64 0xbef9a3f7b2c67915 (set 14 (mix u64 sigma0 sigma1 14 12 7 15)));
  Round b c d e f g h a (key u64 0xc67178f2e372532b (set 15 (mix u64 sigma0 sigma1 15 13 8 0)));
  Round a b c d e f g h (key u64 0xca273eceea26619c (set 0 (mix u64 sigma0 sigma1 0 14 9 1)));
  Round h a b c d e f g (key u64 0xd186b8c721c0c207 (set 1 (mix u64 sigma0 sigma1 1 15 10 2)));
  Round g h a b c d e f (key u64 0xeada7dd6cde0eb1e (set 2 (mix u64 sigma0 sigma1 2 0 11 3)));
  Round f g h a b c d e (key u64 0xf57d4f7fee6ed178 (set 3 (mix u64 sigma0 sigma1 3 1 12 4)));
  Round e f g h a b c d (key u64 0x06f067aa72176fba (set 4 (mix u64 sigma0 sigma1 4 2 13 5)));
  Round d e f g h a b c (key u64 0x0a637dc5a2c898a6 (set 5 (mix u64 sigma0 sigma1 5 3 14 6)));
  Round c d e f g h a b (key u64 0x113f9804bef90dae (set 6 (mix u64 sigma0 sigma1 6 4 15 7)));
  Round b c d e f g h a (key u64 0x1b710b35131c471b (set 7 (mix u64 sigma0 sigma1 7 5 0 8)));
  Round a b c d e f g h (key u64 0x28db77f523047d84 (set 8 (mix u64 sigma0 sigma1 8 6 1 9)));
  Round h a b c d e f g (key u64 0x32caab7b40c72493 (set 9 (mix u64 sigma0 sigma1 9 7 2 10)));
  Round g h a b c d e f (key u64 0x3c9ebe0a15c9bebc (set 10 (mix u64 sigma0 sigma1 10 8 3 11)));
  Round f g h a b c d e (key u64 0x431d67c49c100d4c (set 11 (mix u64 sigma0 sigma1 11 9 4 12)));
  Round e f g h a b c d (key u64 0x4cc5d4becb3e42b6 (set 12 (mix u64 sigma0 sigma1 12 10 5 13)));
  Round d e f g h a b c (key u64 0x597f299cfc657e2a (set 13 (mix u64 sigma0 sigma1 13 11 6 14)));
  Round c d e f g h a b (key u64 0x5fcb6fab3ad6faec (val (mix u64 sigma0 sigma1 14 12 7 15)));
  Round b c d e f g h a (key u64 0x6c44198c4a475817 (val (mix u64 sigma0 sigma1 15 13 8 0)))].

End Lines.

Definition Transform (s chunk : list Z) : list Z :=
  zip_with (fun x y => u64 (x + y)) s (exec u64 Sigma0 Sigma1 (transform_lines chunk) (s, replicate 16 0)).1.

(** ** The hasher *)

Definition CSHA512_new (buf : list Z) : Hasher := mkHasher Initialize buf 0.
Definition CSHA512_Write : Hasher -> list Z -> Hasher := Write 128 Transform (fun s data => chunks_run 128 Transform (length data) s data).
(** The length of the message takes sixteen bytes, the upper eight of them zero. *)
Definition CSHA512_Finalize (x : Hasher) : list Z :=
  h_s (Finish 128 Transform (fun s data => chunks_run 128 Transform (length data) s data) 239 (fun n => replicate 8 0 ++ WriteBE64 n) x) ≫= WriteBE64.
Definition CSHA512_Reset (x : Hasher (S := list Z)) : Hasher := mkHasher Initialize (h_buf x) 0.

(** ** FIPS 180-4 *)

Definition K512 : list Z := Eval vm_compute in map (cube_root_fraction 64) (primes 80).

Definition words (chunk : list Z) : list Z := map (fun i => ReadBE64 chunk (8 * i)) (seq 0 16).
Definition compress (H chunk : list Z) : list Z := ref_compress u64 Sigma0 Sigma1 sigma0 sigma1 K512 (words chunk) H.
Definition sha512 (msg : list Z) : list Z :=
  digest 128 compress Initialize 239 (fun n => replicate 8 0 ++ WriteBE64 n) msg ≫= WriteBE64.

Lemma u64_add_r x y : u64 (x + u64 y) = u64 (x + y).
Proof. unfold u64. by rewrite Zplus_mod_idemp_r. Qed.

Lemma sha512_transform_lines_gen chunk : transform_lines chunk = zip_with gen_round (seq 0 80) (kw_of <$> transform_lines chunk) /\
  kw_of <$> transform_lines chunk = map (gen_kw u64 (next_word u64 sigma0 sigma1) 2 80 K512 (words chunk)) (seq 0 80).
Proof. split; reflexivity. Qed.

Lemma sha512_Transform_ref s chunk : length s = 8%nat -> Transform s chunk = compress s chunk.
Proof.
  intros Hs. destruct (sha512_transform_lines_gen chunk) as [Hg Hk]. unfold Transform, compress, ref_compress. f_equal.
  apply (transform_is_ref u64 Sigma0 Sigma1 sigma0 sigma1 u64_add_r 10);
    [reflexivity|reflexivity|exact Hs|reflexivity|cbn; lia|reflexivity|exact Hg|exact Hk].
Qed.

Lemma sha512_compress_length s chunk : length s = 8%nat -> length (compress s chunk) = 8%nat.
Proof. intros Hs. unfold compress, ref_compress. rewrite length_zip_with, Hs. unfold ref_rounds. by rewrite ref_rounds_length. Qed.

Lemma sha512_digest_ref P desc msg : digest 128 Transform Initialize P desc msg = digest 128 compress Initialize P desc msg.
Proof. apply (transform_n_ext (fun s => length s = 8%nat)); [apply sha512_Transform_ref|apply sha512_compress_length|done]. Qed.

(** ** Property *)

(** The hasher computes SHA-512.  However a message is cut into calls of
    [Write], and whatever the buffer held, [Finalize] returns the digest of FIPS
    180-4 for messages whose length in bits fits 64 bits: the hasher always writes
    zeros for the upper half of the 128-bit length. *)
Theorem sha512_hasher (buf : list Z) (parts : list (list Z)) : length buf = 128%nat ->
  CSHA512_Finalize (foldl CSHA512_Write (CSHA512_new buf) parts) = sha512 (mjoin parts).
Proof.
  intros Hb. unfold CSHA512_Finalize, sha512. assert ((Z.of_nat 128 | 2 ^ 64)) as Hd by (by exists (2 ^ 57)). assert (0 < 128)%nat as H0 by lia.
  pose proof (chunks_run_ok 128 Transform H0 Hd) as Hrun. rewrite <- sha512_digest_ref. f_equal. apply (Finish_digest 128 Transform H0 Hd); [done|].
  apply (writes_hold 128 Transform H0 Hd _ _ _ []); [done|by apply holds_new].
Qed.

(** The digest of "abc". *)
Lemma sha512_hasher_witness :
  CSHA512_Finalize (foldl CSHA512_Write (CSHA512_new (replicate 128 7)) [[97]; [98; 99]]) =
  [0xdd; 0xaf; 0x35; 0xa1; 0x93; 0x61; 0x7a; 0xba; 0xcc; 0x41; 0x73; 0x49; 0xae; 0x20; 0x41; 0x31;
   0x12; 0xe6; 0xfa; 0x4e; 0x89; 0xa9; 0x7e; 0xa2; 0x0a; 0x9e; 0xee; 0xe6; 0x4b; 0x55; 0xd3; 0x9a;
   0x21; 0x92; 0x99; 0x2a; 0x27; 0x4f; 0xc1; 0xa8; 0x36; 0xba; 0x3c; 0x23; 0xa3; 0xfe; 0xeb; 0xbd;
   0x45; 0x4d; 0x44; 0x23; 0x64; 0x3c; 0xe8; 0x0e; 0x2a; 0x9a; 0xc9; 0x4f; 0xa5; 0x4c; 0xa4; 0x9f].
Proof. rewrite (sha512_hasher (replicate 128 7) [[97]; [98; 99]] eq_refl). vm_compute. reflexivity. Defined.
