(* ===== verification/Sha1.v ===== *)
(** * SHA-1
    (src/src/crypto/sha1.cpp)

    The transform line by line and the hasher [CSHA1]. *)

From Stdlib Require Import ZArith Lia.
From stdpp Require Import base tactics numbers option list.
From S2P Require Import Prelude HashStream HashRounds Sha2.

Open Scope Z_scope.

Definition rol (x : Z) (i : Z) : Z := Z.lor (u32 (Z.shiftl x i)) (Z.shiftr x (32 - i)).
Definition left (x : Z) : Z := Z.lor (u32 (Z.shiftl x 1)) (Z.shiftr x 31).

Definition f1 (b c d : Z) : Z := Z.lxor d (Z.land b (Z.lxor c d)).
Definition f2 (b c d : Z) : Z := Z.lxor (Z.lxor b c) d.
Definition f3 (b c d : Z) : Z := Z.lor (Z.land b c) (Z.land d (Z.lor b c)).

Definition Initialize : list Z := [0x67452301; 0xEFCDAB89; 0x98BADCFE; 0x10325476; 0xC3D2E1F0].

Definition k1 : Z := 0x5A827999.
Definition k2 : Z := 0x6ED9EBA1.
Definition k3 : Z := 0x8F1BBCDC.
Definition k4 : Z := 0xCA62C1D6.

(** One line: the variables that play a..e, the function of b, c, d, and [k + w]. *)
Inductive line := Round (a b c d e : nat) (f : Z -> Z -> Z -> Z) (kw : arg).

Definition round_vars (a b c d e : nat) (f : Z -> Z -> Z -> Z) (k : Z) (v : list Z) : list Z :=
  let fv := f (v !!! b) (v !!! c) (v !!! d) in
  <[b := Z.lor (u32 (Z.shiftl (v !!! b) 30)) (Z.shiftr (v !!! b) 2)]>
    (<[e := u32 (v !!! e + (Z.lor (u32 (Z.shiftl (v !!! a) 5)) (Z.shiftr (v !!! a) 27) + fv + k))]> v).

Definition exec_line (st : list Z * list Z) (l : line) : list Z * list Z :=
  let '(v, w) := st in
  match l with Round a b c d e f kw => let '(k, w) := kw w in (round_vars a b c d e f k v, w) end.

(** [left(w_i ^ w_j ^ w_k ^ w_l)] *)
Definition mix (i j k l : nat) (w : list Z) : Z := left (Z.lxor (Z.lxor (Z.lxor (w !!! i) (w !!! j)) (w !!! k)) (w !!! l)).

Section Lines.
#[local] Abbreviation a := 0%nat (only parsing).
#[local] Abbreviation b := 1%nat (only parsing).
#[local] Abbreviation c := 2%nat (only parsing).
#[local] Abbreviation d := 3%nat (only parsing).
#[local] Abbreviation e := 4%nat (only parsing).

Definition transform_lines (chunk : list Z) : list line := [
  Round a b c d e f1 (key u32 k1 (set 0 (fun _ => ReadBE32 chunk 0)));
  Round e a b c d f1 (key u32 k1 (set 1 (fun _ => ReadBE32 chunk 4)));
  Round d e a b c f1 (key u32 k1 (set 2 (fun _ => ReadBE32 chunk 8)));
  Round c d e a b f1 (key u32 k1 (set 3 (fun _ => ReadBE32 chunk 12)));
  Round b c d e a f1 (key u32 k1 (set 4 (fun _ => ReadBE32 chunk 16)));
  Round a b c d e f1 (key u32 k1 (set 5 (fun _ => ReadBE32 chunk 20)));
  Round e a b c d f1 (key u32 k1 (set 6 (fun _ => ReadBE32 chunk 24)));
  Round d e a b c f1 (key u32 k1 (set 7 (fun _ => ReadBE32 chunk 28)));
  Round c d e a b f1 (key u32 k1 (set 8 (fun _ => ReadBE32 chunk 32)));
  Round b c d e a f1 (key u32 k1 (set 9 (fun _ => ReadBE32 chunk 36)));
  Round a b c d e f1 (key u32 k1 (set 10 (fun _ => ReadBE32 chunk 40)));
  Round e a b c d f1 (key u32 k1 (set 11 (fun _ => ReadBE32 chunk 44)));
  Round d e a b c f1 (key u32 k1 (set 12 (fun _ => ReadBE32 chunk 48)));
  Round c d e a b f1 (key u32 k1 (set 13 (fun _ => ReadBE32 chunk 52)));
  Round b c d e a f1 (key u32 k1 (set 14 (fun _ => ReadBE32 chunk 56)));
  Round a b c d e f1 (key u32 k1 (set 15 (fun _ => ReadBE32 chunk 60)));
  Round e a b c d f1 (key u32 k1 (set 0 (mix 0 13 8 2)));
  Round d e a b c f1 (key u32 k1 (set 1 (mix 1 14 9 3)));
  Round c d e a b f1 (key u32 k1 (set 2 (mix 2 15 10 4)));
  Round b c d e a f1 (key u32 k1 (set 3 (mix 3 0 11 5)));
  Round a b c d e f2 (key u32 k2 (set 4 (mix 4 1 12 6)));
  Round e a b c d f2 (key u32 k2 (set 5 (mix 5 2 13 7)));
  Round d e a b c f2 (key u32 k2 (set 6 (mix 6 3 14 8)));
  Round c d e a b f2 (key u32 k2 (set 7 (mix 7 4 15 9)));
  Round b c d e a f2 (key u32 k2 (set 8 (mix 8 5 0 10)));
  Round a b c d e f2 (key u32 k2 (set 9 (mix 9 6 1 11)));
  Round e a b c d f2 (key u32 k2 (set 10 (mix 10 7 2 12)));
  Round d e a b c f2 (key u32 k2 (set 11 (mix 11 8 3 13)));
  Round c d e a b f2 (key u32 k2 (set 12 (mix 12 9 4 14)));
  Round b c d e a f2 (key u32 k2 (set 13 (mix 13 10 5 15)));
  Round a b c d e f2 (key u32 k2 (set 14 (mix 14 11 6 0)));
  Round e a b c d f2 (key u32 k2 (set 15 (mix 15 12 7 1)));
  Round d e a b c f2 (key u32 k2 (set 0 (mix 0 13 8 2)));
  Round c d e a b f2 (key u32 k2 (set 1 (mix 1 14 9 3)));
  Round b c d e a f2 (key u32 k2 (set 2 (mix 2 15 10 4)));
  Round a b c d e f2 (key u32 k2 (set 3 (mix 3 0 11 5)));
  Round e a b c d f2 (key u32 k2 (set 4 (mix 4 1 12 6)));
  Round d e a b c f2 (key u32 k2 (set 5 (mix 5 2 13 7)));
  Round c d e a b f2 (key u32 k2 (set 6 (mix 6 3 14 8)));
  Round b c d e a f2 (key u32 k2 (set 7 (mix 7 4 15 9)));
  Round a b c d e f3 (key u32 k3 (set 8 (mix 8 5 0 10)));
  Round e a b c d f3 (key u32 k3 (set 9 (mix 9 6 1 11)));
  Round d e a b c f3 (key u32 k3 (set 10 (mix 10 7 2 12)));
  Round c d e a b f3 (key u32 k3 (set 11 (mix 11 8 3 13)));
  Round b c d e a f3 (key u32 k3 (set 12 (mix 12 9 4 14)));
  Round a b c d e f3 (key u32 k3 (set 13 (mix 13 10 5 15)));
  Round e a b c d f3 (key u32 k3 (set 14 (mix 14 11 6 0)));
  Round d e a b c f3 (key u32 k3 (set 15 (mix 15 12 7 1)));
  Round c d e a b f3 (key u32 k3 (set 0 (mix 0 13 8 2)));
  Round b c d e a f3 (key u32 k3 (set 1 (mix 1 14 9 3)));
  Round a b c d e f3 (key u32 k3 (set 2 (mix 2 15 10 4)));
  Round e a b c d f3 (key u32 k3 (set 3 (mix 3 0 11 5)));
  Round d e a b c f3 (key u32 k3 (set 4 (mix 4 1 12 6)));
  Round c d e a b f3 (key u32 k3 (set 5 (mix 5 2 13 7)));
  Round b c d e a f3 (key u32 k3 (set 6 (mix 6 3 14 8)));
  Round a b c d e f3 (key u32 k3 (set 7 (mix 7 4 15 9)));
  Round e a b c d f3 (key u32 k3 (set 8 (mix 8 5 0 10)));
  Round d e a b c f3 (key u32 k3 (set 9 (mix 9 6 1 11)));
  Round c d e a b f3 (key u32 k3 (set 10 (mix 10 7 2 12)));
  Round b c d e a f3 (key u32 k3 (set 11 (mix 11 8 3 13)));
  Round a b c d e f2 (key u32 k4 (set 12 (mix 12 9 4 14)));
  Round e a b c d f2 (key u32 k4 (set 13 (mix 13 10 5 15)));
  Round d e a b c f2 (key u32 k4 (set 14 (mix 14 11 6 0)));
  Round c d e a b f2 (key u32 k4 (set 15 (mix 15 12 7 1)));
  Round b c d e a f2 (key u32 k4 (set 0 (mix 0 13 8 2)));
  Round a b c d e f2 (key u32 k4 (set 1 (mix 1 14 9 3)));
  Round e a b c d f2 (key u32 k4 (set 2 (mix 2 15 10 4)));
  Round d e a b c f2 (key u32 k4 (set 3 (mix 3 0 11 5)));
  Round c d e a b f2 (key u32 k4 (set 4 (mix 4 1 12 6)));
  Round b c d e a f2 (key u32 k4 (set 5 (mix 5 2 13 7)));
  Round a b c d e f2 (key u32 k4 (set 6 (mix 6 3 14 8)));
  Round e a b c d f2 (key u32 k4 (set 7 (mix 7 4 15 9)));
  Round d e a b c f2 (key u32 k4 (set 8 (mix 8 5 0 10)));
  Round c d e a b f2 (key u32 k4 (set 9 (mix 9 6 1 11)));
  Round b c d e a f2 (key u32 k4 (set 10 (mix 10 7 2 12)));
  Round a b c d e f2 (key u32 k4 (set 11 (mix 11 8 3 13)));
  Round e a b c d f2 (key u32 k4 (set 12 (mix 12 9 4 14)));
  Round d e a b c f2 (key u32 k4 (val (mix 13 10 5 15)));
  Round c d e a b f2 (key u32 k4 (val (mix 14 11 6 0)));
  Round b c d e a f2 (key u32 k4 (val (mix 15 12 7 1)))].

End Lines.

Definition Transform (s chunk : list Z) : list Z :=
  zip_with (fun x y => u32 (x + y)) s (foldl exec_line (s, replicate 16 0) (transform_lines chunk)).1.

(** ** The hasher *)

Definition run : list Z -> list Z -> list Z * list Z := fun s data => chunks_run 64 Transform (length data) s data.
Definition CSHA1_new (buf : list Z) : Hasher := mkHasher Initialize buf 0.
Definition CSHA1_Write : Hasher -> list Z -> Hasher := Write 64 Transform run.
Definition CSHA1_Finalize (x : Hasher) : list Z := h_s (Finish 64 Transform run 119 WriteBE64 x) ≫= WriteBE32.
Definition CSHA1_Reset (x : Hasher (S := list Z)) : Hasher := mkHasher Initialize (h_buf x) 0.

(** ** FIPS 180-4 *)

Definition Parity (x y z : Z) : Z := Z.lxor (Z.lxor x y) z.

(** The function and the constant of round [t]. *)
Definition round_fun (t : nat) : Z -> Z -> Z -> Z :=
  if decide (t < 20)%nat then ref_Ch else if decide (t < 40)%nat then Parity else if decide (t < 60)%nat then ref_Maj else Parity.
Definition K1 : list Z := replicate 20 0x5a827999 ++ replicate 20 0x6ed9eba1 ++ replicate 20 0x8f1bbcdc ++ replicate 20 0xca62c1d6.

Definition ref_round (s : list Z) (r : (Z -> Z -> Z -> Z) * (Z * Z)) : list Z :=
  match s with
  | [a; b; c; d; e] => [u32 (rol a 5 + r.1 b c d + e + r.2.1 + r.2.2); a; rol b 30; c; d]
  | _ => s
  end.
Definition next_word (back : nat -> Z) : Z := rol (Z.lxor (Z.lxor (Z.lxor (back 16%nat) (back 3%nat)) (back 8%nat)) (back 14%nat)) 1.

Definition words (chunk : list Z) : list Z := map (fun i => ReadBE32 chunk (4 * i)) (seq 0 16).
Definition ref_rounds (M s : list Z) : list Z := foldl ref_round s (zip (round_fun <$> seq 0 80) (zip K1 (schedule next_word 80 M))).
Definition compress (H chunk : list Z) : list Z := zip_with (fun x y => u32 (x + y)) H (ref_rounds (words chunk) H).
Definition sha1 (msg : list Z) : list Z := digest 64 compress Initialize 119 WriteBE64 msg ≫= WriteBE32.

(** ** Lemmas *)

Definition gen_round (t : nat) (f : Z -> Z -> Z -> Z) (kw : arg) : line := Round (rot 5 t 0) (rot 5 t 1) (rot 5 t 2) (rot 5 t 3) (rot 5 t 4) f kw.
Definition kw_of (l : line) : arg := match l with Round _ _ _ _ _ _ kw => kw end.
Definition f_of (l : line) : Z -> Z -> Z -> Z := match l with Round _ _ _ _ _ f _ => f end.

Lemma sha1_round_rotates t f g k x s : length s = 5%nat -> (forall b c d, f b c d = g b c d) ->
  round_vars (rot 5 t 0) (rot 5 t 1) (rot 5 t 2) (rot 5 t 3) (rot 5 t 4) f (u32 (k + x)) (rotate t s) = rotate (S t) (ref_round s (g, (k, x))).
Proof.
  intros Hs Hfg. destruct s as [|a [|b [|c [|d [|e [|]]]]]]; try done. clear Hs.
  rewrite !(rot_mod 5 t) by lia. rewrite (proj1 (rotate_mod [a; b; c; d; e] 5 t eq_refl ltac:(lia))).
  assert (length (ref_round [a; b; c; d; e] (g, (k, x))) = 5%nat) as Hl by done. rewrite (proj2 (rotate_mod _ 5 t Hl ltac:(lia))).
  assert (forall e A fv, u32 (e + (A + fv + u32 (k + x))) = u32 (A + fv + e + k + x)) as Hu.
  { intros. unfold u32. rewrite Z.add_assoc, Zplus_mod_idemp_r. f_equal. lia. }
  pose proof (Nat.mod_upper_bound t 5 ltac:(lia)) as Hb. unfold round_vars, ref_round. cbn [fst snd].
  destruct (t mod 5)%nat as [|[|[|[|[|]]]]]; [..|lia]; cbn -[u32 rol Z.add Z.lor Z.shiftl Z.shiftr]; rewrite Hu, Hfg; reflexivity.
Qed.

Lemma sha1_ref_round_length s r : length s = 5%nat -> length (ref_round s r) = 5%nat.
Proof. intros Hs. by destruct s as [|a [|b [|c [|d [|e [|]]]]]]. Qed.

Lemma sha1_ref_rounds_length rs s : length s = 5%nat -> length (foldl ref_round s rs) = 5%nat.
Proof. revert s. induction rs as [|r rs IH]; intros s Hs; [done|]. by apply IH, sha1_ref_round_length. Qed.

Lemma sha1_exec_rounds ls t fs ps s w : length s = 5%nat -> ls = imap (fun i l => gen_round (t + i) (f_of l) (kw_of l)) ls ->
  Forall2 (fun l g => forall b c d, f_of l b c d = g b c d) ls fs ->
  keys (kw_of <$> ls) w = (fun p => u32 (p.1 + p.2)) <$> ps ->
  (foldl exec_line (rotate t s, w) ls).1 = rotate (t + length ls) (foldl ref_round s (zip fs ps)).
Proof.
  revert t fs ps s w. induction ls as [|l ls IH]; intros t fs ps s w Hs Hg Hf Hk.
  { apply Forall2_nil_inv_l in Hf as ->. cbn. by rewrite Nat.add_0_r. }
  apply Forall2_cons_inv_l in Hf as (g & fs' & Hfg & Hf & ->). cbn [fmap list_fmap] in Hk. destruct (kw_of l w) as [k w'] eqn:E.
  rewrite (keys_cons _ _ _ _ _ E) in Hk. destruct ps as [|[k' x] ps]; [done|]. injection Hk as -> Hk.
  rewrite imap_cons in Hg. injection Hg as Hl Hg. cbn [foldl zip_with]. rewrite Hl at 1. unfold gen_round. cbn [exec_line]. rewrite E, Nat.add_0_r.
  rewrite (sha1_round_rotates t (f_of l) g) by done.
  rewrite (IH (S t) fs' ps (ref_round s (g, (k', x))) w'); [f_equal; cbn [length]; lia|by apply sha1_ref_round_length| |done|done].
  rewrite Hg at 1. apply imap_ext. intros i y _. cbn. by rewrite Nat.add_succ_r.
Qed.

Lemma sha1_next_word_ext f g : (forall k, (3 <= k <= 16)%nat -> f k = g k) -> next_word f = next_word g.
Proof. intros H. unfold next_word. by rewrite !H by lia. Qed.

Lemma sha1_transform_lines_gen chunk : transform_lines chunk = imap (fun i l => gen_round (0 + i) (f_of l) (kw_of l)) (transform_lines chunk) /\
  kw_of <$> transform_lines chunk = map (gen_kw u32 next_word 3 80 K1 (words chunk)) (seq 0 80).
Proof. split; reflexivity. Qed.

Lemma transform_lines_funs chunk : Forall2 (fun l g => forall b c d, f_of l b c d = g b c d) (transform_lines chunk) (round_fun <$> seq 0 80).
Proof. repeat (constructor; [intros; first [apply Ch_ref|apply Maj_ref|reflexivity]|]). constructor. Qed.

Lemma sha1_Transform_ref s chunk : length s = 5%nat -> Transform s chunk = compress s chunk.
Proof.
  intros Hs. destruct (sha1_transform_lines_gen chunk) as [Hg Hk]. unfold Transform, compress, ref_rounds. f_equal.
  rewrite <- (rotate_full s 5 0 Hs) at 1. change (5 * 0)%nat with 0%nat.
  rewrite (sha1_exec_rounds _ 0 (round_fun <$> seq 0 80) (zip K1 (schedule next_word 80 (words chunk))) s _ Hs Hg (transform_lines_funs chunk)).
  - change (0 + length (transform_lines chunk))%nat with (5 * 16)%nat. pose proof (sha1_ref_rounds_length (zip (round_fun <$> seq 0 80) (zip K1 (schedule next_word 80 (words chunk)))) s Hs) as Hl.
    rewrite (rotate_full _ 5 16 Hl). reflexivity.
  - rewrite Hk. apply gen_keys; [lia|exact sha1_next_word_ext|lia|reflexivity|reflexivity|reflexivity|lia].
Qed.

Lemma sha1_compress_length s chunk : length s = 5%nat -> length (compress s chunk) = 5%nat.
Proof. intros Hs. unfold compress, ref_rounds. rewrite length_zip_with, Hs. by rewrite sha1_ref_rounds_length. Qed.

(** ** Property *)

(** The hasher computes SHA-1 of FIPS 180-4, however a message is cut into
    calls of [Write] and whatever the buffer held. *)
Theorem sha1_hasher (buf : list Z) (parts : list (list Z)) : length buf = 64%nat ->
  CSHA1_Finalize (foldl CSHA1_Write (CSHA1_new buf) parts) = sha1 (mjoin parts).
Proof.
  intros Hb. unfold CSHA1_Finalize, sha1. assert ((Z.of_nat 64 | 2 ^ 64)) as Hd by (by exists (2 ^ 58)). assert (0 < 64)%nat as H0 by lia.
  pose proof (chunks_run_ok 64 Transform H0 Hd) as Hrun. f_equal. transitivity (digest 64 Transform Initialize 119 WriteBE64 (mjoin parts)).
  - apply (Finish_digest 64 Transform H0 Hd); [done|]. apply (writes_hold 64 Transform H0 Hd _ _ _ []); [done|by apply holds_new].
  - apply (transform_n_ext (fun s => length s = 5%nat)); [apply sha1_Transform_ref|apply sha1_compress_length|done].
Qed.

(** The digest of "abc". *)
Lemma sha1_hasher_witness :
  CSHA1_Finalize (foldl CSHA1_Write (CSHA1_new (replicate 64 7)) [[97]; [98; 99]]) =
  [0xa9; 0x99; 0x3e; 0x36; 0x47; 0x06; 0x81; 0x6a; 0xba; 0x3e; 0x25; 0x71; 0x78; 0x50; 0xc2; 0x6c; 0x9c; 0xd0; 0xd8; 0x9d].
Proof. rewrite (sha1_hasher (replicate 64 7) [[97]; [98; 99]] eq_refl). vm_compute. reflexivity. Defined.
