(* ===== verification/Ripemd160.v ===== *)
(** * RIPEMD-160
    (src/src/crypto/ripemd160.cpp)

    The transform line by line, with its two independent lines of computation
    interleaved, and the hasher [CRIPEMD160]. *)

From Stdlib Require Import ZArith Lia.
From stdpp Require Import base tactics numbers option list.
From S2P Require Import Prelude Compact HashStream HashRounds.

Open Scope Z_scope.

(** [~x] on 32 bits *)
Definition not32 (x : Z) : Z := u32 (Z.lnot x).

Definition f1 (x y z : Z) : Z := Z.lxor (Z.lxor x y) z.
Definition f2 (x y z : Z) : Z := Z.lor (Z.land x y) (Z.land (not32 x) z).
Definition f3 (x y z : Z) : Z := Z.lxor (Z.lor x (not32 y)) z.
Definition f4 (x y z : Z) : Z := Z.lor (Z.land x z) (Z.land y (not32 z)).
Definition f5 (x y z : Z) : Z := Z.lxor x (Z.lor y (not32 z)).

Definition Initialize : list Z := [0x67452301; 0xEFCDAB89; 0x98BADCFE; 0x10325476; 0xC3D2E1F0].

Definition rol (x i : Z) : Z := Z.lor (u32 (Z.shiftl x i)) (Z.shiftr x (32 - i)).

(** One round on the five variables of a line: the variables that play a..e, the
    function of b, c, d, the index of the word, the constant and the shift. *)
Definition Round (a b c d e : nat) (f : Z -> Z -> Z -> Z) (x k r : Z) (v : list Z) : list Z :=
  let fv := f (v !!! b) (v !!! c) (v !!! d) in
  <[c := rol (v !!! c) 10]> (<[a := u32 (rol (u32 (v !!! a + fv + x + k)) r + v !!! e)]> v).

(** A line of the source works on the first or on the second five variables. *)
Inductive line := Line (second : bool) (a b c d e : nat) (f : Z -> Z -> Z -> Z) (k : Z) (x : nat) (r : Z).

Definition R11 a b c d e := Line false a b c d e f1 0.
Definition R21 a b c d e := Line false a b c d e f2 0x5A827999.
Definition R31 a b c d e := Line false a b c d e f3 0x6ED9EBA1.
Definition R41 a b c d e := Line false a b c d e f4 0x8F1BBCDC.
Definition R51 a b c d e := Line false a b c d e f5 0xA953FD4E.
Definition R12 a b c d e := Line true a b c d e f5 0x50A28BE6.
Definition R22 a b c d e := Line true a b c d e f4 0x5C4DD124.
Definition R32 a b c d e := Line true a b c d e f3 0x6D703EF3.
Definition R42 a b c d e := Line true a b c d e f2 0x7A6D76E9.
Definition R52 a b c d e := Line true a b c d e f1 0.

Definition run_line (w v : list Z) (l : line) : list Z :=
  match l with Line _ a b c d e f k x r => Round a b c d e f (w !!! x) k r v end.

Definition exec_line (w : list Z) (st : list Z * list Z) (l : line) : list Z * list Z :=
  match l with Line second _ _ _ _ _ _ _ _ _ => if second then (st.1, run_line w st.2 l) else (run_line w st.1 l, st.2) end.

Section Lines.
#[local] Abbreviation a := 0%nat (only parsing).
#[local] Abbreviation b := 1%nat (only parsing).
#[local] Abbreviation c := 2%nat (only parsing).
#[local] Abbreviation d := 3%nat (only parsing).
#[local] Abbreviation e := 4%nat (only parsing).

Definition transform_lines : list line := [
  R11 a b c d e 0 11; R12 a b c d e 5 8;
  R11 e a b c d 1 14; R12 e a b c d 14 9;
  R11 d e a b c 2 15; R12 d e a b c 7 9;
  R11 c d e a b 3 12; R12 c d e a b 0 11;
  R11 b c d e a 4 5; R12 b c d e a 9 13;
  R11 a b c d e 5 8; R12 a b c d e 2 15;
  R11 e a b c d 6 7; R12 e a b c d 11 15;
  R11 d e a b c 7 9; R12 d e a b c 4 5;
  R11 c d e a b 8 11; R12 c d e a b 13 7;
  R11 b c d e a 9 13; R12 b c d e a 6 7;
  R11 a b c d e 10 14; R12 a b c d e 15 8;
  R11 e a b c d 11 15; R12 e a b c d 8 11;
  R11 d e a b c 12 6; R12 d e a b c 1 14;
  R11 c d e a b 13 7; R12 c d e a b 10 14;
  R11 b c d e a 14 9; R12 b c d e a 3 12;
  R11 a b c d e 15 8; R12 a b c d e 12 6;
  R21 e a b c d 7 7; R22 e a b c d 6 9;
  R21 d e a b c 4 6; R22 d e a b c 11 13;
  R21 c d e a b 13 8; R22 c d e a b 3 15;
  R21 b c d e a 1 13; R22 b c d e a 7 7;
  R21 a b c d e 10 11; R22 a b c d e 0 12;
  R21 e a b c d 6 9; R22 e a b c d 13 8;
  R21 d e a b c 15 7; R22 d e a b c 5 9;
  R21 c d e a b 3 15; R22 c d e a b 10 11;
  R21 b c d e a 12 7; R22 b c d e a 14 7;
  R21 a b c d e 0 12; R22 a b c d e 15 7;
  R21 e a b c d 9 15; R22 e a b c d 8 12;
  R21 d e a b c 5 9; R22 d e a b c 12 7;
  R21 c d e a b 2 11; R22 c d e a b 4 6;
  R21 b c d e a 14 7; R22 b c d e a 9 15;
  R21 a b c d e 11 13; R22 a b c d e 1 13;
  R21 e a b c d 8 12; R22 e a b c d 2 11;
  R31 d e a b c 3 11; R32 d e a b c 15 9;
  R31 c d e a b 10 13; R32 c d e a b 5 7;
  R31 b c d e a 14 6; R32 b c d e a 1 15;
  R31 a b c d e 4 7; R32 a b c d e 3 11;
  R31 e a b c d 9 14; R32 e a b c d 7 8;
  R31 d e a b c 15 9; R32 d e a b c 14 6;
  R31 c d e a b 8 13; R32 c d e a b 6 6;
  R31 b c d e a 1 15; R32 b c d e a 9 14;
  R31 a b c d e 2 14; R32 a b c d e 11 12;
  R31 e a b c d 7 8; R32 e a b c d 8 13;
  R31 d e a b c 0 13; R32 d e a b c 12 5;
  R31 c d e a b 6 6; R32 c d e a b 2 14;
  R31 b c d e a 13 5; R32 b c d e a 10 13;
  R31 a b c d e 11 12; R32 a b c d e 0 13;
  R31 e a b c d 5 7; R32 e a b c d 4 7;
  R31 d e a b c 12 5; R32 d e a b c 13 5;
  R41 c d e a b 1 11; R42 c d e a b 8 15;
  R41 b c d e a 9 12; R42 b c d e a 6 5;
  R41 a b c d e 11 14; R42 a b c d e 4 8;
  R41 e a b c d 10 15; R42 e a b c d 1 11;
  R41 d e a b c 0 14; R42 d e a b c 3 14;
  R41 c d e a b 8 15; R42 c d e a b 11 14;
  R41 b c d e a 12 9; R42 b c d e a 15 6;
  R41 a b c d e 4 8; R42 a b c d e 0 14;
  R41 e a b c d 13 9; R42 e a b c d 5 6;
  R41 d e a b c 3 14; R42 d e a b c 12 9;
  R41 c d e a b 7 5; R42 c d e a b 2 12;
  R41 b c d e a 15 6; R42 b c d e a 13 9;
  R41 a b c d e 14 8; R42 a b c d e 9 12;
  R41 e a b c d 5 6; R42 e a b c d 7 5;
  R41 d e a b c 6 5; R42 d e a b c 10 15;
  R41 c d e a b 2 12; R42 c d e a b 14 8;
  R51 b c d e a 4 9; R52 b c d e a 12 8;
  R51 a b c d e 0 15; R52 a b c d e 15 5;
  R51 e a b c d 5 5; R52 e a b c d 10 12;
  R51 d e a b c 9 11; R52 d e a b c 4 9;
  R51 c d e a b 7 6; R52 c d e a b 1 12;
  R51 b c d e a 12 8; R52 b c d e a 5 5;
  R51 a b c d e 2 13; R52 a b c d e 8 14;
  R51 e a b c d 10 12; R52 e a b c d 7 6;
  R51 d e a b c 14 5; R52 d e a b c 6 8;
  R51 c d e a b 1 12; R52 c d e a b 2 13;
  R51 b c d e a 3 13; R52 b c d e a 13 6;
  R51 a b c d e 8 14; R52 a b c d e 14 5;
  R51 e a b c d 11 11; R52 e a b c d 0 15;
  R51 d e a b c 6 8; R52 d e a b c 3 13;
  R51 c d e a b 15 5; R52 c d e a b 9 11;
  R51 b c d e a 13 6; R52 b c d e a 11 11].
End Lines.

(** [ReadLE32(chunk + off)] *)
Definition ReadLE32_at (p : list Z) (off : nat) : Z := ReadLE32 (p !!! off) (p !!! (off + 1)%nat) (p !!! (off + 2)%nat) (p !!! (off + 3)%nat).

Definition words (chunk : list Z) : list Z := map (fun i => ReadLE32_at chunk (4 * i)) (seq 0 16).

(** The end of the transform. *)
Definition combine (s v1 v2 : list Z) : list Z :=
  [u32 (s !!! 1%nat + v1 !!! 2%nat + v2 !!! 3%nat); u32 (s !!! 2%nat + v1 !!! 3%nat + v2 !!! 4%nat); u32 (s !!! 3%nat + v1 !!! 4%nat + v2 !!! 0%nat);
   u32 (s !!! 4%nat + v1 !!! 0%nat + v2 !!! 1%nat); u32 (s !!! 0%nat + v1 !!! 1%nat + v2 !!! 2%nat)].

Definition Transform (s chunk : list Z) : list Z :=
  let '(v1, v2) := foldl (exec_line (words chunk)) (s, s) transform_lines in combine s v1 v2.

(** ** The hasher *)

Definition WriteLE64 (x : Z) : list Z := WriteLE32 x ++ WriteLE32 (Z.shiftr x 32).

Definition run : list Z -> list Z -> list Z * list Z := fun s data => chunks_run 64 Transform (length data) s data.
Definition CRIPEMD160_new (buf : list Z) : Hasher := mkHasher Initialize buf 0.
Definition CRIPEMD160_Write : Hasher -> list Z -> Hasher := Write 64 Transform run.
Definition CRIPEMD160_Finalize (x : Hasher) : list Z := h_s (Finish 64 Transform run 119 WriteLE64 x) ≫= WriteLE32.
Definition CRIPEMD160_Reset (x : Hasher (S := list Z)) : Hasher := mkHasher Initialize (h_buf x) 0.

(** ** The definition of Dobbertin, Bosselaers and Preneel *)

(** The words and the shifts of the two lines. *)
Definition word_left : list nat :=
  [0; 1; 2; 3; 4; 5; 6; 7; 8; 9; 10; 11; 12; 13; 14; 15;
   7; 4; 13; 1; 10; 6; 15; 3; 12; 0; 9; 5; 2; 14; 11; 8;
   3; 10; 14; 4; 9; 15; 8; 1; 2; 7; 0; 6; 13; 11; 5; 12;
   1; 9; 11; 10; 0; 8; 12; 4; 13; 3; 7; 15; 14; 5; 6; 2;
   4; 0; 5; 9; 7; 12; 2; 10; 14; 1; 3; 8; 11; 6; 15; 13]%nat.
Definition word_right : list nat :=
  [5; 14; 7; 0; 9; 2; 11; 4; 13; 6; 15; 8; 1; 10; 3; 12;
   6; 11; 3; 7; 0; 13; 5; 10; 14; 15; 8; 12; 4; 9; 1; 2;
   15; 5; 1; 3; 7; 14; 6; 9; 11; 8; 12; 2; 10; 0; 4; 13;
   8; 6; 4; 1; 3; 11; 15; 0; 5; 12; 2; 13; 9; 7; 10; 14;
   12; 15; 10; 4; 1; 5; 8; 7; 6; 2; 13; 14; 0; 3; 9; 11]%nat.
Definition shift_left : list Z :=
  [11; 14; 15; 12; 5; 8; 7; 9; 11; 13; 14; 15; 6; 7; 9; 8;
   7; 6; 8; 13; 11; 9; 7; 15; 7; 12; 15; 9; 11; 7; 13; 12;
   11; 13; 6; 7; 14; 9; 13; 15; 14; 8; 13; 6; 5; 12; 7; 5;
   11; 12; 14; 15; 14; 15; 9; 8; 9; 14; 5; 6; 8; 6; 5; 12;
   9; 15; 5; 11; 6; 8; 13; 12; 5; 12; 13; 14; 11; 8; 5; 6].
Definition shift_right : list Z :=
  [8; 9; 9; 11; 13; 15; 15; 5; 7; 7; 8; 11; 14; 14; 12; 6;
   9; 13; 15; 7; 12; 8; 9; 11; 7; 7; 12; 7; 6; 15; 13; 11;
   9; 7; 15; 11; 8; 6; 6; 14; 12; 13; 5; 14; 13; 13; 7; 5;
   15; 5; 8; 11; 14; 14; 6; 14; 6; 9; 12; 9; 12; 5; 15; 8;
   8; 5; 12; 9; 12; 5; 14; 6; 8; 13; 6; 5; 15; 13; 11; 11].

(** The function and the constant of round [j]; the right line takes the functions
    in the opposite order. *)
Definition round_fun (j : nat) : Z -> Z -> Z -> Z :=
  if decide (j < 16)%nat then f1 else if decide (j < 32)%nat then f2 else if decide (j < 48)%nat then f3 else if decide (j < 64)%nat then f4 else f5.
Definition const_left : list Z := replicate 16 0 ++ replicate 16 0x5A827999 ++ replicate 16 0x6ED9EBA1 ++ replicate 16 0x8F1BBCDC ++ replicate 16 0xA953FD4E.
Definition const_right : list Z := replicate 16 0x50A28BE6 ++ replicate 16 0x5C4DD124 ++ replicate 16 0x6D703EF3 ++ replicate 16 0x7A6D76E9 ++ replicate 16 0.

Definition ref_round (X : list Z) (s : list Z) (r : (Z -> Z -> Z -> Z) * nat * Z * Z) : list Z :=
  let '(f, i, k, sh) := r in
  match s with
  | [A; B; C; D; E] => [E; u32 (rol (u32 (A + f B C D + X !!! i + k)) sh + E); B; rol C 10; D]
  | _ => s
  end.

Definition rounds_left : list ((Z -> Z -> Z -> Z) * nat * Z * Z) :=
  map (fun j => (round_fun j, word_left !!! j, const_left !!! j, shift_left !!! j)) (seq 0 80).
Definition rounds_right : list ((Z -> Z -> Z -> Z) * nat * Z * Z) :=
  map (fun j => (round_fun (79 - j), word_right !!! j, const_right !!! j, shift_right !!! j)) (seq 0 80).

Definition compress (h chunk : list Z) : list Z :=
  combine h (foldl (ref_round (words chunk)) h rounds_left) (foldl (ref_round (words chunk)) h rounds_right).
Definition ripemd160 (msg : list Z) : list Z := digest 64 compress Initialize 119 WriteLE64 msg ≫= WriteLE32.

(** ** Lemmas *)

Definition is_second (l : line) : bool := match l with Line second _ _ _ _ _ _ _ _ _ => second end.

(** The two lines do not interfere. *)
Lemma exec_lanes w ls v1 v2 :
  foldl (exec_line w) (v1, v2) ls = (foldl (run_line w) v1 (List.filter (fun l => negb (is_second l)) ls), foldl (run_line w) v2 (List.filter is_second ls)).
Proof. revert v1 v2. induction ls as [|[[] ? ? ? ? ? ? ? ? ?] ls IH]; intros v1 v2; [done|..]; cbn; apply IH. Qed.

Definition gen_line (second : bool) (t : nat) (r : (Z -> Z -> Z -> Z) * nat * Z * Z) : line :=
  let '(f, i, k, sh) := r in Line second (rot 5 t 0) (rot 5 t 1) (rot 5 t 2) (rot 5 t 3) (rot 5 t 4) f k i sh.

Lemma ripemd160_ref_round_length w s r : length s = 5%nat -> length (ref_round w s r) = 5%nat.
Proof. destruct r as [[[f i] k] sh]. intros Hs. by destruct s as [|a [|b [|c [|d [|e [|]]]]]]. Qed.

Lemma line_rotates w second t r s : length s = 5%nat -> run_line w (rotate t s) (gen_line second t r) = rotate (S t) (ref_round w s r).
Proof.
  intros Hs. pose proof (ripemd160_ref_round_length w s r Hs) as Hl. rewrite (proj2 (rotate_mod _ 5 t Hl ltac:(lia))), (proj1 (rotate_mod s 5 t Hs ltac:(lia))).
  destruct r as [[[f i] k] sh]. destruct s as [|a [|b [|c [|d [|e [|]]]]]]; try done. unfold gen_line. rewrite !(rot_mod 5 t) by lia.
  pose proof (Nat.mod_upper_bound t 5 ltac:(lia)) as Hb. destruct (t mod 5)%nat as [|[|[|[|[|]]]]]; [..|lia]; reflexivity.
Qed.

Lemma lane_rounds w second rs t s : length s = 5%nat ->
  foldl (run_line w) (rotate t s) (imap (fun i r => gen_line second (t + i) r) rs) = rotate (t + length rs) (foldl (ref_round w) s rs).
Proof.
  revert t s. induction rs as [|r rs IH]; intros t s Hs; [cbn; by rewrite Nat.add_0_r|]. rewrite imap_cons. cbn [foldl length].
  rewrite Nat.add_0_r, line_rotates by done.
  replace (t + S (length rs))%nat with (S t + length rs)%nat by lia. rewrite <- IH by (by apply ripemd160_ref_round_length).
  f_equal. apply imap_ext. intros i x _. cbn. by rewrite Nat.add_succ_r.
Qed.

Lemma lane_left : List.filter (fun l => negb (is_second l)) transform_lines = imap (fun i r => gen_line false (0 + i) r) rounds_left.
Proof. reflexivity. Qed.
Lemma lane_right : List.filter is_second transform_lines = imap (fun i r => gen_line true (0 + i) r) rounds_right.
Proof. reflexivity. Qed.

Lemma lane_full w second rs s : length s = 5%nat -> length rs = 80%nat ->
  foldl (run_line w) s (imap (fun i r => gen_line second (0 + i) r) rs) = foldl (ref_round w) s rs.
Proof.
  intros Hs Hr. pose proof (lane_rounds w second rs 0 s Hs) as H. rewrite Hr in H. change (0 + 80)%nat with (5 * 16)%nat in H.
  assert (length (foldl (ref_round w) s rs) = 5%nat) as Hl.
  { clear -Hs. revert s Hs. induction rs as [|r rs IH]; intros s Hs; [done|]. by apply IH, ripemd160_ref_round_length. }
  rewrite (rotate_full _ 5 16 Hl) in H. rewrite <- H. f_equal. symmetry. apply (rotate_full s 5 0 Hs).
Qed.

Lemma ripemd160_Transform_ref s chunk : length s = 5%nat -> Transform s chunk = compress s chunk.
Proof. intros Hs. unfold Transform, compress. by rewrite exec_lanes, lane_left, lane_right, !lane_full. Qed.

(** Whatever the buffer held and however the message is cut. *)
Lemma ripemd160_writes buf parts : length buf = 64%nat ->
  CRIPEMD160_Finalize (foldl CRIPEMD160_Write (CRIPEMD160_new buf) parts) = ripemd160 (mjoin parts).
Proof.
  intros Hb. unfold CRIPEMD160_Finalize, ripemd160. assert ((Z.of_nat 64 | 2 ^ 64)) as Hd by (by exists (2 ^ 58)). assert (0 < 64)%nat as H0 by lia.
  pose proof (chunks_run_ok 64 Transform H0 Hd) as Hrun. f_equal. transitivity (digest 64 Transform Initialize 119 WriteLE64 (mjoin parts)).
  - apply (Finish_digest 64 Transform H0 Hd); [done|]. apply (writes_hold 64 Transform H0 Hd _ _ _ []); [done|by apply holds_new].
  - apply (transform_n_ext (fun s => length s = 5%nat)); [apply ripemd160_Transform_ref|done|done].
Qed.

(** ** Property *)

(** The hasher computes RIPEMD-160 as its authors define it, however a
    message is cut into calls of [Write] and whatever the buffer held. *)
Theorem ripemd160_hasher (buf : list Z) (parts : list (list Z)) : length buf = 64%nat ->
  CRIPEMD160_Finalize (foldl CRIPEMD160_Write (CRIPEMD160_new buf) parts) = ripemd160 (mjoin parts).
Proof. apply ripemd160_writes. Qed.

(** The digest of "abc". *)
Lemma ripemd160_hasher_witness :
  CRIPEMD160_Finalize (foldl CRIPEMD160_Write (CRIPEMD160_new (replicate 64 7)) [[97]; [98; 99]]) =
  [0x8e; 0xb2; 0x08; 0xf7; 0xe0; 0x5d; 0x98; 0x7a; 0x9b; 0x04; 0x4a; 0x8e; 0x98; 0xc6; 0xb0; 0x87; 0xf1; 0x5a; 0x0b; 0xfc].
Proof. rewrite (ripemd160_hasher (replicate 64 7) [[97]; [98; 99]] eq_refl). vm_compute. reflexivity. Defined.
