(* ===== verification/Hashers.v ===== *)
(** * Hashers built from the hash functions
    (src/src/hash.h, src/src/hash.cpp, src/src/crypto/hmac_sha256.cpp, src/src/crypto/hmac_sha512.cpp)

    HMAC over SHA-256 and SHA-512 with the child key hash of BIP 32, and the double
    hashes [CHash256] and [CHash160].  What these need from an underlying hasher is
    the class [StreamHash]: which message a hasher stands for, that [Write] extends
    it and that [Finalize] returns its hash. *)

From Stdlib Require Import ZArith Lia.
From stdpp Require Import base tactics numbers option list.
From S2P Require Import Prelude HashStream HashRounds Sha2 Sha256 Sha512 Ripemd160.

Open Scope Z_scope.

(** ** Hashers as components *)

Class StreamHash {T : Type} (B D : nat) (make : list Z -> T) (write : T -> list Z -> T) (finalize : T -> list Z)
    (H : list Z -> list Z) (stands : T -> list Z -> Prop) : Prop := {
  sh_make buf : length buf = B -> stands (make buf) [];
  sh_write h msg data : stands h msg -> stands (write h data) (msg ++ data);
  sh_finalize h msg : stands h msg -> finalize h = H msg;
  sh_length msg : length (H msg) = D
}.

Lemma sha256_block : (Z.of_nat 64 | 2 ^ 64).
Proof. by exists (2 ^ 58). Qed.

#[export] Instance sha256_stream : StreamHash 64 32 CSHA256_new CSHA256_Write CSHA256_Finalize sha256
  (holds 64 Sha256.Transform Sha256.Initialize).
Proof.
  assert (0 < 64)%nat as H0 by lia. pose proof sha256_block as Hd. split.
  - intros buf Hb. by apply holds_new.
  - intros h msg data Hh. by apply (Write_holds 64 _ H0 Hd); [apply blocks_run_ok|].
  - intros h msg Hh. unfold CSHA256_Finalize, sha256. rewrite <- sha256_digest_ref. f_equal. by apply (Finish_digest 64 _ H0 Hd); [apply blocks_run_ok|].
  - apply sha256_length.
Qed.

Lemma WriteBE64_words_length w : length (w ≫= WriteBE64) = (8 * length w)%nat.
Proof. induction w as [|x w IH]; [done|]. rewrite bind_cons, length_app, IH. cbn. lia. Qed.

#[export] Instance sha512_stream : StreamHash 128 64 CSHA512_new CSHA512_Write CSHA512_Finalize sha512
  (holds 128 Sha512.Transform Sha512.Initialize).
Proof.
  assert (0 < 128)%nat as H0 by lia. assert (Z.of_nat 128 | 2 ^ 64) as Hd by (by exists (2 ^ 57)).
  pose proof (chunks_run_ok 128 Sha512.Transform H0 Hd) as Hrun. split.
  - intros buf Hb. by apply holds_new.
  - intros h msg data Hh. by apply (Write_holds 128 _ H0 Hd).
  - intros h msg Hh. unfold CSHA512_Finalize, sha512. rewrite <- sha512_digest_ref. f_equal. by apply (Finish_digest 128 _ H0 Hd).
  - intros msg. unfold sha512. rewrite WriteBE64_words_length. unfold digest.
    by rewrite (transform_n_inv (fun s => length s = 8%nat)) by (apply sha512_compress_length || done).
Qed.

(** ** HMAC *)

Record CHMAC (T : Type) := mkHMAC { outer : T; inner : T }.
Arguments mkHMAC {_} _ _. Arguments outer {_} _. Arguments inner {_} _.

(** [for (n = 0; n < B; n++) rkey[n] ^= x] *)
Definition xor_key (x : Z) (rkey : list Z) : list Z := (fun b => Z.lxor b x) <$> rkey.

Section Hmac.
Context {T : Type} (B D : nat) (make : list Z -> T) (write : T -> list Z -> T) (finalize : T -> list Z).

(** The key, padded to a block or hashed; [buf] is the buffer of the temporary. *)
Definition block_key (buf key : list Z) : list Z :=
  if (length key <=? B)%nat then key ++ replicate (B - length key) 0
  else finalize (write (make buf) key) ++ replicate (B - D) 0.

(** The constructor, with the buffers the hashers start with. *)
Definition hmac_new (buf outer_buf inner_buf key : list Z) : CHMAC T :=
  let rkey := block_key buf key in
  let rkey := xor_key 0x5c rkey in
  let outer := write (make outer_buf) rkey in
  let rkey := xor_key (Z.lxor 0x5c 0x36) rkey in
  let inner := write (make inner_buf) rkey in
  mkHMAC outer inner.
Definition hmac_Write (h : CHMAC T) (data : list Z) : CHMAC T := mkHMAC (outer h) (write (inner h) data).
Definition hmac_Finalize (h : CHMAC T) : list Z :=
  let temp := finalize (inner h) in finalize (write (outer h) temp).

(** HMAC as RFC 2104 defines it. *)
Context (H : list Z -> list Z).

Definition K0 (key : list Z) : list Z :=
  let k := if (B <? length key)%nat then H key else key in k ++ replicate (B - length k) 0.
Definition hmac (key text : list Z) : list Z :=
  H (((fun b => Z.lxor b 0x5c) <$> K0 key) ++ H (((fun b => Z.lxor b 0x36) <$> K0 key) ++ text)).

Context (stands : T -> list Z -> Prop) `{!StreamHash B D make write finalize H stands}.

Lemma block_key_K0 buf key : length buf = B -> block_key buf key = K0 key.
Proof using All.
  intros Hb. unfold block_key, K0. destruct (Nat.leb_spec (length key) B).
  - by rewrite (proj2 (Nat.ltb_ge _ _)) by lia.
  - rewrite (proj2 (Nat.ltb_lt _ _)) by lia. rewrite (sh_length (stands := stands) key).
    by rewrite (sh_finalize (stands := stands) _ ([] ++ key)) by (by apply sh_write, sh_make).
Qed.

Lemma xor_twice rkey : xor_key (Z.lxor 0x5c 0x36) (xor_key 0x5c rkey) = (fun b => Z.lxor b 0x36) <$> rkey.
Proof using Type.
  unfold xor_key. rewrite <- list_fmap_compose. apply list_fmap_ext. intros _ b _. cbn [compose].
  by rewrite Z.lxor_assoc, <- (Z.lxor_assoc 0x5c 0x5c), Z.lxor_nilpotent, Z.lxor_0_l.
Qed.

(** The writes reach the inner hasher. *)
Lemma hmac_spec buf outer_buf inner_buf key parts : length buf = B -> length outer_buf = B -> length inner_buf = B ->
  hmac_Finalize (foldl hmac_Write (hmac_new buf outer_buf inner_buf key) parts) = hmac key (mjoin parts).
Proof using All.
  intros Hb Hbo Hbi. unfold hmac_new. rewrite block_key_K0, xor_twice by done.
  set (o := write _ (xor_key _ _)). set (i := write _ (_ <$> _)).
  assert (stands i (((fun b => Z.lxor b 0x36) <$> K0 key) ++ [])) as Hi by (rewrite app_nil_r; apply (sh_write _ []); by apply sh_make).
  assert (stands o ((fun b => Z.lxor b 0x5c) <$> K0 key)) as Ho by (apply (sh_write _ []); by apply sh_make).
  clearbody o i. unfold hmac. change (mjoin parts) with ([] ++ mjoin parts). revert i Hi. generalize (@nil Z) as m.
  induction parts as [|d parts IH]; intros m i Hi; cbn [foldl].
  - unfold hmac_Finalize. cbn [inner outer]. rewrite (sh_finalize (stands := stands) _ _ Hi).
    change (mjoin []) with (@nil Z). rewrite app_nil_r. by apply (sh_finalize (stands := stands)), sh_write.
  - change (mjoin (d :: parts)) with (d ++ mjoin parts). rewrite (app_assoc m). apply IH. rewrite (app_assoc _ m). by apply sh_write.
Qed.
End Hmac.

Definition CHMAC_SHA256_new := hmac_new 64 32 CSHA256_new CSHA256_Write CSHA256_Finalize.
Definition CHMAC_SHA256_Write := hmac_Write CSHA256_Write.
Definition CHMAC_SHA256_Finalize := hmac_Finalize CSHA256_Write CSHA256_Finalize.
Definition hmac_sha256 : list Z -> list Z -> list Z := hmac 64 sha256.

Definition CHMAC_SHA512_new := hmac_new 128 64 CSHA512_new CSHA512_Write CSHA512_Finalize.
Definition CHMAC_SHA512_Write := hmac_Write CSHA512_Write.
Definition CHMAC_SHA512_Finalize := hmac_Finalize CSHA512_Write CSHA512_Finalize.
Definition hmac_sha512 : list Z -> list Z -> list Z := hmac 128 sha512.

(** [BIP32Hash] *)
Definition BIP32Hash (bufs : list Z * list Z * list Z) (chainCode : list Z) (nChild header : Z) (data : list Z) : list Z :=
  let '(b, bo, bi) := bufs in
  let num := [Z.land (Z.shiftr nChild 24) 0xFF; Z.land (Z.shiftr nChild 16) 0xFF; Z.land (Z.shiftr nChild 8) 0xFF; Z.land (Z.shiftr nChild 0) 0xFF] in
  CHMAC_SHA512_Finalize (CHMAC_SHA512_Write (CHMAC_SHA512_Write (CHMAC_SHA512_Write (CHMAC_SHA512_new b bo bi chainCode) [header]) data) num).

Lemma child_number n :
  [Z.land (Z.shiftr n 24) 0xFF; Z.land (Z.shiftr n 16) 0xFF; Z.land (Z.shiftr n 8) 0xFF; Z.land (Z.shiftr n 0) 0xFF] = WriteBE32 n.
Proof.
  assert (forall a, Z.land a 0xFF = u8 a) as E by (intros a; apply (Z.land_ones a 8); lia). by rewrite !E, Z.shiftr_0_r.
Qed.

(** ** Double hashes *)

(** The hasher after [Finalize] still has its buffer. *)
Definition CSHA256_finished (x : @Hasher (list Z)) : @Hasher (list Z) :=
  Finish 64 Sha256.Transform (blocks_run 64 Sha256.Transform) 119 WriteBE64 x.

Definition CHash256_Finalize (sha : @Hasher (list Z)) : list Z :=
  let buf := CSHA256_Finalize sha in
  CSHA256_Finalize (CSHA256_Write (CSHA256_Reset (CSHA256_finished sha)) buf).
Definition CHash160_Finalize (rbuf : list Z) (sha : @Hasher (list Z)) : list Z :=
  let buf := CSHA256_Finalize sha in
  CRIPEMD160_Finalize (CRIPEMD160_Write (CRIPEMD160_new rbuf) buf).

(** [Hash(p1begin, p1end, ...)] for one to six ranges, and [Hash160]. *)
Definition Hash (buf : list Z) (parts : list (list Z)) : list Z := CHash256_Finalize (foldl CSHA256_Write (CSHA256_new buf) parts).
Definition Hash160 (buf rbuf : list Z) (data : list Z) : list Z := CHash160_Finalize rbuf (CSHA256_Write (CSHA256_new buf) data).

Lemma finished_buffer sha msg : holds 64 Sha256.Transform Sha256.Initialize sha msg -> length (h_buf (CSHA256_finished sha)) = 64%nat.
Proof.
  intros Hh. unfold CSHA256_finished, Finish. eapply ho_length.
  apply (sh_write (StreamHash := sha256_stream)), (sh_write (StreamHash := sha256_stream)), Hh.
Qed.

Lemma Hash_spec buf parts : length buf = 64%nat -> Hash buf parts = sha256 (sha256 (mjoin parts)).
Proof.
  intros Hb. unfold Hash, CHash256_Finalize. pose proof (hasher_holds buf parts Hb) as Hh.
  rewrite (sh_finalize (StreamHash := sha256_stream) _ _ Hh).
  apply (sh_finalize (StreamHash := sha256_stream) _ ([] ++ _)), (sh_write (StreamHash := sha256_stream)), (sh_make (StreamHash := sha256_stream)).
  by eapply finished_buffer.
Qed.

(** ** Properties *)

(** The keyed hashers compute HMAC.  For a key of any length, and however
    the text is cut into calls of [Write], [CHMAC_SHA256] and [CHMAC_SHA512] return
    the keyed hash that RFC 2104 defines over SHA-256 and SHA-512: a key longer than
    a block is hashed first, a shorter one is padded with zeros. *)
Theorem hmac_hashers (buf outer_buf inner_buf lbuf louter linner key : list Z) (parts : list (list Z)) :
  length buf = 64%nat -> length outer_buf = 64%nat -> length inner_buf = 64%nat ->
  length lbuf = 128%nat -> length louter = 128%nat -> length linner = 128%nat ->
  CHMAC_SHA256_Finalize (foldl CHMAC_SHA256_Write (CHMAC_SHA256_new buf outer_buf inner_buf key) parts) = hmac_sha256 key (mjoin parts) /\
  CHMAC_SHA512_Finalize (foldl CHMAC_SHA512_Write (CHMAC_SHA512_new lbuf louter linner key) parts) = hmac_sha512 key (mjoin parts).
Proof.
  intros H1 H2 H3 H4 H5 H6. split.
  - by apply (hmac_spec 64 32 CSHA256_new CSHA256_Write CSHA256_Finalize sha256 _).
  - by apply (hmac_spec 128 64 CSHA512_new CSHA512_Write CSHA512_Finalize sha512 _).
Qed.

(** The first test case of RFC 4231: the key is twenty bytes 0x0b, the text "Hi There". *)
Lemma hmac_hashers_witness :
  CHMAC_SHA256_Finalize (foldl CHMAC_SHA256_Write (CHMAC_SHA256_new (replicate 64 1) (replicate 64 2) (replicate 64 3) (replicate 20 0x0b)) [[72; 105]; [32; 84; 104; 101; 114; 101]]) =
  [176; 52; 76; 97; 216; 219; 56; 83; 92; 168; 175; 206; 175; 11; 241; 43; 136; 29; 194; 0; 201; 131; 61; 167; 38; 233; 55; 108; 46; 50; 207; 247] /\
  CHMAC_SHA512_Finalize (foldl CHMAC_SHA512_Write (CHMAC_SHA512_new (replicate 128 1) (replicate 128 2) (replicate 128 3) (replicate 20 0x0b)) [[72; 105]; [32; 84; 104; 101; 114; 101]]) =
  [135; 170; 124; 222; 165; 239; 97; 157; 79; 240; 180; 36; 26; 29; 108; 176; 35; 121; 244; 226; 206; 78; 194; 120; 122; 208; 179; 5; 69; 225; 124; 222; 218; 168; 51; 183; 214; 184; 167; 2; 3; 139; 39; 78; 174; 163; 244; 228; 190; 157; 145; 78; 235; 97; 241; 112; 46; 105; 108; 32; 58; 18; 104; 84].
Proof.
  destruct (hmac_hashers (replicate 64 1) (replicate 64 2) (replicate 64 3) (replicate 128 1) (replicate 128 2) (replicate 128 3) (replicate 20 0x0b)
    [[72; 105]; [32; 84; 104; 101; 114; 101]] eq_refl eq_refl eq_refl eq_refl eq_refl eq_refl) as [E1 E2].
  rewrite E1, E2. clear E1 E2. split; vm_compute; reflexivity.
Defined.

(** The child key hash of BIP 32 is the keyed hash of the header, the data and the
    child number in big-endian order. *)
Theorem bip32_child_hash (b bo bi chainCode data : list Z) (nChild header : Z) :
  length b = 128%nat -> length bo = 128%nat -> length bi = 128%nat ->
  BIP32Hash (b, bo, bi) chainCode nChild header data = hmac_sha512 chainCode (header :: data ++ WriteBE32 nChild).
Proof.
  intros H1 H2 H3. unfold BIP32Hash. cbn zeta. rewrite child_number.
  pose proof (hmac_spec 128 64 CSHA512_new CSHA512_Write CSHA512_Finalize sha512 _ b bo bi chainCode
    [[header]; data; WriteBE32 nChild] H1 H2 H3) as E. cbn [foldl] in E.
  unfold CHMAC_SHA512_Finalize, CHMAC_SHA512_Write, CHMAC_SHA512_new. rewrite E.
  change (mjoin [[header]; data; WriteBE32 nChild]) with (header :: data ++ WriteBE32 nChild ++ []). by rewrite app_nil_r.
Qed.

(** The hash of several ranges is the double SHA-256 of their concatenation, and
    [Hash160] is RIPEMD-160 of SHA-256. *)
Theorem double_hashes (buf rbuf data : list Z) (parts : list (list Z)) : length buf = 64%nat -> length rbuf = 64%nat ->
  Hash buf parts = sha256 (sha256 (mjoin parts)) /\ Hash160 buf rbuf data = ripemd160 (sha256 data).
Proof.
  intros Hb Hr. split; [by apply Hash_spec|]. unfold Hash160, CHash160_Finalize.
  pose proof (ripemd160_writes rbuf [CSHA256_Finalize (CSHA256_Write (CSHA256_new buf) data)] Hr) as E. cbn [foldl] in E. rewrite E.
  change (mjoin [?x]) with (x ++ []). rewrite app_nil_r. f_equal.
  apply (sh_finalize (StreamHash := sha256_stream) _ ([] ++ data)), (sh_write (StreamHash := sha256_stream)). by apply (sh_make (StreamHash := sha256_stream)).
Qed.
