(* ===== verification/SipHash.v ===== *)
(** * SipHash
    (CSipHasher, SipHashUint256, SipHashUint256Extra of src/src/hash.cpp, src/src/hash.h)

    The keyed hash of the in-memory tables.  The hasher takes whole 64-bit words, as
    long as it is aligned to one, and bytes; two specialised routines hash a 256-bit
    value and a 256-bit value with a 32-bit extra. *)

From Stdlib Require Import ZArith Lia.
From stdpp Require Import base tactics numbers option list.
From S2P Require Import Prelude ArithUint256 Compact Block Serialize HashStream.

Open Scope Z_scope.

Record vars := V { v0 : Z; v1 : Z; v2 : Z; v3 : Z }.

Definition ROTL (x b : Z) : Z := Z.lor (u64 (Z.shiftl x b)) (Z.shiftr x (64 - b)).

Definition SIPROUND (v : vars) : vars :=
  let '(V v0 v1 v2 v3) := v in
  let v0 := u64 (v0 + v1) in let v1 := ROTL v1 13 in let v1 := Z.lxor v1 v0 in
  let v0 := ROTL v0 32 in
  let v2 := u64 (v2 + v3) in let v3 := ROTL v3 16 in let v3 := Z.lxor v3 v2 in
  let v0 := u64 (v0 + v3) in let v3 := ROTL v3 21 in let v3 := Z.lxor v3 v0 in
  let v2 := u64 (v2 + v1) in let v1 := ROTL v1 17 in let v1 := Z.lxor v1 v2 in
  let v2 := ROTL v2 32 in
  V v0 v1 v2 v3.

Definition xor0 (d : Z) (v : vars) : vars := V (Z.lxor (v0 v) d) (v1 v) (v2 v) (v3 v).
Definition xor2 (d : Z) (v : vars) : vars := V (v0 v) (v1 v) (Z.lxor (v2 v) d) (v3 v).
Definition xor3 (d : Z) (v : vars) : vars := V (v0 v) (v1 v) (v2 v) (Z.lxor (v3 v) d).

Record CSipHasher := mkSipHasher { sip_v : vars; sip_tmp : Z; sip_count : Z }.

Definition CSipHasher_new (k0 k1 : Z) : CSipHasher :=
  mkSipHasher (V (Z.lxor 0x736f6d6570736575 k0) (Z.lxor 0x646f72616e646f6d k1)
                 (Z.lxor 0x6c7967656e657261 k0) (Z.lxor 0x7465646279746573 k1)) 0 0.

(** [CSipHasher::Write(uint64_t)] *)
Definition Write64 (x : CSipHasher) (data : Z) : result CSipHasher :=
  _ ← cassert (Z.rem (sip_count x) 8 =? 0);
  let v := xor3 data (sip_v x) in
  let v := SIPROUND v in
  let v := SIPROUND v in
  let v := xor0 data v in
  Ok (mkSipHasher v (sip_tmp x) (i32 (sip_count x + 8))).

(** [CSipHasher::Write(const unsigned char*, size_t)]: the body of the loop. *)
Definition write_byte (x : CSipHasher) (b : Z) : CSipHasher :=
  let t := Z.lor (sip_tmp x) (u64 (Z.shiftl b (8 * Z.rem (sip_count x) 8))) in
  let c := i32 (sip_count x + 1) in
  if Z.land c 7 =? 0 then
    let v := xor3 t (sip_v x) in
    let v := SIPROUND v in
    let v := SIPROUND v in
    let v := xor0 t v in
    mkSipHasher v 0 c
  else mkSipHasher (sip_v x) t c.
Definition WriteBytes (x : CSipHasher) (data : list Z) : CSipHasher := foldl write_byte x data.

(** The end of every variant. *)
Definition sum (v : vars) : Z := Z.lxor (Z.lxor (Z.lxor (v0 v) (v1 v)) (v2 v)) (v3 v).

Definition Finalize (x : CSipHasher) : Z :=
  let v := sip_v x in
  let t := Z.lor (sip_tmp x) (u64 (Z.shiftl (u64 (sip_count x)) 56)) in
  let v := xor3 t v in
  let v := SIPROUND v in
  let v := SIPROUND v in
  let v := xor0 t v in
  let v := xor2 0xFF v in
  let v := SIPROUND v in
  let v := SIPROUND v in
  let v := SIPROUND v in
  let v := SIPROUND v in
  sum v.

(** [uint256::GetUint64] *)
Definition GetUint64 (val : uint256) (pos : nat) : Z :=
  let ptr i := val !!! (pos * 8 + i)%nat in
  Z.lor (Z.lor (Z.lor (Z.lor (Z.lor (Z.lor (Z.lor (ptr 0%nat) (Z.shiftl (ptr 1%nat) 8)) (Z.shiftl (ptr 2%nat) 16))
    (Z.shiftl (ptr 3%nat) 24)) (Z.shiftl (ptr 4%nat) 32)) (Z.shiftl (ptr 5%nat) 40)) (Z.shiftl (ptr 6%nat) 48)) (Z.shiftl (ptr 7%nat) 56).

Definition SipHashUint256 (k0 k1 : Z) (val : uint256) : Z :=
  let d := GetUint64 val 0 in
  let v := V (Z.lxor 0x736f6d6570736575 k0) (Z.lxor 0x646f72616e646f6d k1)
             (Z.lxor 0x6c7967656e657261 k0) (Z.lxor (Z.lxor 0x7465646279746573 k1) d) in
  let v := SIPROUND v in
  let v := SIPROUND v in
  let v := xor0 d v in
  let d := GetUint64 val 1 in
  let v := xor3 d v in
  let v := SIPROUND v in
  let v := SIPROUND v in
  let v := xor0 d v in
  let d := GetUint64 val 2 in
  let v := xor3 d v in
  let v := SIPROUND v in
  let v := SIPROUND v in
  let v := xor0 d v in
  let d := GetUint64 val 3 in
  let v := xor3 d v in
  let v := SIPROUND v in
  let v := SIPROUND v in
  let v := xor0 d v in
  let v := xor3 (Z.shiftl 4 59) v in
  let v := SIPROUND v in
  let v := SIPROUND v in
  let v := xor0 (Z.shiftl 4 59) v in
  let v := xor2 0xFF v in
  let v := SIPROUND v in
  let v := SIPROUND v in
  let v := SIPROUND v in
  let v := SIPROUND v in
  sum v.

Definition SipHashUint256Extra (k0 k1 : Z) (val : uint256) (extra : Z) : Z :=
  let d := GetUint64 val 0 in
  let v := V (Z.lxor 0x736f6d6570736575 k0) (Z.lxor 0x646f72616e646f6d k1)
             (Z.lxor 0x6c7967656e657261 k0) (Z.lxor (Z.lxor 0x7465646279746573 k1) d) in
  let v := SIPROUND v in
  let v := SIPROUND v in
  let v := xor0 d v in
  let d := GetUint64 val 1 in
  let v := xor3 d v in
  let v := SIPROUND v in
  let v := SIPROUND v in
  let v := xor0 d v in
  let d := GetUint64 val 2 in
  let v := xor3 d v in
  let v := SIPROUND v in
  let v := SIPROUND v in
  let v := xor0 d v in
  let d := GetUint64 val 3 in
  let v := xor3 d v in
  let v := SIPROUND v in
  let v := SIPROUND v in
  let v := xor0 d v in
  let d := Z.lor (Z.shiftl 36 56) extra in
  let v := xor3 d v in
  let v := SIPROUND v in
  let v := SIPROUND v in
  let v := xor0 d v in
  let v := xor2 0xFF v in
  let v := SIPROUND v in
  let v := SIPROUND v in
  let v := SIPROUND v in
  let v := SIPROUND v in
  sum v.

(** ** SipHash-2-4 as Aumasson and Bernstein define it *)

(** Compression of one word of the message. *)
Definition c_round (v : vars) (word : list Z) : vars :=
  let m := le_value word in xor0 m (SIPROUND (SIPROUND (xor3 m v))).

Definition d_rounds (v : vars) : Z := sum (SIPROUND (SIPROUND (SIPROUND (SIPROUND (xor2 0xFF v))))).

(** The message is padded with zeros and its length modulo 256 to whole words. *)
Definition sip_padded (msg : list Z) : list Z :=
  msg ++ replicate (7 - length msg mod 8) 0 ++ [Z.of_nat (length msg) mod 256].

Definition siphash (k0 k1 : Z) (msg : list Z) : Z :=
  let p := sip_padded msg in d_rounds (transform_n 8 c_round (length p / 8) (sip_v (CSipHasher_new k0 k1)) p).

(** A sequence of writes. *)
Inductive write := Word (d : Z) | Bytes (data : list Z).

Definition do_write (x : CSipHasher) (w : write) : result CSipHasher :=
  match w with Word d => Write64 x d | Bytes data => Ok (WriteBytes x data) end.

Fixpoint do_writes (x : CSipHasher) (ws : list write) : result CSipHasher :=
  match ws with
  | [] => Ok x
  | w :: ws => x ← do_write x w; do_writes x ws
  end.

Definition written (w : write) : list Z := match w with Word d => le_bytes 8 d | Bytes data => data end.

Definition write_ok (w : write) : Prop := match w with Word d => is_u64 d | Bytes data => Forall is_byte data end.

(** Every word comes at a multiple of eight bytes. *)
Fixpoint aligned (n : nat) (ws : list write) : Prop :=
  match ws with
  | [] => True
  | Word d :: ws => (n mod 8 = 0)%nat /\ aligned (n + 8) ws
  | Bytes data :: ws => aligned (n + length data) ws
  end.

(** ** Lemmas *)

(** The words of a message and what is left. *)
Record absorbed (v : vars) (x : CSipHasher) (msg : list Z) : Prop := {
  ab_v : sip_v x = transform_n 8 c_round (length msg / 8) v msg;
  ab_tmp : sip_tmp x = le_value (drop (8 * (length msg / 8)) msg);
  ab_count : sip_count x = Z.of_nat (length msg);
  ab_bytes : Forall is_byte msg
}.

Lemma div8 n : exists q r, (n = 8 * q + r)%nat /\ (r < 8)%nat /\ (n / 8 = q)%nat /\ (n mod 8 = r)%nat.
Proof.
  exists (n / 8)%nat, (n mod 8)%nat. pose proof (Nat.div_mod n 8 ltac:(lia)). pose proof (Nat.mod_upper_bound n 8 ltac:(lia)). done.
Qed.

Lemma siphash_le_value_app a b : le_value (a ++ b) = le_value a + 2 ^ (8 * Z.of_nat (length a)) * le_value b.
Proof.
  induction a as [|c a IH]; cbn [app le_value length]; [rewrite Z.mul_0_r, Z.pow_0_r; lia|]. rewrite IH.
  replace (8 * Z.of_nat (S (length a))) with (8 + 8 * Z.of_nat (length a)) by lia. rewrite Z.pow_add_r by lia. lia.
Qed.

Lemma le_value_zeros n : le_value (replicate n 0) = 0.
Proof. induction n as [|n IH]; [done|]. cbn [replicate le_value]. rewrite IH. lia. Qed.

Lemma byte_rem n q r : (n = 8 * q + r)%nat -> (r < 8)%nat -> Z.rem (Z.of_nat n) 8 = Z.of_nat r.
Proof.
  intros -> Hr. rewrite Z.rem_mod_nonneg, <- (Nat2Z.inj_mod _ 8) by lia. f_equal.
  rewrite Nat.mul_comm, Nat.add_comm, Nat.Div0.mod_add. by apply Nat.mod_small.
Qed.

(** A word and its last bytes. *)
Lemma tail_lor tl b r : Forall is_byte tl -> length tl = r -> (r < 8)%nat -> is_byte b ->
  Z.lor (le_value tl) (u64 (Z.shiftl b (8 * Z.of_nat r))) = le_value (tl ++ [b]).
Proof.
  intros Hb Hl Hr Hby. unfold is_byte in Hby. pose proof (le_value_range tl Hb) as Hv. rewrite Hl in Hv.
  rewrite u64_small.
  - rewrite lor_disjoint_add by lia. rewrite siphash_le_value_app, Hl. cbn [le_value]. lia.
  - rewrite Z.shiftl_mul_pow2 by lia. assert (2 ^ (8 * Z.of_nat r) <= 2 ^ 56) by (apply Z.pow_le_mono_r; lia). nia.
Qed.

Lemma transform_n_snoc_words {S} (f : S -> list Z -> S) v msg q : (8 * q <= length msg)%nat -> forall data,
  transform_n 8 f q v (msg ++ data) = transform_n 8 f q v msg.
Proof. intros H data. apply (transform_n_app 8 f ltac:(lia) ltac:(by exists (2 ^ 61))). lia. Qed.

(** The last word. *)
Lemma transform_n_last {S} (f : S -> list Z -> S) v msg q : length msg = ((q + 1) * 8)%nat ->
  transform_n 8 f (q + 1) v msg = f (transform_n 8 f q v msg) (drop (8 * q) msg).
Proof.
  intros Hl. rewrite (transform_n_add 8 f ltac:(lia) ltac:(by exists (2 ^ 61))). cbn [transform_n].
  by rewrite firstn_all2 by (rewrite length_drop; lia).
Qed.

Lemma write_byte_absorbed v x msg b : absorbed v x msg -> is_byte b -> Z.of_nat (length msg) + 1 < 2 ^ 31 ->
  absorbed v (write_byte x b) (msg ++ [b]).
Proof.
  intros [Hv Ht Hc Hb] Hby Hlen. destruct (div8 (length msg)) as (q & r & E & Hr & Eq & Er). rewrite Eq in Hv, Ht.
  unfold write_byte. rewrite Hc, Ht, i32_small by lia. rewrite (byte_rem _ q r) by done.
  assert (length (drop (8 * q) msg) = r) as Hl by (rewrite length_drop; lia).
  rewrite tail_lor by (done || by apply Forall_drop). rewrite <- drop_app_le by lia.
  change 7 with (Z.ones 3). rewrite Z.land_ones by lia.
  replace (Z.of_nat (length msg) + 1) with (Z.of_nat (length (msg ++ [b]))) by (rewrite length_app; cbn; lia).
  assert (length (msg ++ [b]) = 8 * q + r + 1)%nat as El by (rewrite length_app; cbn; lia).
  assert (Forall is_byte (msg ++ [b])) as Hfb by (apply Forall_app; split; [done|by constructor]).
  rewrite <- (Nat2Z.inj_mod _ 8). destruct (decide (r = 7)%nat) as [->|Hn].
  - assert (length (msg ++ [b]) = (q + 1) * 8)%nat as E8 by lia. rewrite E8, Nat.Div0.mod_mul. change (Z.of_nat 0 =? 0) with true. cbv iota.
    split; cbn [sip_v sip_tmp sip_count]; [|rewrite drop_ge by (rewrite E8, Nat.div_mul; lia); done|by rewrite E8|done].
    rewrite E8, Nat.div_mul, transform_n_last, transform_n_snoc_words by lia. by rewrite Hv.
  - assert (length (msg ++ [b]) / 8 = q)%nat as Ed by (rewrite El, <- Nat.add_assoc, Nat.mul_comm, Nat.div_add_l, (Nat.div_small (r + 1)) by lia; lia).
    assert (length (msg ++ [b]) mod 8 = r + 1)%nat as Em by (rewrite El, <- Nat.add_assoc, Nat.add_comm, Nat.mul_comm, Nat.Div0.mod_add; apply Nat.mod_small; lia).
    rewrite Em, (proj2 (Z.eqb_neq _ _)) by lia. split; cbn [sip_v sip_tmp sip_count]; rewrite ?Ed; try done.
    by rewrite transform_n_snoc_words by lia.
Qed.

Lemma WriteBytes_absorbed v x msg data : absorbed v x msg -> Forall is_byte data -> Z.of_nat (length (msg ++ data)) < 2 ^ 31 ->
  absorbed v (WriteBytes x data) (msg ++ data).
Proof.
  intros Hx Hd. revert x msg Hx. induction Hd as [|b data Hb Hd IH]; intros x msg Hx Hl; cbn [WriteBytes foldl]; [by rewrite app_nil_r|].
  replace (msg ++ b :: data) with ((msg ++ [b]) ++ data) in Hl |- * by (by rewrite <- app_assoc). apply IH; [|done].
  apply write_byte_absorbed; [done..|]. rewrite !length_app in Hl. cbn in Hl. lia.
Qed.

Lemma Write64_absorbed v x msg d : absorbed v x msg -> is_u64 d -> Z.of_nat (length msg) + 8 < 2 ^ 31 ->
  if decide (length msg mod 8 = 0)%nat then exists x', Write64 x d = Ok x' /\ absorbed v x' (msg ++ le_bytes 8 d)
  else Write64 x d = Err AssertFail.
Proof.
  intros [Hv Ht Hc Hb] Hd Hlen. destruct (div8 (length msg)) as (q & r & E & Hr & Eq & Er). rewrite Eq in Hv, Ht. rewrite Er.
  unfold Write64. rewrite Hc, (byte_rem _ q r) by done. destruct (decide (r = 0)%nat) as [->|Hn].
  - cbn [Z.of_nat Z.eqb cassert mbind result_bind]. eexists; split; [reflexivity|].
    assert (length (msg ++ le_bytes 8 d) = (q + 1) * 8)%nat as El by (rewrite length_app, le_bytes_length; lia).
    split; cbn [sip_v sip_tmp sip_count].
    + rewrite El, Nat.div_mul, transform_n_last, transform_n_snoc_words, drop_app_length' by lia. unfold c_round. rewrite le_value_bytes by exact Hd. by rewrite Hv.
    + rewrite Ht, !drop_ge by (rewrite ?El, ?Nat.div_mul by lia; lia). done.
    + rewrite i32_small, El by lia. lia.
    + apply Forall_app. split; [done|apply le_bytes_byte].
  - rewrite (proj2 (Z.eqb_neq _ _)) by lia. done.
Qed.

Lemma new_absorbed k0 k1 : absorbed (sip_v (CSipHasher_new k0 k1)) (CSipHasher_new k0 k1) [].
Proof. split; [done..|constructor]. Qed.

(** The last word carries the length. *)
Lemma Finalize_absorbed k0 k1 x msg : absorbed (sip_v (CSipHasher_new k0 k1)) x msg -> Z.of_nat (length msg) < 2 ^ 31 -> Finalize x = siphash k0 k1 msg.
Proof.
  intros [Hv Ht Hc Hb] Hlen. destruct (div8 (length msg)) as (q & r & E & Hr & Eq & Er). rewrite Eq in Hv, Ht.
  unfold siphash. set (p := sip_padded msg). assert (p = take (8 * q) msg ++ drop (8 * q) msg ++ replicate (7 - r) 0 ++ [Z.of_nat (length msg) mod 256]) as Ep.
  { unfold p, sip_padded. by rewrite Er, (app_assoc (take _ _)), take_drop. }
  set (w := drop (8 * q) msg ++ _) in Ep. assert (length (take (8 * q) msg) = 8 * q)%nat as Ht8 by (rewrite length_take; lia).
  assert (length w = 8%nat) as Hw by (unfold w; rewrite !length_app, length_drop, length_replicate; cbn [length]; lia).
  assert (length p / 8 = q + 1)%nat as -> by (rewrite Ep, length_app, Ht8, Hw; replace (8 * q + 8)%nat with ((q + 1) * 8)%nat by lia; by apply Nat.div_mul).
  rewrite Ep, transform_n_last, transform_n_snoc_words, drop_app_length' by (rewrite ?length_app; lia).
  assert (transform_n 8 c_round q (sip_v (CSipHasher_new k0 k1)) (take (8 * q) msg) = sip_v x) as ->.
  { rewrite Hv. rewrite <- (take_drop (8 * q) msg) at 2. by rewrite transform_n_snoc_words by lia. }
  assert (Z.lor (sip_tmp x) (u64 (Z.shiftl (u64 (sip_count x)) 56)) = le_value w) as Ew.
  { rewrite Ht, Hc. unfold w. rewrite !siphash_le_value_app, le_value_zeros, length_drop, length_replicate. cbn [le_value].
    rewrite (u64_small (Z.of_nat _)) by lia.
    assert (u64 (Z.shiftl (Z.of_nat (length msg)) 56) = Z.shiftl (Z.of_nat (length msg) mod 256) 56) as ->.
    { unfold u64. rewrite !Z.shiftl_mul_pow2 by lia. change (2 ^ 64) with (256 * 2 ^ 56). by rewrite Z.mul_mod_distr_r by lia. }
    pose proof (le_value_range (drop (8 * q) msg) ltac:(by apply Forall_drop)) as Hr2. rewrite length_drop in Hr2.
    assert (2 ^ (8 * Z.of_nat (length msg - 8 * q)) <= 2 ^ 56) by (apply Z.pow_le_mono_r; lia).
    rewrite lor_disjoint_add by (try lia; apply Z.mod_pos_bound; lia).
    rewrite Z.add_0_l, Z.mul_0_r, Z.add_0_r, Z.mul_assoc, <- Z.pow_add_r by lia.
    replace (8 * Z.of_nat (length msg - 8 * q) + 8 * Z.of_nat (7 - r)) with 56 by lia. lia. }
  unfold Finalize, d_rounds, c_round. cbv zeta. rewrite Ew. reflexivity.
Qed.

Lemma GetUint64_le val pos : Forall is_byte val -> (8 * (pos + 1) <= length val)%nat ->
  GetUint64 val pos = le_value (take 8 (drop (8 * pos) val)).
Proof.
  intros Hb Hl. unfold GetUint64. cbv zeta. set (l := take 8 (drop (8 * pos) val)).
  assert (forall i, (i < 8)%nat -> val !!! (pos * 8 + i)%nat = l !!! i) as E.
  { intros i Hi. rewrite !list_lookup_total_alt. unfold l. rewrite lookup_take_lt, lookup_drop by done. do 2 f_equal. lia. }
  rewrite !E by lia. assert (Forall is_byte l) as Hbl by (by apply Forall_take, Forall_drop).
  assert (length l = 8%nat) as Hll by (unfold l; rewrite length_take, length_drop; lia). clearbody l.
  do 8 (destruct l as [|? l]; [done|]). destruct l; [|done]. repeat (apply Forall_cons in Hbl as [? Hbl]). unfold is_byte in *.
  cbn. rewrite (lor_disjoint_add _ _ 8) by lia. rewrite (lor_disjoint_add _ _ 16) by lia. rewrite (lor_disjoint_add _ _ 24) by lia. rewrite (lor_disjoint_add _ _ 32) by lia. rewrite (lor_disjoint_add _ _ 40) by lia. rewrite (lor_disjoint_add _ _ 48) by lia. rewrite (lor_disjoint_add _ _ 56) by lia. lia.
Qed.

(** A block of the specialised routines is the compression of a word of the value. *)
Lemma value_words val : length val = 32%nat -> Forall is_byte val -> forall v data,
  transform_n 8 c_round 4 v (val ++ data) = xor0 (GetUint64 val 3) (SIPROUND (SIPROUND (xor3 (GetUint64 val 3)
    (xor0 (GetUint64 val 2) (SIPROUND (SIPROUND (xor3 (GetUint64 val 2)
    (xor0 (GetUint64 val 1) (SIPROUND (SIPROUND (xor3 (GetUint64 val 1)
    (xor0 (GetUint64 val 0) (SIPROUND (SIPROUND (xor3 (GetUint64 val 0) v))))))))))))))).
Proof.
  intros Hl Hb v data. rewrite transform_n_snoc_words by lia. rewrite !GetUint64_le by (done || lia). cbn [transform_n].
  rewrite !drop_drop, drop_0. reflexivity.
Qed.

(** ** Properties *)

(** SipHash of any sequence of writes.  A sequence of words and bytes in
    which every word comes at a multiple of eight bytes goes through, and
    [Finalize] returns the SipHash-2-4 of all the bytes in order, a word standing
    for its eight little-endian bytes.  A word that is not aligned fails the
    assertion of [Write]. *)
Theorem siphash_writes (k0 k1 : Z) (ws : list write) : Forall write_ok ws -> Z.of_nat (length (ws ≫= written)) < 2 ^ 31 ->
  (aligned 0 ws -> exists x, do_writes (CSipHasher_new k0 k1) ws = Ok x /\ Finalize x = siphash k0 k1 (ws ≫= written)) /\
  (~ aligned 0 ws -> do_writes (CSipHasher_new k0 k1) ws = Err AssertFail).
Proof.
  intros Hok. pose proof (new_absorbed k0 k1) as Hx. change (ws ≫= written) with ([] ++ (ws ≫= written)). change 0%nat with (length (@nil Z)).
  revert Hx. generalize (CSipHasher_new k0 k1) at 2 3 4 as x. generalize (@nil Z) as msg.
  induction Hok as [|w ws Hw Hok IH]; intros msg x Hx Hl.
  { split; [|cbn; tauto]. intros _. exists x. split; [done|]. rewrite app_nil_r in Hl |- *. by apply Finalize_absorbed. }
  rewrite bind_cons, app_assoc in Hl |- *. pose proof Hl as Hl'. rewrite length_app in Hl'. destruct w as [d|data]; cbn [written write_ok] in *; cbn [do_writes do_write aligned].
  - pose proof (Write64_absorbed _ x msg d Hx Hw) as H. rewrite !length_app, le_bytes_length in Hl'. specialize (H ltac:(lia)).
    destruct (decide (length msg mod 8 = 0)%nat) as [H0|H0].
    + destruct H as (x' & -> & Hx'). cbn [mbind result_bind]. destruct (IH _ _ Hx' Hl) as [IH1 IH2]. rewrite length_app, le_bytes_length in IH1, IH2. tauto.
    + rewrite H. cbn [mbind result_bind]. tauto.
  - cbn [mbind result_bind]. pose proof (WriteBytes_absorbed _ x msg data Hx Hw ltac:(lia)) as Hx'.
    destruct (IH _ _ Hx' Hl) as [IH1 IH2]. rewrite length_app in IH1, IH2. tauto.
Qed.

(** The test vector of the paper: the key 00..0f and the message 00..0e. *)
Lemma siphash_writes_witness : exists x,
  do_writes (CSipHasher_new 0x0706050403020100 0x0f0e0d0c0b0a0908) [Word 0x0706050403020100; Bytes [8; 9]; Bytes [10; 11; 12; 13; 14]] = Ok x /\
  Finalize x = 0xa129ca6149be45e5.
Proof.
  destruct (siphash_writes 0x0706050403020100 0x0f0e0d0c0b0a0908 [Word 0x0706050403020100; Bytes [8; 9]; Bytes [10; 11; 12; 13; 14]]) as [H _].
  - repeat constructor; done.
  - done.
  - destruct H as (x & E & F); [done|]. exists x. split; [exact E|]. rewrite F. vm_compute. reflexivity.
Defined.

(** The specialised routines agree with SipHash.  [SipHashUint256] is the
    SipHash-2-4 of the 32 bytes of the value, and [SipHashUint256Extra] that of the
    bytes of the value followed by the four little-endian bytes of the extra. *)
Theorem siphash_uint256 (k0 k1 : Z) (val : uint256) (extra : Z) : length val = 32%nat -> Forall is_byte val -> is_u32 extra ->
  SipHashUint256 k0 k1 val = siphash k0 k1 val /\ SipHashUint256Extra k0 k1 val extra = siphash k0 k1 (val ++ le_bytes 4 extra).
Proof.
  intros Hl Hb He. split; unfold siphash; cbv zeta.
  - assert (sip_padded val = val ++ [0; 0; 0; 0; 0; 0; 0; 32]) as -> by (unfold sip_padded; by rewrite Hl).
    rewrite length_app, Hl. change ((32 + length _) / 8)%nat with (4 + 1)%nat.
    rewrite transform_n_last, value_words, drop_app_length' by (done || by rewrite ?length_app, ?Hl).
    unfold SipHashUint256, d_rounds, c_round. cbv zeta. change (le_value [0; 0; 0; 0; 0; 0; 0; 32]) with (Z.shiftl 4 59). reflexivity.
  - assert (sip_padded (val ++ le_bytes 4 extra) = val ++ le_bytes 4 extra ++ [0; 0; 0; 36]) as ->.
    { unfold sip_padded. by rewrite length_app, le_bytes_length, Hl, <- app_assoc. }
    rewrite length_app, Hl, length_app, le_bytes_length. change ((32 + (4 + length _)) / 8)%nat with (4 + 1)%nat.
    rewrite transform_n_last, value_words, drop_app_length' by (done || by rewrite ?length_app, ?le_bytes_length, ?Hl).
    assert (le_value (le_bytes 4 extra ++ [0; 0; 0; 36]) = Z.lor (Z.shiftl 36 56) extra) as E.
    { rewrite siphash_le_value_app, le_bytes_length, le_value_bytes by exact He. unfold is_u32 in He.
      change (Z.shiftl 36 56) with (Z.shiftl (36 * 2 ^ 24) 32). rewrite Z.lor_comm, lor_disjoint_add by lia. cbn [le_value]. lia. }
    unfold SipHashUint256Extra, d_rounds, c_round. cbv zeta. rewrite E. reflexivity.
Qed.

(** The transaction id 0102..20 with the output number 7. *)
Lemma siphash_uint256_witness :
  SipHashUint256Extra 1 2 (Z.of_nat <$> seq 1 32) 7 = siphash 1 2 ((Z.of_nat <$> seq 1 32) ++ [7; 0; 0; 0]).
Proof.
  destruct (siphash_uint256 1 2 (Z.of_nat <$> seq 1 32) 7) as [_ E]; [done| |done|exact E].
  repeat constructor; done.
Defined.
