(* ===== verification/GhostRider.v ===== *)
(** * GhostRider
    (HashSelection of src/src/hash_selection.{h,cpp}, HashGR of src/src/hash.h)

    The hash of the previous block orders fifteen hash functions and six CryptoNight
    variants; a header is hashed through five functions and a CryptoNight variant,
    three times.  The functions themselves are parameters. *)

From Stdlib Require Import ZArith Lia.
From stdpp Require Import base tactics numbers option list.
From S2P Require Import Prelude ArithUint256 Compact Block.

Open Scope Z_scope.

(** ** The order of the algorithms *)

Record picks := mkPicks { indexes : list Z; groupIndexes : list Z; indexCount : Z }.

(** The loop [for(; i >= 0; i--)] from [i = n - 1]; returns the last [i]. *)
Fixpoint pick (n : nat) (PrevBlockHash : uint256) (totalIndexes : Z) (p : picks) : result (Z * picks) :=
  match n with
  | O => Ok (-1, p)
  | S n =>
      let i := Z.of_nat n in
      let hashSelection := GetNibble PrevBlockHash i in
      let hashSelection := if totalIndexes <=? hashSelection then Z.rem hashSelection totalIndexes else hashSelection in
      let sel := Z.to_nat hashSelection in
      index ← deref (indexes p !! sel);
      let p := if 0 <=? index then mkPicks (<[sel := -1]> (indexes p)) (groupIndexes p ++ [index]) (u32 (indexCount p + 1)) else p in
      if indexCount p =? Z.of_nat (length (indexes p)) then Ok (i, p) else pick n PrevBlockHash totalIndexes p
  end.

(** [HashSelection::getRandomIndexes] *)
Definition getRandomIndexes (PrevBlockHash : uint256) (ixs : list Z) : result (list Z) :=
  let totalIndexes := Z.of_nat (length ixs) in
  '(i, p) ← pick 64 PrevBlockHash totalIndexes (mkPicks ixs [] 0);
  Ok (if (i <? 0) && (indexCount p <? totalIndexes)
      then groupIndexes p ++ filter (fun index => 0 <= index) (indexes p) else groupIndexes p).

(** ** The hash *)

Definition algo_indexes : list Z := [0; 1; 2; 3; 4; 5; 6; 7; 8; 9; 10; 11; 12; 13; 14].
Definition cn_indexes : list Z := [0; 1; 2; 3; 4; 5].

(** The element of [coreHashIndexes] that round [i] reads. *)
Definition core_position (i : nat) : nat :=
  if (i <? 5)%nat then i else if (i <? 11)%nat then i - 1 else i - 2.

Section HashGR.
(** The sixteen hash functions (64 bytes each), the CryptoNight variants (32 bytes
    each), and the int that lies behind the last element of [coreHashIndexes]. *)
Context (core : Z -> list Z -> list Z) (cn : Z -> list Z -> list Z) (behind : Z).

(** [coreHash] and [cnHash] write nothing for a selection they do not know; a
    CryptoNight hash fills the first half of the destination. *)
Definition coreHash (toHash hash : list Z) (hashSelection : Z) : list Z :=
  if (0 <=? hashSelection) && (hashSelection <=? 15) then core hashSelection toHash else hash.
Definition cnHash (toHash hash : list Z) (hashSelection : Z) : list Z :=
  if (0 <=? hashSelection) && (hashSelection <=? 5) then cn hashSelection toHash ++ drop 32 hash else hash.

(** One iteration of the loop of [HashGR]; a [uint512] starts as zeros. *)
Definition gr_round (data : list Z) (coreHashIndexes randomCNs : list Z) (i : nat) (hash : list (list Z)) : result (list (list Z)) :=
  let toHash := if (i =? 0)%nat then data else hash !!! (i - 1)%nat in
  let coreSelection := default behind (coreHashIndexes !! core_position i) in
  '(coreSelection, cnSelection) ←
    (if (i =? 5)%nat then c ← deref (randomCNs !! 0%nat); Ok (-1, c)
     else if (i =? 11)%nat then c ← deref (randomCNs !! 1%nat); Ok (-1, c)
     else if (i =? 17)%nat then c ← deref (randomCNs !! 2%nat); Ok (-1, c)
     else Ok (coreSelection, -1));
  let hash := <[i := coreHash toHash (hash !!! i) coreSelection]> hash in
  let hash := <[i := cnHash (if (i =? 0)%nat then [] else hash !!! (i - 1)%nat) (hash !!! i) cnSelection]> hash in
  Ok hash.

Fixpoint gr_rounds (todo : list nat) (data : list Z) (coreHashIndexes randomCNs : list Z) (hash : list (list Z)) : result (list (list Z)) :=
  match todo with
  | [] => Ok hash
  | i :: todo => hash ← gr_round data coreHashIndexes randomCNs i hash; gr_rounds todo data coreHashIndexes randomCNs hash
  end.

Definition HashGR (data : list Z) (PrevBlockHash : uint256) : result uint256 :=
  randomCNs ← getRandomIndexes PrevBlockHash cn_indexes;
  coreHashIndexes ← getRandomIndexes PrevBlockHash algo_indexes;
  hash ← gr_rounds (seq 0 18) data coreHashIndexes randomCNs (replicate 18 (replicate 64 0));
  Ok (take 32 (hash !!! 17%nat)).

(** ** The chain of hashes *)

Definition core_chain (a : list Z) (x : list Z) : list Z := foldl (fun x k => core k x) x a.
Definition cn_wide (c : Z) (x : list Z) : list Z := cn c x ++ replicate 32 0.

Definition gr_chain (a : list Z) (c0 c1 c2 : Z) (x : list Z) : list Z :=
  cn c2 (core_chain (take 5 (drop 10 a)) (cn_wide c1 (core_chain (take 5 (drop 5 a)) (cn_wide c0 (core_chain (take 5 a) x))))).
End HashGR.

(** ** Lemmas *)

Lemma GetNibble_range h i : Forall is_byte h -> 0 <= GetNibble h i < 16.
Proof.
  intros Hb. unfold GetNibble. set (b := h !!! _). assert (is_byte b) as Hby.
  { unfold b. rewrite list_lookup_total_alt. destruct (h !! _) eqn:E; cbn; [|unfold is_byte; lia]. by eapply Forall_lookup_1 in Hb. }
  unfold is_byte in Hby. case_match.
  - rewrite Z.shiftr_div_pow2 by lia. split; [apply Z.div_pos; lia|]. apply Z.div_lt_upper_bound; lia.
  - change 15 with (Z.ones 4). rewrite Z.land_ones by lia. apply Z.mod_pos_bound. lia.
Qed.

Abbreviation nonneg := (fun z : Z => 0 <= z).

Lemma filter_all l : Forall nonneg l -> filter nonneg l = l.
Proof. induction 1 as [|x l Hx Hl IH]; [done|]. by rewrite filter_cons_True, IH. Qed.

(** Striking out an index moves it from the open ones to the group. *)
Lemma strike_out (l : list Z) k x : l !! k = Some x -> 0 <= x -> filter nonneg l ≡ₚ x :: filter nonneg (<[k := -1]> l).
Proof.
  revert k. induction l as [|y l IH]; intros [|k] Hk Hx; [done..| |].
  - injection Hk as ->. change (<[0%nat := -1]> (x :: l)) with (-1 :: l).
    by rewrite (filter_cons_True nonneg x), (filter_cons_False nonneg (-1)) by lia.
  - change (<[S k := -1]> (y :: l)) with (y :: <[k := -1]> l). rewrite !filter_cons. destruct (decide (0 <= y)).
    + rewrite (IH k) by done. apply Permutation_swap.
    + by apply IH.
Qed.

(** The group and the open indexes are always the input. *)
Record picks_ok (ixs : list Z) (p : picks) : Prop := {
  pk_perm : groupIndexes p ++ filter nonneg (indexes p) ≡ₚ ixs;
  pk_length : length (indexes p) = length ixs;
  pk_count : indexCount p = Z.of_nat (length (groupIndexes p))
}.

Lemma pick_ok h ixs n p : Forall is_byte h -> (0 < length ixs)%nat -> Z.of_nat (length ixs) < 2 ^ 32 -> picks_ok ixs p ->
  exists i q, pick n h (Z.of_nat (length ixs)) p = Ok (i, q) /\ picks_ok ixs q /\ (0 <= i -> indexCount q = Z.of_nat (length ixs)).
Proof.
  intros Hb H0 Hl. revert p. induction n as [|n IH]; intros p Hp; cbn [pick]; [exists (-1), p; split_and!; [done..|lia]|].
  pose proof (GetNibble_range h (Z.of_nat n) Hb) as Hn. set (g := GetNibble h (Z.of_nat n)) in *. cbv zeta.
  set (sel := if _ <=? g then _ else g). assert (0 <= sel < Z.of_nat (length ixs)) as Hs.
  { unfold sel. destruct (Z.leb_spec (Z.of_nat (length ixs)) g); [|lia]. rewrite Z.rem_mod_nonneg by lia. apply Z.mod_pos_bound. lia. }
  destruct Hp as [Hperm Hlen Hc]. destruct (lookup_lt_is_Some_2 (indexes p) (Z.to_nat sel) ltac:(lia)) as [x Hx].
  rewrite Hx. cbn [deref mbind result_bind]. set (p' := if 0 <=? x then _ else p). assert (picks_ok ixs p') as Hp'.
  { unfold p'. destruct (Z.leb_spec 0 x); [|by split]. split; cbn [groupIndexes indexes indexCount].
    - rewrite <- app_assoc. cbn [app]. by rewrite <- strike_out.
    - by rewrite length_insert.
    - apply Permutation_length in Hperm. rewrite (strike_out _ _ _ Hx), length_app in Hperm by lia. cbn in Hperm.
      rewrite length_app, Hc, u32_small by lia. cbn. lia. }
  clearbody p'. destruct (Z.eqb_spec (indexCount p') (Z.of_nat (length (indexes p')))) as [E|E]; [|by apply IH].
  exists (Z.of_nat n), p'. split_and!; [done..|]. intros _. by rewrite E, (pk_length _ _ Hp').
Qed.

Lemma getRandomIndexes_perm h ixs : Forall is_byte h -> (0 < length ixs)%nat -> Z.of_nat (length ixs) < 2 ^ 32 -> Forall nonneg ixs ->
  exists r, getRandomIndexes h ixs = Ok r /\ r ≡ₚ ixs.
Proof.
  intros Hb H0 Hl Hn. unfold getRandomIndexes. cbv zeta.
  destruct (pick_ok h ixs 64 (mkPicks ixs [] 0) Hb H0 Hl) as (i & q & -> & [Hperm Hlen Hc] & Hi).
  { split; cbn [groupIndexes indexes indexCount]; [|done..]. by rewrite (filter_all ixs). }
  cbn [mbind result_bind]. eexists; split; [reflexivity|].
  destruct (Z.ltb_spec i 0); destruct (Z.ltb_spec (indexCount q) (Z.of_nat (length ixs))); cbn [andb]; [done|..|specialize (Hi ltac:(lia)); lia|];
    (assert (filter nonneg (indexes q) = []) as E; [|by rewrite E, app_nil_r in Hperm]);
    apply Permutation_length in Hperm; rewrite length_app in Hperm; apply nil_length_inv; lia.
Qed.

(** Before round [i]: the value to hash, and zeros from there on. *)
Record gr_state (data : list Z) (i : nat) (x : list Z) (hash : list (list Z)) : Prop := {
  gs_length : length hash = 18%nat;
  gs_zeros : forall j, (i <= j < 18)%nat -> hash !!! j = replicate 64 0;
  gs_input : (if (i =? 0)%nat then data else hash !!! (i - 1)%nat) = x
}.

Section Rounds.
Context (core : Z -> list Z -> list Z) (cn : Z -> list Z -> list Z) (behind : Z) (data : list Z) (a c : list Z).
Abbreviation round := (gr_round core cn behind data a c).
Abbreviation rounds := (fun todo hash => gr_rounds core cn behind todo data a c hash).

Lemma state_next i x y hash : gr_state data i x hash -> (i < 18)%nat -> gr_state data (S i) y (<[i := y]> hash).
Proof using Type.
  intros [Hl Hz Hx] Hi. split; [by rewrite length_insert| |].
  - intros j Hj. rewrite list_lookup_total_insert_ne by lia. apply Hz. lia.
  - cbn [Nat.eqb]. replace (S i - 1)%nat with i by lia. apply list_lookup_total_insert_eq. lia.
Qed.

Lemma core_round i x k hash : gr_state data i x hash -> (i < 17)%nat -> i <> 5%nat -> i <> 11%nat ->
  a !! core_position i = Some k -> 0 <= k <= 15 -> exists hash', round i hash = Ok hash' /\ gr_state data (S i) (core k x) hash'.
Proof using Type.
  intros Hs Hi H5 H11 Hk Hr. unfold gr_round. rewrite (gs_input _ _ _ _ Hs), Hk.
  rewrite (proj2 (Nat.eqb_neq i 5)), (proj2 (Nat.eqb_neq i 11)), (proj2 (Nat.eqb_neq i 17)) by lia. cbn [default from_option id mbind result_bind].
  exists (<[i := core k x]> hash). split; [|apply state_next with (x := x); [done|lia]]. cbv zeta.
  unfold coreHash. rewrite (proj2 (Z.leb_le 0 k)), (proj2 (Z.leb_le k 15)) by lia. cbn [andb]. unfold cnHash. cbn [andb Z.leb Z.compare].
  rewrite list_lookup_total_insert_eq by (rewrite (gs_length _ _ _ _ Hs); lia). by rewrite list_insert_insert_eq.
Qed.

Lemma cn_round i x n k hash : gr_state data i x hash -> (i, n) ∈ [(5, 0); (11, 1); (17, 2)]%nat ->
  c !! n = Some k -> 0 <= k <= 5 -> exists hash', round i hash = Ok hash' /\ gr_state data (S i) (cn_wide cn k x) hash'.
Proof using Type.
  intros Hs Hin Hk Hr. pose proof (gs_input _ _ _ _ Hs) as Hx. pose proof (gs_zeros _ _ _ _ Hs i) as Hz. pose proof (gs_length _ _ _ _ Hs) as Hl.
  assert (0 < i < 18)%nat as Hi by (repeat (apply elem_of_cons in Hin as [[= -> ->]|Hin]; [lia|]); by apply elem_of_nil in Hin).
  rewrite (proj2 (Nat.eqb_neq i 0)) in Hx by lia. unfold gr_round. rewrite (proj2 (Nat.eqb_neq i 0)) by lia.
  exists (<[i := cn_wide cn k x]> hash). split; [|apply state_next with (x := x); [done|lia]].
  assert ((if (i =? 5)%nat then c0 ← deref (c !! 0%nat); Ok (-1, c0) else if (i =? 11)%nat then c0 ← deref (c !! 1%nat); Ok (-1, c0)
    else if (i =? 17)%nat then c0 ← deref (c !! 2%nat); Ok (-1, c0) else Ok (default behind (a !! core_position i), -1)) = Ok (-1, k)) as ->.
  { repeat (apply elem_of_cons in Hin as [[= -> ->]|Hin]; [by rewrite Hk|]). by apply elem_of_nil in Hin. }
  cbn [mbind result_bind]. unfold coreHash at 1. cbn [andb Z.leb Z.compare].
  rewrite list_lookup_total_insert_ne, Hx, list_lookup_total_insert_eq, list_insert_insert_eq, Hz by lia.
  unfold cnHash. by rewrite (proj2 (Z.leb_le 0 k)), (proj2 (Z.leb_le k 5)) by lia.
Qed.

(** A run of hash functions. *)
Lemma core_rounds n i p x hash todo : gr_state data i x hash ->
  (forall j, (j < n)%nat -> core_position (i + j) = (p + j)%nat /\ (i + j < 17)%nat /\ (i + j)%nat <> 5%nat /\ (i + j)%nat <> 11%nat) ->
  (p + n <= length a)%nat -> Forall (fun k => 0 <= k <= 15) a ->
  exists hash', rounds (seq i n ++ todo) hash = rounds todo hash' /\ gr_state data (i + n) (core_chain core (take n (drop p a)) x) hash'.
Proof using Type.
  revert i p x hash. induction n as [|n IH]; intros i p x hash Hs Hj Hp Hr; [exists hash; by rewrite Nat.add_0_r|].
  destruct (lookup_lt_is_Some_2 a p ltac:(lia)) as [k Hk]. destruct (Hj 0%nat ltac:(lia)) as (E & H17 & H5 & H11). rewrite Nat.add_0_r in E, H17, H5, H11.
  destruct (core_round i x k hash) as (hash1 & E1 & Hs1); [done..|by rewrite E, Nat.add_0_r|by apply (Forall_lookup_1 _ _ _ _ Hr Hk)|].
  destruct (IH (S i) (S p) (core k x) hash1) as (hash2 & E2 & Hs2); [done| |lia|done|].
  { intros j Hjn. destruct (Hj (S j) ltac:(lia)) as (? & ? & ? & ?). rewrite !Nat.add_succ_r in *. cbn. done. }
  exists hash2. cbn [seq app gr_rounds]. rewrite E1. cbn [mbind result_bind]. split; [exact E2|].
  rewrite (drop_S _ _ _ Hk), Nat.add_succ_r. exact Hs2.
Qed.

Lemma cn_rounds i x n k hash todo : gr_state data i x hash -> (i, n) ∈ [(5, 0); (11, 1); (17, 2)]%nat -> c !! n = Some k -> 0 <= k <= 5 ->
  exists hash', rounds (i :: todo) hash = rounds todo hash' /\ gr_state data (S i) (cn_wide cn k x) hash'.
Proof using Type.
  intros Hs Hin Hk Hr. destruct (cn_round i x n k hash Hs Hin Hk Hr) as (hash' & E & Hs'). exists hash'. cbn [gr_rounds]. by rewrite E.
Qed.
End Rounds.

(** The rounds are the chain of the hashes in the order picked. *)
Lemma gr_rounds_chain core cn behind data a c k0 k1 k2 : length a = 15%nat -> Forall (fun k => 0 <= k <= 15) a -> Forall (fun k => 0 <= k <= 5) c ->
  c !! 0%nat = Some k0 -> c !! 1%nat = Some k1 -> c !! 2%nat = Some k2 ->
  exists hash, gr_rounds core cn behind (seq 0 18) data a c (replicate 18 (replicate 64 0)) = Ok hash /\
    hash !!! 17%nat = gr_chain core cn a k0 k1 k2 data ++ replicate 32 0.
Proof.
  intros La Ha Hc H0 H1 H2.
  assert (gr_state data 0 data (replicate 18 (replicate 64 0))) as Hs0 by (split; [done| |done]; intros j Hj; apply lookup_total_replicate_2; lia).
  change (seq 0 18) with (seq 0 5 ++ 5%nat :: seq 6 5 ++ 11%nat :: seq 12 5 ++ 17%nat :: []).
  assert (forall i p, In (i, p) [(0, 0); (6, 5); (12, 10)]%nat -> forall j, (j < 5)%nat ->
    core_position (i + j) = (p + j)%nat /\ (i + j < 17)%nat /\ (i + j)%nat <> 5%nat /\ (i + j)%nat <> 11%nat) as Hseg.
  { intros i p Hin j Hj. destruct Hin as [[= <- <-]|[[= <- <-]|[[= <- <-]|[]]]]; do 5 (destruct j as [|j]; [cbn; lia|]); lia. }
  pose proof (Forall_lookup_1 _ _ _ _ Hc H0). pose proof (Forall_lookup_1 _ _ _ _ Hc H1). pose proof (Forall_lookup_1 _ _ _ _ Hc H2).
  destruct (core_rounds core cn behind data a c 5 0 0 data _ (5%nat :: seq 6 5 ++ 11%nat :: seq 12 5 ++ 17%nat :: []) Hs0) as (h1 & -> & Hs1);
    [apply (Hseg 0 0)%nat; cbn; tauto|lia|done|].
  destruct (cn_rounds core cn behind data a c 5 _ 0 k0 h1 (seq 6 5 ++ 11%nat :: seq 12 5 ++ 17%nat :: []) Hs1) as (h2 & -> & Hs2); [by repeat (apply list_elem_of_here || apply list_elem_of_further)|done..|].
  destruct (core_rounds core cn behind data a c 5 6 5 _ h2 (11%nat :: seq 12 5 ++ 17%nat :: []) Hs2) as (h3 & -> & Hs3);
    [apply (Hseg 6 5)%nat; cbn; tauto|lia|done|].
  destruct (cn_rounds core cn behind data a c 11 _ 1 k1 h3 (seq 12 5 ++ 17%nat :: []) Hs3) as (h4 & -> & Hs4); [by repeat (apply list_elem_of_here || apply list_elem_of_further)|done..|].
  destruct (core_rounds core cn behind data a c 5 12 10 _ h4 (17%nat :: []) Hs4) as (h5 & -> & Hs5);
    [apply (Hseg 12 10)%nat; cbn; tauto|lia|done|].
  destruct (cn_rounds core cn behind data a c 17 _ 2 k2 h5 [] Hs5) as (h6 & -> & Hs6); [by repeat (apply list_elem_of_here || apply list_elem_of_further)|done..|].
  exists h6. split; [done|]. apply (gs_input _ _ _ _ Hs6).
Qed.

Lemma HashGR_rounds core cn behind data h a c hash : getRandomIndexes h cn_indexes = Ok c -> getRandomIndexes h algo_indexes = Ok a ->
  gr_rounds core cn behind (seq 0 18) data a c (replicate 18 (replicate 64 0)) = Ok hash ->
  HashGR core cn behind data h = Ok (take 32 (hash !!! 17%nat)).
Proof.
  intros Ec Ea Eh. unfold HashGR, mbind, result_bind. by rewrite Ec, Ea, Eh.
Qed.

(** ** Properties *)

(** C37: GhostRider uses every hash function once.  For every previous block
    hash the fifteen hash functions are arranged in some order, each of them once,
    and three different CryptoNight variants are chosen; the hash of a header is
    the chain of the first five functions, the first variant, the next five, the
    second variant, the last five and the third variant, whatever lies behind the
    vector that the last round reads past. *)
Theorem ghostrider_chain (core cn : Z -> list Z -> list Z) (behind : Z) (data : list Z) (h : uint256) : Forall is_byte h ->
  (forall k x, length (cn k x) = 32%nat) ->
  exists a k0 k1 k2, a ≡ₚ algo_indexes /\ NoDup [k0; k1; k2] /\ Forall (fun k => k ∈ cn_indexes) [k0; k1; k2] /\
    HashGR core cn behind data h = Ok (gr_chain core cn a k0 k1 k2 data).
Proof.
  intros Hb Hcn.
  destruct (getRandomIndexes_perm h algo_indexes Hb) as (a & Ea & Pa); [cbn; lia|done|repeat constructor; lia|].
  destruct (getRandomIndexes_perm h cn_indexes Hb) as (c & Ec & Pc); [cbn; lia|done|repeat constructor; lia|].
  assert (NoDup c) as Hnd by (rewrite Pc; apply (bool_decide_unpack (NoDup cn_indexes)); vm_compute; exact I).
  assert (Forall (fun k => k ∈ cn_indexes) c) as Hin by (apply Forall_forall; intros k Hk; by rewrite <- Pc).
  assert (Forall (fun k => 0 <= k <= 5) c) as Rc by (rewrite Pc; repeat constructor; lia).
  assert (Forall (fun k => 0 <= k <= 15) a) as Ra by (rewrite Pa; repeat constructor; lia).
  pose proof (Permutation_length Pa) as La. apply Permutation_length in Pc as Lc. destruct c as [|k0 [|k1 [|k2 c]]]; try done.
  destruct (gr_rounds_chain core cn behind data a (k0 :: k1 :: k2 :: c) k0 k1 k2) as (hash & E & E17); [exact La|exact Ra|exact Rc|reflexivity..|].
  exists a, k0, k1, k2. change (k0 :: k1 :: k2 :: c) with ([k0; k1; k2] ++ c) in *. apply NoDup_app in Hnd as [Hnd _]. apply Forall_app in Hin as [Hin _].
  split_and!; [done..|]. rewrite (HashGR_rounds _ _ _ _ _ _ _ _ Ec Ea E), E17.
  by rewrite take_app_length' by (symmetry; apply Hcn).
Qed.

(** The last round reads the element after the last of the fifteen. *)
Theorem ghostrider_reads_past_end (h : uint256) : Forall is_byte h ->
  exists a, getRandomIndexes h algo_indexes = Ok a /\ a !! core_position 17 = None.
Proof.
  intros Hb. destruct (getRandomIndexes_perm h algo_indexes Hb) as (a & Ea & Pa); [cbn; lia|done|repeat constructor; lia|].
  exists a. split; [done|]. apply lookup_ge_None. apply Permutation_length in Pa. rewrite Pa. cbn. lia.
Qed.

Lemma ghostrider_chain_witness : exists a k0 k1 k2,
  HashGR (fun k x => replicate 64 k) (fun k x => replicate 32 k) 99 [1; 2] (replicate 32 0x21) =
  Ok (gr_chain (fun k x => replicate 64 k) (fun k x => replicate 32 k) a k0 k1 k2 [1; 2]) /\ a ≡ₚ algo_indexes.
Proof.
  destruct (ghostrider_chain (fun k x => replicate 64 k) (fun k x => replicate 32 k) 99 [1; 2] (replicate 32 0x21)) as (a & k0 & k1 & k2 & P & _ & _ & E).
  - repeat constructor; done.
  - intros k x. apply length_replicate.
  - exists a, k0, k1, k2. split; [exact E|exact P].
Defined.

Lemma ghostrider_reads_past_end_witness : exists a, getRandomIndexes (replicate 32 0x21) algo_indexes = Ok a /\ a !! 15%nat = None.
Proof. apply (ghostrider_reads_past_end (replicate 32 0x21)). repeat constructor; done. Defined.
