(* ===== verification/Base58.v ===== *)
(** * Base 58 and addresses
    (src/src/base58.cpp, src/src/base58.h)

    Bytes are converted between base 256 and base 58 in a buffer of a size computed
    beforehand; a multiplication that overflows it fails an assertion.  On top of it
    are the strings with a checksum, the versioned data and the addresses.  The
    buffers are kept from their last element, the least significant digit, and the
    strings have fewer than 2^31 characters, so that their sizes fit an int. *)

From Stdlib Require Import ZArith Lia Ascii String.
From stdpp Require Import base tactics numbers option list.
From S2P Require Import Prelude Sha256.

Open Scope Z_scope.

(** ** Conversion of the base *)

(** The loop [for (it = b.rbegin(); (carry != 0 || i < length) && it != b.rend(); ++it, ++i)]. *)
Fixpoint mul_add (base mul carry : Z) (i len : nat) (digits : list Z) : Z * nat * list Z :=
  match digits with
  | [] => (carry, i, [])
  | d :: ds =>
      if negb (carry =? 0) || (i <? len)%nat then
        let carry := carry + mul * d in
        let '(c, j, ds) := mul_add base mul (Z.quot carry base) (S i) len ds in (c, j, Z.rem carry base :: ds)
      else (carry, i, digits)
  end.

(** One character: the loop, the assertion, [length = i]. *)
Definition push_digit (base mul carry : Z) (b : nat * list Z) : result (nat * list Z) :=
  let '(c, i, digits) := mul_add base mul carry 0 (fst b) (snd b) in
  _ ← cassert (c =? 0); Ok (i, digits).

Fixpoint push_all (base mul : Z) (cs : list Z) (b : nat * list Z) : result (nat * list Z) :=
  match cs with
  | [] => Ok b
  | c :: cs => b ← push_digit base mul c b; push_all base mul cs b
  end.

Fixpoint drop_while (P : Z -> bool) (l : list Z) : list Z :=
  match l with
  | [] => []
  | x :: l' => if P x then drop_while P l' else l
  end.
Abbreviation is_zero := (fun x : Z => x =? 0).

(** The digits of the buffer, leading zeros skipped. *)
Definition significant (b : nat * list Z) : list Z := drop_while is_zero (rev (take (fst b) (snd b))).

(** ** Strings *)

Definition codes (s : string) : list Z := (fun c => Z.of_N (N_of_ascii c)) <$> list_ascii_of_string s.
Definition pszBase58 : list Z := codes "123456789ABCDEFGHJKLMNPQRSTUVWXYZabcdefghijkmnopqrstuvwxyz".
Definition char_1 : Z := 49.

Definition isspace (c : Z) : bool := (c =? 32) || ((9 <=? c) && (c <=? 13)).

(** The characters that a [const char*] points to: what follows the first NUL is not seen. *)
Fixpoint c_str (s : list Z) : list Z :=
  match s with
  | [] => []
  | c :: s => if c =? 0 then [] else c :: c_str s
  end.

(** [strchr] *)
Fixpoint strchr (s : list Z) (c : Z) : option nat :=
  match s with
  | [] => None
  | x :: s => if x =? c then Some 0%nat else S <$> strchr s c
  end.

Definition EncodeBase58 (v : list Z) : result (list Z) :=
  let rest := drop_while is_zero v in
  let zeroes := (length v - length rest)%nat in
  let size := (length rest * 138 / 100 + 1)%nat in
  b ← push_all 58 256 rest (0%nat, replicate size 0);
  Ok (replicate zeroes char_1 ++ ((fun d => pszBase58 !!! Z.to_nat d) <$> significant b)).

(** The loop over the characters: stops at a space, fails at an unknown one. *)
Fixpoint read_chars (psz : list Z) (b : nat * list Z) : result (option (list Z * (nat * list Z))) :=
  match psz with
  | [] => Ok (Some ([], b))
  | c :: psz' =>
      if isspace c then Ok (Some (psz, b))
      else match strchr pszBase58 c with
           | None => Ok None
           | Some d => b ← push_digit 256 58 (Z.of_nat d) b; read_chars psz' b
           end
  end.

(** [DecodeBase58(const char*, vch)]: [None] for [false].  The overloads for a [std::string]
    pass its [c_str()]. *)
Definition DecodeBase58 (psz : list Z) : result (option (list Z)) :=
  let psz := drop_while isspace (c_str psz) in
  let rest := drop_while (fun c => c =? char_1) psz in
  let zeroes := (length psz - length rest)%nat in
  let size := (length rest * 733 / 1000 + 1)%nat in
  r ← read_chars rest (0%nat, replicate size 0);
  match r with
  | None => Ok None
  | Some (psz, b) =>
      match drop_while isspace psz with
      | _ :: _ => Ok None
      | [] => Ok (Some (replicate zeroes 0 ++ significant b))
      end
  end.

(** ** Checksums *)

Section Check.
Context (Hash : list Z -> list Z).

Definition EncodeBase58Check (vchIn : list Z) : result (list Z) := EncodeBase58 (vchIn ++ take 4 (Hash vchIn)).

Definition DecodeBase58Check (psz : list Z) : result (option (list Z)) :=
  r ← DecodeBase58 psz;
  match r with
  | None => Ok None
  | Some vch =>
      if (length vch <? 4)%nat then Ok None else
      let n := (length vch - 4)%nat in
      if bool_decide (take 4 (Hash (take n vch)) = drop n vch) then Ok (Some (take n vch)) else Ok None
  end.

(** ** Versioned data *)

Record CBase58Data := mkBase58Data { vchVersion : list Z; vchData : list Z }.

Definition SetData (vchVersionIn data : list Z) : CBase58Data := mkBase58Data vchVersionIn data.

Definition SetString (psz : list Z) (nVersionBytes : nat) : result (bool * CBase58Data) :=
  r ← DecodeBase58Check psz;
  match r with
  | None => Ok (false, mkBase58Data [] [])
  | Some vchTemp =>
      if (length vchTemp <? nVersionBytes)%nat then Ok (false, mkBase58Data [] [])
      else Ok (true, mkBase58Data (take nVersionBytes vchTemp) (drop nVersionBytes vchTemp))
  end.

Definition ToString (d : CBase58Data) : result (list Z) := EncodeBase58Check (vchVersion d ++ vchData d).

(** [std::vector::operator<] on bytes. *)
Fixpoint vec_lt (a b : list Z) : bool :=
  match a, b with
  | _, [] => false
  | [], _ => true
  | x :: a, y :: b => (x <? y) || ((x =? y) && vec_lt a b)
  end.

Definition CompareTo (a b : CBase58Data) : Z :=
  if vec_lt (vchVersion a) (vchVersion b) then -1
  else if vec_lt (vchVersion b) (vchVersion a) then 1
  else if vec_lt (vchData a) (vchData b) then -1
  else if vec_lt (vchData b) (vchData a) then 1
  else 0.

(** ** Addresses *)

Inductive CTxDestination :=
  | CNoDestination
  | CKeyID (id : list Z)
  | CScriptID (id : list Z).

(** The prefixes of the chain parameters. *)
Record Prefixes := mkPrefixes { PUBKEY_ADDRESS : list Z; SCRIPT_ADDRESS : list Z; SECRET_KEY : list Z }.

Context (P : Prefixes).

(** [CBitcoinAddress::Set]: an address with no destination stays as it is. *)
Definition Set_ (a : CBase58Data) (dest : CTxDestination) : bool * CBase58Data :=
  match dest with
  | CKeyID id => (true, SetData (PUBKEY_ADDRESS P) id)
  | CScriptID id => (true, SetData (SCRIPT_ADDRESS P) id)
  | CNoDestination => (false, a)
  end.

Definition IsValid (a : CBase58Data) : bool :=
  let fCorrectSize := (length (vchData a) =? 20)%nat in
  let fKnownVersion := bool_decide (vchVersion a = PUBKEY_ADDRESS P) || bool_decide (vchVersion a = SCRIPT_ADDRESS P) in
  fCorrectSize && fKnownVersion.

Definition Get (a : CBase58Data) : CTxDestination :=
  if negb (IsValid a) then CNoDestination
  else if bool_decide (vchVersion a = PUBKEY_ADDRESS P) then CKeyID (take 20 (vchData a))
  else if bool_decide (vchVersion a = SCRIPT_ADDRESS P) then CScriptID (take 20 (vchData a))
  else CNoDestination.

Definition GetKeyID (a : CBase58Data) : option (list Z) :=
  if negb (IsValid a) || negb (bool_decide (vchVersion a = PUBKEY_ADDRESS P)) then None else Some (take 20 (vchData a)).

Definition IsScript (a : CBase58Data) : bool := IsValid a && bool_decide (vchVersion a = SCRIPT_ADDRESS P).

Definition GetIndexKey (a : CBase58Data) : option (list Z * Z) :=
  if negb (IsValid a) then None
  else if bool_decide (vchVersion a = PUBKEY_ADDRESS P) then Some (take 20 (vchData a), 1)
  else if bool_decide (vchVersion a = SCRIPT_ADDRESS P) then Some (take 20 (vchData a), 2)
  else None.

(** ** Secret keys *)

Record CKey := mkKey { keydata : list Z; fValid : bool; fCompressed : bool }.

(** [CKey::Set] on a new key; [Check] is [secp256k1_ec_seckey_verify]. *)
Definition CKey_Set (Check : list Z -> bool) (p : list Z) (fCompressedIn : bool) : CKey :=
  if negb (length p =? 32)%nat then mkKey (replicate 32 0) false false
  else if Check p then mkKey p true fCompressedIn else mkKey (replicate 32 0) false false.

Definition SetKey (k : CKey) : result CBase58Data :=
  _ ← cassert (fValid k);
  let d := SetData (SECRET_KEY P) (keydata k) in
  Ok (if fCompressed k then mkBase58Data (vchVersion d) (vchData d ++ [1]) else d).

Definition GetKey (Check : list Z -> bool) (d : CBase58Data) : result CKey :=
  _ ← cassert (32 <=? length (vchData d))%nat;
  Ok (CKey_Set Check (take 32 (vchData d)) ((32 <? length (vchData d))%nat && bool_decide (vchData d !! 32%nat = Some 1))).

Definition IsValid_secret (d : CBase58Data) : bool :=
  let fExpectedFormat := (length (vchData d) =? 32)%nat || ((length (vchData d) =? 33)%nat && bool_decide (vchData d !! 32%nat = Some 1)) in
  let fCorrectVersion := bool_decide (vchVersion d = SECRET_KEY P) in
  fExpectedFormat && fCorrectVersion.
End Check.

Definition main_prefixes : Prefixes := mkPrefixes [76] [16] [204].
Definition test_prefixes : Prefixes := mkPrefixes [140] [19] [239].

(** ** Lemmas: positional notation *)

(** Least significant digit first. *)
Fixpoint value (B : Z) (l : list Z) : Z :=
  match l with
  | [] => 0
  | d :: l => d + B * value B l
  end.

Abbreviation digits_of B := (Forall (fun d => 0 <= d < B)).

Lemma value_bounds B l : 2 <= B -> digits_of B l -> 0 <= value B l < B ^ Z.of_nat (length l).
Proof.
  intros HB. induction 1 as [|d l Hd Hl IH]; cbn [value length]; [cbn; lia|].
  rewrite Nat2Z.inj_succ, Z.pow_succ_r by lia. nia.
Qed.

Lemma value_app B a b : value B (a ++ b) = value B a + B ^ Z.of_nat (length a) * value B b.
Proof.
  induction a as [|d a IH]; cbn [app value length]; [rewrite Z.pow_0_r; lia|]. rewrite IH, Nat2Z.inj_succ, Z.pow_succ_r by lia. lia.
Qed.

Lemma value_zeros B l : Forall (fun d => d = 0) l -> value B l = 0.
Proof. induction 1 as [|d l -> Hl IH]; cbn [value]; lia. Qed.

Lemma value_0 B l : 2 <= B -> digits_of B l -> value B l = 0 -> Forall (fun d => d = 0) l.
Proof.
  intros HB. induction 1 as [|d l Hd Hl IH]; cbn [value]; [constructor|]. pose proof (value_bounds B l HB Hl). intros E.
  constructor; [nia|]. apply IH. nia.
Qed.

(** Without a leading zero the digits of a number are determined. *)
Lemma value_inj B a b : 2 <= B -> digits_of B a -> digits_of B b -> last a <> Some 0 -> last b <> Some 0 ->
  value B a = value B b -> a = b.
Proof.
  intros HB Ha. revert b. induction Ha as [|x a Hx Ha IH]; intros b Hb La Lb E.
  - destruct b as [|y b]; [done|]. symmetry in E. apply value_0 in E; [|done..]. destruct Lb.
    destruct (last_is_Some (y :: b)) as [_ [z Hz]]; [done|]. rewrite Hz. f_equal. eapply Forall_forall in E; [done|].
    apply list_elem_of_lookup_2 with (length (y :: b) - 1)%nat. rewrite <- Hz, last_lookup. f_equal. cbn. lia.
  - destruct b as [|y b].
    + apply value_0 in E; [|done|by constructor]. destruct La.
      destruct (last_is_Some (x :: a)) as [_ [z Hz]]; [done|]. rewrite Hz. f_equal. eapply Forall_forall in E; [done|].
      apply list_elem_of_lookup_2 with (length (x :: a) - 1)%nat. rewrite <- Hz, last_lookup. f_equal. cbn. lia.
    + apply Forall_cons in Hb as [Hy Hb]. cbn [value] in E.
      assert (x = y /\ value B a = value B b) as [-> Ev].
      { assert (x mod B = y mod B) as Em.
        { rewrite <- (Z.mod_add x (value B a) B), <- (Z.mod_add y (value B b) B) by lia. f_equal. lia. }
        rewrite !Z.mod_small in Em by lia. split; [done|nia]. }
      f_equal. apply IH; [done| | |done].
      * destruct a; [done|]. done.
      * destruct b; [done|]. done.
Qed.

(** ** Lemmas: the buffer *)

Lemma mul_add_spec base mul len digits carry i c j ds : 2 <= base -> 0 <= mul -> 0 <= carry -> digits_of base digits ->
  Forall (fun d => d = 0) (drop (len - i) digits) -> mul_add base mul carry i len digits = (c, j, ds) ->
  length ds = length digits /\ digits_of base ds /\ 0 <= c /\ (i <= j)%nat /\ Forall (fun d => d = 0) (drop (j - i) ds) /\
  value base ds + base ^ Z.of_nat (length digits) * c = mul * value base digits + carry.
Proof.
  intros HB Hm. revert carry i c j ds. induction digits as [|d digits IH]; intros carry i c j ds Hc Hd Hz E; cbn [mul_add] in E.
  - injection E as <- <- <-. cbn [value length]. rewrite Z.pow_0_r, drop_nil. split_and!; [done|constructor|done|lia|constructor|lia].
  - apply Forall_cons in Hd as [Hd Hds]. destruct (negb (carry =? 0) || (i <? len)%nat) eqn:Ec.
    + destruct (mul_add base mul (Z.quot (carry + mul * d) base) (S i) len digits) as [[c' j'] ds'] eqn:Er. injection E as <- <- <-.
      rewrite Z.quot_div_nonneg in Er by nia. rewrite Z.rem_mod_nonneg by nia.
      assert (0 <= (carry + mul * d) / base) as Hq by (apply Z.div_pos; nia). pose proof (Z.mod_pos_bound (carry + mul * d) base ltac:(lia)) as Hr.
      assert (Forall (fun d => d = 0) (drop (len - S i) digits)) as Hz1.
      { replace (drop (len - S i) digits) with (drop (S (len - S i)) (d :: digits)) by done.
        destruct (Nat.le_gt_cases len i); [|by replace (S (len - S i)) with (len - i)%nat by lia].
        replace (len - i)%nat with 0%nat in Hz by lia. apply Forall_drop. exact Hz. }
      destruct (IH _ _ _ _ _ Hq Hds Hz1 Er) as (El & Hd' & Hc' & Hj & Hz' & Ev).
      cbn [length value]. split_and!; [lia|by constructor|done|lia| |].
      * replace (j' - i)%nat with (S (j' - S i)) by lia. done.
      * rewrite Nat2Z.inj_succ, Z.pow_succ_r by lia. pose proof (Z.div_mod (carry + mul * d) base ltac:(lia)). nia.
    + apply orb_false_iff in Ec as [->%negb_false_iff%Z.eqb_eq Hi%Nat.ltb_ge]. injection E as <- <- <-.
      replace (len - i)%nat with 0%nat in Hz by lia. rewrite Nat.sub_diag.
      split_and!; [done|by constructor|done|lia|done|]. rewrite (value_zeros _ (d :: digits)) by exact Hz. lia.
Qed.

(** The digits in use and the zeros beyond them. *)
Record buffer (base : Z) (n : nat) (b : nat * list Z) (v : Z) : Prop := {
  bf_length : length (snd b) = n;
  bf_digits : digits_of base (snd b);
  bf_zeros : Forall (fun d => d = 0) (drop (fst b) (snd b));
  bf_value : value base (snd b) = v
}.

Lemma push_digit_ok base mul n b v x : 2 <= base -> 0 <= mul -> 0 <= x -> buffer base n b v -> v * mul + x < base ^ Z.of_nat n ->
  exists b', push_digit base mul x b = Ok b' /\ buffer base n b' (v * mul + x).
Proof.
  intros HB Hm Hx [Hl Hd Hz Hv] Hfit. unfold push_digit. destruct (mul_add base mul x 0 (fst b) (snd b)) as [[c j] ds] eqn:E.
  rewrite <- (Nat.sub_0_r (fst b)) in Hz. destruct (mul_add_spec _ _ _ _ _ _ _ _ _ HB Hm Hx Hd Hz E) as (El & Hd' & Hc & _ & Hz' & Ev).
  pose proof (value_bounds base ds HB Hd') as Hb. rewrite Hl in Ev, El. rewrite El in Hb.
  assert (c = 0) as -> by nia. cbn. eexists; split; [done|]. rewrite Nat.sub_0_r in Hz'. split; cbn [fst snd]; [done..|lia].
Qed.

(** The value that a string of digits adds to [v]. *)
Definition push_value (mul : Z) (cs : list Z) (v : Z) : Z := foldl (fun v c => v * mul + c) v cs.

Lemma push_value_rev mul cs : push_value mul cs 0 = value mul (rev cs).
Proof.
  induction cs as [|c cs IH] using rev_ind; [done|]. unfold push_value in *. rewrite foldl_app, rev_app_distr. cbn [foldl rev app value]. rewrite IH. lia.
Qed.

Lemma push_value_bound mul cs v n : 2 <= mul -> digits_of mul cs -> 0 <= v < mul ^ Z.of_nat n ->
  0 <= push_value mul cs v < mul ^ Z.of_nat (n + length cs).
Proof.
  intros Hm Hcs. revert v n. induction Hcs as [|c cs Hc Hcs IH]; intros v n Hv; cbn [push_value foldl length]; [by rewrite Nat.add_0_r|].
  replace (n + S (length cs))%nat with (S n + length cs)%nat by lia. apply IH. rewrite Nat2Z.inj_succ, Z.pow_succ_r by lia. nia.
Qed.

Lemma push_value_ge mul cs v : 1 <= mul -> Forall (fun c => 0 <= c) cs -> 0 <= v -> v <= push_value mul cs v.
Proof.
  intros Hm Hcs. revert v. induction Hcs as [|c cs Hc Hcs IH]; intros v Hv; cbn; [lia|]. etransitivity; [|apply IH]; nia.
Qed.

Lemma push_all_ok base mul n cs b v : 2 <= base -> 2 <= mul -> digits_of mul cs -> buffer base n b v -> 0 <= v ->
  push_value mul cs v < base ^ Z.of_nat n -> exists b', push_all base mul cs b = Ok b' /\ buffer base n b' (push_value mul cs v).
Proof.
  intros HB Hm Hcs. revert b v. induction Hcs as [|c cs Hc Hcs IH]; intros b v Hb Hv Hfit; cbn [push_all]; [by exists b|].
  cbn [push_value foldl] in *. assert (v * mul + c <= push_value mul cs (v * mul + c)) as Hge.
  { apply push_value_ge; [lia| |nia]. eapply Forall_impl; [exact Hcs|]. cbn. lia. }
  unfold push_value in Hge.
  destruct (push_digit_ok base mul n b v c HB ltac:(lia) ltac:(lia) Hb ltac:(lia)) as (b1 & -> & Hb1). cbn [mbind result_bind].
  apply IH; [done|nia|done].
Qed.

Lemma new_buffer base n : 2 <= base -> buffer base n (0%nat, replicate n 0) 0.
Proof.
  intros HB. split; cbn [fst snd]; [apply length_replicate| | |].
  - apply Forall_replicate. lia.
  - by apply Forall_replicate.
  - apply value_zeros. by apply Forall_replicate.
Qed.

(** ** Lemmas: leading zeros *)

Lemma drop_while_spec P l : exists k, l = take k l ++ drop_while P l /\ k = (length l - length (drop_while P l))%nat /\
  Forall (fun x => P x = true) (take k l) /\ (forall x, head (drop_while P l) = Some x -> P x = false).
Proof.
  induction l as [|x l (k & E & Hk & Hf & Hh)]; [exists 0%nat; by split_and!; [..|constructor|]|]. cbn [drop_while].
  destruct (P x) eqn:Ex.
  - exists (S k). cbn [take app length]. split_and!; [by f_equal| |by constructor|done].
    apply (f_equal length) in E. rewrite length_app, length_take in E. lia.
  - exists 0%nat. cbn [take app length]. split_and!; [done|lia|constructor|]. intros y [= <-]. done.
Qed.

(** What is left represents the same number and has no leading zero. *)
Lemma significant_spec base n b v : buffer base n b v ->
  digits_of base (significant b) /\ head (significant b) <> Some 0 /\ value base (rev (significant b)) = v.
Proof.
  intros [Hl Hd Hz Hv]. unfold significant. set (l := rev (take (fst b) (snd b))).
  destruct (drop_while_spec is_zero l) as (k & E & _ & Hf & Hh). assert (digits_of base l) as Hdl by (apply Forall_rev, Forall_take, Hd).
  split_and!.
  - rewrite E in Hdl. by apply Forall_app in Hdl as [_ ?].
  - intros Hs. by apply Hh in Hs.
  - rewrite <- Hv, <- (take_drop (fst b) (snd b)), value_app, (value_zeros _ (drop _ _)) by done. rewrite Z.mul_0_r, Z.add_0_r.
    rewrite <- (rev_involutive (take (fst b) (snd b))). fold l. rewrite E at 2. rewrite rev_app_distr, value_app, (value_zeros _ (rev (take k l))); [lia|].
    apply Forall_rev. eapply Forall_impl; [exact Hf|]. cbn. by intros x ?%Z.eqb_eq.
Qed.

Lemma last_rev (l : list Z) : last (rev l) = head l.
Proof. destruct l as [|x l]; [done|]. apply last_snoc. Qed.

(** The buffers are large enough. *)
Lemma size_fits A B p q n : 2 <= A -> 2 <= B -> (0 < q)%nat -> A ^ Z.of_nat q <= B ^ Z.of_nat p ->
  A ^ Z.of_nat n <= B ^ Z.of_nat (n * p / q + 1).
Proof.
  intros HA HB Hq Hpq. set (m := (n * p / q + 1)%nat). assert (n * p <= m * q)%nat as Hm.
  { pose proof (Nat.div_mod (n * p) q ltac:(lia)). pose proof (Nat.mod_upper_bound (n * p) q ltac:(lia)). unfold m. nia. }
  destruct (Z.le_gt_cases (A ^ Z.of_nat n) (B ^ Z.of_nat m)) as [|Hlt]; [done|exfalso].
  assert ((B ^ Z.of_nat m) ^ Z.of_nat q < (A ^ Z.of_nat n) ^ Z.of_nat q) as H1 by (apply Z.pow_lt_mono_l; lia).
  assert ((A ^ Z.of_nat n) ^ Z.of_nat q <= (B ^ Z.of_nat p) ^ Z.of_nat n) as H2.
  { rewrite <- Z.pow_mul_r, Z.mul_comm, Z.pow_mul_r by lia. apply Z.pow_le_mono_l. lia. }
  assert ((B ^ Z.of_nat p) ^ Z.of_nat n <= (B ^ Z.of_nat m) ^ Z.of_nat q) as H3.
  { rewrite <- !Z.pow_mul_r by lia. apply Z.pow_le_mono_r; lia. }
  lia.
Qed.

Lemma fits58 n : 256 ^ Z.of_nat n <= 58 ^ Z.of_nat (n * 138 / 100 + 1).
Proof. apply size_fits; [lia..|]. vm_compute. discriminate. Qed.
Lemma fits256 n : 58 ^ Z.of_nat n <= 256 ^ Z.of_nat (n * 733 / 1000 + 1).
Proof. apply size_fits; [lia..|]. vm_compute. discriminate. Qed.

(** ** Lemmas: the alphabet *)

Lemma alphabet_char d : 0 <= d < 58 -> exists c, pszBase58 !! Z.to_nat d = Some c /\ strchr pszBase58 c = Some (Z.to_nat d) /\ isspace c = false /\ (c = char_1 <-> d = 0).
Proof.
  intros Hd. assert (forall i : nat, (i < 58)%nat -> match pszBase58 !! i with
    | Some c => bool_decide (strchr pszBase58 c = Some i) && negb (isspace c) && Bool.eqb (c =? char_1) (i =? 0)%nat | None => false end = true) as H.
  { intros i Hi. do 58 (destruct i as [|i]; [vm_compute; reflexivity|]). lia. }
  specialize (H (Z.to_nat d) ltac:(lia)). destruct (pszBase58 !! Z.to_nat d) as [c|]; [|done]. exists c.
  apply andb_true_iff in H as [[H1%bool_decide_eq_true H2%negb_true_iff]%andb_true_iff H3%Bool.eqb_prop].
  split_and!; [done..|]. destruct (Z.eqb_spec c char_1); destruct (Nat.eqb_spec (Z.to_nat d) 0); try done; lia.
Qed.

Lemma strchr_char c i : strchr pszBase58 c = Some i -> (i < 58)%nat /\ pszBase58 !! i = Some c.
Proof.
  change 58%nat with (length pszBase58). generalize pszBase58 as l. intros l. revert i. induction l as [|x l IH]; intros i; cbn [strchr]; [done|].
  destruct (Z.eqb_spec x c) as [->|]; [intros [= <-]; cbn; split; [lia|done]|]. destruct (strchr l c) as [k|] eqn:E; [|done]. intros [= <-].
  destruct (IH k eq_refl). cbn. split; [lia|done].
Qed.

(** Reading the characters of digits. *)
Lemma read_chars_digits ds b n v tail : digits_of 58 ds -> buffer 256 n b v -> 0 <= v -> push_value 58 ds v < 256 ^ Z.of_nat n ->
  Forall (fun c => isspace c = true) tail ->
  exists b', read_chars (((fun d => pszBase58 !!! Z.to_nat d) <$> ds) ++ tail) b = Ok (Some (tail, b')) /\ buffer 256 n b' (push_value 58 ds v).
Proof.
  intros Hds. revert b v. induction Hds as [|d ds Hd Hds IH]; intros b v Hb Hv Hfit Ht; cbn [fmap list_fmap app].
  - destruct tail as [|c tail]; [by exists b|]. cbn [read_chars]. apply Forall_cons in Ht as [-> _]. by exists b.
  - destruct (alphabet_char d Hd) as (c & Ec & Es & Ei & _). cbn [read_chars]. rewrite (list_lookup_total_correct _ _ _ Ec), Ei, Es, Z2Nat.id by lia.
    cbn [push_value foldl] in *. assert (v * 58 + d <= push_value 58 ds (v * 58 + d)) as Hge.
    { apply push_value_ge; [lia| |nia]. eapply Forall_impl; [exact Hds|]. cbn. lia. }
    unfold push_value in Hge.
    destruct (push_digit_ok 256 58 n b v d ltac:(lia) ltac:(lia) ltac:(lia) Hb ltac:(lia)) as (b1 & -> & Hb1). cbn [mbind result_bind].
    apply IH; [done|lia|done..].
Qed.

Abbreviation to_chars := (fmap (fun d => pszBase58 !!! Z.to_nat d)).
Abbreviation spaces := (Forall (fun c => isspace c = true)).

(** What the loop over the characters can do to any string. *)
Lemma read_chars_total psz b n v m : buffer 256 n b v -> 0 <= v < 58 ^ Z.of_nat m -> 58 ^ Z.of_nat (m + length psz) <= 256 ^ Z.of_nat n ->
  read_chars psz b = Ok None \/ exists ds tail b', psz = to_chars ds ++ tail /\ digits_of 58 ds /\
    read_chars psz b = Ok (Some (tail, b')) /\ buffer 256 n b' (push_value 58 ds v).
Proof.
  revert b v m. induction psz as [|c psz IH]; intros b v m Hb Hv Hfit; cbn [read_chars]; [right; by exists [], [], b|].
  destruct (isspace c) eqn:Ei; [right; by exists [], (c :: psz), b|]. destruct (strchr pszBase58 c) as [i|] eqn:Es; [|by left].
  apply strchr_char in Es as [Hi Ec]. cbn [length] in Hfit. rewrite Nat.add_succ_r, <- Nat.add_succ_l in Hfit.
  assert (0 <= v * 58 + Z.of_nat i < 58 ^ Z.of_nat (S m)) as Hv1 by (rewrite Nat2Z.inj_succ, Z.pow_succ_r by lia; lia).
  assert (58 ^ Z.of_nat (S m) <= 58 ^ Z.of_nat (S m + length psz)) by (apply Z.pow_le_mono_r; lia).
  destruct (push_digit_ok 256 58 n b v (Z.of_nat i) ltac:(lia) ltac:(lia) ltac:(lia) Hb ltac:(lia)) as (b1 & -> & Hb1). cbn [mbind result_bind].
  destruct (IH b1 _ (S m) Hb1 Hv1 Hfit) as [->|(ds & tail & b' & -> & Hds & -> & Hb')]; [by left|right].
  exists (Z.of_nat i :: ds), tail, b'. split_and!; [|constructor; [lia|done]|done..].
  cbn. f_equal. symmetry. apply list_lookup_total_correct. by rewrite Nat2Z.id.
Qed.

Lemma drop_while_all P a l : Forall (fun x => P x = true) a -> (forall x, head l = Some x -> P x = false) -> drop_while P (a ++ l) = l.
Proof.
  intros Ha Hl. induction Ha as [|x a Hx Ha IH]; cbn [app drop_while]; [|by rewrite Hx].
  destruct l as [|y l]; [done|]. cbn. by rewrite (Hl y eq_refl).
Qed.

Lemma all_eq_replicate (x : Z) l : Forall (fun y => (y =? x) = true) l -> l = replicate (length l) x.
Proof. induction 1 as [|y l Hy%Z.eqb_eq Hl IH]; [done|]. cbn. by rewrite Hy, <- IH. Qed.

(** A byte string splits into its leading zeros and a number. *)
Lemma leading_split (x : Z) v : exists z rest, v = replicate z x ++ rest /\ head rest <> Some x /\ drop_while (fun y => y =? x) v = rest /\ (length v - length rest)%nat = z.
Proof.
  destruct (drop_while_spec (fun y => y =? x) v) as (k & E & Hk & Hf & Hh). apply all_eq_replicate in Hf. rewrite length_take in Hf.
  set (r := drop_while _ v) in *. exists k, r. replace (k `min` length v)%nat with k in Hf by lia.
  split_and!; [by rewrite <- Hf|intros H; apply Hh in H; by rewrite Z.eqb_refl in H|done|lia].
Qed.

Lemma push_head mul cs : 2 <= mul -> digits_of mul cs -> 0 <= push_value mul cs 0 < mul ^ Z.of_nat (length cs).
Proof. intros Hm Hcs. apply (push_value_bound mul cs 0 0); [done..|]. cbn. lia. Qed.

Lemma Encode_spec z rest : digits_of 256 rest -> head rest <> Some 0 -> exists ds, digits_of 58 ds /\ head ds <> Some 0 /\
  value 58 (rev ds) = value 256 (rev rest) /\ EncodeBase58 (replicate z 0 ++ rest) = Ok (replicate z char_1 ++ to_chars ds).
Proof.
  intros Hr Hh. unfold EncodeBase58. rewrite drop_while_all; [|by apply Forall_replicate|]; cycle 1.
  { intros x Hx. destruct (Z.eqb_spec x 0) as [->|]; [done|done]. }
  set (n := (length rest * 138 / 100 + 1)%nat). pose proof (push_head 256 rest ltac:(lia) Hr) as Hp. pose proof (fits58 (length rest)) as Hf. fold n in Hf.
  destruct (push_all_ok 58 256 n rest _ _ ltac:(lia) ltac:(lia) Hr (new_buffer 58 n ltac:(lia)) ltac:(lia) ltac:(lia)) as (b & -> & Hb). cbn [mbind result_bind].
  destruct (significant_spec _ _ _ _ Hb) as (Hd & Hs & Ev). exists (significant b). split_and!; [done|done|by rewrite Ev, push_value_rev|].
  rewrite length_app, length_replicate. do 3 f_equal. lia.
Qed.

Lemma c_str_app s t : Forall (fun c => c <> 0) s -> c_str (s ++ t) = s ++ c_str t.
Proof. induction 1 as [|c s Hc _ IH]; cbn [app c_str]; [done|]. by rewrite (proj2 (Z.eqb_neq c 0) Hc), IH. Qed.

Lemma c_str_id s : Forall (fun c => c <> 0) s -> c_str s = s.
Proof. intros Hs. by rewrite <- (app_nil_r s), c_str_app. Qed.

Lemma spaces_nonzero sp : spaces sp -> Forall (fun c => c <> 0) sp.
Proof. intros H. eapply Forall_impl; [exact H|]. by intros c Hc ->. Qed.

Lemma chars_nonzero z ds : digits_of 58 ds -> Forall (fun c => c <> 0) (replicate z char_1 ++ to_chars ds).
Proof.
  intros Hd. apply Forall_app. split; [by apply Forall_replicate|]. apply Forall_fmap. eapply Forall_impl; [exact Hd|]. intros d Hx. cbn.
  destruct (alphabet_char d Hx) as (c & Ec & _). rewrite (list_lookup_total_correct _ _ _ Ec). apply list_elem_of_lookup_2 in Ec.
  intros ->. apply (bool_decide_eq_true_2 _) in Ec. by vm_compute in Ec.
Qed.

Lemma Decode_spec sp1 z ds tail : spaces sp1 -> spaces tail -> digits_of 58 ds -> head ds <> Some 0 -> exists bytes, digits_of 256 bytes /\ head bytes <> Some 0 /\
  value 256 (rev bytes) = value 58 (rev ds) /\ DecodeBase58 (sp1 ++ replicate z char_1 ++ to_chars ds ++ tail) = Ok (Some (replicate z 0 ++ bytes)).
Proof.
  intros Hs1 Ht Hd Hh. unfold DecodeBase58. rewrite c_str_id; cycle 1.
  { rewrite (app_assoc (replicate z char_1)). apply Forall_app. split; [by apply spaces_nonzero|]. apply Forall_app. split; [by apply chars_nonzero|by apply spaces_nonzero]. }
  set (body := to_chars ds ++ tail).
  assert (forall x, head body = Some x -> (x =? char_1) = false) as Hb1.
  { intros x Hx. apply Z.eqb_neq. intros ->. destruct ds as [|d ds].
    - unfold body in Hx. destruct tail; [done|]. injection Hx as ->. by apply Forall_cons in Ht as [? _].
    - injection Hx as Hx. apply Forall_cons in Hd as [Hd _]. destruct (alphabet_char d Hd) as (c & Ec & _ & _ & Hc1).
      rewrite (list_lookup_total_correct _ _ _ Ec) in Hx. apply Hh. cbn. f_equal. by apply Hc1. }
  assert (drop_while isspace (sp1 ++ replicate z char_1 ++ body) = replicate z char_1 ++ body \/
    z = 0%nat /\ ds = [] ) as [->|[-> ->]].
  { destruct z as [|z]; [|left; apply drop_while_all; [done|]; by intros x [= <-]]. destruct ds as [|d ds]; [by right|left].
    apply drop_while_all; [done|]. intros x [= <-]. apply Forall_cons in Hd as [Hd _]. destruct (alphabet_char d Hd) as (c & Ec & _ & Ei & _).
    by rewrite (list_lookup_total_correct _ _ _ Ec). }
  - rewrite drop_while_all; [|apply Forall_replicate; reflexivity|done].
    set (n := (length body * 733 / 1000 + 1)%nat). pose proof (push_head 58 ds ltac:(lia) Hd) as Hp. pose proof (fits256 (length body)) as Hf. fold n in Hf.
    assert (58 ^ Z.of_nat (length ds) <= 58 ^ Z.of_nat (length body)) by (apply Z.pow_le_mono_r; [lia|]; unfold body; rewrite length_app, length_fmap; lia).
    destruct (read_chars_digits ds _ n 0 tail Hd (new_buffer 256 n ltac:(lia)) ltac:(lia) ltac:(lia) Ht) as (b & Er & Hb). fold body in Er. rewrite Er. cbn [mbind result_bind].
    rewrite <- (app_nil_r tail), drop_while_all by done. destruct (significant_spec _ _ _ _ Hb) as (Hd' & Hs & Ev). exists (significant b).
    split_and!; [done|done|by rewrite Ev, push_value_rev|]. rewrite length_app, length_replicate. do 3 f_equal. f_equal. lia.
  - unfold body. cbn [fmap list_fmap replicate app]. rewrite <- (app_nil_r tail), app_assoc, drop_while_all by (done || by apply Forall_app).
    exists []. by split_and!; [constructor|..].
Qed.

Lemma Encode_decodes v : Forall is_byte v -> exists t, EncodeBase58 v = Ok t /\ forall sp1 sp2, spaces sp1 -> spaces sp2 -> DecodeBase58 (sp1 ++ t ++ sp2) = Ok (Some v).
Proof.
  intros Hv. destruct (leading_split 0 v) as (z & rest & -> & Hh & _). apply Forall_app in Hv as [_ Hr].
  destruct (Encode_spec z rest Hr Hh) as (ds & Hd & Hhd & Ev & ->). eexists; split; [done|]. intros sp1 sp2 H1 H2.
  destruct (Decode_spec sp1 z ds sp2 H1 H2 Hd Hhd) as (bytes & Hb & Hhb & Ev' & E). rewrite <- app_assoc, E. do 3 f_equal.
  rewrite <- (rev_involutive bytes), <- (rev_involutive rest). f_equal.
  apply (value_inj 256); [lia|by apply Forall_rev..|by rewrite last_rev|by rewrite last_rev|by rewrite Ev'].
Qed.

Lemma Decode_encodes s : exists r, DecodeBase58 s = Ok r /\ forall w, r = Some w -> Forall is_byte w /\
  exists sp1 t sp2, EncodeBase58 w = Ok t /\ c_str s = sp1 ++ t ++ sp2 /\ spaces (sp1 ++ sp2).
Proof.
  destruct (drop_while_spec isspace (c_str s)) as (k & Es & _ & Hsp & _). set (sp1 := take k (c_str s)) in *. set (s1 := drop_while isspace (c_str s)) in *.
  destruct (leading_split char_1 s1) as (z & body & E1 & Hh & Edw & Ez). set (n := (length body * 733 / 1000 + 1)%nat).
  assert (DecodeBase58 s = r ← read_chars body (0%nat, replicate n 0); match r with None => Ok None | Some (psz, b) =>
    match drop_while isspace psz with _ :: _ => Ok None | [] => Ok (Some (replicate z 0 ++ significant b)) end end) as ->.
  { unfold DecodeBase58. fold s1. rewrite Edw, Ez. done. }
  destruct (read_chars_total body _ n 0 0 (new_buffer 256 n ltac:(lia)) ltac:(cbn; lia) (fits256 _)) as [->|(ds & tail & b & Eb & Hd & -> & Hb)];
    cbn [mbind result_bind]; [by exists None|].
  destruct (drop_while_spec isspace tail) as (k2 & Et & _ & Hsp2 & _). destruct (drop_while isspace tail) as [|c r]; [|by exists None].
  rewrite app_nil_r in Et. rewrite <- Et in Hsp2. eexists; split; [done|]. intros w [= <-].
  assert (head ds <> Some 0) as Hhd.
  { intros E0. destruct ds as [|d ds]; [done|]. injection E0 as ->. apply Hh. by rewrite Eb. }
  destruct (significant_spec _ _ _ _ Hb) as (Hd' & Hs' & Ev). split; [apply Forall_app; split; [apply Forall_replicate; unfold is_byte; lia|exact Hd']|].
  destruct (Encode_spec z (significant b) Hd' Hs') as (ds' & Hds' & Hhd' & Ev' & E'). exists sp1, (replicate z char_1 ++ to_chars ds'), tail.
  split_and!; [done| |by apply Forall_app]. rewrite Es, E1, Eb, <- app_assoc. do 3 f_equal.
  rewrite <- (rev_involutive ds), <- (rev_involutive ds'). f_equal. rewrite Ev, push_value_rev in Ev'.
  f_equal. apply (value_inj 58); [lia|by apply Forall_rev..|by rewrite last_rev|by rewrite last_rev|done].
Qed.

(** ** Lemmas: addresses *)

Section Addresses.
Context (Hash : list Z -> list Z) (HHash : forall l, length (Hash l) = 32%nat /\ Forall is_byte (Hash l)).

(** The text of an encoding is a C string. *)
Lemma Encode_nonzero v t : Forall is_byte v -> EncodeBase58 v = Ok t -> Forall (fun c => c <> 0) t.
Proof.
  intros Hv. destruct (leading_split 0 v) as (z & rest & -> & Hh & _). apply Forall_app in Hv as [_ Hr].
  destruct (Encode_spec z rest Hr Hh) as (ds & Hd & _ & _ & ->). intros [= <-]. by apply chars_nonzero.
Qed.

(** Decoding looks at the C string only. *)
Lemma Decode_c_str s t : c_str s = c_str t -> DecodeBase58 s = DecodeBase58 t.
Proof. intros E. unfold DecodeBase58. by rewrite E. Qed.

Lemma DecodeCheck_encodes v t : Forall is_byte v -> EncodeBase58Check Hash v = Ok t -> DecodeBase58Check Hash t = Ok (Some v).
Proof using HHash.
  intros Hv Ht. destruct (HHash v) as [Hl Hb]. assert (length (take 4 (Hash v)) = 4%nat) as H4 by (rewrite length_take, Hl; done).
  destruct (Encode_decodes (v ++ take 4 (Hash v))) as (t' & E & Hd); [apply Forall_app; split; [done|by apply Forall_take]|].
  unfold EncodeBase58Check in Ht. rewrite Ht in E. injection E as <-. specialize (Hd [] [] ltac:(constructor) ltac:(constructor)). rewrite app_nil_r in Hd.
  unfold DecodeBase58Check. cbn [app] in Hd. rewrite Hd. cbn [mbind result_bind]. rewrite length_app, H4.
  replace (length v + 4 - 4)%nat with (length v) by lia. rewrite take_app_length, drop_app_length, bool_decide_true by done.
  by rewrite (proj2 (Nat.ltb_ge _ _)) by lia.
Qed.

(** Versioned data from its string. *)
Lemma SetString_ToString d t : Forall is_byte (vchVersion d ++ vchData d) -> length (vchVersion d) = 1%nat -> ToString Hash d = Ok t -> SetString Hash t 1 = Ok (true, d).
Proof using HHash.
  intros Hb Hl Ht. unfold SetString. rewrite (DecodeCheck_encodes _ _ Hb Ht). cbn [mbind result_bind]. rewrite length_app, Hl.
  rewrite <- Hl, take_app_length, drop_app_length, (proj2 (Nat.ltb_ge _ _)) by lia. by destruct d.
Qed.

Lemma SetString_c_str s t n : c_str s = c_str t -> SetString Hash s n = SetString Hash t n.
Proof. intros E. unfold SetString, DecodeBase58Check. by rewrite (Decode_c_str s t E). Qed.

Lemma ToString_total d : Forall is_byte (vchVersion d ++ vchData d) -> exists t, ToString Hash d = Ok t.
Proof using HHash.
  intros Hb. destruct (Encode_decodes ((vchVersion d ++ vchData d) ++ take 4 (Hash (vchVersion d ++ vchData d)))) as (t & E & _); [|by exists t].
  apply Forall_app. split; [done|]. apply Forall_take, HHash.
Qed.

Lemma ToString_nonzero d t : Forall is_byte (vchVersion d ++ vchData d) -> ToString Hash d = Ok t -> Forall (fun c => c <> 0) t.
Proof using HHash. intros Hb. apply Encode_nonzero, Forall_app. split; [done|]. apply Forall_take, HHash. Qed.

(** A string that is accepted carries the checksum. *)
Lemma SetString_sound s d : SetString Hash s 1 = Ok (true, d) -> length (vchVersion d) = 1%nat /\
  exists sp1 t sp2, ToString Hash d = Ok t /\ c_str s = sp1 ++ t ++ sp2 /\ spaces (sp1 ++ sp2).
Proof using HHash.
  unfold SetString, DecodeBase58Check. destruct (Decode_encodes s) as (r & -> & Hr). cbn [mbind result_bind]. destruct r as [v|]; [|done].
  destruct (Hr v eq_refl) as (_ & sp1 & t & sp2 & E & Es & Hsp). destruct (Nat.ltb_spec (length v) 4) as [|H4]; [done|]. set (n := (length v - 4)%nat).
  case_bool_decide as Ec; [|done]. cbn [mbind result_bind]. destruct (Nat.ltb_spec (length (take n v)) 1) as [|H1]; [done|]. intros [= <-].
  cbn [vchVersion vchData]. split; [by rewrite length_take; lia|]. exists sp1, t, sp2. split_and!; [|done..].
  unfold ToString, EncodeBase58Check. cbn [vchVersion vchData]. by rewrite take_drop, Ec, take_drop.
Qed.
End Addresses.

(** One byte each, and different. *)
Definition prefixes_ok (P : Prefixes) : Prop :=
  length (PUBKEY_ADDRESS P) = 1%nat /\ length (SCRIPT_ADDRESS P) = 1%nat /\ length (SECRET_KEY P) = 1%nat /\
  Forall is_byte (PUBKEY_ADDRESS P ++ SCRIPT_ADDRESS P ++ SECRET_KEY P) /\ PUBKEY_ADDRESS P <> SCRIPT_ADDRESS P.

Definition dest_ok (dest : CTxDestination) : Prop :=
  match dest with
  | CNoDestination => False
  | CKeyID id | CScriptID id => length id = 20%nat /\ Forall is_byte id
  end.

Lemma Set_data P a dest : prefixes_ok P -> dest_ok dest -> let d := (Set_ P a dest).2 in
  length (vchVersion d) = 1%nat /\ Forall is_byte (vchVersion d ++ vchData d) /\ Get P d = dest.
Proof.
  intros (H1 & H2 & _ & Hb & Hne) Hd. apply Forall_app in Hb as [Hb1 Hb]. apply Forall_app in Hb as [Hb2 _].
  destruct dest as [|id|id]; [done|..]; destruct Hd as [Hl Hbi]; cbn; split_and!; try done; try (by apply Forall_app); unfold Get, IsValid; cbn.
  - rewrite Hl, bool_decide_true by done. cbn [Nat.eqb orb andb negb]. by rewrite firstn_all2 by lia.
  - rewrite Hl, (bool_decide_false (SCRIPT_ADDRESS P = PUBKEY_ADDRESS P)), bool_decide_true by congruence. cbn [Nat.eqb orb andb negb]. by rewrite firstn_all2 by lia.
Qed.

(** The data of a known destination is what [Set] writes. *)
Lemma Get_Set P a d : Get P d <> CNoDestination -> (Set_ P a (Get P d)).2 = d.
Proof.
  unfold Get, IsValid. destruct d as [ver dat]. cbn [vchVersion vchData]. destruct (Nat.eqb_spec (length dat) 20) as [Hl|]; [|done]. cbn [andb].
  repeat case_bool_decide; subst; cbn; intros Hn; try done; rewrite <- Hl; by rewrite firstn_all.
Qed.

(** ** Properties *)

(** Base 58 strings and byte strings correspond.  Every byte string has an
    encoding, and decoding it, with any spaces around it, gives the bytes back.
    Decoding never fails its assertion, and a C string it accepts is the encoding of
    the bytes it returns, up to spaces around it. *)
Theorem base58_roundtrip (v s : list Z) : Forall is_byte v ->
  (exists t, EncodeBase58 v = Ok t /\ forall sp1 sp2, Forall (fun c => isspace c = true) sp1 -> Forall (fun c => isspace c = true) sp2 ->
     DecodeBase58 (sp1 ++ t ++ sp2) = Ok (Some v)) /\
  (exists r, DecodeBase58 s = Ok r /\ forall w, r = Some w -> Forall is_byte w /\
     exists sp1 t sp2, EncodeBase58 w = Ok t /\ c_str s = sp1 ++ t ++ sp2 /\ Forall (fun c => isspace c = true) (sp1 ++ sp2)).
Proof.
  intros Hv. split; [by apply Encode_decodes|apply Decode_encodes].
Qed.

Lemma base58_roundtrip_witness : exists t, EncodeBase58 [0; 0; 255; 3] = Ok t /\ DecodeBase58 ([32] ++ t ++ [10]) = Ok (Some [0; 0; 255; 3]).
Proof.
  destruct (base58_roundtrip [0; 0; 255; 3] []) as [(t & E & H) _]; [repeat constructor; done|].
  exists t. split; [exact E|]. apply H; by repeat constructor.
Defined.

(** C38: Addresses and destinations correspond.  Whatever hash makes the
    checksum, the string of a destination reads back as that destination, whether the
    string ends there or a NUL character and anything else follow, since
    [SetString] reads a C string.  In the other direction, when a string reads as a
    destination, its characters before the first NUL are the string of that
    destination, up to spaces around it: an accepted address has the right length,
    version and checksum. *)
Theorem address_roundtrip (Hash : list Z -> list Z) (P : Prefixes) (a0 : CBase58Data) (dest : CTxDestination) (s : list Z) :
  (forall l, length (Hash l) = 32%nat /\ Forall is_byte (Hash l)) -> prefixes_ok P -> dest_ok dest ->
  (exists t a, ToString Hash (Set_ P a0 dest).2 = Ok t /\ SetString Hash t 1 = Ok (true, a) /\ Get P a = dest /\
     forall junk, SetString Hash (t ++ 0 :: junk) 1 = Ok (true, a)) /\
  (forall a, SetString Hash s 1 = Ok (true, a) -> Get P a <> CNoDestination ->
     exists sp1 t sp2, ToString Hash (Set_ P a0 (Get P a)).2 = Ok t /\ c_str s = sp1 ++ t ++ sp2 /\ Forall (fun c => isspace c = true) (sp1 ++ sp2)).
Proof.
  intros HHash HP Hd. split.
  - destruct (Set_data P a0 dest HP Hd) as (Hl & Hb & Hg). destruct (ToString_total Hash HHash _ Hb) as [t Ht].
    pose proof (SetString_ToString Hash HHash _ _ Hb Hl Ht) as Hs. exists t, (Set_ P a0 dest).2. split_and!; [done..|].
    intros junk. rewrite <- Hs. apply SetString_c_str. assert (Forall (fun c => c <> 0) t) as Hn by (by apply (ToString_nonzero Hash HHash _ _ Hb)).
    rewrite c_str_app, (c_str_id t) by done. apply app_nil_r.
  - intros a Ha Hg. destruct (SetString_sound Hash HHash _ _ Ha) as (_ & sp1 & t & sp2 & Ht & Es & Hsp).
    exists sp1, t, sp2. by rewrite Get_Set.
Qed.

(** The key hash 01..14 on the main chain. *)
Lemma address_roundtrip_witness : exists a,
  ToString (fun l => sha256 (sha256 l)) (Set_ main_prefixes (mkBase58Data [] []) (CKeyID (Z.of_nat <$> seq 1 20))).2 = Ok (codes "XanAvE5GMB8CsPH78B9moJq9viEVKvCS4f") /\
  SetString (fun l => sha256 (sha256 l)) (codes "XanAvE5GMB8CsPH78B9moJq9viEVKvCS4f") 1 = Ok (true, a) /\ Get main_prefixes a = CKeyID (Z.of_nat <$> seq 1 20) /\
  forall junk, SetString (fun l => sha256 (sha256 l)) (codes "XanAvE5GMB8CsPH78B9moJq9viEVKvCS4f" ++ 0 :: junk) 1 = Ok (true, a).
Proof.
  destruct (address_roundtrip (fun l => sha256 (sha256 l)) main_prefixes (mkBase58Data [] []) (CKeyID (Z.of_nat <$> seq 1 20)) []) as [(t & a & E & H) _].
  - intros l. split; [apply sha256_length|apply WriteBE32_bytes].
  - repeat split; repeat constructor; done.
  - split; [done|]. repeat constructor; done.
  - assert (t = codes "XanAvE5GMB8CsPH78B9moJq9viEVKvCS4f") as Et; [|subst t; exists a; split; [exact E|exact H]].
    assert (ToString (fun l => sha256 (sha256 l)) (Set_ main_prefixes (mkBase58Data [] []) (CKeyID (Z.of_nat <$> seq 1 20))).2 = Ok (codes "XanAvE5GMB8CsPH78B9moJq9viEVKvCS4f")) as E' by (vm_compute; reflexivity).
    rewrite E' in E. by injection E as <-.
Defined.

(** A valid secret key reads back with its compression flag, when the curve library
    accepts its bytes. *)
Theorem secret_roundtrip (Hash : list Z -> list Z) (P : Prefixes) (Check : list Z -> bool) (k : CKey) :
  (forall l, length (Hash l) = 32%nat /\ Forall is_byte (Hash l)) -> prefixes_ok P ->
  fValid k = true -> length (keydata k) = 32%nat -> Forall is_byte (keydata k) -> Check (keydata k) = true ->
  exists d t, SetKey P k = Ok d /\ ToString Hash d = Ok t /\ SetString Hash t 1 = Ok (true, d) /\ IsValid_secret P d = true /\ GetKey Check d = Ok k.
Proof.
  intros HHash (_ & _ & H3 & Hb & _) Hv Hl Hbk Hc. apply Forall_app in Hb as [_ Hb]. apply Forall_app in Hb as [_ Hb3].
  destruct k as [kd va co]. cbn [keydata fValid fCompressed] in *. subst va. unfold SetKey. cbn [cassert mbind result_bind fValid fCompressed keydata].
  eexists. assert (forall d, vchVersion d = SECRET_KEY P -> Forall is_byte (vchData d) -> exists t, ToString Hash d = Ok t /\ SetString Hash t 1 = Ok (true, d)) as Hts.
  { intros d Ev Hd. assert (Forall is_byte (vchVersion d ++ vchData d)) as Hbb by (rewrite Ev; by apply Forall_app).
    destruct (ToString_total Hash HHash d Hbb) as [t Ht]. exists t. split; [done|]. apply SetString_ToString; [done..|by rewrite Ev|done]. }
  edestruct Hts as (t & Ht & Hs); [| |exists t; split; [reflexivity|split; [exact Ht|split; [exact Hs|]]]]; destruct co; cbn [vchVersion vchData SetData].
  all: try done.
  - apply Forall_app. split; [done|]. repeat constructor; done.
  - unfold IsValid_secret, GetKey, CKey_Set. cbn [vchVersion vchData]. rewrite length_app, Hl. cbn [length Nat.add Nat.eqb Nat.leb cassert mbind result_bind Nat.ltb].
    rewrite lookup_app_r, Hl, !bool_decide_true, take_app_length', Hl by (done || lia). cbn. by rewrite Hc.
  - unfold IsValid_secret, GetKey, CKey_Set, SetData. cbn [vchVersion vchData]. rewrite Hl. cbn [Nat.eqb Nat.leb cassert mbind result_bind Nat.ltb orb andb].
    rewrite bool_decide_true, firstn_all2, Hl by (done || lia). cbn. by rewrite Hc.
Qed.
