(* ===== verification/Standard.v ===== *)
(** * Standard scripts
    (src/src/script/standard.cpp, CPubKey of src/src/pubkey.h)

    [Solver] recognises the standard output scripts by matching them against
    templates; destinations are read from scripts and written as scripts.  Script
    iterators are suffixes, as in Script.v. *)

From Stdlib Require Import ZArith Lia.
From stdpp Require Import base tactics numbers option list.
From S2P Require Import Prelude ArithUint256 Compact Block Serialize Transaction Script Interpreter SigHash Base58.

Open Scope Z_scope.

(** ** Templates *)

Abbreviation OP_SMALLINTEGER := 0xfa.
Abbreviation OP_PUBKEYS := 0xfb.
Abbreviation OP_PUBKEYHASH := 0xfd.
Abbreviation OP_PUBKEY := 0xfe.

Inductive txnouttype := TX_NONSTANDARD | TX_PUBKEY | TX_PUBKEYHASH | TX_SCRIPTHASH | TX_MULTISIG | TX_NULL_DATA.

#[global] Instance txnouttype_eq_dec : EqDecision txnouttype.
Proof. solve_decision. Defined.

(** In the order of the multimap. *)
Definition mTemplates : list (txnouttype * CScript) := [
  (TX_PUBKEY, [OP_PUBKEY; OP_CHECKSIG]);
  (TX_PUBKEYHASH, [OP_DUP; OP_HASH160; OP_PUBKEYHASH; OP_EQUALVERIFY; OP_CHECKSIG]);
  (TX_MULTISIG, [OP_SMALLINTEGER; OP_PUBKEYS; OP_SMALLINTEGER; OP_CHECKMULTISIG])].

(** [GetOp] with the values it leaves in [opcode] and [vch] when it fails. *)
Definition get_op (pc : list Z) : list Z * bool * Z * valtype :=
  match GetOp pc with
  | (pc, Some (opcode, vch)) => (pc, true, opcode, vch)
  | (pc, None) => (pc, false, OP_INVALIDOPCODE, [])
  end.

Definition key_size (vch : valtype) : bool := (33 <=? Z.of_nat (length vch)) && (Z.of_nat (length vch) <=? 65).

(** The loop over the keys of a multisig script. *)
Fixpoint pubkeys_loop (fuel : nat) (pc1 : list Z) (opcode1 : Z) (vch1 : valtype) (sols : list valtype) : list Z * Z * valtype * list valtype :=
  match fuel with
  | O => (pc1, opcode1, vch1, sols)
  | S fuel =>
      if key_size vch1 then
        let sols := sols ++ [vch1] in
        let '(pc1, ok, opcode1, vch1) := get_op pc1 in
        if ok then pubkeys_loop fuel pc1 opcode1 vch1 sols else (pc1, opcode1, vch1, sols)
      else (pc1, opcode1, vch1, sols)
  end.

(** The checks of a match: [m] of [n] with [n] keys. *)
Definition multisig_ok (sols : list valtype) : bool :=
  let m := default [] (head sols) !!! 0%nat in
  let n := default [] (last sols) !!! 0%nat in
  negb ((m <? 1) || (n <? 1) || (n <? m) || negb (Z.of_nat (length sols) - 2 =? n)).

(** The comparison with one template: [None] when it breaks off. *)
Fixpoint match_loop (fuel : nat) (type : txnouttype) (pc1 pc2 : list Z) (sols : list valtype) : option (bool * list valtype) :=
  match fuel with
  | O => None
  | S fuel =>
      match pc1, pc2 with
      | [], [] => Some (if bool_decide (type = TX_MULTISIG) then multisig_ok sols else true, sols)
      | _, _ =>
          let '(pc1, ok1, opcode1, vch1) := get_op pc1 in
          if negb ok1 then None else
          let '(pc2, ok2, opcode2, vch2) := get_op pc2 in
          if negb ok2 then None else
          let '(pc1, opcode1, vch1, sols, pc2, ok2, opcode2, vch2) :=
            (if opcode2 =? OP_PUBKEYS then
               let '(pc1, opcode1, vch1, sols) := pubkeys_loop (S (length pc1)) pc1 opcode1 vch1 sols in
               let '(pc2, ok2, opcode2, vch2) := get_op pc2 in
               (pc1, opcode1, vch1, sols, pc2, ok2, opcode2, vch2)
             else (pc1, opcode1, vch1, sols, pc2, true, opcode2, vch2)) in
          if negb ok2 then None
          else if opcode2 =? OP_PUBKEY then
            if key_size vch1 then match_loop fuel type pc1 pc2 (sols ++ [vch1]) else None
          else if opcode2 =? OP_PUBKEYHASH then
            if (length vch1 =? 20)%nat then match_loop fuel type pc1 pc2 (sols ++ [vch1]) else None
          else if opcode2 =? OP_SMALLINTEGER then
            if (opcode1 =? OP_0) || ((OP_1 <=? opcode1) && (opcode1 <=? OP_16))
            then match_loop fuel type pc1 pc2 (sols ++ [[DecodeOP_N opcode1]]) else None
          else if negb (opcode1 =? opcode2) || negb (bool_decide (vch1 = vch2)) then None
          else match_loop fuel type pc1 pc2 sols
      end
  end.

Fixpoint scan_templates (script : CScript) (templates : list (txnouttype * CScript)) : bool * txnouttype * list valtype :=
  match templates with
  | [] => (false, TX_NONSTANDARD, [])
  | (type, tplate) :: templates =>
      match match_loop (S (length script)) type script tplate [] with
      | Some (ok, sols) => (ok, type, sols)
      | None => scan_templates script templates
      end
  end.

(** [Solver]: its result, [typeRet] and [vSolutionsRet]. *)
Definition Solver (scriptPubKey : CScript) : bool * txnouttype * list valtype :=
  if IsPayToScriptHash scriptPubKey then (true, TX_SCRIPTHASH, [take 20 (drop 2 scriptPubKey)])
  else if (1 <=? length scriptPubKey)%nat && (scriptPubKey !!! 0%nat =? OP_RETURN) && IsPushOnly (drop 1 scriptPubKey)
  then (true, TX_NULL_DATA, [])
  else scan_templates scriptPubKey mTemplates.

(** ** Public keys *)

(** [CPubKey::GetLen] *)
Definition GetLen (chHeader : Z) : nat :=
  if (chHeader =? 2) || (chHeader =? 3) then 33%nat
  else if (chHeader =? 4) || (chHeader =? 6) || (chHeader =? 7) then 65%nat else 0%nat.

(** [CPubKey(vch)] and [IsValid]: the bytes of a key, or nothing. *)
Definition CPubKey_of (vch : valtype) : option valtype :=
  match vch with
  | [] => None
  | c :: _ => if negb (GetLen c =? 0)%nat && (GetLen c =? length vch)%nat then Some vch else None
  end.
Definition CPubKey_IsValid (vch : valtype) : bool := bool_decide (is_Some (CPubKey_of vch)).

(** ** Destinations *)

Section Destinations.
Context (Hash160 : list Z -> list Z).

Definition GetID (key : valtype) : CTxDestination := CKeyID (Hash160 key).

Definition ExtractDestination (scriptPubKey : CScript) : option CTxDestination :=
  let '(ok, whichType, vSolutions) := Solver scriptPubKey in
  if negb ok then None
  else match whichType with
       | TX_PUBKEY => GetID <$> CPubKey_of (vSolutions !!! 0%nat)
       | TX_PUBKEYHASH => Some (CKeyID (vSolutions !!! 0%nat))
       | TX_SCRIPTHASH => Some (CScriptID (vSolutions !!! 0%nat))
       | _ => None
       end.

(** [ExtractDestinations]: type, addresses and number of signatures. *)
Definition ExtractDestinations (scriptPubKey : CScript) : option (txnouttype * list CTxDestination * Z) :=
  let '(ok, typeRet, vSolutions) := Solver scriptPubKey in
  if negb ok then None
  else match typeRet with
       | TX_NULL_DATA => None
       | TX_MULTISIG =>
           let nRequiredRet := default [] (head vSolutions) !!! 0%nat in
           let addressRet := GetID <$> omap CPubKey_of (take (length vSolutions - 2) (drop 1 vSolutions)) in
           match addressRet with [] => None | _ => Some (typeRet, addressRet, nRequiredRet) end
       | _ => (fun address => (typeRet, [address], 1)) <$> ExtractDestination scriptPubKey
       end.
End Destinations.

(** [CScriptVisitor] *)
Definition GetScriptForDestination (dest : CTxDestination) : CScript :=
  match dest with
  | CNoDestination => []
  | CKeyID keyID => [OP_DUP; OP_HASH160] ++ push_data keyID ++ [OP_EQUALVERIFY; OP_CHECKSIG]
  | CScriptID scriptID => [OP_HASH160] ++ push_data scriptID ++ [OP_EQUAL]
  end.

(** [CScriptFutureVisitor] has no case for a script hash; it becomes a key hash. *)
Definition GetFutureScriptForDestination (dest : CTxDestination) (height : Z) : CScript :=
  match dest with
  | CNoDestination => []
  | CKeyID id | CScriptID id => push_int64 height ++ [OP_CHECKSEQUENCEVERIFY; OP_DROP] ++ push_data id ++ [OP_CHECKSIG]
  end.

Definition GetScriptForRawPubKey (pubKey : valtype) : CScript := push_data pubKey ++ [OP_CHECKSIG].

Definition GetScriptForMultisig (nRequired : Z) (keys : list valtype) : CScript :=
  [EncodeOP_N nRequired] ++ (keys ≫= push_data) ++ [EncodeOP_N (Z.of_nat (length keys)); OP_CHECKMULTISIG].

(** ** Lemmas: matching *)

Lemma GetOp_op op pc : OP_PUSHDATA4 < op -> GetOp (op :: pc) = (pc, Some (op, [])).
Proof. intros Hop. cbn [GetOp]. by rewrite (proj2 (Z.leb_gt _ _)). Qed.

Lemma get_op_op op pc : OP_PUSHDATA4 < op -> get_op (op :: pc) = (pc, true, op, []).
Proof. intros Hop. unfold get_op. by rewrite GetOp_op. Qed.

Lemma get_op_0 pc : get_op (OP_0 :: pc) = (pc, true, OP_0, []).
Proof. unfold get_op. cbn. by rewrite (proj2 (Z.ltb_ge _ _)) by lia. Qed.

Lemma get_op_push b pc : Z.of_nat (length b) < 2 ^ 32 -> get_op (push_data b ++ pc) = (pc, true, push_opcode b, b).
Proof. intros Hb. unfold get_op. by rewrite GetOp_push. Qed.

Lemma push_data_cons b pc : exists c l, push_data b ++ pc = c :: l.
Proof. unfold push_data. repeat case_match; eexists _, _; done. Qed.

Lemma small_op n : 0 <= n <= 16 -> forall pc, get_op (EncodeOP_N n :: pc) = (pc, true, EncodeOP_N n, []) /\ DecodeOP_N (EncodeOP_N n) = n /\
  ((EncodeOP_N n =? OP_0) || ((OP_1 <=? EncodeOP_N n) && (EncodeOP_N n <=? OP_16))) = true.
Proof.
  intros Hn pc. unfold EncodeOP_N, DecodeOP_N. destruct (Z.eqb_spec n 0) as [->|]; [by rewrite get_op_0|].
  rewrite get_op_op by lia. rewrite (proj2 (Z.eqb_neq _ OP_0)) by lia. split_and!; [done|lia|].
  rewrite (proj2 (Z.leb_le OP_1 _)), (proj2 (Z.leb_le _ OP_16)) by lia. done.
Qed.

(** One turn of the comparison on an instruction that both scripts have. *)
Lemma match_same fuel ty op pc1 pc2 sols : OP_PUSHDATA4 < op -> op <> OP_PUBKEYS -> op <> OP_PUBKEY -> op <> OP_PUBKEYHASH -> op <> OP_SMALLINTEGER ->
  match_loop (S fuel) ty (op :: pc1) (op :: pc2) sols = match_loop fuel ty pc1 pc2 sols.
Proof.
  intros Hop H1 H2 H3 H4. cbn [match_loop]. rewrite !get_op_op by done. cbn [negb].
  rewrite !(proj2 (Z.eqb_neq op _)) by done. cbn [negb]. by rewrite Z.eqb_refl, bool_decide_true.
Qed.

Lemma match_hash fuel ty h pc1 pc2 sols : length h = 20%nat ->
  match_loop (S fuel) ty (push_data h ++ pc1) (OP_PUBKEYHASH :: pc2) sols = match_loop fuel ty pc1 pc2 (sols ++ [h]).
Proof.
  intros Hl. cbn [match_loop]. destruct (push_data_cons h pc1) as (c & l & E). rewrite E. rewrite <- E.
  rewrite get_op_push, get_op_op by lia. cbn [negb Z.eqb Pos.eqb]. by rewrite Hl.
Qed.

Lemma key_size_true k : 33 <= Z.of_nat (length k) <= 65 -> key_size k = true.
Proof. intros Hk. unfold key_size. by rewrite (proj2 (Z.leb_le 33 _)), (proj2 (Z.leb_le _ 65)) by lia. Qed.

Lemma match_key fuel ty k pc1 pc2 sols : 33 <= Z.of_nat (length k) <= 65 ->
  match_loop (S fuel) ty (push_data k ++ pc1) (OP_PUBKEY :: pc2) sols = match_loop fuel ty pc1 pc2 (sols ++ [k]).
Proof.
  intros Hl. cbn [match_loop]. destruct (push_data_cons k pc1) as (c & l & E). rewrite E. rewrite <- E.
  rewrite get_op_push, get_op_op by lia. cbn [negb Z.eqb Pos.eqb]. by rewrite key_size_true.
Qed.

Lemma match_small fuel ty n pc1 pc2 sols : 0 <= n <= 16 ->
  match_loop (S fuel) ty (EncodeOP_N n :: pc1) (OP_SMALLINTEGER :: pc2) sols = match_loop fuel ty pc1 pc2 (sols ++ [[n]]).
Proof.
  intros Hn. destruct (small_op n Hn pc1) as (E1 & E2 & E3). cbn [match_loop]. rewrite E1, get_op_op by lia. cbn [negb Z.eqb Pos.eqb]. by rewrite E3, E2.
Qed.

(** The keys of a multisig script, followed by an instruction without data. *)
Lemma pubkeys_all keys k op rest sols fuel : Forall (fun k => 33 <= Z.of_nat (length k) <= 65) (k :: keys) ->
  get_op (op :: rest) = (rest, true, op, []) -> (length keys < fuel)%nat ->
  pubkeys_loop (S fuel) ((keys ≫= push_data) ++ op :: rest) (push_opcode k) k sols = (rest, op, [], sols ++ k :: keys).
Proof.
  revert k sols fuel. induction keys as [|k' keys IH]; intros k sols fuel Hk Ho Hf; apply Forall_cons in Hk as [Hk Hks].
  - cbn [mbind list_bind app]. cbn [pubkeys_loop]. rewrite (key_size_true k), Ho by done. destruct fuel; [lia|]. done.
  - change (pubkeys_loop (S fuel) ?a ?b k sols) with (if key_size k then let '(pc1, ok, opcode1, vch1) := get_op a in
      if ok then pubkeys_loop fuel pc1 opcode1 vch1 (sols ++ [k]) else (pc1, opcode1, vch1, sols ++ [k]) else (a, b, k, sols)).
    rewrite (key_size_true k) by done. rewrite bind_cons, <- app_assoc. pose proof (Forall_inv Hks) as Hk'. cbn beta in Hk'. cbn [length] in Hf.
    rewrite get_op_push by lia. destruct fuel as [|fuel]; [lia|]. rewrite IH by (done || lia). by rewrite <- app_assoc.
Qed.

(** Scripts that are neither script hashes nor data. *)
Lemma Solver_scan c s : IsPayToScriptHash (c :: s) = false -> c <> OP_RETURN -> Solver (c :: s) = scan_templates (c :: s) mTemplates.
Proof. intros Hp Hc. unfold Solver. rewrite Hp. cbn [length Nat.leb andb]. change ((c :: s) !!! 0%nat) with c. by rewrite (proj2 (Z.eqb_neq c _)). Qed.

Lemma not_p2sh c s : c <> OP_HASH160 -> IsPayToScriptHash (c :: s) = false.
Proof. intros Hc. unfold IsPayToScriptHash. change ((c :: s) !!! 0%nat) with c. rewrite (proj2 (Z.eqb_neq c _)) by done. by rewrite andb_false_r. Qed.

(** ** Lemmas: the standard scripts *)

(** A template that does not match is skipped. *)
Ltac no_match ty tac :=
  match goal with |- context [match_loop ?f ty ?a ?b ?c] => assert (match_loop f ty a b c = None) as -> by tac end.

Lemma Solver_p2pkh h : length h = 20%nat -> Solver (GetScriptForDestination (CKeyID h)) = (true, TX_PUBKEYHASH, [h]).
Proof.
  intros Hl. unfold GetScriptForDestination. cbn [app]. rewrite Solver_scan by (by apply not_p2sh || lia). unfold mTemplates. cbn [scan_templates].
  set (f := length _). assert (5 <= f)%nat as Hf by (unfold f, push_data; cbn [length]; rewrite !length_app, Hl; cbn [length]; lia).
  destruct f as [|[|[|[|[|f]]]]]; [lia..|].
  no_match TX_PUBKEY ltac:(done).
  rewrite !match_same, match_hash, !match_same by (done || lia). done.
Qed.

Lemma Solver_p2sh h : length h = 20%nat -> Solver (GetScriptForDestination (CScriptID h)) = (true, TX_SCRIPTHASH, [h]).
Proof.
  intros Hl. unfold GetScriptForDestination, push_data. rewrite Hl. do 20 (destruct h as [|? h]; [done|]). destruct h; [|done]. reflexivity.
Qed.

Lemma Solver_key k : 33 <= Z.of_nat (length k) <= 65 -> Solver (GetScriptForRawPubKey k) = (true, TX_PUBKEY, [k]).
Proof.
  intros Hl. unfold GetScriptForRawPubKey. assert (exists l, push_data k ++ [OP_CHECKSIG] = Z.of_nat (length k) :: l /\ (0 < length l)%nat) as (l & E & Hll).
  { unfold push_data. rewrite (proj2 (Z.ltb_lt _ _)) by lia. eexists; split; [done|]. rewrite !length_app. cbn. lia. }
  rewrite E, Solver_scan by (lia || (apply not_p2sh; lia)). unfold mTemplates. cbn [scan_templates length]. rewrite <- E.
  rewrite match_key by done. destruct (length l) as [|n]; [lia|]. rewrite match_same by (done || lia). by destruct n.
Qed.

Lemma keys_length (keys : list valtype) : (length keys <= length (keys ≫= push_data))%nat.
Proof.
  induction keys as [|x ks IH]; [done|]. rewrite bind_cons, length_app. destruct (push_data_cons x []) as (c & l & E).
  rewrite app_nil_r in E. rewrite E. cbn. lia.
Qed.

(** The turn that reads all the keys and the number behind them. *)
Lemma match_keys fuel ty k keys n rest pc2 sols : Forall (fun k => 33 <= Z.of_nat (length k) <= 65) (k :: keys) -> 0 <= n <= 16 ->
  match_loop (S fuel) ty (((k :: keys) ≫= push_data) ++ EncodeOP_N n :: rest) (OP_PUBKEYS :: OP_SMALLINTEGER :: pc2) sols =
  match_loop fuel ty rest pc2 ((sols ++ k :: keys) ++ [[n]]).
Proof.
  intros Hk Hn. destruct (small_op n Hn rest) as (E1 & E2 & E3). rewrite bind_cons, <- app_assoc. set (tail := (keys ≫= push_data) ++ _).
  cbn [match_loop]. destruct (push_data_cons k tail) as (c & l & E). rewrite E. rewrite <- E. clear E c l.
  pose proof (Forall_inv Hk) as Hk1. cbn beta in Hk1. rewrite get_op_push, !get_op_op by lia. cbn [negb Z.eqb Pos.eqb].
  unfold tail. rewrite pubkeys_all; [|done|done|]; cycle 1.
  { rewrite length_app. cbn [length]. pose proof (keys_length keys). lia. }
  cbn [negb Z.eqb Pos.eqb]. by rewrite E3, E2.
Qed.

(** [GetScriptForMultisig] *)
Lemma Solver_multisig m keys : 1 <= m <= Z.of_nat (length keys) -> Z.of_nat (length keys) <= 16 -> Forall (fun k => 33 <= Z.of_nat (length k) <= 65) keys ->
  Solver (GetScriptForMultisig m keys) = (true, TX_MULTISIG, [m] :: keys ++ [[Z.of_nat (length keys)]]).
Proof.
  intros Hm Hn Hk. unfold GetScriptForMultisig. cbn [app]. set (n := Z.of_nat (length keys)) in *. set (body := (keys ≫= push_data) ++ _).
  assert (EncodeOP_N m = 0x50 + m) as Em by (unfold EncodeOP_N; rewrite (proj2 (Z.eqb_neq m 0)); lia).
  rewrite Solver_scan by (lia || (apply not_p2sh; lia)). unfold mTemplates. cbn [scan_templates]. destruct (small_op m ltac:(lia) body) as (E1 & _ & _).
  no_match TX_PUBKEY ltac:(cbn [match_loop]; by rewrite E1).
  no_match TX_PUBKEYHASH ltac:(cbn [match_loop]; rewrite E1, get_op_op by lia; cbn [negb Z.eqb Pos.eqb]; by rewrite (proj2 (Z.eqb_neq (EncodeOP_N m) _)) by lia).
  rewrite match_small by lia. destruct keys as [|k keys]; [cbn in n; lia|]. set (f := length _).
  assert (3 <= f)%nat as Hf by (unfold f, body; cbn [length]; rewrite length_app; cbn [length]; lia). destruct f as [|[|[|f]]]; [lia..|].
  unfold body. rewrite match_keys, match_same by (done || lia). cbn [match_loop]. rewrite bool_decide_true by done.
  assert (n = Z.of_nat (S (length keys))) as En by done. clearbody n.
  unfold multisig_ok. rewrite last_snoc, length_app, length_app. cbn [app head default from_option id length]. unfold lookup_total. cbn [list_lookup_total].
  rewrite (proj2 (Z.ltb_ge m 1)), (proj2 (Z.ltb_ge n 1)), (proj2 (Z.ltb_ge n m)), (proj2 (Z.eqb_eq _ n)) by lia. done.
Qed.

(** ** Lemmas: evaluating a script with a time lock *)

Section Eval.
Context (C : ScriptCrypto) (chk : BaseSignatureChecker) (flags : Z).

(** What a turn of the interpreter did, outside of conditionals. *)
Lemma eval_step_inv op d pc st st' : vfExec st = [] -> eval_step C chk flags op d pc st = Success st' ->
  exists st1, stack st1 = stack st /\ vfExec st1 = [] /\
  (if (0 <=? op) && (op <=? OP_PUSHDATA4) then st' = set_stack (d :: stack st) st1
   else exec_op C chk flags op (has flags SCRIPT_VERIFY_MINIMALDATA) true pc st1 = Success st').
Proof.
  intros Hv. unfold eval_step. rewrite Hv. cbn [forallb andb orb]. set (st1 := if OP_16 <? op then _ else st).
  assert (stack st1 = stack st /\ vfExec st1 = []) as [Hs1 Hv1] by (unfold st1; by destruct (OP_16 <? op)). clearbody st1.
  intros H. exists st1. split_and!; [done..|]. destruct (_ <? _); [done|]. destruct (_ && _) in H; [done|]. destruct (disabled_opcode op); [done|].
  apply outcome_bind_inv in H as (st2 & H2 & H). destruct (_ <? _) in H; [done|]. injection H as <-.
  destruct ((0 <=? op) && (op <=? OP_PUSHDATA4)); [|done]. destruct (_ && _); [done|]. injection H2 as <-. by rewrite Hs1.
Qed.

(** The last two instructions, when the key on the stack verifies nothing. *)
Lemma eval_bad_key id st st' : 2 <= Z.of_nat (length id) <= 75 -> vfExec st = [] -> (forall sig code, CheckSig chk sig id code = false) ->
  eval_pc C chk flags (push_data id ++ [OP_CHECKSIG]) st = Success st' -> exists s, stack st' = vchFalse :: s.
Proof.
  intros Hid Hv Hsig H. rewrite (eval_pc_step _ _ _ _ [OP_CHECKSIG] (push_opcode id) id) in H by (apply GetOp_push; lia).
  apply outcome_bind_inv in H as (st1 & H1 & H). apply eval_step_inv in H1 as (st2 & Hs2 & Hv2 & H1); [|done].
  assert ((0 <=? push_opcode id) && (push_opcode id <=? OP_PUSHDATA4) = true) as Eop.
  { unfold push_opcode. cbn zeta. rewrite (proj2 (Z.ltb_lt _ _)) by lia. apply andb_true_iff. lia. }
  rewrite Eop in H1. subst st1. rewrite eval_pc_op in H by lia. apply outcome_bind_inv in H as (st3 & H3 & [= <-]).
  apply eval_step_inv in H3 as (st4 & Hs4 & Hv4 & H3); [|done]. cbn [Z.leb Z.compare Pos.compare Pos.compare_cont andb] in H3.
  change (exec_op C chk flags OP_CHECKSIG ?m true [] st4) with (s ← op_checksig C chk flags OP_CHECKSIG (pbegincodehash st4) (stack st4); Success (set_stack s st4)) in H3.
  apply outcome_bind_inv in H3 as (s & H3 & [= <-]). rewrite Hs4 in H3. cbn [stack set_stack] in H3 |- *. unfold op_checksig in H3.
  destruct (stack st) as [|sig s0]; [done|]. apply outcome_bind_inv in H3 as (? & _ & H3). apply outcome_bind_inv in H3 as (? & _ & H3).
  rewrite Hsig in H3. destruct (_ && _) in H3; [done|]. injection H3 as <-. by exists s0.
Qed.

(** The number in front is one instruction. *)
Lemma GetOp_int64 n rest : exists op d, GetOp (push_int64 n ++ rest) = (rest, Some (op, d)) /\
  ((0 <=? op) && (op <=? OP_PUSHDATA4) = true \/ op = OP_1NEGATE \/ OP_1 <= op <= OP_16).
Proof.
  unfold push_int64. destruct ((n =? -1) || _) eqn:E.
  - apply orb_true_iff in E. exists (n + (OP_1 - 1)), []. cbn [app]. split; [apply GetOp_op|]; lia.
  - destruct (n =? 0); [exists OP_0, []; split; [|by left]; by cbn; rewrite (proj2 (Z.ltb_ge _ _)) by lia|].
    pose proof (serialize_small n) as Hs. unfold small, MAX_SCRIPT_ELEMENT_SIZE in Hs.
    exists (push_opcode (CScriptNum.serialize n)), (CScriptNum.serialize n). split; [apply GetOp_push; lia|left].
    unfold push_opcode. cbn zeta. repeat case_match; lia.
Qed.

Lemma eval_future id height s0 s : 2 <= Z.of_nat (length id) <= 75 -> (forall sig code, CheckSig chk sig id code = false) ->
  EvalScript C s0 (GetFutureScriptForDestination (CKeyID id) height) flags chk = Success s -> exists s', s = vchFalse :: s'.
Proof.
  intros Hid Hsig. cbn [GetFutureScriptForDestination app]. unfold EvalScript. set (script := push_int64 height ++ _).
  destruct (_ <? _); [done|]. intros H. apply outcome_bind_inv in H as (st & H & H'). destruct (vfExec st); [|done]. injection H' as <-.
  change (eval_pc C chk flags script (mkEval s0 [] [] 0 script) = Success st) in H. set (st0 := mkEval s0 [] [] 0 script) in H.
  assert (vfExec st0 = []) as Hv0 by done. clearbody st0. unfold script in H.
  destruct (GetOp_int64 height (OP_CHECKSEQUENCEVERIFY :: OP_DROP :: push_data id ++ [OP_CHECKSIG])) as (op & d & Eg & Hop).
  rewrite (eval_pc_step _ _ _ _ _ _ _ _ Eg) in H. apply outcome_bind_inv in H as (st1 & H1 & H).
  assert (vfExec st1 = []) as Hv1.
  { apply eval_step_inv in H1 as (st' & _ & Hv' & H1); [|done]. destruct ((0 <=? op) && (op <=? OP_PUSHDATA4)) eqn:E; [by subst st1|].
    destruct Hop as [Hop|Hop]; [done|]. unfold exec_op in H1. cbv zeta in H1.
    assert ((op =? OP_1NEGATE) || (OP_1 <=? op) && (op <=? OP_16) = true) as E1 by (destruct Hop as [->|]; [done|]; apply orb_true_iff; right; lia).
    rewrite E1 in H1. by injection H1 as <-. }
  rewrite eval_pc_op in H by lia. apply outcome_bind_inv in H as (st2 & H2 & H). apply eval_step_inv in H2 as (st1' & _ & Hv1' & H2); [|done].
  change ((op_checksequence chk flags (has flags SCRIPT_VERIFY_MINIMALDATA) (stack st1') ;; Success st1') = Success st2) in H2.
  apply outcome_bind_inv in H2 as (_ & _ & [= <-]).
  rewrite eval_pc_op in H by lia. apply outcome_bind_inv in H as (st3 & H3 & H). apply eval_step_inv in H3 as (st2' & _ & Hv2' & H3); [|done].
  assert (vfExec st3 = []) as Hv3.
  { change ((s ← op_stack2 OP_DROP (has flags SCRIPT_VERIFY_MINIMALDATA) (stack st2'); Success (set_stack s st2')) = Success st3) in H3.
    apply outcome_bind_inv in H3 as (? & _ & [= <-]). done. }
  by apply (eval_bad_key id st3 st Hid Hv3 Hsig) in H.
Qed.
End Eval.

Lemma valid_key k : CPubKey_IsValid k = true -> 33 <= Z.of_nat (length k) <= 65 /\ CPubKey_of k = Some k.
Proof.
  unfold CPubKey_IsValid. intros [k' E]%bool_decide_eq_true. unfold CPubKey_of in *. destruct k as [|c k]; [done|].
  destruct (negb _ && _) eqn:Ec; [|done]. split; [|done]. apply andb_true_iff in Ec as [H0 Hl%Nat.eqb_eq]. rewrite <- Hl.
  unfold GetLen in *. destruct (_ || _); [lia|]. destruct (_ || _); [lia|done].
Qed.

Lemma short_key_invalid id : length id = 20%nat -> CPubKey_IsValid id = false.
Proof. intros Hl. destruct (CPubKey_IsValid id) eqn:E; [|done]. apply valid_key in E as [? _]. lia. Qed.

Lemma p2sh_shape h : length h = 20%nat -> IsPayToScriptHash (GetScriptForDestination (CScriptID h)) = true.
Proof. intros Hl. unfold GetScriptForDestination, push_data. rewrite Hl. do 20 (destruct h as [|? h]; [done|]). by destruct h. Qed.

(** The output script of a script hash compares the hash of the top element. *)
Lemma eval_p2sh C chk flags h top rest s : length h = 20%nat ->
  EvalScript C (top :: rest) (GetScriptForDestination (CScriptID h)) flags chk = Success s -> require_true s = Success tt -> HASH160 C top = h.
Proof.
  intros Hl. unfold GetScriptForDestination. cbn [app]. unfold EvalScript. set (script := OP_HASH160 :: _).
  destruct (_ <? _); [done|]. intros H Ht. apply outcome_bind_inv in H as (st & H & H'). destruct (vfExec st); [|done]. injection H' as <-.
  change (eval_pc C chk flags script (mkEval (top :: rest) [] [] 0 script) = Success st) in H. unfold script in H. rewrite eval_pc_op in H by lia.
  apply outcome_bind_inv in H as (st1 & H1 & H). apply eval_step_inv in H1 as (st1' & Hs1 & Hv1 & H1); [|done].
  change ((s ← op_hash C OP_HASH160 (stack st1'); Success (set_stack s st1')) = Success st1) in H1. rewrite Hs1 in H1. injection H1 as <-.
  rewrite (eval_pc_step _ _ _ _ [OP_EQUAL] (push_opcode h) h) in H by (apply GetOp_push; lia).
  apply outcome_bind_inv in H as (st2 & H2 & H). apply eval_step_inv in H2 as (st2' & Hs2 & Hv2 & H2); [|done].
  assert ((0 <=? push_opcode h) && (push_opcode h <=? OP_PUSHDATA4) = true) as E by (unfold push_opcode; by rewrite Hl).
  rewrite E in H2. subst st2. rewrite eval_pc_op in H by lia. apply outcome_bind_inv in H as (st3 & H3 & [= <-]).
  apply eval_step_inv in H3 as (st3' & Hs3 & Hv3 & H3); [|done].
  change ((s ← op_equal OP_EQUAL (stack st3'); Success (set_stack s st3')) = Success st3) in H3. rewrite Hs3 in H3.
  cbn [stack set_stack] in H3. injection H3 as <-. cbn [stack set_stack] in Ht. revert Ht.
  by case_bool_decide.
Qed.

(** ** Properties *)

(** C39: Destinations and scripts correspond.  The script of a key hash or a
    script hash is recognised as the destination it pays to, a public key script as
    the hash of the key, and an m-of-n script of up to sixteen keys as its keys and
    the number of signatures it requires. *)
Theorem standard_scripts (Hash160 : list Z -> list Z) (dest : CTxDestination) (key : valtype) (m : Z) (keys : list valtype) :
  dest_ok dest -> CPubKey_IsValid key = true -> 1 <= m <= Z.of_nat (length keys) -> Z.of_nat (length keys) <= 16 ->
  Forall (fun k => CPubKey_IsValid k = true) keys ->
  ExtractDestination Hash160 (GetScriptForDestination dest) = Some dest /\
  ExtractDestination Hash160 (GetScriptForRawPubKey key) = Some (GetID Hash160 key) /\
  ExtractDestinations Hash160 (GetScriptForMultisig m keys) = Some (TX_MULTISIG, GetID Hash160 <$> keys, m).
Proof.
  intros Hd Hkey Hm Hn Hk. split_and!.
  - unfold ExtractDestination. destruct dest as [|id|id]; [done|..]; destruct Hd as [Hl _]; [by rewrite Solver_p2pkh|by rewrite Solver_p2sh].
  - unfold ExtractDestination. destruct (valid_key key Hkey) as [Hl E]. rewrite Solver_key by done. cbn [negb]. change ([key] !!! 0%nat) with key. by rewrite E.
  - unfold ExtractDestinations. rewrite Solver_multisig; [|done..|].
    2: { eapply Forall_impl; [exact Hk|]. intros k Hv. by apply valid_key. }
    cbn [negb]. change (drop 1 ([m] :: ?x)) with x. cbn [head default from_option id length]. rewrite length_app. cbn [length].
    replace (S (length keys + 1) - 2)%nat with (length keys) by lia. rewrite take_app_length.
    assert (omap CPubKey_of keys = keys) as ->.
    { clear -Hk. induction Hk as [|k keys Hv Hk IH]; [done|]. cbn. destruct (valid_key k Hv) as [_ ->]. by rewrite IH. }
    destruct keys; [cbn in Hm; lia|done].
Qed.

(** C40: A payment to a future block can never be spent.  [createrawtransaction]
    pays an output with a [future_block] to the hash of the script that
    [GetFutureScriptForDestination] returns.  That script pushes the hash of the key
    where [OP_CHECKSIG] expects the key, and twenty bytes are never a valid public
    key; so no [scriptSig], with any flags that enforce script hashes, satisfies the
    output, unless another script has the same hash. *)
Theorem future_payment_unspendable (C : ScriptCrypto) (Hash : list Z -> uint256) (verify : valtype -> uint256 -> valtype -> bool)
    (txTo : CTransaction) (nIn : nat) (id : list Z) (height : Z) (scriptSig : CScript) (flags : Z) :
  let redeem := GetFutureScriptForDestination (CKeyID id) height in
  let chk := TransactionSignatureChecker Hash (mkPubKeys CPubKey_IsValid verify) txTo nIn in
  length id = 20%nat -> has flags SCRIPT_VERIFY_P2SH = true ->
  (forall x, length (HASH160 C x) = 20%nat) -> (forall x, HASH160 C x = HASH160 C redeem -> x = redeem) ->
  VerifyScript C scriptSig (GetScriptForDestination (CScriptID (HASH160 C redeem))) flags chk <> Success tt.
Proof.
  intros redeem chk Hid Hp2sh H20 Hcol H. unfold VerifyScript in H. destruct (_ && _) in H; [done|].
  apply outcome_bind_inv in H as (stackCopy & _ & H). apply outcome_bind_inv in H as (s & Hs & H). apply outcome_bind_inv in H as ([] & Ht & H).
  rewrite Hp2sh, p2sh_shape in H by done. cbn [andb] in H. apply outcome_bind_inv in H as (s2 & H2 & _). destruct (negb _) in H2; [done|].
  destruct stackCopy as [|top rest]; [done|]. apply outcome_bind_inv in H2 as (s3 & H3 & H2). apply outcome_bind_inv in H2 as ([] & Ht3 & _).
  apply eval_p2sh in Hs as E; [|done|done]. apply Hcol in E. subst top.
  apply eval_future in H3 as [s' ->]; [done|lia|]. intros sig code. cbn [CheckSig chk TransactionSignatureChecker]. unfold tx_CheckSig. cbn [pk_IsValid].
  by rewrite short_key_invalid.
Qed.

Lemma standard_scripts_witness :
  ExtractDestination (fun x => take 20 x) (GetScriptForDestination (CScriptID (replicate 20 7))) = Some (CScriptID (replicate 20 7)) /\
  ExtractDestinations (fun x => take 20 x) (GetScriptForMultisig 1 [2 :: replicate 32 5; 3 :: replicate 32 6]) =
    Some (TX_MULTISIG, [CKeyID (2 :: replicate 19 5); CKeyID (3 :: replicate 19 6)], 1).
Proof.
  destruct (standard_scripts (fun x => take 20 x) (CScriptID (replicate 20 7)) (2 :: replicate 32 5) 1 [2 :: replicate 32 5; 3 :: replicate 32 6])
    as (E1 & _ & E2); [split; [done|repeat constructor; done]|done|cbn; lia|cbn; lia|repeat constructor; done|].
  split; [exact E1|exact E2].
Defined.

(** A toy hash that tells the redeem script from all others. *)
Definition toy_hash160 (redeem x : valtype) : valtype := if bool_decide (x = redeem) then replicate 20 1 else replicate 20 2.

Lemma future_payment_unspendable_witness :
  let redeem := GetFutureScriptForDestination (CKeyID (replicate 20 9)) 500 in
  VerifyScript (mkCrypto id id id (toy_hash160 redeem) id (fun _ => true)) (push_data [1; 2; 3] ++ push_data redeem)
    (GetScriptForDestination (CScriptID (replicate 20 1))) 1
    (TransactionSignatureChecker (fun _ => replicate 32 0) (mkPubKeys CPubKey_IsValid (fun _ _ _ => true)) (mkTx 1 0 [] [] 0 []) 0) <> Success tt.
Proof.
  intros redeem. apply (future_payment_unspendable (mkCrypto id id id (toy_hash160 redeem) id (fun _ => true)) (fun _ => replicate 32 0) (fun _ _ _ => true)
    (mkTx 1 0 [] [] 0 []) 0 (replicate 20 9) 500 (push_data [1; 2; 3] ++ push_data redeem) 1).
  - reflexivity.
  - reflexivity.
  - intros x. cbn. unfold toy_hash160. by case_bool_decide.
  - intros x. cbn [HASH160]. unfold toy_hash160. fold redeem. rewrite (bool_decide_true (redeem = redeem)) by done.
    case_bool_decide; [done|]. intros E. discriminate E.
Defined.
