(* ===== verification/ProTx.v ===== *)
(** * Provider transactions
    (src/src/evo/providertx.h, GetTxPayload and SetTxPayload of src/src/evo/specialtx.h)

    The payloads of the four special transactions that register, update and revoke a
    smartnode, with their serialization.  A network address is its sixteen bytes and
    the port in network order; a BLS key or signature is its bytes, all zero for an
    object that is not valid, and which bytes are valid is a parameter. *)

From Stdlib Require Import ZArith Lia.
From stdpp Require Import base tactics numbers option list.
From S2P Require Import Prelude ArithUint256 Compact Block Serialize Transaction.

Open Scope Z_scope.

Record BLS := mkBLS {
  bls_key : list Z -> bool;      (* 48 bytes that are the encoding of a public key *)
  bls_sig : list Z -> bool;      (* 96 bytes that are the encoding of a signature *)
  bls_verify : list Z -> uint256 -> list Z -> bool
}.

Definition CService_null : list Z := replicate 18 0.
Definition CKeyID_null : list Z := replicate 20 0.
Definition bls_key_null : list Z := replicate 48 0.
Definition COutPoint_null : COutPoint := mkOutPoint uint256_null (u32 (-1)).

Record CProRegTx := mkProReg {
  reg_nVersion : Z; reg_nType : Z; reg_nMode : Z;
  reg_collateralOutpoint : COutPoint;
  reg_addr : list Z; reg_keyIDOwner : list Z; reg_pubKeyOperator : list Z; reg_keyIDVoting : list Z;
  reg_nOperatorReward : Z; reg_scriptPayout : CScript; reg_inputsHash : uint256; reg_vchSig : list Z
}.
Record CProUpServTx := mkProUpServ {
  serv_nVersion : Z; serv_proTxHash : uint256; serv_addr : list Z; serv_scriptOperatorPayout : CScript;
  serv_inputsHash : uint256; serv_sig : list Z
}.
Record CProUpRegTx := mkProUpReg {
  upreg_nVersion : Z; upreg_proTxHash : uint256; upreg_nMode : Z; upreg_pubKeyOperator : list Z; upreg_keyIDVoting : list Z;
  upreg_scriptPayout : CScript; upreg_inputsHash : uint256; upreg_vchSig : list Z
}.
Record CProUpRevTx := mkProUpRev {
  rev_nVersion : Z; rev_proTxHash : uint256; rev_nReason : Z; rev_inputsHash : uint256; rev_sig : list Z
}.
Definition REASON_NOT_SPECIFIED : Z := 0.
Definition REASON_LAST : Z := 3.

(** ** Serialization *)

(** [CBLSWrapper::Unserialize]: what is not the encoding of an object throws. *)
Definition unser_bls (n : nat) (valid : list Z -> bool) (s : list Z) : result (list Z * list Z) :=
  '(b, s) ← read_bytes n s;
  if bool_decide (b = replicate n 0) || valid b then Ok (b, s) else Err IosFailure.

(** [forHash]: a stream of type [SER_GETHASH] leaves the signature out. *)
Definition ser_ProReg (forHash : bool) (p : CProRegTx) : list Z :=
  ser_writedata16 (reg_nVersion p) ++ ser_writedata16 (reg_nType p) ++ ser_writedata16 (reg_nMode p) ++
  ser (reg_collateralOutpoint p) ++ reg_addr p ++ reg_keyIDOwner p ++ reg_pubKeyOperator p ++ reg_keyIDVoting p ++
  ser_writedata16 (reg_nOperatorReward p) ++ ser_byte_vector (reg_scriptPayout p) ++ reg_inputsHash p ++
  (if forHash then [] else ser_byte_vector (reg_vchSig p)).
Definition unser_ProReg (B : BLS) (s : list Z) : result (CProRegTx * list Z) :=
  '(v, s) ← ser_readdata16 s; '(t, s) ← ser_readdata16 s; '(m, s) ← ser_readdata16 s;
  '(o, s) ← unser s; '(a, s) ← read_bytes 18 s; '(ko, s) ← read_bytes 20 s; '(op, s) ← unser_bls 48 (bls_key B) s;
  '(kv, s) ← read_bytes 20 s; '(r, s) ← ser_readdata16 s; '(sc, s) ← unser_byte_vector s; '(ih, s) ← read_uint256 s;
  '(sg, s) ← unser_byte_vector s;
  Ok (mkProReg v t m o a ko op kv r sc ih sg, s).

Definition ser_ProUpServ (forHash : bool) (p : CProUpServTx) : list Z :=
  ser_writedata16 (serv_nVersion p) ++ serv_proTxHash p ++ serv_addr p ++ ser_byte_vector (serv_scriptOperatorPayout p) ++
  serv_inputsHash p ++ (if forHash then [] else serv_sig p).
Definition unser_ProUpServ (B : BLS) (s : list Z) : result (CProUpServTx * list Z) :=
  '(v, s) ← ser_readdata16 s; '(h, s) ← read_uint256 s; '(a, s) ← read_bytes 18 s; '(sc, s) ← unser_byte_vector s;
  '(ih, s) ← read_uint256 s; '(sg, s) ← unser_bls 96 (bls_sig B) s;
  Ok (mkProUpServ v h a sc ih sg, s).

Definition ser_ProUpReg (forHash : bool) (p : CProUpRegTx) : list Z :=
  ser_writedata16 (upreg_nVersion p) ++ upreg_proTxHash p ++ ser_writedata16 (upreg_nMode p) ++ upreg_pubKeyOperator p ++ upreg_keyIDVoting p ++
  ser_byte_vector (upreg_scriptPayout p) ++ upreg_inputsHash p ++ (if forHash then [] else ser_byte_vector (upreg_vchSig p)).
Definition unser_ProUpReg (B : BLS) (s : list Z) : result (CProUpRegTx * list Z) :=
  '(v, s) ← ser_readdata16 s; '(h, s) ← read_uint256 s; '(m, s) ← ser_readdata16 s; '(op, s) ← unser_bls 48 (bls_key B) s;
  '(kv, s) ← read_bytes 20 s; '(sc, s) ← unser_byte_vector s; '(ih, s) ← read_uint256 s; '(sg, s) ← unser_byte_vector s;
  Ok (mkProUpReg v h m op kv sc ih sg, s).

Definition ser_ProUpRev (forHash : bool) (p : CProUpRevTx) : list Z :=
  ser_writedata16 (rev_nVersion p) ++ rev_proTxHash p ++ ser_writedata16 (rev_nReason p) ++ rev_inputsHash p ++ (if forHash then [] else rev_sig p).
Definition unser_ProUpRev (B : BLS) (s : list Z) : result (CProUpRevTx * list Z) :=
  '(v, s) ← ser_readdata16 s; '(h, s) ← read_uint256 s; '(r, s) ← ser_readdata16 s; '(ih, s) ← read_uint256 s; '(sg, s) ← unser_bls 96 (bls_sig B) s;
  Ok (mkProUpRev v h r ih sg, s).

(** [GetTxPayload]: an exception or bytes left over give [false]. *)
Definition GetTxPayload {A} (read : list Z -> result (A * list Z)) (payload : list Z) : option A :=
  match read payload with
  | Ok (obj, []) => Some obj
  | _ => None
  end.

(** ** Round trips *)

Definition bls_ok (n : nat) (valid : list Z -> bool) (b : list Z) : Prop := length b = n /\ (b = replicate n 0 \/ valid b = true).

Definition ProReg_ok (B : BLS) (p : CProRegTx) : Prop :=
  0 <= reg_nVersion p < 2 ^ 16 /\ 0 <= reg_nType p < 2 ^ 16 /\ 0 <= reg_nMode p < 2 ^ 16 /\ outpoint_ok (reg_collateralOutpoint p) /\
  length (reg_addr p) = 18%nat /\ length (reg_keyIDOwner p) = 20%nat /\ bls_ok 48 (bls_key B) (reg_pubKeyOperator p) /\
  length (reg_keyIDVoting p) = 20%nat /\ 0 <= reg_nOperatorReward p < 2 ^ 16 /\ byte_vector_ok (reg_scriptPayout p) /\
  uint256_ok (reg_inputsHash p) /\ byte_vector_ok (reg_vchSig p).
Definition ProUpServ_ok (B : BLS) (p : CProUpServTx) : Prop :=
  0 <= serv_nVersion p < 2 ^ 16 /\ uint256_ok (serv_proTxHash p) /\ length (serv_addr p) = 18%nat /\ byte_vector_ok (serv_scriptOperatorPayout p) /\
  uint256_ok (serv_inputsHash p) /\ bls_ok 96 (bls_sig B) (serv_sig p).
Definition ProUpReg_ok (B : BLS) (p : CProUpRegTx) : Prop :=
  0 <= upreg_nVersion p < 2 ^ 16 /\ uint256_ok (upreg_proTxHash p) /\ 0 <= upreg_nMode p < 2 ^ 16 /\ bls_ok 48 (bls_key B) (upreg_pubKeyOperator p) /\
  length (upreg_keyIDVoting p) = 20%nat /\ byte_vector_ok (upreg_scriptPayout p) /\ uint256_ok (upreg_inputsHash p) /\ byte_vector_ok (upreg_vchSig p).
Definition ProUpRev_ok (B : BLS) (p : CProUpRevTx) : Prop :=
  0 <= rev_nVersion p < 2 ^ 16 /\ uint256_ok (rev_proTxHash p) /\ 0 <= rev_nReason p < 2 ^ 16 /\ uint256_ok (rev_inputsHash p) /\ bls_ok 96 (bls_sig B) (rev_sig p).

Lemma unser_bls_app n valid b s : bls_ok n valid b -> unser_bls n valid (b ++ s) = Ok (b, s).
Proof.
  intros [Hl Hv]. unfold unser_bls. rewrite read_bytes_app by done. cbn [mbind result_bind].
  destruct Hv as [->| ->]; [by rewrite bool_decide_true|by rewrite orb_true_r].
Qed.

Lemma readdata16_app v s : 0 <= v < 2 ^ 16 -> ser_readdata16 (ser_writedata16 v ++ s) = Ok (v, s).
Proof. intros Hv. by apply read_le_bytes. Qed.

(** Reads back the field in front of the stream. *)
Ltac read_field :=
  first [rewrite readdata16_app by done | rewrite unser_ser by done | rewrite unser_bls_app by done | rewrite read_uint256_app by done
        | rewrite unser_byte_vector_ser by done | rewrite read_bytes_app by done]; cbn [mbind result_bind].

(** The payload of a provider transaction survives the trip through the
    transaction.  What [SetTxPayload] writes for a registration, an update of the
    service or of the registrar, or a revocation, [GetTxPayload] reads back as the
    same payload, provided the BLS library accepts the encoding of its keys. *)
Theorem protx_payload_roundtrip (B : BLS) (p : CProRegTx) (q : CProUpServTx) (r : CProUpRegTx) (t : CProUpRevTx) :
  ProReg_ok B p -> ProUpServ_ok B q -> ProUpReg_ok B r -> ProUpRev_ok B t ->
  GetTxPayload (unser_ProReg B) (ser_ProReg false p) = Some p /\ GetTxPayload (unser_ProUpServ B) (ser_ProUpServ false q) = Some q /\
  GetTxPayload (unser_ProUpReg B) (ser_ProUpReg false r) = Some r /\ GetTxPayload (unser_ProUpRev B) (ser_ProUpRev false t) = Some t.
Proof.
  intros Hp Hq Hr Ht. unfold GetTxPayload. split_and!.
  - unfold ProReg_ok in Hp. destruct_and! Hp. unfold unser_ProReg, ser_ProReg. rewrite <- (app_nil_r (ser_byte_vector (reg_vchSig p))), <- ?app_assoc.
    repeat read_field. by destruct p.
  - unfold ProUpServ_ok in Hq. destruct_and! Hq. unfold unser_ProUpServ, ser_ProUpServ. rewrite <- (app_nil_r (serv_sig q)), <- ?app_assoc.
    repeat read_field. by destruct q.
  - unfold ProUpReg_ok in Hr. destruct_and! Hr. unfold unser_ProUpReg, ser_ProUpReg. rewrite <- (app_nil_r (ser_byte_vector (upreg_vchSig r))), <- ?app_assoc.
    repeat read_field. by destruct r.
  - unfold ProUpRev_ok in Ht. destruct_and! Ht. unfold unser_ProUpRev, ser_ProUpRev. rewrite <- (app_nil_r (rev_sig t)), <- ?app_assoc.
    repeat read_field. by destruct t.
Qed.

(** A library that accepts the keys and signatures that start with 1. *)
Definition toy_bls : BLS := mkBLS (fun b => match b with 1 :: _ => true | _ => false end) (fun b => match b with 1 :: _ => true | _ => false end) (fun _ _ _ => true).

Lemma protx_payload_roundtrip_witness :
  GetTxPayload (unser_ProUpRev toy_bls) (ser_ProUpRev false (mkProUpRev 1 (replicate 32 7) 2 (replicate 32 8) (1 :: replicate 95 0))) =
  Some (mkProUpRev 1 (replicate 32 7) 2 (replicate 32 8) (1 :: replicate 95 0)).
Proof.
  assert (forall n x, 0 <= x < 256 -> Forall is_byte (replicate n x)) as Hb by (intros n x Hx; by apply Forall_replicate).
  assert (forall x, 0 <= x < 256 -> uint256_ok (replicate 32 x)) as Hu by (intros x Hx; split; [done|by apply Hb]).
  assert (byte_vector_ok []) as Hv by (split; [constructor|done]).
  apply (protx_payload_roundtrip toy_bls (mkProReg 1 0 0 (mkOutPoint (replicate 32 1) 0) (replicate 18 1) (replicate 20 1) (replicate 48 0) (replicate 20 2) 0 [] (replicate 32 3) [])
    (mkProUpServ 1 (replicate 32 7) (replicate 18 1) [] (replicate 32 3) (replicate 96 0))
    (mkProUpReg 1 (replicate 32 7) 0 (replicate 48 0) (replicate 20 2) [] (replicate 32 3) [])).
  - unfold ProReg_ok. cbn [reg_nVersion reg_nType reg_nMode reg_collateralOutpoint reg_addr reg_keyIDOwner reg_pubKeyOperator reg_keyIDVoting
      reg_nOperatorReward reg_scriptPayout reg_inputsHash reg_vchSig]. split_and!; try lia; try done; try (apply Hu; lia); [split; [apply Hu|]; done|split; [done|by left]].
  - unfold ProUpServ_ok. cbn [serv_nVersion serv_proTxHash serv_addr serv_scriptOperatorPayout serv_inputsHash serv_sig].
    split_and!; try lia; try done; try (apply Hu; lia). split; [done|by left].
  - unfold ProUpReg_ok. cbn [upreg_nVersion upreg_proTxHash upreg_nMode upreg_pubKeyOperator upreg_keyIDVoting upreg_scriptPayout upreg_inputsHash upreg_vchSig].
    split_and!; try lia; try done; try (apply Hu; lia). split; [done|by left].
  - unfold ProUpRev_ok. cbn [rev_nVersion rev_proTxHash rev_nReason rev_inputsHash rev_sig]. split_and!; try lia; try (apply Hu; lia). split; [done|by right].
Defined.
