(* ===== verification/Smartnodes.v ===== *)
(** * The deterministic smartnode list
    (CDeterministicMNState, CDeterministicMN and CDeterministicMNList of
    src/src/evo/deterministicmns.{h,cpp})

    A list holds the registered smartnodes by the hash of their registration, an
    index by internal id, and a map of the properties that no two smartnodes may
    share, with the number of times its owner uses each.  The operations assert that
    the three maps agree; [wf] is that agreement, and the lemmas show when the
    assertions hold.  Shared pointers to immutable objects are the objects. *)

From Stdlib Require Import ZArith Lia.
From stdpp Require Import base tactics numbers option list gmap sorting.
From S2P Require Import Prelude ArithUint256 Compact Block Serialize Transaction ProTx.

Open Scope Z_scope.

(** ** Generic lemmas *)

Lemma result_bind_ext {A C} (r : result A) (f g : A -> result C) : (forall a, f a = g a) -> (r ≫= f) = (r ≫= g).
Proof. intros H. destruct r; [apply H|done]. Qed.

Lemma result_bind_assoc {A C D} (r : result A) (f : A -> result C) (g : C -> result D) : ((r ≫= f) ≫= g) = (r ≫= fun a => f a ≫= g).
Proof. by destruct r. Qed.

Lemma result_bind_ret {A} (r : result A) : (r ≫= fun a => Ok a) = r.
Proof. by destruct r. Qed.

(** ** State *)

Record CDeterministicMNState := mkState {
  nRegisteredHeight : Z; nLastPaidHeight : Z; nPoSePenalty : Z; nPoSeRevivedHeight : Z; nPoSeBanHeight : Z;
  nRevocationReason : Z;
  confirmedHash : uint256; confirmedHashWithProRegTxHash : uint256;
  keyIDOwner : list Z; pubKeyOperator : list Z; keyIDVoting : list Z; addr : list Z;
  scriptPayout : CScript; scriptOperatorPayout : CScript
}.

#[global] Instance CDeterministicMNState_eq_dec : EqDecision CDeterministicMNState.
Proof. solve_decision. Defined.

(** [CDeterministicMNState()] *)
Definition state_default : CDeterministicMNState :=
  mkState (-1) 0 0 (-1) (-1) REASON_NOT_SPECIFIED uint256_null uint256_null CKeyID_null bls_key_null CKeyID_null CService_null [] [].

(** [CDeterministicMNState(const CProRegTx&)] *)
Definition state_of_ProReg (p : CProRegTx) : CDeterministicMNState :=
  mkState (-1) 0 0 (-1) (-1) REASON_NOT_SPECIFIED uint256_null uint256_null
    (reg_keyIDOwner p) (reg_pubKeyOperator p) (reg_keyIDVoting p) (reg_addr p) (reg_scriptPayout p) [].

Definition set_heights (s : CDeterministicMNState) (registered lastPaid penalty revived ban : Z) : CDeterministicMNState :=
  mkState registered lastPaid penalty revived ban (nRevocationReason s) (confirmedHash s) (confirmedHashWithProRegTxHash s)
    (keyIDOwner s) (pubKeyOperator s) (keyIDVoting s) (addr s) (scriptPayout s) (scriptOperatorPayout s).
Definition set_LastPaid (s : CDeterministicMNState) (h : Z) : CDeterministicMNState :=
  set_heights s (nRegisteredHeight s) h (nPoSePenalty s) (nPoSeRevivedHeight s) (nPoSeBanHeight s).
Definition set_penalty (s : CDeterministicMNState) (penalty ban : Z) : CDeterministicMNState :=
  set_heights s (nRegisteredHeight s) (nLastPaidHeight s) penalty (nPoSeRevivedHeight s) ban.
Definition set_service (s : CDeterministicMNState) (a : list Z) (payout : CScript) : CDeterministicMNState :=
  mkState (nRegisteredHeight s) (nLastPaidHeight s) (nPoSePenalty s) (nPoSeRevivedHeight s) (nPoSeBanHeight s) (nRevocationReason s)
    (confirmedHash s) (confirmedHashWithProRegTxHash s) (keyIDOwner s) (pubKeyOperator s) (keyIDVoting s) a (scriptPayout s) payout.
Definition set_registrar (s : CDeterministicMNState) (operator voting : list Z) (payout : CScript) : CDeterministicMNState :=
  mkState (nRegisteredHeight s) (nLastPaidHeight s) (nPoSePenalty s) (nPoSeRevivedHeight s) (nPoSeBanHeight s) (nRevocationReason s)
    (confirmedHash s) (confirmedHashWithProRegTxHash s) (keyIDOwner s) operator voting (addr s) payout (scriptOperatorPayout s).
Definition set_reason (s : CDeterministicMNState) (reason : Z) : CDeterministicMNState :=
  mkState (nRegisteredHeight s) (nLastPaidHeight s) (nPoSePenalty s) (nPoSeRevivedHeight s) (nPoSeBanHeight s) reason
    (confirmedHash s) (confirmedHashWithProRegTxHash s) (keyIDOwner s) (pubKeyOperator s) (keyIDVoting s) (addr s) (scriptPayout s) (scriptOperatorPayout s).

Definition ResetOperatorFields (s : CDeterministicMNState) : CDeterministicMNState :=
  set_reason (set_registrar (set_service s CService_null []) bls_key_null (keyIDVoting s) (scriptPayout s)) REASON_NOT_SPECIFIED.
Definition BanIfNotBanned (s : CDeterministicMNState) (height : Z) : CDeterministicMNState :=
  if nPoSeBanHeight s =? -1 then set_penalty s (nPoSePenalty s) height else s.

(** [UpdateConfirmedHash]; [SHA256] hashes the two hashes one after the other. *)
Definition UpdateConfirmedHash (SHA256 : list Z -> uint256) (s : CDeterministicMNState) (_proTxHash _confirmedHash : uint256) : CDeterministicMNState :=
  mkState (nRegisteredHeight s) (nLastPaidHeight s) (nPoSePenalty s) (nPoSeRevivedHeight s) (nPoSeBanHeight s) (nRevocationReason s)
    _confirmedHash (SHA256 (_proTxHash ++ _confirmedHash)) (keyIDOwner s) (pubKeyOperator s) (keyIDVoting s) (addr s) (scriptPayout s) (scriptOperatorPayout s).

(** ** Smartnodes and lists *)

Record CDeterministicMN := mkMN {
  proTxHash : uint256; internalId : Z; collateralOutpoint : COutPoint; nOperatorReward : Z; pdmnState : CDeterministicMNState
}.

#[global] Instance CDeterministicMN_eq_dec : EqDecision CDeterministicMN.
Proof. solve_decision. Defined.

Definition with_state (d : CDeterministicMN) (s : CDeterministicMNState) : CDeterministicMN :=
  mkMN (proTxHash d) (internalId d) (collateralOutpoint d) (nOperatorReward d) s.

Record CDeterministicMNList := mkMNList {
  l_blockHash : uint256; l_nHeight : Z; nTotalRegisteredCount : Z;
  mnMap : gmap (list Z) CDeterministicMN;
  mnInternalIdMap : gmap Z (list Z);
  mnUniquePropertyMap : gmap (list Z) (list Z * Z)
}.

(** [CDeterministicMNList()] and the constructor with a block. *)
Definition list_new (blockHash : uint256) (height total : Z) : CDeterministicMNList := mkMNList blockHash height total ∅ ∅ ∅.

Definition SetBlockHash (l : CDeterministicMNList) (h : uint256) : CDeterministicMNList :=
  mkMNList h (l_nHeight l) (nTotalRegisteredCount l) (mnMap l) (mnInternalIdMap l) (mnUniquePropertyMap l).
Definition SetHeight (l : CDeterministicMNList) (h : Z) : CDeterministicMNList :=
  mkMNList (l_blockHash l) h (nTotalRegisteredCount l) (mnMap l) (mnInternalIdMap l) (mnUniquePropertyMap l).
Definition SetTotalRegisteredCount (l : CDeterministicMNList) (n : Z) : CDeterministicMNList :=
  mkMNList (l_blockHash l) (l_nHeight l) n (mnMap l) (mnInternalIdMap l) (mnUniquePropertyMap l).
Definition set_mnMap (l : CDeterministicMNList) (m : gmap (list Z) CDeterministicMN) : CDeterministicMNList :=
  mkMNList (l_blockHash l) (l_nHeight l) (nTotalRegisteredCount l) m (mnInternalIdMap l) (mnUniquePropertyMap l).
Definition set_ids (l : CDeterministicMNList) (m : gmap Z (list Z)) : CDeterministicMNList :=
  mkMNList (l_blockHash l) (l_nHeight l) (nTotalRegisteredCount l) (mnMap l) m (mnUniquePropertyMap l).
Definition set_unique (l : CDeterministicMNList) (m : gmap (list Z) (list Z * Z)) : CDeterministicMNList :=
  mkMNList (l_blockHash l) (l_nHeight l) (nTotalRegisteredCount l) (mnMap l) (mnInternalIdMap l) m.

Definition GetAllMNsCount (l : CDeterministicMNList) : Z := Z.of_nat (size (mnMap l)).
Definition GetMN (l : CDeterministicMNList) (h : uint256) : option CDeterministicMN := mnMap l !! h.
Definition HasMN (l : CDeterministicMNList) (h : uint256) : bool := bool_decide (is_Some (GetMN l h)).
Definition GetMNByInternalId (l : CDeterministicMNList) (id : Z) : option CDeterministicMN := h ← mnInternalIdMap l !! id; GetMN l h.
Definition IsMNPoSeBanned (d : CDeterministicMN) : bool := negb (nPoSeBanHeight (pdmnState d) =? -1).

(** ** Unique properties *)

Section List.
(** The hash of a serialized value, and the BLS library. *)
Context (SerializeHash : list Z -> uint256) (B : BLS).

Definition HasUniqueProperty (l : CDeterministicMNList) (v : list Z) : bool := bool_decide (is_Some (mnUniquePropertyMap l !! SerializeHash v)).
Definition GetUniquePropertyMN (l : CDeterministicMNList) (v : list Z) : option CDeterministicMN :=
  p ← mnUniquePropertyMap l !! SerializeHash v; GetMN l p.1.

Definition AddUniqueProperty (l : CDeterministicMNList) (h : uint256) (v nullValue : list Z) : result CDeterministicMNList :=
  _ ← cassert (negb (bool_decide (v = nullValue)));
  let hash := SerializeHash v in
  let oldEntry := mnUniquePropertyMap l !! hash in
  _ ← cassert (match oldEntry with None => true | Some e => bool_decide (e.1 = h) end);
  let newEntry := (h, match oldEntry with None => 1 | Some e => u32 (e.2 + 1) end) in
  Ok (set_unique l (<[hash := newEntry]> (mnUniquePropertyMap l))).

Definition DeleteUniqueProperty (l : CDeterministicMNList) (h : uint256) (oldValue nullValue : list Z) : result CDeterministicMNList :=
  _ ← cassert (negb (bool_decide (oldValue = nullValue)));
  let oldHash := SerializeHash oldValue in
  match mnUniquePropertyMap l !! oldHash with
  | None => Err AssertFail
  | Some (first, second) =>
      _ ← cassert (bool_decide (first = h));
      if second =? 1 then Ok (set_unique l (delete oldHash (mnUniquePropertyMap l)))
      else Ok (set_unique l (<[oldHash := (h, u32 (second - 1))]> (mnUniquePropertyMap l)))
  end.

Definition UpdateUniqueProperty (l : CDeterministicMNList) (h : uint256) (oldValue newValue nullValue : list Z) : result CDeterministicMNList :=
  if bool_decide (oldValue = newValue) then Ok l
  else
    l ← (if bool_decide (oldValue = nullValue) then Ok l else DeleteUniqueProperty l h oldValue nullValue);
    if bool_decide (newValue = nullValue) then Ok l else AddUniqueProperty l h newValue nullValue.

Definition GetMNByCollateral (l : CDeterministicMNList) (o : COutPoint) : option CDeterministicMN := GetUniquePropertyMN l (ser o).
Definition GetMNByService (l : CDeterministicMNList) (a : list Z) : option CDeterministicMN := GetUniquePropertyMN l a.

Definition AddMN (l : CDeterministicMNList) (d : CDeterministicMN) : result CDeterministicMNList :=
  let h := proTxHash d in
  let s := pdmnState d in
  _ ← cassert (bool_decide (mnMap l !! h = None));
  let l := set_mnMap l (<[h := d]> (mnMap l)) in
  let l := set_ids l (<[internalId d := h]> (mnInternalIdMap l)) in
  l ← AddUniqueProperty l h (ser (collateralOutpoint d)) (ser COutPoint_null);
  l ← (if bool_decide (addr s = CService_null) then Ok l else AddUniqueProperty l h (addr s) CService_null);
  l ← AddUniqueProperty l h (keyIDOwner s) CKeyID_null;
  if bls_key B (pubKeyOperator s) then AddUniqueProperty l h (pubKeyOperator s) bls_key_null else Ok l.

(** [UpdateMN] for a smartnode of the list and a new state. *)
Definition UpdateMN (l : CDeterministicMNList) (oldDmn : CDeterministicMN) (s : CDeterministicMNState) : result CDeterministicMNList :=
  let dmn := with_state oldDmn s in
  let oldState := pdmnState oldDmn in
  let h := proTxHash oldDmn in
  let l := set_mnMap l (<[h := dmn]> (mnMap l)) in
  l ← UpdateUniqueProperty l h (addr oldState) (addr s) CService_null;
  l ← UpdateUniqueProperty l h (keyIDOwner oldState) (keyIDOwner s) CKeyID_null;
  UpdateUniqueProperty l h (pubKeyOperator oldState) (pubKeyOperator s) bls_key_null.

Definition UpdateMN_hash (l : CDeterministicMNList) (h : uint256) (s : CDeterministicMNState) : result CDeterministicMNList :=
  match mnMap l !! h with
  | None => Err AssertFail
  | Some oldDmn => UpdateMN l oldDmn s
  end.

Definition RemoveMN (l : CDeterministicMNList) (h : uint256) : result CDeterministicMNList :=
  match GetMN l h with
  | None => Err AssertFail
  | Some d =>
      let s := pdmnState d in
      l ← DeleteUniqueProperty l (proTxHash d) (ser (collateralOutpoint d)) (ser COutPoint_null);
      l ← (if bool_decide (addr s = CService_null) then Ok l else DeleteUniqueProperty l (proTxHash d) (addr s) CService_null);
      l ← DeleteUniqueProperty l (proTxHash d) (keyIDOwner s) CKeyID_null;
      l ← (if bls_key B (pubKeyOperator s) then DeleteUniqueProperty l (proTxHash d) (pubKeyOperator s) bls_key_null else Ok l);
      Ok (set_ids (set_mnMap l (delete h (mnMap l))) (delete (internalId d) (mnInternalIdMap l)))
  end.

(** ** Proof of service *)

Definition CalcMaxPoSePenalty (l : CDeterministicMNList) : Z := Z.max 100 (i32 (GetAllMNsCount l)).
Definition CalcPenalty (l : CDeterministicMNList) (percent : Z) : result Z :=
  _ ← cassert (0 <? percent);
  Ok (Z.quot (i32 (CalcMaxPoSePenalty l * percent)) 100).

Definition PoSePunish (l : CDeterministicMNList) (h : uint256) (penalty : Z) : result CDeterministicMNList :=
  _ ← cassert (0 <? penalty);
  match GetMN l h with
  | None => Err AssertFail
  | Some d =>
      let maxPenalty := CalcMaxPoSePenalty l in
      let s := pdmnState d in
      let n := Z.min maxPenalty (i32 (nPoSePenalty s + penalty)) in
      let ban := if (maxPenalty <=? n) && (nPoSeBanHeight s =? -1) then l_nHeight l else nPoSeBanHeight s in
      UpdateMN_hash l h (set_penalty s n ban)
  end.

Definition PoSeDecrease (l : CDeterministicMNList) (h : uint256) : result CDeterministicMNList :=
  match GetMN l h with
  | None => Err AssertFail
  | Some d =>
      let s := pdmnState d in
      _ ← cassert ((0 <? nPoSePenalty s) && (nPoSeBanHeight s =? -1));
      UpdateMN_hash l h (set_penalty s (nPoSePenalty s - 1) (nPoSeBanHeight s))
  end.

(** ** Agreement of the maps *)

(** The hashes of the properties of a smartnode. *)
Definition opt_prop (v nullValue : list Z) : list uint256 := if bool_decide (v = nullValue) then [] else [SerializeHash v].
Definition opt_props (vs : list (list Z * list Z)) : list uint256 := concat (map (fun p => opt_prop p.1 p.2) vs).
Definition prop_vals (d : CDeterministicMN) : list (list Z * list Z) :=
  [(ser (collateralOutpoint d), ser COutPoint_null); (addr (pdmnState d), CService_null);
   (keyIDOwner (pdmnState d), CKeyID_null); (pubKeyOperator (pdmnState d), bls_key_null)].
Definition props (d : CDeterministicMN) : list uint256 := opt_props (prop_vals d).

Definition occ (h : uint256) (l : list uint256) : Z := Z.of_nat (length (filter (fun x => x = h) l)).

(** The map records for each hash the smartnode that uses it and how often. *)
Definition unique_ok (m : uint256 -> list uint256) (um : gmap (list Z) (list Z * Z)) : Prop :=
  forall h p n, um !! h = Some (p, n) <-> 0 < n /\ n = occ h (m p).

(** A smartnode with a collateral, an owner, and a valid operator key or none. *)
Definition mn_ok (d : CDeterministicMN) : Prop :=
  ser (collateralOutpoint d) <> ser COutPoint_null /\ keyIDOwner (pdmnState d) <> CKeyID_null /\
  (bls_key B (pubKeyOperator (pdmnState d)) = true <-> pubKeyOperator (pdmnState d) <> bls_key_null).

Definition props_in (m : gmap (list Z) CDeterministicMN) (p : uint256) : list uint256 := from_option props [] (m !! p).

Record wf (l : CDeterministicMNList) : Prop := {
  wf_mn p d : mnMap l !! p = Some d -> proTxHash d = p /\ mn_ok d;
  wf_ids i p : mnInternalIdMap l !! i = Some p <-> exists d, mnMap l !! p = Some d /\ internalId d = i;
  wf_unique : unique_ok (props_in (mnMap l)) (mnUniquePropertyMap l)
}.

Lemma wf_id_inj l h h' d d' : wf l -> mnMap l !! h = Some d -> mnMap l !! h' = Some d' -> internalId d = internalId d' -> h = h'.
Proof.
  intros Hwf Hd Hd' E. assert (mnInternalIdMap l !! internalId d = Some h) as E1 by (apply (wf_ids l Hwf); eauto).
  assert (mnInternalIdMap l !! internalId d = Some h') as E2 by (apply (wf_ids l Hwf); eauto). congruence.
Qed.

(** ** Lemmas: the unique properties *)

Lemma occ_nonneg h l : 0 <= occ h l.
Proof. unfold occ. lia. Qed.

Lemma occ_cons h x l : occ h (x :: l) = (if bool_decide (x = h) then 1 else 0) + occ h l.
Proof. unfold occ. rewrite filter_cons. destruct (decide (x = h)); [rewrite bool_decide_true by done|rewrite bool_decide_false by done]; cbn [length]; lia. Qed.

Lemma occ_elem h l : 0 < occ h l <-> h ∈ l.
Proof.
  induction l as [|x l IH]; [split; [unfold occ; cbn; lia|by intros ?%elem_of_nil]|]. rewrite occ_cons, elem_of_cons.
  case_bool_decide; [split; [intros _; by left|pose proof (occ_nonneg h l); lia]|]. rewrite Z.add_0_l, IH. split; [by right|]. intros [?|?]; [congruence|done].
Qed.

Lemma occ_perm h l l' : l ≡ₚ l' -> occ h l = occ h l'.
Proof. intros H. unfold occ. by rewrite H. Qed.

Lemma occ_le h l : occ h l <= Z.of_nat (length l).
Proof. unfold occ. pose proof (length_filter (fun x => x = h) l). lia. Qed.

Lemma unique_perm m m' um : (forall p, m p ≡ₚ m' p) -> unique_ok m um -> unique_ok m' um.
Proof. intros Hp H h p n. rewrite (H h p n). by rewrite (occ_perm h _ _ (Hp p)). Qed.

Lemma unique_none m um h : unique_ok m um -> um !! h = None <-> forall p, h ∉ m p.
Proof.
  intros H. split.
  - intros Hn p Hin. apply occ_elem in Hin. assert (um !! h = Some (p, occ h (m p))) as E by (by apply H). congruence.
  - intros Hn. destruct (um !! h) as [[p n]|] eqn:E; [|done]. apply H in E as [H0 ->]. apply occ_elem in H0. by destruct (Hn p).
Qed.

Definition set_fun (m : uint256 -> list uint256) (p : uint256) (l : list uint256) : uint256 -> list uint256 :=
  fun q => if decide (q = p) then l else m q.

Lemma unique_add m um p h rest : unique_ok m um -> m p ≡ₚ rest -> (forall q, q <> p -> h ∉ m q) ->
  unique_ok (set_fun m p (h :: rest)) (<[h := (p, occ h rest + 1)]> um).
Proof.
  intros H Hp Ho k q n. unfold set_fun. destruct (decide (k = h)) as [->|Hk].
  - rewrite lookup_insert_eq. destruct (decide (q = p)) as [->|Hq].
    + rewrite occ_cons, bool_decide_true by done. pose proof (occ_nonneg h rest). split; [intros [= <-]; lia|]. intros [? ->]. do 2 f_equal. lia.
    + split; [by intros [= <- _]|]. intros [H0 ->]. apply occ_elem in H0. by destruct (Ho q).
  - rewrite lookup_insert_ne by done. rewrite (H k q n). destruct (decide (q = p)) as [->|Hq]; [|done].
    rewrite occ_cons, bool_decide_false by done. by rewrite Z.add_0_l, (occ_perm k _ _ Hp).
Qed.

Lemma unique_delete m um p h rest n : unique_ok m um -> m p ≡ₚ h :: rest -> um !! h = Some (p, n) -> 
  unique_ok (set_fun m p rest) (if n =? 1 then delete h um else <[h := (p, n - 1)]> um) /\ n = occ h rest + 1.
Proof.
  intros H Hp Hn. assert (n = occ h rest + 1) as En.
  { apply H in Hn as [_ ->]. rewrite (occ_perm h _ _ Hp), occ_cons, bool_decide_true by done. lia. }
  split; [|done]. intros k q c. unfold set_fun. destruct (decide (k = h)) as [->|Hk].
  - assert (forall q', q' <> p -> ~ 0 < occ h (m q')) as Ho by (intros q' Hq' H0; assert (um !! h = Some (q', occ h (m q'))) by (by apply H); congruence).
    destruct (Z.eqb_spec n 1) as [E1|E1].
    + rewrite lookup_delete_eq. split; [done|]. intros [H0 ->]. destruct (decide (q = p)) as [->|Hq]; [lia|by destruct (Ho q)].
    + rewrite lookup_insert_eq. destruct (decide (q = p)) as [->|Hq].
      * pose proof (occ_nonneg h rest). split; [intros [= <-]; lia|]. intros [? ->]. do 2 f_equal. lia.
      * split; [by intros [= <- _]|]. intros [H0 ->]. by destruct (Ho q).
  - assert ((if n =? 1 then delete h um else <[h:=(p, n - 1)]> um) !! k = um !! k) as ->.
    { destruct (n =? 1); [by rewrite lookup_delete_ne|by rewrite lookup_insert_ne]. }
    rewrite (H k q c). destruct (decide (q = p)) as [->|Hq]; [|done].
    by rewrite (occ_perm k _ _ Hp), occ_cons, bool_decide_false, Z.add_0_l by done.
Qed.

Lemma AddUnique_spec l h v nullv m : unique_ok m (mnUniquePropertyMap l) -> v <> nullv -> (forall q, q <> h -> SerializeHash v ∉ m q) -> (length (m h) <= 10)%nat ->
  exists um, AddUniqueProperty l h v nullv = Ok (set_unique l um) /\ unique_ok (set_fun m h (SerializeHash v :: m h)) um.
Proof.
  intros Hu Hv Ho Hl. unfold AddUniqueProperty. rewrite bool_decide_false by done. cbn [negb cassert mbind result_bind]. set (k := SerializeHash v) in *.
  pose proof (unique_add m _ h k (m h) Hu (reflexivity _) Ho) as Ha. pose proof (occ_le k (m h)) as Hle. pose proof (occ_nonneg k (m h)) as H0.
  destruct (mnUniquePropertyMap l !! k) as [[p n]|] eqn:E.
  - apply Hu in E as [Hp ->]. apply occ_elem in Hp. assert (p = h) as -> by (destruct (decide (p = h)); [done|by destruct (Ho p)]).
    cbn [fst snd]. rewrite bool_decide_true, u32_small by (done || lia). cbn [cassert mbind result_bind]. eexists; split; [done|exact Ha].
  - cbn [cassert mbind result_bind]. eexists; split; [done|]. rewrite (unique_none _ _ _ Hu) in E. assert (occ k (m h) = 0) as Ez.
    { destruct (Z.lt_trichotomy (occ k (m h)) 0) as [|[|Hgt]]; [lia|done|]. apply occ_elem in Hgt. by destruct (E h). }
    rewrite Ez in Ha. exact Ha.
Qed.

Lemma DeleteUnique_spec l h v nullv m rest : unique_ok m (mnUniquePropertyMap l) -> v <> nullv -> m h ≡ₚ SerializeHash v :: rest -> (length (m h) <= 10)%nat ->
  exists um, DeleteUniqueProperty l h v nullv = Ok (set_unique l um) /\ unique_ok (set_fun m h rest) um.
Proof.
  intros Hu Hv Hm Hl. unfold DeleteUniqueProperty. rewrite bool_decide_false by done. cbn [negb cassert mbind result_bind]. set (k := SerializeHash v) in *.
  assert (mnUniquePropertyMap l !! k = Some (h, occ k (m h))) as E.
  { apply Hu. split; [|done]. apply occ_elem. rewrite Hm. by left. }
  destruct (unique_delete m _ h k rest _ Hu Hm E) as [Hd _]. rewrite E, bool_decide_true by done. cbn [cassert mbind result_bind].
  pose proof (occ_le k (m h)) as Hle. pose proof (occ_elem k (m h)) as He.
  destruct (Z.eqb_spec (occ k (m h)) 1); [eexists; split; [done|exact Hd]|]. rewrite u32_small.
  - eexists; split; [done|exact Hd].
  - assert (0 < occ k (m h)) by (apply He; rewrite Hm; by left). lia.
Qed.

Lemma set_fun_twice m p a b q : set_fun (set_fun m p a) p b q = set_fun m p b q.
Proof. unfold set_fun. by destruct (decide (q = p)). Qed.

Lemma set_fun_eq m p a : set_fun m p a p = a.
Proof. unfold set_fun. by rewrite decide_True. Qed.

Lemma set_fun_ne m p a q : q <> p -> set_fun m p a q = m q.
Proof. intros Hq. unfold set_fun. by rewrite decide_False. Qed.

Lemma set_unique_twice l a b : set_unique (set_unique l a) b = set_unique l b.
Proof. done. Qed.

Lemma opt_prop_length v n : (length (opt_prop v n) <= 1)%nat.
Proof. unfold opt_prop. case_bool_decide; cbn; lia. Qed.

Lemma opt_props_length vs : (length (opt_props vs) <= length vs)%nat.
Proof. induction vs as [|[v n] vs IH]; [done|]. cbn [opt_props map concat fst snd length]. rewrite length_app. pose proof (opt_prop_length v n). fold (opt_props vs). lia. Qed.

Lemma opt_props_cons v n vs : opt_props ((v, n) :: vs) = opt_prop v n ++ opt_props vs.
Proof. done. Qed.

Lemma unique_same m um p l : unique_ok m um -> m p ≡ₚ l -> unique_ok (set_fun m p l) um.
Proof. intros Hu Hp. apply (unique_perm m); [|done]. intros q. unfold set_fun. by destruct (decide (q = p)) as [->|]. Qed.

Lemma unique_set_twice m um p a b : unique_ok (set_fun (set_fun m p a) p b) um -> unique_ok (set_fun m p b) um.
Proof. apply unique_perm. intros q. by rewrite set_fun_twice. Qed.

(** Adding, deleting and updating a property that may be null. *)
Definition add_opt (l : CDeterministicMNList) (h : uint256) (p : list Z * list Z) : result CDeterministicMNList :=
  if bool_decide (p.1 = p.2) then Ok l else AddUniqueProperty l h p.1 p.2.
Definition delete_opt (l : CDeterministicMNList) (h : uint256) (p : list Z * list Z) : result CDeterministicMNList :=
  if bool_decide (p.1 = p.2) then Ok l else DeleteUniqueProperty l h p.1 p.2.

Lemma add_opt_spec l h v nullv m : unique_ok m (mnUniquePropertyMap l) -> (forall q x, q <> h -> x ∈ opt_prop v nullv -> x ∉ m q) -> (length (m h) <= 10)%nat ->
  exists um, add_opt l h (v, nullv) = Ok (set_unique l um) /\ unique_ok (set_fun m h (opt_prop v nullv ++ m h)) um.
Proof.
  intros Hu Ho Hl. unfold add_opt, opt_prop in *. cbn [fst snd]. case_bool_decide as E.
  - exists (mnUniquePropertyMap l). split; [by destruct l|]. by apply unique_same.
  - apply AddUnique_spec; [done..| |done]. intros q Hq. apply (Ho q); [done|by left].
Qed.

Lemma delete_opt_spec l h v nullv m rest : unique_ok m (mnUniquePropertyMap l) -> m h ≡ₚ opt_prop v nullv ++ rest -> (length (m h) <= 10)%nat ->
  exists um, delete_opt l h (v, nullv) = Ok (set_unique l um) /\ unique_ok (set_fun m h rest) um.
Proof.
  intros Hu Hm Hl. unfold delete_opt, opt_prop in *. cbn [fst snd]. case_bool_decide as E; [|by apply DeleteUnique_spec].
  exists (mnUniquePropertyMap l). split; [by destruct l|]. by apply unique_same.
Qed.

Lemma UpdateUnique_spec l h old new nullv m rest : unique_ok m (mnUniquePropertyMap l) -> m h ≡ₚ opt_prop old nullv ++ rest ->
  (forall q x, q <> h -> x ∈ opt_prop new nullv -> x ∉ m q) -> (length (m h) <= 10)%nat ->
  exists um, UpdateUniqueProperty l h old new nullv = Ok (set_unique l um) /\ unique_ok (set_fun m h (opt_prop new nullv ++ rest)) um.
Proof.
  intros Hu Hm Ho Hl. unfold UpdateUniqueProperty. destruct (bool_decide (old = new)) eqn:Eq.
  { apply bool_decide_eq_true in Eq as ->. exists (mnUniquePropertyMap l). split; [by destruct l|]. by apply unique_same. }
  assert (length rest <= 10)%nat as Hr by (apply Permutation_length in Hm; rewrite length_app in Hm; lia).
  destruct (delete_opt_spec l h old nullv m rest Hu Hm Hl) as (um & E & Hum). unfold delete_opt in E. cbn [fst snd] in E. rewrite E. cbn [mbind result_bind].
  destruct (add_opt_spec (set_unique l um) h new nullv _ Hum) as (um' & E' & Hum').
  - intros q x Hq. rewrite set_fun_ne by done. by apply Ho.
  - by rewrite set_fun_eq.
  - exists um'. split; [exact E'|]. rewrite set_fun_eq in Hum'. by apply unique_set_twice in Hum'.
Qed.

(** The properties of a smartnode, one after the other. *)
Fixpoint add_opts (l : CDeterministicMNList) (h : uint256) (vs : list (list Z * list Z)) : result CDeterministicMNList :=
  match vs with [] => Ok l | p :: vs => l ← add_opt l h p; add_opts l h vs end.
Fixpoint delete_opts (l : CDeterministicMNList) (h : uint256) (vs : list (list Z * list Z)) : result CDeterministicMNList :=
  match vs with [] => Ok l | p :: vs => l ← delete_opt l h p; delete_opts l h vs end.

Lemma add_opts_spec vs l h m : unique_ok m (mnUniquePropertyMap l) -> (forall q x, q <> h -> x ∈ opt_props vs -> x ∉ m q) -> (length (m h) + length vs <= 10)%nat ->
  exists um, add_opts l h vs = Ok (set_unique l um) /\ unique_ok (set_fun m h (opt_props vs ++ m h)) um.
Proof.
  revert l m. induction vs as [|[v n] vs IH]; intros l m Hu Ho Hl; cbn [add_opts].
  { exists (mnUniquePropertyMap l). split; [by destruct l|]. by apply unique_same. }
  cbn [length] in Hl. rewrite opt_props_cons in *. destruct (add_opt_spec l h v n m Hu) as (um & -> & Hum); [|lia|].
  { intros q x Hq Hx. apply Ho; [done|]. apply elem_of_app. by left. }
  cbn [mbind result_bind]. destruct (IH (set_unique l um) _ Hum) as (um' & -> & Hum').
  - intros q x Hq Hx. rewrite set_fun_ne by done. apply Ho; [done|]. apply elem_of_app. by right.
  - rewrite set_fun_eq, length_app. pose proof (opt_prop_length v n). lia.
  - exists um'. split; [done|]. apply unique_set_twice in Hum'. rewrite set_fun_eq in Hum'. eapply unique_perm; [|exact Hum'].
    intros q. unfold set_fun. destruct (decide (q = h)); [|done]. by rewrite <- app_assoc, Permutation_app_swap_app.
Qed.

Lemma delete_opts_spec vs l h m rest : unique_ok m (mnUniquePropertyMap l) -> m h ≡ₚ opt_props vs ++ rest -> (length (m h) <= 10)%nat ->
  exists um, delete_opts l h vs = Ok (set_unique l um) /\ unique_ok (set_fun m h rest) um.
Proof.
  revert l m. induction vs as [|[v n] vs IH]; intros l m Hu Hm Hl; cbn [delete_opts].
  { exists (mnUniquePropertyMap l). split; [by destruct l|]. by apply unique_same. }
  rewrite opt_props_cons, <- app_assoc in Hm. destruct (delete_opt_spec l h v n m _ Hu Hm Hl) as (um & -> & Hum). cbn [mbind result_bind].
  destruct (IH (set_unique l um) _ Hum) as (um' & -> & Hum').
  - by rewrite set_fun_eq.
  - rewrite set_fun_eq. apply Permutation_length in Hm. rewrite length_app in Hm. lia.
  - exists um'. split; [done|]. by apply unique_set_twice in Hum'.
Qed.

(** The same for values that change: [(old, new, null)]. *)
Fixpoint update_opts (l : CDeterministicMNList) (h : uint256) (vs : list (list Z * list Z * list Z)) : result CDeterministicMNList :=
  match vs with [] => Ok l | (o, v, n) :: vs => l ← UpdateUniqueProperty l h o v n; update_opts l h vs end.
Definition opt_olds (vs : list (list Z * list Z * list Z)) : list uint256 := opt_props (map (fun p => (p.1.1, p.2)) vs).
Definition opt_news (vs : list (list Z * list Z * list Z)) : list uint256 := opt_props (map (fun p => (p.1.2, p.2)) vs).

Lemma update_opts_spec vs l h m rest : unique_ok m (mnUniquePropertyMap l) -> m h ≡ₚ opt_olds vs ++ rest ->
  (forall q x, q <> h -> x ∈ opt_news vs -> x ∉ m q) -> (length (m h) + length vs <= 10)%nat ->
  exists um, update_opts l h vs = Ok (set_unique l um) /\ unique_ok (set_fun m h (opt_news vs ++ rest)) um.
Proof.
  revert l m rest. induction vs as [|[[o v] n] vs IH]; intros l m rest Hu Hm Ho Hl; cbn [update_opts].
  { exists (mnUniquePropertyMap l). split; [by destruct l|]. by apply unique_same. }
  unfold opt_olds, opt_news in *. cbn [map fst snd length] in *. rewrite opt_props_cons in *. rewrite <- app_assoc in Hm.
  destruct (UpdateUnique_spec l h o v n m _ Hu Hm) as (um & -> & Hum); [|lia|].
  { intros q x Hq Hx. apply Ho; [done|]. apply elem_of_app. by left. }
  cbn [mbind result_bind]. destruct (IH (set_unique l um) _ (opt_prop v n ++ rest) Hum) as (um' & -> & Hum').
  - rewrite set_fun_eq. solve_Permutation.
  - intros q x Hq Hx. rewrite set_fun_ne by done. apply Ho; [done|]. apply elem_of_app. by right.
  - rewrite set_fun_eq, length_app. pose proof (opt_prop_length v n). apply Permutation_length in Hm. rewrite length_app in Hm. lia.
  - exists um'. split; [done|]. apply unique_set_twice in Hum'. eapply unique_perm; [|exact Hum'].
    intros q. unfold set_fun. destruct (decide (q = h)); [solve_Permutation|done].
Qed.

(** ** Lemmas: the list *)

(** No property of [d] is used by a smartnode other than [h]. *)
Definition free (m : gmap (list Z) CDeterministicMN) (h : uint256) (d : CDeterministicMN) : Prop :=
  forall q d' x, q <> h -> m !! q = Some d' -> x ∈ props d -> x ∉ props d'.

Lemma props_in_insert m h d q : props_in (<[h := d]> m) q = set_fun (props_in m) h (props d) q.
Proof. unfold props_in, set_fun. destruct (decide (q = h)) as [->|]; [by rewrite lookup_insert_eq|by rewrite lookup_insert_ne]. Qed.

Lemma props_in_delete m h q : props_in (delete h m) q = set_fun (props_in m) h [] q.
Proof. unfold props_in, set_fun. destruct (decide (q = h)) as [->|]; [by rewrite lookup_delete_eq|by rewrite lookup_delete_ne]. Qed.

Lemma free_props_in m h d q x : free m h d -> q <> h -> x ∈ props d -> x ∉ props_in m q.
Proof.
  intros Hf Hq Hx. unfold props_in. destruct (m !! q) as [d'|] eqn:E; cbn; [by apply (Hf q d' x)|]. by intros ?%elem_of_nil.
Qed.

(** The test on the operator key is the test for the null key. *)
Lemma operator_test {A} d (x y : A) : mn_ok d ->
  (if bls_key B (pubKeyOperator (pdmnState d)) then x else y) = if bool_decide (pubKeyOperator (pdmnState d) = bls_key_null) then y else x.
Proof.
  intros (_ & _ & Hb). case_bool_decide as E; [destruct (bls_key B _); [|done]; by destruct (proj1 Hb eq_refl)|by rewrite (proj2 Hb E)].
Qed.

Lemma AddMN_opts l d : mn_ok d -> mnMap l !! proTxHash d = None ->
  AddMN l d = add_opts (set_ids (set_mnMap l (<[proTxHash d := d]> (mnMap l))) (<[internalId d := proTxHash d]> (mnInternalIdMap l))) (proTxHash d) (prop_vals d).
Proof.
  intros Hok Hn. unfold AddMN. cbv zeta. rewrite Hn, (bool_decide_true (None = None)) by done. cbn [cassert mbind result_bind add_opts prop_vals].
  unfold add_opt. cbn [fst snd]. destruct (Hok) as (Hc & Ho & _). rewrite (bool_decide_false _ Hc), (bool_decide_false _ Ho).
  do 3 (apply result_bind_ext; intros ?). by rewrite operator_test, result_bind_ret.
Qed.

Lemma AddMN_spec l d : wf l -> mn_ok d -> mnMap l !! proTxHash d = None -> mnInternalIdMap l !! internalId d = None -> free (mnMap l) (proTxHash d) d ->
  exists l', AddMN l d = Ok l' /\ wf l' /\ mnMap l' = <[proTxHash d := d]> (mnMap l) /\
    l_blockHash l' = l_blockHash l /\ l_nHeight l' = l_nHeight l /\ nTotalRegisteredCount l' = nTotalRegisteredCount l.
Proof.
  intros Hwf Hok Hnew Hid Hfree. rewrite AddMN_opts by done. set (h := proTxHash d) in *.
  set (l1 := set_ids _ _). assert (props_in (mnMap l) h = []) as Hp0 by (unfold props_in; by rewrite Hnew).
  destruct (add_opts_spec (prop_vals d) l1 h (props_in (mnMap l))) as (um & E & Hum); [apply Hwf|intros; by eapply free_props_in|rewrite Hp0; cbn; lia|].
  eexists; split; [exact E|]. split; [|done]. split; cbn.
  - intros p d'. destruct (decide (p = h)) as [->|]; [rewrite lookup_insert_eq; by intros [= <-]|rewrite lookup_insert_ne by done; apply Hwf].
  - intros i p. destruct (decide (i = internalId d)) as [->|Hi].
    + rewrite lookup_insert_eq. split; [intros [= <-]; exists d; by rewrite lookup_insert_eq|]. intros (d' & Hd' & Hi).
      destruct (decide (p = h)) as [->|]; [done|]. rewrite lookup_insert_ne in Hd' by done.
      assert (mnInternalIdMap l !! internalId d = Some p) by (apply (wf_ids l Hwf); eauto). congruence.
    + rewrite lookup_insert_ne, (wf_ids l Hwf) by done. destruct (decide (p = h)) as [->|]; [|by rewrite lookup_insert_ne].
      rewrite Hnew, lookup_insert_eq. split; [by intros (? & ? & _)|]. by intros (? & [= <-] & ?).
  - rewrite Hp0, app_nil_r in Hum. eapply unique_perm; [|exact Hum]. intros q. by rewrite props_in_insert.
Qed.

Lemma RemoveMN_opts l d : wf l -> mnMap l !! proTxHash d = Some d ->
  RemoveMN l (proTxHash d) = (l ← delete_opts l (proTxHash d) (prop_vals d);
    Ok (set_ids (set_mnMap l (delete (proTxHash d) (mnMap l))) (delete (internalId d) (mnInternalIdMap l)))).
Proof.
  intros Hwf Hd. destruct (wf_mn l Hwf _ _ Hd) as [_ Hok]. unfold RemoveMN, GetMN. rewrite Hd. cbv zeta. cbn [delete_opts prop_vals].
  unfold delete_opt. cbn [fst snd]. destruct (Hok) as (Hc & Ho & _). rewrite (bool_decide_false _ Hc), (bool_decide_false _ Ho).
  do 3 (rewrite result_bind_assoc; apply result_bind_ext; intros ?). by rewrite operator_test, result_bind_ret.
Qed.

Lemma RemoveMN_spec l h d : wf l -> mnMap l !! h = Some d ->
  exists l', RemoveMN l h = Ok l' /\ wf l' /\ mnMap l' = delete h (mnMap l) /\
    l_blockHash l' = l_blockHash l /\ l_nHeight l' = l_nHeight l /\ nTotalRegisteredCount l' = nTotalRegisteredCount l.
Proof.
  intros Hwf Hd. destruct (wf_mn l Hwf _ _ Hd) as [<- Hok]. rewrite RemoveMN_opts by done. set (h := proTxHash d) in *.
  assert (props_in (mnMap l) h = props d) as Hp by (unfold props_in; by rewrite Hd).
  destruct (delete_opts_spec (prop_vals d) l h (props_in (mnMap l)) []) as (um & -> & Hum); [apply Hwf|by rewrite Hp, app_nil_r| |].
  { rewrite Hp. unfold props. pose proof (opt_props_length (prop_vals d)) as Hl. cbn [prop_vals length] in Hl. fold (prop_vals d) in Hl. lia. }
  cbn [mbind result_bind]. eexists; split; [done|]. split; [|done]. split; cbn.
  - intros p d' [_ Hl]%lookup_delete_Some. by apply Hwf.
  - intros i p. rewrite lookup_delete_Some, (wf_ids l Hwf). setoid_rewrite lookup_delete_Some. split.
    + intros (Hi & d' & Hd' & Hi'). exists d'. split; [split; [intros <-; congruence|done]|done].
    + intros (d' & (Hp' & Hd') & Hi'). split; [|eauto]. intros Ei. destruct Hp'. apply (wf_id_inj l h p d d' Hwf Hd Hd'). congruence.
  - eapply unique_perm; [|exact Hum]. intros q. by rewrite props_in_delete.
Qed.

Lemma UpdateMN_opts l d s : UpdateMN l d s = update_opts (set_mnMap l (<[proTxHash d := with_state d s]> (mnMap l))) (proTxHash d)
  [(addr (pdmnState d), addr s, CService_null); (keyIDOwner (pdmnState d), keyIDOwner s, CKeyID_null); (pubKeyOperator (pdmnState d), pubKeyOperator s, bls_key_null)].
Proof. unfold UpdateMN. cbn [update_opts]. do 2 (apply result_bind_ext; intros ?). by rewrite result_bind_ret. Qed.

Lemma UpdateMN_spec l h d s : wf l -> mnMap l !! h = Some d -> mn_ok (with_state d s) -> free (mnMap l) h (with_state d s) ->
  exists l', UpdateMN l d s = Ok l' /\ wf l' /\ mnMap l' = <[h := with_state d s]> (mnMap l) /\
    l_blockHash l' = l_blockHash l /\ l_nHeight l' = l_nHeight l /\ nTotalRegisteredCount l' = nTotalRegisteredCount l.
Proof.
  intros Hwf Hd Hok' Hfree. destruct (wf_mn l Hwf _ _ Hd) as [<- Hok]. rewrite UpdateMN_opts. set (h := proTxHash d) in *. set (l1 := set_mnMap _ _). set (vs := [_; _; _]).
  set (c := opt_prop (ser (collateralOutpoint d)) (ser COutPoint_null)).
  assert (props d = c ++ opt_olds vs) as Hc by (unfold props, prop_vals; by rewrite opt_props_cons).
  assert (props (with_state d s) = c ++ opt_news vs) as Hc' by (unfold props, prop_vals; by rewrite opt_props_cons).
  assert (props_in (mnMap l) h = props d) as Hp by (unfold props_in; by rewrite Hd).
  destruct (update_opts_spec vs l1 h (props_in (mnMap l)) c) as (um & -> & Hum).
  - apply Hwf.
  - by rewrite Hp, Hc, Permutation_app_comm.
  - intros q x Hq Hx. eapply free_props_in; [done..|]. rewrite Hc', elem_of_app. by right.
  - rewrite Hp. unfold props. pose proof (opt_props_length (prop_vals d)) as Hl. cbn [prop_vals length] in Hl. fold (prop_vals d) in Hl. cbn [vs length]. lia.
  - eexists; split; [done|]. split; [|done]. split; cbn.
    + intros p d'. destruct (decide (p = h)) as [->|]; [rewrite lookup_insert_eq; by intros [= <-]|rewrite lookup_insert_ne by done; apply Hwf].
    + intros i p. rewrite (wf_ids l Hwf). destruct (decide (p = h)) as [->|]; [|by rewrite lookup_insert_ne]. rewrite Hd, lookup_insert_eq.
      split; intros (? & [= <-] & <-); eauto.
    + eapply unique_perm; [|exact Hum]. intros q. rewrite props_in_insert. unfold set_fun. destruct (decide (q = h)); [|done]. by rewrite Hc', Permutation_app_comm.
Qed.

(** Two lists with the same smartnodes have the same indexes. *)
Lemma wf_determined l l' : wf l -> wf l' -> mnMap l = mnMap l' -> mnInternalIdMap l = mnInternalIdMap l' /\ mnUniquePropertyMap l = mnUniquePropertyMap l'.
Proof.
  intros Hw Hw' E. split; apply map_eq; intros k; apply option_eq.
  - intros p. by rewrite (wf_ids l Hw), (wf_ids l' Hw'), E.
  - intros [p n]. by rewrite (wf_unique l Hw k p n), (wf_unique l' Hw' k p n), E.
Qed.

(** A property that another smartnode uses makes the assertion fail. *)
Lemma add_opts_free vs l h m l' : unique_ok m (mnUniquePropertyMap l) -> (length (m h) + length vs <= 10)%nat -> add_opts l h vs = Ok l' ->
  forall q x, q <> h -> x ∈ opt_props vs -> x ∉ m q.
Proof.
  revert l m. induction vs as [|[v n] vs IH]; intros l m Hu Hl Ha q x Hq Hx; [by apply elem_of_nil in Hx|].
  cbn [add_opts length] in *. apply result_bind_Ok in Ha as (l1 & E1 & Ha).
  assert (forall q x, q <> h -> x ∈ opt_prop v n -> x ∉ m q) as Hfree.
  { intros q' x' Hq' Hx' Hin. unfold opt_prop in Hx'. unfold add_opt in E1. cbn [fst snd] in E1. case_bool_decide; [by apply elem_of_nil in Hx'|].
    apply list_elem_of_singleton in Hx' as ->. unfold AddUniqueProperty in E1. rewrite bool_decide_false in E1 by done.
    assert (mnUniquePropertyMap l !! SerializeHash v = Some (q', occ (SerializeHash v) (m q'))) as E by (apply Hu; split; [by apply occ_elem|done]).
    rewrite E, (bool_decide_false (_ = h)) in E1 by done. done. }
  rewrite opt_props_cons, elem_of_app in Hx. destruct Hx as [Hx|Hx]; [by apply Hfree|].
  destruct (add_opt_spec l h v n m Hu Hfree) as (um & E & Hum); [lia|]. rewrite E1 in E. injection E as ->.
  pose proof (IH (set_unique l um) _ Hum) as IH'. rewrite set_fun_eq, length_app in IH'. specialize (IH' ltac:(pose proof (opt_prop_length v n); lia) Ha q x Hq Hx).
  by rewrite set_fun_ne in IH'.
Qed.

Lemma props_lookup l h d x : wf l -> mnMap l !! h = Some d -> x ∈ props d -> mnUniquePropertyMap l !! x = Some (h, occ x (props d)).
Proof. intros Hwf Hd Hx. apply (wf_unique l Hwf). unfold props_in. rewrite Hd. cbn. split; [by apply occ_elem|done]. Qed.

Lemma prop_elem d v n : (v, n) ∈ prop_vals d -> v <> n -> SerializeHash v ∈ props d.
Proof.
  unfold props. generalize (prop_vals d). intros vs Hin Hne. induction vs as [|[v' n'] vs IH]; [by apply elem_of_nil in Hin|].
  rewrite opt_props_cons, elem_of_app. apply elem_of_cons in Hin as [[= -> ->]|Hin]; [|right; by apply IH].
  left. unfold opt_prop. rewrite bool_decide_false by done. by left.
Qed.

Lemma GetUniquePropertyMN_spec l h d v n : wf l -> mnMap l !! h = Some d -> (v, n) ∈ prop_vals d -> v <> n ->
  GetUniquePropertyMN l v = Some d /\ HasUniqueProperty l v = true.
Proof.
  intros Hwf Hd Hin Hne. pose proof (props_lookup l h d _ Hwf Hd (prop_elem d v n Hin Hne)) as E.
  unfold GetUniquePropertyMN, HasUniqueProperty. rewrite E. cbn. done.
Qed.

Lemma HasUniqueProperty_spec l v : wf l -> HasUniqueProperty l v = true <-> exists h d, mnMap l !! h = Some d /\ SerializeHash v ∈ props d.
Proof.
  intros Hwf. unfold HasUniqueProperty. rewrite bool_decide_eq_true. split.
  - intros [[h n] E]. apply (wf_unique l Hwf) in E as [H0 ->]. apply occ_elem in H0. unfold props_in in H0. exists h.
    destruct (mnMap l !! h) as [d|] eqn:Ed; [eauto|by apply elem_of_nil in H0].
  - intros (h & d & Hd & Hx). rewrite (props_lookup l h d _ Hwf Hd Hx). eauto.
Qed.

(** An update that keeps the properties of the smartnode. *)
Lemma free_same l h d s : wf l -> mnMap l !! h = Some d -> addr s = addr (pdmnState d) -> keyIDOwner s = keyIDOwner (pdmnState d) -> pubKeyOperator s = pubKeyOperator (pdmnState d) ->
  mn_ok (with_state d s) /\ free (mnMap l) h (with_state d s).
Proof.
  intros Hwf Hd Ea Eo Ep. destruct (wf_mn l Hwf _ _ Hd) as [_ Hok]. split.
  - unfold mn_ok. cbn. by rewrite Eo, Ep.
  - intros q d' x Hq Hd' Hx Hx'. assert (props (with_state d s) = props d) as E by (unfold props, prop_vals; cbn; by rewrite Ea, Eo, Ep). rewrite E in Hx.
    pose proof (props_lookup l h d x Hwf Hd Hx). pose proof (props_lookup l q d' x Hwf Hd' Hx'). congruence.
Qed.

Lemma UpdateMN_hash_same l h d s : wf l -> mnMap l !! h = Some d -> addr s = addr (pdmnState d) -> keyIDOwner s = keyIDOwner (pdmnState d) -> pubKeyOperator s = pubKeyOperator (pdmnState d) ->
  exists l', UpdateMN_hash l h s = Ok l' /\ wf l' /\ mnMap l' = <[h := with_state d s]> (mnMap l) /\
    l_blockHash l' = l_blockHash l /\ l_nHeight l' = l_nHeight l /\ nTotalRegisteredCount l' = nTotalRegisteredCount l.
Proof.
  intros Hwf Hd Ea Eo Ep. destruct (free_same l h d s) as [Hok Hf]; [done..|]. unfold UpdateMN_hash. rewrite Hd. by apply UpdateMN_spec.
Qed.

Lemma opt_props_unused l vs : Forall (fun p => p.1 = p.2 \/ HasUniqueProperty l p.1 = false) vs <-> forall x, x ∈ opt_props vs -> mnUniquePropertyMap l !! x = None.
Proof.
  induction vs as [|[v n] vs IH]; [split; [intros _ x Hx; by apply elem_of_nil in Hx|constructor]|]. rewrite Forall_cons, IH, opt_props_cons. cbn [fst snd].
  unfold HasUniqueProperty, opt_prop. setoid_rewrite elem_of_app. destruct (decide (v = n)) as [E|E]; [rewrite (bool_decide_true _ E)|rewrite (bool_decide_false _ E)].
  - split; [intros [_ H] x [Hx|Hx]; [by apply elem_of_nil in Hx|by apply H]|]. intros H. split; [by left|]. intros x Hx. apply H. by right.
  - setoid_rewrite list_elem_of_singleton. rewrite bool_decide_eq_false, <- eq_None_not_Some. split.
    + intros [[?|H0] Hu] x [->|Hx]; [done|by apply Hu|done|by apply Hu].
    + intros H. split; [right; apply H; by left|]. intros x Hx. apply H. by right.
Qed.

Lemma free_unused l d : wf l -> mnMap l !! proTxHash d = None ->
  free (mnMap l) (proTxHash d) d <-> Forall (fun p => p.1 = p.2 \/ HasUniqueProperty l p.1 = false) (prop_vals d).
Proof.
  intros Hwf Hn. rewrite opt_props_unused. unfold free. split.
  - intros Hf x Hx. apply (unique_none _ _ _ (wf_unique l Hwf)). intros p Hp. unfold props_in in Hp. destruct (mnMap l !! p) as [d'|] eqn:E; [|by apply elem_of_nil in Hp].
    apply (Hf p d' x); [congruence|done..].
  - intros Hu q d' x Hq Hd' Hx Hx'. pose proof (props_lookup l q d' x Hwf Hd' Hx'). rewrite (Hu x Hx) in *. done.
Qed.

Lemma add_opts_err vs l h e : add_opts l h vs = Err e -> e = AssertFail.
Proof.
  revert l. induction vs as [|[v n] vs IH]; intros l; cbn [add_opts]; [done|]. destruct (add_opt l h (v, n)) as [l'|e'] eqn:E; cbn [mbind result_bind]; [apply IH|].
  intros [= ->]. unfold add_opt in E. cbn [fst snd] in E. case_bool_decide; [done|]. unfold AddUniqueProperty in E. rewrite bool_decide_false in E by done.
  cbn [negb cassert mbind result_bind] in E. destruct (mnUniquePropertyMap l !! SerializeHash v) as [[p c]|]; [|done]. cbn [fst] in E. case_bool_decide; [done|]. by injection E.
Qed.

Lemma AddMN_iff l d : wf l -> mn_ok d -> mnInternalIdMap l !! internalId d = None ->
  if bool_decide (mnMap l !! proTxHash d = None /\ Forall (fun p => p.1 = p.2 \/ HasUniqueProperty l p.1 = false) (prop_vals d))
  then exists l', AddMN l d = Ok l' /\ wf l' /\ mnMap l' = <[proTxHash d := d]> (mnMap l)
  else AddMN l d = Err AssertFail.
Proof.
  intros Hwf Hok Hid. case_bool_decide as Hc.
  - destruct Hc as [Hn Hf]. apply free_unused in Hf; [|done..]. destruct (AddMN_spec l d Hwf Hok Hn Hid Hf) as (l' & ? & ? & ? & _). eauto.
  - destruct (decide (mnMap l !! proTxHash d = None)) as [Hn|Hn]; [|unfold AddMN; cbv zeta; by rewrite (bool_decide_false _ Hn)].
    rewrite AddMN_opts by done. set (l1 := set_ids _ _). destruct (add_opts l1 (proTxHash d) (prop_vals d)) as [l'|e] eqn:E; [|f_equal; by eapply add_opts_err].
    destruct Hc. split; [done|]. apply free_unused; [done..|]. intros q d' x Hq Hd' Hx Hx'.
    refine (add_opts_free _ l1 _ (props_in (mnMap l)) _ (wf_unique l Hwf) _ E q x Hq Hx _).
    + unfold props_in. rewrite Hn. cbn. lia.
    + unfold props_in. by rewrite Hd'.
Qed.

(** ** Results *)

(** C35: The maps of the smartnode list stay consistent.  From a consistent list,
    a smartnode can be added exactly when its hash is new and no smartnode of the list
    uses one of its properties (its id being new), and otherwise an assertion stops the
    program; a smartnode can be removed exactly when it is in the list; its state can
    be replaced when the properties of the new one are not used by others.  Each
    result is the map with that entry changed, and is consistent again; and in a
    consistent list every smartnode is found by its id, its collateral, its address
    and its keys, and only the values in use are reported as used. *)
Theorem smartnode_list_consistent (l : CDeterministicMNList) : wf l ->
  (forall d, mn_ok d -> mnInternalIdMap l !! internalId d = None ->
    if bool_decide (mnMap l !! proTxHash d = None /\ Forall (fun p => p.1 = p.2 \/ HasUniqueProperty l p.1 = false) (prop_vals d))
    then exists l', AddMN l d = Ok l' /\ wf l' /\ mnMap l' = <[proTxHash d := d]> (mnMap l)
    else AddMN l d = Err AssertFail) /\
  (forall h, match mnMap l !! h with
    | Some d => exists l', RemoveMN l h = Ok l' /\ wf l' /\ mnMap l' = delete h (mnMap l)
    | None => RemoveMN l h = Err AssertFail
    end) /\
  (forall h d s, mnMap l !! h = Some d -> mn_ok (with_state d s) -> free (mnMap l) h (with_state d s) ->
    exists l', UpdateMN_hash l h s = Ok l' /\ wf l' /\ mnMap l' = <[h := with_state d s]> (mnMap l)) /\
  (forall h d, mnMap l !! h = Some d -> GetMNByInternalId l (internalId d) = Some d /\ GetMNByCollateral l (collateralOutpoint d) = Some d /\
    forall v n, (v, n) ∈ prop_vals d -> v <> n -> GetUniquePropertyMN l v = Some d /\ HasUniqueProperty l v = true) /\
  (forall v, HasUniqueProperty l v = true -> exists h d, mnMap l !! h = Some d /\ SerializeHash v ∈ props d).
Proof.
  intros Hwf. split_and!.
  - intros d. by apply AddMN_iff.
  - intros h. destruct (mnMap l !! h) as [d|] eqn:Hd.
    + destruct (RemoveMN_spec l h d Hwf Hd) as (l' & ? & ? & ? & _). eauto.
    + unfold RemoveMN, GetMN. by rewrite Hd.
  - intros h d s Hd Hok Hf. destruct (UpdateMN_spec l h d s Hwf Hd Hok Hf) as (l' & ? & ? & ? & _). exists l'. unfold UpdateMN_hash. by rewrite Hd.
  - intros h d Hd. split_and!.
    + unfold GetMNByInternalId. rewrite (proj2 (wf_ids l Hwf (internalId d) h)) by eauto. exact Hd.
    + unfold GetMNByCollateral. destruct (wf_mn l Hwf h d Hd) as [_ [Hc _]].
      apply (GetUniquePropertyMN_spec l h d _ (ser COutPoint_null) Hwf Hd); [by left|done].
    + intros v n Hin Hne. by apply (GetUniquePropertyMN_spec l h d v n).
  - intros v. by apply HasUniqueProperty_spec.
Qed.

(** *** Proof of service *)

Fixpoint decrease_n (k : nat) (l : CDeterministicMNList) (h : uint256) : result CDeterministicMNList :=
  match k with O => Ok l | S k => l ← PoSeDecrease l h; decrease_n k l h end.

Definition penalty_of (l : CDeterministicMNList) (h : uint256) : Z := from_option (fun d => nPoSePenalty (pdmnState d)) 0 (GetMN l h).
Definition ban_height (l : CDeterministicMNList) (h : uint256) : Z := from_option (fun d => nPoSeBanHeight (pdmnState d)) (-1) (GetMN l h).

(** The smartnode [h] of the list [l] has the penalty [n] and the ban height [b];
    [l] has [size] smartnodes. *)
Definition pose (l : CDeterministicMNList) (h : uint256) (size n b height : Z) : Prop :=
  wf l /\ GetAllMNsCount l = size /\ l_nHeight l = height /\ exists d, mnMap l !! h = Some d /\ nPoSePenalty (pdmnState d) = n /\ nPoSeBanHeight (pdmnState d) = b.

Lemma pose_update l h size n b height d n' b' : pose l h size n b height -> mnMap l !! h = Some d ->
  exists l', UpdateMN_hash l h (set_penalty (pdmnState d) n' b') = Ok l' /\ pose l' h size n' b' height.
Proof.
  intros (Hwf & Hs & Hh & _) Hd. destruct (UpdateMN_hash_same l h d (set_penalty (pdmnState d) n' b')) as (l' & -> & Hw' & Em & _ & El & _); [done..|].
  exists l'. split; [done|]. split; [done|]. unfold GetAllMNsCount. rewrite Em, map_size_insert_Some, El by eauto. split; [done|]. split; [done|].
  eexists. rewrite lookup_insert_eq. done.
Qed.

Lemma pose_punish l h size n b height penalty : pose l h size n b height -> 0 <= size < 2 ^ 31 -> 0 <= n -> 0 < penalty -> n + penalty < 2 ^ 31 ->
  exists l', PoSePunish l h penalty = Ok l' /\
    pose l' h size (Z.min (Z.max 100 size) (n + penalty)) (if (Z.max 100 size <=? n + penalty) && (b =? -1) then height else b) height.
Proof.
  intros Hp Hs Hn Hp0 Hmax. destruct (Hp) as (Hwf & Es & Eh & d & Hd & <- & <-). unfold PoSePunish. rewrite (proj2 (Z.ltb_lt 0 penalty)) by done. cbn [cassert mbind result_bind].
  unfold GetMN. rewrite Hd. cbv zeta. unfold CalcMaxPoSePenalty. rewrite Es, Eh, !i32_small by lia.
  set (mx := Z.max 100 size). assert ((mx <=? Z.min mx (nPoSePenalty (pdmnState d) + penalty)) = (mx <=? nPoSePenalty (pdmnState d) + penalty)) as ->.
  { destruct (Z.leb_spec mx (nPoSePenalty (pdmnState d) + penalty)); [apply Z.leb_le; lia|apply Z.leb_gt; lia]. }
  by eapply pose_update.
Qed.

Lemma pose_decrease k l h size n height : pose l h size n (-1) height -> Z.of_nat k <= n ->
  exists l', decrease_n k l h = Ok l' /\ pose l' h size (n - Z.of_nat k) (-1) height.
Proof.
  revert l n. induction k as [|k IH]; intros l n Hp Hk; [exists l; by rewrite Z.sub_0_r|]. cbn [decrease_n].
  destruct (Hp) as (Hwf & _ & _ & d & Hd & En & Eb). unfold PoSeDecrease, GetMN. rewrite Hd. cbv zeta. rewrite En, Eb, (proj2 (Z.ltb_lt 0 n)) by lia.
  cbn [Z.eqb Pos.eqb andb cassert mbind result_bind]. destruct (pose_update l h size n (-1) height d (n - 1) (-1) Hp Hd) as (l' & -> & Hp'). cbn [mbind result_bind].
  destruct (IH l' (n - 1) Hp') as (l2 & E & Hp2); [lia|]. exists l2. split; [done|]. by replace (n - Z.of_nat (S k)) with (n - 1 - Z.of_nat k) by lia.
Qed.

(** A smartnode that fails two sessions of distributed key generation close to
    each other is banned.  A smartnode without a penalty is punished with 66 percent of
    the maximum, its penalty decreases [k] times, and it is punished again: it is not
    banned after the first failure, and after the second it is banned exactly when [k]
    is at most twice the penalty minus the maximum, that is, about a third of the
    maximum; the maximum is the number of smartnodes, and at least 100. *)
Theorem two_failures_ban (l : CDeterministicMNList) (h : uint256) (d : CDeterministicMN) (k : nat) (p : Z) :
  wf l -> mnMap l !! h = Some d -> GetAllMNsCount l < 2 ^ 24 -> nPoSePenalty (pdmnState d) = 0 -> nPoSeBanHeight (pdmnState d) = -1 ->
  CalcPenalty l 66 = Ok p -> Z.of_nat k <= p -> l_nHeight l <> -1 ->
  exists l1 l2 l3, PoSePunish l h p = Ok l1 /\ ban_height l1 h = -1 /\ decrease_n k l1 h = Ok l2 /\ PoSePunish l2 h p = Ok l3 /\ wf l3 /\
    (ban_height l3 h = l_nHeight l <-> Z.of_nat k <= 2 * p - CalcMaxPoSePenalty l) /\
    (ban_height l3 h = -1 <-> Z.of_nat k > 2 * p - CalcMaxPoSePenalty l) /\
    30 * CalcMaxPoSePenalty l <= 100 * (2 * p - CalcMaxPoSePenalty l).
Proof.
  intros Hwf Hd Hs Hn Hb Hp Hk Hh. assert (pose l h (GetAllMNsCount l) 0 (-1) (l_nHeight l)) as P0 by (split_and!; [done..|]; eauto).
  unfold CalcPenalty, CalcMaxPoSePenalty in *. assert (0 <= GetAllMNsCount l) by (unfold GetAllMNsCount; lia). set (size := GetAllMNsCount l) in *.
  rewrite (i32_small size), i32_small in * by lia. cbn [cassert mbind result_bind Z.ltb Z.compare] in Hp. injection Hp as Hp.
  rewrite Z.quot_div_nonneg in Hp by lia. set (mx := Z.max 100 size) in *.
  assert (mx * 66 - 100 < 100 * p <= mx * 66) as Hp' by (pose proof (Z.div_mod (mx * 66) 100); pose proof (Z.mod_pos_bound (mx * 66) 100); lia).
  destruct (pose_punish l h size 0 (-1) _ p P0) as (l1 & E1 & P1); [lia..|]. fold mx in P1. rewrite Z.add_0_l, (proj2 (Z.leb_gt mx p)), Z.min_r in P1 by lia. cbn [andb] in P1.
  destruct (pose_decrease k l1 h size p _ P1 Hk) as (l2 & E2 & P2).
  destruct (pose_punish l2 h size _ (-1) _ p P2) as (l3 & E3 & P3); [lia..|]. fold mx in P3. cbn [Z.eqb Pos.eqb] in P3. rewrite andb_true_r in P3.
  exists l1, l2, l3. split; [done|]. split.
  { destruct P1 as (_ & _ & _ & d1 & Hd1 & _ & Hb1). unfold ban_height, GetMN. by rewrite Hd1. }
  split; [done|]. split; [done|]. split; [apply P3|]. destruct P3 as (_ & _ & _ & d3 & Hd3 & _ & Hb3). unfold ban_height, GetMN. rewrite Hd3. cbn [from_option]. rewrite Hb3.
  destruct (Z.leb_spec mx (p - Z.of_nat k + p)); split_and!; try (split; intros; (lia || congruence)); lia.
Qed.
End List.

(** ** Witnesses *)

Lemma wf_new SerializeHash B h height total : wf SerializeHash B (list_new h height total).
Proof.
  split; cbn.
  - intros p d. by rewrite lookup_empty.
  - intros i p. rewrite lookup_empty. split; [done|]. intros (d & Hd & _). by rewrite lookup_empty in Hd.
  - intros k p n. rewrite lookup_empty. split; [done|]. intros [H0 ->]. unfold props_in in H0. by rewrite lookup_empty in H0.
Qed.

Definition toy_hash (v : list Z) : list Z := match v with [] => uint256_null | _ => v end.
Definition toy_state (k : Z) : CDeterministicMNState :=
  mkState 10 0 0 (-1) (-1) 0 uint256_null uint256_null (k :: replicate 19 1) (1 :: k :: replicate 46 0) (k :: replicate 19 2) (k :: replicate 17 3) [] [].
Definition toy_mn (k id : Z) : CDeterministicMN := mkMN (k :: replicate 31 0) id (mkOutPoint (k :: replicate 31 5) 0) 0 (toy_state k).
Definition toy_list : CDeterministicMNList :=
  match AddMN toy_hash toy_bls (list_new uint256_null 20 1) (toy_mn 7 0) with Ok l => l | Err _ => list_new uint256_null 20 1 end.

Lemma toy_mn_ok : mn_ok toy_bls (toy_mn 7 0).
Proof. split; [by vm_compute|]. split; [by vm_compute|]. by split. Qed.

Lemma wf_toy_list : wf toy_hash toy_bls toy_list.
Proof.
  destruct (AddMN_spec toy_hash toy_bls (list_new uint256_null 20 1) (toy_mn 7 0) (wf_new _ _ _ _ _) toy_mn_ok eq_refl eq_refl) as (l' & E & Hw & _).
  - intros q d' x _ Hd. cbn in Hd. by rewrite lookup_empty in Hd.
  - unfold toy_list. by rewrite E.
Qed.

Lemma smartnode_list_consistent_witness :
  AddMN toy_hash toy_bls toy_list (mkMN (replicate 32 9) 1 (mkOutPoint (replicate 32 8) 0) 0 (toy_state 7)) = Err AssertFail /\
  GetMNByInternalId toy_list 0 = Some (toy_mn 7 0).
Proof.
  destruct (smartnode_list_consistent toy_hash toy_bls toy_list wf_toy_list) as (Ha & _ & _ & Hg & _). split.
  - specialize (Ha (mkMN (replicate 32 9) 1 (mkOutPoint (replicate 32 8) 0) 0 (toy_state 7))). destruct (bool_decide _) eqn:E in Ha; [exfalso; revert E; by vm_compute|].
    apply Ha; [|reflexivity]. split; [by vm_compute|]. split; [by vm_compute|]. by split.
  - apply (Hg (proTxHash (toy_mn 7 0)) (toy_mn 7 0)). reflexivity.
Defined.

Lemma two_failures_ban_witness : exists l1 l2 l3, PoSePunish toy_hash toy_list (proTxHash (toy_mn 7 0)) 66 = Ok l1 /\
  decrease_n toy_hash 32 l1 (proTxHash (toy_mn 7 0)) = Ok l2 /\ PoSePunish toy_hash l2 (proTxHash (toy_mn 7 0)) 66 = Ok l3 /\
  ban_height l3 (proTxHash (toy_mn 7 0)) = 20.
Proof.
  destruct (two_failures_ban toy_hash toy_bls toy_list (proTxHash (toy_mn 7 0)) (toy_mn 7 0) 32 66) as (l1 & l2 & l3 & E1 & _ & E2 & E3 & _ & Hb & _);
    [exact wf_toy_list|reflexivity|by vm_compute|reflexivity|reflexivity|reflexivity|lia|by vm_compute|].
  exists l1, l2, l3. split_and!; [done..|]. apply Hb. by vm_compute.
Defined.
