(* ===== verification/SmartnodeDiff.v ===== *)
(** * Differences of smartnode lists
    (CDeterministicMNStateDiff, CDeterministicMNListDiff, BuildDiff and ApplyDiff of
    src/src/evo/deterministicmns.{h,cpp})

    The list of a block is stored as its difference from the list of the block before.
    [BuildDiff] records the smartnodes added, those removed by their id, and for those
    whose state changed the fields that changed; [ApplyDiff] repeats the changes.  The
    maps of the code are iterated in an order that is not specified: it is the
    parameter [order]. *)

From Stdlib Require Import ZArith Lia.
From stdpp Require Import base tactics numbers option list gmap sorting.
From S2P Require Import Prelude ArithUint256 Compact Block Serialize Transaction ProTx Smartnodes.

Open Scope Z_scope.

(** ** Fields of a state *)

Inductive Field :=
  | Field_nRegisteredHeight | Field_nLastPaidHeight | Field_nPoSePenalty | Field_nPoSeRevivedHeight | Field_nPoSeBanHeight
  | Field_nRevocationReason | Field_confirmedHash | Field_confirmedHashWithProRegTxHash | Field_keyIDOwner | Field_pubKeyOperator
  | Field_keyIDVoting | Field_addr | Field_scriptPayout | Field_scriptOperatorPayout.

#[global] Instance Field_eq_dec : EqDecision Field.
Proof. solve_decision. Defined.

Definition Field_bit (f : Field) : Z :=
  match f with
  | Field_nRegisteredHeight => 0x0001 | Field_nLastPaidHeight => 0x0002 | Field_nPoSePenalty => 0x0004 | Field_nPoSeRevivedHeight => 0x0008
  | Field_nPoSeBanHeight => 0x0010 | Field_nRevocationReason => 0x0020 | Field_confirmedHash => 0x0040
  | Field_confirmedHashWithProRegTxHash => 0x0080 | Field_keyIDOwner => 0x0100 | Field_pubKeyOperator => 0x0200
  | Field_keyIDVoting => 0x0400 | Field_addr => 0x0800 | Field_scriptPayout => 0x1000 | Field_scriptOperatorPayout => 0x2000
  end.

(** [DMN_STATE_DIFF_ALL_FIELDS] *)
Definition all_fields : list Field :=
  [Field_nRegisteredHeight; Field_nLastPaidHeight; Field_nPoSePenalty; Field_nPoSeRevivedHeight; Field_nPoSeBanHeight;
   Field_nRevocationReason; Field_confirmedHash; Field_confirmedHashWithProRegTxHash; Field_keyIDOwner; Field_pubKeyOperator;
   Field_keyIDVoting; Field_addr; Field_scriptPayout; Field_scriptOperatorPayout].

(** [a.f != b.f] *)
Definition field_neq (f : Field) (a b : CDeterministicMNState) : bool :=
  match f with
  | Field_nRegisteredHeight => negb (nRegisteredHeight a =? nRegisteredHeight b)
  | Field_nLastPaidHeight => negb (nLastPaidHeight a =? nLastPaidHeight b)
  | Field_nPoSePenalty => negb (nPoSePenalty a =? nPoSePenalty b)
  | Field_nPoSeRevivedHeight => negb (nPoSeRevivedHeight a =? nPoSeRevivedHeight b)
  | Field_nPoSeBanHeight => negb (nPoSeBanHeight a =? nPoSeBanHeight b)
  | Field_nRevocationReason => negb (nRevocationReason a =? nRevocationReason b)
  | Field_confirmedHash => negb (bool_decide (confirmedHash a = confirmedHash b))
  | Field_confirmedHashWithProRegTxHash => negb (bool_decide (confirmedHashWithProRegTxHash a = confirmedHashWithProRegTxHash b))
  | Field_keyIDOwner => negb (bool_decide (keyIDOwner a = keyIDOwner b))
  | Field_pubKeyOperator => negb (bool_decide (pubKeyOperator a = pubKeyOperator b))
  | Field_keyIDVoting => negb (bool_decide (keyIDVoting a = keyIDVoting b))
  | Field_addr => negb (bool_decide (addr a = addr b))
  | Field_scriptPayout => negb (bool_decide (scriptPayout a = scriptPayout b))
  | Field_scriptOperatorPayout => negb (bool_decide (scriptOperatorPayout a = scriptOperatorPayout b))
  end.

(** [t.f = s.f] *)
Definition copy_field (f : Field) (s t : CDeterministicMNState) : CDeterministicMNState :=
  let g {A} (f' : Field) (get : CDeterministicMNState -> A) : A := if bool_decide (f = f') then get s else get t in
  mkState (g Field_nRegisteredHeight nRegisteredHeight) (g Field_nLastPaidHeight nLastPaidHeight) (g Field_nPoSePenalty nPoSePenalty)
    (g Field_nPoSeRevivedHeight nPoSeRevivedHeight) (g Field_nPoSeBanHeight nPoSeBanHeight) (g Field_nRevocationReason nRevocationReason)
    (g Field_confirmedHash confirmedHash) (g Field_confirmedHashWithProRegTxHash confirmedHashWithProRegTxHash)
    (g Field_keyIDOwner keyIDOwner) (g Field_pubKeyOperator pubKeyOperator) (g Field_keyIDVoting keyIDVoting) (g Field_addr addr)
    (g Field_scriptPayout scriptPayout) (g Field_scriptOperatorPayout scriptOperatorPayout).

Record CDeterministicMNStateDiff := mkStateDiff { fields : Z; sd_state : CDeterministicMNState }.

#[global] Instance CDeterministicMNStateDiff_eq_dec : EqDecision CDeterministicMNStateDiff.
Proof. solve_decision. Defined.

(** The lines of the constructor with two states and of [ApplyToState], for the fields [fs]. *)
Definition diff_fields (fs : list Field) (a b : CDeterministicMNState) : CDeterministicMNStateDiff :=
  foldl (fun d f => if field_neq f a b then mkStateDiff (Z.lor (fields d) (Field_bit f)) (copy_field f b (sd_state d)) else d)
    (mkStateDiff 0 state_default) fs.
Definition apply_fields (fs : list Field) (d : CDeterministicMNStateDiff) (target : CDeterministicMNState) : CDeterministicMNState :=
  foldl (fun t f => if negb (Z.land (fields d) (Field_bit f) =? 0) then copy_field f (sd_state d) t else t) target fs.

Definition StateDiff (a b : CDeterministicMNState) : CDeterministicMNStateDiff := diff_fields all_fields a b.
Definition ApplyToState (d : CDeterministicMNStateDiff) (target : CDeterministicMNState) : CDeterministicMNState := apply_fields all_fields d target.

(** ** Differences of lists *)

Record CDeterministicMNListDiff := mkListDiff {
  addedMNs : list CDeterministicMN; updatedMNs : gmap Z CDeterministicMNStateDiff; removedMns : gset Z
}.

Definition HasChanges (d : CDeterministicMNListDiff) : bool :=
  negb (bool_decide (addedMNs d = [])) || negb (bool_decide (updatedMNs d = ∅)) || negb (bool_decide (removedMns d = ∅)).

(** [std::map::emplace] keeps an entry that is there; a map and a set are iterated in
    the order of the keys. *)
Definition emplace {A} (m : gmap Z A) (k : Z) (v : A) : gmap Z A := match m !! k with Some _ => m | None => <[k := v]> m end.
Definition key_le {A} (x y : Z * A) : Prop := x.1 <= y.1.
Definition id_le (a b : CDeterministicMN) : Prop := internalId a <= internalId b.
#[global] Instance key_le_dec {A} : RelDecision (@key_le A) := fun x y => Z.le_dec x.1 y.1.
#[global] Instance id_le_dec : RelDecision id_le := fun a b => Z.le_dec (internalId a) (internalId b).
Definition map_items {A} (m : gmap Z A) : list (Z * A) := merge_sort key_le (map_to_list m).
Definition set_items (s : gset Z) : list Z := merge_sort Z.le (elements s).

Section Diff.
Context (SerializeHash : list Z -> uint256) (B : BLS).
(** The order in which a map of smartnodes is iterated. *)
Context (order : gmap (list Z) CDeterministicMN -> list (list Z * CDeterministicMN)).

(** [ForEachMN(false, ...)] *)
Definition AllMNs (l : CDeterministicMNList) : list CDeterministicMN := (order (mnMap l)).*2.

(** One call of the first callback of [BuildDiff]; [from] is the list it is called on. *)
Definition diff_step (from : CDeterministicMNList) (r : list CDeterministicMN * gmap Z CDeterministicMNStateDiff) (toPtr : CDeterministicMN) :
  list CDeterministicMN * gmap Z CDeterministicMNStateDiff :=
  match GetMN from (proTxHash toPtr) with
  | None => (r.1 ++ [toPtr], r.2)
  | Some fromPtr =>
      let stateDiff := StateDiff (pdmnState fromPtr) (pdmnState toPtr) in
      if negb (fields stateDiff =? 0) then (r.1, emplace r.2 (internalId toPtr) stateDiff) else r
  end.

Definition removed_step (to : CDeterministicMNList) (r : gset Z) (fromPtr : CDeterministicMN) : gset Z :=
  match GetMN to (proTxHash fromPtr) with None => {[internalId fromPtr]} ∪ r | Some _ => r end.

Definition BuildDiff (from to : CDeterministicMNList) : CDeterministicMNListDiff :=
  let r := foldl (diff_step from) ([], ∅) (AllMNs to) in
  mkListDiff (merge_sort id_le r.1) r.2 (foldl (removed_step to) ∅ (AllMNs from)).

Fixpoint apply_removed (l : CDeterministicMNList) (ids : list Z) : result CDeterministicMNList :=
  match ids with
  | [] => Ok l
  | id :: ids =>
      match GetMNByInternalId l id with
      | None => Err AssertFail
      | Some d => l ← RemoveMN SerializeHash B l (proTxHash d); apply_removed l ids
      end
  end.
Fixpoint apply_added (l : CDeterministicMNList) (ds : list CDeterministicMN) : result CDeterministicMNList :=
  match ds with
  | [] => Ok l
  | d :: ds =>
      _ ← cassert (internalId d =? nTotalRegisteredCount l);
      l ← AddMN SerializeHash B l d;
      apply_added (SetTotalRegisteredCount l (u32 (nTotalRegisteredCount l + 1))) ds
  end.

(** [UpdateMN] with a difference: the pointer must not be null. *)
Definition UpdateMN_diff (l : CDeterministicMNList) (oldDmn : option CDeterministicMN) (d : CDeterministicMNStateDiff) : result CDeterministicMNList :=
  match oldDmn with
  | None => Err AssertFail
  | Some oldDmn => UpdateMN SerializeHash l oldDmn (ApplyToState d (pdmnState oldDmn))
  end.
Fixpoint apply_updated (l : CDeterministicMNList) (us : list (Z * CDeterministicMNStateDiff)) : result CDeterministicMNList :=
  match us with
  | [] => Ok l
  | (id, d) :: us => l ← UpdateMN_diff l (GetMNByInternalId l id) d; apply_updated l us
  end.

Definition ApplyDiff (l : CDeterministicMNList) (blockHash : uint256) (nHeight : Z) (diff : CDeterministicMNListDiff) : result CDeterministicMNList :=
  l ← apply_removed (SetHeight (SetBlockHash l blockHash) nHeight) (set_items (removedMns diff));
  l ← apply_added l (addedMNs diff);
  apply_updated l (map_items (updatedMNs diff)).
End Diff.

(** ** The difference of two states *)

Definition index (f : Field) : Z := Z.log2 (Field_bit f).

Lemma Field_bit_index f : Field_bit f = 2 ^ index f /\ 0 <= index f.
Proof. by destruct f. Qed.

Lemma index_inj f g : index f = index g -> f = g.
Proof. destruct f, g; first [done|by vm_compute]. Qed.

Lemma land_bit x f : negb (Z.land x (Field_bit f) =? 0) = Z.testbit x (index f).
Proof.
  destruct (Field_bit_index f) as [-> Hi]. rewrite Z.land_comm. destruct (Z.testbit x (index f)) eqn:E.
  - apply negb_true_iff, Z.eqb_neq. intros H. apply (f_equal (fun z => Z.testbit z (index f))) in H. rewrite Z.land_spec, Z.pow2_bits_true, E, Z.bits_0 in H by done. done.
  - apply negb_false_iff, Z.eqb_eq, Z.bits_inj'. intros n Hn. rewrite Z.land_spec, Z.pow2_bits_eqb, Z.bits_0 by done.
    destruct (Z.eqb_spec (index f) n) as [<-|]; [by rewrite E|done].
Qed.

Definition same (g : Field) (a b : CDeterministicMNState) : Prop := field_neq g a b = false.

#[global] Instance same_equivalence g : Equivalence (same g).
Proof.
  unfold same. split.
  - intros a. destruct g; cbn; rewrite negb_false_iff; (apply Z.eqb_refl || by apply bool_decide_true).
  - intros a b. destruct g; cbn; rewrite !negb_false_iff, ?Z.eqb_eq, ?bool_decide_eq_true; done.
  - intros a b c. destruct g; cbn; rewrite !negb_false_iff, ?Z.eqb_eq, ?bool_decide_eq_true; congruence.
Qed.

Lemma same_all a b : (forall g, same g a b) -> a = b.
Proof.
  unfold same. intros H. pose proof (H Field_nRegisteredHeight); pose proof (H Field_nLastPaidHeight); pose proof (H Field_nPoSePenalty); pose proof (H Field_nPoSeRevivedHeight);
    pose proof (H Field_nPoSeBanHeight); pose proof (H Field_nRevocationReason); pose proof (H Field_confirmedHash); pose proof (H Field_confirmedHashWithProRegTxHash);
    pose proof (H Field_keyIDOwner); pose proof (H Field_pubKeyOperator); pose proof (H Field_keyIDVoting); pose proof (H Field_addr); pose proof (H Field_scriptPayout);
    pose proof (H Field_scriptOperatorPayout). clear H. cbn in *.
  repeat match goal with H : negb _ = false |- _ => apply negb_false_iff in H; first [apply Z.eqb_eq in H|apply bool_decide_eq_true in H] end.
  destruct a, b. cbn in *. by subst.
Qed.

Lemma copy_field_same f s t : same f (copy_field f s t) s.
Proof. unfold same. destruct f; cbn; rewrite negb_false_iff; (apply Z.eqb_refl || by apply bool_decide_true). Qed.

Lemma copy_field_other f g s t : g <> f -> same g (copy_field f s t) t.
Proof. intros H. unfold same. destruct f, g; try done; cbn; rewrite negb_false_iff; (apply Z.eqb_refl || by apply bool_decide_true). Qed.

Lemma all_fields_in f : f ∈ all_fields.
Proof. by destruct f; apply (bool_decide_eq_true_1 (_ ∈ all_fields)). Qed.

Lemma all_fields_nodup : NoDup all_fields.
Proof. by apply (bool_decide_eq_true_1 (NoDup all_fields)). Qed.

Lemma diff_fields_spec a b fs g : NoDup fs ->
  (g ∈ fs -> Z.testbit (fields (diff_fields fs a b)) (index g) = field_neq g a b /\ (field_neq g a b = true -> same g (sd_state (diff_fields fs a b)) b)) /\
  (g ∉ fs -> Z.testbit (fields (diff_fields fs a b)) (index g) = false).
Proof.
  intros Hn. induction fs as [|f fs IH] using rev_ind; [split; [by intros ?%elem_of_nil|intros _; apply Z.bits_0]|].
  unfold diff_fields in *. rewrite foldl_snoc. set (d := foldl _ _ fs) in *. apply NoDup_app in Hn as (Hn & Hf & _). destruct (IH Hn) as [IH1 IH2]. clear IH.
  rewrite elem_of_app, list_elem_of_singleton. destruct (Field_bit_index f) as [Ef Hi].
  assert (forall x, Z.testbit (Z.lor x (Field_bit f)) (index g) = Z.testbit x (index g) || bool_decide (g = f)) as Hlor.
  { intros x. rewrite Z.lor_spec, Ef, Z.pow2_bits_eqb by done. f_equal. destruct (Z.eqb_spec (index f) (index g)) as [E|E].
    - apply index_inj in E as ->. by rewrite bool_decide_true.
    - rewrite bool_decide_false; [done|by intros ->]. }
  assert (f ∉ fs) as Hff by (intros Hin; apply (Hf f Hin); by left).
  destruct (decide (g = f)) as [->|Hg].
  - split; [intros _|intros []; by right]. destruct (field_neq f a b) eqn:E; cbn [fields sd_state].
    + rewrite Hlor, bool_decide_true, orb_true_r by done. split; [done|intros _; apply copy_field_same].
    + by rewrite (IH2 Hff).
  - assert (Z.testbit (fields (if field_neq f a b then mkStateDiff (Z.lor (fields d) (Field_bit f)) (copy_field f b (sd_state d)) else d)) (index g) = Z.testbit (fields d) (index g)) as ->.
    { destruct (field_neq f a b); [|done]. cbn [fields]. by rewrite Hlor, bool_decide_false, orb_false_r. }
    split; [intros [Hin|?]; [|done]|intros Hin; apply IH2; by intros ?; apply Hin; left]. destruct (IH1 Hin) as [-> Hs]. split; [done|]. intros E.
    destruct (field_neq f a b); [|by apply Hs]. cbn [sd_state]. by rewrite copy_field_other; [apply Hs|].
Qed.

Lemma apply_fields_spec d t fs g : NoDup fs ->
  same g (apply_fields fs d t) (if bool_decide (g ∈ fs) && Z.testbit (fields d) (index g) then sd_state d else t).
Proof.
  intros Hn. induction fs as [|f fs IH] using rev_ind; [reflexivity|]. unfold apply_fields in *. rewrite foldl_snoc. set (r := foldl _ _ fs) in *.
  apply NoDup_app in Hn as (Hn & Hf & _). specialize (IH Hn). rewrite land_bit. destruct (decide (g = f)) as [->|Hg].
  - rewrite (bool_decide_true (f ∈ fs ++ [f])) by (apply elem_of_app; right; by left). rewrite bool_decide_false in IH by (intros Hin; apply (Hf f Hin); by left).
    cbn [andb] in *. destruct (Z.testbit (fields d) (index f)); [apply copy_field_same|done].
  - assert (bool_decide (g ∈ fs ++ [f]) = bool_decide (g ∈ fs)) as -> by (apply bool_decide_ext; rewrite elem_of_app, list_elem_of_singleton; tauto).
    etrans; [|exact IH]. destruct (Z.testbit (fields d) (index f)); [by apply copy_field_other|done].
Qed.

(** The difference of two states turns the first into the second. *)
Lemma ApplyToState_StateDiff a b : ApplyToState (StateDiff a b) a = b.
Proof.
  apply same_all. intros g. unfold ApplyToState, StateDiff. destruct (diff_fields_spec a b all_fields g all_fields_nodup) as [Hd _].
  destruct (Hd (all_fields_in g)) as [Et Hs]. clear Hd. etrans; [apply (apply_fields_spec _ _ _ _ all_fields_nodup)|].
  rewrite bool_decide_true, Et by apply all_fields_in. cbn [andb]. destruct (field_neq g a b) eqn:E; [by apply Hs|exact E].
Qed.

Lemma diff_fields_same fs a : diff_fields fs a a = mkStateDiff 0 state_default.
Proof.
  assert (forall f, field_neq f a a = false) as Hf by (intros f; apply (reflexivity (R := same f))).
  induction fs as [|f fs IH] using rev_ind; [done|]. unfold diff_fields in *. by rewrite foldl_snoc, IH, Hf.
Qed.

Lemma apply_fields_none fs d t : fields d = 0 -> apply_fields fs d t = t.
Proof. intros H. induction fs as [|f fs IH] using rev_ind; [done|]. unfold apply_fields in *. by rewrite foldl_snoc, IH, H. Qed.

Lemma StateDiff_nochange a b : fields (StateDiff a b) = 0 <-> a = b.
Proof.
  split; [|intros ->; unfold StateDiff; by rewrite diff_fields_same]. intros H. rewrite <- (ApplyToState_StateDiff a b). unfold ApplyToState. by rewrite apply_fields_none.
Qed.

(** ** The difference of two lists *)

Section Lists.
Context (SerializeHash : list Z -> uint256) (B : BLS).
Context (order : gmap (list Z) CDeterministicMN -> list (list Z * CDeterministicMN)).
Hypothesis order_perm : forall m, order m ≡ₚ map_to_list m.
Abbreviation wf := (wf SerializeHash B).
Abbreviation AllMNs := (AllMNs order).
Abbreviation props := (props SerializeHash).

Lemma elem_AllMNs l d : wf l -> d ∈ AllMNs l <-> mnMap l !! proTxHash d = Some d.
Proof.
  intros Hwf. unfold SmartnodeDiff.AllMNs. rewrite (order_perm (mnMap l)), list_elem_of_fmap. split.
  - intros ([p d'] & -> & Hin%elem_of_map_to_list). cbn. by destruct (wf_mn _ _ l Hwf _ _ Hin) as [-> _].
  - intros Hd. exists (proTxHash d, d). split; [done|]. by apply elem_of_map_to_list.
Qed.

Lemma NoDup_AllMNs l : wf l -> NoDup (proTxHash <$> AllMNs l) /\ NoDup (internalId <$> AllMNs l).
Proof.
  intros Hwf. assert (NoDup (AllMNs l)) as Hn.
  { unfold SmartnodeDiff.AllMNs. rewrite (order_perm (mnMap l)). apply NoDup_fmap_2_strong; [|apply NoDup_map_to_list].
    intros [p d] [p' d'] Hin%elem_of_map_to_list Hin'%elem_of_map_to_list. cbn. intros ->.
    destruct (wf_mn _ _ l Hwf _ _ Hin) as [<- _], (wf_mn _ _ l Hwf _ _ Hin') as [<- _]. done. }
  split; apply NoDup_fmap_2_strong; try done; intros d d' Hd%elem_AllMNs Hd'%elem_AllMNs E; try done.
  - congruence.
  - pose proof (wf_id_inj _ _ l _ _ d d' Hwf Hd Hd' E). congruence.
Qed.

Lemma emplace_list {A} (l : list (Z * A)) : NoDup l.*1 -> foldl (fun m p => emplace m p.1 p.2) ∅ l = (list_to_map l : gmap Z A).
Proof.
  induction l as [|[k v] l IH] using rev_ind; intros Hn; [done|]. rewrite fmap_app in Hn. apply NoDup_app in Hn as (Hn & Hk & _).
  assert (k ∉ l.*1) as Hk' by (intros Hin; apply (Hk k Hin); by left).
  rewrite foldl_snoc, IH, list_to_map_snoc by done. unfold emplace. cbn [fst snd]. by rewrite not_elem_of_list_to_map_1.
Qed.

(** What [BuildDiff] records for a smartnode of the second list. *)
Definition diff_update (from : CDeterministicMNList) (d : CDeterministicMN) : option (Z * CDeterministicMNStateDiff) :=
  match mnMap from !! proTxHash d with
  | None => None
  | Some df => let sd := StateDiff (pdmnState df) (pdmnState d) in if negb (fields sd =? 0) then Some (internalId d, sd) else None
  end.

Lemma diff_fold from ds a u : foldl (diff_step from) (a, u) ds =
  (a ++ filter (fun d => mnMap from !! proTxHash d = None) ds, foldl (fun m p => emplace m p.1 p.2) u (omap (diff_update from) ds)).
Proof.
  revert a u. induction ds as [|d ds IH]; intros a u; [by rewrite app_nil_r|]. cbn [foldl omap list_omap]. rewrite filter_cons.
  assert (diff_step from (a, u) d = (if decide (mnMap from !! proTxHash d = None) then a ++ [d] else a, from_option (fun p => emplace u p.1 p.2) u (diff_update from d))) as ->.
  { unfold diff_step, diff_update, GetMN. destruct (mnMap from !! proTxHash d) as [df|]; [rewrite decide_False by done|by rewrite decide_True].
    generalize (StateDiff (pdmnState df) (pdmnState d)). intros sd. cbv zeta. by destruct (negb _). }
  rewrite IH. destruct (decide _); destruct (diff_update from d); cbn [from_option foldl]; rewrite ?(assoc_L (++)), <- ?(assoc_L (++)); done.
Qed.

Lemma omap_NoDup from ds : NoDup (internalId <$> ds) -> NoDup (omap (diff_update from) ds).*1.
Proof.
  induction ds as [|d ds IH]; intros Hn; [constructor|]. cbn [fmap list_fmap] in Hn. apply NoDup_cons in Hn as [Hd Hn]. cbn [omap list_omap].
  destruct (diff_update from d) as [[k sd]|] eqn:E; [|by apply IH]. cbn [fmap list_fmap fst]. constructor; [|by apply IH].
  assert (k = internalId d) as -> by (unfold diff_update in E; destruct (mnMap from !! proTxHash d); [|done]; cbv zeta in E; destruct (negb _); [|done]; by injection E).
  intros Hin. apply Hd. apply list_elem_of_fmap in Hin as ([k' sd'] & Ek & Hin). cbn in Ek. subst k'. apply list_elem_of_omap in Hin as (d' & Hd' & E').
  apply list_elem_of_fmap. exists d'. split; [|done]. unfold diff_update in E'. destruct (mnMap from !! proTxHash d'); [|done]. cbv zeta in E'. destruct (negb _); [|done]. by injection E'.
Qed.

Lemma removed_fold to ds s i : i ∈ foldl (removed_step to) s ds <-> i ∈ s \/ exists d, d ∈ ds /\ mnMap to !! proTxHash d = None /\ i = internalId d.
Proof.
  revert s. induction ds as [|d ds IH]; intros s; cbn [foldl]; [split; [by left|by intros [?|(? & ?%elem_of_nil & _)]]|].
  rewrite IH. unfold removed_step, GetMN. setoid_rewrite elem_of_cons. destruct (mnMap to !! proTxHash d) eqn:E.
  - split; [intros [?|(d' & ? & ?)]; [by left|right; exists d'; auto]|]. intros [?|(d' & [->|?] & ? & ?)]; [by left|congruence|right; eauto].
  - rewrite elem_of_union, elem_of_singleton. split.
    + intros [[->|?]|(d' & ? & ?)]; [right; eauto|by left|right; eauto].
    + intros [?|(d' & [->|?] & ? & ?)]; [auto|auto|right; eauto].
Qed.

(** *** Applying the difference *)

(** The parts of a smartnode that a difference of states leaves alone. *)
Definition same_mn (a b : CDeterministicMN) : Prop :=
  proTxHash a = proTxHash b /\ internalId a = internalId b /\ collateralOutpoint a = collateralOutpoint b /\ nOperatorReward a = nOperatorReward b.

(** A smartnode of the second list does not use a property that another one, which
    stays in the list, used before. *)
Definition compatible (from to : CDeterministicMNList) : Prop :=
  (forall h df dt, mnMap from !! h = Some df -> mnMap to !! h = Some dt -> same_mn df dt) /\
  (forall p q df dt x, p <> q -> mnMap from !! p = Some df -> is_Some (mnMap to !! p) -> mnMap to !! q = Some dt -> x ∈ props dt -> x ∉ props df).

Definition header_eq (l l' : CDeterministicMNList) : Prop :=
  l_blockHash l = l_blockHash l' /\ l_nHeight l = l_nHeight l'.

Lemma RemoveMN_filter l h d : wf l -> mnMap l !! h = Some d ->
  delete h (mnMap l) = filter (fun kv => internalId kv.2 <> internalId d) (mnMap l).
Proof.
  intros Hwf Hd. apply map_eq. intros p. destruct (decide (p = h)) as [->|Hp].
  - rewrite lookup_delete_eq. symmetry. apply map_lookup_filter_None. right. intros d' Hd' Hne. apply Hne. cbn. congruence.
  - rewrite lookup_delete_ne by done. destruct (mnMap l !! p) as [d'|] eqn:E.
    + symmetry. apply map_lookup_filter_Some. split; [done|]. cbn. intros Ei. destruct Hp.
      apply (wf_id_inj _ _ l p h d' d Hwf E Hd Ei).
    + symmetry. apply map_lookup_filter_None. by left.
Qed.

Lemma apply_removed_spec ids l : wf l -> NoDup ids -> (forall i, i ∈ ids -> exists h d, mnMap l !! h = Some d /\ internalId d = i) ->
  exists l', apply_removed SerializeHash B l ids = Ok l' /\ wf l' /\ mnMap l' = filter (fun kv => internalId kv.2 ∉ ids) (mnMap l) /\
    header_eq l' l /\ nTotalRegisteredCount l' = nTotalRegisteredCount l.
Proof.
  revert l. induction ids as [|i ids IH]; intros l Hwf Hn Hi; cbn [apply_removed].
  { exists l. split_and!; try done. symmetry. apply map_filter_id. intros k d _ ?%elem_of_nil. done. }
  apply NoDup_cons in Hn as [Hni Hn]. destruct (Hi i) as (h & d & Hd & Ei); [by left|].
  unfold GetMNByInternalId, GetMN. rewrite (proj2 (wf_ids _ _ l Hwf i h)) by eauto. cbn [mbind option_bind]. rewrite Hd.
  destruct (wf_mn _ _ l Hwf h d Hd) as [Eh _]. rewrite Eh. destruct (RemoveMN_spec _ _ l h d Hwf Hd) as (l1 & -> & Hw1 & Em1 & Eb & Ehh & Et). cbn [mbind result_bind].
  rewrite (RemoveMN_filter l h d Hwf Hd) in Em1. destruct (IH l1 Hw1 Hn) as (l' & -> & Hw' & Em' & [Eb' Eh'] & Et').
  - intros j Hj. destruct (Hi j) as (h' & d' & Hd' & Ej); [by right|]. exists h', d'. split; [|done]. rewrite Em1. apply map_lookup_filter_Some. split; [done|]. cbn. congruence.
  - exists l'. split_and!; try congruence; [|split; congruence]. rewrite Em', Em1, map_filter_filter. apply map_filter_ext. intros k d' _. cbn. rewrite elem_of_cons, Ei. tauto.
Qed.

Section Apply.
Context (from to : CDeterministicMNList).
Hypothesis (wf_to : wf to) (Hcompat : compatible from to).

(** A list between the two: every smartnode is as in the second list, or as in the
    first and still to be updated. *)
Definition mixed (l : CDeterministicMNList) : Prop :=
  wf l /\ forall p d, mnMap l !! p = Some d -> mnMap to !! p = Some d \/ (mnMap from !! p = Some d /\ is_Some (mnMap to !! p)).

Lemma mixed_free l h d : mixed l -> mnMap to !! h = Some d -> free SerializeHash (mnMap l) h d.
Proof.
  intros [_ Hm] Hd q d' x Hq Hd' Hx Hx'. destruct (Hm q d' Hd') as [Ht|[Hf Ht]].
  - pose proof (props_lookup _ _ to h d x wf_to Hd Hx). pose proof (props_lookup _ _ to q d' x wf_to Ht Hx'). congruence.
  - by apply (proj2 Hcompat q h d' d x).
Qed.

Lemma mixed_id l h d : mixed l -> mnMap l !! h = None -> mnMap to !! h = Some d -> mnInternalIdMap l !! internalId d = None.
Proof.
  intros [Hwf Hm] Hn Hd. destruct (mnInternalIdMap l !! internalId d) as [p|] eqn:E; [|done]. apply (wf_ids _ _ l Hwf) in E as (d' & Hd' & Ei).
  assert (exists dt, mnMap to !! p = Some dt /\ internalId dt = internalId d) as (dt & Hdt & Et).
  { destruct (Hm p d' Hd') as [Ht|[Hf [dt Ht]]]; [eauto|]. exists dt. split; [done|]. destruct (proj1 Hcompat p d' dt Hf Ht) as (_ & <- & _). done. }
  rewrite (wf_id_inj _ _ to p h dt d wf_to Hdt Hd Et) in *. congruence.
Qed.

Lemma mixed_insert l l' h d : mixed l -> mnMap to !! h = Some d -> wf l' -> mnMap l' = <[h := d]> (mnMap l) -> mixed l'.
Proof.
  intros [_ Hm] Hd Hw E. split; [done|]. intros p d'. rewrite E. destruct (decide (p = h)) as [->|]; [rewrite lookup_insert_eq; intros [= <-]; by left|].
  rewrite lookup_insert_ne by done. apply Hm.
Qed.

Lemma apply_added_spec ds l : mixed l -> NoDup (proTxHash <$> ds) -> (forall d, d ∈ ds -> mnMap to !! proTxHash d = Some d /\ mnMap l !! proTxHash d = None) ->
  internalId <$> ds = seqZ (nTotalRegisteredCount l) (Z.of_nat (length ds)) -> 0 <= nTotalRegisteredCount l -> nTotalRegisteredCount l + Z.of_nat (length ds) < 2 ^ 32 ->
  exists l', apply_added SerializeHash B l ds = Ok l' /\ mixed l' /\ header_eq l' l /\ nTotalRegisteredCount l' = nTotalRegisteredCount l + Z.of_nat (length ds) /\
    (forall d, d ∈ ds -> mnMap l' !! proTxHash d = Some d) /\ (forall p, p ∉ proTxHash <$> ds -> mnMap l' !! p = mnMap l !! p).
Proof.
  revert l. induction ds as [|d ds IH]; intros l Hm Hn Hds Hi H0 Hl; cbn [apply_added].
  { exists l. rewrite Z.add_0_r. split_and!; try done. by intros d ?%elem_of_nil. }
  cbn [fmap list_fmap length] in *. rewrite seqZ_cons in Hi by lia. injection Hi as Ei Hi. apply NoDup_cons in Hn as [Hd Hn].
  destruct (Hds d) as [Ht Hnew]; [by left|]. destruct (wf_mn _ _ to wf_to _ _ Ht) as [_ Hok]. rewrite Ei, Z.eqb_refl. cbn [cassert mbind result_bind].
  destruct (AddMN_spec _ _ l d (proj1 Hm) Hok Hnew (mixed_id l _ d Hm Hnew Ht) (mixed_free l _ d Hm Ht)) as (l1 & -> & Hw1 & Em & Eb & Eh & Et).
  cbn [mbind result_bind]. rewrite Et, u32_small by lia. set (l2 := SetTotalRegisteredCount l1 _).
  destruct (IH l2) as (l' & E & Hm' & [Eb' Eh'] & Et' & Hin & Hout).
  - assert (wf l2) as Hw2 by (by destruct Hw1; split). by eapply mixed_insert.
  - done.
  - intros d' Hd'. destruct (Hds d') as [Ht' Hnew']; [by right|]. split; [done|]. cbn. rewrite Em, lookup_insert_ne; [done|]. intros Eq. apply Hd. rewrite Eq. by apply list_elem_of_fmap_2.
  - cbn. replace (Z.pred (Z.of_nat (S (length ds)))) with (Z.of_nat (length ds)) in Hi by lia. exact Hi.
  - cbn. lia.
  - cbn. lia.
  - cbn in Eb', Eh', Et'. exists l'. split; [done|]. split; [done|]. split; [split; congruence|]. split; [lia|]. split.
    + intros d' [->|Hd']%elem_of_cons; [|by apply Hin]. rewrite Hout by done. cbn. by rewrite Em, lookup_insert_eq.
    + intros p [Hp Hp']%not_elem_of_cons. rewrite Hout by done. cbn. by rewrite Em, lookup_insert_ne.
Qed.

(** An update turns a smartnode of the first list into that of the second. *)
Definition is_update (u : Z * CDeterministicMNStateDiff) (h : uint256) : Prop :=
  exists df dt, mnMap from !! h = Some df /\ mnMap to !! h = Some dt /\ u = (internalId dt, StateDiff (pdmnState df) (pdmnState dt)).

Lemma same_mn_state df dt : same_mn df dt -> with_state df (pdmnState dt) = dt.
Proof. intros (E1 & E2 & E3 & E4). unfold with_state. rewrite E1, E2, E3, E4. by destruct dt. Qed.

Lemma apply_updated_spec us hs l : mixed l -> Forall2 is_update us hs -> NoDup hs -> (forall h, h ∈ hs -> mnMap l !! h = mnMap from !! h) ->
  exists l', apply_updated SerializeHash l us = Ok l' /\ mixed l' /\ header_eq l' l /\ nTotalRegisteredCount l' = nTotalRegisteredCount l /\
    (forall h, h ∈ hs -> mnMap l' !! h = mnMap to !! h) /\ (forall p, p ∉ hs -> mnMap l' !! p = mnMap l !! p).
Proof.
  intros Hm Hu. revert l Hm. induction Hu as [|u h us hs (df & dt & Hf & Ht & ->) Hu IH]; intros l Hm Hn Hl; cbn [apply_updated].
  { exists l. split_and!; try done. by intros h ?%elem_of_nil. }
  apply NoDup_cons in Hn as [Hh Hn]. pose proof (Hl h ltac:(by left)) as Hlh. rewrite Hf in Hlh. pose proof (proj1 Hcompat h df dt Hf Ht) as Hs. destruct (Hs) as (_ & Ei & _).
  unfold GetMNByInternalId, GetMN. rewrite (proj2 (wf_ids _ _ l (proj1 Hm) (internalId dt) h)) by eauto. cbn [mbind option_bind]. rewrite Hlh.
  unfold UpdateMN_diff. rewrite ApplyToState_StateDiff. pose proof (same_mn_state df dt Hs) as Ew.
  destruct (UpdateMN_spec SerializeHash B l h df (pdmnState dt) (proj1 Hm) Hlh) as (l1 & -> & Hw1 & Em & Eb & Eh & Et); rewrite ?Ew.
  { apply (wf_mn _ _ to wf_to _ _ Ht). }
  { by apply mixed_free. }
  cbn [mbind result_bind]. rewrite Ew in Em. destruct (IH l1) as (l' & E & Hm' & [Eb' Eh'] & Et' & Hin & Hout).
  - by eapply mixed_insert.
  - done.
  - intros h' Hh'. rewrite Em, lookup_insert_ne by (intros ->; done). apply Hl. by right.
  - exists l'. split; [done|]. split; [done|]. split; [split; congruence|]. split; [congruence|]. split.
    + intros h' [->|Hh']%elem_of_cons; [|by apply Hin]. rewrite Hout, Em, lookup_insert_eq by done. done.
    + intros p [Hp Hp']%not_elem_of_cons. rewrite Hout by done. by rewrite Em, lookup_insert_ne.
Qed.
End Apply.

Lemma map_items_perm {A} (m : gmap Z A) : map_items m ≡ₚ map_to_list m.
Proof. apply merge_sort_Permutation. Qed.

Lemma Forall_choose {A C} (P : A -> C -> Prop) l : (forall x, x ∈ l -> exists y, P x y) -> exists ys, Forall2 P l ys.
Proof.
  induction l as [|x l IH]; intros H; [exists []; constructor|]. destruct (H x) as [y Hy]; [by left|]. destruct IH as [ys Hys]; [intros x' Hx'; apply H; by right|].
  exists (y :: ys). by constructor.
Qed.

Lemma Forall2_NoDup {A C} (P : A -> C -> Prop) l ys : Forall2 P l ys -> (forall x x' y, P x y -> P x' y -> x = x') -> NoDup l -> NoDup ys.
Proof.
  intros H Hi. induction H as [|x y l ys Hxy H IH]; intros Hn; [constructor|]. apply NoDup_cons in Hn as [Hx Hn]. constructor; [|by apply IH].
  intros Hy. apply list_elem_of_lookup in Hy as [i Hy]. destruct (Forall2_lookup_r _ _ _ _ _ H Hy) as (x' & Hx' & Hp). apply Hx. rewrite (Hi x x' y Hxy Hp). by eapply list_elem_of_lookup_2.
Qed.

Lemma diff_update_spec from to d u : wf to -> d ∈ AllMNs to -> diff_update from d = Some u ->
  exists df, mnMap from !! proTxHash d = Some df /\ mnMap to !! proTxHash d = Some d /\ u = (internalId d, StateDiff (pdmnState df) (pdmnState d)) /\ pdmnState df <> pdmnState d.
Proof.
  intros Hwf Hd E. apply elem_AllMNs in Hd; [|done]. unfold diff_update in E. destruct (mnMap from !! proTxHash d) as [df|]; [|done]. exists df. cbv zeta in E.
  destruct (Z.eqb_spec (fields (StateDiff (pdmnState df) (pdmnState d))) 0) as [H0|H0]; cbn [negb] in E; [done|]. rewrite StateDiff_nochange in H0.
  split_and!; try done. by injection E as <-.
Qed.

Lemma BuildDiff_updated from to : wf to -> exists hs, Forall2 (is_update from to) (map_items (updatedMNs (BuildDiff order from to))) hs /\ NoDup hs /\
  forall h, h ∈ hs <-> exists df dt, mnMap from !! h = Some df /\ mnMap to !! h = Some dt /\ pdmnState df <> pdmnState dt.
Proof.
  intros Hwf. unfold BuildDiff. rewrite diff_fold. cbn [updatedMNs snd]. set (us := omap (diff_update from) (AllMNs to)).
  destruct (NoDup_AllMNs to Hwf) as [Hnh Hni]. pose proof (omap_NoDup from _ Hni) as Hnu. fold us in Hnu. rewrite emplace_list by done.
  set (items := map_items _). assert (items ≡ₚ us) as Hp by (etrans; [apply map_items_perm|]; by apply map_to_list_to_map).
  assert (forall u, u ∈ items -> exists d df, u = (internalId d, StateDiff (pdmnState df) (pdmnState d)) /\ mnMap from !! proTxHash d = Some df /\ mnMap to !! proTxHash d = Some d /\ pdmnState df <> pdmnState d) as Hitems.
  { intros u Hu. rewrite Hp in Hu. unfold us in Hu. apply list_elem_of_omap in Hu as (d & Hd & E). destruct (diff_update_spec from to d u Hwf Hd E) as (df & ? & ? & ? & ?). eauto 10. }
  destruct (Forall_choose (is_update from to) items) as [hs Hhs].
  { intros u Hu. destruct (Hitems u Hu) as (d & df & -> & ? & ? & _). exists (proTxHash d), df, d. eauto. }
  assert (forall h df dt u, mnMap from !! h = Some df -> mnMap to !! h = Some dt -> is_update from to u h -> u = (internalId dt, StateDiff (pdmnState df) (pdmnState dt))) as Huniq.
  { intros h df dt u Hf Ht (df' & dt' & Hf' & Ht' & ->). by simplify_eq. }
  exists hs. split; [done|]. split.
  { apply (Forall2_NoDup _ _ _ Hhs); [|rewrite Hp; by eapply NoDup_fmap_1]. intros u u' h (df & dt & Hf & Ht & ->) Hu'. symmetry. by eapply Huniq. }
  intros h. split.
  - intros [i Hh]%list_elem_of_lookup. destruct (Forall2_lookup_r _ _ _ _ _ Hhs Hh) as (u & Hu & (df & dt & Hf & Ht & Eu)). exists df, dt. split; [done|]. split; [done|].
    apply list_elem_of_lookup_2 in Hu. destruct (Hitems u Hu) as (d & df' & Eu' & Hf' & Ht' & Hne).
    assert (proTxHash d = h) as <-; [|congruence]. rewrite Eu in Eu'. injection Eu' as Ei _.
    by apply (wf_id_inj _ _ to _ _ d dt Hwf).
  - intros (df & dt & Hf & Ht & Hne). destruct (wf_mn _ _ to Hwf h dt Ht) as [Eh _]. subst h.
    assert ((internalId dt, StateDiff (pdmnState df) (pdmnState dt)) ∈ items) as Hin.
    { rewrite Hp. apply list_elem_of_omap. exists dt. split; [by apply elem_AllMNs|]. unfold diff_update. rewrite Hf. cbv zeta.
      destruct (Z.eqb_spec (fields (StateDiff (pdmnState df) (pdmnState dt))) 0) as [H0|H0]; [by apply StateDiff_nochange in H0|done]. }
    apply list_elem_of_lookup in Hin as [i Hi]. destruct (Forall2_lookup_l _ _ _ _ _ Hhs Hi) as (h' & Hh' & (df' & dt' & Hf' & Ht' & Eu)).
    assert (h' = proTxHash dt) as ->; [|by eapply list_elem_of_lookup_2]. injection Eu as Ei _.
    by apply (wf_id_inj _ _ to _ _ dt' dt Hwf).
Qed.

Lemma BuildDiff_added from to : wf to -> addedMNs (BuildDiff order from to) ≡ₚ filter (fun d => mnMap from !! proTxHash d = None) (AllMNs to).
Proof. intros Hwf. unfold BuildDiff. rewrite diff_fold. cbn [addedMNs fst app]. apply merge_sort_Permutation. Qed.

Lemma elem_added from to d : wf to -> d ∈ addedMNs (BuildDiff order from to) <-> mnMap to !! proTxHash d = Some d /\ mnMap from !! proTxHash d = None.
Proof. intros Hwf. rewrite (BuildDiff_added from to Hwf), list_elem_of_filter, elem_AllMNs by done. tauto. Qed.

Lemma NoDup_fmap_filter {A C} (f : A -> C) (P : A -> Prop) `{!forall x, Decision (P x)} l : NoDup (f <$> l) -> NoDup (f <$> filter P l).
Proof.
  induction l as [|x l IH]; intros Hn; [constructor|]. cbn [fmap list_fmap] in Hn. apply NoDup_cons in Hn as [Hx Hn]. rewrite filter_cons. destruct (decide (P x)); [|by apply IH].
  cbn [fmap list_fmap]. constructor; [|by apply IH]. intros Hin. apply Hx. apply list_elem_of_fmap in Hin as (y & -> & Hy). apply list_elem_of_filter in Hy as [_ Hy]. by apply list_elem_of_fmap_2.
Qed.

Lemma added_NoDup from to : wf to -> NoDup (proTxHash <$> addedMNs (BuildDiff order from to)) /\ NoDup (internalId <$> addedMNs (BuildDiff order from to)).
Proof. intros Hwf. destruct (NoDup_AllMNs to Hwf) as [Hh Hi]. rewrite (BuildDiff_added from to Hwf). split; by apply NoDup_fmap_filter. Qed.

(** The ids of the added smartnodes are consecutive. *)
Definition consecutive (from to : CDeterministicMNList) : Prop :=
  0 <= nTotalRegisteredCount from <= nTotalRegisteredCount to /\ nTotalRegisteredCount to < 2 ^ 32 /\
  forall i, nTotalRegisteredCount from <= i < nTotalRegisteredCount to <-> exists h d, mnMap to !! h = Some d /\ mnMap from !! h = None /\ internalId d = i.

Lemma seqZ_sorted m n : StronglySorted Z.le (seqZ m n).
Proof.
  destruct (decide (0 <= n)) as [Hn|Hn]; [|rewrite seqZ_nil by lia; constructor]. revert m. pattern n. apply natlike_ind; [intros m; constructor| |done].
  intros k Hk IH m. rewrite seqZ_cons by lia. rewrite Z.pred_succ. constructor; [apply IH|]. apply Forall_seqZ. lia.
Qed.

Lemma added_ids from to : wf to -> consecutive from to ->
  internalId <$> addedMNs (BuildDiff order from to) = seqZ (nTotalRegisteredCount from) (nTotalRegisteredCount to - nTotalRegisteredCount from).
Proof.
  intros Hwf (Hn & _ & Hi). destruct (added_NoDup from to Hwf) as [_ Hnd]. apply (StronglySorted_unique Z.le).
  - unfold BuildDiff. cbn [addedMNs]. generalize (foldl (diff_step from) ([], ∅) (AllMNs to)).1. intros ds. assert (StronglySorted id_le (merge_sort id_le ds)) as Hs.
    { apply StronglySorted_merge_sort; [intros a b c; unfold id_le; lia|intros a b; unfold id_le; lia]. }
    induction Hs as [|d ds' Hs IH Hf]; constructor; [done|]. by apply Forall_fmap.
  - apply seqZ_sorted.
  - apply NoDup_Permutation; [done|apply NoDup_seqZ|]. intros i. rewrite elem_of_seqZ, list_elem_of_fmap. replace (_ + _) with (nTotalRegisteredCount to) by lia.
    rewrite Hi. split.
    + intros (d & -> & Hd). apply elem_added in Hd as [? ?]; [|done]. eauto.
    + intros (h & d & Hd & Hf & Ei). exists d. split; [done|]. destruct (wf_mn _ _ to Hwf h d Hd) as [<- _]. by apply elem_added.
Qed.

Lemma elem_removed from to i : wf from -> i ∈ removedMns (BuildDiff order from to) <-> exists h d, mnMap from !! h = Some d /\ mnMap to !! h = None /\ internalId d = i.
Proof.
  intros Hwf. cbn [BuildDiff removedMns]. rewrite removed_fold. split.
  - intros [?%elem_of_empty|(d & Hd & Ht & ->)]; [done|]. apply elem_AllMNs in Hd; [|done]. eauto.
  - intros (h & d & Hd & Ht & <-). right. destruct (wf_mn _ _ from Hwf h d Hd) as [<- _]. exists d. split; [by apply elem_AllMNs|]. done.
Qed.

Section Steps.
Context (from to : CDeterministicMNList).
Hypothesis (wf_from : wf from) (wf_to : wf to) (Hcompat : compatible from to) (Hcons : consecutive from to).

Lemma removed_applied l : wf l -> mnMap l = mnMap from -> exists l', apply_removed SerializeHash B l (set_items (removedMns (BuildDiff order from to))) = Ok l' /\
  mixed from to l' /\ header_eq l' l /\ nTotalRegisteredCount l' = nTotalRegisteredCount l /\
  (forall p, mnMap to !! p = None -> mnMap l' !! p = None) /\ (forall p, is_Some (mnMap to !! p) -> mnMap l' !! p = mnMap from !! p).
Proof.
  intros Hw El. set (ids := set_items _). assert (forall i, i ∈ ids <-> exists h d, mnMap from !! h = Some d /\ mnMap to !! h = None /\ internalId d = i) as Hrem.
  { intros i. unfold ids, set_items. rewrite merge_sort_Permutation, elem_of_elements. by apply elem_removed. }
  destruct (apply_removed_spec ids l Hw) as (l1 & -> & Hw1 & Em1 & Eh1 & Et1).
  { unfold ids, set_items. rewrite merge_sort_Permutation. apply NoDup_elements. }
  { intros i (h & d & ? & ? & ?)%Hrem. rewrite El. eauto. }
  assert (forall p d, mnMap l1 !! p = Some d <-> mnMap from !! p = Some d /\ is_Some (mnMap to !! p)) as El1.
  { intros p d. rewrite Em1, El, map_lookup_filter_Some. cbn [snd]. rewrite Hrem. split.
    - intros [Hd Hn]. split; [done|]. destruct (mnMap to !! p) eqn:Ht; [done|]. destruct Hn. eauto.
    - intros [Hd [dt Ht]]. split; [done|]. intros (h & d' & Hd' & Hn & Ei). rewrite (wf_id_inj _ _ from h p d' d wf_from Hd' Hd Ei) in Hn. congruence. }
  exists l1. split; [done|]. split; [split; [done|]; intros p d Hd%El1; by right|]. split; [done|]. split; [done|]. split.
  - intros p Hp. destruct (mnMap l1 !! p) as [d|] eqn:E; [|done]. apply El1 in E as [_ [? ?]]. congruence.
  - intros p Hp. apply option_eq. intros d. rewrite El1. tauto.
Qed.

Lemma diff_applied : exists l', ApplyDiff SerializeHash B from (l_blockHash to) (l_nHeight to) (BuildDiff order from to) = Ok l' /\ wf l' /\
  l_blockHash l' = l_blockHash to /\ l_nHeight l' = l_nHeight to /\ nTotalRegisteredCount l' = nTotalRegisteredCount to /\ mnMap l' = mnMap to.
Proof.
  unfold ApplyDiff. set (l0 := SetHeight _ _). assert (wf l0) as Hw0 by (by destruct wf_from; split).
  destruct (removed_applied l0 Hw0 eq_refl) as (l1 & -> & Hm1 & [Eb1 Eh1] & Et1 & Hn1 & Hs1). cbn [mbind result_bind]. cbn in Eb1, Eh1, Et1.
  pose proof (added_ids from to wf_to Hcons) as Hids. destruct (added_NoDup from to wf_to) as [Hnd _]. pose proof (fun d => elem_added from to d wf_to) as Hadd.
  destruct (Hcons) as (Hn & Hmax & _). set (ds := addedMNs (BuildDiff order from to)) in *.
  assert (nTotalRegisteredCount to - nTotalRegisteredCount from = Z.of_nat (length ds)) as Hlen.
  { apply (f_equal length) in Hids. rewrite length_fmap, length_seqZ in Hids. lia. }
  destruct (apply_added_spec from to wf_to Hcompat ds l1) as (l2 & -> & Hm2 & [Eb2 Eh2] & Et2 & Hin2 & Hout2); [exact Hm1|exact Hnd| | | | |].
  { intros d [Ht Hf]%Hadd. split; [done|]. rewrite Hs1 by eauto. done. }
  { by rewrite Hids, Hlen, Et1. }
  { lia. }
  { lia. }
  cbn [mbind result_bind]. destruct (BuildDiff_updated from to wf_to) as (hs & Hu & Hnh & Hhs).
  assert (forall h, is_Some (mnMap from !! h) -> h ∉ proTxHash <$> ds) as Hold.
  { intros h [df Hf] (d & -> & [_ Hd]%Hadd)%list_elem_of_fmap. congruence. }
  destruct (apply_updated_spec from to wf_to Hcompat _ hs l2 Hm2 Hu Hnh) as (l3 & -> & Hm3 & [Eb3 Eh3] & Et3 & Hin3 & Hout3).
  { intros h (df & dt & Hf & Ht & _)%Hhs. rewrite Hout2, Hs1 by eauto. done. }
  exists l3. split; [done|]. split; [apply Hm3|]. split; [congruence|]. split; [congruence|]. split; [lia|]. apply map_eq. intros p.
  destruct (decide (p ∈ hs)) as [Hp|Hp]; [by apply Hin3|]. rewrite Hout3 by done. destruct (mnMap to !! p) as [dt|] eqn:Ht, (mnMap from !! p) as [df|] eqn:Hf.
  - rewrite Hout2, Hs1, Hf by eauto. destruct (decide (pdmnState df = pdmnState dt)) as [Es|Es]; [|destruct Hp; apply Hhs; eauto].
    by rewrite <- (same_mn_state df dt (proj1 Hcompat p df dt Hf Ht)), <- Es; destruct df.
  - destruct (wf_mn _ _ to wf_to p dt Ht) as [<- _]. apply Hin2, Hadd. done.
  - rewrite Hout2, Hn1 by eauto. done.
  - rewrite Hout2; [by rewrite Hn1|]. intros (d & -> & [Hd _]%Hadd)%list_elem_of_fmap. congruence.
Qed.
End Steps.

(** The list of a block can be rebuilt from the list of the block before and the
    stored difference.  For two consistent lists where the smartnodes in both keep
    their identity, the ids of the new ones continue the count of the first list, and no
    smartnode takes over a property of one that stays, applying the difference of the
    lists to the first one trips no assertion and gives the second list with all its
    maps, whatever the order in which the maps are iterated. *)
Theorem diff_rebuilds_list (from to : CDeterministicMNList) :
  wf from -> wf to -> compatible from to -> consecutive from to ->
  ApplyDiff SerializeHash B from (l_blockHash to) (l_nHeight to) (BuildDiff order from to) = Ok to.
Proof.
  intros Hwf Hwt Hc Hcons. destruct (diff_applied from to Hwf Hwt Hc Hcons) as (l' & -> & Hw' & Eb & Eh & Et & Em).
  destruct (wf_determined _ _ l' to Hw' Hwt Em) as [Ei Eu]. destruct l', to. cbn in *. by subst.
Qed.
End Lists.

(** ** Witness *)

Definition toy_list2 : CDeterministicMNList :=
  match AddMN toy_hash toy_bls (SetTotalRegisteredCount (SetHeight toy_list 21) 2) (toy_mn 8 1) with Ok l => l | Err _ => toy_list end.

Lemma toy_map : mnMap toy_list = {[proTxHash (toy_mn 7 0) := toy_mn 7 0]}.
Proof. reflexivity. Qed.

Lemma toy_disjoint x : x ∈ props toy_hash (toy_mn 8 1) -> x ∉ props toy_hash (toy_mn 7 0).
Proof.
  assert (Forall (fun x => x ∉ props toy_hash (toy_mn 7 0)) (props toy_hash (toy_mn 8 1))) as H by (apply (bool_decide_eq_true_1 _); by vm_compute).
  rewrite Forall_forall in H. apply H.
Qed.

Lemma toy_list2_spec : wf toy_hash toy_bls toy_list2 /\ mnMap toy_list2 = <[proTxHash (toy_mn 8 1) := toy_mn 8 1]> (mnMap toy_list) /\ nTotalRegisteredCount toy_list2 = 2.
Proof.
  destruct (AddMN_spec toy_hash toy_bls (SetTotalRegisteredCount (SetHeight toy_list 21) 2) (toy_mn 8 1)) as (l' & E & Hw & Em & _ & _ & Et).
  - destruct wf_toy_list. by split.
  - split; [by vm_compute|]. split; [by vm_compute|]. by split.
  - reflexivity.
  - reflexivity.
  - intros q d' x _ Hd Hx. cbn [mnMap SetTotalRegisteredCount SetHeight] in Hd. rewrite toy_map in Hd. apply lookup_singleton_Some in Hd as [_ <-]. by apply toy_disjoint.
  - unfold toy_list2. rewrite E. split; [exact Hw|]. split; [exact Em|exact Et].
Qed.

Lemma toy_compatible l1 l2 : mnMap l1 = {[proTxHash (toy_mn 7 0) := toy_mn 7 0]} -> mnMap l2 = <[proTxHash (toy_mn 8 1) := toy_mn 8 1]> (mnMap l1) ->
  nTotalRegisteredCount l1 = 1 -> nTotalRegisteredCount l2 = 2 -> compatible toy_hash l1 l2 /\ consecutive l1 l2.
Proof.
  intros E1 E2 T1 T2. rewrite E1 in E2. unfold compatible, consecutive. rewrite E1, E2, T1, T2. split; [split|split_and!; [done..|]].
  - intros h df dt [<- <-]%lookup_singleton_Some Ht. rewrite lookup_insert_ne, lookup_singleton_eq in Ht by done. injection Ht as <-. by split_and!.
  - intros p q df dt x Hp [<- <-]%lookup_singleton_Some _. rewrite lookup_insert_Some. intros [[_ <-]|[_ [<- <-]%lookup_singleton_Some]]; [apply toy_disjoint|by destruct Hp].
  - intros i. split.
    + intros Hi. exists (proTxHash (toy_mn 8 1)), (toy_mn 8 1). rewrite lookup_insert_eq. split_and!; [done..|]. cbn. lia.
    + intros (h & d & [[_ <-]|[_ [<- <-]%lookup_singleton_Some]]%lookup_insert_Some & Hn & <-); [by vm_compute|]. by rewrite lookup_singleton_eq in Hn.
Qed.

Lemma diff_rebuilds_list_witness : ApplyDiff toy_hash toy_bls toy_list (l_blockHash toy_list2) (l_nHeight toy_list2) (BuildDiff map_to_list toy_list toy_list2) = Ok toy_list2.
Proof.
  destruct toy_list2_spec as (Hw & Em & Et). destruct (toy_compatible toy_list toy_list2 toy_map Em eq_refl Et) as [Hc Hn].
  exact (diff_rebuilds_list toy_hash toy_bls map_to_list (fun m => reflexivity _) toy_list toy_list2 wf_toy_list Hw Hc Hn).
Defined.
