(* ===== verification/NetAddress.v ===== *)
(** * Network addresses
    (CNetAddr, CService and CSubNet of src/src/netaddress.{h,cpp})

    An address is its sixteen bytes, an IPv4 address with the mapped prefix; a service
    has its port after them, most significant byte first, as it is serialized.  The
    scope of a link-local address is not part of the model: it is neither compared nor
    serialized. *)

From Stdlib Require Import ZArith Lia Btauto.
From stdpp Require Import base tactics numbers option list.
From S2P Require Import Prelude.

Open Scope Z_scope.

(** ** Classes of addresses *)

Definition pchIPv4 : list Z := [0; 0; 0; 0; 0; 0; 0; 0; 0; 0; 0xff; 0xff].
Definition pchOnionCat : list Z := [0xFD; 0x87; 0xD8; 0x7E; 0xEB; 0x43].
Definition g_internal_prefix : list Z := [0xFD; 0x6B; 0x88; 0xC0; 0x87; 0x24].

(** [memcmp(ip, p, sizeof(p)) == 0] *)
Definition has_prefix (p ip : list Z) : bool := bool_decide (take (length p) ip = p).

Inductive Network := NET_UNROUTABLE | NET_IPV4 | NET_IPV6 | NET_ONION | NET_INTERNAL.
Definition Network_value (n : Network) : Z :=
  match n with NET_UNROUTABLE => 0 | NET_IPV4 => 1 | NET_IPV6 => 2 | NET_ONION => 3 | NET_INTERNAL => 4 end.

#[global] Instance Network_eq_dec : EqDecision Network.
Proof. solve_decision. Defined.

Definition SetRaw (network : Network) (ip_in : list Z) : result (list Z) :=
  match network with
  | NET_IPV4 => Ok (pchIPv4 ++ take 4 ip_in)
  | NET_IPV6 => Ok (take 16 ip_in)
  | _ => Err AssertFail
  end.

(** [SetInternal]: the hash of the name behind the prefix. *)
Definition SetInternal (SHA256 : list Z -> list Z) (name : list Z) : option (list Z) :=
  if bool_decide (name = []) then None else Some (g_internal_prefix ++ take 10 (SHA256 name)).

Section Classes.
Context (fAllowPrivateNet : bool).

Definition GetByte (ip : list Z) (n : nat) : Z := ip !!! (15 - n)%nat.

Definition IsIPv4 (ip : list Z) : bool := has_prefix pchIPv4 ip.
Definition IsRFC1918 (ip : list Z) : bool :=
  IsIPv4 ip && ((GetByte ip 3 =? 10) || ((GetByte ip 3 =? 192) && (GetByte ip 2 =? 168)) ||
                ((GetByte ip 3 =? 172) && ((16 <=? GetByte ip 2) && (GetByte ip 2 <=? 31)))).
Definition IsRFC2544 (ip : list Z) : bool := IsIPv4 ip && (GetByte ip 3 =? 198) && ((GetByte ip 2 =? 18) || (GetByte ip 2 =? 19)).
Definition IsRFC3927 (ip : list Z) : bool := IsIPv4 ip && ((GetByte ip 3 =? 169) && (GetByte ip 2 =? 254)).
Definition IsRFC6598 (ip : list Z) : bool := IsIPv4 ip && (GetByte ip 3 =? 100) && (64 <=? GetByte ip 2) && (GetByte ip 2 <=? 127).
Definition IsRFC5737 (ip : list Z) : bool :=
  IsIPv4 ip && (((GetByte ip 3 =? 192) && (GetByte ip 2 =? 0) && (GetByte ip 1 =? 2)) ||
                ((GetByte ip 3 =? 198) && (GetByte ip 2 =? 51) && (GetByte ip 1 =? 100)) ||
                ((GetByte ip 3 =? 203) && (GetByte ip 2 =? 0) && (GetByte ip 1 =? 113))).
Definition IsRFC3849 (ip : list Z) : bool :=
  (GetByte ip 15 =? 0x20) && (GetByte ip 14 =? 0x01) && (GetByte ip 13 =? 0x0D) && (GetByte ip 12 =? 0xB8).
Definition IsRFC3964 (ip : list Z) : bool := (GetByte ip 15 =? 0x20) && (GetByte ip 14 =? 0x02).
Definition IsRFC6052 (ip : list Z) : bool := has_prefix [0; 0x64; 0xFF; 0x9B; 0; 0; 0; 0; 0; 0; 0; 0] ip.
Definition IsRFC4380 (ip : list Z) : bool :=
  (GetByte ip 15 =? 0x20) && (GetByte ip 14 =? 0x01) && (GetByte ip 13 =? 0) && (GetByte ip 12 =? 0).
Definition IsRFC4862 (ip : list Z) : bool := has_prefix [0xFE; 0x80; 0; 0; 0; 0; 0; 0] ip.
Definition IsRFC4193 (ip : list Z) : bool := Z.land (GetByte ip 15) 0xFE =? 0xFC.
Definition IsRFC6145 (ip : list Z) : bool := has_prefix [0; 0; 0; 0; 0; 0; 0; 0; 0xFF; 0xFF; 0; 0] ip.
Definition IsRFC4843 (ip : list Z) : bool :=
  (GetByte ip 15 =? 0x20) && (GetByte ip 14 =? 0x01) && (GetByte ip 13 =? 0x00) && (Z.land (GetByte ip 12) 0xF0 =? 0x10).
Definition IsTor (ip : list Z) : bool := has_prefix pchOnionCat ip.
Definition IsInternal (ip : list Z) : bool := has_prefix g_internal_prefix ip.
Definition IsIPv6 (ip : list Z) : bool := negb (IsIPv4 ip) && negb (IsTor ip) && negb (IsInternal ip).
Definition IsLocal (ip : list Z) : bool :=
  (IsIPv4 ip && ((GetByte ip 3 =? 127) || (GetByte ip 3 =? 0))) || has_prefix [0; 0; 0; 0; 0; 0; 0; 0; 0; 0; 0; 0; 0; 0; 0; 1] ip.

Definition IsValid (ip : list Z) : bool :=
  if has_prefix (drop 3 pchIPv4) ip then false
  else if has_prefix (replicate 16 0) ip then false
  else if IsRFC3849 ip then false
  else if IsInternal ip then false
  else if IsIPv4 ip then
    negb (has_prefix (replicate 4 255) (drop 12 ip)) && negb (has_prefix (replicate 4 0) (drop 12 ip))
  else true.

Definition IsRoutable (ip : list Z) : bool :=
  if negb (IsValid ip) then false
  else if negb fAllowPrivateNet && IsRFC1918 ip then false
  else negb (IsRFC2544 ip || IsRFC3927 ip || IsRFC4862 ip || IsRFC6598 ip || IsRFC5737 ip || (IsRFC4193 ip && negb (IsTor ip)) ||
             IsRFC4843 ip || IsLocal ip || IsInternal ip).

Definition GetNetwork (ip : list Z) : Network :=
  if IsInternal ip then NET_INTERNAL
  else if negb (IsRoutable ip) then NET_UNROUTABLE
  else if IsIPv4 ip then NET_IPV4
  else if IsTor ip then NET_ONION
  else NET_IPV6.

(** ** Groups *)

(** The loop of [GetGroup] and the rest of the bits. *)
Definition group_bytes (ip : list Z) (nStartByte nBits : nat) : list Z :=
  let full := (nBits / 8)%nat in
  let rest := (nBits mod 8)%nat in
  map (fun k => GetByte ip (15 - (nStartByte + k))) (seq 0 full) ++
  (if (0 <? rest)%nat then [Z.lor (GetByte ip (15 - (nStartByte + full))) (Z.shiftl 1 (8 - Z.of_nat rest) - 1)] else []).

Definition GetGroup (ip : list Z) : list Z :=
  (* the class 255 of a local address, and its number of bits *)
  let nBits := if IsLocal ip then 0%nat else 16%nat in
  if IsInternal ip then Network_value NET_INTERNAL :: group_bytes ip 6 80
  else if negb (IsRoutable ip) then Network_value NET_UNROUTABLE :: group_bytes ip 0 0
  else if IsIPv4 ip || IsRFC6145 ip || IsRFC6052 ip then Network_value NET_IPV4 :: group_bytes ip 12 nBits
  else if IsRFC3964 ip then Network_value NET_IPV4 :: group_bytes ip 2 nBits
  else if IsRFC4380 ip then [Network_value NET_IPV4; Z.lxor (GetByte ip 3) 0xFF; Z.lxor (GetByte ip 2) 0xFF]
  else
    let nClass := if IsLocal ip then 255 else Network_value NET_IPV6 in
    if IsTor ip then Network_value NET_ONION :: group_bytes ip 6 4
    else if (GetByte ip 15 =? 0x20) && (GetByte ip 14 =? 0x01) && (GetByte ip 13 =? 0x04) && (GetByte ip 12 =? 0x70)
    then nClass :: group_bytes ip 0 36
    else nClass :: group_bytes ip 0 32.

(** ** Reachability *)

(** [GetExtNetwork]: the two values past the networks, 5 for an unknown partner and 6
    for a Teredo address. *)
Definition NET_UNKNOWN : Z := 5.
Definition NET_TEREDO : Z := 6.
Definition GetExtNetwork (ip : option (list Z)) : Z :=
  match ip with
  | None => NET_UNKNOWN
  | Some ip => if IsRFC4380 ip then NET_TEREDO else Network_value (GetNetwork ip)
  end.

Inductive Reachability :=
  | REACH_UNREACHABLE | REACH_DEFAULT | REACH_TEREDO | REACH_IPV6_WEAK | REACH_IPV4 | REACH_IPV6_STRONG | REACH_PRIVATE.

Definition GetReachabilityFrom (ip : list Z) (paddrPartner : option (list Z)) : Reachability :=
  if negb (IsRoutable ip) || IsInternal ip then REACH_UNREACHABLE
  else
    let ourNet := GetExtNetwork (Some ip) in
    let theirNet := GetExtNetwork paddrPartner in
    let fTunnel := IsRFC3964 ip || IsRFC6052 ip || IsRFC6145 ip in
    if theirNet =? Network_value NET_IPV4 then
      if ourNet =? Network_value NET_IPV4 then REACH_IPV4 else REACH_DEFAULT
    else if theirNet =? Network_value NET_IPV6 then
      if ourNet =? NET_TEREDO then REACH_TEREDO
      else if ourNet =? Network_value NET_IPV4 then REACH_IPV4
      else if ourNet =? Network_value NET_IPV6 then (if fTunnel then REACH_IPV6_WEAK else REACH_IPV6_STRONG)
      else REACH_DEFAULT
    else if theirNet =? Network_value NET_ONION then
      if ourNet =? Network_value NET_IPV4 then REACH_IPV4
      else if ourNet =? Network_value NET_ONION then REACH_PRIVATE
      else REACH_DEFAULT
    else if theirNet =? NET_TEREDO then
      if ourNet =? NET_TEREDO then REACH_TEREDO
      else if ourNet =? Network_value NET_IPV6 then REACH_IPV6_WEAK
      else if ourNet =? Network_value NET_IPV4 then REACH_IPV4
      else REACH_DEFAULT
    else
      if ourNet =? NET_TEREDO then REACH_TEREDO
      else if ourNet =? Network_value NET_IPV6 then REACH_IPV6_WEAK
      else if ourNet =? Network_value NET_IPV4 then REACH_IPV4
      else if ourNet =? Network_value NET_ONION then REACH_PRIVATE
      else REACH_DEFAULT.
End Classes.

(** ** Services *)

(** A service is its address and its port, as [GetKey] and the serialization write it. *)
Definition CService_of (ip : list Z) (port : Z) : list Z := ip ++ [port / 0x100; Z.land port 0x0FF].
Definition service_ip (s : list Z) : list Z := take 16 s.
Definition GetPort (s : list Z) : Z := 256 * s !!! 16%nat + s !!! 17%nat.

(** ** Subnets *)

Record CSubNet := mkSubNet { network : list Z; netmask : list Z; subnet_valid : bool }.

(** [netmask[n>>3] &= ~(1<<(7-(n&7)))] *)
Definition clear_mask_bit (mask : list Z) (n : Z) : list Z :=
  let x := Z.to_nat (Z.shiftr n 3) in
  <[x := Z.land (mask !!! x) (u8 (Z.lnot (Z.shiftl 1 (7 - Z.land n 7))))]> mask.
Definition normalize (ip mask : list Z) : list Z := zip_with Z.land ip mask.

Definition astartofs (ip : list Z) : Z := if IsIPv4 ip then 12 else 0.

Definition CSubNet_bits (addr : list Z) (mask : Z) : CSubNet :=
  let full := replicate 16 255 in
  let ofs := astartofs addr * 8 in
  if (0 <=? mask) && (mask <=? 128 - ofs) then
    let m := foldl clear_mask_bit full (seqZ (mask + ofs) (128 - (mask + ofs))) in
    mkSubNet (normalize addr m) m true
  else mkSubNet (normalize addr full) full false.
Definition CSubNet_mask (addr mask : list Z) : CSubNet :=
  let ofs := Z.to_nat (astartofs addr) in
  let m := replicate ofs 255 ++ drop ofs mask in
  mkSubNet (normalize addr m) m true.
Definition CSubNet_single (addr : list Z) : CSubNet := mkSubNet addr (replicate 16 255) (IsValid addr).

Definition Match (s : CSubNet) (addr : list Z) : bool :=
  if negb (subnet_valid s) || negb (IsValid addr) then false
  else bool_decide (normalize addr (netmask s) = network s).

Definition NetmaskBits (x : Z) : Z :=
  if x =? 0x00 then 0 else if x =? 0x80 then 1 else if x =? 0xc0 then 2 else if x =? 0xe0 then 3 else if x =? 0xf0 then 4
  else if x =? 0xf8 then 5 else if x =? 0xfc then 6 else if x =? 0xfe then 7 else if x =? 0xff then 8 else -1.

(** The part of [ToString] that finds the number of bits, if the mask has that form. *)
Fixpoint cidr_bits (mask : list Z) (cidr : Z) : option Z :=
  match mask with
  | [] => Some cidr
  | 0xff :: mask => cidr_bits mask (cidr + 8)
  | x :: mask => if NetmaskBits x <? 0 then None else if forallb (fun y => y =? 0) mask then Some (cidr + NetmaskBits x) else None
  end.
Definition cidr (s : CSubNet) : option Z := cidr_bits (drop (if IsIPv4 (network s) then 12 else 0)%nat (netmask s)) 0.

(** ** Subnets match prefixes *)

(** Bit [i] of an address, from the most significant one. *)
Definition ip_bit (ip : list Z) (i : Z) : bool := Z.testbit (ip !!! Z.to_nat (i / 8)) (7 - i mod 8).

Definition is_ip (ip : list Z) : Prop := length ip = 16%nat /\ Forall (fun b => 0 <= b < 256) ip.

(** The mask whose first [n] bits are set. *)
Definition prefix_mask (n : Z) : list Z := foldl clear_mask_bit (replicate 16 255) (seqZ n (128 - n)).
Definition mask_byte (n : Z) (x : nat) : Z := 255 - (2 ^ Z.min 8 (Z.max 0 (8 * Z.of_nat x + 8 - n)) - 1).

Lemma prefix_mask_bytes n : 0 <= n <= 128 -> prefix_mask n = map (mask_byte n) (seq 0 16).
Proof.
  intros Hn. assert (forallb (fun n => bool_decide (prefix_mask n = map (mask_byte n) (seq 0 16))) (seqZ 0 129) = true) as H by (by vm_compute).
  rewrite forallb_forall in H. apply (bool_decide_eq_true_1 _), H. apply list_elem_of_In, elem_of_seqZ. lia.
Qed.

Lemma mask_byte_bit n x j : 0 <= n <= 128 -> (x < 16)%nat -> 0 <= j < 8 -> Z.testbit (mask_byte n x) (7 - j) = (8 * Z.of_nat x + j <? n).
Proof.
  intros Hn Hx Hj. assert (forallb (fun k => forallb (fun j => Bool.eqb (Z.testbit (255 - (2 ^ k - 1)) (7 - j)) (j <? 8 - k)) (seqZ 0 8)) (seqZ 0 9) = true) as H by (by vm_compute).
  rewrite forallb_forall in H. set (k := Z.min 8 (Z.max 0 (8 * Z.of_nat x + 8 - n))). specialize (H k). rewrite forallb_forall in H.
  unfold mask_byte. fold k. rewrite (eqb_prop _ _ (H ltac:(apply list_elem_of_In, elem_of_seqZ; lia) j ltac:(apply list_elem_of_In, elem_of_seqZ; lia))).
  destruct (Z.ltb_spec j (8 - k)), (Z.ltb_spec (8 * Z.of_nat x + j) n); lia.
Qed.

Lemma land_byte_eq a b m : 0 <= a < 256 -> 0 <= b < 256 -> Z.land a m = Z.land b m <-> forall j, 0 <= j < 8 -> Z.testbit m (7 - j) = true -> Z.testbit a (7 - j) = Z.testbit b (7 - j).
Proof.
  intros Ha Hb. split.
  - intros E j Hj Hm. apply (f_equal (fun z => Z.testbit z (7 - j))) in E. by rewrite !Z.land_spec, Hm, !andb_true_r in E.
  - intros H. apply Z.bits_inj'. intros i Hi. rewrite !Z.land_spec. destruct (Z.testbit m i) eqn:Em; [|by rewrite !andb_false_r]. rewrite !andb_true_r.
    destruct (decide (i < 8)) as [Hi8|Hi8]; [replace i with (7 - (7 - i)) in * by lia; apply H; [lia|done]|].
    by rewrite !(testbit_small _ i 8) by lia.
Qed.

Lemma normalize_lookup a m x : (x < 16)%nat -> length a = 16%nat -> length m = 16%nat -> normalize a m !!! x = Z.land (a !!! x) (m !!! x).
Proof.
  intros Hx Ha Hm. unfold normalize. apply list_lookup_total_correct. rewrite lookup_zip_with.
  rewrite (list_lookup_lookup_total_lt a) by lia. rewrite (list_lookup_lookup_total_lt m) by lia. done.
Qed.

Lemma normalize_eq a b n : is_ip a -> is_ip b -> 0 <= n <= 128 ->
  normalize a (prefix_mask n) = normalize b (prefix_mask n) <-> forall i, 0 <= i < n -> ip_bit a i = ip_bit b i.
Proof.
  intros [La Ba] [Lb Bb] Hn. rewrite prefix_mask_bytes by done. set (m := map (mask_byte n) (seq 0 16)). assert (length m = 16%nat) as Lm by done.
  assert (forall x, (x < 16)%nat -> m !!! x = mask_byte n x) as Hm.
  { intros x Hx. unfold m. apply list_lookup_total_correct. by rewrite list_lookup_fmap, lookup_seq_lt. }
  assert (forall (l : list Z) x, length l = 16%nat -> Forall (fun b => 0 <= b < 256) l -> (x < 16)%nat -> 0 <= l !!! x < 256) as Hb.
  { intros l x Ll Bl Hx. rewrite Forall_lookup in Bl. apply (Bl x). apply list_lookup_lookup_total_lt. lia. }
  split.
  - intros E i Hi. unfold ip_bit. pose proof (Z.div_mod i 8 ltac:(lia)) as Hd. pose proof (Z.mod_pos_bound i 8 ltac:(lia)) as Hr. pose proof (Z.div_lt_upper_bound i 8 16 ltac:(lia) ltac:(lia)) as Hq.
    assert (0 <= i / 8) by (apply Z.div_pos; lia). set (x := Z.to_nat (i / 8)). assert (x < 16)%nat as Hx by lia.
    apply (f_equal (fun l => l !!! x)) in E. rewrite !normalize_lookup, Hm in E by done.
    apply (land_byte_eq _ _ _ (Hb a x La Ba Hx) (Hb b x Lb Bb Hx)) with (j := i mod 8) in E; [done..|]. rewrite mask_byte_bit by lia. apply Z.ltb_lt. lia.
  - intros H. apply list_eq_same_length with (n := 16%nat); [unfold normalize; rewrite length_zip_with; lia..|]. intros x y z Hx Ey Ez.
    apply list_lookup_total_correct in Ey as <-, Ez as <-. rewrite !normalize_lookup, Hm by done. apply land_byte_eq; [by apply Hb..|].
    intros j Hj Hbit. rewrite mask_byte_bit in Hbit by lia. apply Z.ltb_lt in Hbit. specialize (H (8 * Z.of_nat x + j) ltac:(lia)). unfold ip_bit in H.
    replace ((8 * Z.of_nat x + j) / 8) with (Z.of_nat x) in H by (apply (Z.div_unique _ 8 _ j); lia).
    replace ((8 * Z.of_nat x + j) mod 8) with j in H by (apply (Z.mod_unique _ 8 (Z.of_nat x)); lia). by rewrite Nat2Z.id in H.
Qed.

Lemma prefix_mask_cidr n : 0 <= n <= 128 ->
  cidr_bits (prefix_mask n) 0 = Some n /\ (96 <= n -> cidr_bits (drop 12 (prefix_mask n)) 0 = Some (n - 96) /\ take 12 (prefix_mask n) = replicate 12 255) /\
  (prefix_mask n !!! 11%nat < 255 \/ 96 <= n).
Proof.
  intros Hn. assert (forallb (fun n => bool_decide (cidr_bits (prefix_mask n) 0 = Some n) &&
    ((n <? 96) || (bool_decide (cidr_bits (drop 12 (prefix_mask n)) 0 = Some (n - 96)) && bool_decide (take 12 (prefix_mask n) = replicate 12 255))) &&
    ((prefix_mask n !!! 11%nat <? 255) || (96 <=? n))) (seqZ 0 129) = true) as H by (by vm_compute).
  rewrite forallb_forall in H. specialize (H n ltac:(apply list_elem_of_In, elem_of_seqZ; lia)). apply andb_true_iff in H as [[H1 H2]%andb_true_iff H3].
  split; [by apply bool_decide_eq_true in H1|]. split.
  - intros Hn'. rewrite (proj2 (Z.ltb_ge n 96)) in H2 by done. cbn [orb] in H2. apply andb_true_iff in H2 as [H2 H2']. split; by apply (bool_decide_eq_true_1 _).
  - apply orb_true_iff in H3 as [H3%Z.ltb_lt|H3%Z.leb_le]; auto.
Qed.

Lemma land_255 l : Forall (fun b => 0 <= b < 256) l -> zip_with Z.land l (replicate (length l) 255) = l.
Proof.
  induction 1 as [|b l Hb Hl IH]; [done|]. cbn [length replicate zip_with]. f_equal; [|done]. change 255 with (Z.ones 8). rewrite Z.land_ones by lia. by apply Z.mod_small.
Qed.

Lemma take_normalize k a m : take k (normalize a m) = normalize (take k a) (take k m).
Proof. unfold normalize. revert a m. induction k as [|k IH]; intros [|x a] [|y m]; try done. cbn [take zip_with]. by rewrite IH. Qed.

Lemma IsIPv4_normalize a n : is_ip a -> 8 * astartofs a <= n <= 128 -> IsIPv4 (normalize a (prefix_mask n)) = IsIPv4 a.
Proof.
  intros [La Ba] Hn. unfold IsIPv4, has_prefix. change (length pchIPv4) with 12%nat. rewrite take_normalize.
  assert (0 <= n) as H0 by (unfold astartofs in Hn; destruct (IsIPv4 a); lia). destruct (prefix_mask_cidr n) as (_ & H96 & H11); [lia|].
  assert (96 <= n -> normalize (take 12 a) (take 12 (prefix_mask n)) = take 12 a) as Hkeep.
  { intros Hge. destruct (H96 Hge) as [_ ->]. unfold normalize. rewrite <- (land_255 (take 12 a)) at 2 by (by apply Forall_take). by rewrite length_take, La. }
  destruct (decide (96 <= n)) as [Hge|Hlt]; [by rewrite Hkeep|]. assert (take 12 a <> pchIPv4) as Hna.
  { intros E. unfold astartofs, IsIPv4, has_prefix in Hn. change (length pchIPv4) with 12%nat in Hn. rewrite (bool_decide_true _ E) in Hn. lia. }
  rewrite (bool_decide_false _ Hna). apply bool_decide_false. intros E. destruct H11 as [H11|]; [|lia].
  apply (f_equal (fun l => l !!! 11%nat)) in E. cbv beta in E. rewrite <- take_normalize, lookup_total_take, decide_True, normalize_lookup in E by (lia || by rewrite prefix_mask_bytes by lia).
  change (pchIPv4 !!! 11%nat) with 255 in E. rewrite Forall_lookup in Ba.
  assert (0 <= prefix_mask n !!! 11%nat) as Hp.
  { rewrite prefix_mask_bytes by lia. cbn. unfold mask_byte. assert (2 ^ Z.min 8 (Z.max 0 (8 * Z.of_nat 11 + 8 - n)) <= 2 ^ 8) by (apply Z.pow_le_mono_r; lia). lia. }
  assert (Z.land (a !!! 11%nat) (prefix_mask n !!! 11%nat) <= prefix_mask n !!! 11%nat); [|lia].
  rewrite Z.land_comm. apply Z.ldiff_le; [done|]. rewrite Z.ldiff_land. apply Z.bits_inj'. intros i Hi. rewrite !Z.land_spec, Z.lnot_spec, Z.bits_0 by done. by destruct (Z.testbit _ i), (Z.testbit _ i).
Qed.

(** A subnet given as an address and a number of bits matches exactly the valid
    addresses that agree with the address on those bits, counted after the mapped
    prefix for an IPv4 address; a number of bits out of range gives a subnet that
    matches nothing; and the text of the subnet shows that number of bits. *)
Theorem subnet_matches_prefix (a b : list Z) (n : Z) : is_ip a -> is_ip b ->
  (0 <= n <= 128 - 8 * astartofs a ->
    (Match (CSubNet_bits a n) b = true <-> IsValid b = true /\ forall i, 0 <= i < 8 * astartofs a + n -> ip_bit a i = ip_bit b i) /\
    cidr (CSubNet_bits a n) = Some n) /\
  (~ (0 <= n <= 128 - 8 * astartofs a) -> Match (CSubNet_bits a n) b = false).
Proof.
  intros Ha Hb. unfold CSubNet_bits. split.
  - intros Hn. assert (0 <= astartofs a) as Ho by (unfold astartofs; by destruct (IsIPv4 a)). rewrite (proj2 (Z.leb_le 0 n)), (proj2 (Z.leb_le n _)) by lia.
    cbn [andb]. set (N := n + astartofs a * 8). fold (prefix_mask N). unfold Match. cbn [subnet_valid netmask network negb orb]. split.
    + destruct (IsValid b); cbn [negb]; [|by split; [|intros []]]. rewrite bool_decide_eq_true, (normalize_eq b a N) by (done || lia).
      split; [intros H; split; [done|]; intros i Hi; symmetry; apply H; lia|]. intros [_ H] i Hi. symmetry. apply H. lia.
    + unfold cidr. cbn [network netmask]. assert (0 <= N <= 128) as HN by lia. rewrite IsIPv4_normalize by (done || lia).
      destruct (prefix_mask_cidr N HN) as (H0 & H96 & _). unfold N, astartofs in *. destruct (IsIPv4 a); [|by rewrite drop_0, H0; f_equal; lia].
      destruct (H96 ltac:(lia)) as [-> _]. f_equal. lia.
  - intros Hn. destruct (Z.leb_spec 0 n), (Z.leb_spec n (128 - astartofs a * 8)); cbn [andb]; try done. lia.
Qed.

Lemma subnet_matches_prefix_witness :
  Match (CSubNet_bits (pchIPv4 ++ [192; 168; 0; 1]) 16) (pchIPv4 ++ [192; 168; 77; 2]) = true /\
  Match (CSubNet_bits (pchIPv4 ++ [192; 168; 0; 1]) 33) (pchIPv4 ++ [192; 168; 0; 1]) = false.
Proof.
  assert (forall l, bool_decide (length l = 16%nat /\ Forall (fun b => 0 <= b < 256) l) = true -> is_ip l) as Hip by (intros l H; by apply bool_decide_eq_true in H).
  split.
  - destruct (subnet_matches_prefix (pchIPv4 ++ [192; 168; 0; 1]) (pchIPv4 ++ [192; 168; 77; 2]) 16) as [H _]; [by apply Hip..|].
    apply H; [by vm_compute|]. split; [reflexivity|]. intros i Hi. apply eqb_prop.
    assert (forallb (fun i => Bool.eqb (ip_bit (pchIPv4 ++ [192; 168; 0; 1]) i) (ip_bit (pchIPv4 ++ [192; 168; 77; 2]) i)) (seqZ 0 112) = true) as Hf by (by vm_compute).
    rewrite forallb_forall in Hf. apply Hf, list_elem_of_In, elem_of_seqZ. exact Hi.
  - apply (subnet_matches_prefix (pchIPv4 ++ [192; 168; 0; 1]) (pchIPv4 ++ [192; 168; 0; 1]) 33); [by apply Hip..|]. intros [_ H]. vm_compute in H. by apply H.
Defined.

(** ** Routable addresses *)

Definition ipv4 (a b c d : Z) : list Z := pchIPv4 ++ [a; b; c; d].

(** The reserved ranges of the comments of netaddress.h, as subnets. *)
Definition reserved : list CSubNet :=
  [CSubNet_bits (ipv4 0 0 0 0) 8; CSubNet_bits (ipv4 10 0 0 0) 8; CSubNet_bits (ipv4 100 64 0 0) 10; CSubNet_bits (ipv4 127 0 0 0) 8;
   CSubNet_bits (ipv4 169 254 0 0) 16; CSubNet_bits (ipv4 172 16 0 0) 12; CSubNet_bits (ipv4 192 0 2 0) 24; CSubNet_bits (ipv4 192 168 0 0) 16;
   CSubNet_bits (ipv4 198 18 0 0) 15; CSubNet_bits (ipv4 198 51 100 0) 24; CSubNet_bits (ipv4 203 0 113 0) 24].

Section Routable.
Context (a b c d : Z).
Hypothesis (Ha : 0 <= a < 256) (Hb : 0 <= b < 256) (Hc : 0 <= c < 256) (Hd : 0 <= d < 256).

Lemma match_ipv4 n0 n1 n2 n3 m0 m1 m2 m3 : Match (mkSubNet (ipv4 n0 n1 n2 n3) (replicate 12 255 ++ [m0; m1; m2; m3]) true) (ipv4 a b c d) =
  IsValid (ipv4 a b c d) && ((Z.land a m0 =? n0) && (Z.land b m1 =? n1) && (Z.land c m2 =? n2) && (Z.land d m3 =? n3)).
Proof.
  unfold Match. cbn [subnet_valid netmask network negb orb]. destruct (IsValid (ipv4 a b c d)); [|done]. cbn [negb andb].
  change (normalize (ipv4 a b c d) (replicate 12 255 ++ [m0; m1; m2; m3])) with (ipv4 (Z.land a m0) (Z.land b m1) (Z.land c m2) (Z.land d m3)).
  apply eq_true_iff_eq. rewrite bool_decide_eq_true, !andb_true_iff, !Z.eqb_eq. unfold ipv4. split; [by intros [=]|]. by intros [[[-> ->] ->] ->].
Qed.

Lemma byte_fact (P Q : Z -> bool) x : 0 <= x < 256 -> forallb (fun x => Bool.eqb (P x) (Q x)) (seqZ 0 256) = true -> P x = Q x.
Proof. intros Hx H. rewrite forallb_forall in H. apply eqb_prop, H, list_elem_of_In, elem_of_seqZ. lia. Qed.

Lemma land_0_eqb x : (Z.land x 0 =? 0) = true.
Proof. by rewrite Z.land_0_r. Qed.

Lemma land_255_eqb x n : 0 <= x < 256 -> (Z.land x 255 =? n) = (x =? n).
Proof. intros Hx. change 255 with (Z.ones 8). by rewrite Z.land_ones, Z.mod_small by lia. Qed.

Lemma match_reserved w x y z n m0 m1 m2 m3 : CSubNet_bits (ipv4 w x y z) n = mkSubNet (ipv4 w x y z) (replicate 12 255 ++ [m0; m1; m2; m3]) true ->
  Match (CSubNet_bits (ipv4 w x y z) n) (ipv4 a b c d) =
  IsValid (ipv4 a b c d) && ((Z.land a m0 =? w) && (Z.land b m1 =? x) && (Z.land c m2 =? y) && (Z.land d m3 =? z)).
Proof. intros ->. apply match_ipv4. Qed.

(** The tests of [IsRoutable] for an IPv4 address are the reserved ranges. *)
Lemma routable_ranges : IsRoutable false (ipv4 a b c d) = IsValid (ipv4 a b c d) && negb (existsb (fun s => Match s (ipv4 a b c d)) reserved).
Proof.
  unfold reserved. cbn [existsb].
  rewrite (match_reserved 0 0 0 0 8 255 0 0 0 eq_refl), (match_reserved 10 0 0 0 8 255 0 0 0 eq_refl), (match_reserved 100 64 0 0 10 255 192 0 0 eq_refl),
    (match_reserved 127 0 0 0 8 255 0 0 0 eq_refl), (match_reserved 169 254 0 0 16 255 255 0 0 eq_refl), (match_reserved 172 16 0 0 12 255 240 0 0 eq_refl),
    (match_reserved 192 0 2 0 24 255 255 255 0 eq_refl), (match_reserved 192 168 0 0 16 255 255 0 0 eq_refl), (match_reserved 198 18 0 0 15 255 254 0 0 eq_refl),
    (match_reserved 198 51 100 0 24 255 255 255 0 eq_refl), (match_reserved 203 0 113 0 24 255 255 255 0 eq_refl).
  rewrite !land_0_eqb, !land_255_eqb by done.
  rewrite (byte_fact (fun b => Z.land b 192 =? 64) (fun b => (64 <=? b) && (b <=? 127)) b Hb eq_refl),
    (byte_fact (fun b => Z.land b 240 =? 16) (fun b => (16 <=? b) && (b <=? 31)) b Hb eq_refl),
    (byte_fact (fun b => Z.land b 254 =? 18) (fun b => (b =? 18) || (b =? 19)) b Hb eq_refl).
  unfold IsRoutable. destruct (IsValid (ipv4 a b c d)); [|done]. cbn [negb andb].
  change (IsRFC1918 (ipv4 a b c d)) with ((a =? 10) || ((a =? 192) && (b =? 168)) || ((a =? 172) && ((16 <=? b) && (b <=? 31)))).
  change (IsRFC2544 (ipv4 a b c d)) with ((a =? 198) && ((b =? 18) || (b =? 19))). change (IsRFC3927 (ipv4 a b c d)) with ((a =? 169) && (b =? 254)).
  change (IsRFC6598 (ipv4 a b c d)) with ((a =? 100) && (64 <=? b) && (b <=? 127)).
  change (IsRFC5737 (ipv4 a b c d)) with (((a =? 192) && (b =? 0) && (c =? 2)) || ((a =? 198) && (b =? 51) && (c =? 100)) || ((a =? 203) && (b =? 0) && (c =? 113))).
  change (IsLocal (ipv4 a b c d)) with (((a =? 127) || (a =? 0)) || false).
  change (IsRFC4862 (ipv4 a b c d)) with false. change (IsRFC4193 (ipv4 a b c d)) with false. change (IsRFC4843 (ipv4 a b c d)) with false. change (IsInternal (ipv4 a b c d)) with false.
  generalize (a =? 0), (a =? 10), (a =? 100), (a =? 127), (a =? 169), (a =? 172), (a =? 192), (a =? 198), (a =? 203).
  generalize (64 <=? b), (b <=? 127), (16 <=? b), (b <=? 31), (b =? 0), (b =? 254), (b =? 168), (b =? 18), (b =? 19), (b =? 51), (c =? 2), (c =? 100), (c =? 113).
  intros. btauto.
Qed.
End Routable.

(** An IPv4 address is routable exactly when it is valid and in none of the reserved
    ranges that the comments of netaddress.h list (198.18.0.0/15 for RFC 2544). *)
Theorem routable_ipv4 (a b c d : Z) : 0 <= a < 256 -> 0 <= b < 256 -> 0 <= c < 256 -> 0 <= d < 256 ->
  IsRoutable false (ipv4 a b c d) = IsValid (ipv4 a b c d) && negb (existsb (fun s => Match s (ipv4 a b c d)) reserved).
Proof. intros. by apply routable_ranges. Qed.

(** All local addresses are in the group of the addresses that are not routable: the
    class 255 that [GetGroup] sets for them is overwritten. *)
Theorem local_group (fAllowPrivateNet : bool) (ip : list Z) : IsLocal ip = true -> GetGroup fAllowPrivateNet ip = [Network_value NET_UNROUTABLE].
Proof.
  intros Hl. assert (IsInternal ip = false) as Hi.
  { unfold IsInternal, has_prefix. apply bool_decide_false. intros Hi. destruct ip as [|x ip]; [done|]. injection Hi as -> _.
    unfold IsLocal, IsIPv4, has_prefix in Hl. cbn [take length pchIPv4] in Hl. rewrite !bool_decide_false in Hl by done. done. }
  unfold GetGroup. rewrite Hi. assert (IsRoutable fAllowPrivateNet ip = false) as ->; [|done].
  unfold IsRoutable. destruct (IsValid ip); [|done]. cbn [negb]. destruct (negb fAllowPrivateNet && IsRFC1918 ip); [done|]. rewrite Hl, orb_true_r. done.
Qed.
