(* ===== verification/SmartnodePayee.v ===== *)
(** * Payment and quorum order of smartnodes
    (IsMNValid, GetMNPayee, GetProjectedMNPayees, CalculateQuorum and CalculateScores of
    src/src/evo/deterministicmns.cpp)

    A block pays the valid smartnode that was paid longest ago, ties broken by the hash
    of its registration; a quorum is the valid smartnodes with the highest scores.  Both
    are chosen by iterating over a map whose order is not specified, so that the choice
    must not depend on it. *)

From Stdlib Require Import ZArith Lia.
From stdpp Require Import base tactics numbers option list gmap sorting.
From S2P Require Import Prelude ArithUint256 Compact Block Serialize Transaction Rewards Coins ProTx Smartnodes SmartnodeDiff.

Open Scope Z_scope.

(** ** Sorting *)

Section Sort.
Context {A : Type} (lt : A -> A -> bool).

(** [std::sort] *)
Fixpoint sort_insert (x : A) (l : list A) : list A :=
  match l with [] => [x] | y :: l' => if lt x y then x :: l else y :: sort_insert x l' end.
Definition std_sort (l : list A) : list A := foldr sort_insert [] l.

Record strict_on (l : list A) : Prop := {
  so_irrefl x : x ∈ l -> lt x x = false;
  so_trans x y z : x ∈ l -> y ∈ l -> z ∈ l -> lt x y = true -> lt y z = true -> lt x z = true;
  so_total x y : x ∈ l -> y ∈ l -> x <> y -> lt x y = true \/ lt y x = true
}.

Abbreviation less := (fun x y => lt x y = true).

Lemma sort_insert_perm x l : sort_insert x l ≡ₚ x :: l.
Proof. induction l as [|y l IH]; [done|]. cbn. destruct (lt x y); [done|]. rewrite IH. apply Permutation_swap. Qed.

Lemma std_sort_perm l : std_sort l ≡ₚ l.
Proof. induction l as [|x l IH]; [done|]. cbn. by rewrite sort_insert_perm, IH. Qed.

Lemma strict_on_perm l l' : l ≡ₚ l' -> strict_on l -> strict_on l'.
Proof. intros E [H1 H2 H3]. split; intros *; rewrite <- !E; eauto. Qed.

Lemma strict_on_cons x l : strict_on (x :: l) -> strict_on l.
Proof. intros [H1 H2 H3]. split; intros *; intros; [apply H1|eapply H2|apply H3]; eauto; by right. Qed.

Lemma sort_insert_sorted x l : strict_on (x :: l) -> x ∉ l -> StronglySorted less l -> StronglySorted less (sort_insert x l).
Proof.
  intros Hs Hx Hl. induction Hl as [|y l Hl IH Hf]; cbn; [repeat constructor|]. apply not_elem_of_cons in Hx as [Hxy Hx].
  assert (x ∈ x :: y :: l) as Ix by (by left). assert (y ∈ x :: y :: l) as Iy by (by right; left).
  destruct (lt x y) eqn:E.
  - constructor; [by constructor|]. constructor; [done|]. rewrite Forall_forall in *. intros z Hz. apply (so_trans _ Hs x y z); [done..|by right; right|done|by apply Hf].
  - assert (lt y x = true) as Hyx by (destruct (so_total _ Hs x y); [done..|congruence|done]).
    constructor; [apply IH; [|done]|].
    + apply (strict_on_cons y), (strict_on_perm (x :: y :: l)); [apply Permutation_swap|done].
    + rewrite Forall_forall in *. intros z Hz. rewrite sort_insert_perm in Hz. apply elem_of_cons in Hz as [->|Hz]; [done|by apply Hf].
Qed.

Lemma std_sort_sorted l : strict_on l -> NoDup l -> StronglySorted less (std_sort l).
Proof.
  intros Hs Hn. induction l as [|x l IH]; [constructor|]. apply NoDup_cons in Hn as [Hx Hn]. cbn. apply sort_insert_sorted.
  - apply (strict_on_perm (x :: l)); [by rewrite std_sort_perm|done].
  - by rewrite std_sort_perm.
  - apply IH; [by eapply strict_on_cons|done].
Qed.

(** A list has one sorted permutation. *)
Lemma sorted_unique l l' : strict_on l -> l ≡ₚ l' -> StronglySorted less l -> StronglySorted less l' -> l = l'.
Proof.
  intros Hs E Hl Hl'. apply (StronglySorted_unique_strong less); [|done..]. intros x y Hx Hy Hxy Hyx. rewrite <- E in Hy.
  pose proof (so_trans _ Hs x y x Hx Hy Hx Hxy Hyx). by rewrite (so_irrefl _ Hs x Hx) in *.
Qed.

Lemma std_sort_unique l l' : strict_on l -> NoDup l -> l ≡ₚ l' -> std_sort l = std_sort l'.
Proof.
  intros Hs Hn E. apply sorted_unique.
  - apply (strict_on_perm l); [by rewrite std_sort_perm|done].
  - by rewrite !std_sort_perm.
  - by apply std_sort_sorted.
  - apply std_sort_sorted; [by apply (strict_on_perm l)|by rewrite <- E].
Qed.
End Sort.

Lemma sort_insert_fmap {A C} (lt : A -> A -> bool) (lt' : C -> C -> bool) (f : A -> C) x l : (forall a b, lt a b = lt' (f a) (f b)) ->
  f <$> sort_insert lt x l = sort_insert lt' (f x) (f <$> l).
Proof. intros E'. induction l as [|y l IH]; [done|]. cbn. rewrite E'. destruct (lt' (f x) (f y)); [done|]. cbn. by rewrite <- IH. Qed.

Lemma std_sort_fmap {A C} (lt : A -> A -> bool) (lt' : C -> C -> bool) (f : A -> C) l : (forall a b, lt a b = lt' (f a) (f b)) ->
  f <$> std_sort lt l = std_sort lt' (f <$> l).
Proof. intros E'. induction l as [|x l IH]; [done|]. cbn. rewrite (sort_insert_fmap lt lt' f) by done. by f_equal. Qed.

(** ** What the list reads of the node *)

Record EvoEnv := mkEvo {
  GetUTXOCoin : COutPoint -> option Coin;      (* the coin, if it is not spent *)
  tipHeight : Z;                               (* chainActive.Tip()->nHeight, 0 without a tip *)
  evo_collaterals : SmartnodeCollaterals
}.

(** [memcmp] of two hashes: the first byte that differs decides. *)
Definition Compare (a b : uint256) : Z := compare_loop a b.

Section Payee.
Context (SerializeHash : list Z -> uint256) (SHA256 : list Z -> uint256) (B : BLS) (E : EvoEnv).
Context (order : gmap (list Z) CDeterministicMN -> list (list Z * CDeterministicMN)).

Definition IsMNValid (d : CDeterministicMN) : bool :=
  negb (IsMNPoSeBanned d) &&
  match GetUTXOCoin E (collateralOutpoint d) with
  | Some coin => isPayableCollateral (evo_collaterals E) (tipHeight E) (nValue (out coin))
  | None => false
  end.

(** [ForEachMN(true, ...)] *)
Definition ValidMNs (l : CDeterministicMNList) : list CDeterministicMN := filter (fun d => IsMNValid d = true) (AllMNs order l).
Definition GetValidMNsCount (l : CDeterministicMNList) : Z := Z.of_nat (length (ValidMNs l)).
Definition GetValidMN (l : CDeterministicMNList) (h : uint256) : option CDeterministicMN :=
  d ← GetMN l h; if IsMNValid d then Some d else None.
Definition GetValidMNByCollateral (l : CDeterministicMNList) (o : COutPoint) : option CDeterministicMN :=
  d ← GetMNByCollateral SerializeHash l o; if IsMNValid d then Some d else None.

(** ** Payments *)

Definition CompareByLastPaid_GetHeight (d : CDeterministicMN) : Z :=
  let s := pdmnState d in
  let height := nLastPaidHeight s in
  if negb (nPoSeRevivedHeight s =? -1) && (height <? nPoSeRevivedHeight s) then nPoSeRevivedHeight s
  else if height =? 0 then nRegisteredHeight s else height.

Definition CompareByLastPaid (a b : CDeterministicMN) : bool :=
  let ah := CompareByLastPaid_GetHeight a in
  let bh := CompareByLastPaid_GetHeight b in
  if ah =? bh then Compare (proTxHash a) (proTxHash b) <? 0 else ah <? bh.

Definition payee_step (best : option CDeterministicMN) (d : CDeterministicMN) : option CDeterministicMN :=
  match best with
  | None => Some d
  | Some b => if CompareByLastPaid d b then Some d else best
  end.

Definition GetMNPayee (l : CDeterministicMNList) : option CDeterministicMN :=
  if GetAllMNsCount l <=? 10 then None else foldl payee_step None (ValidMNs l).

(** [reserve] throws for a negative count. *)
Definition GetProjectedMNPayees (l : CDeterministicMNList) (nCount : Z) : result (list CDeterministicMN) :=
  let validMnCount := i32 (GetValidMNsCount l) in
  let nCount := if validMnCount <? 10 then 0 else if validMnCount <? nCount then validMnCount else nCount in
  if nCount <? 0 then Err LogicError
  else Ok (take (Z.to_nat nCount) (std_sort CompareByLastPaid (ValidMNs l))).

(** ** Quorums *)

Definition CalculateScores (l : CDeterministicMNList) (modifier : uint256) : list (base_uint * CDeterministicMN) :=
  map (fun d => (UintToArith256 (SHA256 (confirmedHashWithProRegTxHash (pdmnState d) ++ modifier)), d))
    (filter (fun d => confirmedHash (pdmnState d) <> uint256_null) (ValidMNs l)).

(** [COutPoint::operator<] *)
Definition outpoint_lt (a b : COutPoint) : bool :=
  let cmp := Compare (op_hash a) (op_hash b) in (cmp <? 0) || ((cmp =? 0) && (op_n a <? op_n b)).

(** The comparison of [CalculateQuorum]; the reverse iterators sort in descending order. *)
Definition score_lt (a b : base_uint * CDeterministicMN) : bool :=
  if bool_decide (a.1 = b.1) then outpoint_lt (collateralOutpoint a.2) (collateralOutpoint b.2) else CompareTo a.1 b.1 <? 0.

Definition CalculateQuorum (l : CDeterministicMNList) (maxSize : nat) (modifier : uint256) : list CDeterministicMN :=
  take maxSize (std_sort (fun a b => score_lt b a) (CalculateScores l modifier)).*2.
End Payee.

(** ** Comparing hashes *)

Lemma compare_asym a b : compare_loop b a = - compare_loop a b.
Proof.
  revert b. induction a as [|x a IH]; intros [|y b]; try done. cbn. destruct (Z.ltb_spec x y), (Z.ltb_spec y x); try lia; done.
Qed.

Lemma compare_range a b : compare_loop a b = -1 \/ compare_loop a b = 0 \/ compare_loop a b = 1.
Proof. revert b. induction a as [|x a IH]; intros [|y b]; cbn; auto. destruct (x <? y); auto. destruct (y <? x); auto. Qed.

Lemma compare_0 a b : length a = length b -> compare_loop a b = 0 <-> a = b.
Proof.
  revert b. induction a as [|x a IH]; intros [|y b] Hl; try done. cbn. injection Hl as Hl. destruct (Z.ltb_spec x y), (Z.ltb_spec y x); try lia.
  - split; [done|]. intros [= -> _]. lia.
  - split; [done|]. intros [= -> _]. lia.
  - assert (x = y) as -> by lia. rewrite (IH b Hl). split; [by intros ->|by intros [=]].
Qed.

Lemma compare_trans a b c : length a = length b -> length b = length c -> compare_loop a b < 0 -> compare_loop b c < 0 -> compare_loop a c < 0.
Proof.
  revert b c. induction a as [|x a IH]; intros [|y b] [|z c] H1 H2; try done; cbn; [cbn; lia..|]. injection H1 as H1. injection H2 as H2.
  destruct (Z.ltb_spec x y), (Z.ltb_spec y x), (Z.ltb_spec y z), (Z.ltb_spec z y), (Z.ltb_spec x z), (Z.ltb_spec z x); try lia. intros Ha Hb. by apply (IH b c).
Qed.

(** ** The order of payments *)

Lemma strict_on_sub {A} (lt : A -> A -> bool) l l' : (forall x, x ∈ l' -> x ∈ l) -> strict_on lt l -> strict_on lt l'.
Proof. intros Hs [H1 H2 H3]. split; [intros x Hx; by apply H1, Hs|intros x y z Hx Hy Hz; apply (H2 x y z); by apply Hs|intros x y Hx Hy; apply H3; by apply Hs]. Qed.

(** What the order of payments depends on. *)
Definition pay_key (d : CDeterministicMN) : uint256 * Z := (proTxHash d, CompareByLastPaid_GetHeight d).
Definition key_lt (a b : uint256 * Z) : bool := if a.2 =? b.2 then Compare a.1 b.1 <? 0 else a.2 <? b.2.

Lemma key_strict ks : (forall k, k ∈ ks -> length k.1 = 32%nat) -> strict_on key_lt ks.
Proof.
  intros H. unfold key_lt, Compare. split.
  - intros x _. rewrite Z.eqb_refl. apply Z.ltb_ge. rewrite (proj2 (compare_0 _ _ eq_refl)); done.
  - intros [x i] [y j] [z k] Lx%H Ly%H Lz%H. cbn in *. destruct (Z.eqb_spec i j), (Z.eqb_spec j k), (Z.eqb_spec i k); rewrite !Z.ltb_lt; try lia.
    intros H1 H2. apply (compare_trans _ y); congruence.
  - intros [x i] [y j] Lx%H Ly%H Hne. cbn in *. rewrite (Z.eqb_sym j). destruct (Z.eqb_spec i j) as [->|E1]; rewrite !Z.ltb_lt; [|lia].
    rewrite (compare_asym x y). destruct (compare_range x y) as [|[H0|]]; [lia| |lia]. apply compare_0 in H0; [|congruence]. by destruct Hne; subst.
Qed.

(** The hashes of the registrations have 32 bytes. *)
Definition keys32 (l : CDeterministicMNList) : Prop := forall h d, mnMap l !! h = Some d -> length h = 32%nat.

Section Results.
Context (SerializeHash : list Z -> uint256) (SHA256 : list Z -> uint256) (B : BLS) (E : EvoEnv).
Context (order : gmap (list Z) CDeterministicMN -> list (list Z * CDeterministicMN)).
Hypothesis order_perm : forall m, order m ≡ₚ map_to_list m.
Abbreviation wf := (wf SerializeHash B).
Abbreviation ValidMNs := (ValidMNs E order).
Abbreviation less := (fun a b => CompareByLastPaid a b = true).

Lemma elem_ValidMNs l d : wf l -> d ∈ ValidMNs l <-> IsMNValid E d = true /\ mnMap l !! proTxHash d = Some d.
Proof. intros Hwf. unfold SmartnodePayee.ValidMNs. by rewrite list_elem_of_filter, (elem_AllMNs SerializeHash B order). Qed.

Lemma NoDup_ValidMNs l : wf l -> NoDup (proTxHash <$> ValidMNs l).
Proof. intros Hwf. apply NoDup_fmap_filter. by eapply NoDup_AllMNs. Qed.

Lemma paid_strict l : wf l -> keys32 l -> strict_on CompareByLastPaid (ValidMNs l).
Proof.
  intros Hwf H32. assert (forall d, d ∈ ValidMNs l -> pay_key d ∈ pay_key <$> ValidMNs l /\ mnMap l !! proTxHash d = Some d) as Hd.
  { intros d Hd. split; [by apply list_elem_of_fmap_2|by apply elem_ValidMNs in Hd as [_ ?]]. }
  destruct (key_strict (pay_key <$> ValidMNs l)) as [H1 H2 H3].
  { intros k (d & -> & [_ Hm]%elem_ValidMNs)%list_elem_of_fmap; [|done]. by eapply H32. }
  split.
  - intros x [Hx _]%Hd. by apply H1 in Hx.
  - intros x y z [Hx _]%Hd [Hy _]%Hd [Hz _]%Hd. exact (H2 (pay_key x) (pay_key y) (pay_key z) Hx Hy Hz).
  - intros x y [Hx Mx]%Hd [Hy My]%Hd Hne. apply (H3 (pay_key x) (pay_key y) Hx Hy). intros [= Eh _]. destruct Hne. congruence.
Qed.

Lemma fold_payee b l : strict_on CompareByLastPaid (b :: l) ->
  exists m, foldl payee_step (Some b) l = Some m /\ m ∈ b :: l /\ forall x, x ∈ b :: l -> x <> m -> CompareByLastPaid m x = true.
Proof.
  revert b. induction l as [|y l IH]; intros b Hs; cbn [foldl].
  { exists b. split; [done|]. split; [by left|]. intros x [->|?%elem_of_nil]%elem_of_cons; done. }
  assert (b ∈ b :: y :: l) as Ib by (by left). assert (y ∈ b :: y :: l) as Iy by (by right; left). unfold payee_step at 2. destruct (CompareByLastPaid y b) eqn:Eq.
  - destruct (IH y) as (m & -> & Hm & Hmin); [by apply strict_on_cons in Hs|]. exists m. split; [done|]. split; [by right|].
    intros x [->|Hx]%elem_of_cons Hne; [|by apply Hmin]. destruct (decide (y = m)) as [->|Hy]; [done|].
    apply (so_trans _ _ Hs m y b); [by right|done|done|apply Hmin; [by left|done]|done].
  - destruct (IH b) as (m & -> & Hm & Hmin).
    { eapply strict_on_sub; [|exact Hs]. intros x [->|Hx]%elem_of_cons; [by left|by right; right]. }
    exists m. split; [done|]. split; [apply elem_of_cons in Hm as [->|Hm]; [by left|by right; right]|].
    intros x Hx Hne. apply elem_of_cons in Hx as [->|[->|Hx]%elem_of_cons]; [apply Hmin; [by left|done]| |apply Hmin; [by right|done]].
    destruct (decide (b = y)) as [->|Hby]; [apply Hmin; [by left|done]|].
    assert (CompareByLastPaid b y = true) as Hby' by (destruct (so_total _ _ Hs b y); [done..|congruence]).
    destruct (decide (b = m)) as [->|Hbm]; [done|]. apply (so_trans _ _ Hs m b y); [|done|done|apply Hmin; [by left|done]|done].
    apply elem_of_cons in Hm as [->|Hm]; [by left|by right; right].
Qed.

(** The payee is the first in the order of payments. *)
Lemma payee_head l : wf l -> keys32 l -> GetMNPayee E order l = if GetAllMNsCount l <=? 10 then None else head (std_sort CompareByLastPaid (ValidMNs l)).
Proof.
  intros Hwf H32. unfold GetMNPayee. destruct (_ <=? 10); [done|]. pose proof (paid_strict l Hwf H32) as Hs.
  pose proof (NoDup_fmap_1 _ _ (NoDup_ValidMNs l Hwf)) as Hn. pose proof (std_sort_sorted _ _ Hs Hn) as Hsort. pose proof (std_sort_perm CompareByLastPaid (ValidMNs l)) as Hp.
  destruct (ValidMNs l) as [|b v] eqn:Ev; [done|]. cbn [foldl payee_step]. destruct (fold_payee b v Hs) as (m & -> & Hm & Hmin).
  destruct (std_sort CompareByLastPaid (b :: v)) as [|h t] eqn:Es; [by apply Permutation_nil_l in Hp|]. cbn [head]. f_equal. symmetry.
  destruct (decide (h = m)) as [->|Hne]; [done|]. exfalso. assert (h ∈ b :: v) as Hh by (rewrite <- Hp; by left).
  assert (m ∈ t) as Hmt by (rewrite <- Hp in Hm; apply elem_of_cons in Hm as [->|Hm]; done).
  pose proof (Hmin h Hh Hne) as H1. apply StronglySorted_inv in Hsort as [_ Hf]. rewrite Forall_forall in Hf. pose proof (Hf m Hmt) as H2.
  pose proof (so_trans _ _ Hs m h m Hm Hh Hm H1 H2). by rewrite (so_irrefl _ _ Hs m Hm) in *.
Qed.
(** ** Payments by keys *)

Definition queue (l : CDeterministicMNList) : list (uint256 * Z) := pay_key <$> std_sort CompareByLastPaid (ValidMNs l).

Lemma queue_sort l : queue l = std_sort key_lt (pay_key <$> ValidMNs l).
Proof. by apply std_sort_fmap. Qed.

Lemma elem_keys l h z : wf l -> (h, z) ∈ pay_key <$> ValidMNs l <-> exists d, mnMap l !! h = Some d /\ IsMNValid E d = true /\ CompareByLastPaid_GetHeight d = z.
Proof.
  intros Hwf. rewrite list_elem_of_fmap. split.
  - intros (d & [= -> ->] & [Hv Hd]%elem_ValidMNs); [|done]. eauto.
  - intros (d & Hd & Hv & <-). exists d. destruct (wf_mn _ _ l Hwf _ _ Hd) as [<- _]. split; [done|]. by apply elem_ValidMNs.
Qed.

Lemma pay_keys_length l k : wf l -> keys32 l -> k ∈ pay_key <$> ValidMNs l -> length k.1 = 32%nat.
Proof. intros Hwf H32 Hk. destruct k as [h z]. apply elem_keys in Hk as (d & Hd & _); [|done]. by eapply H32. Qed.

Lemma keys_NoDup l : wf l -> NoDup (pay_key <$> ValidMNs l).
Proof. intros Hwf. apply (NoDup_fmap_1 fst). rewrite <- list_fmap_compose. by apply NoDup_ValidMNs. Qed.

(** Whoever is first in the queue and gets paid goes to its end; the others keep their
    places. *)
Lemma queue_rotates l l' h z t H : wf l -> keys32 l -> wf l' -> keys32 l' -> queue l = (h, z) :: t -> (forall k, k ∈ t -> k.2 < H) ->
  (forall h' z', (h', z') ∈ pay_key <$> ValidMNs l' <-> if bool_decide (h' = h) then z' = H else (h', z') ∈ pay_key <$> ValidMNs l) ->
  queue l' = t ++ [(h, H)].
Proof.
  intros Hwf H32 Hwf' H32' Hq Ht Hv. rewrite queue_sort in *. set (ks := pay_key <$> ValidMNs l) in *. set (ks' := pay_key <$> ValidMNs l') in *.
  assert (ks ≡ₚ (h, z) :: t) as Hp by (rewrite <- Hq; symmetry; apply std_sort_perm).
  assert (NoDup (fst <$> (h, z) :: t)) as Hn by (rewrite <- Hp; unfold ks; rewrite <- list_fmap_compose; by apply NoDup_ValidMNs).
  cbn in Hn. apply NoDup_cons in Hn as [Hh Hn].
  assert (ks' ≡ₚ t ++ [(h, H)]) as Hp'.
  { apply NoDup_Permutation; [by apply keys_NoDup| |].
    - apply NoDup_app. split; [by apply NoDup_fmap_1 in Hn|]. split; [|apply NoDup_singleton]. intros x Hx ->%list_elem_of_singleton. destruct Hh. apply list_elem_of_fmap. by exists (h, H).
    - intros [h' z']. rewrite Hv, elem_of_app, list_elem_of_singleton. destruct (decide (h' = h)) as [->|Hne].
      + rewrite bool_decide_true by done. split; [intros ->; by right|]. intros [Hin|[= ->]]; [|done]. destruct Hh. apply list_elem_of_fmap. by exists (h, z').
      + rewrite bool_decide_false, Hp, elem_of_cons by done. split; [intros [[= -> _]|?]; [done|by left]|]. intros [?|[= -> _]]; [by right|done]. }
  assert (forall k, k ∈ ks' -> length k.1 = 32%nat) as L' by (intros k; by apply pay_keys_length).
  apply (sorted_unique key_lt).
  - apply (strict_on_perm _ ks'); [symmetry; apply std_sort_perm|by apply key_strict].
  - rewrite std_sort_perm. done.
  - apply std_sort_sorted; [by apply key_strict|by apply keys_NoDup].
  - assert (StronglySorted (fun x y => key_lt x y = true) (std_sort key_lt ks)) as Hs.
    { apply std_sort_sorted; [apply key_strict; intros k; by apply pay_keys_length|by apply keys_NoDup]. }
    rewrite Hq in Hs. apply StronglySorted_inv in Hs as [Hs _]. apply StronglySorted_app_2; [|done|repeat constructor].
    intros x y Hx ->%list_elem_of_singleton. unfold key_lt. cbn [fst snd]. specialize (Ht x Hx). destruct (Z.eqb_spec x.2 H); [lia|]. apply Z.ltb_lt. lia.
Qed.

(** ** Quorums *)

Definition eligible (l : CDeterministicMNList) (d : CDeterministicMN) : Prop :=
  mnMap l !! proTxHash d = Some d /\ IsMNValid E d = true /\ confirmedHash (pdmnState d) <> uint256_null.
Definition score (modifier : uint256) (d : CDeterministicMN) : base_uint := UintToArith256 (SHA256 (confirmedHashWithProRegTxHash (pdmnState d) ++ modifier)).
Definition hash32 : Prop := forall x, length (SHA256 x) = 32%nat /\ Forall is_byte (SHA256 x).
Definition collaterals32 (l : CDeterministicMNList) : Prop := forall h d, mnMap l !! h = Some d -> length (op_hash (collateralOutpoint d)) = 32%nat.
Abbreviation CalculateScores := (CalculateScores SHA256 E order).
Abbreviation CalculateQuorum := (CalculateQuorum SHA256 E order).

Lemma elem_scores l modifier p : wf l -> p ∈ CalculateScores l modifier <-> p.1 = score modifier p.2 /\ eligible l p.2.
Proof.
  intros Hwf. unfold SmartnodePayee.CalculateScores, eligible. destruct p as [x d]. cbn. setoid_rewrite list_elem_of_fmap. setoid_rewrite list_elem_of_filter. split.
  - intros (d' & [= -> ->] & Hc & [Hv Hd]%elem_ValidMNs); done.
  - intros (-> & Hd & Hv & Hc). exists d. split; [done|]. split; [done|]. by apply elem_ValidMNs.
Qed.

Lemma NoDup_scores l modifier : wf l -> NoDup (CalculateScores l modifier).
Proof.
  intros Hwf. unfold SmartnodePayee.CalculateScores. apply NoDup_fmap_2; [by intros ?? [= _ ->]|]. apply NoDup_filter. by eapply NoDup_fmap_1, NoDup_ValidMNs.
Qed.

(** Two smartnodes of a list have different collaterals. *)
Lemma collateral_inj l d d' : wf l -> mnMap l !! proTxHash d = Some d -> mnMap l !! proTxHash d' = Some d' -> collateralOutpoint d = collateralOutpoint d' -> d = d'.
Proof.
  intros Hwf Hd Hd' Ec. destruct (wf_mn _ _ l Hwf _ _ Hd) as (_ & Hc & _). destruct (wf_mn _ _ l Hwf _ _ Hd') as (_ & Hc' & _).
  destruct (GetUniquePropertyMN_spec SerializeHash B l _ d _ _ Hwf Hd (list_elem_of_here _ _) Hc) as [E1 _].
  destruct (GetUniquePropertyMN_spec SerializeHash B l _ d' _ _ Hwf Hd' (list_elem_of_here _ _) Hc') as [E2 _]. rewrite Ec in E1. congruence.
Qed.

Lemma score_lt_spec modifier d d' : hash32 -> score_lt (score modifier d, d) (score modifier d', d') = true <->
  val (score modifier d) < val (score modifier d') \/ (val (score modifier d) = val (score modifier d') /\ outpoint_lt (collateralOutpoint d) (collateralOutpoint d') = true).
Proof.
  intros H32. assert (forall d, ArithUint256.wf W256 (score modifier d)) as Hw.
  { intros e. destruct (H32 (confirmedHashWithProRegTxHash (pdmnState e) ++ modifier)). by apply ArithToUint256_UintToArith256. }
  unfold score_lt. cbn [fst snd]. destruct (decide (score modifier d = score modifier d')) as [Es|Es].
  - rewrite (bool_decide_true _ Es), Es. split; [by right|]. intros [?|[_ ?]]; [lia|done].
  - rewrite (bool_decide_false _ Es), (CompareTo_spec W256), Z.ltb_lt by done. assert (val (score modifier d) <> val (score modifier d')) as Hv by (intros Hv; by apply Es, (val_inj W256)).
    destruct (Z.compare_spec (val (score modifier d)) (val (score modifier d'))); lia.
Qed.

Lemma outpoint_strict os : (forall o, o ∈ os -> length (op_hash o) = 32%nat) -> strict_on outpoint_lt os.
Proof.
  intros H. unfold outpoint_lt, Compare. split.
  - intros x _. rewrite (proj2 (compare_0 _ _ eq_refl) eq_refl), !Z.ltb_irrefl. done.
  - intros [x i] [y j] [z k] Lx%H Ly%H Lz%H. cbn [op_hash op_n] in *. rewrite !orb_true_iff, !andb_true_iff, !Z.ltb_lt, !Z.eqb_eq.
    rewrite !compare_0 by congruence. intros [H1|[-> H1]] [H2|[-> H2]]; [left|by left|by left|right; split; [done|lia]]. apply (compare_trans _ y); congruence.
  - intros [x i] [y j] Lx%H Ly%H Hne. cbn [op_hash op_n] in *. rewrite !orb_true_iff, !andb_true_iff, !Z.ltb_lt, !Z.eqb_eq, !compare_0 by congruence.
    rewrite (compare_asym x y). destruct (compare_range x y) as [?|[H0|?]]; [lia| |lia]. apply compare_0 in H0; [|congruence]. subst y.
    assert (i <> j) by (by intros ->). destruct (Z.lt_trichotomy i j) as [|[|]]; [left; by right|done|right; by right].
Qed.

Lemma scores_strict l modifier : wf l -> hash32 -> collaterals32 l -> strict_on (fun a b => score_lt b a) (CalculateScores l modifier).
Proof.
  intros Hwf H32 Hc. destruct (outpoint_strict ((fun p => collateralOutpoint p.2) <$> CalculateScores l modifier)) as [H1 H2 H3].
  { intros o ([x d] & -> & [_ (Hd & _)]%elem_scores)%list_elem_of_fmap; [|done]. by eapply Hc. }
  assert (forall p, p ∈ CalculateScores l modifier -> p = (score modifier p.2, p.2) /\ mnMap l !! proTxHash p.2 = Some p.2 /\
    collateralOutpoint p.2 ∈ (fun p => collateralOutpoint p.2) <$> CalculateScores l modifier) as Hp.
  { intros [x d] Hin. split; [|split; [|by apply (list_elem_of_fmap_2 (fun p => collateralOutpoint p.2)) in Hin]]; apply elem_scores in Hin as [Hx (Hd & _)]; [by cbn in *; subst|done..]. }
  split.
  - intros x (-> & _ & Hx)%Hp. apply not_true_iff_false. rewrite (score_lt_spec modifier) by done. intros [?|[_ Ho]]; [lia|]. cbn in Ho. by rewrite H1 in Ho.
  - intros x y z (-> & _ & Hx)%Hp (-> & _ & Hy)%Hp (-> & _ & Hz)%Hp. rewrite !(score_lt_spec modifier) by done. intros [?|[E1 O1]] [?|[E2 O2]]; [left; lia..|].
    right. split; [congruence|]. by apply (H2 _ (collateralOutpoint y.2)).
  - intros x y (Ex & Mx & Hx)%Hp (Ey & My & Hy)%Hp Hne. rewrite Ex, Ey, !(score_lt_spec modifier) by done.
    destruct (Z.lt_trichotomy (val (score modifier x.2)) (val (score modifier y.2))) as [?|[Ev|?]]; [by right; left| |by left; left].
    destruct (H3 _ _ Hx Hy) as [?|?]; [|by right; right|by left; right]. intros Ec. apply Hne. rewrite Ex, Ey. by rewrite (collateral_inj l x.2 y.2).
Qed.

Lemma elem_of_take_sub {A} (x : A) n l : x ∈ take n l -> x ∈ l.
Proof. intros (i & Hi & _)%elem_of_take. by eapply list_elem_of_lookup_2. Qed.

(** A prefix of a sorted list holds the elements that come first. *)
Lemma quorum_prefix l maxSize modifier : wf l -> hash32 -> collaterals32 l ->
  let q := CalculateQuorum l maxSize modifier in
  NoDup q /\ (forall d, d ∈ q -> eligible l d) /\
  length q = Nat.min maxSize (length (CalculateScores l modifier)) /\
  forall d d', d ∈ q -> eligible l d' -> d' ∉ q -> val (score modifier d') <= val (score modifier d).
Proof.
  intros Hwf H32 Hc. cbn. unfold SmartnodePayee.CalculateQuorum. set (cs := CalculateScores l modifier) in *. set (so := std_sort (fun a b => score_lt b a) cs).
  pose proof (std_sort_perm (fun a b => score_lt b a) cs : so ≡ₚ cs) as Hp.
  pose proof (std_sort_sorted _ cs (scores_strict l modifier Hwf H32 Hc) (NoDup_scores l modifier Hwf) : StronglySorted _ so) as Hs.
  assert (forall p, p ∈ so -> p.1 = score modifier p.2 /\ eligible l p.2) as Hin by (intros p; rewrite Hp; by apply elem_scores).
  assert (forall d, d ∈ take maxSize so.*2 -> eligible l d) as He by (intros d (p & -> & Hd)%elem_of_take_sub%list_elem_of_fmap; by apply Hin).
  split; [|split; [done|split]].
  - assert (NoDup so.*2) as Hn; [|rewrite <- (take_drop maxSize so.*2) in Hn; by apply NoDup_app in Hn as [? _]].
    apply NoDup_fmap_2_strong; [|rewrite Hp; by apply NoDup_scores]. intros [x d] [y d'] [Ex _]%Hin [Ey _]%Hin. cbn in *. by intros ->; subst.
  - by rewrite length_take, length_fmap, Hp.
  - intros d d' Hd Hd' Hn. assert ((score modifier d', d') ∈ so) as Hso' by (rewrite Hp; by apply elem_scores).
    rewrite <- fmap_take in Hd, Hn. apply list_elem_of_fmap in Hd as ([x e] & -> & Hd). rewrite <- (take_drop maxSize so) in Hs, Hso'.
    apply elem_of_app in Hso' as [Hso'|Hso']; [destruct Hn; apply list_elem_of_fmap; by exists (score modifier d', d')|].
    pose proof (StronglySorted_app_1_elem_of _ _ _ _ _ Hs Hd Hso') as Hlt. cbn in Hlt. apply elem_of_take_sub in Hd. apply Hin in Hd as [Hx _]. cbn in Hx, Hlt |- *. subst x.
    apply (score_lt_spec modifier) in Hlt; [|done]. lia.
Qed.
End Results.

Lemma scores_order SerializeHash SHA256 B E order order' l modifier : (forall m, order m ≡ₚ map_to_list m) -> (forall m, order' m ≡ₚ map_to_list m) -> wf SerializeHash B l ->
  CalculateScores SHA256 E order l modifier ≡ₚ CalculateScores SHA256 E order' l modifier.
Proof.
  intros Ho Ho' Hwf. apply NoDup_Permutation; [by apply (NoDup_scores SerializeHash SHA256 B E)..|]. intros p.
  by rewrite (elem_scores SerializeHash SHA256 B E order Ho), (elem_scores SerializeHash SHA256 B E order' Ho').
Qed.

(** A quorum is the eligible smartnodes with the highest scores.  For a consistent
    list the members that [CalculateQuorum] returns, and their order, do not depend on
    the order in which the map of smartnodes is iterated; they are distinct, valid and
    confirmed; there are at most as many as asked for, and all the eligible ones where
    there are fewer; and nobody outside the quorum has a higher score than a member. *)
Theorem quorum_highest_scores SerializeHash SHA256 B E order order' l maxSize modifier :
  (forall m, order m ≡ₚ map_to_list m) -> (forall m, order' m ≡ₚ map_to_list m) ->
  wf SerializeHash B l -> hash32 SHA256 -> collaterals32 l ->
  let q := CalculateQuorum SHA256 E order l maxSize modifier in
  CalculateQuorum SHA256 E order' l maxSize modifier = q /\ NoDup q /\ (forall d, d ∈ q -> eligible E l d) /\
  (length q <= maxSize)%nat /\ ((length q < maxSize)%nat -> forall d, eligible E l d -> d ∈ q) /\
  forall d d', d ∈ q -> eligible E l d' -> d' ∉ q -> val (score SHA256 modifier d') <= val (score SHA256 modifier d).
Proof.
  intros Ho Ho' Hwf H32 Hc. cbn. pose proof (scores_strict SerializeHash SHA256 B E order Ho l modifier Hwf H32 Hc) as Hs.
  pose proof (NoDup_scores SerializeHash SHA256 B E order Ho l modifier Hwf) as Hn.
  destruct (quorum_prefix SerializeHash SHA256 B E order Ho l maxSize modifier Hwf H32 Hc) as (H1 & H2 & H3 & H4).
  split; [|split; [done|split; [done|split; [lia|split; [|done]]]]].
  - unfold CalculateQuorum. by rewrite (std_sort_unique _ _ _ Hs Hn (scores_order SerializeHash SHA256 B E order order' l modifier Ho Ho' Hwf)).
  - intros Hlt d Hd. unfold CalculateQuorum in *. rewrite take_ge by (rewrite length_fmap, std_sort_perm; lia).
    apply list_elem_of_fmap. exists (score SHA256 modifier d, d). split; [done|]. rewrite std_sort_perm. by apply (elem_scores SerializeHash SHA256 B E order Ho).
Qed.

(** ** Witnesses *)

Definition toy_sha (x : list Z) : uint256 := replicate 32 (hd 0 x mod 256).
Definition toy_evo : EvoEnv :=
  mkEvo (fun _ => Some (mkCoin (txout (15000000 * COIN) []) false 5)) 200000 (nCollaterals (MainPayments [])).
Definition toy_confirmed : CDeterministicMNState := UpdateConfirmedHash toy_sha (toy_state 7) (proTxHash (toy_mn 7 0)) (replicate 32 4).

Lemma quorum_highest_scores_witness : exists l, UpdateMN_hash toy_hash toy_list (proTxHash (toy_mn 7 0)) toy_confirmed = Ok l /\
  with_state (toy_mn 7 0) toy_confirmed ∈ CalculateQuorum toy_sha toy_evo map_to_list l 2 uint256_null.
Proof.
  destruct (UpdateMN_hash_same toy_hash toy_bls toy_list (proTxHash (toy_mn 7 0)) (toy_mn 7 0) toy_confirmed wf_toy_list eq_refl eq_refl eq_refl eq_refl) as (l & Hl & Hwf & Hm & _).
  exists l. split; [exact Hl|]. rewrite toy_map, insert_singleton_eq in Hm.
  destruct (quorum_highest_scores toy_hash toy_sha toy_bls toy_evo map_to_list map_to_list l 2 uint256_null (fun m => reflexivity _) (fun m => reflexivity _) Hwf) as (_ & Hn & He & _ & Hall & _).
  - intros x. split; [by apply length_replicate|]. unfold toy_sha. apply Forall_replicate. apply Z.mod_pos_bound. lia.
  - intros h d. rewrite Hm. intros [_ <-]%lookup_singleton_Some. reflexivity.
  - assert (eligible toy_evo l (with_state (toy_mn 7 0) toy_confirmed)) as Hel by (split; [rewrite Hm; apply lookup_singleton_eq|split; [reflexivity|discriminate]]).
    revert Hn He Hall. generalize (CalculateQuorum toy_sha toy_evo map_to_list l 2 uint256_null). intros [|x [|y q]] Hn He Hall.
    + apply Hall; [cbn; lia|exact Hel].
    + apply Hall; [cbn; lia|exact Hel].
    + destruct (He x) as [Hx _]; [by left|]. rewrite Hm in Hx. apply lookup_singleton_Some in Hx as [_ <-]. by left.
Defined.
