(* ===== verification/Quorum.v ===== *)
(** * Quorums and their final commitments
    (src/src/llmq/quorums_commitment.h, quorums_commitment.cpp, quorums_utils.cpp, the bit
    sets of src/src/serialize.h, the quorum parameters of src/src/chainparams.cpp)

    A quorum is a group of smartnodes that signs with a threshold key.  Its members
    agree on the key in a session, and a final commitment with the key, who took part
    and the signatures is mined into the chain.  This file has the commitment, its bytes
    and its checks, the parameters of the quorum types, and the connections that the
    members open to each other. *)

From Stdlib Require Import ZArith Lia.
From stdpp Require Import base tactics numbers option list gmap.
From S2P Require Import Prelude ArithUint256 Compact Block Serialize Transaction Merkle ProTx Smartnodes.

Open Scope Z_scope.

(** ** Bit sets *)

(** [CFixedBitSet]: the loop [vBytes[p / 8] |= vec[p] << (p % 8)] is that of partial
    Merkle trees. *)
Definition FixedBitSet_Serialize (size : nat) (vec : list bool) : list Z := pack_loop (take size vec) 0 (replicate ((size + 7) / 8) 0).

Definition get_bit (vBytes : list Z) (p : nat) : bool :=
  negb (Z.land (vBytes !!! (p / 8)%nat) (Z.shiftl 1 (Z.of_nat (p mod 8))) =? 0).

Definition FixedBitSet_Unserialize (size : nat) (s : list Z) : result (list bool * list Z) :=
  let n := ((size + 7) / 8)%nat in
  '(vBytes, s) ← read_bytes n s;
  let vec := map (get_bit vBytes) (seq 0 size) in
  if (n * 8 =? size)%nat then Ok (vec, s)
  else
    let rem := Z.of_nat (n * 8 - size) in
    let m := u8 (Z.lnot (Z.shiftr 0xff rem)) in
    if negb (Z.land (vBytes !!! (n - 1)%nat) m =? 0) then Err IosFailure else Ok (vec, s).

(** [CDynamicBitSet] *)
Definition DynamicBitSet_Serialize (vec : list bool) : list Z :=
  WriteCompactSize (Z.of_nat (length vec)) ++ FixedBitSet_Serialize (length vec) vec.
Definition DynamicBitSet_Unserialize (s : list Z) : result (list bool * list Z) :=
  '(n, s) ← ReadCompactSize s; FixedBitSet_Unserialize (Z.to_nat n) s.

(** ** The parameters of the quorum types *)

Record LLMQParams := mkLLMQ {
  q_type : Z; q_size : Z; q_minSize : Z; q_threshold : Z;
  q_dkgInterval : Z; q_dkgPhaseBlocks : Z; q_dkgMiningWindowStart : Z; q_dkgMiningWindowEnd : Z; q_dkgBadVotesThreshold : Z;
  q_signingActiveQuorumCount : Z; q_keepOldConnections : Z
}.

Definition LLMQ_NONE : Z := 0xff.
Definition LLMQ_50_60 : Z := 1.
Definition LLMQ_400_60 : Z := 2.
Definition LLMQ_400_85 : Z := 3.

Definition llmq200_2 : LLMQParams := mkLLMQ LLMQ_50_60 200 2 2 30 2 10 18 8 2 3.
Definition llmq3_60 : LLMQParams := mkLLMQ LLMQ_50_60 3 2 2 30 2 10 18 8 2 3.
Definition llmq20_60 : LLMQParams := mkLLMQ LLMQ_400_60 20 15 12 (30 * 12) 4 20 28 30 4 5.
Definition llmq20_85 : LLMQParams := mkLLMQ LLMQ_400_85 20 18 17 (30 * 24) 4 20 48 30 4 5.
Definition llmq10_60 : LLMQParams := mkLLMQ LLMQ_50_60 10 8 7 30 2 10 18 8 6 7.
Definition llmq40_60 : LLMQParams := mkLLMQ LLMQ_400_60 40 30 24 (30 * 12) 4 20 28 30 4 5.
Definition llmq40_85 : LLMQParams := mkLLMQ LLMQ_400_85 40 35 34 (30 * 24) 4 20 48 30 4 5.
Definition llmq50_60 : LLMQParams := mkLLMQ LLMQ_50_60 50 40 30 30 2 10 18 40 24 25.
Definition llmq400_60 : LLMQParams := mkLLMQ LLMQ_400_60 400 300 240 (30 * 12) 4 20 28 300 4 5.
Definition llmq400_85 : LLMQParams := mkLLMQ LLMQ_400_85 400 350 340 (30 * 24) 4 20 48 300 4 5.

(** [consensus.llmqs] with the static variables of chainparams.cpp. *)
Record LLMQState := mkLLMQState {
  llmqs : gmap Z LLMQParams;
  lastCheckMnCount : Z; lastCheckHeight : Z; lastCheckedLowLLMQParams : bool
}.

Definition MainLLMQs : LLMQState :=
  mkLLMQState (<[LLMQ_50_60 := llmq3_60]> (<[LLMQ_400_60 := llmq20_60]> (<[LLMQ_400_85 := llmq20_85]> ∅))) 0 0 false.

Definition in_mining_window (p : LLMQParams) (nHeight : Z) : bool :=
  let phaseIndex := Z.rem nHeight (q_dkgInterval p) in (q_dkgMiningWindowStart p <=? phaseIndex) && (phaseIndex <=? q_dkgMiningWindowEnd p).
Definition IsLLMQsMiningPhase (st : LLMQState) (nHeight : Z) : bool := existsb (fun p => in_mining_window p.2 nHeight) (map_to_list (llmqs st)).

Definition llmqs_for (totalMnCount : Z) (lowLLMQParams : bool) (m : gmap Z LLMQParams) : gmap Z LLMQParams :=
  let '(a, b, c) := if totalMnCount <? 5 then (llmq3_60, llmq20_60, llmq20_85)
    else if totalMnCount <? 100 then (llmq10_60, llmq20_60, llmq20_85)
    else if totalMnCount <? 600 then (llmq50_60, llmq40_60, llmq40_85)
    else (llmq50_60, llmq400_60, llmq400_85) in
  let m := <[LLMQ_400_85 := c]> (<[LLMQ_400_60 := b]> (<[LLMQ_50_60 := a]> m)) in
  if lowLLMQParams then <[LLMQ_50_60 := llmq200_2]> m else m.

Definition UpdateLLMQParams (st : LLMQState) (totalMnCount height : Z) (lowLLMQParams : bool) : LLMQState :=
  if (lastCheckHeight st <? height) &&
     (negb (lastCheckMnCount st =? totalMnCount) || negb (eqb (lastCheckedLowLLMQParams st) lowLLMQParams)) &&
     negb (IsLLMQsMiningPhase st height)
  then mkLLMQState (llmqs_for totalMnCount lowLLMQParams (llmqs st)) totalMnCount height lowLLMQParams
  else st.

(** ** Final commitments *)

Record CFinalCommitment := mkCommitment {
  qc_nVersion : Z; qc_llmqType : Z; qc_quorumHash : uint256;
  signers : list bool; validMembers : list bool;
  quorumPublicKey : list Z; quorumVvecHash : uint256; quorumSig : list Z; membersSig : list Z
}.
Record CFinalCommitmentTxPayload := mkQcPayload { qcTx_nVersion : Z; qcTx_nHeight : Z; commitment : CFinalCommitment }.
Definition CFinalCommitment_CURRENT_VERSION : Z := 1.

Definition ser_commitment (c : CFinalCommitment) : list Z :=
  ser_writedata16 (qc_nVersion c) ++ ser_writedata8 (qc_llmqType c) ++ qc_quorumHash c ++
  DynamicBitSet_Serialize (signers c) ++ DynamicBitSet_Serialize (validMembers c) ++
  quorumPublicKey c ++ quorumVvecHash c ++ quorumSig c ++ membersSig c.
Definition ser_qcPayload (p : CFinalCommitmentTxPayload) : list Z :=
  ser_writedata16 (qcTx_nVersion p) ++ ser_writedata32 (qcTx_nHeight p) ++ ser_commitment (commitment p).

Definition CountTrue (v : list bool) : Z := Z.of_nat (length (filter (fun b => b = true) v)).
Definition CountSigners (c : CFinalCommitment) : Z := CountTrue (signers c).
Definition CountValidMembers (c : CFinalCommitment) : Z := CountTrue (validMembers c).

(** A read outside of a [std::vector<bool>] is [ValueOutOfRange]. *)
Definition bit_at (v : list bool) (i : nat) : result bool := match v !! i with Some b => Ok b | None => Err ValueOutOfRange end.

(** [llmqs.at(type)] throws for an unknown type. *)
Definition llmqs_at (st : LLMQState) (t : Z) : result LLMQParams := match llmqs st !! t with Some p => Ok p | None => Err ValueOutOfRange end.

Definition VerifySizes (c : CFinalCommitment) (p : LLMQParams) : bool :=
  if negb (Z.of_nat (length (signers c)) =? q_size p) then true
  else if negb (Z.of_nat (length (validMembers c)) =? q_size p) then false
  else true.

(** The bits from [members.size()] up to [params.size], [n] of them. *)
Fixpoint no_bits (c : CFinalCommitment) (i n : nat) : result bool :=
  match n with
  | O => Ok true
  | S n =>
      v ← bit_at (validMembers c) i;
      if (v : bool) then Ok false
      else
        g ← bit_at (signers c) i;
        if (g : bool) then Ok false else no_bits c (S i) n
  end.

(** The operator keys of the members that signed. *)
Fixpoint signer_keys (c : CFinalCommitment) (i : nat) (members : list CDeterministicMN) : result (list (list Z)) :=
  match members with
  | [] => Ok []
  | d :: members =>
      g ← bit_at (signers c) i;
      ks ← signer_keys c (S i) members;
      Ok (if (g : bool) then pubKeyOperator (pdmnState d) :: ks else ks)
  end.

Section Commitment.
(** [SerializeHash] hashes serialized bytes; [verify_aggregated] is
    [CBLSSignature::VerifySecureAggregated] for a list that is not empty. *)
Context (SerializeHash : list Z -> uint256) (B : BLS) (verify_aggregated : list (list Z) -> uint256 -> list Z -> bool).

Definition unser_commitment (s : list Z) : result (CFinalCommitment * list Z) :=
  '(v, s) ← ser_readdata16 s; '(t, s) ← ser_readdata8 s; '(h, s) ← read_uint256 s;
  '(sg, s) ← DynamicBitSet_Unserialize s; '(vm, s) ← DynamicBitSet_Unserialize s;
  '(k, s) ← unser_bls 48 (bls_key B) s; '(vv, s) ← read_uint256 s; '(qs, s) ← unser_bls 96 (bls_sig B) s; '(ms, s) ← unser_bls 96 (bls_sig B) s;
  Ok (mkCommitment v t h sg vm k vv qs ms, s).
Definition unser_qcPayload (s : list Z) : result (CFinalCommitmentTxPayload * list Z) :=
  '(v, s) ← ser_readdata16 s; '(h, s) ← ser_readdata32 s; '(c, s) ← unser_commitment s; Ok (mkQcPayload v h c, s).

Definition commitment_IsNull (c : CFinalCommitment) : bool :=
  if negb (CountTrue (signers c) =? 0) || negb (CountTrue (validMembers c) =? 0) then false
  else if bls_key B (quorumPublicKey c) || negb (IsNull (quorumVvecHash c)) || bls_sig B (membersSig c) || bls_sig B (quorumSig c) then false
  else true.

Definition BuildCommitmentHash (llmqType : Z) (blockHash : uint256) (valid : list bool) (pubKey : list Z) (vvecHash : uint256) : uint256 :=
  SerializeHash (ser_writedata8 llmqType ++ blockHash ++ DynamicBitSet_Serialize valid ++ pubKey ++ vvecHash).
Definition BuildSignHash (llmqType : Z) (quorumHash id msgHash : uint256) : uint256 :=
  SerializeHash (ser_writedata8 llmqType ++ quorumHash ++ id ++ msgHash).

Definition VerifySecureAggregated (sig : list Z) (pks : list (list Z)) (hash : uint256) : bool :=
  match pks with [] => false | _ => verify_aggregated pks hash sig end.

Definition Verify (st : LLMQState) (c : CFinalCommitment) (members : list CDeterministicMN) (checkSigs : bool) : result bool :=
  if (qc_nVersion c =? 0) || (CFinalCommitment_CURRENT_VERSION <? qc_nVersion c) then Ok false
  else
    match llmqs st !! qc_llmqType c with
    | None => Ok false
    | Some params =>
        if negb (VerifySizes c params) then Ok false
        else if CountValidMembers c <? q_minSize params then Ok false
        else if CountSigners c <? q_minSize params then Ok false
        else if negb (bls_key B (quorumPublicKey c)) then Ok false
        else if IsNull (quorumVvecHash c) then Ok false
        else if negb (bls_sig B (membersSig c)) then Ok false
        else if negb (bls_sig B (quorumSig c)) then Ok false
        else
          clear ← no_bits c (length members) (Z.to_nat (q_size params) - length members);
          if negb clear then Ok false
          else if checkSigs then
            let commitmentHash := BuildCommitmentHash (q_type params) (qc_quorumHash c) (validMembers c) (quorumPublicKey c) (quorumVvecHash c) in
            memberPubKeys ← signer_keys c 0 members;
            if negb (VerifySecureAggregated (membersSig c) memberPubKeys commitmentHash) then Ok false
            else if negb (bls_verify B (quorumPublicKey c) commitmentHash (quorumSig c)) then Ok false
            else Ok true
          else Ok true
    end.

Definition VerifyNull (st : LLMQState) (c : CFinalCommitment) : bool :=
  match llmqs st !! qc_llmqType c with
  | None => false
  | Some params => if negb (commitment_IsNull c) || negb (VerifySizes c params) then false else true
  end.
End Commitment.

(** ** Connections between members *)

(** The loop [while ((gap_max >>= 1) || k <= 1)] for the member [i] of [n]; the fuel is
    the number of rounds.  The [continue] leaves [gap] and [k] as they are. *)
Fixpoint connection_loop (fuel : nat) (mns : list CDeterministicMN) (dmn : CDeterministicMN) (i gap gap_max k : Z) (res : gset (list Z)) : result (gset (list Z)) :=
  match fuel with
  | O => Err OutOfFuel
  | S fuel =>
      let gap_max := Z.shiftr gap_max 1 in
      if negb (gap_max =? 0) || (k <=? 1) then
        let idx := (i + gap) mod Z.of_nat (length mns) in
        otherDmn ← deref (mns !! Z.to_nat idx);
        if bool_decide (otherDmn = dmn) then connection_loop fuel mns dmn i gap gap_max k res
        else connection_loop fuel mns dmn i (Z.shiftl gap 1) gap_max (k + 1) (res ∪ {[proTxHash otherDmn]})
      else Ok res
  end.

(** [GetQuorumConnections] for the members [mns]. *)
Fixpoint find_member (mns : list CDeterministicMN) (i : nat) (forMember : uint256) : option (nat * CDeterministicMN) :=
  match mns with
  | [] => None
  | d :: mns => if bool_decide (proTxHash d = forMember) then Some (i, d) else find_member mns (S i) forMember
  end.
Definition GetQuorumConnections (fuel : nat) (mns : list CDeterministicMN) (forMember : uint256) : result (gset (list Z)) :=
  match find_member mns 0 forMember with
  | None => Ok ∅
  | Some (i, dmn) => connection_loop fuel mns dmn (Z.of_nat i) 1 (Z.of_nat (length mns) - 1) 0 ∅
  end.

(** ** Lemmas: bit sets *)

Lemma get_bit_take size vBytes : (size <= length vBytes * 8)%nat -> map (get_bit vBytes) (seq 0 size) = take size (unpack_bits vBytes).
Proof. intros H. unfold unpack_bits. rewrite <- fmap_take, take_seq, Nat.min_l by done. done. Qed.

Lemma testbit_byte_mask rem j : 0 <= rem <= 8 -> 0 <= j < 8 -> Z.testbit (u8 (Z.lnot (Z.shiftr 0xff rem))) j = (8 - rem <=? j).
Proof.
  intros Hr Hj. unfold u8. rewrite Z.mod_pow2_bits_low, Z.lnot_spec, Z.shiftr_spec by lia. change 0xff with (Z.ones 8). rewrite Z.testbit_ones_nonneg by lia.
  destruct (Z.ltb_spec (j + rem) 8), (Z.leb_spec (8 - rem) j); (done || lia).
Qed.

Lemma FixedBitSet_roundtrip vec s : FixedBitSet_Unserialize (length vec) (FixedBitSet_Serialize (length vec) vec ++ s) = Ok (vec, s).
Proof.
  unfold FixedBitSet_Serialize, FixedBitSet_Unserialize. rewrite firstn_all. change (pack_loop vec 0 _) with (pack_bits vec).
  destruct (pack_bits_length vec) as [Hl Hb]. rewrite read_bytes_app by done. cbn [mbind result_bind]. destruct (unpack_pack vec) as (pad & Hu & Hpad).
  set (n := ((length vec + 7) / 8)%nat) in *. assert (n * 8 = length vec + pad)%nat as Hn.
  { apply (f_equal length) in Hu. unfold unpack_bits in Hu. by rewrite length_fmap, length_seq, Hl, length_app, length_replicate in Hu. }
  rewrite get_bit_take by lia. rewrite Hu, take_app_length. destruct (Nat.eqb_spec (n * 8) (length vec)); [done|].
  assert (Z.land (pack_bits vec !!! (n - 1)%nat) (u8 (Z.lnot (Z.shiftr 0xff (Z.of_nat (n * 8 - length vec))))) = 0) as ->; [|done].
  apply Z.bits_inj'. intros j Hj. rewrite Z.land_spec, Z.bits_0. destruct (Z.lt_ge_cases j 8) as [Hj8|Hj8].
  2:{ unfold u8. rewrite (Z.mod_pow2_bits_high _ 8 j) by lia. apply andb_false_r. }
  rewrite testbit_byte_mask by lia. destruct (Z.leb_spec (8 - Z.of_nat (n * 8 - length vec)) j) as [Hle|]; [|apply andb_false_r].
  rewrite andb_true_r. set (k := ((n - 1) * 8 + Z.to_nat j)%nat). assert (unpack_bits (pack_bits vec) !! k = Some false) as Hk.
  { rewrite Hu, lookup_app_r, lookup_replicate by (unfold k; lia). split; [done|unfold k; lia]. }
  unfold unpack_bits in Hk. rewrite list_lookup_fmap, lookup_seq_lt in Hk by (rewrite Hl; unfold k; lia). cbn [fmap option_fmap option_map Nat.add] in Hk. apply (inj Some) in Hk.
  rewrite land_bit_zero, negb_involutive in Hk by lia. assert (k / 8 = n - 1)%nat as E1.
  { symmetry. apply (Nat.div_unique _ _ _ (Z.to_nat j)); unfold k; lia. }
  assert (k mod 8 = Z.to_nat j)%nat as E2 by (symmetry; apply (Nat.mod_unique _ _ (n - 1)); unfold k; lia).
  rewrite E1, E2, Z2Nat.id in Hk by lia. done.
Qed.

Lemma DynamicBitSet_roundtrip vec s : Z.of_nat (length vec) <= MAX_SIZE -> DynamicBitSet_Unserialize (DynamicBitSet_Serialize vec ++ s) = Ok (vec, s).
Proof.
  intros H. unfold DynamicBitSet_Serialize, DynamicBitSet_Unserialize. rewrite <- app_assoc, ReadCompactSize_Write by lia. cbn [mbind result_bind].
  rewrite Nat2Z.id. apply FixedBitSet_roundtrip.
Qed.

(** ** Lemmas: signers *)

Lemma CountTrue_app a b : CountTrue (a ++ b) = CountTrue a + CountTrue b.
Proof. unfold CountTrue. rewrite filter_app, length_app. lia. Qed.

Lemma CountTrue_cons b l : CountTrue (b :: l) = (if b then 1 else 0) + CountTrue l.
Proof. unfold CountTrue. rewrite filter_cons. destruct b; [rewrite decide_True by done|rewrite decide_False by done]; cbn [length]; lia. Qed.

Lemma CountTrue_replicate n b : CountTrue (replicate n b) = if b then Z.of_nat n else 0.
Proof. induction n as [|n IH]; [by destruct b|]. cbn [replicate]. rewrite CountTrue_cons, IH. destruct b; lia. Qed.

Lemma no_bits_inv c i n : no_bits c i n = Ok true -> forall j, (i <= j < i + n)%nat -> signers c !! j = Some false /\ validMembers c !! j = Some false.
Proof.
  revert i. induction n as [|n IH]; intros i; cbn [no_bits]; [intros _ j Hj; lia|]. unfold bit_at.
  destruct (validMembers c !! i) as [[]|] eqn:Ev; cbn [mbind result_bind]; [done| |done].
  destruct (signers c !! i) as [[]|] eqn:Es; cbn [mbind result_bind]; [done| |done]. intros H j Hj.
  destruct (decide (j = i)) as [->|]; [done|]. apply (IH (S i) H). lia.
Qed.

Lemma no_bits_false c i n : (forall j, (i <= j < i + n)%nat -> signers c !! j = Some false /\ validMembers c !! j = Some false) -> no_bits c i n = Ok true.
Proof.
  revert i. induction n as [|n IH]; intros i H; cbn [no_bits]; [done|]. destruct (H i) as [Hs Hv]; [lia|].
  unfold bit_at. rewrite Hs, Hv. cbn [mbind result_bind]. apply IH. intros j Hj. apply H. lia.
Qed.

Lemma signer_keys_count c i members ks : signer_keys c i members = Ok ks -> Z.of_nat (length ks) = CountTrue (take (length members) (drop i (signers c))).
Proof.
  revert i ks. induction members as [|d members IH]; intros i ks; cbn [signer_keys length]; [by intros [= <-]|]. unfold bit_at.
  destruct (signers c !! i) as [g|] eqn:Eg; cbn [mbind result_bind]; [|done]. intros H. apply result_bind_Ok in H as (ks' & Hk & [= <-]).
  rewrite (drop_S _ _ _ Eg). cbn [take]. rewrite CountTrue_cons, <- (IH _ _ Hk). destruct g; cbn [length]; lia.
Qed.

Lemma signer_keys_one c i k members : (forall j, (j < length members)%nat -> signers c !! (k + j)%nat = Some (bool_decide (k + j = i)%nat)) ->
  signer_keys c k members = Ok (if decide (k <= i)%nat then match members !! (i - k)%nat with Some d => [pubKeyOperator (pdmnState d)] | None => [] end else []).
Proof.
  revert k. induction members as [|d members IH]; intros k H; cbn [signer_keys]; [by destruct (decide _)|]. unfold bit_at.
  pose proof (H 0%nat ltac:(cbn; lia)) as H0. rewrite Nat.add_0_r in H0. rewrite H0. cbn [mbind result_bind]. rewrite IH.
  2:{ intros j Hj. replace (S k + j)%nat with (k + S j)%nat by lia. apply H. cbn. lia. }
  cbn [mbind result_bind]. destruct (decide (k = i)) as [->|Hne].
  - rewrite bool_decide_true, decide_False, decide_True, Nat.sub_diag by lia. done.
  - rewrite bool_decide_false by done. destruct (decide (k <= i)%nat).
    + rewrite decide_True by lia. replace (i - k)%nat with (S (i - S k)) by lia. done.
    + by rewrite decide_False by lia.
Qed.

Section Checks.
Context (SerializeHash : list Z -> uint256) (B : BLS) (verify_aggregated : list (list Z) -> uint256 -> list Z -> bool).
Abbreviation Verify := (Verify SerializeHash B verify_aggregated).
Abbreviation hash_of := (fun params c => BuildCommitmentHash SerializeHash (q_type params) (qc_quorumHash c) (validMembers c) (quorumPublicKey c) (quorumVvecHash c)).

Lemma Verify_inv st c members : Verify st c members true = Ok true -> exists params ks, llmqs st !! qc_llmqType c = Some params /\
  VerifySizes c params = true /\ q_minSize params <= CountSigners c /\ q_minSize params <= CountValidMembers c /\
  no_bits c (length members) (Z.to_nat (q_size params) - length members) = Ok true /\ signer_keys c 0 members = Ok ks /\ ks <> [] /\
  verify_aggregated ks (hash_of params c) (membersSig c) = true /\ bls_verify B (quorumPublicKey c) (hash_of params c) (quorumSig c) = true.
Proof.
  unfold Quorum.Verify. destruct ((qc_nVersion c =? 0) || _); [done|]. destruct (llmqs st !! qc_llmqType c) as [params|]; [|done].
  destruct (VerifySizes c params) eqn:Es; [|done]. cbn [negb]. destruct (Z.ltb_spec (CountValidMembers c) (q_minSize params)); [done|].
  destruct (Z.ltb_spec (CountSigners c) (q_minSize params)); [done|]. destruct (negb (bls_key B _)); [done|]. destruct (IsNull _); [done|].
  destruct (negb (bls_sig B _)); [done|]. destruct (negb (bls_sig B _)); [done|]. intros Hv. apply result_bind_Ok in Hv as ([] & Hn & Hv); [|done]. cbn [negb] in Hv.
  apply result_bind_Ok in Hv as (ks & Hk & Hv). exists params, ks. unfold VerifySecureAggregated in Hv. destruct ks as [|k ks]; [done|].
  destruct (verify_aggregated (k :: ks) _ _) eqn:Ea; [|done]. cbn [negb] in Hv. destruct (bls_verify B _ _ _) eqn:Eb; [|done]. by split_and!.
Qed.

(** C23: A commitment whose bit sets have the size of the quorum is signed by enough
    members.  If [Verify] with signatures accepts such a commitment, the aggregated
    signature was checked over the hash of the commitment with the keys of at least
    [minSize] of the members, no bit is set for a member that does not exist, and the
    quorum key signed the same hash. *)
Theorem commitment_signed st c params members : llmqs st !! qc_llmqType c = Some params -> Z.of_nat (length (signers c)) = q_size params ->
  (length members <= Z.to_nat (q_size params))%nat -> Verify st c members true = Ok true ->
  exists ks, signer_keys c 0 members = Ok ks /\ q_minSize params <= Z.of_nat (length ks) /\
    verify_aggregated ks (hash_of params c) (membersSig c) = true /\ bls_verify B (quorumPublicKey c) (hash_of params c) (quorumSig c) = true /\
    length (validMembers c) = length (signers c) /\
    forall j, (length members <= j < length (signers c))%nat -> signers c !! j = Some false /\ validMembers c !! j = Some false.
Proof.
  intros Hp Hl Hm Hv. destruct (Verify_inv st c members Hv) as (p & ks & Hp' & Hs & Hc & _ & Hn & Hk & _ & Ha & Hb). assert (p = params) as -> by congruence.
  pose proof (no_bits_inv _ _ _ Hn) as Hbits. exists ks. split_and!; [done| |done|done| |].
  - rewrite (signer_keys_count c 0 members ks Hk), drop_0. unfold CountSigners in Hc. rewrite <- (take_drop (length members) (signers c)) in Hc.
    rewrite CountTrue_app in Hc. assert (drop (length members) (signers c) = replicate (length (signers c) - length members) false) as Ed.
    { apply list_eq. intros j. rewrite lookup_drop. destruct (decide (j < length (signers c) - length members)%nat).
      - rewrite lookup_replicate_2 by done. apply Hbits. lia.
      - rewrite !lookup_ge_None_2; [done|rewrite length_replicate; lia|lia]. }
    rewrite Ed, CountTrue_replicate in Hc. lia.
  - unfold VerifySizes in Hs. rewrite Hl, Z.eqb_refl in Hs. cbn [negb] in Hs. destruct (Z.eqb_spec (Z.of_nat (length (validMembers c))) (q_size params)); [lia|done].
  - intros j Hj. apply Hbits. lia.
Qed.

Definition forged_signers (params : LLMQParams) (i : nat) : list bool :=
  <[i := true]> (replicate (Z.to_nat (q_size params)) false) ++ replicate (Z.to_nat (q_minSize params)) true.
Definition all_valid (params : LLMQParams) (n : nat) : list bool := replicate n true ++ replicate (Z.to_nat (q_size params) - n) false.

(** C24: One member of a quorum can make its final commitment.  [VerifySizes] accepts a
    list of signers that does not have the size of the quorum, and the bits after the
    last member count as signers without belonging to anyone.  So for every quorum with
    at least [minSize] members, and every member of it, the commitment that claims all
    members to be valid, with any quorum key, is accepted with all its signatures
    checked, although among the members only that one signed. *)
Theorem forged_commitment_accepted st t params quorumHash members i d key vvec qsig msig : llmqs st !! t = Some params -> 0 < q_minSize params ->
  q_minSize params <= Z.of_nat (length members) <= q_size params -> members !! i = Some d ->
  bls_key B key = true -> IsNull vvec = false -> bls_sig B msig = true -> bls_sig B qsig = true ->
  let c := mkCommitment 1 t quorumHash (forged_signers params i) (all_valid params (length members)) key vvec qsig msig in
  verify_aggregated [pubKeyOperator (pdmnState d)] (hash_of params c) msig = true -> bls_verify B key (hash_of params c) qsig = true ->
  Verify st c members true = Ok true /\ forall j, (j < length members)%nat -> signers c !! j = Some (bool_decide (j = i)).
Proof.
  intros Hp H0 Hm Hi Hk Hvv Hms Hqs c Ha Hb. pose proof (lookup_lt_Some _ _ _ Hi) as Hil. set (n := Z.to_nat (q_size params)) in *.
  assert (forall j, (j < n)%nat -> signers c !! j = Some (bool_decide (j = i))) as Hs.
  { intros j Hj. cbn [signers c]. unfold forged_signers. fold n. rewrite lookup_app_l by (rewrite length_insert, length_replicate; done).
    destruct (decide (j = i)) as [->|]; [rewrite list_lookup_insert_eq, bool_decide_true by (rewrite ?length_replicate; done); done|].
    rewrite list_lookup_insert_ne, lookup_replicate_2, bool_decide_false by done. done. }
  split; [|intros j Hj; apply Hs; lia].
  unfold Quorum.Verify. cbn [qc_nVersion qc_llmqType c Z.eqb orb]. change (CFinalCommitment_CURRENT_VERSION <? 1) with false. cbn [orb]. rewrite Hp.
  assert (VerifySizes c params = true) as ->.
  { unfold VerifySizes, c, forged_signers. cbn [signers]. rewrite length_app, length_insert, !length_replicate.
    destruct (Z.eqb_spec (Z.of_nat (Z.to_nat (q_size params) + Z.to_nat (q_minSize params))) (q_size params)); [lia|done]. }
  cbn [negb]. assert (q_minSize params <= CountValidMembers c) as Hcv.
  { unfold CountValidMembers, c, all_valid. cbn [validMembers]. rewrite CountTrue_app, !CountTrue_replicate. lia. }
  assert (q_minSize params <= CountSigners c) as Hcs.
  { unfold CountSigners, c, forged_signers. cbn [signers]. rewrite CountTrue_app, CountTrue_replicate. unfold CountTrue. lia. }
  rewrite (proj2 (Z.ltb_ge _ _) Hcv), (proj2 (Z.ltb_ge _ _) Hcs). cbn [quorumPublicKey quorumVvecHash membersSig quorumSig qc_quorumHash c]. fold c.
  rewrite Hk, Hvv, Hms, Hqs. cbn [negb]. fold n. rewrite (no_bits_false c).
  2:{ intros j Hj. split; [rewrite Hs, bool_decide_false by lia; done|]. cbn [validMembers c]. unfold all_valid. fold n.
      rewrite lookup_app_r, lookup_replicate_2 by (rewrite ?length_replicate; lia). done. }
  cbn [mbind result_bind negb]. rewrite (signer_keys_one c i 0 members) by (intros j Hj; apply Hs; lia). rewrite decide_True, Nat.sub_0_r, Hi by lia.
  cbn [mbind result_bind]. unfold VerifySecureAggregated. cbn [validMembers qc_quorumHash quorumPublicKey quorumVvecHash c] in Ha, Hb |- *. by rewrite Ha, Hb.
Qed.
End Checks.

(** ** The bytes of a commitment *)

Definition commitment_ok (B : BLS) (c : CFinalCommitment) : Prop :=
  0 <= qc_nVersion c < 2 ^ 16 /\ 0 <= qc_llmqType c < 2 ^ 8 /\ uint256_ok (qc_quorumHash c) /\
  Z.of_nat (length (signers c)) <= MAX_SIZE /\ Z.of_nat (length (validMembers c)) <= MAX_SIZE /\
  bls_ok 48 (bls_key B) (quorumPublicKey c) /\ uint256_ok (quorumVvecHash c) /\ bls_ok 96 (bls_sig B) (quorumSig c) /\ bls_ok 96 (bls_sig B) (membersSig c).

Lemma commitment_roundtrip B c s : commitment_ok B c -> unser_commitment B (ser_commitment c ++ s) = Ok (c, s).
Proof.
  intros Hc. unfold commitment_ok in Hc. destruct_and! Hc. unfold unser_commitment, ser_commitment. rewrite <- ?app_assoc. read_field.
  unfold ser_readdata8, ser_writedata8. rewrite read_le_bytes by done. cbn [mbind result_bind]. read_field.
  do 2 (rewrite DynamicBitSet_roundtrip by done; cbn [mbind result_bind]). repeat read_field. by destruct c.
Qed.

(** The payload of a commitment transaction survives the trip through the
    transaction. *)
Theorem commitment_payload_roundtrip (B : BLS) (p : CFinalCommitmentTxPayload) : 0 <= qcTx_nVersion p < 2 ^ 16 -> 0 <= qcTx_nHeight p < 2 ^ 32 -> commitment_ok B (commitment p) ->
  GetTxPayload (unser_qcPayload B) (ser_qcPayload p) = Some p.
Proof.
  intros Hv Hh Hc. unfold GetTxPayload, unser_qcPayload, ser_qcPayload. rewrite <- (app_nil_r (ser_commitment (commitment p))), <- ?app_assoc. read_field.
  unfold ser_readdata32, ser_writedata32. rewrite read_le_bytes by done. cbn [mbind result_bind]. rewrite commitment_roundtrip by done. cbn [mbind result_bind]. by destruct p.
Qed.

(** ** Lemmas: connections *)

(** The number of rounds of the loop for [n] members. *)
Definition rounds (n : Z) : Z := Z.max 2 (Z.log2 (n - 1)).

Lemma shiftr_zero n k : 1 <= n -> 0 <= k -> (Z.shiftr n k =? 0) = (Z.log2 n <? k).
Proof.
  intros Hn Hk. rewrite Z.shiftr_div_pow2 by done. destruct (Z.ltb_spec (Z.log2 n) k) as [H|H].
  - apply Z.eqb_eq, Z.div_small. pose proof (Z.log2_lt_pow2 n k ltac:(lia)). lia.
  - apply Z.eqb_neq. apply Z.log2_le_pow2 in H; [|lia]. pose proof (Z.div_le_lower_bound n (2 ^ k) 1 ltac:(lia)). lia.
Qed.

(** The hash of the member [2 ^ k] places after [i]. *)
Definition neighbour (mns : list CDeterministicMN) (i k : Z) : list Z := from_option proTxHash [] (mns !! Z.to_nat ((i + 2 ^ k) mod Z.of_nat (length mns))).

Lemma gap_bound n k : 3 <= n -> 0 <= k < rounds n -> 0 < 2 ^ k < n.
Proof.
  unfold rounds. intros Hn Hk. split; [lia|]. destruct (Z.lt_ge_cases k 2) as [H2|H2].
  - assert (k = 0 \/ k = 1) as [->| ->] by lia; cbn; lia.
  - assert (k <= Z.log2 (n - 1)) as Hl by lia. apply Z.log2_le_pow2 in Hl; lia.
Qed.

Lemma other_index n i g : 0 <= i < n -> 0 < g < n -> (i + g) mod n <> i /\ 0 <= (i + g) mod n < n.
Proof.
  intros Hi Hg. split; [|apply Z.mod_pos_bound; lia]. destruct (Z.lt_ge_cases (i + g) n).
  - rewrite Z.mod_small by lia. lia.
  - replace (i + g) with (i + g - n + 1 * n) by lia. rewrite Z.mod_add, Z.mod_small by lia. lia.
Qed.

Lemma connection_loop_spec mns dmn i m k fuel res : NoDup mns -> 3 <= Z.of_nat (length mns) -> mns !! i = Some dmn -> 0 <= k -> k + Z.of_nat m = rounds (Z.of_nat (length mns)) -> (m < fuel)%nat ->
  connection_loop fuel mns dmn (Z.of_nat i) (2 ^ k) (Z.shiftr (Z.of_nat (length mns) - 1) k) k res =
  Ok (res ∪ list_to_set (neighbour mns (Z.of_nat i) <$> seqZ k (Z.of_nat m))).
Proof.
  intros Hnd Hn Hi. set (n := Z.of_nat (length mns)) in *. pose proof (lookup_lt_Some _ _ _ Hi) as Hil.
  revert k fuel res. induction m as [|m IH]; intros k fuel res Hk Hm Hf; (destruct fuel as [|fuel]; [lia|]); cbn [connection_loop]; rewrite Z.shiftr_shiftr, shiftr_zero by lia.
  - unfold rounds in Hm. rewrite (proj2 (Z.ltb_lt (Z.log2 (n - 1)) (k + 1))), (proj2 (Z.leb_gt k 1)) by lia. cbn. f_equal. set_solver.
  - assert (negb (Z.log2 (n - 1) <? k + 1) || (k <=? 1) = true) as ->.
    { unfold rounds in Hm. destruct (Z.ltb_spec (Z.log2 (n - 1)) (k + 1)); [|done]. cbn. apply Z.leb_le. lia. }
    fold n. destruct (other_index n (Z.of_nat i) (2 ^ k)) as [Hne Hidx]; [lia|apply gap_bound; lia|].
    destruct (lookup_lt_is_Some_2 mns (Z.to_nat ((Z.of_nat i + 2 ^ k) mod n))) as [o Ho]; [lia|]. rewrite Ho. cbn [deref mbind result_bind].
    rewrite bool_decide_false. 2:{ intros ->. apply Hne. pose proof (NoDup_lookup _ _ _ _ Hnd Ho Hi). lia. }
    rewrite Z.shiftl_mul_pow2, Z.mul_comm, <- Z.pow_add_r, (Z.add_comm 1 k) by lia. rewrite IH by lia. f_equal. rewrite (seqZ_cons k (Z.of_nat (S m))) by lia.
    replace (Z.pred (Z.of_nat (S m))) with (Z.of_nat m) by lia. replace (Z.succ k) with (k + 1) by lia. cbn [fmap list_fmap list_to_set].
    unfold neighbour at 2. fold n. rewrite Ho. cbn [from_option]. by rewrite assoc_L by apply _.
Qed.

Lemma connection_loop_stuck mns dmn i gap gap_max k fuel res : mns !! Z.to_nat ((i + gap) mod Z.of_nat (length mns)) = Some dmn -> k <= 1 ->
  connection_loop fuel mns dmn i gap gap_max k res = Err OutOfFuel.
Proof.
  intros Hm Hk. revert gap_max. induction fuel as [|fuel IH]; intros gap_max; cbn [connection_loop]; [done|].
  rewrite (proj2 (Z.leb_le k 1)), orb_true_r, Hm by done. cbn [deref mbind result_bind]. by rewrite bool_decide_true.
Qed.

Lemma find_member_spec mns i k d : NoDup (proTxHash <$> mns) -> mns !! i = Some d -> find_member mns k (proTxHash d) = Some ((k + i)%nat, d).
Proof.
  revert i k. induction mns as [|x mns IH]; intros i k Hnd Hi; [done|]. cbn [fmap list_fmap] in Hnd. apply NoDup_cons in Hnd as [Hx Hnd]. cbn [find_member].
  destruct i as [|i]; [injection Hi as ->; rewrite bool_decide_true, Nat.add_0_r by done; done|].
  rewrite bool_decide_false. 2:{ intros E. apply Hx. rewrite E. apply list_elem_of_fmap_2. by eapply list_elem_of_lookup_2. }
  cbn in Hi. rewrite (IH i (S k) Hnd Hi). do 2 f_equal. lia.
Qed.

(** The connections of a quorum member.  With at least three members the loop of
    [GetQuorumConnections] ends, and the member connects to the ones 1, 2, 4, ... places
    after it, that is [max 2 (log2 (n - 1))] of them, none of which is itself.  With one
    or two members it never ends: the [continue] for the member itself does not advance
    the gap. *)
Theorem quorum_connections mns i dmn : NoDup (proTxHash <$> mns) -> mns !! i = Some dmn ->
  let n := Z.of_nat (length mns) in
  (3 <= n -> exists fuel0, forall fuel, (fuel0 <= fuel)%nat ->
     GetQuorumConnections fuel mns (proTxHash dmn) = Ok (list_to_set (neighbour mns (Z.of_nat i) <$> seqZ 0 (rounds n)))) /\
  (3 <= n -> proTxHash dmn ∉ neighbour mns (Z.of_nat i) <$> seqZ 0 (rounds n)) /\
  (n < 3 -> forall fuel, GetQuorumConnections fuel mns (proTxHash dmn) = Err OutOfFuel).
Proof.
  intros Hnd Hi n. pose proof (lookup_lt_Some _ _ _ Hi) as Hil. pose proof (NoDup_fmap_1 _ _ Hnd) as Hnd'. unfold GetQuorumConnections. rewrite (find_member_spec mns i 0 dmn Hnd Hi). cbn [Nat.add]. fold n. split_and!.
  - intros Hn. exists (S (Z.to_nat (rounds n))). intros fuel Hf.
    pose proof (connection_loop_spec mns dmn i (Z.to_nat (rounds n)) 0 fuel ∅ Hnd' Hn Hi) as Hs. fold n in Hs. assert (0 <= rounds n) by (unfold rounds; lia).
    rewrite Z.pow_0_r, Z.shiftr_0_r, Z2Nat.id in Hs by done. rewrite Hs by lia. f_equal. set_solver.
  - intros Hn (k & Hk & Hkr%elem_of_seqZ)%list_elem_of_fmap. destruct (other_index n (Z.of_nat i) (2 ^ k)) as [Hne Hidx]; [lia|apply gap_bound; lia|].
    unfold neighbour in Hk. fold n in Hk. destruct (lookup_lt_is_Some_2 mns (Z.to_nat ((Z.of_nat i + 2 ^ k) mod n))) as [o Ho]; [lia|]. rewrite Ho in Hk. cbn [from_option] in Hk.
    apply Hne. assert (Z.to_nat ((Z.of_nat i + 2 ^ k) mod n) = i) as Ei; [|lia].
    apply (NoDup_lookup (proTxHash <$> mns) _ _ (proTxHash dmn) Hnd); rewrite list_lookup_fmap; [rewrite Ho|rewrite Hi]; cbn; congruence.
  - intros Hn fuel. assert (n = 1 \/ n = 2) as [En|En] by lia.
    + apply connection_loop_stuck; [|lia]. fold n. rewrite En, Z.mod_1_r. assert (i = 0)%nat as -> by lia. done.
    + destruct fuel as [|fuel]; [done|]. cbn [connection_loop]. fold n. rewrite orb_true_r.
      destruct (other_index n (Z.of_nat i) 1) as [Hne Hidx]; [lia..|]. destruct (lookup_lt_is_Some_2 mns (Z.to_nat ((Z.of_nat i + 1) mod n))) as [o Ho]; [lia|].
      rewrite Ho. cbn [deref mbind result_bind]. rewrite bool_decide_false. 2:{ intros ->. pose proof (NoDup_lookup _ _ _ _ Hnd' Ho Hi). lia. }
      apply connection_loop_stuck; [|lia]. fold n. change (Z.shiftl 1 1) with (1 * 2). rewrite En, Z.mod_add, Z.mod_small, Nat2Z.id by lia. done.
Qed.

(** ** The parameters over time *)

(** The interval and the mining window of each type. *)
Definition schedule (t : Z) : Z * Z * Z := if t =? LLMQ_50_60 then (30, 10, 18) else if t =? LLMQ_400_60 then (360, 20, 28) else (720, 20, 48).
Definition params_ok (t : Z) (p : LLMQParams) : Prop :=
  q_type p = t /\ 0 < q_threshold p <= q_minSize p /\ q_minSize p <= q_size p /\
  5 * q_dkgPhaseBlocks p <= q_dkgMiningWindowStart p <= q_dkgMiningWindowEnd p /\ q_dkgMiningWindowEnd p < q_dkgInterval p /\
  schedule t = (q_dkgInterval p, q_dkgMiningWindowStart p, q_dkgMiningWindowEnd p).
Definition llmqs_ok (st : LLMQState) : Prop :=
  dom (llmqs st) = {[LLMQ_50_60; LLMQ_400_60; LLMQ_400_85]} /\
  map_Forall params_ok (llmqs st).

Definition update_all (st : LLMQState) (calls : list (Z * Z * bool)) : LLMQState :=
  foldl (fun st c => UpdateLLMQParams st c.1.1 c.1.2 c.2) st calls.

Lemma llmqs_for_ok n low m : dom m = {[LLMQ_50_60; LLMQ_400_60; LLMQ_400_85]} -> map_Forall params_ok m ->
  dom (llmqs_for n low m) = {[LLMQ_50_60; LLMQ_400_60; LLMQ_400_85]} /\ map_Forall params_ok (llmqs_for n low m).
Proof.
  intros Hd Hm. assert (forall t p (m' : gmap Z LLMQParams), t ∈ ({[LLMQ_50_60; LLMQ_400_60; LLMQ_400_85]} : gset Z) -> params_ok t p -> dom m' = {[LLMQ_50_60; LLMQ_400_60; LLMQ_400_85]} /\ map_Forall params_ok m' ->
    dom (<[t := p]> m') = {[LLMQ_50_60; LLMQ_400_60; LLMQ_400_85]} /\ map_Forall params_ok (<[t := p]> m')) as Hi.
  { intros t p m' Ht Hp [Hd' Hm']. split; [rewrite dom_insert_L; set_solver|by apply map_Forall_insert_2]. }
  unfold llmqs_for. destruct (n <? 5), (n <? 100), (n <? 600), low; repeat (apply Hi; [set_solver|unfold params_ok; cbn; split_and!; (lia || reflexivity)|]); done.
Qed.

Lemma MainLLMQs_ok : llmqs_ok MainLLMQs.
Proof.
  split; [reflexivity|]. unfold MainLLMQs. cbn [llmqs]. repeat (apply map_Forall_insert_2; [unfold params_ok; cbn; split_and!; (lia || reflexivity)|]). apply map_Forall_empty.
Qed.

Lemma UpdateLLMQParams_ok st n h low : llmqs_ok st -> llmqs_ok (UpdateLLMQParams st n h low).
Proof. intros [Hd Hm]. unfold UpdateLLMQParams. destruct (_ && _ && _); [|done]. by apply llmqs_for_ok. Qed.

(** Whatever lists the node looks at, in whatever order, there are three quorum types,
    each stored under its number, with a threshold of at most the minimal size and a
    mining window after the five phases and inside the interval; the interval and the
    window of a type do not change. *)
Theorem quorum_parameters_ok calls : llmqs_ok (update_all MainLLMQs calls).
Proof.
  unfold update_all. generalize MainLLMQs_ok. generalize MainLLMQs. induction calls as [|c calls IH]; intros st Hst; cbn [foldl]; [done|]. apply IH. by apply UpdateLLMQParams_ok.
Qed.

(** The size of the quorums depends on the history of the node.  The parameters are
    chosen by the number of smartnodes, but only when a list outside of a mining window
    is looked at, and they are not stored.  For 100 to 599 smartnodes, a node that has
    followed the chain from height 60 to 72 has quorums of 50 members, of which 40 have to
    be valid; one that was restarted at height 72 has quorums of 3, for the same chain. *)
Theorem restart_changes_quorums n : 100 <= n < 600 ->
  llmqs (update_all MainLLMQs [(n, 60, false); (n, 72, false)]) !! LLMQ_50_60 = Some llmq50_60 /\
  llmqs (update_all MainLLMQs [(n, 72, false)]) !! LLMQ_50_60 = Some llmq3_60.
Proof.
  intros Hn. assert (UpdateLLMQParams MainLLMQs n 60 false = mkLLMQState (llmqs_for n false (llmqs MainLLMQs)) n 60 false) as E60.
  { unfold UpdateLLMQParams. change (lastCheckMnCount MainLLMQs) with 0. rewrite (proj2 (Z.eqb_neq 0 n)) by lia. reflexivity. }
  assert (UpdateLLMQParams MainLLMQs n 72 false = MainLLMQs) as E72.
  { unfold UpdateLLMQParams. change (IsLLMQsMiningPhase MainLLMQs 72) with true. cbn [negb]. by rewrite andb_false_r. }
  unfold update_all. cbn [foldl fst snd]. rewrite E60, E72. split; [|reflexivity].
  unfold UpdateLLMQParams. cbn [lastCheckHeight lastCheckMnCount lastCheckedLowLLMQParams]. rewrite Z.eqb_refl. cbn [negb orb andb eqb]. rewrite andb_false_r. cbn [andb llmqs].
  unfold llmqs_for. rewrite (proj2 (Z.ltb_ge n 5)), (proj2 (Z.ltb_ge n 100)), (proj2 (Z.ltb_lt n 600)) by lia.
  rewrite !lookup_insert_ne by done. by rewrite lookup_insert_eq.
Qed.

(** ** Witnesses *)

Definition toy_agg (ks : list (list Z)) (h : uint256) (sig : list Z) : bool := true.
Definition toy_members : list CDeterministicMN := [toy_mn 7 0; toy_mn 8 1; toy_mn 9 2].
Definition toy_sig (n : nat) : list Z := 1 :: replicate n 0.
Definition toy_commitment (sg : list bool) : CFinalCommitment :=
  mkCommitment 1 LLMQ_50_60 (replicate 32 7) sg [true; true; true] (toy_sig 47) (replicate 32 9) (toy_sig 95) (toy_sig 95).

Lemma commitment_signed_witness : exists ks, signer_keys (toy_commitment [true; false; true]) 0 toy_members = Ok ks /\ 2 <= Z.of_nat (length ks).
Proof.
  destruct (commitment_signed toy_hash toy_bls toy_agg MainLLMQs (toy_commitment [true; false; true]) llmq3_60 toy_members) as (ks & H1 & H2 & _);
    [reflexivity|reflexivity|cbn; lia|reflexivity|]. exists ks. by split.
Defined.

Lemma forged_commitment_accepted_witness :
  Verify toy_hash toy_bls toy_agg MainLLMQs (mkCommitment 1 LLMQ_50_60 (replicate 32 7) [false; true; false; true; true] [true; true; true] (toy_sig 47) (replicate 32 9) (toy_sig 95) (toy_sig 95)) toy_members true = Ok true.
Proof.
  apply (forged_commitment_accepted toy_hash toy_bls toy_agg MainLLMQs LLMQ_50_60 llmq3_60 (replicate 32 7) toy_members 1 (toy_mn 8 1) (toy_sig 47) (replicate 32 9) (toy_sig 95) (toy_sig 95));
    try reflexivity; cbn; lia.
Defined.

Lemma quorum_connections_witness : exists fuel, GetQuorumConnections fuel toy_members (proTxHash (toy_mn 7 0)) = Ok {[proTxHash (toy_mn 8 1); proTxHash (toy_mn 9 2)]}.
Proof.
  destruct (quorum_connections toy_members 0 (toy_mn 7 0)) as [H _]; [apply (bool_decide_eq_true_1 _); by vm_compute|reflexivity|].
  destruct (H ltac:(cbn; lia)) as [fuel Hf]. exists fuel. rewrite (Hf fuel) by lia. reflexivity.
Defined.

Lemma restart_changes_quorums_witness :
  q_size <$> llmqs (update_all MainLLMQs [(120, 60, false); (120, 72, false)]) !! LLMQ_50_60 = Some 50 /\
  q_size <$> llmqs (update_all MainLLMQs [(120, 72, false)]) !! LLMQ_50_60 = Some 3.
Proof. destruct (restart_changes_quorums 120 ltac:(lia)) as [-> ->]. by split. Defined.
