(* ===== verification/ProTxCheck.v ===== *)
(** * Checks of provider transactions
    (src/src/evo/providertx.cpp, src/src/messagesigner.cpp, CalcTxInputsHash of
    src/src/evo/specialtx.cpp)

    A transaction that registers or changes a smartnode is checked against the list of
    smartnodes before its block: the keys it names must be free, and it must be signed by
    whoever is entitled to the change, that is the owner of the collateral, the owner or
    the operator of the smartnode. *)

From Stdlib Require Import ZArith Lia.
From stdpp Require Import base tactics numbers option list strings gmap.
From S2P Require Import Prelude ArithUint256 Compact Block Chain Pow Headers Serialize Transaction Rewards Script Coins BlockCheck Base58 Standard ProTx Smartnodes SmartnodeDiff NetAddress SmartnodePayee.

Open Scope Z_scope.

#[global] Instance CTxDestination_eq_dec : EqDecision CTxDestination.
Proof. solve_decision. Defined.

(** ** Text *)

Definition chars (s : string) : list Z := (fun a => Z.of_nat (Ascii.nat_of_ascii a)) <$> String.list_ascii_of_string s.

(** [strprintf("%d", n)] for an unsigned 16-bit integer: at most five digits. *)
Fixpoint dec_digits (fuel : nat) (n : Z) : list Z :=
  match fuel with
  | O => []
  | S fuel => (if n <? 10 then [] else dec_digits fuel (n / 10)) ++ [48 + n mod 10]
  end.
Definition dec (n : Z) : list Z := dec_digits 5 n.

Definition hex_digit (n : Z) : Z := if n <? 10 then 48 + n else 87 + n.
Definition HexStr (v : list Z) : list Z := v ≫= fun c => [hex_digit (Z.shiftr c 4); hex_digit (Z.land c 15)].
(** [uint256::ToString] *)
Definition uint256_ToString (h : uint256) : list Z := HexStr (reverse h).

(** ** Signatures over messages *)

(** What the checks use of the chain parameters and of the curve. *)
Record ProTxParams := mkProTxParams {
  px_network : string;                       (* NetworkIDString *)
  px_mainnetDefaultPort : Z;
  px_fAllowPrivateNet : bool;
  px_prefixes : Prefixes;
  px_DIP0003Enabled : bool;
  RecoverCompact : uint256 -> list Z -> option (list Z)
}.

Section Checks.
(** [Hash] is the double hash of serialized bytes, [Hash160] the hash of a key. *)
Context (Hash : list Z -> uint256) (Hash160 : list Z -> list Z) (B : BLS) (X : ProTxParams) (E : EvoEnv).

Definition VerifyHash (hash : uint256) (keyID vchSig : list Z) : bool :=
  match RecoverCompact X hash vchSig with
  | None => false
  | Some pubkeyFromSig => bool_decide (Hash160 pubkeyFromSig = keyID)
  end.

Definition strMessageMagic : list Z := chars "DarkCoin Signed Message:" ++ [10].
Definition message_hash (strMessage : list Z) : uint256 := Hash (ser_byte_vector strMessageMagic ++ ser_byte_vector strMessage).
Definition VerifyMessage (keyID vchSig strMessage : list Z) : bool := VerifyHash (message_hash strMessage) keyID vchSig.

(** [CBitcoinAddress(dest)] *)
Definition CBitcoinAddress (dest : CTxDestination) : CBase58Data := (Set_ (px_prefixes X) (mkBase58Data [] []) dest).2.

Definition MakeSignString (p : CProRegTx) : result (list Z) :=
  strPayout ← match ExtractDestination Hash160 (reg_scriptPayout p) with
              | Some destPayout =>
                  let '(ok, addrPayout) := Set_ (px_prefixes X) (mkBase58Data [] []) destPayout in
                  if (ok : bool) then ToString Hash addrPayout else Ok (HexStr (reg_scriptPayout p))
              | None => Ok (HexStr (reg_scriptPayout p))
              end;
  owner ← ToString Hash (CBitcoinAddress (CKeyID (reg_keyIDOwner p)));
  voting ← ToString Hash (CBitcoinAddress (CKeyID (reg_keyIDVoting p)));
  let bar := chars "|" in
  Ok (strPayout ++ bar ++ dec (reg_nOperatorReward p) ++ bar ++ owner ++ bar ++ voting ++ bar ++ uint256_ToString (Hash (ser_ProReg true p))).

(** ** Parts of the checks *)

Definition CheckService (addr : list Z) : option reject :=
  let ip := service_ip addr in
  if negb (NetAddress.IsValid ip) then Some (DoS 10 "bad-protx-ipaddr")
  else if negb (bool_decide (px_network X = "regtest"%string)) && negb (IsRoutable (px_fAllowPrivateNet X) ip) then Some (DoS 10 "bad-protx-ipaddr")
  else if (if bool_decide (px_network X = "main"%string) then negb (GetPort addr =? px_mainnetDefaultPort X) else GetPort addr =? px_mainnetDefaultPort X)
  then Some (DoS 10 "bad-protx-ipaddr-port")
  else if negb (IsIPv4 ip) then Some (DoS 10 "bad-protx-ipaddr")
  else None.

Definition CalcTxInputsHash (tx : CTransaction) : uint256 := Hash (mjoin ((fun i => ser (prevout i)) <$> vin tx)).
Definition CheckInputsHash (tx : CTransaction) (inputsHash : uint256) : option reject :=
  if negb (bool_decide (CalcTxInputsHash tx = inputsHash)) then Some (DoS 100 "bad-protx-inputs-hash") else None.
Definition CheckHashSig (hash : uint256) (keyID vchSig : list Z) : option reject :=
  if negb (VerifyHash hash keyID vchSig) then Some (DoS 100 "bad-protx-sig") else None.
Definition CheckHashSig_bls (hash : uint256) (pubKey sig : list Z) : option reject :=
  if negb (bls_verify B pubKey hash sig) then Some (DoS 100 "bad-protx-sig") else None.
Definition CheckStringSig (p : CProRegTx) (keyID : list Z) : result (option reject) :=
  msg ← MakeSignString p;
  Ok (if negb (VerifyMessage keyID (reg_vchSig p) msg) then Some (DoS 100 "bad-protx-sig") else None).

Definition bad_payee (script : CScript) : bool := negb (IsPayToPublicKeyHash script) && negb (IsPayToScriptHash script).
Definition reuses (dest : CTxDestination) (a b : list Z) : bool := bool_decide (dest = CKeyID a) || bool_decide (dest = CKeyID b).
Definition key_null (k : list Z) : bool := bool_decide (k = CKeyID_null).

(** What becomes of the collateral: the destination, the key that has to sign the
    payload ([CKeyID_null] for none), and the outpoint. *)
Definition check_collateral (tx : CTransaction) (p : CProRegTx) : reject + (CTxDestination * list Z * COutPoint) :=
  if negb (IsNull (op_hash (reg_collateralOutpoint p))) then
    match GetUTXOCoin E (reg_collateralOutpoint p) with
    | None => inl (DoS 10 "bad-protx-collateral")
    | Some coin =>
        if negb (isValidCollateral (evo_collaterals E) (nValue (out coin))) then inl (DoS 10 "bad-protx-collateral")
        else match ExtractDestination Hash160 (scriptPubKey (out coin)) with
             | None => inl (DoS 10 "bad-protx-collateral-dest")
             | Some dest =>
                 match GetKeyID (px_prefixes X) (CBitcoinAddress dest) with
                 | None => inl (DoS 10 "bad-protx-collateral-pkh")
                 | Some key => inr (dest, key, reg_collateralOutpoint p)
                 end
             end
    end
  else
    match vout tx !! Z.to_nat (op_n (reg_collateralOutpoint p)) with
    | None => inl (DoS 10 "bad-protx-collateral-index")
    | Some o =>
        if negb (isValidCollateral (evo_collaterals E) (nValue o)) then inl (DoS 10 "bad-protx-collateral")
        else match ExtractDestination Hash160 (scriptPubKey o) with
             | None => inl (DoS 10 "bad-protx-collateral-dest")
             | Some dest => inr (dest, CKeyID_null, mkOutPoint (GetTxHash Hash tx) (op_n (reg_collateralOutpoint p)))
             end
    end.

(** The checks of a registration against the list, if there is one. *)
Definition check_free (mnList : CDeterministicMNList) (p : CProRegTx) (collateral : COutPoint) : result (option reject) :=
  dup ← (if HasUniqueProperty Hash mnList (reg_addr p)
         then d ← deref (GetUniquePropertyMN Hash mnList (reg_addr p)); Ok (negb (bool_decide (collateralOutpoint d = collateral)))
         else Ok false);
  if (dup : bool) then Ok (Some (DoS 10 "bad-protx-dup-addr"))
  else if HasUniqueProperty Hash mnList (reg_keyIDOwner p) || HasUniqueProperty Hash mnList (reg_pubKeyOperator p) then Ok (Some (DoS 10 "bad-protx-dup-key"))
  else if negb (px_DIP0003Enabled X) && negb (bool_decide (reg_keyIDOwner p = reg_keyIDVoting p)) then Ok (Some (DoS 10 "bad-protx-key-not-same"))
  else Ok None.

(** ** The four checks *)

(** Each check begins with what does not need the list; it is read only after that.
    [mnList] is the list for [pindexPrev], [None] without a block. *)

Definition ProReg_pre (tx : CTransaction) : reject + (CProRegTx * list Z * COutPoint) :=
  if negb (tx_nType tx =? TRANSACTION_PROVIDER_REGISTER) then inl (DoS 100 "bad-protx-type")
  else match GetTxPayload (unser_ProReg B) (vExtraPayload tx) with
  | None => inl (DoS 100 "bad-protx-payload")
  | Some p =>
    if (reg_nVersion p =? 0) || (1 <? reg_nVersion p) then inl (DoS 100 "bad-protx-version")
    else if negb (reg_nType p =? 0) then inl (DoS 100 "bad-protx-type")
    else if negb (reg_nMode p =? 0) then inl (DoS 100 "bad-protx-mode")
    else if key_null (reg_keyIDOwner p) || negb (bls_key B (reg_pubKeyOperator p)) || key_null (reg_keyIDVoting p) then inl (DoS 10 "bad-protx-key-null")
    else if bad_payee (reg_scriptPayout p) then inl (DoS 10 "bad-protx-payee")
    else match ExtractDestination Hash160 (reg_scriptPayout p) with
    | None => inl (DoS 10 "bad-protx-payee-dest")
    | Some payoutDest =>
      if reuses payoutDest (reg_keyIDOwner p) (reg_keyIDVoting p) then inl (DoS 10 "bad-protx-payee-reuse")
      else match (if bool_decide (reg_addr p = CService_null) then None else CheckService (reg_addr p)) with
      | Some e => inl e
      | None =>
        if 10000 <? reg_nOperatorReward p then inl (DoS 10 "bad-protx-operator-reward")
        else match check_collateral tx p with
        | inl e => inl e
        | inr (collateralTxDest, keyForPayloadSig, collateral) =>
          if reuses collateralTxDest (reg_keyIDOwner p) (reg_keyIDVoting p) then inl (DoS 10 "bad-protx-collateral-reuse")
          else inr (p, keyForPayloadSig, collateral)
        end
      end
    end
  end.

Definition CheckProRegTx (tx : CTransaction) (mnList : option CDeterministicMNList) : result (option reject) :=
  match ProReg_pre tx with
  | inl e => Ok (Some e)
  | inr (p, keyForPayloadSig, collateral) =>
      r ← match mnList with Some l => check_free l p collateral | None => Ok None end;
      match r with
      | Some e => Ok (Some e)
      | None =>
        match CheckInputsHash tx (reg_inputsHash p) with
        | Some e => Ok (Some e)
        | None =>
            if negb (key_null keyForPayloadSig) then CheckStringSig p keyForPayloadSig
            else if negb (bool_decide (reg_vchSig p = [])) then Ok (Some (DoS 100 "bad-protx-sig"))
            else Ok None
        end
      end
  end.

Definition ProUpServ_pre (tx : CTransaction) : reject + CProUpServTx :=
  if negb (tx_nType tx =? TRANSACTION_PROVIDER_UPDATE_SERVICE) then inl (DoS 100 "bad-protx-type")
  else match GetTxPayload (unser_ProUpServ B) (vExtraPayload tx) with
  | None => inl (DoS 100 "bad-protx-payload")
  | Some p =>
    if (serv_nVersion p =? 0) || (1 <? serv_nVersion p) then inl (DoS 100 "bad-protx-version")
    else match CheckService (serv_addr p) with
    | Some e => inl e
    | None => inr p
    end
  end.

Definition CheckProUpServTx (tx : CTransaction) (mnList : option CDeterministicMNList) : result (option reject) :=
  match ProUpServ_pre tx, mnList with
  | inl e, _ => Ok (Some e)
  | inr p, None => Ok None
  | inr p, Some l =>
      match GetMN l (serv_proTxHash p) with
      | None => Ok (Some (DoS 100 "bad-protx-hash"))
      | Some mn =>
        dup ← (if HasUniqueProperty Hash l (serv_addr p)
               then d ← deref (GetUniquePropertyMN Hash l (serv_addr p)); Ok (negb (bool_decide (proTxHash d = serv_proTxHash p)))
               else Ok false);
        if (dup : bool) then Ok (Some (DoS 10 "bad-protx-dup-addr"))
        else if negb (bool_decide (serv_scriptOperatorPayout p = [])) && (Smartnodes.nOperatorReward mn =? 0) then Ok (Some (DoS 10 "bad-protx-operator-payee"))
        else if negb (bool_decide (serv_scriptOperatorPayout p = [])) && bad_payee (serv_scriptOperatorPayout p) then Ok (Some (DoS 10 "bad-protx-operator-payee"))
        else match CheckInputsHash tx (serv_inputsHash p) with
        | Some e => Ok (Some e)
        | None => Ok (CheckHashSig_bls (Hash (ser_ProUpServ true p)) (pubKeyOperator (pdmnState mn)) (serv_sig p))
        end
      end
  end.

Definition ProUpReg_pre (tx : CTransaction) : reject + (CProUpRegTx * CTxDestination) :=
  if negb (tx_nType tx =? TRANSACTION_PROVIDER_UPDATE_REGISTRAR) then inl (DoS 100 "bad-protx-type")
  else match GetTxPayload (unser_ProUpReg B) (vExtraPayload tx) with
  | None => inl (DoS 100 "bad-protx-payload")
  | Some p =>
    if (upreg_nVersion p =? 0) || (1 <? upreg_nVersion p) then inl (DoS 100 "bad-protx-version")
    else if negb (upreg_nMode p =? 0) then inl (DoS 100 "bad-protx-mode")
    else if negb (bls_key B (upreg_pubKeyOperator p)) || key_null (upreg_keyIDVoting p) then inl (DoS 10 "bad-protx-key-null")
    else if bad_payee (upreg_scriptPayout p) then inl (DoS 10 "bad-protx-payee")
    else match ExtractDestination Hash160 (upreg_scriptPayout p) with
    | None => inl (DoS 10 "bad-protx-payee-dest")
    | Some payoutDest => inr (p, payoutDest)
    end
  end.

Definition CheckProUpRegTx (tx : CTransaction) (mnList : option CDeterministicMNList) : result (option reject) :=
  match ProUpReg_pre tx, mnList with
  | inl e, _ => Ok (Some e)
  | inr _, None => Ok None
  | inr (p, payoutDest), Some l =>
      match GetMN l (upreg_proTxHash p) with
      | None => Ok (Some (DoS 100 "bad-protx-hash"))
      | Some dmn =>
        let owner := keyIDOwner (pdmnState dmn) in
        if reuses payoutDest owner (upreg_keyIDVoting p) then Ok (Some (DoS 10 "bad-protx-payee-reuse"))
        else match GetUTXOCoin E (collateralOutpoint dmn) with
        | None => Ok (Some (DoS 100 "bad-protx-collateral"))
        | Some coin =>
          match ExtractDestination Hash160 (scriptPubKey (out coin)) with
          | None => Ok (Some (DoS 100 "bad-protx-collateral-dest"))
          | Some collateralTxDest =>
            if reuses collateralTxDest owner (upreg_keyIDVoting p) then Ok (Some (DoS 10 "bad-protx-collateral-reuse"))
            else
              dup ← (if HasUniqueProperty Hash l (upreg_pubKeyOperator p)
                     then d ← deref (GetUniquePropertyMN Hash l (upreg_pubKeyOperator p)); Ok (negb (bool_decide (upreg_proTxHash p = proTxHash d)))
                     else Ok false);
              if (dup : bool) then Ok (Some (DoS 10 "bad-protx-dup-key"))
              else if negb (px_DIP0003Enabled X) && negb (bool_decide (owner = upreg_keyIDVoting p)) then Ok (Some (DoS 10 "bad-protx-key-not-same"))
              else match CheckInputsHash tx (upreg_inputsHash p) with
              | Some e => Ok (Some e)
              | None => Ok (CheckHashSig (Hash (ser_ProUpReg true p)) owner (upreg_vchSig p))
              end
          end
        end
      end
  end.

Definition ProUpRev_pre (tx : CTransaction) : reject + CProUpRevTx :=
  if negb (tx_nType tx =? TRANSACTION_PROVIDER_UPDATE_REVOKE) then inl (DoS 100 "bad-protx-type")
  else match GetTxPayload (unser_ProUpRev B) (vExtraPayload tx) with
  | None => inl (DoS 100 "bad-protx-payload")
  | Some p =>
    if (rev_nVersion p =? 0) || (1 <? rev_nVersion p) then inl (DoS 100 "bad-protx-version")
    else if REASON_LAST <? rev_nReason p then inl (DoS 100 "bad-protx-reason")
    else inr p
  end.

Definition CheckProUpRevTx (tx : CTransaction) (mnList : option CDeterministicMNList) : result (option reject) :=
  match ProUpRev_pre tx, mnList with
  | inl e, _ => Ok (Some e)
  | inr _, None => Ok None
  | inr p, Some l =>
      match GetMN l (rev_proTxHash p) with
      | None => Ok (Some (DoS 100 "bad-protx-hash"))
      | Some dmn =>
        match CheckInputsHash tx (rev_inputsHash p) with
        | Some e => Ok (Some e)
        | None => Ok (CheckHashSig_bls (Hash (ser_ProUpRev true p)) (pubKeyOperator (pdmnState dmn)) (rev_sig p))
        end
      end
  end.

(** ** Dispatch *)

(** [CheckSpecialTx]; the checks of coinbases and of commitments are in
    SmartnodeManager. *)
Definition CheckSpecialTx (CheckCbTx CheckLLMQCommitment : CTransaction -> result (option reject)) (tx : CTransaction) (mnList : option CDeterministicMNList) : result (option reject) :=
  if negb (tx_nVersion tx =? 3) || (tx_nType tx =? TRANSACTION_NORMAL) then Ok None
  else if negb (px_DIP0003Enabled X) then Ok (Some (DoS 10 "bad-tx-type"))
  else if tx_nType tx =? TRANSACTION_PROVIDER_REGISTER then CheckProRegTx tx mnList
  else if tx_nType tx =? TRANSACTION_PROVIDER_UPDATE_SERVICE then CheckProUpServTx tx mnList
  else if tx_nType tx =? TRANSACTION_PROVIDER_UPDATE_REGISTRAR then CheckProUpRegTx tx mnList
  else if tx_nType tx =? TRANSACTION_PROVIDER_UPDATE_REVOKE then CheckProUpRevTx tx mnList
  else if tx_nType tx =? TRANSACTION_COINBASE then CheckCbTx tx
  else if tx_nType tx =? TRANSACTION_QUORUM_COMMITMENT then CheckLLMQCommitment tx
  else Ok (Some (DoS 10 "bad-tx-type-check")).

(** ** What an accepted transaction has *)

(** The value is not used by a smartnode other than [h]. *)
Definition only_by (l : CDeterministicMNList) (v : list Z) (h : uint256) : Prop :=
  HasUniqueProperty Hash l v = true -> exists d, GetUniquePropertyMN Hash l v = Some d /\ proTxHash d = h.

Ltac pass H := match type of H with
  | (if ?c then _ else _) = _ => let E := fresh "Hif" in destruct c eqn:E; [congruence|]
  | (match ?c with Some _ => _ | None => _ end) = _ => let E := fresh "Hm" in destruct c eqn:E; try congruence
  end.

Lemma CheckInputsHash_none tx h : CheckInputsHash tx h = None -> CalcTxInputsHash tx = h.
Proof. unfold CheckInputsHash. destruct (bool_decide _) eqn:Eb; [|done]. intros _. by apply bool_decide_eq_true in Eb. Qed.

Lemma dup_none l v h : (dup ← (if HasUniqueProperty Hash l v then d ← deref (GetUniquePropertyMN Hash l v); Ok (negb (bool_decide (proTxHash d = h))) else Ok false); Ok dup) = Ok false -> only_by l v h.
Proof.
  intros H Hh. rewrite Hh in H. apply result_bind_Ok in H as (b & H & [= ->]). apply result_bind_Ok in H as (d & Hd & [= Eb]). unfold deref in Hd.
  destruct (GetUniquePropertyMN Hash l v) as [d'|]; [|done]. injection Hd as ->. exists d. split; [done|]. by apply negb_false_iff, bool_decide_eq_true in Eb.
Qed.

(** A registration uses keys that are free and an address that is free or of the
    smartnode with the same collateral. *)
Lemma check_free_none l p col : check_free l p col = Ok None ->
  HasUniqueProperty Hash l (reg_keyIDOwner p) = false /\ HasUniqueProperty Hash l (reg_pubKeyOperator p) = false /\
  (HasUniqueProperty Hash l (reg_addr p) = true -> exists d, GetUniquePropertyMN Hash l (reg_addr p) = Some d /\ collateralOutpoint d = col).
Proof.
  unfold check_free. intros H. apply result_bind_Ok in H as (dup & Hdup & H). destruct dup; [done|].
  destruct (HasUniqueProperty Hash l (reg_keyIDOwner p)); [done|]. destruct (HasUniqueProperty Hash l (reg_pubKeyOperator p)); [done|]. split_and!; [done..|]. intros Hh. rewrite Hh in Hdup.
  apply result_bind_Ok in Hdup as (d & Hd & [= Eq]). unfold deref in Hd. destruct (GetUniquePropertyMN Hash l _) as [d'|]; [|done]. injection Hd as ->. exists d. split; [done|].
  by apply negb_false_iff, bool_decide_eq_true in Eq.
Qed.

Lemma CheckProRegTx_none tx l : CheckProRegTx tx (Some l) = Ok None ->
  exists p dest key col, GetTxPayload (unser_ProReg B) (vExtraPayload tx) = Some p /\ check_collateral tx p = inr (dest, key, col) /\ check_free l p col = Ok None /\
    CalcTxInputsHash tx = reg_inputsHash p /\ (key <> CKeyID_null -> CheckStringSig p key = Ok None).
Proof.
  unfold CheckProRegTx, ProReg_pre. intros H. destruct (negb (tx_nType tx =? _)); [done|]. destruct (GetTxPayload _ _) as [p|]; [|done]. destruct ((reg_nVersion p =? _) || _); [done|].
  destruct (negb (reg_nType p =? _)); [done|]. destruct (negb (reg_nMode p =? _)); [done|]. destruct (key_null _ || _ || _); [done|]. destruct (bad_payee _); [done|].
  destruct (ExtractDestination Hash160 (reg_scriptPayout p)); [|done]. destruct (reuses _ _ _); [done|].
  destruct (if bool_decide (reg_addr p = CService_null) then _ else _); [done|]. destruct (_ <? _); [done|]. destruct (check_collateral tx p) as [e|[[dest key] col]] eqn:Hc; [done|]. destruct (reuses _ _ _); [done|].
  apply result_bind_Ok in H as ([e|] & Hf & H); [done|]. destruct (CheckInputsHash tx (reg_inputsHash p)) eqn:Hi; [done|]. apply CheckInputsHash_none in Hi.
  exists p, dest, key, col. split_and!; try done. intros Hk. unfold key_null in H. by rewrite bool_decide_false in H.
Qed.

Lemma check_collateral_inv tx p dest key col : check_collateral tx p = inr (dest, key, col) ->
  col = (if IsNull (op_hash (reg_collateralOutpoint p)) then mkOutPoint (GetTxHash Hash tx) (op_n (reg_collateralOutpoint p)) else reg_collateralOutpoint p).
Proof.
  unfold check_collateral. destruct (IsNull _); cbn [negb].
  - destruct (vout tx !! _) as [o|]; [|done]. destruct (negb _); [done|]. destruct (ExtractDestination _ _); [|done]. by intros [= _ _ <-].
  - destruct (GetUTXOCoin E _) as [c|]; [|done]. destruct (negb _); [done|]. destruct (ExtractDestination _ _); [|done]. destruct (GetKeyID _ _); [|done]. by intros [= _ _ <-].
Qed.

Lemma CheckProUpServTx_none tx l : CheckProUpServTx tx (Some l) = Ok None ->
  exists p d, GetTxPayload (unser_ProUpServ B) (vExtraPayload tx) = Some p /\ GetMN l (serv_proTxHash p) = Some d /\ only_by l (serv_addr p) (serv_proTxHash p) /\
    CalcTxInputsHash tx = serv_inputsHash p /\ bls_verify B (pubKeyOperator (pdmnState d)) (Hash (ser_ProUpServ true p)) (serv_sig p) = true.
Proof.
  unfold CheckProUpServTx, ProUpServ_pre. intros H. destruct (negb _); [done|]. destruct (GetTxPayload _ _) as [p|]; [|done]. destruct (_ || _); [done|]. destruct (CheckService (serv_addr p)); [done|].
  destruct (GetMN l (serv_proTxHash p)) as [d|] eqn:Hd; [|done]. apply result_bind_Ok in H as (dup & Hdup & H). destruct dup; [done|]. do 2 pass H.
  destruct (CheckInputsHash tx (serv_inputsHash p)) eqn:Hi; [done|]. apply CheckInputsHash_none in Hi. unfold CheckHashSig_bls in H.
  destruct (bls_verify B _ _ _) eqn:Hb; [|done]. exists p, d. split_and!; try done. apply dup_none. by rewrite Hdup.
Qed.

Lemma CheckProUpRegTx_none tx l : CheckProUpRegTx tx (Some l) = Ok None ->
  exists p d, GetTxPayload (unser_ProUpReg B) (vExtraPayload tx) = Some p /\ GetMN l (upreg_proTxHash p) = Some d /\ bls_key B (upreg_pubKeyOperator p) = true /\
    only_by l (upreg_pubKeyOperator p) (upreg_proTxHash p) /\
    CalcTxInputsHash tx = upreg_inputsHash p /\ VerifyHash (Hash (ser_ProUpReg true p)) (keyIDOwner (pdmnState d)) (upreg_vchSig p) = true.
Proof.
  unfold CheckProUpRegTx, ProUpReg_pre. intros H. destruct (negb (_ =? _)); [done|]. destruct (GetTxPayload _ _) as [p|]; [|done]. destruct ((_ =? _) || _); [done|]. destruct (negb (_ =? _)); [done|].
  destruct (negb (bls_key B _) || _) eqn:Hn; [done|]. destruct (bad_payee _); [done|]. destruct (ExtractDestination Hash160 (upreg_scriptPayout p)); [|done].
  destruct (GetMN l (upreg_proTxHash p)) as [d|] eqn:Hd; [|done]. pass H. destruct (GetUTXOCoin E (collateralOutpoint d)) as [coin|]; [|done].
  destruct (ExtractDestination Hash160 (scriptPubKey (out coin))); [|done]. pass H. apply result_bind_Ok in H as (dup & Hdup & H). destruct dup; [done|]. pass H.
  destruct (CheckInputsHash tx (upreg_inputsHash p)) eqn:Hi; [done|]. apply CheckInputsHash_none in Hi. unfold CheckHashSig in H.
  destruct (VerifyHash _ _ _) eqn:Hb; [|done]. apply orb_false_iff in Hn as [Hk%negb_false_iff _]. exists p, d. split_and!; try done.
  intros Hh. rewrite Hh in Hdup. apply result_bind_Ok in Hdup as (d' & Hd' & [= Eq]). unfold deref in Hd'. destruct (GetUniquePropertyMN Hash l _) as [d2|]; [|done].
  injection Hd' as ->. exists d'. split; [done|]. apply negb_false_iff, bool_decide_eq_true in Eq. done.
Qed.

Lemma CheckProUpRevTx_none tx l : CheckProUpRevTx tx (Some l) = Ok None ->
  exists p d, GetTxPayload (unser_ProUpRev B) (vExtraPayload tx) = Some p /\ GetMN l (rev_proTxHash p) = Some d /\
    CalcTxInputsHash tx = rev_inputsHash p /\ bls_verify B (pubKeyOperator (pdmnState d)) (Hash (ser_ProUpRev true p)) (rev_sig p) = true.
Proof.
  unfold CheckProUpRevTx, ProUpRev_pre. intros H. destruct (negb _); [done|]. destruct (GetTxPayload _ _) as [p|]; [|done]. destruct (_ || _); [done|]. destruct (_ <? _); [done|].
  destruct (GetMN l (rev_proTxHash p)) as [d|] eqn:Hd; [|done]. destruct (CheckInputsHash tx (rev_inputsHash p)) eqn:Hi; [done|]. apply CheckInputsHash_none in Hi.
  unfold CheckHashSig_bls in H. destruct (bls_verify B _ _ _) eqn:Hb; [|done]. by exists p, d.
Qed.
End Checks.
