(* ===== verification/SmartnodeManager.v ===== *)
(** * The lists of smartnodes along the chain
    (CDeterministicMNManager of src/src/evo/deterministicmns.cpp, GetAllQuorumMembers of
    src/src/llmq/quorums_utils.cpp, CheckLLMQCommitment of
    src/src/llmq/quorums_commitment.cpp, CheckCbTx of src/src/evo/cbtx.cpp, CheckSpecialTx
    of src/src/evo/specialtx.cpp)

    Every block has a list of smartnodes, built from the list of the block before by the
    special transactions of the block.  The database stores the difference for each
    block and every 576 blocks the whole list; a cache keeps recent lists.  The theorems
    are in SmartnodeBlock and SmartnodeStore. *)

From Stdlib Require Import ZArith Lia.
From stdpp Require Import base tactics numbers option list strings gmap.
From S2P Require Import Prelude ArithUint256 Compact Block Chain Pow Headers Serialize Transaction Rewards Coins BlockCheck ProTx Smartnodes SmartnodeDiff SmartnodePayee Quorum.

Open Scope Z_scope.

(** A loop whose body can fail. *)
Fixpoint foldM {A S} (f : S -> A -> result S) (s : S) (l : list A) : result S :=
  match l with
  | [] => Ok s
  | x :: l => s ← f s x; foldM f s l
  end.

(** ** State *)

Record Manager := mkManager {
  mnListsCache : gmap (list Z) CDeterministicMNList;
  db_list_diff : gmap (list Z) CDeterministicMNListDiff;       (* evoDb, DB_LIST_DIFF *)
  db_list_snapshot : gmap (list Z) CDeterministicMNList;       (* evoDb, DB_LIST_SNAPSHOT *)
  mgr_llmq : LLMQState                                         (* consensus.llmqs *)
}.

Definition set_cache (g : Manager) (c : gmap (list Z) CDeterministicMNList) : Manager := mkManager c (db_list_diff g) (db_list_snapshot g) (mgr_llmq g).
Definition set_llmq (g : Manager) (s : LLMQState) : Manager := mkManager (mnListsCache g) (db_list_diff g) (db_list_snapshot g) s.
Definition cache_emplace (g : Manager) (h : uint256) (l : CDeterministicMNList) : Manager :=
  match mnListsCache g !! h with Some _ => g | None => set_cache g (<[h := l]> (mnListsCache g)) end.

Definition SNAPSHOT_LIST_PERIOD : Z := 576.
Definition LISTS_CACHE_SIZE : Z := 576.

(** What the manager reads of the rest of the node. *)
Record ManagerEnv := mkManagerEnv {
  me_evo : EvoEnv;
  me_index : BlockMap;                    (* mapBlockIndex *)
  me_spork21 : bool;                      (* SPORK_21_LOW_LLMQ_PARAMS *)
  me_nSmartnodeMinimumConfirmations : Z;
  me_DIP0003Enabled : bool;
  me_DIP0008Enabled : bool
}.

Section Manager.
Context (Hash SHA256 : list Z -> uint256) (B : BLS) (verify_aggregated : list (list Z) -> uint256 -> list Z -> bool).
Context (order : gmap (list Z) CDeterministicMN -> list (list Z * CDeterministicMN)).
Context (V : ManagerEnv).

(** ** The list of a block *)

(** Back to a block whose list is known, collecting the differences on the way. *)
Fixpoint find_list (fuel : nat) (g : Manager) (pindex : option ptr) (listDiff : list (ptr * CDeterministicMNListDiff)) :
  result (CDeterministicMNList * list (ptr * CDeterministicMNListDiff) * Manager) :=
  h ← deref pindex;
  match mnListsCache g !! h with
  | Some snapshot => Ok (snapshot, listDiff, g)
  | None =>
      match db_list_snapshot g !! h with
      | Some snapshot => Ok (snapshot, listDiff, cache_emplace g h snapshot)
      | None =>
          match db_list_diff g !! h with
          | None => let snapshot := list_new h (-1) 0 in Ok (snapshot, listDiff, cache_emplace g h snapshot)
          | Some diff =>
              match fuel with
              | O => Err OutOfFuel
              | S fuel => idx ← deref (me_index V !! h); find_list fuel g (pprev idx) ((h, diff) :: listDiff)
              end
          end
      end
  end.

(** The list of a block from the list of the block before and the stored difference. *)
Definition next_list (l : CDeterministicMNList) (h : ptr) (height : Z) (diff : CDeterministicMNListDiff) : result CDeterministicMNList :=
  if HasChanges diff then ApplyDiff Hash B l h height diff else Ok (SetHeight (SetBlockHash l h) height).

Definition apply_diff (r : CDeterministicMNList * Manager) (p : ptr * CDeterministicMNListDiff) : result (CDeterministicMNList * Manager) :=
  let '(snapshot, g) := r in
  let '(h, diff) := p in
  idx ← deref (me_index V !! h);
  snapshot ← next_list snapshot h (nHeight idx) diff;
  Ok (snapshot, cache_emplace g h snapshot).

Definition GetListForBlock (g : Manager) (pindex : ptr) : result (CDeterministicMNList * Manager) :=
  idx ← deref (me_index V !! pindex);
  '(snapshot, listDiff, g) ← find_list (S (Z.to_nat (nHeight idx))) g (Some pindex) [];
  '(snapshot, g) ← foldM apply_diff (snapshot, g) listDiff;
  Ok (snapshot, set_llmq g (UpdateLLMQParams (mgr_llmq g) (GetAllMNsCount snapshot) (l_nHeight snapshot) (me_spork21 V))).

(** [CLLMQUtils::GetAllQuorumMembers]: [params] is a reference into the map, which
    [GetListForBlock] may change. *)
Definition GetAllQuorumMembers (g : Manager) (llmqType : Z) (pindexQuorum : ptr) : result (list CDeterministicMN * Manager) :=
  _ ← llmqs_at (mgr_llmq g) llmqType;
  '(allMns, g) ← GetListForBlock g pindexQuorum;
  params ← llmqs_at (mgr_llmq g) llmqType;
  let modifier := Hash (ser_writedata8 llmqType ++ pindexQuorum) in
  Ok (CalculateQuorum SHA256 (me_evo V) order allMns (Z.to_nat (q_size params)) modifier, g).

(** ** The list of a new block *)

Definition confirm_step (prevHeight : Z) (prevHash : uint256) (newList : CDeterministicMNList) (dmn : CDeterministicMN) : result CDeterministicMNList :=
  let s := pdmnState dmn in
  if negb (bool_decide (confirmedHash s = uint256_null)) then Ok newList
  else if me_nSmartnodeMinimumConfirmations V <=? prevHeight - nRegisteredHeight s
  then UpdateMN_hash Hash newList (proTxHash dmn) (UpdateConfirmedHash SHA256 s (proTxHash dmn) prevHash)
  else Ok newList.

Definition DecreasePoSePenalties (mnList : CDeterministicMNList) : result CDeterministicMNList :=
  let toDecrease := proTxHash <$> filter (fun d => 0 < nPoSePenalty (pdmnState d) /\ nPoSeBanHeight (pdmnState d) = -1) (ValidMNs (me_evo V) order mnList) in
  foldM (PoSeDecrease Hash) mnList toDecrease.

Definition is_external (p : CProRegTx) : bool := negb (IsNull (op_hash (reg_collateralOutpoint p))).
Definition collateral_of (tx : CTransaction) (p : CProRegTx) : COutPoint :=
  if is_external p then reg_collateralOutpoint p else mkOutPoint (GetTxHash Hash tx) (op_n (reg_collateralOutpoint p)).

(** Without an address the smartnode starts banned. *)
Definition register_state (nHeight : Z) (p : CProRegTx) : CDeterministicMNState :=
  let s := state_of_ProReg p in
  set_heights s nHeight (nLastPaidHeight s) (nPoSePenalty s) (nPoSeRevivedHeight s) (if bool_decide (reg_addr p = CService_null) then nHeight else nPoSeBanHeight s).

Definition register_step (nHeight : Z) (newList : CDeterministicMNList) (tx : CTransaction) : result (reject + CDeterministicMNList) :=
  match GetTxPayload (unser_ProReg B) (vExtraPayload tx) with
  | None => Err AssertFail
  | Some p =>
      let id := nTotalRegisteredCount newList in
      let newList := SetTotalRegisteredCount newList (u32 (id + 1)) in
      let collateral := collateral_of tx p in
      if is_external p && match GetUTXOCoin (me_evo V) collateral with None => true | Some coin => negb (isValidCollateral (evo_collaterals (me_evo V)) (nValue (out coin))) end
      then Ok (inl (DoS 100 "bad-protx-collateral"))
      else
        newList ← match GetMNByCollateral Hash newList collateral with Some replacedDmn => RemoveMN Hash B newList (proTxHash replacedDmn) | None => Ok newList end;
        if HasUniqueProperty Hash newList (reg_addr p) then Ok (inl (DoS 100 "bad-protx-dup-addr"))
        else if HasUniqueProperty Hash newList (reg_keyIDOwner p) || HasUniqueProperty Hash newList (reg_pubKeyOperator p) then Ok (inl (DoS 100 "bad-protx-dup-key"))
        else
          l ← AddMN Hash B newList (mkMN (GetTxHash Hash tx) id collateral (reg_nOperatorReward p) (register_state nHeight p));
          Ok (inr l)
  end.

(** Only revived when all keys are set. *)
Definition serv_state (nHeight : Z) (p : CProUpServTx) (s : CDeterministicMNState) : CDeterministicMNState :=
  let s := set_service s (serv_addr p) (serv_scriptOperatorPayout p) in
  if negb (nPoSeBanHeight s =? -1) && (bls_key B (pubKeyOperator s) && negb (bool_decide (keyIDVoting s = CKeyID_null)) && negb (bool_decide (keyIDOwner s = CKeyID_null)))
  then set_heights s (nRegisteredHeight s) (nLastPaidHeight s) 0 nHeight (-1)
  else s.

Definition update_service_step (nHeight : Z) (newList : CDeterministicMNList) (tx : CTransaction) : result (reject + CDeterministicMNList) :=
  match GetTxPayload (unser_ProUpServ B) (vExtraPayload tx) with
  | None => Err AssertFail
  | Some p =>
      dup ← (if HasUniqueProperty Hash newList (serv_addr p)
             then d ← deref (GetUniquePropertyMN Hash newList (serv_addr p)); Ok (negb (bool_decide (proTxHash d = serv_proTxHash p)))
             else Ok false);
      if (dup : bool) then Ok (inl (DoS 100 "bad-protx-dup-addr"))
      else match GetMN newList (serv_proTxHash p) with
           | None => Ok (inl (DoS 100 "bad-protx-hash"))
           | Some dmn => l ← UpdateMN_hash Hash newList (serv_proTxHash p) (serv_state nHeight p (pdmnState dmn)); Ok (inr l)
           end
  end.

Definition registrar_state (nHeight : Z) (p : CProUpRegTx) (s : CDeterministicMNState) : CDeterministicMNState :=
  let s := if negb (bool_decide (pubKeyOperator s = upreg_pubKeyOperator p)) then BanIfNotBanned (ResetOperatorFields s) nHeight else s in
  set_registrar s (upreg_pubKeyOperator p) (upreg_keyIDVoting p) (upreg_scriptPayout p).

Definition update_registrar_step (nHeight : Z) (newList : CDeterministicMNList) (tx : CTransaction) : result (reject + CDeterministicMNList) :=
  match GetTxPayload (unser_ProUpReg B) (vExtraPayload tx) with
  | None => Err AssertFail
  | Some p =>
      match GetMN newList (upreg_proTxHash p) with
      | None => Ok (inl (DoS 100 "bad-protx-hash"))
      | Some dmn => l ← UpdateMN_hash Hash newList (upreg_proTxHash p) (registrar_state nHeight p (pdmnState dmn)); Ok (inr l)
      end
  end.

Definition revoke_state (nHeight : Z) (p : CProUpRevTx) (s : CDeterministicMNState) : CDeterministicMNState :=
  set_reason (BanIfNotBanned (ResetOperatorFields s) nHeight) (rev_nReason p).

Definition revoke_step (nHeight : Z) (newList : CDeterministicMNList) (tx : CTransaction) : result (reject + CDeterministicMNList) :=
  match GetTxPayload (unser_ProUpRev B) (vExtraPayload tx) with
  | None => Err AssertFail
  | Some p =>
      match GetMN newList (rev_proTxHash p) with
      | None => Ok (inl (DoS 100 "bad-protx-hash"))
      | Some dmn => l ← UpdateMN_hash Hash newList (rev_proTxHash p) (revoke_state nHeight p (pdmnState dmn)); Ok (inr l)
      end
  end.

(** The loop over the members of a quorum, from the member [i] on. *)
Fixpoint punish_members (qc : CFinalCommitment) (i : nat) (members : list CDeterministicMN) (mnList : CDeterministicMNList) : result CDeterministicMNList :=
  match members with
  | [] => Ok mnList
  | d :: members =>
      mnList ← (if negb (HasMN mnList (proTxHash d)) then Ok mnList
                else
                  v ← bit_at (validMembers qc) i;
                  if negb v then penalty ← CalcPenalty mnList 66; PoSePunish Hash mnList (proTxHash d) penalty
                  else Ok mnList);
      punish_members qc (S i) members mnList
  end.

Definition HandleQuorumCommitment (g : Manager) (qc : CFinalCommitment) (pindexQuorum : ptr) (mnList : CDeterministicMNList) : result (CDeterministicMNList * Manager) :=
  '(members, g) ← GetAllQuorumMembers g (qc_llmqType qc) pindexQuorum;
  l ← punish_members qc 0 members mnList;
  Ok (l, g).

Definition commitment_step (pindexPrev : ptr) (g : Manager) (newList : CDeterministicMNList) (tx : CTransaction) : result ((reject + CDeterministicMNList) * Manager) :=
  match GetTxPayload (unser_qcPayload B) (vExtraPayload tx) with
  | None => Err AssertFail
  | Some qc =>
      if commitment_IsNull B (commitment qc) then Ok (inr newList, g)
      else
        params ← llmqs_at (mgr_llmq g) (qc_llmqType (commitment qc));
        let quorumHeight := i32 (qcTx_nHeight qc - qcTx_nHeight qc mod q_dkgInterval params) in
        quorumIndex ← GetAncestor (me_index V) pindexPrev quorumHeight;
        match quorumIndex with
        | None => Ok (inl (DoS 100 "bad-qc-quorum-hash"), g)
        | Some q =>
            if negb (bool_decide (q = qc_quorumHash (commitment qc))) then Ok (inl (DoS 100 "bad-qc-quorum-hash"), g)
            else '(l, g) ← HandleQuorumCommitment g (commitment qc) q newList; Ok (inr l, g)
        end
  end.

Definition lift_step (g : Manager) (r : result (reject + CDeterministicMNList)) : result ((reject + CDeterministicMNList) * Manager) := x ← r; Ok (x, g).

Definition tx_step (pindexPrev : ptr) (nHeight : Z) (g : Manager) (newList : CDeterministicMNList) (tx : CTransaction) : result ((reject + CDeterministicMNList) * Manager) :=
  if negb (tx_nVersion tx =? 3) then Ok (inr newList, g)
  else if tx_nType tx =? TRANSACTION_PROVIDER_REGISTER then lift_step g (register_step nHeight newList tx)
  else if tx_nType tx =? TRANSACTION_PROVIDER_UPDATE_SERVICE then lift_step g (update_service_step nHeight newList tx)
  else if tx_nType tx =? TRANSACTION_PROVIDER_UPDATE_REGISTRAR then lift_step g (update_registrar_step nHeight newList tx)
  else if tx_nType tx =? TRANSACTION_PROVIDER_UPDATE_REVOKE then lift_step g (revoke_step nHeight newList tx)
  else if tx_nType tx =? TRANSACTION_QUORUM_COMMITMENT then commitment_step pindexPrev g newList tx
  else Ok (inr newList, g).

(** The first loop over the transactions; a rejected one ends it. *)
Fixpoint txs_loop (pindexPrev : ptr) (nHeight : Z) (g : Manager) (newList : CDeterministicMNList) (txs : list CTransaction) : result ((reject + CDeterministicMNList) * Manager) :=
  match txs with
  | [] => Ok (inr newList, g)
  | tx :: txs =>
      '(r, g) ← tx_step pindexPrev nHeight g newList tx;
      match r with
      | inl e => Ok (inl e, g)
      | inr newList => txs_loop pindexPrev nHeight g newList txs
      end
  end.

(** The second one: a spent collateral removes its smartnode. *)
Definition spend_step (newList : CDeterministicMNList) (i : CTxIn) : result CDeterministicMNList :=
  match GetMNByCollateral Hash newList (prevout i) with
  | Some dmn => if bool_decide (collateralOutpoint dmn = prevout i) then RemoveMN Hash B newList (proTxHash dmn) else Ok newList
  | None => Ok newList
  end.

Definition pay_payee (payee : option CDeterministicMN) (nHeight : Z) (newList : CDeterministicMNList) : result CDeterministicMNList :=
  match payee with
  | None => Ok newList
  | Some p =>
      match GetMN newList (proTxHash p) with
      | None => Ok newList
      | Some d => UpdateMN_hash Hash newList (proTxHash p) (set_LastPaid (pdmnState d) nHeight)
      end
  end.

Definition BuildNewListFromBlock (g : Manager) (vtx : list CTransaction) (pindexPrev : ptr) : result ((reject + CDeterministicMNList) * Manager) :=
  prev ← deref (me_index V !! pindexPrev);
  let nHeight := nHeight prev + 1 in
  '(oldList, g) ← GetListForBlock g pindexPrev;
  let newList := SetHeight (SetBlockHash oldList uint256_null) nHeight in
  let payee := GetMNPayee (me_evo V) order oldList in
  newList ← foldM (confirm_step (Chain.nHeight prev) pindexPrev) newList (AllMNs order oldList);
  let isDecrease := if me_spork21 V then nHeight mod 30 =? 0 else nHeight mod 2 =? 0 in
  newList ← (if isDecrease then DecreasePoSePenalties newList else Ok newList);
  '(r, g) ← txs_loop pindexPrev nHeight g newList (drop 1 vtx);
  match r with
  | inl e => Ok (inl e, g)
  | inr newList =>
      newList ← foldM spend_step newList (drop 1 vtx ≫= vin);
      newList ← pay_payee payee nHeight newList;
      Ok (inr newList, set_llmq g (UpdateLLMQParams (mgr_llmq g) (GetAllMNsCount newList) nHeight (me_spork21 V)))
  end.

(** ** Connecting and disconnecting a block *)

Definition CleanupCache (g : Manager) (nHeight : Z) : Manager :=
  set_cache g (filter (fun p => ~ (l_nHeight p.2 + LISTS_CACHE_SIZE < nHeight)) (mnListsCache g)).

(** [pindex] is the entry of the block; [blockHash] is [block.GetHash()]. *)
Definition ProcessBlock (g : Manager) (vtx : list CTransaction) (blockHash : uint256) (pindex : ptr) (fJustCheck : bool) : result (option reject * Manager) :=
  if negb (me_DIP0003Enabled V) then Ok (None, g)
  else
    idx ← deref (me_index V !! pindex);
    prev ← deref (pprev idx);
    '(r, g) ← BuildNewListFromBlock g vtx prev;
    match r with
    | inl e => Ok (Some e, g)
    | inr newList =>
        if fJustCheck then Ok (None, g)
        else
          let newList := if l_nHeight newList =? -1 then SetHeight newList (nHeight idx) else newList in
          let newList := SetBlockHash newList blockHash in
          '(oldList, g) ← GetListForBlock g prev;
          let diff := BuildDiff order oldList newList in
          let snapshots := if (nHeight idx mod SNAPSHOT_LIST_PERIOD =? 0) || (l_nHeight oldList =? -1) then <[blockHash := newList]> (db_list_snapshot g) else db_list_snapshot g in
          let g := mkManager (mnListsCache g) (<[blockHash := diff]> (db_list_diff g)) snapshots (mgr_llmq g) in
          Ok (None, CleanupCache g (nHeight idx))
    end.

Definition UndoBlock (g : Manager) (blockHash : uint256) (pindex : ptr) : result Manager :=
  idx ← deref (me_index V !! pindex);
  g ← (if match db_list_diff g !! blockHash with Some diff => HasChanges diff | None => false end
       then
         '(curList, g) ← GetListForBlock g pindex;
         prev ← deref (pprev idx);
         '(prevList, g) ← GetListForBlock g prev;
         Ok g
       else Ok g);
  Ok (mkManager (delete blockHash (mnListsCache g)) (delete blockHash (db_list_diff g)) (delete blockHash (db_list_snapshot g)) (mgr_llmq g)).

(** ** Checks of the other special transactions *)

Definition CheckLLMQCommitment (g : Manager) (tx : CTransaction) (pindexPrev : ptr) : result (option reject * Manager) :=
  match GetTxPayload (unser_qcPayload B) (vExtraPayload tx) with
  | None => Ok (Some (DoS 100 "bad-qc-payload"), g)
  | Some qcTx =>
      let c := commitment qcTx in
      if (qcTx_nVersion qcTx =? 0) || (1 <? qcTx_nVersion qcTx) then Ok (Some (DoS 100 "bad-qc-version"), g)
      else
        prev ← deref (me_index V !! pindexPrev);
        if negb (qcTx_nHeight qcTx =? u32 (nHeight prev + 1)) then Ok (Some (DoS 100 "bad-qc-height"), g)
        else match me_index V !! qc_quorumHash c with
        | None => Ok (Some (DoS 100 "bad-qc-quorum-hash"), g)
        | Some quorum =>
            anc ← GetAncestor (me_index V) pindexPrev (nHeight quorum);
            if negb (bool_decide (anc = Some (qc_quorumHash c))) then Ok (Some (DoS 100 "bad-qc-quorum-hash"), g)
            else match llmqs (mgr_llmq g) !! qc_llmqType c with
            | None => Ok (Some (DoS 100 "bad-qc-type"), g)
            | Some params =>
                if commitment_IsNull B c then Ok (if negb (VerifyNull B (mgr_llmq g) c) then Some (DoS 100 "bad-qc-invalid-null") else None, g)
                else
                  '(members, g) ← GetAllQuorumMembers g (q_type params) (qc_quorumHash c);
                  ok ← Verify Hash B verify_aggregated (mgr_llmq g) c members false;
                  Ok (if negb ok then Some (DoS 100 "bad-qc-invalid") else None, g)
            end
        end
  end.

Record CCbTx := mkCbTx { cb_nVersion : Z; cb_nHeight : Z; cb_merkleRootMNList : uint256; cb_merkleRootQuorums : uint256 }.
Definition unser_cbTx (s : list Z) : result (CCbTx * list Z) :=
  '(v, s) ← ser_readdata16 s; '(h, s) ← ser_readdata32 s; '(r, s) ← read_uint256 s;
  '(q, s) ← (if 2 <=? v then read_uint256 s else Ok (uint256_null, s));
  Ok (mkCbTx v (i32 h) r q, s).

Definition CheckCbTx (tx : CTransaction) (prev : option CBlockIndex) : option reject :=
  if negb (tx_nType tx =? TRANSACTION_COINBASE) then Some (DoS 100 "bad-cbtx-type")
  else if negb (IsCoinBase tx) then Some (DoS 100 "bad-cbtx-invalid")
  else match GetTxPayload unser_cbTx (vExtraPayload tx) with
  | None => Some (DoS 100 "bad-cbtx-payload")
  | Some cbTx =>
      if (cb_nVersion cbTx =? 0) || (2 <? cb_nVersion cbTx) then Some (DoS 100 "bad-cbtx-version")
      else match prev with
      | None => None
      | Some prev =>
          if negb (nHeight prev + 1 =? cb_nHeight cbTx) then Some (DoS 100 "bad-cbtx-height")
          else if me_DIP0008Enabled V && (cb_nVersion cbTx <? 2) then Some (DoS 100 "bad-cbtx-version")
          else None
      end
  end.
End Manager.
