(* ===== verification/SmartnodeBlock.v ===== *)
(** * The list of a new block: what can change and who can change it
    (theorems about BuildNewListFromBlock, see SmartnodeManager and ProTxCheck)

    Building the list of a block is a sequence of edits of single smartnodes.  The
    edits are a step relation; the properties of the new list are invariants of it. *)

From Stdlib Require Import ZArith Lia.
From stdpp Require Import base tactics numbers option list strings gmap relations.
From S2P Require Import Prelude ArithUint256 Compact Block Chain Pow Headers Serialize Transaction Rewards Script Coins BlockCheck Base58 ProTx Smartnodes SmartnodeDiff SmartnodePayee Quorum ProTxCheck SmartnodeManager.

Open Scope Z_scope.

(** ** Loops *)

Lemma foldM_app {A S} (f : S -> A -> result S) s l1 l2 : foldM f s (l1 ++ l2) = (s' ← foldM f s l1; foldM f s' l2).
Proof. revert s. induction l1 as [|x l1 IH]; intros s; cbn; [done|]. destruct (f s x); cbn; [apply IH|done]. Qed.

Lemma bind_err {A S} (r : result A) (f : A -> result S) e : (x ← r; f x) = Err e -> r = Err e \/ exists x, r = Ok x /\ f x = Err e.
Proof. destruct r as [x|e']; cbn; [eauto|]. intros [= ->]. by left. Qed.

Lemma cassert_err b e : cassert b = Err e -> e = AssertFail.
Proof. destruct b; [done|]. by intros [= <-]. Qed.

(** ** Updates that succeed *)

Section Updates.
Context (Hash : list Z -> uint256) (B : BLS).
Abbreviation wf := (wf Hash B).
Abbreviation free := (free Hash).

(** A hash has one owner. *)
Lemma unique_owner m um x p q : unique_ok m um -> x ∈ m p -> x ∈ m q -> p = q.
Proof.
  intros Hu Hp%occ_elem Hq%occ_elem. assert (um !! x = Some (p, occ x (m p))) as E1 by (by apply Hu). assert (um !! x = Some (q, occ x (m q))) as E2 by (by apply Hu). congruence.
Qed.

Lemma update_free l h old new nullv m rest l' : unique_ok m (mnUniquePropertyMap l) -> m h ≡ₚ opt_prop Hash old nullv ++ rest -> (length (m h) <= 9)%nat ->
  UpdateUniqueProperty Hash l h old new nullv = Ok l' -> forall q x, q <> h -> x ∈ opt_prop Hash new nullv -> x ∉ m q.
Proof.
  intros Hu Hm Hl. unfold UpdateUniqueProperty. destruct (bool_decide (old = new)) eqn:Eq.
  { apply bool_decide_eq_true in Eq as ->. intros _ q x Hq Hx Hin. apply Hq. apply (unique_owner m _ x q h Hu Hin). rewrite Hm, elem_of_app. by left. }
  destruct (delete_opt_spec Hash l h old nullv m rest Hu Hm) as (um & E & Hum); [lia|]. unfold delete_opt in E. cbn [fst snd] in E. rewrite E. cbn [mbind result_bind].
  intros Ha q x Hq Hx. assert (add_opts Hash (set_unique l um) h [(new, nullv)] = Ok l') as Ha' by (cbn [add_opts]; by rewrite result_bind_ret).
  apply Permutation_length in Hm. rewrite length_app in Hm. pose proof (add_opts_free Hash [(new, nullv)] (set_unique l um) h _ l' Hum) as Hf. rewrite set_fun_eq in Hf. cbn [length] in Hf.
  specialize (Hf ltac:(lia) Ha' q x Hq). rewrite set_fun_ne in Hf by done. apply Hf. rewrite opt_props_cons, elem_of_app. by left.
Qed.

Lemma update_opts_free vs l h m rest l' : unique_ok m (mnUniquePropertyMap l) -> m h ≡ₚ opt_olds Hash vs ++ rest -> (length (m h) + length vs <= 9)%nat ->
  update_opts Hash l h vs = Ok l' -> forall q x, q <> h -> x ∈ opt_news Hash vs -> x ∉ m q.
Proof.
  revert l m rest. induction vs as [|[[o v] n] vs IH]; intros l m rest Hu Hm Hl Ha q x Hq Hx; [by apply elem_of_nil in Hx|].
  cbn [update_opts length] in *. apply result_bind_Ok in Ha as (l1 & E1 & Ha). unfold opt_olds, opt_news in *. cbn [map fst snd] in *. rewrite opt_props_cons in *. rewrite <- app_assoc in Hm.
  pose proof (update_free l h o v n m _ l1 Hu Hm ltac:(lia) E1) as Hfree. rewrite elem_of_app in Hx. destruct Hx as [Hx|Hx]; [by apply Hfree|].
  destruct (UpdateUnique_spec Hash l h o v n m _ Hu Hm Hfree) as (um & E & Hum); [lia|]. rewrite E1 in E. injection E as ->.
  pose proof (IH (set_unique l um) _ (opt_prop Hash v n ++ rest) Hum) as IH'. rewrite set_fun_eq in IH'.
  apply Permutation_length in Hm as Hml. rewrite !length_app in Hml. pose proof (opt_prop_length Hash v n).
  specialize (IH' ltac:(solve_Permutation) ltac:(rewrite !length_app; lia) Ha q x Hq Hx). by rewrite set_fun_ne in IH'.
Qed.

(** An update that goes through leaves a consistent list, and the new state uses no
    property of another smartnode. *)
Lemma UpdateMN_inv l h d s l' : wf l -> mnMap l !! h = Some d -> mn_ok B (with_state d s) -> UpdateMN_hash Hash l h s = Ok l' ->
  free (mnMap l) h (with_state d s) /\ wf l' /\ mnMap l' = <[h := with_state d s]> (mnMap l) /\
  l_blockHash l' = l_blockHash l /\ l_nHeight l' = l_nHeight l /\ nTotalRegisteredCount l' = nTotalRegisteredCount l.
Proof.
  intros Hwf Hd Hok Hup. assert (free (mnMap l) h (with_state d s)) as Hf.
  2:{ destruct (UpdateMN_spec Hash B l h d s Hwf Hd Hok Hf) as (l2 & E & H). unfold UpdateMN_hash in Hup. rewrite Hd, E in Hup. injection Hup as <-. done. }
  unfold UpdateMN_hash in Hup. rewrite Hd, UpdateMN_opts in Hup. destruct (wf_mn _ _ l Hwf _ _ Hd) as [Eh _]. rewrite Eh in Hup.
  set (vs := [_; _; _]) in Hup. set (c := opt_prop Hash (ser (collateralOutpoint d)) (ser COutPoint_null)).
  assert (props Hash d = c ++ opt_olds Hash vs) as Hc by (unfold props, prop_vals; by rewrite opt_props_cons).
  assert (props Hash (with_state d s) = c ++ opt_news Hash vs) as Hc' by (unfold props, prop_vals; by rewrite opt_props_cons).
  assert (props_in Hash (mnMap l) h = props Hash d) as Hp by (unfold props_in; by rewrite Hd).
  pose proof (opt_props_length Hash (prop_vals d)) as Hlen. change (opt_props Hash (prop_vals d)) with (props Hash d) in Hlen. change (length (prop_vals d)) with 4%nat in Hlen.
  intros q d' x Hq Hd' Hx Hx'. assert (props_in Hash (mnMap l) q = props Hash d') as Hpq by (unfold props_in; by rewrite Hd').
  rewrite Hc', elem_of_app in Hx. destruct Hx as [Hx|Hx].
  - apply Hq. apply (unique_owner (props_in Hash (mnMap l)) (mnUniquePropertyMap l) x q h (wf_unique _ _ l Hwf)); [by rewrite Hpq|]. rewrite Hp, Hc, elem_of_app. by left.
  - rewrite <- Hpq in Hx'. revert Hx'. refine (update_opts_free vs _ h (props_in Hash (mnMap l)) c l' _ _ _ Hup q x Hq Hx).
    + apply Hwf.
    + by rewrite Hp, Hc, Permutation_app_comm.
    + rewrite Hp. cbn [vs length]. lia.
Qed.

Lemma AddUnique_err l h v n e : AddUniqueProperty Hash l h v n = Err e -> e = AssertFail.
Proof. unfold AddUniqueProperty. intros [?%cassert_err|(_ & _ & H)]%bind_err; [done|]. apply bind_err in H as [?%cassert_err|(_ & _ & ?)]; done. Qed.

Lemma DeleteUnique_err l h v n e : DeleteUniqueProperty Hash l h v n = Err e -> e = AssertFail.
Proof.
  unfold DeleteUniqueProperty. intros [?%cassert_err|(_ & _ & H)]%bind_err; [done|]. destruct (mnUniquePropertyMap l !! Hash v) as [[p c]|]; [|by injection H].
  apply bind_err in H as [?%cassert_err|(_ & _ & H)]; [done|]. by destruct (c =? 1).
Qed.

Lemma UpdateUnique_err l h o v n e : UpdateUniqueProperty Hash l h o v n = Err e -> e = AssertFail.
Proof.
  unfold UpdateUniqueProperty. case_bool_decide; [done|]. intros [H'|(l1 & _ & H')]%bind_err; revert H'; (case_bool_decide; [done|]); [apply DeleteUnique_err|apply AddUnique_err].
Qed.

Lemma UpdateMN_err l h d s e : mnMap l !! h = Some d -> UpdateMN_hash Hash l h s = Err e -> e = AssertFail.
Proof.
  intros Hd. unfold UpdateMN_hash. rewrite Hd, UpdateMN_opts. generalize (set_mnMap l (<[proTxHash d := with_state d s]> (mnMap l))). 
  generalize [(addr (pdmnState d), addr s, CService_null); (keyIDOwner (pdmnState d), keyIDOwner s, CKeyID_null); (pubKeyOperator (pdmnState d), pubKeyOperator s, bls_key_null)].
  intros vs. induction vs as [|[[o v] n] vs IH]; intros l1; cbn [update_opts]; [done|].
  destruct (UpdateUniqueProperty Hash l1 (proTxHash d) o v n) as [l2|e2] eqn:E; cbn [mbind result_bind]; [apply IH|]. intros [= <-]. by eapply UpdateUnique_err.
Qed.

Hypothesis bls_null : bls_key B bls_key_null = false.

(** A smartnode that was added has a collateral, an owner and a good operator key, and
    its properties were not in use. *)
Lemma AddMN_inv l d l' : wf l -> AddMN Hash B l d = Ok l' -> mnInternalIdMap l !! internalId d = None ->
  pubKeyOperator (pdmnState d) = bls_key_null \/ bls_key B (pubKeyOperator (pdmnState d)) = true ->
  mn_ok B d /\ mnMap l !! proTxHash d = None /\ free (mnMap l) (proTxHash d) d /\ wf l' /\ mnMap l' = <[proTxHash d := d]> (mnMap l) /\
  l_blockHash l' = l_blockHash l /\ l_nHeight l' = l_nHeight l /\ nTotalRegisteredCount l' = nTotalRegisteredCount l.
Proof.
  intros Hwf Ha Hid Hop. assert (mn_ok B d) as Hok.
  { unfold AddMN in Ha. apply result_bind_Ok in Ha as (u & _ & Ha). apply result_bind_Ok in Ha as (l1 & H1 & Ha). apply result_bind_Ok in Ha as (l2 & _ & Ha). apply result_bind_Ok in Ha as (l3 & H3 & _).
    unfold AddUniqueProperty in H1, H3. apply result_bind_Ok in H1 as (u1 & H1 & _). apply result_bind_Ok in H3 as (u3 & H3 & _).
    split; [by intros E; rewrite (bool_decide_true _ E) in H1|]. split; [by intros E; rewrite (bool_decide_true _ E) in H3|]. split.
    - intros Hb Hz. rewrite Hz in Hb. congruence.
    - intros Hne. by destruct Hop. }
  pose proof (AddMN_iff Hash B l d Hwf Hok Hid) as Hi. destruct (decide (mnMap l !! proTxHash d = None /\ Forall (fun p => p.1 = p.2 \/ HasUniqueProperty Hash l p.1 = false) (prop_vals d))) as [[Hn Hf]|Hf].
  2:{ rewrite (bool_decide_false _ Hf) in Hi. congruence. }
  apply (free_unused Hash B) in Hf; [|done..]. destruct (AddMN_spec Hash B l d Hwf Hok Hn Hid Hf) as (l2 & E & Hw & Hm & H1 & H2 & H3).
  rewrite Ha in E. injection E as <-. done.
Qed.

Lemma GetUniquePropertyMN_inv l v d : wf l -> GetUniquePropertyMN Hash l v = Some d -> mnMap l !! proTxHash d = Some d /\ Hash v ∈ props Hash d.
Proof.
  intros Hwf H. unfold GetUniquePropertyMN in H. apply bind_Some in H as ([p n] & Hu & Hd). cbn [fst] in Hd. unfold GetMN in Hd. destruct (wf_mn _ _ l Hwf _ _ Hd) as [-> _].
  split; [done|]. apply (wf_unique _ _ l Hwf) in Hu as [H0 ->]. apply occ_elem in H0. unfold props_in in H0. by rewrite Hd in H0.
Qed.

Lemma HasUnique_owner l v h d : wf l -> mnMap l !! h = Some d -> Hash v ∈ props Hash d -> GetUniquePropertyMN Hash l v = Some d /\ HasUniqueProperty Hash l v = true.
Proof.
  intros Hwf Hd Hx. unfold GetUniquePropertyMN, HasUniqueProperty, GetMN. rewrite (props_lookup Hash B l h d _ Hwf Hd Hx). cbn. rewrite Hd. done.
Qed.
End Updates.

(** ** Edits *)

(** The changes that no transaction asks for: confirmation, penalties, bans and
    payments. *)
Definition bookkeeping (s s' : CDeterministicMNState) : Prop :=
  nRegisteredHeight s' = nRegisteredHeight s /\ nPoSeRevivedHeight s' = nPoSeRevivedHeight s /\ nRevocationReason s' = nRevocationReason s /\
  keyIDOwner s' = keyIDOwner s /\ pubKeyOperator s' = pubKeyOperator s /\ keyIDVoting s' = keyIDVoting s /\ addr s' = addr s /\
  scriptPayout s' = scriptPayout s /\ scriptOperatorPayout s' = scriptOperatorPayout s.

Section Block.
Context (Hash SHA256 : list Z -> uint256) (B : BLS).
Context (order : gmap (list Z) CDeterministicMN -> list (list Z * CDeterministicMN)).
Context (V : ManagerEnv).
Hypothesis order_perm : forall m, order m ≡ₚ map_to_list m.
Hypothesis bls_null : bls_key B bls_key_null = false.
Abbreviation wf := (wf Hash B).
Abbreviation free := (free Hash).

(** The changes of the state of a smartnode. *)
Inductive change (nH : Z) (txs : list CTransaction) (d : CDeterministicMN) : CDeterministicMNState -> Prop :=
  | change_bookkeeping s : bookkeeping (pdmnState d) s -> change nH txs d s
  | change_service tx p : tx ∈ txs -> tx_nVersion tx = 3 -> tx_nType tx = TRANSACTION_PROVIDER_UPDATE_SERVICE -> GetTxPayload (unser_ProUpServ B) (vExtraPayload tx) = Some p ->
      serv_proTxHash p = proTxHash d -> change nH txs d (serv_state B nH p (pdmnState d))
  | change_registrar tx p : tx ∈ txs -> tx_nVersion tx = 3 -> tx_nType tx = TRANSACTION_PROVIDER_UPDATE_REGISTRAR -> GetTxPayload (unser_ProUpReg B) (vExtraPayload tx) = Some p ->
      upreg_proTxHash p = proTxHash d -> change nH txs d (registrar_state nH p (pdmnState d))
  | change_revoke tx p : tx ∈ txs -> tx_nVersion tx = 3 -> tx_nType tx = TRANSACTION_PROVIDER_UPDATE_REVOKE -> GetTxPayload (unser_ProUpRev B) (vExtraPayload tx) = Some p ->
      rev_proTxHash p = proTxHash d -> change nH txs d (revoke_state nH p (pdmnState d)).

Definition registered (nH : Z) (tx : CTransaction) (p : CProRegTx) (id : Z) : CDeterministicMN :=
  mkMN (GetTxHash Hash tx) id (collateral_of Hash tx p) (reg_nOperatorReward p) (register_state nH p).

Inductive edit (nH : Z) (txs : list CTransaction) (l : CDeterministicMNList) : CDeterministicMNList -> Prop :=
  | edit_change h d s l' : mnMap l !! h = Some d -> change nH txs d s -> UpdateMN_hash Hash l h s = Ok l' -> edit nH txs l l'
  | edit_register tx p l1 l' : tx ∈ txs -> tx_nVersion tx = 3 -> tx_nType tx = TRANSACTION_PROVIDER_REGISTER -> GetTxPayload (unser_ProReg B) (vExtraPayload tx) = Some p ->
      nTotalRegisteredCount l + 1 < 2 ^ 32 ->
      match GetMNByCollateral Hash l (collateral_of Hash tx p) with
      | Some r => RemoveMN Hash B (SetTotalRegisteredCount l (nTotalRegisteredCount l + 1)) (proTxHash r) = Ok l1
      | None => l1 = SetTotalRegisteredCount l (nTotalRegisteredCount l + 1)
      end ->
      AddMN Hash B l1 (registered nH tx p (nTotalRegisteredCount l)) = Ok l' -> edit nH txs l l'
  | edit_spend tx i d l' : tx ∈ txs -> i ∈ vin tx -> mnMap l !! proTxHash d = Some d -> collateralOutpoint d = prevout i -> RemoveMN Hash B l (proTxHash d) = Ok l' -> edit nH txs l l'.

(** Consistent, with the ids below the counter. *)
Definition inv (l : CDeterministicMNList) : Prop := wf l /\ 0 <= nTotalRegisteredCount l /\ forall h d, mnMap l !! h = Some d -> 0 <= internalId d < nTotalRegisteredCount l.

Lemma wf_count l n : wf l -> wf (SetTotalRegisteredCount l n).
Proof. intros [H1 H2 H3]. by split. Qed.

Lemma unser_bls_inv n valid s b r : unser_bls n valid s = Ok (b, r) -> b = replicate n 0 \/ valid b = true.
Proof.
  unfold unser_bls. intros H. apply result_bind_Ok in H as ([b' r'] & _ & H). destruct (bool_decide (b' = replicate n 0)) eqn:E; cbn [orb] in H.
  - injection H as <- <-. left. by apply bool_decide_eq_true in E.
  - destruct (valid b') eqn:Ev; [|done]. injection H as <- <-. by right.
Qed.

Ltac read_bind H := let a := fresh "a" in let s := fresh "s" in let E := fresh "E" in apply result_bind_Ok in H as ([a s] & E & H).

Lemma ProReg_operator pl p : GetTxPayload (unser_ProReg B) pl = Some p -> reg_pubKeyOperator p = bls_key_null \/ bls_key B (reg_pubKeyOperator p) = true.
Proof.
  unfold GetTxPayload. destruct (unser_ProReg B pl) as [[q [|]]|] eqn:H; [|done..]. intros [= ->]. unfold unser_ProReg in H. do 12 read_bind H. injection H as <- _. cbn [reg_pubKeyOperator].
  match goal with E : unser_bls 48 _ _ = Ok (?a, _) |- _ => exact (unser_bls_inv _ _ _ _ _ E) end.
Qed.

Lemma ProUpReg_operator pl p : GetTxPayload (unser_ProUpReg B) pl = Some p -> upreg_pubKeyOperator p = bls_key_null \/ bls_key B (upreg_pubKeyOperator p) = true.
Proof.
  unfold GetTxPayload. destruct (unser_ProUpReg B pl) as [[q [|]]|] eqn:H; [|done..]. intros [= ->]. unfold unser_ProUpReg in H. do 8 read_bind H. injection H as <- _. cbn [upreg_pubKeyOperator].
  match goal with E : unser_bls 48 _ _ = Ok (?a, _) |- _ => exact (unser_bls_inv _ _ _ _ _ E) end.
Qed.

Lemma mn_ok_state d s : mn_ok B d -> keyIDOwner s = keyIDOwner (pdmnState d) -> pubKeyOperator s = pubKeyOperator (pdmnState d) \/ pubKeyOperator s = bls_key_null \/ bls_key B (pubKeyOperator s) = true ->
  mn_ok B (with_state d s).
Proof.
  intros (H1 & H2 & H3) Eo Ep. split; [done|]. cbn [with_state pdmnState]. rewrite Eo. split; [done|]. destruct Ep as [->|[->|Hb]]; [done|by rewrite bls_null|].
  split; [|done]. intros _ Hz. rewrite Hz in Hb. congruence.
Qed.

Lemma serv_state_keys nH p s : keyIDOwner (serv_state B nH p s) = keyIDOwner s /\ pubKeyOperator (serv_state B nH p s) = pubKeyOperator s.
Proof. unfold serv_state. destruct (_ && _); done. Qed.

Lemma ban_keys s nH : keyIDOwner (BanIfNotBanned s nH) = keyIDOwner s /\ pubKeyOperator (BanIfNotBanned s nH) = pubKeyOperator s.
Proof. unfold BanIfNotBanned. by destruct (_ =? _). Qed.

Lemma registrar_state_keys nH p s : keyIDOwner (registrar_state nH p s) = keyIDOwner s /\ pubKeyOperator (registrar_state nH p s) = upreg_pubKeyOperator p.
Proof. unfold registrar_state. split; [|done]. cbn [set_registrar keyIDOwner]. destruct (negb _); [|done]. by rewrite (proj1 (ban_keys _ _)). Qed.

Lemma revoke_state_keys nH p s : keyIDOwner (revoke_state nH p s) = keyIDOwner s /\ pubKeyOperator (revoke_state nH p s) = bls_key_null.
Proof. unfold revoke_state. cbn [set_reason keyIDOwner pubKeyOperator]. by rewrite (proj1 (ban_keys _ _)), (proj2 (ban_keys _ _)). Qed.

(** An update of a smartnode keeps the invariant. *)
Lemma update_inv l h d s l' : inv l -> mnMap l !! h = Some d -> keyIDOwner s = keyIDOwner (pdmnState d) ->
  pubKeyOperator s = pubKeyOperator (pdmnState d) \/ pubKeyOperator s = bls_key_null \/ bls_key B (pubKeyOperator s) = true ->
  UpdateMN_hash Hash l h s = Ok l' -> inv l' /\ mnMap l' = <[h := with_state d s]> (mnMap l) /\ free (mnMap l) h (with_state d s) /\ nTotalRegisteredCount l' = nTotalRegisteredCount l.
Proof.
  intros (Hwf & H0 & Hids) Hd Eo Ep Hu. destruct (wf_mn _ _ l Hwf _ _ Hd) as [_ Hok].
  destruct (UpdateMN_inv Hash B l h d s l' Hwf Hd (mn_ok_state d s Hok Eo Ep) Hu) as (Hf & Hw & Hm & _ & _ & Hc). split_and!; [|done..].
  split; [done|]. rewrite Hc, Hm. split; [done|]. intros h' d'. rewrite lookup_insert_Some. intros [[<- <-]|[_ Hd']]; [exact (Hids h d Hd)|by eapply Hids].
Qed.

Lemma remove_inv l h d l' : inv l -> mnMap l !! h = Some d -> RemoveMN Hash B l h = Ok l' -> inv l' /\ mnMap l' = delete h (mnMap l) /\ nTotalRegisteredCount l' = nTotalRegisteredCount l.
Proof.
  intros (Hwf & H0 & Hids) Hd Hr. destruct (RemoveMN_spec Hash B l h d Hwf Hd) as (l2 & E & Hw & Hm & _ & _ & Hc). rewrite Hr in E. injection E as <-. split_and!; [|done..].
  split; [done|]. rewrite Hc, Hm. split; [done|]. intros h' d' [_ Hd']%lookup_delete_Some. by eapply Hids.
Qed.

Lemma change_keys nH txs d s : change nH txs d s -> keyIDOwner s = keyIDOwner (pdmnState d) /\
  (pubKeyOperator s = pubKeyOperator (pdmnState d) \/ pubKeyOperator s = bls_key_null \/ bls_key B (pubKeyOperator s) = true).
Proof.
  intros [s' Hb|tx p|tx p _ _ _ Hp|tx p].
  - destruct Hb as (_ & _ & _ & -> & -> & _). auto.
  - destruct (serv_state_keys nH p (pdmnState d)) as [-> ->]. auto.
  - destruct (registrar_state_keys nH p (pdmnState d)) as [-> ->]. split; [done|]. right. by eapply ProUpReg_operator.
  - destruct (revoke_state_keys nH p (pdmnState d)) as [-> ->]. auto.
Qed.

(** What an edit does to the map. *)
Inductive effect (nH : Z) (txs : list CTransaction) (l l' : CDeterministicMNList) : Prop :=
  | effect_change h d s : mnMap l !! h = Some d -> proTxHash d = h -> change nH txs d s -> mnMap l' = <[h := with_state d s]> (mnMap l) -> free (mnMap l) h (with_state d s) ->
      nTotalRegisteredCount l' = nTotalRegisteredCount l -> effect nH txs l l'
  | effect_register tx p m : tx ∈ txs -> tx_nVersion tx = 3 -> tx_nType tx = TRANSACTION_PROVIDER_REGISTER -> GetTxPayload (unser_ProReg B) (vExtraPayload tx) = Some p ->
      m = match GetMNByCollateral Hash l (collateral_of Hash tx p) with Some r => delete (proTxHash r) (mnMap l) | None => mnMap l end ->
      m !! GetTxHash Hash tx = None -> free m (GetTxHash Hash tx) (registered nH tx p (nTotalRegisteredCount l)) ->
      mnMap l' = <[GetTxHash Hash tx := registered nH tx p (nTotalRegisteredCount l)]> m -> nTotalRegisteredCount l' = nTotalRegisteredCount l + 1 -> nTotalRegisteredCount l' < 2 ^ 32 -> effect nH txs l l'
  | effect_spend tx i d : tx ∈ txs -> i ∈ vin tx -> mnMap l !! proTxHash d = Some d -> collateralOutpoint d = prevout i -> mnMap l' = delete (proTxHash d) (mnMap l) ->
      nTotalRegisteredCount l' = nTotalRegisteredCount l -> effect nH txs l l'.

Lemma edit_effect nH txs l l' : inv l -> edit nH txs l l' -> inv l' /\ effect nH txs l l'.
Proof.
  intros Hinv He. destruct He as [h d s l' Hd Hc Hu|tx p l1 l' Hin Hv Ht Hp Hlt Hr Ha|tx i d l' Hin Hi Hd Hc Hr].
  - destruct (change_keys nH txs d s Hc) as [Eo Ep]. destruct (update_inv l h d s l' Hinv Hd Eo Ep Hu) as (Hi & Hm & Hf & Hn). split; [done|].
    destruct (wf_mn _ _ l (proj1 Hinv) _ _ Hd) as [Eh _]. by apply (effect_change nH txs l l' h d s).
  - set (n := nTotalRegisteredCount l) in *. set (l0 := SetTotalRegisteredCount l (n + 1)) in *. destruct Hinv as (Hwf & H0 & Hids).
    assert (inv l0) as Hinv0 by (split; [by apply wf_count|split; [cbn; lia|intros h d Hd; specialize (Hids h d Hd); cbn; lia]]).
    set (m := match GetMNByCollateral Hash l (collateral_of Hash tx p) with Some r => delete (proTxHash r) (mnMap l) | None => mnMap l end).
    assert (inv l1 /\ mnMap l1 = m /\ nTotalRegisteredCount l1 = n + 1) as (Hinv1 & Hm1 & Hn1).
    { unfold m. destruct (GetMNByCollateral Hash l (collateral_of Hash tx p)) as [r|] eqn:Er; [|by subst l1].
      apply (GetUniquePropertyMN_inv Hash B) in Er as [Hrd _]; [|done]. by apply (remove_inv l0 (proTxHash r) r). }
    assert (mnInternalIdMap l1 !! n = None) as Hid.
    { destruct (mnInternalIdMap l1 !! n) as [q|] eqn:Eq; [|done]. apply (wf_ids _ _ l1 (proj1 Hinv1)) in Eq as (d & Hd & Eid). rewrite Hm1 in Hd. assert (mnMap l !! q = Some d) as Hd'.
      { revert Hd. unfold m. destruct (GetMNByCollateral Hash l _); [|done]. by intros [_ ?]%lookup_delete_Some. }
      specialize (Hids q d Hd'). lia. }
    destruct (AddMN_inv Hash B bls_null l1 (registered nH tx p n) l' (proj1 Hinv1) Ha Hid) as (_ & Hnone & Hf & Hw & Hm & _ & _ & Hn).
    { exact (ProReg_operator _ p Hp). }
    rewrite Hm1 in *. split; [|apply (effect_register nH txs l l' tx p m); try done; lia].
    split; [done|]. rewrite Hn, Hn1. split; [lia|]. intros h d. rewrite Hm, lookup_insert_Some. intros [[_ <-]|[_ Hd]]; [cbn; lia|].
    rewrite <- Hm1 in Hd. destruct Hinv1 as (_ & _ & Hids1). specialize (Hids1 h d Hd). lia.
  - destruct (remove_inv l (proTxHash d) d l' Hinv Hd Hr) as (Hi' & Hm & Hn). split; [done|]. by apply (effect_spend nH txs l l' tx i d).
Qed.

Lemma edits_inv nH txs l l' : inv l -> rtc (edit nH txs) l l' -> inv l'.
Proof. intros Hi Hr. induction Hr as [|l l1 l' He _ IH]; [done|]. apply IH. by apply (edit_effect nH txs l l1). Qed.

(** ** The loops are edits *)

Definition book (l l' : CDeterministicMNList) : Prop := exists h d s, mnMap l !! h = Some d /\ bookkeeping (pdmnState d) s /\ UpdateMN_hash Hash l h s = Ok l'.

Lemma book_edits nH txs l l' : rtc book l l' -> rtc (edit nH txs) l l'.
Proof. apply rtc_subrel. intros l1 l2 (h & d & s & Hd & Hb & Hu). apply (edit_change nH txs l1 h d s); [done|by constructor|done]. Qed.

Lemma book_once l h d s l' : mnMap l !! h = Some d -> bookkeeping (pdmnState d) s -> UpdateMN_hash Hash l h s = Ok l' -> rtc book l l'.
Proof. intros Hd Hb Hu. apply rtc_once. by exists h, d, s. Qed.

Lemma book_count l l' : inv l -> rtc book l l' -> inv l' /\ nTotalRegisteredCount l' = nTotalRegisteredCount l.
Proof.
  intros Hi Hr. induction Hr as [|l l1 l' (h & d & s & Hd & Hb & Hu) _ IH]; [done|]. destruct Hb as (_ & _ & _ & Eo & Ep & _).
  destruct (update_inv l h d s l1 Hi Hd Eo (or_introl Ep) Hu) as (Hi1 & _ & _ & <-). by apply IH.
Qed.

Lemma confirm_books prevHeight prevHash ds l l' : inv l -> NoDup (proTxHash <$> ds) -> (forall d, d ∈ ds -> mnMap l !! proTxHash d = Some d) ->
  foldM (confirm_step Hash SHA256 V prevHeight prevHash) l ds = Ok l' -> rtc book l l'.
Proof.
  revert l. induction ds as [|d ds IH]; intros l Hi Hnd Hds H; cbn [foldM fmap list_fmap] in *; [by injection H as <-|].
  apply NoDup_cons in Hnd as [Hd Hnd]. apply result_bind_Ok in H as (l1 & H1 & H). assert (mnMap l !! proTxHash d = Some d) as Hm by (apply Hds; by left).
  unfold confirm_step in H1. destruct (negb _); [injection H1 as <-; apply (IH l); [done..|intros; apply Hds; by right|done]|].
  destruct (_ <=? _); [|injection H1 as <-; apply (IH l); [done..|intros; apply Hds; by right|done]].
  assert (rtc book l l1) as Hr by (refine (book_once l (proTxHash d) d _ l1 Hm _ H1); by split_and!).
  transitivity l1; [done|]. apply (IH l1); [by apply (book_count l l1 Hi)|done| |done]. intros d' Hd'.
  destruct (update_inv l (proTxHash d) d (UpdateConfirmedHash SHA256 (pdmnState d) (proTxHash d) prevHash) l1 Hi Hm eq_refl (or_introl eq_refl) H1) as (_ & -> & _). rewrite lookup_insert_ne; [apply Hds; by right|].
  intros E. apply Hd. rewrite E. by apply list_elem_of_fmap_2.
Qed.

Lemma punish_books l h n l' : PoSePunish Hash l h n = Ok l' -> rtc book l l'.
Proof.
  unfold PoSePunish. intros H. apply result_bind_Ok in H as (u & _ & H). destruct (GetMN l h) as [d|] eqn:Hd; [|done]. refine (book_once l h d _ l' Hd _ H); by split_and!.
Qed.

Lemma decrease_books l h l' : PoSeDecrease Hash l h = Ok l' -> rtc book l l'.
Proof.
  unfold PoSeDecrease. intros H. destruct (GetMN l h) as [d|] eqn:Hd; [|done]. apply result_bind_Ok in H as (u & _ & H). refine (book_once l h d _ l' Hd _ H); by split_and!.
Qed.

Lemma foldM_rtc {A} (R : relation CDeterministicMNList) (f : CDeterministicMNList -> A -> result CDeterministicMNList) xs l l' : (forall l l', inv l -> rtc R l l' -> inv l') ->
  (forall l x l', x ∈ xs -> inv l -> f l x = Ok l' -> rtc R l l') -> inv l -> foldM f l xs = Ok l' -> rtc R l l'.
Proof.
  intros HR. revert l. induction xs as [|x xs IH]; intros l Hf Hi H; cbn [foldM] in H; [by injection H as <-|]. apply result_bind_Ok in H as (l1 & H1 & H).
  assert (rtc R l l1) as Hr by (apply (Hf l x); [by left|done..]). transitivity l1; [done|]. apply (IH l1); [intros ? ? ? ?; apply Hf; by right|by apply (HR l)|done].
Qed.

Lemma members_books qc i ms l l' : inv l -> punish_members Hash qc i ms l = Ok l' -> rtc book l l'.
Proof.
  revert i l. induction ms as [|d ms IH]; intros i l Hi H; cbn [punish_members] in H; [by injection H as <-|]. apply result_bind_Ok in H as (l1 & H1 & H).
  assert (rtc book l l1) as Hr.
  { destruct (negb _); [by injection H1 as <-|]. apply result_bind_Ok in H1 as (v & _ & H1). destruct (negb v); [|by injection H1 as <-].
    apply result_bind_Ok in H1 as (n & _ & H1). by eapply punish_books. }
  transitivity l1; [done|]. apply (IH (S i)); [by apply (book_count l l1 Hi)|done].
Qed.

Lemma register_edits nH txs l tx l' : inv l -> tx ∈ txs -> tx_nVersion tx = 3 -> tx_nType tx = TRANSACTION_PROVIDER_REGISTER -> nTotalRegisteredCount l + 1 < 2 ^ 32 ->
  register_step Hash B V nH l tx = Ok (inr l') -> edit nH txs l l'.
Proof.
  intros Hi Hin Hv Ht Hn H. unfold register_step in H. destruct (GetTxPayload (unser_ProReg B) _) as [p|] eqn:Hp; [|done].
  destruct (is_external p && _); [done|]. destruct Hi as (_ & H0 & _). rewrite u32_small in H by lia. apply result_bind_Ok in H as (l1 & Hr & H).
  destruct (HasUniqueProperty Hash l1 (reg_addr p)); [done|]. destruct (HasUniqueProperty Hash l1 _ || _); [done|]. apply result_bind_Ok in H as (l2 & Ha & [= <-]).
  apply (edit_register nH txs l tx p l1 l2); try done. change (GetMNByCollateral Hash l) with (GetMNByCollateral Hash (SetTotalRegisteredCount l (nTotalRegisteredCount l + 1))).
  destruct (GetMNByCollateral Hash _ _) as [r|]; [done|by injection Hr].
Qed.

Lemma update_service_edits nH txs l tx l' : inv l -> tx ∈ txs -> tx_nVersion tx = 3 -> tx_nType tx = TRANSACTION_PROVIDER_UPDATE_SERVICE -> update_service_step Hash B nH l tx = Ok (inr l') -> edit nH txs l l'.
Proof.
  intros Hi Hin Hv Ht H. unfold update_service_step in H. destruct (GetTxPayload (unser_ProUpServ B) _) as [p|] eqn:Hp; [|done]. apply result_bind_Ok in H as (dup & _ & H). destruct dup; [done|].
  destruct (GetMN l _) as [d|] eqn:Hd; [|done]. apply result_bind_Ok in H as (l2 & Ha & [= <-]). apply (edit_change nH txs l (serv_proTxHash p) d (serv_state B nH p (pdmnState d)) l2 Hd); [|done].
  apply (change_service nH txs d tx p); try done. by destruct (wf_mn _ _ l (proj1 Hi) _ _ Hd) as [-> _].
Qed.

Lemma update_registrar_edits nH txs l tx l' : inv l -> tx ∈ txs -> tx_nVersion tx = 3 -> tx_nType tx = TRANSACTION_PROVIDER_UPDATE_REGISTRAR -> update_registrar_step Hash B nH l tx = Ok (inr l') -> edit nH txs l l'.
Proof.
  intros Hi Hin Hv Ht H. unfold update_registrar_step in H. destruct (GetTxPayload (unser_ProUpReg B) _) as [p|] eqn:Hp; [|done].
  destruct (GetMN l _) as [d|] eqn:Hd; [|done]. apply result_bind_Ok in H as (l2 & Ha & [= <-]). apply (edit_change nH txs l (upreg_proTxHash p) d (registrar_state nH p (pdmnState d)) l2 Hd); [|done].
  apply (change_registrar nH txs d tx p); try done. by destruct (wf_mn _ _ l (proj1 Hi) _ _ Hd) as [-> _].
Qed.

Lemma revoke_edits nH txs l tx l' : inv l -> tx ∈ txs -> tx_nVersion tx = 3 -> tx_nType tx = TRANSACTION_PROVIDER_UPDATE_REVOKE -> revoke_step Hash B nH l tx = Ok (inr l') -> edit nH txs l l'.
Proof.
  intros Hi Hin Hv Ht H. unfold revoke_step in H. destruct (GetTxPayload (unser_ProUpRev B) _) as [p|] eqn:Hp; [|done].
  destruct (GetMN l _) as [d|] eqn:Hd; [|done]. apply result_bind_Ok in H as (l2 & Ha & [= <-]). apply (edit_change nH txs l (rev_proTxHash p) d (revoke_state nH p (pdmnState d)) l2 Hd); [|done].
  apply (change_revoke nH txs d tx p); try done. by destruct (wf_mn _ _ l (proj1 Hi) _ _ Hd) as [-> _].
Qed.

Lemma commitment_books prev g l tx l' g' : inv l -> commitment_step Hash SHA256 B order V prev g l tx = Ok (inr l', g') -> rtc book l l'.
Proof.
  intros Hi H. unfold commitment_step in H. destruct (GetTxPayload (unser_qcPayload B) _) as [qc|]; [|done]. destruct (commitment_IsNull B _); [by injection H as <- _|].
  apply result_bind_Ok in H as (params & _ & H). apply result_bind_Ok in H as ([q|] & _ & H); [|done]. destruct (negb _); [done|].
  apply result_bind_Ok in H as ([l1 g1] & H1 & [= <- _]). unfold HandleQuorumCommitment in H1. apply result_bind_Ok in H1 as ([ms g2] & _ & H1). apply result_bind_Ok in H1 as (l2 & H2 & [= <- _]).
  by eapply members_books.
Qed.

(** The counter grows by at most one with each transaction. *)
Lemma edits_count nH txs l l' : inv l -> edit nH txs l l' -> nTotalRegisteredCount l <= nTotalRegisteredCount l' <= nTotalRegisteredCount l + 1.
Proof. intros Hi He. destruct (edit_effect nH txs l l' Hi He) as [_ []]; lia. Qed.

Lemma tx_step_edits nH txs prev g l tx l' g' : inv l -> tx ∈ txs -> nTotalRegisteredCount l + 1 < 2 ^ 32 -> tx_step Hash SHA256 B order V prev nH g l tx = Ok (inr l', g') ->
  rtc (edit nH txs) l l' /\ nTotalRegisteredCount l' <= nTotalRegisteredCount l + 1.
Proof.
  intros Hi Hin Hn H. unfold tx_step, lift_step in H.
  assert (forall r : result (reject + CDeterministicMNList), (x ← r; Ok (x, g)) = Ok (inr l', g') -> (r = Ok (inr l') -> edit nH txs l l') -> rtc (edit nH txs) l l' /\ nTotalRegisteredCount l' <= nTotalRegisteredCount l + 1) as Hone.
  { intros r Hr He. apply result_bind_Ok in Hr as (x & Hr & [= -> _]). specialize (He Hr). split; [by apply rtc_once|]. pose proof (edits_count nH txs l l' Hi He). lia. }
  destruct (Z.eqb_spec (tx_nVersion tx) 3) as [Hv|Hv]; cbn [negb] in H; [|injection H as <- _; split; [done|lia]].
  destruct (Z.eqb_spec (tx_nType tx) TRANSACTION_PROVIDER_REGISTER); [eapply Hone; [exact H|]; by apply register_edits|].
  destruct (Z.eqb_spec (tx_nType tx) TRANSACTION_PROVIDER_UPDATE_SERVICE); [eapply Hone; [exact H|]; by apply update_service_edits|].
  destruct (Z.eqb_spec (tx_nType tx) TRANSACTION_PROVIDER_UPDATE_REGISTRAR); [eapply Hone; [exact H|]; by apply update_registrar_edits|].
  destruct (Z.eqb_spec (tx_nType tx) TRANSACTION_PROVIDER_UPDATE_REVOKE); [eapply Hone; [exact H|]; by apply revoke_edits|].
  destruct (tx_nType tx =? TRANSACTION_QUORUM_COMMITMENT); [|injection H as <- _; split; [done|lia]]. apply (commitment_books prev g l tx l' g' Hi) in H.
  split; [by apply book_edits|]. destruct (book_count l l' Hi H) as [_ ->]. lia.
Qed.

Lemma txs_loop_edits nH txs prev sub g l l' g' : inv l -> (forall tx, tx ∈ sub -> tx ∈ txs) -> nTotalRegisteredCount l + Z.of_nat (length sub) < 2 ^ 32 ->
  txs_loop Hash SHA256 B order V prev nH g l sub = Ok (inr l', g') -> rtc (edit nH txs) l l'.
Proof.
  revert g l. induction sub as [|tx sub IH]; intros g l Hi Hin Hn H; cbn [txs_loop length] in *; [by injection H as <- _|]. apply result_bind_Ok in H as ([[e|l1] g1] & H1 & H); [done|].
  destruct (tx_step_edits nH txs prev g l tx l1 g1 Hi) as [Hr Hc]; [apply Hin; by left|lia|done|]. transitivity l1; [done|]. apply (IH g1 l1); [by eapply edits_inv|intros; apply Hin; by right|lia|done].
Qed.

Lemma spend_edits nH txs ins l l' : inv l -> (forall i, i ∈ ins -> exists tx, tx ∈ txs /\ i ∈ vin tx) -> foldM (spend_step Hash B) l ins = Ok l' -> rtc (edit nH txs) l l'.
Proof.
  intros Hi Hin. apply foldM_rtc; [intros; by eapply edits_inv| |done]. intros l1 i l2 Hii Hi1 H. unfold spend_step in H. destruct (GetMNByCollateral Hash l1 (prevout i)) as [d|] eqn:Hd; [|by injection H as <-].
  destruct (bool_decide _) eqn:Ec; [|by injection H as <-]. apply bool_decide_eq_true in Ec. destruct (Hin i Hii) as (tx & Htx & Hitx). apply rtc_once.
  apply (edit_spend nH txs l1 tx i d); [done..|by apply (GetUniquePropertyMN_inv Hash B l1 _ d (proj1 Hi1) Hd)|done|done].
Qed.

(** Building the list of a block is a sequence of edits of the list before. *)
Lemma build_edits g vtx prev idx old g0 l' g' : me_index V !! prev = Some idx -> GetListForBlock Hash B V g prev = Ok (old, g0) -> inv old ->
  nTotalRegisteredCount old + Z.of_nat (length vtx) < 2 ^ 32 -> BuildNewListFromBlock Hash SHA256 B order V g vtx prev = Ok (inr l', g') ->
  rtc (edit (nHeight idx + 1) (drop 1 vtx)) (SetHeight (SetBlockHash old uint256_null) (nHeight idx + 1)) l'.
Proof.
  intros Hidx Hold Hi Hn H. unfold BuildNewListFromBlock in H. rewrite Hidx in H. cbn [deref mbind result_bind] in H. rewrite Hold in H. cbn [mbind result_bind] in H.
  set (nH := nHeight idx + 1) in *. set (txs := drop 1 vtx) in *. set (l0 := SetHeight (SetBlockHash old uint256_null) nH) in *.
  assert (inv l0) as Hi0 by (destruct Hi as ([W1 W2 W3] & W4 & W5); split; [by split|by split]).
  apply result_bind_Ok in H as (l1 & H1 & H). assert (rtc book l0 l1) as R1.
  { apply (confirm_books (nHeight idx) prev (AllMNs order old) l0 l1 Hi0); [|intros d Hd|exact H1].
    - by apply (NoDup_AllMNs Hash B order order_perm old), Hi.
    - by apply (elem_AllMNs Hash B order order_perm old d (proj1 Hi)). }
  destruct (book_count l0 l1 Hi0 R1) as [Hi1 Hn1]. apply result_bind_Ok in H as (l2 & H2 & H). assert (rtc book l1 l2) as R2.
  { destruct (if me_spork21 V then _ else _); [|by injection H2 as <-]. unfold DecreasePoSePenalties in H2.
    apply (foldM_rtc book _ _ l1 l2) in H2; [done|intros; by eapply book_count| |done]. intros. by eapply decrease_books. }
  destruct (book_count l1 l2 Hi1 R2) as [Hi2 Hn2]. apply result_bind_Ok in H as ([[e|l3] g3] & H3 & H); [done|]. assert (rtc (edit nH txs) l2 l3) as R3.
  { apply (txs_loop_edits nH txs prev txs g0 l2 l3 g3 Hi2); [done| |done]. rewrite Hn2, Hn1. unfold txs. rewrite length_drop. change (nTotalRegisteredCount l0) with (nTotalRegisteredCount old). lia. }
  apply result_bind_Ok in H as (l4 & H4 & H). assert (rtc (edit nH txs) l3 l4) as R4.
  { apply (spend_edits nH txs (txs ≫= vin) l3 l4); [by eapply edits_inv| |done]. intros i (tx & Hi' & Htx)%list_elem_of_bind. eauto. }
  apply result_bind_Ok in H as (l5 & H5 & [= <- _]). assert (rtc book l4 l5) as R5.
  { unfold pay_payee in H5. destruct (GetMNPayee _ _ old) as [pd|]; [|by injection H5 as <-]. destruct (GetMN l4 (proTxHash pd)) as [d|] eqn:Hd; [|by injection H5 as <-].
    refine (book_once l4 (proTxHash pd) d _ l5 Hd _ H5); by split_and!. }
  transitivity l1; [by apply book_edits|]. transitivity l2; [by apply book_edits|]. transitivity l3; [done|]. transitivity l4; [done|by apply book_edits].
Qed.

(** ** Who can change a smartnode *)

Context (Hash160 : list Z -> list Z) (X : ProTxParams) (E : EvoEnv).
Context (CheckCbTx CheckLLMQCommitment : CTransaction -> result (option reject)).
Abbreviation CheckSpecialTx := (CheckSpecialTx Hash Hash160 B X E CheckCbTx CheckLLMQCommitment).

(** The transaction is about the smartnode and signed with the key of its owner, or of its
    operator. *)
Definition by_owner (d : CDeterministicMN) (tx : CTransaction) : Prop :=
  exists p, GetTxPayload (unser_ProUpReg B) (vExtraPayload tx) = Some p /\ upreg_proTxHash p = proTxHash d /\
    VerifyHash Hash160 X (Hash (ser_ProUpReg true p)) (keyIDOwner (pdmnState d)) (upreg_vchSig p) = true.
Definition by_operator_service (d : CDeterministicMN) (tx : CTransaction) : Prop :=
  exists p, GetTxPayload (unser_ProUpServ B) (vExtraPayload tx) = Some p /\ serv_proTxHash p = proTxHash d /\
    bls_verify B (pubKeyOperator (pdmnState d)) (Hash (ser_ProUpServ true p)) (serv_sig p) = true.
Definition by_operator_revoke (d : CDeterministicMN) (tx : CTransaction) : Prop :=
  exists p, GetTxPayload (unser_ProUpRev B) (vExtraPayload tx) = Some p /\ rev_proTxHash p = proTxHash d /\
    bls_verify B (pubKeyOperator (pdmnState d)) (Hash (ser_ProUpRev true p)) (rev_sig p) = true.

(** What the owner decides, and what the operator decides. *)
Definition registrar_data (s : CDeterministicMNState) : list Z * list Z * CScript := (pubKeyOperator s, keyIDVoting s, scriptPayout s).
Definition service_data (s : CDeterministicMNState) : list Z * CScript := (addr s, scriptOperatorPayout s).

Definition change_allowed (txs : list CTransaction) (d d' : CDeterministicMN) : Prop :=
  internalId d' = internalId d /\ collateralOutpoint d' = collateralOutpoint d /\ Smartnodes.nOperatorReward d' = Smartnodes.nOperatorReward d /\
  keyIDOwner (pdmnState d') = keyIDOwner (pdmnState d) /\
  (registrar_data (pdmnState d') <> registrar_data (pdmnState d) -> exists tx, tx ∈ txs /\ (by_owner d tx \/ by_operator_revoke d tx)) /\
  (service_data (pdmnState d') <> service_data (pdmnState d) -> exists tx, tx ∈ txs /\ (by_owner d tx \/ by_operator_service d tx \/ by_operator_revoke d tx)).

Definition registration (txs : list CTransaction) (h : uint256) : Prop := exists tx, tx ∈ txs /\ tx_nType tx = TRANSACTION_PROVIDER_REGISTER /\ GetTxHash Hash tx = h.

Lemma change_allowed_refl txs d : change_allowed txs d d.
Proof. by split_and!. Qed.

Lemma service_keeps nH p s : registrar_data (serv_state B nH p s) = registrar_data s.
Proof. unfold serv_state. by destruct (_ && _). Qed.

Lemma special_dispatch tx old : tx_nVersion tx = 3 -> CheckSpecialTx tx (Some old) = Ok None ->
  (tx_nType tx = TRANSACTION_PROVIDER_UPDATE_SERVICE -> CheckProUpServTx Hash B X tx (Some old) = Ok None) /\
  (tx_nType tx = TRANSACTION_PROVIDER_UPDATE_REGISTRAR -> CheckProUpRegTx Hash Hash160 B X E tx (Some old) = Ok None) /\
  (tx_nType tx = TRANSACTION_PROVIDER_UPDATE_REVOKE -> CheckProUpRevTx Hash B tx (Some old) = Ok None) /\
  (tx_nType tx = TRANSACTION_PROVIDER_REGISTER -> CheckProRegTx Hash Hash160 B X E tx (Some old) = Ok None).
Proof.
  intros Hv H. unfold ProTxCheck.CheckSpecialTx in H. rewrite Hv in H. change (negb (3 =? 3)) with false in H. cbn [orb] in H.
  split_and!; intros Ht; rewrite Ht in H; cbn in H; by destruct (px_DIP0003Enabled X).
Qed.

(** One edit of a smartnode that was in the list before the block. *)
Lemma change_stays_allowed nH txs old d d' s : (forall tx, tx ∈ txs -> CheckSpecialTx tx (Some old) = Ok None) -> mnMap old !! proTxHash d = Some d -> proTxHash d' = proTxHash d ->
  change_allowed txs d d' -> change nH txs d' s -> change_allowed txs d (with_state d' s).
Proof.
  intros Hchk Hd Eh (H1 & H2 & H3 & H4 & H5 & H6) Hc. unfold change_allowed. cbn [with_state internalId collateralOutpoint Smartnodes.nOperatorReward pdmnState].
  destruct Hc as [s Hb|tx p Hin Hv Ht Hp Eq|tx p Hin Hv Ht Hp Eq|tx p Hin Hv Ht Hp Eq].
  - destruct Hb as (_ & _ & _ & Eo & Ep & Ev & Ea & Es & Eos). unfold registrar_data, service_data in *. rewrite Eo, Ep, Ev, Ea, Es, Eos. by split_and!.
  - destruct (special_dispatch tx old Hv (Hchk tx Hin)) as (Hs & _). destruct (CheckProUpServTx_none _ _ _ _ _ (Hs Ht)) as (p' & dm & Hp' & Hdm & _ & _ & Hsig).
    assert (p' = p) as -> by congruence. unfold GetMN in Hdm. assert (dm = d) as -> by congruence.
    destruct (serv_state_keys nH p (pdmnState d')) as [-> _]. rewrite service_keeps. split_and!; [done..|]. intros _. exists tx. split; [done|]. right. left. exists p. split_and!; congruence.
  - destruct (special_dispatch tx old Hv (Hchk tx Hin)) as (_ & Hs & _). destruct (CheckProUpRegTx_none _ _ _ _ _ _ _ (Hs Ht)) as (p' & dm & Hp' & Hdm & _ & _ & _ & Hsig).
    assert (p' = p) as -> by congruence. unfold GetMN in Hdm. assert (dm = d) as -> by congruence.
    assert (exists tx, tx ∈ txs /\ by_owner d tx) as (tx' & Hin' & Hby) by (exists tx; split; [done|]; exists p; split_and!; congruence).
    destruct (registrar_state_keys nH p (pdmnState d')) as [-> _]. split_and!; [done..|intros _; exists tx'; auto|intros _; exists tx'; auto].
  - destruct (special_dispatch tx old Hv (Hchk tx Hin)) as (_ & _ & Hs & _). destruct (CheckProUpRevTx_none _ _ _ _ (Hs Ht)) as (p' & dm & Hp' & Hdm & _ & Hsig).
    assert (p' = p) as -> by congruence. unfold GetMN in Hdm. assert (dm = d) as -> by congruence.
    assert (exists tx, tx ∈ txs /\ by_operator_revoke d tx) as (tx' & Hin' & Hby) by (exists tx; split; [done|]; exists p; split_and!; congruence).
    destruct (revoke_state_keys nH p (pdmnState d')) as [-> _]. split_and!; [done..|intros _; exists tx'; auto|intros _; exists tx'; auto].
Qed.

Definition allowed_list (txs : list CTransaction) (old l : CDeterministicMNList) : Prop :=
  forall h d', mnMap l !! h = Some d' -> registration txs h \/ exists d, mnMap old !! h = Some d /\ change_allowed txs d d'.

Lemma edits_allowed nH txs old l l' : (forall tx, tx ∈ txs -> CheckSpecialTx tx (Some old) = Ok None) -> inv old -> inv l -> allowed_list txs old l -> rtc (edit nH txs) l l' -> allowed_list txs old l'.
Proof.
  intros Hchk Ho Hi Ha Hr. induction Hr as [|l l1 l' He _ IH]; [done|]. destruct (edit_effect nH txs l l1 Hi He) as [Hi1 Heff]. apply IH; [done|]. clear IH.
  destruct Heff as [h d s Hd Eh Hc Hm _ _|tx p m Hin _ Ht Hp Em _ _ Hm _|tx i d Hin _ Hd _ Hm _]; intros h' d'; rewrite Hm.
  - rewrite lookup_insert_Some. intros [[<- <-]|[_ Hd']]; [|by apply Ha]. destruct (Ha h d Hd) as [Hreg|(d0 & Hd0 & Hall)]; [by left|]. right. exists d0. split; [done|].
    destruct (wf_mn _ _ old (proj1 Ho) _ _ Hd0) as [E0 _]. apply (change_stays_allowed nH txs old d0 d s Hchk); [by rewrite E0|congruence|done|done].
  - rewrite lookup_insert_Some. intros [[<- <-]|[_ Hd']]; [left; by exists tx|]. apply Ha. rewrite Em in Hd'. destruct (GetMNByCollateral Hash l _); [|done]. by apply lookup_delete_Some in Hd' as [_ ?].
  - intros [_ Hd']%lookup_delete_Some. by apply Ha.
Qed.

(** The values that are unique to the smartnode [d] while the block is processed: those it
    has, and those that an update in the block gives it. *)
Definition own_value (txs : list CTransaction) (d : CDeterministicMN) (v : list Z) : Prop :=
  v ∈ (prop_vals d).*1 \/
  (exists tx p, tx ∈ txs /\ GetTxPayload (unser_ProUpServ B) (vExtraPayload tx) = Some p /\ serv_proTxHash p = proTxHash d /\ v = serv_addr p) \/
  (exists tx p, tx ∈ txs /\ GetTxPayload (unser_ProUpReg B) (vExtraPayload tx) = Some p /\ upreg_proTxHash p = proTxHash d /\ v = upreg_pubKeyOperator p).

(** Why a smartnode can disappear: a transaction spends its collateral or registers a
    smartnode with the same collateral; or with a collateral whose hash collides with
    that of one of its values. *)
Definition registers_collateral (txs : list CTransaction) (o : COutPoint) : Prop :=
  exists tx p, tx ∈ txs /\ tx_nType tx = TRANSACTION_PROVIDER_REGISTER /\ GetTxPayload (unser_ProReg B) (vExtraPayload tx) = Some p /\ collateral_of Hash tx p = o.
Definition removed_by (txs : list CTransaction) (d : CDeterministicMN) : Prop :=
  (exists tx i, tx ∈ txs /\ i ∈ vin tx /\ prevout i = collateralOutpoint d) \/
  registers_collateral txs (collateralOutpoint d) \/
  (exists o v, registers_collateral txs o /\ o <> collateralOutpoint d /\ own_value txs d v /\ Hash (ser o) = Hash v).

(** [d'] is what became of [d] so far. *)
Definition same_mn (txs : list CTransaction) (d d' : CDeterministicMN) : Prop :=
  collateralOutpoint d' = collateralOutpoint d /\ forall v n, (v, n) ∈ prop_vals d' -> v = n \/ own_value txs d v.

Definition kept_list (txs : list CTransaction) (old l : CDeterministicMNList) : Prop :=
  forall h d, mnMap old !! h = Some d -> removed_by txs d \/ exists d', mnMap l !! h = Some d' /\ same_mn txs d d'.

Lemma same_mn_refl txs d : same_mn txs d d.
Proof. split; [done|]. intros v n Hv. right. left. apply list_elem_of_fmap. by exists (v, n). Qed.

Lemma prop_inv d x : x ∈ props Hash d -> exists v n, (v, n) ∈ prop_vals d /\ v <> n /\ x = Hash v.
Proof.
  unfold props. generalize (prop_vals d). intros vs. induction vs as [|[v n] vs IH]; [by intros ?%elem_of_nil|]. rewrite opt_props_cons, elem_of_app. intros [Hx|Hx].
  - unfold opt_prop in Hx. case_bool_decide; [by apply elem_of_nil in Hx|]. apply list_elem_of_singleton in Hx as ->. exists v, n. split; [by left|done].
  - destruct (IH Hx) as (v' & n' & Hin & Hr). exists v', n'. split; [by right|done].
Qed.

Lemma ban_addr st nH : addr (BanIfNotBanned st nH) = addr st.
Proof. unfold BanIfNotBanned. by destruct (_ =? _). Qed.

(** A change keeps the values within those of the smartnode and of its updates. *)
Lemma same_mn_change nH txs d d' s : proTxHash d' = proTxHash d -> same_mn txs d d' -> change nH txs d' s -> same_mn txs d (with_state d' s).
Proof.
  intros Eh [Ec Hv] Hc. split; [done|]. destruct (change_keys nH txs d' s Hc) as [Eo _].
  assert (forall v n, (v, n) = (addr s, CService_null) \/ (v, n) = (pubKeyOperator s, bls_key_null) -> v = n \/ own_value txs d v) as Hnew.
  { assert (addr (pdmnState d') = CService_null \/ own_value txs d (addr (pdmnState d'))) as Ha by (apply Hv; unfold prop_vals; set_solver).
    assert (pubKeyOperator (pdmnState d') = bls_key_null \/ own_value txs d (pubKeyOperator (pdmnState d'))) as Hp by (apply Hv; unfold prop_vals; set_solver).
    intros v n Hvn. destruct Hc as [s Hb|tx p Hin _ _ Htp Eq|tx p Hin _ _ Htp Eq|tx p Hin _ _ Htp Eq].
    - destruct Hb as (_ & _ & _ & _ & Ep & _ & Ea & _). destruct Hvn as [[= -> ->]|[= -> ->]]; [by rewrite Ea|by rewrite Ep].
    - destruct (serv_state_keys nH p (pdmnState d')) as [_ Ep]. destruct Hvn as [[= -> ->]|[= -> ->]]; [|by rewrite Ep].
      right. right. left. exists tx, p. split_and!; [done|done|congruence|]. unfold serv_state. by destruct (_ && _).
    - destruct Hvn as [[= -> ->]|[= -> ->]].
      + unfold registrar_state. cbn [set_registrar addr]. destruct (negb _); [|done]. left. by rewrite ban_addr.
      + right. right. right. exists tx, p. split_and!; [done|done|congruence|done].
    - destruct (revoke_state_keys nH p (pdmnState d')) as [_ Ep]. left. destruct Hvn as [[= -> ->]|[= -> ->]]; [|done]. unfold revoke_state. cbn [set_reason addr]. by rewrite ban_addr. }
  intros v n Hin. unfold prop_vals in Hin. cbn [with_state pdmnState collateralOutpoint] in Hin. rewrite Eo in Hin.
  rewrite !elem_of_cons in Hin. destruct Hin as [Hin|[Hin|[Hin|[Hin|Hin%elem_of_nil]]]]; [|auto| |auto|done]; apply Hv; unfold prop_vals; rewrite !elem_of_cons; auto.
Qed.

Lemma edits_keep nH txs old l l' : inv old -> inv l -> kept_list txs old l -> rtc (edit nH txs) l l' -> kept_list txs old l'.
Proof.
  intros Ho Hi Ha Hr. induction Hr as [|l l1 l' He _ IH]; [done|]. destruct (edit_effect nH txs l l1 Hi He) as [Hi1 Heff]. apply IH; [done|]. clear IH.
  intros h d0 Hd0. destruct (Ha h d0 Hd0) as [Hg|(d' & Hd' & Hs)]; [by left|]. destruct (wf_mn _ _ old (proj1 Ho) _ _ Hd0) as [E0 _]. destruct (wf_mn _ _ l (proj1 Hi) _ _ Hd') as [E' _].
  destruct Heff as [h1 d s Hd Eh Hc Hm _ _|tx p m Hin _ Ht Hp Em Hnone _ Hm _|tx i d Hin Hii Hd Hc Hm _]; rewrite Hm.
  - right. destruct (decide (h1 = h)) as [->|Hne]; [|exists d'; by rewrite lookup_insert_ne]. exists (with_state d s). rewrite lookup_insert_eq. split; [done|].
    assert (d = d') as -> by congruence. apply (same_mn_change nH); [congruence|done..].
  - assert (removed_by txs d0 \/ m !! h = Some d') as [Hg|Hmh]; [|by left|].
    + rewrite Em. destruct (GetMNByCollateral Hash l (collateral_of Hash tx p)) as [q|] eqn:Er; [|by right]. destruct (decide (proTxHash q = h)) as [Eq|Hne]; [|right; by rewrite lookup_delete_ne].
      left. right. apply (GetUniquePropertyMN_inv Hash B) in Er as [Hrd Hx]; [|apply Hi]. rewrite Eq in Hrd. assert (q = d') as -> by congruence.
      assert (registers_collateral txs (collateral_of Hash tx p)) as Hreg by (exists tx, p; by split_and!).
      destruct (decide (collateral_of Hash tx p = collateralOutpoint d0)) as [<-|Hne]; [by left|]. right.
      apply prop_inv in Hx as (v & n & Hv & Hvn & Ev). exists (collateral_of Hash tx p), v. split_and!; [done|done| |done]. by destruct (proj2 Hs v n Hv).
    + right. exists d'. rewrite lookup_insert_ne; [done|]. intros Eq. rewrite Eq in Hnone. congruence.
  - destruct (decide (proTxHash d = h)) as [Eq|Hne]; [|right; exists d'; by rewrite lookup_delete_ne]. left. left. rewrite Eq in Hd. assert (d = d') as -> by congruence.
    exists tx, i. split_and!; [done|done|]. destruct Hs. congruence.
Qed.

(** C12: A block changes a smartnode only with the signature of who is entitled to it.
    When every special transaction of a block passed [CheckSpecialTx] against the consistent
    list of the block before and the new list is built, the new list is consistent, and each
    smartnode in it was registered by the block or was there before; then it has the same
    id, collateral, reward and owner, its operator, voting key and payout changed only if
    the block has an update signed by the owner or a revocation signed by the operator,
    and its address and operator payout only if the block has a transaction for it that
    is signed by the owner or the operator.  A smartnode of the list before is only
    missing in the new one if the block spends its collateral or has a registration for
    the same collateral, or one for another collateral whose hash is also that of a value
    that is unique to the smartnode (its collateral, address, owner or operator, before
    the block or after an update in it). *)
Theorem smartnode_changes_authorized g vtx prev idx old g0 l' g' :
  me_index V !! prev = Some idx -> GetListForBlock Hash B V g prev = Ok (old, g0) -> inv old -> nTotalRegisteredCount old + Z.of_nat (length vtx) < 2 ^ 32 ->
  (forall tx, tx ∈ drop 1 vtx -> CheckSpecialTx tx (Some old) = Ok None) ->
  BuildNewListFromBlock Hash SHA256 B order V g vtx prev = Ok (inr l', g') ->
  inv l' /\ allowed_list (drop 1 vtx) old l' /\ kept_list (drop 1 vtx) old l'.
Proof.
  intros Hidx Hold Hi Hn Hchk Hb. pose proof (build_edits g vtx prev idx old g0 l' g' Hidx Hold Hi Hn Hb) as Hr.
  assert (inv (SetHeight (SetBlockHash old uint256_null) (nHeight idx + 1))) as Hi0 by (destruct Hi as ([W1 W2 W3] & W4 & W5); split; [by split|by split]).
  split; [by eapply edits_inv|]. split.
  - eapply (edits_allowed _ _ old _ l' Hchk Hi Hi0); [|exact Hr]. intros h d Hd. right. exists d. split; [exact Hd|apply change_allowed_refl].
  - eapply (edits_keep _ _ old _ l' Hi Hi0); [|exact Hr]. intros h d Hd. right. exists d. split; [exact Hd|apply same_mn_refl].
Qed.

(** ** A key twice in a block *)

Lemma registrar_step_err nH l tx p d : wf l -> GetTxPayload (unser_ProUpReg B) (vExtraPayload tx) = Some p -> mnMap l !! upreg_proTxHash p = Some d ->
  (exists q d', q <> upreg_proTxHash p /\ mnMap l !! q = Some d' /\ pubKeyOperator (pdmnState d') = upreg_pubKeyOperator p) -> bls_key B (upreg_pubKeyOperator p) = true ->
  update_registrar_step Hash B nH l tx = Err AssertFail.
Proof.
  intros Hwf Hp Hd (q & d' & Hq & Hd' & Ek) Hk. unfold update_registrar_step, GetMN. rewrite Hp, Hd. destruct (UpdateMN_hash Hash l _ _) as [l1|e] eqn:Hu; cbn [mbind result_bind].
  2:{ by rewrite (UpdateMN_err Hash l _ d _ e Hd Hu). }
  exfalso. destruct (wf_mn _ _ l Hwf _ _ Hd) as [_ Hok]. destruct (registrar_state_keys nH p (pdmnState d)) as [Eo Ep].
  destruct (UpdateMN_inv Hash B l _ d _ l1 Hwf Hd (mn_ok_state d (registrar_state nH p (pdmnState d)) Hok Eo ltac:(rewrite Ep; auto)) Hu) as (Hf & _).
  assert (upreg_pubKeyOperator p <> bls_key_null) as Hne by (intros En; rewrite En in Hk; congruence).
  apply (Hf q d' (Hash (upreg_pubKeyOperator p)) Hq Hd').
  - apply (prop_elem Hash _ _ bls_key_null); [|done]. unfold prop_vals. cbn [with_state pdmnState]. rewrite Ep. do 3 right. by left.
  - apply (prop_elem Hash _ _ bls_key_null); [|done]. unfold prop_vals. rewrite Ek. do 3 right. by left.
Qed.

(** Bookkeeping leaves the keys as they are. *)
Lemma book_keys l l' h d : inv l -> rtc book l l' -> mnMap l !! h = Some d -> exists d', mnMap l' !! h = Some d'.
Proof.
  intros Hi Hr. revert d. induction Hr as [|l l1 l' (h1 & d1 & s & Hd & Hb & Hu) _ IH]; intros d Hh; [by exists d|]. destruct Hb as (_ & _ & _ & Eo & Ep & _).
  destruct (update_inv l h1 d1 s l1 Hi Hd Eo (or_introl Ep) Hu) as (Hi1 & Hm & _). destruct (decide (h1 = h)) as [->|Hne].
  - apply (IH Hi1 (with_state d1 s)). by rewrite Hm, lookup_insert_eq.
  - apply (IH Hi1 d). by rewrite Hm, lookup_insert_ne.
Qed.

Lemma UpdateMN_hash_err l h s e : UpdateMN_hash Hash l h s = Err e -> e = AssertFail.
Proof. destruct (mnMap l !! h) as [d|] eqn:Hd; [by apply (UpdateMN_err Hash l h d)|]. unfold UpdateMN_hash. rewrite Hd. by intros [= <-]. Qed.

Lemma foldM_err {A S} (f : S -> A -> result S) xs s e : (forall s x e, f s x = Err e -> e = AssertFail) -> foldM f s xs = Err e -> e = AssertFail.
Proof.
  intros Hf. revert s. induction xs as [|x xs IH]; intros s; cbn [foldM]; [done|]. intros [H|(s' & _ & H)]%bind_err; [by eapply Hf|by eapply IH].
Qed.

(** The list when the first transaction is looked at, or the crash before. *)
Lemma build_before_txs g vtx prev idx old g0 : me_index V !! prev = Some idx -> GetListForBlock Hash B V g prev = Ok (old, g0) -> inv old ->
  BuildNewListFromBlock Hash SHA256 B order V g vtx prev = Err AssertFail \/
  exists l2, rtc book (SetHeight (SetBlockHash old uint256_null) (nHeight idx + 1)) l2 /\ inv l2 /\
    (txs_loop Hash SHA256 B order V prev (nHeight idx + 1) g0 l2 (drop 1 vtx) = Err AssertFail -> BuildNewListFromBlock Hash SHA256 B order V g vtx prev = Err AssertFail).
Proof.
  intros Hidx Hold Hi. unfold BuildNewListFromBlock. rewrite Hidx. cbn [deref mbind result_bind]. rewrite Hold. cbn [mbind result_bind].
  set (nH := nHeight idx + 1) in *. set (l0 := SetHeight (SetBlockHash old uint256_null) nH) in *.
  assert (inv l0) as Hi0 by (destruct Hi as ([W1 W2 W3] & W4 & W5); split; [by split|by split]).
  destruct (foldM (confirm_step _ _ _ _ _) l0 _) as [l1|e] eqn:H1; cbn [mbind result_bind].
  2:{ left. f_equal. revert H1. apply foldM_err. intros s d e' H. unfold confirm_step in H. destruct (negb _); [done|]. destruct (_ <=? _); [by eapply UpdateMN_hash_err|done]. }
  assert (rtc book l0 l1) as R1.
  { apply (confirm_books (nHeight idx) prev (AllMNs order old) l0 l1 Hi0); [|intros d Hd|exact H1].
    - by apply (NoDup_AllMNs Hash B order order_perm old), Hi.
    - by apply (elem_AllMNs Hash B order order_perm old d (proj1 Hi)). }
  destruct (book_count l0 l1 Hi0 R1) as [Hi1 _].
  match goal with |- context [if ?c then DecreasePoSePenalties Hash order V l1 else Ok l1] => destruct (if c then DecreasePoSePenalties Hash order V l1 else Ok l1) as [l2|e] eqn:H2 end; cbn [mbind result_bind].
  2:{ left. f_equal. destruct (if me_spork21 V then _ else _); [|done]. revert H2. apply foldM_err. intros s h e' H. unfold PoSeDecrease in H. destruct (GetMN s h); [|by injection H].
      apply bind_err in H as [?%cassert_err|(u & _ & ?)]; [done|by eapply UpdateMN_hash_err]. }
  assert (rtc book l1 l2) as R2.
  { destruct (if me_spork21 V then _ else _); [|by injection H2 as <-]. unfold DecreasePoSePenalties in H2.
    apply (foldM_rtc book _ _ l1 l2) in H2; [done|intros; by eapply book_count| |done]. intros. by eapply decrease_books. }
  right. exists l2. split; [by transitivity l1|]. split; [by apply (book_count l1 l2)|]. intros H. by rewrite H.
Qed.

(** A registrar update that goes through. *)
Lemma registrar_step_ok nH l tx p d l1 : wf l -> GetTxPayload (unser_ProUpReg B) (vExtraPayload tx) = Some p -> mnMap l !! upreg_proTxHash p = Some d ->
  update_registrar_step Hash B nH l tx = Ok l1 -> exists l2, l1 = inr l2 /\ wf l2 /\ mnMap l2 = <[upreg_proTxHash p := with_state d (registrar_state nH p (pdmnState d))]> (mnMap l).
Proof.
  intros Hwf Hp Hd H. unfold update_registrar_step, GetMN in H. rewrite Hp, Hd in H. apply result_bind_Ok in H as (l2 & Hu & [= <-]). exists l2. split; [done|].
  destruct (wf_mn _ _ l Hwf _ _ Hd) as [_ Hok]. destruct (registrar_state_keys nH p (pdmnState d)) as [Eo Ep].
  assert (pubKeyOperator (registrar_state nH p (pdmnState d)) = bls_key_null \/ bls_key B (pubKeyOperator (registrar_state nH p (pdmnState d))) = true) as Hk by (rewrite Ep; by eapply ProUpReg_operator).
  destruct (UpdateMN_inv Hash B l _ d _ l2 Hwf Hd (mn_ok_state d (registrar_state nH p (pdmnState d)) Hok Eo (or_intror Hk)) Hu) as (_ & Hw1 & Hm1 & _). done.
Qed.

Lemma registrar_twice_err prev nH g l tx1 tx2 p1 p2 d1 d2 rest : wf l -> tx_nVersion tx1 = 3 -> tx_nVersion tx2 = 3 ->
  tx_nType tx1 = TRANSACTION_PROVIDER_UPDATE_REGISTRAR -> tx_nType tx2 = TRANSACTION_PROVIDER_UPDATE_REGISTRAR ->
  GetTxPayload (unser_ProUpReg B) (vExtraPayload tx1) = Some p1 -> GetTxPayload (unser_ProUpReg B) (vExtraPayload tx2) = Some p2 ->
  mnMap l !! upreg_proTxHash p1 = Some d1 -> mnMap l !! upreg_proTxHash p2 = Some d2 -> bls_key B (upreg_pubKeyOperator p2) = true ->
  upreg_proTxHash p1 <> upreg_proTxHash p2 -> upreg_pubKeyOperator p1 = upreg_pubKeyOperator p2 ->
  txs_loop Hash SHA256 B order V prev nH g l (tx1 :: tx2 :: rest) = Err AssertFail.
Proof.
  intros Hwf V1 V2 T1 T2 P1 P2 M1 M2 K2 Hne Ek.
  assert (forall l tx, tx_nVersion tx = 3 -> tx_nType tx = TRANSACTION_PROVIDER_UPDATE_REGISTRAR -> tx_step Hash SHA256 B order V prev nH g l tx = lift_step g (update_registrar_step Hash B nH l tx)) as Hstep.
  { intros l1 tx Hv Ht. unfold tx_step. by rewrite Hv, Ht. }
  cbn [txs_loop]. rewrite Hstep by done. unfold lift_step at 1. destruct (update_registrar_step Hash B nH l tx1) as [r|e] eqn:Hu; cbn [mbind result_bind].
  2:{ f_equal. unfold update_registrar_step, GetMN in Hu. rewrite P1, M1 in Hu. apply bind_err in Hu as [Hu|(l2 & _ & ?)]; [by eapply UpdateMN_hash_err|done]. }
  destruct (registrar_step_ok nH l tx1 p1 d1 r Hwf P1 M1 Hu) as (l1 & -> & Hw1 & Hm1).
  rewrite Hstep by done. rewrite (registrar_step_err nH l1 tx2 p2 d2 Hw1 P2); [done|rewrite Hm1, lookup_insert_ne; done| |done].
  exists (upreg_proTxHash p1), (with_state d1 (registrar_state nH p1 (pdmnState d1))). split; [done|]. rewrite Hm1, lookup_insert_eq. split; [done|]. cbn [with_state pdmnState].
  rewrite (proj2 (registrar_state_keys nH p1 (pdmnState d1))). done.
Qed.

(** C21: Two updates of the operator key in one block can stop every node.  The checks of
    the transactions look at the list before the block only, and
    [BuildNewListFromBlock] does not look for a duplicate in this case.  So when a block
    begins with registrar updates of two smartnodes that set the same operator key, each
    accepted by [CheckProUpRegTx] against the (consistent) list of the block before,
    [BuildNewListFromBlock] fails an assertion, whatever follows in the block. *)
Theorem duplicate_operator_key_crashes g prev idx old g0 coinbase tx1 tx2 p1 p2 rest :
  me_index V !! prev = Some idx -> GetListForBlock Hash B V g prev = Ok (old, g0) -> inv old ->
  tx_nVersion tx1 = 3 -> tx_nVersion tx2 = 3 ->
  CheckProUpRegTx Hash Hash160 B X E tx1 (Some old) = Ok None -> CheckProUpRegTx Hash Hash160 B X E tx2 (Some old) = Ok None ->
  GetTxPayload (unser_ProUpReg B) (vExtraPayload tx1) = Some p1 -> GetTxPayload (unser_ProUpReg B) (vExtraPayload tx2) = Some p2 ->
  upreg_proTxHash p1 <> upreg_proTxHash p2 -> upreg_pubKeyOperator p1 = upreg_pubKeyOperator p2 ->
  BuildNewListFromBlock Hash SHA256 B order V g (coinbase :: tx1 :: tx2 :: rest) prev = Err AssertFail.
Proof.
  intros Hidx Hold Hi V1 V2 C1 C2 P1 P2 Hne Ek. destruct (CheckProUpRegTx_none _ _ _ _ _ _ _ C1) as (q1 & d1 & Q1 & M1 & _). assert (q1 = p1) as -> by congruence.
  destruct (CheckProUpRegTx_none _ _ _ _ _ _ _ C2) as (q2 & d2 & Q2 & M2 & K2 & _). assert (q2 = p2) as -> by congruence.
  assert (forall tx, CheckProUpRegTx Hash Hash160 B X E tx (Some old) = Ok None -> tx_nType tx = TRANSACTION_PROVIDER_UPDATE_REGISTRAR) as Htype.
  { intros tx H. unfold CheckProUpRegTx, ProUpReg_pre in H. destruct (Z.eqb_spec (tx_nType tx) TRANSACTION_PROVIDER_UPDATE_REGISTRAR); done. }
  destruct (build_before_txs g (coinbase :: tx1 :: tx2 :: rest) prev idx old g0 Hidx Hold Hi) as [?|(l2 & Hr & Hi2 & Hb)]; [done|]. apply Hb. clear Hb. cbn [drop].
  set (l0 := SetHeight _ _) in Hr. assert (inv l0) as Hi0 by (destruct Hi as ([W1 W2 W3] & W4 & W5); split; [by split|by split]).
  destruct (book_keys l0 l2 (upreg_proTxHash p1) d1 Hi0 Hr M1) as (d1' & M1'). destruct (book_keys l0 l2 (upreg_proTxHash p2) d2 Hi0 Hr M2) as (d2' & M2').
  eapply (registrar_twice_err prev (nHeight idx + 1) g0 l2 tx1 tx2 p1 p2 d1' d2' rest); [apply Hi2|auto..].
Qed.
End Block.

(** ** Witnesses *)

Definition toy_prev : ptr := replicate 32 5.
Definition toy_order (m : gmap (list Z) CDeterministicMN) : list (list Z * CDeterministicMN) := map_to_list m.
Definition toy_penv : ManagerEnv := mkManagerEnv toy_evo {[ toy_prev := set_parent uint256_null 21 (new_index (mkHeader 1 uint256_null uint256_null 0 0 0 uint256_null)) ]} false 15 true true.
Definition toy_manager : Manager := mkManager {[ toy_prev := toy_list2 ]} ∅ ∅ MainLLMQs.
Definition toy_pay (k : Z) : CScript := [118; 169; 20] ++ replicate 20 k ++ [136; 172].
Definition toy_penv_coins : EvoEnv := mkEvo (fun _ => Some (mkCoin (txout (15000000 * COIN) (toy_pay 6)) false 5)) 200000 (nCollaterals (MainPayments [])).
Definition toy_px : ProTxParams := mkProTxParams "main" 10226 false main_prefixes true (fun _ sig => Some sig).
(** A registrar update of the smartnode [k] to the operator key [op], signed by the owner. *)
Definition toy_update (k op : Z) : CProUpRegTx :=
  mkProUpReg 1 (k :: replicate 31 0) 0 (1 :: op :: replicate 46 0) (replicate 20 4) (toy_pay 3) uint256_null (k :: replicate 19 1).
Definition toy_tx (k op : Z) : CTransaction := mkTx 3 TRANSACTION_PROVIDER_UPDATE_REGISTRAR [] [] 0 (ser_ProUpReg false (toy_update k op)).
Definition toy_coinbase : CTransaction := mkTx 1 0 [] [] 0 [].

Lemma inv_toy_list2 : inv toy_hash toy_bls toy_list2.
Proof.
  destruct toy_list2_spec as (Hw & Hm & Hn). split; [done|]. rewrite Hm, Hn, toy_map. split; [lia|]. intros h d. rewrite lookup_insert_Some, lookup_singleton_Some.
  intros [[_ <-]|[_ [_ <-]]]; cbn; lia.
Qed.

Lemma smartnode_changes_authorized_witness : exists l' g',
  BuildNewListFromBlock toy_hash toy_sha toy_bls toy_order toy_penv toy_manager [toy_coinbase; toy_tx 7 9] toy_prev = Ok (inr l', g') /\
  allowed_list toy_hash toy_bls (fun k => k) toy_px [toy_tx 7 9] toy_list2 l' /\ kept_list toy_hash toy_bls [toy_tx 7 9] toy_list2 l'.
Proof.
  destruct (BuildNewListFromBlock toy_hash toy_sha toy_bls toy_order toy_penv toy_manager [toy_coinbase; toy_tx 7 9] toy_prev) as [[[e|l'] g']|e] eqn:E; try (exfalso; revert E; by vm_compute).
  exists l', g'. split; [done|].
  refine (proj2 (smartnode_changes_authorized toy_hash toy_sha toy_bls toy_order toy_penv (fun m => reflexivity _) eq_refl (fun k => k) toy_px toy_penv_coins (fun _ => Ok None) (fun _ => Ok None)
    toy_manager [toy_coinbase; toy_tx 7 9] toy_prev _ toy_list2 _ l' g' eq_refl eq_refl inv_toy_list2 _ _ E)); [by vm_compute|].
  intros tx Htx. apply list_elem_of_singleton in Htx as ->. by vm_compute.
Defined.

Lemma duplicate_operator_key_crashes_witness :
  BuildNewListFromBlock toy_hash toy_sha toy_bls toy_order toy_penv toy_manager [toy_coinbase; toy_tx 7 9; toy_tx 8 9] toy_prev = Err AssertFail.
Proof.
  apply (duplicate_operator_key_crashes toy_hash toy_sha toy_bls toy_order toy_penv (fun m => reflexivity _) eq_refl (fun k => k) toy_px toy_penv_coins
    toy_manager toy_prev _ toy_list2 _ toy_coinbase (toy_tx 7 9) (toy_tx 8 9) (toy_update 7 9) (toy_update 8 9) [] eq_refl eq_refl inv_toy_list2); by vm_compute.
Defined.
