(* ===== verification/SmartnodeStore.v ===== *)
(** * The stored lists of smartnodes
    (theorems about GetListForBlock, ProcessBlock, UndoBlock and CleanupCache of
    CDeterministicMNManager, see SmartnodeManager)

    The database holds differences and some whole lists, the cache some lists.  The
    list of a block is specified from the database alone; reading it through the cache
    gives the same, and what a block stores gives back the list that was built for it. *)

From Stdlib Require Import ZArith Lia.
From stdpp Require Import base tactics numbers option list strings gmap relations.
From S2P Require Import Prelude ArithUint256 Compact Block Chain Pow Headers Serialize Transaction Rewards Script Coins BlockCheck Base58 ProTx Smartnodes SmartnodeDiff SmartnodePayee Quorum ProTxCheck SmartnodeManager SmartnodeBlock.

Open Scope Z_scope.

Section Store.
Context (Hash SHA256 : list Z -> uint256) (B : BLS).
Context (order : gmap (list Z) CDeterministicMN -> list (list Z * CDeterministicMN)).
Context (V : ManagerEnv).
Abbreviation GetListForBlock := (GetListForBlock Hash B V).
Abbreviation apply_diff := (apply_diff Hash B V).

(** ** The list of a block, from the database *)

Inductive list_at (g : Manager) : ptr -> CDeterministicMNList -> Prop :=
  | at_snapshot h l : db_list_snapshot g !! h = Some l -> list_at g h l
  | at_start h : db_list_snapshot g !! h = None -> db_list_diff g !! h = None -> list_at g h (list_new h (-1) 0)
  | at_diff h idx p diff l0 l : db_list_snapshot g !! h = None -> db_list_diff g !! h = Some diff -> me_index V !! h = Some idx -> pprev idx = Some p ->
      list_at g p l0 -> next_list Hash B l0 h (nHeight idx) diff = Ok l -> list_at g h l.

Lemma list_at_det g h l l' : list_at g h l -> list_at g h l' -> l = l'.
Proof.
  intros H. revert l'. induction H as [h l Hs|h Hs Hd|h idx p diff l0 l Hs Hd Hi Hp H0 IH Hn]; intros l' H'; inversion H'; simplify_eq; try done.
  match goal with H1 : list_at g p ?x |- _ => specialize (IH _ H1); subst x end. congruence.
Qed.

Definition cache_ok (g : Manager) : Prop := forall h l, mnListsCache g !! h = Some l -> list_at g h l.
Definition same_db (g g' : Manager) : Prop := db_list_diff g' = db_list_diff g /\ db_list_snapshot g' = db_list_snapshot g.

#[global] Instance same_db_preorder : PreOrder same_db.
Proof. split; [done|]. intros g1 g2 g3 [H1 H2] [H3 H4]. split; congruence. Qed.

Lemma list_at_db g g' h l : same_db g g' -> list_at g h l -> list_at g' h l.
Proof.
  intros [Ed Es] H. induction H as [h l Hs|h Hs Hd|h idx p diff l0 l Hs Hd Hi Hp H0 IH Hn]; [apply at_snapshot|apply at_start|apply (at_diff g' h idx p diff l0)]; congruence.
Qed.

Lemma same_db_sym g g' : same_db g g' -> same_db g' g.
Proof. by intros [H1 H2]. Qed.

Lemma cache_emplace_ok g h l : cache_ok g -> list_at g h l -> cache_ok (cache_emplace g h l) /\ same_db g (cache_emplace g h l).
Proof.
  intros Hc Hl. unfold cache_emplace. destruct (mnListsCache g !! h) eqn:E; [done|]. split; [|done]. intros h' l' H. cbn [set_cache mnListsCache] in H.
  apply (list_at_db g); [done|]. apply lookup_insert_Some in H as [[<- <-]|[_ H]]; [done|by apply Hc].
Qed.

Lemma cache_emplace_llmq g h l : mgr_llmq (cache_emplace g h l) = mgr_llmq g.
Proof. unfold cache_emplace. by destruct (mnListsCache g !! h). Qed.

(** ** Reading *)

Hypothesis links : index_ok (me_index V).

(** The walk back and the application of the differences, together. *)
Definition read (fuel : nat) (g : Manager) (h : ptr) (r : CDeterministicMNList * Manager) : Prop :=
  forall acc, exists snapshot diffs g1, find_list V fuel g (Some h) acc = Ok (snapshot, diffs ++ acc, g1) /\ foldM apply_diff (snapshot, g1) diffs = Ok r.

Lemma read_cached fuel g h l l' : cache_ok g -> list_at g h l -> mnListsCache g !! h = Some l' ->
  exists g', read fuel g h (l, g') /\ cache_ok g' /\ same_db g g' /\ mgr_llmq g' = mgr_llmq g.
Proof.
  intros Hc Hl Ec. rewrite (list_at_det g h l l' Hl (Hc h l' Ec)). exists g. split; [|done]. intros acc. exists l', [], g. split; [|done].
  destruct fuel; cbn [find_list deref mbind result_bind]; by rewrite Ec.
Qed.

Lemma read_list fuel g h idx l : cache_ok g -> list_at g h l -> me_index V !! h = Some idx -> nHeight idx < Z.of_nat fuel ->
  exists g', read fuel g h (l, g') /\ cache_ok g' /\ same_db g g' /\ mgr_llmq g' = mgr_llmq g.
Proof.
  intros Hc H. revert fuel idx. induction H as [h l Hs|h Hs Hd|h idx' p diff l0 l Hs Hd Hi Hp H0 IH Hn]; intros fuel idx Hidx Hfuel; unfold read.
  - destruct (mnListsCache g !! h) as [l'|] eqn:Ec; [by apply (read_cached fuel g h l l' Hc); [apply at_snapshot|]|]. exists (cache_emplace g h l). destruct (cache_emplace_ok g h l Hc ltac:(eauto using list_at)) as [Hc' Hdb]. split_and!; [|done..|by rewrite cache_emplace_llmq].
    intros acc. eexists l, [], _. split; [|done]. destruct fuel; cbn [find_list deref mbind result_bind]; by rewrite Ec, Hs.
  - destruct (mnListsCache g !! h) as [l'|] eqn:Ec; [by apply (read_cached fuel g h _ l' Hc); [apply at_start|]|]. exists (cache_emplace g h (list_new h (-1) 0)). destruct (cache_emplace_ok g h (list_new h (-1) 0) Hc ltac:(eauto using list_at)) as [Hc' Hdb]. split_and!; [|done..|by rewrite cache_emplace_llmq].
    intros acc. eexists _, [], _. split; [|done]. destruct fuel; cbn [find_list deref mbind result_bind]; by rewrite Ec, Hs, Hd.
  - assert (list_at g h l) as Hat by eauto using list_at. destruct (mnListsCache g !! h) as [l'|] eqn:Ec; [by apply (read_cached fuel g h l l' Hc)|]. assert (idx' = idx) as -> by congruence. destruct (links h idx Hidx) as (Hpos & Hl & _). unfold link_ok in Hl. rewrite Hp in Hl. destruct Hl as (pi & Hpi & Hh).
    destruct fuel as [|fuel]; [lia|]. destruct (IH fuel pi Hpi ltac:(lia)) as (g1 & Hr & Hc1 & Hdb & Hq).
    assert (list_at g1 h l) as Hl1 by (apply (list_at_db g); [done|done]). destruct (cache_emplace_ok g1 h l Hc1 Hl1) as [Hc2 Hdb2].
    exists (cache_emplace g1 h l). split_and!; [|done|by transitivity g1|by rewrite cache_emplace_llmq].
    intros acc. destruct (Hr ((h, diff) :: acc)) as (sn & diffs & g2 & Hf & Ha). exists sn, (diffs ++ [(h, diff)]), g2. split.
    + cbn [find_list deref mbind result_bind]. rewrite Ec, Hs, Hd, Hidx. cbn [deref mbind result_bind]. rewrite Hp, Hf. by rewrite <- app_assoc.
    + rewrite foldM_app, Ha. cbn [mbind result_bind foldM SmartnodeManager.apply_diff]. rewrite Hidx. cbn [deref mbind result_bind]. by rewrite Hn.
Qed.

Lemma GetListForBlock_at g h idx l : cache_ok g -> list_at g h l -> me_index V !! h = Some idx ->
  exists g', GetListForBlock g h = Ok (l, g') /\ cache_ok g' /\ same_db g g'.
Proof.
  intros Hc Hl Hi. destruct (links h idx Hi) as [Hpos _]. destruct (read_list (S (Z.to_nat (nHeight idx))) g h idx l Hc Hl Hi ltac:(lia)) as (g1 & Hr & Hc1 & Hdb & _).
  destruct (Hr []) as (sn & diffs & g2 & Hf & Ha). rewrite app_nil_r in Hf. unfold SmartnodeManager.GetListForBlock. rewrite Hi. cbn [deref mbind result_bind]. rewrite Hf. cbn [mbind result_bind]. rewrite Ha.
  cbn [mbind result_bind]. eexists. split; [done|]. split; [|done]. intros h' l' H. apply (list_at_db g1); [done|]. by apply Hc1.
Qed.

(** No difference is stored for a child of the block. *)
Definition no_child (g : Manager) (b : ptr) : Prop := forall c ci, me_index V !! c = Some ci -> pprev ci = Some b -> db_list_diff g !! c = None.

(** What a read leaves: the same database, a right cache, and no entry for a block that
    was not on the way. *)
Definition read_ok (g : Manager) (h : ptr) (r : CDeterministicMNList * Manager) : Prop :=
  list_at g h r.1 /\ cache_ok r.2 /\ same_db g r.2 /\ (forall b, mnListsCache g !! b = None -> h <> b -> no_child g b -> mnListsCache r.2 !! b = None).

Lemma read_ok_emplace g g1 h p l0 l : read_ok g p (l0, g1) -> list_at g h l -> (forall b, h <> b -> no_child g b -> p <> b) -> read_ok g h (l, cache_emplace g1 h l).
Proof.
  intros (_ & Hc & Hdb & Hb) Hl Hp. cbn [fst snd] in *. destruct (cache_emplace_ok g1 h l Hc (list_at_db g g1 h l Hdb Hl)) as [Hc' Hdb']. split_and!; [done..|by transitivity g1|]. cbn [snd].
  intros b Hnone Hne Hno. specialize (Hb b Hnone (Hp b Hne Hno) Hno). unfold cache_emplace. destruct (mnListsCache g1 !! h) eqn:Ec; [done|]. cbn [set_cache mnListsCache]. by rewrite lookup_insert_ne.
Qed.

Lemma find_sound fuel g h acc sn ds g1 : cache_ok g -> find_list V fuel g (Some h) acc = Ok (sn, ds, g1) ->
  exists pre, ds = pre ++ acc /\ forall r, foldM apply_diff (sn, g1) pre = Ok r -> read_ok g h r.
Proof.
  intros Hc. revert h acc. induction fuel as [|fuel IH]; intros h acc H; cbn [find_list deref mbind result_bind] in H.
  all: destruct (mnListsCache g !! h) as [l|] eqn:Ec; [injection H as <- <- <-; exists []; split; [done|]; intros r [= <-]; split_and!; auto; done|].
  all: destruct (db_list_snapshot g !! h) as [l|] eqn:Es; [injection H as <- <- <-; exists []; split; [done|]; intros r [= <-]|].
  1,3: assert (list_at g h l) as Hl by (by apply at_snapshot); destruct (cache_emplace_ok g h l Hc Hl) as [Hc' Hdb']; split_and!; [done..|];
    intros b Hb Hne _; unfold cache_emplace; rewrite Ec; cbn [snd set_cache mnListsCache]; by rewrite lookup_insert_ne.
  all: destruct (db_list_diff g !! h) as [diff|] eqn:Ed; [|injection H as <- <- <-; exists []; split; [done|]; intros r [= <-]].
  2,4: assert (list_at g h (list_new h (-1) 0)) as Hl by (by apply at_start); destruct (cache_emplace_ok g h _ Hc Hl) as [Hc' Hdb']; split_and!; [done..|];
    intros b Hb Hne _; unfold cache_emplace; rewrite Ec; cbn [snd set_cache mnListsCache]; by rewrite lookup_insert_ne.
  - done.
  - destruct (me_index V !! h) as [idx|] eqn:Hidx; [|done]. cbn [deref mbind result_bind] in H. destruct (pprev idx) as [p|] eqn:Hp; [|by destruct fuel].
    destruct (IH p ((h, diff) :: acc) H) as (pre & -> & Hr). exists (pre ++ [(h, diff)]). split; [by rewrite <- app_assoc|]. intros r Ha. rewrite foldM_app in Ha.
    apply result_bind_Ok in Ha as ([l0 g2] & H0 & Ha). cbn [foldM SmartnodeManager.apply_diff] in Ha. rewrite Hidx in Ha. cbn [deref mbind result_bind] in Ha.
    apply result_bind_Ok in Ha as (r' & Ha & [= <-]). apply result_bind_Ok in Ha as (l & Hn & [= <-]). specialize (Hr _ H0).
    apply (read_ok_emplace g g2 h p l0 l Hr); [apply (at_diff g h idx p diff l0 l); try done; apply Hr|]. intros b Hne Hno ->. specialize (Hno h idx Hidx Hp). congruence.
Qed.

Lemma GetListForBlock_sound g h r : cache_ok g -> GetListForBlock g h = Ok r -> read_ok g h r.
Proof.
  intros Hc H. unfold SmartnodeManager.GetListForBlock in H. apply result_bind_Ok in H as (idx & _ & H). apply result_bind_Ok in H as ([[sn ds] g1] & Hf & H).
  apply result_bind_Ok in H as ([l g2] & Ha & [= <-]). destruct (find_sound _ g h [] sn ds g1 Hc Hf) as (pre & -> & Hr). rewrite app_nil_r in Ha. destruct (Hr _ Ha) as (Hl & Hc2 & Hdb & Hb). cbn [fst snd] in *.
  split_and!; [done| |done|done]. intros h' l' Hh. apply (list_at_db g2); [done|by apply Hc2].
Qed.

(** C20: Reading the list of a block does not depend on the cache.  With an index whose
    links are right and a cache whose entries are lists of the database, [GetListForBlock]
    returns the list that the snapshots and differences of the database define whenever
    they define one, and nothing else; the walk back ends, the cache stays right and the
    database is not changed. *)
Theorem list_read_transparent g h idx : cache_ok g -> me_index V !! h = Some idx ->
  (forall l, list_at g h l -> exists g', GetListForBlock g h = Ok (l, g')) /\
  (forall l g', GetListForBlock g h = Ok (l, g') -> list_at g h l /\ cache_ok g' /\ same_db g g').
Proof.
  intros Hc Hi. split.
  - intros l Hl. destruct (GetListForBlock_at g h idx l Hc Hl Hi) as (g' & H & _). by exists g'.
  - intros l g' H. by destruct (GetListForBlock_sound g h (l, g') Hc H) as (H1 & H2 & H3 & _).
Qed.
End Store.

(** ** A new list can be rebuilt *)

Section Rebuild.
Context (Hash : list Z -> uint256) (B : BLS).
Context (Hash160 : list Z -> list Z) (X : ProTxParams) (E : EvoEnv).
Context (CheckCbTx CheckLLMQCommitment : CTransaction -> result (option reject)).
Hypothesis bls_null : bls_key B bls_key_null = false.
Abbreviation CheckSpecialTx := (CheckSpecialTx Hash Hash160 B X E CheckCbTx CheckLLMQCommitment).
Abbreviation inv := (inv Hash B).
Abbreviation props := (props Hash).
Abbreviation edit := (edit Hash B).

Lemma elem_opt_prop v n x : x ∈ opt_prop Hash v n <-> v <> n /\ x = Hash v.
Proof. unfold opt_prop. case_bool_decide as Eq; [rewrite elem_of_nil|rewrite list_elem_of_singleton]; naive_solver. Qed.

Lemma elem_props d x : x ∈ props d <->
  (ser (collateralOutpoint d) <> ser COutPoint_null /\ x = Hash (ser (collateralOutpoint d))) \/ (addr (pdmnState d) <> CService_null /\ x = Hash (addr (pdmnState d))) \/
  (keyIDOwner (pdmnState d) <> CKeyID_null /\ x = Hash (keyIDOwner (pdmnState d))) \/ (pubKeyOperator (pdmnState d) <> bls_key_null /\ x = Hash (pubKeyOperator (pdmnState d))).
Proof.
  unfold Smartnodes.props, prop_vals. rewrite !opt_props_cons, !elem_of_app, !elem_opt_prop. assert (x ∈ opt_props Hash [] <-> False) as -> by apply elem_of_nil. tauto.
Qed.

(** The properties a new state brings. *)
Lemma props_with_state d s x : keyIDOwner s = keyIDOwner (pdmnState d) -> x ∈ props (with_state d s) ->
  x ∈ props d \/ (addr s <> addr (pdmnState d) /\ addr s <> CService_null /\ x = Hash (addr s)) \/
  (pubKeyOperator s <> pubKeyOperator (pdmnState d) /\ pubKeyOperator s <> bls_key_null /\ x = Hash (pubKeyOperator s)).
Proof.
  intros Eo. rewrite !elem_props. cbn [with_state collateralOutpoint pdmnState]. rewrite Eo.
  destruct (decide (addr s = addr (pdmnState d))) as [->|Ha], (decide (pubKeyOperator s = pubKeyOperator (pdmnState d))) as [->|Hp]; tauto.
Qed.

(** In the old list the property belongs to nobody else, except to a smartnode with the
    same collateral; or it is the collateral. *)
Definition claims (old : CDeterministicMNList) (q : uint256) (d : CDeterministicMN) (x : uint256) : Prop :=
  (forall p df, mnMap old !! p = Some df -> x ∈ props df -> p = q \/ collateralOutpoint df = collateralOutpoint d) \/ x = Hash (ser (collateralOutpoint d)).

Lemma only_by_owner old v h p df : inv old -> only_by Hash old v h -> mnMap old !! p = Some df -> Hash v ∈ props df -> p = h.
Proof.
  intros Ho Hb Hd Hx. destruct (HasUnique_owner Hash B old v p df (proj1 Ho) Hd Hx) as [Hg Hu]. destruct (Hb Hu) as (d & Hd' & <-). destruct (wf_mn _ _ old (proj1 Ho) _ _ Hd). congruence.
Qed.

Lemma change_claims nH txs old d s x : (forall tx, tx ∈ txs -> CheckSpecialTx tx (Some old) = Ok None) -> inv old -> (forall x, x ∈ props d -> claims old (proTxHash d) d x) ->
  change B nH txs d s -> x ∈ props (with_state d s) -> claims old (proTxHash d) (with_state d s) x.
Proof.
  intros Hchk Ho Hcl Hc Hx. pose proof (change_keys B nH txs d s Hc) as [Eo _]. destruct (props_with_state d s x Eo Hx) as [H|H]; [by apply Hcl|]. left.
  destruct Hc as [s Hb|tx p Hin Hv Ht Hp Eq|tx p Hin Hv Ht Hp Eq|tx p Hin Hv Ht Hp Eq].
  - destruct Hb as (_ & _ & _ & _ & Ep & _ & Ea & _). naive_solver.
  - destruct (special_dispatch Hash B Hash160 X E CheckCbTx CheckLLMQCommitment tx old Hv (Hchk tx Hin)) as (Hs & _). destruct (CheckProUpServTx_none _ _ _ _ _ (Hs Ht)) as (p' & dm & Hp' & _ & Hby & _).
    assert (p' = p) as -> by congruence. rewrite (proj2 (serv_state_keys B nH p (pdmnState d))) in H. destruct H as [(_ & _ & ->)|(? & _)]; [|done].
    intros q df Hd Hxd. left. rewrite <- Eq. apply (only_by_owner old (serv_addr p) _ q df Ho Hby Hd). revert Hxd. unfold serv_state. by destruct (_ && _).
  - destruct (special_dispatch Hash B Hash160 X E CheckCbTx CheckLLMQCommitment tx old Hv (Hchk tx Hin)) as (_ & Hs & _). destruct (CheckProUpRegTx_none _ _ _ _ _ _ _ (Hs Ht)) as (p' & dm & Hp' & _ & _ & Hby & _).
    assert (p' = p) as -> by congruence. rewrite (proj2 (registrar_state_keys nH p (pdmnState d))) in H. destruct H as [(Ha & Ha' & _)|(_ & _ & ->)].
    + destruct Ha'. unfold registrar_state in *. cbn [set_registrar addr] in *. destruct (negb _); [|done]. unfold BanIfNotBanned. by destruct (_ =? _).
    + intros q df Hd Hxd. left. rewrite <- Eq. by apply (only_by_owner old (upreg_pubKeyOperator p) _ q df Ho Hby Hd).
  - rewrite (proj2 (revoke_state_keys nH p (pdmnState d))) in H. destruct H as [(_ & Ha & _)|(_ & ? & _)]; [|done]. destruct Ha. unfold revoke_state. cbn [set_reason addr]. unfold BanIfNotBanned. by destruct (_ =? _).
Qed.

Lemma unused_free old v h p df : inv old -> HasUniqueProperty Hash old v = false -> mnMap old !! p = Some df -> Hash v ∈ props df -> p = h.
Proof. intros Ho Hf Hd Hx. destruct (HasUnique_owner Hash B old v p df (proj1 Ho) Hd Hx) as [_ Ht]. congruence. Qed.

Lemma register_claims nH (txs : list CTransaction) old tx p id x : (forall tx, tx ∈ txs -> CheckSpecialTx tx (Some old) = Ok None) -> inv old -> tx ∈ txs -> tx_nVersion tx = 3 -> tx_nType tx = TRANSACTION_PROVIDER_REGISTER ->
  GetTxPayload (unser_ProReg B) (vExtraPayload tx) = Some p -> x ∈ props (registered Hash nH tx p id) -> claims old (GetTxHash Hash tx) (registered Hash nH tx p id) x.
Proof.
  intros Hchk Ho Hin Hv Ht Hp Hx. destruct (special_dispatch Hash B Hash160 X E CheckCbTx CheckLLMQCommitment tx old Hv (Hchk tx Hin)) as (_ & _ & _ & Hs).
  destruct (CheckProRegTx_none _ _ _ _ _ _ _ (Hs Ht)) as (p' & dest & key & col & Hp' & Hcol & Hfree & _). assert (p' = p) as -> by congruence.
  apply check_free_none in Hfree as (Hown & Hop & Haddr). apply check_collateral_inv in Hcol. apply elem_props in Hx as [[_ ->]|[[_ ->]|[[_ ->]|[_ ->]]]]; [by right|left; intros q df Hd Hx..].
  - right. destruct (HasUnique_owner Hash B old _ q df (proj1 Ho) Hd Hx) as [Hg Hu]. destruct (Haddr Hu) as (d & Hd' & Ec). assert (d = df) as -> by (cbn in Hg; congruence). rewrite Ec, Hcol.
    cbn [registered collateralOutpoint]. unfold collateral_of, is_external. by destruct (IsNull _).
  - left. by apply (unused_free old _ _ q df Ho Hown Hd).
  - left. by apply (unused_free old _ _ q df Ho Hop Hd).
Qed.

(** The properties that the list of a block claims, and its ids. *)
Definition claims_list (old l : CDeterministicMNList) : Prop :=
  nTotalRegisteredCount old <= nTotalRegisteredCount l /\
  forall h d, mnMap l !! h = Some d -> (mnMap old !! h = None -> nTotalRegisteredCount old <= internalId d) /\ forall x, x ∈ props d -> claims old h d x.

Lemma edits_claims nH txs old l l' : (forall tx, tx ∈ txs -> CheckSpecialTx tx (Some old) = Ok None) -> inv old -> inv l -> claims_list old l -> rtc (edit nH txs) l l' -> claims_list old l'.
Proof.
  intros Hchk Ho Hi Ha Hr. induction Hr as [|l l1 l' He _ IH]; [done|]. destruct (edit_effect Hash B bls_null nH txs l l1 Hi He) as [Hi1 Heff]. apply IH; [done|]. clear IH.
  destruct Ha as [Hn Ha]. destruct Heff as [h d s Hd Eh Hc Hm _ Hc1|tx p m Hin Hv Ht Hp Em _ _ Hm Hc1|tx i d Hin _ Hd _ Hm Hc1]; (split; [lia|]); intros h' d'; rewrite Hm.
  - rewrite lookup_insert_Some. intros [[<- <-]|[_ Hd']]; [|by apply Ha]. destruct (Ha h d Hd) as [Hid Hx]. split; [done|]. intros x. rewrite <- Eh.
    apply (change_claims nH txs old d s x Hchk Ho); [intros y; rewrite Eh; apply Hx|done].
  - rewrite lookup_insert_Some. intros [[<- <-]|[_ Hd']]; [split; [cbn; lia|intros x; by apply (register_claims nH txs old tx p _ x Hchk Ho Hin Hv Ht Hp)]|]. apply Ha.
    rewrite Em in Hd'. destruct (GetMNByCollateral Hash l _); [|done]. by apply lookup_delete_Some in Hd' as [_ ?].
  - intros [_ Hd']%lookup_delete_Some. by apply Ha.
Qed.

Lemma inv_reset old nH : inv old -> inv (SetHeight (SetBlockHash old uint256_null) nH).
Proof. intros ([W1 W2 W3] & W4 & W5). split; [by split|by split]. Qed.

(** Two smartnodes of a list have different collaterals. *)
Lemma collateral_unique l p q d d' : inv l -> mnMap l !! p = Some d -> mnMap l !! q = Some d' -> Hash (ser (collateralOutpoint d)) = Hash (ser (collateralOutpoint d')) -> p = q.
Proof.
  intros Hi Hd Hd' Ec. destruct (wf_mn _ _ l (proj1 Hi) _ _ Hd) as [_ (Hn & _)]. destruct (wf_mn _ _ l (proj1 Hi) _ _ Hd') as [_ (Hn' & _)].
  apply (unique_owner (props_in Hash (mnMap l)) (mnUniquePropertyMap l) (Hash (ser (collateralOutpoint d)))); [apply (wf_unique _ _ l (proj1 Hi))| |]; unfold props_in.
  - rewrite Hd. cbn [from_option]. apply elem_props. auto.
  - rewrite Hd', Ec. cbn [from_option]. apply elem_props. auto.
Qed.

(** Edits keep the height of the list. *)
Lemma AddUnique_height l h v n l' : AddUniqueProperty Hash l h v n = Ok l' -> l_nHeight l' = l_nHeight l.
Proof. unfold AddUniqueProperty. intros H. apply result_bind_Ok in H as (u & _ & H). by apply result_bind_Ok in H as (u' & _ & [= <-]). Qed.

Lemma DeleteUnique_height l h v n l' : DeleteUniqueProperty Hash l h v n = Ok l' -> l_nHeight l' = l_nHeight l.
Proof.
  unfold DeleteUniqueProperty. intros H. apply result_bind_Ok in H as (u & _ & H). destruct (mnUniquePropertyMap l !! Hash v) as [[a b]|]; [|done].
  apply result_bind_Ok in H as (u' & _ & H). by destruct (b =? 1); injection H as <-.
Qed.

Lemma UpdateUnique_height l h o v n l' : UpdateUniqueProperty Hash l h o v n = Ok l' -> l_nHeight l' = l_nHeight l.
Proof.
  unfold UpdateUniqueProperty. destruct (bool_decide (o = v)); [by intros [= <-]|]. intros H. apply result_bind_Ok in H as (l1 & H1 & H). transitivity (l_nHeight l1).
  - destruct (bool_decide (v = n)); [by injection H as <-|by eapply AddUnique_height].
  - destruct (bool_decide (o = n)); [by injection H1 as <-|by eapply DeleteUnique_height].
Qed.

Lemma UpdateMN_height l h s l' : UpdateMN_hash Hash l h s = Ok l' -> l_nHeight l' = l_nHeight l.
Proof.
  unfold UpdateMN_hash, UpdateMN. destruct (mnMap l !! h); [|done]. intros H. apply result_bind_Ok in H as (l1 & H1 & H). apply result_bind_Ok in H as (l2 & H2 & H).
  apply UpdateUnique_height in H1, H2, H. cbn [set_mnMap l_nHeight] in *. congruence.
Qed.

Lemma RemoveMN_height l h l' : RemoveMN Hash B l h = Ok l' -> l_nHeight l' = l_nHeight l.
Proof.
  unfold RemoveMN. destruct (GetMN l h) as [d|]; [|done]. intros H. apply result_bind_Ok in H as (l1 & H1 & H). apply result_bind_Ok in H as (l2 & H2 & H).
  apply result_bind_Ok in H as (l3 & H3 & H). apply result_bind_Ok in H as (l4 & H4 & [= <-]). cbn [set_ids set_mnMap l_nHeight].
  apply DeleteUnique_height in H1, H3. transitivity (l_nHeight l3); [destruct (bls_key B (pubKeyOperator _)); [by eapply DeleteUnique_height|by injection H4 as <-]|].
  transitivity (l_nHeight l2); [done|]. transitivity (l_nHeight l1); [destruct (bool_decide (addr (pdmnState d) = _)); [by injection H2 as <-|by eapply DeleteUnique_height]|done].
Qed.

Lemma AddMN_height l d l' : AddMN Hash B l d = Ok l' -> l_nHeight l' = l_nHeight l.
Proof.
  unfold AddMN. intros H. apply result_bind_Ok in H as (u & _ & H). apply result_bind_Ok in H as (l1 & H1 & H). apply result_bind_Ok in H as (l2 & H2 & H).
  apply result_bind_Ok in H as (l3 & H3 & H). apply AddUnique_height in H1, H3. transitivity (l_nHeight l3); [destruct (bls_key B (pubKeyOperator _)); [by eapply AddUnique_height|by injection H as <-]|].
  transitivity (l_nHeight l2); [done|]. transitivity (l_nHeight l1); [destruct (bool_decide (addr (pdmnState d) = _)); [by injection H2 as <-|by eapply AddUnique_height]|done].
Qed.

Lemma edits_height nH txs l l' : rtc (edit nH txs) l l' -> l_nHeight l' = l_nHeight l.
Proof.
  intros Hr. induction Hr as [|l l1 l' He _ ->]; [done|]. destruct He as [h d s l1 _ _ Hu|tx p l0 l1 _ _ _ _ _ Hrm Ha|tx i d l1 _ _ _ _ Hrm].
  - by eapply UpdateMN_height.
  - apply AddMN_height in Ha. rewrite Ha. destruct (GetMNByCollateral Hash l _); [by apply RemoveMN_height in Hrm|by subst].
  - by eapply RemoveMN_height.
Qed.

Lemma edits_bound nH txs l l' : inv l -> nTotalRegisteredCount l < 2 ^ 32 -> rtc (edit nH txs) l l' -> nTotalRegisteredCount l' < 2 ^ 32.
Proof.
  intros Hi Hn Hr. induction Hr as [|l l1 l' He _ IH]; [done|]. destruct (edit_effect Hash B bls_null nH txs l l1 Hi He) as [Hi1 Heff]. apply IH; [done|]. destruct Heff; lia.
Qed.

(** The conditions under which the difference rebuilds the list follow from the checks,
    if no registration repeats a transaction, no collateral has the hash of an address
    or a key, and no smartnode is registered and removed in the same block. *)
Lemma block_rebuildable nH txs old l' : (forall tx, tx ∈ txs -> CheckSpecialTx tx (Some old) = Ok None) -> inv old ->
  (forall h, registration Hash txs h -> mnMap old !! h = None) ->
  (forall p df q d, mnMap old !! p = Some df -> mnMap l' !! q = Some d -> Hash (ser (collateralOutpoint d)) ∈ props df -> Hash (ser (collateralOutpoint d)) = Hash (ser (collateralOutpoint df))) ->
  (forall i, nTotalRegisteredCount old <= i < nTotalRegisteredCount l' -> exists h d, mnMap l' !! h = Some d /\ internalId d = i) -> nTotalRegisteredCount l' < 2 ^ 32 ->
  rtc (edit nH txs) (SetHeight (SetBlockHash old uint256_null) nH) l' -> inv l' /\ compatible Hash old l' /\ consecutive old l'.
Proof.
  intros Hchk Ho Hfresh Hkind Hids Hlt Hr. pose proof (inv_reset old nH Ho) as Hi0. assert (inv l') as Hi by (by eapply edits_inv).
  assert (allowed_list Hash B Hash160 X txs old l') as Hall.
  { eapply (edits_allowed Hash B bls_null Hash160 X E CheckCbTx CheckLLMQCommitment nH txs old _ l' Hchk Ho Hi0); [|exact Hr]. intros h d Hd. right. exists d. split; [exact Hd|apply change_allowed_refl]. }
  assert (claims_list old l') as [Hn Hcl].
  { eapply (edits_claims nH txs old _ l' Hchk Ho Hi0); [|exact Hr]. split; [cbn; lia|]. intros h d Hd. cbn in Hd. split; [congruence|]. intros x Hx. left. intros p df Hp Hxp. left.
    apply (unique_owner (props_in Hash (mnMap old)) (mnUniquePropertyMap old) x); [apply (wf_unique _ _ old (proj1 Ho))| |]; unfold props_in; [by rewrite Hp|by rewrite Hd]. }
  assert (forall h df dt, mnMap old !! h = Some df -> mnMap l' !! h = Some dt -> change_allowed Hash B Hash160 X txs df dt) as Hsame.
  { intros h df dt Hf Ht. destruct (Hall h dt Ht) as [Hreg%Hfresh|(d & Hd & Hc)]; congruence. }
  split; [done|]. split; [split|].
  - intros h df dt Hf Ht. destruct (Hsame h df dt Hf Ht) as (H1 & H2 & H3 & _). destruct (wf_mn _ _ old (proj1 Ho) _ _ Hf) as [E1 _]. destruct (wf_mn _ _ l' (proj1 Hi) _ _ Ht) as [E2 _]. split_and!; congruence.
  - intros p q df dt x Hne Hf [d' Hp] Ht Hx Hxf. destruct (Hsame p df d' Hf Hp) as (_ & Ec & _). apply Hne. apply (collateral_unique l' p q d' dt Hi Hp Ht). rewrite Ec.
    destruct (Hcl q dt Ht) as [_ Hc]. destruct (Hc x Hx) as [H|H]; [destruct (H p df Hf Hxf) as [?|H']; [done|congruence]|]. subst x. symmetry. by eapply Hkind.
  - split; [destruct Ho as (_ & ? & _); lia|]. split; [done|]. intros i. split.
    + intros Hr'. destruct (Hids i Hr') as (h & d & Hd & Hid). exists h, d. split_and!; [done| |done]. destruct (mnMap old !! h) as [d0|] eqn:E0; [|done]. exfalso.
      destruct (Hsame h d0 d E0 Hd) as (Eid & _). destruct Ho as (_ & _ & Hb). specialize (Hb h d0 E0). lia.
    + intros (h & d & Hd & Hnone & <-). destruct (Hcl h d Hd) as [Hge _]. specialize (Hge Hnone). destruct Hi as (_ & _ & Hb). specialize (Hb h d Hd). lia.
Qed.
End Rebuild.

(** ** Processing a block *)

Section Process.
Context (Hash SHA256 : list Z -> uint256) (B : BLS).
Context (order : gmap (list Z) CDeterministicMN -> list (list Z * CDeterministicMN)).
Context (V : ManagerEnv).
Hypothesis links : index_ok (me_index V).
Abbreviation list_at := (list_at Hash B V).
Abbreviation cache_ok := (cache_ok Hash B V).
Abbreviation no_child := (no_child V).
Abbreviation GetListForBlock := (GetListForBlock Hash B V).
Abbreviation BuildNewListFromBlock := (BuildNewListFromBlock Hash SHA256 B order V).
Abbreviation ProcessBlock := (ProcessBlock Hash SHA256 B order V).
Abbreviation UndoBlock := (UndoBlock Hash B V).

(** Reads of blocks other than [b] do not enter [b] in the cache. *)
Definition keeps (b : ptr) (g g' : Manager) : Prop :=
  cache_ok g -> no_child g b -> cache_ok g' /\ same_db g g' /\ (mnListsCache g !! b = None -> mnListsCache g' !! b = None).

Lemma no_child_db b g g' : same_db g g' -> no_child g b -> no_child g' b.
Proof. intros [Ed _] H c ci Hc Hp. rewrite Ed. by apply (H c ci). Qed.

#[global] Instance keeps_preorder b : PreOrder (keeps b).
Proof.
  split; [by intros g Hc _|]. intros g1 g2 g3 H1 H2 Hc Hn. destruct (H1 Hc Hn) as (Hc2 & Hd & Hb). destruct (H2 Hc2 (no_child_db b g1 g2 Hd Hn)) as (Hc3 & Hd' & Hb').
  split_and!; [done|by transitivity g2|auto].
Qed.

Lemma read_keeps b g h l g' : h <> b -> GetListForBlock g h = Ok (l, g') -> keeps b g g'.
Proof. intros Hne H Hc Hn. destruct (GetListForBlock_sound Hash B V g h (l, g') Hc H) as (_ & H1 & H2 & H3). split_and!; auto. Qed.

Lemma llmq_keeps b g s : keeps b g (set_llmq g s).
Proof. intros Hc _. split_and!; [|done..]. intros h l H. apply (list_at_db Hash B V g); [done|by apply Hc]. Qed.

Lemma commitment_keeps b bi prev pi g l tx r g' : me_index V !! b = Some bi -> me_index V !! prev = Some pi -> nHeight pi < nHeight bi ->
  commitment_step Hash SHA256 B order V prev g l tx = Ok (r, g') -> keeps b g g'.
Proof.
  intros Hb Hp Hlt H. unfold commitment_step in H. destruct (GetTxPayload (unser_qcPayload B) _) as [qc|]; [|done]. destruct (commitment_IsNull B _); [by injection H as _ <-|].
  apply result_bind_Ok in H as (params & _ & H). apply result_bind_Ok in H as (qo & Hq & H). destruct qo as [q|]; [|by injection H as _ <-]. destruct (negb _); [by injection H as _ <-|].
  apply result_bind_Ok in H as ([l1 g1] & H1 & [= _ <-]). unfold HandleQuorumCommitment in H1. apply result_bind_Ok in H1 as ([ms g2] & H2 & H1). apply result_bind_Ok in H1 as (l2 & _ & [= _ <-]).
  unfold GetAllQuorumMembers in H2. apply result_bind_Ok in H2 as (u & _ & H2). apply result_bind_Ok in H2 as ([l3 g3] & H3 & H2). apply result_bind_Ok in H2 as (u' & _ & [= _ <-]).
  apply (read_keeps b g q l3 g3); [|done]. intros ->. rewrite (GetAncestor_spec _ _ pi _ links Hp) in Hq. injection Hq as Hq. destruct (_ || _) eqn:Er; [done|]. apply orb_false_iff in Er as [E1%Z.ltb_ge E2%Z.ltb_ge].
  destruct (nth_ancestor_height _ _ pi _ _ links Hp Hq) as (bi' & Hb' & Hh). assert (bi' = bi) as -> by congruence. lia.
Qed.

Lemma txs_keeps b bi prev pi nH txs g l r g' : me_index V !! b = Some bi -> me_index V !! prev = Some pi -> nHeight pi < nHeight bi ->
  txs_loop Hash SHA256 B order V prev nH g l txs = Ok (r, g') -> keeps b g g'.
Proof.
  intros Hb Hp Hlt. revert g l. induction txs as [|tx txs IH]; intros g l H; cbn [txs_loop] in H; [by injection H as _ <-|]. apply result_bind_Ok in H as ([r1 g1] & H1 & H).
  assert (keeps b g g1) as Hk.
  { unfold tx_step, lift_step in H1. destruct (negb _); [by injection H1 as _ <-|]. do 4 (destruct (_ =? _); [apply result_bind_Ok in H1 as (x & _ & [= _ <-]); done|]).
    destruct (_ =? _); [by apply (commitment_keeps b bi prev pi g l tx r1 g1)|by injection H1 as _ <-]. }
  transitivity g1; [done|]. destruct r1 as [e|l1]; [by injection H as _ <-|]. by apply (IH g1 l1).
Qed.

Lemma build_keeps b bi prev pi vtx g r g' : me_index V !! b = Some bi -> me_index V !! prev = Some pi -> nHeight pi < nHeight bi ->
  BuildNewListFromBlock g vtx prev = Ok (r, g') -> keeps b g g'.
Proof.
  intros Hb Hp Hlt H. unfold SmartnodeManager.BuildNewListFromBlock in H. rewrite Hp in H. cbn [deref mbind result_bind] in H. apply result_bind_Ok in H as ([old g0] & H0 & H).
  apply result_bind_Ok in H as (l1 & _ & H). apply result_bind_Ok in H as (l2 & _ & H). apply result_bind_Ok in H as ([r1 g1] & H1 & H).
  transitivity g0; [apply (read_keeps b g prev old g0); [intros ->; assert (pi = bi) as -> by congruence; lia|done]|]. transitivity g1; [by apply (txs_keeps b bi prev pi _ _ g0 l2 r1 g1 Hb Hp Hlt H1)|].
  destruct r1 as [e|l3]; [by injection H as _ <-|]. apply result_bind_Ok in H as (l4 & _ & H). apply result_bind_Ok in H as (l5 & _ & [= _ <-]). apply llmq_keeps.
Qed.

(** Writes for a block leave the lists of the others. *)
Definition other_db (b : ptr) (g g' : Manager) : Prop :=
  (forall h, h <> b -> db_list_diff g' !! h = db_list_diff g !! h) /\ (forall h, h <> b -> db_list_snapshot g' !! h = db_list_snapshot g !! h).

Lemma list_at_other b g g' h l : other_db b g g' -> no_child g b -> list_at g h l -> h <> b -> list_at g' h l.
Proof.
  intros [Hd Hs] Hn H. induction H as [h l Hsn|h Hsn Hdn|h idx p diff l0 l Hsn Hdn Hi Hp H0 IH Hx]; intros Hne.
  - apply at_snapshot. by rewrite Hs.
  - apply at_start; [by rewrite Hs|by rewrite Hd].
  - apply (at_diff Hash B V g' h idx p diff l0); [by rewrite Hs|by rewrite Hd|done..| |done]. apply IH. intros ->. specialize (Hn h idx Hi Hp). congruence.
Qed.

Lemma cache_other b g g' : other_db b g g' -> no_child g b -> cache_ok g -> (forall h l, mnListsCache g' !! h = Some l -> h <> b /\ mnListsCache g !! h = Some l) -> cache_ok g'.
Proof. intros Ho Hn Hc Hs h l H. destruct (Hs h l H) as [Hne Hl]. apply (list_at_other b g g' h l Ho Hn); [by apply Hc|done]. Qed.

(** Nothing is known of the block yet. *)
Definition unprocessed (g : Manager) (h : ptr) : Prop :=
  db_list_diff g !! h = None /\ db_list_snapshot g !! h = None /\ mnListsCache g !! h = None /\ no_child g h.

(** What [ProcessBlock] writes. *)
Definition written (g g' : Manager) (h : ptr) (old l : CDeterministicMNList) : Prop :=
  db_list_diff g' = <[h := BuildDiff order old l]> (db_list_diff g) /\
  (db_list_snapshot g' = <[h := l]> (db_list_snapshot g) \/ db_list_snapshot g' = db_list_snapshot g).

Lemma written_other g g' h old l : written g g' h old l -> other_db h g g'.
Proof. intros [Ed Es]. split; intros h' Hne; [rewrite Ed|destruct Es as [->| ->]; [|done]]; by rewrite lookup_insert_ne. Qed.

Lemma process_writes g vtx h idx prev pi old g' : me_DIP0003Enabled V = true -> cache_ok g -> unprocessed g h ->
  me_index V !! h = Some idx -> pprev idx = Some prev -> me_index V !! prev = Some pi -> nHeight idx = nHeight pi + 1 -> list_at g prev old ->
  ProcessBlock g vtx h h false = Ok (None, g') ->
  exists l g1, BuildNewListFromBlock g vtx prev = Ok (inr l, g1) /\ cache_ok g' /\
    written g g' h old (SetBlockHash (if l_nHeight l =? -1 then SetHeight l (nHeight idx) else l) h) /\ mnListsCache g' !! h = None /\
    (nHeight idx mod SNAPSHOT_LIST_PERIOD <> 0 -> l_nHeight old <> -1 -> db_list_snapshot g' = db_list_snapshot g).
Proof.
  intros Hdip Hc (Hd & Hs & Hcn & Hn) Hi Hp Hpi Hh Hl H. unfold SmartnodeManager.ProcessBlock in H. rewrite Hdip in H. cbn [negb] in H. rewrite Hi in H. cbn [deref mbind result_bind] in H. rewrite Hp in H. cbn [deref mbind result_bind] in H.
  apply result_bind_Ok in H as ([[e|l] g1] & Hb & H); [done|]. apply result_bind_Ok in H as ([old2 g2] & Hr & H). cbn [fst snd] in *.
  assert (prev <> h) as Hne by (intros ->; assert (pi = idx) as -> by congruence; lia).
  destruct (build_keeps h idx prev pi vtx g (inr l) g1 Hi Hpi ltac:(lia) Hb Hc Hn) as (Hc1 & Hdb1 & Hk1). pose proof (no_child_db h g g1 Hdb1 Hn) as Hn1.
  destruct (read_keeps h g1 prev old2 g2 Hne Hr Hc1 Hn1) as (Hc2 & Hdb2 & Hk2). destruct (GetListForBlock_sound Hash B V g1 prev (old2, g2) Hc1 Hr) as (Hl2 & _). cbn [fst] in Hl2.
  assert (old2 = old) as -> by (apply (list_at_det Hash B V g1 prev); [done|by apply (list_at_db Hash B V g)]).
  assert (same_db g g2) as [Edb Esn] by (by transitivity g1). injection H as <-. exists l, g1. split; [done|].
  set (l' := SetBlockHash _ h). set (g3 := CleanupCache _ _). assert (written g g3 h old l') as Hw.
  { split; [cbn; by rewrite Edb|]. cbn. rewrite Esn. destruct (_ || _); auto. }
  split; [|split; [done|split]].
  2:{ cbn. apply map_lookup_filter_None. left. by apply Hk2, Hk1. }
  2:{ intros Hm Ho. cbn. rewrite (proj2 (Z.eqb_neq _ _) Hm), (proj2 (Z.eqb_neq _ _) Ho). exact Esn. }
  apply (cache_other h g2 g3); [|by apply (no_child_db h g1)|done|].
  - destruct (written_other g g3 h old l' Hw) as [O1 O2]. split; intros h' Hne'; [rewrite Edb|rewrite Esn]; auto.
  - intros h' x Hx. cbn in Hx. apply map_lookup_filter_Some in Hx as [Hx _]. split; [|done]. intros ->. rewrite (Hk2 (Hk1 Hcn)) in Hx. done.
Qed.

(** What is written gives the list back, if the difference does. *)
Lemma written_list g g' h idx prev old l : written g g' h old l -> unprocessed g h -> me_index V !! h = Some idx -> pprev idx = Some prev -> prev <> h -> list_at g prev old ->
  ApplyDiff Hash B old h (nHeight idx) (BuildDiff order old l) = Ok l -> list_at g' h l.
Proof.
  intros Hw (Hd & Hs & _ & Hn) Hi Hp Hne Hl Ha. pose proof (written_other g g' h old l Hw) as Ho. destruct Hw as [Ed [Es|Es]].
  - apply at_snapshot. by rewrite Es, lookup_insert_eq.
  - apply (at_diff Hash B V g' h idx prev (BuildDiff order old l) old l); [by rewrite Es|by rewrite Ed, lookup_insert_eq|done..|by apply (list_at_other h g)|].
    unfold next_list. destruct (HasChanges (BuildDiff order old l)) eqn:Eh; [done|]. rewrite <- Ha. revert Eh. unfold HasChanges, ApplyDiff. destruct (BuildDiff order old l) as [ad up rm]. cbn [addedMNs updatedMNs removedMns].
    intros [[E1%negb_false_iff%bool_decide_eq_true E2%negb_false_iff%bool_decide_eq_true]%orb_false_iff E3%negb_false_iff%bool_decide_eq_true]%orb_false_iff. subst. done.
Qed.

Lemma written_no_child g g' h idx old l : written g g' h old l -> unprocessed g h -> me_index V !! h = Some idx -> no_child g' h.
Proof.
  intros Hw (_ & _ & _ & Hn) Hi c ci Hci Hpc. destruct (decide (c = h)) as [->|Hc']; [|rewrite (proj1 (written_other g g' h old l Hw)) by done; by apply (Hn c ci)]. exfalso. destruct (links h ci Hci) as (_ & Hlk & _). unfold link_ok in Hlk. rewrite Hpc in Hlk.
  destruct Hlk as (ci' & ? & ?). assert (ci' = ci) as -> by congruence. lia.
Qed.

Lemma undo_writes g g' h idx prev old l : written g g' h old l -> unprocessed g h -> cache_ok g' -> me_index V !! h = Some idx -> pprev idx = Some prev -> prev <> h ->
  list_at g prev old -> list_at g' h l -> exists g'', UndoBlock g' h h = Ok g'' /\ same_db g g'' /\ cache_ok g'' /\ mnListsCache g'' !! h = None.
Proof.
  intros Hw Hu Hc Hi Hp Hne Hl Hl'. pose proof (written_other g g' h old l Hw) as Ho. pose proof (written_no_child g g' h idx old l Hw Hu Hi) as Hn'. destruct Hu as (Hd & Hs & _ & Hn).
  destruct (links h idx Hi) as (_ & Hlk & _). unfold link_ok in Hlk. rewrite Hp in Hlk. destruct Hlk as (pi & Hpi & _).
  destruct (GetListForBlock_at Hash B V links g' h idx l Hc Hl' Hi) as (g1 & R1 & Hc1 & Hdb1).
  assert (list_at g1 prev old) as Hlp by (apply (list_at_db Hash B V g'); [done|]; by apply (list_at_other h g)).
  destruct (GetListForBlock_at Hash B V links g1 prev pi old Hc1 Hlp Hpi) as (g2 & R2 & Hc2 & Hdb2).
  assert (exists g3, (if match db_list_diff g' !! h with Some diff => HasChanges diff | None => false end
       then '(curList, g) ← GetListForBlock g' h; prev ← deref (pprev idx); '(prevList, g) ← GetListForBlock g prev; Ok g else Ok g') = Ok g3 /\ cache_ok g3 /\ same_db g' g3) as (g3 & E3 & Hc3 & Hdb3).
  { destruct (match db_list_diff g' !! h with Some diff => HasChanges diff | None => false end); [|by exists g']. exists g2. rewrite R1. cbn [mbind result_bind]. rewrite Hp. cbn [deref mbind result_bind]. rewrite R2.
    split_and!; [done..|by transitivity g1]. }
  unfold SmartnodeManager.UndoBlock. rewrite Hi. cbn [deref mbind result_bind]. rewrite E3. cbn [mbind result_bind]. eexists. split; [reflexivity|]. destruct Hdb3 as [Ed3 Es3]. destruct Hw as [Ed Es]. split_and!.
  - split; cbn [db_list_diff db_list_snapshot]; [rewrite Ed3, Ed; by apply delete_insert_id|rewrite Es3]. destruct Es as [-> | ->]; [by apply delete_insert_id|by apply delete_id].
  - apply (cache_other h g3); [split; intros h' Hh'; cbn; by rewrite lookup_delete_ne|by apply (no_child_db h g')|done|]. intros h' x Hx. cbn in Hx. by apply lookup_delete_Some in Hx as [? ?].
  - cbn. apply lookup_delete_eq.
Qed.

(** ** A gap in the ids *)

Lemma RemoveMN_count l h : match RemoveMN Hash B l h with Ok l' => nTotalRegisteredCount l' = nTotalRegisteredCount l | Err e => e = AssertFail end.
Proof.
  unfold RemoveMN. destruct (GetMN l h) as [d|]; [|done].
  assert (forall l v n, match DeleteUniqueProperty Hash l (proTxHash d) v n with Ok l' => nTotalRegisteredCount l' = nTotalRegisteredCount l | Err e => e = AssertFail end) as Hdel.
  { intros l0 v n. destruct (DeleteUniqueProperty Hash l0 (proTxHash d) v n) as [l1|e] eqn:Eq; [|by eapply DeleteUnique_err]. unfold DeleteUniqueProperty in Eq.
    apply result_bind_Ok in Eq as (u & _ & Eq). destruct (mnUniquePropertyMap l0 !! Hash v) as [[a b]|]; [|done]. apply result_bind_Ok in Eq as (u' & _ & Eq). by destruct (b =? 1); injection Eq as <-. }
  pose proof (Hdel l (ser (collateralOutpoint d)) (ser COutPoint_null)) as H1. destruct (DeleteUniqueProperty Hash l _ _ _) as [l1|]; cbn [mbind result_bind]; [|done].
  pose proof (Hdel l1 (addr (pdmnState d)) CService_null) as H2. destruct (bool_decide _); cbn [mbind result_bind]; [clear H2; assert (nTotalRegisteredCount l1 = nTotalRegisteredCount l1) as H2 by done; revert H2; generalize l1 at 1 3; intros l2 H2|destruct (DeleteUniqueProperty Hash l1 _ _ _) as [l2|]; cbn [mbind result_bind]; [|done]].
  all: pose proof (Hdel l2 (keyIDOwner (pdmnState d)) CKeyID_null) as H3; destruct (DeleteUniqueProperty Hash l2 _ _ _) as [l3|]; cbn [mbind result_bind]; [|done].
  all: pose proof (Hdel l3 (pubKeyOperator (pdmnState d)) bls_key_null) as H4; destruct (bls_key B (pubKeyOperator _)); [destruct (DeleteUniqueProperty Hash l3 _ _ _) as [l4|]|]; cbn [mbind result_bind set_ids set_mnMap nTotalRegisteredCount]; congruence.
Qed.

Lemma apply_removed_count ids l : match apply_removed Hash B l ids with Ok l' => nTotalRegisteredCount l' = nTotalRegisteredCount l | Err e => e = AssertFail end.
Proof.
  revert l. induction ids as [|i ids IH]; intros l; cbn [apply_removed]; [done|]. destruct (GetMNByInternalId l i) as [d|]; [|done]. pose proof (RemoveMN_count l (proTxHash d)) as H.
  destruct (RemoveMN Hash B l (proTxHash d)) as [l1|e]; cbn [mbind result_bind]; [|by subst]. specialize (IH l1). destruct (apply_removed Hash B l1 ids); [congruence|done].
Qed.

Lemma ApplyDiff_gap from to bh height : wf Hash B to -> (forall m, order m ≡ₚ map_to_list m) -> (exists h d, mnMap to !! h = Some d /\ mnMap from !! h = None) ->
  (forall h d, mnMap to !! h = Some d -> mnMap from !! h = None -> internalId d <> nTotalRegisteredCount from) ->
  ApplyDiff Hash B from bh height (BuildDiff order from to) = Err AssertFail.
Proof.
  intros Hwf Hord (h & d & Hd & Hn) Hgap. unfold ApplyDiff. pose proof (apply_removed_count (set_items (removedMns (BuildDiff order from to))) (SetHeight (SetBlockHash from bh) height)) as Hc.
  destruct (apply_removed _ _ _ _) as [l1|e]; cbn [mbind result_bind]; [|by subst]. cbn [SetHeight SetBlockHash nTotalRegisteredCount] in Hc. destruct (wf_mn _ _ to Hwf _ _ Hd) as [Eh _].
  assert (d ∈ addedMNs (BuildDiff order from to)) as Hin by (apply (elem_added Hash B order Hord from to d Hwf); by rewrite Eh). destruct (addedMNs (BuildDiff order from to)) as [|d1 ds] eqn:Ea; [by apply elem_of_nil in Hin|].
  assert (d1 ∈ addedMNs (BuildDiff order from to)) as H1 by (rewrite Ea; by left). apply (elem_added Hash B order Hord from to d1 Hwf) in H1 as [H1 H1n].
  cbn [apply_added]. rewrite Hc. rewrite (proj2 (Z.eqb_neq _ _) (Hgap _ _ H1 H1n)). done.
Qed.

(** ** Theorems *)

Context (Hash160 : list Z -> list Z) (X : ProTxParams) (E : EvoEnv).
Context (CheckCbTx CheckLLMQCommitment : CTransaction -> result (option reject)).
Hypothesis order_perm : forall m, order m ≡ₚ map_to_list m.
Hypothesis bls_null : bls_key B bls_key_null = false.

(** No hash of a collateral of the new list is the hash of an address or a key of the
    old one; the smartnodes that the block registers are still in its list. *)
Definition kinds_apart (old l : CDeterministicMNList) : Prop :=
  forall p df q d, mnMap old !! p = Some df -> mnMap l !! q = Some d -> Hash (ser (collateralOutpoint d)) ∈ props Hash df -> Hash (ser (collateralOutpoint d)) = Hash (ser (collateralOutpoint df)).
Definition registered_stay (old l : CDeterministicMNList) : Prop :=
  forall i, nTotalRegisteredCount old <= i < nTotalRegisteredCount l -> exists h d, mnMap l !! h = Some d /\ internalId d = i.

(** What [ProcessBlock] writes, and when it gives the list back. *)
Lemma process_list g vtx h idx prev old g' :
  me_DIP0003Enabled V = true -> cache_ok g -> unprocessed g h -> me_index V !! h = Some idx -> pprev idx = Some prev -> list_at g prev old -> inv Hash B old ->
  nTotalRegisteredCount old + Z.of_nat (length vtx) < 2 ^ 32 ->
  (forall tx, tx ∈ drop 1 vtx -> CheckSpecialTx Hash Hash160 B X E CheckCbTx CheckLLMQCommitment tx (Some old) = Ok None) ->
  (forall h, registration Hash (drop 1 vtx) h -> mnMap old !! h = None) ->
  ProcessBlock g vtx h h false = Ok (None, g') ->
  cache_ok g' /\ prev <> h /\ exists l g1, BuildNewListFromBlock g vtx prev = Ok (inr l, g1) /\ written g g' h old (SetBlockHash l h) /\
    (kinds_apart old l -> registered_stay old l -> list_at g' h (SetBlockHash l h)).
Proof.
  intros Hdip Hc Hu Hi Hp Hl Ho Hlen Hchk Hfresh H. destruct (links h idx Hi) as (_ & Hlk & _). unfold link_ok in Hlk. rewrite Hp in Hlk. destruct Hlk as (pi & Hpi & Hh).
  assert (prev <> h) as Hne by (intros ->; assert (pi = idx) as -> by congruence; lia).
  destruct (process_writes g vtx h idx prev pi old g' Hdip Hc Hu Hi Hp Hpi Hh Hl H) as (l & g1 & Hb & Hc' & Hw & _). destruct (GetListForBlock_at Hash B V links g prev pi old Hc Hl Hpi) as (g0 & R0 & _).
  pose proof (build_edits Hash SHA256 B order V order_perm bls_null g vtx prev pi old g0 l g1 Hpi R0 Ho Hlen Hb) as Hr. pose proof (edits_height Hash B _ _ _ _ Hr) as Eh. cbn [SetHeight l_nHeight] in Eh.
  destruct (links prev pi Hpi) as (Hpos & _). rewrite (proj2 (Z.eqb_neq (l_nHeight l) (-1))) in Hw by lia. split; [done|]. split; [done|]. exists l, g1. split; [done|]. split; [done|]. intros Hkind Hstay.
  assert (nTotalRegisteredCount l < 2 ^ 32) as Hlt by (apply (edits_bound Hash B bls_null _ _ _ l (inv_reset Hash B old _ Ho)) in Hr; [done|cbn; lia]).
  destruct (block_rebuildable Hash B Hash160 X E CheckCbTx CheckLLMQCommitment bls_null _ (drop 1 vtx) old l Hchk Ho Hfresh Hkind Hstay Hlt Hr) as (Hi' & Hcomp & Hcons).
  apply (written_list g g' h idx prev old _ Hw Hu Hi Hp Hne Hl). rewrite Hh, <- Eh. apply (diff_rebuilds_list Hash B order order_perm old (SetBlockHash l h)); [apply Ho| |done..]. destruct Hi' as ([W1 W2 W3] & _). by split.
Qed.

(** C19: What a block stores gives its list back, and undoing the block removes it.  Take
    a block that was not processed before, whose special transactions passed the checks
    against the list of the block before, that registers no smartnode twice and none that
    it removes again, and where no collateral has the hash of an address or a key.
    After [ProcessBlock] accepted it, the cache is right again and reading the list of the
    block returns the list that was built for it, with all its maps; the lists of the other
    blocks are the same as before, and [UndoBlock] leads back to the database before. *)
Theorem stored_list_rebuilt g vtx h idx prev old g' :
  me_DIP0003Enabled V = true -> cache_ok g -> unprocessed g h -> me_index V !! h = Some idx -> pprev idx = Some prev -> list_at g prev old -> inv Hash B old ->
  nTotalRegisteredCount old + Z.of_nat (length vtx) < 2 ^ 32 ->
  (forall tx, tx ∈ drop 1 vtx -> CheckSpecialTx Hash Hash160 B X E CheckCbTx CheckLLMQCommitment tx (Some old) = Ok None) ->
  (forall h, registration Hash (drop 1 vtx) h -> mnMap old !! h = None) ->
  ProcessBlock g vtx h h false = Ok (None, g') ->
  cache_ok g' /\ (forall h' l', h' <> h -> list_at g h' l' -> list_at g' h' l') /\
  exists l g1, BuildNewListFromBlock g vtx prev = Ok (inr l, g1) /\
    (kinds_apart old l -> registered_stay old l ->
     (exists g2, GetListForBlock g' h = Ok (SetBlockHash l h, g2)) /\
     exists g2, UndoBlock g' h h = Ok g2 /\ same_db g g2 /\ cache_ok g2 /\ mnListsCache g2 !! h = None).
Proof.
  intros Hdip Hc Hu Hi Hp Hl Ho Hlen Hchk Hfresh H. destruct (process_list g vtx h idx prev old g' Hdip Hc Hu Hi Hp Hl Ho Hlen Hchk Hfresh H) as (Hc' & Hne & l & g1 & Hb & Hw & Hat). split; [done|].
  split; [intros h' l' Hne' Hl'; apply (list_at_other h g); [by eapply written_other|apply Hu|done..]|]. exists l, g1. split; [done|]. intros Hkind Hstay. specialize (Hat Hkind Hstay).
  split; [destruct (GetListForBlock_at Hash B V links g' h idx _ Hc' Hat Hi) as (g2 & R2 & _); by exists g2|]. by apply (undo_writes g g' h idx prev old _ Hw Hu Hc' Hi Hp Hne Hl Hat).
Qed.

(** C22: A block that registers smartnodes and removes the first of them again stops every
    node.  If the list that was built for an accepted block has a new smartnode but none
    with the next free id, because the one that got it lost its collateral in the same
    block, and the block is not one where the whole list is stored, reading the list of the
    block, which the next block needs, fails an assertion. *)
Theorem removed_registration_crashes g vtx h idx prev old g' l g1 :
  me_DIP0003Enabled V = true -> cache_ok g -> unprocessed g h -> me_index V !! h = Some idx -> pprev idx = Some prev -> list_at g prev old -> inv Hash B old ->
  nTotalRegisteredCount old + Z.of_nat (length vtx) < 2 ^ 32 -> nHeight idx mod SNAPSHOT_LIST_PERIOD <> 0 -> l_nHeight old <> -1 ->
  ProcessBlock g vtx h h false = Ok (None, g') -> BuildNewListFromBlock g vtx prev = Ok (inr l, g1) ->
  (exists p d, mnMap l !! p = Some d /\ mnMap old !! p = None) -> (forall p d, mnMap l !! p = Some d -> mnMap old !! p = None -> internalId d <> nTotalRegisteredCount old) ->
  GetListForBlock g' h = Err AssertFail.
Proof.
  intros Hdip Hc Hu Hi Hp Hl Ho Hlen Hmod Hold H Hb Hnew Hgap. destruct (links h idx Hi) as (Hpos & Hlk & _). unfold link_ok in Hlk. rewrite Hp in Hlk. destruct Hlk as (pi & Hpi & Hh).
  assert (prev <> h) as Hne by (intros ->; assert (pi = idx) as -> by congruence; lia).
  destruct (process_writes g vtx h idx prev pi old g' Hdip Hc Hu Hi Hp Hpi Hh Hl H) as (l2 & g2 & Hb2 & Hc' & Hw & Hcn & Hsn). assert (l2 = l) as -> by congruence. specialize (Hsn Hmod Hold).
  destruct (GetListForBlock_at Hash B V links g prev pi old Hc Hl Hpi) as (g0 & R0 & _). pose proof (build_edits Hash SHA256 B order V order_perm bls_null g vtx prev pi old g0 l g1 Hpi R0 Ho Hlen Hb) as Hr.
  assert (inv Hash B l) as Hil by (eapply edits_inv; [done|apply inv_reset, Ho|exact Hr]). set (to := SetBlockHash _ h) in Hw. assert (mnMap to = mnMap l) as Em by (unfold to; by destruct (_ =? _)).
  assert (wf Hash B to) as Hwt by (unfold to; destruct Hil as ([W1 W2 W3] & _); destruct (_ =? _); by split). rewrite <- Em in Hnew, Hgap.
  assert (list_at g' prev old) as Hlp by (apply (list_at_other h g); [by eapply written_other|apply Hu|done..]).
  destruct (read_list Hash B V links (Z.to_nat (nHeight idx)) g' prev pi old Hc' Hlp Hpi ltac:(lia)) as (g3 & Hread & _). destruct (Hread [(h, BuildDiff order old to)]) as (sn & diffs & g4 & Hf & Ha).
  unfold SmartnodeManager.GetListForBlock. rewrite Hi. cbn [deref mbind result_bind find_list]. destruct Hw as [Ed _], Hu as (_ & Hs & _). rewrite Hcn, Hsn, Hs, Ed, lookup_insert_eq, Hi. cbn [deref mbind result_bind].
  rewrite Hp, Hf. cbn [mbind result_bind]. rewrite foldM_app, Ha. cbn [mbind result_bind foldM apply_diff]. rewrite Hi. cbn [deref mbind result_bind]. unfold next_list.
  rewrite (ApplyDiff_gap old to h (nHeight idx) Hwt order_perm Hnew Hgap). destruct (HasChanges (BuildDiff order old to)) eqn:Eh; [done|]. exfalso. destruct Hnew as (p & d & Hd & Hn).
  unfold HasChanges in Eh. apply orb_false_iff in Eh as [[Eh _]%orb_false_iff _]. apply negb_false_iff, bool_decide_eq_true in Eh. destruct (wf_mn _ _ to Hwt _ _ Hd) as [Eq _].
  assert (d ∈ addedMNs (BuildDiff order old to)) as Hin by (apply (elem_added Hash B order order_perm old to d Hwt); by rewrite Eq). rewrite Eh in Hin. by apply elem_of_nil in Hin.
Qed.
End Process.

(** ** Witnesses *)

(** The block [[4]] of the small chain of Chain.v, over the list of [[3]]. *)
Definition toy_senv : ManagerEnv := mkManagerEnv toy_penv_coins sample_index false 15 true true.
Definition toy_store : Manager := mkManager ∅ ∅ {[ [3] := toy_list2 ]} MainLLMQs.

Lemma toy_store_ok : cache_ok toy_hash toy_bls toy_senv toy_store /\ unprocessed toy_senv toy_store [4] /\ list_at toy_hash toy_bls toy_senv toy_store [3] toy_list2.
Proof.
  split; [intros h l H; cbn in H; by rewrite lookup_empty in H|]. split; [|apply at_snapshot; apply lookup_singleton_eq]. split_and!; [apply lookup_empty|apply (lookup_singleton_ne (M := gmap (list Z))); discriminate|apply lookup_empty|intros c ci _ _; apply lookup_empty].
Qed.

Lemma list_read_transparent_witness : exists g', GetListForBlock toy_hash toy_bls toy_senv toy_store [3] = Ok (toy_list2, g').
Proof.
  destruct toy_store_ok as (Hc & _ & Hl). destruct (sample_index !! [3]) as [idx|] eqn:Hi; [|exfalso; revert Hi; by vm_compute].
  exact (proj1 (list_read_transparent toy_hash toy_bls toy_senv sample_index_ok toy_store [3] idx Hc Hi) toy_list2 Hl).
Defined.

(** What the witnesses need of a list that was built. *)
Definition toy_apart (l : CDeterministicMNList) : bool :=
  bool_decide (nTotalRegisteredCount l = 2 /\ map_Forall (fun _ d => map_Forall (fun _ df =>
    toy_hash (ser (collateralOutpoint d)) ∈ props toy_hash df -> toy_hash (ser (collateralOutpoint d)) = toy_hash (ser (collateralOutpoint df))) (mnMap toy_list2)) (mnMap l)).

Lemma stored_list_rebuilt_witness : exists g' l g1 g2,
  ProcessBlock toy_hash toy_sha toy_bls toy_order toy_senv toy_store [toy_coinbase; toy_tx 7 9] [4] [4] false = Ok (None, g') /\
  BuildNewListFromBlock toy_hash toy_sha toy_bls toy_order toy_senv toy_store [toy_coinbase; toy_tx 7 9] [3] = Ok (inr l, g1) /\
  GetListForBlock toy_hash toy_bls toy_senv g' [4] = Ok (SetBlockHash l [4], g2).
Proof.
  assert (match ProcessBlock toy_hash toy_sha toy_bls toy_order toy_senv toy_store [toy_coinbase; toy_tx 7 9] [4] [4] false with Ok (None, _) => true | _ => false end = true) as Hok by (vm_compute; reflexivity).
  destruct (ProcessBlock toy_hash toy_sha toy_bls toy_order toy_senv toy_store [toy_coinbase; toy_tx 7 9] [4] [4] false) as [[[e|] g']|e] eqn:Ep; try discriminate Hok.
  destruct toy_store_ok as (Hc & Hu & Hl). destruct (sample_index !! [4]) as [idx|] eqn:Hi; [|exfalso; revert Hi; by vm_compute].
  assert (match BuildNewListFromBlock toy_hash toy_sha toy_bls toy_order toy_senv toy_store [toy_coinbase; toy_tx 7 9] [3] with Ok (inr l, _) => toy_apart l = true | _ => False end) as Hap by (by vm_compute).
  destruct (stored_list_rebuilt toy_hash toy_sha toy_bls toy_order toy_senv sample_index_ok (fun k => k) toy_px toy_penv_coins (fun _ => Ok None) (fun _ => Ok None) (fun m => reflexivity _) eq_refl
    toy_store [toy_coinbase; toy_tx 7 9] [4] idx [3] toy_list2 g' eq_refl Hc Hu Hi) as (_ & _ & l & g1 & Hb & Hres); [|exact Hl|exact inv_toy_list2|by vm_compute| | |exact Ep|].
  - revert Hi. vm_compute. by intros [= <-].
  - intros tx Htx. apply list_elem_of_singleton in Htx as ->. by vm_compute.
  - intros h (tx & Htx & Ht & _). apply list_elem_of_singleton in Htx as ->. exfalso. clear - Ht. discriminate Ht.
  - rewrite Hb in Hap. apply bool_decide_eq_true in Hap as [Hn Hk]. destruct Hres as [(g2 & Hg) _].
    + intros p df q d Hp Hq. exact (Hk q d Hq p df Hp).
    + intros i. rewrite Hn. destruct toy_list2_spec as (_ & _ & ->). lia.
    + exists g', l, g1, g2. split; [reflexivity|]. split; [exact Hb|exact Hg].
Defined.

(** A registration with the collateral in its first output, and a payment from it. *)
Definition toy_reg (k : Z) : CTransaction :=
  mkTx 3 TRANSACTION_PROVIDER_REGISTER [] [txout (15000000 * COIN) (toy_pay k)] 0
    (ser_ProReg false (mkProReg 1 0 0 (mkOutPoint uint256_null 0) CService_null (k :: replicate 19 1) (1 :: k :: replicate 46 0) (replicate 20 4) 0 (toy_pay 3) uint256_null [])).
Definition toy_spend (k : Z) : CTransaction := mkTx 1 0 [mkTxIn (mkOutPoint (GetTxHash toy_hash (toy_reg k)) 0) [] 0] [] 0 [].
Definition toy_gap : list CTransaction := [toy_coinbase; toy_reg 20; toy_reg 21; toy_spend 20].

Lemma removed_registration_crashes_witness : exists g',
  Forall (fun tx => CheckSpecialTx toy_hash (fun k => k) toy_bls toy_px toy_penv_coins (fun _ => Ok None) (fun _ => Ok None) tx (Some toy_list2) = Ok None) toy_gap /\
  ProcessBlock toy_hash toy_sha toy_bls toy_order toy_senv toy_store toy_gap [4] [4] false = Ok (None, g') /\
  GetListForBlock toy_hash toy_bls toy_senv g' [4] = Err AssertFail.
Proof.
  assert (match ProcessBlock toy_hash toy_sha toy_bls toy_order toy_senv toy_store toy_gap [4] [4] false with Ok (None, _) => true | _ => false end = true) as Hok by (vm_compute; reflexivity).
  destruct (ProcessBlock toy_hash toy_sha toy_bls toy_order toy_senv toy_store toy_gap [4] [4] false) as [[[e|] g']|e] eqn:Ep; try discriminate Hok.
  exists g'. split; [repeat constructor; vm_compute; reflexivity|]. split; [reflexivity|].
  destruct toy_store_ok as (Hc & Hu & Hl). destruct (sample_index !! [4]) as [idx|] eqn:Hi; [|exfalso; revert Hi; by vm_compute].
  assert (match BuildNewListFromBlock toy_hash toy_sha toy_bls toy_order toy_senv toy_store toy_gap [3] with Ok (inr l, _) =>
     bool_decide (mnMap l !! GetTxHash toy_hash (toy_reg 21) <> None /\ mnMap toy_list2 !! GetTxHash toy_hash (toy_reg 21) = None /\
       map_Forall (fun p d => mnMap toy_list2 !! p = None -> internalId d <> 2) (mnMap l)) = true | _ => False end) as Hap by (vm_compute; reflexivity).
  destruct (BuildNewListFromBlock toy_hash toy_sha toy_bls toy_order toy_senv toy_store toy_gap [3]) as [[[e|l] g1]|e] eqn:Eb; [destruct Hap| |destruct Hap].
  apply bool_decide_eq_true in Hap as (Hnew & Hold & Hgap).
  apply (removed_registration_crashes toy_hash toy_sha toy_bls toy_order toy_senv sample_index_ok (fun m => reflexivity _) eq_refl
    toy_store toy_gap [4] idx [3] toy_list2 g' l g1 eq_refl Hc Hu Hi); [|exact Hl|exact inv_toy_list2|by vm_compute| |by vm_compute|exact Ep|exact Eb| |].
  - revert Hi. vm_compute. by intros [= <-].
  - revert Hi. vm_compute. by intros [= <-].
  - destruct (mnMap l !! GetTxHash toy_hash (toy_reg 21)) as [d|] eqn:Hd; [|destruct (Hnew eq_refl)]. exists (GetTxHash toy_hash (toy_reg 21)), d. split; [exact Hd|exact Hold].
  - destruct toy_list2_spec as (_ & _ & ->). exact Hgap.
Defined.
