(* ===== verification/QuorumBlocks.v ===== *)
(** * Commitments of quorums in blocks
    (CQuorumBlockProcessor of src/src/llmq/quorums_blockprocessor.cpp, GetBlockHash of
    src/src/validation.cpp)

    While a quorum is being formed the blocks of the mining window have to carry a
    commitment, a null one until the members have agreed.  The first commitment that is
    not null is stored, and undoing its block removes it.  A cache remembers which
    quorums have a commitment; commitments that can still be mined are kept in memory. *)

From Stdlib Require Import ZArith Lia.
From stdpp Require Import base tactics numbers option list strings gmap sorting relations.
From S2P Require Import Prelude ArithUint256 Compact Block Chain Pow Headers Serialize Transaction Rewards Coins BlockCheck ProTx Smartnodes SmartnodeDiff SmartnodePayee Quorum SmartnodeManager SmartnodeBlock SmartnodeStore.

Open Scope Z_scope.

(** ** State *)

(** A commitment is stored under the type and the quorum, and the height of the quorum
    under the type and the height where it was mined. *)
Record EvoState := mkEvoState {
  es_mgr : Manager;                                                (* deterministicMNManager *)
  es_mined : gmap (Z * list Z) (CFinalCommitment * list Z);        (* evoDb, DB_MINED_COMMITMENT *)
  es_mined_height : gmap (Z * Z) Z;                                (* evoDb, DB_MINED_COMMITMENT_BY_INVERSED_HEIGHT *)
  es_best : uint256;                                               (* evoDb, DB_BEST_BLOCK_UPGRADE *)
  hasMinedCommitmentCache : gmap (Z * list Z) bool;
  minableCommitmentsByQuorum : gmap (Z * list Z) (list Z);
  minableCommitments : gmap (list Z) CFinalCommitment
}.

Definition set_mgr (st : EvoState) (g : Manager) : EvoState :=
  mkEvoState g (es_mined st) (es_mined_height st) (es_best st) (hasMinedCommitmentCache st) (minableCommitmentsByQuorum st) (minableCommitments st).
Definition set_mined (st : EvoState) (m : gmap (Z * list Z) (CFinalCommitment * list Z)) (h : gmap (Z * Z) Z) : EvoState :=
  mkEvoState (es_mgr st) m h (es_best st) (hasMinedCommitmentCache st) (minableCommitmentsByQuorum st) (minableCommitments st).
Definition set_best (st : EvoState) (h : uint256) : EvoState :=
  mkEvoState (es_mgr st) (es_mined st) (es_mined_height st) h (hasMinedCommitmentCache st) (minableCommitmentsByQuorum st) (minableCommitments st).
Definition set_hasMined (st : EvoState) (c : gmap (Z * list Z) bool) : EvoState :=
  mkEvoState (es_mgr st) (es_mined st) (es_mined_height st) (es_best st) c (minableCommitmentsByQuorum st) (minableCommitments st).
Definition set_minable (st : EvoState) (q : gmap (Z * list Z) (list Z)) (m : gmap (list Z) CFinalCommitment) : EvoState :=
  mkEvoState (es_mgr st) (es_mined st) (es_mined_height st) (es_best st) (hasMinedCommitmentCache st) q m.
Definition es_llmq (st : EvoState) : LLMQState := mgr_llmq (es_mgr st).

Section Processor.
Context (Hash SHA256 : list Z -> uint256) (B : BLS) (verify_aggregated : list (list Z) -> uint256 -> list Z -> bool).
Context (order : gmap (list Z) CDeterministicMN -> list (list Z * CDeterministicMN)).
Context (V : ManagerEnv).
(** [chainActive] *)
Context (chain : CChain).

(** ** Sessions *)

Definition GetBlockHash (nBlockHeight : Z) : result (option uint256) :=
  match Tip chain with
  | None => Ok None
  | Some _ =>
      if (nBlockHeight <? -1) || (Height chain <? nBlockHeight) then Ok None
      else h ← deref (chain_at chain (if nBlockHeight =? -1 then Height chain else nBlockHeight)); Ok (Some h)
  end.

(** Null for the first block of an interval, whose hash is not known yet. *)
Definition GetQuorumBlockHash (st : EvoState) (llmqType nHeight : Z) : result uint256 :=
  params ← llmqs_at (es_llmq st) llmqType;
  r ← GetBlockHash (nHeight - Z.rem nHeight (q_dkgInterval params));
  Ok (match r with None => uint256_null | Some h => h end).

Definition IsMiningPhase (st : EvoState) (llmqType nHeight : Z) : result bool :=
  params ← llmqs_at (es_llmq st) llmqType;
  Ok (in_mining_window params nHeight).

Definition HasMinedCommitment (st : EvoState) (llmqType : Z) (quorumHash : uint256) : bool * EvoState :=
  match hasMinedCommitmentCache st !! (llmqType, quorumHash) with
  | Some b => (b, st)
  | None =>
      let ret := bool_decide (is_Some (es_mined st !! (llmqType, quorumHash))) in
      (ret, set_hasMined st (<[(llmqType, quorumHash) := ret]> (hasMinedCommitmentCache st)))
  end.

Definition IsCommitmentRequired (st : EvoState) (llmqType nHeight : Z) : result (bool * EvoState) :=
  quorumHash ← GetQuorumBlockHash st llmqType nHeight;
  if IsNull quorumHash then Ok (false, st)
  else
    isMiningPhase ← IsMiningPhase st llmqType nHeight;
    let '(hasMinedCommitment, st) := HasMinedCommitment st llmqType quorumHash in
    Ok (isMiningPhase && negb hasMinedCommitment, st).

(** ** The commitments of a block *)

Fixpoint commitments_loop (ret : gmap Z CFinalCommitment) (vtx : list CTransaction) : reject + gmap Z CFinalCommitment :=
  match vtx with
  | [] => inr ret
  | tx :: vtx =>
      if tx_nType tx =? TRANSACTION_QUORUM_COMMITMENT then
        match GetTxPayload (unser_qcPayload B) (vExtraPayload tx) with
        | None => inl (DoS 100 "bad-tx-payload")
        | Some qc =>
            match ret !! qc_llmqType (commitment qc) with
            | Some _ => inl (DoS 100 "bad-qc-dup")
            | None => commitments_loop (<[qc_llmqType (commitment qc) := commitment qc]> ret) vtx
            end
        end
      else commitments_loop ret vtx
  end.

Definition GetCommitmentsFromBlock (vtx : list CTransaction) : reject + gmap Z CFinalCommitment :=
  match commitments_loop ∅ vtx with
  | inl e => inl e
  | inr ret => if negb (me_DIP0003Enabled V) && negb (bool_decide (ret = ∅)) then inl (DoS 100 "bad-qc-premature") else inr ret
  end.

(** The loop over the types: a commitment exactly where one is required. *)
Fixpoint required_loop (qcs : gmap Z CFinalCommitment) (nHeight : Z) (st : EvoState) (types : list Z) : result (option reject * EvoState) :=
  match types with
  | [] => Ok (None, st)
  | type :: types =>
      let hasCommitmentInNewBlock := bool_decide (is_Some (qcs !! type)) in
      '(isCommitmentRequired, st) ← IsCommitmentRequired st type nHeight;
      if hasCommitmentInNewBlock && negb isCommitmentRequired then Ok (Some (DoS 100 "bad-qc-not-allowed"), st)
      else if negb hasCommitmentInNewBlock && isCommitmentRequired then Ok (Some (DoS 100 "bad-qc-missing"), st)
      else required_loop qcs nHeight st types
  end.

Definition store_commitment (st : EvoState) (type : Z) (quorumHash : uint256) (quorumHeight nHeight : Z) (blockHash : uint256) (qc : CFinalCommitment) : EvoState :=
  let st := set_mined st (<[(type, quorumHash) := (qc, blockHash)]> (es_mined st)) (<[(type, nHeight) := quorumHeight]> (es_mined_height st)) in
  set_hasMined st (delete (type, quorumHash) (hasMinedCommitmentCache st)).

Definition ProcessCommitment (st : EvoState) (nHeight : Z) (blockHash : uint256) (qc : CFinalCommitment) : result (option reject * EvoState) :=
  params ← llmqs_at (es_llmq st) (qc_llmqType qc);
  quorumHash ← GetQuorumBlockHash st (qc_llmqType qc) nHeight;
  if IsNull quorumHash then Ok (Some (DoS 100 "bad-qc-block"), st)
  else if negb (bool_decide (quorumHash = qc_quorumHash qc)) then Ok (Some (DoS 100 "bad-qc-block"), st)
  else if commitment_IsNull B qc then
    Ok (if negb (VerifyNull B (es_llmq st) qc) then Some (DoS 100 "bad-qc-invalid-null") else None, st)
  else
    let '(mined, st) := HasMinedCommitment st (q_type params) quorumHash in
    if (mined : bool) then Ok (Some (DoS 100 "bad-qc-dup"), st)
    else
      phase ← IsMiningPhase st (q_type params) nHeight;
      if negb phase then Ok (Some (DoS 100 "bad-qc-height"), st)
      else
        quorumIndex ← match me_index V !! qc_quorumHash qc with Some i => Ok i | None => Err ValueOutOfRange end;
        '(members, g) ← GetAllQuorumMembers Hash SHA256 B order V (es_mgr st) (q_type params) (qc_quorumHash qc);
        let st := set_mgr st g in
        ok ← Verify Hash B verify_aggregated (es_llmq st) qc members true;
        if negb ok then Ok (Some (DoS 100 "bad-qc-invalid"), st)
        else
          params ← llmqs_at (es_llmq st) (qc_llmqType qc);
          Ok (None, store_commitment st (q_type params) quorumHash (Chain.nHeight quorumIndex) nHeight blockHash qc).

Fixpoint process_loop (nHeight : Z) (blockHash : uint256) (st : EvoState) (qcs : list CFinalCommitment) : result (option reject * EvoState) :=
  match qcs with
  | [] => Ok (None, st)
  | qc :: qcs =>
      '(r, st) ← ProcessCommitment st nHeight blockHash qc;
      match r with
      | Some e => Ok (Some e, st)
      | None => process_loop nHeight blockHash st qcs
      end
  end.

Definition quorum_ProcessBlock (st : EvoState) (vtx : list CTransaction) (blockHash : uint256) (nHeight : Z) : result (option reject * EvoState) :=
  if negb (me_DIP0003Enabled V) then Ok (None, set_best st blockHash)
  else
    match GetCommitmentsFromBlock vtx with
    | inl e => Ok (Some e, st)
    | inr qcs =>
        '(r, st) ← required_loop qcs nHeight st (map_items (llmqs (es_llmq st))).*1;
        match r with
        | Some e => Ok (Some e, st)
        | None =>
            '(r, st) ← process_loop nHeight blockHash st (map_items qcs).*2;
            match r with
            | Some e => Ok (Some e, st)
            | None => Ok (None, set_best st blockHash)
            end
        end
    end.

(** ** Commitments that can be mined *)

(** The relay is left out.  The erased key is the new one: the reference [ins.first->second]
    was assigned before. *)
Definition AddMinableCommitment (st : EvoState) (fqc : CFinalCommitment) : result EvoState :=
  let commitmentHash := Hash (ser_commitment fqc) in
  let k := (qc_llmqType fqc, qc_quorumHash fqc) in
  let emplace m := match m !! commitmentHash with Some _ => m | None => <[commitmentHash := fqc]> m end in
  match minableCommitmentsByQuorum st !! k with
  | None => Ok (set_minable st (<[k := commitmentHash]> (minableCommitmentsByQuorum st)) (emplace (minableCommitments st)))
  | Some h =>
      oldFqc ← match minableCommitments st !! h with Some c => Ok c | None => Err ValueOutOfRange end;
      if CountSigners oldFqc <? CountSigners fqc
      then Ok (set_minable st (<[k := commitmentHash]> (minableCommitmentsByQuorum st)) (emplace (delete commitmentHash (minableCommitments st))))
      else Ok st
  end.

Fixpoint undo_loop (nHeight : Z) (st : EvoState) (qcs : list CFinalCommitment) : result EvoState :=
  match qcs with
  | [] => Ok st
  | qc :: qcs =>
      if commitment_IsNull B qc then undo_loop nHeight st qcs
      else
        let st := set_mined st (delete (qc_llmqType qc, qc_quorumHash qc) (es_mined st)) (delete (qc_llmqType qc, nHeight) (es_mined_height st)) in
        let st := set_hasMined st (delete (qc_llmqType qc, qc_quorumHash qc) (hasMinedCommitmentCache st)) in
        st ← AddMinableCommitment st qc;
        undo_loop nHeight st qcs
  end.

(** The flag says whether the block could be undone. *)
Definition quorum_UndoBlock (st : EvoState) (vtx : list CTransaction) (pindex : ptr) : result (bool * EvoState) :=
  match GetCommitmentsFromBlock vtx with
  | inl _ => Ok (false, st)
  | inr qcs =>
      idx ← deref (me_index V !! pindex);
      st ← undo_loop (nHeight idx) st (map_items qcs).*2;
      prev ← deref (pprev idx);
      Ok (true, set_best st prev)
  end.

(** [CFinalCommitment(params, quorumHash)] *)
Definition null_commitment (params : LLMQParams) (quorumHash : uint256) : CFinalCommitment :=
  mkCommitment CFinalCommitment_CURRENT_VERSION (q_type params) quorumHash (replicate (Z.to_nat (q_size params)) false) (replicate (Z.to_nat (q_size params)) false)
    bls_key_null uint256_null (replicate 96 0) (replicate 96 0).

Definition GetMinableCommitment (st : EvoState) (llmqType nHeight : Z) : result (option CFinalCommitment * EvoState) :=
  '(required, st) ← IsCommitmentRequired st llmqType nHeight;
  if negb required then Ok (None, st)
  else
    quorumHash ← GetQuorumBlockHash st llmqType nHeight;
    if IsNull quorumHash then Ok (None, st)
    else match minableCommitmentsByQuorum st !! (llmqType, quorumHash) with
    | None => params ← llmqs_at (es_llmq st) llmqType; Ok (Some (null_commitment params quorumHash), st)
    | Some h => c ← match minableCommitments st !! h with Some c => Ok c | None => Err ValueOutOfRange end; Ok (Some c, st)
    end.

Definition GetMinableCommitmentTx (st : EvoState) (llmqType nHeight : Z) : result (option CTransaction * EvoState) :=
  '(r, st) ← GetMinableCommitment st llmqType nHeight;
  Ok (match r with
      | None => None
      | Some c => Some (mkTx 3 TRANSACTION_QUORUM_COMMITMENT [] [] 0 (ser_qcPayload (mkQcPayload 1 (u32 nHeight) c)))
      end, st).

(** [ProcessMessage] for a commitment from a peer: the score the peer gets. *)
Definition quorum_ProcessMessage (st : EvoState) (qc : CFinalCommitment) : result (Z * EvoState) :=
  if commitment_IsNull B qc then Ok (100, st)
  else match llmqs (es_llmq st) !! qc_llmqType qc with
  | None => Ok (100, st)
  | Some params =>
      match me_index V !! qc_quorumHash qc with
      | None => Ok (0, st)
      | Some quorum =>
          tip ← deref (Tip chain);
          anc ← GetAncestor (me_index V) tip (nHeight quorum);
          if negb (bool_decide (anc = Some (qc_quorumHash qc))) then Ok (0, st)
          else if negb (nHeight quorum - Z.rem (nHeight quorum) (q_dkgInterval params) =? nHeight quorum) then Ok (100, st)
          else
            let known := h ← minableCommitmentsByQuorum st !! (qc_llmqType qc, qc_quorumHash qc); minableCommitments st !! h in
            if match known with Some c => CountSigners c <=? CountSigners qc | None => false end then Ok (0, st)
            else
              '(members, g) ← GetAllQuorumMembers Hash SHA256 B order V (es_mgr st) (qc_llmqType qc) (qc_quorumHash qc);
              let st := set_mgr st g in
              ok ← Verify Hash B verify_aggregated (es_llmq st) qc members true;
              if negb ok then Ok (100, st)
              else st ← AddMinableCommitment st qc; Ok (0, st)
      end
  end.

(** ** Reading *)

Definition GetMinedCommitment (st : EvoState) (llmqType : Z) (quorumHash : uint256) : option (CFinalCommitment * uint256) := es_mined st !! (llmqType, quorumHash).

(** The heights of the quorums of a type that were mined at a height of at most [nHeight], the
    latest first: the order of the inverted keys.  The key of height 0 ends the walk. *)
Definition mined_le (a b : Z * Z) : Prop := b.1 <= a.1.
#[global] Instance mined_le_dec : RelDecision mined_le := fun a b => Z.le_dec b.1 a.1.
Definition mined_heights (st : EvoState) (llmqType nHeight : Z) : list Z :=
  (merge_sort mined_le (omap (fun p => if bool_decide (p.1.1 = llmqType /\ 0 < p.1.2 <= nHeight) then Some (p.1.2, p.2) else None) (map_to_list (es_mined_height st)))).*2.

Fixpoint ancestors (pindex : ptr) (hs : list Z) : result (list ptr) :=
  match hs with
  | [] => Ok []
  | h :: hs =>
      q ← GetAncestor (me_index V) pindex h;
      match q with
      | None => Err AssertFail
      | Some q => ps ← ancestors pindex hs; Ok (q :: ps)
      end
  end.

Definition GetMinedCommitmentsUntilBlock (st : EvoState) (llmqType : Z) (pindex : ptr) (maxCount : Z) : result (list ptr) :=
  idx ← deref (me_index V !! pindex);
  ancestors pindex (take (Z.to_nat maxCount) (mined_heights st llmqType (nHeight idx))).

Fixpoint active_loop (st : EvoState) (pindex : ptr) (ret : gmap Z (list ptr)) (ps : list LLMQParams) : result (gmap Z (list ptr)) :=
  match ps with
  | [] => Ok ret
  | p :: ps =>
      commitments ← GetMinedCommitmentsUntilBlock st (q_type p) pindex (q_signingActiveQuorumCount p);
      active_loop st pindex (<[q_type p := default [] (ret !! q_type p) ++ commitments]> ret) ps
  end.
Definition GetMinedAndActiveCommitmentsUntilBlock (st : EvoState) (pindex : ptr) : result (gmap Z (list ptr)) :=
  active_loop st pindex ∅ (map_items (llmqs (es_llmq st))).*2.
End Processor.

(** ** The parameters during reads *)

Section Reads.
Context (Hash SHA256 : list Z -> uint256) (B : BLS).
Context (order : gmap (list Z) CDeterministicMN -> list (list Z * CDeterministicMN)).
Context (V : ManagerEnv).

(** Reads change neither the parameters nor the database. *)
Definition same_store (g g' : Manager) : Prop := mgr_llmq g' = mgr_llmq g /\ same_db g g'.

Lemma cache_emplace_store g h l : same_store g (cache_emplace g h l).
Proof. split; [apply cache_emplace_llmq|]. unfold cache_emplace. by destruct (mnListsCache g !! h). Qed.

Lemma find_list_store fuel g h acc sn ds g' : find_list V fuel g h acc = Ok (sn, ds, g') -> same_store g g'.
Proof.
  revert h acc. induction fuel as [|fuel IH]; intros h acc H; cbn [find_list] in H; apply result_bind_Ok in H as (p & _ & H).
  all: destruct (mnListsCache g !! p); [by injection H as _ _ <-|]. all: destruct (db_list_snapshot g !! p); [injection H as _ _ <-; apply cache_emplace_store|].
  all: destruct (db_list_diff g !! p); [|injection H as _ _ <-; apply cache_emplace_store]. 1: done. apply result_bind_Ok in H as (idx & _ & H). by eapply IH.
Qed.

Lemma apply_diffs_store ds r r' : foldM (apply_diff Hash B V) r ds = Ok r' -> same_store r.2 r'.2.
Proof.
  revert r. induction ds as [|[h d] ds IH]; intros [l g] H; cbn [foldM] in H; [by injection H as <-|]. apply result_bind_Ok in H as (r1 & H1 & H). destruct (IH r1 H) as [E1 D1].
  cbn [apply_diff] in H1. apply result_bind_Ok in H1 as (idx & _ & H1). apply result_bind_Ok in H1 as (l1 & _ & [= <-]). destruct (cache_emplace_store g h l1) as [E2 D2]. cbn [snd] in *.
  split; [congruence|by transitivity (cache_emplace g h l1)].
Qed.

Lemma GetListForBlock_llmq g h l g' : llmqs_ok (mgr_llmq g) -> GetListForBlock Hash B V g h = Ok (l, g') -> llmqs_ok (mgr_llmq g') /\ same_db g g'.
Proof.
  intros Hok H. unfold GetListForBlock in H. apply result_bind_Ok in H as (idx & _ & H). apply result_bind_Ok in H as ([[sn ds] g1] & Hf & H). apply result_bind_Ok in H as ([l1 g2] & Ha & [= _ <-]).
  apply find_list_store in Hf as [E1 D1]. apply apply_diffs_store in Ha as [E2 D2]. cbn [snd] in *. split; [|by transitivity g1]. cbn [set_llmq mgr_llmq]. apply UpdateLLMQParams_ok. congruence.
Qed.

Lemma GetAllQuorumMembers_inv g t q ms g' : GetAllQuorumMembers Hash SHA256 B order V g t q = Ok (ms, g') -> exists l, GetListForBlock Hash B V g q = Ok (l, g') /\
  exists params, llmqs (mgr_llmq g') !! t = Some params /\ ms = CalculateQuorum SHA256 (me_evo V) order l (Z.to_nat (q_size params)) (Hash (ser_writedata8 t ++ q)).
Proof.
  intros H. unfold GetAllQuorumMembers in H. apply result_bind_Ok in H as (u & _ & H). apply result_bind_Ok in H as ([l g1] & H1 & H). apply result_bind_Ok in H as (params & Hp & [= <- <-]).
  exists l. split; [done|]. exists params. unfold llmqs_at in Hp. destruct (llmqs (mgr_llmq g1) !! t); [by injection Hp as ->|done].
Qed.
End Reads.

(** ** Processing *)

Section Rules.
Context (Hash SHA256 : list Z -> uint256) (B : BLS) (verify_aggregated : list (list Z) -> uint256 -> list Z -> bool).
Context (order : gmap (list Z) CDeterministicMN -> list (list Z * CDeterministicMN)).
Context (V : ManagerEnv) (chain : CChain).
Abbreviation ProcessCommitment := (ProcessCommitment Hash SHA256 B verify_aggregated order V chain).
Abbreviation process_loop := (process_loop Hash SHA256 B verify_aggregated order V chain).
Abbreviation members_of := (GetAllQuorumMembers Hash SHA256 B order V).

Definition qkey (qc : CFinalCommitment) : Z * list Z := (qc_llmqType qc, qc_quorumHash qc).

(** The cache agrees with the database. *)
Definition mined_cache_ok (st : EvoState) : Prop := forall k b, hasMinedCommitmentCache st !! k = Some b -> b = bool_decide (is_Some (es_mined st !! k)).

(** Only the cache differs. *)
Definition same_but_cache (st st' : EvoState) : Prop := exists c, st' = set_hasMined st c.

#[local] Instance same_but_cache_preorder : PreOrder same_but_cache.
Proof. split; [intros st; exists (hasMinedCommitmentCache st); by destruct st|]. intros st1 st2 st3 [c1 ->] [c2 ->]. by exists c2. Qed.

Lemma HasMined_spec st t q b st' : mined_cache_ok st -> HasMinedCommitment st t q = (b, st') -> b = bool_decide (is_Some (es_mined st !! (t, q))) /\ same_but_cache st st' /\ mined_cache_ok st'.
Proof.
  intros Hc H. unfold HasMinedCommitment in H. destruct (hasMinedCommitmentCache st !! (t, q)) as [b0|] eqn:Ec.
  - injection H as <- <-. split_and!; [by apply Hc|done|done].
  - injection H as <- <-. split; [done|]. split; [by eexists|]. intros k b Hk. cbn [set_hasMined hasMinedCommitmentCache es_mined] in *. apply lookup_insert_Some in Hk as [[<- <-]|[_ Hk]]; [done|by apply Hc].
Qed.

(** The quorum that is formed at a height, and whether a block there has to have a
    commitment for it. *)
Definition session (t n : Z) : option uint256 :=
  match GetBlockHash chain (n - Z.rem n (schedule t).1.1) with Ok (Some h) => if IsNull h then None else Some h | _ => None end.
Definition in_window (t n : Z) : bool := let '(interval, start, stop) := schedule t in (start <=? Z.rem n interval) && (Z.rem n interval <=? stop).
Definition due (st : EvoState) (t n : Z) : bool :=
  match session t n with Some q => in_window t n && negb (bool_decide (is_Some (es_mined st !! (t, q)))) | None => false end.

Lemma params_schedule st t p : llmqs_ok st -> llmqs st !! t = Some p -> q_type p = t /\ schedule t = (q_dkgInterval p, q_dkgMiningWindowStart p, q_dkgMiningWindowEnd p).
Proof. intros [_ Hm] Hp. specialize (Hm t p Hp). unfold params_ok in Hm. by destruct_and! Hm. Qed.

Lemma session_hash st t n q : llmqs_ok (es_llmq st) -> GetQuorumBlockHash chain st t n = Ok q -> session t n = (if IsNull q then None else Some q).
Proof.
  intros Hok H. unfold GetQuorumBlockHash, llmqs_at in H. destruct (llmqs (es_llmq st) !! t) as [p|] eqn:Ep; [|done]. cbn [mbind result_bind] in H. destruct (params_schedule _ t p Hok Ep) as [_ Es].
  apply result_bind_Ok in H as (r & Hr & [= <-]). unfold session. rewrite Es. cbn [fst]. rewrite Hr. by destruct r.
Qed.

Lemma mining_phase st t n b : llmqs_ok (es_llmq st) -> IsMiningPhase st t n = Ok b -> b = in_window t n.
Proof.
  intros Hok H. unfold IsMiningPhase, llmqs_at in H. destruct (llmqs (es_llmq st) !! t) as [p|] eqn:Ep; [|done]. destruct (params_schedule _ t p Hok Ep) as [_ Es]. injection H as <-.
  unfold in_window, in_mining_window. by rewrite Es.
Qed.

Lemma required_spec st t n b st' : llmqs_ok (es_llmq st) -> mined_cache_ok st -> IsCommitmentRequired chain st t n = Ok (b, st') -> b = due st t n /\ same_but_cache st st' /\ mined_cache_ok st'.
Proof.
  intros Hok Hc H. unfold IsCommitmentRequired in H. apply result_bind_Ok in H as (q & Hq & H). pose proof (session_hash st t n q Hok Hq) as Hs. unfold due. rewrite Hs. destruct (IsNull q); [by injection H as <- <-|].
  apply result_bind_Ok in H as (ph & Hph & H). apply (mining_phase st t n ph Hok) in Hph as ->. destruct (HasMinedCommitment st t q) as [m st1] eqn:Em. injection H as <- <-.
  destruct (HasMined_spec st t q m st1 Hc Em) as (-> & H1 & H2). done.
Qed.

Lemma required_loop_spec qcs n types st st' : llmqs_ok (es_llmq st) -> mined_cache_ok st -> required_loop chain qcs n st types = Ok (None, st') ->
  (forall t, t ∈ types -> bool_decide (is_Some (qcs !! t)) = due st t n) /\ same_but_cache st st' /\ mined_cache_ok st'.
Proof.
  revert st. induction types as [|t types IH]; intros st Hok Hc H; cbn [required_loop] in H; [injection H as <-; split_and!; [by intros t ?%elem_of_nil|done|done]|].
  apply result_bind_Ok in H as ([b st1] & H1 & H). destruct (required_spec st t n b st1 Hok Hc H1) as (Eb & [c ->] & Hc1).
  destruct (bool_decide (is_Some (qcs !! t)) && negb b) eqn:E1; [done|]. destruct (negb (bool_decide (is_Some (qcs !! t))) && b) eqn:E2; [done|].
  destruct (IH (set_hasMined st c) Hok Hc1 H) as (Ht & Hs & Hc'). split_and!; [|etransitivity; [by eexists|exact Hs]|done].
  intros t' [->|Ht']%elem_of_cons; [|exact (Ht t' Ht')]. destruct (bool_decide _), b; done.
Qed.

(** What is the same before and after, apart from the commitments that are stored. *)
Definition same_rest (st st' : EvoState) : Prop :=
  es_best st' = es_best st /\ minableCommitmentsByQuorum st' = minableCommitmentsByQuorum st /\ minableCommitments st' = minableCommitments st.

(** The manager of the smartnodes only reads lists, those of the quorums of [qcs]. *)
Definition lists_read (qcs : list CFinalCommitment) : Manager -> Manager -> Prop :=
  rtc (fun g g' => exists qc l, qc ∈ qcs /\ GetListForBlock Hash B V g (qc_quorumHash qc) = Ok (l, g')).

Lemma lists_read_app qcs1 qcs2 qcs g1 g2 g3 : qcs1 ⊆ qcs -> qcs2 ⊆ qcs -> lists_read qcs1 g1 g2 -> lists_read qcs2 g2 g3 -> lists_read qcs g1 g3.
Proof.
  assert (forall l, l ⊆ qcs -> forall g g', lists_read l g g' -> lists_read qcs g g') as Hm.
  { intros l Hl g g'. apply rtc_subrel. intros x y (qc & ls & Hin & Hr). exists qc, ls. split; [by apply Hl|done]. }
  intros H1 H2 R1%(Hm _ H1) R2%(Hm _ H2). by transitivity g2.
Qed.

(** A commitment with the signatures of its members is entered: the members are those of
    the list of the block of the quorum, by the parameters after that list is read. *)
Definition signed (g : Manager) (qc : CFinalCommitment) (g' : Manager) : Prop :=
  exists l params, GetListForBlock Hash B V g (qc_quorumHash qc) = Ok (l, g') /\ llmqs (mgr_llmq g') !! qc_llmqType qc = Some params /\
    Verify Hash B verify_aggregated (mgr_llmq g') qc
      (CalculateQuorum SHA256 (me_evo V) order l (Z.to_nat (q_size params)) (Hash (ser_writedata8 (qc_llmqType qc) ++ qc_quorumHash qc))) true = Ok true.
Definition stores (st : EvoState) (n : Z) (bh : uint256) (qc : CFinalCommitment) (st' : EvoState) : Prop :=
  commitment_IsNull B qc = false /\ in_window (qc_llmqType qc) n = true /\ es_mined st !! qkey qc = None /\ signed (es_mgr st) qc (es_mgr st') /\
  es_mined st' = <[qkey qc := (qc, bh)]> (es_mined st) /\
  (exists i, me_index V !! qc_quorumHash qc = Some i /\ es_mined_height st' = <[(qc_llmqType qc, n) := nHeight i]> (es_mined_height st)).

Lemma ProcessCommitment_spec st n bh qc st' : llmqs_ok (es_llmq st) -> mined_cache_ok st -> ProcessCommitment st n bh qc = Ok (None, st') ->
  session (qc_llmqType qc) n = Some (qc_quorumHash qc) /\ ((commitment_IsNull B qc = true /\ VerifyNull B (es_llmq st) qc = true /\ st' = st) \/ stores st n bh qc st') /\
  same_rest st st' /\ mined_cache_ok st' /\ llmqs_ok (es_llmq st') /\ same_db (es_mgr st) (es_mgr st') /\ lists_read [qc] (es_mgr st) (es_mgr st') /\
  is_Some (llmqs (es_llmq st) !! qc_llmqType qc).
Proof.
  intros Hok Hc H. unfold QuorumBlocks.ProcessCommitment in H. apply result_bind_Ok in H as (params & Hp & H). unfold llmqs_at in Hp. destruct (llmqs (es_llmq st) !! qc_llmqType qc) as [params'|] eqn:Ep; [|done]. injection Hp as ->.
  destruct (params_schedule _ _ params Hok Ep) as [Ety _]. apply result_bind_Ok in H as (q & Hq & H). apply (session_hash st _ n q Hok) in Hq. destruct (IsNull q); [done|].
  destruct (bool_decide (q = qc_quorumHash qc)) eqn:Eq; cbn [negb] in H; [|done]. apply bool_decide_eq_true in Eq as ->. split; [done|]. destruct (commitment_IsNull B qc) eqn:En.
  { destruct (VerifyNull B (es_llmq st) qc) eqn:Ev; cbn [negb] in H; [|done]. injection H as <-. split_and!; [by left|done..]. }
  rewrite Ety in H. destruct (HasMinedCommitment st (qc_llmqType qc) (qc_quorumHash qc)) as [m st1] eqn:Em. destruct (HasMined_spec st _ _ m st1 Hc Em) as (-> & [c ->] & Hc1). destruct (bool_decide (is_Some _)) eqn:Es; [done|].
  apply bool_decide_eq_false, eq_None_not_Some in Es. apply result_bind_Ok in H as (ph & Hph & H). apply (mining_phase (set_hasMined st c) _ n ph Hok) in Hph. destruct ph; cbn [negb] in H; [|done].
  apply result_bind_Ok in H as (qi & Hqi & H). apply result_bind_Ok in H as ([ms g'] & Hms & H). apply result_bind_Ok in H as (ok & Hv & H). destruct ok; cbn [negb] in H; [|done].
  destruct (GetAllQuorumMembers_inv Hash SHA256 B order V _ _ _ _ _ Hms) as (l & Hl & pq & Epq & Ems). destruct (GetListForBlock_llmq Hash B V _ _ _ _ Hok Hl) as [Hok' Hdb'].
  apply result_bind_Ok in H as (params2 & Hp2 & [= <-]). unfold llmqs_at in Hp2. change (es_llmq (set_mgr (set_hasMined st c) g')) with (mgr_llmq g') in Hp2. destruct (llmqs (mgr_llmq g') !! qc_llmqType qc) as [p'|] eqn:Ep2; [|done]. injection Hp2 as ->.
  destruct (params_schedule _ _ params2 Hok' Ep2) as [Ety2 _]. rewrite Ety2. cbn [store_commitment]. split; [right|split; [by split_and!|split; [|split; [exact Hok'|split; [exact Hdb'|split; [apply rtc_once; exists qc, l; split; [apply list_elem_of_here|exact Hl]|by eexists]]]]]].
  - split; [done|]. split; [done|]. split; [done|]. cbn [store_commitment set_hasMined set_mined set_mgr es_mgr es_mined es_mined_height]. split; [exists l, pq; rewrite <- Ems; split; [exact Hl|split; [congruence|exact Hv]]|]. split; [done|].
    exists qi. split; [destruct (me_index V !! qc_quorumHash qc); [by injection Hqi as ->|done]|done].
  - intros k b Hk. cbn [store_commitment set_hasMined set_mined set_mgr hasMinedCommitmentCache es_mined] in *. apply lookup_delete_Some in Hk as [Hne Hk]. rewrite lookup_insert_ne by done. by apply Hc1.
Qed.

(** Reads of the manager do not enter the block that is being processed. *)
Lemma ProcessCommitment_keeps b st n bh qc r st' : qc_quorumHash qc <> b -> ProcessCommitment st n bh qc = Ok (r, st') -> keeps Hash B V b (es_mgr st) (es_mgr st').
Proof.
  intros Hb H. unfold QuorumBlocks.ProcessCommitment in H. apply result_bind_Ok in H as (params & _ & H). apply result_bind_Ok in H as (q & _ & H). destruct (IsNull q); [by injection H as _ <-|]. destruct (negb _); [by injection H as _ <-|].
  destruct (commitment_IsNull B qc); [by injection H as _ <-|]. assert (es_mgr (HasMinedCommitment st (q_type params) q).2 = es_mgr st) as Em by (unfold HasMinedCommitment; by destruct (hasMinedCommitmentCache st !! _)).
  destruct (HasMinedCommitment st (q_type params) q) as [m st1]. cbn [snd] in Em. destruct m; [injection H as _ <-; by rewrite Em|]. apply result_bind_Ok in H as (ph & _ & H). destruct (negb ph); [injection H as _ <-; by rewrite Em|].
  apply result_bind_Ok in H as (qi & _ & H). apply result_bind_Ok in H as ([ms g'] & Hms & H). apply result_bind_Ok in H as (ok & _ & H). destruct (GetAllQuorumMembers_inv Hash SHA256 B order V _ _ _ _ _ Hms) as (l & Hl & _). rewrite Em in Hl.
  pose proof (read_keeps Hash B V b _ _ _ _ Hb Hl) as Hk. destruct (negb ok); [by injection H as _ <-|]. by apply result_bind_Ok in H as (p2 & _ & [= _ <-]).
Qed.

(** What a commitment of an accepted block satisfies. *)
Definition commitment_null (qcs : list CFinalCommitment) (st : EvoState) (qc : CFinalCommitment) : Prop :=
  commitment_IsNull B qc = true /\ exists g, lists_read qcs (es_mgr st) g /\ VerifyNull B (mgr_llmq g) qc = true.
Definition commitment_stored (qcs : list CFinalCommitment) (st : EvoState) (n : Z) (bh : uint256) (st' : EvoState) (qc : CFinalCommitment) : Prop :=
  in_window (qc_llmqType qc) n = true /\ es_mined st !! qkey qc = None /\ es_mined st' !! qkey qc = Some (qc, bh) /\
  (exists i, me_index V !! qc_quorumHash qc = Some i /\ es_mined_height st' !! (qc_llmqType qc, n) = Some (nHeight i)) /\
  exists g g', lists_read qcs (es_mgr st) g /\ signed g qc g'.

(** Apart from the keys of the commitments of [qcs] that are not null the database is the same. *)
Definition only_stored (qcs : list CFinalCommitment) (n : Z) (st st' : EvoState) : Prop :=
  (forall k, (forall qc, qc ∈ qcs -> commitment_IsNull B qc = false -> k <> qkey qc) -> es_mined st' !! k = es_mined st !! k) /\
  (forall k, (forall qc, qc ∈ qcs -> commitment_IsNull B qc = false -> k <> (qc_llmqType qc, n)) -> es_mined_height st' !! k = es_mined_height st !! k).

Lemma stores_only st n bh qc st' : stores st n bh qc st' -> only_stored [qc] n st st'.
Proof.
  intros (Hn & _ & _ & _ & Em & i & _ & Eh). split; intros k Hk; [rewrite Em|rewrite Eh]; apply lookup_insert_ne; apply not_eq_sym, Hk; [by left|done|by left|done].
Qed.

Lemma only_stored_app qcs1 qcs2 n st1 st2 st3 : only_stored qcs1 n st1 st2 -> only_stored qcs2 n st2 st3 -> only_stored (qcs1 ++ qcs2) n st1 st3.
Proof.
  intros [A1 B1] [A2 B2]. split; intros k Hk; [rewrite A2, A1|rewrite B2, B1]; try done; intros qc Hqc; apply Hk; rewrite elem_of_app; auto.
Qed.

Lemma process_loop_spec n bh qcs st st' : NoDup (qc_llmqType <$> qcs) -> llmqs_ok (es_llmq st) -> mined_cache_ok st -> process_loop n bh st qcs = Ok (None, st') ->
  (forall qc, qc ∈ qcs -> session (qc_llmqType qc) n = Some (qc_quorumHash qc) /\ (commitment_null qcs st qc \/ commitment_stored qcs st n bh st' qc)) /\
  only_stored qcs n st st' /\ same_rest st st' /\ mined_cache_ok st' /\ llmqs_ok (es_llmq st') /\ same_db (es_mgr st) (es_mgr st') /\
  lists_read qcs (es_mgr st) (es_mgr st') /\ forall qc, qc ∈ qcs -> is_Some (llmqs (es_llmq st) !! qc_llmqType qc).
Proof.
  revert st. induction qcs as [|qc qcs IH]; intros st Hnd Hok Hc H; cbn [process_loop] in H; [injection H as <-; split_and!; try done; by intros qc ?%elem_of_nil|].
  apply result_bind_Ok in H as ([[e|] st1] & H1 & H); [done|]. apply NoDup_cons in Hnd as [Hni0 Hnd].
  assert (forall q, q ∈ qcs -> qc_llmqType q <> qc_llmqType qc) as Hni by (intros q Hq Et; apply Hni0; rewrite <- Et; by apply (list_elem_of_fmap_2 qc_llmqType)).
  destruct (ProcessCommitment_spec st n bh qc st1 Hok Hc H1) as (Hs & Hst & (R1 & R2 & R3) & Hc1 & Hok1 & Hdb1 & Hr1 & Hk1).
  destruct (IH st1 Hnd Hok1 Hc1 H) as (Hall & Honly & (R4 & R5 & R6) & Hc' & Hok' & Hdb' & Hr' & Hk').
  assert (forall k, k.1 = qc_llmqType qc -> es_mined st' !! k = es_mined st1 !! k) as Hkeep.
  { intros k Hk. apply Honly. intros qc' Hqc' _ ->. by apply (Hni qc' Hqc'). }
  assert (es_mined_height st' !! (qc_llmqType qc, n) = es_mined_height st1 !! (qc_llmqType qc, n)) as Hkeep2.
  { apply Honly. intros qc' Hqc' _ [= Et]. by apply (Hni qc' Hqc'). }
  assert (only_stored [qc] n st st1) as Ho1 by (destruct Hst as [(_ & _ & ->)|Hst]; [done|by eapply stores_only]).
  assert ([qc] ⊆ qc :: qcs /\ qcs ⊆ qc :: qcs) as [Hs1 Hs2] by (split; set_solver).
  split_and!; [|exact (only_stored_app [qc] qcs n st st1 st' Ho1 Honly)|split_and!; congruence|done|done|by transitivity (es_mgr st1)|by apply (lists_read_app [qc] qcs _ _ (es_mgr st1))|].
  - intros qc' [->|Hin]%elem_of_cons.
    + split; [done|]. destruct Hst as [(? & ? & _)|(Hn & Hw & Hm & Hsig & Em & i & Hi & Eh)]; [left; split; [done|]; by exists (es_mgr st)|]. right. split_and!; [done..| | |].
      * rewrite (Hkeep (qkey qc)) by done. by rewrite Em, lookup_insert_eq.
      * exists i. by rewrite Hkeep2, Eh, lookup_insert_eq.
      * by exists (es_mgr st), (es_mgr st1).
    + destruct (Hall qc' Hin) as [Hs' [[Hn (g & Hg & Hv)]|(Hw & Hm & Hm' & Hh & g & g' & Hg & Hsg)]]; (split; [done|]).
      { left. split; [done|]. exists g. split; [by apply (lists_read_app [qc] qcs _ _ (es_mgr st1))|done]. }
      right. split_and!; [done| |done|done|exists g, g'; split; [by apply (lists_read_app [qc] qcs _ _ (es_mgr st1))|done]].
      rewrite <- Hm. symmetry. apply Ho1. intros q ->%list_elem_of_singleton _ [= Et _]. by apply (Hni qc' Hin).
  - intros qc' [->|Hin]%elem_of_cons; [done|]. apply elem_of_dom. rewrite (proj1 Hok), <- (proj1 Hok1). by apply elem_of_dom, Hk'.
Qed.

Lemma commitments_loop_from vtx ret m t qc : commitments_loop B ret vtx = inr m -> m !! t = Some qc -> ret !! t = Some qc \/ qc_llmqType qc = t.
Proof.
  revert ret. induction vtx as [|tx vtx IH]; intros ret H Hm; cbn [commitments_loop] in H; [injection H as ->; by left|]. destruct (_ =? _); [|by apply (IH ret)].
  destruct (GetTxPayload _ _) as [p|]; [|done]. destruct (ret !! qc_llmqType (commitment p)); [done|]. destruct (IH _ H Hm) as [Hr|?]; [|by right].
  apply lookup_insert_Some in Hr as [[<- <-]|[_ ?]]; [by right|by left].
Qed.

Lemma block_commitments_types vtx qcs : GetCommitmentsFromBlock B V vtx = inr qcs ->
  (forall t qc, qcs !! t = Some qc -> qc_llmqType qc = t /\ qc ∈ (map_items qcs).*2) /\ (forall qc, qc ∈ (map_items qcs).*2 -> qcs !! qc_llmqType qc = Some qc) /\ NoDup (qc_llmqType <$> (map_items qcs).*2).
Proof.
  intros H. unfold GetCommitmentsFromBlock in H. destruct (commitments_loop B ∅ vtx) as [e|m] eqn:El; [done|]. destruct (_ && _); [done|]. injection H as <-.
  assert (forall t qc, m !! t = Some qc -> qc_llmqType qc = t) as Ht by (intros t qc Hm; by destruct (commitments_loop_from vtx ∅ m t qc El Hm) as [Hr|?]; [rewrite lookup_empty in Hr|]).
  assert (forall p, p ∈ map_items m <-> m !! p.1 = Some p.2) as Hin by (intros [t qc]; rewrite map_items_perm, elem_of_map_to_list; done). split_and!.
  - intros t qc Hm. split; [by apply Ht|]. apply list_elem_of_fmap. exists (t, qc). split; [done|]. by apply Hin.
  - intros qc (p & -> & Hp)%list_elem_of_fmap. apply Hin in Hp. by rewrite (Ht _ _ Hp).
  - rewrite <- list_fmap_compose. assert (qc_llmqType ∘ snd <$> map_items m = (map_items m).*1) as ->.
    { apply list_fmap_ext. intros j [t qc] Hp%list_elem_of_lookup_2. apply Hin in Hp. by apply Ht. }
    rewrite map_items_perm. apply NoDup_fst_map_to_list.
Qed.

(** The commitments that the transactions of a block carry. *)
Definition carried (tx : CTransaction) : option CFinalCommitment :=
  if tx_nType tx =? TRANSACTION_QUORUM_COMMITMENT then commitment <$> GetTxPayload (unser_qcPayload B) (vExtraPayload tx) else None.
Definition block_commitments (vtx : list CTransaction) : list CFinalCommitment := omap carried vtx.

Lemma commitments_loop_carried vtx ret m : commitments_loop B ret vtx = inr m ->
  (forall tx, tx ∈ vtx -> tx_nType tx = TRANSACTION_QUORUM_COMMITMENT -> is_Some (carried tx)) /\
  (forall qc, qc ∈ block_commitments vtx -> ret !! qc_llmqType qc = None /\ m !! qc_llmqType qc = Some qc) /\
  NoDup (qc_llmqType <$> block_commitments vtx) /\ (forall t qc, ret !! t = Some qc -> m !! t = Some qc) /\
  forall t qc, m !! t = Some qc -> ret !! t = Some qc \/ qc ∈ block_commitments vtx.
Proof.
  revert ret. induction vtx as [|tx vtx IH]; intros ret H; cbn [commitments_loop] in H.
  { injection H as ->. split_and!; [by intros tx ?%elem_of_nil|by intros qc ?%elem_of_nil|constructor|done|]. intros t qc Hm. by left. }
  assert (block_commitments (tx :: vtx) = match carried tx with Some c => c :: block_commitments vtx | None => block_commitments vtx end) as -> by done.
  destruct (Z.eqb_spec (tx_nType tx) TRANSACTION_QUORUM_COMMITMENT) as [Ht|Ht].
  2:{ assert (carried tx = None) as -> by (unfold carried; by rewrite (proj2 (Z.eqb_neq _ _) Ht)). destruct (IH ret H) as (H1 & H2 & H3 & H4 & H5). split_and!; try done.
      intros tx' [->|Hin]%elem_of_cons Ht'; [done|by apply H1]. }
  destruct (GetTxPayload _ _) as [p|] eqn:Ep; [|done]. set (c := commitment p) in *. assert (carried tx = Some c) as Ec by (unfold carried; by rewrite Ht, Z.eqb_refl, Ep). rewrite Ec. destruct (ret !! qc_llmqType c) eqn:Er; [done|]. destruct (IH _ H) as (H1 & H2 & H3 & H4 & H5). split_and!.
  - intros tx' [->|Hin]%elem_of_cons Ht'; [by eexists|by apply H1].
  - intros qc [->|Hin]%elem_of_cons; [split; [done|]; apply H4, lookup_insert_eq|]. destruct (H2 qc Hin) as [Hn Hm]. split; [by apply lookup_insert_None in Hn as [? _]|done].
  - apply NoDup_cons. split; [|done]. intros (qc & Et & Hin)%list_elem_of_fmap. destruct (H2 qc Hin) as [Hn _]. rewrite <- Et, lookup_insert_eq in Hn. done.
  - intros t qc Hr. apply H4. rewrite lookup_insert_ne; [done|]. intros <-. congruence.
  - intros t qc Hm. destruct (H5 t qc Hm) as [Hr|Hin]; [|right; by right]. apply lookup_insert_Some in Hr as [[_ <-]|[_ Hr]]; [right; by left|by left].
Qed.

(** The map of [GetCommitmentsFromBlock] holds what the transactions carry. *)
Lemma block_commitments_map vtx qcs : GetCommitmentsFromBlock B V vtx = inr qcs ->
  (forall tx, tx ∈ vtx -> tx_nType tx = TRANSACTION_QUORUM_COMMITMENT -> is_Some (carried tx)) /\ NoDup (qc_llmqType <$> block_commitments vtx) /\
  (forall qc, qc ∈ block_commitments vtx <-> qc ∈ (map_items qcs).*2) /\ forall t, is_Some (qcs !! t) <-> t ∈ qc_llmqType <$> block_commitments vtx.
Proof.
  intros H. destruct (block_commitments_types vtx qcs H) as (Ht & Hby & _). unfold GetCommitmentsFromBlock in H. destruct (commitments_loop B ∅ vtx) as [e|m] eqn:El; [done|]. destruct (_ && _); [done|]. injection H as ->.
  destruct (commitments_loop_carried vtx ∅ qcs El) as (H1 & H2 & H3 & _ & H5). assert (forall t qc, qcs !! t = Some qc -> qc ∈ block_commitments vtx) as Hin.
  { intros t qc Hq. destruct (H5 t qc Hq) as [Hr|?]; [by rewrite lookup_empty in Hr|done]. }
  split_and!; [done|done| |].
  - intros qc. split; [intros Hc; apply (Ht (qc_llmqType qc)), H2, Hc|intros Hc; by apply (Hin (qc_llmqType qc)), Hby].
  - intros t. rewrite list_elem_of_fmap. split; [intros [qc Hq]; exists qc; split; [symmetry; by apply Ht|by apply (Hin t)]|intros (qc & -> & Hc); exists qc; by apply H2].
Qed.

Lemma count_type (l : list CFinalCommitment) t : NoDup (qc_llmqType <$> l) ->
  length (filter (fun qc => qc_llmqType qc = t) l) = if bool_decide (t ∈ qc_llmqType <$> l) then 1%nat else 0%nat.
Proof.
  induction l as [|c l IH]; intros Hnd; [done|]. change (NoDup (qc_llmqType c :: (qc_llmqType <$> l))) in Hnd.
  apply NoDup_cons in Hnd as [Hni Hnd]. rewrite filter_cons. destruct (decide (qc_llmqType c = t)) as [Ht|Ht].
  - rewrite length_cons, IH by done. rewrite bool_decide_false, bool_decide_true; [done|rewrite <- Ht; apply list_elem_of_here|by rewrite <- Ht].
  - rewrite IH by done. rewrite (bool_decide_ext (t ∈ qc_llmqType <$> c :: l) (t ∈ qc_llmqType <$> l)); [done|]. cbn [fmap list_fmap]. rewrite elem_of_cons. naive_solver.
Qed.

(** Reading lists keeps the cache of the manager right. *)
Lemma lists_read_ok qcs g g' : cache_ok Hash B V g -> lists_read qcs g g' -> cache_ok Hash B V g' /\ same_db g g'.
Proof.
  intros Hc Hr. induction Hr as [g|g g1 g' (qc & l & _ & Hl) _ IH]; [done|]. destruct (GetListForBlock_sound Hash B V g _ (l, g1) Hc Hl) as (_ & Hc1 & Hdb & _).
  destruct (IH Hc1) as [? ?]. split; [done|]. by transitivity g1.
Qed.

Abbreviation quorum_ProcessBlock := (quorum_ProcessBlock Hash SHA256 B verify_aggregated order V chain).

Lemma ProcessBlock_inv st vtx bh n st' : me_DIP0003Enabled V = true -> llmqs_ok (es_llmq st) -> mined_cache_ok st -> quorum_ProcessBlock st vtx bh n = Ok (None, st') ->
  exists qcs st1 st2, GetCommitmentsFromBlock B V vtx = inr qcs /\ (forall t, is_Some (llmqs (es_llmq st) !! t) -> bool_decide (is_Some (qcs !! t)) = due st t n) /\
    same_but_cache st st1 /\ mined_cache_ok st1 /\ process_loop n bh st1 (map_items qcs).*2 = Ok (None, st2) /\ st' = set_best st2 bh.
Proof.
  intros Hdip Hok Hc H. unfold QuorumBlocks.quorum_ProcessBlock in H. rewrite Hdip in H. cbn [negb] in H. destruct (GetCommitmentsFromBlock B V vtx) as [e|qcs] eqn:Eq; [done|].
  apply result_bind_Ok in H as ([[e|] st1] & H1 & H); [done|]. destruct (required_loop_spec qcs n _ st st1 Hok Hc H1) as (Hreq & Hs & Hc1). apply result_bind_Ok in H as ([[e|] st2] & H2 & H); [done|]. injection H as <-.
  exists qcs, st1, st2. split_and!; try done. intros t [p Hp]. apply Hreq. apply list_elem_of_fmap. exists (t, p). split; [done|]. rewrite map_items_perm. by apply elem_of_map_to_list.
Qed.

(** The signatures of a commitment were verified with the members that the list of the
    block of its quorum gives, as the database has it, and with the quorum parameters as
    they are after that list was read; before, at most the lists for the other commitments
    [qcs] of the block were read. *)
Definition verified_by_members (qcs : list CFinalCommitment) (st : EvoState) (qc : CFinalCommitment) : Prop :=
  exists l g g' params, list_at Hash B V (es_mgr st) (qc_quorumHash qc) l /\ lists_read qcs (es_mgr st) g /\
    GetListForBlock Hash B V g (qc_quorumHash qc) = Ok (l, g') /\ llmqs (mgr_llmq g') !! qc_llmqType qc = Some params /\
    Verify Hash B verify_aggregated (mgr_llmq g') qc
      (CalculateQuorum SHA256 (me_evo V) order l (Z.to_nat (q_size params)) (Hash (ser_writedata8 (qc_llmqType qc) ++ qc_quorumHash qc))) true = Ok true.

Lemma stored_verified qcs st n bh st' qc : cache_ok Hash B V (es_mgr st) -> commitment_stored qcs st n bh st' qc -> verified_by_members qcs st qc.
Proof.
  intros Hc (_ & _ & _ & _ & g & g' & Hr & l & params & Hl & Hp & Hv). destruct (lists_read_ok _ _ _ Hc Hr) as [Hcg Hdb].
  destruct (GetListForBlock_sound Hash B V g _ (l, g') Hcg Hl) as (Hat & _). exists l, g, g', params. split_and!; [|done..].
  apply (list_at_db Hash B V g); [by apply same_db_sym|done].
Qed.

(** Only which commitments there are matters. *)
Lemma passes_mono qcs qcs' st n bh st' qc : qcs ⊆ qcs' -> commitment_null qcs st qc \/ commitment_stored qcs st n bh st' qc ->
  commitment_null qcs' st qc \/ commitment_stored qcs' st n bh st' qc.
Proof.
  intros Hs. assert (forall g, lists_read qcs (es_mgr st) g -> lists_read qcs' (es_mgr st) g) as Hm by (intros g Hg; by apply (lists_read_app qcs qcs _ _ g)).
  intros [[Hn (g & Hg & Hv)]|(H1 & H2 & H3 & H4 & g & g' & Hg & Hsg)]; [left; split; [done|]; exists g; auto|]. right. split_and!; [done..|]. exists g, g'. auto.
Qed.

(** C18: The blocks of a mining window carry the commitments they have to.  Let DIP0003 be
    active and the quorum parameters and the caches of the mined commitments and of the
    lists be right.  When a block is accepted, every
    commitment transaction of it can be read, each carries a commitment of a known type
    of quorum, and of each type there is exactly one commitment in the block while the
    quorum of the session has none in the database and the height is in the mining
    window, and none otherwise.  Every commitment is for the quorum of the session.  A null
    one has the form of one; one that is not null was not there before, its signatures
    were verified with the members that are calculated from the list which the database
    has for the block of the quorum, and it is stored, with the height of the quorum.
    Nothing else is stored, and the caches are right again. *)
Theorem block_commitments_enforced st vtx bh n st' : me_DIP0003Enabled V = true -> llmqs_ok (es_llmq st) -> mined_cache_ok st -> cache_ok Hash B V (es_mgr st) ->
  quorum_ProcessBlock st vtx bh n = Ok (None, st') ->
  (forall tx, tx ∈ vtx -> tx_nType tx = TRANSACTION_QUORUM_COMMITMENT -> is_Some (carried tx)) /\
  (forall t, is_Some (llmqs (es_llmq st) !! t) ->
    length (filter (fun qc => qc_llmqType qc = t) (block_commitments vtx)) = if due st t n then 1%nat else 0%nat) /\
  (forall qc, qc ∈ block_commitments vtx -> is_Some (llmqs (es_llmq st) !! qc_llmqType qc) /\ session (qc_llmqType qc) n = Some (qc_quorumHash qc) /\
    (commitment_null (block_commitments vtx) st qc \/
     commitment_stored (block_commitments vtx) st n bh st' qc /\ verified_by_members (block_commitments vtx) st qc)) /\
  only_stored (block_commitments vtx) n st st' /\ mined_cache_ok st' /\ llmqs_ok (es_llmq st') /\ cache_ok Hash B V (es_mgr st') /\ same_db (es_mgr st) (es_mgr st').
Proof.
  intros Hdip Hok Hc Hmc H. destruct (ProcessBlock_inv st vtx bh n st' Hdip Hok Hc H) as (qcs & st1 & st2 & Eq & Hreq & [c ->] & Hc1 & Hl & ->). destruct (block_commitments_types vtx qcs Eq) as (_ & _ & Hnd).
  destruct (block_commitments_map vtx qcs Eq) as (Hread & Hnd' & Hsame & Hsome).
  destruct (process_loop_spec n bh _ (set_hasMined st c) st2 Hnd Hok Hc1 Hl) as (Hall & [Ho1 Ho2] & _ & Hc2 & Hok2 & Hdb & Hr & Hk).
  split_and!; try done.
  - intros t Hp. rewrite count_type, <- (Hreq t Hp) by done. by rewrite (bool_decide_ext _ _ (Hsome t)).
  - intros qc Hqc. apply Hsame in Hqc as Hin. destruct (Hall qc Hin) as [Hs Hst]. split; [exact (Hk qc Hin)|]. split; [done|].
    destruct (passes_mono _ (block_commitments vtx) st n bh _ qc ltac:(intros x; apply Hsame) Hst) as [Hn|Hst']; [by left|]. right. split; [exact Hst'|by eapply stored_verified].
  - split; intros k Hx; [apply Ho1|apply Ho2]; intros qc Hqc; apply Hx; by apply Hsame.
  - by apply (lists_read_ok _ (es_mgr st) _ Hmc Hr).
Qed.

(** ** Undoing *)

Definition minable_ok (st : EvoState) : Prop := forall k h, minableCommitmentsByQuorum st !! k = Some h -> is_Some (minableCommitments st !! h).

Lemma AddMinable_spec st qc : minable_ok st -> exists q m, AddMinableCommitment Hash st qc = Ok (set_minable st q m) /\ minable_ok (set_minable st q m) /\
  is_Some (q !! qkey qc) /\ (forall k, is_Some (minableCommitmentsByQuorum st !! k) -> is_Some (q !! k)).
Proof.
  intros Hm. unfold AddMinableCommitment. set (ch := Hash (ser_commitment qc)). fold (qkey qc).
  assert (forall m : gmap (list Z) CFinalCommitment, let m' := match m !! ch with Some _ => m | None => <[ch := qc]> m end in is_Some (m' !! ch) /\ forall h, is_Some (m !! h) -> is_Some (m' !! h)) as Hem.
  { intros m. destruct (m !! ch) as [c|] eqn:Ec; cbn zeta; [by rewrite Ec|]. split; [by rewrite lookup_insert_eq|]. intros h Hh. destruct (decide (ch = h)) as [->|Hne]; [by rewrite lookup_insert_eq|by rewrite lookup_insert_ne]. }
  assert (forall (q : gmap (Z * list Z) (list Z)) k, is_Some (q !! k) -> is_Some (<[qkey qc := ch]> q !! k)) as Hins.
  { intros q k Hk. destruct (decide (qkey qc = k)) as [->|Hne]; [by rewrite lookup_insert_eq|by rewrite lookup_insert_ne]. }
  destruct (minableCommitmentsByQuorum st !! qkey qc) as [h|] eqn:Eh.
  - destruct (Hm _ _ Eh) as [old Hold]. rewrite Hold. cbn [mbind result_bind]. destruct (CountSigners old <? CountSigners qc).
    + destruct (Hem (delete ch (minableCommitments st))) as [Hch Hsub]. eexists _, _. split; [done|]. split; [|split; [by rewrite lookup_insert_eq|by apply Hins]].
      intros k h'. cbn [set_minable minableCommitmentsByQuorum minableCommitments]. rewrite lookup_insert_Some. intros [[_ <-]|[_ Hk]]; [done|]. destruct (decide (ch = h')) as [<-|Hne]; [done|].
      apply Hsub. rewrite lookup_delete_ne by done. by apply (Hm k).
    + exists (minableCommitmentsByQuorum st), (minableCommitments st). assert (set_minable st (minableCommitmentsByQuorum st) (minableCommitments st) = st) as -> by (by destruct st). split_and!; [done..|by rewrite Eh|done].
  - destruct (Hem (minableCommitments st)) as [Hch Hsub]. eexists _, _. split; [done|]. split; [|split; [by rewrite lookup_insert_eq|by apply Hins]].
    intros k h'. cbn [set_minable minableCommitmentsByQuorum minableCommitments]. rewrite lookup_insert_Some. intros [[_ <-]|[_ Hk]]; [done|]. apply Hsub. by apply (Hm k).
Qed.

Lemma undo_loop_spec n qcs st : minable_ok st -> mined_cache_ok st -> exists st', undo_loop Hash B n st qcs = Ok st' /\ minable_ok st' /\ mined_cache_ok st' /\ es_mgr st' = es_mgr st /\ es_best st' = es_best st /\
  only_stored qcs n st st' /\ (forall k, es_mined st !! k = None -> es_mined st' !! k = None) /\ (forall k, es_mined_height st !! k = None -> es_mined_height st' !! k = None) /\
  (forall k, is_Some (minableCommitmentsByQuorum st !! k) -> is_Some (minableCommitmentsByQuorum st' !! k)) /\
  (forall qc, qc ∈ qcs -> commitment_IsNull B qc = false -> es_mined st' !! qkey qc = None /\ es_mined_height st' !! (qc_llmqType qc, n) = None /\ is_Some (minableCommitmentsByQuorum st' !! qkey qc)).
Proof.
  revert st. induction qcs as [|qc qcs IH]; intros st Hm Hc; cbn [undo_loop]; [exists st; split_and!; try done; by intros qc ?%elem_of_nil|]. destruct (commitment_IsNull B qc) eqn:En.
  { destruct (IH st Hm Hc) as (st' & Hu & H1 & H2 & H3 & H4 & Ho & H5 & H6 & H7 & H8). exists st'. split_and!; try done.
    - split; intros k Hk; apply Ho; intros q Hq; apply Hk; by right.
    - intros q [->|Hq]%elem_of_cons Hn; [congruence|by apply H8]. }
  fold (qkey qc). set (st1 := set_hasMined _ _). assert (mined_cache_ok st1) as Hc1.
  { intros k b Hk. unfold st1 in *. cbn [set_hasMined set_mined hasMinedCommitmentCache es_mined] in *. apply lookup_delete_Some in Hk as [Hne Hk]. rewrite lookup_delete_ne by done. by apply Hc. }
  destruct (AddMinable_spec st1 qc) as (q & m & Ea & Hm2 & Hq & Hsub); [done|]. rewrite Ea. cbn [mbind result_bind].
  destruct (IH (set_minable st1 q m) Hm2 Hc1) as (st' & Hu & H1 & H2 & H3 & H4 & Ho & H5 & H6 & H7 & H8). exists st'. split; [done|]. split; [done|]. split; [done|]. split; [done|]. split; [done|]. split_and!.
  - apply (only_stored_app [qc] qcs n st (set_minable st1 q m) st'); [|done]. split; intros k Hk; cbn; apply lookup_delete_ne, not_eq_sym, Hk; done || by left.
  - intros k Hk. apply H5. cbn. by rewrite lookup_delete_None; right.
  - intros k Hk. apply H6. cbn. by rewrite lookup_delete_None; right.
  - intros k Hk. apply H7. cbn. by apply Hsub.
  - intros qc' [->|Hin]%elem_of_cons Hn; [|by apply H8]. split_and!; [apply H5; cbn; apply lookup_delete_eq|apply H6; cbn; apply lookup_delete_eq|apply H7; by cbn].
Qed.

Lemma key_case {K} `{EqDecision K} (f : CFinalCommitment -> K) (l : list CFinalCommitment) k :
  (exists qc, qc ∈ l /\ commitment_IsNull B qc = false /\ k = f qc) \/ forall qc, qc ∈ l -> commitment_IsNull B qc = false -> k <> f qc.
Proof.
  destruct (decide (Exists (fun qc => commitment_IsNull B qc = false /\ k = f qc) l)) as [He|He]; [left; by apply Exists_exists in He|]. right. intros qc Hin Hn Ek. apply He, Exists_exists. eauto.
Qed.

(** The manager of the smartnodes plays no part in undoing. *)
Lemma undo_accepted st vtx bh idx prev h st' g :
  me_DIP0003Enabled V = true -> llmqs_ok (es_llmq st) -> mined_cache_ok st -> minable_ok st -> me_index V !! h = Some idx -> pprev idx = Some prev ->
  (forall t, es_mined_height st !! (t, nHeight idx) = None) -> quorum_ProcessBlock st vtx bh (nHeight idx) = Ok (None, st') ->
  exists st'', quorum_UndoBlock Hash B V (set_mgr st' g) vtx h = Ok (true, st'') /\ es_mined st'' = es_mined st /\ es_mined_height st'' = es_mined_height st /\ es_best st'' = prev /\
    es_mgr st'' = g /\ mined_cache_ok st'' /\ minable_ok st'' /\
    forall qcs qc, commitment_stored qcs st (nHeight idx) bh st' qc -> is_Some (minableCommitmentsByQuorum st'' !! qkey qc).
Proof.
  intros Hdip Hok Hc Hm Hi Hp Hfresh H. destruct (ProcessBlock_inv st vtx bh _ st' Hdip Hok Hc H) as (qcs & st1 & st2 & Eq & _ & [c ->] & Hc1 & Hl & ->). destruct (block_commitments_types vtx qcs Eq) as (Ht & Hby & Hnd).
  destruct (process_loop_spec _ bh _ (set_hasMined st c) st2 Hnd Hok Hc1 Hl) as (Hall & [Ho1 Ho2] & (_ & R2 & R3) & Hc2 & _). set (st' := set_mgr (set_best st2 bh) g). set (l := (map_items qcs).*2) in *.
  assert (minable_ok st') as Hm' by (intros k h' Hk; cbn in *; rewrite R2 in Hk; rewrite R3; by apply (Hm k)).
  destruct (undo_loop_spec (nHeight idx) l st' Hm' Hc2) as (st3 & Hu & Hm3 & Hc3 & Eg & _ & [Hu1 Hu2] & _ & _ & _ & Hdel).
  exists (set_best st3 prev). unfold quorum_UndoBlock. rewrite Eq. fold l. rewrite Hi. cbn [deref mbind result_bind]. rewrite Hu. cbn [mbind result_bind]. rewrite Hp. cbn [deref mbind result_bind].
  split; [done|]. split; [|split; [|split; [done|split; [done|split; [done|split; [done|]]]]]].
  - apply map_eq. intros k. cbn [set_best es_mined]. destruct (key_case qkey l k) as [(qc & Hin & Hn & ->)|Hk]; [|rewrite Hu1 by done; exact (Ho1 k Hk)].
    rewrite (proj1 (Hdel qc Hin Hn)). destruct (Hall qc Hin) as [_ [[Hn' _]|(_ & Hnone & _)]]; [congruence|]. exact (eq_sym Hnone).
  - apply map_eq. intros k. cbn [set_best es_mined_height]. destruct (key_case (fun qc => (qc_llmqType qc, nHeight idx)) l k) as [(qc & Hin & Hn & ->)|Hk]; [|rewrite Hu2 by done; exact (Ho2 k Hk)].
    rewrite (proj1 (proj2 (Hdel qc Hin Hn))). by rewrite Hfresh.
  - intros qcs' qc (_ & Hnone & Hst & _). cbn [set_best minableCommitmentsByQuorum]. destruct (key_case qkey l (qkey qc)) as [(qc' & Hin & Hn & ->)|Hk]; [by apply (Hdel qc' Hin Hn)|].
    exfalso. pose proof (Ho1 _ Hk) as Eq1. cbn in Hst, Hnone, Eq1. congruence.
Qed.

(** Undoing a block takes its commitments out again.  If a block was accepted and nothing
    had been mined at its height, [UndoBlock] succeeds and leads to the commitments and
    heights of the database before, with a right cache, and every commitment that was
    removed can be mined again. *)
Theorem block_commitments_undone st vtx bh idx prev h st' :
  me_DIP0003Enabled V = true -> llmqs_ok (es_llmq st) -> mined_cache_ok st -> minable_ok st -> me_index V !! h = Some idx -> pprev idx = Some prev ->
  (forall t, es_mined_height st !! (t, nHeight idx) = None) -> quorum_ProcessBlock st vtx bh (nHeight idx) = Ok (None, st') ->
  exists st'', quorum_UndoBlock Hash B V st' vtx h = Ok (true, st'') /\ es_mined st'' = es_mined st /\ es_mined_height st'' = es_mined_height st /\ es_best st'' = prev /\
    es_mgr st'' = es_mgr st' /\ mined_cache_ok st'' /\ minable_ok st'' /\
    forall qcs qc, commitment_stored qcs st (nHeight idx) bh st' qc -> is_Some (minableCommitmentsByQuorum st'' !! qkey qc).
Proof.
  intros Hdip Hok Hc Hm Hi Hp Hfresh H. assert (set_mgr st' (es_mgr st') = st') as Eg by (by destruct st'). destruct (undo_accepted st vtx bh idx prev h st' (es_mgr st')) as (st'' & Hu & R); [done..|]. rewrite Eg in Hu. by exists st''.
Qed.
End Rules.

(** ** What a commitment in the memory does *)

Section Minable.
Context (Hash SHA256 : list Z -> uint256) (B : BLS) (verify_aggregated : list (list Z) -> uint256 -> list Z -> bool).
Context (order : gmap (list Z) CDeterministicMN -> list (list Z * CDeterministicMN)).
Context (V : ManagerEnv) (chain : CChain).

(** A commitment that a peer sends is only ever taken for a quorum that has none.  While one
    is held, a message with as many or more signers is dropped before it is verified,
    and one with fewer is verified but not entered. *)
Theorem held_commitment_stays st qc h c s st' :
  minableCommitmentsByQuorum st !! (qc_llmqType qc, qc_quorumHash qc) = Some h -> minableCommitments st !! h = Some c ->
  quorum_ProcessMessage Hash SHA256 B verify_aggregated order V chain st qc = Ok (s, st') ->
  minableCommitmentsByQuorum st' = minableCommitmentsByQuorum st /\ minableCommitments st' = minableCommitments st.
Proof.
  intros Hh Hc H. unfold quorum_ProcessMessage in H. destruct (commitment_IsNull B qc); [by injection H as _ <-|]. destruct (llmqs (es_llmq st) !! _) as [params|]; [|by injection H as _ <-].
  destruct (me_index V !! _) as [quorum|]; [|by injection H as _ <-]. apply result_bind_Ok in H as (tip & _ & H). apply result_bind_Ok in H as (anc & _ & H). destruct (negb _); [by injection H as _ <-|].
  destruct (negb _); [by injection H as _ <-|]. rewrite Hh in H. cbn [mbind option_bind] in H. rewrite Hc in H. destruct (CountSigners c <=? CountSigners qc) eqn:El; [by injection H as _ <-|]. apply Z.leb_gt in El.
  apply result_bind_Ok in H as ([ms g] & _ & H). apply result_bind_Ok in H as (ok & _ & H). destruct ok; cbn [negb] in H; [|by injection H as _ <-]. apply result_bind_Ok in H as (st1 & Ha & [= _ <-]).
  unfold AddMinableCommitment in Ha. cbn [set_mgr minableCommitmentsByQuorum minableCommitments] in Ha. rewrite Hh, Hc in Ha. cbn [mbind result_bind] in Ha. rewrite (proj2 (Z.ltb_ge _ _)) in Ha by lia. by injection Ha as <-.
Qed.

(** When a better commitment takes the place of another one, the other one stays in the
    memory, although no quorum refers to it. *)
Theorem replaced_commitment_kept st qc h c :
  minableCommitmentsByQuorum st !! (qc_llmqType qc, qc_quorumHash qc) = Some h -> minableCommitments st !! h = Some c -> CountSigners c < CountSigners qc -> h <> Hash (ser_commitment qc) ->
  exists st', AddMinableCommitment Hash st qc = Ok st' /\ minableCommitmentsByQuorum st' !! (qc_llmqType qc, qc_quorumHash qc) = Some (Hash (ser_commitment qc)) /\ minableCommitments st' !! h = Some c.
Proof.
  intros Hh Hc Hlt Hne. unfold AddMinableCommitment. rewrite Hh, Hc. cbn [mbind result_bind]. rewrite (proj2 (Z.ltb_lt _ _) Hlt), lookup_delete_eq. eexists. split; [reflexivity|].
  cbn [set_minable minableCommitmentsByQuorum minableCommitments]. by rewrite lookup_insert_eq, lookup_insert_ne, lookup_delete_ne by done.
Qed.
End Minable.

(** ** Witnesses *)

(** Forty blocks, two smartnodes at block 30, and the commitments of block 40: one signed by
    the two for the quorum of block 30, a null one for the quorum of block 0. *)
Definition toy_block (i : nat) : ptr := replicate 32 (Z.of_nat i + 1).
Definition toy_header : CBlockIndex := new_index (mkHeader 1 uint256_null uint256_null 0 0 0 uint256_null).
Definition toy_chain : CChain := (fun i => Some (toy_block i)) <$> seq 0 40.
Definition toy_confirm (d : CDeterministicMN) : CDeterministicMN := with_state d (UpdateConfirmedHash toy_sha (pdmnState d) (proTxHash d) (replicate 32 4)).
Definition toy_voters : CDeterministicMNList := set_mnMap toy_list2 (toy_confirm <$> mnMap toy_list2).
Definition toy_qenv : ManagerEnv :=
  mkManagerEnv toy_evo (<[toy_block 40 := set_parent (toy_block 39) 40 toy_header]> {[ toy_block 30 := set_parent (toy_block 29) 30 toy_header ]}) false 15 true true.
Definition toy_qstate : EvoState := mkEvoState (mkManager ∅ ∅ {[ toy_block 30 := toy_voters ]} MainLLMQs) ∅ ∅ (toy_block 39) ∅ ∅ ∅.
Definition toy_qc : CFinalCommitment :=
  mkCommitment 1 LLMQ_50_60 (toy_block 30) [true; true; false] [true; true; false] (toy_sig 47) (replicate 32 9) (toy_sig 95) (toy_sig 95).
Definition toy_qc_tx (c : CFinalCommitment) : CTransaction := mkTx 3 TRANSACTION_QUORUM_COMMITMENT [] [] 0 (ser_qcPayload (mkQcPayload 1 40 c)).
Definition toy_qc_block : list CTransaction := [toy_coinbase; toy_qc_tx toy_qc; toy_qc_tx (null_commitment llmq20_85 (toy_block 0))].

Lemma toy_qstate_ok : llmqs_ok (es_llmq toy_qstate) /\ mined_cache_ok toy_qstate /\ minable_ok toy_qstate.
Proof. split; [exact MainLLMQs_ok|]. split; intros k h H; cbn in H; rewrite lookup_empty in H; discriminate H. Qed.

Lemma block_commitments_enforced_witness : exists st',
  quorum_ProcessBlock toy_hash toy_sha toy_bls toy_agg toy_order toy_qenv toy_chain toy_qstate toy_qc_block (toy_block 40) 40 = Ok (None, st') /\
  length (filter (fun qc => qc_llmqType qc = LLMQ_50_60) (block_commitments toy_bls toy_qc_block)) = 1%nat /\ verified_by_members toy_hash toy_sha toy_bls toy_agg toy_order toy_qenv (block_commitments toy_bls toy_qc_block) toy_qstate toy_qc.
Proof.
  assert (match quorum_ProcessBlock toy_hash toy_sha toy_bls toy_agg toy_order toy_qenv toy_chain toy_qstate toy_qc_block (toy_block 40) 40 with Ok (None, _) => true | _ => false end = true) as Hok by (vm_compute; reflexivity).
  destruct (quorum_ProcessBlock toy_hash toy_sha toy_bls toy_agg toy_order toy_qenv toy_chain toy_qstate toy_qc_block (toy_block 40) 40) as [[[e|] st']|e] eqn:Ep; try discriminate Hok.
  destruct toy_qstate_ok as (Hl & Hc & _).
  destruct (block_commitments_enforced toy_hash toy_sha toy_bls toy_agg toy_order toy_qenv toy_chain toy_qstate toy_qc_block (toy_block 40) 40 st' eq_refl Hl Hc ltac:(intros h l H; cbn in H; rewrite lookup_empty in H; discriminate H) Ep) as (_ & Hn & Hq & _).
  exists st'. split; [reflexivity|]. split; [rewrite (Hn LLMQ_50_60); [vm_compute; reflexivity|eexists; vm_compute; reflexivity]|].
  assert (block_commitments toy_bls toy_qc_block = [toy_qc; null_commitment llmq20_85 (toy_block 0)]) as Eb by (vm_compute; reflexivity).
  destruct (Hq toy_qc) as (_ & _ & [[Hz _]|[_ Hv]]); [rewrite Eb; apply list_elem_of_here|vm_compute in Hz; discriminate Hz|exact Hv].
Defined.

Lemma block_commitments_undone_witness : exists st' st'',
  quorum_ProcessBlock toy_hash toy_sha toy_bls toy_agg toy_order toy_qenv toy_chain toy_qstate toy_qc_block (toy_block 40) 40 = Ok (None, st') /\
  quorum_UndoBlock toy_hash toy_bls toy_qenv st' toy_qc_block (toy_block 40) = Ok (true, st'') /\ es_mined st'' = ∅ /\ is_Some (es_mined st' !! qkey toy_qc).
Proof.
  assert (match quorum_ProcessBlock toy_hash toy_sha toy_bls toy_agg toy_order toy_qenv toy_chain toy_qstate toy_qc_block (toy_block 40) 40 with Ok (None, st) => bool_decide (is_Some (es_mined st !! qkey toy_qc)) | _ => false end = true) as Hok by (vm_compute; reflexivity).
  destruct (quorum_ProcessBlock toy_hash toy_sha toy_bls toy_agg toy_order toy_qenv toy_chain toy_qstate toy_qc_block (toy_block 40) 40) as [[[e|] st']|e] eqn:Ep; try discriminate Hok.
  destruct toy_qstate_ok as (Hl & Hc & Hm).
  destruct (block_commitments_undone toy_hash toy_sha toy_bls toy_agg toy_order toy_qenv toy_chain toy_qstate toy_qc_block (toy_block 40) (set_parent (toy_block 39) 40 toy_header) (toy_block 39) (toy_block 40) st'
    eq_refl Hl Hc Hm ltac:(vm_compute; reflexivity) eq_refl (fun t => lookup_empty _) Ep) as (st'' & Hu & Hmd & _).
  exists st', st''. split; [reflexivity|]. split; [exact Hu|]. split; [exact Hmd|exact (bool_decide_eq_true_1 _ Hok)].
Defined.
