(* ===== verification/SpecialTxs.v ===== *)
(** * Special transactions of a block
    (src/src/evo/specialtx.cpp, src/src/evo/cbtx.cpp, CSimplifiedMNList of
    src/src/evo/simplifiedmns.cpp)

    Connecting a block checks its special transactions, enters its commitments and its
    list of smartnodes, and compares two Merkle roots in the coinbase, of the smartnodes
    and of the active quorums, with its own.  Undoing the block reverses the writes. *)

From Stdlib Require Import ZArith Lia.
From stdpp Require Import base tactics numbers option list strings gmap sorting.
From S2P Require Import Prelude ArithUint256 Compact Block Chain Pow Headers Serialize Transaction Rewards Script Coins BlockCheck Merkle ProTx Smartnodes SmartnodeDiff SmartnodePayee Quorum ProTxCheck SmartnodeManager SmartnodeBlock SmartnodeStore QuorumBlocks.

Open Scope Z_scope.

(** ** Simplified lists *)

Record CSimplifiedMNListEntry := mkEntry {
  e_proRegTxHash : uint256; e_confirmedHash : uint256; e_service : list Z; e_pubKeyOperator : list Z; e_keyIDVoting : list Z; e_isValid : bool
}.
#[global] Instance CSimplifiedMNListEntry_eq_dec : EqDecision CSimplifiedMNListEntry.
Proof. solve_decision. Defined.

Definition entry_of (d : CDeterministicMN) : CSimplifiedMNListEntry :=
  let s := pdmnState d in mkEntry (proTxHash d) (confirmedHash s) (addr s) (pubKeyOperator s) (keyIDVoting s) (nPoSeBanHeight s =? -1).
Definition ser_entry (e : CSimplifiedMNListEntry) : list Z :=
  e_proRegTxHash e ++ e_confirmedHash e ++ e_service e ++ e_pubKeyOperator e ++ e_keyIDVoting e ++ ser_writedata8 (if e_isValid e then 1 else 0).
Definition entry_lt (a b : CSimplifiedMNListEntry) : bool := Compare (e_proRegTxHash a) (e_proRegTxHash b) <? 0.

(** The static variables of the two calculations. *)
Record CbCache := mkCbCache {
  smlCached : list CSimplifiedMNListEntry; merkleRootCached : uint256; mutatedCached : bool;
  quorumsCached : gmap Z (list (list Z)); qcHashesCached : gmap Z (list (list Z))
}.
Definition CbCache_empty : CbCache := mkCbCache [] uint256_null false ∅ ∅.

Definition hash_lt (a b : uint256) : bool := Compare a b <? 0.

Section Special.
Context (Hash SHA256 : list Z -> uint256) (Hash160 : list Z -> list Z) (B : BLS) (verify_aggregated : list (list Z) -> uint256 -> list Z -> bool).
Context (order : gmap (list Z) CDeterministicMN -> list (list Z * CDeterministicMN)).
Context (X : ProTxParams) (V : ManagerEnv) (chain : CChain).

Definition CSimplifiedMNList (l : CDeterministicMNList) : list CSimplifiedMNListEntry := std_sort entry_lt (entry_of <$> AllMNs order l).
Definition CalcMerkleRoot (sml : list CSimplifiedMNListEntry) : result (uint256 * bool) := ComputeMerkleRoot Hash ((fun e => Hash (ser_entry e)) <$> sml) true.

(** ** The roots in the coinbase *)

(** The cached list is compared by the pointers of its entries, so a new list is never the
    same unless both are empty.  The flag is false for a mutated tree. *)
Definition CalcCbTxMerkleRootMNList (c : CbCache) (g : Manager) (vtx : list CTransaction) (pindexPrev : ptr) : result ((reject + (uint256 * bool)) * CbCache * Manager) :=
  '(r, g) ← BuildNewListFromBlock Hash SHA256 B order V g vtx pindexPrev;
  match r with
  | inl e => Ok (inl e, c, g)
  | inr tmpMNList =>
      let sml := CSimplifiedMNList tmpMNList in
      if bool_decide (sml = [] /\ smlCached c = []) then Ok (inr (merkleRootCached c, negb (mutatedCached c)), c, g)
      else
        '(root, mutated) ← CalcMerkleRoot sml;
        Ok (inr (root, negb mutated), mkCbCache sml root mutated (quorumsCached c) (qcHashesCached c), g)
  end.

(** The hashes of the commitments of the active quorums. *)
Fixpoint mined_hashes (st : EvoState) (type : Z) (quorums : list ptr) : result (list uint256) :=
  match quorums with
  | [] => Ok []
  | q :: quorums =>
      match GetMinedCommitment st type q with
      | None => Err AssertFail
      | Some (qc, _) => hs ← mined_hashes st type quorums; Ok (Hash (ser_commitment qc) :: hs)
      end
  end.
Fixpoint active_hashes (st : EvoState) (ret : gmap Z (list uint256)) (quorums : list (Z * list ptr)) : result (gmap Z (list uint256)) :=
  match quorums with
  | [] => Ok ret
  | (type, qs) :: quorums => hs ← mined_hashes st type qs; active_hashes st (<[type := hs]> ret) quorums
  end.

(** The commitments of the block itself take the place of the oldest. *)
Definition push_quorum (st : EvoState) (qcHashes : gmap Z (list uint256)) (tx : CTransaction) : result (gmap Z (list uint256)) :=
  if (tx_nVersion tx =? 3) && (tx_nType tx =? TRANSACTION_QUORUM_COMMITMENT) then
    match GetTxPayload (unser_qcPayload B) (vExtraPayload tx) with
    | None => Err AssertFail
    | Some qc =>
        if commitment_IsNull B (commitment qc) then Ok qcHashes
        else
          params ← llmqs_at (es_llmq st) (qc_llmqType (commitment qc));
          let v := default [] (qcHashes !! q_type params) in
          let v := if Z.of_nat (length v) =? q_signingActiveQuorumCount params then take (length v - 1) v else v in
          let v := v ++ [Hash (ser_commitment (commitment qc))] in
          _ ← cassert (Z.of_nat (length v) <=? q_signingActiveQuorumCount params);
          Ok (<[q_type params := v]> qcHashes)
    end
  else Ok qcHashes.

Definition CalcCbTxMerkleRootQuorums (c : CbCache) (st : EvoState) (vtx : list CTransaction) (pindexPrev : ptr) : result ((uint256 * bool) * CbCache) :=
  quorums ← GetMinedAndActiveCommitmentsUntilBlock V st pindexPrev;
  '(qcHashes, c) ← (if bool_decide (quorums = quorumsCached c) then Ok (qcHashesCached c, c)
                    else hs ← active_hashes st ∅ (map_items quorums); Ok (hs, mkCbCache (smlCached c) (merkleRootCached c) (mutatedCached c) quorums hs));
  qcHashes ← foldM (push_quorum st) qcHashes (drop 1 vtx);
  '(root, mutated) ← ComputeMerkleRoot Hash (std_sort hash_lt (mjoin (map_items qcHashes).*2)) true;
  Ok ((root, negb mutated), c).

(** Both calculations can leave a reason behind; the levels add up. *)
Definition CheckCbTxMerkleRoots (c : CbCache) (st : EvoState) (vtx : list CTransaction) (pindexPrev : ptr) : result (option reject * CbCache * EvoState) :=
  tx ← deref (head vtx);
  if negb (tx_nType tx =? TRANSACTION_COINBASE) then Ok (None, c, st)
  else match GetTxPayload unser_cbTx (vExtraPayload tx) with
  | None => Ok (Some (DoS 100 "bad-cbtx-payload"), c, st)
  | Some cbTx =>
      '(r, c, g) ← CalcCbTxMerkleRootMNList c (es_mgr st) vtx pindexPrev;
      let st := set_mgr st g in
      match r with
      | inl e => Ok (Some (DoS (nDoS e + 100) "bad-cbtx-mnmerkleroot"), c, st)
      | inr (root, ok) =>
          if negb ok || negb (bool_decide (root = cb_merkleRootMNList cbTx)) then Ok (Some (DoS 100 "bad-cbtx-mnmerkleroot"), c, st)
          else if 2 <=? cb_nVersion cbTx then
            '((root, ok), c) ← CalcCbTxMerkleRootQuorums c st vtx pindexPrev;
            if negb ok || negb (bool_decide (root = cb_merkleRootQuorums cbTx)) then Ok (Some (DoS 100 "bad-cbtx-quorummerkleroot"), c, st)
            else Ok (None, c, st)
          else Ok (None, c, st)
      end
  end.

(** ** Checks with the lists of the manager *)

(** A check reads the list only when the part before it has passed. *)
Definition with_list {A} (g : Manager) (prev : ptr) (pre : reject + A) (check : option CDeterministicMNList -> result (option reject)) : result (option reject * Manager) :=
  match pre with
  | inl e => Ok (Some e, g)
  | inr _ => '(l, g) ← GetListForBlock Hash B V g prev; r ← check (Some l); Ok (r, g)
  end.

Definition CheckSpecialTx_at (g : Manager) (tx : CTransaction) (prev : ptr) : result (option reject * Manager) :=
  if negb (tx_nVersion tx =? 3) || (tx_nType tx =? TRANSACTION_NORMAL) then Ok (None, g)
  else if negb (px_DIP0003Enabled X) then Ok (Some (DoS 10 "bad-tx-type"), g)
  else if tx_nType tx =? TRANSACTION_PROVIDER_REGISTER then with_list g prev (ProReg_pre Hash Hash160 B X (me_evo V) tx) (CheckProRegTx Hash Hash160 B X (me_evo V) tx)
  else if tx_nType tx =? TRANSACTION_PROVIDER_UPDATE_SERVICE then with_list g prev (ProUpServ_pre B X tx) (CheckProUpServTx Hash B X tx)
  else if tx_nType tx =? TRANSACTION_PROVIDER_UPDATE_REGISTRAR then with_list g prev (ProUpReg_pre Hash160 B tx) (CheckProUpRegTx Hash Hash160 B X (me_evo V) tx)
  else if tx_nType tx =? TRANSACTION_PROVIDER_UPDATE_REVOKE then with_list g prev (ProUpRev_pre B tx) (CheckProUpRevTx Hash B tx)
  else if tx_nType tx =? TRANSACTION_COINBASE then Ok (CheckCbTx V tx (me_index V !! prev), g)
  else if tx_nType tx =? TRANSACTION_QUORUM_COMMITMENT then CheckLLMQCommitment Hash SHA256 B verify_aggregated order V g tx prev
  else Ok (Some (DoS 10 "bad-tx-type-check"), g).

Definition handled (type : Z) : bool :=
  existsb (Z.eqb type) [TRANSACTION_PROVIDER_REGISTER; TRANSACTION_PROVIDER_UPDATE_SERVICE; TRANSACTION_PROVIDER_UPDATE_REGISTRAR; TRANSACTION_PROVIDER_UPDATE_REVOKE;
    TRANSACTION_COINBASE; TRANSACTION_QUORUM_COMMITMENT].
Definition ProcessSpecialTx (tx : CTransaction) : option reject :=
  if negb (tx_nVersion tx =? 3) || (tx_nType tx =? TRANSACTION_NORMAL) then None
  else if handled (tx_nType tx) then None else Some (DoS 100 "bad-tx-type-proc").
Definition UndoSpecialTx (tx : CTransaction) : bool :=
  if negb (tx_nVersion tx =? 3) || (tx_nType tx =? TRANSACTION_NORMAL) then true else handled (tx_nType tx).

Fixpoint check_loop (g : Manager) (prev : ptr) (vtx : list CTransaction) : result (option reject * Manager) :=
  match vtx with
  | [] => Ok (None, g)
  | tx :: vtx =>
      '(r, g) ← CheckSpecialTx_at g tx prev;
      match r with
      | Some e => Ok (Some e, g)
      | None => match ProcessSpecialTx tx with Some e => Ok (Some e, g) | None => check_loop g prev vtx end
      end
  end.

(** [ProcessSpecialTxsInBlock] for a block that is not the first. *)
Definition ProcessSpecialTxsInBlock (c : CbCache) (st : EvoState) (vtx : list CTransaction) (blockHash : uint256) (pindex : ptr) (fJustCheck fCheckCbTxMerleRoots : bool) :
  result (option reject * CbCache * EvoState) :=
  idx ← deref (me_index V !! pindex);
  prev ← deref (pprev idx);
  '(r, g) ← check_loop (es_mgr st) prev vtx;
  let st := set_mgr st g in
  match r with
  | Some e => Ok (Some e, c, st)
  | None =>
      '(r, st) ← quorum_ProcessBlock Hash SHA256 B verify_aggregated order V chain st vtx blockHash (nHeight idx);
      match r with
      | Some e => Ok (Some e, c, st)
      | None =>
          '(r, g) ← ProcessBlock Hash SHA256 B order V (es_mgr st) vtx blockHash pindex fJustCheck;
          let st := set_mgr st g in
          match r with
          | Some e => Ok (Some e, c, st)
          | None => if fCheckCbTxMerleRoots then CheckCbTxMerkleRoots c st vtx prev else Ok (None, c, st)
          end
      end
  end.

Definition UndoSpecialTxsInBlock (st : EvoState) (vtx : list CTransaction) (blockHash : uint256) (pindex : ptr) : result (bool * EvoState) :=
  if forallb UndoSpecialTx (reverse vtx) then
    g ← UndoBlock Hash B V (es_mgr st) blockHash pindex;
    quorum_UndoBlock Hash B V (set_mgr st g) vtx pindex
  else Ok (false, st).
End Special.

(** ** The caches of the roots *)

Section Roots.
Context (Hash SHA256 : list Z -> uint256) (B : BLS).
Context (order : gmap (list Z) CDeterministicMN -> list (list Z * CDeterministicMN)).
Context (V : ManagerEnv).

(** The cached root is the root of the empty list when no list is cached, and the cached
    hashes are those of the commitments in the database. *)
Definition cb_ok (c : CbCache) (st : EvoState) : Prop :=
  (smlCached c = [] -> merkleRootCached c = uint256_null /\ mutatedCached c = false) /\ active_hashes Hash st ∅ (map_items (quorumsCached c)) = Ok (qcHashesCached c).

Lemma cb_ok_empty st : cb_ok CbCache_empty st.
Proof. split; [done|reflexivity]. Qed.

(** The hashes depend on the commitments in the database alone, and more commitments do not
    change them. *)
Lemma mined_hashes_more st st' type qs hs : es_mined st ⊆ es_mined st' -> mined_hashes Hash st type qs = Ok hs -> mined_hashes Hash st' type qs = Ok hs.
Proof.
  intros Hsub. revert hs. induction qs as [|q qs IH]; intros hs H; cbn [mined_hashes] in *; [done|]. unfold GetMinedCommitment in *. destruct (es_mined st !! (type, q)) as [[qc bh]|] eqn:Eq; [|done].
  rewrite (lookup_weaken _ _ _ _ Eq Hsub). apply result_bind_Ok in H as (hs1 & H1 & H). by rewrite (IH hs1 H1).
Qed.
Lemma active_hashes_more st st' ret qs hs : es_mined st ⊆ es_mined st' -> active_hashes Hash st ret qs = Ok hs -> active_hashes Hash st' ret qs = Ok hs.
Proof.
  intros Hsub. revert ret. induction qs as [|[type q] qs IH]; intros ret H; cbn [active_hashes] in *; [done|]. apply result_bind_Ok in H as (hs1 & H1 & H). rewrite (mined_hashes_more st st' type q hs1 Hsub H1). by apply IH.
Qed.
Lemma cb_ok_more c st st' : es_mined st ⊆ es_mined st' -> cb_ok c st -> cb_ok c st'.
Proof. intros Hsub [H1 H2]. split; [done|]. by apply (active_hashes_more st). Qed.
Lemma cb_ok_mgr c st g : cb_ok c st -> cb_ok c (set_mgr st g).
Proof. by apply cb_ok_more. Qed.

(** Two results that are the same apart from the caches, which both are right. *)
Definition same_answer {A} (st : EvoState) (r r0 : result (A * CbCache)) : Prop :=
  match r, r0 with Ok (a, c), Ok (a0, c0) => a = a0 /\ cb_ok c st /\ cb_ok c0 st | Err e, Err e0 => e = e0 | _, _ => False end.

Lemma list_root_answer c0 c g st vtx prev : cb_ok c st -> cb_ok c0 st ->
  same_answer st ('(r, c, g) ← CalcCbTxMerkleRootMNList Hash SHA256 B order V c g vtx prev; Ok ((r, g), c)) ('(r, c, g) ← CalcCbTxMerkleRootMNList Hash SHA256 B order V c0 g vtx prev; Ok ((r, g), c)).
Proof.
  intros [Hs Hq] [Hs0 Hq0]. unfold CalcCbTxMerkleRootMNList. destruct (BuildNewListFromBlock Hash SHA256 B order V g vtx prev) as [[[e|l] g1]|e]; cbn [mbind result_bind]; [done| |done].
  set (sml := CSimplifiedMNList order l). assert (sml = [] -> CalcMerkleRoot Hash sml = Ok (uint256_null, false)) as Hnil by (by intros ->).
  assert (forall root m qs hs, CalcMerkleRoot Hash sml = Ok (root, m) -> active_hashes Hash st ∅ (map_items qs) = Ok hs -> cb_ok (mkCbCache sml root m qs hs) st) as Hnew.
  { intros root m qs hs Hr Hqs. split; [|done]. cbn. intros Es. rewrite (Hnil Es) in Hr. by injection Hr as <- <-. }
  case_bool_decide as H1; case_bool_decide as H0; cbn [mbind result_bind same_answer].
  - destruct (Hs (proj2 H1)) as [-> ->], (Hs0 (proj2 H0)) as [-> ->]. done.
  - destruct H1 as [E1 E2]. specialize (Hnil E1). rewrite Hnil. cbn [mbind result_bind]. destruct (Hs E2) as [-> ->]. by split_and!; [| |apply Hnew].
  - destruct H0 as [E1 E2]. specialize (Hnil E1). rewrite Hnil. cbn [mbind result_bind]. destruct (Hs0 E2) as [-> ->]. by split_and!; [|apply Hnew|].
  - destruct (CalcMerkleRoot Hash sml) as [[root m]|e] eqn:Er; cbn [mbind result_bind]; [|done]. by split_and!; [|apply Hnew..].
Qed.

Lemma quorum_root_answer c0 c st vtx prev : cb_ok c st -> cb_ok c0 st ->
  same_answer st (CalcCbTxMerkleRootQuorums Hash B V c st vtx prev) (CalcCbTxMerkleRootQuorums Hash B V c0 st vtx prev).
Proof.
  intros Hc Hc0. unfold CalcCbTxMerkleRootQuorums. destruct (GetMinedAndActiveCommitmentsUntilBlock V st prev) as [quorums|e]; cbn [mbind result_bind]; [|done].
  assert (forall c, cb_ok c st -> exists r, (if bool_decide (quorums = quorumsCached c) then Ok (qcHashesCached c, c)
      else hs ← active_hashes Hash st ∅ (map_items quorums); Ok (hs, mkCbCache (smlCached c) (merkleRootCached c) (mutatedCached c) quorums hs)) = r /\
      match r, active_hashes Hash st ∅ (map_items quorums) with Ok (hs, c'), Ok hs' => hs = hs' /\ cb_ok c' st | Err e, Err e' => e = e' | _, _ => False end) as Hcase.
  { clear. intros c [Hs Hq]. eexists. split; [reflexivity|]. case_bool_decide as Eq; [subst; rewrite Hq; done|]. by destruct (active_hashes Hash st ∅ (map_items quorums)) as [hs|e] eqn:Ea. }
  destruct (Hcase c Hc) as (r & -> & Hr), (Hcase c0 Hc0) as (r0 & -> & Hr0). destruct (active_hashes Hash st ∅ (map_items quorums)) as [hs|e], r as [[h1 c1]|e1], r0 as [[h2 c2]|e2]; try done; cbn [mbind result_bind]; [|cbn; congruence].
  destruct Hr as [-> Hc1], Hr0 as [-> Hc2]. destruct (foldM _ _ _) as [m|]; cbn [mbind result_bind]; [|done]. destruct (ComputeMerkleRoot _ _ _) as [[root mu]|]; cbn [mbind result_bind]; done.
Qed.

Abbreviation CheckCbTxMerkleRoots := (CheckCbTxMerkleRoots Hash SHA256 B order V).

(** The caches of the two Merkle roots make no difference.  If the cached hashes are
    those of the database, [CheckCbTxMerkleRoots] decides the same and leads to the same
    state, or fails in the same way, as with empty caches, and the caches it leaves are
    right for the database after it. *)
Theorem roots_cache_transparent c st vtx prev : cb_ok c st ->
  match CheckCbTxMerkleRoots c st vtx prev, CheckCbTxMerkleRoots CbCache_empty st vtx prev with
  | Ok (r, c', st'), Ok (r0, _, st0) => r = r0 /\ st' = st0 /\ cb_ok c' st'
  | Err e, Err e0 => e = e0
  | _, _ => False
  end.
Proof.
  intros Hc. pose proof (cb_ok_empty st) as H0. unfold SpecialTxs.CheckCbTxMerkleRoots. destruct (head vtx) as [tx|]; cbn [deref mbind result_bind]; [|done]. destruct (negb _); [done|]. destruct (GetTxPayload _ _) as [cbTx|]; [|done].
  pose proof (list_root_answer CbCache_empty c (es_mgr st) st vtx prev Hc H0) as Ha.
  destruct (CalcCbTxMerkleRootMNList Hash SHA256 B order V c (es_mgr st) vtx prev) as [[[r c1] g]|e], (CalcCbTxMerkleRootMNList Hash SHA256 B order V CbCache_empty (es_mgr st) vtx prev) as [[[r0 c0] g0]|e0];
    cbn [mbind result_bind same_answer] in *; try done. destruct Ha as ([= <- <-] & Hc1%(cb_ok_mgr _ _ g) & Hc0%(cb_ok_mgr _ _ g)). destruct r as [e|[root ok]]; [done|]. destruct (_ || _); [done|]. destruct (2 <=? cb_nVersion cbTx); [|done].
  pose proof (quorum_root_answer c0 c1 (set_mgr st g) vtx prev Hc1 Hc0) as Hq.
  destruct (CalcCbTxMerkleRootQuorums Hash B V c1 (set_mgr st g) vtx prev) as [[[root2 ok2] c2]|e], (CalcCbTxMerkleRootQuorums Hash B V c0 (set_mgr st g) vtx prev) as [[[root3 ok3] c3]|e0]; cbn [mbind result_bind same_answer] in *; try done.
  destruct Hq as ([= <- <-] & Hc2 & _). by destruct (_ || _).
Qed.

(** The hashes the quorum root is taken of: those of the active quorums, changed by the
    commitments of the block. *)
Definition quorum_hashes (st : EvoState) (vtx : list CTransaction) (prev : ptr) : result (list uint256) :=
  quorums ← GetMinedAndActiveCommitmentsUntilBlock V st prev;
  hs ← active_hashes Hash st ∅ (map_items quorums);
  hs ← foldM (push_quorum Hash B st) hs (drop 1 vtx);
  Ok (std_sort hash_lt (mjoin (map_items hs).*2)).

Lemma quorum_root_value c st vtx prev root c' : cb_ok c st -> CalcCbTxMerkleRootQuorums Hash B V c st vtx prev = Ok ((root, true), c') ->
  exists hs, quorum_hashes st vtx prev = Ok hs /\ ComputeMerkleRoot Hash hs true = Ok (root, false).
Proof.
  intros [_ Hq] H. unfold CalcCbTxMerkleRootQuorums, quorum_hashes in *. apply result_bind_Ok in H as (quorums & -> & H). cbn [mbind result_bind]. apply result_bind_Ok in H as ([hs c1] & Hhs & H).
  assert (active_hashes Hash st ∅ (map_items quorums) = Ok hs) as ->.
  { case_bool_decide as Eq; [injection Hhs as <- <-; by subst|]. by apply result_bind_Ok in Hhs as (hs' & -> & [= -> _]). }
  cbn [mbind result_bind]. apply result_bind_Ok in H as (hs' & -> & H). cbn [mbind result_bind]. apply result_bind_Ok in H as ([r m] & Hr & [= -> Hm _]). destruct m; [done|]. eauto.
Qed.

Lemma list_root_value c st g vtx prev root c' g' : cb_ok c st -> CalcCbTxMerkleRootMNList Hash SHA256 B order V c g vtx prev = Ok (inr (root, true), c', g') ->
  exists l, BuildNewListFromBlock Hash SHA256 B order V g vtx prev = Ok (inr l, g') /\ CalcMerkleRoot Hash (CSimplifiedMNList order l) = Ok (root, false).
Proof.
  intros [Hs _] H. unfold CalcCbTxMerkleRootMNList in H. apply result_bind_Ok in H as ([[e|l] g1] & -> & H); [done|]. case_bool_decide as Eq.
  - injection H as <- _ _ <-. destruct Eq as [E1 E2]. exists l. split; [done|]. rewrite E1. by rewrite (proj1 (Hs E2)).
  - apply result_bind_Ok in H as ([r m] & Hr & [= -> Hm _ <-]). destruct m; [done|]. eauto.
Qed.

(** The order in which the map of the smartnodes is traversed does not matter. *)
Lemma simplified_list_order order' l : (forall m, order m ≡ₚ map_to_list m) -> (forall m, order' m ≡ₚ map_to_list m) -> wf Hash B l -> keys32 l -> CSimplifiedMNList order l = CSimplifiedMNList order' l.
Proof.
  intros Ho Ho' Hwf H32. unfold CSimplifiedMNList. assert (forall d, d ∈ AllMNs order l -> mnMap l !! proTxHash d = Some d) as Hd by (intros d; by apply (elem_AllMNs Hash B order Ho l d Hwf)). apply std_sort_unique.
  - destruct (key_strict ((fun e => (e_proRegTxHash e, 0)) <$> (entry_of <$> AllMNs order l))) as [H1 H2 H3].
    { intros k (e & -> & (d & -> & Hm%Hd)%list_elem_of_fmap)%list_elem_of_fmap. by eapply H32. }
    assert (forall e, e ∈ entry_of <$> AllMNs order l -> (e_proRegTxHash e, 0) ∈ (fun e => (e_proRegTxHash e, 0)) <$> (entry_of <$> AllMNs order l)) as Hin by (intros e He; by apply (list_elem_of_fmap_2 (fun e => (e_proRegTxHash e, 0)))).
    split.
    + intros x Hx. exact (H1 _ (Hin x Hx)).
    + intros x y z Hx Hy Hz. exact (H2 _ _ _ (Hin x Hx) (Hin y Hy) (Hin z Hz)).
    + intros x y Hx Hy Hne. apply (H3 _ _ (Hin x Hx) (Hin y Hy)). intros [= Eh]. apply Hne. apply list_elem_of_fmap in Hx as (d & -> & Hx%Hd), Hy as (d' & -> & Hy%Hd). cbn in Eh. congruence.
  - apply (NoDup_fmap_1 e_proRegTxHash). rewrite <- list_fmap_compose. by apply (NoDup_AllMNs Hash B order Ho l).
  - apply fmap_Permutation. unfold AllMNs. by rewrite Ho, Ho'.
Qed.

(** C17: A coinbase that is accepted commits to the smartnodes and the quorums.  Its payload has
    the Merkle root, of a tree without duplicates, of the entries of all the smartnodes of
    the list built for the block, sorted by their registration, and from version 2 on the
    root of the sorted hashes of the commitments of the active quorums, with those of
    the block.  It is so whatever the caches hold, as long as they are right, and the root
    of the smartnodes is the same for every order in which the map of a list is traversed. *)
Theorem coinbase_commits c st vtx tx prev c' st' : cb_ok c st -> head vtx = Some tx -> tx_nType tx = TRANSACTION_COINBASE ->
  CheckCbTxMerkleRoots c st vtx prev = Ok (None, c', st') ->
  exists cbTx l g', GetTxPayload unser_cbTx (vExtraPayload tx) = Some cbTx /\ BuildNewListFromBlock Hash SHA256 B order V (es_mgr st) vtx prev = Ok (inr l, g') /\ st' = set_mgr st g' /\
    CalcMerkleRoot Hash (CSimplifiedMNList order l) = Ok (cb_merkleRootMNList cbTx, false) /\
    (2 <= cb_nVersion cbTx -> exists hs, quorum_hashes st' vtx prev = Ok hs /\ ComputeMerkleRoot Hash hs true = Ok (cb_merkleRootQuorums cbTx, false)) /\
    forall order', (forall m, order m ≡ₚ map_to_list m) -> (forall m, order' m ≡ₚ map_to_list m) -> wf Hash B l -> keys32 l ->
      CalcMerkleRoot Hash (CSimplifiedMNList order' l) = Ok (cb_merkleRootMNList cbTx, false).
Proof.
  intros Hc Hh Ht H. unfold SpecialTxs.CheckCbTxMerkleRoots in H. rewrite Hh in H. cbn [deref mbind result_bind] in H. rewrite Ht, Z.eqb_refl in H. cbn [negb] in H.
  destruct (GetTxPayload unser_cbTx (vExtraPayload tx)) as [cbTx|] eqn:Ep; [|done]. apply result_bind_Ok in H as ([[r c1] g] & Hl & H). destruct r as [e|[root ok]]; [done|].
  assert (cb_ok c1 st) as Hc1 by (pose proof (list_root_answer c c (es_mgr st) st vtx prev Hc Hc) as Ha; rewrite Hl in Ha; cbn in Ha; tauto). apply (cb_ok_mgr _ _ g) in Hc1.
  destruct ok; cbn [negb orb] in H; [|done]. case_bool_decide as Er; cbn [negb] in H; [|done]. subst root. destruct (list_root_value c st _ vtx prev _ c1 g Hc Hl) as (l & Hb & Hr).
  assert (st' = set_mgr st g /\ (2 <= cb_nVersion cbTx -> exists hs, quorum_hashes (set_mgr st g) vtx prev = Ok hs /\ ComputeMerkleRoot Hash hs true = Ok (cb_merkleRootQuorums cbTx, false))) as [-> Hq].
  { destruct (Z.leb_spec 2 (cb_nVersion cbTx)) as [Hv|Hv]; [|injection H as _ <-; split; [done|lia]]. apply result_bind_Ok in H as ([[root ok] c2] & Hq & H). destruct ok; cbn [negb orb] in H; [|done].
    case_bool_decide as Er; cbn [negb] in H; [|done]. subst root. injection H as _ <-. split; [done|]. intros _. exact (quorum_root_value c1 (set_mgr st g) vtx prev _ c2 Hc1 Hq). }
  exists cbTx, l, g. split_and!; try done. intros order' Ho Ho' Hwf H32. by rewrite <- (simplified_list_order order' l Ho Ho' Hwf H32).
Qed.
End Roots.

(** ** A block and its undoing *)

Section Blocks.
Context (Hash SHA256 : list Z -> uint256) (Hash160 : list Z -> list Z) (B : BLS) (verify_aggregated : list (list Z) -> uint256 -> list Z -> bool).
Context (order : gmap (list Z) CDeterministicMN -> list (list Z * CDeterministicMN)).
Context (X : ProTxParams) (V : ManagerEnv) (chain : CChain).
Hypothesis links : index_ok (me_index V).
Hypothesis order_perm : forall m, order m ≡ₚ map_to_list m.
Hypothesis bls_null : bls_key B bls_key_null = false.
Abbreviation cache_ok := (cache_ok Hash B V).
Abbreviation list_at := (list_at Hash B V).
Abbreviation CheckSpecialTx_at := (CheckSpecialTx_at Hash SHA256 Hash160 B verify_aggregated order X V).
Abbreviation check_loop := (check_loop Hash SHA256 Hash160 B verify_aggregated order X V).

(** Reads of other blocks than [b] that leave the quorum parameters right. *)
Definition reads (b : ptr) (g g' : Manager) : Prop := keeps Hash B V b g g' /\ (llmqs_ok (mgr_llmq g) -> llmqs_ok (mgr_llmq g')).
#[local] Instance reads_preorder b : PreOrder (reads b).
Proof. split; [by intros g|]. intros g1 g2 g3 [H1 H2] [H3 H4]. split; [by transitivity g2|auto]. Qed.

Lemma reads_trans b g1 g2 g3 : reads b g1 g2 -> reads b g2 g3 -> reads b g1 g3.
Proof. intros H1 H2. by transitivity g2. Qed.

Lemma read_reads b g h l g' : h <> b -> GetListForBlock Hash B V g h = Ok (l, g') -> reads b g g'.
Proof. intros Hne H. split; [by apply (read_keeps Hash B V b g h l)|]. intros Hok. by apply (GetListForBlock_llmq Hash B V g h l g' Hok H). Qed.

(** A transaction that passes here passes the check against the list of the block before. *)
Definition checked (old : CDeterministicMNList) (tx : CTransaction) : Prop :=
  CheckSpecialTx Hash Hash160 B X (me_evo V) (fun _ => Ok None) (fun _ => Ok None) tx (Some old) = Ok None.

Lemma with_list_reads {A} b g prev (pre : reject + A) check r g' old : prev <> b -> with_list Hash B V g prev pre check = Ok (r, g') ->
  reads b g g' /\ (cache_ok g -> list_at g prev old -> r = None -> check (Some old) = Ok None).
Proof.
  intros Hne H. unfold with_list in H. destruct pre as [e|a]; [by injection H as <- <-|]. apply result_bind_Ok in H as ([l g1] & Hl & H). apply result_bind_Ok in H as (r1 & Hr & [= <- <-]).
  split; [by apply (read_reads b g prev l g1)|]. intros Hc Hat ->. destruct (GetListForBlock_sound Hash B V g prev (l, g1) Hc Hl) as (Hat' & _). by rewrite (list_at_det Hash B V g prev old l Hat Hat').
Qed.

Lemma commitment_reads b bi prev pi g tx r g' : me_index V !! b = Some bi -> me_index V !! prev = Some pi -> nHeight pi < nHeight bi ->
  CheckLLMQCommitment Hash SHA256 B verify_aggregated order V g tx prev = Ok (r, g') -> reads b g g'.
Proof.
  intros Hb Hp Hlt H. unfold CheckLLMQCommitment in H. destruct (GetTxPayload _ _) as [qc|]; [|by injection H as _ <-]. destruct (_ || _); [by injection H as _ <-|]. rewrite Hp in H. cbn [deref mbind result_bind] in H.
  destruct (negb _); [by injection H as _ <-|]. destruct (me_index V !! qc_quorumHash (commitment qc)) as [qi|] eqn:Eq; [|by injection H as _ <-]. apply result_bind_Ok in H as (anc & Ha & H). case_bool_decide as Ea; cbn [negb] in H; [|by injection H as _ <-].
  subst anc. destruct (llmqs _ !! _) as [params|]; [|by injection H as _ <-]. destruct (commitment_IsNull _ _); [by injection H as _ <-|]. apply result_bind_Ok in H as ([ms g1] & Hms & H). apply result_bind_Ok in H as (ok & _ & [= _ <-]).
  destruct (GetAllQuorumMembers_inv Hash SHA256 B order V _ _ _ _ _ Hms) as (l & Hl & _). apply (read_reads b g (qc_quorumHash (commitment qc)) l g1); [|done]. intros Eb. rewrite Eb in *. assert (qi = bi) as -> by congruence.
  rewrite (GetAncestor_spec _ _ pi _ links Hp) in Ha. injection Ha as Ha. destruct (_ || _) eqn:Er; [done|]. apply orb_false_iff in Er as [E1%Z.ltb_ge E2%Z.ltb_ge]. lia.
Qed.

Lemma check_tx_reads b bi prev pi g tx r g' old : me_index V !! b = Some bi -> me_index V !! prev = Some pi -> nHeight pi < nHeight bi ->
  CheckSpecialTx_at g tx prev = Ok (r, g') -> reads b g g' /\ (cache_ok g -> list_at g prev old -> r = None -> checked old tx).
Proof.
  intros Hb Hp Hlt H. assert (prev <> b) as Hne by (intros ->; assert (pi = bi) as -> by congruence; lia).
  unfold SpecialTxs.CheckSpecialTx_at in H. unfold checked, CheckSpecialTx. destruct (_ || _); [by injection H as <- <-|]. destruct (negb _); [by injection H as <- <-|].
  destruct (_ =? _); [by apply (with_list_reads b _ _ _ _ _ _ old Hne H)|]. destruct (_ =? _); [by apply (with_list_reads b _ _ _ _ _ _ old Hne H)|].
  destruct (_ =? _); [by apply (with_list_reads b _ _ _ _ _ _ old Hne H)|]. destruct (_ =? _); [by apply (with_list_reads b _ _ _ _ _ _ old Hne H)|].
  destruct (_ =? _); [by injection H as <- <-|]. destruct (_ =? _); [|by injection H as <- <-]. split; [by apply (commitment_reads b bi prev pi g tx r g')|done].
Qed.

Lemma check_loop_reads b bi prev pi vtx g g' old : me_index V !! b = Some bi -> me_index V !! prev = Some pi -> nHeight pi < nHeight bi -> no_child V g b -> cache_ok g -> list_at g prev old ->
  check_loop g prev vtx = Ok (None, g') -> reads b g g' /\ forall tx, tx ∈ vtx -> UndoSpecialTx tx = true /\ checked old tx.
Proof.
  intros Hb Hp Hlt. revert g. induction vtx as [|tx vtx IH]; intros g Hn Hc Hat H; cbn [SpecialTxs.check_loop] in H; [injection H as <-; split; [done|]; by intros tx ?%elem_of_nil|].
  apply result_bind_Ok in H as ([r g1] & H1 & H). destruct r as [e|]; [done|]. destruct (ProcessSpecialTx tx) eqn:Et; [done|]. destruct (check_tx_reads b bi prev pi g tx None g1 old Hb Hp Hlt H1) as (Hr1 & Hck).
  assert (UndoSpecialTx tx = true) as Hu by (unfold ProcessSpecialTx, UndoSpecialTx in *; destruct (_ || _); [done|]; by destruct (handled (tx_nType tx))).
  destruct (proj1 Hr1 Hc Hn) as (Hc1 & Hdb & _). destruct (IH g1 (no_child_db V b g g1 Hdb Hn) Hc1 (list_at_db Hash B V g g1 prev old Hdb Hat) H) as (Hr & Hall).
  split; [by transitivity g1|]. intros tx' [->|Htx]%elem_of_cons; [|by apply Hall]. split; [done|]. by apply Hck.
Qed.

Abbreviation process_loop := (process_loop Hash SHA256 B verify_aggregated order V chain).
Abbreviation quorum_ProcessBlock := (quorum_ProcessBlock Hash SHA256 B verify_aggregated order V chain).

Lemma process_loop_keeps b n bh qcs st r st' : (forall qc, qc ∈ qcs -> qc_quorumHash qc <> b) -> process_loop n bh st qcs = Ok (r, st') -> keeps Hash B V b (es_mgr st) (es_mgr st').
Proof.
  revert st. induction qcs as [|qc qcs IH]; intros st Hne H; cbn [QuorumBlocks.process_loop] in H; [by injection H as _ <-|]. apply result_bind_Ok in H as ([r1 st1] & H1 & H).
  transitivity (es_mgr st1); [by apply (ProcessCommitment_keeps Hash SHA256 B verify_aggregated order V chain b st n bh qc r1 st1 (Hne qc ltac:(by left)) H1)|].
  destruct r1 as [e|]; [by injection H as _ <-|]. apply IH; [|done]. intros qc' Hin. apply Hne. by right.
Qed.

Lemma quorum_block_reads b st vtx bh n st' : me_DIP0003Enabled V = true -> llmqs_ok (es_llmq st) -> mined_cache_ok st -> (forall t, session chain t n <> Some b) -> quorum_ProcessBlock st vtx bh n = Ok (None, st') ->
  reads b (es_mgr st) (es_mgr st') /\ es_mined st ⊆ es_mined st' /\ llmqs_ok (es_llmq st').
Proof.
  intros Hdip Hok Hc Hs H. destruct (ProcessBlock_inv Hash SHA256 B verify_aggregated order V chain st vtx bh n st' Hdip Hok Hc H) as (qcs & st1 & st2 & Eq & _ & [c ->] & Hc1 & Hl & ->).
  destruct (block_commitments_types B V vtx qcs Eq) as (_ & _ & Hnd). destruct (process_loop_spec Hash SHA256 B verify_aggregated order V chain n bh _ (set_hasMined st c) st2 Hnd Hok Hc1 Hl) as (Hall & [Ho _] & _ & _ & Hok2 & _).
  split; [|split; [|exact Hok2]].
  - split; [|done]. apply (process_loop_keeps b n bh (map_items qcs).*2 (set_hasMined st c) None st2); [|done]. intros qc Hin Eb. apply (Hs (qc_llmqType qc)). rewrite <- Eb. by apply Hall.
  - apply map_subseteq_spec. intros k v Hk. cbn [set_best es_mined]. destruct (key_case B qkey (map_items qcs).*2 k) as [(qc & Hin & Hn & ->)|Hne]; [|by rewrite (Ho k Hne)].
    destruct (Hall qc Hin) as [_ [[Hn' _]|(_ & Hnone & _)]]; [congruence|]. change (es_mined (set_hasMined st c)) with (es_mined st) in Hnone. congruence.
Qed.


(** ** The quorum parameters stay right *)

Lemma txs_llmq prev nH txs g l r g' : llmqs_ok (mgr_llmq g) -> txs_loop Hash SHA256 B order V prev nH g l txs = Ok (r, g') -> llmqs_ok (mgr_llmq g').
Proof.
  revert g l. induction txs as [|tx txs IH]; intros g l Hok H; cbn [txs_loop] in H; [by injection H as _ <-|]. apply result_bind_Ok in H as ([r1 g1] & H1 & H). assert (llmqs_ok (mgr_llmq g1)) as Hok1.
  { unfold tx_step, lift_step in H1. destruct (negb _); [by injection H1 as _ <-|]. do 4 (destruct (_ =? _); [apply result_bind_Ok in H1 as (x & _ & [= _ <-]); done|]). destruct (_ =? _); [|by injection H1 as _ <-].
    unfold commitment_step in H1. destruct (GetTxPayload _ _) as [qc|]; [|done]. destruct (commitment_IsNull B _); [by injection H1 as _ <-|]. apply result_bind_Ok in H1 as (params & _ & H1). apply result_bind_Ok in H1 as (qo & _ & H1).
    destruct qo as [q|]; [|by injection H1 as _ <-]. destruct (negb _); [by injection H1 as _ <-|]. apply result_bind_Ok in H1 as ([l1 g2] & H2 & [= _ <-]). unfold HandleQuorumCommitment in H2.
    apply result_bind_Ok in H2 as ([ms g3] & H3 & H2). apply result_bind_Ok in H2 as (l2 & _ & [= _ <-]). destruct (GetAllQuorumMembers_inv Hash SHA256 B order V _ _ _ _ _ H3) as (l3 & H4 & _). by apply (GetListForBlock_llmq Hash B V g q l3 g3). }
  destruct r1 as [e|l1]; [by injection H as _ <-|]. by apply (IH g1 l1).
Qed.

Lemma build_llmq g vtx prev r g' : llmqs_ok (mgr_llmq g) -> BuildNewListFromBlock Hash SHA256 B order V g vtx prev = Ok (r, g') -> llmqs_ok (mgr_llmq g').
Proof.
  intros Hok H. unfold BuildNewListFromBlock in H. apply result_bind_Ok in H as (pi & _ & H). apply result_bind_Ok in H as ([old g0] & H0 & H). apply result_bind_Ok in H as (l1 & _ & H). apply result_bind_Ok in H as (l2 & _ & H).
  apply result_bind_Ok in H as ([r1 g1] & H1 & H). pose proof (txs_llmq _ _ _ _ _ _ _ (proj1 (GetListForBlock_llmq Hash B V g prev old g0 Hok H0)) H1) as Hok1. destruct r1 as [e|l3]; [by injection H as _ <-|].
  apply result_bind_Ok in H as (l4 & _ & H). apply result_bind_Ok in H as (l5 & _ & [= _ <-]). by apply UpdateLLMQParams_ok.
Qed.

Lemma process_llmq g vtx h r g' : llmqs_ok (mgr_llmq g) -> ProcessBlock Hash SHA256 B order V g vtx h h false = Ok (r, g') -> llmqs_ok (mgr_llmq g').
Proof.
  intros Hok H. unfold ProcessBlock in H. destruct (negb _); [by injection H as _ <-|]. apply result_bind_Ok in H as (idx & _ & H). apply result_bind_Ok in H as (prev & _ & H). apply result_bind_Ok in H as ([r1 g1] & H1 & H).
  pose proof (build_llmq g vtx prev r1 g1 Hok H1) as Hok1. destruct r1 as [e|l]; [by injection H as _ <-|]. apply result_bind_Ok in H as ([old g2] & H2 & [= _ <-]). by apply (GetListForBlock_llmq Hash B V g1 prev old g2).
Qed.

Lemma undo_llmq g h g' : llmqs_ok (mgr_llmq g) -> UndoBlock Hash B V g h h = Ok g' -> llmqs_ok (mgr_llmq g').
Proof.
  intros Hok H. unfold UndoBlock in H. apply result_bind_Ok in H as (idx & _ & H). apply result_bind_Ok in H as (g1 & H1 & [= <-]). cbn. destruct (match db_list_diff g !! h with Some diff => HasChanges diff | None => false end); [|by injection H1 as <-].
  apply result_bind_Ok in H1 as ([l2 g2] & H2 & H1). apply result_bind_Ok in H1 as (prev & _ & H1). apply result_bind_Ok in H1 as ([l3 g3] & H3 & [= <-]). apply (GetListForBlock_llmq Hash B V g2 prev l3 g3); [|done]. by apply (GetListForBlock_llmq Hash B V g h l2 g2).
Qed.

Lemma roots_reads b bi prev pi c st vtx r c' st' : me_index V !! b = Some bi -> me_index V !! prev = Some pi -> nHeight pi < nHeight bi ->
  CheckCbTxMerkleRoots Hash SHA256 B order V c st vtx prev = Ok (r, c', st') -> exists g, st' = set_mgr st g /\ reads b (es_mgr st) g.
Proof.
  intros Hb Hp Hlt H. assert (st = set_mgr st (es_mgr st)) as Est by (by destruct st). unfold CheckCbTxMerkleRoots in H. apply result_bind_Ok in H as (tx & _ & H).
  destruct (negb _); [injection H as _ _ <-; by exists (es_mgr st)|]. destruct (GetTxPayload _ _) as [cbTx|]; [|injection H as _ _ <-; by exists (es_mgr st)]. apply result_bind_Ok in H as ([[r1 c1] g] & Hl & H).
  exists g. split.
  - destruct r1 as [e|[root ok]]; [by injection H|]. destruct (_ || _); [by injection H|]. destruct (2 <=? _); [|by injection H]. apply result_bind_Ok in H as ([[root2 ok2] c2] & _ & H). destruct (_ || _); by injection H.
  - unfold CalcCbTxMerkleRootMNList in Hl. apply result_bind_Ok in Hl as ([r2 g2] & Hb2 & Hl). assert (g2 = g) as -> by (destruct r2 as [e|l]; [by injection Hl|]; case_bool_decide; [by injection Hl|]; by apply result_bind_Ok in Hl as ([x y] & _ & [= _ _ ->])).
    split; [by apply (build_keeps Hash SHA256 B order V links b bi prev pi vtx (es_mgr st) r2 g)|]. intros Hok. by apply (build_llmq (es_mgr st) vtx prev r2 g).
Qed.

(** The state of the two processors and their caches. *)
Definition evo_ok (st : EvoState) : Prop := cache_ok (es_mgr st) /\ llmqs_ok (es_llmq st) /\ mined_cache_ok st /\ minable_ok st.
(** A block that was not processed before and is not in the chain yet. *)
Definition fresh_block (st : EvoState) (h : ptr) (idx : CBlockIndex) : Prop :=
  unprocessed V (es_mgr st) h /\ (forall t, es_mined_height st !! (t, nHeight idx) = None) /\ forall t, session chain t (nHeight idx) <> Some h.
Definition same_evo_db (st st' : EvoState) : Prop := same_db (es_mgr st) (es_mgr st') /\ es_mined st' = es_mined st /\ es_mined_height st' = es_mined_height st.

(** The three steps of an accepted block. *)
Lemma accepted_steps c st vtx h idx prev pi fCheck c' st' old :
  me_DIP0003Enabled V = true -> evo_ok st -> fresh_block st h idx -> me_index V !! h = Some idx -> pprev idx = Some prev -> me_index V !! prev = Some pi -> nHeight pi < nHeight idx -> list_at (es_mgr st) prev old ->
  ProcessSpecialTxsInBlock Hash SHA256 Hash160 B verify_aggregated order X V chain c st vtx h h false fCheck = Ok (None, c', st') ->
  exists g1 st2 g3, check_loop (es_mgr st) prev vtx = Ok (None, g1) /\ (forall tx, tx ∈ vtx -> UndoSpecialTx tx = true /\ checked old tx) /\ reads h (es_mgr st) g1 /\
    quorum_ProcessBlock (set_mgr st g1) vtx h (nHeight idx) = Ok (None, st2) /\ reads h g1 (es_mgr st2) /\ llmqs_ok (es_llmq st2) /\ es_mined st ⊆ es_mined st2 /\
    ProcessBlock Hash SHA256 B order V (es_mgr st2) vtx h h false = Ok (None, g3) /\
    exists g4, st' = set_mgr st2 g4 /\ reads h g3 g4 /\ (cb_ok Hash c (set_mgr st2 g3) -> cb_ok Hash c' st').
Proof.
  intros Hdip (Hc & Hok & Hmc & Hm) (Hun & Hfr & Hs) Hi Hp Hpi Hlt Hat H. unfold ProcessSpecialTxsInBlock in H. rewrite Hi in H. cbn [deref mbind result_bind] in H. rewrite Hp in H. cbn [deref mbind result_bind] in H.
  apply result_bind_Ok in H as ([[e|] g1] & H1 & H); [done|]. apply result_bind_Ok in H as ([[e|] st2] & H2 & H); [done|]. apply result_bind_Ok in H as ([[e|] g3] & H3 & H); [done|].
  destruct (check_loop_reads h idx prev pi vtx (es_mgr st) g1 old Hi Hpi Hlt ltac:(apply Hun) Hc Hat H1) as (Hr1 & Hall).
  destruct (quorum_block_reads h (set_mgr st g1) vtx h (nHeight idx) st2 Hdip (proj2 Hr1 Hok) Hmc Hs H2) as (Hr2 & Hsub & Hok2).
  exists g1, st2, g3. split; [done|]. split; [done|]. split; [done|]. split; [done|]. split; [done|]. split; [done|]. split; [done|]. split; [done|]. destruct fCheck; [|injection H as <- <-; by exists g3].
  destruct (roots_reads h idx prev pi c (set_mgr st2 g3) vtx None c' st' Hi Hpi Hlt H) as (g4 & -> & Hk). exists g4. split; [done|]. split; [done|]. intros Hcb.
  pose proof (roots_cache_transparent Hash SHA256 B order V c (set_mgr st2 g3) vtx prev Hcb) as Ha. rewrite H in Ha. destruct (CheckCbTxMerkleRoots Hash SHA256 B order V CbCache_empty _ _ _) as [[[r0 c0] st0]|]; [|done]. apply Ha.
Qed.

(** C11: Undoing a block leads back to the database before it.  Take a block that was not
    processed before, over a list that satisfies the invariant, that registers no smartnode
    twice and none that it removes again, and where no collateral has the hash of an address
    or a key.  If [ProcessSpecialTxsInBlock] accepted it, the caches are right
    afterwards, reading the list of the block returns the list built for it, and
    [UndoSpecialTxsInBlock] succeeds: the lists, the mined commitments and their heights
    are those before the block, with right caches. *)
Theorem special_txs_undone c st vtx h idx prev fCheck c' st' old :
  me_DIP0003Enabled V = true -> evo_ok st -> cb_ok Hash c st -> fresh_block st h idx -> me_index V !! h = Some idx -> pprev idx = Some prev -> list_at (es_mgr st) prev old -> inv Hash B old ->
  nTotalRegisteredCount old + Z.of_nat (length vtx) < 2 ^ 32 -> (forall h, registration Hash (drop 1 vtx) h -> mnMap old !! h = None) ->
  ProcessSpecialTxsInBlock Hash SHA256 Hash160 B verify_aggregated order X V chain c st vtx h h false fCheck = Ok (None, c', st') ->
  cb_ok Hash c' st' /\ cache_ok (es_mgr st') /\ exists g st2 l g', check_loop (es_mgr st) prev vtx = Ok (None, g) /\ quorum_ProcessBlock (set_mgr st g) vtx h (nHeight idx) = Ok (None, st2) /\
    BuildNewListFromBlock Hash SHA256 B order V (es_mgr st2) vtx prev = Ok (inr l, g') /\
    (kinds_apart Hash old l -> registered_stay old l ->
     (exists g2, GetListForBlock Hash B V (es_mgr st') h = Ok (SetBlockHash l h, g2)) /\
     exists st'', UndoSpecialTxsInBlock Hash B V st' vtx h h = Ok (true, st'') /\ same_evo_db st st'' /\ es_best st'' = prev /\ evo_ok st'').
Proof.
  intros Hdip Hev Hcb Hfresh Hi Hp Hat Ho Hlen Hreg H. destruct (links h idx Hi) as (_ & Hlk & _). unfold link_ok in Hlk. rewrite Hp in Hlk. destruct Hlk as (pi & Hpi & Hh).
  destruct (accepted_steps c st vtx h idx prev pi fCheck c' st' old Hdip Hev Hfresh Hi Hp Hpi ltac:(lia) Hat H) as (g1 & st2 & g3 & H1 & Hall & Hr1 & H2 & Hr2 & Hok2 & Hsub & H3 & g4 & -> & Hk4 & Hcb').
  destruct Hev as (Hc & Hok & Hmc & Hm), Hfresh as (Hun & Hfr & Hs). destruct (proj1 (reads_trans h _ _ _ Hr1 Hr2) Hc ltac:(apply Hun)) as (Hc2 & Hdb2 & Hcn2).
  assert (unprocessed V (es_mgr st2) h) as Hun2.
  { destruct Hun as (D1 & D2 & D3 & D4), Hdb2 as [E1 E2]. split_and!; [by rewrite E1|by rewrite E2|by apply Hcn2|by apply (no_child_db V h (es_mgr st))]. }
  pose proof (list_at_db Hash B V _ _ prev old Hdb2 Hat) as Hat2.
  destruct (process_list Hash SHA256 B order V links Hash160 X (me_evo V) (fun _ => Ok None) (fun _ => Ok None) order_perm bls_null (es_mgr st2) vtx h idx prev old g3 Hdip Hc2 Hun2 Hi Hp Hat2 Ho Hlen) as (Hc3 & Hne & l & g' & Hb & Hw & Hl3); [|done..|].
  { intros tx Htx. apply (Hall tx). destruct vtx; [done|by right]. }
  destruct (proj1 Hk4 Hc3 (written_no_child order V links _ _ _ idx _ _ Hw Hun2 Hi)) as (Hc4 & Hdb4 & _). split; [apply Hcb'; by apply (cb_ok_more Hash c st)|]. split; [done|]. exists g1, st2, l, g'. split; [done|]. split; [done|]. split; [done|]. intros Hkind Hstay.
  pose proof (list_at_db Hash B V _ _ h _ Hdb4 (Hl3 Hkind Hstay)) as Hl4. cbn [set_mgr es_mgr]. split; [destruct (GetListForBlock_at Hash B V links g4 h idx _ Hc4 Hl4 Hi) as (g2 & R2 & _); by exists g2|].
  assert (written order (es_mgr st2) g4 h old (SetBlockHash l h)) as Hw4 by (destruct Hdb4 as [E1 E2]; unfold written; by rewrite E1, E2).
  destruct (undo_writes Hash B order V links _ g4 h idx prev old _ Hw4 Hun2 Hc4 Hi Hp Hne Hat2 Hl4) as (g5 & Hu & Hdb5 & Hc5 & _).
  destruct (undo_accepted Hash SHA256 B verify_aggregated order V chain (set_mgr st g1) vtx h idx prev h st2 g5 Hdip (proj2 Hr1 Hok) Hmc Hm Hi Hp Hfr H2) as (st'' & Hq & Q1 & Q2 & Q3 & Q4 & Q5 & Q6 & _).
  exists st''. unfold UndoSpecialTxsInBlock. rewrite (proj2 (forallb_forall _ _)). 2:{ intros tx Htx%list_elem_of_In. rewrite elem_of_reverse in Htx. by apply Hall. }
  cbn [set_mgr es_mgr]. rewrite Hu. cbn [mbind result_bind]. split; [exact Hq|]. unfold evo_ok, same_evo_db, es_llmq. rewrite Q4. split_and!; try done; [by transitivity (es_mgr st2)|].
  apply (undo_llmq g4 h g5); [|done]. apply Hk4. by apply (process_llmq (es_mgr st2) vtx h None g3).
Qed.
End Blocks.

(** ** Witnesses *)

(** A coinbase over the two smartnodes of the small list, which has no quorums. *)
Definition toy_cb : CTransaction := mkTx 3 TRANSACTION_COINBASE [] [] 0 (ser_writedata16 2 ++ ser_writedata32 4 ++ replicate 32 7 ++ uint256_null).
Definition toy_cache : CbCache := mkCbCache [mkEntry (replicate 32 9) uint256_null CService_null bls_key_null CKeyID_null true] (replicate 32 9) false ∅ ∅.
Definition toy_sp_state : EvoState := mkEvoState toy_store ∅ ∅ [3] ∅ ∅ ∅.
Definition toy_sp_chain : CChain := [Some [0]; Some [1]; Some [2]; Some [3]].

Lemma toy_cache_ok h : cb_ok h toy_cache toy_sp_state.
Proof. split; [intros E; discriminate E|reflexivity]. Qed.

Lemma roots_cache_transparent_witness : exists c' st', CheckCbTxMerkleRoots toy_sha toy_sha toy_bls toy_order toy_senv toy_cache toy_sp_state [toy_cb] [3] = Ok (None, c', st') /\ cb_ok toy_sha c' st'.
Proof.
  pose proof (roots_cache_transparent toy_sha toy_sha toy_bls toy_order toy_senv toy_cache toy_sp_state [toy_cb] [3] (toy_cache_ok _)) as H.
  assert (match CheckCbTxMerkleRoots toy_sha toy_sha toy_bls toy_order toy_senv CbCache_empty toy_sp_state [toy_cb] [3] with Ok (None, _, _) => true | _ => false end = true) as Hok by (vm_compute; reflexivity).
  destruct (CheckCbTxMerkleRoots toy_sha toy_sha toy_bls toy_order toy_senv CbCache_empty toy_sp_state [toy_cb] [3]) as [[[[e|] c0] st0]|e]; try discriminate Hok.
  destruct (CheckCbTxMerkleRoots toy_sha toy_sha toy_bls toy_order toy_senv toy_cache toy_sp_state [toy_cb] [3]) as [[[r c'] st']|e]; [|destruct H]. destruct H as (-> & _ & Hc). exists c', st'. split; [reflexivity|exact Hc].
Defined.

Lemma coinbase_commits_witness : exists l g', BuildNewListFromBlock toy_sha toy_sha toy_bls toy_order toy_senv toy_store [toy_cb] [3] = Ok (inr l, g') /\
  CalcMerkleRoot toy_sha (CSimplifiedMNList toy_order l) = Ok (replicate 32 7, false).
Proof.
  assert (match CheckCbTxMerkleRoots toy_sha toy_sha toy_bls toy_order toy_senv toy_cache toy_sp_state [toy_cb] [3] with Ok (None, _, _) => true | _ => false end = true) as Hok by (vm_compute; reflexivity).
  destruct (CheckCbTxMerkleRoots toy_sha toy_sha toy_bls toy_order toy_senv toy_cache toy_sp_state [toy_cb] [3]) as [[[[e|] c'] st']|e] eqn:Ec; try discriminate Hok.
  destruct (coinbase_commits toy_sha toy_sha toy_bls toy_order toy_senv toy_cache toy_sp_state [toy_cb] toy_cb [3] c' st' (toy_cache_ok _) eq_refl eq_refl Ec) as (cbTx & l & g' & Hp & Hb & _ & Hr & _).
  exists l, g'. split; [exact Hb|]. rewrite Hr. vm_compute in Hp. injection Hp as <-. reflexivity.
Defined.

(** The list that is built has the same smartnodes, and no hash of two kinds. *)
Lemma toy_built : match
    '(_, g) ← check_loop toy_hash toy_sha (fun k => k) toy_bls toy_agg toy_order toy_px toy_senv (es_mgr toy_sp_state) [3] [toy_coinbase; toy_tx 7 9];
    '(_, st) ← quorum_ProcessBlock toy_hash toy_sha toy_bls toy_agg toy_order toy_senv toy_sp_chain (set_mgr toy_sp_state g) [toy_coinbase; toy_tx 7 9] [4] 4;
    BuildNewListFromBlock toy_hash toy_sha toy_bls toy_order toy_senv (es_mgr st) [toy_coinbase; toy_tx 7 9] [3] with Ok (inr l, _) => toy_apart l = true | _ => False end.
Proof. vm_compute. reflexivity. Qed.

Lemma special_txs_undone_witness : exists c' st' st'',
  ProcessSpecialTxsInBlock toy_hash toy_sha (fun k => k) toy_bls toy_agg toy_order toy_px toy_senv toy_sp_chain toy_cache toy_sp_state [toy_coinbase; toy_tx 7 9] [4] [4] false true = Ok (None, c', st') /\
  UndoSpecialTxsInBlock toy_hash toy_bls toy_senv st' [toy_coinbase; toy_tx 7 9] [4] [4] = Ok (true, st'') /\ same_evo_db toy_sp_state st''.
Proof.
  assert (match ProcessSpecialTxsInBlock toy_hash toy_sha (fun k => k) toy_bls toy_agg toy_order toy_px toy_senv toy_sp_chain toy_cache toy_sp_state [toy_coinbase; toy_tx 7 9] [4] [4] false true with Ok (None, _, _) => true | _ => false end = true) as Hok by (vm_compute; reflexivity).
  destruct (ProcessSpecialTxsInBlock toy_hash toy_sha (fun k => k) toy_bls toy_agg toy_order toy_px toy_senv toy_sp_chain toy_cache toy_sp_state [toy_coinbase; toy_tx 7 9] [4] [4] false true) as [[[[e|] c'] st']|e] eqn:Ep; try discriminate Hok.
  destruct toy_store_ok as (Hc & Hu & Hl). destruct (sample_index !! [4]) as [idx|] eqn:Hi; [|exfalso; revert Hi; by vm_compute].
  destruct (special_txs_undone toy_hash toy_sha (fun k => k) toy_bls toy_agg toy_order toy_px toy_senv toy_sp_chain sample_index_ok (fun m => reflexivity _) eq_refl
    toy_cache toy_sp_state [toy_coinbase; toy_tx 7 9] [4] idx [3] true c' st' toy_list2 eq_refl) as (_ & _ & g & st2 & l & g' & Hck & Hq & Hb & Hres); [| |  |exact Hi| |exact Hl|exact inv_toy_list2|by vm_compute| |exact Ep|].
  - split; [exact Hc|]. split; [exact MainLLMQs_ok|]. split; intros k x H; cbn in H; rewrite lookup_empty in H; discriminate H.
  - apply toy_cache_ok.
  - assert (nHeight idx = 4) as Hn by (revert Hi; vm_compute; by intros [= <-]). split; [exact Hu|]. split; [intros t; apply lookup_empty|]. intros t. rewrite Hn. unfold session, schedule. destruct (t =? LLMQ_50_60), (t =? LLMQ_400_60); vm_compute; discriminate.
  - revert Hi. vm_compute. by intros [= <-].
  - intros h (tx & Htx & Ht & _). apply list_elem_of_singleton in Htx as ->. exfalso. clear - Ht. discriminate Ht.
  - assert (nHeight idx = 4) as Hn by (revert Hi; vm_compute; by intros [= <-]). rewrite Hn in Hq. pose proof toy_built as Hap. rewrite Hck in Hap. cbn [mbind result_bind] in Hap. rewrite Hq in Hap. cbn [mbind result_bind] in Hap. rewrite Hb in Hap. apply bool_decide_eq_true in Hap as [Ht Hk].
    destruct Hres as [_ (st'' & Hun & Hdb & _)].
    + intros p df q d Hp Hd. exact (Hk q d Hd p df Hp).
    + intros i. rewrite Ht. destruct toy_list2_spec as (_ & _ & ->). lia.
    + exists c', st', st''. split; [reflexivity|]. split; [exact Hun|exact Hdb].
Defined.
