(* ===== verification/Bloom.v ===== *)
(** * Bloom filters and filtered blocks
    (src/src/bloom.h, src/src/bloom.cpp, MurmurHash3 of src/src/hash.cpp, CMerkleBlock of
    src/src/merkleblock.cpp, the filter messages of src/src/net_processing.cpp)

    A light client loads a filter of what it watches into a node, which then sends it only
    matching transactions, and blocks with a partial Merkle tree.  Nothing that was inserted
    is ever missed.  The rolling filter forgets: it keeps the most recent insertions.  How
    large the filters are follows from logarithms in floating point; the sizes are
    arguments here. *)

From Stdlib Require Import ZArith Lia.
From stdpp Require Import base tactics numbers option list relations.
From S2P Require Import Prelude ArithUint256 Compact Block Serialize Transaction Script Merkle Standard ProTx.

Open Scope Z_scope.

(** ** [MurmurHash3] *)

Definition ROTL32 (x r : Z) : Z := Z.lor (u32 (Z.shiftl x r)) (Z.shiftr x (32 - r)).
Definition murmur_scramble (k1 : Z) : Z := u32 (ROTL32 (u32 (k1 * 0xcc9e2d51)) 15 * 0x1b873593).
Definition murmur_block (h1 k1 : Z) : Z := u32 (ROTL32 (Z.lxor h1 (murmur_scramble k1)) 13 * 5 + 0xe6546b64).
(** The blocks of four bytes; what is left is the tail. *)
Fixpoint murmur_body (h1 : Z) (v : list Z) : Z * list Z :=
  match v with
  | b0 :: b1 :: b2 :: b3 :: v => murmur_body (murmur_block h1 (ReadLE32 b0 b1 b2 b3)) v
  | _ => (h1, v)
  end.
Definition murmur_tail (h1 : Z) (tail : list Z) : Z :=
  match tail with
  | [] => h1
  | [t0] => Z.lxor h1 (murmur_scramble t0)
  | [t0; t1] => Z.lxor h1 (murmur_scramble (Z.lxor (Z.shiftl t1 8) t0))
  | t0 :: t1 :: t2 :: _ => Z.lxor h1 (murmur_scramble (Z.lxor (Z.lxor (Z.shiftl t2 16) (Z.shiftl t1 8)) t0))
  end.
Definition MurmurHash3 (nHashSeed : Z) (vDataToHash : list Z) : Z :=
  let '(h1, tail) := murmur_body nHashSeed vDataToHash in
  let h1 := murmur_tail h1 tail in
  let h1 := Z.lxor h1 (u32 (Z.of_nat (length vDataToHash))) in
  let h1 := u32 (Z.lxor h1 (Z.shiftr h1 16) * 0x85ebca6b) in
  let h1 := u32 (Z.lxor h1 (Z.shiftr h1 13) * 0xc2b2ae35) in
  Z.lxor h1 (Z.shiftr h1 16).

(** ** [CBloomFilter] *)

Definition MAX_BLOOM_FILTER_SIZE : Z := 36000.
Definition MAX_HASH_FUNCS : Z := 50.
Definition BLOOM_UPDATE_NONE : Z := 0.
Definition BLOOM_UPDATE_ALL : Z := 1.
Definition BLOOM_UPDATE_P2PUBKEY_ONLY : Z := 2.
Definition BLOOM_UPDATE_MASK : Z := 3.

Record CBloomFilter := mkBloom { vData : list Z; isFull : bool; isEmpty : bool; nHashFuncs : Z; nTweak : Z; nFlags : Z }.
(** The default constructor, and the other one for the sizes it calculates. *)
Definition CBloomFilter_default : CBloomFilter := mkBloom [] true false 0 0 0.
Definition CBloomFilter_new (size hashFuncs tweak flags : Z) : CBloomFilter :=
  mkBloom (replicate (Z.to_nat (Z.min size (MAX_BLOOM_FILTER_SIZE * 8) / 8)) 0) false true (Z.min hashFuncs MAX_HASH_FUNCS) tweak flags.
Definition set_vData (f : CBloomFilter) (v : list Z) : CBloomFilter := mkBloom v (isFull f) (isEmpty f) (nHashFuncs f) (nTweak f) (nFlags f).
Definition set_isEmpty (f : CBloomFilter) (b : bool) : CBloomFilter := mkBloom (vData f) (isFull f) b (nHashFuncs f) (nTweak f) (nFlags f).

#[global] Instance CBloomFilter_serial : Serial CBloomFilter := {
  ser f := ser_byte_vector (vData f) ++ ser_writedata32 (nHashFuncs f) ++ ser_writedata32 (nTweak f) ++ ser_writedata8 (nFlags f);
  unser s :=
    '(v, s) ← unser_byte_vector s; '(h, s) ← ser_readdata32 s; '(t, s) ← ser_readdata32 s; '(fl, s) ← ser_readdata8 s;
    Ok (mkBloom v true false h t fl, s)
}.

(** A filter of no bytes divides by zero. *)
Definition bloom_Hash (f : CBloomFilter) (nHashNum : Z) (vDataToHash : list Z) : result Z :=
  let n := Z.of_nat (length (vData f)) * 8 in
  if n =? 0 then Err UintError else Ok (u32 (MurmurHash3 (u32 (nHashNum * 0xFBA4C795 + nTweak f)) vDataToHash mod n)).

Definition set_bit (v : list Z) (nIndex : Z) : list Z :=
  let i := Z.to_nat (Z.shiftr nIndex 3) in <[i := u8 (Z.lor (v !!! i) (Z.shiftl 1 (Z.land 7 nIndex)))]> v.
Definition bit_set (v : list Z) (nIndex : Z) : bool := negb (Z.land (v !!! Z.to_nat (Z.shiftr nIndex 3)) (Z.shiftl 1 (Z.land 7 nIndex)) =? 0).

(** [todo] of the hash functions, from the function [i] on. *)
Fixpoint insert_loop (todo : nat) (i : Z) (f : CBloomFilter) (vKey : list Z) : result CBloomFilter :=
  match todo with
  | O => Ok f
  | S todo => nIndex ← bloom_Hash f i vKey; insert_loop todo (i + 1) (set_vData f (set_bit (vData f) nIndex)) vKey
  end.
Definition bloom_insert (f : CBloomFilter) (vKey : list Z) : result CBloomFilter :=
  if isFull f then Ok f else f ← insert_loop (Z.to_nat (nHashFuncs f)) 0 f vKey; Ok (set_isEmpty f false).

Fixpoint contains_loop (todo : nat) (i : Z) (f : CBloomFilter) (vKey : list Z) : result bool :=
  match todo with
  | O => Ok true
  | S todo => nIndex ← bloom_Hash f i vKey; if negb (bit_set (vData f) nIndex) then Ok false else contains_loop todo (i + 1) f vKey
  end.
Definition bloom_contains (f : CBloomFilter) (vKey : list Z) : result bool :=
  if isFull f then Ok true else if isEmpty f then Ok false else contains_loop (Z.to_nat (nHashFuncs f)) 0 f vKey.

Definition bloom_clear (f : CBloomFilter) : CBloomFilter := mkBloom (replicate (length (vData f)) 0) false true (nHashFuncs f) (nTweak f) (nFlags f).
Definition bloom_reset (f : CBloomFilter) (nNewTweak : Z) : CBloomFilter :=
  let f := bloom_clear f in mkBloom (vData f) (isFull f) (isEmpty f) (nHashFuncs f) nNewTweak (nFlags f).
Definition IsWithinSizeConstraints (f : CBloomFilter) : bool := (Z.of_nat (length (vData f)) <=? MAX_BLOOM_FILTER_SIZE) && (nHashFuncs f <=? MAX_HASH_FUNCS).
Definition UpdateEmptyFull (f : CBloomFilter) : CBloomFilter :=
  mkBloom (vData f) (forallb (fun b => b =? 0xff) (vData f)) (forallb (fun b => b =? 0) (vData f)) (nHashFuncs f) (nTweak f) (nFlags f).

(** The data that a script pushes; each instruction takes at least a byte. *)
Fixpoint bloom_script_loop (fuel : nat) (f : CBloomFilter) (pc : list Z) : result bool :=
  match pc, fuel with
  | [], _ => Ok false
  | _, O => Err OutOfFuel
  | _, S fuel =>
      match GetOp pc with
      | (_, None) => Ok false
      | (pc, Some (_, data)) =>
          m ← (if negb (Nat.eqb (length data) 0) then bloom_contains f data else Ok false);
          if (m : bool) then Ok true else bloom_script_loop fuel f pc
      end
  end.
Definition CheckScript (f : CBloomFilter) (script : CScript) : result bool := bloom_script_loop (length script) f script.

(** A disjunction with the second operand evaluated only when needed. *)
Definition or_else (a b : result bool) : result bool := x ← a; if (x : bool) then Ok true else b.

Definition updates_all (f : CBloomFilter) : bool := Z.land (nFlags f) BLOOM_UPDATE_MASK =? BLOOM_UPDATE_ALL.
Definition updates_p2pubkey (f : CBloomFilter) : bool := Z.land (nFlags f) BLOOM_UPDATE_MASK =? BLOOM_UPDATE_P2PUBKEY_ONLY.
Definition insert_if (b : bool) (f : CBloomFilter) (vKey : list Z) : result CBloomFilter := if b then bloom_insert f vKey else Ok f.

Section Filter.
(** The hash of a transaction, and BLS keys. *)
Context (GetHash : CTransaction -> uint256) (B : BLS).

Definition CheckSpecialTransactionMatchesAndUpdate (f : CBloomFilter) (tx : CTransaction) : result (bool * CBloomFilter) :=
  if negb (tx_nVersion tx =? 3) || (tx_nType tx =? TRANSACTION_NORMAL) then Ok (false, f)
  else if tx_nType tx =? TRANSACTION_PROVIDER_REGISTER then
    match GetTxPayload (unser_ProReg B) (vExtraPayload tx) with
    | None => Ok (false, f)
    | Some p =>
        m ← or_else (bloom_contains f (ser (reg_collateralOutpoint p))) (or_else (bloom_contains f (reg_keyIDOwner p)) (or_else (bloom_contains f (reg_keyIDVoting p)) (CheckScript f (reg_scriptPayout p))));
        if (m : bool) then f ← insert_if (updates_all f) f (GetHash tx); Ok (true, f) else Ok (false, f)
    end
  else if tx_nType tx =? TRANSACTION_PROVIDER_UPDATE_SERVICE then
    match GetTxPayload (unser_ProUpServ B) (vExtraPayload tx) with
    | None => Ok (false, f)
    | Some p =>
        m ← bloom_contains f (serv_proTxHash p);
        if (m : bool) then Ok (true, f)
        else
          m ← CheckScript f (serv_scriptOperatorPayout p);
          if (m : bool) then f ← insert_if (updates_all f) f (serv_proTxHash p); Ok (true, f) else Ok (false, f)
    end
  else if tx_nType tx =? TRANSACTION_PROVIDER_UPDATE_REGISTRAR then
    match GetTxPayload (unser_ProUpReg B) (vExtraPayload tx) with
    | None => Ok (false, f)
    | Some p =>
        m ← bloom_contains f (upreg_proTxHash p);
        if (m : bool) then Ok (true, f)
        else
          m ← or_else (bloom_contains f (upreg_keyIDVoting p)) (CheckScript f (upreg_scriptPayout p));
          if (m : bool) then f ← insert_if (updates_all f) f (upreg_proTxHash p); Ok (true, f) else Ok (false, f)
    end
  else if tx_nType tx =? TRANSACTION_PROVIDER_UPDATE_REVOKE then
    match GetTxPayload (unser_ProUpRev B) (vExtraPayload tx) with
    | None => Ok (false, f)
    | Some p => m ← bloom_contains f (rev_proTxHash p); Ok (m, f)
    end
  else Ok (false, f).

(** An output that matches is entered, depending on the flags. *)
Definition enters (f : CBloomFilter) (o : CTxOut) : bool :=
  updates_all f || (updates_p2pubkey f && let '(ok, type, _) := Solver (scriptPubKey o) in ok && (bool_decide (type = TX_PUBKEY) || bool_decide (type = TX_MULTISIG))).
Fixpoint bloom_outputs_loop (f : CBloomFilter) (hash : uint256) (i : Z) (fFound : bool) (vout : list CTxOut) : result (bool * CBloomFilter) :=
  match vout with
  | [] => Ok (fFound, f)
  | o :: vout =>
      m ← CheckScript f (scriptPubKey o);
      if (m : bool) then f ← insert_if (enters f o) f (ser (mkOutPoint hash i)); bloom_outputs_loop f hash (i + 1) true vout
      else bloom_outputs_loop f hash (i + 1) fFound vout
  end.
Fixpoint bloom_inputs_loop (f : CBloomFilter) (vin : list CTxIn) : result bool :=
  match vin with
  | [] => Ok false
  | i :: vin => or_else (bloom_contains f (ser (prevout i))) (or_else (CheckScript f (scriptSig i)) (bloom_inputs_loop f vin))
  end.

Definition IsRelevantAndUpdate (f : CBloomFilter) (tx : CTransaction) : result (bool * CBloomFilter) :=
  if isFull f then Ok (true, f)
  else if isEmpty f then Ok (false, f)
  else
    let hash := GetHash tx in
    fFound ← bloom_contains f hash;
    '(fFound, f) ← (if (fFound : bool) then Ok (true, f) else CheckSpecialTransactionMatchesAndUpdate f tx);
    '(fFound, f) ← bloom_outputs_loop f hash 0 fFound (vout tx);
    if (fFound : bool) then Ok (true, f) else m ← bloom_inputs_loop f (vin tx); Ok (m, f).

(** ** [CMerkleBlock] *)

Record CMerkleBlock := mkMerkleBlock { mb_txn : CPartialMerkleTree; vMatchedTxn : list (Z * uint256) }.

Definition allowed_type (tx : CTransaction) : bool :=
  negb (tx_nVersion tx =? 3) || existsb (Z.eqb (tx_nType tx)) [TRANSACTION_NORMAL; TRANSACTION_PROVIDER_REGISTER; TRANSACTION_PROVIDER_UPDATE_SERVICE;
    TRANSACTION_PROVIDER_UPDATE_REGISTRAR; TRANSACTION_PROVIDER_UPDATE_REVOKE; TRANSACTION_COINBASE].

Fixpoint match_txs (f : CBloomFilter) (vtx : list CTransaction) : result (list bool * CBloomFilter) :=
  match vtx with
  | [] => Ok ([], f)
  | tx :: vtx =>
      '(m, f) ← (if allowed_type tx then IsRelevantAndUpdate f tx else Ok (false, f));
      '(ms, f) ← match_txs f vtx;
      Ok (m :: ms, f)
  end.

(** The header is copied; what is relayed is the header and the tree. *)
Definition matched_txn (vMatch : list bool) (vHashes : list uint256) : list (Z * uint256) := (fun p => (Z.of_nat p, vHashes !!! p)) <$> matches vMatch.
Definition CMerkleBlock_filter (Hash : list Z -> uint256) (vtx : list CTransaction) (filter : CBloomFilter) : result (CMerkleBlock * CBloomFilter) :=
  '(vMatch, filter) ← match_txs filter vtx;
  let vHashes := GetHash <$> vtx in
  txn ← PartialMerkleTree Hash vHashes vMatch;
  Ok (mkMerkleBlock txn (matched_txn vMatch vHashes), filter).
Definition CMerkleBlock_txids (Hash : list Z -> uint256) (vtx : list CTransaction) (txids : list uint256) : result CMerkleBlock :=
  let vHashes := GetHash <$> vtx in
  let vMatch := (fun h => bool_decide (h ∈ txids)) <$> vHashes in
  txn ← PartialMerkleTree Hash vHashes vMatch;
  Ok (mkMerkleBlock txn []).
End Filter.

(** ** The filter of a peer *)

Record FilterPeer := mkFilterPeer { pfilter : option CBloomFilter; fRelayTxes : bool }.

(** The filter messages, with the score that the peer gets; [node_bloom] tells whether the
    node offers filters to it. *)
Definition on_filterload (p : FilterPeer) (filter : CBloomFilter) : Z * FilterPeer :=
  if negb (IsWithinSizeConstraints filter) then (100, p) else (0, mkFilterPeer (Some (UpdateEmptyFull filter)) true).
Definition on_filteradd (p : FilterPeer) (data : list Z) : result (Z * FilterPeer) :=
  if MAX_SCRIPT_ELEMENT_SIZE <? Z.of_nat (length data) then Ok (100, p)
  else match pfilter p with
       | None => Ok (100, p)
       | Some f => f ← bloom_insert f data; Ok (0, mkFilterPeer (Some f) (fRelayTxes p))
       end.
Definition on_filterclear (node_bloom : bool) (p : FilterPeer) : FilterPeer := mkFilterPeer (if node_bloom then Some CBloomFilter_default else pfilter p) true.

(** ** [CRollingBloomFilter] *)

Record CRollingBloomFilter := mkRolling {
  nEntriesPerGeneration : Z; nEntriesThisGeneration : Z; nGeneration : Z; rb_data : list Z; rb_nTweak : Z; rb_nHashFuncs : Z
}.
(** [nFilterBits] and the number of hash functions are calculated from the rates. *)
Definition CRollingBloomFilter_new (nElements hashFuncs nFilterBits tweak : Z) : CRollingBloomFilter :=
  mkRolling ((nElements + 1) / 2) 0 1 (replicate (Z.to_nat (2 * ((nFilterBits + 63) / 64))) 0) tweak hashFuncs.
Definition RollingBloomHash (nHashNum tweak : Z) (v : list Z) : Z := MurmurHash3 (u32 (nHashNum * 0xFBA4C795 + tweak)) v.
Definition FastMod (x n : Z) : Z := u32 (Z.shiftr (u64 (x * n)) 32).

(** The words of all positions of a generation are cleared. *)
Fixpoint wipe (mask1 mask2 : Z) (data : list Z) : list Z :=
  match data with
  | p1 :: p2 :: data => let mask := Z.lor (Z.lxor p1 mask1) (Z.lxor p2 mask2) in Z.land p1 mask :: Z.land p2 mask :: wipe mask1 mask2 data
  | _ => data
  end.
Definition next_generation (r : CRollingBloomFilter) : CRollingBloomFilter :=
  if nEntriesThisGeneration r =? nEntriesPerGeneration r then
    let g := nGeneration r + 1 in
    let g := if g =? 4 then 1 else g in
    mkRolling (nEntriesPerGeneration r) 0 g (wipe (u64 (0 - Z.land g 1)) (u64 (0 - Z.shiftr g 1)) (rb_data r)) (rb_nTweak r) (rb_nHashFuncs r)
  else r.
Definition put_bit (w bit b : Z) : Z := Z.lor (Z.land w (Z.lxor (2 ^ 64 - 1) (Z.shiftl 1 bit))) (Z.shiftl b bit).
Definition rolling_put (g : Z) (data : list Z) (h : Z) : list Z :=
  let bit := Z.land h 0x3F in
  let pos := FastMod h (Z.of_nat (length data)) in
  let i := Z.to_nat (Z.ldiff pos 1) in
  let j := Z.to_nat (Z.lor pos 1) in
  let data := <[i := put_bit (data !!! i) bit (Z.land g 1)]> data in
  <[j := put_bit (data !!! j) bit (Z.shiftr g 1)]> data.
Definition rolling_hashes (r : CRollingBloomFilter) (vKey : list Z) : list Z := (fun n => RollingBloomHash (Z.of_nat n) (rb_nTweak r) vKey) <$> seq 0 (Z.to_nat (rb_nHashFuncs r)).
Definition rolling_insert (r : CRollingBloomFilter) (vKey : list Z) : CRollingBloomFilter :=
  let r := next_generation r in
  mkRolling (nEntriesPerGeneration r) (nEntriesThisGeneration r + 1) (nGeneration r) (foldl (rolling_put (nGeneration r)) (rb_data r) (rolling_hashes r vKey)) (rb_nTweak r) (rb_nHashFuncs r).
Definition rolling_has (data : list Z) (h : Z) : bool :=
  let pos := FastMod h (Z.of_nat (length data)) in
  negb (Z.land (Z.shiftr (Z.lor (data !!! Z.to_nat (Z.ldiff pos 1)) (data !!! Z.to_nat (Z.lor pos 1))) (Z.land h 0x3F)) 1 =? 0).
Definition rolling_contains (r : CRollingBloomFilter) (vKey : list Z) : bool := forallb (rolling_has (rb_data r)) (rolling_hashes r vKey).
Definition rolling_reset (r : CRollingBloomFilter) (tweak : Z) : CRollingBloomFilter :=
  mkRolling (nEntriesPerGeneration r) 0 1 (replicate (length (rb_data r)) 0) tweak (rb_nHashFuncs r).

(** ** Bits of a filter *)

Lemma bit_set_testbit v i : bit_set v i = Z.testbit (v !!! Z.to_nat (Z.shiftr i 3)) (Z.land 7 i).
Proof.
  unfold bit_set. rewrite land_bit_zero by (apply Z.land_nonneg; lia). by destruct (Z.testbit _ _).
Qed.
Lemma bit_place i : 0 <= Z.land 7 i < 8.
Proof. rewrite Z.land_comm. change 7 with (Z.ones 3). rewrite Z.land_ones by lia. apply Z.mod_pos_bound. lia. Qed.
Lemma testbit_u8_low x b : 0 <= b < 8 -> Z.testbit (u8 x) b = Z.testbit x b.
Proof. intros Hb. unfold u8. apply Z.mod_pow2_bits_low. lia. Qed.

Lemma length_set_bit v i : length (set_bit v i) = length v.
Proof. unfold set_bit. by rewrite length_insert. Qed.
Lemma byte_index i n : 0 <= i < Z.of_nat n * 8 -> (Z.to_nat (Z.shiftr i 3) < n)%nat.
Proof. intros Hi. rewrite Z.shiftr_div_pow2 by lia. change (2 ^ 3) with 8. pose proof (Z.div_lt_upper_bound i 8 (Z.of_nat n)). pose proof (Z.div_pos i 8). lia. Qed.

Lemma set_bit_same v i : 0 <= i < Z.of_nat (length v) * 8 -> bit_set (set_bit v i) i = true.
Proof.
  intros Hi. pose proof (byte_index i (length v) Hi) as Hk. pose proof (bit_place i) as Hb. rewrite bit_set_testbit. unfold set_bit.
  rewrite list_lookup_total_insert_eq, testbit_u8_low, Z.lor_spec, Z.shiftl_1_l, Z.pow2_bits_true by (done || lia). apply orb_true_r.
Qed.
Lemma set_bit_mono v i j : bit_set v i = true -> bit_set (set_bit v j) i = true.
Proof.
  rewrite !bit_set_testbit. intros Hi. unfold set_bit. destruct (decide (Z.to_nat (Z.shiftr i 3) = Z.to_nat (Z.shiftr j 3))) as [E|E].
  - destruct (decide (Z.to_nat (Z.shiftr j 3) < length v)%nat) as [Hl|Hl]; [|by rewrite list_insert_ge by lia].
    rewrite E in *. rewrite list_lookup_total_insert_eq, testbit_u8_low, Z.lor_spec, Hi by (done || apply bit_place). done.
  - by rewrite list_lookup_total_insert_ne.
Qed.

(** ** Filters only grow *)

Record extends (f g : CBloomFilter) : Prop := {
  ext_length : length (vData g) = length (vData f);
  ext_funcs : nHashFuncs g = nHashFuncs f;
  ext_tweak : nTweak g = nTweak f;
  ext_flags : nFlags g = nFlags f;
  ext_full : isFull g = isFull f;
  ext_empty : isEmpty f = false -> isEmpty g = false;
  ext_bits i : bit_set (vData f) i = true -> bit_set (vData g) i = true
}.
#[global] Instance extends_preorder : PreOrder extends.
Proof. split; [by split|]. intros f g h [] []. split; intros; try congruence; auto. Qed.

(** A filter without bytes answers everything. *)
Definition filter_ok (f : CBloomFilter) : Prop := vData f = [] -> isFull f = true.
Lemma extends_ok f g : filter_ok f -> extends f g -> filter_ok g.
Proof. intros Hf He Hg. rewrite (ext_full _ _ He). apply Hf. pose proof (ext_length _ _ He) as E. rewrite Hg in E. by destruct (vData f). Qed.

Lemma bloom_Hash_ok f i k : vData f <> [] -> exists n, bloom_Hash f i k = Ok n /\ 0 <= n < Z.of_nat (length (vData f)) * 8.
Proof.
  intros Hne. unfold bloom_Hash. assert (0 < Z.of_nat (length (vData f)) * 8) as Hp by (destruct (vData f); [done|cbn; lia]). rewrite (proj2 (Z.eqb_neq _ _)) by lia. eexists. split; [reflexivity|].
  pose proof (Z.mod_pos_bound (MurmurHash3 (u32 (i * 0xFBA4C795 + nTweak f)) k) _ Hp) as Hm. set (m := MurmurHash3 _ _ mod _) in *. unfold u32. pose proof (Z.mod_le m (2 ^ 32) ltac:(lia) ltac:(lia)). pose proof (Z.mod_pos_bound m (2 ^ 32) ltac:(lia)). lia.
Qed.
Lemma bloom_Hash_extends f g i k : extends f g -> bloom_Hash g i k = bloom_Hash f i k.
Proof. intros He. unfold bloom_Hash. by rewrite (ext_length _ _ He), (ext_tweak _ _ He). Qed.

Lemma extends_set_bit f n : extends f (set_vData f (set_bit (vData f) n)).
Proof. split; try done; [apply length_set_bit|]. intros i. apply set_bit_mono. Qed.

(** A key is in the filter when its bits are set. *)
Definition has_bits (f : CBloomFilter) (todo : nat) (i : Z) (k : list Z) : Prop :=
  forall j n, i <= j < i + Z.of_nat todo -> bloom_Hash f j k = Ok n -> bit_set (vData f) n = true.

Lemma insert_loop_spec todo i f k : vData f <> [] -> exists g, insert_loop todo i f k = Ok g /\ extends f g /\ has_bits g todo i k.
Proof.
  revert i f. induction todo as [|todo IH]; intros i f Hne; cbn [insert_loop]; [exists f; split_and!; try done; intros j n Hj; lia|].
  destruct (bloom_Hash_ok f i k Hne) as (n & Hn & Hr). rewrite Hn. cbn [mbind result_bind]. set (f1 := set_vData f (set_bit (vData f) n)). pose proof (extends_set_bit f n) as He1. fold f1 in He1.
  destruct (IH (i + 1) f1) as (g & Hg & He & Hb); [cbn; intros E; apply Hne; apply (f_equal length) in E; rewrite length_set_bit in E; by destruct (vData f)|].
  exists g. split; [done|]. split; [by transitivity f1|]. intros j n' Hj Hh. destruct (decide (j = i)) as [->|Hji]; [|apply (Hb j n'); [lia|done]].
  rewrite (bloom_Hash_extends f1 g), (bloom_Hash_extends f f1), Hn in Hh by done. injection Hh as <-. apply (ext_bits _ _ He). cbn. by apply set_bit_same.
Qed.

Lemma contains_loop_spec todo i f k : vData f <> [] -> exists b, contains_loop todo i f k = Ok b /\ (b = true <-> has_bits f todo i k).
Proof.
  intros Hne. revert i. induction todo as [|todo IH]; intros i; cbn [contains_loop]; [exists true; split; [done|]; split; [|done]; intros _ j n Hj; lia|].
  destruct (bloom_Hash_ok f i k Hne) as (n & Hn & _). rewrite Hn. cbn [mbind result_bind]. destruct (bit_set (vData f) n) eqn:Eb; cbn [negb].
  - destruct (IH (i + 1)) as (b & -> & Hb). exists b. split; [done|]. rewrite Hb. split; intros H j n' Hj Hh; [|by apply (H j n'); [lia|]]. destruct (decide (j = i)) as [->|Hji]; [congruence|]. apply (H j n'); [lia|done].
  - exists false. split; [done|]. split; [done|]. intros H. rewrite (H i n) in Eb by (done || lia). done.
Qed.

(** The keys that a filter reports. *)
Definition holds (f : CBloomFilter) (k : list Z) : Prop := bloom_contains f k = Ok true.

Lemma contains_total f k : filter_ok f -> exists b, bloom_contains f k = Ok b.
Proof.
  intros Hf. unfold bloom_contains. destruct (isFull f) eqn:Ef; [by exists true|]. destruct (isEmpty f); [by exists false|].
  destruct (contains_loop_spec (Z.to_nat (nHashFuncs f)) 0 f k) as (b & -> & _); [|by exists b]. intros E. specialize (Hf E). congruence.
Qed.

Lemma holds_extends f g k : filter_ok f -> extends f g -> holds f k -> holds g k.
Proof.
  intros Hf He. unfold holds, bloom_contains. rewrite (ext_full _ _ He). destruct (isFull f) eqn:Ef; [done|]. destruct (isEmpty f) eqn:Ee; [done|]. rewrite (ext_empty _ _ He Ee), (ext_funcs _ _ He).
  assert (vData f <> []) as Hne by (intros E; specialize (Hf E); congruence).
  assert (vData g <> []) as Hneg by (intros E; pose proof (ext_length _ _ He) as El; rewrite E in El; by destruct (vData f)).
  destruct (contains_loop_spec (Z.to_nat (nHashFuncs f)) 0 f k Hne) as (b & -> & Hb), (contains_loop_spec (Z.to_nat (nHashFuncs f)) 0 g k Hneg) as (b' & -> & Hb').
  intros [= ->]. f_equal. apply Hb'. intros j n Hj Hh. rewrite (bloom_Hash_extends f g) in Hh by done. apply (ext_bits _ _ He). by apply (proj1 Hb eq_refl j).
Qed.

Lemma bloom_insert_spec f k : filter_ok f -> exists g, bloom_insert f k = Ok g /\ filter_ok g /\ extends f g /\ holds g k.
Proof.
  intros Hf. unfold bloom_insert, holds, bloom_contains. destruct (isFull f) eqn:Ef; [exists f; by rewrite Ef|].
  assert (vData f <> []) as Hne by (intros E; specialize (Hf E); congruence). destruct (insert_loop_spec (Z.to_nat (nHashFuncs f)) 0 f k Hne) as (g & Hg & He & Hb). rewrite Hg. cbn [mbind result_bind].
  assert (extends g (set_isEmpty g false)) as He2 by (by split). assert (extends f (set_isEmpty g false)) as He3 by (by transitivity g). exists (set_isEmpty g false). split; [done|]. split; [by apply (extends_ok f)|]. split; [done|].
  cbn [set_isEmpty isFull isEmpty nHashFuncs]. rewrite (ext_full _ _ He), Ef, (ext_funcs _ _ He).
  assert (vData (set_isEmpty g false) <> []) as Hneg by (cbn; intros E; pose proof (ext_length _ _ He) as El; rewrite E in El; by destruct (vData f)).
  destruct (contains_loop_spec (Z.to_nat (nHashFuncs f)) 0 (set_isEmpty g false) k Hneg) as (b & Hc & Hbb). rewrite Hc. f_equal. by apply Hbb.
Qed.

(** ** What makes a transaction relevant *)

Fixpoint pushes_loop (fuel : nat) (pc : list Z) : list (list Z) :=
  match pc, fuel with
  | [], _ | _, O => []
  | _, S fuel =>
      match GetOp pc with
      | (_, None) => []
      | (pc, Some (_, data)) => (if Nat.eqb (length data) 0 then [] else [data]) ++ pushes_loop fuel pc
      end
  end.
(** The data that a script pushes, up to the first instruction that cannot be read. *)
Definition pushes (script : CScript) : list (list Z) := pushes_loop (length script) script.

(** The answer is whether one of the keys is in the filter. *)
Definition answers (f : CBloomFilter) (ks : list (list Z)) (r : result bool) : Prop := exists b, r = Ok b /\ (b = true <-> exists k, k ∈ ks /\ holds f k).

Lemma answers_nil f : answers f [] (Ok false).
Proof. exists false. split; [done|]. split; [done|]. by intros (k & ?%elem_of_nil & _). Qed.
Lemma answers_one f k : filter_ok f -> answers f [k] (bloom_contains f k).
Proof.
  intros Hf. destruct (contains_total f k Hf) as [b Hb]. exists b. split; [done|]. split; [intros ->; exists k; split; [by left|done]|]. intros (k' & ->%list_elem_of_singleton & Hk). unfold holds in Hk. congruence.
Qed.
Lemma answers_or f ks ks' a b : answers f ks a -> answers f ks' b -> answers f (ks ++ ks') (or_else a b).
Proof.
  intros (x & -> & Hx) (y & -> & Hy). unfold or_else. cbn [mbind result_bind]. exists (x || y). split; [by destruct x|]. rewrite orb_true_iff, Hx, Hy. setoid_rewrite elem_of_app. naive_solver.
Qed.

Lemma script_loop_answers fuel f pc : filter_ok f -> (length pc <= fuel)%nat -> answers f (pushes_loop fuel pc) (bloom_script_loop fuel f pc).
Proof.
  intros Hf. revert pc. induction fuel as [|fuel IH]; intros pc Hl; destruct pc as [|c pc]; try apply answers_nil; [cbn in Hl; lia|]. cbn [bloom_script_loop pushes_loop].
  destruct (GetOp (c :: pc)) as [pc' [[op data]|]] eqn:Eg; [|apply answers_nil]. pose proof (GetOp_shorter _ _ _ Eg) as Hs. assert (length pc' <= fuel)%nat as Hl' by (cbn in *; lia).
  apply answers_or; [|by apply IH]. destruct (Nat.eqb (length data) 0); cbn [negb]; [apply answers_nil|by apply answers_one].
Qed.
Lemma CheckScript_answers f s : filter_ok f -> answers f (pushes s) (CheckScript f s).
Proof. intros Hf. by apply script_loop_answers. Qed.

Section Relevant.
Context (GetHash : CTransaction -> uint256) (B : BLS).
Abbreviation IsRelevantAndUpdate := (IsRelevantAndUpdate GetHash B).

(** The keys of the payload of a special transaction. *)
Definition special_data (tx : CTransaction) : list (list Z) :=
  if negb (tx_nVersion tx =? 3) || (tx_nType tx =? TRANSACTION_NORMAL) then []
  else if tx_nType tx =? TRANSACTION_PROVIDER_REGISTER then
    match GetTxPayload (unser_ProReg B) (vExtraPayload tx) with
    | None => []
    | Some p => [ser (reg_collateralOutpoint p)] ++ [reg_keyIDOwner p] ++ [reg_keyIDVoting p] ++ pushes (reg_scriptPayout p)
    end
  else if tx_nType tx =? TRANSACTION_PROVIDER_UPDATE_SERVICE then
    match GetTxPayload (unser_ProUpServ B) (vExtraPayload tx) with None => [] | Some p => [serv_proTxHash p] ++ pushes (serv_scriptOperatorPayout p) end
  else if tx_nType tx =? TRANSACTION_PROVIDER_UPDATE_REGISTRAR then
    match GetTxPayload (unser_ProUpReg B) (vExtraPayload tx) with None => [] | Some p => [upreg_proTxHash p] ++ [upreg_keyIDVoting p] ++ pushes (upreg_scriptPayout p) end
  else if tx_nType tx =? TRANSACTION_PROVIDER_UPDATE_REVOKE then
    match GetTxPayload (unser_ProUpRev B) (vExtraPayload tx) with None => [] | Some p => [rev_proTxHash p] end
  else [].

(** The filter that results, and whether a key was found in the one before. *)
Definition grows (f : CBloomFilter) (ks : list (list Z)) (r : result (bool * CBloomFilter)) : Prop :=
  exists b g, r = Ok (b, g) /\ filter_ok g /\ extends f g /\ (b = true <-> exists k, k ∈ ks /\ holds f k).

Lemma grows_answer f ks r : filter_ok f -> answers f ks r -> grows f ks (b ← r; Ok (b, f)).
Proof. intros Hf (b & -> & Hb). exists b, f. by split_and!. Qed.
Lemma grows_insert f ks r c k : filter_ok f -> answers f ks r -> grows f ks (m ← r; if (m : bool) then f ← insert_if c f k; Ok (true, f) else Ok (false, f)).
Proof.
  intros Hf (b & -> & Hb). cbn [mbind result_bind]. destruct b; [|by exists false, f]. unfold insert_if. destruct c; [|by exists true, f].
  destruct (bloom_insert_spec f k Hf) as (g & -> & Hg & He & _). by exists true, g.
Qed.
Lemma grows_first f ks ks' a (r : result (bool * CBloomFilter)) : filter_ok f -> answers f ks a -> grows f ks' r -> grows f (ks ++ ks') (m ← a; if (m : bool) then Ok (true, f) else r).
Proof.
  intros Hf (b & -> & Hb) (b' & g & -> & Hg & He & Hb'). cbn [mbind result_bind]. unfold grows. setoid_rewrite elem_of_app. destruct b; [exists true, f; split_and!; naive_solver|]. exists b', g. split_and!; try done. rewrite Hb'. split; [naive_solver|].
  intros (k & [Hk|Hk] & Hh); [|by exists k]. by assert (false = true) by (apply Hb; eauto).
Qed.

Lemma special_grows f tx : filter_ok f -> grows f (special_data tx) (CheckSpecialTransactionMatchesAndUpdate GetHash B f tx).
Proof.
  intros Hf. unfold CheckSpecialTransactionMatchesAndUpdate, special_data. assert (grows f [] (Ok (false, f))) as Hnil by (exact (grows_answer f [] (Ok false) Hf (answers_nil f))).
  repeat (case_match; try done).
  - apply grows_insert; [done|]. repeat apply answers_or; (by apply answers_one) || by apply CheckScript_answers.
  - apply grows_first; [done|by apply answers_one|]. apply grows_insert; [done|by apply CheckScript_answers].
  - apply grows_first; [done|by apply answers_one|]. apply grows_insert; [done|]. apply answers_or; [by apply answers_one|by apply CheckScript_answers].
  - apply grows_answer; [done|by apply answers_one].
Qed.

Lemma enters_extends f g o : extends f g -> enters g o = enters f o.
Proof. intros He. unfold enters, updates_all, updates_p2pubkey. by rewrite (ext_flags _ _ He). Qed.

(** The loop over the outputs; the ones that match are entered as the flags say. *)
Lemma outputs_loop_spec f hash i found vout : filter_ok f -> exists b g, bloom_outputs_loop f hash i found vout = Ok (b, g) /\ filter_ok g /\ extends f g /\ (found = true -> b = true) /\
  (b = true -> found = true \/ exists o d, o ∈ vout /\ d ∈ pushes (scriptPubKey o) /\ holds g d) /\
  forall j o d, vout !! j = Some o -> d ∈ pushes (scriptPubKey o) -> holds f d -> b = true /\ (enters f o = true -> holds g (ser (mkOutPoint hash (i + Z.of_nat j)))).
Proof.
  revert f i found. induction vout as [|o vout IH]; intros f i found Hf; cbn [bloom_outputs_loop]; [exists found, f; split_and!; [done|done|done|done|by left|]; intros j o d Ho; by rewrite lookup_nil in Ho|].
  destruct (CheckScript_answers f (scriptPubKey o) Hf) as (m & -> & Hm). cbn [mbind result_bind]. destruct m.
  - assert (exists f1, insert_if (enters f o) f (ser (mkOutPoint hash i)) = Ok f1 /\ filter_ok f1 /\ extends f f1 /\ (enters f o = true -> holds f1 (ser (mkOutPoint hash i)))) as (f1 & -> & Hf1 & He1 & Hin).
    { unfold insert_if. destruct (enters f o) eqn:Ee; [destruct (bloom_insert_spec f (ser (mkOutPoint hash i)) Hf) as (f1 & ? & ? & ? & ?); by exists f1|]. by exists f. }
    cbn [mbind result_bind]. destruct (IH f1 (i + 1) true Hf1) as (b & g & -> & Hg & He & Hb & _ & Hall). exists b, g. split; [done|]. split; [done|]. split; [by transitivity f1|]. split; [auto|].
    split; [intros _; right; destruct (proj1 Hm eq_refl) as (d & Hd & Hh); exists o, d; split; [by left|]; split; [done|]; apply (holds_extends f1 g); [done..|]; by apply (holds_extends f f1)|].
    intros [|j] o' d Ho Hd Hh; [cbn in Ho; injection Ho as <-; split; [auto|]; intros Hu; rewrite Z.add_0_r; apply (holds_extends f1 g); auto|].
    destruct (Hall j o' d Ho Hd (holds_extends f f1 d Hf He1 Hh)) as [? Hk]. split; [done|]. intros Hu. replace (i + Z.of_nat (S j)) with (i + 1 + Z.of_nat j) by lia. apply Hk. by rewrite (enters_extends f f1).
  - destruct (IH f (i + 1) found Hf) as (b & g & -> & Hg & He & Hb & Hc & Hall). exists b, g. split_and!; try done.
    { intros Ht. destruct (Hc Ht) as [|(o' & d & Ho & Hd)]; [by left|]. right. exists o', d. split; [by right|done]. }
    intros [|j] o' d Ho Hd Hh; [cbn in Ho; injection Ho as <-; by assert (false = true) by (apply Hm; eauto)|]. replace (i + Z.of_nat (S j)) with (i + 1 + Z.of_nat j) by lia. by apply (Hall j o' d).
Qed.

Definition input_data (i : CTxIn) : list (list Z) := [ser (prevout i)] ++ pushes (scriptSig i).
Lemma inputs_answers f ins : filter_ok f -> answers f (ins ≫= input_data) (bloom_inputs_loop f ins).
Proof.
  intros Hf. induction ins as [|i ins IH]; cbn [bloom_inputs_loop]; [apply answers_nil|]. change ((i :: ins) ≫= input_data) with (([ser (prevout i)] ++ pushes (scriptSig i)) ++ (ins ≫= input_data)). rewrite <- app_assoc.
  apply answers_or; [by apply answers_one|]. apply answers_or; [by apply CheckScript_answers|done].
Qed.

(** Everything that can match. *)
Definition tx_data (tx : CTransaction) : list (list Z) := [GetHash tx] ++ special_data tx ++ (vout tx ≫= pushes ∘ scriptPubKey) ++ (vin tx ≫= input_data).
Definition watched (f : CBloomFilter) (tx : CTransaction) : Prop := exists d, d ∈ tx_data tx /\ holds f d.
(** The outputs of a transaction that match, and that the flags of the filter ask for, are
    watched from then on. *)
Definition follows (f g : CBloomFilter) (tx : CTransaction) : Prop :=
  forall j o d, vout tx !! j = Some o -> d ∈ pushes (scriptPubKey o) -> holds f d -> enters f o = true -> holds g (ser (mkOutPoint (GetHash tx) (Z.of_nat j))).

Lemma relevant_spec f tx : filter_ok f -> exists b g, IsRelevantAndUpdate f tx = Ok (b, g) /\ filter_ok g /\ extends f g /\ (watched f tx -> b = true) /\ (b = true -> watched g tx) /\ follows f g tx.
Proof.
  intros Hf. unfold Bloom.IsRelevantAndUpdate. destruct (isFull f) eqn:Ef.
  { assert (forall d, holds f d) as Hall by (intros d; unfold holds, bloom_contains; by rewrite Ef). exists true, f. split_and!; try done; [|by intros j o d _ _ _ _]. intros _. exists (GetHash tx). split; [by left|done]. }
  destruct (isEmpty f) eqn:Ee.
  { assert (forall d, ~ holds f d) as Hno by (intros d; unfold holds, bloom_contains; by rewrite Ef, Ee). exists false, f. split_and!; try done; [by intros (d & _ & ?%Hno)|]. by intros j o d _ _ ?%Hno. }
  destruct (answers_one f (GetHash tx) Hf) as (b0 & -> & Hb0). cbn [mbind result_bind].
  assert (exists b1 f1, (if b0 then Ok (true, f) else CheckSpecialTransactionMatchesAndUpdate GetHash B f tx) = Ok (b1, f1) /\ filter_ok f1 /\ extends f f1 /\ (b1 = true <-> exists d, d ∈ [GetHash tx] ++ special_data tx /\ holds f d)) as (b1 & f1 & -> & Hf1 & He1 & Hb1).
  { setoid_rewrite elem_of_app. destruct b0; [exists true, f; split_and!; try done; split; [|done]; intros _; destruct (proj1 Hb0 eq_refl) as (d & Hd & Hh); eauto|].
    destruct (special_grows f tx Hf) as (b & g & -> & Hg & He & Hb). exists b, g. split_and!; try done. rewrite Hb. split; [naive_solver|]. intros (d & [Hd|Hd] & Hh); [by assert (false = true) by (apply Hb0; eauto)|]. eauto. }
  cbn [mbind result_bind]. destruct (outputs_loop_spec f1 (GetHash tx) 0 b1 (vout tx) Hf1) as (b2 & f2 & -> & Hf2 & He2 & Hb2 & Hw2 & Hout). cbn [mbind result_bind].
  assert (extends f f2) as He by (by transitivity f1).
  assert (follows f f2 tx) as Hfol.
  { intros j o d Ho Hd Hh Hu. apply (Hout j o d Ho Hd (holds_extends f f1 d Hf He1 Hh)). by rewrite (enters_extends f f1). }
  destruct b2.
  { exists true, f2. split_and!; try done. intros _. unfold watched, tx_data. rewrite app_assoc. setoid_rewrite elem_of_app. destruct (Hw2 eq_refl) as [(d & Hd & Hh)%Hb1|(o & d & Ho & Hd & Hh)].
    - exists d. split; [by left|by apply (holds_extends f f2)].
    - exists d. split; [|done]. right. apply elem_of_app. left. apply list_elem_of_bind. by exists o. } destruct (inputs_answers f2 (vin tx) Hf2) as (b3 & -> & Hb3). exists b3, f2. split_and!; try done; cycle 1.
  { intros (d & Hd & Hh)%Hb3. exists d. split; [|done]. unfold tx_data. rewrite !elem_of_app. by do 3 right. }
  intros (d & Hd & Hh). unfold tx_data in Hd. rewrite app_assoc in Hd. apply elem_of_app in Hd as [Hd|[Hd|Hd]%elem_of_app].
  - by assert (false = true) by (apply Hb2, Hb1; eauto).
  - apply list_elem_of_bind in Hd as (o & Hd & [j Ho]%list_elem_of_lookup). by assert (false = true) by (by apply (Hout j o d Ho Hd (holds_extends f f1 d Hf He1 Hh))).
  - apply Hb3. exists d. split; [done|]. by apply (holds_extends f f2).
Qed.

(** [tx'] spends an output of [tx] that matches the filter and that the flags ask to follow. *)
Definition spends_match (f : CBloomFilter) (tx tx' : CTransaction) : Prop :=
  exists j o d i, vout tx !! j = Some o /\ d ∈ pushes (scriptPubKey o) /\ holds f d /\ enters f o = true /\ i ∈ vin tx' /\ prevout i = mkOutPoint (GetHash tx) (Z.of_nat j).

Lemma spends_watched f g tx tx' : follows f g tx -> spends_match f tx tx' -> watched g tx'.
Proof.
  intros Hf (j & o & d & i & Ho & Hd & Hh & Hu & Hi & Hp). exists (ser (prevout i)). split; [|rewrite Hp; by apply (Hf j o d)].
  unfold tx_data. rewrite !elem_of_app. do 3 right. apply list_elem_of_bind. exists i. split; [by left|done].
Qed.
Lemma watched_extends f g tx : filter_ok f -> extends f g -> watched f tx -> watched g tx.
Proof. intros Hf He (d & Hd & Hh). exists d. split; [done|]. by apply (holds_extends f g). Qed.
Lemma follows_extends f f1 g tx : filter_ok f1 -> extends f1 g -> follows f f1 tx -> follows f g tx.
Proof. intros Hf He Hfo j o d Ho Hd Hh Hu. apply (holds_extends f1 g); [done..|]. by apply (Hfo j o d). Qed.
Lemma follows_before f f1 g tx : filter_ok f -> extends f f1 -> follows f1 g tx -> follows f g tx.
Proof. intros Hf He Hfo j o d Ho Hd Hh Hu. apply (Hfo j o d Ho Hd); [by apply (holds_extends f f1)|]. by rewrite (enters_extends f f1). Qed.
Lemma spends_extends f g tx tx' : filter_ok f -> extends f g -> spends_match f tx tx' -> spends_match g tx tx'.
Proof. intros Hf He (j & o & d & i & Ho & Hd & Hh & Hu & Hi & Hp). exists j, o, d, i. split_and!; try done; [by apply (holds_extends f g)|by rewrite (enters_extends f g)]. Qed.

Lemma match_txs_spec f vtx : filter_ok f -> exists ms g, match_txs GetHash B f vtx = Ok (ms, g) /\ length ms = length vtx /\ filter_ok g /\ extends f g /\
  (forall p tx, vtx !! p = Some tx -> allowed_type tx = true -> follows f g tx /\ (watched f tx -> ms !! p = Some true)) /\
  (forall p q tx tx', (p < q)%nat -> vtx !! p = Some tx -> vtx !! q = Some tx' -> allowed_type tx = true -> allowed_type tx' = true -> spends_match f tx tx' -> ms !! q = Some true) /\
  (forall p, ms !! p = Some true -> exists tx, vtx !! p = Some tx /\ allowed_type tx = true /\ watched g tx).
Proof.
  revert f. induction vtx as [|tx0 vtx IH]; intros f Hf; cbn [match_txs]; [by exists [], f|].
  assert (exists b f1, (if allowed_type tx0 then IsRelevantAndUpdate f tx0 else Ok (false, f)) = Ok (b, f1) /\ filter_ok f1 /\ extends f f1 /\ (allowed_type tx0 = true -> (watched f tx0 -> b = true) /\ follows f f1 tx0) /\ (b = true -> allowed_type tx0 = true /\ watched f1 tx0)) as (b & f1 & -> & Hf1 & He1 & Hb & Hbw).
  { destruct (allowed_type tx0); [|by exists false, f]. destruct (relevant_spec f tx0 Hf) as (b & g & ? & ? & ? & ? & ? & ?). exists b, g. split_and!; auto. }
  cbn [mbind result_bind]. destruct (IH f1 Hf1) as (ms & g & -> & Hl & Hg & He & Hall & Hsp & Hret). cbn [mbind result_bind]. exists (b :: ms), g. split; [done|]. split; [cbn; by rewrite Hl|]. split; [done|]. split; [by transitivity f1|]. split; [|split].
  - intros [|p] tx Htx Ha; [cbn in Htx; injection Htx as <-; destruct (Hb Ha) as [Hw Hfo]; split; [by apply (follows_extends f f1 g)|]; intros Hx; cbn; by rewrite (Hw Hx)|].
    destruct (Hall p tx Htx Ha) as [Hfo Hw]. split; [by apply (follows_before f f1 g)|]. intros Hx. apply Hw. by apply (watched_extends f f1).
  - intros p [|q] tx tx' Hpq Htx Htx' Ha Ha' Hs; [lia|]. destruct p as [|p].
    + cbn in Htx. injection Htx as <-. destruct (Hall q tx' Htx' Ha') as [_ Hw]. apply Hw. apply (spends_watched f f1 tx0); [by apply (Hb Ha)|done].
    + apply (Hsp p q tx tx'); try done; [lia|]. by apply (spends_extends f f1).
  - intros [|p] Hp; [|by apply Hret]. cbn in Hp. injection Hp as ->. destruct (Hbw eq_refl) as [Ha Hw]. exists tx0. split_and!; [done..|]. by apply (watched_extends f1 g).
Qed.

(** C27: A light client gets what it asked for of a block that is filtered for it.  For a
    block whose Merkle root is not reported as mutated, and any filter a client can have
    loaded, [CMerkleBlock] succeeds; the tree in it survives being sent, and extraction
    returns the root and the ids of the transactions that matched.  Among the
    transactions of the types that are filtered, which are all but quorum commitments
    and unknown types of version 3, these are every one of which a key, hash, outpoint
    or pushed data is in the filter, and every one that spends an output of a
    transaction before it in the block which matched and which the update flags of the
    filter ask to follow: all of them, those to public keys and multisignatures, or
    none.  The filter afterwards has these outpoints, for the blocks to come.  Nothing
    else is returned: a transaction that matched is of such a type and has data that is
    in the filter afterwards. *)
Theorem filtered_block_complete Hash vtx f root s :
  (forall x, uint256_ok (Hash x)) -> Forall uint256_ok (GetHash <$> vtx) -> (0 < length vtx)%nat -> Z.of_nat (length vtx) <= MAX_DIP0001_BLOCK_SIZE / 60 ->
  ComputeMerkleRoot Hash (GetHash <$> vtx) true = Ok (root, false) -> filter_ok f ->
  exists mb g t ps, CMerkleBlock_filter GetHash B Hash vtx f = Ok (mb, g) /\ unser (ser (mb_txn mb) ++ s) = Ok (t, s) /\
    ExtractMatches Hash t [] = Ok (root, ((fun p => (GetHash <$> vtx) !!! p) <$> ps, Z.of_nat <$> ps, false)) /\ filter_ok g /\
    (forall p tx, vtx !! p = Some tx -> allowed_type tx = true -> watched f tx -> p ∈ ps) /\
    (forall p q tx tx', (p < q)%nat -> vtx !! p = Some tx -> vtx !! q = Some tx' -> allowed_type tx = true -> allowed_type tx' = true -> spends_match f tx tx' -> q ∈ ps) /\
    (forall p tx tx', vtx !! p = Some tx -> allowed_type tx = true -> spends_match f tx tx' -> watched g tx') /\
    forall p, p ∈ ps -> exists tx, vtx !! p = Some tx /\ allowed_type tx = true /\ watched g tx.
Proof.
  intros Hh Hids Hpos Hmax Hroot Hf. destruct (match_txs_spec f vtx Hf) as (ms & g & Hm & Hl & Hg & He & Hall & Hsp & Hret).
  destruct (partial_tree_complete Hash (GetHash <$> vtx) ms root s Hh Hids) as (t & t' & Ht & Hs & Hx); [by rewrite length_fmap|by rewrite length_fmap|by rewrite length_fmap|done|].
  assert (forall p, ms !! p = Some true -> p ∈ matches ms) as Hin.
  { intros p Hp. unfold matches. apply list_elem_of_filter. split; [done|]. apply elem_of_seq. apply lookup_lt_Some in Hp. lia. }
  exists (mkMerkleBlock t (matched_txn ms (GetHash <$> vtx))), g, t', (matches ms). split; [unfold CMerkleBlock_filter; rewrite Hm; cbn [mbind result_bind]; by rewrite Ht|].
  split; [done|]. split; [apply Hx; by right|]. split; [done|]. split; [intros p tx Htx Ha Hw; by apply Hin, (Hall p tx Htx Ha)|]. split; [|split].
  - intros p q tx tx' Hpq Htx Htx' Ha Ha' Hs'. by apply Hin, (Hsp p q tx tx').
  - intros p tx tx' Htx Ha Hs'. apply (spends_watched f g tx); [by apply (Hall p tx)|done].
  - intros p Hp. unfold matches in Hp. apply list_elem_of_filter in Hp as [Hp _]. by apply Hret.
Qed.
End Relevant.

(** ** Filters of peers *)

Section Peers.
Context (GetHash : CTransaction -> uint256) (B : BLS).

Inductive filter_step : FilterPeer -> FilterPeer -> Prop :=
  | step_load p f score p' : on_filterload p f = (score, p') -> filter_step p p'
  | step_add p data score p' : on_filteradd p data = Ok (score, p') -> filter_step p p'
  | step_clear nb p : filter_step p (on_filterclear nb p)
  | step_relay p f tx b g : pfilter p = Some f -> IsRelevantAndUpdate GetHash B f tx = Ok (b, g) -> filter_step p (mkFilterPeer (Some g) (fRelayTxes p)).

(** Whatever filter a peer sends and whatever it adds, and whatever is relayed to it, no
    operation on its filter divides by zero. *)
Theorem peer_filter_safe relay p f : rtc filter_step (mkFilterPeer None relay) p -> pfilter p = Some f ->
  filter_ok f /\ (forall data, exists r, on_filteradd p data = Ok r) /\ forall tx, exists r, IsRelevantAndUpdate GetHash B f tx = Ok r.
Proof.
  intros Hr Hp. assert (forall f, pfilter p = Some f -> filter_ok f) as Hinv.
  { clear f Hp. remember (mkFilterPeer None relay) as p0 eqn:E0. assert (forall f, pfilter p0 = Some f -> filter_ok f) as H0 by (by subst). clear E0. induction Hr as [|p0 p1 p2 Hs _ IH]; [done|]. apply IH. clear IH.
    destruct Hs as [p0 f0 sc p' H|p0 data sc p' H|nb p0|p0 f0 tx b g Hf0 H]; intros f Hf.
    - unfold on_filterload in H. destruct (negb _); injection H as <- <-; [by apply H0|]. cbn in Hf. injection Hf as <-. unfold filter_ok. cbn. intros ->. done.
    - unfold on_filteradd in H. destruct (_ <? _); [injection H as <- <-; by apply H0|]. destruct (pfilter p0) as [f0|] eqn:Ep; [|injection H as <- <-; congruence].
      destruct (bloom_insert_spec f0 data (H0 f0 ltac:(done))) as (g & Hg & Hok & _). rewrite Hg in H. injection H as <- <-. by injection Hf as <-.
    - destruct nb; [by injection Hf as <-|by apply H0].
    - destruct (relevant_spec GetHash B f0 tx (H0 f0 Hf0)) as (b' & g' & Hg & Hok & _). rewrite Hg in H. injection H as <- <-. by injection Hf as <-. }
  specialize (Hinv f Hp). split; [done|]. split.
  - intros data. unfold on_filteradd. rewrite Hp. destruct (_ <? _); [by eexists|]. destruct (bloom_insert_spec f data Hinv) as (g & -> & _). by eexists.
  - intros tx. destruct (relevant_spec GetHash B f tx Hinv) as (b & g & -> & _). by eexists.
Qed.
End Peers.

(** ** The rolling filter *)

Lemma lxor_u32 a b : is_u32 a -> is_u32 b -> is_u32 (Z.lxor a b).
Proof.
  unfold is_u32. intros Ha Hb. assert (Z.lxor a b = Z.lxor a b mod 2 ^ 32) as ->; [|apply Z.mod_pos_bound; lia]. apply Z.bits_inj'. intros n Hn. destruct (Z.lt_ge_cases n 32) as [Hl|Hl].
  - by rewrite Z.mod_pow2_bits_low.
  - rewrite Z.mod_pow2_bits_high, Z.lxor_spec, (testbit_small a n 32), (testbit_small b n 32) by lia. done.
Qed.
Lemma xorshift_u32 x s : is_u32 x -> 0 <= s -> is_u32 (Z.lxor x (Z.shiftr x s)).
Proof.
  intros Hx Hs. apply lxor_u32; [done|]. unfold is_u32 in *. rewrite Z.shiftr_div_pow2 by lia. pose proof (Z.pow_pos_nonneg 2 s). split; [apply Z.div_pos; lia|]. apply Z.div_lt_upper_bound; nia.
Qed.
Lemma MurmurHash3_u32 seed v : is_u32 (MurmurHash3 seed v).
Proof. unfold MurmurHash3. destruct (murmur_body seed v) as [h1 tail]. apply xorshift_u32; [apply u32_range|lia]. Qed.

(** The place of a hash: the even index of its pair of words, and the bit. *)
Definition slot (n h : Z) : nat := Z.to_nat (Z.ldiff (FastMod h n) 1).

Lemma pair_index p : 0 <= p -> Z.ldiff p 1 = 2 * (p / 2) /\ Z.lor p 1 = 2 * (p / 2) + 1.
Proof.
  intros Hp. assert (Z.ldiff p 1 = 2 * (p / 2)) as E.
  { change 1 with (Z.ones 1). rewrite Z.ldiff_ones_r, Z.shiftl_mul_pow2, Z.shiftr_div_pow2 by lia. change (2 ^ 1) with 2. lia. }
  split; [done|]. apply Z.bits_inj'. intros n Hn. rewrite Z.lor_spec. destruct (Z.eq_dec n 0) as [->|Hn0]; [by rewrite Z.testbit_odd_0, orb_true_r|].
  replace n with (Z.succ (n - 1)) by lia. rewrite Z.testbit_odd_succ by lia. change 1 with (2 * 0 + 1) at 2. rewrite Z.testbit_odd_succ, Z.bits_0, orb_false_r by lia.
  change 2 with (2 ^ 1) at 1. rewrite <- Z.shiftr_div_pow2, Z.shiftr_spec by lia. f_equal.
Qed.

Lemma FastMod_spec h n : is_u32 h -> 0 < n <= 2 ^ 32 -> 0 <= FastMod h n < n.
Proof.
  unfold is_u32. intros Hh Hn. unfold FastMod. rewrite (u64_small (h * n)) by nia. rewrite Z.shiftr_div_pow2 by lia. assert (0 <= h * n / 2 ^ 32 < n) as Hr by (split; [apply Z.div_pos; nia|apply Z.div_lt_upper_bound; nia]).
  rewrite u32_small by (unfold is_u32; lia). done.
Qed.

Lemma slot_spec h (n : nat) : is_u32 h -> Nat.Even n -> (0 < n)%nat -> Z.of_nat n <= 2 ^ 32 ->
  Nat.Even (slot (Z.of_nat n) h) /\ (S (slot (Z.of_nat n) h) < n)%nat /\ Z.to_nat (Z.lor (FastMod h (Z.of_nat n)) 1) = S (slot (Z.of_nat n) h).
Proof.
  intros Hh [m Hm] Hpos Hmax. pose proof (FastMod_spec h (Z.of_nat n) Hh ltac:(lia)) as Hr. unfold slot. destruct (pair_index (FastMod h (Z.of_nat n)) (proj1 Hr)) as [-> ->]. set (p := FastMod h (Z.of_nat n)) in *.
  pose proof (Z.div_pos p 2 ltac:(lia) ltac:(lia)). pose proof (Z.mul_div_le p 2 ltac:(lia)). split; [|split; [|lia]].
  - exists (Z.to_nat (p / 2)). lia.
  - assert (p / 2 < Z.of_nat m) by (apply Z.div_lt_upper_bound; lia). lia.
Qed.

(** The generation of a place: 0 when it is not set. *)
Definition gen_at (data : list Z) (i : nat) (b : Z) : Z := Z.b2z (Z.testbit (data !!! i) b) + 2 * Z.b2z (Z.testbit (data !!! S i) b).

Lemma hash_bit h : 0 <= Z.land h 0x3F < 64.
Proof. change 0x3F with (Z.ones 6). rewrite Z.land_ones by lia. apply Z.mod_pos_bound. lia. Qed.

Lemma rolling_has_gen data h : is_u32 h -> Nat.Even (length data) -> (0 < length data)%nat -> Z.of_nat (length data) <= 2 ^ 32 ->
  rolling_has data h = negb (gen_at data (slot (Z.of_nat (length data)) h) (Z.land h 0x3F) =? 0).
Proof.
  intros Hh He Hp Hm. unfold rolling_has, gen_at. destruct (slot_spec h (length data) Hh He Hp Hm) as (_ & _ & ->). fold (slot (Z.of_nat (length data)) h). set (b := Z.land h 0x3F). pose proof (hash_bit h) as Hb. fold b in Hb.
  change 1 with (Z.shiftl 1 0) at 1. rewrite land_bit_zero, negb_involutive, Z.shiftr_spec, Z.add_0_l, Z.lor_spec by lia. by destruct (Z.testbit _ b), (Z.testbit _ b).
Qed.

Lemma put_bit_testbit w bit v n : 0 <= bit < 64 -> 0 <= n < 64 -> 0 <= v <= 1 -> Z.testbit (put_bit w bit v) n = if n =? bit then v =? 1 else Z.testbit w n.
Proof.
  intros Hb Hn Hv. unfold put_bit. change (2 ^ 64 - 1) with (Z.ones 64). rewrite Z.lor_spec, Z.land_spec, Z.lxor_spec, Z.ones_spec_low, Z.shiftl_spec, (Z.shiftl_spec v) by lia. destruct (Z.eqb_spec n bit) as [->|Hne].
  - rewrite Z.sub_diag. assert (v = 0 \/ v = 1) as [-> | ->] by lia; cbn; by rewrite andb_false_r.
  - assert (forall u, 0 <= u <= 1 -> Z.testbit u (n - bit) = false) as Hz by (intros u Hu; destruct (Z.lt_ge_cases n bit); [by apply Z.testbit_neg_r; lia|by apply (testbit_small u (n - bit) 1); lia]).
    rewrite !Hz by lia. by rewrite xorb_false_r, andb_true_r, orb_false_r.
Qed.

Lemma length_rolling_put g data h : length (rolling_put g data h) = length data.
Proof. unfold rolling_put. by rewrite !length_insert. Qed.

(** A pair of words of the filter: an even index with its successor. *)
Definition pair_ok (n i : nat) (b : Z) : Prop := Nat.Even i /\ (S i < n)%nat /\ 0 <= b < 64.
(** The words of a rolling filter. *)
Definition words_ok (data : list Z) : Prop := Nat.Even (length data) /\ (0 < length data)%nat /\ Z.of_nat (length data) <= 2 ^ 32.

Lemma slot_pair data h : words_ok data -> is_u32 h -> pair_ok (length data) (slot (Z.of_nat (length data)) h) (Z.land h 0x3F).
Proof. intros (He & Hp & Hm) Hh. destruct (slot_spec h (length data) Hh He Hp Hm) as (H1 & H2 & _). split_and!; try done; apply hash_bit. Qed.

Lemma put_gen g data h i b : words_ok data -> is_u32 h -> 1 <= g <= 3 -> pair_ok (length data) i b ->
  gen_at (rolling_put g data h) i b = if decide (i = slot (Z.of_nat (length data)) h /\ b = Z.land h 0x3F) then g else gen_at data i b.
Proof.
  intros (He & Hp & Hm) Hh Hg (Hi & Hl & Hb). unfold gen_at, rolling_put. destruct (slot_spec h (length data) Hh He Hp Hm) as (Hsi & Hsl & ->). fold (slot (Z.of_nat (length data)) h).
  set (k := slot _ h) in *. set (c := Z.land h 0x3F). pose proof (hash_bit h) as Hc. fold c in Hc. rewrite (list_lookup_total_insert_ne data k (S k)) by lia.
  assert (0 <= Z.land g 1 <= 1 /\ 0 <= Z.shiftr g 1 <= 1 /\ Z.b2z (Z.land g 1 =? 1) + 2 * Z.b2z (Z.shiftr g 1 =? 1) = g) as (H1 & H2 & H3).
  { assert (g = 1 \/ g = 2 \/ g = 3) as [-> | [-> | ->]] by lia; vm_compute; intuition congruence. }
  destruct (decide (i = k)) as [->|Hik].
  - rewrite (list_lookup_total_insert_ne _ (S k) k), !list_lookup_total_insert_eq, !put_bit_testbit by (rewrite ?length_insert; lia).
    destruct (Z.eqb_spec b c) as [->|Hbc]; [rewrite decide_True by done; exact H3|by rewrite decide_False by naive_solver].
  - rewrite decide_False by naive_solver. destruct Hi as [x ->], Hsi as [y Hy]. by rewrite !list_lookup_total_insert_ne by lia.
Qed.

Lemma puts_gen g hs data i b : words_ok data -> Forall is_u32 hs -> 1 <= g <= 3 -> pair_ok (length data) i b ->
  let data' := foldl (rolling_put g) data hs in
  length data' = length data /\ (gen_at data' i b = g \/ gen_at data' i b = gen_at data i b) /\
  forall h, h ∈ hs -> i = slot (Z.of_nat (length data)) h -> b = Z.land h 0x3F -> gen_at data' i b = g.
Proof.
  intros Hd Hhs Hg Hp. revert data Hd Hp. induction Hhs as [|h hs Hh Hhs IH]; intros data Hd Hp; cbn [foldl]; [split; [done|]; split; [by right|]; by intros h ?%elem_of_nil|].
  assert (words_ok (rolling_put g data h)) as Hd' by (unfold words_ok; by rewrite length_rolling_put). destruct (IH (rolling_put g data h) Hd') as (Hl & Hor & Hall); [by rewrite length_rolling_put|]. rewrite length_rolling_put in *.
  rewrite (put_gen g data h i b Hd Hh Hg Hp) in Hor. split; [done|]. split; [destruct (decide _); tauto|]. intros h' [->|Hin]%elem_of_cons Ei Eb; [|by apply (Hall h')]. rewrite decide_True in Hor by done. tauto.
Qed.

Lemma length_wipe m1 m2 data : length (wipe m1 m2 data) = length data.
Proof.
  assert (forall n (l : list Z), (length l <= n)%nat -> length (wipe m1 m2 l) = length l) as H; [|by apply (H (length data))].
  induction n as [|n IH]; intros [|p1 [|p2 l]] Hl; cbn in *; try done; try lia. rewrite IH; lia.
Qed.

(** The mask of a generation bit has all its bits equal. *)
Lemma mask_testbit v b : 0 <= v <= 1 -> 0 <= b < 64 -> Z.testbit (u64 (0 - v)) b = (v =? 1).
Proof. intros Hv Hb. assert (v = 0 \/ v = 1) as [-> | ->] by lia; [apply Z.bits_0|]. change (u64 (0 - 1)) with (Z.ones 64). by rewrite Z.ones_spec_low. Qed.

Lemma gen_at_0 p1 p2 data b : gen_at (p1 :: p2 :: data) 0 b = Z.b2z (Z.testbit p1 b) + 2 * Z.b2z (Z.testbit p2 b).
Proof. done. Qed.
Lemma gen_at_SS p1 p2 data i b : gen_at (p1 :: p2 :: data) (S (S i)) b = gen_at data i b.
Proof. done. Qed.

Lemma wipe_gen g data i b : 1 <= g <= 3 -> pair_ok (length data) i b ->
  gen_at (wipe (u64 (0 - Z.land g 1)) (u64 (0 - Z.shiftr g 1)) data) i b = if gen_at data i b =? g then 0 else gen_at data i b.
Proof.
  intros Hg ([k ->] & Hl & Hb). revert data Hl. induction k as [|k IH]; intros data Hl; (destruct data as [|p1 [|p2 data]]; [cbn in Hl; lia..|]); cbn [wipe].
  - change (2 * 0)%nat with 0%nat. rewrite !gen_at_0, !Z.land_spec, Z.lor_spec, !Z.lxor_spec.
    assert (g = 1 \/ g = 2 \/ g = 3) as [-> | [-> | ->]] by lia; rewrite !mask_testbit by (done || lia); by destruct (Z.testbit p1 b), (Z.testbit p2 b).
  - replace (2 * S k)%nat with (S (S (2 * k))) in * by lia. rewrite !gen_at_SS. apply IH. cbn in Hl. lia.
Qed.

Definition rolling_ok (r : CRollingBloomFilter) : Prop :=
  words_ok (rb_data r) /\ 1 <= nGeneration r <= 3 /\ 1 <= nEntriesPerGeneration r /\ 0 <= nEntriesThisGeneration r <= nEntriesPerGeneration r.

(** All places of a key are set, by one of the last [c + 1] generations. *)
Definition kept (r : CRollingBloomFilter) (k : list Z) (c : Z) : Prop := forall h, h ∈ rolling_hashes r k ->
  let ge := gen_at (rb_data r) (slot (Z.of_nat (length (rb_data r))) h) (Z.land h 0x3F) in 1 <= ge <= 3 /\ (nGeneration r - ge) mod 3 <= c.

Lemma hashes_u32 r k : Forall is_u32 (rolling_hashes r k).
Proof. apply Forall_fmap, Forall_forall. intros n _. apply MurmurHash3_u32. Qed.

Lemma gen_range data i b : 0 <= gen_at data i b <= 3.
Proof. unfold gen_at. destruct (Z.testbit _ b), (Z.testbit _ b); cbn; lia. Qed.

Lemma next_generation_spec r : rolling_ok r -> let r' := next_generation r in rolling_ok r' /\ nEntriesThisGeneration r' < nEntriesPerGeneration r' /\
  nEntriesPerGeneration r' = nEntriesPerGeneration r /\ rb_nTweak r' = rb_nTweak r /\ rb_nHashFuncs r' = rb_nHashFuncs r.
Proof.
  intros (Hd & Hg & He & Ht). unfold next_generation. destruct (Z.eqb_spec (nEntriesThisGeneration r) (nEntriesPerGeneration r)) as [E|E]; cbn; [|split; [done|]; split_and!; done || lia].
  split; [|split_and!; done || lia]. split; [unfold words_ok; cbn; by rewrite length_wipe|]. cbn. destruct (Z.eqb_spec (nGeneration r + 1) 4); lia.
Qed.

Lemma next_generation_kept r k c : rolling_ok r -> kept r k c -> nEntriesThisGeneration r = nEntriesPerGeneration r -> c <= 1 -> kept (next_generation r) k (c + 1).
Proof.
  intros (Hd & Hg & _) Hk E Hc. unfold next_generation. rewrite (proj2 (Z.eqb_eq _ _) E). intros h Hh. cbn [rb_data nGeneration]. rewrite length_wipe. destruct (Hk h Hh) as [Hge Hm].
  pose proof (slot_pair (rb_data r) h Hd (proj1 (Forall_forall _ _) (hashes_u32 r k) h Hh)) as Hp. set (g := if nGeneration r + 1 =? 4 then 1 else nGeneration r + 1). assert (1 <= g <= 3) as Hg' by (unfold g; destruct (Z.eqb_spec (nGeneration r + 1) 4); lia).
  rewrite (wipe_gen g (rb_data r) _ _ Hg' Hp). set (ge := gen_at (rb_data r) _ _) in *.
  assert ((g - ge) mod 3 = ((nGeneration r - ge) mod 3 + 1) mod 3) as Em.
  { unfold g. destruct (Z.eqb_spec (nGeneration r + 1) 4) as [E4|E4].
    - rewrite Z.add_mod_idemp_l by lia. replace (1 - ge) with (nGeneration r - ge + 1 + (-1) * 3) by lia. apply Z.mod_add. lia.
    - rewrite Z.add_mod_idemp_l by lia. f_equal. lia. }
  pose proof (Z.mod_pos_bound (nGeneration r - ge) 3 ltac:(lia)) as Hb. rewrite (Z.mod_small (_ + 1)) in Em by lia. destruct (Z.eqb_spec ge g) as [Eg|Eg].
  - exfalso. assert ((g - ge) mod 3 = 0) by (by rewrite Eg, Z.sub_diag). lia.
  - lia.
Qed.

Lemma rolling_insert_spec r k : rolling_ok r -> rolling_ok (rolling_insert r k) /\ kept (rolling_insert r k) k 0 /\
  forall k' c, 0 <= c -> kept (next_generation r) k' c -> kept (rolling_insert r k) k' c.
Proof.
  intros Hr. destruct (next_generation_spec r Hr) as (Hr' & Hlt & _). unfold rolling_insert. set (r' := next_generation r) in *. destruct Hr' as (Hd & Hg & He & Ht). set (hs := rolling_hashes r' k).
  pose proof (fun i b => puts_gen (nGeneration r') hs (rb_data r') i b Hd (hashes_u32 r' k) Hg) as Hputs.
  assert (forall k' h, h ∈ rolling_hashes r' k' -> pair_ok (length (rb_data r')) (slot (Z.of_nat (length (rb_data r'))) h) (Z.land h 0x3F)) as Hsl.
  { intros k' h Hh. apply slot_pair; [done|]. exact (proj1 (Forall_forall _ _) (hashes_u32 r' k') h Hh). }
  assert (length (foldl (rolling_put (nGeneration r')) (rb_data r') hs) = length (rb_data r')) as El.
  { assert (pair_ok (length (rb_data r')) 0 0) as H0 by (destruct Hd as ([m Hm] & Hp & _); split_and!; [by exists 0%nat|lia|lia|lia]). by destruct (Hputs 0%nat 0 H0). }
  split; [|split].
  - split; [unfold words_ok; cbn [rb_data]; by rewrite El|]. cbn [nGeneration nEntriesPerGeneration nEntriesThisGeneration]. lia.
  - intros h Hh. cbn [rb_data nGeneration]. rewrite El. destruct (Hputs _ _ (Hsl k h Hh)) as (_ & _ & Hall). cbv zeta. rewrite (Hall h Hh eq_refl eq_refl), Z.sub_diag, Zmod_0_l. lia.
  - intros k' c Hc Hk h Hh. cbn [rb_data nGeneration]. rewrite El. destruct (Hk h Hh) as [Hge Hm]. destruct (Hputs _ _ (Hsl k' h Hh)) as (_ & [-> | ->] & _); [|done]. rewrite Z.sub_diag, Zmod_0_l. lia.
Qed.

(** How many more insertions a key survives. *)
Definition slack (r : CRollingBloomFilter) (c : Z) : Z := (2 - c) * nEntriesPerGeneration r + (nEntriesPerGeneration r - nEntriesThisGeneration r).

Lemma insert_keeps r k k' c : rolling_ok r -> kept r k c -> 0 <= c <= 2 -> 0 < slack r c -> exists c', 0 <= c' <= 2 /\ kept (rolling_insert r k') k c' /\ slack (rolling_insert r k') c' = slack r c - 1.
Proof.
  intros Hr Hk Hc Hs. destruct (rolling_insert_spec r k' Hr) as (_ & _ & Hkeep). destruct (next_generation_spec r Hr) as (_ & _ & EE & _). unfold slack in *. change (nEntriesPerGeneration (rolling_insert r k')) with (nEntriesPerGeneration (next_generation r)).
  change (nEntriesThisGeneration (rolling_insert r k')) with (nEntriesThisGeneration (next_generation r) + 1). rewrite EE. destruct (Z.eq_dec (nEntriesThisGeneration r) (nEntriesPerGeneration r)) as [E|E].
  - assert (c <= 1) as Hc1 by (destruct (Z.eq_dec c 2) as [->|]; lia). exists (c + 1). split; [lia|]. split; [apply Hkeep; [lia|by apply next_generation_kept]|]. unfold next_generation. rewrite (proj2 (Z.eqb_eq _ _) E). cbn. lia.
  - assert (next_generation r = r) as En by (unfold next_generation; by rewrite (proj2 (Z.eqb_neq _ _) E)). exists c. split; [lia|]. rewrite En in *. split; [apply Hkeep; [lia|done]|lia].
Qed.

Lemma kept_contains r k c : rolling_ok r -> kept r k c -> rolling_contains r k = true.
Proof.
  intros ((He & Hp & Hm) & _) Hk. unfold rolling_contains. apply forallb_forall. intros h Hh%list_elem_of_In. rewrite rolling_has_gen by (try done; exact (proj1 (Forall_forall _ _) (hashes_u32 r k) h Hh)). destruct (Hk h Hh) as [Hge _].
  rewrite (proj2 (Z.eqb_neq _ _)) by lia. done.
Qed.

Lemma inserts_keep ks r k c : rolling_ok r -> kept r k c -> 0 <= c <= 2 -> Z.of_nat (length ks) <= slack r c -> rolling_contains (foldl rolling_insert r ks) k = true.
Proof.
  revert r c. induction ks as [|k' ks IH]; intros r c Hr Hk Hc Hs; cbn [foldl]; [by apply (kept_contains r k c)|]. cbn [length] in Hs. destruct (insert_keeps r k k' c Hr Hk Hc ltac:(lia)) as (c' & Hc' & Hk' & Hs').
  apply (IH _ c'); [by apply rolling_insert_spec|done..|lia].
Qed.

Lemma rolling_ok_inserts ks r : rolling_ok r -> rolling_ok (foldl rolling_insert r ks).
Proof. revert r. induction ks as [|k ks IH]; intros r Hr; cbn [foldl]; [done|]. apply IH. by apply rolling_insert_spec. Qed.

Lemma rolling_ok_new n hf bits tweak : 1 <= n -> 0 < bits <= 2 ^ 32 - 64 -> rolling_ok (CRollingBloomFilter_new n hf bits tweak).
Proof.
  intros Hn Hb. assert (1 <= (bits + 63) / 64) as H1 by (apply Z.div_le_lower_bound; lia). assert (2 * ((bits + 63) / 64) <= 2 ^ 32) as H2 by (pose proof (Z.mul_div_le (bits + 63) 64 ltac:(lia)); lia).
  assert (1 <= (n + 1) / 2) as H3 by (apply Z.div_le_lower_bound; lia). split; [|cbn; lia]. unfold words_ok. cbn. rewrite length_replicate. split_and!; [exists (Z.to_nat ((bits + 63) / 64)); lia|lia|lia].
Qed.

(** The rolling filter remembers the most recent keys.  Whatever was inserted before, a
    key is reported after it was inserted and at least as many other insertions as the
    filter was made for ([nElements]). *)
Theorem rolling_keeps_recent nElements hashFuncs nFilterBits tweak before k after :
  1 <= nElements -> 0 < nFilterBits <= 2 ^ 32 - 64 -> Z.of_nat (length after) <= nElements ->
  rolling_contains (foldl rolling_insert (CRollingBloomFilter_new nElements hashFuncs nFilterBits tweak) (before ++ k :: after)) k = true.
Proof.
  intros Hn Hb Ha. rewrite foldl_app. cbn [foldl]. set (r0 := CRollingBloomFilter_new _ _ _ _). set (r := foldl rolling_insert r0 before).
  assert (rolling_ok r) as Hr by (by apply rolling_ok_inserts, rolling_ok_new). destruct (rolling_insert_spec r k Hr) as (Hr' & Hk & _). apply (inserts_keep after _ k 0); [done|done|lia|].
  assert (forall l r, rolling_ok r -> nEntriesPerGeneration (foldl rolling_insert r l) = nEntriesPerGeneration r) as HE.
  { clear. induction l as [|k l IH]; intros r Hr; cbn [foldl]; [done|]. rewrite IH by (by apply rolling_insert_spec). by destruct (next_generation_spec r Hr) as (_ & _ & E & _). }
  unfold slack. destruct (next_generation_spec r Hr) as (_ & Hlt & EE & _). change (nEntriesPerGeneration (rolling_insert r k)) with (nEntriesPerGeneration (next_generation r)) in *. change (nEntriesThisGeneration (rolling_insert r k)) with (nEntriesThisGeneration (next_generation r) + 1) in *.
  rewrite EE in *. unfold r in *. rewrite HE in * by (by apply rolling_ok_new). cbn [r0 CRollingBloomFilter_new nEntriesPerGeneration] in *. pose proof (Z.mul_div_le (nElements + 1) 2 ltac:(lia)). pose proof (Z.mod_pos_bound (nElements + 1) 2 ltac:(lia)). pose proof (Z.div_mod (nElements + 1) 2 ltac:(lia)). lia.
Qed.

(** ** Witnesses *)

(** The values of src/src/test/hash_tests.cpp. *)
Lemma murmur_vectors : MurmurHash3 0xFBA4C795 [] = 0x6a396f08 /\ MurmurHash3 0xFBA4C795 [0] = 0xea3f0b17 /\ MurmurHash3 0 [0x00; 0x11] = 0x16c6b7ab /\
  MurmurHash3 0 [0x00; 0x11; 0x22] = 0x8eb51c3d /\ MurmurHash3 0 [0x00; 0x11; 0x22; 0x33; 0x44; 0x55; 0x66; 0x77; 0x88] = 0xb4698def.
Proof. vm_compute. repeat split. Qed.

(** A filter for one pushed value, a payment with it, and a transaction that spends it. *)
Definition toy_GetHash (tx : CTransaction) : uint256 := le_bytes 32 (nLockTime tx).
Definition toy_pay_tx : CTransaction := mkTx 1 0 [] [txout 5 [1; 42]] 3 [].
Definition toy_spend_tx : CTransaction := mkTx 1 0 [mkTxIn (mkOutPoint (le_bytes 32 3) 0) [] 0] [] 4 [].
Definition toy_filter : CBloomFilter := match bloom_insert (CBloomFilter_new 64 5 9 BLOOM_UPDATE_ALL) [42] with Ok f => f | Err _ => CBloomFilter_default end.

Lemma filtered_block_complete_witness : exists mb g t ps root, CMerkleBlock_filter toy_GetHash toy_bls toy_hash [toy_pay_tx; toy_spend_tx] toy_filter = Ok (mb, g) /\
  unser (ser (mb_txn mb) ++ []) = Ok (t, []) /\
  ExtractMatches toy_hash t [] = Ok (root, ((fun p => [le_bytes 32 3; le_bytes 32 4] !!! p) <$> ps, Z.of_nat <$> ps, false)) /\ 0%nat ∈ ps /\ 1%nat ∈ ps.
Proof.
  destruct (ComputeMerkleRoot toy_hash (toy_GetHash <$> [toy_pay_tx; toy_spend_tx]) true) as [[root m]|] eqn:E; [|vm_compute in E; discriminate].
  assert (m = false) as -> by (vm_compute in E; congruence).
  destruct (filtered_block_complete toy_GetHash toy_bls toy_hash [toy_pay_tx; toy_spend_tx] toy_filter root [] toy_hash_ok) as (mb & g & t & ps & H1 & H2 & H3 & _ & Hw & Hu & _).
  - apply Forall_fmap, Forall_true. intros tx. split; [apply le_bytes_length|apply le_bytes_byte].
  - cbn. lia.
  - discriminate.
  - exact E.
  - intros H. vm_compute in H. discriminate H.
  - exists mb, g, t, ps, root. split; [exact H1|]. split; [exact H2|]. split; [exact H3|]. split.
    + apply (Hw 0%nat toy_pay_tx); [reflexivity|reflexivity|]. exists [42]. split; [apply (list_elem_of_lookup_2 _ 1%nat); vm_compute; reflexivity|vm_compute; reflexivity].
    + apply (Hu 0%nat 1%nat toy_pay_tx toy_spend_tx); [lia|reflexivity..|]. exists 0%nat, (txout 5 [1; 42]), [42], (mkTxIn (mkOutPoint (le_bytes 32 3) 0) [] 0).
      split; [reflexivity|]. split; [apply (list_elem_of_lookup_2 _ 0%nat); vm_compute; reflexivity|]. split; [vm_compute; reflexivity|]. split; [vm_compute; reflexivity|]. split; [by left|reflexivity].
Defined.

Lemma rolling_keeps_recent_witness : rolling_contains (foldl rolling_insert (CRollingBloomFilter_new 4 3 200 77) ([[1]; [2]; [3]; [4]; [5]] ++ [6] :: [[7]; [8]; [9]; [10]])) [6] = true.
Proof. apply rolling_keeps_recent; cbn; lia. Defined.
